(* ===== verification/_CoqProject ===== *)
-Q . S2P
Prelude.v
Packet.v
Session.v
Reliable.v
ReplayWindow.v
Stream.v
Netip.v
IPPool.v
RouteRegistry.v
Fragment.v
Crypto.v
Codec.v
CodecLaws.v
DataChannel.v
ControlWrap.v
GoStrings.v
Base64.v
Lzo.v
Compression.v
KeyMethod.v
Options.v
Negotiation.v
NetipText.v
PushOptions.v
PushLaws.v
TunnelConfig.v
TunnelLaws.v
Mss.v
Admission.v
Auth.v
Supervisor.v
KeyState.v
DataQueue.v
ControlChannel.v
ControlLaws.v
CertSubject.v
Certificates.v
DataPath.v
DataPathLaws.v
KeyUse.v
ServerSessions.v
ServerSessionLaws.v
Keepalive.v
ServerTunnel.v
ClientSession.v
ServerHandshake.v
Establish.v
Listener.v
ListenerLaws.v
Keys.v
Static.v
StaticLaws.v
Lifecycle.v
TLSConfig.v
ControlLoop.v
Buffers.v
Wiring.v
