(* ===== verification/Prelude.v ===== *)
(** * A verification development for sing-openvpn

    sing-openvpn is an OpenVPN client and server written in Go.  This library
    models its protocol code as executable definitions and proves what the code
    relies on.

    ** The program

    A server ([server.go]) listens for datagrams or streams; a client ([client.go]) has
    a supervisor that keeps one session with one of its remotes, and starts another when
    it ends.  A session runs over a packet connection (a datagram socket, or a stream
    with length prefixes).  A server keeps nothing of a client that has not shown, by
    returning a cookie, that it receives at its address.  Control packets pass the
    protection of tls-auth, tls-crypt or tls-crypt-v2 and the reliability layer, which
    hands them to TLS in order.  Inside TLS the two ends exchange key method messages,
    from which they derive key material and learn each other's options; the server
    authenticates the client; they agree on a data channel cipher; and the server pushes
    the client's configuration, for which it takes addresses from its pools.  Sessions
    renegotiate their keys, and receive with the last few of them.  Data packets are
    compressed, fragmented and encrypted by a codec built from the key material, and are
    checked against a replay window when they arrive.  The server forwards packets
    between clients with a registry of peer routes, which also refuses forged source
    addresses.  In the mode with a static key there is no control channel, and the
    server is a client that listens.

    ** The files

    Foundations:
    - [Prelude]: errors as values ([result]), machine integers, record update,
      tactics, and the lemmas on lists and integers that several files use.
    - [Netip], [NetipText]: what the code uses of [net/netip] and of [net].
    - [GoStrings], [Base64]: what it uses of [strings], [strconv] and
      [encoding/base64].
    - [Crypto]: the interfaces of ciphers and digests, the chaining modes and the
      padding.

    Packets and the wire:
    - [Packet]: [proto/packet.go], the wire format.
    - [Session]: [proto/session.go], session ids, key ids and packet id counters.
    - [Reliable]: [proto/reliable.go], retransmission and reordering.
    - [ReplayWindow]: [replay_window.go].
    - [Stream]: [proto/connection.go], packets over a byte stream.

    The data channel:
    - [Codec], [CodecLaws]: the [data_codec] files; the class [LawfulCodec] is what
      a codec promises to the data channel, and every codec has an instance.
    - [DataChannel]: the receiving side of the data channel, proved against
      [LawfulCodec].
    - [Fragment], [Lzo], [Compression]: [data_channel_fragmentation.go],
      [lzo_compress.go] with the LZO1X format as a reference decoder, and the framing
      that puts compression and fragmentation together.
    - [Mss]: [mss_clamp.go], [mss_budget.go].
    - [DataQueue]: [data_queue.go], with a bounded list as its specification.
    - [DataPath], [DataPathLaws]: [peer_data.go], [client_data.go], [server_data.go], the
      way of packets through a session of either role.
    - [Buffers]: the variants of the same functions that own the buffers they are
      handed.

    The control channel and its keys:
    - [ControlWrap], [Keys]: [control_wrap.go], and the keys from files.
    - [ControlChannel], [ControlLaws], [ControlLoop]: [control_channel.go],
      [control_stream.go]: one channel, the stream two of them make, and the reader that
      serves a session's channels.
    - [KeyMethod]: [key_method.go], the messages and the key derivation.
    - [KeyState], [KeyUse]: [renegotiation.go], the key tables of a session, and the
      packet ids its keys are used with.
    - [Keepalive]: [client_keepalive.go], [server_ping.go], [server_renegotiation.go].

    Options and what the ends tell each other:
    - [Options]: [options.go] and [options_validation.go].
    - [Negotiation]: [cipher_negotiation.go], [server_negotiation.go] and the
      announcements of [key_method.go].
    - [PushOptions], [PushLaws]: [push_options.go], [pull_options.go],
      [route_options.go]: what the server pushes and what the client makes of it.
    - [TunnelConfig], [TunnelLaws]: [client_tunnel.go], [tunnel_options.go]: the client's
      configuration, and the events that tell its program of it.

    Who is at the other end:
    - [CertSubject], [Certificates], [TLSConfig]: [certificate_subject.go],
      [certificate_purpose.go], [peer_certificate_verifier.go], [tls_config.go].
    - [Auth]: [auth.go], [challenge.go].
    - [Admission]: [session_id_hmac.go], [udp_predecrypt.go],
      [server_resource_policy.go].

    The client:
    - [Supervisor]: [client.go], [client_supervisor.go], [client_restart.go].
    - [ClientSession]: [client_session_tls.go], [client_control.go].
    - [Lifecycle]: what a session holds while it is brought up and closed
      ([client_session_tls.go], [peer_session.go], [client_session_static.go]).

    The server:
    - [IPPool], [RouteRegistry], [ServerTunnel]: [ip_pool.go],
      [peer_route_registry.go], [server_tunnel.go].
    - [ServerSessions], [ServerSessionLaws]: [server_tls.go], [server_identity.go], the
      registries of sessions.
    - [ServerHandshake]: [server_session.go], the handshake and the control loop.
    - [Listener], [ListenerLaws]: [server.go], [server_listener.go], [udp_peer_conn.go].

    Both together:
    - [Establish]: the handshake of [ClientSession] with that of [ServerHandshake].
    - [Static], [StaticLaws]: [client_session_static.go], [server_static.go].
    - [Wiring]: the material of sessions, observers and deadlines of channels, reads of
      sockets, closing of transports.

    ** What the theorems show

    - The data channel: over a network that loses, repeats and reorders, an end delivers
      only what the other sent and nothing twice ([data_channel_exactly_once]); what is
      written in a batch and arrives in order is delivered in order, with the hooks of the
      client and of the server ([data_path_end_to_end], [static_tunnel_end_to_end]);
      framing and LZO are undone ([framing_roundtrip], [lzo_roundtrip]); segment sizes of
      SYN segments, as the standards define them, are clamped with a valid checksum
      ([mss_clamp_correct]); buffers are released once ([buffers_released_once]); the
      ring buffer is a bounded list ([queue_refines_bounded_list]).
    - The control channel: two channels make a reliable stream
      ([control_stream_prefix]) whose packets fit the path ([control_packets_fit]), the
      reader's batches are transparent ([reader_round_faithful]) and its users are woken
      ([primary_stream_served]); ends with the same key files understand each other
      ([configured_ends_interoperate]); replays are refused
      ([AcceptLongForm_no_replay]); reading a packet returns ([ReadPacket_returns]).
    - Keys: both ends derive the same material ([key_exchange_agreement]) for the same
      cipher ([cipher_negotiation_agrees], [established_sessions_agree]); keys change
      without a gap while no other renegotiation stages one ([key_change_without_gap]),
      no packet id is used twice with a key ([packet_ids_never_reused]), and the tables
      stay consistent and keys within their limits ([key_states_consistent],
      [key_usage_bounded]).
    - Who is admitted: [cookie_binds_client], [challenge_answer_accepted],
      [session_needs_cookie], [refused_client_gets_nothing], [tls_peers_verified],
      [challenge_resolved_once].
    - The server: sessions, addresses, routes and slots are accounted for in every
      interleaving ([registries_consistent], [bound_session_isolated],
      [tunnel_addresses_owned], [client_slots_accounted], [server_queue_owned],
      [link_reads_isolated]).
    - The client: pushed options arrive whole and leave the configuration well formed
      ([push_reply_reassembled], [configurations_well_formed],
      [events_delivered_in_order]); waiting programs are woken ([wait_ready_woken]); an
      idle session survives ([idle_session_survives]); a closed one holds nothing,
      its renegotiations included ([closed_session_leaves_nothing]).

    Each of these that has hypotheses is applied at a concrete input by its witness.  Where
    the code does something else than it means to, a theorem or an example shows it
    ([observers_missed] of [Wiring], for instance).

    ** How the model corresponds to the code

    A Go function is a definition of the same name where names allow; a method takes the
    receiver's state and returns the new one with its results.  Methods that hold the
    object's lock for their whole body are atomic transitions, and sequences of calls are
    lists of operations.  Where goroutines interleave within a method, its parts are the
    rules of a step relation and theorems hold of every reachable state.  Shared objects
    (sessions, renegotiations, codecs) are entries of a store under their identity;
    closing a channel twice is [None], as are other panics.  Procedures that
    talk to the world return the trace of what they did.  Loops are structural, or take
    fuel that is the length of what they consume, and theorems say that it suffices; a
    loop that waits is a function of the list of what it meets.  Integers keep their
    widths: conversions and wrapping additions are written out ([u8], [u16], [u32],
    [u64] and the signed ones).  Errors are the constructors of [goerr], and for the
    client's decisions [clientErr], with the source's texts.  What the program takes from
    outside is an argument: the clock, random numbers, the iteration order of Go's maps,
    the outcomes of a socket's reads and writes, the choices of [select], the
    cryptographic libraries (the record [Crypto]), the records [X509] and [TLSLibrary]
    of the certificate libraries, the decompressors, TLS exporters.  Laws of the
    libraries are named hypotheses of the theorems that need them.

    ** Fuel

    Fuel is the length of the input or of the output in the cipher modes, the LZO
    loops, the PRF, the scanners, and the loops over ASN.1 and PEM; the number of
    buffers in the eviction of fragments; the number of fragments (at most 33) in their
    encoding; the length of the acknowledgment list in the reliability layer; the width
    of the range in the searches of the address pools (65538 for IPv6); twenty digits for
    numbers in decimal; nine groups for an IPv6 text.  The stream reader's fuel bounds
    the number of reads one packet can take: every read returns data, or counts
    towards the limit of empty reads.

    ** Not modelled

    - TLS itself, sockets and dialling, the resolver, files: other programs or the
      system; what they answer is an argument.
    - Building certificate chains and checking signatures, with the re-signing that makes
      the insecure certificate profile acceptable to [crypto/x509]
      ([peer_certificate_verifier.go]): it is made of calls into the library, whose
      verdict the record [X509] gives.
    - The decompressors of LZO and LZ4, which are libraries; the LZO1X decoder here is
      the reference for the compressor of the program.
    - Logging, the text of error types, and accessors that return a field.
    - Resumed TLS sessions: [tls_peers_verified] is about full handshakes.
    - Panics of indexing in the parsers of datagrams ([udp_predecrypt.go], the routing of
      [server_tls.go]), which the model reads with total functions behind the code's
      guards.  Where a panic is [None] (LZO, queues, buffers, channels) theorems rule it
      out.
    - The order of other goroutines within one batch of datagrams ([Listener]) and within
      one tick of a control channel's sender: each is one step.
    - The real time that timers and goroutines take: a timer's firing is a step.
    - [test/], which runs the program against OpenVPN in containers. *)

From Stdlib Require Import ZArith Lia.
From Stdlib Require Export Strings.Byte.
From stdpp Require Export sorting option gmap strings.
From stdpp Require Export base numbers list.
#[global] Open Scope Z_scope.

(** ** Errors

    Go returns [(value, error)]; a call whose error is non-nil never has its
    value used by the code modelled here, so a call is a [result]. *)

Inductive goerr :=
| ErrNew (message : string)
| ErrExtend (base : goerr) (message : string)
| ErrExtendCause (base : goerr) (message : string) (cause : goerr)
| ErrCause (cause : goerr) (message : string).

#[export] Instance goerr_eq_dec : EqDecision goerr.
Proof. solve_decision. Defined.

Inductive result (A : Type) :=
| Ok (value : A)
| Err (error : goerr).
Arguments Ok {A} value.
Arguments Err {A} error.

#[export] Instance result_ret : MRet result := @Ok.
#[export] Instance result_bind : MBind result := λ A B f r,
  match r with Ok x => f x | Err e => Err e end.
#[export] Instance result_fmap : FMap result := λ A B f r,
  match r with Ok x => Ok (f x) | Err e => Err e end.

#[export] Instance result_eq_dec `{EqDecision A} : EqDecision (result A).
Proof. intros [x|e] [y|f]; try (right; discriminate).
  - destruct (decide (x = y)); [left|right]; congruence.
  - destruct (decide (e = f)); [left|right]; congruence.
Defined.

Lemma result_bind_Ok {A B} (f : A → result B) r y :
  (r ≫= f) = Ok y ↔ ∃ x, r = Ok x ∧ f x = Ok y.
Proof. destruct r as [x|e]; cbn; naive_solver. Qed.

(** Takes a successful chain of binds apart. *)
Ltac inv_bind H :=
  repeat (let x := fresh "x" in let E := fresh "E" in
          apply result_bind_Ok in H as (x & E & H);
          try match type of x with prod _ _ => destruct x as [? ?] end).


(** ** Machine integers *)

Definition u8 (z : Z) : Z := z mod 2 ^ 8.
Definition u16 (z : Z) : Z := z mod 2 ^ 16.
Definition u32 (z : Z) : Z := z mod 2 ^ 32.
Definition u64 (z : Z) : Z := z mod 2 ^ 64.

#[global] Arguments u8 : simpl never.
#[global] Arguments u16 : simpl never.
#[global] Arguments u32 : simpl never.
#[global] Arguments u64 : simpl never.

Definition MaxUint8 : Z := 255.
Definition MaxUint16 : Z := 65535.
Definition MaxUint32 : Z := 4294967295.

Lemma u16_range z : 0 ≤ u16 z < 65536.
Proof. apply Z.mod_pos_bound. lia. Qed.
Lemma u32_range z : 0 ≤ u32 z < 4294967296.
Proof. apply Z.mod_pos_bound. lia. Qed.
Lemma u64_range z : 0 ≤ u64 z < 18446744073709551616.
Proof. apply Z.mod_pos_bound. lia. Qed.
Lemma u16_small z : 0 ≤ z < 65536 → u16 z = z.
Proof. intros. apply Z.mod_small. lia. Qed.
Lemma u32_small z : 0 ≤ z < 4294967296 → u32 z = z.
Proof. intros. apply Z.mod_small. lia. Qed.
Lemma u64_small z : 0 ≤ z < 18446744073709551616 → u64 z = z.
Proof. intros. apply Z.mod_small. lia. Qed.

(** ** Bytes

    A Go [[]byte] is a [list byte]; [b2z] and [z2b] are the conversions
    [int(b)] and [byte(n)] (which truncates). *)

Abbreviation bytes := (list byte) (only parsing).

Definition b2z (b : byte) : Z := Z.of_N (Byte.to_N b).

Definition z2b (z : Z) : byte := default x00 (Byte.of_N (Z.to_N (z mod 256))).

#[export] Instance byte_eq_dec : EqDecision byte.
Proof. intros a b. destruct (Byte.byte_eq_dec a b); [left|right]; done. Defined.

Lemma b2z_range b : 0 ≤ b2z b < 256.
Proof. unfold b2z. pose proof (Byte.to_N_bounded b). lia. Qed.

Lemma b2z_z2b z : b2z (z2b z) = z mod 256.
Proof.
  unfold b2z, z2b. pose proof (Z.mod_pos_bound z 256 ltac:(lia)) as Hr.
  destruct (Byte.of_N (Z.to_N (z mod 256))) as [b|] eqn:E; simpl.
  - apply Byte.to_of_N in E. rewrite E. lia.
  - apply Byte.of_N_None_iff in E. lia.
Qed.

Lemma b2z_inj a b : b2z a = b2z b → a = b.
Proof.
  unfold b2z. intros H%N2Z.inj.
  pose proof (Byte.of_to_N a) as Ha. pose proof (Byte.of_to_N b) as Hb.
  rewrite H in Ha. congruence.
Qed.
#[export] Instance b2z_Inj : Inj (=) (=) b2z := b2z_inj.

Lemma z2b_b2z b : z2b (b2z b) = b.
Proof.
  apply b2z_inj. rewrite b2z_z2b. apply Z.mod_small, b2z_range.
Qed.

Lemma b2z_z2b_small z : 0 ≤ z < 256 → b2z (z2b z) = z.
Proof. intros. rewrite b2z_z2b. apply Z.mod_small. lia. Qed.

(** ** Big-endian codecs: [binary.BigEndian] *)

Fixpoint be_encode (n : nat) (z : Z) : bytes :=
  match n with
  | O => []
  | S m => z2b (z / 256 ^ Z.of_nat m) :: be_encode m z
  end.

Definition be_decode (l : bytes) : Z :=
  foldl (λ acc b, acc * 256 + b2z b) 0 l.

Lemma length_be_encode n z : length (be_encode n z) = n.
Proof. induction n as [|n IH]; simpl; [done|]. by rewrite IH. Qed.

Lemma be_foldl_acc l acc :
  foldl (λ acc b, acc * 256 + b2z b) acc l
  = acc * 256 ^ Z.of_nat (length l) + be_decode l.
Proof.
  unfold be_decode. revert acc.
  induction l as [|b l IH]; intros acc; cbn [foldl length].
  - change (256 ^ Z.of_nat 0) with 1. lia.
  - rewrite IH, (IH (0 * 256 + b2z b)).
    rewrite Nat2Z.inj_succ, Z.pow_succ_r by lia. lia.
Qed.

Lemma be_decode_cons b l :
  be_decode (b :: l) = b2z b * 256 ^ Z.of_nat (length l) + be_decode l.
Proof. unfold be_decode at 1. cbn [foldl]. by rewrite be_foldl_acc, Z.mul_0_l. Qed.

Lemma pow256_pos n : 0 < 256 ^ Z.of_nat n.
Proof. apply Z.pow_pos_nonneg; lia. Qed.
#[export] Hint Resolve pow256_pos : core.

Lemma be_decode_range l : 0 ≤ be_decode l < 256 ^ Z.of_nat (length l).
Proof.
  induction l as [|b l IH]; [cbn; lia|].
  rewrite be_decode_cons. cbn [length].
  rewrite Nat2Z.inj_succ, Z.pow_succ_r by lia.
  pose proof (b2z_range b). nia.
Qed.

Lemma be_decode_encode n z : be_decode (be_encode n z) = z mod 256 ^ Z.of_nat n.
Proof.
  induction n as [|n IH]; [cbn; by rewrite Z.mod_1_r|].
  cbn [be_encode]. rewrite be_decode_cons, length_be_encode, IH, b2z_z2b.
  rewrite Nat2Z.inj_succ, Z.pow_succ_r by lia.
  rewrite (Z.mul_comm 256), Z.rem_mul_r by (pose proof (pow256_pos n); lia). lia.
Qed.

Lemma be_decode_encode_small n z :
  0 ≤ z < 256 ^ Z.of_nat n → be_decode (be_encode n z) = z.
Proof. intros. rewrite be_decode_encode. by apply Z.mod_small. Qed.

Lemma be_decode_inj l l' :
  length l = length l' → be_decode l = be_decode l' → l = l'.
Proof.
  revert l'. induction l as [|b l IH]; intros [|b' l']; try done.
  intros [= Hlen]. rewrite !be_decode_cons, Hlen. intros H.
  pose proof (be_decode_range l). pose proof (be_decode_range l').
  rewrite Hlen in *. pose proof (pow256_pos (length l')).
  assert (b2z b = b2z b') as Hb by nia.
  f_equal; [by apply b2z_inj|]. apply IH; [done|]. rewrite Hb in H. lia.
Qed.

Lemma be_encode_decode l n : length l = n → be_encode n (be_decode l) = l.
Proof.
  intros <-. apply be_decode_inj; [by rewrite length_be_encode|].
  rewrite be_decode_encode. apply Z.mod_small, be_decode_range.
Qed.

#[global] Arguments be_encode : simpl never.
#[global] Arguments be_decode : simpl never.

Definition PutUint16 (z : Z) : bytes := be_encode 2 z.
Definition PutUint32 (z : Z) : bytes := be_encode 4 z.
Definition Uint16 (l : bytes) : Z := be_decode (take 2 l).
Definition Uint32 (l : bytes) : Z := be_decode (take 4 l).

Lemma length_PutUint16 z : length (PutUint16 z) = 2%nat.
Proof. apply length_be_encode. Qed.
Lemma length_PutUint32 z : length (PutUint32 z) = 4%nat.
Proof. apply length_be_encode. Qed.

#[global] Arguments PutUint16 : simpl never.
#[global] Arguments PutUint32 : simpl never.

(** ** Slices: [l[a:b]] and the tail [l[a:]] *)

Definition slice {A} (a b : nat) (l : list A) : list A := take (b - a) (drop a l).

Definition lenZ {A} (l : list A) : Z := Z.of_nat (length l).

Lemma take_app_exact {A} n (l k : list A) : length l = n → take n (l ++ k) = l.
Proof. intros <-. apply take_app_length. Qed.
Lemma drop_app_exact {A} n (l k : list A) : length l = n → drop n (l ++ k) = k.
Proof. intros <-. apply drop_app_length. Qed.

Lemma be_decode_PutUint16 z : 0 ≤ z < 65536 → be_decode (PutUint16 z) = z.
Proof. intros. apply be_decode_encode_small. done. Qed.

Lemma Uint32_PutUint32_app z k : 0 ≤ z < 2 ^ 32 → Uint32 (PutUint32 z ++ k) = z.
Proof.
  intros Hz. unfold Uint32. rewrite take_app_exact by apply length_PutUint32. unfold PutUint32.
  by rewrite be_decode_encode_small.
Qed.

Lemma Uint16_PutUint16_app z k : 0 ≤ z < 65536 → Uint16 (PutUint16 z ++ k) = z.
Proof.
  intros Hz. unfold Uint16. rewrite take_app_exact by apply length_PutUint16. by apply be_decode_PutUint16.
Qed.

(** The lengths of the byte strings the code builds. *)
Create Rewrite HintDb golen.
#[export] Hint Rewrite @length_app @length_take @length_drop @length_replicate @length_fmap
  length_be_encode length_PutUint16 length_PutUint32 @length_reverse @length_insert : golen.

(** Closes goals about lengths. *)
Ltac golen := unfold lenZ in *; cbn [length] in *; autorewrite with golen in *; cbn [length] in *; lia.

Lemma filter_Forall_id {A} (P : A → Prop) `{∀ x, Decision (P x)} l :
  Forall P l → filter P l = l.
Proof. induction 1; [done|]. rewrite filter_cons, decide_True by done. by f_equal. Qed.

Lemma StronglySorted_filter {A} (R : A → A → Prop) (P : A → Prop) `{∀ x, Decision (P x)} l :
  StronglySorted R l → StronglySorted R (filter P l).
Proof.
  induction 1 as [|x l Hl IH Hx]; [constructor|]. rewrite filter_cons. case_decide; [|done].
  constructor; [done|]. rewrite Forall_forall in Hx |- *.
  intros y [_ Hy]%list_elem_of_filter. auto.
Qed.

(** Every list is empty or ends in an element. *)
Lemma destruct_list_last {A} (l : list A) : l = [] ∨ ∃ k x, l = k ++ [x].
Proof. induction l using rev_ind; eauto. Qed.

Lemma size_add_le (x : Z) (s : gset Z) : (size ({[x]} ∪ s) ≤ S (size s))%nat.
Proof.
  destruct (decide (x ∈ s)).
  - replace ({[x]} ∪ s) with s by set_solver. lia.
  - rewrite size_union by set_solver. rewrite size_singleton. lia.
Qed.

(** ** Readers: [bytes.Reader], [io.ReadFull] and [binary.Read]

    A reader is the bytes it has left. [io.ReadFull] reports [EOF] when nothing
    was left and [unexpected EOF] when the read stopped in the middle. *)

Definition io_EOF : goerr := ErrNew "EOF".
Definition io_ErrUnexpectedEOF : goerr := ErrNew "unexpected EOF".

Definition ReadFull (n : nat) (reader : bytes) : result (bytes * bytes) :=
  if decide (n ≤ length reader)%nat then Ok (take n reader, drop n reader)
  else match reader with [] => Err io_EOF | _ => Err io_ErrUnexpectedEOF end.

Definition ReadUint16 (reader : bytes) : result (Z * bytes) :=
  '(word, rest) ← ReadFull 2 reader; Ok (be_decode word, rest).

Definition ReadUint32 (reader : bytes) : result (Z * bytes) :=
  '(word, rest) ← ReadFull 4 reader; Ok (be_decode word, rest).

(** Replace the error of a failed call: [return nil, E.Extend(base, message, err)]. *)
Definition extend_err {A} (base : goerr) (message : string) (r : result A) : result A :=
  match r with Ok x => Ok x | Err e => Err (ErrExtendCause base message e) end.

Lemma extend_err_Ok {A} base message (r : result A) x :
  extend_err base message r = Ok x ↔ r = Ok x.
Proof. destruct r; simpl; naive_solver. Qed.

Lemma ReadFull_Ok n r a k : ReadFull n r = Ok (a, k) ↔ length a = n ∧ r = a ++ k.
Proof.
  unfold ReadFull. case_decide.
  - split.
    + intros [= <- <-]. rewrite length_take, take_drop. split; [lia|done].
    + intros [<- ->]. by rewrite take_app_length, drop_app_length.
  - split; [by destruct r|]. intros [<- ->]. exfalso. rewrite length_app in *. lia.
Qed.

Lemma ReadFull_app n a k : length a = n → ReadFull n (a ++ k) = Ok (a, k).
Proof. intros. by apply ReadFull_Ok. Qed.

Lemma ReadFull_enough n r : (n ≤ length r)%nat → ReadFull n r = Ok (take n r, drop n r).
Proof. intros. unfold ReadFull. by rewrite decide_True. Qed.

Lemma ReadUint16_app z k : ReadUint16 (be_encode 2 z ++ k) = Ok (u16 z, k).
Proof.
  unfold ReadUint16. rewrite ReadFull_app by apply length_be_encode. cbn.
  by rewrite be_decode_encode.
Qed.

Lemma ReadUint32_app z k : ReadUint32 (be_encode 4 z ++ k) = Ok (u32 z, k).
Proof.
  unfold ReadUint32. rewrite ReadFull_app by apply length_be_encode. cbn.
  by rewrite be_decode_encode.
Qed.

Lemma ReadUint32_Ok r z k :
  ReadUint32 r = Ok (z, k) ↔ 0 ≤ z < 2 ^ 32 ∧ r = be_encode 4 z ++ k.
Proof.
  unfold ReadUint32. rewrite result_bind_Ok. split.
  - intros ([a k'] & [Hlen ->]%ReadFull_Ok & [= <- <-]).
    split; [|by rewrite be_encode_decode].
    pose proof (be_decode_range a) as Hr. by rewrite Hlen in Hr.
  - intros [Hz ->]. eexists (be_encode 4 z, k).
    rewrite ReadFull_app by apply length_be_encode.
    by rewrite be_decode_encode_small.
Qed.

Lemma ReadUint16_Ok r z k :
  ReadUint16 r = Ok (z, k) ↔ 0 ≤ z < 2 ^ 16 ∧ r = be_encode 2 z ++ k.
Proof.
  unfold ReadUint16. rewrite result_bind_Ok. split.
  - intros ([a k'] & [Hlen ->]%ReadFull_Ok & [= <- <-]).
    split; [|by rewrite be_encode_decode].
    pose proof (be_decode_range a) as Hr. by rewrite Hlen in Hr.
  - intros [Hz ->]. eexists (be_encode 2 z, k).
    rewrite ReadFull_app by apply length_be_encode.
    by rewrite be_decode_encode_small.
Qed.

(** ** Time

    [time.Time] is the nanoseconds since Go's zero time, which is [0];
    [time.Duration] is nanoseconds. *)

Abbreviation Time := Z (only parsing).
Definition IsZero (t : Time) : bool := t =? 0.
Definition Second : Z := 1000000000.

(** Signed 64-bit wrap-around of [int] and [time.Duration]. *)
Definition s64 (z : Z) : Z := (z + 2 ^ 63) mod 2 ^ 64 - 2 ^ 63.
#[global] Arguments s64 : simpl never.

Lemma s64_small z : -(2 ^ 63) ≤ z < 2 ^ 63 → s64 z = z.
Proof. intros. unfold s64. rewrite Z.mod_small by lia. lia. Qed.

(** ** Stable sorting by an integer key: [sort.SliceStable] *)

Section sort_by.
Context {A : Type} (key : A → Z).

Fixpoint insert_by (x : A) (l : list A) : list A :=
  match l with
  | [] => [x]
  | y :: l => if key x <=? key y then x :: y :: l else y :: insert_by x l
  end.

Definition sort_by (l : list A) : list A := foldr insert_by [] l.

Definition sorted_by (l : list A) : Prop := StronglySorted Z.le (key <$> l).

Lemma insert_by_perm x l : insert_by x l ≡ₚ x :: l.
Proof.
  induction l as [|y l IH]; simpl; [done|].
  destruct (key x <=? key y); [done|]. rewrite IH. constructor.
Qed.

Lemma sort_by_perm l : sort_by l ≡ₚ l.
Proof. induction l as [|x l IH]; simpl; [done|]. by rewrite insert_by_perm, IH. Qed.

Lemma insert_by_sorted x l : sorted_by l → sorted_by (insert_by x l).
Proof.
  unfold sorted_by. induction l as [|y l IH]; intros Hl; simpl.
  { repeat constructor. }
  inversion Hl as [|?? Hl' Hall]; subst. destruct (Z.leb_spec (key x) (key y)).
  - simpl. constructor; [done|]. constructor; [done|].
    rewrite Forall_forall in Hall |- *. intros z Hz. specialize (Hall z Hz). lia.
  - simpl. constructor; [by apply IH|]. rewrite insert_by_perm. simpl.
    constructor; [lia|done].
Qed.

Lemma sort_by_sorted l : sorted_by (sort_by l).
Proof. induction l as [|x l IH]; simpl; [constructor|by apply insert_by_sorted]. Qed.

Lemma insert_by_min x l : Forall (λ y, key x ≤ key y) l → insert_by x l = x :: l.
Proof. destruct 1; simpl; [done|]. by rewrite (proj2 (Z.leb_le _ _)). Qed.

Lemma sort_by_id l : sorted_by l → sort_by l = l.
Proof.
  unfold sorted_by. induction l as [|x l IH]; intros Hl; simpl; [done|].
  inversion Hl; subst. rewrite IH by done. apply insert_by_min.
  by apply (Forall_fmap key) in H2.
Qed.

(** With distinct keys a sorted list is determined by its elements. *)
Lemma sorted_by_unique l k :
  l ≡ₚ k → NoDup (key <$> l) → sorted_by l → sorted_by k → l = k.
Proof.
  unfold sorted_by. revert k. induction l as [|x l IH]; intros k Hp Hnd Hl Hk.
  { by apply Permutation_nil in Hp. }
  destruct k as [|y k]; [by symmetry in Hp; apply Permutation_nil_cons in Hp|].
  simpl in *. apply NoDup_cons in Hnd as [Hx Hnd].
  inversion Hl as [|?? Hl' Hlx]; inversion Hk as [|?? Hk' Hky]; subst.
  assert (x = y) as ->.
  { assert (y ∈ x :: l) as Hy by (rewrite Hp; left).
    assert (x ∈ y :: k) as Hx' by (rewrite <-Hp; left).
    apply elem_of_cons in Hy as [->|Hy]; [done|].
    apply elem_of_cons in Hx' as [->|Hx']; [done|].
    apply (list_elem_of_fmap_2 key) in Hy as Hy'. apply (list_elem_of_fmap_2 key) in Hx' as Hx2.
    rewrite Forall_forall in Hlx, Hky. specialize (Hlx _ Hy'). specialize (Hky _ Hx2).
    exfalso. apply Hx. replace (key x) with (key y) by lia. done. }
  f_equal. apply IH; [|done..]. by apply Permutation_cons_inv in Hp.
Qed.

Lemma sort_by_unique l k :
  l ≡ₚ k → NoDup (key <$> k) → sorted_by k → sort_by l = k.
Proof.
  intros Hp Hnd Hk. symmetry. apply sorted_by_unique; [|done|done|apply sort_by_sorted].
  by rewrite sort_by_perm.
Qed.
End sort_by.

#[export] Instance sort_by_Permutation_proper {A} (key : A → Z) :
  Proper ((≡ₚ) ==> (≡ₚ)) (sort_by key).
Proof. intros l k H. by rewrite !sort_by_perm. Qed.

(** ** Sums over maps *)

Section map_sum.
Context `{Countable K} {A : Type} (f : A → Z).

Definition map_sum (m : gmap K A) : Z := map_fold (λ _ x acc, f x + acc) 0 m.

Lemma map_sum_empty : map_sum ∅ = 0.
Proof. apply map_fold_empty. Qed.

Lemma map_sum_insert i x m : m !! i = None → map_sum (<[i := x]> m) = f x + map_sum m.
Proof. intros Hi. unfold map_sum. rewrite map_fold_insert_L; [done | | done]. intros. lia. Qed.

Lemma map_sum_delete i x m : m !! i = Some x → map_sum (delete i m) = map_sum m - f x.
Proof.
  intros Hi. rewrite <- (insert_delete_id m i x Hi) at 2. rewrite map_sum_insert by apply lookup_delete_eq. lia.
Qed.

(** Replacing (or adding) an entry. *)
Lemma map_sum_replace i x m : map_sum (<[i := x]> m) = map_sum m + f x - from_option f 0 (m !! i).
Proof.
  destruct (m !! i) as [y |] eqn:Hi; cbn.
  - rewrite <- insert_delete_eq, map_sum_insert by apply lookup_delete_eq. rewrite (map_sum_delete i y m Hi). lia.
  - rewrite map_sum_insert by done. lia.
Qed.

Lemma map_sum_nonneg m : (∀ x, 0 ≤ f x) → 0 ≤ map_sum m.
Proof.
  intros Hf. induction m as [| i x m Hi IH] using map_ind; [by rewrite map_sum_empty |].
  rewrite map_sum_insert by done. specialize (Hf x). lia.
Qed.

Lemma map_sum_nonneg_Forall m : map_Forall (λ _ x, 0 ≤ f x) m → 0 ≤ map_sum m.
Proof.
  induction m as [| i x m Hi IH] using map_ind; [by rewrite map_sum_empty |].
  rewrite map_Forall_insert by done. intros [Hx Hm]. rewrite map_sum_insert by done. specialize (IH Hm). lia.
Qed.

Lemma map_sum_list (l : list (K * A)) :
  NoDup l.*1 → map_sum (list_to_map l) = foldr (λ '(_, x) acc, f x + acc) 0 l.
Proof.
  induction l as [| [i x] l IH]; intros Hnd; [apply map_sum_empty |].
  cbn in *. apply NoDup_cons in Hnd as [Hi Hnd]. rewrite map_sum_insert by by apply not_elem_of_list_to_map_1.
  by rewrite IH.
Qed.

End map_sum.

Lemma map_sum_ext `{Countable K} {A} (f g : A → Z) (m : gmap K A) :
  map_Forall (λ _ x, f x = g x) m → map_sum f m = map_sum g m.
Proof.
  induction m as [| i x m Hi IH] using map_ind; [done |].
  rewrite map_Forall_insert by done. intros [Hx Hm]. rewrite !map_sum_insert by done. rewrite Hx. f_equal. by apply IH.
Qed.

(** ** Bits *)

Lemma lor_shiftl_add a b k : 0 ≤ k → 0 ≤ a < 2 ^ k → Z.lor a (Z.shiftl b k) = a + b * 2 ^ k.
Proof.
  intros Hk Ha. rewrite <- Z.shiftl_mul_pow2 by lia. symmetry. apply Z.add_nocarry_lor.
  apply Z.bits_inj'. intros n Hn. rewrite Z.land_spec, Z.bits_0.
  destruct (Z.ltb_spec n k) as [Hlt | Hge].
  - rewrite Z.shiftl_spec_low by lia. apply andb_false_r.
  - rewrite (proj2 (Z.testbit_false a n ltac:(lia))); [done |].
    rewrite Z.div_small; [done |]. split; [lia |]. eapply Z.lt_le_trans; [apply Ha |]. by apply Z.pow_le_mono_r.
Qed.

Lemma land_ones_small x n : 0 ≤ n → 0 ≤ x < 2 ^ n → Z.land x (Z.ones n) = x.
Proof. intros Hn Hx. rewrite Z.land_ones by lia. by apply Z.mod_small. Qed.

(** ** Writing into buffers *)

(** [copy(dst[off:], src)]: as much of [src] as there is room for. *)
Definition copyAt (dst : bytes) (off : nat) (src : bytes) : bytes :=
  take off dst ++ take (length dst - off) src ++ drop (off + length src) dst.

Lemma length_copyAt dst off src : (off ≤ length dst)%nat → length (copyAt dst off src) = length dst.
Proof. intros H. unfold copyAt. rewrite !length_app, !length_take, length_drop. lia. Qed.

(** A buffer of two parts that are both overwritten. *)
Lemma copyAt_two dst (a b : bytes) :
  length dst = (length a + length b)%nat → copyAt (copyAt dst 0 a) (length a) b = a ++ b.
Proof.
  intros H. unfold copyAt at 2. rewrite take_0, Nat.sub_0_r, (take_ge a) by lia. cbn [app].
  unfold copyAt. rewrite length_app, length_drop. rewrite (take_app_exact (length a) a) by done.
  rewrite (take_ge b) by lia. rewrite drop_ge, app_nil_r; [done |]. rewrite length_app, length_drop. lia.
Qed.

Lemma take_copyAt_two dst (a b : bytes) :
  (length a + length b ≤ length dst)%nat →
  take (length a + length b) (copyAt (copyAt dst 0 a) (length a) b) = a ++ b.
Proof.
  intros H. unfold copyAt at 2. rewrite take_0, Nat.sub_0_r, (take_ge a) by lia. cbn [app].
  unfold copyAt. rewrite length_app, length_drop. rewrite (take_app_exact (length a) a) by done.
  rewrite (take_ge b) by lia. rewrite app_assoc. apply take_app_exact. by rewrite length_app.
Qed.

(** A fact about a range of integers, checked by computation. *)
Lemma by_cases (P : Z → bool) lo n x : forallb P (seqZ lo n) = true → lo ≤ x < lo + n → P x = true.
Proof. intros H Hx. rewrite forallb_forall in H. apply H, list_elem_of_In, elem_of_seqZ. lia. Qed.

(** ** Record update

    [r <| field := v |>] is [r] with one field replaced; a record takes part with
    an instance of [Eta] that rebuilds it from its fields. *)

Class Eta (R : Type) := eta : R → R.
Class Setter {R T : Type} (field : R → T) := setField : T → R → R.

Ltac solve_setter field :=
  match goal with |- @Setter ?R ?T _ =>
    let e := constr:(@eta R _) in
    let e := eval unfold eta in e in
    let e := eval red in e in
    match eval pattern field in e with ?f _ =>
      let s := constr:(λ (v : T), f (λ _ : R, v)) in
      let s := eval cbv beta in s in exact s
    end
  end.

#[export] Hint Extern 0 (Setter ?field) => solve_setter field : typeclass_instances.

Notation "r <| field := v |>" := (setField (field := field) v r)
  (at level 1, field at level 10, left associativity, format "r  <| field  :=  v |>").

(** ** Strings *)

Definition HasPrefix (s p : string) : bool := String.prefix p s.

Definition HasSuffix (s suffix : string) : bool :=
  bool_decide (String.length suffix ≤ String.length s)%nat &&
  bool_decide (String.substring (String.length s - String.length suffix) (String.length suffix) s = suffix).

Definition TrimSuffix (s suffix : string) : string :=
  if HasSuffix s suffix then String.substring 0 (String.length s - String.length suffix) s else s.
