(* ===== verification/Packet.v ===== *)
(** * Wire packets ([proto/packet.go])

    The opcode and key-id octet, the data and control packet layouts, the
    parser [ParsePacket], its zero-copy variant [ParsePacketView] and the
    serializer [Packet.Bytes].  The theorems show that parser and serializer are
    inverse to each other, that the two parsers agree, and exactly which inputs
    are refused. *)

From S2P Require Import Prelude.

(** An [Opcode] is a [uint8]: the parser keeps unknown values. *)
Abbreviation Opcode := Z (only parsing).

Definition OpcodeControlHardResetClientV1 : Opcode := 1.
Definition OpcodeControlHardResetServerV1 : Opcode := 2.
Definition OpcodeControlSoftResetV1 : Opcode := 3.
Definition OpcodeControlV1 : Opcode := 4.
Definition OpcodeAcknowledgmentV1 : Opcode := 5.
Definition OpcodeDataV1 : Opcode := 6.
Definition OpcodeControlHardResetClientV2 : Opcode := 7.
Definition OpcodeControlHardResetServerV2 : Opcode := 8.
Definition OpcodeDataV2 : Opcode := 9.
Definition OpcodeControlHardResetClientV3 : Opcode := 10.
Definition OpcodeControlWKCv1 : Opcode := 11.

Definition Opcode_String (o : Opcode) : string :=
  if o =? OpcodeControlHardResetClientV1 then "P_CONTROL_HARD_RESET_CLIENT_V1"
  else if o =? OpcodeControlHardResetServerV1 then "P_CONTROL_HARD_RESET_SERVER_V1"
  else if o =? OpcodeControlSoftResetV1 then "P_CONTROL_SOFT_RESET_V1"
  else if o =? OpcodeControlV1 then "P_CONTROL_V1"
  else if o =? OpcodeAcknowledgmentV1 then "P_ACK_V1"
  else if o =? OpcodeDataV1 then "P_DATA_V1"
  else if o =? OpcodeControlHardResetClientV2 then "P_CONTROL_HARD_RESET_CLIENT_V2"
  else if o =? OpcodeControlHardResetServerV2 then "P_CONTROL_HARD_RESET_SERVER_V2"
  else if o =? OpcodeDataV2 then "P_DATA_V2"
  else if o =? OpcodeControlHardResetClientV3 then "P_CONTROL_HARD_RESET_CLIENT_V3"
  else if o =? OpcodeControlWKCv1 then "P_CONTROL_WKC_V1"
  else "P_UNKNOWN".

Definition IsControl (o : Opcode) : bool :=
  (o =? OpcodeControlHardResetClientV1) || (o =? OpcodeControlHardResetServerV1)
  || (o =? OpcodeControlSoftResetV1) || (o =? OpcodeControlV1)
  || (o =? OpcodeControlHardResetClientV2) || (o =? OpcodeControlHardResetServerV2)
  || (o =? OpcodeControlHardResetClientV3) || (o =? OpcodeControlWKCv1).

Definition IsData (o : Opcode) : bool :=
  (o =? OpcodeDataV1) || (o =? OpcodeDataV2).

Definition SessionIDLength : nat := 8.
Definition PacketIDLength : nat := 4.

(** Go's fixed-size arrays; their length is part of [Packet_wf]. *)
Abbreviation SessionID := (list byte) (only parsing).
Abbreviation PacketID := Z (only parsing).
Abbreviation PeerID := (list byte) (only parsing).

Definition zeroSessionID : SessionID := replicate SessionIDLength x00.
Definition zeroPeerID : PeerID := replicate 3 x00.

Record Packet := mkPacket {
  pkt_Opcode : Opcode;
  pkt_KeyID : Z;
  pkt_PeerID : PeerID;
  pkt_LocalSessionID : SessionID;
  pkt_AcknowledgmentIDs : list PacketID;
  pkt_RemoteSessionID : SessionID;
  pkt_ID : PacketID;
  pkt_Payload : bytes;
}.

#[export] Instance Packet_eq_dec : EqDecision Packet.
Proof. solve_decision. Defined.

Definition ErrPacketTooShort : goerr := ErrNew "packet too short".
Definition ErrPacketParse : goerr := ErrNew "packet parse error".
Definition ErrPacketSerialize : goerr := ErrNew "packet serialize error".

Definition NewPacket (opcode : Opcode) (keyID : Z) (payload : bytes) : Packet :=
  mkPacket opcode keyID zeroPeerID zeroSessionID [] zeroSessionID 0 payload.

(** The loop reading [acknowledgmentCount] big-endian ids. *)
Fixpoint readAcknowledgmentIDs (count : nat) (reader : bytes) : result (list PacketID * bytes) :=
  match count with
  | O => Ok ([], reader)
  | S count =>
      '(value, reader) ← extend_err ErrPacketParse "read acknowledgment id: " (ReadUint32 reader);
      '(values, reader) ← readAcknowledgmentIDs count reader;
      Ok (value :: values, reader)
  end.

Definition readAcknowledgmentCount (reader : bytes) : result (Z * bytes) :=
  match reader with
  | [] => Err (ErrExtendCause ErrPacketParse "read acknowledgment count: " io_EOF)
  | b :: reader => Ok (b2z b, reader)
  end.

Definition parseControlOrAcknowledgmentPacket
    (opcode : Opcode) (keyID : Z) (packetBody : bytes) : result Packet :=
  if decide (length packetBody < SessionIDLength + 1)%nat then Err ErrPacketTooShort else
  '(localSessionID, reader) ←
     extend_err ErrPacketParse "read local session id: " (ReadFull SessionIDLength packetBody);
  '(acknowledgmentCount, reader) ← readAcknowledgmentCount reader;
  '(acknowledgmentIDs, reader) ← readAcknowledgmentIDs (Z.to_nat acknowledgmentCount) reader;
  '(remoteSessionID, reader) ←
     (if decide (0 < length acknowledgmentIDs)%nat
      then extend_err ErrPacketParse "read remote session id: " (ReadFull SessionIDLength reader)
      else Ok (zeroSessionID, reader));
  '(packetID, reader) ←
     (if opcode =? OpcodeAcknowledgmentV1 then Ok (0, reader)
      else extend_err ErrPacketParse "read packet id: " (ReadUint32 reader));
  Ok (mkPacket opcode keyID zeroPeerID localSessionID acknowledgmentIDs
        remoteSessionID packetID reader).

(** The [DataV2] peer id, shared by both parsers. *)
Definition takePeerID (opcode : Opcode) (packetBody : bytes) : result (PeerID * bytes) :=
  if opcode =? OpcodeDataV2 then
    if decide (length packetBody < 3)%nat then Err ErrPacketTooShort
    else Ok (take 3 packetBody, drop 3 packetBody)
  else Ok (zeroPeerID, packetBody).

Definition ParsePacket (rawPacket : bytes) : result Packet :=
  match rawPacket with
  | [] => Err ErrPacketTooShort
  | head :: packetBody =>
      let opcode := Z.shiftr (b2z head) 3 in
      let keyID := Z.land (b2z head) 7 in
      '(peerID, packetBody) ← takePeerID opcode packetBody;
      if IsControl opcode || (opcode =? OpcodeAcknowledgmentV1)
      then parseControlOrAcknowledgmentPacket opcode keyID packetBody
      else Ok (mkPacket opcode keyID peerID zeroSessionID [] zeroSessionID 0 packetBody)
  end.

Definition ParsePacketView (rawPacket : bytes) : result Packet :=
  match rawPacket with
  | [] => Err ErrPacketTooShort
  | head :: packetBody =>
      let opcode := Z.shiftr (b2z head) 3 in
      if negb (IsData opcode) then ParsePacket rawPacket else
      '(peerID, packetBody) ← takePeerID opcode packetBody;
      Ok (mkPacket opcode (Z.land (b2z head) 7) peerID zeroSessionID [] zeroSessionID 0 packetBody)
  end.

Definition headByte (p : Packet) : byte :=
  z2b (Z.lor (u8 (Z.shiftl (pkt_Opcode p) 3)) (Z.land (pkt_KeyID p) 7)).

(** The control packet body the serializer writes after the head octet. *)
Definition controlBody (p : Packet) : bytes :=
  pkt_LocalSessionID p
  ++ [z2b (lenZ (pkt_AcknowledgmentIDs p))]
  ++ concat (PutUint32 <$> pkt_AcknowledgmentIDs p)
  ++ (if decide (0 < length (pkt_AcknowledgmentIDs p))%nat then pkt_RemoteSessionID p else [])
  ++ (if pkt_Opcode p =? OpcodeAcknowledgmentV1 then [] else PutUint32 (pkt_ID p))
  ++ pkt_Payload p.

Definition Packet_Bytes (p : Packet) : result bytes :=
  if pkt_Opcode p =? OpcodeDataV2 then
    Ok (headByte p :: pkt_PeerID p ++ pkt_Payload p)
  else if IsControl (pkt_Opcode p) || (pkt_Opcode p =? OpcodeAcknowledgmentV1) then
    if decide (MaxUint8 < lenZ (pkt_AcknowledgmentIDs p))
    then Err (ErrExtend ErrPacketSerialize "too many acknowledgments") else
    Ok (headByte p :: controlBody p)
  else Ok (headByte p :: pkt_Payload p).

(** ** Well-formed packets: what the Go types guarantee *)

Record Packet_wf (p : Packet) : Prop := {
  wf_opcode : 0 ≤ pkt_Opcode p < 32;
  wf_keyID : 0 ≤ pkt_KeyID p < 8;
  wf_peerID : length (pkt_PeerID p) = 3%nat;
  wf_local : length (pkt_LocalSessionID p) = SessionIDLength;
  wf_remote : length (pkt_RemoteSessionID p) = SessionIDLength;
  wf_id : 0 ≤ pkt_ID p < 2 ^ 32;
  wf_acks : Forall (λ i, 0 ≤ i < 2 ^ 32) (pkt_AcknowledgmentIDs p);
}.

(** What the wire layout of a packet's opcode carries: the other fields are
    not serialized and read back as their zero values. *)
Definition wirePacket (p : Packet) : Packet :=
  if pkt_Opcode p =? OpcodeDataV2 then
    mkPacket (pkt_Opcode p) (pkt_KeyID p) (pkt_PeerID p) zeroSessionID [] zeroSessionID 0 (pkt_Payload p)
  else if IsControl (pkt_Opcode p) || (pkt_Opcode p =? OpcodeAcknowledgmentV1) then
    mkPacket (pkt_Opcode p) (pkt_KeyID p) zeroPeerID (pkt_LocalSessionID p) (pkt_AcknowledgmentIDs p)
      (if decide (0 < length (pkt_AcknowledgmentIDs p))%nat then pkt_RemoteSessionID p else zeroSessionID)
      (if pkt_Opcode p =? OpcodeAcknowledgmentV1 then 0 else pkt_ID p) (pkt_Payload p)
  else
    mkPacket (pkt_Opcode p) (pkt_KeyID p) zeroPeerID zeroSessionID [] zeroSessionID 0 (pkt_Payload p).

(** ** The head octet *)

Lemma head_split (head : byte) :
  z2b (Z.lor (u8 (Z.shiftl (Z.shiftr (b2z head) 3) 3)) (Z.land (Z.land (b2z head) 7) 7)) = head.
Proof. destruct head; reflexivity. Qed.

Lemma head_join_all :
  forallb (λ op, forallb (λ k,
     (Z.shiftr (b2z (z2b (Z.lor (u8 (Z.shiftl op 3)) (Z.land k 7)))) 3 =? op)
     && (Z.land (b2z (z2b (Z.lor (u8 (Z.shiftl op 3)) (Z.land k 7)))) 7 =? k))
     (seqZ 0 8)) (seqZ 0 32) = true.
Proof. vm_compute. reflexivity. Qed.

Lemma head_join p :
  Packet_wf p →
  Z.shiftr (b2z (headByte p)) 3 = pkt_Opcode p ∧ Z.land (b2z (headByte p)) 7 = pkt_KeyID p.
Proof.
  intros Hwf. pose proof (wf_opcode p Hwf). pose proof (wf_keyID p Hwf).
  pose proof head_join_all as H1. rewrite forallb_forall in H1.
  specialize (H1 (pkt_Opcode p)). rewrite <-list_elem_of_In, elem_of_seqZ in H1.
  specialize (H1 ltac:(lia)). cbv beta in H1. rewrite forallb_forall in H1.
  specialize (H1 (pkt_KeyID p)). rewrite <-list_elem_of_In, elem_of_seqZ in H1.
  specialize (H1 ltac:(lia)). cbv beta in H1.
  apply andb_prop in H1 as [?%Z.eqb_eq ?%Z.eqb_eq]. done.
Qed.

Lemma head_opcode_range head : 0 ≤ Z.shiftr (b2z head) 3 < 32.
Proof. destruct head; vm_compute; split; congruence. Qed.

Lemma head_keyID_range head : 0 ≤ Z.land (b2z head) 7 < 8.
Proof. destruct head; vm_compute; split; congruence. Qed.

Lemma IsControl_not_DataV2 o : IsControl o = true → (o =? OpcodeDataV2) = false.
Proof.
  unfold IsControl. rewrite !orb_true_iff, !Z.eqb_eq. intros H.
  destruct_or? H; subst; done.
Qed.

Lemma controlLayout_not_DataV2 o :
  IsControl o || (o =? OpcodeAcknowledgmentV1) = true → (o =? OpcodeDataV2) = false.
Proof.
  intros [H|H]%orb_prop; [by apply IsControl_not_DataV2|].
  by apply Z.eqb_eq in H as ->.
Qed.

(** ** The acknowledgment list *)

Lemma readAcknowledgmentIDs_Ok n r ids k :
  readAcknowledgmentIDs n r = Ok (ids, k) ↔
  length ids = n ∧ Forall (λ i, 0 ≤ i < 2 ^ 32) ids ∧ r = concat (PutUint32 <$> ids) ++ k.
Proof.
  revert r ids k. induction n as [|n IH]; intros r ids k; cbn [readAcknowledgmentIDs].
  - split.
    + by intros [= <- <-].
    + intros (->%nil_length_inv & _ & ->). done.
  - rewrite result_bind_Ok. split.
    + intros ([v r'] & [Hv ->]%extend_err_Ok%ReadUint32_Ok & H).
      apply result_bind_Ok in H as ([vs r''] & (Hlen & Hall & ->)%IH & [= <- <-]).
      cbn. rewrite Hlen, <-app_assoc. auto.
    + intros (Hlen & Hall & ->). destruct ids as [|v ids]; [done|].
      inversion Hall; subst. injection Hlen as Hlen.
      cbn [fmap list_fmap concat]. exists (v, concat (PutUint32 <$> ids) ++ k).
      rewrite extend_err_Ok, ReadUint32_Ok, <-app_assoc. split; [done|].
      apply result_bind_Ok. exists (ids, k). split; [by apply IH|done].
Qed.

Lemma length_PutUint32s ids : length (concat (PutUint32 <$> ids)) = (4 * length ids)%nat.
Proof.
  induction ids as [|i ids IH]; [done|]. cbn [fmap list_fmap concat length].
  rewrite length_app, IH, length_PutUint32. lia.
Qed.

(** What a parsed control packet satisfies: the fields are in range and the
    ones the layout does not carry are zero. *)
Record control_repr (opcode : Opcode) (keyID : Z) (p : Packet) : Prop := {
  cr_opcode : pkt_Opcode p = opcode;
  cr_keyID : pkt_KeyID p = keyID;
  cr_peerID : pkt_PeerID p = zeroPeerID;
  cr_local : length (pkt_LocalSessionID p) = SessionIDLength;
  cr_count : lenZ (pkt_AcknowledgmentIDs p) < 256;
  cr_acks : Forall (λ i, 0 ≤ i < 2 ^ 32) (pkt_AcknowledgmentIDs p);
  cr_remote : length (pkt_RemoteSessionID p) = SessionIDLength;
  cr_no_acks : pkt_AcknowledgmentIDs p = [] → pkt_RemoteSessionID p = zeroSessionID;
  cr_id : 0 ≤ pkt_ID p < 2 ^ 32;
  cr_ack_id : opcode = OpcodeAcknowledgmentV1 → pkt_ID p = 0;
}.

Lemma readRemoteSessionID_Ok (acks : list PacketID) r remote k :
  (if decide (0 < length acks)%nat
   then extend_err ErrPacketParse "read remote session id: " (ReadFull SessionIDLength r)
   else Ok (zeroSessionID, r)) = Ok (remote, k) ↔
  length remote = SessionIDLength ∧ (acks = [] → remote = zeroSessionID) ∧
  r = (if decide (0 < length acks)%nat then remote else []) ++ k.
Proof.
  case_decide as Hacks.
  - rewrite extend_err_Ok, ReadFull_Ok. destruct acks; [simpl in *; lia|]. naive_solver.
  - destruct acks; [|simpl in *; lia]. naive_solver.
Qed.

Lemma readPacketID_Ok opcode r id k :
  (if opcode =? OpcodeAcknowledgmentV1 then Ok (0, r)
   else extend_err ErrPacketParse "read packet id: " (ReadUint32 r)) = Ok (id, k) ↔
  0 ≤ id < 2 ^ 32 ∧ (opcode = OpcodeAcknowledgmentV1 → id = 0) ∧
  r = (if opcode =? OpcodeAcknowledgmentV1 then [] else PutUint32 id) ++ k.
Proof.
  destruct (Z.eqb_spec opcode OpcodeAcknowledgmentV1); [naive_solver lia|].
  rewrite extend_err_Ok, ReadUint32_Ok. naive_solver.
Qed.

Lemma parseControl_sound opcode keyID body p :
  parseControlOrAcknowledgmentPacket opcode keyID body = Ok p →
  control_repr opcode keyID p ∧ body = controlBody p.
Proof.
  unfold parseControlOrAcknowledgmentPacket. case_decide as Hshort; [done|].
  intros ([local r] & [Hlocal ->]%extend_err_Ok%ReadFull_Ok & H)%result_bind_Ok.
  apply result_bind_Ok in H as ([count r'] & Hcount & H).
  destruct r as [|b r0]; [done|]. injection Hcount as <- <-.
  apply result_bind_Ok in H as ([acks r1] & (Hlen & Hall & ->)%readAcknowledgmentIDs_Ok & H).
  apply result_bind_Ok in H as ([remote r2] & (Hremote & Hnone & ->)%readRemoteSessionID_Ok & H).
  apply result_bind_Ok in H as ([id r3] & (Hid & Hack & ->)%readPacketID_Ok & [= <-]).
  pose proof (b2z_range b).
  assert (z2b (lenZ acks) = b) as Hb.
  { unfold lenZ. rewrite Hlen, Z2Nat.id by lia. apply z2b_b2z. }
  split; [|by unfold controlBody; cbn; rewrite Hb].
  split; cbn; try done. unfold lenZ; lia.
Qed.

Lemma parseControl_complete opcode keyID p :
  control_repr opcode keyID p →
  parseControlOrAcknowledgmentPacket opcode keyID (controlBody p) = Ok p.
Proof.
  intros [<- <- Hpeer Hlocal Hcount Hall Hremote Hnone Hid Hack].
  unfold parseControlOrAcknowledgmentPacket, controlBody.
  rewrite decide_False by (rewrite !length_app, Hlocal; simpl; lia).
  rewrite ReadFull_app by done. cbn.
  rewrite b2z_z2b_small by (unfold lenZ in *; lia).
  replace (Z.to_nat (lenZ (pkt_AcknowledgmentIDs p))) with (length (pkt_AcknowledgmentIDs p))
    by (unfold lenZ; lia).
  rewrite (proj2 (readAcknowledgmentIDs_Ok _ _ (pkt_AcknowledgmentIDs p) _)) by done. cbn.
  rewrite (proj2 (readRemoteSessionID_Ok _ _ (pkt_RemoteSessionID p) _)) by done. cbn.
  rewrite (proj2 (readPacketID_Ok _ _ (pkt_ID p) (pkt_Payload p))) by done. cbn.
  destruct p; cbn in *. by rewrite Hpeer.
Qed.

(** Parsing undoes serializing. *)
Lemma parse_serialized p :
  Packet_wf p → lenZ (pkt_AcknowledgmentIDs p) ≤ MaxUint8 →
  ∃ raw, Packet_Bytes p = Ok raw ∧ ParsePacket raw = Ok (wirePacket p).
Proof.
  intros Hwf Hacks. destruct (head_join p Hwf) as [Hop Hkey].
  unfold Packet_Bytes, wirePacket.
  destruct (pkt_Opcode p =? OpcodeDataV2) eqn:Ed2.
  - eexists. split; [done|]. unfold ParsePacket, takePeerID. rewrite Hop, Hkey, Ed2.
    rewrite decide_False by (rewrite length_app, wf_peerID by done; lia). cbn.
    rewrite take_app_exact, drop_app_exact by by apply wf_peerID.
    by apply Z.eqb_eq in Ed2 as ->.
  - destruct (IsControl (pkt_Opcode p) || (pkt_Opcode p =? OpcodeAcknowledgmentV1)) eqn:Ec.
    + rewrite decide_False by (unfold MaxUint8 in *; lia).
      eexists. split; [done|]. unfold ParsePacket, takePeerID. rewrite Hop, Hkey, Ed2. cbn.
      rewrite Ec.
      match goal with |- _ = Ok ?q => replace (controlBody p) with (controlBody q) end.
      * apply parseControl_complete. destruct Hwf.
        unfold MaxUint8 in *. split; cbn; try done; [lia|by case_decide| |by case_match|].
        -- intros ->. done.
        -- by intros ->.
      * unfold controlBody. cbn. case_decide; case_match; done.
    + eexists. split; [done|]. unfold ParsePacket, takePeerID. rewrite Hop, Hkey, Ed2. cbn.
      by rewrite Ec.
Qed.

(** ** Properties *)

(** Serializing a well-formed packet with at most 255 acknowledgments
    succeeds, and parsing the bytes gives the packet back, up to the fields its
    opcode's layout does not carry (which read back as zero). *)
Theorem ParsePacket_Bytes p :
  Packet_wf p → lenZ (pkt_AcknowledgmentIDs p) ≤ MaxUint8 →
  ∃ raw, Packet_Bytes p = Ok raw ∧ ParsePacket raw = Ok (wirePacket p).
Proof. apply parse_serialized. Qed.

(** Whatever the parser accepts, the serializer writes back octet for
    octet; so no two different byte strings parse to the same packet. *)
Theorem Bytes_ParsePacket raw p : ParsePacket raw = Ok p → Packet_Bytes p = Ok raw.
Proof.
  unfold ParsePacket, takePeerID. destruct raw as [|head body]; [done|].
  destruct (Z.shiftr (b2z head) 3 =? OpcodeDataV2) eqn:Ed2.
  - case_decide as Hlen; [done|]. cbn.
    apply Z.eqb_eq in Ed2 as Ed2'. rewrite Ed2'. cbn. intros [= <-].
    unfold Packet_Bytes, headByte. cbn. rewrite take_drop.
    f_equal. f_equal. change 72 with (u8 (Z.shiftl OpcodeDataV2 3)).
    rewrite <-Ed2'. apply head_split.
  - cbn. destruct (IsControl _ || _) eqn:Ec.
    + intros [Hr ->]%parseControl_sound. unfold Packet_Bytes, headByte.
      rewrite (cr_opcode _ _ _ Hr), (cr_keyID _ _ _ Hr), Ed2, Ec.
      pose proof (cr_count _ _ _ Hr).
      rewrite decide_False by (unfold MaxUint8; lia). by rewrite head_split.
    + intros [= <-]. unfold Packet_Bytes, headByte. cbn. rewrite Ed2, Ec. by rewrite head_split.
Qed.

(** The zero-copy parser used on the data path agrees with [ParsePacket]
    on every input, errors included. *)
Theorem ParsePacketView_equiv raw : ParsePacketView raw = ParsePacket raw.
Proof.
  unfold ParsePacketView, ParsePacket. destruct raw as [|head body]; [done|].
  destruct (IsData (Z.shiftr (b2z head) 3)) eqn:Ed; [|done]. cbn [negb].
  destruct (takePeerID _ body) as [[peer rest]|e]; cbn; [|done].
  unfold IsData in Ed. by apply orb_prop in Ed as [->%Z.eqb_eq| ->%Z.eqb_eq].
Qed.

(** The octets a packet with this head and acknowledgment count needs. *)
Definition requiredLength (raw : bytes) : nat :=
  match raw with
  | [] => 1
  | head :: _ =>
      let opcode := Z.shiftr (b2z head) 3%Z in
      if (opcode =? OpcodeDataV2)%Z then 4
      else if IsControl opcode || (opcode =? OpcodeAcknowledgmentV1)%Z then
        match raw !! 9%nat with
        | None => 10
        | Some count =>
            let n := Z.to_nat (b2z count) in
            10 + 4 * n + (if decide (0 < n) then 8 else 0)
               + (if (opcode =? OpcodeAcknowledgmentV1)%Z then 0 else 4)
        end
      else 1
  end%nat.

Lemma readAcknowledgmentIDs_enough n r :
  (4 * n ≤ length r)%nat → ∃ ids, length ids = n ∧ readAcknowledgmentIDs n r = Ok (ids, drop (4 * n) r).
Proof.
  revert r. induction n as [|n IH]; intros r Hlen; [by exists []|].
  cbn [readAcknowledgmentIDs]. unfold ReadUint32. rewrite ReadFull_enough by lia. cbn.
  destruct (IH (drop 4 r)) as (ids & <- & Hids); [rewrite length_drop; lia|].
  rewrite Hids. cbn. eexists. split; [|rewrite drop_drop; do 3 f_equal; lia]. done.
Qed.

Lemma parseControl_enough opcode keyID (body : bytes) count :
  body !! 8%nat = Some count →
  let n := Z.to_nat (b2z count) in
  (9 + 4 * n + (if decide (0 < n) then 8 else 0)
     + (if (opcode =? OpcodeAcknowledgmentV1)%Z then 0 else 4) ≤ length body)%nat →
  ∃ p, parseControlOrAcknowledgmentPacket opcode keyID body = Ok p.
Proof.
  intros Hcount n Hlen. unfold parseControlOrAcknowledgmentPacket.
  rewrite decide_False by (unfold SessionIDLength; lia).
  rewrite ReadFull_enough by (unfold SessionIDLength; lia). cbn.
  rewrite (drop_S body count) by done. cbn. fold n.
  destruct (readAcknowledgmentIDs_enough n (drop 9 body)) as (ids & Hids & ->);
    [rewrite length_drop; lia|]. cbn. rewrite Hids. unfold ReadUint32.
  destruct (decide (0 < n)%nat); destruct (opcode =? OpcodeAcknowledgmentV1); cbn;
    rewrite ?ReadFull_enough by (rewrite !length_drop; unfold SessionIDLength; lia); cbn;
    rewrite ?ReadFull_enough by (rewrite !length_drop; unfold SessionIDLength; lia); cbn; eauto.
Qed.

Lemma parseControl_too_short opcode keyID body p count :
  parseControlOrAcknowledgmentPacket opcode keyID body = Ok p →
  body !! 8%nat = Some count →
  let n := Z.to_nat (b2z count) in
  (9 + 4 * n + (if decide (0 < n) then 8 else 0)
     + (if (opcode =? OpcodeAcknowledgmentV1)%Z then 0 else 4) ≤ length body)%nat.
Proof.
  intros [Hr ->]%parseControl_sound Hcount n. destruct Hr. subst opcode.
  unfold controlBody in *.
  rewrite lookup_app_r in Hcount by (rewrite cr_local0; unfold SessionIDLength; lia).
  rewrite cr_local0 in Hcount. injection Hcount as <-.
  subst n. rewrite b2z_z2b_small by (unfold lenZ in *; lia).
  replace (Z.to_nat (lenZ (pkt_AcknowledgmentIDs p))) with (length (pkt_AcknowledgmentIDs p))
    by (unfold lenZ; lia).
  rewrite !length_app, length_PutUint32s, cr_local0. unfold SessionIDLength in *. cbn.
  destruct (pkt_Opcode p =? OpcodeAcknowledgmentV1); case_decide;
    rewrite ?cr_remote0, ?length_PutUint32; cbn; lia.
Qed.

(** A packet is refused exactly when it is shorter than the layout its
    head octet and acknowledgment count announce; nothing else is an error. *)
Theorem ParsePacket_accepts raw :
  (∃ p, ParsePacket raw = Ok p) ↔ (requiredLength raw ≤ length raw)%nat.
Proof.
  unfold ParsePacket, takePeerID, requiredLength. destruct raw as [|head body].
  { split; [by intros []|simpl; lia]. }
  destruct (Z.shiftr (b2z head) 3 =? OpcodeDataV2) eqn:Ed2.
  { apply Z.eqb_eq in Ed2. rewrite Ed2. cbn.
    case_decide; split; [by intros []|lia|lia|eauto]. }
  cbn. destruct (IsControl _ || _) eqn:Ec; [|split; [lia|eauto]].
  destruct (body !! 8%nat) as [count|] eqn:Hcount.
  - split.
    + intros [p Hp]. pose proof (parseControl_too_short _ _ _ _ _ Hp Hcount). cbn in *. lia.
    + intros Hlen. apply parseControl_enough with (1 := Hcount). lia.
  - apply lookup_ge_None in Hcount. unfold parseControlOrAcknowledgmentPacket.
    rewrite decide_True by (unfold SessionIDLength; lia). split; [by intros []|lia].
Qed.

(** ** Witnesses *)

Definition examplePacket : Packet :=
  mkPacket OpcodeControlV1 3 zeroPeerID (be_encode 8 81985529216486895) [7; 4294967295]
    (be_encode 8 18364758544493064720) 258 [x16; x03; x01].

Lemma examplePacket_wf : Packet_wf examplePacket.
Proof.
  split; try apply length_be_encode; cbn; try done; repeat constructor; vm_compute; done.
Qed.

Lemma ParsePacket_Bytes_witness :
  ∃ raw, Packet_Bytes examplePacket = Ok raw ∧ ParsePacket raw = Ok (wirePacket examplePacket).
Proof. apply (ParsePacket_Bytes examplePacket); [exact examplePacket_wf|vm_compute; done]. Defined.

Lemma Bytes_ParsePacket_witness :
  Packet_Bytes (mkPacket OpcodeDataV2 1 [x00; x00; x05] zeroSessionID [] zeroSessionID 0 [x41; x42])
  = Ok [x49; x00; x00; x05; x41; x42].
Proof. apply (Bytes_ParsePacket [x49; x00; x00; x05; x41; x42]). reflexivity. Defined.
