(* ===== verification/Session.v ===== *)
(** * The session manager ([proto/session.go])

    Session ids, key ids, the negotiation state and the two packet-id counters.
    Every method takes the manager's lock for its whole body, so a method is an
    atomic transition: it returns its value together with the new state.  The
    theorems show that no packet id is ever handed out twice over any sequence
    of calls, which is what keeps the AEAD nonces of a key unique. *)

From S2P Require Import Prelude Packet.

Inductive NegotiationState :=
| NegotiationStateInitial
| NegotiationStatePreStart
| NegotiationStateStart
| NegotiationStateControlReady.

#[export] Instance NegotiationState_eq_dec : EqDecision NegotiationState.
Proof. solve_decision. Defined.

(** The constants the type carries on the wire of the API. *)
Definition NegotiationState_value (s : NegotiationState) : Z :=
  match s with
  | NegotiationStateInitial => 1
  | NegotiationStatePreStart => 2
  | NegotiationStateStart => 3
  | NegotiationStateControlReady => 6
  end.

Definition ErrMissingRemoteSessionID : goerr := ErrNew "missing remote session id".
Definition ErrPacketIDExpired : goerr := ErrNew "packet id expired".
Definition ErrInvalidOpcode : goerr := ErrNew "invalid opcode for packet creation".

Record SessionManager := mkSessionManager {
  sm_keyID : Z;
  sm_localSessionID : SessionID;
  sm_remoteSessionID : SessionID;
  sm_hasRemoteSessionID : bool;
  sm_localControlPacketID : PacketID;
  sm_localDataPacketID : PacketID;
  sm_negotiationState : NegotiationState;
}.

Definition NewSessionManagerWithLocalID (localSessionID : SessionID) : SessionManager :=
  mkSessionManager 0 localSessionID zeroSessionID false 1 1 NegotiationStateInitial.

(** [rand.Read] fills the local session id or fails. *)
Definition NewSessionManager (rand_Read : result SessionID) : result SessionManager :=
  localSessionID ← rand_Read; Ok (NewSessionManagerWithLocalID localSessionID).

Definition LocalSessionID (m : SessionManager) : SessionID := sm_localSessionID m.
Definition RemoteSessionID (m : SessionManager) : SessionID * bool :=
  (sm_remoteSessionID m, sm_hasRemoteSessionID m).
Definition CurrentKeyID (m : SessionManager) : Z := sm_keyID m.

Definition ValidateIncomingRemoteSessionID (m : SessionManager) (packet : option Packet) : bool :=
  match packet with
  | None => false
  | Some packet =>
      if decide (length (pkt_AcknowledgmentIDs packet) = 0%nat) then true
      else if decide (pkt_RemoteSessionID packet = zeroSessionID) then false
      else bool_decide (pkt_RemoteSessionID packet = sm_localSessionID m)
  end.

Definition ValidateIncomingLocalSessionID (m : SessionManager) (packet : option Packet) : bool :=
  match packet with
  | None => false
  | Some packet =>
      sm_hasRemoteSessionID m && bool_decide (pkt_LocalSessionID packet = sm_remoteSessionID m)
  end.

Definition SetRemoteSessionID (m : SessionManager) (remoteSessionID : SessionID) : SessionManager :=
  mkSessionManager (sm_keyID m) (sm_localSessionID m) remoteSessionID true
    (sm_localControlPacketID m) (sm_localDataPacketID m) (sm_negotiationState m).

Definition SetNegotiationState (m : SessionManager) (state : NegotiationState) : SessionManager :=
  mkSessionManager (sm_keyID m) (sm_localSessionID m) (sm_remoteSessionID m)
    (sm_hasRemoteSessionID m) (sm_localControlPacketID m) (sm_localDataPacketID m) state.

Definition KeyIDMaxValue : Z := 7.

Definition NextKeyID (keyID : Z) : Z :=
  if KeyIDMaxValue <=? keyID then 1
  else let keyID := u8 (keyID + 1) in
       if keyID =? 0 then 1 else keyID.

Definition NewRenegotiationSessionManager (m : SessionManager) (keyID : Z) : SessionManager :=
  mkSessionManager keyID (sm_localSessionID m)
    (if sm_hasRemoteSessionID m then sm_remoteSessionID m else zeroSessionID)
    (sm_hasRemoteSessionID m) 1 1 NegotiationStateStart.

Definition NewSoftResetPacket (m : SessionManager) : result Packet :=
  if negb (sm_hasRemoteSessionID m) then Err ErrMissingRemoteSessionID else
  Ok (mkPacket OpcodeControlSoftResetV1 (sm_keyID m) zeroPeerID (sm_localSessionID m) []
        (sm_remoteSessionID m) 0 []).

Definition NewHardResetServerV2Packet (m : SessionManager) (acknowledgmentIDs : list PacketID)
    : result Packet :=
  if decide (0 < length acknowledgmentIDs)%nat then
    if negb (sm_hasRemoteSessionID m) then Err ErrMissingRemoteSessionID else
    Ok (mkPacket OpcodeControlHardResetServerV2 (sm_keyID m) zeroPeerID (sm_localSessionID m)
          acknowledgmentIDs (sm_remoteSessionID m) 0 [])
  else
    Ok (mkPacket OpcodeControlHardResetServerV2 (sm_keyID m) zeroPeerID (sm_localSessionID m)
          acknowledgmentIDs zeroSessionID 0 []).

Definition NewAcknowledgmentPacket (m : SessionManager) (acknowledgmentIDs : list PacketID)
    : result Packet :=
  if negb (sm_hasRemoteSessionID m) then Err ErrMissingRemoteSessionID else
  Ok (mkPacket OpcodeAcknowledgmentV1 (sm_keyID m) zeroPeerID (sm_localSessionID m)
        acknowledgmentIDs (sm_remoteSessionID m) 0 []).

Definition NextLocalControlPacketID (m : SessionManager) : PacketID := sm_localControlPacketID m.

Definition NewControlPacket (m : SessionManager) (opcode : Opcode) (payload : bytes)
    : result Packet * SessionManager :=
  if negb (IsControl opcode) then (Err ErrInvalidOpcode, m) else
  if sm_localControlPacketID m =? MaxUint32 then (Err ErrPacketIDExpired, m) else
  let packet := NewPacket opcode (sm_keyID m) payload in
  (Ok (mkPacket (pkt_Opcode packet) (pkt_KeyID packet) (pkt_PeerID packet) (sm_localSessionID m)
         (pkt_AcknowledgmentIDs packet)
         (if sm_hasRemoteSessionID m then sm_remoteSessionID m else pkt_RemoteSessionID packet)
         (sm_localControlPacketID m) (pkt_Payload packet)),
   mkSessionManager (sm_keyID m) (sm_localSessionID m) (sm_remoteSessionID m)
     (sm_hasRemoteSessionID m) (u32 (sm_localControlPacketID m + 1)) (sm_localDataPacketID m)
     (sm_negotiationState m)).

(** [count] is Go's [int]; the subtraction is on [uint64]. *)
Definition NewDataPacketIDs (m : SessionManager) (opcode : Opcode) (count : Z)
    : result (list PacketID) * SessionManager :=
  if negb (IsData opcode) then (Err ErrInvalidOpcode, m) else
  if count =? 0 then (Ok [], m) else
  let availablePacketIDs := u64 (MaxUint32 - sm_localDataPacketID m) in
  if (count <? 0) || (availablePacketIDs <? u64 count) then (Err ErrPacketIDExpired, m) else
  (Ok ((λ i, u32 (sm_localDataPacketID m + u32 i)) <$> seqZ 0 count),
   mkSessionManager (sm_keyID m) (sm_localSessionID m) (sm_remoteSessionID m)
     (sm_hasRemoteSessionID m) (sm_localControlPacketID m)
     (u32 (sm_localDataPacketID m + u32 count)) (sm_negotiationState m)).

(** ** Invariant and traces *)

Record session_inv (m : SessionManager) : Prop := {
  inv_control : 1 ≤ sm_localControlPacketID m ≤ MaxUint32;
  inv_data : 1 ≤ sm_localDataPacketID m ≤ MaxUint32;
}.

Lemma new_session_inv id : session_inv (NewSessionManagerWithLocalID id).
Proof. split; vm_compute; split; congruence. Qed.

(** The calls that change a manager's state, in the order the lock serves them. *)
Inductive session_op :=
| OpSetRemoteSessionID (id : SessionID)
| OpSetNegotiationState (s : NegotiationState)
| OpNewControlPacket (opcode : Opcode) (payload : bytes)
| OpNewDataPacketIDs (opcode : Opcode) (count : Z).

(** One call: the control ids and the data ids it spent, and the new state. *)
Definition session_step (m : SessionManager) (op : session_op)
    : list PacketID * list PacketID * SessionManager :=
  match op with
  | OpSetRemoteSessionID id => ([], [], SetRemoteSessionID m id)
  | OpSetNegotiationState s => ([], [], SetNegotiationState m s)
  | OpNewControlPacket opcode payload =>
      match NewControlPacket m opcode payload with
      | (Ok packet, m') => ([pkt_ID packet], [], m')
      | (Err _, m') => ([], [], m')
      end
  | OpNewDataPacketIDs opcode count =>
      match NewDataPacketIDs m opcode count with
      | (Ok ids, m') => ([], ids, m')
      | (Err _, m') => ([], [], m')
      end
  end.

Fixpoint session_run (m : SessionManager) (ops : list session_op)
    : list PacketID * list PacketID * SessionManager :=
  match ops with
  | [] => ([], [], m)
  | op :: ops =>
      let '(c, d, m) := session_step m op in
      let '(cs, ds, m) := session_run m ops in
      (c ++ cs, d ++ ds, m)
  end.

(** ** The counters *)

Lemma NewControlPacket_spec m opcode payload :
  session_inv m →
  match NewControlPacket m opcode payload with
  | (Ok packet, m') =>
      IsControl opcode = true ∧ pkt_ID packet = sm_localControlPacketID m ∧
      sm_localControlPacketID m < MaxUint32 ∧
      sm_localControlPacketID m' = sm_localControlPacketID m + 1 ∧
      sm_localDataPacketID m' = sm_localDataPacketID m
  | (Err e, m') =>
      m' = m ∧
      (e = ErrInvalidOpcode ∧ IsControl opcode = false ∨
       e = ErrPacketIDExpired ∧ IsControl opcode = true ∧ sm_localControlPacketID m = MaxUint32)
  end.
Proof.
  intros [Hc Hd]. unfold NewControlPacket.
  destruct (IsControl opcode); cbn; [|auto].
  destruct (Z.eqb_spec (sm_localControlPacketID m) MaxUint32); cbn; [auto|].
  unfold MaxUint32 in *. rewrite u32_small by lia. split_and!; auto; lia.
Qed.

Lemma NewDataPacketIDs_spec m opcode count :
  session_inv m → -(2 ^ 63) ≤ count < 2 ^ 63 →
  match NewDataPacketIDs m opcode count with
  | (Ok ids, m') =>
      IsData opcode = true ∧ 0 ≤ count ≤ MaxUint32 - sm_localDataPacketID m ∧
      ids = seqZ (sm_localDataPacketID m) count ∧
      sm_localDataPacketID m' = sm_localDataPacketID m + count ∧
      sm_localControlPacketID m' = sm_localControlPacketID m
  | (Err e, m') =>
      m' = m ∧
      (e = ErrInvalidOpcode ∧ IsData opcode = false ∨
       e = ErrPacketIDExpired ∧ IsData opcode = true ∧
       (count < 0 ∨ MaxUint32 - sm_localDataPacketID m < count))
  end.
Proof.
  intros [Hc Hd] Hcount. unfold NewDataPacketIDs.
  destruct (IsData opcode); cbn; [|auto].
  destruct (Z.eqb_spec count 0) as [->|Hne]; cbn.
  { split_and!; [done|lia|unfold MaxUint32 in *; lia|done|lia|done]. }
  unfold MaxUint32 in *. rewrite (u64_small (_ - _)) by lia.
  destruct (Z.ltb_spec count 0); cbn; [auto 8|]. rewrite u64_small by lia.
  destruct (Z.ltb_spec (4294967295 - sm_localDataPacketID m) count); cbn; [auto 8|].
  rewrite (u32_small count), u32_small by lia. split_and!; [done|lia|lia| |lia|done].
  transitivity ((λ i, sm_localDataPacketID m + i) <$> seqZ 0 count).
  - apply list_fmap_ext. intros i x Hx%list_elem_of_lookup_2%elem_of_seqZ.
    by rewrite (u32_small x), u32_small by lia.
  - rewrite fmap_add_seqZ. f_equal. lia.
Qed.

Lemma session_step_spec m op c d m' :
  session_inv m →
  (∀ opcode count, op = OpNewDataPacketIDs opcode count → -(2 ^ 63) ≤ count < 2 ^ 63) →
  session_step m op = (c, d, m') →
  session_inv m' ∧
  c = seqZ (sm_localControlPacketID m) (sm_localControlPacketID m' - sm_localControlPacketID m) ∧
  d = seqZ (sm_localDataPacketID m) (sm_localDataPacketID m' - sm_localDataPacketID m) ∧
  sm_localControlPacketID m ≤ sm_localControlPacketID m' ∧
  sm_localDataPacketID m ≤ sm_localDataPacketID m'.
Proof.
  intros Hinv Hcount. pose proof Hinv as [Hc Hd].
  assert (∀ z, seqZ z (z - z) = []) as Hnil by (intros z; by rewrite Z.sub_diag).
  destruct op as [id|s|opcode payload|opcode count]; cbn.
  1,2: intros [= <- <- <-]; cbn; rewrite !Hnil; split_and!; done || lia.
  - pose proof (NewControlPacket_spec m opcode payload Hinv) as H.
    destruct (NewControlPacket m opcode payload) as [[packet|e] m1]; intros [= <- <- <-].
    + destruct H as (_ & -> & Hlt & Hc' & Hd'). rewrite Hc', Hd', Hnil.
      replace (_ + 1 - _) with 1 by lia.
      split_and!; [split; unfold MaxUint32 in *; lia|done|done|lia|lia].
    + destruct H as [-> _]. rewrite !Hnil. split_and!; done || lia.
  - pose proof (NewDataPacketIDs_spec m opcode count Hinv (Hcount _ _ eq_refl)) as H.
    destruct (NewDataPacketIDs m opcode count) as [[ids|e] m1]; intros [= <- <- <-].
    + destruct H as (_ & Hn & -> & Hd' & Hc'). rewrite Hc', Hd', Hnil.
      replace (_ + count - _) with count by lia.
      split_and!; [split; unfold MaxUint32 in *; lia|done|done|lia|lia].
    + destruct H as [-> _]. rewrite !Hnil. split_and!; done || lia.
Qed.

Definition int_counts (ops : list session_op) : Prop :=
  Forall (λ op, ∀ opcode count, op = OpNewDataPacketIDs opcode count → -(2 ^ 63) ≤ count < 2 ^ 63) ops.

Lemma session_run_spec ops m c d m' :
  session_inv m → int_counts ops → session_run m ops = (c, d, m') →
  session_inv m' ∧
  c = seqZ (sm_localControlPacketID m) (sm_localControlPacketID m' - sm_localControlPacketID m) ∧
  d = seqZ (sm_localDataPacketID m) (sm_localDataPacketID m' - sm_localDataPacketID m) ∧
  sm_localControlPacketID m ≤ sm_localControlPacketID m' ∧
  sm_localDataPacketID m ≤ sm_localDataPacketID m'.
Proof.
  revert m c d. induction ops as [|op ops IH]; intros m c d Hinv Hops; cbn.
  { intros [= <- <- <-]. rewrite !Z.sub_diag. split_and!; done || lia. }
  inversion Hops as [|?? Hop Hops']; subst.
  destruct (session_step m op) as [[c1 d1] m1] eqn:E1.
  destruct (session_run m1 ops) as [[c2 d2] m2] eqn:E2. intros [= <- <- <-].
  apply session_step_spec in E1 as (Hinv1 & -> & -> & ? & ?); [|done|done].
  apply IH in E2 as (Hinv2 & -> & -> & ? & ?); [|done|done].
  split_and!; [done| | |lia|lia].
  - rewrite <-(Zplus_minus (sm_localControlPacketID m) (sm_localControlPacketID m1)) at 2.
    rewrite <-seqZ_app by lia. f_equal. lia.
  - rewrite <-(Zplus_minus (sm_localDataPacketID m) (sm_localDataPacketID m1)) at 2.
    rewrite <-seqZ_app by lia. f_equal. lia.
Qed.

(** ** Properties *)

(** Over any sequence of calls on a session manager, the data packet ids it
    hands out are pairwise distinct, non-zero and below 2^32-1 (so the AEAD nonce
    built from them never repeats under one key), and so are the control packet ids. *)
Theorem session_ids_unique id ops c d m' :
  int_counts ops →
  session_run (NewSessionManagerWithLocalID id) ops = (c, d, m') →
  NoDup d ∧ NoDup c ∧ (∀ i, i ∈ d ∨ i ∈ c → 1 ≤ i < MaxUint32).
Proof.
  intros Hops (Hinv & -> & -> & Hc & Hd)%session_run_spec; [|apply new_session_inv|done].
  destruct Hinv. cbn in *.
  split_and!; [apply NoDup_seqZ..|]. intros i. rewrite !elem_of_seqZ. lia.
Qed.

(** Allocating data packet ids hands out exactly the next [count] ids in
    order, refuses (leaving the state alone) a wrong opcode, a negative count, or
    a count that would reach id 2^32-1, and fails in no other case. *)
Theorem NewDataPacketIDs_correct m opcode count :
  session_inv m → -(2 ^ 63) ≤ count < 2 ^ 63 →
  match NewDataPacketIDs m opcode count with
  | (Ok ids, m') =>
      IsData opcode = true ∧ 0 ≤ count ≤ MaxUint32 - sm_localDataPacketID m ∧
      ids = seqZ (sm_localDataPacketID m) count ∧
      sm_localDataPacketID m' = sm_localDataPacketID m + count ∧
      sm_localControlPacketID m' = sm_localControlPacketID m
  | (Err e, m') =>
      m' = m ∧
      (e = ErrInvalidOpcode ∧ IsData opcode = false ∨
       e = ErrPacketIDExpired ∧ IsData opcode = true ∧
       (count < 0 ∨ MaxUint32 - sm_localDataPacketID m < count))
  end.
Proof. apply NewDataPacketIDs_spec. Qed.

(** Soft-reset key ids stay within 1..7, never reuse id 0 of the initial
    key, and come back only after all seven have been used. *)
Theorem NextKeyID_cycle keyID :
  0 ≤ keyID < 256 →
  1 ≤ NextKeyID keyID ≤ 7 ∧
  (1 ≤ keyID ≤ 7 →
   Nat.iter 7 NextKeyID keyID = keyID ∧
   ∀ n : nat, (0 < n < 7)%nat → Nat.iter n NextKeyID keyID ≠ keyID).
Proof.
  intros Hk. split.
  - unfold NextKeyID, KeyIDMaxValue. destruct (Z.leb_spec 7 keyID); [lia|]. cbv zeta.
    unfold u8. rewrite Z.mod_small by lia. destruct (Z.eqb_spec (keyID + 1) 0); lia.
  - intros Hr. assert (keyID ∈ seqZ 1 7) as Hin by (apply elem_of_seqZ; lia).
    revert Hin. change (seqZ 1 7) with [1;2;3;4;5;6;7]. set_unfold. intros Hin. split.
    + intuition subst; reflexivity.
    + intros n Hn. revert Hin.
      destruct n as [|[|[|[|[|[|[|n]]]]]]]; try lia; intros Hin E;
        destruct_or? Hin; subst; vm_compute in E; done.
Qed.

(** ** Witnesses *)

Definition exampleOps : list session_op :=
  [OpNewDataPacketIDs OpcodeDataV2 3; OpNewControlPacket OpcodeControlV1 [];
   OpNewDataPacketIDs OpcodeDataV1 2].

Lemma session_ids_unique_witness :
  (session_run (NewSessionManagerWithLocalID zeroSessionID) exampleOps).1 = ([1], [1; 2; 3; 4; 5]) ∧
  NoDup [1; 2; 3; 4; 5].
Proof.
  split; [vm_compute; reflexivity|].
  eapply (session_ids_unique zeroSessionID exampleOps [1]); [|vm_compute; reflexivity].
  unfold int_counts, exampleOps.
  repeat first [apply Forall_nil_2 | apply Forall_cons_2]; intros ? ? [=]; subst; lia.
Defined.

Lemma NewDataPacketIDs_correct_witness :
  ∃ ids m', NewDataPacketIDs (NewSessionManagerWithLocalID zeroSessionID) OpcodeDataV2 3 = (Ok ids, m') ∧
            ids = seqZ 1 3.
Proof.
  eexists _, _. split; [reflexivity|].
  exact (proj1 (proj2 (proj2 (NewDataPacketIDs_correct (NewSessionManagerWithLocalID zeroSessionID)
    OpcodeDataV2 3 (new_session_inv _) ltac:(lia))))).
Defined.

Lemma NextKeyID_cycle_witness : 1 ≤ NextKeyID 7 ≤ 7.
Proof. apply (NextKeyID_cycle 7). lia. Defined.
