(* ===== verification/Reliable.v ===== *)
(** * The reliability layer of the control channel ([proto/reliable.go])

    [OutgoingReliableState] holds the packets in flight and the ids that still
    have to be acknowledged; [IncomingReliableState] reorders what the peer
    sends.  Both lock for the whole of every method, so a method is an atomic
    transition.  The theorems show that the swap-and-truncate acknowledgment
    loop is the order-preserving filter it stands for, that nothing is lost
    when a packet cannot be built, that the buffers stay within their bounds,
    and that the receiver delivers what was sent: in order, exactly once,
    whatever the network loses, repeats or reorders. *)

From S2P Require Import Prelude Packet.

Definition ReliableSendBufferSize : nat := 6.
Definition ReliableReceiveBufferSize : nat := 12.
Definition MaximumAcknowledgmentsPerPacket : Z := 4.
Definition AcknowledgmentSetCapacity : nat := 8.
Definition InitialRetransmissionTimeout : Z := 2 * Second.
Definition MaximumRetransmissionTimeout : Z := 60 * Second.
Definition FastRetransmissionACKThreshold : Z := 3.

Record inFlightPacket := mkInFlight {
  fl_packet : Packet;
  fl_retransmissionDeadline : Time;
  fl_higherPacketAcknowledges : Z;
  fl_retransmissionCount : Z;
}.

Definition fl_id (p : inFlightPacket) : Z := pkt_ID (fl_packet p).

(** [1 << n] on a 64-bit [time.Duration]: shifting by 64 or more gives 0. *)
Definition shl64 (n : Z) : Z := s64 (Z.shiftl 1 n).

Definition retransmissionInterval (retransmissionCount : Z) : Z :=
  Z.min (s64 (InitialRetransmissionTimeout * shl64 (Z.max 0 (retransmissionCount - 1))))
        MaximumRetransmissionTimeout.

Definition scheduleForRetransmission (p : inFlightPacket) (now : Time) : inFlightPacket :=
  let retransmissionCount := fl_retransmissionCount p + 1 in
  mkInFlight (fl_packet p) (now + retransmissionInterval retransmissionCount)
    (fl_higherPacketAcknowledges p) retransmissionCount.

Record OutgoingReliableState := mkOutgoing {
  out_inFlightPackets : list inFlightPacket;
  out_pendingAcknowledgmentID : gset PacketID;
}.

Definition NewOutgoingReliableState : OutgoingReliableState := mkOutgoing [] ∅.

(** Ranging over the map in Go's random order and sorting gives the sorted
    elements of the set. *)
Definition sortedIDs (s : gset PacketID) : list PacketID := sort_by id (elements s).

Definition takeAcknowledgmentIDsLocked (s : OutgoingReliableState) (maximumCount : Z)
    : list PacketID * OutgoingReliableState :=
  if (maximumCount <=? 0) || bool_decide (size (out_pendingAcknowledgmentID s) = 0%nat)
  then ([], s) else
  let acknowledgmentIDs := sortedIDs (out_pendingAcknowledgmentID s) in
  let acknowledgmentIDs :=
    if maximumCount <? lenZ acknowledgmentIDs then take (Z.to_nat maximumCount) acknowledgmentIDs
    else acknowledgmentIDs in
  (acknowledgmentIDs,
   mkOutgoing (out_inFlightPackets s)
     (foldl (λ pending acknowledgedID, pending ∖ {[acknowledgedID]})
        (out_pendingAcknowledgmentID s) acknowledgmentIDs)).

Fixpoint returnIDs (pending : gset PacketID) (acknowledgmentIDs : list PacketID) : gset PacketID :=
  match acknowledgmentIDs with
  | [] => pending
  | acknowledgmentID :: rest =>
      if bool_decide (acknowledgmentID ∉ pending)
         && bool_decide (AcknowledgmentSetCapacity ≤ size pending)%nat
      then pending
      else returnIDs ({[acknowledgmentID]} ∪ pending) rest
  end.

Definition returnAcknowledgmentIDsLocked (s : OutgoingReliableState)
    (acknowledgmentIDs : list PacketID) : OutgoingReliableState :=
  mkOutgoing (out_inFlightPackets s) (returnIDs (out_pendingAcknowledgmentID s) acknowledgmentIDs).

Definition TakeAcknowledgmentIDs := takeAcknowledgmentIDsLocked.
Definition ReturnAcknowledgmentIDs := returnAcknowledgmentIDsLocked.

Definition PendingAcknowledgmentCount (s : OutgoingReliableState) : Z :=
  Z.of_nat (size (out_pendingAcknowledgmentID s)).

Definition HasInFlightPackets (s : OutgoingReliableState) : bool :=
  bool_decide (0 < length (out_inFlightPackets s))%nat.

(** [newPacket] is the caller's closure; [E] is the state it works on.  A full
    send buffer returns no packet ([Ok None]) without calling it. *)
Definition InsertOutgoingPacket {E} (s : OutgoingReliableState) (maximumAcknowledgments : Z)
    (newPacket : list PacketID → E → result Packet * E) (env : E)
    : result (option Packet) * OutgoingReliableState * E :=
  if decide (ReliableSendBufferSize ≤ length (out_inFlightPackets s))%nat then (Ok None, s, env) else
  let '(acknowledgmentIDs, s) := takeAcknowledgmentIDsLocked s maximumAcknowledgments in
  match newPacket acknowledgmentIDs env with
  | (Err e, env) => (Err e, returnAcknowledgmentIDsLocked s acknowledgmentIDs, env)
  | (Ok packet, env) =>
      (Ok (Some packet),
       mkOutgoing (sort_by fl_id (out_inFlightPackets s ++ [mkInFlight packet 0 0 0]))
         (out_pendingAcknowledgmentID s), env)
  end.

(** The loop over the packets in flight for one acknowledged id: a match is
    swapped with the last element, cut off, and its index visited again. *)
Definition bumpHigher (p : inFlightPacket) : inFlightPacket :=
  mkInFlight (fl_packet p) (fl_retransmissionDeadline p)
    (fl_higherPacketAcknowledges p + 1) (fl_retransmissionCount p).

Fixpoint acknowledgeLoop (fuel : nat) (acknowledgedID : PacketID) (packetIndex : nat)
    (inFlight : list inFlightPacket) : list inFlightPacket :=
  match fuel with
  | O => inFlight
  | S fuel =>
      match inFlight !! packetIndex with
      | None => inFlight
      | Some trackedPacket =>
          if acknowledgedID =? fl_id trackedPacket then
            let lastIndex := (length inFlight - 1)%nat in
            let swapped :=
              match inFlight !! lastIndex with
              | Some lastPacket => <[lastIndex := trackedPacket]> (<[packetIndex := lastPacket]> inFlight)
              | None => inFlight
              end in
            acknowledgeLoop fuel acknowledgedID packetIndex (take lastIndex swapped)
          else
            acknowledgeLoop fuel acknowledgedID (S packetIndex)
              (if fl_id trackedPacket <? acknowledgedID
               then <[packetIndex := bumpHigher trackedPacket]> inFlight else inFlight)
      end
  end.

Definition acknowledge (inFlight : list inFlightPacket) (acknowledgedID : PacketID)
    : list inFlightPacket :=
  acknowledgeLoop (length inFlight) acknowledgedID 0 inFlight.

Definition OnIncomingPacket (s : OutgoingReliableState) (packet : Packet) : OutgoingReliableState :=
  let pending :=
    if negb (pkt_Opcode packet =? OpcodeAcknowledgmentV1)
       && bool_decide (size (out_pendingAcknowledgmentID s) < AcknowledgmentSetCapacity)%nat
    then {[pkt_ID packet]} ∪ out_pendingAcknowledgmentID s
    else out_pendingAcknowledgmentID s in
  mkOutgoing
    (sort_by fl_id (foldl acknowledge (out_inFlightPackets s) (pkt_AcknowledgmentIDs packet)))
    pending.

Definition readyToSend (now : Time) (p : inFlightPacket) : bool :=
  IsZero (fl_retransmissionDeadline p) || negb (now <? fl_retransmissionDeadline p)
  || (FastRetransmissionACKThreshold <=? fl_higherPacketAcknowledges p).

Definition PacketsReadyToSend (s : OutgoingReliableState) (now : Time)
    : list Packet * OutgoingReliableState :=
  (fl_packet <$> filter (λ p, readyToSend now p = true) (out_inFlightPackets s),
   mkOutgoing ((λ p, if readyToSend now p then scheduleForRetransmission p now else p)
                 <$> out_inFlightPackets s)
     (out_pendingAcknowledgmentID s)).

Record IncomingReliableState := mkIncoming {
  in_pendingPackets : list Packet;
  in_bufferedID : gset PacketID;
  in_lastConsumedID : PacketID;
}.

Definition NewIncomingReliableState : IncomingReliableState := mkIncoming [] ∅ 0.

Definition TryInsertIncomingPacket (s : IncomingReliableState) (packet : Packet)
    : bool * IncomingReliableState :=
  if pkt_ID packet <=? in_lastConsumedID s then (false, s) else
  if bool_decide (pkt_ID packet ∈ in_bufferedID s) then (false, s) else
  let nextExpectedID := u32 (in_lastConsumedID s + 1) in
  if Z.of_nat ReliableReceiveBufferSize <=? u32 (pkt_ID packet - nextExpectedID) then (false, s) else
  if bool_decide (ReliableReceiveBufferSize ≤ length (in_pendingPackets s))%nat then (false, s) else
  (true, mkIncoming (in_pendingPackets s ++ [packet]) ({[pkt_ID packet]} ∪ in_bufferedID s)
           (in_lastConsumedID s)).

(** The loop over the sorted packets: ready ones are consumed, later ones kept. *)
Fixpoint orderedLoop (packets : list Packet) (bufferedID : gset PacketID) (lastConsumedID : PacketID)
    : list Packet * list Packet * gset PacketID * PacketID :=
  match packets with
  | [] => ([], [], bufferedID, lastConsumedID)
  | packet :: packets =>
      if pkt_ID packet =? u32 (lastConsumedID + 1) then
        let '(ready, retained, bufferedID, lastConsumedID) :=
          orderedLoop packets (bufferedID ∖ {[pkt_ID packet]}) (pkt_ID packet) in
        (packet :: ready, retained, bufferedID, lastConsumedID)
      else
        let '(ready, retained, bufferedID', lastConsumedID') :=
          orderedLoop packets bufferedID lastConsumedID in
        (ready,
         (if u32 (lastConsumedID + 1) <? pkt_ID packet then packet :: retained else retained),
         bufferedID', lastConsumedID')
  end.

Definition NextOrderedSequence (s : IncomingReliableState) : list Packet * IncomingReliableState :=
  let '(ready, retained, bufferedID, lastConsumedID) :=
    orderedLoop (sort_by pkt_ID (in_pendingPackets s)) (in_bufferedID s) (in_lastConsumedID s) in
  (ready, mkIncoming retained bufferedID lastConsumedID).

(** ** Acknowledgments: the loop against its specification *)

(** Add [n] to the counter of acknowledged later packets. *)
Definition bumpBy (n : Z) (p : inFlightPacket) : inFlightPacket :=
  mkInFlight (fl_packet p) (fl_retransmissionDeadline p)
    (fl_higherPacketAcknowledges p + n) (fl_retransmissionCount p).

(** One acknowledged id: drop its packet and bump the earlier ones, in place. *)
Definition ackSpec (a : PacketID) (l : list inFlightPacket) : list inFlightPacket :=
  (λ p, if fl_id p <? a then bumpHigher p else p) <$> filter (λ p, fl_id p ≠ a) l.

(** All ids of a packet: what is left, and how often it was overtaken. *)
Definition acknowledgedBy (acks : list PacketID) (l : list inFlightPacket) : list inFlightPacket :=
  (λ p, bumpBy (lenZ (filter (λ a, fl_id p < a) acks)) p) <$> filter (λ p, fl_id p ∉ acks) l.

Lemma acknowledgeLoop_perm fuel a kept rest :
  (length rest ≤ fuel)%nat →
  acknowledgeLoop fuel a (length kept) (kept ++ rest) ≡ₚ kept ++ ackSpec a rest.
Proof.
  revert kept rest. induction fuel as [|fuel IH]; intros kept rest Hfuel.
  { destruct rest; [done|simpl in *; lia]. }
  destruct rest as [|tp rest]; cbn [acknowledgeLoop].
  { rewrite app_nil_r, (lookup_ge_None_2 kept) by lia. cbn. by rewrite app_nil_r. }
  rewrite list_lookup_middle by done. unfold ackSpec. rewrite filter_cons. cbn [length] in Hfuel.
  destruct (Z.eqb_spec a (fl_id tp)) as [->|Hne].
  - rewrite decide_False by tauto.
    destruct (destruct_list_last rest) as [->|(m & lp & ->)].
    + rewrite length_app. cbn [length]. replace (length kept + 1 - 1)%nat with (length kept) by lia.
      rewrite list_lookup_middle by done. rewrite take_insert_ge, take_insert_ge by lia.
      rewrite take_app_length. pose proof (IH kept [] ltac:(simpl; lia)) as H.
      by rewrite app_nil_r in H.
    + rewrite !length_app in *. cbn [length] in *.
      rewrite length_app. cbn [length].
      replace (length kept + S (length m + 1) - 1)%nat with (length (kept ++ tp :: m))
        by (rewrite length_app; simpl; lia).
      rewrite (app_comm_cons m [lp] tp), app_assoc, list_lookup_middle by done.
      rewrite take_insert_ge by lia. rewrite <-app_assoc, insert_app_r_alt by lia.
      rewrite Nat.sub_diag. cbn [list_insert insert app].
      rewrite app_comm_cons, app_assoc, take_app_exact by (rewrite !length_app; simpl; lia).
      rewrite IH by (simpl; lia). unfold ackSpec. apply Permutation_app_head, fmap_Permutation.
      by rewrite <-Permutation_cons_append.
  - rewrite decide_True by done. cbn [fmap list_fmap].
    rewrite insert_app_r_alt by lia. rewrite Nat.sub_diag. cbn [list_insert insert].
    set (tp' := if fl_id tp <? a then bumpHigher tp else tp).
    replace (if fl_id tp <? a then kept ++ bumpHigher tp :: rest else kept ++ tp :: rest)
      with ((kept ++ [tp']) ++ rest) by (subst tp'; rewrite <-app_assoc; by case_match).
    replace (S (length kept)) with (length (kept ++ [tp'])) by (rewrite length_app; simpl; lia).
    rewrite IH by lia. by rewrite <-app_assoc.
Qed.

Lemma acknowledge_perm a l : acknowledge l a ≡ₚ ackSpec a l.
Proof. apply (acknowledgeLoop_perm _ a [] l). done. Qed.

#[export] Instance ackSpec_proper a : Proper ((≡ₚ) ==> (≡ₚ)) (ackSpec a).
Proof. intros l k H. unfold ackSpec. by rewrite H. Qed.

Lemma fold_acknowledge_perm acks l :
  foldl acknowledge l acks ≡ₚ foldl (λ l a, ackSpec a l) l acks.
Proof.
  assert (∀ l k, l ≡ₚ k → foldl acknowledge l acks ≡ₚ foldl (λ l a, ackSpec a l) k acks) as H;
    [|by apply H].
  induction acks as [|a acks IH]; intros l' k' Hp; [done|]. cbn [foldl].
  apply IH. by rewrite acknowledge_perm, Hp.
Qed.

Lemma fold_ackSpec acks l : foldl (λ l a, ackSpec a l) l acks = acknowledgedBy acks l.
Proof.
  revert l. induction acks as [|a acks IH]; intros l; cbn [foldl].
  - unfold acknowledgedBy. rewrite filter_Forall_id by (apply Forall_forall; set_solver).
    rewrite <-(list_fmap_id l) at 1. apply list_fmap_ext. intros _ [] _.
    unfold bumpBy, lenZ. cbn. f_equal. lia.
  - rewrite IH. unfold acknowledgedBy, ackSpec. clear IH.
    induction l as [|p l IH]; [done|]. rewrite !filter_cons.
    destruct (decide (fl_id p ≠ a)) as [Hne|He].
    + cbn [fmap list_fmap]. rewrite filter_cons.
      assert (fl_id (if fl_id p <? a then bumpHigher p else p) = fl_id p) as Hid by by case_match.
      rewrite Hid. destruct (decide (fl_id p ∉ acks)).
      * rewrite (decide_True (P := fl_id p ∉ a :: acks)) by set_solver. cbn [fmap list_fmap].
        f_equal; [|done]. rewrite Hid, filter_cons.
        destruct (Z.ltb_spec (fl_id p) a); [rewrite decide_True by done|rewrite decide_False by lia];
          unfold bumpBy, bumpHigher, lenZ; cbn; f_equal; lia.
      * rewrite decide_False by set_solver. done.
    + apply dec_stable in He. rewrite decide_False by set_solver. done.
Qed.

Lemma acknowledgedBy_ids acks l :
  fl_id <$> acknowledgedBy acks l = filter (λ i, i ∉ acks) (fl_id <$> l).
Proof.
  unfold acknowledgedBy. induction l as [|p l IH]; [done|]. cbn [fmap list_fmap].
  rewrite !filter_cons. case_decide; [|done]. cbn [fmap list_fmap]. f_equal; done.
Qed.

(** ** The sender's invariant *)

Record out_inv (s : OutgoingReliableState) : Prop := {
  oi_inFlight : (length (out_inFlightPackets s) ≤ ReliableSendBufferSize)%nat;
  oi_pending : (size (out_pendingAcknowledgmentID s) ≤ AcknowledgmentSetCapacity)%nat;
  oi_sorted : sorted_by fl_id (out_inFlightPackets s);
  oi_distinct : NoDup (fl_id <$> out_inFlightPackets s);
}.

Lemma NewOutgoing_inv : out_inv NewOutgoingReliableState.
Proof. split; cbn; [lia|rewrite size_empty; lia|constructor|constructor]. Qed.

Lemma acknowledged_inFlight s packet :
  out_inv s →
  out_inFlightPackets (OnIncomingPacket s packet)
  = acknowledgedBy (pkt_AcknowledgmentIDs packet) (out_inFlightPackets s).
Proof.
  intros [_ _ Hs Hd]. cbn. apply sort_by_unique.
  - by rewrite fold_acknowledge_perm, fold_ackSpec.
  - rewrite acknowledgedBy_ids. by apply NoDup_filter.
  - unfold sorted_by. rewrite acknowledgedBy_ids. by apply StronglySorted_filter.
Qed.

Lemma OnIncoming_inv s packet : out_inv s → out_inv (OnIncomingPacket s packet).
Proof.
  intros Hinv. pose proof (acknowledged_inFlight s packet Hinv) as E. destruct Hinv as [Hl Hp Hs Hd].
  split; rewrite ?E.
  - unfold acknowledgedBy. rewrite length_fmap. etrans; [apply length_filter|done].
  - cbn. case_match eqn:Eg; [|done]. apply andb_prop in Eg as [_ Eg%bool_decide_eq_true].
    pose proof (size_add_le (pkt_ID packet) (out_pendingAcknowledgmentID s)). lia.
  - unfold sorted_by. rewrite acknowledgedBy_ids. by apply StronglySorted_filter.
  - rewrite acknowledgedBy_ids. by apply NoDup_filter.
Qed.

(** ** The pending acknowledgment set *)

Lemma sortedIDs_perm s : sortedIDs s ≡ₚ elements s.
Proof. apply sort_by_perm. Qed.

Lemma elem_of_sortedIDs i s : i ∈ sortedIDs s ↔ i ∈ s.
Proof. by rewrite sortedIDs_perm, elem_of_elements. Qed.

Lemma NoDup_sortedIDs s : NoDup (sortedIDs s).
Proof. rewrite sortedIDs_perm. apply NoDup_elements. Qed.

Lemma fold_difference (ids : list Z) (p : gset Z) :
  foldl (λ pending i, pending ∖ {[i]}) p ids = p ∖ list_to_set ids.
Proof.
  revert p. induction ids as [|i ids IH]; intros p; cbn; [set_solver|]. rewrite IH. set_solver.
Qed.

(** [takeAcknowledgmentIDsLocked] takes the [maximumCount] smallest ids. *)
Lemma takeAcknowledgmentIDs_spec s maximumCount ids s' :
  takeAcknowledgmentIDsLocked s maximumCount = (ids, s') →
  ids = take (Z.to_nat maximumCount) (sortedIDs (out_pendingAcknowledgmentID s)) ∧
  out_inFlightPackets s' = out_inFlightPackets s ∧
  out_pendingAcknowledgmentID s' = out_pendingAcknowledgmentID s ∖ list_to_set ids.
Proof.
  unfold takeAcknowledgmentIDsLocked.
  destruct (Z.leb_spec maximumCount 0); cbn [orb].
  { intros [= <- <-]. replace (Z.to_nat maximumCount) with 0%nat by lia. set_solver. }
  case_bool_decide as Hsize.
  { intros [= <- <-]. apply size_empty_inv, leibniz_equiv in Hsize.
    rewrite Hsize. unfold sortedIDs. rewrite elements_empty. cbn. rewrite take_nil. set_solver. }
  intros [= <- <-]. cbn. rewrite fold_difference.
  assert ((if maximumCount <? lenZ (sortedIDs (out_pendingAcknowledgmentID s))
           then take (Z.to_nat maximumCount) (sortedIDs (out_pendingAcknowledgmentID s))
           else sortedIDs (out_pendingAcknowledgmentID s))
          = take (Z.to_nat maximumCount) (sortedIDs (out_pendingAcknowledgmentID s))) as ->; [|done].
  case_match eqn:E; [done|]. apply Z.ltb_ge in E. rewrite take_ge; [done|]. unfold lenZ in E. lia.
Qed.

(** Returning ids that fit puts all of them back. *)
Lemma returnIDs_fits ids (p : gset Z) :
  (size (list_to_set ids ∪ p : gset Z) ≤ AcknowledgmentSetCapacity)%nat →
  returnIDs p ids = list_to_set ids ∪ p.
Proof.
  revert p. induction ids as [|i ids IH]; intros p Hsize; cbn; [set_solver|].
  case_match eqn:E.
  - apply andb_prop in E as [Hi%bool_decide_eq_true Hfull%bool_decide_eq_true].
    exfalso. assert (size ({[i]} ∪ p) = S (size p)) as Hs.
    { rewrite size_union by set_solver. by rewrite size_singleton. }
    pose proof (subseteq_size ({[i]} ∪ p) (list_to_set (i :: ids) ∪ p : gset Z) ltac:(set_solver)).
    lia.
  - rewrite IH; [set_solver|]. etrans; [|exact Hsize]. apply subseteq_size. set_solver.
Qed.

Lemma take_return s maximumCount ids s' :
  out_inv s → takeAcknowledgmentIDsLocked s maximumCount = (ids, s') →
  returnAcknowledgmentIDsLocked s' ids = s.
Proof.
  intros [_ Hp _ _] (-> & Hf & Hs)%takeAcknowledgmentIDs_spec.
  unfold returnAcknowledgmentIDsLocked. rewrite Hf, Hs.
  set (ids := take _ _) in *.
  assert (list_to_set ids ⊆ out_pendingAcknowledgmentID s) as Hsub.
  { intros i. rewrite elem_of_list_to_set. intros Hi. apply elem_of_sortedIDs.
    unfold ids in Hi. eapply elem_of_sublist; [exact Hi|]. apply sublist_take. }
  assert (list_to_set ids ∪ out_pendingAcknowledgmentID s ∖ list_to_set ids
          = out_pendingAcknowledgmentID s) as Hu.
  { apply set_eq. intros i. destruct (decide (i ∈ (list_to_set ids : gset Z))); set_solver. }
  rewrite returnIDs_fits by by rewrite Hu. rewrite Hu. by destruct s.
Qed.

Lemma Insert_ok_spec {E} s maximum (newPacket : list PacketID → E → result Packet * E) env packet s' env' :
  InsertOutgoingPacket s maximum newPacket env = (Ok (Some packet), s', env') →
  (length (out_inFlightPackets s) < ReliableSendBufferSize)%nat ∧
  ∃ ids, ids = take (Z.to_nat maximum) (sortedIDs (out_pendingAcknowledgmentID s)) ∧
    newPacket ids env = (Ok packet, env') ∧
    out_inFlightPackets s' = sort_by fl_id (out_inFlightPackets s ++ [mkInFlight packet 0 0 0]) ∧
    out_pendingAcknowledgmentID s' = out_pendingAcknowledgmentID s ∖ list_to_set ids.
Proof.
  unfold InsertOutgoingPacket. case_decide; [done|].
  destruct (takeAcknowledgmentIDsLocked s maximum) as [ids s1] eqn:Et.
  destruct (newPacket ids env) as [[p|e] env1] eqn:En; [|done]. intros [= <- <- <-]. cbn.
  apply takeAcknowledgmentIDs_spec in Et as (-> & -> & ->). split; [lia|]. eauto.
Qed.

Lemma Insert_inv {E} s maximum (newPacket : list PacketID → E → result Packet * E) env r s' env' :
  out_inv s →
  InsertOutgoingPacket s maximum newPacket env = (r, s', env') →
  (∀ packet, r = Ok (Some packet) → pkt_ID packet ∉ fl_id <$> out_inFlightPackets s) →
  out_inv s'.
Proof.
  intros Hinv Hins Hfresh. destruct r as [[packet|]|e].
  - apply Insert_ok_spec in Hins as (Hlen & ids & -> & _ & Hf & Hp). destruct Hinv as [_ Hc Hs Hd].
    split; rewrite ?Hf, ?Hp.
    + rewrite sort_by_perm, length_app. cbn. lia.
    + etrans; [apply subseteq_size, subseteq_difference_l; reflexivity|done].
    + apply sort_by_sorted.
    + rewrite sort_by_perm, fmap_app. apply NoDup_app. split_and!; [done| |].
      * intros i Hi. cbn. rewrite list_elem_of_singleton. intros ->.
        by eapply Hfresh.
      * cbn. apply NoDup_singleton.
  - unfold InsertOutgoingPacket in Hins. case_decide; [by injection Hins as <- <-|].
    destruct (takeAcknowledgmentIDsLocked s maximum); by destruct (newPacket _ _) as [[]].
  - unfold InsertOutgoingPacket in Hins. case_decide; [done|].
    destruct (takeAcknowledgmentIDsLocked s maximum) as [ids s1] eqn:Et.
    destruct (newPacket ids env) as [[p|e'] env1]; [done|]. injection Hins as <- <- <-.
    by rewrite (take_return _ _ _ _ Hinv Et).
Qed.

Lemma fl_id_ready now (l : list inFlightPacket) :
  fl_id <$> ((λ p, if readyToSend now p then scheduleForRetransmission p now else p) <$> l)
  = fl_id <$> l.
Proof.
  rewrite <-list_fmap_compose. apply list_fmap_ext. intros _ p _. cbn. by case_match.
Qed.

Lemma Ready_inv s now : out_inv s → out_inv (PacketsReadyToSend s now).2.
Proof.
  intros []. split; cbn; rewrite ?length_fmap; unfold sorted_by; rewrite ?fl_id_ready; done.
Qed.

Lemma Take_inv s n : out_inv s → out_inv (TakeAcknowledgmentIDs s n).2.
Proof.
  intros []. destruct (TakeAcknowledgmentIDs s n) as [ids s'] eqn:E.
  apply takeAcknowledgmentIDs_spec in E as (-> & Hf & Hp). cbn.
  split; rewrite ?Hf, ?Hp; try done.
  etrans; [apply subseteq_size, subseteq_difference_l; reflexivity|done].
Qed.

Lemma returnIDs_bound ids (p : gset Z) :
  (size p ≤ AcknowledgmentSetCapacity)%nat → (size (returnIDs p ids) ≤ AcknowledgmentSetCapacity)%nat.
Proof.
  revert p. induction ids as [|i ids IH]; intros p Hp; cbn; [done|].
  case_match eqn:E; [done|]. apply IH.
  apply andb_false_iff in E as [E%bool_decide_eq_false|E%bool_decide_eq_false].
  - apply dec_stable in E. replace ({[i]} ∪ p) with p by set_solver. done.
  - pose proof (size_add_le i p). lia.
Qed.

Lemma Return_inv s ids : out_inv s → out_inv (ReturnAcknowledgmentIDs s ids).
Proof. intros []. split; cbn; try done. by apply returnIDs_bound. Qed.

(** The sender's life: calls in the order the lock serves them.  A packet enters
    with an id no packet in flight has, which is what the session manager's
    counter provides. *)
Inductive out_step : OutgoingReliableState → OutgoingReliableState → Prop :=
| step_insert (E : Type) s maximum (newPacket : list PacketID → E → result Packet * E) env r s' env' :
    InsertOutgoingPacket s maximum newPacket env = (r, s', env') →
    (∀ packet, r = Ok (Some packet) → pkt_ID packet ∉ fl_id <$> out_inFlightPackets s) →
    out_step s s'
| step_incoming s packet : out_step s (OnIncomingPacket s packet)
| step_take s n : out_step s (TakeAcknowledgmentIDs s n).2
| step_return s ids : out_step s (ReturnAcknowledgmentIDs s ids)
| step_ready s now : out_step s (PacketsReadyToSend s now).2.

Create HintDb reliable.
#[export] Hint Resolve NewOutgoing_inv OnIncoming_inv Ready_inv Take_inv Return_inv Insert_inv : reliable.

(** ** Properties of the sender *)

(** Every state the sender can reach keeps at most 6 packets in flight and
    8 ids pending, with the packets in flight in strictly ascending id order. *)
Theorem outgoing_invariant s :
  rtc out_step NewOutgoingReliableState s →
  (length (out_inFlightPackets s) ≤ ReliableSendBufferSize)%nat ∧
  (size (out_pendingAcknowledgmentID s) ≤ AcknowledgmentSetCapacity)%nat ∧
  sorted_by fl_id (out_inFlightPackets s) ∧ NoDup (fl_id <$> out_inFlightPackets s).
Proof.
  intros Hr. assert (out_inv s) as []; [|done]. revert Hr.
  apply rtc_ind_r; [auto with reliable|]. intros s1 s2 _ Hstep Hinv.
  destruct Hstep; eauto with reliable.
Qed.

(** The acknowledgment loop, with its swap-with-last removal over the shared
    slice, computes the order-preserving filter it stands for: it removes exactly
    the acknowledged packets and counts, for each remaining one, every
    acknowledgment of a later packet. *)
Theorem OnIncomingPacket_acknowledges s packet :
  out_inv s →
  out_inFlightPackets (OnIncomingPacket s packet)
  = acknowledgedBy (pkt_AcknowledgmentIDs packet) (out_inFlightPackets s).
Proof. apply acknowledged_inFlight. Qed.

(** Inserting a packet either takes nothing (full buffer, the closure is not
    called), or fails leaving the sender exactly as it was (every acknowledgment
    id taken for the packet is pending again), or puts the packet in flight and
    moves the smallest pending ids, at most [maximum] of them, into it. *)
Theorem InsertOutgoingPacket_correct {E} s maximum
    (newPacket : list PacketID → E → result Packet * E) env :
  out_inv s →
  match InsertOutgoingPacket s maximum newPacket env with
  | (Ok None, s', env') =>
      s' = s ∧ env' = env ∧ length (out_inFlightPackets s) = ReliableSendBufferSize
  | (Err e, s', env') =>
      s' = s ∧
      newPacket (take (Z.to_nat maximum) (sortedIDs (out_pendingAcknowledgmentID s))) env = (Err e, env')
  | (Ok (Some packet), s', env') =>
      let ids := take (Z.to_nat maximum) (sortedIDs (out_pendingAcknowledgmentID s)) in
      newPacket ids env = (Ok packet, env') ∧
      out_inFlightPackets s' ≡ₚ mkInFlight packet 0 0 0 :: out_inFlightPackets s ∧
      sorted_by fl_id (out_inFlightPackets s') ∧
      out_pendingAcknowledgmentID s' = out_pendingAcknowledgmentID s ∖ list_to_set ids
  end.
Proof.
  intros Hinv. destruct (InsertOutgoingPacket s maximum newPacket env) as [[[[p|]|e] s'] env'] eqn:Hi.
  - apply Insert_ok_spec in Hi as (_ & ids & -> & Hn & Hf & Hp). rewrite Hf.
    split_and!; [done| |apply sort_by_sorted|done].
    by rewrite sort_by_perm, <-Permutation_cons_append.
  - unfold InsertOutgoingPacket in Hi. case_decide as Hfull.
    + injection Hi as <- <-. destruct Hinv. split_and!; done || lia.
    + destruct (takeAcknowledgmentIDsLocked s maximum); by destruct (newPacket _ _) as [[]].
  - unfold InsertOutgoingPacket in Hi. case_decide; [done|].
    destruct (takeAcknowledgmentIDsLocked s maximum) as [ids s1] eqn:Et.
    destruct (newPacket ids env) as [[p|e'] env1] eqn:En; [done|]. injection Hi as <- <- <-.
    rewrite (take_return _ _ _ _ Hinv Et). split; [done|].
    apply takeAcknowledgmentIDs_spec in Et as (-> & _). done.
Qed.

(** The retransmission delay doubles from 2 seconds and is capped at 60
    seconds for the first 33 transmissions of a packet, for as long as the 64-bit
    duration can hold the doubled value. *)
Theorem retransmissionInterval_backoff n :
  1 ≤ n ≤ 33 → retransmissionInterval n = Z.min (2 ^ n * Second) (60 * Second).
Proof.
  intros Hn. unfold retransmissionInterval, InitialRetransmissionTimeout, MaximumRetransmissionTimeout.
  rewrite Z.max_r by lia. unfold shl64. rewrite Z.shiftl_1_l.
  assert (0 < 2 ^ (n - 1) ≤ 2 ^ 32) by (split; [apply Z.pow_pos_nonneg|apply Z.pow_le_mono_r]; lia).
  rewrite (s64_small (2 ^ (n - 1))) by lia. unfold Second in *. rewrite s64_small by lia.
  replace (2 ^ n) with (2 * 2 ^ (n - 1)); [lia|]. rewrite <-Z.pow_succ_r by lia. f_equal. lia.
Qed.

(** The 34th transmission overflows the 64-bit duration: the delay comes out
    negative, so the packet is due again at once instead of after 60 seconds. *)
Theorem retransmissionInterval_overflow p now :
  fl_retransmissionCount p = 33 → 0 < now →
  retransmissionInterval 34 < 0 ∧ readyToSend now (scheduleForRetransmission p now) = true.
Proof.
  intros Hc Hnow. assert (retransmissionInterval 34 < 0) as Hneg by (vm_compute; done).
  split; [done|]. unfold readyToSend, scheduleForRetransmission. cbn. rewrite Hc.
  destruct (Z.ltb_spec now (now + retransmissionInterval (33 + 1))); [|by rewrite orb_true_r].
  change (33 + 1) with 34 in *. lia.
Qed.

(** ** The receiver's invariant *)

Record in_inv (s : IncomingReliableState) : Prop := {
  ii_last : 0 ≤ in_lastConsumedID s < 2 ^ 32;
  ii_distinct : NoDup (pkt_ID <$> in_pendingPackets s);
  ii_buffered : in_bufferedID s = list_to_set (pkt_ID <$> in_pendingPackets s);
  ii_window : ∀ i, i ∈ pkt_ID <$> in_pendingPackets s →
    in_lastConsumedID s < i ≤ in_lastConsumedID s + 12 ∧ i < 2 ^ 32;
}.

Lemma NewIncoming_inv : in_inv NewIncomingReliableState.
Proof. split; cbn; [lia|constructor|set_solver|set_solver]. Qed.

Lemma window_bound s i :
  in_inv s → in_lastConsumedID s < i ≤ in_lastConsumedID s + 12 →
  i ∉ pkt_ID <$> in_pendingPackets s → (length (in_pendingPackets s) < 12)%nat.
Proof.
  intros [_ Hd _ Hw] Hi Hni.
  assert (i :: (pkt_ID <$> in_pendingPackets s) ⊆+ seqZ (in_lastConsumedID s + 1) 12) as Hsub.
  { apply NoDup_submseteq; [by constructor|]. intros j. rewrite elem_of_cons, elem_of_seqZ.
    intros [->|Hj%Hw]; lia. }
  apply submseteq_length in Hsub. rewrite length_seqZ in Hsub. cbn in Hsub.
  rewrite length_fmap in Hsub. lia.
Qed.

(** A packet is taken exactly when it is in the window of the 12 ids after the
    last one consumed and not buffered yet; the buffer-length test never fires. *)
Lemma TryInsert_spec s packet :
  in_inv s → 0 ≤ pkt_ID packet < 2 ^ 32 →
  TryInsertIncomingPacket s packet =
  if decide ((in_lastConsumedID s < pkt_ID packet ≤ in_lastConsumedID s + 12) ∧
             pkt_ID packet ∉ pkt_ID <$> in_pendingPackets s)
  then (true, mkIncoming (in_pendingPackets s ++ [packet]) ({[pkt_ID packet]} ∪ in_bufferedID s)
                (in_lastConsumedID s))
  else (false, s).
Proof.
  intros Hinv Hid. unfold TryInsertIncomingPacket. pose proof (ii_last s Hinv).
  destruct (Z.leb_spec (pkt_ID packet) (in_lastConsumedID s)).
  { rewrite decide_False by lia. done. }
  rewrite (ii_buffered s Hinv). case_bool_decide as Hb.
  { rewrite decide_False; [done|]. apply elem_of_list_to_set in Hb. tauto. }
  rewrite elem_of_list_to_set in Hb. rewrite (u32_small (_ + 1)), u32_small by lia.
  unfold ReliableReceiveBufferSize.
  destruct (Z.leb_spec 12 (pkt_ID packet - (in_lastConsumedID s + 1))) as [H1|H1].
  { rewrite (proj2 (Z.leb_le _ _)) by lia. rewrite decide_False by lia. done. }
  rewrite (proj2 (Z.leb_gt _ _)) by lia.
  rewrite bool_decide_eq_false_2.
  - rewrite decide_True; [done|]. split; [lia|done].
  - pose proof (window_bound s (pkt_ID packet) Hinv ltac:(lia) Hb). lia.
Qed.

Lemma TryInsert_inv s packet :
  in_inv s → 0 ≤ pkt_ID packet < 2 ^ 32 → in_inv (TryInsertIncomingPacket s packet).2.
Proof.
  intros Hinv Hid. rewrite TryInsert_spec by done. case_decide as H; [|done].
  destruct Hinv as [Hl Hd Hb Hw], H as [Hr Hni]. split; cbn.
  - done.
  - rewrite fmap_app. apply NoDup_app. cbn. split_and!; [done| |apply NoDup_singleton].
    set_solver.
  - rewrite Hb, fmap_app, list_to_set_app_L. set_solver.
  - intros i. rewrite fmap_app, elem_of_app. cbn. rewrite list_elem_of_singleton.
    intros [Hi| ->]; [by apply Hw|lia].
Qed.

(** ** Draining *)

Definition strictly_after (last : Z) (l : list Packet) : Prop :=
  StronglySorted Z.lt (pkt_ID <$> l) ∧ Forall (λ i, last < i < 2 ^ 32) (pkt_ID <$> l).

Lemma orderedLoop_gap l b last :
  0 ≤ last → Forall (λ i, last + 1 < i < 2 ^ 32) (pkt_ID <$> l) →
  orderedLoop l b last = ([], l, b, last).
Proof.
  intros Hl. revert b. induction l as [|p l IH]; intros b Hall; [done|].
  cbn in Hall. inversion Hall as [|?? Hp Hall']; subst. cbn [orderedLoop].
  rewrite u32_small by lia. rewrite (proj2 (Z.eqb_neq _ _)) by lia.
  rewrite IH by done. by rewrite (proj2 (Z.ltb_lt _ _)) by lia.
Qed.

Lemma orderedLoop_spec l b last ready retained b' last' :
  0 ≤ last → strictly_after last l →
  orderedLoop l b last = (ready, retained, b', last') →
  l = ready ++ retained ∧ last' = last + lenZ ready ∧
  pkt_ID <$> ready = seqZ (last + 1) (lenZ ready) ∧
  b' = b ∖ list_to_set (pkt_ID <$> ready) ∧
  Forall (λ i, last' + 1 < i) (pkt_ID <$> retained).
Proof.
  revert b last ready retained b' last'.
  induction l as [|p l IH]; intros b last ready retained b' last' Hlast [Hs Ha].
  { intros [= <- <- <- <-]. cbn. split_and!; [done|unfold lenZ; simpl; lia|done|set_solver|constructor]. }
  cbn [orderedLoop] in *. cbn in Hs, Ha.
  inversion Hs as [|?? Hs' Hsp]; inversion Ha as [|?? Hp Ha']; subst.
  rewrite u32_small by lia. destruct (Z.eqb_spec (pkt_ID p) (last + 1)) as [He|Hne].
  - destruct (orderedLoop l (b ∖ {[pkt_ID p]}) (pkt_ID p)) as [[[rd rt] b1] l1] eqn:E.
    intros [= <- <- <- <-]. apply IH in E as (-> & -> & Hids & -> & Hrt); [|lia|].
    + unfold lenZ. cbn [length fmap list_fmap]. split_and!.
      * done.
      * unfold lenZ. lia.
      * rewrite seqZ_cons by lia. f_equal; [lia|]. rewrite Hids. unfold lenZ. f_equal; lia.
      * set_solver.
      * unfold lenZ in *. done.
    + split; [done|]. rewrite Forall_forall in Hsp, Ha' |- *. intros i Hi.
      specialize (Hsp i Hi). specialize (Ha' i Hi). lia.
  - rewrite orderedLoop_gap; [|lia|].
    + intros [= <- <- <- <-]. rewrite (proj2 (Z.ltb_lt _ _)) by lia. unfold lenZ. cbn.
      split_and!; [done|lia|done|set_solver|]. constructor; [lia|].
      rewrite Forall_forall in Hsp |- *. intros i Hi. specialize (Hsp i Hi). cbn in Hi. lia.
    + rewrite Forall_forall in Hsp, Ha' |- *. intros i Hi.
      specialize (Hsp i Hi). specialize (Ha' i Hi). lia.
Qed.

Lemma sorted_distinct_strict (l : list Z) : StronglySorted Z.le l → NoDup l → StronglySorted Z.lt l.
Proof.
  induction 1 as [|x l Hl IH Hx]; intros Hd; [constructor|].
  apply NoDup_cons in Hd as [Hni Hd]. constructor; [by apply IH|].
  rewrite Forall_forall in Hx |- *. intros y Hy. specialize (Hx y Hy).
  assert (x ≠ y) by (intros ->; done). lia.
Qed.

Lemma inv_strictly_after s :
  in_inv s → strictly_after (in_lastConsumedID s) (sort_by pkt_ID (in_pendingPackets s)).
Proof.
  intros [_ Hd _ Hw]. split.
  - apply sorted_distinct_strict; [apply sort_by_sorted|]. by rewrite sort_by_perm.
  - apply Forall_forall. intros i. rewrite sort_by_perm. intros Hi%Hw. lia.
Qed.

Lemma NextOrdered_spec s ready s' :
  in_inv s → NextOrderedSequence s = (ready, s') →
  in_inv s' ∧ in_lastConsumedID s' = in_lastConsumedID s + lenZ ready ∧
  pkt_ID <$> ready = seqZ (in_lastConsumedID s + 1) (lenZ ready) ∧
  in_pendingPackets s ≡ₚ ready ++ in_pendingPackets s' ∧
  in_lastConsumedID s' + 1 ∉ pkt_ID <$> in_pendingPackets s'.
Proof.
  intros Hinv. unfold NextOrderedSequence.
  destruct (orderedLoop _ _ _) as [[[rd rt] b1] l1] eqn:E. intros [= <- <-]. cbn.
  pose proof (inv_strictly_after s Hinv) as Hsa. destruct Hinv as [Hl Hd Hb Hw].
  apply orderedLoop_spec in E as (Hsplit & -> & Hids & -> & Hrt); [|lia|done].
  assert (in_pendingPackets s ≡ₚ rd ++ rt) as Hp by by rewrite <-Hsplit, sort_by_perm.
  assert (in_lastConsumedID s + lenZ rd < 2 ^ 32) as Hlt.
  { destruct (decide (0 < lenZ rd)) as [Hn|Hn]; [|unfold lenZ in *; lia].
    assert (in_lastConsumedID s + lenZ rd ∈ pkt_ID <$> in_pendingPackets s) as Hin.
    { rewrite Hp, fmap_app, Hids, elem_of_app, elem_of_seqZ. lia. }
    by apply Hw in Hin as []. }
  rewrite Hp, fmap_app in Hd. apply NoDup_app in Hd as (_ & Hdisj & Hd').
  assert (in_lastConsumedID s + lenZ rd + 1 ∉ pkt_ID <$> rt) as Hnext.
  { rewrite Forall_forall in Hrt. intros Hi%Hrt. lia. }
  split_and!; try done. split; cbn; [unfold lenZ in *; lia|done| |].
  - rewrite Hb, Hp, fmap_app, list_to_set_app_L. apply set_eq. intros i.
    specialize (Hdisj i). set_solver.
  - intros i Hi. rewrite Forall_forall in Hrt. specialize (Hrt i Hi).
    assert (i ∈ pkt_ID <$> in_pendingPackets s) as [? ?]%Hw by (rewrite Hp, fmap_app; set_solver).
    unfold lenZ in *. lia.
Qed.

(** The receiver's life: packets offered by the network and drains. *)
Inductive in_op := Offer (packet : Packet) | Drain.

Fixpoint in_run (s : IncomingReliableState) (ops : list in_op) : list Packet * IncomingReliableState :=
  match ops with
  | [] => ([], s)
  | Offer packet :: ops => in_run (TryInsertIncomingPacket s packet).2 ops
  | Drain :: ops =>
      let '(ready, s) := NextOrderedSequence s in
      let '(rest, s) := in_run s ops in
      (ready ++ rest, s)
  end.

Definition offered (ops : list in_op) : list Packet :=
  omap (λ op, match op with Offer p => Some p | Drain => None end) ops.

Lemma in_run_spec ops s delivered s' :
  in_inv s → Forall (λ p, 0 ≤ pkt_ID p < 2 ^ 32) (offered ops) →
  in_run s ops = (delivered, s') →
  in_inv s' ∧ in_lastConsumedID s' = in_lastConsumedID s + lenZ delivered ∧
  pkt_ID <$> delivered = seqZ (in_lastConsumedID s + 1) (lenZ delivered) ∧
  (∀ p, p ∈ delivered ∨ p ∈ in_pendingPackets s' → p ∈ offered ops ∨ p ∈ in_pendingPackets s).
Proof.
  revert s delivered. induction ops as [|[packet|] ops IH]; intros s delivered Hinv Hids; cbn [in_run].
  - intros [= <- <-]. unfold lenZ. cbn. split_and!; [done|lia|done|set_solver].
  - cbn in Hids. inversion Hids; subst. intros Hrun.
    apply IH in Hrun as (Hinv' & -> & Hd & Hfrom); [|by apply TryInsert_inv|done].
    rewrite TryInsert_spec in * by done. cbn [offered omap list_omap].
    destruct (decide _); cbn in *; split_and!; try done; set_solver.
  - destruct (NextOrderedSequence s) as [ready s1] eqn:En.
    destruct (in_run s1 ops) as [rest s2] eqn:Er. intros [= <- <-].
    apply NextOrdered_spec in En as (Hinv1 & Hl1 & Hr1 & Hp1 & _); [|done].
    apply IH in Er as (Hinv2 & Hl2 & Hr2 & Hfrom); [|done|done].
    assert (lenZ (ready ++ rest) = lenZ ready + lenZ rest) as Hlen
      by (unfold lenZ; rewrite length_app; lia).
    split_and!; [done|lia| |].
    + rewrite fmap_app, Hr1, Hr2, Hlen, seqZ_app by (unfold lenZ; lia). do 2 f_equal. lia.
    + intros p. rewrite elem_of_app, Hp1, elem_of_app. cbn [offered omap list_omap].
      specialize (Hfrom p). tauto.
Qed.

(** ** Properties of the receiver *)

(** Whatever the network offers, in whatever order, repeated or lost, the
    receiver delivers ids 1, 2, 3, ... in order, each exactly once, and only
    packets that were offered. *)
Theorem delivery_in_order ops delivered s' :
  Forall (λ p, 0 ≤ pkt_ID p < 2 ^ 32) (offered ops) →
  in_run NewIncomingReliableState ops = (delivered, s') →
  pkt_ID <$> delivered = seqZ 1 (lenZ delivered) ∧
  (∀ p, p ∈ delivered → p ∈ offered ops) ∧
  (length (in_pendingPackets s') ≤ ReliableReceiveBufferSize)%nat.
Proof.
  intros Hids Hrun. apply in_run_spec in Hrun as (Hinv & _ & Hd & Hfrom); [|apply NewIncoming_inv|done].
  split_and!; [done| |].
  - intros p Hp. specialize (Hfrom p (or_introl Hp)). cbn in Hfrom. set_solver.
  - destruct Hinv as [_ Hnd _ Hw].
    assert ((pkt_ID <$> in_pendingPackets s') ⊆+ seqZ (in_lastConsumedID s' + 1) 12) as Hsub.
    { apply NoDup_submseteq; [done|]. intros j Hj%Hw. apply elem_of_seqZ. lia. }
    apply submseteq_length in Hsub. by rewrite length_fmap, length_seqZ in Hsub.
Qed.

(** End to end: if every packet the network offers is one the peer sent
    (its [i]-th packet carrying id [i+1]), the receiver has delivered a prefix of
    exactly what the peer sent. *)
Theorem delivery_prefix sent ops delivered s' :
  (∀ p, p ∈ offered ops → 1 ≤ pkt_ID p < 2 ^ 32 ∧ sent !! Z.to_nat (pkt_ID p - 1) = Some p) →
  in_run NewIncomingReliableState ops = (delivered, s') →
  delivered = take (length delivered) sent.
Proof.
  intros Hsent Hrun. apply in_run_spec in Hrun as (_ & _ & Hd & Hfrom); [|apply NewIncoming_inv|].
  2:{ apply Forall_forall. intros p Hp%Hsent. lia. }
  apply list_eq. intros i. destruct (delivered !! i) as [p|] eqn:Hi.
  - assert (Hlt := lookup_lt_Some _ _ _ Hi). rewrite lookup_take_lt by done.
    assert (pkt_ID p = 1 + Z.of_nat i) as Hid.
    { assert ((pkt_ID <$> delivered) !! i = Some (pkt_ID p)) as H by by rewrite list_lookup_fmap, Hi.
      rewrite Hd in H. apply lookup_seqZ in H as [-> _]. cbn. lia. }
    assert (p ∈ offered ops) as Hp.
    { assert (p ∈ delivered) as Hin by (by eapply list_elem_of_lookup_2).
      specialize (Hfrom p (or_introl Hin)). cbn in Hfrom. set_solver. }
    apply Hsent in Hp as [_ Hs]. rewrite Hid in Hs.
    replace (Z.to_nat (1 + Z.of_nat i - 1)) with i in Hs by lia. done.
  - apply lookup_ge_None in Hi. rewrite lookup_take_ge by done. done.
Qed.

(** Progress: in every reachable receiver state, once the next expected
    packet has been offered the next drain delivers it (or the copy of it already
    buffered) and everything contiguous behind it. *)
Theorem delivery_progress ops packet :
  Forall (λ p, 0 ≤ pkt_ID p < 2 ^ 32) (offered ops) →
  let s := (in_run NewIncomingReliableState ops).2 in
  pkt_ID packet = in_lastConsumedID s + 1 → pkt_ID packet < 2 ^ 32 →
  let '(ready, s') := NextOrderedSequence (TryInsertIncomingPacket s packet).2 in
  pkt_ID <$> head ready = Some (pkt_ID packet) ∧
  in_lastConsumedID s' + 1 ∉ pkt_ID <$> in_pendingPackets s'.
Proof.
  intros Hids s Hnext Hlt.
  destruct (in_run NewIncomingReliableState ops) as [delivered s0] eqn:Hrun.
  apply in_run_spec in Hrun as (Hinv & _); [|apply NewIncoming_inv|done]. cbn in s. subst s.
  pose proof (ii_last s0 Hinv). assert (0 ≤ pkt_ID packet < 2 ^ 32) as Hid by lia.
  pose proof (TryInsert_inv s0 packet Hinv Hid) as Hinv1.
  assert (pkt_ID packet ∈ pkt_ID <$> in_pendingPackets (TryInsertIncomingPacket s0 packet).2 ∧
          in_lastConsumedID (TryInsertIncomingPacket s0 packet).2 = in_lastConsumedID s0) as [Hin Hl].
  { rewrite TryInsert_spec by done. case_decide as Hd; cbn.
    - rewrite fmap_app. set_solver.
    - split; [|done]. apply dec_stable. intros Hni. apply Hd. split; [lia|done]. }
  destruct (NextOrderedSequence _) as [ready s'] eqn:En.
  apply NextOrdered_spec in En as (_ & Hl' & Hr & Hp & Hgap); [|done]. split; [|done].
  rewrite Hl in *. destruct ready as [|r ready].
  - exfalso. cbn in Hp. rewrite Hp in Hin. apply Hgap. rewrite Hl'. unfold lenZ. cbn.
    rewrite Z.add_0_r, <-Hnext. done.
  - cbn in Hr |- *. rewrite seqZ_cons in Hr by (unfold lenZ; simpl; lia).
    injection Hr as Hr _. by rewrite Hnext, <-Hr.
Qed.

(** ** Witnesses *)

Definition examplePkt (i : PacketID) (acks : list PacketID) : Packet :=
  mkPacket OpcodeControlV1 0 zeroPeerID zeroSessionID acks zeroSessionID i [].

Definition exampleSender : OutgoingReliableState :=
  mkOutgoing ((λ i, mkInFlight (examplePkt i []) 0 0 0) <$> [1; 2; 3; 4]) {[7; 5; 9]}.

Lemma exampleSender_inv : out_inv exampleSender.
Proof.
  split; [apply (bool_decide_unpack _); vm_compute; done..| |].
  - repeat constructor; cbn; lia.
  - apply (bool_decide_unpack _). vm_compute. done.
Qed.

Lemma outgoing_invariant_witness :
  (length (out_inFlightPackets (OnIncomingPacket NewOutgoingReliableState (examplePkt 1 []))) ≤ 6)%nat.
Proof.
  apply (outgoing_invariant (OnIncomingPacket NewOutgoingReliableState (examplePkt 1 []))).
  apply rtc_once, step_incoming.
Defined.

Lemma OnIncomingPacket_acknowledges_witness :
  out_inFlightPackets (OnIncomingPacket exampleSender (examplePkt 9 [3; 1]))
  = [mkInFlight (examplePkt 2 []) 0 1 0; mkInFlight (examplePkt 4 []) 0 0 0].
Proof.
  rewrite (OnIncomingPacket_acknowledges exampleSender (examplePkt 9 [3; 1]) exampleSender_inv).
  vm_compute. reflexivity.
Defined.

Lemma InsertOutgoingPacket_correct_witness :
  let r := InsertOutgoingPacket exampleSender 2 (λ _ (e : nat), (Err ErrPacketParse, S e)) 0%nat in
  r.1.2 = exampleSender ∧ r.2 = 1%nat.
Proof.
  pose proof (InsertOutgoingPacket_correct exampleSender 2
    (λ _ (e : nat), (Err ErrPacketParse, S e)) 0%nat exampleSender_inv) as H.
  split; [exact (proj1 H)|reflexivity].
Defined.

Lemma retransmissionInterval_backoff_witness : retransmissionInterval 3 = 8 * Second.
Proof. rewrite (retransmissionInterval_backoff 3) by lia. reflexivity. Defined.

Lemma retransmissionInterval_overflow_witness :
  readyToSend 1000 (scheduleForRetransmission (mkInFlight (examplePkt 1 []) 5 0 33) 1000) = true.
Proof. apply (retransmissionInterval_overflow (mkInFlight (examplePkt 1 []) 5 0 33) 1000); [done|lia]. Defined.

Definition exampleOffers : list in_op :=
  [Offer (examplePkt 2 []); Drain; Offer (examplePkt 1 []); Offer (examplePkt 2 []); Drain;
   Offer (examplePkt 1 []); Offer (examplePkt 4 []); Drain].

Lemma delivery_in_order_witness :
  pkt_ID <$> (in_run NewIncomingReliableState exampleOffers).1 = [1; 2] ∧
  (length (in_pendingPackets (in_run NewIncomingReliableState exampleOffers).2) ≤ 12)%nat.
Proof.
  split; [vm_compute; reflexivity|].
  eapply (delivery_in_order exampleOffers _ _); [|apply surjective_pairing].
  repeat first [apply Forall_nil_2 | apply Forall_cons_2]; cbn; lia.
Defined.

Lemma delivery_prefix_witness :
  let delivered := (in_run NewIncomingReliableState exampleOffers).1 in
  delivered = take (length delivered) ((λ i, examplePkt i []) <$> [1; 2; 3; 4; 5]).
Proof.
  eapply (delivery_prefix ((λ i, examplePkt i []) <$> [1; 2; 3; 4; 5]) exampleOffers);
    [|apply surjective_pairing].
  intros p Hp. cbn in Hp. set_unfold in Hp. destruct_or? Hp; subst; cbn; split; done || lia.
Defined.

Lemma delivery_progress_witness :
  let s := (in_run NewIncomingReliableState exampleOffers).2 in
  pkt_ID <$> head (NextOrderedSequence (TryInsertIncomingPacket s (examplePkt 3 [])).2).1 = Some 3.
Proof.
  pose proof (delivery_progress exampleOffers (examplePkt 3 [])
    ltac:(repeat first [apply Forall_nil_2 | apply Forall_cons_2]; cbn; lia)
    ltac:(vm_compute; reflexivity) ltac:(cbn; lia)) as H. cbv zeta in H |- *.
  destruct (NextOrderedSequence _) as [ready s']. exact (proj1 H).
Defined.
