(* ===== verification/ReplayWindow.v ===== *)
(** * The replay window ([replay_window.go])

    The sliding bitmap of accepted packet ids, its in-place shift, the arrival
    times and the time-based cut-off, and the long form that carries a
    timestamp.  The clock is an argument: [reapNow] is the reading of
    [reapLocked], [now] the one that stamps an arrival.  The theorems relate the
    bitmap to the set of accepted ids and show that no packet is accepted twice,
    and that a packet inside the window that was not seen yet is accepted. *)

From S2P Require Import Prelude.

Definition defaultReplayWindowSize : Z := 64.
Definition maxReplayWindowSize : Z := 65536.
Definition defaultReplayWindowTime : Z := 15 * Second.
Definition maxReplayWindowTime : Z := 600 * Second.

Record replayWindow := mkReplayWindow {
  rw_windowSize : Z;
  rw_initialized : bool;
  rw_highestID : Z;
  rw_highestTimestamp : Z;
  rw_bitmap : list Z;
  rw_arrivalTimes : list Time;
  rw_minimumID : Z;
  rw_timeWindow : Z;
}.

Definition newReplayWindow (windowSize timeWindow : Z) : replayWindow :=
  let wordCount := (u64 (windowSize + 63)) / 64 in
  mkReplayWindow windowSize false 0 0 (replicate (Z.to_nat wordCount) 0)
    (replicate (Z.to_nat windowSize) 0) 0 timeWindow.

(** [shiftReplayBitmap]: the descending in-place loop.  [shiftWord] is the word
    computed for [targetIndex] from the bitmap as it is at that point. *)
Definition shiftWord (bitmap : list Z) (wordShift bitShift : Z) (targetIndex : nat) : Z :=
  let sourceIndex := Z.of_nat targetIndex - wordShift in
  if 0 <=? sourceIndex then
    let result := u64 (Z.shiftl (bitmap !!! Z.to_nat sourceIndex) bitShift) in
    if (0 <? bitShift) && (0 <=? sourceIndex - 1)
    then Z.lor result (Z.shiftr (bitmap !!! Z.to_nat (sourceIndex - 1)) (64 - bitShift))
    else result
  else 0.

Fixpoint shiftBitmapLoop (count : nat) (wordShift bitShift : Z) (bitmap : list Z) : list Z :=
  match count with
  | O => bitmap
  | S targetIndex =>
      shiftBitmapLoop targetIndex wordShift bitShift
        (<[targetIndex := shiftWord bitmap wordShift bitShift targetIndex]> bitmap)
  end.

Definition shiftReplayBitmap (bitmap : list Z) (shift : Z) : list Z :=
  shiftBitmapLoop (length bitmap) (shift / 64) (shift mod 64) bitmap.

Definition shiftReplayTimes (arrivalTimes : list Time) (shift : Z) : list Time :=
  if (shift =? 0) || bool_decide (length arrivalTimes = 0%nat) then arrivalTimes else
  if u32 (lenZ arrivalTimes) <=? shift then replicate (length arrivalTimes) 0 else
  replicate (Z.to_nat shift) 0 ++ take (length arrivalTimes - Z.to_nat shift) arrivalTimes.

(** The word holding bit 0 and the newest arrival time. *)
Definition setWord (bitmap : list Z) (wordIndex : nat) (mask : Z) : list Z :=
  <[wordIndex := Z.lor (bitmap !!! wordIndex) mask]> bitmap.

Definition initializeLocked (w : replayWindow) (packetID timestamp : Z) (now : Time) : replayWindow :=
  let bitmap := replicate (length (rw_bitmap w)) 0 in
  let arrivalTimes := replicate (length (rw_arrivalTimes w)) 0 in
  mkReplayWindow (rw_windowSize w) true packetID timestamp
    (if 0 <? rw_windowSize w then <[0%nat := 1]> bitmap else bitmap)
    (if 0 <? rw_windowSize w then <[0%nat := now]> arrivalTimes else arrivalTimes)
    0 (rw_timeWindow w).

(** The first arrival time before the cut-off, with its offset. *)
Fixpoint firstExpired (offset : Z) (arrivalTimes : list Time) (cutoff : Time) : option Z :=
  match arrivalTimes with
  | [] => None
  | arrivalTime :: rest =>
      if IsZero arrivalTime || negb (arrivalTime <? cutoff) then firstExpired (offset + 1) rest cutoff
      else Some offset
  end.

Definition reapLocked (w : replayWindow) (reapNow : Time) : replayWindow :=
  if rw_timeWindow w <=? 0 then w else
  let cutoff := reapNow - rw_timeWindow w in
  match firstExpired 0 (rw_arrivalTimes w) cutoff with
  | None => w
  | Some offset =>
      let minimumID := u32 (u32 (rw_highestID w - u32 offset) + 1) in
      mkReplayWindow (rw_windowSize w) (rw_initialized w) (rw_highestID w) (rw_highestTimestamp w)
        (rw_bitmap w) (rw_arrivalTimes w)
        (if rw_minimumID w <? minimumID then minimumID else rw_minimumID w) (rw_timeWindow w)
  end.

Definition acceptLocked (w : replayWindow) (packetID : Z) (reapNow now : Time) : bool * replayWindow :=
  if negb (rw_initialized w) then (true, initializeLocked w packetID 0 now) else
  if rw_windowSize w =? 0 then
    if negb (packetID =? u32 (rw_highestID w + 1)) then (false, w)
    else (true, mkReplayWindow (rw_windowSize w) (rw_initialized w) packetID (rw_highestTimestamp w)
                  (rw_bitmap w) (rw_arrivalTimes w) (rw_minimumID w) (rw_timeWindow w))
  else
  let w := reapLocked w reapNow in
  if rw_highestID w <? packetID then
    let shift := u32 (packetID - rw_highestID w) in
    let bitmap :=
      if rw_windowSize w <=? shift then replicate (length (rw_bitmap w)) 0
      else shiftReplayBitmap (rw_bitmap w) shift in
    let arrivalTimes :=
      if rw_windowSize w <=? shift then replicate (length (rw_arrivalTimes w)) 0
      else shiftReplayTimes (rw_arrivalTimes w) shift in
    (true, mkReplayWindow (rw_windowSize w) (rw_initialized w) packetID (rw_highestTimestamp w)
             (setWord bitmap 0 1) (<[0%nat := now]> arrivalTimes) (rw_minimumID w) (rw_timeWindow w))
  else if packetID <? rw_minimumID w then (false, w)
  else
    let offset := u32 (rw_highestID w - packetID) in
    if rw_windowSize w <=? offset then (false, w) else
    let wordIndex := Z.to_nat (offset / 64) in
    let packetMask := u64 (Z.shiftl 1 (offset mod 64)) in
    if negb (Z.land (rw_bitmap w !!! wordIndex) packetMask =? 0) then (false, w)
    else (true, mkReplayWindow (rw_windowSize w) (rw_initialized w) (rw_highestID w)
                  (rw_highestTimestamp w) (setWord (rw_bitmap w) wordIndex packetMask)
                  (<[Z.to_nat offset := now]> (rw_arrivalTimes w)) (rw_minimumID w) (rw_timeWindow w)).

Definition Accept (w : replayWindow) (packetID : Z) (reapNow now : Time) : bool * replayWindow :=
  if packetID =? 0 then (false, w) else acceptLocked w packetID reapNow now.

Definition AcceptLongForm (w : replayWindow) (packetID timestamp : Z) (reapNow now : Time)
    : bool * replayWindow :=
  if packetID =? 0 then (false, w) else
  if negb (rw_initialized w) then
    if (rw_windowSize w =? 0) && (0 <? timestamp) && negb (packetID =? 1) then (false, w)
    else (true, initializeLocked w packetID timestamp now)
  else if timestamp <? rw_highestTimestamp w then (false, w)
  else if rw_highestTimestamp w <? timestamp then
    if (rw_windowSize w =? 0) && negb (packetID =? 1) then (false, w)
    else (true, initializeLocked w packetID timestamp now)
  else acceptLocked w packetID reapNow now.

(** ** The bitmap as a set of offsets *)

Definition bitAt (bitmap : list Z) (k : Z) : bool :=
  Z.testbit (bitmap !!! Z.to_nat (k / 64)) (k mod 64).

Definition words_ok (bitmap : list Z) : Prop := Forall (λ x, 0 ≤ x < 2 ^ 64) bitmap.

Lemma word_range bitmap i : words_ok bitmap → 0 ≤ bitmap !!! i < 2 ^ 64.
Proof.
  intros Hw. destruct (decide (i < length bitmap)%nat) as [Hi|Hi].
  - eapply Forall_lookup_total_1 in Hw; done.
  - rewrite list_lookup_total_alt, lookup_ge_None_2 by lia. cbn. lia.
Qed.

Lemma testbit_high w i : 0 ≤ w < 2 ^ 64 → 64 ≤ i → Z.testbit w i = false.
Proof.
  intros Hw Hi. rewrite <-(Z.mod_small w (2 ^ 64)) by lia. by apply Z.mod_pow2_bits_high.
Qed.

Lemma testbit_u64 z i : 0 ≤ i → Z.testbit (u64 z) i = (i <? 64) && Z.testbit z i.
Proof.
  intros Hi. unfold u64. destruct (Z.ltb_spec i 64).
  - by rewrite Z.mod_pow2_bits_low.
  - by rewrite Z.mod_pow2_bits_high by lia.
Qed.

Lemma shiftWord_insert bm ws bs n x i :
  0 ≤ ws → (i < n)%nat → shiftWord (<[n := x]> bm) ws bs i = shiftWord bm ws bs i.
Proof.
  intros Hws Hi. unfold shiftWord. destruct (Z.leb_spec 0 (Z.of_nat i - ws)); [|done].
  rewrite list_lookup_total_insert_ne by lia.
  destruct ((0 <? bs) && (0 <=? Z.of_nat i - ws - 1)) eqn:E; [|done].
  apply andb_prop in E as [_ E%Z.leb_le]. by rewrite list_lookup_total_insert_ne by lia.
Qed.

(** Writing downwards in place reads only words not written yet. *)
Lemma shiftBitmapLoop_lookup n ws bs bm i :
  0 ≤ ws → (n ≤ length bm)%nat →
  shiftBitmapLoop n ws bs bm !! i =
  if decide (i < n)%nat then Some (shiftWord bm ws bs i) else bm !! i.
Proof.
  intros Hws. revert bm. induction n as [|n IH]; intros bm Hn; cbn [shiftBitmapLoop].
  { by rewrite decide_False by lia. }
  rewrite IH by (rewrite length_insert; lia).
  destruct (decide (i < n)%nat).
  - rewrite decide_True by lia. by rewrite shiftWord_insert.
  - destruct (decide (i = n)) as [->|].
    + rewrite decide_True by lia. by rewrite list_lookup_insert_eq by lia.
    + rewrite decide_False by lia. by rewrite list_lookup_insert_ne by lia.
Qed.

Lemma length_shiftReplayBitmap bm s : length (shiftReplayBitmap bm s) = length bm.
Proof.
  unfold shiftReplayBitmap. generalize (length bm) at 1 as n. intros n. revert bm.
  induction n as [|n IH]; intros bm; cbn; [done|]. by rewrite IH, length_insert.
Qed.

Lemma shiftReplayBitmap_lookup bm s i :
  0 ≤ s → (i < length bm)%nat →
  shiftReplayBitmap bm s !!! i = shiftWord bm (s / 64) (s mod 64) i.
Proof.
  intros Hs Hi. apply list_lookup_total_correct. unfold shiftReplayBitmap.
  rewrite shiftBitmapLoop_lookup by (lia || apply Z.div_pos; lia). by rewrite decide_True.
Qed.

Lemma shiftWord_range bm ws bs i : words_ok bm → 0 ≤ bs < 64 → 0 ≤ shiftWord bm ws bs i < 2 ^ 64.
Proof.
  intros Hw Hbs. unfold shiftWord. destruct (_ <=? _); [|lia].
  pose proof (u64_range (Z.shiftl (bm !!! Z.to_nat (Z.of_nat i - ws)) bs)) as Hu.
  destruct (_ && _) eqn:E; [|lia]. apply andb_prop in E as [?%Z.ltb_lt _].
  pose proof (word_range bm (Z.to_nat (Z.of_nat i - ws - 1)) Hw) as Hr.
  set (a := u64 _) in *. set (b := Z.shiftr _ _).
  assert (0 ≤ b) by (apply Z.shiftr_nonneg; lia).
  split; [apply Z.lor_nonneg; lia|].
  assert (Z.lor a b mod 2 ^ 64 = Z.lor a b) as <-; [|apply Z.mod_pos_bound; lia].
  apply Z.bits_inj'. intros n Hn. destruct (Z.ltb_spec n 64).
  - by rewrite Z.mod_pow2_bits_low.
  - rewrite Z.mod_pow2_bits_high, Z.lor_spec by lia. subst a b.
    rewrite (testbit_high (u64 _)), Z.shiftr_spec, testbit_high by (lia || apply u64_range). done.
Qed.

Lemma words_ok_shift bm s : words_ok bm → 0 ≤ s → words_ok (shiftReplayBitmap bm s).
Proof.
  intros Hw Hs. refine (Forall_lookup_total_2 _ _ _). intros i Hi. rewrite length_shiftReplayBitmap in Hi.
  rewrite shiftReplayBitmap_lookup by done. apply shiftWord_range; [done|].
  apply Z.mod_pos_bound. lia.
Qed.

(** Shifting the bitmap by [s] moves offset [k] to offset [k + s]. *)
Lemma bitAt_shift bm s k :
  words_ok bm → 0 ≤ s → 0 ≤ k < 64 * lenZ bm →
  bitAt (shiftReplayBitmap bm s) k = (s <=? k) && bitAt bm (k - s).
Proof.
  intros Hw Hs Hk. unfold lenZ in Hk. unfold bitAt.
  pose proof (Z.div_mod k 64 ltac:(lia)) as Ek. pose proof (Z.mod_pos_bound k 64 ltac:(lia)) as Hj.
  pose proof (Z.div_mod s 64 ltac:(lia)) as Es. pose proof (Z.mod_pos_bound s 64 ltac:(lia)) as Hb.
  assert (0 ≤ k / 64 < Z.of_nat (length bm)) as Ht by (split; [apply Z.div_pos|apply Z.div_lt_upper_bound]; lia).
  rewrite shiftReplayBitmap_lookup by lia. unfold shiftWord. rewrite Z2Nat.id by lia.
  set (t := k / 64) in *. set (j := k mod 64) in *. set (ws := s / 64) in *. set (b := s mod 64) in *.
  destruct (Z.leb_spec 0 (t - ws)) as [Hsrc|Hsrc].
  2:{ rewrite Z.bits_0. symmetry. apply andb_false_iff. left. apply Z.leb_gt. lia. }
  assert (Z.testbit (u64 (Z.shiftl (bm !!! Z.to_nat (t - ws)) b)) j
          = (b <=? j) && Z.testbit (bm !!! Z.to_nat (t - ws)) (j - b)) as Hlow.
  { rewrite testbit_u64, Z.shiftl_spec by lia. rewrite (proj2 (Z.ltb_lt _ _)) by lia. cbn.
    destruct (Z.leb_spec b j); [done|]. by rewrite Z.testbit_neg_r by lia. }
  destruct (Z.leb_spec b j) as [Hbj|Hbj].
  - (* same word *)
    assert ((k - s) / 64 = t - ws ∧ (k - s) mod 64 = j - b) as [-> ->].
    { assert (k - s = (j - b) + (t - ws) * 64) as -> by lia.
      rewrite Z.div_add, Z.mod_add, Z.div_small, Z.mod_small by lia. lia. }
    rewrite (proj2 (Z.leb_le s k)) by lia. cbn in Hlow |- *.
    destruct ((0 <? b) && (0 <=? t - ws - 1)) eqn:E; [|done].
    rewrite Z.lor_spec, Hlow, Z.shiftr_spec by lia.
    rewrite (testbit_high _ (j + (64 - b))); [by rewrite orb_false_r|by apply word_range|lia].
  - (* the word below *)
    cbn in Hlow. rewrite (proj2 (Z.ltb_lt 0 b)) by lia. cbn [andb].
    destruct (Z.leb_spec 0 (t - ws - 1)) as [Hs1|Hs1].
    + assert ((k - s) / 64 = t - ws - 1 ∧ (k - s) mod 64 = j + (64 - b)) as [-> ->].
      { assert (k - s = (j + (64 - b)) + (t - ws - 1) * 64) as -> by lia.
        rewrite Z.div_add, Z.mod_add, Z.div_small, Z.mod_small by lia. lia. }
      rewrite (proj2 (Z.leb_le s k)) by lia.
      rewrite Z.lor_spec, Hlow, Z.shiftr_spec by lia. done.
    + rewrite Hlow. symmetry. apply andb_false_iff. left. apply Z.leb_gt. lia.
Qed.

(** ** Setting a bit *)

Definition maskOf (offset : Z) : Z := u64 (Z.shiftl 1 (offset mod 64)).

Lemma testbit_maskOf offset i : 0 ≤ i → Z.testbit (maskOf offset) i = (i =? offset mod 64).
Proof.
  intros Hi. pose proof (Z.mod_pos_bound offset 64 ltac:(lia)).
  unfold maskOf. rewrite testbit_u64, Z.shiftl_1_l, Z.pow2_bits_eqb by lia.
  destruct (Z.ltb_spec i 64), (Z.eqb_spec (offset mod 64) i), (Z.eqb_spec i (offset mod 64)); done || lia.
Qed.

Lemma bitAt_setWord bm offset k :
  0 ≤ offset < 64 * lenZ bm → 0 ≤ k →
  bitAt (setWord bm (Z.to_nat (offset / 64)) (maskOf offset)) k = bitAt bm k || (k =? offset).
Proof.
  intros Ho Hk. unfold bitAt, setWord, lenZ in *.
  pose proof (Z.div_mod k 64 ltac:(lia)). pose proof (Z.mod_pos_bound k 64 ltac:(lia)).
  pose proof (Z.div_mod offset 64 ltac:(lia)). pose proof (Z.mod_pos_bound offset 64 ltac:(lia)).
  assert (0 ≤ k / 64) by (apply Z.div_pos; lia).
  assert (0 ≤ offset / 64 < Z.of_nat (length bm)) by (split; [apply Z.div_pos|apply Z.div_lt_upper_bound]; lia).
  destruct (decide (k / 64 = offset / 64)) as [E|E].
  - rewrite E, list_lookup_total_insert_eq by lia. rewrite Z.lor_spec, testbit_maskOf by lia.
    f_equal. destruct (Z.eqb_spec (k mod 64) (offset mod 64)), (Z.eqb_spec k offset); done || lia.
  - rewrite list_lookup_total_insert_ne by lia.
    rewrite (proj2 (Z.eqb_neq k offset)) by (intros ->; done). by rewrite orb_false_r.
Qed.

Lemma land_maskOf bm offset :
  0 ≤ offset →
  (Z.land (bm !!! Z.to_nat (offset / 64)) (maskOf offset) =? 0) = negb (bitAt bm offset).
Proof.
  intros Ho. pose proof (Z.mod_pos_bound offset 64 ltac:(lia)). unfold bitAt.
  set (x := bm !!! _). destruct (Z.testbit x (offset mod 64)) eqn:Hb; cbn.
  - apply Z.eqb_neq. intros H0. apply (f_equal (λ z, Z.testbit z (offset mod 64))) in H0.
    rewrite Z.land_spec, testbit_maskOf, Hb, Z.bits_0, Z.eqb_refl in H0 by lia. done.
  - apply Z.eqb_eq, Z.bits_inj'. intros i Hi.
    rewrite Z.land_spec, testbit_maskOf, Z.bits_0 by lia.
    destruct (Z.eqb_spec i (offset mod 64)) as [->|]; [by rewrite Hb|by rewrite andb_false_r].
Qed.

Lemma maskOf_range offset : 0 ≤ maskOf offset < 2 ^ 64.
Proof. apply u64_range. Qed.

Lemma lor_range a b : 0 ≤ a < 2 ^ 64 → 0 ≤ b < 2 ^ 64 → 0 ≤ Z.lor a b < 2 ^ 64.
Proof.
  intros Ha Hb. assert (Z.lor a b mod 2 ^ 64 = Z.lor a b) as <-; [|apply Z.mod_pos_bound; lia].
  apply Z.bits_inj'. intros n Hn. destruct (Z.ltb_spec n 64); [by rewrite Z.mod_pow2_bits_low|].
  by rewrite Z.mod_pow2_bits_high, Z.lor_spec, !testbit_high by lia.
Qed.

Lemma words_ok_setWord bm i m : words_ok bm → 0 ≤ m < 2 ^ 64 → words_ok (setWord bm i m).
Proof.
  intros Hw Hm. apply Forall_insert; [done|]. apply lor_range; [by apply word_range|done].
Qed.

Lemma length_setWord bm i m : length (setWord bm i m) = length bm.
Proof. apply length_insert. Qed.

Lemma bitAt_zeros n k : 0 ≤ k < 64 * Z.of_nat n → bitAt (replicate n 0) k = false.
Proof.
  intros Hk. unfold bitAt. rewrite lookup_total_replicate_2; [apply Z.bits_0|].
  assert (0 ≤ k / 64 < Z.of_nat n) by (split; [apply Z.div_pos|apply Z.div_lt_upper_bound]; lia). lia.
Qed.

(** ** The window against the set of ids seen in its epoch *)

Record rw_inv (W : Z) (w : replayWindow) (seen : gset Z) : Prop := {
  ri_size : rw_windowSize w = W;
  ri_range : 0 ≤ W < 2 ^ 32;
  ri_high : 0 ≤ rw_highestID w < 2 ^ 32;
  ri_words : words_ok (rw_bitmap w);
  ri_bitmap : length (rw_bitmap w) = Z.to_nat ((W + 63) / 64);
  ri_times : length (rw_arrivalTimes w) = Z.to_nat W;
  ri_fresh : rw_initialized w = false → seen = ∅;
  ri_seen : ∀ i, i ∈ seen → 1 ≤ i ≤ rw_highestID w;
  ri_bits : rw_initialized w = true → ∀ k, 0 ≤ k < W →
    bitAt (rw_bitmap w) k = bool_decide (rw_highestID w - k ∈ seen);
}.

Lemma bitmap_covers W (bm : list Z) :
  0 ≤ W → length bm = Z.to_nat ((W + 63) / 64) → W ≤ 64 * lenZ bm.
Proof.
  intros HW Hl. unfold lenZ. rewrite Hl.
  pose proof (Z.div_mod (W + 63) 64 ltac:(lia)). pose proof (Z.mod_pos_bound (W + 63) 64 ltac:(lia)).
  rewrite Z2Nat.id by (apply Z.div_pos; lia). lia.
Qed.

Lemma newReplayWindow_inv W tw : 0 ≤ W < 2 ^ 32 → rw_inv W (newReplayWindow W tw) ∅.
Proof.
  intros HW. unfold newReplayWindow. rewrite u64_small by lia.
  split; cbn; try done; try lia; try (by rewrite length_replicate).
  apply Forall_replicate. lia.
Qed.

Lemma initializeLocked_inv W w seen id ts now :
  rw_inv W w seen → 1 ≤ id < 2 ^ 32 → rw_inv W (initializeLocked w id ts now) {[id]}.
Proof.
  intros [Hs HW Hh Hw Hb Ht Hf Hse Hbits] Hid.
  pose proof (bitmap_covers W (rw_bitmap w) ltac:(lia) Hb) as Hcov. unfold lenZ in Hcov.
  unfold initializeLocked. split; cbn; try done; try lia.
  - rewrite Hs. destruct (Z.ltb_spec 0 W); [apply Forall_insert|]; try (apply Forall_replicate; lia). lia.
  - rewrite Hs. destruct (Z.ltb_spec 0 W); by rewrite ?length_insert, length_replicate.
  - rewrite Hs. destruct (Z.ltb_spec 0 W); by rewrite ?length_insert, length_replicate.
  - set_solver by lia.
  - intros _ k Hk. rewrite Hs, (proj2 (Z.ltb_lt 0 W)) by lia.
    assert (<[0%nat := 1]> (replicate (length (rw_bitmap w)) 0)
            = setWord (replicate (length (rw_bitmap w)) 0) (Z.to_nat (0 / 64)) (maskOf 0)) as ->.
    { unfold setWord. change (Z.to_nat (0 / 64)) with 0%nat. by rewrite lookup_total_replicate_2 by lia. }
    rewrite bitAt_setWord by (unfold lenZ; rewrite ?length_replicate; lia).
    rewrite bitAt_zeros by lia. cbn.
    destruct (Z.eqb_spec k 0); symmetry; [apply bool_decide_eq_true|apply bool_decide_eq_false]; set_solver by lia.
Qed.

Lemma reapLocked_inv W w seen t : rw_inv W w seen → rw_inv W (reapLocked w t) seen.
Proof. intros []. unfold reapLocked. destruct (_ <=? _); [done|]. by destruct (firstExpired _ _ _). Qed.

Lemma reapLocked_fields w t :
  rw_highestID (reapLocked w t) = rw_highestID w ∧ rw_initialized (reapLocked w t) = rw_initialized w ∧
  rw_highestTimestamp (reapLocked w t) = rw_highestTimestamp w ∧ rw_windowSize (reapLocked w t) = rw_windowSize w.
Proof. unfold reapLocked. destruct (_ <=? _); [done|]. by destruct (firstExpired _ _ _). Qed.

(** ** Accepting *)

(** What [acceptLocked] promises to admit: anything on a fresh window, the next
    id when the window has size 0, else a newer id, or an id inside the window
    that is not older than the cut-off and was not seen. *)
Definition admissible (W : Z) (w : replayWindow) (seen : gset Z) (reapNow : Time) (id : Z) : Prop :=
  rw_initialized w = false ∨
  (rw_initialized w = true ∧
   ((W = 0 ∧ id = rw_highestID w + 1) ∨
    (0 < W ∧ rw_highestID w < id) ∨
    (0 < W ∧ id ≤ rw_highestID w ∧ rw_minimumID (reapLocked w reapNow) ≤ id ∧
     rw_highestID w - id < W ∧ id ∉ seen))).

(** Moving the window up to a newer id. *)
Lemma slide_inv W w seen id now :
  rw_inv W w seen → 0 < W → rw_initialized w = true → 1 ≤ id < 2 ^ 32 → rw_highestID w < id →
  let shift := u32 (id - rw_highestID w) in
  rw_inv W
    (mkReplayWindow W true id (rw_highestTimestamp w)
      (setWord (if W <=? shift then replicate (length (rw_bitmap w)) 0 else shiftReplayBitmap (rw_bitmap w) shift) 0 1)
      (<[0%nat := now]> (if W <=? shift then replicate (length (rw_arrivalTimes w)) 0
                          else shiftReplayTimes (rw_arrivalTimes w) shift))
      (rw_minimumID w) (rw_timeWindow w)) ({[id]} ∪ seen).
Proof.
  intros [Hs HW Hh Hw Hb Ht Hf Hse Hbits] HW0 Hi Hid Hgt shift. subst shift.
  rewrite u32_small by lia. set (shift := id - rw_highestID w).
  set (bm := if W <=? shift then _ else _).
  pose proof (bitmap_covers W (rw_bitmap w) ltac:(lia) Hb) as Hcov.
  assert (length bm = length (rw_bitmap w)) as Hlen.
  { subst bm. destruct (W <=? shift); [apply length_replicate|apply length_shiftReplayBitmap]. }
  assert (words_ok bm) as Hok.
  { subst bm. destruct (W <=? shift); [apply Forall_replicate; lia|apply words_ok_shift; [done|lia]]. }
  assert (∀ k, 0 ≤ k < W → bitAt bm k = bool_decide (id - k ∈ seen)) as Hbm.
  { intros k Hk. subst bm. destruct (Z.leb_spec W shift).
    - rewrite bitAt_zeros by (unfold lenZ in *; lia). symmetry. apply bool_decide_eq_false.
      intros ?%Hse. lia.
    - rewrite bitAt_shift by (done || lia). destruct (Z.leb_spec shift k); cbn.
      + rewrite Hbits by (done || lia). by replace (rw_highestID w - (k - shift)) with (id - k) by lia.
      + symmetry. apply bool_decide_eq_false. intros ?%Hse. lia. }
  split; cbn; try done; try lia.
  - by apply words_ok_setWord.
  - by rewrite length_setWord, Hlen.
  - rewrite length_insert. destruct (W <=? shift); [by rewrite length_replicate|].
    unfold shiftReplayTimes. destruct (_ || _); [done|]. destruct (_ <=? shift) eqn:E; [by rewrite length_replicate|].
    apply Z.leb_gt in E. unfold lenZ in E. rewrite u32_small in E by lia.
    rewrite length_app, length_replicate, length_take. lia.
  - intros i [->%elem_of_singleton|?%Hse]%elem_of_union; lia.
  - intros _ k Hk. change (setWord bm 0 1) with (setWord bm (Z.to_nat (0 / 64)) (maskOf 0)).
    rewrite bitAt_setWord, Hbm by (unfold lenZ in *; rewrite ?Hlen; lia).
    destruct (Z.eqb_spec k 0) as [->|Hk0].
    + rewrite orb_true_r. symmetry. apply bool_decide_eq_true. set_solver by lia.
    + rewrite orb_false_r. apply bool_decide_ext. set_solver by lia.
Qed.

(** Filling in an older id inside the window. *)
Lemma fill_inv W w seen id now :
  rw_inv W w seen → rw_initialized w = true → 1 ≤ id ≤ rw_highestID w → rw_highestID w - id < W →
  rw_inv W
    (mkReplayWindow W true (rw_highestID w) (rw_highestTimestamp w)
      (setWord (rw_bitmap w) (Z.to_nat ((rw_highestID w - id) / 64)) (maskOf (rw_highestID w - id)))
      (<[Z.to_nat (rw_highestID w - id) := now]> (rw_arrivalTimes w))
      (rw_minimumID w) (rw_timeWindow w)) ({[id]} ∪ seen).
Proof.
  intros [Hs HW Hh Hw Hb Ht Hf Hse Hbits] Hi Hid Hoff.
  pose proof (bitmap_covers W (rw_bitmap w) ltac:(lia) Hb) as Hcov.
  split; cbn; try done; try lia.
  - apply words_ok_setWord; [done|apply maskOf_range].
  - by rewrite length_setWord.
  - by rewrite length_insert.
  - intros i [->%elem_of_singleton|?%Hse]%elem_of_union; lia.
  - intros _ k Hk. rewrite bitAt_setWord, Hbits by (done || lia).
    destruct (Z.eqb_spec k (rw_highestID w - id)) as [->|Hne].
    + rewrite orb_true_r. symmetry. apply bool_decide_eq_true. set_solver by lia.
    + rewrite orb_false_r. apply bool_decide_ext. set_solver by lia.
Qed.

Lemma acceptLocked_spec W w seen id t1 t2 :
  rw_inv W w seen → 1 ≤ id < 2 ^ 32 →
  let '(b, w') := acceptLocked w id t1 t2 in
  (b = true ↔ admissible W w seen t1 id) ∧
  (b = true → rw_initialized w' = true ∧
     rw_highestTimestamp w' = (if rw_initialized w then rw_highestTimestamp w else 0)) ∧
  (b = false → rw_initialized w' = rw_initialized w ∧ rw_highestTimestamp w' = rw_highestTimestamp w) ∧
  rw_inv W w' (if b then {[id]} ∪ seen else seen).
Proof.
  intros Hinv Hid. unfold acceptLocked, admissible.
  destruct (rw_initialized w) eqn:Hi; cbn [negb].
  2:{ rewrite (ri_fresh W w seen Hinv Hi). split_and!; [tauto|done|done|].
      rewrite (right_id_L ∅ (∪)). by eapply initializeLocked_inv. }
  pose proof (ri_size _ _ _ Hinv) as HsW. pose proof (ri_range _ _ _ Hinv) as HW.
  pose proof (ri_high _ _ _ Hinv) as Hh. rewrite HsW.
  destruct (Z.eqb_spec W 0) as [HW0|HW0].
  { destruct (Z.eqb_spec id (u32 (rw_highestID w + 1))) as [E|E]; cbn [negb].
    - assert (id = rw_highestID w + 1) as Heq.
      { destruct (decide (rw_highestID w + 1 < 2 ^ 32)); [by rewrite u32_small in E by lia|].
        unfold u32 in E. replace (rw_highestID w + 1) with (2 ^ 32) in E by lia.
        rewrite Z.mod_same in E by lia. lia. }
      split_and!; [naive_solver|done|done|]. destruct Hinv as [? ? ? ? ? ? ? Hse ?].
      split; cbn; try done; try lia. intros i [->%elem_of_singleton|?%Hse]%elem_of_union; lia.
    - split_and!; [|done|by rewrite Hi|done]. split; [done|].
      intros [|[_ [[_ ->]|[?|?]]]]; [done| |lia|lia]. exfalso. apply E. by rewrite u32_small by lia. }
  apply (reapLocked_inv W w seen t1) in Hinv as Hinv'.
  destruct (reapLocked_fields w t1) as (Ehigh & Einit & Ets & Esize).
  set (v := reapLocked w t1) in *. rewrite Ehigh, Einit, Esize, Ets, HsW, Hi.
  destruct (Z.ltb_spec (rw_highestID w) id) as [Hgt|Hle].
  { split_and!; [split; [intros _; right; split; [done|right; left; lia]|done]|done|done|].
    pose proof (slide_inv W v seen id t2 Hinv' ltac:(lia) ltac:(congruence) Hid ltac:(lia)) as H.
    cbv zeta in H. by rewrite Ehigh, Ets in H. }
  destruct (Z.ltb_spec id (rw_minimumID v)) as [Hmin|Hmin].
  { split_and!; [split; [done|]; intros [|[_ [?|[?|?]]]]; done || lia|done|naive_solver congruence|done]. }
  rewrite u32_small by lia. destruct (Z.leb_spec W (rw_highestID w - id)) as [Hold|Hin].
  { split_and!; [split; [done|]; intros [|[_ [?|[?|?]]]]; done || lia|done|naive_solver congruence|done]. }
  fold (maskOf (rw_highestID w - id)). rewrite land_maskOf by lia. rewrite negb_involutive.
  pose proof (ri_bits W v seen Hinv' ltac:(congruence) (rw_highestID w - id) ltac:(lia)) as Hbit.
  rewrite Ehigh in Hbit. replace (rw_highestID w - (rw_highestID w - id)) with id in Hbit by lia.
  rewrite Hbit. case_bool_decide as Hseen.
  { split_and!; [split; [done|]; intros [|[_ [?|[?|?]]]]; done || lia || tauto|done|naive_solver congruence|done]. }
  split_and!; [split; [|done]; intros _; right; split; [done|]; right; right; split_and!; done || lia|done|done|].
  pose proof (fill_inv W v seen id t2 Hinv' ltac:(congruence) ltac:(lia) ltac:(lia)) as H.
  by rewrite Ehigh, Ets in H.
Qed.

Lemma admissible_fresh W w seen t id : rw_inv W w seen → admissible W w seen t id → id ∉ seen.
Proof.
  intros [_ _ _ _ _ _ Hf Hse _] [Hi|[Hi [[-> ->]|[[_ Hgt]|?]]]].
  - rewrite Hf by done. set_solver.
  - intros ?%Hse. lia.
  - intros ?%Hse. lia.
  - tauto.
Qed.

Lemma AcceptLongForm_spec W w seen id ts t1 t2 b w' :
  rw_inv W w seen → 0 ≤ id < 2 ^ 32 → 0 ≤ ts → AcceptLongForm w id ts t1 t2 = (b, w') →
  if b then
    rw_initialized w' = true ∧ rw_highestTimestamp w' = ts ∧
    ∃ seen', rw_inv W w' seen' ∧ id ∈ seen' ∧
      (rw_initialized w = true → rw_highestTimestamp w ≤ ts ∧
         (ts = rw_highestTimestamp w → (id ∉ seen) ∧ (seen ⊆ seen')))
  else
    rw_inv W w' seen ∧ rw_initialized w' = rw_initialized w ∧
    rw_highestTimestamp w' = rw_highestTimestamp w.
Proof.
  intros Hinv Hid Hts. unfold AcceptLongForm.
  destruct (Z.eqb_spec id 0); [by intros [= <- <-]|].
  assert (rw_inv W (initializeLocked w id ts t2) {[id]}) as Hnew
    by (eapply initializeLocked_inv; [done|lia]).
  destruct (rw_initialized w) eqn:Hi; cbn [negb].
  2:{ destruct (_ && _); intros [= <- <-]; [done|]. split_and!; [done..|].
      exists {[id]}. split_and!; [done|set_solver|done]. }
  destruct (Z.ltb_spec ts (rw_highestTimestamp w)); [by intros [= <- <-]|].
  destruct (Z.ltb_spec (rw_highestTimestamp w) ts).
  { destruct (_ && _); intros [= <- <-]; [done|]. split_and!; [done..|].
    exists {[id]}. split_and!; [done|set_solver|]. intros _. split; [lia|lia]. }
  intros Hacc. pose proof (acceptLocked_spec W w seen id t1 t2 Hinv ltac:(lia)) as H'.
  rewrite Hacc in H'. destruct H' as (Hadm & Htrue & Hfalse & Hinv'). destruct b.
  - destruct (Htrue eq_refl) as [? Ht]. rewrite Hi in Ht. split_and!; [done|lia|].
    eexists. split_and!; [done|set_solver|]. intros _. split; [lia|]. intros _.
    split; [|set_solver]. eapply admissible_fresh; [done|]. by apply Hadm.
  - destruct (Hfalse eq_refl) as [? ?]. split_and!; [done|congruence|done].
Qed.

(** Packets offered one after the other: [(packetID, timestamp)] with the two
    clock readings, and the ones accepted. *)
Fixpoint longform_run (w : replayWindow) (calls : list (Z * Z * Time * Time))
    : list (Z * Z) * replayWindow :=
  match calls with
  | [] => ([], w)
  | (id, ts, t1, t2) :: calls =>
      let '(b, w) := AcceptLongForm w id ts t1 t2 in
      let '(accepted, w) := longform_run w calls in
      (if b then (id, ts) :: accepted else accepted, w)
  end.

Fixpoint accept_run (w : replayWindow) (calls : list (Z * Time * Time)) : list Z * replayWindow :=
  match calls with
  | [] => ([], w)
  | (id, t1, t2) :: calls =>
      let '(b, w) := Accept w id t1 t2 in
      let '(accepted, w) := accept_run w calls in
      (if b then id :: accepted else accepted, w)
  end.

Lemma longform_run_spec W calls w seen accepted w' :
  rw_inv W w seen → Forall (λ c, 0 ≤ c.1.1.1 < 2 ^ 32 ∧ 0 ≤ c.1.1.2) calls →
  longform_run w calls = (accepted, w') →
  NoDup accepted ∧
  ∀ id ts, (id, ts) ∈ accepted → rw_initialized w = true →
    rw_highestTimestamp w ≤ ts ∧ (ts = rw_highestTimestamp w → id ∉ seen).
Proof.
  revert w seen accepted. induction calls as [|[[[id ts] t1] t2] calls IH];
    intros w seen accepted Hinv Hcalls; cbn.
  { intros [= <- <-]. split; [constructor|]. set_solver. }
  inversion Hcalls as [|?? [Hid Hts] Hcalls']; subst. cbn in Hid, Hts.
  destruct (AcceptLongForm w id ts t1 t2) as [b w1] eqn:Ea.
  destruct (longform_run w1 calls) as [acc w2] eqn:Er. intros [= <- <-].
  apply (AcceptLongForm_spec W w seen) in Ea; [|done..]. destruct b.
  - destruct Ea as (Hi1 & Hts1 & seen1 & Hinv1 & Hin1 & Hold).
    apply (IH _ seen1) in Er as [Hnd Hfrom]; [|done..]. split.
    + constructor; [|done]. intros H. apply Hfrom in H as [_ H]; [|done]. by apply H.
    + intros id' ts' [[= -> ->]|H]%elem_of_cons Hi; [by apply Hold in Hi as [? H]; naive_solver|].
      apply Hfrom in H as [Hle Hnew]; [|done]. apply Hold in Hi as [Hle' Hsub]. rewrite Hts1 in *.
      split; [lia|]. intros ->. assert (ts = rw_highestTimestamp w) as -> by lia.
      destruct (Hsub eq_refl) as [_ ?]. specialize (Hnew eq_refl). set_solver.
  - destruct Ea as (Hinv1 & Hi1 & Hts1). apply (IH _ seen) in Er as [Hnd Hfrom]; [|done..].
    rewrite Hi1, Hts1 in Hfrom. done.
Qed.

Lemma accept_run_spec W calls w seen accepted w' :
  rw_inv W w seen → Forall (λ c, 0 ≤ c.1.1 < 2 ^ 32) calls →
  accept_run w calls = (accepted, w') →
  NoDup accepted ∧ (∀ id, id ∈ accepted → id ∉ seen) ∧ rw_inv W w' (list_to_set accepted ∪ seen).
Proof.
  revert w seen accepted. induction calls as [|[[id t1] t2] calls IH];
    intros w seen accepted Hinv Hcalls; cbn.
  { intros [= <- <-]. split_and!; [constructor|set_solver|]. by replace (list_to_set [] ∪ seen) with seen by set_solver. }
  inversion Hcalls as [|?? Hid Hcalls']; subst. cbn in Hid. unfold Accept.
  destruct (Z.eqb_spec id 0) as [->|Hne].
  { destruct (accept_run w calls) as [acc w2] eqn:Er. intros [= <- <-]. by eapply IH. }
  pose proof (acceptLocked_spec W w seen id t1 t2 Hinv ltac:(lia)) as H.
  destruct (acceptLocked w id t1 t2) as [b w1]. destruct H as (Hadm & _ & _ & Hinv1).
  destruct (accept_run w1 calls) as [acc w2] eqn:Er. intros [= <- <-]. destruct b.
  - apply (IH _ ({[id]} ∪ seen)) in Er as (Hnd & Hnew & Hinv2); [|done..].
    pose proof (admissible_fresh W w seen t1 id Hinv (proj1 Hadm eq_refl)).
    split_and!; [constructor; set_solver|set_solver|].
    replace (list_to_set (id :: acc) ∪ seen) with (list_to_set acc ∪ ({[id]} ∪ seen)) by set_solver. done.
  - by apply (IH _ seen) in Er.
Qed.

(** ** Properties *)

(** C15: no replay: over any sequence of packets, at any clock readings, the long
    form accepts each (packet id, timestamp) pair at most once; window sizes up to
    2^32-1, size 0 included. *)
Theorem AcceptLongForm_no_replay W tw calls accepted w' :
  0 ≤ W < 2 ^ 32 → Forall (λ c, 0 ≤ c.1.1.1 < 2 ^ 32 ∧ 0 ≤ c.1.1.2) calls →
  longform_run (newReplayWindow W tw) calls = (accepted, w') → NoDup accepted.
Proof.
  intros HW Hcalls Hrun. by eapply (longform_run_spec W) in Hrun as [? _];
    [|apply newReplayWindow_inv|].
Qed.

(** The short form accepts each packet id at most once, and its decision is
    exactly the specification's: after any sequence of packets a further packet
    is accepted if and only if it is admissible with respect to the set of ids
    accepted so far (fresh window, next id, newer id, or unseen id inside the
    window and not past the time cut-off). *)
Theorem Accept_refines_set W tw calls accepted w id t1 t2 :
  0 ≤ W < 2 ^ 32 → Forall (λ c, 0 ≤ c.1.1 < 2 ^ 32) calls → 1 ≤ id < 2 ^ 32 →
  accept_run (newReplayWindow W tw) calls = (accepted, w) →
  NoDup accepted ∧ ((Accept w id t1 t2).1 = true ↔ admissible W w (list_to_set accepted) t1 id).
Proof.
  intros HW Hcalls Hid Hrun.
  eapply (accept_run_spec W) in Hrun as (Hnd & _ & Hinv); [|by apply newReplayWindow_inv|done].
  split; [done|]. replace (list_to_set accepted ∪ ∅) with (list_to_set accepted : gset Z) in Hinv by set_solver.
  unfold Accept. rewrite (proj2 (Z.eqb_neq id 0)) by lia.
  pose proof (acceptLocked_spec W w _ id t1 t2 Hinv Hid) as H.
  destruct (acceptLocked w id t1 t2) as [b w']. apply H.
Qed.

(** The in-place word-by-word shift of the bitmap is the shift of the bit
    string it represents: offset [k] of the result is offset [k - shift] of the
    bitmap, and the offsets below [shift] are clear. *)
Theorem shiftReplayBitmap_shifts bitmap shift k :
  words_ok bitmap → 0 ≤ shift → 0 ≤ k < 64 * lenZ bitmap →
  bitAt (shiftReplayBitmap bitmap shift) k = (shift <=? k) && bitAt bitmap (k - shift).
Proof. apply bitAt_shift. Qed.

(** ** Witnesses *)

Definition exampleCalls : list (Z * Z * Time * Time) :=
  [(5, 100, 1, 1); (4, 100, 2, 2); (5, 100, 3, 3); (70, 100, 4, 4); (6, 100, 5, 5);
   (7, 100, 6, 6); (4, 100, 7, 7); (4, 101, 8, 8); (3, 100, 9, 9); (0, 102, 9, 9)].

Lemma AcceptLongForm_no_replay_witness :
  (longform_run (newReplayWindow 64 0) exampleCalls).1 = [(5, 100); (4, 100); (70, 100); (7, 100); (4, 101)] ∧
  NoDup [(5, 100); (4, 100); (70, 100); (7, 100); (4, 101)].
Proof.
  split; [vm_compute; reflexivity|].
  eapply (AcceptLongForm_no_replay 64 0 exampleCalls); [lia| |vm_compute; reflexivity].
  unfold exampleCalls. repeat first [apply Forall_nil_2 | apply Forall_cons_2]; cbn; lia.
Defined.

Lemma Accept_refines_set_witness :
  (accept_run (newReplayWindow 64 0) [(5, 1, 1); (9, 2, 2)]).1 = [5; 9] ∧
  NoDup [5; 9].
Proof.
  split; [vm_compute; reflexivity|].
  eapply (Accept_refines_set 64 0 [(5, 1, 1); (9, 2, 2)] _ _ 7 3 3); [lia| |lia|vm_compute; reflexivity].
  repeat first [apply Forall_nil_2 | apply Forall_cons_2]; cbn; lia.
Defined.

Definition exampleBitmap : list Z := [9223372036854775809; 1; 0].

Lemma shiftReplayBitmap_shifts_witness :
  bitAt (shiftReplayBitmap exampleBitmap 65) 128 = bitAt exampleBitmap 63.
Proof.
  rewrite (shiftReplayBitmap_shifts exampleBitmap 65 128); [reflexivity| |lia|vm_compute; split; congruence].
  unfold exampleBitmap, words_ok. repeat first [apply Forall_nil_2 | apply Forall_cons_2]; lia.
Defined.
