(* ===== verification/Stream.v ===== *)
(** * The packet connections ([proto/connection.go])

    Length-prefixed packets over a byte stream: the read buffer with its
    compaction and growth, the read loop with its bound on empty reads, the
    batch reader, and the frame writer with its partial-write accounting; and
    the datagram writer.  A socket is the script of what its successive [Read]
    calls will see; the outcome of a vectored write is an argument.  The theorems
    show that the reader never loses or reorders a byte whatever error ends a
    read, that it always returns, that it recovers exactly the packets that were
    framed, and that a failed write leaves the peer on a frame boundary or closes
    the link. *)

From S2P Require Import Prelude.

Definition packetConnectionBatchSize : nat := 64.
Definition streamPacketLengthSize : nat := 2.
Definition streamPacketMaxEmptyReads : Z := 100.

Definition ErrPacketTooLarge : goerr := ErrNew "packet too large".
Definition ErrBadEncapsulatedPacketLength : goerr := ErrNew "bad encapsulated packet length from peer".
Definition io_ErrNoProgress : goerr := ErrNew "multiple Read calls return no data or error".
Definition io_ErrShortWrite : goerr := ErrNew "short write".

(** ** The socket

    Each entry is one arrival: its bytes and the error reported with the last of
    them.  A [Read] into [n] octets takes what fits; an exhausted script is a
    closed connection. *)
Abbreviation netConn := (list (bytes * option goerr)) (only parsing).

Definition conn_Read (n : nat) (conn : netConn) : bytes * option goerr * netConn :=
  match conn with
  | [] => ([], Some io_EOF, [])
  | (chunk, err) :: rest =>
      if decide (length chunk ≤ n)%nat then (chunk, err, rest)
      else (take n chunk, None, (drop n chunk, err) :: rest)
  end.

Definition content (conn : netConn) : bytes := concat (fst <$> conn).

Record streamPacketConnection := mkStream {
  sc_connection : netConn;
  sc_readBuffer : bytes;
  sc_readStart : nat;
  sc_readEnd : nat;
  sc_readErr : option goerr;
}.

Definition newStreamPacketConnection (conn : netConn) : streamPacketConnection :=
  mkStream conn [] 0 0 None.

Section stream.
(** [buf.UDPBufferSize] of the buffer library. *)
Context (streamPacketReadBufferSize : nat).

Definition bufferedPacketLocked (c : streamPacketConnection)
    : result (option bytes) * streamPacketConnection :=
  if decide (sc_readEnd c - sc_readStart c < streamPacketLengthSize)%nat then (Ok None, c) else
  let packetLength := Z.to_nat (Uint16 (drop (sc_readStart c) (sc_readBuffer c))) in
  if decide (packetLength = 0)%nat then (Err ErrBadEncapsulatedPacketLength, c) else
  let packetEnd := (sc_readStart c + streamPacketLengthSize + packetLength)%nat in
  if decide (sc_readEnd c < packetEnd)%nat then (Ok None, c) else
  let bufferedPacket := slice (sc_readStart c + streamPacketLengthSize) packetEnd (sc_readBuffer c) in
  (Ok (Some bufferedPacket),
   if decide (packetEnd = sc_readEnd c)
   then mkStream (sc_connection c) (sc_readBuffer c) 0 0 (sc_readErr c)
   else mkStream (sc_connection c) (sc_readBuffer c) packetEnd (sc_readEnd c) (sc_readErr c)).

(** Making room before a read: grow, or move the pending octets to the front. *)
Definition requiredCapacity (c : streamPacketConnection) : nat :=
  if decide (streamPacketLengthSize ≤ sc_readEnd c - sc_readStart c)%nat
  then Nat.max streamPacketReadBufferSize
         (streamPacketLengthSize + Z.to_nat (Uint16 (drop (sc_readStart c) (sc_readBuffer c))))
  else streamPacketReadBufferSize.

Definition makeRoom (c : streamPacketConnection) : streamPacketConnection :=
  let pendingLength := (sc_readEnd c - sc_readStart c)%nat in
  let pending := slice (sc_readStart c) (sc_readEnd c) (sc_readBuffer c) in
  if decide (length (sc_readBuffer c) < requiredCapacity c)%nat then
    mkStream (sc_connection c) (pending ++ replicate (requiredCapacity c - pendingLength) x00)
      0 pendingLength (sc_readErr c)
  else if decide (0 < sc_readStart c)%nat then
    mkStream (sc_connection c) (pending ++ drop pendingLength (sc_readBuffer c))
      0 pendingLength (sc_readErr c)
  else c.

Definition fillLocked (c : streamPacketConnection) : nat * streamPacketConnection :=
  let c := makeRoom c in
  let '(chunk, err, conn) := conn_Read (length (sc_readBuffer c) - sc_readEnd c) (sc_connection c) in
  (length chunk,
   mkStream conn
     (take (sc_readEnd c) (sc_readBuffer c) ++ chunk ++ drop (sc_readEnd c + length chunk) (sc_readBuffer c))
     (sc_readStart c) (sc_readEnd c + length chunk) err).

(** The [for] loop; [None] stands for running out of fuel. *)
Fixpoint readPacketLoop (fuel : nat) (emptyReads : Z) (c : streamPacketConnection)
    : option (result bytes * streamPacketConnection) :=
  match fuel with
  | O => None
  | S fuel =>
      match bufferedPacketLocked c with
      | (Err err, c) => Some (Err err, c)
      | (Ok (Some bufferedPacket), c) => Some (Ok bufferedPacket, c)
      | (Ok None, c) =>
          match sc_readErr c with
          | Some err =>
              Some (Err err, mkStream (sc_connection c) (sc_readBuffer c) (sc_readStart c) (sc_readEnd c) None)
          | None =>
              let '(readBytes, c) := fillLocked c in
              if bool_decide (0 < readBytes)%nat || bool_decide (is_Some (sc_readErr c))
              then readPacketLoop fuel 0 c
              else if streamPacketMaxEmptyReads <=? emptyReads + 1
              then Some (Err io_ErrNoProgress, c)
              else readPacketLoop fuel (emptyReads + 1) c
          end
      end
  end.

Definition readPacketLocked (fuel : nat) (c : streamPacketConnection) :=
  readPacketLoop fuel 0 c.

Definition ReadPacket := readPacketLocked.

(** The batch reader: what is already buffered behind the first packet. *)
Fixpoint drainBuffered (count : nat) (c : streamPacketConnection)
    : list bytes * option goerr * streamPacketConnection :=
  match count with
  | O => ([], None, c)
  | S count =>
      match bufferedPacketLocked c with
      | (Err err, c) => ([], Some err, c)
      | (Ok None, c) => ([], None, c)
      | (Ok (Some bufferedPacket), c) =>
          let '(packets, err, c) := drainBuffered count c in (bufferedPacket :: packets, err, c)
      end
  end.

Definition ReadPackets (fuel : nat) (c : streamPacketConnection)
    : option (list bytes * option goerr * streamPacketConnection) :=
  match readPacketLocked fuel c with
  | None => None
  | Some (Err err, c) => Some ([], Some err, c)
  | Some (Ok bufferedPacket, c) =>
      let '(packets, err, c) := drainBuffered (packetConnectionBatchSize - 1) c in
      Some (bufferedPacket :: packets, err, c)
  end.
End stream.

(** ** Writing

    What a vectored write did: octets written and its error. *)
Record writeOutcome := mkWrite { wo_written : nat; wo_err : option goerr }.

(** A framed packet, as it goes on the wire. *)
Definition frame (packet : bytes) : bytes := PutUint16 (lenZ packet) ++ packet.

(** The result of a write: packets accounted for, error, and whether the link
    was closed because it stopped inside a frame. *)
Record writeResult := mkWriteResult { wr_count : nat; wr_err : option goerr; wr_closed : bool }.

(** The loop counting the frames that fit in [writtenBytes]. *)
Fixpoint countFrames (frameLengths : list nat) (framedBytes writtenBytes : nat) : nat * nat :=
  match frameLengths with
  | [] => (0%nat, framedBytes)
  | frameLength :: rest =>
      if decide (writtenBytes < framedBytes + frameLength)%nat then (0%nat, framedBytes)
      else let '(frames, framed) := countFrames rest (framedBytes + frameLength) writtenBytes in
           (S frames, framed)
  end.

Definition writeFramesLocked (outcome : writeOutcome) (frameLengths framePacketIndexes : list nat)
    (packetCount : nat) : writeResult :=
  let totalLength := sum_list frameLengths in
  let writeErr :=
    match wo_err outcome with
    | None => if decide (wo_written outcome < totalLength)%nat then Some io_ErrShortWrite else None
    | Some err => Some err
    end in
  match writeErr with
  | None => mkWriteResult packetCount None false
  | Some err =>
      let '(writtenFrames, framedBytes) := countFrames frameLengths 0 (wo_written outcome) in
      let closed := bool_decide (framedBytes < wo_written outcome)%nat in
      if decide (writtenFrames = length frameLengths)
      then mkWriteResult packetCount (Some err) closed
      else mkWriteResult (framePacketIndexes !!! writtenFrames) (Some err) closed
  end.

(** The packets before the first one that is too large, and the error if any. *)
Fixpoint validPrefix (packets : list bytes) : list bytes * option goerr :=
  match packets with
  | [] => ([], None)
  | packet :: rest =>
      if decide (MaxUint16 < lenZ packet) then ([], Some ErrPacketTooLarge)
      else let '(valid, err) := validPrefix rest in (packet :: valid, err)
  end.

(** The non-empty packets with their indexes. *)
Fixpoint indexedFrames (i : nat) (packets : list bytes) : list (nat * bytes) :=
  match packets with
  | [] => []
  | packet :: rest =>
      if decide (length packet = 0)%nat then indexedFrames (S i) rest
      else (i, packet) :: indexedFrames (S i) rest
  end.

(** The octets offered to the link, and the result given the link's outcome. *)
Definition packetBatch (packets : list bytes) : bytes :=
  concat (frame <$> (indexedFrames 0 (validPrefix packets).1).*2).

Definition WritePackets (outcome : writeOutcome) (packets : list bytes) : writeResult :=
  let '(valid, validationErr) := validPrefix packets in
  let packetCount := length valid in
  if decide (packetCount = 0)%nat then mkWriteResult 0 validationErr false else
  let framed := indexedFrames 0 valid in
  if decide (length framed = 0)%nat then mkWriteResult packetCount validationErr false else
  let r := writeFramesLocked outcome ((λ f, (streamPacketLengthSize + length f.2)%nat) <$> framed)
             framed.*1 packetCount in
  match wr_err r with
  | Some _ => r
  | None => mkWriteResult (wr_count r) validationErr (wr_closed r)
  end.

Definition WritePacket (outcome : writeOutcome) (packet : bytes) : option goerr :=
  wr_err (WritePackets outcome [packet]).

(** The datagram writer without a batch writer: one send per packet, stopping at
    the first refusal; [sendErrs] lists the outcome of the successive sends. *)
Fixpoint sendAll (i : nat) (packets : list bytes) (sendErrs : list (option goerr)) : option (nat * goerr) :=
  match packets, sendErrs with
  | _ :: packets, Some err :: _ => Some (i, err)
  | _ :: packets, None :: sendErrs => sendAll (S i) packets sendErrs
  | _, _ => None
  end.

Definition datagram_WritePackets (batchWriter : option (option goerr)) (sendErrs : list (option goerr))
    (packets : list bytes) : nat * option goerr :=
  let '(valid, validationErr) := validPrefix packets in
  let packetCount := length valid in
  if decide (packetCount = 0)%nat then (0%nat, validationErr) else
  match batchWriter with
  | Some (Some err) => (0%nat, Some err)
  | Some None => (packetCount, validationErr)
  | None =>
      match sendAll 0 valid sendErrs with
      | Some (i, err) => (i, Some err)
      | None => (packetCount, validationErr)
      end
  end.

(** ** The reader: nothing is lost *)

Definition pending (c : streamPacketConnection) : bytes :=
  slice (sc_readStart c) (sc_readEnd c) (sc_readBuffer c).

(** Everything the reader still has to deliver: buffered, then in the socket. *)
Definition total (c : streamPacketConnection) : bytes := pending c ++ content (sc_connection c).

Record stream_inv (c : streamPacketConnection) : Prop := {
  si_start : (sc_readStart c ≤ sc_readEnd c)%nat;
  si_end : (sc_readEnd c ≤ length (sc_readBuffer c))%nat;
}.

Lemma length_pending c : stream_inv c → length (pending c) = (sc_readEnd c - sc_readStart c)%nat.
Proof. intros []. unfold pending, slice. rewrite length_take, length_drop. lia. Qed.

(** A packet the framing can carry. *)
Definition framable (p : bytes) : Prop := 0 < lenZ p ≤ MaxUint16.

Lemma conn_Read_spec n conn chunk err conn' :
  conn_Read n conn = (chunk, err, conn') →
  content conn = chunk ++ content conn' ∧ (length chunk ≤ n)%nat.
Proof.
  unfold conn_Read, content. destruct conn as [|[ch e] rest].
  { intros [= <- <- <-]. split; [done|cbn; lia]. }
  case_decide; intros [= <- <- <-]; cbn; [done|].
  rewrite app_assoc, take_drop, length_take. split; [done|lia].
Qed.

Lemma pending_Uint16 c :
  stream_inv c → (2 ≤ length (pending c))%nat →
  Uint16 (drop (sc_readStart c) (sc_readBuffer c)) = Uint16 (pending c).
Proof.
  intros Hinv H2. rewrite length_pending in H2 by done. unfold Uint16, pending, slice.
  rewrite take_take. by rewrite Nat.min_l by lia.
Qed.

Lemma Uint16_range l : (2 ≤ length l)%nat → 0 ≤ Uint16 l < 65536.
Proof.
  intros H. unfold Uint16. pose proof (be_decode_range (take 2 l)) as Hr.
  by rewrite length_take, Nat.min_l in Hr by lia.
Qed.

(** Octets still missing for the packet at the front of the buffer. *)
Definition incomplete (l : bytes) : Prop :=
  (length l < 2)%nat ∨ ((2 ≤ length l)%nat ∧ 0 < Uint16 l ∧ lenZ l < 2 + Uint16 l).

Lemma bufferedPacketLocked_spec c :
  stream_inv c →
  let '(r, c') := bufferedPacketLocked c in
  stream_inv c' ∧ sc_connection c' = sc_connection c ∧ sc_readErr c' = sc_readErr c ∧
  match r with
  | Ok (Some p) => pending c = frame p ++ pending c' ∧ framable p
  | Ok None => c' = c ∧ incomplete (pending c)
  | Err e => c' = c ∧ e = ErrBadEncapsulatedPacketLength ∧ (2 ≤ length (pending c))%nat ∧ Uint16 (pending c) = 0
  end.
Proof.
  intros Hinv. pose proof Hinv as [Hs He]. pose proof (length_pending c Hinv) as Hlen.
  unfold bufferedPacketLocked, streamPacketLengthSize.
  case_decide as H1. { split_and!; try done. left. lia. }
  rewrite (pending_Uint16 c) by (done || lia).
  pose proof (Uint16_range (pending c) ltac:(lia)) as Hr.
  case_decide as H2. { split_and!; try done; lia. }
  case_decide as H3. { split_and!; try done. right. unfold lenZ. lia. }
  set (n := Z.to_nat (Uint16 (pending c))) in *.
  set (p := slice (sc_readStart c + 2) (sc_readStart c + 2 + n) (sc_readBuffer c)).
  assert (p = take n (drop 2 (pending c))) as Hp.
  { subst p. unfold pending, slice. rewrite skipn_firstn_comm, drop_drop, take_take.
    f_equal. lia. }
  assert (lenZ p = Uint16 (pending c)) as Hlp.
  { unfold lenZ. rewrite Hp, length_take, length_drop. lia. }
  set (c' := if decide _ then _ else _).
  assert (pending c' = drop (2 + n) (pending c)) as Hc'.
  { unfold pending at 2. unfold slice. rewrite skipn_firstn_comm, drop_drop.
    subst c'. case_decide; unfold pending, slice; cbn.
    - replace (sc_readEnd c - sc_readStart c - S (S n))%nat with 0%nat by lia. done.
    - f_equal; [lia|f_equal; lia]. }
  split_and!.
  - subst c'. case_decide; split; cbn; lia.
  - subst c'. by case_decide.
  - subst c'. by case_decide.
  - unfold frame. rewrite Hlp, Hc', Hp. unfold PutUint16, Uint16.
    rewrite be_encode_decode by (rewrite length_take; lia).
    rewrite <-app_assoc, <-(drop_drop _ n 2), take_drop, take_drop. done.
  - unfold framable, MaxUint16. rewrite Hlp. lia.
Qed.

Section reader.
Context (bufferSize : nat).
Implicit Types c : streamPacketConnection.

Lemma makeRoom_spec c :
  stream_inv c →
  stream_inv (makeRoom bufferSize c) ∧ pending (makeRoom bufferSize c) = pending c ∧
  sc_connection (makeRoom bufferSize c) = sc_connection c ∧
  ((2 ≤ bufferSize)%nat → incomplete (pending c) →
   (sc_readEnd (makeRoom bufferSize c) < length (sc_readBuffer (makeRoom bufferSize c)))%nat).
Proof.
  intros Hinv. pose proof Hinv as [Hs He]. pose proof (length_pending c Hinv) as Hlen.
  assert ((2 ≤ bufferSize)%nat → incomplete (pending c) →
          (length (pending c) < requiredCapacity bufferSize c)%nat) as Hroom.
  { intros Hb Hinc. unfold requiredCapacity, streamPacketLengthSize. case_decide.
    - rewrite pending_Uint16 by (done || lia).
      destruct Hinc as [?|(_ & ? & ?)]; unfold lenZ in *; lia.
    - lia. }
  unfold makeRoom. fold (pending c).
  destruct (decide (length (sc_readBuffer c) < requiredCapacity bufferSize c)%nat) as [Hg|Hg];
    [|destruct (decide (0 < sc_readStart c)%nat) as [Hm|Hm]].
  - split_and!; cbn; try done.
    + split; cbn; rewrite ?length_app, ?length_replicate; lia.
    + unfold pending at 1, slice. cbn. rewrite drop_0. apply take_app_exact. lia.
    + intros Hb Hi. specialize (Hroom Hb Hi). rewrite length_app, length_replicate. lia.
  - split_and!; cbn; try done.
    + split; cbn; rewrite ?length_app, ?length_drop; lia.
    + unfold pending at 1, slice. cbn. rewrite drop_0. apply take_app_exact. lia.
    + intros Hb Hi. rewrite length_app, length_drop. lia.
  - split_and!; try done. intros Hb Hi. specialize (Hroom Hb Hi). lia.
Qed.

Lemma fillLocked_spec c :
  stream_inv c →
  let '(n, c') := fillLocked bufferSize c in
  stream_inv c' ∧ total c' = total c ∧ length (pending c') = (length (pending c) + n)%nat.
Proof.
  intros Hinv. destruct (makeRoom_spec c Hinv) as (Hinv1 & Hp1 & Hc1 & _). unfold fillLocked.
  set (d := makeRoom bufferSize c) in *.
  destruct (conn_Read _ _) as [[chunk err] conn'] eqn:Er.
  apply conn_Read_spec in Er as [Hcont Hlen]. pose proof Hinv1 as [Hs He].
  set (c' := mkStream _ _ _ _ _).
  assert (pending c' = pending d ++ chunk) as Hp.
  { subst c'. unfold pending, slice. cbn.
    rewrite drop_app_le by (rewrite length_take; lia).
    rewrite skipn_firstn_comm, app_assoc, take_app_le.
    2:{ rewrite length_app, length_take, length_drop. lia. }
    rewrite take_ge; [done|]. rewrite length_app, length_take, length_drop. lia. }
  split_and!.
  - subst c'. split; cbn; [lia|]. rewrite !length_app, length_take, length_drop. lia.
  - unfold total. rewrite Hp, Hp1, <-Hc1, Hcont, <-app_assoc. done.
  - by rewrite Hp, length_app, Hp1.
Qed.

Lemma readPacketLoop_spec fuel e c r c' :
  stream_inv c → readPacketLoop bufferSize fuel e c = Some (r, c') →
  stream_inv c' ∧
  match r with
  | Ok p => total c = frame p ++ total c' ∧ framable p
  | Err _ => total c' = total c
  end.
Proof.
  revert e c. induction fuel as [|fuel IH]; intros e c Hinv; cbn; [done|].
  pose proof (bufferedPacketLocked_spec c Hinv) as Hb.
  destruct (bufferedPacketLocked c) as [[[p|]|err] c1]; destruct Hb as (Hinv1 & Hc1 & He1 & Hb).
  - intros [= <- <-]. destruct Hb as [Hp Hf]. split_and!; try done.
    unfold total. by rewrite Hp, Hc1, app_assoc.
  - destruct Hb as [-> _]. destruct (sc_readErr c) as [e0|].
    + intros [= <- <-]. split; [by split; destruct Hinv|done].
    + pose proof (fillLocked_spec c Hinv) as Hf.
      destruct (fillLocked bufferSize c) as [n c2]. destruct Hf as (Hinv2 & Ht2 & _).
      destruct (_ || _); [|destruct (_ <=? _)].
      * intros H%IH; [|done]. by rewrite Ht2 in H.
      * by intros [= <- <-].
      * intros H%IH; [|done]. by rewrite Ht2 in H.
  - destruct Hb as [-> _]. by intros [= <- <-].
Qed.

(** ** The reader returns *)

Definition readMeasure (e : Z) (c : streamPacketConnection) : Z :=
  match sc_readErr c with
  | Some _ => 0
  | None => 1 + Z.max 0 (65538 - lenZ (pending c)) * 101 + (100 - e)
  end.

Lemma incomplete_bound l : incomplete l → lenZ l < 65537.
Proof.
  unfold lenZ. intros [?|(H2 & _ & ?)]; [lia|]. pose proof (Uint16_range l H2). unfold lenZ in *. lia.
Qed.

Lemma readPacketLoop_total fuel e c :
  stream_inv c → 0 ≤ e < 100 → readMeasure e c < Z.of_nat fuel →
  ∃ r, readPacketLoop bufferSize fuel e c = Some r.
Proof.
  revert e c. induction fuel as [|fuel IH]; intros e c Hinv He Hm.
  { unfold readMeasure in Hm. destruct (sc_readErr c); lia. }
  cbn. pose proof (bufferedPacketLocked_spec c Hinv) as Hb.
  destruct (bufferedPacketLocked c) as [[[p|]|err] c1]; [eauto| |eauto].
  destruct Hb as (_ & _ & _ & -> & Hinc%incomplete_bound). unfold readMeasure, lenZ in *. destruct (sc_readErr c) as [e0|] eqn:Herr; [eauto|].
  pose proof (fillLocked_spec c Hinv) as Hf.
  destruct (fillLocked bufferSize c) as [n c2]. destruct Hf as (Hinv2 & _ & Hlen).
  unfold streamPacketMaxEmptyReads. case_bool_decide as Hn; cbn [orb].
  - apply IH; [done|lia|]. destruct (sc_readErr c2); lia.
  - case_bool_decide as Hs.
    + apply IH; [done|lia|]. destruct (sc_readErr c2); [lia|]. by destruct Hs.
    + destruct (Z.leb_spec 100 (e + 1)); [eauto|]. apply IH; [done|lia|].
      destruct (sc_readErr c2); lia.
Qed.

(** ** Batches *)

Lemma drainBuffered_spec count c ps err c' :
  stream_inv c → drainBuffered count c = (ps, err, c') →
  stream_inv c' ∧ total c = concat (frame <$> ps) ++ total c' ∧ Forall framable ps ∧
  (length ps ≤ count)%nat.
Proof.
  revert c ps. induction count as [|count IH]; intros c ps Hinv; cbn.
  { intros [= <- <- <-]. split_and!; [done|done|constructor|done]. }
  pose proof (bufferedPacketLocked_spec c Hinv) as Hb.
  destruct (bufferedPacketLocked c) as [[[p|]|e] c1]; destruct Hb as (Hinv1 & Hc1 & _ & Hb).
  - destruct (drainBuffered count c1) as [[ps1 err1] c2] eqn:E. intros [= <- <- <-].
    apply IH in E as (Hinv2 & Ht & Hall & Hl); [|done]. destruct Hb as [Hp Hf].
    cbn. split_and!; [done| |by constructor|lia].
    rewrite <-app_assoc, <-Ht. unfold total. by rewrite Hp, Hc1, app_assoc.
  - destruct Hb as [-> _]. intros [= <- <- <-]. split_and!; [done|done|constructor|cbn; lia].
  - destruct Hb as [-> _]. intros [= <- <- <-]. split_and!; [done|done|constructor|cbn; lia].
Qed.

Lemma ReadPackets_spec fuel c ps err c' :
  stream_inv c → ReadPackets bufferSize fuel c = Some (ps, err, c') →
  stream_inv c' ∧ total c = concat (frame <$> ps) ++ total c' ∧ Forall framable ps.
Proof.
  intros Hinv. unfold ReadPackets, readPacketLocked.
  destruct (readPacketLoop bufferSize fuel 0 c) as [[[p|e] c1]|] eqn:E; [| |done].
  - apply readPacketLoop_spec in E as (Hinv1 & Ht & Hf); [|done].
    destruct (drainBuffered _ c1) as [[ps1 err1] c2] eqn:Ed. intros [= <- <- <-].
    apply drainBuffered_spec in Ed as (Hinv2 & Ht1 & Hall & _); [|done].
    split_and!; [done| |by constructor]. cbn. by rewrite <-app_assoc, <-Ht1.
  - apply readPacketLoop_spec in E as (Hinv1 & Ht); [|done]. intros [= <- <- <-].
    split_and!; [done|by cbn|constructor].
Qed.

(** Calling the batch reader again and again, also after errors. *)
Fixpoint read_run (fuel calls : nat) (c : streamPacketConnection)
    : option (list bytes * streamPacketConnection) :=
  match calls with
  | O => Some ([], c)
  | S calls =>
      '(ps, _, c) ← ReadPackets bufferSize fuel c;
      '(rest, c) ← read_run fuel calls c;
      Some (ps ++ rest, c)
  end.

Lemma read_run_spec fuel calls c ps c' :
  stream_inv c → read_run fuel calls c = Some (ps, c') →
  stream_inv c' ∧ total c = concat (frame <$> ps) ++ total c' ∧ Forall framable ps.
Proof.
  revert c ps. induction calls as [|calls IH]; intros c ps Hinv; cbn.
  { intros [= <- <-]. split_and!; [done|done|constructor]. }
  intros ([[ps1 e1] c1] & Hr & H)%bind_Some. apply ReadPackets_spec in Hr as (Hinv1 & Ht1 & Hf1); [|done].
  apply bind_Some in H as ([ps2 c2] & Hr2 & [= <- <-]). apply IH in Hr2 as (Hinv2 & Ht2 & Hf2); [|done].
  split_and!; [done| |by apply Forall_app]. by rewrite fmap_app, concat_app, <-app_assoc, <-Ht2.
Qed.
End reader.

(** The framing is uniquely decodable. *)
Lemma frames_prefix ps sent rest :
  Forall framable ps → Forall framable sent →
  concat (frame <$> sent) = concat (frame <$> ps) ++ rest → ps = take (length ps) sent.
Proof.
  revert sent. induction ps as [|p ps IH]; intros sent Hps Hsent; [done|].
  inversion Hps as [|?? Hp Hps']; subst. cbn. destruct sent as [|s sent]; cbn.
  - unfold frame at 1. intros H%(f_equal length). rewrite !length_app, length_PutUint16 in H. cbn in H. lia.
  - inversion Hsent as [|?? Hs Hsent']; subst. unfold frame at 1 3. intros H.
    rewrite <-!app_assoc in H. apply app_inj_1 in H as [H16 H]; [|by rewrite !length_PutUint16].
    assert (lenZ s = lenZ p) as Hlen.
    { unfold framable, MaxUint16 in *. apply (f_equal be_decode) in H16. unfold PutUint16 in H16.
      by rewrite !be_decode_encode_small in H16 by lia. }
    apply app_inj_1 in H as [-> H]; [|unfold lenZ in Hlen; lia].
    f_equal. by apply IH.
Qed.

Lemma newStream_inv conn : stream_inv (newStreamPacketConnection conn).
Proof. split; cbn; lia. Qed.

(** ** Properties of the reader *)

(** Whatever chunks the socket delivers the stream in and whatever errors
    interrupt the reads in between, the packets the reader returns are a prefix of
    exactly the packets the peer framed. *)
Theorem stream_reads_what_was_framed bufferSize fuel calls conn sent ps c' :
  Forall framable sent → content conn = concat (frame <$> sent) →
  read_run bufferSize fuel calls (newStreamPacketConnection conn) = Some (ps, c') →
  ps = take (length ps) sent.
Proof.
  intros Hsent Hcont Hrun. apply read_run_spec in Hrun as (_ & Ht & Hps); [|apply newStream_inv].
  eapply frames_prefix; [done|done|]. rewrite <-Hcont, <-Ht. done.
Qed.

(** A read that ends in an error, in the middle of a packet or between two,
    loses nothing: the octets still to be delivered are the same before and
    after; a successful read takes exactly one frame from their front. *)
Theorem ReadPacket_conserves bufferSize fuel c r c' :
  stream_inv c → ReadPacket bufferSize fuel c = Some (r, c') →
  stream_inv c' ∧
  match r with
  | Ok p => total c = frame p ++ total c' ∧ framable p
  | Err _ => total c' = total c
  end.
Proof. apply readPacketLoop_spec. Qed.

(** C40: the read loop returns: about 6.6 million iterations bound it (a full
    65537-octet frame arriving one octet at a time with 99 empty reads before each). *)
Theorem ReadPacket_returns bufferSize fuel c :
  stream_inv c → 6619500 ≤ Z.of_nat fuel → ∃ r, ReadPacket bufferSize fuel c = Some r.
Proof.
  intros Hinv Hf. apply readPacketLoop_total; [done|lia|].
  unfold readMeasure, lenZ. destruct (sc_readErr c); lia.
Qed.

(** ** The writer *)

Lemma validPrefix_take packets k :
  (k ≤ length (validPrefix packets).1)%nat →
  (validPrefix (take k packets)).1 = take k (validPrefix packets).1.
Proof.
  revert k. induction packets as [|p packets IH]; intros k Hk; [by destruct k|].
  cbn in Hk |- *. destruct k as [|k]; [done|]. cbn.
  case_decide; cbn in *; [lia|].
  destruct (validPrefix packets) as [v e]. cbn in *. specialize (IH k ltac:(lia)).
  destruct (validPrefix (take k packets)). cbn in *. by rewrite IH.
Qed.

Lemma validPrefix_prefix packets : (validPrefix packets).1 = take (length (validPrefix packets).1) packets.
Proof.
  induction packets as [|p packets IH]; [done|]. cbn. case_decide; [done|].
  destruct (validPrefix packets). cbn in *. by rewrite <-IH.
Qed.

Lemma validPrefix_complete packets : (validPrefix packets).2 = None → (validPrefix packets).1 = packets.
Proof.
  induction packets as [|p packets IH]; [done|]. cbn. case_decide; [done|].
  destruct (validPrefix packets). cbn in *. intros ?%IH. by subst.
Qed.

Lemma validPrefix_framable packets i p :
  (i, p) ∈ indexedFrames 0 (validPrefix packets).1 → framable p.
Proof.
  generalize 0%nat as j. induction packets as [|q packets IH]; intros j; cbn; [set_solver|].
  case_decide; [set_solver|]. destruct (validPrefix packets) as [v e]. cbn in *.
  case_decide; [apply IH|]. intros [[= -> ->]|?]%elem_of_cons; [|by eapply IH].
  unfold framable, lenZ in *. lia.
Qed.

Lemma indexedFrames_take i valid n j p :
  indexedFrames i valid !! n = Some (j, p) →
  (i ≤ j < i + length valid)%nat ∧
  indexedFrames i (take (j - i) valid) = take n (indexedFrames i valid).
Proof.
  revert i n. induction valid as [|q valid IH]; intros i n; cbn; [done|].
  destruct (decide (length q = 0%nat)) as [Hq|Hq].
  - intros [Hr Ht]%IH. split; [lia|].
    replace (j - i)%nat with (S (j - S i)) by lia. cbn. by rewrite decide_True.
  - destruct n as [|n]; cbn.
    + intros [= -> ->]. split; [lia|]. by rewrite Nat.sub_diag.
    + intros [Hr Ht]%IH. split; [lia|].
      replace (j - i)%nat with (S (j - S i)) by lia. cbn. rewrite decide_False by done. by rewrite Ht.
Qed.

Lemma countFrames_spec lens start w n framed :
  (start ≤ w)%nat → countFrames lens start w = (n, framed) →
  (n ≤ length lens)%nat ∧ framed = (start + sum_list (take n lens))%nat ∧ (framed ≤ w)%nat.
Proof.
  revert start n. induction lens as [|l lens IH]; intros start n Hs; cbn.
  { intros [= <- <-]. cbn. lia. }
  case_decide; [intros [= <- <-]; cbn; lia|].
  destruct (countFrames lens (start + l) w) as [n1 f1] eqn:E. intros [= <- <-].
  apply IH in E as (? & -> & ?); [|lia]. cbn. lia.
Qed.

Lemma sum_lengths (fs : list bytes) : sum_list (length <$> fs) = length (concat fs).
Proof. induction fs as [|f fs IH]; [done|]. cbn. rewrite length_app. by rewrite <-IH. Qed.

Lemma frame_length p : length (frame p) = (2 + length p)%nat.
Proof. unfold frame. by rewrite length_app, length_PutUint16. Qed.

Lemma concat_take_prefix (fs : list bytes) n w :
  (length (concat (take n fs)) ≤ w)%nat →
  take w (concat fs) = concat (take n fs) ++ take (w - length (concat (take n fs))) (concat (drop n fs)).
Proof. intros Hw. rewrite <-(take_drop n fs) at 1. by rewrite concat_app, take_app_ge by done. Qed.

Lemma writeFramesLocked_spec outcome framed packetCount :
  let fs := frame <$> framed.*2 in
  let r := writeFramesLocked outcome ((λ f, (streamPacketLengthSize + length f.2)%nat) <$> framed)
             framed.*1 packetCount in
  (wo_written outcome ≤ length (concat fs))%nat →
  ∃ n, (n ≤ length framed)%nat ∧
    (wr_count r = packetCount ∧ n = length framed ∨
     ∃ i p, framed !! n = Some (i, p) ∧ wr_count r = i ∧ is_Some (wr_err r)) ∧
    (wr_err r = None → n = length framed) ∧
    (length (concat (take n fs)) ≤ wo_written outcome)%nat ∧
    (wr_closed r = false → wo_written outcome = length (concat (take n fs))).
Proof.
  intros fs r Hw. subst r.
  assert ((λ f : nat * bytes, (streamPacketLengthSize + length f.2)%nat) <$> framed = length <$> fs) as ->.
  { subst fs. rewrite <-!list_fmap_compose. apply list_fmap_ext. intros _ f _. cbn. by rewrite frame_length. }
  assert (length fs = length framed) as Hfs by (subst fs; by rewrite !length_fmap).
  unfold writeFramesLocked. rewrite sum_lengths.
  destruct (match wo_err outcome with Some _ => _ | None => _ end) as [err|] eqn:Eerr.
  - destruct (countFrames (length <$> fs) 0 (wo_written outcome)) as [n fb] eqn:Ec.
    apply countFrames_spec in Ec as (Hn & Hfb & Hle); [|lia]. rewrite length_fmap in Hn.
    rewrite <-fmap_take, sum_lengths in Hfb. cbn in Hfb. exists n.
    destruct (decide (n = length (length <$> fs))) as [He|He]; rewrite length_fmap in He; cbn.
    + split_and!; [lia|left; split; [done|lia]|done|lia|].
      intros ?%bool_decide_eq_false. lia.
    + assert (n < length framed)%nat as Hlt by lia.
      apply lookup_lt_is_Some_2 in Hlt as [[i p] Hi].
      split_and!; [lia| |done|lia|intros ?%bool_decide_eq_false; lia].
      right. exists i, p. split_and!; [done| |by eauto].
      apply list_lookup_total_correct. by rewrite list_lookup_fmap, Hi.
  - exists (length framed). cbn. rewrite take_ge by lia.
    destruct (wo_err outcome); [done|]. case_decide; [done|].
    split_and!; [done|by left|done|lia|lia].
Qed.

(** A write reports [wr_count] packets and either leaves exactly their frames
    on the wire, or has written part of one more frame and closed the link;
    without an error it has accounted for every packet and its whole frame. *)
Theorem WritePackets_frame_aligned outcome packets :
  let r := WritePackets outcome packets in
  let wire := take (wo_written outcome) (packetBatch packets) in
  (wo_written outcome ≤ length (packetBatch packets))%nat →
  (wr_count r ≤ length packets)%nat ∧
  (∃ partial, wire = packetBatch (take (wr_count r) packets) ++ partial ∧
     (wr_closed r = false → partial = [])) ∧
  (wr_err r = None → wr_count r = length packets).
Proof.
  intros r wire Hw. subst r wire. unfold WritePackets, packetBatch in *.
  pose proof (validPrefix_prefix packets) as Hpre. pose proof (validPrefix_take packets) as Htake.
  pose proof (validPrefix_complete packets) as Hall.
  destruct (validPrefix packets) as [valid verr]. cbn in *.
  assert (length valid ≤ length packets)%nat as Hle by (rewrite Hpre, length_take; lia).
  case_decide as H0.
  { cbn. apply nil_length_inv in H0 as ->. cbn in *. split_and!; [lia| |].
    - exists []. by rewrite take_nil.
    - intros E. by rewrite <-(Hall E). }
  case_decide as Hf.
  { cbn. apply nil_length_inv in Hf. rewrite Hf in *. cbn in *. split_and!; [lia| |].
    - exists []. rewrite take_nil, Htake, (take_ge valid), Hf by lia. done.
    - intros E. by rewrite (Hall E). }
  apply (writeFramesLocked_spec outcome (indexedFrames 0 valid) (length valid)) in Hw
    as (n & Hn & Hcount & Hnone & Hwl & Hclosed).
  set (r := writeFramesLocked _ _ _ _) in *.
  set (k := wr_count (match wr_err r with Some _ => _ | None => _ end)).
  assert (k = wr_count r) as Hk by (subst k; by destruct (wr_err r)).
  assert ((k ≤ length valid)%nat ∧ indexedFrames 0 (take k valid) = take n (indexedFrames 0 valid)) as [Hkl Hki].
  { rewrite Hk. destruct Hcount as [[-> ->]|(i & p & Hi & -> & _)].
    - by rewrite !take_ge by lia.
    - apply indexedFrames_take in Hi as [? Hi]. rewrite Nat.sub_0_r in Hi. split; [lia|done]. }
  split_and!; [lia| |].
  - exists (take (wo_written outcome - length (concat (take n (frame <$> (indexedFrames 0 valid).*2))))
              (concat (drop n (frame <$> (indexedFrames 0 valid).*2)))).
    rewrite Htake, Hki, !fmap_take by lia. split; [by apply concat_take_prefix|].
    intros Hc. rewrite Hclosed, Nat.sub_diag; [done|]. by destruct (wr_err r).
  - rewrite Hk. clearbody k. destruct (wr_err r) eqn:Er; [by rewrite Er|]. cbn. intros E.
    destruct Hcount as [[-> _]|(? & ? & _ & _ & [? ?])]; [|congruence]. by rewrite (Hall E).
Qed.

(** ** Witnesses *)

Definition exampleConn : netConn :=
  [([x00], None); ([x02; x41], Some (ErrNew "i/o timeout")); ([], None); ([x42; x00; x01; x43; x00], None); ([x05; x44], None)].

Lemma stream_reads_what_was_framed_witness :
  (fst <$> read_run 16 400 3 (newStreamPacketConnection [([x00; x02; x41], Some (ErrNew "i/o timeout")); ([x42; x00; x01], None); ([x43], None)]))
    = Some [[x41; x42]; [x43]] ∧
  [[x41; x42]; [x43]] = take 2 [[x41; x42]; [x43]].
Proof.
  split; [vm_compute; reflexivity|].
  eapply (stream_reads_what_was_framed 16 400 3
    [([x00; x02; x41], Some (ErrNew "i/o timeout")); ([x42; x00; x01], None); ([x43], None)]
    [[x41; x42]; [x43]] [[x41; x42]; [x43]]).
  - repeat constructor; vm_compute; congruence.
  - vm_compute. reflexivity.
  - vm_compute. reflexivity.
Defined.

Lemma ReadPacket_conserves_witness :
  ∃ c', ReadPacket 16 400 (newStreamPacketConnection exampleConn) = Some (Err (ErrNew "i/o timeout"), c') ∧
        total c' = total (newStreamPacketConnection exampleConn).
Proof.
  eexists. split; [vm_compute; reflexivity|].
  eapply (ReadPacket_conserves 16 400 (newStreamPacketConnection exampleConn) (Err (ErrNew "i/o timeout")));
    [apply newStream_inv|vm_compute; reflexivity].
Defined.

Lemma ReadPacket_returns_witness :
  ∃ r, ReadPacket 16 (Z.to_nat 6619500) (newStreamPacketConnection exampleConn) = Some r.
Proof. apply (ReadPacket_returns 16); [apply newStream_inv|lia]. Defined.

Lemma WritePackets_frame_aligned_witness :
  let outcome := mkWrite 5 (Some io_ErrShortWrite) in
  let packets := [[x41]; []; [x42; x43]] in
  wr_count (WritePackets outcome packets) = 2%nat ∧ wr_closed (WritePackets outcome packets) = true ∧
  (wr_count (WritePackets outcome packets) ≤ length packets)%nat.
Proof.
  split_and!; [vm_compute; reflexivity..|].
  apply (WritePackets_frame_aligned (mkWrite 5 (Some io_ErrShortWrite)) [[x41]; []; [x42; x43]]).
  vm_compute. lia.
Defined.
