(* ===== verification/Netip.v ===== *)
(** * IP addresses and prefixes: what the code uses of [net/netip]

    Addresses without zones; an address is the integer its octets denote. *)

From S2P Require Import Prelude.

Inductive Addr :=
| AddrInvalid
| Addr4 (value : Z)
| Addr6 (value : Z).

#[export] Instance Addr_eq_dec : EqDecision Addr.
Proof. solve_decision. Defined.

#[export] Instance Addr_inhabited : Inhabited Addr := populate AddrInvalid.

#[export] Instance Addr_countable : Countable Addr.
Proof.
  refine (inj_countable'
    (λ a, match a with AddrInvalid => inl tt | Addr4 v => inr (inl v) | Addr6 v => inr (inr v) end)
    (λ s : unit + (Z + Z), match s with inl _ => AddrInvalid | inr (inl v) => Addr4 v | inr (inr v) => Addr6 v end) _).
  by intros [].
Defined.

Definition Addr_IsValid (a : Addr) : bool := match a with AddrInvalid => false | _ => true end.
Definition Is4 (a : Addr) : bool := match a with Addr4 _ => true | _ => false end.
Definition Is6 (a : Addr) : bool := match a with Addr6 _ => true | _ => false end.

Definition addrValue (a : Addr) : Z := match a with AddrInvalid => 0 | Addr4 v | Addr6 v => v end.
Definition addrFamily (a : Addr) : Z := match a with AddrInvalid => 0 | Addr4 _ => 32 | Addr6 _ => 128 end.

(** What Go's representation guarantees. *)
Definition Addr_wf (a : Addr) : Prop :=
  match a with AddrInvalid => True | Addr4 v => 0 ≤ v < 2 ^ 32 | Addr6 v => 0 ≤ v < 2 ^ 128 end.

(** [Next] and [Prev] leave the family at its ends. *)
Definition Addr_Next (a : Addr) : Addr :=
  match a with
  | AddrInvalid => AddrInvalid
  | Addr4 v => if v =? 2 ^ 32 - 1 then AddrInvalid else Addr4 (v + 1)
  | Addr6 v => if v =? 2 ^ 128 - 1 then AddrInvalid else Addr6 (v + 1)
  end.

Definition Addr_Prev (a : Addr) : Addr :=
  match a with
  | AddrInvalid => AddrInvalid
  | Addr4 v => if v =? 0 then AddrInvalid else Addr4 (v - 1)
  | Addr6 v => if v =? 0 then AddrInvalid else Addr6 (v - 1)
  end.

(** Addresses order by family, then by value. *)
Definition Addr_Compare (a b : Addr) : comparison :=
  match addrFamily a ?= addrFamily b with
  | Eq => addrValue a ?= addrValue b
  | c => c
  end.

Definition Addr_le (a b : Addr) : bool :=
  match Addr_Compare a b with Gt => false | _ => true end.

(** A prefix; the zero [Prefix] is [None]. *)
Record prefix := mkPrefix { prefix_Addr : Addr; prefix_Bits : Z }.

Definition maskValue (family bits value : Z) : Z :=
  value - value mod 2 ^ (family - bits).

Definition prefix_Masked (p : prefix) : prefix :=
  mkPrefix
    (match prefix_Addr p with
     | AddrInvalid => AddrInvalid
     | Addr4 v => Addr4 (maskValue 32 (prefix_Bits p) v)
     | Addr6 v => Addr6 (maskValue 128 (prefix_Bits p) v)
     end) (prefix_Bits p).

Definition prefix_Contains (p : prefix) (a : Addr) : bool :=
  match prefix_Addr p, a with
  | Addr4 n, Addr4 v => maskValue 32 (prefix_Bits p) n =? maskValue 32 (prefix_Bits p) v
  | Addr6 n, Addr6 v => maskValue 128 (prefix_Bits p) n =? maskValue 128 (prefix_Bits p) v
  | _, _ => false
  end.

Definition prefix_wf (p : prefix) : Prop :=
  Addr_wf (prefix_Addr p) ∧
  match prefix_Addr p with
  | AddrInvalid => False
  | Addr4 _ => 0 ≤ prefix_Bits p ≤ 32
  | Addr6 _ => 0 ≤ prefix_Bits p ≤ 128
  end.

(** [IsLinkLocalUnicast] of an IPv6 address: fe80::/10. *)
Definition isLinkLocalUnicast6 (v : Z) : bool := Z.shiftr v 118 =? 1018.

Lemma maskValue_le f b v : 0 ≤ b ≤ f → 0 ≤ v → 0 ≤ maskValue f b v ≤ v.
Proof.
  intros Hb Hv. unfold maskValue. assert (0 < 2 ^ (f - b)) by (apply Z.pow_pos_nonneg; lia).
  pose proof (Z.mod_pos_bound v (2 ^ (f - b)) ltac:(lia)).
  pose proof (Z.mod_le v (2 ^ (f - b)) ltac:(lia) ltac:(lia)). lia.
Qed.
