(* ===== verification/IPPool.v ===== *)
(** * The server's address pools ([ip_pool.go])

    One IPv4 and one IPv6 pool with sticky addresses per identity.  Both keep
    the same four maps, so they share [poolTable] and its commit and release.
    The theorems show that no two clients hold the same address at once, that an
    allocation fails only when every address is taken, that the identity maps
    stay inverse to each other, and that a returning identity gets its address
    back. *)

From S2P Require Import Prelude Netip.

Definition ipv4TopologySubnet : string := "subnet".
Definition ipv4TopologyP2P : string := "p2p".
Definition ipv4TopologyNet30 : string := "net30".
Definition ipPoolMaximumSize : Z := 65536.

Definition ErrIPPoolExhausted : goerr := ErrNew "server ifconfig pool is exhausted".

Record ipv4PoolLease := mkLease { lease_Client : Addr; lease_Peer : Addr }.

(** The used set, the identity of an address and the address of an identity
    (a missing key reads as the zero value), and the release times. *)
Record poolTable := mkTable {
  pt_UsedSet : gset Addr;
  pt_Identity : gmap Addr string;
  pt_Address : gmap string Addr;
  pt_Released : gmap Addr Time;
}.

Definition emptyTable : poolTable := mkTable ∅ ∅ ∅ ∅.

Definition identityOf (t : poolTable) (a : Addr) : string := default ""%string (pt_Identity t !! a).
Definition addressOf (t : poolTable) (identity : string) : Addr := default AddrInvalid (pt_Address t !! identity).
Definition releasedAt (t : poolTable) (a : Addr) : Time := default 0 (pt_Released t !! a).

Record ipPool := mkPool {
  ip_ipv4Prefix : option prefix;
  ip_ipv4Topology : string;
  ip_ipv4Server : Addr;
  ip_ipv4Start : Addr;
  ip_ipv4End : Addr;
  ip_ipv4 : poolTable;
  ip_ipv6Prefix : option prefix;
  ip_ipv6Server : Addr;
  ip_ipv6 : poolTable;
}.

Definition resolveIPv4PoolTopology (topology : string) : result string :=
  if decide (topology = ""%string) then Ok ipv4TopologyNet30 else
  if decide (topology = ipv4TopologySubnet ∨ topology = ipv4TopologyP2P ∨ topology = ipv4TopologyNet30)
  then Ok topology
  else Err (ErrNew ("unsupported IPv4 topology: " +:+ topology)).

Definition lastIPv4InPrefix (p : prefix) : Addr :=
  match prefix_Addr (prefix_Masked p) with
  | Addr4 maskedAddress =>
      let hostBits := 32 - prefix_Bits p in
      if hostBits <=? 0 then prefix_Addr p
      else Addr4 (Z.lor maskedAddress (u32 (u32 (Z.shiftl 1 hostBits) - 1)))
  | _ => AddrInvalid
  end.

Definition addIPv4 (address : Addr) (offset : Z) : Addr :=
  match address with
  | Addr4 value =>
      let value := value + offset in
      if (value <? 0) || (4294967295 <? value) then AddrInvalid else Addr4 value
  | _ => AddrInvalid
  end.

Definition configureIPv4 (p : ipPool) (pre : prefix) : result ipPool :=
  if (prefix_Bits pre <? 16) || (29 <? prefix_Bits pre)
  then Err (ErrNew "IPv4 address pool must be between /16 and /29: ") else
  let network := prefix_Addr (prefix_Masked pre) in
  let broadcast := lastIPv4InPrefix pre in
  let server := Addr_Next (prefix_Addr (prefix_Masked pre)) in
  let '(start, end_) :=
    if decide (ip_ipv4Topology p = ipv4TopologySubnet)
    then (addIPv4 network 2, addIPv4 broadcast (-1))
    else if decide (ip_ipv4Topology p = ipv4TopologyP2P ∨ ip_ipv4Topology p = ipv4TopologyNet30)
    then (addIPv4 network 4,
          addIPv4 broadcast (- (if prefix_Bits pre =? 29 then 0 else 4)))
    else (ip_ipv4Start p, ip_ipv4End p) in
  if negb (Addr_IsValid start) || negb (Addr_IsValid end_) || negb (Addr_le start end_)
  then Err (ErrNew "IPv4 address pool has no allocatable addresses: ") else
  Ok (mkPool (Some pre) (ip_ipv4Topology p) server start end_ (ip_ipv4 p)
        (ip_ipv6Prefix p) (ip_ipv6Server p) (ip_ipv6 p)).

(** [None] in the list of prefixes is an invalid [netip.Prefix]. *)
Fixpoint configureIPv4Pools (pool : ipPool) (addressPools : list (option prefix)) : result ipPool :=
  match addressPools with
  | [] => Ok pool
  | None :: rest => configureIPv4Pools pool rest
  | Some pre :: rest =>
      let pre := prefix_Masked pre in
      if negb (Is4 (prefix_Addr pre)) || bool_decide (is_Some (ip_ipv4Prefix pool))
      then configureIPv4Pools pool rest
      else pool ← configureIPv4 pool pre; configureIPv4Pools pool rest
  end.

Fixpoint configureIPv6Pools (pool : ipPool) (addressPools : list (option prefix)) : ipPool :=
  match addressPools with
  | [] => pool
  | None :: rest => configureIPv6Pools pool rest
  | Some pre :: rest =>
      let pre := prefix_Masked pre in
      if negb (Is6 (prefix_Addr pre)) || bool_decide (is_Some (ip_ipv6Prefix pool))
      then configureIPv6Pools pool rest
      else
        let server := Addr_Next (prefix_Addr (prefix_Masked pre)) in
        let t := ip_ipv6 pool in
        configureIPv6Pools
          (mkPool (ip_ipv4Prefix pool) (ip_ipv4Topology pool) (ip_ipv4Server pool) (ip_ipv4Start pool)
             (ip_ipv4End pool) (ip_ipv4 pool) (Some pre) server
             (mkTable ({[server]} ∪ pt_UsedSet t) (pt_Identity t) (pt_Address t) (pt_Released t))) rest
  end.

Definition newIPPool (addressPools : list (option prefix)) (topology : string) : result ipPool :=
  resolvedTopology ← resolveIPv4PoolTopology topology;
  let pool := mkPool None resolvedTopology AddrInvalid AddrInvalid AddrInvalid emptyTable
                None AddrInvalid emptyTable in
  pool ← configureIPv4Pools pool addressPools;
  Ok (configureIPv6Pools pool addressPools).

Definition HasIPv4 (p : ipPool) : bool := bool_decide (is_Some (ip_ipv4Prefix p)).
Definition HasIPv6 (p : ipPool) : bool := bool_decide (is_Some (ip_ipv6Prefix p)).

Definition setIPv4Table (p : ipPool) (t : poolTable) : ipPool :=
  mkPool (ip_ipv4Prefix p) (ip_ipv4Topology p) (ip_ipv4Server p) (ip_ipv4Start p) (ip_ipv4End p) t
    (ip_ipv6Prefix p) (ip_ipv6Server p) (ip_ipv6 p).

Definition setIPv6Table (p : ipPool) (t : poolTable) : ipPool :=
  mkPool (ip_ipv4Prefix p) (ip_ipv4Topology p) (ip_ipv4Server p) (ip_ipv4Start p) (ip_ipv4End p)
    (ip_ipv4 p) (ip_ipv6Prefix p) (ip_ipv6Server p) t.

Definition SetServerIPv4 (p : ipPool) (address : Addr) : result ipPool :=
  if negb (Addr_IsValid address) then Ok p else
  let contains := match ip_ipv4Prefix p with Some pre => prefix_Contains pre address | None => false end in
  if negb (Is4 address) || negb contains
  then Err (ErrNew "server IPv4 address is outside pool ") else
  let reserved :=
    match ip_ipv4Prefix p with
    | Some pre => bool_decide (address = prefix_Addr (prefix_Masked pre) ∨ address = lastIPv4InPrefix pre)
    | None => false
    end in
  if reserved then Err (ErrNew "server IPv4 address is not a usable host in pool ") else
  if bool_decide (0 < size (pt_UsedSet (ip_ipv4 p)))%nat
  then Err (ErrNew "cannot change server IPv4 address after allocating client addresses") else
  Ok (mkPool (ip_ipv4Prefix p) (ip_ipv4Topology p) address (ip_ipv4Start p) (ip_ipv4End p) (ip_ipv4 p)
        (ip_ipv6Prefix p) (ip_ipv6Server p) (ip_ipv6 p)).

Definition SetServerIPv6 (p : ipPool) (address : Addr) : result ipPool :=
  if negb (Addr_IsValid address) then Ok p else
  let contains := match ip_ipv6Prefix p with Some pre => prefix_Contains pre address | None => false end in
  if negb (Is6 address) || negb contains
  then Err (ErrNew "server IPv6 address is outside pool ") else
  let t := ip_ipv6 p in
  Ok (mkPool (ip_ipv4Prefix p) (ip_ipv4Topology p) (ip_ipv4Server p) (ip_ipv4Start p) (ip_ipv4End p)
        (ip_ipv4 p) (ip_ipv6Prefix p) address
        (mkTable ({[address]} ∪ pt_UsedSet t ∖ {[ip_ipv6Server p]}) (pt_Identity t) (pt_Address t) (pt_Released t))).

(** [commitIPv4Lease] and [commitIPv6Address] on their table. *)
Definition commitAddress (t : poolTable) (address : Addr) (identity : string) : poolTable :=
  let used := {[address]} ∪ pt_UsedSet t in
  let released := delete address (pt_Released t) in
  let previousIdentity := identityOf t address in
  let addresses :=
    if bool_decide (previousIdentity ≠ ""%string ∧ previousIdentity ≠ identity ∧
                    addressOf t previousIdentity = address)
    then delete previousIdentity (pt_Address t) else pt_Address t in
  if decide (identity = ""%string)
  then mkTable used (delete address (pt_Identity t)) addresses released
  else
    let previousAddress := default AddrInvalid (addresses !! identity) in
    let moved := Addr_IsValid previousAddress && bool_decide (previousAddress ≠ address) in
    mkTable used
      (<[address := identity]> (if moved then delete previousAddress (pt_Identity t) else pt_Identity t))
      (<[identity := address]> addresses)
      (if moved then delete previousAddress released else released).

Definition commitIPv4Lease (p : ipPool) (lease : ipv4PoolLease) (identity : string) : ipPool :=
  setIPv4Table p (commitAddress (ip_ipv4 p) (lease_Client lease) identity).

Definition commitIPv6Address (p : ipPool) (address : Addr) (identity : string) : ipPool :=
  setIPv6Table p (commitAddress (ip_ipv6 p) address identity).

Definition releaseAddress (t : poolTable) (address : Addr) (now : Time) : poolTable :=
  mkTable (pt_UsedSet t ∖ {[address]}) (pt_Identity t) (pt_Address t)
    (if decide (identityOf t address ≠ ""%string) then <[address := now]> (pt_Released t)
     else delete address (pt_Released t)).

Definition Release (p : ipPool) (address : Addr) (now : Time) : ipPool :=
  if negb (Addr_IsValid address) then p else
  if Is4 address then setIPv4Table p (releaseAddress (ip_ipv4 p) address now)
  else setIPv6Table p (releaseAddress (ip_ipv6 p) address now).

Definition ipv4Lease (p : ipPool) (address : Addr) : ipv4PoolLease :=
  mkLease address
    (if decide (ip_ipv4Topology p = ipv4TopologyP2P) then ip_ipv4Server p
     else if decide (ip_ipv4Topology p = ipv4TopologyNet30) then Addr_Prev address
     else AddrInvalid).

(** [visitIPv4Leases]: the leases in the order the visitor is given them.  Fuel
    counts the addresses or blocks left in [[start, end]]. *)
Fixpoint visitAddresses (fuel : nat) (p : ipPool) (client : Addr) : list ipv4PoolLease :=
  match fuel with
  | O => []
  | S fuel =>
      if Addr_IsValid client && Addr_le client (ip_ipv4End p) then
        if decide (client = ip_ipv4Server p) then visitAddresses fuel p (Addr_Next client)
        else mkLease client (if decide (ip_ipv4Topology p = ipv4TopologyP2P) then ip_ipv4Server p else AddrInvalid)
             :: visitAddresses fuel p (Addr_Next client)
      else []
  end.

Fixpoint visitBlocks (fuel : nat) (p : ipPool) (block : Addr) : list ipv4PoolLease :=
  match fuel with
  | O => []
  | S fuel =>
      if Addr_IsValid block && Addr_le block (ip_ipv4End p) then
        let peer := addIPv4 block 1 in
        let client := addIPv4 block 2 in
        if negb (Addr_IsValid peer) || negb (Addr_IsValid client) || negb (Addr_le client (ip_ipv4End p))
        then []
        else if decide (peer = ip_ipv4Server p ∨ client = ip_ipv4Server p)
        then visitBlocks fuel p (addIPv4 block 4)
        else mkLease client peer :: visitBlocks fuel p (addIPv4 block 4)
      else []
  end.

Definition visitIPv4Leases (p : ipPool) : list ipv4PoolLease :=
  let fuel := Z.to_nat (addrValue (ip_ipv4End p) - addrValue (ip_ipv4Start p) + 1) in
  if decide (ip_ipv4Topology p = ipv4TopologySubnet ∨ ip_ipv4Topology p = ipv4TopologyP2P)
  then visitAddresses fuel p (ip_ipv4Start p)
  else if decide (ip_ipv4Topology p = ipv4TopologyNet30)
  then visitBlocks fuel p (ip_ipv4Start p)
  else [].

(** The visitor of [findAvailableIPv4Lease]: [selected] and [selectedRelease] are
    the captured variables, a [return false] ends the visit. *)
Fixpoint selectLease (t : poolTable) (identity : string) (candidates : list ipv4PoolLease)
    (selected : ipv4PoolLease) (selectedRelease : Time) : ipv4PoolLease :=
  match candidates with
  | [] => selected
  | candidate :: rest =>
      if decide (lease_Client candidate ∈ pt_UsedSet t) then selectLease t identity rest selected selectedRelease
      else if decide (identity = ""%string) then candidate
      else
        let released := releasedAt t (lease_Client candidate) in
        let better := negb (Addr_IsValid (lease_Client selected)) || (released <? selectedRelease) in
        let selected := if better then candidate else selected in
        let selectedRelease := if better then released else selectedRelease in
        if IsZero released then selected else selectLease t identity rest selected selectedRelease
  end.

Definition findAvailableIPv4Lease (p : ipPool) (identity : string) (requireIdentity : bool)
    : ipv4PoolLease * bool :=
  let none := mkLease AddrInvalid AddrInvalid in
  if requireIdentity then
    let previous := addressOf (ip_ipv4 p) identity in
    if negb (Addr_IsValid previous) then (none, false) else
    if decide (previous ∈ pt_UsedSet (ip_ipv4 p)) then (none, false) else
    (ipv4Lease p previous, true)
  else
    let selected := selectLease (ip_ipv4 p) identity (visitIPv4Leases p) none 0 in
    (selected, Addr_IsValid (lease_Client selected)).

Definition AllocateIPv4ForIdentity (p : ipPool) (identity : string) : result ipv4PoolLease * ipPool :=
  if negb (HasIPv4 p) then (Err (ErrNew "ipv4 pool not configured"), p) else
  let previous :=
    if decide (identity = ""%string) then (mkLease AddrInvalid AddrInvalid, false)
    else findAvailableIPv4Lease p identity true in
  if previous.2 then (Ok previous.1, commitIPv4Lease p previous.1 identity) else
  let '(lease, found) := findAvailableIPv4Lease p identity false in
  if found then (Ok lease, commitIPv4Lease p lease identity)
  else (Err ErrIPPoolExhausted, p).

Definition AllocateIPv4 (p : ipPool) := AllocateIPv4ForIdentity p "".

(** The IPv6 search: at most [ipPoolMaximumSize] addresses besides the server's. *)
Fixpoint selectIPv6 (fuel : nat) (p : ipPool) (pre : prefix) (identity : string) (current : Addr)
    (visited : Z) (selected : Addr) (selectedRelease : Time) : Addr :=
  match fuel with
  | O => selected
  | S fuel =>
      if Addr_IsValid current && prefix_Contains pre current && (visited <? ipPoolMaximumSize) then
        if decide (current = ip_ipv6Server p)
        then selectIPv6 fuel p pre identity (Addr_Next current) visited selected selectedRelease else
        let visited := visited + 1 in
        if decide (current ∈ pt_UsedSet (ip_ipv6 p))
        then selectIPv6 fuel p pre identity (Addr_Next current) visited selected selectedRelease else
        if decide (identity = ""%string) then current else
        if bool_decide (identityOf (ip_ipv6 p) current = ""%string)
           && (ipPoolMaximumSize <=? Z.of_nat (size (pt_Address (ip_ipv6 p))))
        then selectIPv6 fuel p pre identity (Addr_Next current) visited selected selectedRelease else
        let released := releasedAt (ip_ipv6 p) current in
        let better := negb (Addr_IsValid selected) || (released <? selectedRelease) in
        let selected := if better then current else selected in
        let selectedRelease := if better then released else selectedRelease in
        if IsZero released then selected
        else selectIPv6 fuel p pre identity (Addr_Next current) visited selected selectedRelease
      else selected
  end.

Definition findAvailableIPv6Address (p : ipPool) (pre : prefix) (identity : string) (requireIdentity : bool)
    : Addr * bool :=
  if requireIdentity then
    let previous := addressOf (ip_ipv6 p) identity in
    if negb (Addr_IsValid previous) || negb (prefix_Contains pre previous)
       || bool_decide (previous = ip_ipv6Server p)
    then (AddrInvalid, false)
    else (previous, negb (bool_decide (previous ∈ pt_UsedSet (ip_ipv6 p))))
  else
    let selected := selectIPv6 (Z.to_nat (ipPoolMaximumSize + 2)) p pre identity
                      (Addr_Next (prefix_Addr pre)) 0 AddrInvalid 0 in
    (selected, Addr_IsValid selected).

Definition AllocateIPv6ForIdentity (p : ipPool) (identity : string) : result Addr * ipPool :=
  match ip_ipv6Prefix p with
  | None => (Err (ErrNew "ipv6 pool not configured"), p)
  | Some pre =>
      let previous :=
        if decide (identity = ""%string) then (AddrInvalid, false)
        else findAvailableIPv6Address p pre identity true in
      if previous.2 then (Ok previous.1, commitIPv6Address p previous.1 identity) else
      let '(address, found) := findAvailableIPv6Address p pre identity false in
      if found then (Ok address, commitIPv6Address p address identity)
      else (Err ErrIPPoolExhausted, p)
  end.

(** The pool of a server that does not use a static key; [None] without pools. *)
Definition firstPrefixByFamily (prefixes : list (option prefix)) (ipv4 : bool) : option prefix :=
  head (omap (λ p, p ← p; if decide (Is4 (prefix_Addr p) = ipv4) then Some p else None) prefixes).

Definition prepareServerDataPlane (addressPools : list (option prefix)) (topology : string)
    (localAddress : list (option prefix)) : result (option ipPool) :=
  pool ← newIPPool addressPools topology;
  if negb (HasIPv4 pool) && negb (HasIPv6 pool) then Ok None else
  pool ← (if HasIPv4 pool then
            match firstPrefixByFamily localAddress true with
            | Some pre => SetServerIPv4 pool (prefix_Addr pre)
            | None => Ok pool
            end
          else Ok pool);
  pool ← (if HasIPv6 pool then
            match firstPrefixByFamily localAddress false with
            | Some pre => SetServerIPv6 pool (prefix_Addr pre)
            | None => Ok pool
            end
          else Ok pool);
  Ok (Some pool).

(** ** The tables *)

(** Identities are never empty in the tables, and the two maps are inverse. *)
Record table_ok (t : poolTable) : Prop := mk_table_ok {
  to_inverse : ∀ id a, pt_Address t !! id = Some a ↔ pt_Identity t !! a = Some id;
  to_named : ∀ a, pt_Identity t !! a ≠ Some ""%string;
  to_valid : ∀ id a, pt_Address t !! id = Some a → Addr_IsValid a = true;
}.

Lemma emptyTable_ok : table_ok emptyTable.
Proof.
  split; cbn.
  - intros id a. rewrite !lookup_empty. done.
  - intros a. by rewrite lookup_empty.
  - intros id a. by rewrite lookup_empty.
Qed.

Lemma identityOf_Some t a id : id ≠ ""%string → identityOf t a = id ↔ pt_Identity t !! a = Some id.
Proof.
  intros Hid. unfold identityOf. destruct (pt_Identity t !! a) eqn:E; cbn; split; intros H;
    try congruence; try (by injection H as ->).
Qed.

(** The table after a commit, address by address: the two maps move together. *)
Lemma commitAddress_Address t a id id' :
  table_ok t → Addr_IsValid a = true →
  pt_Address (commitAddress t a id) !! id' =
    (if decide (id' = id ∧ id ≠ ""%string) then Some a
     else if decide (pt_Identity t !! a = Some id') then None else pt_Address t !! id').
Proof.
  intros [Hinv Hnamed _] Ha. unfold commitAddress.
  assert (Hdel : ∀ X, (if bool_decide (identityOf t a ≠ ""%string ∧ identityOf t a ≠ id ∧
                       addressOf t (identityOf t a) = a)
            then delete (identityOf t a) (pt_Address t) else pt_Address t) = X →
          id' ≠ id ∨ id = ""%string → X !! id' = if decide (pt_Identity t !! a = Some id') then None else pt_Address t !! id').
  { intros X <- Hne. case_bool_decide as Hc.
    - destruct Hc as (Hn & Hni & Hadr).
      pose proof (proj1 (identityOf_Some t a _ Hn) eq_refl) as Hi. rewrite Hi.
      destruct (decide (Some (identityOf t a) = Some id')) as [[= He] | He].
      + by rewrite <- He, lookup_delete_eq.
      + rewrite lookup_delete_ne; [done | congruence].
    - destruct (decide (pt_Identity t !! a = Some id')) as [Hi | Hi]; [| done].
      exfalso. apply Hc.
      assert (identityOf t a = id') as -> by (unfold identityOf; by rewrite Hi).
      assert (id' ≠ ""%string) by (intros ->; by apply (Hnamed a)).
      split_and!; [done | destruct Hne; congruence |].
      unfold addressOf. apply Hinv in Hi. by rewrite Hi. }
  destruct (decide (id = ""%string)) as [-> | Hid]; cbn.
  - rewrite decide_False by (intros [_ ?]; done). apply (Hdel _ eq_refl). by right.
  - destruct (decide (id' = id)) as [-> | Hne].
    + rewrite decide_True by done. by rewrite lookup_insert_eq.
    + rewrite decide_False by tauto. rewrite lookup_insert_ne by congruence.
      apply (Hdel _ eq_refl). by left.
Qed.

Lemma commitAddress_Identity t a id a' :
  table_ok t → Addr_IsValid a = true →
  pt_Identity (commitAddress t a id) !! a' =
    (if decide (a' = a) then (if decide (id = ""%string) then None else Some id)
     else if decide (pt_Identity t !! a' = Some id) then None else pt_Identity t !! a').
Proof.
  intros Hok Ha. destruct Hok as [Hinv Hnamed Hvalid]. unfold commitAddress.
  destruct (decide (id = ""%string)) as [-> | Hid]; cbn.
  - destruct (decide (a' = a)) as [-> | Hne]; [by rewrite lookup_delete_eq |].
    rewrite lookup_delete_ne by congruence. rewrite decide_False; [done | apply Hnamed].
  - destruct (decide (a' = a)) as [-> | Hne]; [by rewrite lookup_insert_eq |].
    rewrite lookup_insert_ne by congruence.
    match goal with |- context [default AddrInvalid (?m !! id)] => assert (Hm : m !! id = pt_Address t !! id) end.
    { case_bool_decide as Hc; [| done]. apply lookup_delete_ne. tauto. }
    rewrite Hm. destruct (pt_Address t !! id) as [prev |] eqn:Hprev; cbn.
    + rewrite (Hvalid _ _ Hprev). cbn. destruct (bool_decide_reflect (prev ≠ a)) as [Hpa | Hpa].
      * destruct (decide (a' = prev)) as [-> | Hap].
        -- rewrite lookup_delete_eq, decide_True; [done |]. by apply Hinv.
        -- rewrite lookup_delete_ne by congruence. rewrite decide_False; [done |].
           intros H. apply Hinv in H. congruence.
      * rewrite decide_False; [done |]. intros H. apply Hinv in H.
        apply dec_stable in Hpa. congruence.
    + rewrite decide_False; [done |]. intros H. apply Hinv in H. congruence.
Qed.

Lemma commitAddress_UsedSet t a id : pt_UsedSet (commitAddress t a id) = {[a]} ∪ pt_UsedSet t.
Proof. unfold commitAddress. by destruct (decide (id = ""%string)). Qed.

Lemma commitAddress_ok t a id : table_ok t → Addr_IsValid a = true → table_ok (commitAddress t a id).
Proof.
  intros Hok Ha. pose proof Hok as [Hinv Hnamed Hvalid]. split.
  - intros id' a'. rewrite commitAddress_Address, commitAddress_Identity by done.
    pose proof (Hinv id' a') as Hi. pose proof (Hnamed a) as Hna. pose proof (Hnamed a') as Hna'.
    destruct (decide (a' = a)) as [-> |]; repeat case_decide; destruct_and?; rewrite ?Hi;
      split; intros; simplify_eq; try congruence; exfalso; naive_solver.
  - intros a'. rewrite commitAddress_Identity by done. repeat case_decide; naive_solver.
  - intros id' a'. rewrite commitAddress_Address by done. repeat case_decide; naive_solver.
Qed.

Lemma releaseAddress_ok t a now : table_ok t → table_ok (releaseAddress t a now).
Proof. intros [Hinv Hnamed Hvalid]. by split. Qed.

(** ** The IPv4 candidates *)

Lemma Addr_le_4 a b : Addr_le (Addr4 a) (Addr4 b) = (a <=? b).
Proof. unfold Addr_le, Addr_Compare, Z.leb; cbn. by destruct (a ?= b). Qed.

(** The bounds of a configured pool. *)
Definition bounds_ok (p : ipPool) : Prop :=
  ∃ s e, ip_ipv4Start p = Addr4 s ∧ ip_ipv4End p = Addr4 e ∧ 0 ≤ s ≤ e ∧ e < 2 ^ 32.

Lemma elem_of_visitAddresses p e fuel c a :
  ip_ipv4End p = Addr4 e → e < 2 ^ 32 → e - c < Z.of_nat fuel → 
  a ∈ lease_Client <$> visitAddresses fuel p (Addr4 c) ↔
  ∃ v, a = Addr4 v ∧ c ≤ v ≤ e ∧ a ≠ ip_ipv4Server p.
Proof.
  intros He Hlt. revert c. induction fuel as [| fuel IH]; intros c Hf.
  - cbn. split; [intros H; by apply elem_of_nil in H | intros (v & _ & ? & _); lia].
  - cbn [visitAddresses]. rewrite He, Addr_le_4. cbn [Addr_IsValid andb].
    destruct (Z.leb_spec c e) as [Hce | Hce].
    + assert (IH' : a ∈ lease_Client <$> visitAddresses fuel p (Addr_Next (Addr4 c)) ↔
                ∃ v, a = Addr4 v ∧ c + 1 ≤ v ≤ e ∧ a ≠ ip_ipv4Server p).
      { unfold Addr_Next. case_match eqn:Hlast; [| apply IH; lia].
        apply Z.eqb_eq in Hlast. destruct fuel; cbn;
          (split; [intros H; by apply elem_of_nil in H | intros (v & _ & ? & _); lia]). }
      destruct (decide (Addr4 c = ip_ipv4Server p)) as [Hs | Hs].
      * rewrite IH'. split; intros (v & -> & Hv & Hns); exists v; split_and!; try done; try lia.
        destruct (decide (v = c)) as [-> |]; [done | lia].
      * rewrite fmap_cons, elem_of_cons. cbn [lease_Client]. rewrite IH'. split.
        -- intros [-> | (v & -> & Hv & Hns)]; [exists c | exists v]; split_and!; try done; lia.
        -- intros (v & -> & Hv & Hns). destruct (decide (v = c)) as [-> |]; [by left | right].
           exists v. split_and!; try done; lia.
    + split; [intros H; by apply elem_of_nil in H | intros (v & _ & ? & _); lia].
Qed.

Lemma addIPv4_4 v o : 0 ≤ v + o < 2 ^ 32 → addIPv4 (Addr4 v) o = Addr4 (v + o).
Proof.
  intros H. unfold addIPv4. destruct (Z.ltb_spec (v + o) 0), (Z.ltb_spec 4294967295 (v + o)); cbn; try done; lia.
Qed.

Lemma addIPv4_overflow v o : 2 ^ 32 ≤ v + o → addIPv4 (Addr4 v) o = AddrInvalid.
Proof.
  intros H. unfold addIPv4. destruct (Z.ltb_spec (v + o) 0), (Z.ltb_spec 4294967295 (v + o)); cbn; try done; lia.
Qed.

Lemma elem_of_visitBlocks p e fuel b l :
  ip_ipv4End p = Addr4 e → 0 ≤ b → e < 2 ^ 32 → e - b < Z.of_nat fuel → 
  l ∈ visitBlocks fuel p (Addr4 b) ↔
  ∃ k, 0 ≤ k ∧ b + 4 * k + 2 ≤ e ∧ l = mkLease (Addr4 (b + 4 * k + 2)) (Addr4 (b + 4 * k + 1)) ∧
       lease_Client l ≠ ip_ipv4Server p ∧ lease_Peer l ≠ ip_ipv4Server p.
Proof.
  intros He Hb Hlt. revert b Hb. induction fuel as [| fuel IH]; intros b Hb Hf.
  - cbn. split; [intros H; by apply elem_of_nil in H | intros (v & ? & ? & _); lia].
  - cbn [visitBlocks]. rewrite He, Addr_le_4. cbn [Addr_IsValid andb].
    destruct (Z.leb_spec b e) as [Hbe | Hbe]; cycle 1.
    { split; [intros H; by apply elem_of_nil in H | intros (v & ? & ? & _); lia]. }
    destruct (decide (b + 2 < 2 ^ 32)) as [Hb2 | Hb2]; cycle 1.
    { rewrite (addIPv4_overflow b 2) by lia. cbn. rewrite orb_true_r. cbn.
      split; [intros H; by apply elem_of_nil in H | intros (v & ? & ? & _); lia]. }
    rewrite (addIPv4_4 b 1), (addIPv4_4 b 2) by lia. rewrite Addr_le_4. cbn [Addr_IsValid negb orb].
    destruct (Z.leb_spec (b + 2) e) as [Hbe2 | Hbe2]; cbn [negb]; cycle 1.
    { split; [intros H; by apply elem_of_nil in H | intros (v & ? & ? & _); lia]. }
    assert (IH' : l ∈ visitBlocks fuel p (addIPv4 (Addr4 b) 4) ↔
       ∃ k, 1 ≤ k ∧ b + 4 * k + 2 ≤ e ∧ l = mkLease (Addr4 (b + 4 * k + 2)) (Addr4 (b + 4 * k + 1)) ∧
         lease_Client l ≠ ip_ipv4Server p ∧ lease_Peer l ≠ ip_ipv4Server p).
    { destruct (decide (b + 4 < 2 ^ 32)) as [Hb4 | Hb4].
      - rewrite (addIPv4_4 b 4), IH by lia. split; intros (k & Hk & Hke & -> & Hn).
        + exists (k + 1). replace (b + 4 * (k + 1)) with (b + 4 + 4 * k) by lia. split_and!; try done; try lia; by apply Hn.
        + exists (k - 1). replace (b + 4 + 4 * (k - 1)) with (b + 4 * k) by lia. split_and!; try done; try lia; by apply Hn.
      - rewrite (addIPv4_overflow b 4) by lia. destruct fuel; cbn;
          (split; [intros H; by apply elem_of_nil in H | intros (k & ? & ? & _); lia]). }
    destruct (decide _) as [Hs | Hs].
    + rewrite IH'. split; intros (k & Hk & Hke & -> & Hn); exists k; split_and!; try done; try lia; try by apply Hn.
      destruct (decide (k = 0)) as [-> |]; [| lia]. replace (b + 4 * 0) with b in Hn by lia. naive_solver.
    + rewrite elem_of_cons, IH'. split.
      * intros [-> | (k & Hk & Hke & -> & Hn)]; [exists 0 | exists k]; try replace (b + 4 * 0) with b by lia.
        -- split_and!; try done; try lia; cbn; tauto.
        -- split_and!; try done; try lia; by apply Hn.
      * intros (k & Hk & Hke & -> & Hn). destruct (decide (k = 0)) as [-> |].
        -- left. by replace (b + 4 * 0) with b by lia.
        -- right. exists k. split_and!; try done; try lia; by apply Hn.
Qed.

(** ** The pool *)

Lemma visitAddresses_setIPv4Table fuel p t c :
  visitAddresses fuel (setIPv4Table p t) c = visitAddresses fuel p c.
Proof. revert c. induction fuel as [| fuel IH]; intros c; [done |]. cbn. by rewrite !IH. Qed.

Lemma visitBlocks_setIPv4Table fuel p t b :
  visitBlocks fuel (setIPv4Table p t) b = visitBlocks fuel p b.
Proof. revert b. induction fuel as [| fuel IH]; intros b; [done |]. cbn. by rewrite !IH. Qed.

Lemma visitIPv4Leases_setIPv4Table p t : visitIPv4Leases (setIPv4Table p t) = visitIPv4Leases p.
Proof. unfold visitIPv4Leases. cbn. by rewrite visitAddresses_setIPv4Table, visitBlocks_setIPv4Table. Qed.

Lemma visitAddresses_setIPv6Table fuel p t c :
  visitAddresses fuel (setIPv6Table p t) c = visitAddresses fuel p c.
Proof. revert c. induction fuel as [| fuel IH]; intros c; [done |]. cbn. by rewrite !IH. Qed.

Lemma visitBlocks_setIPv6Table fuel p t b :
  visitBlocks fuel (setIPv6Table p t) b = visitBlocks fuel p b.
Proof. revert b. induction fuel as [| fuel IH]; intros b; [done |]. cbn. by rewrite !IH. Qed.

Lemma visitIPv4Leases_setIPv6Table p t : visitIPv4Leases (setIPv6Table p t) = visitIPv4Leases p.
Proof. unfold visitIPv4Leases. cbn. by rewrite visitAddresses_setIPv6Table, visitBlocks_setIPv6Table. Qed.

(** The clients of the leases the pool can hand out. *)
Definition candidates (p : ipPool) : list Addr := lease_Client <$> visitIPv4Leases p.

Definition topology_ok (p : ipPool) : Prop :=
  ip_ipv4Topology p = ipv4TopologySubnet ∨ ip_ipv4Topology p = ipv4TopologyP2P ∨
  ip_ipv4Topology p = ipv4TopologyNet30.

(** An address of the IPv6 pool that a client can have. *)
Definition candidate6 (p : ipPool) (a : Addr) : Prop :=
  ∃ pre, ip_ipv6Prefix p = Some pre ∧ prefix_Contains pre a = true ∧ a ≠ ip_ipv6Server p.

(** The invariant of the pool. *)
Record pool_ok (p : ipPool) : Prop := mk_pool_ok {
  po_ipv4 : table_ok (ip_ipv4 p);
  po_ipv6 : table_ok (ip_ipv6 p);
  po_topology : topology_ok p;
  po_bounds : HasIPv4 p = true → bounds_ok p;
  po_sticky : ∀ id a, pt_Address (ip_ipv4 p) !! id = Some a → a ∈ candidates p;
  po_prefix6 : ∀ pre, ip_ipv6Prefix p = Some pre → Is6 (prefix_Addr pre) = true;
}.

(** A candidate is the lease [ipv4Lease] builds for its client, is in the range
    of the pool and is not the server. *)
Lemma visitIPv4Leases_spec p l s e :
  topology_ok p → ip_ipv4Start p = Addr4 s → ip_ipv4End p = Addr4 e → 0 ≤ s ≤ e → e < 2 ^ 32 →
  l ∈ visitIPv4Leases p →
  l = ipv4Lease p (lease_Client l) ∧ lease_Client l ≠ ip_ipv4Server p ∧
  ∃ v, lease_Client l = Addr4 v ∧ s ≤ v ≤ e.
Proof.
  intros Htop Hs He Hse Hlt Hin. unfold visitIPv4Leases in Hin. rewrite Hs, He in Hin. cbn in Hin.
  unfold ipv4Lease.
  assert (Haddr : l ∈ visitAddresses (Z.to_nat (e - s + 1)) p (Addr4 s) →
    lease_Peer l = (if decide (ip_ipv4Topology p = ipv4TopologyP2P) then ip_ipv4Server p else AddrInvalid) ∧
    lease_Client l ≠ ip_ipv4Server p ∧ ∃ v, lease_Client l = Addr4 v ∧ s ≤ v ≤ e).
  { intros Hl. split; cycle 1.
    - apply (list_elem_of_fmap_2 lease_Client) in Hl.
      apply (elem_of_visitAddresses p e) in Hl as (v & ? & ? & ?); [| done | lia | lia]. eauto.
    - clear -Hl. revert Hl. generalize (Addr4 s) as c. induction (Z.to_nat (e - s + 1)) as [| f IH]; intros c Hl.
      + by apply elem_of_nil in Hl.
      + cbn in Hl. destruct (_ && _) in Hl; [| by apply elem_of_nil in Hl].
        destruct (decide (c = _)) in Hl; [by apply IH in Hl |].
        apply elem_of_cons in Hl as [-> | Hl]; [done | by apply IH in Hl]. }
  destruct l as [client peer]; cbn in *.
  destruct Htop as [Ht | [Ht | Ht]]; rewrite Ht in *; cbn in *.
  - destruct (Haddr Hin) as (-> & ? & ?). done.
  - destruct (Haddr Hin) as (-> & ? & ?). done.
  - apply (elem_of_visitBlocks p e) in Hin as (k & Hk & Hke & [= -> ->] & Hn1 & Hn2); [| done | lia..].
    cbn in Hn1. split_and!; [| done | eexists; split; [done | lia]].
    cbn. rewrite (proj2 (Z.eqb_neq _ 0)) by lia. do 2 f_equal. lia.
Qed.

Lemma ipv4Lease_candidate p a :
  topology_ok p → bounds_ok p → a ∈ candidates p → ipv4Lease p a ∈ visitIPv4Leases p.
Proof.
  intros Htop (s & e & Hs & He & Hse & Hlt) Ha. unfold candidates in Ha.
  apply list_elem_of_fmap in Ha as (l & -> & Hl).
  destruct (visitIPv4Leases_spec p l s e Htop Hs He Hse Hlt Hl) as [<- _]. done.
Qed.

(** What the visitor returns: a free candidate whenever there is one; for an
    identity, one that was released the longest ago. *)
Lemma selectLease_spec t id cands sel rel :
  (∀ l, l ∈ cands → Addr_IsValid (lease_Client l) = true) →
  (∀ a, 0 ≤ releasedAt t a) → 0 ≤ rel →
  let r := selectLease t id cands sel rel in
  (r = sel ∧ (∀ l, l ∈ cands → lease_Client l ∉ pt_UsedSet t → 
              Addr_IsValid (lease_Client sel) = true ∧ (id ≠ ""%string → rel ≤ releasedAt t (lease_Client l))))
  ∨ (r ∈ cands ∧ lease_Client r ∉ pt_UsedSet t ∧
     (id ≠ ""%string → (∀ l, l ∈ cands → lease_Client l ∉ pt_UsedSet t →
        releasedAt t (lease_Client r) ≤ releasedAt t (lease_Client l)) ∧
        (Addr_IsValid (lease_Client sel) = true → releasedAt t (lease_Client r) ≤ rel))).
Proof.
  cbv zeta. revert sel rel. induction cands as [| c cands IH]; intros sel rel Hval Htimes Hrel; cbn [selectLease].
  { left. split; [done |]. intros l Hl. by apply elem_of_nil in Hl. }
  assert (Hval' : ∀ l, l ∈ cands → Addr_IsValid (lease_Client l) = true) by (intros l Hl; apply Hval; by right).
  destruct (decide (lease_Client c ∈ pt_UsedSet t)) as [Hu | Hu].
  { destruct (IH sel rel Hval' Htimes Hrel) as [[-> Hall] | (Hin & Hfree & Hmin)].
    - left. split; [done |]. intros l Hl Hf. apply elem_of_cons in Hl as [-> | Hl]; [done |]. by apply Hall.
    - right. split_and!; [by right | done |]. intros Hid. destruct (Hmin Hid) as [Hm1 Hm2]. split; [| done].
      intros l Hl Hf. apply elem_of_cons in Hl as [-> | Hl]; [done | by apply Hm1]. }
  destruct (decide (id = ""%string)) as [-> | Hid].
  { right. split_and!; [by left | done | done]. }
  set (R := releasedAt t (lease_Client c)).
  assert (HR : 0 ≤ R) by apply Htimes.
  pose proof (Hval c ltac:(by left)) as Hcv.
  destruct (negb (Addr_IsValid (lease_Client sel)) || (R <? rel)) eqn:Hbetter.
  - right. unfold IsZero. destruct (Z.eqb_spec R 0) as [Hz | Hz].
    + split_and!; [by left | done |]. intros _. split.
      * intros l _ _. fold R. rewrite Hz. apply Htimes.
      * intros _. fold R. lia.
    + destruct (IH c R Hval' Htimes HR) as [[-> Hall] | (Hin & Hfree & Hmin)].
      * split_and!; [by left | done |]. intros _. split.
        -- intros l Hl Hf. apply elem_of_cons in Hl as [-> | Hl]; [done | by apply Hall].
        -- intros Hsv. rewrite Hsv in Hbetter. cbn in Hbetter. fold R. lia.
      * split_and!; [by right | done |]. intros _. destruct (Hmin Hid) as [Hm1 Hm2]. specialize (Hm2 Hcv). split.
        -- intros l Hl Hf. apply elem_of_cons in Hl as [-> | Hl]; [done | by apply Hm1].
        -- intros Hsv. rewrite Hsv in Hbetter. cbn in Hbetter. lia.
  - apply orb_false_iff in Hbetter as [Hsv Hge]. apply negb_false_iff in Hsv. apply Z.ltb_ge in Hge.
    unfold IsZero. destruct (Z.eqb_spec R 0) as [Hz | Hz].
    + left. split; [done |]. intros l Hl Hf. split; [done |]. intros _. pose proof (Htimes (lease_Client l)). lia.
    + destruct (IH sel rel Hval' Htimes Hrel) as [[-> Hall] | (Hin & Hfree & Hmin)].
      * left. split; [done |]. intros l Hl Hf. split; [done |]. intros _.
        apply elem_of_cons in Hl as [-> | Hl]; [done | by apply Hall].
      * right. split_and!; [by right | done |]. intros _. destruct (Hmin Hid) as [Hm1 Hm2]. specialize (Hm2 Hsv). split; [| done].
        intros l Hl Hf. apply elem_of_cons in Hl as [-> | Hl]; [by fold R; lia | by apply Hm1].
Qed.

(** The release times the clock can have given. *)
Definition times_ok (t : poolTable) : Prop := map_Forall (λ _ at_, 0 ≤ at_) (pt_Released t).

Lemma releasedAt_nonneg t a : times_ok t → 0 ≤ releasedAt t a.
Proof.
  intros H. unfold releasedAt. destruct (pt_Released t !! a) as [at_ |] eqn:E; [| done].
  by apply (H a at_).
Qed.

Lemma commitAddress_times t a id : times_ok t → times_ok (commitAddress t a id).
Proof.
  intros H. unfold times_ok, commitAddress. destruct (decide (id = ""%string)); cbn.
  - by apply map_Forall_delete.
  - destruct (_ && _); repeat apply map_Forall_delete; done.
Qed.

Lemma releaseAddress_times t a now : 0 ≤ now → times_ok t → times_ok (releaseAddress t a now).
Proof.
  intros Hn H. unfold times_ok, releaseAddress; cbn. destruct (decide _).
  - by apply map_Forall_insert_2.
  - by apply map_Forall_delete.
Qed.

(** ** IPv4 allocation *)

Lemma candidates_valid p l :
  topology_ok p → bounds_ok p → l ∈ visitIPv4Leases p → Addr_IsValid (lease_Client l) = true.
Proof.
  intros Htop (s & e & Hs & He & Hse & Hlt) Hl.
  destruct (visitIPv4Leases_spec p l s e Htop Hs He Hse Hlt Hl) as (_ & _ & v & -> & _). done.
Qed.

(** The search for a fresh lease finds one exactly when a candidate is free. *)
Lemma findAvailableIPv4Lease_fresh p id :
  topology_ok p → bounds_ok p → times_ok (ip_ipv4 p) →
  let free l := l ∈ visitIPv4Leases p ∧ lease_Client l ∉ pt_UsedSet (ip_ipv4 p) in
  match findAvailableIPv4Lease p id false with
  | (l, true) => free l ∧ (id ≠ ""%string → ∀ l', free l' →
      releasedAt (ip_ipv4 p) (lease_Client l) ≤ releasedAt (ip_ipv4 p) (lease_Client l'))
  | (_, false) => ∀ l, l ∈ visitIPv4Leases p → lease_Client l ∈ pt_UsedSet (ip_ipv4 p)
  end.
Proof.
  intros Htop Hb Htm. cbv zeta. unfold findAvailableIPv4Lease.
  pose proof (selectLease_spec (ip_ipv4 p) id (visitIPv4Leases p) (mkLease AddrInvalid AddrInvalid) 0
      (λ l Hl, candidates_valid p l Htop Hb Hl) (λ a, releasedAt_nonneg _ a Htm) ltac:(lia)) as Hsel.
  cbv zeta in Hsel. set (r := selectLease _ _ _ _ _) in *. clearbody r. cbv zeta.
  destruct (Addr_IsValid (lease_Client r)) eqn:Hv.
  - destruct Hsel as [[-> _] | (Hin & Hfree & Hmin)]; [done |]. split; [done |].
    intros Hid l' [Hl' Hf']. by apply Hmin.
  - intros l Hl. destruct Hsel as [[-> Hall] | (Hin & Hfree & Hmin)].
    + destruct (decide (lease_Client l ∈ pt_UsedSet (ip_ipv4 p))) as [| Hf]; [done |]. by destruct (Hall l Hl Hf).
    + by rewrite (candidates_valid p _ Htop Hb Hin) in Hv.
Qed.

Lemma findAvailableIPv4Lease_sticky p id l :
  pool_ok p → bounds_ok p → findAvailableIPv4Lease p id true = (l, true) →
  pt_Address (ip_ipv4 p) !! id = Some (lease_Client l) ∧ l ∈ visitIPv4Leases p ∧
  lease_Client l ∉ pt_UsedSet (ip_ipv4 p).
Proof.
  intros [Ht4 Ht6 Htop _ Hst H6] Hb. unfold findAvailableIPv4Lease, addressOf.
  destruct (pt_Address (ip_ipv4 p) !! id) as [a |] eqn:Ha; cbn; [| done].
  rewrite (to_valid _ Ht4 _ _ Ha). cbn. destruct (decide (a ∈ _)) as [| Hu]; [done |].
  intros [= <-]. split_and!; [done | | done].
  apply ipv4Lease_candidate; [done | done | by apply (Hst id)].
Qed.

Lemma AllocateIPv4_ok p id l p' :
  pool_ok p → times_ok (ip_ipv4 p) → AllocateIPv4ForIdentity p id = (Ok l, p') →
  l ∈ visitIPv4Leases p ∧ lease_Client l ∉ pt_UsedSet (ip_ipv4 p) ∧
  p' = commitIPv4Lease p l id ∧
  (id ≠ ""%string → pt_Address (ip_ipv4 p) !! id = Some (lease_Client l) ∨
     ∀ l', l' ∈ visitIPv4Leases p ∧ lease_Client l' ∉ pt_UsedSet (ip_ipv4 p) →
           releasedAt (ip_ipv4 p) (lease_Client l) ≤ releasedAt (ip_ipv4 p) (lease_Client l')).
Proof.
  intros Hok Htm. unfold AllocateIPv4ForIdentity.
  destruct (HasIPv4 p) eqn:H4; [| done]. cbn [negb]. pose proof (po_bounds _ Hok H4) as Hb.
  destruct (if decide (id = ""%string) then _ else _) as [prev found] eqn:Hf. cbn [snd fst]. destruct found.
  - intros [= <- <-]. destruct (decide (id = ""%string)); [done |].
    apply findAvailableIPv4Lease_sticky in Hf as (? & ? & ?); [| done..]. by eauto.
  - pose proof (findAvailableIPv4Lease_fresh p id (po_topology _ Hok) Hb Htm) as Hs. cbv zeta in Hs.
    destruct (findAvailableIPv4Lease p id false) as [r []]; [| done]. intros [= <- <-].
    destruct Hs as [[? ?] Hmin]. split_and!; try done. intros Hid. right. by apply Hmin.
Qed.

Lemma AllocateIPv4_err p id e p' :
  pool_ok p → times_ok (ip_ipv4 p) → AllocateIPv4ForIdentity p id = (Err e, p') →
  p' = p ∧ (HasIPv4 p = true → e = ErrIPPoolExhausted ∧
            ∀ l, l ∈ visitIPv4Leases p → lease_Client l ∈ pt_UsedSet (ip_ipv4 p)).
Proof.
  intros Hok Htm. unfold AllocateIPv4ForIdentity.
  destruct (HasIPv4 p) eqn:H4; cbn [negb]; [| by intros [= <- <-]].
  pose proof (po_bounds _ Hok H4) as Hb.
  destruct (snd _); [done |].
  pose proof (findAvailableIPv4Lease_fresh p id (po_topology _ Hok) Hb Htm) as Hs. cbv zeta in Hs.
  destruct (findAvailableIPv4Lease p id false) as [r []]; [done |]. by intros [= <- <-].
Qed.

(** ** IPv6 allocation *)

Lemma selectIPv6_spec fuel p pre id cur visited sel rel :
  let r := selectIPv6 fuel p pre id cur visited sel rel in
  r = sel ∨ (r ∉ pt_UsedSet (ip_ipv6 p) ∧ prefix_Contains pre r = true ∧ r ≠ ip_ipv6Server p).
Proof.
  cbv zeta. revert cur visited sel rel. induction fuel as [| fuel IH]; intros cur visited sel rel; [by left |].
  cbn [selectIPv6].
  destruct (Addr_IsValid cur && prefix_Contains pre cur && (visited <? ipPoolMaximumSize)) eqn:Hg; [| by left].
  apply andb_true_iff in Hg as [Hg _]. apply andb_true_iff in Hg as [_ Hc].
  destruct (decide (cur = ip_ipv6Server p)); [apply IH |].
  destruct (decide (cur ∈ pt_UsedSet (ip_ipv6 p))); [apply IH |].
  destruct (decide (id = ""%string)); [by right |].
  destruct (_ && _); [apply IH |].
  destruct (negb (Addr_IsValid sel) || _); destruct (IsZero _); try (by left); try (by right); try apply IH.
  edestruct IH as [-> | H]; [by right | by right].
Qed.

Lemma AllocateIPv6_ok p id a p' :
  AllocateIPv6ForIdentity p id = (Ok a, p') →
  candidate6 p a ∧ a ∉ pt_UsedSet (ip_ipv6 p) ∧ p' = commitIPv6Address p a id.
Proof.
  unfold AllocateIPv6ForIdentity, candidate6. destruct (ip_ipv6Prefix p) as [pre |] eqn:Hpre; [| done].
  destruct (snd _) eqn:Hprev.
  - intros [= <- <-]. destruct (decide (id = ""%string)); [done |].
    unfold findAvailableIPv6Address in *. set (prev := addressOf (ip_ipv6 p) id) in *.
    destruct (negb (Addr_IsValid prev) || negb (prefix_Contains pre prev) || bool_decide (prev = ip_ipv6Server p)) eqn:Hg;
      [done |].
    cbn in Hprev |- *. apply negb_true_iff, bool_decide_eq_false in Hprev.
    apply orb_false_iff in Hg as [Hg Hs]. apply orb_false_iff in Hg as [_ Hc].
    apply bool_decide_eq_false in Hs. apply negb_false_iff in Hc. split_and!; [eauto | done | done].
  - unfold findAvailableIPv6Address.
    pose proof (selectIPv6_spec (Z.to_nat (ipPoolMaximumSize + 2)) p pre id (Addr_Next (prefix_Addr pre)) 0 AddrInvalid 0) as Hsel.
    cbv zeta in Hsel. set (r := selectIPv6 _ _ _ _ _ _ _ _) in *. clearbody r.
    cbv zeta. destruct (Addr_IsValid r) eqn:Hv; [| done]. intros [= <- <-].
    destruct Hsel as [-> | (Hu & Hc & Hs)]; [done |]. split_and!; [eauto | done | done].
Qed.

Lemma AllocateIPv6_err p id e p' : AllocateIPv6ForIdentity p id = (Err e, p') → p' = p.
Proof.
  unfold AllocateIPv6ForIdentity. destruct (ip_ipv6Prefix p) as [pre |]; [| by intros [= _ <-]].
  destruct (snd _); [done |]. destruct (findAvailableIPv6Address p pre id false) as [a []]; [done | by intros [= _ <-]].
Qed.

(** ** Runs of the server *)

(** The calls the server makes on its pool, with the addresses handed out and
    not released since. *)
Inductive poolOp :=
| OpAllocateIPv4 (identity : string)
| OpAllocateIPv6 (identity : string)
| OpRelease (address : Addr) (now : Time).

Definition poolStep (st : ipPool * list Addr) (op : poolOp) : ipPool * list Addr :=
  let '(p, live) := st in
  match op with
  | OpAllocateIPv4 id =>
      let '(r, p) := AllocateIPv4ForIdentity p id in
      (p, match r with Ok l => lease_Client l :: live | Err _ => live end)
  | OpAllocateIPv6 id =>
      let '(r, p) := AllocateIPv6ForIdentity p id in
      (p, match r with Ok a => a :: live | Err _ => live end)
  | OpRelease address now => (Release p address now, filter (λ a, a ≠ address) live)
  end.

Definition poolRun (st : ipPool * list Addr) (ops : list poolOp) : ipPool * list Addr := foldl poolStep st ops.

Definition op_ok (op : poolOp) : Prop := match op with OpRelease _ now => 0 ≤ now | _ => True end.

(** What a live address is: taken, and of the pool's range. *)
Definition live_ok (p : ipPool) (a : Addr) : Prop :=
  match a with
  | AddrInvalid => False
  | Addr4 _ => a ∈ pt_UsedSet (ip_ipv4 p) ∧ HasIPv4 p = true ∧ a ∈ candidates p
  | Addr6 _ => a ∈ pt_UsedSet (ip_ipv6 p) ∧ candidate6 p a
  end.

Record run_ok (st : ipPool * list Addr) : Prop := mk_run_ok {
  ro_pool : pool_ok st.1;
  ro_times : times_ok (ip_ipv4 st.1);
  ro_distinct : NoDup st.2;
  ro_live : ∀ a, a ∈ st.2 → live_ok st.1 a;
  ro_used : ∀ a, a ∈ pt_UsedSet (ip_ipv4 st.1) → a ∈ st.2 ∧ Is4 a = true;
}.

Lemma candidates_setIPv4Table p t : candidates (setIPv4Table p t) = candidates p.
Proof. unfold candidates. by rewrite visitIPv4Leases_setIPv4Table. Qed.

Lemma candidates_setIPv6Table p t : candidates (setIPv6Table p t) = candidates p.
Proof. unfold candidates. by rewrite visitIPv4Leases_setIPv6Table. Qed.

Lemma pool_ok_setIPv4Table p t :
  pool_ok p → table_ok t → (∀ id a, pt_Address t !! id = Some a → a ∈ candidates p) →
  pool_ok (setIPv4Table p t).
Proof. intros [Ht4 Ht6 Htop Hb Hst H6] Ht Hs. split; try done. by rewrite candidates_setIPv4Table. Qed.

Lemma pool_ok_setIPv6Table p t : pool_ok p → table_ok t → pool_ok (setIPv6Table p t).
Proof. intros [Ht4 Ht6 Htop Hb Hst H6] Ht. split; try done. by rewrite candidates_setIPv6Table. Qed.

Lemma commitAddress_Address_candidate p a id id' a' :
  pool_ok p → Addr_IsValid a = true → a ∈ candidates p →
  pt_Address (commitAddress (ip_ipv4 p) a id) !! id' = Some a' → a' ∈ candidates p.
Proof.
  intros Hok Hv Ha. rewrite commitAddress_Address by (done || apply Hok).
  repeat case_decide; intros H'; simplify_eq; try done. by apply (po_sticky _ Hok id').
Qed.

Lemma candidate6_is6 p a : pool_ok p → candidate6 p a → ∃ v, a = Addr6 v.
Proof.
  intros Hok (pre & Hpre & Hc & _). pose proof (po_prefix6 _ Hok pre Hpre) as H6.
  unfold prefix_Contains in Hc. destruct (prefix_Addr pre), a; try done; eauto.
Qed.

Lemma candidates_is4 p a : pool_ok p → HasIPv4 p = true → a ∈ candidates p → ∃ v, a = Addr4 v.
Proof.
  intros Hok H4 Ha. destruct (po_bounds _ Hok H4) as (s & e & Hs & He & Hse & Hlt).
  apply list_elem_of_fmap in Ha as (l & -> & Hl).
  destruct (visitIPv4Leases_spec p l s e (po_topology _ Hok) Hs He Hse Hlt Hl) as (_ & _ & v & -> & _). eauto.
Qed.

Lemma AllocateIPv4_configured p id l p' : AllocateIPv4ForIdentity p id = (Ok l, p') → HasIPv4 p = true.
Proof. unfold AllocateIPv4ForIdentity. by destruct (HasIPv4 p). Qed.

Lemma poolStep_AllocateIPv4 p live id : run_ok (p, live) → run_ok (poolStep (p, live) (OpAllocateIPv4 id)).
Proof.
  intros [Hok Htm Hnd Hlive Hused]. cbn in *. destruct (AllocateIPv4ForIdentity p id) as [[l | e] p'] eqn:Hal.
  - pose proof (AllocateIPv4_configured _ _ _ _ Hal) as H4.
    apply AllocateIPv4_ok in Hal as (Hl & Hfree & -> & _); [| done..].
    pose proof (list_elem_of_fmap_2 lease_Client _ _ Hl) as Hc. fold (candidates p) in Hc.
    destruct (candidates_is4 p _ Hok H4 Hc) as [v Hv].
    assert (Addr_IsValid (lease_Client l) = true) by by rewrite Hv.
    unfold commitIPv4Lease. split; cbn.
    + apply pool_ok_setIPv4Table; [done | apply commitAddress_ok; [apply Hok | done] |].
      intros id' a'. by apply commitAddress_Address_candidate.
    + by apply commitAddress_times.
    + apply NoDup_cons_2; [| done]. intros Hin. apply Hlive in Hin. rewrite Hv in Hin, Hfree. by destruct Hin.
    + intros a Ha. unfold live_ok. rewrite candidates_setIPv4Table. cbn. rewrite commitAddress_UsedSet.
      apply elem_of_cons in Ha as [-> | Ha].
      * rewrite Hv in *. split; [set_solver | done].
      * specialize (Hlive a Ha). destruct a; [done | | done]. destruct Hlive as (? & ? & ?). split; [set_solver | done].
    + intros a. rewrite commitAddress_UsedSet, elem_of_cons, elem_of_union, elem_of_singleton.
      intros [-> | Ha]; [by rewrite Hv; auto | destruct (Hused a Ha); auto].
  - apply AllocateIPv4_err in Hal as [-> _]; done.
Qed.

Lemma poolStep_AllocateIPv6 p live id : run_ok (p, live) → run_ok (poolStep (p, live) (OpAllocateIPv6 id)).
Proof.
  intros [Hok Htm Hnd Hlive Hused]. cbn in *. destruct (AllocateIPv6ForIdentity p id) as [[a | e] p'] eqn:Hal.
  - apply AllocateIPv6_ok in Hal as (Hc & Hfree & ->).
    destruct (candidate6_is6 p a Hok Hc) as [v ->].
    unfold commitIPv6Address. split; cbn.
    + apply pool_ok_setIPv6Table; [done |]. apply commitAddress_ok; [apply Hok | done].
    + done.
    + apply NoDup_cons_2; [| done]. intros Hin. apply Hlive in Hin. by destruct Hin.
    + intros a Ha. unfold live_ok. rewrite candidates_setIPv6Table. cbn. rewrite commitAddress_UsedSet.
      apply elem_of_cons in Ha as [-> | Ha]; [split; [set_solver | done] |].
      specialize (Hlive a Ha). destruct a; [done | done |]. destruct Hlive. split; [set_solver | done].
    + intros a Ha. destruct (Hused a Ha). split; [by right | done].
  - apply AllocateIPv6_err in Hal as ->. done.
Qed.

Lemma poolStep_Release p live a now :
  0 ≤ now → run_ok (p, live) → run_ok (poolStep (p, live) (OpRelease a now)).
Proof.
  intros Hn [Hok Htm Hnd Hlive Hused]. cbn in *. unfold Release.
  assert (NoDup (filter (λ x, x ≠ a) live)) by by apply NoDup_filter.
  assert (Hl : ∀ x, x ∈ filter (λ x, x ≠ a) live → x ≠ a ∧ live_ok p x).
  { intros x Hx. apply list_elem_of_filter in Hx as [? ?]. auto. }
  destruct (Addr_IsValid a) eqn:Hval; cbn; [destruct (Is4 a) eqn:H4 |]; split; cbn; try done.
  - apply pool_ok_setIPv4Table; [done | apply releaseAddress_ok, Hok |]. apply Hok.
  - by apply releaseAddress_times.
  - intros x Hx. destruct (Hl x Hx) as [Hxa Hlx]. unfold live_ok in *. rewrite candidates_setIPv4Table. cbn.
    destruct x; [done | | done]. destruct Hlx as (? & ? & ?). split; [set_solver | done].
  - intros x Hx. rewrite list_elem_of_filter. set_solver.
  - apply pool_ok_setIPv6Table; [done | apply releaseAddress_ok, Hok].
  - intros x Hx. destruct (Hl x Hx) as [Hxa Hlx]. unfold live_ok in *. rewrite candidates_setIPv6Table. cbn.
    destruct x; [done | done |]. destruct Hlx. split; [set_solver | done].
  - intros x Hx. destruct (Hused x Hx) as [Hin Hx4]. rewrite list_elem_of_filter. split_and!; [| done | done].
    intros ->. congruence.
  - intros x Hx. by destruct (Hl x Hx).
  - intros x Hx. destruct (Hused x Hx) as [Hin Hx4]. rewrite list_elem_of_filter. split_and!; [| done | done].
    intros ->. by destruct a.
Qed.

Lemma poolRun_ok st ops : Forall op_ok ops → run_ok st → run_ok (poolRun st ops).
Proof.
  intros Hops. revert st. induction Hops as [| op ops Hop _ IH]; intros st Hst; [done |].
  apply (IH (poolStep st op)). destruct st as [p live], op.
  - by apply poolStep_AllocateIPv4.
  - by apply poolStep_AllocateIPv6.
  - by apply poolStep_Release.
Qed.

(** ** The configured pool *)

Lemma lastIPv4InPrefix_value n b :
  0 ≤ b < 32 → 0 ≤ n < 2 ^ 32 → n mod 2 ^ (32 - b) = 0 →
  lastIPv4InPrefix (mkPrefix (Addr4 n) b) = Addr4 (n + 2 ^ (32 - b) - 1).
Proof.
  intros Hb Hn Hm. unfold lastIPv4InPrefix. cbn. unfold maskValue. rewrite Hm, Z.sub_0_r.
  destruct (Z.leb_spec (32 - b) 0); [lia |]. f_equal. rewrite Z.shiftl_1_l.
  destruct (decide (b = 0)) as [-> | Hb0]; [change (2 ^ (32 - 0)) with (2 ^ 32) in *; change (u32 (u32 (2 ^ 32) - 1)) with (2 ^ 32 - 1) |].
  - rewrite Z.mod_small in Hm by lia. subst n. done.
  - assert (1 < 2 ^ (32 - b)) by (apply Z.pow_gt_1; lia).
    assert (2 ^ (32 - b) ≤ 2 ^ 31) by (apply Z.pow_le_mono_r; lia).
    rewrite (u32_small (2 ^ (32 - b))), u32_small by lia.
    rewrite <- Z.add_nocarry_lor; [lia |].
    replace (2 ^ (32 - b) - 1) with (Z.ones (32 - b)) by (rewrite Z.ones_equiv; lia).
    rewrite Z.land_ones by lia. done.
Qed.

(** What [configureIPv4] establishes, [n] the network and [h] the host bits. *)
Definition range_ok (p : ipPool) : Prop :=
  HasIPv4 p = true →
  ∃ n b s e, ip_ipv4Prefix p = Some (mkPrefix (Addr4 n) b) ∧
    ip_ipv4Start p = Addr4 s ∧ ip_ipv4End p = Addr4 e ∧ 16 ≤ b ≤ 29 ∧
    0 ≤ n ∧ n mod 2 ^ (32 - b) = 0 ∧ n + 2 ^ (32 - b) ≤ 2 ^ 32 ∧
    n + 2 ≤ s ≤ e ∧ e ≤ n + 2 ^ (32 - b) - 1.

Lemma mask_facts n b : 0 ≤ b ≤ 32 → 0 ≤ n < 2 ^ 32 →
  let m := maskValue 32 b n in
  0 ≤ m ≤ n ∧ m mod 2 ^ (32 - b) = 0 ∧ m + 2 ^ (32 - b) ≤ 2 ^ 32.
Proof.
  intros Hb Hn. cbv zeta. pose proof (maskValue_le 32 b n ltac:(lia) ltac:(lia)).
  assert (0 < 2 ^ (32 - b)) by (apply Z.pow_pos_nonneg; lia).
  assert (Hq : maskValue 32 b n = n / 2 ^ (32 - b) * 2 ^ (32 - b)).
  { unfold maskValue. pose proof (Z.div_mod n (2 ^ (32 - b)) ltac:(lia)). lia. }
  split_and!; [lia | lia | by rewrite Hq, Z.mod_mul by lia |].
  rewrite Hq. assert (2 ^ 32 = 2 ^ b * 2 ^ (32 - b)) as -> by (rewrite <- Z.pow_add_r by lia; f_equal; lia).
  assert (n / 2 ^ (32 - b) < 2 ^ b).
  { apply Z.div_lt_upper_bound; [lia |]. rewrite <- Z.pow_add_r by lia. replace (32 - b + b) with 32 by lia. lia. }
  nia.
Qed.

Lemma configureIPv4_ok p n b p' :
  topology_ok p → 0 ≤ n → n mod 2 ^ (32 - b) = 0 → n + 2 ^ (32 - b) ≤ 2 ^ 32 →
  configureIPv4 p (mkPrefix (Addr4 n) b) = Ok p' →
  range_ok p' ∧ ip_ipv4Topology p' = ip_ipv4Topology p ∧ ip_ipv4 p' = ip_ipv4 p ∧ ip_ipv6 p' = ip_ipv6 p ∧
  ip_ipv6Prefix p' = ip_ipv6Prefix p.
Proof.
  intros Htop Hn Hm Hlt. unfold configureIPv4. cbn [prefix_Bits].
  destruct ((b <? 16) || (29 <? b)) eqn:Hb; [done |]. apply orb_false_iff in Hb as [Hb1 Hb2].
  apply Z.ltb_ge in Hb1, Hb2.
  assert (8 ≤ 2 ^ (32 - b)) by (change 8 with (2 ^ 3); apply Z.pow_le_mono_r; lia).
  assert (2 ^ (32 - b) ≤ 2 ^ 16) by (apply Z.pow_le_mono_r; lia).
  rewrite lastIPv4InPrefix_value by lia. cbn [prefix_Masked prefix_Addr prefix_Bits].
  unfold maskValue. rewrite Hm, Z.sub_0_r.
  assert (Hfin : ∀ s e, n + 2 ≤ s → e ≤ n + 2 ^ (32 - b) - 1 → 
    Addr_le (Addr4 s) (Addr4 e) = true →
    range_ok (mkPool (Some (mkPrefix (Addr4 n) b)) (ip_ipv4Topology p) (Addr_Next (Addr4 n)) (Addr4 s) (Addr4 e)
      (ip_ipv4 p) (ip_ipv6Prefix p) (ip_ipv6Server p) (ip_ipv6 p))).
  { intros s e Hs He Hle _. rewrite Addr_le_4, Z.leb_le in Hle.
    exists n, b, s, e. cbn. split_and!; try done; lia. }
  assert (Hres : ∃ s e, (if decide (ip_ipv4Topology p = ipv4TopologySubnet)
      then (addIPv4 (Addr4 n) 2, addIPv4 (Addr4 (n + 2 ^ (32 - b) - 1)) (-1))
      else if decide (ip_ipv4Topology p = ipv4TopologyP2P ∨ ip_ipv4Topology p = ipv4TopologyNet30)
      then (addIPv4 (Addr4 n) 4,
            addIPv4 (Addr4 (n + 2 ^ (32 - b) - 1)) (- (if b =? 29 then 0 else 4)))
      else (ip_ipv4Start p, ip_ipv4End p)) = (Addr4 s, Addr4 e) ∧ n + 2 ≤ s ∧ e ≤ n + 2 ^ (32 - b) - 1).
  { destruct (decide (ip_ipv4Topology p = ipv4TopologySubnet)) as [|Hns].
    - rewrite !addIPv4_4 by lia. eexists _, _. split; [done | lia].
    - rewrite decide_True by (destruct Htop; tauto).
      destruct (b =? 29); rewrite !addIPv4_4 by lia; eexists _, _; (split; [done | lia]). }
  destruct Hres as (s & e & -> & Hs & He). cbn [Addr_IsValid negb orb].
  destruct (Addr_le (Addr4 s) (Addr4 e)) eqn:Hle; cbn [negb]; [| done]. intros [= <-].
  split_and!; [by apply Hfin | done..].
Qed.

(** A pool no client has used yet. *)
Record fresh_ok (p : ipPool) : Prop := mk_fresh_ok {
  fo_topology : topology_ok p;
  fo_range : range_ok p;
  fo_ipv4 : ip_ipv4 p = emptyTable;
  fo_ipv6 : pt_Address (ip_ipv6 p) = ∅ ∧ pt_Identity (ip_ipv6 p) = ∅;
  fo_prefix6 : ∀ pre, ip_ipv6Prefix p = Some pre → Is6 (prefix_Addr pre) = true;
}.

Definition prefixes_wf (l : list (option prefix)) : Prop := ∀ pre, Some pre ∈ l → prefix_wf pre.

Lemma configureIPv4Pools_ok p pools p' :
  prefixes_wf pools → fresh_ok p → configureIPv4Pools p pools = Ok p' → fresh_ok p'.
Proof.
  revert p. induction pools as [| [pre |] pools IH]; intros p Hwf Hp; cbn [configureIPv4Pools].
  - by intros [= <-].
  - assert (Hwf' : prefixes_wf pools) by (intros q Hq; apply Hwf; by right).
    destruct (_ || _) eqn:Hskip; [by apply IH |]. apply orb_false_iff in Hskip as [H4 _].
    destruct (Hwf pre ltac:(by left)) as [Hv Hb]. destruct pre as [[| v | v] b]; cbn in H4; try done. cbn in Hv, Hb.
    pose proof (mask_facts v b Hb Hv) as Hmask. cbv zeta in Hmask.
    cbn [prefix_Masked prefix_Addr prefix_Bits]. set (m := maskValue 32 b v) in *.
    destruct (configureIPv4 p _) as [q |] eqn:Hc; cbn; [| done]. apply IH; [done |].
    destruct Hp as [Ht Hr H4' H6 Hp6].
    apply configureIPv4_ok in Hc as (Hr' & Ht' & Hq4 & Hq6 & Hq6p);
      [| done | destruct Hmask as ([??] & ? & ?); done..].
    split; [unfold topology_ok in *; by rewrite Ht' | done | by rewrite Hq4 | by rewrite Hq6 | by rewrite Hq6p].
  - apply IH; [| done]. intros q Hq. apply Hwf. by right.
Qed.

Lemma configureIPv6Pools_ok p pools : fresh_ok p → fresh_ok (configureIPv6Pools p pools).
Proof.
  revert p. induction pools as [| [pre |] pools IH]; intros p Hp; cbn [configureIPv6Pools]; [done | | by apply IH].
  destruct (_ || _) eqn:Hskip; [by apply IH |]. apply orb_false_iff in Hskip as [H6 _]. apply negb_false_iff in H6.
  apply IH. destruct Hp as [Ht Hr H4' H6' Hp6]. split; try done. by intros q [= <-].
Qed.

Lemma newIPPool_ok pools topo p : prefixes_wf pools → newIPPool pools topo = Ok p → fresh_ok p.
Proof.
  intros Hwf. unfold newIPPool, resolveIPv4PoolTopology.
  assert (Hgo : ∀ t, t = ipv4TopologySubnet ∨ t = ipv4TopologyP2P ∨ t = ipv4TopologyNet30 →
    (pool ← configureIPv4Pools (mkPool None t AddrInvalid AddrInvalid AddrInvalid emptyTable
                None AddrInvalid emptyTable) pools; Ok (configureIPv6Pools pool pools)) = Ok p → fresh_ok p).
  { intros t Ht. destruct (configureIPv4Pools _ pools) as [q |] eqn:Hq; cbn; [| done]. intros [= <-].
    apply configureIPv6Pools_ok. eapply configureIPv4Pools_ok; [done | | done]. by split. }
  destruct (decide (topo = ""%string)); [| destruct (decide _) as [Ht |]; [| done]]; cbn [mbind result_bind]; apply Hgo; auto.
Qed.

Lemma SetServerIPv4_fresh p a p' : fresh_ok p → SetServerIPv4 p a = Ok p' → fresh_ok p'.
Proof.
  intros Hp. unfold SetServerIPv4. destruct (negb (Addr_IsValid a)); [by intros [= <-] |].
  repeat (match goal with |- context [if ?b then _ else _] => destruct b end; try done).
  all: intros [= <-]; destruct Hp; by split.
Qed.

Lemma SetServerIPv6_fresh p a p' : fresh_ok p → SetServerIPv6 p a = Ok p' → fresh_ok p'.
Proof.
  intros Hp. unfold SetServerIPv6. destruct (negb (Addr_IsValid a)); [by intros [= <-] |].
  repeat (match goal with |- context [if ?b then _ else _] => destruct b end; try done).
  all: intros [= <-]; destruct Hp; by split.
Qed.

Lemma prepareServerDataPlane_fresh pools topo local p :
  prefixes_wf pools → prepareServerDataPlane pools topo local = Ok (Some p) → fresh_ok p.
Proof.
  intros Hwf. unfold prepareServerDataPlane. destruct (newIPPool pools topo) as [q |] eqn:Hq; cbn; [| done].
  apply newIPPool_ok in Hq; [| done].
  destruct (_ && _); [done |].
  destruct (if HasIPv4 q then _ else _) as [q4 |] eqn:H4; cbn; [| done].
  assert (fresh_ok q4).
  { destruct (HasIPv4 q); [destruct (firstPrefixByFamily local true); [by eapply SetServerIPv4_fresh |] |]; by injection H4 as <-. }
  destruct (if HasIPv6 q4 then _ else _) as [q6 |] eqn:H6; cbn; [| done]. intros [= <-].
  destruct (HasIPv6 q4); [destruct (firstPrefixByFamily local false); [eapply (SetServerIPv6_fresh q4); [done | exact H6] |] |]; by injection H6 as <-.
Qed.

Lemma range_bounds p : range_ok p → HasIPv4 p = true → bounds_ok p.
Proof. intros Hr H4. destruct (Hr H4) as (n & b & s & e & ?). exists s, e. split_and!; tauto || lia. Qed.

Lemma fresh_run_ok p : fresh_ok p → run_ok (p, []).
Proof.
  intros [Ht Hr H4 [H6a H6i] Hp6]. split; cbn.
  - split; try done.
    + rewrite H4. apply emptyTable_ok.
    + split; rewrite ?H6a, ?H6i; intros *; rewrite ?lookup_empty; done.
    + by apply range_bounds.
    + intros id a. rewrite H4. cbn. by rewrite lookup_empty.
  - rewrite H4. done.
  - constructor.
  - intros a Ha. by apply elem_of_nil in Ha.
  - rewrite H4. intros a Ha. by apply elem_of_empty in Ha.
Qed.

Lemma prepare_run_ok pools topo local p ops :
  prefixes_wf pools → prepareServerDataPlane pools topo local = Ok (Some p) → Forall op_ok ops →
  run_ok (poolRun (p, []) ops).
Proof.
  intros Hwf Hp Hops. apply poolRun_ok; [done |]. apply fresh_run_ok. by eapply prepareServerDataPlane_fresh.
Qed.

(** The configuration does not change over a run. *)
Definition sameConfig (p q : ipPool) : Prop :=
  ip_ipv4Prefix p = ip_ipv4Prefix q ∧ ip_ipv4Topology p = ip_ipv4Topology q ∧ ip_ipv4Server p = ip_ipv4Server q ∧
  ip_ipv4Start p = ip_ipv4Start q ∧ ip_ipv4End p = ip_ipv4End q ∧ ip_ipv6Prefix p = ip_ipv6Prefix q ∧
  ip_ipv6Server p = ip_ipv6Server q.

#[export] Instance sameConfig_equivalence : Equivalence sameConfig.
Proof. split; [by intros p | intros p q; unfold sameConfig; naive_solver | intros p q r; unfold sameConfig; intuition congruence]. Qed.

Lemma poolStep_config st op : sameConfig (poolStep st op).1 st.1.
Proof.
  destruct st as [p live], op as [id | id | a now]; cbn [poolStep fst].
  - unfold AllocateIPv4ForIdentity. destruct (negb _); [done |]. destruct (snd _); [done |].
    by destruct (findAvailableIPv4Lease p id false) as [? []].
  - unfold AllocateIPv6ForIdentity. destruct (ip_ipv6Prefix p) as [pre |]; [| done]. destruct (snd _); [done |].
    by destruct (findAvailableIPv6Address p pre id false) as [? []].
  - unfold Release. destruct (negb _); [done |]. by destruct (Is4 a).
Qed.

Lemma poolRun_config st ops : sameConfig (poolRun st ops).1 st.1.
Proof.
  revert st. induction ops as [| op ops IH]; intros st; [done |].
  change (poolRun st (op :: ops)) with (poolRun (poolStep st op) ops).
  etrans; [apply IH | apply poolStep_config].
Qed.

(** An address within the block of a network has the network's prefix. *)
Lemma maskValue_network n b v :
  0 ≤ b ≤ 32 → n mod 2 ^ (32 - b) = 0 → n ≤ v < n + 2 ^ (32 - b) → maskValue 32 b n = maskValue 32 b v.
Proof.
  intros Hb Hm Hv. unfold maskValue. rewrite Hm.
  assert (v mod 2 ^ (32 - b) = v - n); [| lia].
  symmetry. apply (Z.mod_unique _ _ (n / 2 ^ (32 - b))); [lia |].
  pose proof (Z.div_mod n (2 ^ (32 - b)) ltac:(lia)). lia.
Qed.

(** ** The theorems *)

(** Whatever allocations and releases the server makes on the pool it
    configured, for whatever identities, no address is held by two clients at
    once, and every address held is inside the configured network, is not the
    network's own address and is not the server's. *)
Theorem live_addresses_distinct pools topo local p ops :
  prefixes_wf pools → prepareServerDataPlane pools topo local = Ok (Some p) → Forall op_ok ops →
  let live := (poolRun (p, []) ops).2 in
  NoDup live ∧
  ∀ a, a ∈ live →
    (∃ pre, ip_ipv4Prefix p = Some pre ∧ prefix_Contains pre a = true ∧ a ≠ prefix_Addr pre ∧ a ≠ ip_ipv4Server p) ∨
    (∃ pre, ip_ipv6Prefix p = Some pre ∧ prefix_Contains pre a = true ∧ a ≠ ip_ipv6Server p).
Proof.
  intros Hwf Hp Hops. cbv zeta. pose proof (prepare_run_ok _ _ _ _ ops Hwf Hp Hops) as [Hok _ Hnd Hlive _].
  split; [done |]. intros a Ha. specialize (Hlive a Ha).
  pose proof (poolRun_config (p, []) ops) as (E4p & Et & E4 & Es & Ee & E6p & E6s).
  set (q := (poolRun (p, []) ops).1) in *. cbn [fst] in *.
  destruct a as [| v | v]; [done | left | right].
  - destruct Hlive as (_ & H4 & Hc). assert (H4p : HasIPv4 p = true) by (unfold HasIPv4; by rewrite <- E4p).
    destruct (fo_range _ (prepareServerDataPlane_fresh _ _ _ _ Hwf Hp) H4p)
      as (n & b & s & e & Hpre & Hs & He & Hb & Hn & Hm & Hlt & Hse & Hend).
    apply list_elem_of_fmap in Hc as (l & Hv & Hl).
    apply (visitIPv4Leases_spec q l s e) in Hl as (_ & Hns & v' & Hv' & Hr);
      [| apply Hok | congruence | congruence | lia | lia].
    rewrite Hv' in Hv. injection Hv as <-. exists (mkPrefix (Addr4 n) b). split_and!; [done | | | congruence].
    + unfold prefix_Contains; cbn. apply Z.eqb_eq. apply maskValue_network; lia.
    + cbn. intros [= ->]. lia.
  - destruct Hlive as [_ (pre & Hpre & Hcon & Hs)]. exists pre. rewrite <- E6p, <- E6s. done.
Qed.

Lemma live_addresses_distinct_witness :
  let pools := [Some (mkPrefix (Addr4 (10 * 2 ^ 24)) 29)] in
  ∃ p, prepareServerDataPlane pools "subnet" [] = Ok (Some p) ∧
  let ops := [OpAllocateIPv4 "alice"; OpAllocateIPv4 "bob"; OpRelease (Addr4 (10 * 2 ^ 24 + 2)) 7; OpAllocateIPv4 ""] in
  (poolRun (p, []) ops).2 = [Addr4 (10 * 2 ^ 24 + 2); Addr4 (10 * 2 ^ 24 + 3)] ∧
  NoDup (poolRun (p, []) ops).2.
Proof.
  eexists. split; [vm_compute; reflexivity |]. split; [vm_compute; reflexivity |].
  refine (proj1 (live_addresses_distinct [Some (mkPrefix (Addr4 (10 * 2 ^ 24)) 29)] "subnet" [] _ _ _ _ _)).
  - intros pre Hpre. apply list_elem_of_singleton in Hpre as [= ->]. split; cbn; lia.
  - vm_compute. reflexivity.
  - repeat first [apply Forall_nil_2 | apply Forall_cons_2]; cbn; lia || done.
Defined.

(** The addresses a client can be given: in the range of the pool, beside the
    server; with [net30] the third of each block of four, its second being the
    peer. *)
Definition allocatable (p : ipPool) (v : Z) : Prop :=
  let s := addrValue (ip_ipv4Start p) in
  let e := addrValue (ip_ipv4End p) in
  if decide (ip_ipv4Topology p = ipv4TopologyNet30)
  then s + 2 ≤ v ≤ e ∧ (v - s) mod 4 = 2 ∧ Addr4 v ≠ ip_ipv4Server p ∧ Addr4 (v - 1) ≠ ip_ipv4Server p
  else s ≤ v ≤ e ∧ Addr4 v ≠ ip_ipv4Server p.

Lemma candidates_allocatable p a :
  topology_ok p → bounds_ok p → a ∈ candidates p ↔ ∃ v, a = Addr4 v ∧ allocatable p v.
Proof.
  intros Htop (s & e & Hs & He & Hse & Hlt). unfold candidates, visitIPv4Leases, allocatable.
  rewrite Hs, He. cbn [addrValue].
  destruct (decide (ip_ipv4Topology p = ipv4TopologyNet30)) as [Ht | Ht].
  - rewrite decide_False by (rewrite Ht; intros [|]; done). rewrite list_elem_of_fmap.
    setoid_rewrite (λ l, elem_of_visitBlocks p e (Z.to_nat (e - s + 1)) s l He (proj1 Hse) Hlt ltac:(lia)). split.
    + intros (l & -> & k & Hk & Hke & -> & Hn). exists (s + 4 * k + 2). split; [done |]. cbn in Hn.
      replace (s + 4 * k + 2 - 1) with (s + 4 * k + 1) by lia.
      replace (s + 4 * k + 2 - s) with (2 + k * 4) by lia. rewrite Z.mod_add by lia. split_and!; lia || tauto.
    + intros (v & -> & Hv & Hm & Hn1 & Hn2). pose proof (Z.div_mod (v - s) 4 ltac:(lia)) as Hd. rewrite Hm in Hd.
      assert (Hv' : s + 4 * ((v - s) / 4) + 2 = v) by lia.
      exists (mkLease (Addr4 v) (Addr4 (v - 1))). split; [done |]. exists ((v - s) / 4). rewrite Hv'.
      replace (s + 4 * ((v - s) / 4) + 1) with (v - 1) by lia. split_and!; done || lia.
  - rewrite decide_True by (destruct Htop as [|[|]]; tauto).
    rewrite (elem_of_visitAddresses p e) by (done || lia). split; intros (v & -> & ?); exists v; tauto.
Qed.

(** An IPv4 allocation on a pool the server is running fails only with
    [ErrIPPoolExhausted], and exactly when every allocatable address of the
    network is held by a client: nothing leaks, whatever was released before. *)
Theorem AllocateIPv4_fails_iff_exhausted pools topo local p ops id :
  prefixes_wf pools → prepareServerDataPlane pools topo local = Ok (Some p) → Forall op_ok ops →
  HasIPv4 p = true →
  let '(p', live) := poolRun (p, []) ops in
  ((AllocateIPv4ForIdentity p' id).1 = Err ErrIPPoolExhausted ↔ ∀ v, allocatable p v → Addr4 v ∈ live) ∧
  ((∃ e, (AllocateIPv4ForIdentity p' id).1 = Err e) → (AllocateIPv4ForIdentity p' id).1 = Err ErrIPPoolExhausted).
Proof.
  intros Hwf Hp Hops H4. pose proof (prepare_run_ok _ _ _ _ ops Hwf Hp Hops) as [Hok Htm _ Hlive Hused].
  pose proof (poolRun_config (p, []) ops) as (E4p & Et & E4 & Es & Ee & _ & _).
  destruct (poolRun (p, []) ops) as [q live]. cbn [fst snd] in *.
  assert (H4q : HasIPv4 q = true) by (unfold HasIPv4; by rewrite E4p).
  pose proof (candidates_allocatable q) as Hcand.
  assert (Hall : ∀ v, allocatable q v ↔ allocatable p v) by (intros v; unfold allocatable; by rewrite Et, E4, Es, Ee).
  destruct (AllocateIPv4ForIdentity q id) as [[l | e] q'] eqn:Hal; cbn [fst].
  - pose proof (AllocateIPv4_ok _ _ _ _ Hok Htm Hal) as (Hl & Hfree & _). split; [| by intros [? [=]]].
    split; [done |]. intros Hfull. exfalso.
    pose proof (list_elem_of_fmap_2 lease_Client _ _ Hl) as Hc.
    apply (candidates_allocatable q) in Hc as (v & Hv & Hav); [| apply Hok | by apply Hok].
    apply Hall, Hfull, Hlive in Hav. rewrite Hv in Hfree. by destruct Hav.
  - apply AllocateIPv4_err in Hal as [-> Herr]; [| done..]. destruct (Herr H4q) as [-> Hfull].
    split; [| done]. split; [| done]. intros _ v Hv. apply Hall in Hv.
    assert (Hc : Addr4 v ∈ candidates q) by (apply Hcand; [apply Hok | by apply Hok | by eauto]).
    apply list_elem_of_fmap in Hc as (l & -> & Hl). by apply Hused, Hfull.
Qed.

Lemma AllocateIPv4_fails_iff_exhausted_witness :
  let pools := [Some (mkPrefix (Addr4 (10 * 2 ^ 24)) 29)] in
  ∃ p, prepareServerDataPlane pools "net30" [] = Ok (Some p) ∧
  let '(p', live) := poolRun (p, []) [OpAllocateIPv4 "alice"] in
  (AllocateIPv4ForIdentity p' "bob").1 = Err ErrIPPoolExhausted ∧ ∀ v, allocatable p v → Addr4 v ∈ live.
Proof.
  eexists. split; [vm_compute; reflexivity |].
  pose proof (AllocateIPv4_fails_iff_exhausted [Some (mkPrefix (Addr4 (10 * 2 ^ 24)) 29)] "net30" []
    (mkPool (Some (mkPrefix (Addr4 167772160) 29)) "net30" (Addr4 167772161) (Addr4 167772164) (Addr4 167772167)
       emptyTable None AddrInvalid emptyTable) [OpAllocateIPv4 "alice"] "bob") as H.
  specialize (H ltac:(intros pre Hpre; apply list_elem_of_singleton in Hpre as [= ->]; split; cbn; lia)
    ltac:(vm_compute; reflexivity) ltac:(repeat constructor) eq_refl).
  assert (E : (AllocateIPv4ForIdentity (poolRun (mkPool (Some (mkPrefix (Addr4 167772160) 29)) "net30" (Addr4 167772161) (Addr4 167772164) (Addr4 167772167)
       emptyTable None AddrInvalid emptyTable, []) [OpAllocateIPv4 "alice"]).1 "bob").1 = Err ErrIPPoolExhausted)
    by (vm_compute; reflexivity).
  destruct (poolRun _ _) as [p' live]. split; [exact E |]. by apply (proj1 H).
Defined.

(** ** Sticky addresses *)

(** Along [ops], [a] is not handed out (it may be released), and [id] is not
    allocated for. *)
Fixpoint undisturbed (st : ipPool * list Addr) (id : string) (a : Addr) (ops : list poolOp) : Prop :=
  match ops with
  | [] => True
  | op :: ops =>
      op ≠ OpAllocateIPv4 id ∧ (a ∈ (poolStep st op).2 → a ∈ st.2) ∧ undisturbed (poolStep st op) id a ops
  end.

Lemma poolStep_keeps_address st op id a :
  run_ok st → op ≠ OpAllocateIPv4 id → (a ∈ (poolStep st op).2 → a ∈ st.2) →
  pt_Address (ip_ipv4 st.1) !! id = Some a → pt_Address (ip_ipv4 (poolStep st op).1) !! id = Some a.
Proof.
  destruct st as [p live]. intros [Hok Htm Hnd Hlive Hused] Hne Hkeep Ha. cbn [fst snd] in *.
  destruct op as [id' | id' | a' now]; cbn [poolStep fst snd] in *.
  - destruct (AllocateIPv4ForIdentity p id') as [[l | e] p'] eqn:Hal; cbn [fst snd] in *.
    + pose proof (AllocateIPv4_configured _ _ _ _ Hal) as H4.
      apply AllocateIPv4_ok in Hal as (Hl & Hfree & -> & _); [| done..].
      pose proof (candidates_valid p l (po_topology _ Hok) (po_bounds _ Hok H4) Hl) as Hv.
      cbn. rewrite commitAddress_Address by (done || apply Hok).
      rewrite decide_False by (intros [-> _]; done). rewrite decide_False; [done |].
      intros Hi. apply (to_inverse _ (po_ipv4 _ Hok)) in Hi. rewrite Ha in Hi. injection Hi as ->.
      assert (Hin : lease_Client l ∈ live) by (apply Hkeep; by left). apply Hlive in Hin.
      destruct (lease_Client l); [done | by destruct Hin | ].
      destruct (po_bounds _ Hok H4) as (s & e & Hs & He & Hse & Hlt).
      apply (po_sticky _ Hok) in Ha. by apply (candidates_is4 p _ Hok H4) in Ha as [? [=]].
    + apply AllocateIPv4_err in Hal as [-> _]; done.
  - destruct (AllocateIPv6ForIdentity p id') as [[b | e] p'] eqn:Hal; cbn [fst].
    + by apply AllocateIPv6_ok in Hal as (_ & _ & ->).
    + by apply AllocateIPv6_err in Hal as ->.
  - unfold Release. by repeat case_match.
Qed.

Lemma poolRun_keeps_address st ops id a :
  run_ok st → Forall op_ok ops → undisturbed st id a ops →
  pt_Address (ip_ipv4 st.1) !! id = Some a → pt_Address (ip_ipv4 (poolRun st ops).1) !! id = Some a.
Proof.
  intros Hst Hops. revert st Hst. induction Hops as [| op ops Hop Hops IH]; intros st Hst Hun Ha; [done |].
  destruct Hun as (Hne & Hkeep & Hun). change (poolRun st (op :: ops)) with (poolRun (poolStep st op) ops).
  apply IH; [| done | by apply poolStep_keeps_address].
  apply (poolRun_ok st [op]); [by constructor | done].
Qed.

(** An identity that was given an address gets the same lease back when it
    returns, however much the server allocated and released in between, as long
    as that address was not handed to somebody else. *)
Theorem AllocateIPv4_sticky pools topo local p ops1 ops2 id l :
  prefixes_wf pools → prepareServerDataPlane pools topo local = Ok (Some p) →
  Forall op_ok ops1 → Forall op_ok ops2 → id ≠ ""%string →
  (AllocateIPv4ForIdentity (poolRun (p, []) ops1).1 id).1 = Ok l →
  let st := poolStep (poolRun (p, []) ops1) (OpAllocateIPv4 id) in
  undisturbed st id (lease_Client l) ops2 →
  lease_Client l ∉ (poolRun st ops2).2 →
  (AllocateIPv4ForIdentity (poolRun st ops2).1 id).1 = Ok l.
Proof.
  intros Hwf Hp Hops1 Hops2 Hid Hal st Hun Hgone.
  pose proof (prepare_run_ok _ _ _ _ ops1 Hwf Hp Hops1) as H1.
  assert (Hst : run_ok st) by (apply (poolRun_ok _ [OpAllocateIPv4 id]); [by repeat constructor | done]).
  pose proof (poolRun_ok st ops2 Hops2 Hst) as Hend.
  destruct (poolRun (p, []) ops1) as [p1 live1]. cbn [fst] in Hal. destruct H1 as [Hok1 Htm1 _ _ _]. cbn in Hok1, Htm1.
  destruct (AllocateIPv4ForIdentity p1 id) as [r p1'] eqn:Ha1. cbn in Hal. subst r.
  pose proof (AllocateIPv4_configured _ _ _ _ Ha1) as H41.
  assert (Hst1 : st.1 = p1') by (subst st; cbn; by rewrite Ha1).
  apply AllocateIPv4_ok in Ha1 as (Hl & _ & -> & _); [| done..].
  pose proof (candidates_valid p1 l (po_topology _ Hok1) (po_bounds _ Hok1 H41) Hl) as Hv.
  assert (Hadr : pt_Address (ip_ipv4 (poolRun st ops2).1) !! id = Some (lease_Client l)).
  { apply poolRun_keeps_address; [done | done | done |]. rewrite Hst1. cbn.
    rewrite commitAddress_Address, decide_True by (done || apply Hok1). done. }
  assert (Hcfg : sameConfig (poolRun st ops2).1 p1).
  { etrans; [apply poolRun_config |]. by rewrite Hst1. }
  destruct Hcfg as (E4p & Et & E4 & _). 
  assert (Hlease : l = ipv4Lease p1 (lease_Client l)).
  { destruct (po_bounds _ Hok1 H41) as (s & e & Hs & He & Hse & Hlt).
    by destruct (visitIPv4Leases_spec p1 l s e (po_topology _ Hok1) Hs He Hse Hlt Hl). }
  unfold AllocateIPv4ForIdentity, HasIPv4. rewrite E4p. fold (HasIPv4 p1). rewrite H41. cbn [negb].
  rewrite decide_False by done. unfold findAvailableIPv4Lease at 1 2 3, addressOf. rewrite Hadr. cbn [from_option Datatypes.id].
  rewrite Hv. cbn [negb]. rewrite decide_False; cbn [snd fst].
  - f_equal. rewrite Hlease at 2. unfold ipv4Lease. by rewrite Et, E4.
  - intros Hu. by apply (ro_used _ Hend) in Hu as [? _].
Qed.

Lemma AllocateIPv4_sticky_witness :
  ∃ p l, (AllocateIPv4ForIdentity (poolRun (p, []) []).1 "alice").1 = Ok l ∧
  let st := poolStep (p, []) (OpAllocateIPv4 "alice") in
  let ops2 := [OpAllocateIPv4 "bob"; OpRelease (lease_Client l) 5; OpAllocateIPv4 "carol"] in
  (AllocateIPv4ForIdentity (poolRun st ops2).1 "alice").1 = Ok l.
Proof.
  set (pools := [Some (mkPrefix (Addr4 (10 * 2 ^ 24)) 24)]).
  eexists (mkPool (Some (mkPrefix (Addr4 167772160) 24)) "subnet" (Addr4 167772161) (Addr4 167772162) (Addr4 167772414)
       emptyTable None AddrInvalid emptyTable), (mkLease (Addr4 167772162) AddrInvalid).
  split; [vm_compute; reflexivity |].
  apply (AllocateIPv4_sticky pools "subnet" [] _ []).
  - intros pre Hpre. apply list_elem_of_singleton in Hpre as [= ->]. split; cbn; lia.
  - vm_compute. reflexivity.
  - constructor.
  - repeat first [apply Forall_nil_2 | apply Forall_cons_2]; cbn; lia || done.
  - done.
  - vm_compute. reflexivity.
  - cbn [undisturbed]. split_and!; try done; apply (bool_decide_unpack _); vm_compute; done.
  - apply (bool_decide_unpack _). vm_compute. done.
Defined.
