(* ===== verification/RouteRegistry.v ===== *)
(** * The server's peer routes ([peer_route_registry.go])

    The table from virtual addresses to peer sessions that forwards packets to
    clients and refuses packets with somebody else's source address.  A session
    pointer is its identity, [None] the nil pointer. *)

From S2P Require Import Prelude Netip.

Abbreviation session := (option Z) (only parsing).

Record peerRoute := mkRoute { pr_peerAddress : string; pr_session : session }.

Abbreviation peerRouteRegistry := (gmap Addr peerRoute) (only parsing).

(** The zero values fill the fields that are not set. *)
Record peerRouteLookup := mkLookup { pl_route : peerRoute; pl_destination : Addr; pl_found : bool }.
Record peerSourceOwnership := mkOwnership { po_sourceAddress : Addr; po_owned : bool }.

Definition newPeerRouteRegistry : peerRouteRegistry := ∅.

Definition Register (r : peerRouteRegistry) (address : Addr) (peerAddress : string) (s : session) : peerRouteRegistry :=
  if negb (Addr_IsValid address) || bool_decide (peerAddress = ""%string) then r
  else <[address := mkRoute peerAddress s]> r.

Definition Unregister (r : peerRouteRegistry) (address : Addr) : peerRouteRegistry :=
  if negb (Addr_IsValid address) then r else delete address r.

Definition AddrFrom4 (b : bytes) : Addr := Addr4 (be_decode b).
Definition AddrFrom16 (b : bytes) : Addr := Addr6 (be_decode b).

Definition sourceFromIPPacket (packet : bytes) : option Addr :=
  match packet with
  | [] => None
  | head :: _ =>
      match Z.shiftr (b2z head) 4 with
      | 4 =>
          if lenZ packet <? 20 then None else
          let headerLength := Z.land (b2z head) 15 * 4 in
          if (headerLength <? 20) || (lenZ packet <? headerLength) then None else
          let totalLength := be_decode (slice 2 4 packet) in
          if (totalLength <? headerLength) || negb (totalLength =? lenZ packet) then None else
          Some (AddrFrom4 (slice 12 16 packet))
      | 6 =>
          if lenZ packet <? 40 then None else
          let payloadLength := be_decode (slice 4 6 packet) in
          if negb (payloadLength =? lenZ packet - 40) then None else
          Some (AddrFrom16 (slice 8 24 packet))
      | _ => None
      end
  end.

Definition destinationFromIPPacket (packet : bytes) : option Addr :=
  match packet with
  | [] => None
  | head :: _ =>
      match Z.shiftr (b2z head) 4 with
      | 4 => if lenZ packet <? 20 then None else Some (AddrFrom4 (slice 16 20 packet))
      | 6 => if lenZ packet <? 40 then None else Some (AddrFrom16 (slice 24 40 packet))
      | _ => None
      end
  end.

Definition LookupPackets (r : peerRouteRegistry) (ipPackets : list bytes) : list peerRouteLookup :=
  (λ ipPacket,
    match destinationFromIPPacket ipPacket with
    | None => mkLookup (mkRoute "" None) AddrInvalid false
    | Some destination =>
        match r !! destination with
        | Some route => mkLookup route destination true
        | None => mkLookup (mkRoute "" None) destination false
        end
    end) <$> ipPackets.

Definition isLinkLocal (a : Addr) : bool := match a with Addr6 v => isLinkLocalUnicast6 v | _ => false end.

(** First pass: what can be owned at all; second pass, under the lock: by whom. *)
Definition candidateOwnership (s : session) (ipPacket : bytes) : peerSourceOwnership :=
  let sourceAddress := default AddrInvalid (sourceFromIPPacket ipPacket) in
  let parsed := bool_decide (is_Some (sourceFromIPPacket ipPacket)) in
  mkOwnership sourceAddress (parsed && bool_decide (s ≠ None) && negb (Is6 sourceAddress && isLinkLocal sourceAddress)).

Definition resolveOwnership (r : peerRouteRegistry) (s : session) (o : peerSourceOwnership) : peerSourceOwnership :=
  if negb (po_owned o) then o else
  mkOwnership (po_sourceAddress o)
    (match r !! po_sourceAddress o with
     | Some owner => bool_decide (pr_session owner = s)
     | None => false
     end).

Definition SourcesOwnedBy (r : peerRouteRegistry) (ipPackets : list bytes) (s : session) : list peerSourceOwnership :=
  let ownerships := candidateOwnership s <$> ipPackets in
  resolveOwnership r s <$> ownerships.

(** ** The registry as the history of its registrations *)

Inductive registryOp :=
| OpRegister (address : Addr) (peerAddress : string) (s : session)
| OpUnregister (address : Addr).

Definition registryStep (r : peerRouteRegistry) (op : registryOp) : peerRouteRegistry :=
  match op with
  | OpRegister address peerAddress s => Register r address peerAddress s
  | OpUnregister address => Unregister r address
  end.

Definition registryRun (ops : list registryOp) : peerRouteRegistry := foldl registryStep newPeerRouteRegistry ops.

(** The operations that concern [a]. *)
Definition concerns (a : Addr) (op : registryOp) : bool :=
  match op with
  | OpRegister address peerAddress _ =>
      bool_decide (address = a) && Addr_IsValid address && negb (bool_decide (peerAddress = ""%string))
  | OpUnregister address => bool_decide (address = a) && Addr_IsValid address
  end.

Definition owner (a : Addr) (ops : list registryOp) : option (string * session) :=
  match last (filter (λ op, concerns a op = true) ops) with
  | Some (OpRegister _ peerAddress s) => Some (peerAddress, s)
  | _ => None
  end.

Lemma registryRun_owner ops a :
  registryRun ops !! a = (λ '(peer, s), mkRoute peer s) <$> owner a ops.
Proof.
  unfold registryRun. induction ops as [| op ops IH] using rev_ind; [done |].
  rewrite foldl_app. cbn [foldl]. unfold owner. rewrite filter_app, filter_cons, filter_nil.
  fold (owner a ops) in IH.
  destruct op as [b peer s | b]; cbn [registryStep concerns]; unfold Register, Unregister;
    destruct (Addr_IsValid b) eqn:Hv; cbn [negb orb];
    rewrite ?andb_true_r, ?andb_false_r; cbn [andb];
    repeat case_bool_decide; cbn [negb andb orb]; repeat (rewrite decide_True by done || rewrite decide_False by done);
    rewrite ?app_nil_r, ?last_snoc; subst; cbn [fmap option_fmap option_map];
    rewrite ?lookup_insert_eq, ?lookup_delete_eq, ?lookup_insert_ne, ?lookup_delete_ne by done; done.
Qed.

(** A packet from a peer is accepted as that peer's exactly when it is a
    complete IP packet whose source address is not an IPv6 link-local one and
    was last registered for that very session: a peer cannot use an address of
    another one, an address that was released, or one nobody has. *)
Theorem SourcesOwnedBy_no_spoofing ops ipPackets s i packet :
  ipPackets !! i = Some packet →
  (∃ o, SourcesOwnedBy (registryRun ops) ipPackets s !! i = Some o ∧
    (po_owned o = true ↔
      s ≠ None ∧ ∃ a peer, sourceFromIPPacket packet = Some a ∧ po_sourceAddress o = a ∧
        isLinkLocal a = false ∧ owner a ops = Some (peer, s))).
Proof.
  intros Hi. unfold SourcesOwnedBy. eexists. rewrite !list_lookup_fmap, Hi. split; [done |].
  unfold candidateOwnership, resolveOwnership.
  destruct (sourceFromIPPacket packet) as [a |] eqn:Ha; cbn; [| split; [done | by intros (_ & ? & ? & [=] & _)]].
  assert (Hll : Is6 a && isLinkLocal a = isLinkLocal a) by by destruct a. rewrite Hll.
  case_bool_decide as Hs; cbn; [| split; [done | by intros [? _]]].
  destruct (isLinkLocal a) eqn:Hl; cbn; [split; [done | intros (_ & ? & ? & [= <-] & _ & ? & _); congruence] |].
  rewrite registryRun_owner. destruct (owner a ops) as [[peer s'] |] eqn:Ho; cbn.
  - rewrite bool_decide_eq_true. split; [intros ->; eauto 10 |]. intros (_ & ? & ? & [= <-] & _ & _ & ?). congruence.
  - split; [done |]. intros (_ & ? & ? & [= <-] & _ & _ & ?). congruence.
Qed.

Lemma SourcesOwnedBy_no_spoofing_witness :
  let packet := [x45; x00; x00; x14] ++ replicate 8 x00 ++ [x0a; x00; x00; x02; x0a; x00; x00; x03] in
  let ops := [OpRegister (Addr4 167772162) "peer" (Some 1)] in
  ∃ o, SourcesOwnedBy (registryRun ops) [packet] (Some 1) !! 0%nat = Some o ∧
    (po_owned o = true ↔ Some 1 ≠ None ∧ ∃ a peer, sourceFromIPPacket packet = Some a ∧ po_sourceAddress o = a ∧
        isLinkLocal a = false ∧ owner a ops = Some (peer, Some 1)).
Proof. cbv zeta. apply SourcesOwnedBy_no_spoofing. reflexivity. Defined.

(** The other peer's session does not own the packet. *)
Example spoofed_packet_refused :
  po_owned <$> (SourcesOwnedBy (registryRun [OpRegister (Addr4 167772162) "peer" (Some 1)])
    [[x45; x00; x00; x14] ++ replicate 8 x00 ++ [x0a; x00; x00; x02; x0a; x00; x00; x03]] (Some 2)) = [false].
Proof. vm_compute. reflexivity. Qed.

(** ** Packets with well-formed headers *)

(** [ihl] counts the header's 32-bit words, [mid] is the rest of its first twelve octets. *)
Definition ipv4Packet (ihl : Z) (tos : byte) (total : Z) (mid : bytes) (src dst : Z) (rest : bytes) : bytes :=
  [z2b (64 + ihl); tos] ++ PutUint16 total ++ mid ++ be_encode 4 src ++ be_encode 4 dst ++ rest.

Definition ipv6Packet (class : Z) (flow : bytes) (payload : Z) (mid : bytes) (src dst : Z) (rest : bytes) : bytes :=
  z2b (96 + class) :: flow ++ PutUint16 payload ++ mid ++ be_encode 16 src ++ be_encode 16 dst ++ rest.

Lemma slice_mid {A} (a b : nat) (l m r : list A) :
  length l = a → length m = (b - a)%nat → slice a b (l ++ m ++ r) = m.
Proof. intros Hl Hm. unfold slice. rewrite drop_app_exact by done. by rewrite take_app_exact. Qed.

Lemma slice_app {A} (a b : nat) (l packet m r : list A) :
  packet = l ++ m ++ r → length l = a → length m = (b - a)%nat → slice a b packet = m.
Proof. intros ->. apply slice_mid. Qed.

(** The addresses read from a well-formed IPv4 packet, options included, are
    those in its header. *)
Theorem IPv4_addresses ihl tos mid src dst rest :
  5 ≤ ihl ≤ 15 → length mid = 8%nat → 0 ≤ src < 2 ^ 32 → 0 ≤ dst < 2 ^ 32 →
  4 * ihl ≤ 20 + lenZ rest < 2 ^ 16 →
  let packet := ipv4Packet ihl tos (20 + lenZ rest) mid src dst rest in
  sourceFromIPPacket packet = Some (Addr4 src) ∧ destinationFromIPPacket packet = Some (Addr4 dst).
Proof.
  intros Hihl Hmid Hsrc Hdst Htot packet.
  assert (Hlen : lenZ packet = 20 + lenZ rest).
  { unfold packet, ipv4Packet, lenZ. rewrite !length_app, length_PutUint16, !length_be_encode, Hmid. cbn [length]. lia. }
  assert (Hhead : b2z (z2b (64 + ihl)) = 64 + ihl) by (apply b2z_z2b_small; lia).
  assert (Hsh : Z.shiftr (64 + ihl) 4 = 4) by (rewrite Z.shiftr_div_pow2 by lia; symmetry; apply (Z.div_unique _ _ _ ihl); lia).
  assert (Hland : Z.land (64 + ihl) 15 = ihl).
  { change 15 with (Z.ones 4). rewrite Z.land_ones by lia. symmetry. apply (Z.mod_unique _ _ 4); lia. }
  assert (H24 : slice 2 4 packet = PutUint16 (20 + lenZ rest)) by (eapply (slice_app 2 4 [_; _]); done).
  assert (H1216 : slice 12 16 packet = be_encode 4 src).
  { eapply (slice_app 12 16 ([_; _] ++ PutUint16 _ ++ mid));
      [unfold packet, ipv4Packet; by rewrite <- !app_assoc | | apply length_be_encode].
    rewrite !length_app, length_PutUint16, Hmid. done. }
  assert (H1620 : slice 16 20 packet = be_encode 4 dst).
  { eapply (slice_app 16 20 ([_; _] ++ PutUint16 _ ++ mid ++ be_encode 4 src));
      [unfold packet, ipv4Packet; by rewrite <- !app_assoc | | apply length_be_encode].
    rewrite !length_app, length_PutUint16, Hmid, length_be_encode. done. }
  split.
  - unfold sourceFromIPPacket. rewrite H24, H1216, Hlen. unfold packet at 1, ipv4Packet. cbn [app].
    rewrite Hhead, Hsh, Hland. unfold PutUint16. rewrite be_decode_encode_small by lia.
    destruct (Z.ltb_spec (20 + lenZ rest) 20); [lia |].
    destruct (Z.ltb_spec (ihl * 4) 20); [lia |]. destruct (Z.ltb_spec (20 + lenZ rest) (ihl * 4)); [lia |]. cbn [orb].
    rewrite Z.eqb_refl. cbn [negb orb]. unfold AddrFrom4. rewrite be_decode_encode_small by lia. done.
  - unfold destinationFromIPPacket. rewrite H1620, Hlen. unfold packet at 1, ipv4Packet. cbn [app].
    rewrite Hhead, Hsh. destruct (Z.ltb_spec (20 + lenZ rest) 20); [lia |].
    unfold AddrFrom4. rewrite be_decode_encode_small by lia. done.
Qed.

Lemma IPv4_addresses_witness :
  let packet := ipv4Packet 6 x00 24 (replicate 8 x00) 167772162 167772163 (replicate 4 x01) in
  sourceFromIPPacket packet = Some (Addr4 167772162) ∧ destinationFromIPPacket packet = Some (Addr4 167772163).
Proof. apply (IPv4_addresses 6 x00 (replicate 8 x00) 167772162 167772163 (replicate 4 x01)); vm_compute; done. Defined.

(** The same for IPv6, a header of forty octets. *)
Lemma IPv6_addresses class flow mid src dst rest :
  0 ≤ class < 16 → length flow = 3%nat → length mid = 2%nat → 0 ≤ src < 2 ^ 128 → 0 ≤ dst < 2 ^ 128 →
  lenZ rest < 2 ^ 16 →
  let packet := ipv6Packet class flow (lenZ rest) mid src dst rest in
  sourceFromIPPacket packet = Some (Addr6 src) ∧ destinationFromIPPacket packet = Some (Addr6 dst).
Proof.
  intros Hc Hflow Hmid Hsrc Hdst Hrest packet.
  assert (Hlen : lenZ packet = 40 + lenZ rest).
  { unfold packet, ipv6Packet, lenZ. cbn [length].
    rewrite !length_app, length_PutUint16, !length_be_encode, Hmid, Hflow. lia. }
  assert (Hhead : b2z (z2b (96 + class)) = 96 + class) by (apply b2z_z2b_small; lia).
  assert (Hsh : Z.shiftr (96 + class) 4 = 6) by (rewrite Z.shiftr_div_pow2 by lia; symmetry; apply (Z.div_unique _ _ _ class); lia).
  assert (0 ≤ lenZ rest) by (unfold lenZ; lia).
  assert (H46 : slice 4 6 packet = PutUint16 (lenZ rest)).
  { eapply (slice_app 4 6 ([_] ++ flow)); [done | by rewrite length_app, Hflow | done]. }
  assert (H824 : slice 8 24 packet = be_encode 16 src).
  { eapply (slice_app 8 24 ([_] ++ flow ++ PutUint16 _ ++ mid));
      [unfold packet, ipv6Packet; cbn; by rewrite <- !app_assoc | | apply length_be_encode].
    rewrite !length_app, length_PutUint16, Hmid, Hflow. done. }
  assert (H2440 : slice 24 40 packet = be_encode 16 dst).
  { eapply (slice_app 24 40 ([_] ++ flow ++ PutUint16 _ ++ mid ++ be_encode 16 src));
      [unfold packet, ipv6Packet; cbn; by rewrite <- !app_assoc | | apply length_be_encode].
    rewrite !length_app, length_PutUint16, Hmid, Hflow, length_be_encode. done. }
  split.
  - unfold sourceFromIPPacket. rewrite H46, H824, Hlen. unfold packet at 1, ipv6Packet.
    rewrite Hhead, Hsh. unfold PutUint16. rewrite be_decode_encode_small by lia.
    destruct (Z.ltb_spec (40 + lenZ rest) 40); [lia |].
    rewrite (proj2 (Z.eqb_eq _ _)) by lia. unfold AddrFrom16. rewrite be_decode_encode_small by lia. done.
  - unfold destinationFromIPPacket. rewrite H2440, Hlen. unfold packet at 1, ipv6Packet.
    rewrite Hhead, Hsh. destruct (Z.ltb_spec (40 + lenZ rest) 40); [lia |].
    unfold AddrFrom16. rewrite be_decode_encode_small by lia. done.
Qed.
