(* ===== verification/Fragment.v ===== *)
(** * Fragmentation of data packets ([data_channel_fragmentation.go])

    The fields of [dataChannelFraming] that cut packets into fragments and put
    them together again.  Go iterates over maps in an unspecified order: the
    order is the argument [range] of every function that iterates, and the
    theorems hold for every order.  [now] is what [time.Now] returns. *)

From S2P Require Import Prelude.

Definition openVPNFragmentTypeWhole : Z := 0.
Definition openVPNFragmentTypePartial : Z := 1.
Definition openVPNFragmentTypeLast : Z := 2.
Definition openVPNFragmentTypeMask : Z := 3.
Definition openVPNFragmentSequenceMask : Z := 255.
Definition openVPNFragmentSequenceShift : Z := 2.
Definition openVPNFragmentIDMask : Z := 31.
Definition openVPNFragmentIDShift : Z := 10.
Definition openVPNFragmentSizeMask : Z := 16383.
Definition openVPNFragmentSizeShift : Z := 15.
Definition openVPNFragmentSizeRoundShift : Z := 2.
Definition openVPNFragmentMaxParts : Z := 32.
Definition openVPNFragmentReceiveWindow : Z := 25.
Definition openVPNFragmentReassemblyTimeout : Z := 30 * Second.
Definition openVPNFragmentReassemblyMaxBytes : Z := 4194304.
Definition openVPNFragmentReassemblyMaxPacketBytes : Z := 65535.

Record incomingFragmentBuffer := mkBuffer {
  fb_maxSize : Z;
  fb_lastID : Z;
  fb_parts : gmap Z bytes;
  fb_bytes : Z;
  fb_updated : Time;
}.

Record fragmentState := mkFragment {
  fs_outgoingSequence : Z;
  fs_incomingBySequence : gmap Z incomingFragmentBuffer;
  fs_incomingBytes : Z;
  fs_incomingSequence : Z;
  fs_incomingSequenceSet : bool;
  fs_reassemblyTimeout : Z;
  fs_reassemblyMaxBytes : Z;
  fs_reassemblyMaxPacketBytes : Z;
}.

Definition setIncoming (f : fragmentState) (m : gmap Z incomingFragmentBuffer) (n : Z) : fragmentState :=
  mkFragment (fs_outgoingSequence f) m n (fs_incomingSequence f) (fs_incomingSequenceSet f)
    (fs_reassemblyTimeout f) (fs_reassemblyMaxBytes f) (fs_reassemblyMaxPacketBytes f).

Definition setIncomingSequence (f : fragmentState) (s : Z) : fragmentState :=
  mkFragment (fs_outgoingSequence f) (fs_incomingBySequence f) (fs_incomingBytes f) s true
    (fs_reassemblyTimeout f) (fs_reassemblyMaxBytes f) (fs_reassemblyMaxPacketBytes f).

Definition setOutgoingSequence (f : fragmentState) (s : Z) : fragmentState :=
  mkFragment s (fs_incomingBySequence f) (fs_incomingBytes f) (fs_incomingSequence f) (fs_incomingSequenceSet f)
    (fs_reassemblyTimeout f) (fs_reassemblyMaxBytes f) (fs_reassemblyMaxPacketBytes f).

(** ** Sending *)

Definition prependFragmentHeader (payload : bytes) (fragmentType sequenceID fragmentID maxFragmentSize : Z) : bytes :=
  let flags := u32 (Z.land fragmentType openVPNFragmentTypeMask) in
  let flags := Z.lor flags (u32 (Z.shiftl (Z.land sequenceID openVPNFragmentSequenceMask) openVPNFragmentSequenceShift)) in
  let flags := Z.lor flags (u32 (Z.shiftl (Z.land fragmentID openVPNFragmentIDMask) openVPNFragmentIDShift)) in
  let flags :=
    if fragmentType =? openVPNFragmentTypeLast
    then Z.lor flags (u32 (Z.shiftl (Z.land maxFragmentSize openVPNFragmentSizeMask) openVPNFragmentSizeShift))
    else flags in
  PutUint32 flags ++ payload.

(** The loop of [encodeFragments] on the part of the payload left to send. *)
Fixpoint encodeFragmentsLoop (fuel : nat) (sequenceID fragmentSize fragmentID : Z) (rest : bytes)
    : result (list bytes) :=
  match fuel with
  | O => Ok []
  | S fuel =>
      if lenZ rest <=? 0 then Ok [] else
      if openVPNFragmentMaxParts <=? fragmentID then Err (ErrNew "too many fragments") else
      let chunkSize := Z.min fragmentSize (lenZ rest) in
      let chunk := take (Z.to_nat chunkSize) rest in
      let last := lenZ rest <=? chunkSize in
      let fragmentType := if last then openVPNFragmentTypeLast else openVPNFragmentTypePartial in
      let maxFragmentSize := if last then Z.shiftr fragmentSize openVPNFragmentSizeRoundShift else 0 in
      fragments ← encodeFragmentsLoop fuel sequenceID fragmentSize (fragmentID + 1) (drop (Z.to_nat chunkSize) rest);
      Ok (prependFragmentHeader chunk fragmentType sequenceID fragmentID maxFragmentSize :: fragments)
  end.

(** One more round than the 32 parts there can be. *)
Definition encodeFragments (f : fragmentState) (payload : bytes) (fragmentSize : Z)
    : result (list bytes) * fragmentState :=
  let fragmentSize := Z.ldiff fragmentSize (Z.shiftl 1 openVPNFragmentSizeRoundShift - 1) in
  if fragmentSize <=? 0 then (Err (ErrNew "fragment packet size is too small for data channel overhead"), f) else
  if lenZ payload <=? fragmentSize
  then (Ok [prependFragmentHeader payload openVPNFragmentTypeWhole 0 0 0], f) else
  let sequenceID := fs_outgoingSequence f in
  let f := setOutgoingSequence f (Z.land (fs_outgoingSequence f + 1) openVPNFragmentSequenceMask) in
  (encodeFragmentsLoop 33 sequenceID fragmentSize 0 payload, f).

(** ** Receiving *)

Definition deleteIncomingFragmentBuffer (f : fragmentState) (sequenceID : Z) : fragmentState :=
  match fs_incomingBySequence f !! sequenceID with
  | None => f
  | Some fragmentBuffer =>
      setIncoming f (delete sequenceID (fs_incomingBySequence f))
        (Z.max (fs_incomingBytes f - fb_bytes fragmentBuffer) 0)
  end.

Definition fragmentSequenceDifference (sequenceID referenceSequence : Z) : Z :=
  let directDifference := sequenceID - referenceSequence in
  if directDifference =? 0 then 0 else
  let wrappedDifference :=
    if referenceSequence <? sequenceID
    then directDifference - (openVPNFragmentSequenceMask + 1)
    else directDifference + (openVPNFragmentSequenceMask + 1) in
  if directDifference <? 0
  then if - directDifference <=? wrappedDifference then directDifference else wrappedDifference
  else if directDifference <=? - wrappedDifference then directDifference else wrappedDifference.

Section Receive.
Context (range : gmap Z incomingFragmentBuffer → list (Z * incomingFragmentBuffer)).

(** [for s, b := range f.incomingBySequence { if P { f.deleteIncomingFragmentBuffer(s) } }] *)
Definition deleteWhere (P : Z → incomingFragmentBuffer → bool) (f : fragmentState) : fragmentState :=
  foldl (λ f '(s, b), if P s b then deleteIncomingFragmentBuffer f s else f) f (range (fs_incomingBySequence f)).

Definition clearIncomingFragments (f : fragmentState) : fragmentState := deleteWhere (λ _ _, true) f.

Definition expireIncomingFragments (f : fragmentState) (now : Time) : fragmentState :=
  let timeout := if fs_reassemblyTimeout f <=? 0 then openVPNFragmentReassemblyTimeout else fs_reassemblyTimeout f in
  deleteWhere (λ _ fragmentBuffer, IsZero (fb_updated fragmentBuffer) || (timeout <=? now - fb_updated fragmentBuffer)) f.

Definition advanceIncomingFragmentWindow (f : fragmentState) (sequenceID : Z) : fragmentState :=
  if negb (fs_incomingSequenceSet f) then setIncomingSequence f sequenceID else
  let difference := fragmentSequenceDifference sequenceID (fs_incomingSequence f) in
  if (openVPNFragmentReceiveWindow <=? difference) || (difference <=? - openVPNFragmentReceiveWindow)
  then setIncomingSequence (clearIncomingFragments f) sequenceID else
  if difference <=? 0 then f else
  let f := setIncomingSequence f sequenceID in
  deleteWhere (λ bufferedSequence _,
    let bufferedDifference := fragmentSequenceDifference bufferedSequence (fs_incomingSequence f) in
    (bufferedDifference <=? - openVPNFragmentReceiveWindow) || (0 <? bufferedDifference)) f.

Definition oldestIncomingFragmentSequence (f : fragmentState) (excludeSequence : Z) : option Z :=
  fst <$> foldl (λ (oldest : option (Z * Time)) '(sequenceID, fragmentBuffer),
    if sequenceID =? excludeSequence then oldest else
    match oldest with
    | None => Some (sequenceID, fb_updated fragmentBuffer)
    | Some (_, oldestTime) =>
        if fb_updated fragmentBuffer <? oldestTime then Some (sequenceID, fb_updated fragmentBuffer) else oldest
    end) None (range (fs_incomingBySequence f)).

(** The eviction loop: [false] when nothing is left to evict.  Every round
    deletes a buffer, so the number of buffers is enough fuel. *)
Fixpoint evictLoop (fuel : nat) (f : fragmentState) (sequenceID additionalBytes maxReassemblyBytes : Z)
    : bool * fragmentState :=
  if fs_incomingBytes f + additionalBytes <=? maxReassemblyBytes then (true, f) else
  match fuel with
  | O => (false, f)
  | S fuel =>
      match oldestIncomingFragmentSequence f sequenceID with
      | None => (false, f)
      | Some oldestSequence =>
          evictLoop fuel (deleteIncomingFragmentBuffer f oldestSequence) sequenceID additionalBytes maxReassemblyBytes
      end
  end.

(** The parts 0, ..., lastID in order, if all are there. *)
Fixpoint collectParts (count : nat) (currentFragmentID : Z) (parts : gmap Z bytes) : option bytes :=
  match count with
  | O => Some []
  | S count =>
      fragmentPayload ← parts !! currentFragmentID;
      rest ← collectParts count (currentFragmentID + 1) parts;
      Some (fragmentPayload ++ rest)
  end.

(** The buffer of the packet, in the map: the one there, unless it is of another
    fragment size, or a fresh one. *)
Definition openFragmentBuffer (f : fragmentState) (now : Time) (sequenceID fragmentSize : Z)
    : incomingFragmentBuffer * fragmentState :=
  let fresh := mkBuffer fragmentSize (-1) ∅ 0 now in
  match fs_incomingBySequence f !! sequenceID with
  | Some fragmentBuffer =>
      if negb (fb_maxSize fragmentBuffer =? fragmentSize) then
        let f := deleteIncomingFragmentBuffer f sequenceID in
        (fresh, setIncoming f (<[sequenceID := fresh]> (fs_incomingBySequence f)) (fs_incomingBytes f))
      else (fragmentBuffer, f)
  | None => (fresh, setIncoming f (<[sequenceID := fresh]> (fs_incomingBySequence f)) (fs_incomingBytes f))
  end.

(** The fragment into its buffer, and the packet out of it once it is complete;
    [Ok None] is the incomplete packet. *)
Definition putFragmentPart (f : fragmentState) (now : Time) (sequenceID fragmentID maxFragmentSize : Z)
    (last : bool) (payload : bytes) (fragmentBuffer : incomingFragmentBuffer) (additionalBytes : Z)
    : result (option bytes) * fragmentState :=
  let maxSize :=
    if 0 <? maxFragmentSize then maxFragmentSize
    else if fb_maxSize fragmentBuffer =? 0 then lenZ payload else fb_maxSize fragmentBuffer in
  let fragmentBuffer :=
    mkBuffer maxSize (if last then fragmentID else fb_lastID fragmentBuffer)
      (<[fragmentID := payload]> (fb_parts fragmentBuffer)) (fb_bytes fragmentBuffer + additionalBytes) now in
  let f := setIncoming f (<[sequenceID := fragmentBuffer]> (fs_incomingBySequence f))
             (fs_incomingBytes f + additionalBytes) in
  if fb_lastID fragmentBuffer <? 0 then (Ok None, f) else
  match collectParts (Z.to_nat (fb_lastID fragmentBuffer + 1)) 0 (fb_parts fragmentBuffer) with
  | None => (Ok None, f)
  | Some reassembledPayload => (Ok (Some reassembledPayload), deleteIncomingFragmentBuffer f sequenceID)
  end.

Definition storeIncomingFragment (f : fragmentState) (now : Time) (sequenceID fragmentID maxFragmentSize : Z)
    (last : bool) (payload : bytes) : result (option bytes) * fragmentState :=
  let f := expireIncomingFragments f now in
  let maxPacketBytes :=
    if fs_reassemblyMaxPacketBytes f <=? 0 then openVPNFragmentReassemblyMaxPacketBytes
    else fs_reassemblyMaxPacketBytes f in
  let maxReassemblyBytes :=
    if fs_reassemblyMaxBytes f <=? 0 then openVPNFragmentReassemblyMaxBytes else fs_reassemblyMaxBytes f in
  if maxPacketBytes <? lenZ payload
  then (Err (ErrNew "fragment exceeds maximum reassembled packet size"), f) else
  let f := advanceIncomingFragmentWindow f sequenceID in
  let fragmentSize := if 0 <? maxFragmentSize then maxFragmentSize else lenZ payload in
  let '(fragmentBuffer, f) := openFragmentBuffer f now sequenceID fragmentSize in
  let previousPart := default [] (fb_parts fragmentBuffer !! fragmentID) in
  let additionalBytes := lenZ payload - lenZ previousPart in
  if maxPacketBytes <? fb_bytes fragmentBuffer + additionalBytes
  then (Err (ErrNew "fragmented packet exceeds maximum IP packet size"), deleteIncomingFragmentBuffer f sequenceID) else
  let '(fits, f) := evictLoop (size (fs_incomingBySequence f)) f sequenceID additionalBytes maxReassemblyBytes in
  if negb fits
  then (Err (ErrNew "fragment reassembly memory limit exceeded"), deleteIncomingFragmentBuffer f sequenceID) else
  putFragmentPart f now sequenceID fragmentID maxFragmentSize last payload fragmentBuffer additionalBytes.

Definition flagsField (flags shift mask : Z) : Z := Z.land (Z.shiftr flags shift) mask.

Definition decodeFragment (f : fragmentState) (now : Time) (payload : bytes) : result (option bytes) * fragmentState :=
  if lenZ payload <? 4 then (Err (ErrNew "fragment header not found"), f) else
  let flags := Uint32 payload in
  let fragmentType := flagsField flags 0 openVPNFragmentTypeMask in
  let fragmentPayload := drop 4 payload in
  let sequenceID := flagsField flags openVPNFragmentSequenceShift openVPNFragmentSequenceMask in
  let fragmentID := flagsField flags openVPNFragmentIDShift openVPNFragmentIDMask in
  if fragmentType =? openVPNFragmentTypeWhole then
    if negb (sequenceID =? 0) || negb (fragmentID =? 0)
    then (Err (ErrNew "spurious fragment header flags"), f)
    else (Ok (Some fragmentPayload), f)
  else if (fragmentType =? openVPNFragmentTypePartial) || (fragmentType =? openVPNFragmentTypeLast) then
    storeIncomingFragment f now sequenceID fragmentID
      (Z.shiftl (flagsField flags openVPNFragmentSizeShift openVPNFragmentSizeMask) openVPNFragmentSizeRoundShift)
      (fragmentType =? openVPNFragmentTypeLast) fragmentPayload
  else (Err (ErrNew "unknown fragment type"), f).

End Receive.

(** ** The fragment header *)

Definition headerFlags (t s i m : Z) : Z := t + 4 * s + 1024 * i + (if t =? 2 then 32768 * m else 0).

Lemma prependFragmentHeader_flags payload t s i m :
  0 ≤ t < 4 → 0 ≤ s < 256 → 0 ≤ i < 32 → 0 ≤ m < 16384 →
  prependFragmentHeader payload t s i m = PutUint32 (headerFlags t s i m) ++ payload.
Proof.
  intros Ht Hs Hi Hm. unfold prependFragmentHeader, headerFlags. f_equal. f_equal.
  unfold openVPNFragmentTypeMask, openVPNFragmentSequenceMask, openVPNFragmentIDMask, openVPNFragmentSizeMask,
    openVPNFragmentSequenceShift, openVPNFragmentIDShift, openVPNFragmentSizeShift, openVPNFragmentTypeLast.
  change 3 with (Z.ones 2). change 255 with (Z.ones 8). change 31 with (Z.ones 5). change 16383 with (Z.ones 14).
  rewrite !land_ones_small by lia.
  rewrite (u32_small t), !u32_small by (rewrite ?Z.shiftl_mul_pow2 by lia; lia).
  rewrite (lor_shiftl_add t s 2), (lor_shiftl_add _ i 10), (lor_shiftl_add _ m 15) by lia.
  destruct (t =? 2); lia.
Qed.

Lemma flagsField_div flags shift n :
  0 ≤ shift → 0 ≤ n → flagsField flags shift (Z.ones n) = (flags / 2 ^ shift) mod 2 ^ n.
Proof. intros Hs Hn. unfold flagsField. by rewrite Z.land_ones, Z.shiftr_div_pow2. Qed.

Lemma headerFlags_fields t s i m :
  0 ≤ t < 3 → 0 ≤ s < 256 → 0 ≤ i < 32 → 0 ≤ m < 16384 →
  let flags := headerFlags t s i m in
  0 ≤ flags < 2 ^ 32 ∧ flagsField flags 0 openVPNFragmentTypeMask = t ∧
  flagsField flags openVPNFragmentSequenceShift openVPNFragmentSequenceMask = s ∧
  flagsField flags openVPNFragmentIDShift openVPNFragmentIDMask = i ∧
  flagsField flags openVPNFragmentSizeShift openVPNFragmentSizeMask = (if t =? 2 then m else 0).
Proof.
  intros Ht Hs Hi Hm. cbv zeta.
  assert (Hf : headerFlags t s i m = t + 4 * s + 1024 * i + 32768 * (if t =? 2 then m else 0))
    by (unfold headerFlags; destruct (t =? 2); lia).
  set (m' := if t =? 2 then m else 0) in *. assert (0 ≤ m' < 16384) by (unfold m'; destruct (t =? 2); lia).
  clearbody m'. rewrite Hf.
  unfold openVPNFragmentTypeMask, openVPNFragmentSequenceMask, openVPNFragmentIDMask, openVPNFragmentSizeMask,
    openVPNFragmentSequenceShift, openVPNFragmentIDShift, openVPNFragmentSizeShift.
  change 3 with (Z.ones 2). change 255 with (Z.ones 8). change 31 with (Z.ones 5). change 16383 with (Z.ones 14).
  rewrite !flagsField_div by lia.
  split; [lia |]. change (2 ^ 0) with 1. change (2 ^ 2) with 4. change (2 ^ 8) with 256.
  change (2 ^ 10) with 1024. change (2 ^ 5) with 32. change (2 ^ 15) with 32768. change (2 ^ 14) with 16384.
  split_and!; Z.to_euclidean_division_equations; lia.
Qed.

(** What the receiver does with a fragment of its peer. *)
Lemma decodeFragment_prepend range f now payload t s i m :
  0 ≤ t < 3 → 0 ≤ s < 256 → 0 ≤ i < 32 → 0 ≤ m < 16384 →
  decodeFragment range f now (prependFragmentHeader payload t s i m) =
    if t =? 0 then
      if negb (s =? 0) || negb (i =? 0) then (Err (ErrNew "spurious fragment header flags"), f)
      else (Ok (Some payload), f)
    else storeIncomingFragment range f now s i (if t =? 2 then 4 * m else 0) (t =? 2) payload.
Proof.
  intros Ht Hs Hi Hm. rewrite prependFragmentHeader_flags by lia.
  pose proof (headerFlags_fields t s i m Ht Hs Hi Hm) as (Hf & Ht' & Hs' & Hi' & Hm').
  unfold decodeFragment. rewrite Uint32_PutUint32_app, Ht', Hs', Hi', Hm' by done.
  rewrite drop_app_exact by apply length_PutUint32.
  unfold lenZ. rewrite length_app, length_PutUint32.
  destruct (Z.ltb_spec (Z.of_nat (4 + length payload)) 4); [lia |].
  unfold openVPNFragmentTypeWhole, openVPNFragmentTypePartial, openVPNFragmentTypeLast, openVPNFragmentSizeRoundShift.
  assert (t = 0 ∨ t = 1 ∨ t = 2) as [-> | [-> | ->]] by lia; cbn [Z.eqb orb Pos.eqb]; try done.
  rewrite Z.shiftl_mul_pow2 by lia. by replace (m * 2 ^ 2) with (4 * m) by lia.
Qed.

(** ** What the sender produces *)

Fixpoint numbered (i : Z) (chunks : list bytes) : list (Z * bytes) :=
  match chunks with [] => [] | c :: chunks => (i, c) :: numbered (i + 1) chunks end.

Definition frameOf (s F lastID : Z) (p : Z * bytes) : bytes :=
  prependFragmentHeader p.2 (if p.1 =? lastID then openVPNFragmentTypeLast else openVPNFragmentTypePartial)
    s p.1 (if p.1 =? lastID then Z.shiftr F openVPNFragmentSizeRoundShift else 0).

Lemma elem_of_numbered i chunks p : p ∈ numbered i chunks → i ≤ p.1 < i + lenZ chunks.
Proof.
  revert i. induction chunks as [| c chunks IH]; intros i Hp; cbn in Hp; [by apply elem_of_nil in Hp |].
  unfold lenZ in *. cbn [length]. apply elem_of_cons in Hp as [-> | Hp]; cbn; [lia |].
  specialize (IH _ Hp). lia.
Qed.

Lemma numbered_NoDup i chunks : NoDup (numbered i chunks).*1.
Proof.
  revert i. induction chunks as [| c chunks IH]; intros i; [constructor |]. cbn. apply NoDup_cons_2; [| apply IH].
  intros Hin. apply list_elem_of_fmap in Hin as (p & Hp & Hin). apply elem_of_numbered in Hin. lia.
Qed.

Lemma length_numbered i chunks : length (numbered i chunks) = length chunks.
Proof. revert i. induction chunks as [| c chunks IH]; intros i; [done |]. cbn. by rewrite IH. Qed.

Lemma encodeFragmentsLoop_nil fuel s F i : encodeFragmentsLoop fuel s F i [] = Ok [].
Proof. by destruct fuel. Qed.

Lemma encodeFragmentsLoop_spec fuel s F i rest frames :
  rest ≠ [] → 0 < F → i ≤ 32 → 33 ≤ Z.of_nat fuel + i →
  encodeFragmentsLoop fuel s F i rest = Ok frames →
  ∃ chunks, concat chunks = rest ∧ chunks ≠ [] ∧ i + lenZ chunks ≤ 32 ∧
    let lastID := i + lenZ chunks - 1 in
    frames = frameOf s F lastID <$> numbered i chunks ∧
    (∀ p, p ∈ numbered i chunks → lenZ p.2 ≤ F ∧ (p.1 ≠ lastID → lenZ p.2 = F)).
Proof.
  intros Hne HF. revert i rest frames Hne. induction fuel as [| fuel IH]; intros i rest frames Hne Hi Hfuel Henc; [lia |].
  cbn [encodeFragmentsLoop] in Henc. unfold openVPNFragmentMaxParts in *.
  assert (0 < lenZ rest) by (destruct rest; [done | unfold lenZ; cbn; lia]).
  destruct (Z.leb_spec (lenZ rest) 0); [lia |]. destruct (Z.leb_spec 32 i); [done |].
  destruct (Z.leb_spec (lenZ rest) (Z.min F (lenZ rest))) as [Hlast | Hmore].
  - rewrite drop_ge in Henc by (unfold lenZ in *; lia). rewrite encodeFragmentsLoop_nil in Henc. injection Henc as <-.
    rewrite take_ge by (unfold lenZ in *; lia).
    exists [rest]. change (lenZ [rest]) with 1. cbn. rewrite app_nil_r. split_and!; try done; try lia.
    + unfold frameOf; cbn. by rewrite (proj2 (Z.eqb_eq i (i + 1 - 1)) ltac:(lia)).
    + intros p Hp. apply list_elem_of_singleton in Hp as ->. cbn. split; lia.
  - destruct (encodeFragmentsLoop fuel s F (i + 1) _) as [frames' |] eqn:Hrec; [| done]. cbn in Henc. injection Henc as <-.
    assert (HminF : Z.min F (lenZ rest) = F) by lia. rewrite HminF in *.
    apply IH in Hrec as (chunks & Hcat & Hnil & Hn & -> & Hsz); [| | lia | lia].
    + exists (take (Z.to_nat F) rest :: chunks).
      assert (Hl : lenZ (take (Z.to_nat F) rest :: chunks) = 1 + lenZ chunks) by (unfold lenZ; cbn [length]; lia).
      assert (0 < lenZ chunks) by (destruct chunks; [done | unfold lenZ; cbn; lia]).
      assert (Hlen : lenZ (take (Z.to_nat F) rest) = F) by (unfold lenZ in *; rewrite length_take; lia).
      rewrite Hl. replace (i + (1 + lenZ chunks) - 1) with (i + 1 + lenZ chunks - 1) by lia.
      split_and!; [cbn; rewrite Hcat; apply take_drop | done | lia | |].
      * cbn. f_equal. unfold frameOf; cbn [fst snd]. by rewrite (proj2 (Z.eqb_neq i _)) by lia.
      * intros p Hp. cbn in Hp. apply elem_of_cons in Hp as [-> | Hp]; [cbn; lia | by apply Hsz].
    + intros E. apply (f_equal length) in E. rewrite length_drop in E. unfold lenZ in *. cbn in E. lia.
Qed.

(** ** The receiver's accounting *)

Record acc_ok (f : fragmentState) : Prop := mk_acc_ok {
  ao_total : fs_incomingBytes f = map_sum fb_bytes (fs_incomingBySequence f);
  ao_buffers : map_Forall (λ _ b, fb_bytes b = map_sum lenZ (fb_parts b)) (fs_incomingBySequence f);
}.

(** The fields an operation on the buffers leaves alone. *)
Definition sameLimits (f g : fragmentState) : Prop :=
  fs_outgoingSequence f = fs_outgoingSequence g ∧ fs_reassemblyTimeout f = fs_reassemblyTimeout g ∧
  fs_reassemblyMaxBytes f = fs_reassemblyMaxBytes g ∧ fs_reassemblyMaxPacketBytes f = fs_reassemblyMaxPacketBytes g.

#[export] Instance sameLimits_equivalence : Equivalence sameLimits.
Proof. split; unfold sameLimits; repeat intros ?; intuition congruence. Qed.

Lemma lenZ_nonneg {A} (l : list A) : 0 ≤ lenZ l.
Proof. unfold lenZ. lia. Qed.

Lemma acc_buffer_nonneg f : acc_ok f → map_Forall (λ _ b, 0 ≤ fb_bytes b) (fs_incomingBySequence f).
Proof.
  intros [_ Hb] s b Hs. specialize (Hb s b Hs). cbn in Hb. rewrite Hb. apply map_sum_nonneg. intros x. apply lenZ_nonneg.
Qed.

Lemma acc_nonneg f : acc_ok f → 0 ≤ fs_incomingBytes f.
Proof. intros Hf. rewrite (ao_total _ Hf). apply map_sum_nonneg_Forall, acc_buffer_nonneg, Hf. Qed.

Lemma deleteIncoming_buffers f s :
  fs_incomingBySequence (deleteIncomingFragmentBuffer f s) = delete s (fs_incomingBySequence f).
Proof.
  unfold deleteIncomingFragmentBuffer. destruct (_ !! s) eqn:Hs; [done |]. by rewrite delete_id.
Qed.

Lemma deleteIncoming_limits f s : sameLimits (deleteIncomingFragmentBuffer f s) f.
Proof. unfold deleteIncomingFragmentBuffer. by destruct (_ !! s). Qed.

Lemma deleteIncoming_sequence f s :
  fs_incomingSequence (deleteIncomingFragmentBuffer f s) = fs_incomingSequence f ∧
  fs_incomingSequenceSet (deleteIncomingFragmentBuffer f s) = fs_incomingSequenceSet f.
Proof. unfold deleteIncomingFragmentBuffer. by destruct (_ !! s). Qed.

(** Deleting a buffer gives its octets back: the clamp at zero never acts. *)
Lemma deleteIncoming_ok f s : acc_ok f → acc_ok (deleteIncomingFragmentBuffer f s).
Proof.
  intros Hf. split; rewrite deleteIncoming_buffers; [| apply map_Forall_delete, Hf].
  unfold deleteIncomingFragmentBuffer. destruct (_ !! s) as [b |] eqn:Hs; cbn.
  - rewrite (map_sum_delete _ _ _ _ Hs), (ao_total _ Hf).
    assert (0 ≤ map_sum fb_bytes (delete s (fs_incomingBySequence f))) as H.
    { apply map_sum_nonneg_Forall, map_Forall_delete, acc_buffer_nonneg, Hf. }
    rewrite (map_sum_delete _ _ _ _ Hs) in H. lia.
  - rewrite delete_id by done. apply Hf.
Qed.

Lemma deleteIncoming_bytes_le f s : acc_ok f → fs_incomingBytes (deleteIncomingFragmentBuffer f s) ≤ fs_incomingBytes f.
Proof.
  intros Hf. unfold deleteIncomingFragmentBuffer. destruct (_ !! s) as [b |] eqn:Hs; cbn; [| lia].
  pose proof (acc_buffer_nonneg f Hf s b Hs). pose proof (acc_nonneg f Hf). cbn in *. lia.
Qed.

(** What the functions that only drop buffers keep. *)
Record drops (g f : fragmentState) : Prop := mk_drops {
  dr_ok : acc_ok g;
  dr_limits : sameLimits g f;
  dr_bytes : fs_incomingBytes g ≤ fs_incomingBytes f;
  dr_subset : fs_incomingBySequence g ⊆ fs_incomingBySequence f;
}.

Lemma drops_refl f : acc_ok f → drops f f.
Proof. by split. Qed.

Lemma drops_trans h g f : drops h g → drops g f → drops h f.
Proof. intros [??? Hs] [??? Hs']. split; [done | by etrans | lia | by etrans]. Qed.

Lemma deleteIncoming_drops f s : acc_ok f → drops (deleteIncomingFragmentBuffer f s) f.
Proof.
  intros Hf. split; [by apply deleteIncoming_ok | apply deleteIncoming_limits | by apply deleteIncoming_bytes_le |].
  rewrite deleteIncoming_buffers. apply delete_subseteq.
Qed.

Lemma setIncomingSequence_drops f s : acc_ok f → drops (setIncomingSequence f s) f.
Proof. intros [Ht Hb]. by split. Qed.

Section Drops.
Context (range : gmap Z incomingFragmentBuffer → list (Z * incomingFragmentBuffer)).
Hypothesis range_perm : ∀ m, range m ≡ₚ map_to_list m.

Lemma elem_of_range m s b : (s, b) ∈ range m ↔ m !! s = Some b.
Proof. rewrite range_perm. apply elem_of_map_to_list. Qed.

Lemma deleteLoop_drops P (l : list (Z * incomingFragmentBuffer)) f :
  acc_ok f → drops (foldl (λ f '(s, b), if P s b : bool then deleteIncomingFragmentBuffer f s else f) f l) f.
Proof.
  revert f. induction l as [| [s b] l IH]; intros f Hf; cbn; [by apply drops_refl |].
  destruct (P s b); [| by apply IH].
  eapply drops_trans; [apply IH; by apply deleteIncoming_ok | by apply deleteIncoming_drops].
Qed.

Lemma deleteWhere_drops P f : acc_ok f → drops (deleteWhere range P f) f.
Proof. apply deleteLoop_drops. Qed.

Lemma deleteLoop_keeps P (l : list (Z * incomingFragmentBuffer)) f s :
  (∀ b, (s, b) ∈ l → P s b = false) →
  let g := foldl (λ f '(s, b), if P s b : bool then deleteIncomingFragmentBuffer f s else f) f l in
  fs_incomingBySequence g !! s = fs_incomingBySequence f !! s ∧
  fs_incomingSequence g = fs_incomingSequence f ∧ fs_incomingSequenceSet g = fs_incomingSequenceSet f.
Proof.
  cbv zeta. revert f. induction l as [| [s' b'] l IH]; intros f Hl; cbn; [done |].
  assert (Hl' : ∀ b, (s, b) ∈ l → P s b = false) by (intros b Hb; apply Hl; by right).
  destruct (P s' b') eqn:HP; [| by apply IH].
  destruct (IH (deleteIncomingFragmentBuffer f s') Hl') as (-> & -> & ->).
  rewrite deleteIncoming_buffers. destruct (deleteIncoming_sequence f s') as [-> ->].
  rewrite lookup_delete_ne; [done |]. intros ->. rewrite (Hl b') in HP; [done | by left].
Qed.

Lemma deleteWhere_keeps P f s :
  (∀ b, fs_incomingBySequence f !! s = Some b → P s b = false) →
  fs_incomingBySequence (deleteWhere range P f) !! s = fs_incomingBySequence f !! s ∧
  fs_incomingSequence (deleteWhere range P f) = fs_incomingSequence f ∧
  fs_incomingSequenceSet (deleteWhere range P f) = fs_incomingSequenceSet f.
Proof. intros HP. apply deleteLoop_keeps. intros b Hb. apply HP. by apply elem_of_range. Qed.

Lemma expire_drops f now : acc_ok f → drops (expireIncomingFragments range f now) f.
Proof. apply deleteWhere_drops. Qed.

Lemma advance_drops f s : acc_ok f → drops (advanceIncomingFragmentWindow range f s) f.
Proof.
  intros Hf. unfold advanceIncomingFragmentWindow.
  destruct (negb _); [by apply setIncomingSequence_drops |].
  destruct (_ || _).
  - eapply drops_trans; [apply setIncomingSequence_drops, deleteWhere_drops, Hf | by apply deleteWhere_drops].
  - destruct (_ <=? 0); [by apply drops_refl |]. cbv zeta.
    pose proof (setIncomingSequence_drops f s Hf) as Hd.
    eapply drops_trans; [apply deleteWhere_drops, Hd | exact Hd].
Qed.

(** ** Eviction *)

Lemma oldest_spec f s :
  match oldestIncomingFragmentSequence range f s with
  | Some o => o ≠ s ∧ is_Some (fs_incomingBySequence f !! o)
  | None => ∀ o, is_Some (fs_incomingBySequence f !! o) → o = s
  end.
Proof.
  unfold oldestIncomingFragmentSequence.
  assert (Hgen : ∀ l acc, 
    match foldl (λ (oldest : option (Z * Time)) '(sequenceID, fragmentBuffer),
      if sequenceID =? s then oldest else
      match oldest with
      | None => Some (sequenceID, fb_updated fragmentBuffer)
      | Some (_, oldestTime) =>
        if fb_updated fragmentBuffer <? oldestTime then Some (sequenceID, fb_updated fragmentBuffer) else oldest
      end) acc l with
    | Some (o, _) => (∃ t, acc = Some (o, t)) ∨ (o ≠ s ∧ ∃ b, (o, b) ∈ l)
    | None => acc = None ∧ ∀ o b, (o, b) ∈ l → o = s
    end).
  { induction l as [| [s' b'] l IH]; intros acc; cbn.
    - destruct acc as [[o t] |]; [by eauto |]. split; [done |]. intros o b Hb. by apply elem_of_nil in Hb.
    - destruct (Z.eqb_spec s' s) as [-> | Hne].
      + specialize (IH acc). destruct (foldl _ acc l) as [[o t] |].
        * destruct IH as [| [? [b Hb]]]; [by left | right]. split; [done |]. exists b. by right.
        * destruct IH as [-> IH]. split; [done |]. intros o b Hb. apply elem_of_cons in Hb as [[= -> ->] | Hb]; [done |]. by eapply IH.
      + set (acc' := match acc with None => _ | Some _ => _ end).
        assert (Hacc' : ∃ o t, acc' = Some (o, t) ∧ (acc = Some (o, t) ∨ o = s')).
        { unfold acc'. destruct acc as [[o t] |]; [| by eauto]. destruct (_ <? _); eauto. }
        destruct Hacc' as (o' & t' & Hacc' & Hor). rewrite Hacc'. specialize (IH (Some (o', t'))).
        destruct (foldl _ _ l) as [[o t] |]; [| by destruct IH].
        destruct IH as [[? [= <- <-]] | [? [b Hb]]].
        * destruct Hor as [-> | ->]; [by left; eauto | right]. split; [done |]. exists b'. by left.
        * right. split; [done |]. exists b. by right. }
  specialize (Hgen (range (fs_incomingBySequence f)) None).
  destruct (foldl _ _ _) as [[o t] |]; cbn.
  - destruct Hgen as [[? [=]] | [? [b Hb]]]. split; [done |]. apply elem_of_range in Hb. by eexists.
  - destruct Hgen as [_ Hall]. intros o [b Hb]. apply (Hall o b). by apply elem_of_range.
Qed.

Lemma evictLoop_spec fuel f s b add limit :
  acc_ok f → fs_incomingBySequence f !! s = Some b → (size (fs_incomingBySequence f) ≤ fuel)%nat →
  let '(fits, g) := evictLoop range fuel f s add limit in
  drops g f ∧ fs_incomingBySequence g !! s = Some b ∧
  fs_incomingSequence g = fs_incomingSequence f ∧ fs_incomingSequenceSet g = fs_incomingSequenceSet f ∧
  (fits = true → fs_incomingBytes g + add ≤ limit) ∧ (fb_bytes b + add ≤ limit → fits = true).
Proof.
  revert f. induction fuel as [| fuel IH]; intros f Hf Hb Hsize; cbn [evictLoop];
    (destruct (Z.leb_spec (fs_incomingBytes f + add) limit) as [Hfit | Hover];
      [split_and!; done || by apply drops_refl |]).
  - exfalso. assert (size (fs_incomingBySequence f) = 0%nat) as H0 by lia. apply map_size_empty_inv in H0.
    rewrite H0, lookup_empty in Hb. done.
  - pose proof (oldest_spec f s) as Ho. destruct (oldestIncomingFragmentSequence range f s) as [o |].
    + destruct Ho as [Hne [bo Hbo]].
      specialize (IH (deleteIncomingFragmentBuffer f o) (deleteIncoming_ok f o Hf)).
      rewrite deleteIncoming_buffers in IH. specialize (IH ltac:(by rewrite lookup_delete_ne)).
      specialize (IH ltac:(rewrite map_size_delete_Some by (by eexists); lia)).
      destruct (evictLoop _ _ _ _ _ _) as [fits g]. destruct (deleteIncoming_sequence f o) as [E1 E2].
      destruct IH as (Hd & Hg & Hs1 & Hs2 & Hfit & Hok).
      split_and!; [| done | by rewrite Hs1 | by rewrite Hs2 | done | done].
      eapply drops_trans; [done | by apply deleteIncoming_drops].
    + split_and!; [by apply drops_refl | done | done | done | done |].
      intros Hle. exfalso.
      assert (Hm : fs_incomingBySequence f = {[s := b]}).
      { apply map_eq. intros o. destruct (decide (o = s)) as [-> | Hne]; [by rewrite lookup_singleton_eq |].
        rewrite lookup_singleton_ne by done. destruct (fs_incomingBySequence f !! o) eqn:E; [| done].
        exfalso. apply Hne, Ho. by eexists. }
      rewrite (ao_total _ Hf), Hm in Hover. unfold map_sum in Hover. rewrite map_fold_singleton in Hover. lia.
Qed.

End Drops.

(** ** Storing a fragment *)

Definition maxPacketBytes (f : fragmentState) : Z :=
  if fs_reassemblyMaxPacketBytes f <=? 0 then openVPNFragmentReassemblyMaxPacketBytes else fs_reassemblyMaxPacketBytes f.

Definition maxReassemblyBytes (f : fragmentState) : Z :=
  if fs_reassemblyMaxBytes f <=? 0 then openVPNFragmentReassemblyMaxBytes else fs_reassemblyMaxBytes f.

Definition timeoutOf (f : fragmentState) : Z :=
  if fs_reassemblyTimeout f <=? 0 then openVPNFragmentReassemblyTimeout else fs_reassemblyTimeout f.

Lemma maxReassemblyBytes_pos f : 0 < maxReassemblyBytes f.
Proof. unfold maxReassemblyBytes, openVPNFragmentReassemblyMaxBytes. destruct (Z.leb_spec (fs_reassemblyMaxBytes f) 0); lia. Qed.

#[export] Instance maxPacketBytes_Proper : Proper (sameLimits ==> eq) maxPacketBytes.
Proof. intros f g (_ & _ & _ & H). unfold maxPacketBytes. by rewrite H. Qed.

#[export] Instance maxReassemblyBytes_Proper : Proper (sameLimits ==> eq) maxReassemblyBytes.
Proof. intros f g (_ & _ & H & _). unfold maxReassemblyBytes. by rewrite H. Qed.

#[export] Instance timeoutOf_Proper : Proper (sameLimits ==> eq) timeoutOf.
Proof. intros f g (_ & H & _). unfold timeoutOf. by rewrite H. Qed.

Lemma setIncoming_ok f s b n :
  acc_ok f → fb_bytes b = map_sum lenZ (fb_parts b) →
  n = fs_incomingBytes f + fb_bytes b - from_option fb_bytes 0 (fs_incomingBySequence f !! s) →
  acc_ok (setIncoming f (<[s := b]> (fs_incomingBySequence f)) n).
Proof.
  intros Hf Hb ->. split; cbn.
  - rewrite map_sum_replace, (ao_total _ Hf). done.
  - apply map_Forall_insert_2; [done | apply Hf].
Qed.

(** The buffer a fragment goes into, and the state that holds it. *)
Lemma openFragmentBuffer_spec f now s F :
  acc_ok f →
  let '(b, g) := openFragmentBuffer f now s F in
  acc_ok g ∧ sameLimits g f ∧ fs_incomingBytes g ≤ fs_incomingBytes f ∧
  fs_incomingBySequence g !! s = Some b ∧ fb_maxSize b = F ∧
  fs_incomingSequence g = fs_incomingSequence f ∧ fs_incomingSequenceSet g = fs_incomingSequenceSet f ∧
  (fs_incomingBySequence f !! s = Some b ∨ b = mkBuffer F (-1) ∅ 0 now).
Proof.
  intros Hf. unfold openFragmentBuffer.
  assert (Hfresh : ∀ f', acc_ok f' → fs_incomingBySequence f' !! s = None →
    acc_ok (setIncoming f' (<[s := mkBuffer F (-1) ∅ 0 now]> (fs_incomingBySequence f')) (fs_incomingBytes f'))).
  { intros f' Hf' Hn. apply setIncoming_ok; [done | by cbn; rewrite map_sum_empty |]. rewrite Hn. cbn. lia. }
  destruct (fs_incomingBySequence f !! s) as [b |] eqn:Hs.
  - destruct (Z.eqb_spec (fb_maxSize b) F) as [HF | HF]; cbn [negb].
    + split_and!; try done. by left.
    + pose proof (deleteIncoming_drops f s Hf) as [Hok Hlim Hle _]. destruct (deleteIncoming_sequence f s) as [E1 E2].
      split_and!; try done; [| cbn; apply lookup_insert_eq | by right].
      apply Hfresh; [done |]. rewrite deleteIncoming_buffers. apply lookup_delete_eq.
  - split_and!; try done; [by apply Hfresh | cbn; apply lookup_insert_eq | by right].
Qed.

Section Store.
Context (range : gmap Z incomingFragmentBuffer → list (Z * incomingFragmentBuffer)).
Hypothesis range_perm : ∀ m, range m ≡ₚ map_to_list m.

Lemma deleteIncoming_keeps g f s :
  acc_ok g → sameLimits g f → fs_incomingBytes g ≤ maxReassemblyBytes f →
  acc_ok (deleteIncomingFragmentBuffer g s) ∧ sameLimits (deleteIncomingFragmentBuffer g s) f ∧
  fs_incomingBytes (deleteIncomingFragmentBuffer g s) ≤ maxReassemblyBytes f.
Proof.
  intros Hg Hgl Hgb. pose proof (deleteIncoming_drops g s Hg) as [? ? ? _]. split_and!; [done | by etrans | lia].
Qed.

Lemma putFragmentPart_ok f f0 now s i m last payload b add :
  acc_ok f → fs_incomingBySequence f !! s = Some b → sameLimits f f0 →
  add = lenZ payload - lenZ (default [] (fb_parts b !! i)) → fs_incomingBytes f + add ≤ maxReassemblyBytes f0 →
  let g := (putFragmentPart f now s i m last payload b add).2 in
  acc_ok g ∧ sameLimits g f0 ∧ fs_incomingBytes g ≤ maxReassemblyBytes f0.
Proof.
  intros Hf Hs Hl Hadd Hle. unfold putFragmentPart. cbv zeta.
  match goal with |- context [setIncoming f (<[s := ?b']> _) ?n] =>
    assert (Hf5 : acc_ok (setIncoming f (<[s := b']> (fs_incomingBySequence f)) n)) end.
  { apply setIncoming_ok; [done | | rewrite Hs; cbn; lia]. cbn.
    rewrite map_sum_replace. pose proof (ao_buffers _ Hf s b Hs) as ->.
    rewrite Hadd. destruct (fb_parts b !! i); cbn [from_option Datatypes.id]; [lia |].
    change (lenZ []) with 0. lia. }
  set (f5 := setIncoming f _ _) in *. assert (Hl5 : sameLimits f5 f0) by done.
  assert (fs_incomingBytes f5 ≤ maxReassemblyBytes f0) by done.
  destruct (_ <? 0); [by cbn |]. destruct (collectParts _ _ _); [by apply deleteIncoming_keeps | by cbn].
Qed.

(** What every call of [storeIncomingFragment] keeps. *)
Lemma storeIncomingFragment_ok f now s i m last payload :
  acc_ok f → fs_incomingBytes f ≤ maxReassemblyBytes f →
  let g := (storeIncomingFragment range f now s i m last payload).2 in
  acc_ok g ∧ sameLimits g f ∧ fs_incomingBytes g ≤ maxReassemblyBytes f.
Proof.
  intros Hf Hle. unfold storeIncomingFragment. cbv zeta.
  pose proof (expire_drops range f now Hf) as [Hf1 Hl1 Hb1 _].
  set (f1 := expireIncomingFragments range f now) in *. fold (maxPacketBytes f1). fold (maxReassemblyBytes f1).
  assert (E1 : maxPacketBytes f1 = maxPacketBytes f) by by rewrite Hl1.
  assert (E2 : maxReassemblyBytes f1 = maxReassemblyBytes f) by by rewrite Hl1. rewrite E1, E2.
  destruct (maxPacketBytes f <? lenZ payload); [cbn; split_and!; done || lia |].
  pose proof (advance_drops range f1 s Hf1) as [Hf2 Hl2 Hb2 _].
  set (f2 := advanceIncomingFragmentWindow range f1 s) in *.
  set (F := if 0 <? m then m else lenZ payload).
  pose proof (openFragmentBuffer_spec f2 now s F Hf2) as Hopen.
  destruct (openFragmentBuffer f2 now s F) as [b f3].
  destruct Hopen as (Hf3 & Hl3 & Hb3 & Hs3 & HF & _ & _ & _).
  assert (Hl : sameLimits f3 f) by (etrans; [done | etrans; done]).
  set (add := lenZ payload - lenZ (default [] (fb_parts b !! i))).
  destruct (maxPacketBytes f <? fb_bytes b + add); [apply deleteIncoming_keeps; done || lia |].
  pose proof (evictLoop_spec range range_perm (size (fs_incomingBySequence f3)) f3 s b add (maxReassemblyBytes f)
    Hf3 Hs3 ltac:(lia)) as Hev.
  destruct (evictLoop _ _ _ _ _ _) as [fits f4]. destruct Hev as ([Hf4 Hl4 Hb4 _] & Hs4 & _ & _ & Hfits & _).
  destruct fits; cbn [negb]; [| apply deleteIncoming_keeps; [done | by etrans | lia]].
  apply putFragmentPart_ok; [done | done | by etrans | done | by apply Hfits].
Qed.

Lemma decodeFragment_ok f now payload :
  acc_ok f → fs_incomingBytes f ≤ maxReassemblyBytes f →
  let g := (decodeFragment range f now payload).2 in
  acc_ok g ∧ sameLimits g f ∧ fs_incomingBytes g ≤ maxReassemblyBytes f.
Proof.
  intros Hf Hle. unfold decodeFragment. destruct (_ <? 4); [done |]. cbv zeta.
  destruct (_ =? openVPNFragmentTypeWhole); [by destruct (_ || _) |].
  destruct (_ || _); [| done]. by apply storeIncomingFragment_ok.
Qed.

End Store.

(** The calls of the receive path, with what they return. *)
Definition decodeRun (range : gmap Z incomingFragmentBuffer → list (Z * incomingFragmentBuffer))
    (f : fragmentState) (arrivals : list (Time * bytes)) : list (result (option bytes)) * fragmentState :=
  foldl (λ '(out, f) '(now, payload), let '(r, f) := decodeFragment range f now payload in (out ++ [r], f))
    ([], f) arrivals.

Definition newFragmentState (outgoingSequence : Z) : fragmentState :=
  mkFragment outgoingSequence ∅ 0 0 false openVPNFragmentReassemblyTimeout openVPNFragmentReassemblyMaxBytes
    openVPNFragmentReassemblyMaxPacketBytes.

(** Whatever octets a peer sends as fragments, at whatever times, the
    receiver never holds more than the 4 MiB of its reassembly limit, and
    [incomingBytes] is exactly the number of octets it holds. *)
Theorem reassembly_memory_bounded range outgoingSequence arrivals :
  (∀ m, range m ≡ₚ map_to_list m) →
  let f := (decodeRun range (newFragmentState outgoingSequence) arrivals).2 in
  fs_incomingBytes f = map_sum (λ b, map_sum lenZ (fb_parts b)) (fs_incomingBySequence f) ∧
  0 ≤ fs_incomingBytes f ≤ openVPNFragmentReassemblyMaxBytes.
Proof.
  intros Hrange f.
  assert (Hinv : acc_ok f ∧ sameLimits f (newFragmentState outgoingSequence) ∧
                 fs_incomingBytes f ≤ openVPNFragmentReassemblyMaxBytes).
  { unfold f, decodeRun. clear f. induction arrivals as [| [now payload] arrivals IH] using rev_ind.
    - cbn. split_and!; [| done | done]. split; cbn; [by rewrite map_sum_empty | apply map_Forall_empty].
    - rewrite foldl_app. cbn [foldl]. destruct (foldl _ _ arrivals) as [out g]. cbn [snd] in IH.
      destruct IH as (Hg & Hl & Hb).
      assert (Hlim : maxReassemblyBytes g = openVPNFragmentReassemblyMaxBytes) by by rewrite Hl.
      pose proof (decodeFragment_ok range Hrange g now payload Hg ltac:(by rewrite Hlim)) as (Hg' & Hl' & Hb').
      destruct (decodeFragment range g now payload) as [r g']. cbn [snd] in *.
      split_and!; [done | by etrans | by rewrite <- Hlim]. }
  destruct Hinv as (Hf & _ & Hb). split; [| split; [by apply acc_nonneg | done]].
  rewrite (ao_total _ Hf). apply map_sum_ext, Hf.
Qed.

(** ** Reassembly *)

Definition inWindow (f : fragmentState) (s : Z) : Prop :=
  fs_incomingSequenceSet f = true ∧
  - openVPNFragmentReceiveWindow < fragmentSequenceDifference s (fs_incomingSequence f) ≤ 0.

Definition lastIDOf (n : Z) (parts : gmap Z bytes) : Z := if decide (is_Some (parts !! (n - 1))) then n - 1 else -1.

(** The receiver has exactly [parts] of the packet [s] of [n] fragments. *)
Definition holds (f : fragmentState) (s F n : Z) (parts : gmap Z bytes) (t : Time) : Prop :=
  ∃ bytes, fs_incomingBySequence f !! s = Some (mkBuffer F (lastIDOf n parts) parts bytes t) ∧ inWindow f s.

Definition ready (f : fragmentState) (s F n : Z) (parts : gmap Z bytes) (t : Time) : Prop :=
  (parts = ∅ ∧ fs_incomingBySequence f !! s = None) ∨ holds f s F n parts t.

Lemma fragmentSequenceDifference_diag s : fragmentSequenceDifference s s = 0.
Proof. unfold fragmentSequenceDifference. by rewrite Z.sub_diag. Qed.

Section Reassemble.
Context (range : gmap Z incomingFragmentBuffer → list (Z * incomingFragmentBuffer)).
Hypothesis range_perm : ∀ m, range m ≡ₚ map_to_list m.

Lemma expire_keeps f now s :
  (∀ b, fs_incomingBySequence f !! s = Some b → fb_updated b ≠ 0 ∧ now - fb_updated b < timeoutOf f) →
  let g := expireIncomingFragments range f now in
  fs_incomingBySequence g !! s = fs_incomingBySequence f !! s ∧
  fs_incomingSequence g = fs_incomingSequence f ∧ fs_incomingSequenceSet g = fs_incomingSequenceSet f.
Proof.
  intros Hb. apply deleteWhere_keeps; [done |]. intros b Hs. destruct (Hb b Hs) as [Hz Hlt].
  fold (timeoutOf f). unfold IsZero. rewrite (proj2 (Z.eqb_neq _ _)) by done. cbn.
  apply Z.leb_gt. lia.
Qed.

Lemma deleteWhere_sequence P f :
  fs_incomingSequence (deleteWhere range P f) = fs_incomingSequence f ∧
  fs_incomingSequenceSet (deleteWhere range P f) = fs_incomingSequenceSet f.
Proof.
  unfold deleteWhere. generalize (range (fs_incomingBySequence f)) as l. intros l. revert f.
  induction l as [| [s b] l IH]; intros f; cbn; [done |]. destruct (P s b); [| apply IH].
  destruct (IH (deleteIncomingFragmentBuffer f s)) as [-> ->]. apply deleteIncoming_sequence.
Qed.

(** After the window moved, the fragment's packet is in it. *)
Lemma advance_inWindow f s : inWindow (advanceIncomingFragmentWindow range f s) s.
Proof.
  unfold advanceIncomingFragmentWindow, inWindow, openVPNFragmentReceiveWindow.
  destruct (fs_incomingSequenceSet f) eqn:Hset; cbn [negb].
  - set (d := fragmentSequenceDifference s (fs_incomingSequence f)).
    destruct ((25 <=? d) || (d <=? Z.opp 25)) eqn:Hfar; [cbn [setIncomingSequence fs_incomingSequence fs_incomingSequenceSet]; rewrite fragmentSequenceDifference_diag; split; [done | lia] |].
    apply orb_false_iff in Hfar as [H1 H2]. apply Z.leb_gt in H1, H2.
    destruct (Z.leb_spec d 0); [split; [done | lia] |]. cbv zeta.
    match goal with |- context [deleteWhere range ?P ?f'] => destruct (deleteWhere_sequence P f') as [-> ->] end.
    cbn [setIncomingSequence fs_incomingSequence fs_incomingSequenceSet]. rewrite fragmentSequenceDifference_diag. split; [done | lia].
  - cbn [setIncomingSequence fs_incomingSequence fs_incomingSequenceSet]. rewrite fragmentSequenceDifference_diag. split; [done | lia].
Qed.

Lemma advance_id f s : inWindow f s → advanceIncomingFragmentWindow range f s = f.
Proof.
  intros [Hset Hd]. unfold advanceIncomingFragmentWindow, openVPNFragmentReceiveWindow in *. rewrite Hset. cbn [negb].
  set (d := fragmentSequenceDifference s (fs_incomingSequence f)) in *.
  destruct (Z.leb_spec 25 d); [lia |]. destruct (Z.leb_spec d (Z.opp 25)); [lia |]. cbn [orb].
  destruct (Z.leb_spec d 0); [done | lia].
Qed.

(** The packet is complete exactly when the last part and all before it are there. *)
Definition completed (n : Z) (parts : gmap Z bytes) : option bytes :=
  if decide (is_Some (parts !! (n - 1))) then collectParts (Z.to_nat n) 0 parts else None.

Lemma lastIDOf_insert n parts i c :
  parts !! i = None →
  (if i =? n - 1 then i else lastIDOf n parts) = lastIDOf n (<[i := c]> parts).
Proof.
  intros Hi. unfold lastIDOf. destruct (Z.eqb_spec i (n - 1)) as [-> | Hne].
  - rewrite lookup_insert_eq. by rewrite decide_True by eauto.
  - by rewrite lookup_insert_ne by done.
Qed.

Lemma putFragmentPart_step f now s F n parts i c bytes_ t :
  1 ≤ n → 0 < F → parts !! i = None → inWindow f s →
  let b := mkBuffer F (lastIDOf n parts) parts bytes_ t in
  let '(r, g) := putFragmentPart f now s i (if i =? n - 1 then F else 0) (i =? n - 1) c b (lenZ c) in
  r = Ok (completed n (<[i := c]> parts)) ∧
  (completed n (<[i := c]> parts) = None → holds g s F n (<[i := c]> parts) now).
Proof.
  intros Hn HF Hi Hw. cbv zeta. unfold putFragmentPart. cbn [fb_maxSize fb_lastID fb_parts fb_bytes]. cbv zeta.
  rewrite (lastIDOf_insert n parts i c Hi).
  assert (Hmax : (if 0 <? (if i =? n - 1 then F else 0) then (if i =? n - 1 then F else 0)
                  else if F =? 0 then lenZ c else F) = F).
  { destruct (i =? n - 1); cbn; [| by rewrite (proj2 (Z.eqb_neq F 0)) by lia].
    by rewrite (proj2 (Z.ltb_lt 0 F)) by lia. }
  rewrite Hmax. set (P' := <[i := c]> parts). unfold completed.
  assert (Hheld : ∀ bs n', holds (setIncoming f (<[s := mkBuffer F (lastIDOf n P') P' bs now]> (fs_incomingBySequence f)) n') s F n P' now).
  { intros bs n'. exists bs. split; [cbn; apply lookup_insert_eq | done]. }
  destruct (decide (is_Some (P' !! (n - 1)))) as [Hlast | Hlast].
  - assert (Hid : lastIDOf n P' = n - 1) by (unfold lastIDOf; by rewrite decide_True). rewrite Hid in *.
    destruct (Z.ltb_spec (n - 1) 0); [lia |]. replace (n - 1 + 1) with n by lia.
    destruct (collectParts (Z.to_nat n) 0 P'); [by split |]. split; [done |]. intros _. apply Hheld.
  - assert (Hid : lastIDOf n P' = -1) by (unfold lastIDOf; by rewrite decide_False). rewrite Hid in *.
    cbn. split; [done |]. intros _. apply Hheld.
Qed.

Lemma storeIncomingFragment_step f now s F n parts t i c :
  acc_ok f → ready f s F n parts t → t ≠ 0 → now - t < timeoutOf f →
  1 ≤ n → 0 < F → parts !! i = None → lenZ c ≤ F → (i ≠ n - 1 → lenZ c = F) →
  map_sum lenZ parts + lenZ c ≤ maxPacketBytes f → maxPacketBytes f ≤ maxReassemblyBytes f →
  let '(r, g) := storeIncomingFragment range f now s i (if i =? n - 1 then F else 0) (i =? n - 1) c in
  r = Ok (completed n (<[i := c]> parts)) ∧
  (completed n (<[i := c]> parts) = None → holds g s F n (<[i := c]> parts) now).
Proof.
  intros Hf Hready Ht Hexp Hn HF Hi Hc HcF Hmax Hlim. unfold storeIncomingFragment. cbv zeta.
  pose proof (expire_drops range f now Hf) as [Hf1 Hl1 Hb1 _].
  pose proof (expire_keeps f now s) as Hkeep. cbv zeta in Hkeep.
  set (f1 := expireIncomingFragments range f now) in *. fold (maxPacketBytes f1). fold (maxReassemblyBytes f1).
  assert (E1 : maxPacketBytes f1 = maxPacketBytes f) by by rewrite Hl1.
  assert (E2 : maxReassemblyBytes f1 = maxReassemblyBytes f) by by rewrite Hl1. rewrite E1, E2.
  assert (0 ≤ map_sum lenZ parts) by (apply map_sum_nonneg; intros x; apply lenZ_nonneg).
  destruct (Z.ltb_spec (maxPacketBytes f) (lenZ c)); [lia |].
  assert (HFsize : (if 0 <? (if i =? n - 1 then F else 0) then (if i =? n - 1 then F else 0) else lenZ c) = F).
  { destruct (Z.eqb_spec i (n - 1)); [by rewrite (proj2 (Z.ltb_lt 0 F)) by lia | cbn; auto]. }
  rewrite HFsize.
  pose proof (advance_drops range f1 s Hf1) as [Hf2 Hl2 Hb2 Hs2].
  pose proof (advance_inWindow f1 s) as Hw2.
  assert (Hm2 : (parts = ∅ ∧ fs_incomingBySequence (advanceIncomingFragmentWindow range f1 s) !! s = None) ∨
    ∃ bs, fs_incomingBySequence (advanceIncomingFragmentWindow range f1 s) !! s = Some (mkBuffer F (lastIDOf n parts) parts bs t)).
  { destruct Hready as [[-> Hnone] | (bs & Hs & Hw)].
    - left. split; [done |]. destruct Hkeep as [Hk _]; [by intros b Hb; rewrite Hnone in Hb |].
      eapply lookup_weaken_None; [| exact Hs2]. by rewrite Hk.
    - right. exists bs. destruct Hkeep as (Hk & Hq & Hqs); [by intros b Hb; rewrite Hs in Hb; injection Hb as <- |].
      rewrite advance_id; [by rewrite Hk |]. unfold inWindow. by rewrite Hq, Hqs. }
  set (f2 := advanceIncomingFragmentWindow range f1 s) in *.
  pose proof (openFragmentBuffer_spec f2 now s F Hf2) as Hopen.
  assert (Hb : ∃ bs t', (openFragmentBuffer f2 now s F).1 = mkBuffer F (lastIDOf n parts) parts bs t').
  { unfold openFragmentBuffer. destruct Hm2 as [[-> ->] | [bs ->]]; cbn.
    - eexists 0, now. unfold lastIDOf. rewrite lookup_empty. by rewrite decide_False by by intros [].
    - rewrite Z.eqb_refl. cbn. by eexists _, _. }
  destruct (openFragmentBuffer f2 now s F) as [b f3]. destruct Hb as (bs & t' & Hb). cbn [fst] in Hb. subst b.
  destruct Hopen as (Hf3 & Hl3 & Hb3 & Hs3 & _ & Hq3 & Hqs3 & _). cbn [fb_parts fb_bytes].
  rewrite Hi. cbn [from_option Datatypes.id]. change (lenZ (@nil byte)) with 0. rewrite Z.sub_0_r.
  pose proof (ao_buffers _ Hf3 s _ Hs3) as Hbs. cbn in Hbs. subst bs.
  destruct (Z.ltb_spec (maxPacketBytes f) (map_sum lenZ parts + lenZ c)); [lia |].
  pose proof (evictLoop_spec range range_perm (size (fs_incomingBySequence f3)) f3 s _ (lenZ c) (maxReassemblyBytes f)
    Hf3 Hs3 ltac:(lia)) as Hev.
  destruct (evictLoop _ _ _ _ _ _) as [fits f4]. destruct Hev as (_ & Hs4 & Hq4 & Hqs4 & _ & Hfits). cbn in Hfits.
  rewrite Hfits by lia. cbn [negb].
  apply putFragmentPart_step; [done | done | done |].
  unfold inWindow. rewrite Hq4, Hqs4, Hq3, Hqs3. exact Hw2.
Qed.

End Reassemble.

(** ** A whole packet *)

Lemma collectParts_missing count start parts i :
  start ≤ i < start + Z.of_nat count → parts !! i = None → collectParts count start parts = None.
Proof.
  revert start. induction count as [| count IH]; intros start Hi Hn; [lia |]. cbn.
  destruct (decide (i = start)) as [-> |]; [by rewrite Hn |].
  destruct (parts !! start); [| done]. cbn. by rewrite IH by (done || lia).
Qed.

Lemma collectParts_all start chunks parts :
  (∀ p, p ∈ numbered start chunks → parts !! p.1 = Some p.2) →
  collectParts (length chunks) start parts = Some (concat chunks).
Proof.
  revert start. induction chunks as [| c chunks IH]; intros start Hall; [done |]. cbn.
  pose proof (Hall (start, c) ltac:(by left)) as Hc. cbn in Hc. rewrite Hc. cbn. rewrite IH; [done |]. intros p Hp. apply Hall. by right.
Qed.

Lemma numbered_keys k i cs : 0 ≤ i < lenZ cs → k + i ∈ (numbered k cs).*1.
Proof.
  revert k i. induction cs as [| c cs IH]; intros k i Hi; unfold lenZ in *; cbn [length numbered] in *; [lia |].
  rewrite fmap_cons, elem_of_cons. destruct (decide (i = 0)) as [-> |]; [left; cbn; lia | right].
  replace (k + i) with (k + 1 + (i - 1)) by lia. apply IH. lia.
Qed.

Fixpoint sumlen (l : list (Z * bytes)) : Z := match l with [] => 0 | (_, x) :: l => lenZ x + sumlen l end.

Lemma map_sum_sumlen (l : list (Z * bytes)) : NoDup l.*1 → map_sum lenZ (list_to_map l : gmap Z bytes) = sumlen l.
Proof. intros Hl. rewrite map_sum_list by done. induction l as [| [i x] l IH]; [done |]. cbn in *. apply NoDup_cons in Hl as [_ Hl]. by rewrite IH. Qed.

Lemma sumlen_app l k : sumlen (l ++ k) = sumlen l + sumlen k.
Proof. induction l as [| [i x] l IH]; cbn; [done | rewrite IH; lia]. Qed.

Lemma sumlen_nonneg l : 0 ≤ sumlen l.
Proof. induction l as [| [i x] l IH]; cbn; [done | pose proof (lenZ_nonneg x); lia]. Qed.

#[export] Instance sumlen_Permutation : Proper ((≡ₚ) ==> eq) sumlen.
Proof. induction 1 as [| [i x] l k _ IH | [i x] [j y] l | l k m _ IH1 _ IH2]; cbn; lia. Qed.

Lemma sumlen_numbered i chunks : sumlen (numbered i chunks) = lenZ (concat chunks).
Proof.
  revert i. induction chunks as [| c chunks IH]; intros i; cbn; [done |]. rewrite IH. unfold lenZ. rewrite length_app. lia.
Qed.

Lemma decodeRun_cons range f now payload arrivals :
  decodeRun range f ((now, payload) :: arrivals) =
    let '(r, g) := decodeFragment range f now payload in
    let '(out, h) := decodeRun range g arrivals in (r :: out, h).
Proof.
  assert (Hgen : ∀ l out g, foldl (λ '(out, f) '(now, payload), let '(r, f) := decodeFragment range f now payload in (out ++ [r], f))
      (out, g) l = let '(out', h) := decodeRun range g l in (out ++ out', h)).
  { unfold decodeRun. induction l as [| [t p] l IH]; intros out g; cbn; [by rewrite app_nil_r |].
    destruct (decodeFragment range g t p) as [r g']. rewrite (IH (out ++ [r])), (IH [r]).
    destruct (foldl _ ([], g') l) as [o h]. by rewrite <- app_assoc. }
  unfold decodeRun at 1. cbn [foldl]. destruct (decodeFragment range f now payload) as [r g]. cbn [app].
  rewrite Hgen. by destruct (decodeRun range g arrivals).
Qed.

(** Consecutive arrivals are less than the timeout apart; zero is not a time of the clock. *)
Fixpoint timely (timeout : Z) (t : Time) (times : list Time) : Prop :=
  match times with
  | [] => True
  | now :: times => now ≠ 0 ∧ now - t < timeout ∧ timely timeout now times
  end.

Section Packet.
Context (range : gmap Z incomingFragmentBuffer → list (Z * incomingFragmentBuffer)).
Hypothesis range_perm : ∀ m, range m ≡ₚ map_to_list m.
Context (s F : Z) (chunks : list bytes).
Let n : Z := lenZ chunks.
Hypothesis Hs : 0 ≤ s < 256.
Hypothesis HF : 0 < F < 65536.
Hypothesis HF4 : F mod 4 = 0.
Hypothesis Hn : 1 ≤ n ≤ 32.
Hypothesis Hsize : ∀ p, p ∈ numbered 0 chunks → lenZ p.2 ≤ F ∧ (p.1 ≠ n - 1 → lenZ p.2 = F).

Lemma decodeFragment_frameOf f now p :
  p ∈ numbered 0 chunks →
  decodeFragment range f now (frameOf s F (n - 1) p) =
    storeIncomingFragment range f now s p.1 (if p.1 =? n - 1 then F else 0) (p.1 =? n - 1) p.2.
Proof.
  intros Hp. apply elem_of_numbered in Hp. unfold frameOf, openVPNFragmentTypeLast, openVPNFragmentTypePartial,
    openVPNFragmentSizeRoundShift. fold n in Hp.
  assert (Hm : 0 ≤ Z.shiftr F 2 < 16384 ∧ 4 * Z.shiftr F 2 = F).
  { rewrite Z.shiftr_div_pow2 by lia. change (2 ^ 2) with 4. Z.to_euclidean_division_equations. lia. }
  destruct (p.1 =? n - 1); rewrite decodeFragment_prepend by lia; cbn [Z.eqb Pos.eqb]; [| done].
  by replace (4 * Z.shiftr F 2) with F by lia.
Qed.

Lemma full_NoDup processed todo : processed ++ todo ≡ₚ numbered 0 chunks → NoDup (processed ++ todo).*1.
Proof. intros Hp. rewrite Hp. apply numbered_NoDup. Qed.

Lemma completed_missing processed todo p :
  processed ++ p :: todo ≡ₚ numbered 0 chunks → completed n (list_to_map processed) = None.
Proof.
  intros Hp. pose proof (full_NoDup _ _ Hp) as Hnd.
  assert (Hin : p ∈ numbered 0 chunks) by (rewrite <- Hp; set_solver).
  apply elem_of_numbered in Hin. fold n in Hin.
  assert (Hnone : (list_to_map processed : gmap Z bytes) !! p.1 = None).
  { apply not_elem_of_list_to_map_1. rewrite fmap_app, fmap_cons in Hnd. apply NoDup_app in Hnd as (_ & Hd & _).
    intros Hx. apply (Hd _ Hx). by left. }
  unfold completed. destruct (decide _); [| done]. apply (collectParts_missing _ _ _ p.1); [lia | done].
Qed.

Lemma completed_all processed :
  processed ≡ₚ numbered 0 chunks → completed n (list_to_map processed) = Some (concat chunks).
Proof.
  intros Hp.
  assert (Hall : ∀ p, p ∈ numbered 0 chunks → (list_to_map processed : gmap Z bytes) !! p.1 = Some p.2).
  { intros p Hin. apply elem_of_list_to_map_1; [rewrite Hp; apply numbered_NoDup |]. rewrite Hp. by destruct p. }
  unfold completed. rewrite decide_True.
  - unfold n, lenZ. rewrite Nat2Z.id. by apply collectParts_all.
  - destruct (list_elem_of_fmap_1 fst (numbered 0 chunks) (n - 1)) as (p & Hp1 & Hp2).
    { replace (n - 1) with (0 + (n - 1)) by lia. apply numbered_keys. fold n. lia. }
    rewrite Hp1. rewrite Hall by done. by eexists.
Qed.

Lemma reassemble_run processed todo times f t :
  acc_ok f → fs_incomingBytes f ≤ maxReassemblyBytes f →
  ready f s F n (list_to_map processed) t → t ≠ 0 →
  processed ++ todo ≡ₚ numbered 0 chunks → todo ≠ [] → length times = length todo →
  timely (timeoutOf f) t times →
  lenZ (concat chunks) ≤ maxPacketBytes f → maxPacketBytes f ≤ maxReassemblyBytes f →
  (decodeRun range f (zip times (frameOf s F (n - 1) <$> todo))).1 =
    replicate (length todo - 1) (Ok None) ++ [Ok (Some (concat chunks))].
Proof.
  revert processed times f t. induction todo as [| p todo IH]; intros processed times f t Hf Hle Hready Ht Hperm Hne Hlen Htime Hmax Hlim; [done |].
  destruct times as [| now times]; [done |]. destruct Htime as (Hnow & Hexp & Htime).
  cbn [fmap list_fmap zip zip_with]. rewrite decodeRun_cons.
  assert (Hin : p ∈ numbered 0 chunks) by (rewrite <- Hperm; set_solver).
  rewrite decodeFragment_frameOf by done.
  pose proof (full_NoDup _ _ Hperm) as Hnd. rewrite fmap_app, fmap_cons in Hnd.
  apply NoDup_app in Hnd as (Hnd1 & Hd & _).
  assert (Hnone : (list_to_map processed : gmap Z bytes) !! p.1 = None).
  { apply not_elem_of_list_to_map_1. intros Hx. apply (Hd _ Hx). by left. }
  destruct (Hsize p Hin) as [Hc1 Hc2].
  assert (Hsum : map_sum lenZ (list_to_map processed : gmap Z bytes) + lenZ p.2 ≤ maxPacketBytes f).
  { rewrite map_sum_sumlen by done.
    rewrite <- (sumlen_numbered 0), <- Hperm, sumlen_app in Hmax. destruct p as [i c]. cbn in *.
    pose proof (sumlen_nonneg todo). lia. }
  pose proof (storeIncomingFragment_step range range_perm f now s F n (list_to_map processed) t p.1 p.2 Hf Hready Ht Hexp
    ltac:(lia) ltac:(lia) Hnone Hc1 Hc2 Hsum Hlim) as Hstep.
  pose proof (storeIncomingFragment_ok range range_perm f now s p.1 (if p.1 =? n - 1 then F else 0) (p.1 =? n - 1) p.2 Hf Hle) as (Hg & Hl & Hb).
  destruct (storeIncomingFragment range f now s p.1 _ _ p.2) as [r g]. cbn [snd] in *.
  destruct Hstep as [-> Hheld].
  assert (Hmap : <[p.1 := p.2]> (list_to_map processed : gmap Z bytes) = list_to_map (p :: processed)) by by destruct p.
  rewrite Hmap in *.
  assert (Hperm' : (p :: processed) ++ todo ≡ₚ numbered 0 chunks) by (rewrite <- Hperm; cbn; solve_Permutation).
  destruct todo as [| q todo].
  - rewrite app_nil_r in Hperm'. rewrite (completed_all _ Hperm'). by destruct times.
  - rewrite (completed_missing _ _ _ Hperm') in *. specialize (Hheld eq_refl).
    specialize (IH (p :: processed) times g now Hg).
    assert (E1 : maxPacketBytes g = maxPacketBytes f) by by rewrite Hl.
    assert (E2 : maxReassemblyBytes g = maxReassemblyBytes f) by by rewrite Hl.
    assert (E3 : timeoutOf g = timeoutOf f) by by rewrite Hl. rewrite E1, E2, E3 in IH.
    specialize (IH Hb (or_intror Hheld) Hnow Hperm' ltac:(done) ltac:(cbn in *; lia) Htime Hmax Hlim).
    destruct (decodeRun range g _) as [out h]. cbn [fst] in *. rewrite IH. cbn. by rewrite Nat.sub_0_r.
Qed.

End Packet.

Lemma encodeFragments_Ok f payload fragmentSize frames :
  (encodeFragments f payload fragmentSize).1 = Ok frames →
  ∃ F, 0 < F ∧ F mod 4 = 0 ∧
    ((lenZ payload ≤ F ∧ frames = [prependFragmentHeader payload 0 0 0 0]) ∨
     (F < lenZ payload ∧ encodeFragmentsLoop 33 (fs_outgoingSequence f) F 0 payload = Ok frames)).
Proof.
  unfold encodeFragments. set (F := Z.ldiff fragmentSize _).
  assert (HF4 : F mod 4 = 0).
  { unfold F, openVPNFragmentSizeRoundShift. change (Z.shiftl 1 2 - 1) with (Z.ones 2).
    rewrite Z.ldiff_ones_r, Z.shiftl_mul_pow2 by lia. change (2 ^ 2) with 4. by apply Z.mod_mul. }
  clearbody F. destruct (Z.leb_spec F 0); [done |].
  destruct (Z.leb_spec (lenZ payload) F); cbn [fst]; intros E; exists F; split_and!; try done.
  - left. split; [done |]. by injection E as <-.
  - right. done.
Qed.

(** The fragments a sender cuts a packet into, however the network reorders
    them, give the receiver exactly that packet when the last of them arrives
    and nothing before, for any receiver that is not in the middle of a packet
    with the same sequence number. *)
Lemma fragments_reassemble range f payload fragmentSize frames arrivals times g :
  (∀ m, range m ≡ₚ map_to_list m) →
  0 ≤ fs_outgoingSequence f < 256 → lenZ payload < 65536 →
  (encodeFragments f payload fragmentSize).1 = Ok frames → arrivals ≡ₚ frames →
  acc_ok g → fs_incomingBytes g ≤ maxReassemblyBytes g →
  lenZ payload ≤ maxPacketBytes g → maxPacketBytes g ≤ maxReassemblyBytes g →
  fs_incomingBySequence g !! fs_outgoingSequence f = None →
  length times = length arrivals → timely (timeoutOf g) (hd 1 times) times →
  (decodeRun range g (zip times arrivals)).1 = replicate (length frames - 1) (Ok None) ++ [Ok (Some payload)].
Proof.
  intros Hrange Hseq Hlen Henc Hperm Hg Hle Hmax Hlim Hnone Htimes Htimely.
  apply encodeFragments_Ok in Henc as (F & HF & HF4 & [[Hwhole ->] | [Hcut Henc]]).
  - apply Permutation_singleton_r in Hperm as ->. destruct times as [| now [| ? ?]]; try done.
    cbn [zip zip_with]. rewrite decodeRun_cons, decodeFragment_prepend by lia. done.
  - pose proof (lenZ_nonneg payload).
    assert (Hpne : payload ≠ []) by (intros ->; change (lenZ []) with 0 in Hcut; lia).
    apply encodeFragmentsLoop_spec in Henc as (chunks & <- & Hne & Hn & -> & Hsz); [| done | lia | done | done].
    cbn [Z.add] in *. rewrite Z.add_0_l in *.
    apply Permutation_map_inv in Hperm as (todo & -> & Hp).
    assert (Hn1 : 1 ≤ lenZ chunks) by (destruct chunks; [done | unfold lenZ; cbn; lia]).
    change (map (frameOf (fs_outgoingSequence f) F (lenZ chunks - 1)) todo)
      with (frameOf (fs_outgoingSequence f) F (lenZ chunks - 1) <$> todo) in *.
    rewrite length_fmap in *. rewrite (Permutation_length Hp).
    assert (Htodo : todo ≠ []).
    { intros ->. symmetry in Hp. apply Permutation_nil_l in Hp. destruct chunks; done. }
    destruct times as [| t0 times]; [by destruct todo |].
    apply (reassemble_run range Hrange _ F chunks Hseq ltac:(lia) HF4 ltac:(lia) Hsz [] todo (t0 :: times) g t0);
      try done.
    + left. done.
    + cbn in Htimely. tauto.
Qed.

Definition examplePayload : bytes := z2b <$> seqZ 0 19.

Definition exampleFrames : list bytes :=
  match (encodeFragments (newFragmentState 7) examplePayload 9).1 with Ok frames => frames | Err _ => [] end.

Lemma reassembly_memory_bounded_witness :
  let f := (decodeRun map_to_list (newFragmentState 0) (zip [5; 6] (take 2 exampleFrames))).2 in
  fs_incomingBytes f = 16 ∧ 0 ≤ fs_incomingBytes f ≤ openVPNFragmentReassemblyMaxBytes.
Proof.
  split; [vm_compute; reflexivity |].
  exact (proj2 (reassembly_memory_bounded map_to_list 0 (zip [5; 6] (take 2 exampleFrames)) (λ m, reflexivity _))).
Defined.

Lemma fragments_reassemble_witness :
  (decodeRun map_to_list (newFragmentState 0) (zip [5; 6; 7] (rev exampleFrames))).1 =
    [Ok None; Ok None; Ok (Some examplePayload)].
Proof.
  apply (fragments_reassemble map_to_list (newFragmentState 7) examplePayload 9 exampleFrames).
  - intros m. reflexivity.
  - cbn. lia.
  - vm_compute. reflexivity.
  - vm_compute. reflexivity.
  - symmetry. apply Permutation_rev.
  - split; cbn; [by rewrite map_sum_empty | apply map_Forall_empty].
  - vm_compute. discriminate.
  - vm_compute. discriminate.
  - vm_compute. discriminate.
  - reflexivity.
  - reflexivity.
  - vm_compute. repeat split; try discriminate; lia.
Defined.
