(* ===== verification/Crypto.v ===== *)
(** * The cryptography the codecs use

    The ciphers and hashes are libraries: a block cipher, an AEAD and an HMAC are
    parameters, with their documented laws as hypotheses of the theorems.  The
    chaining modes ([cipher.NewCBCEncrypter], [NewCFBEncrypter], [NewOFB]) are
    modelled and proved invertible, as is the padding of [data_codec_static.go]
    ([pkcs7Pad], [pkcs7Unpad]). *)

From S2P Require Import Prelude.

(** A [cipher.Block]. *)
Record Block := mkBlock {
  bl_size : nat;
  bl_encrypt : bytes → bytes;
  bl_decrypt : bytes → bytes;
}.

(** What every block cipher promises. *)
Record Block_laws (b : Block) : Prop := mkBlockLaws {
  bl_size_range : (8 ≤ bl_size b ≤ 255)%nat;
  bl_encrypt_length : ∀ x, length x = bl_size b → length (bl_encrypt b x) = bl_size b;
  bl_decrypt_encrypt : ∀ x, length x = bl_size b → bl_decrypt b (bl_encrypt b x) = x;
}.

(** A [cipher.AEAD]. *)
Record AEAD := mkAEAD {
  aead_NonceSize : nat;
  aead_Seal : bytes → bytes → bytes → bytes;
  aead_Open : bytes → bytes → bytes → result bytes;
}.

Definition tlsDataAEADTagSize : nat := 16.

Record AEAD_laws (a : AEAD) : Prop := mkAEADLaws {
  aead_seal_length : ∀ nonce plain ad, length (aead_Seal a nonce plain ad) = (length plain + tlsDataAEADTagSize)%nat;
  aead_open_seal : ∀ nonce plain ad, aead_Open a nonce (aead_Seal a nonce plain ad) ad = Ok plain;
}.

(** ** Exclusive or *)

Definition xorByte (x y : byte) : byte := z2b (Z.lxor (b2z x) (b2z y)).

Definition xorBytes (a b : bytes) : bytes := zip_with xorByte a b.

Lemma lxor_byte_range x y : 0 ≤ x < 256 → 0 ≤ y < 256 → 0 ≤ Z.lxor x y < 256.
Proof.
  intros Hx Hy. split; [apply Z.lxor_nonneg; lia |].
  destruct (decide (Z.lxor x y = 0)) as [-> |]; [lia |].
  apply (Z.log2_lt_cancel _ 256). rewrite (Z.log2_pow2 8 ltac:(lia) : Z.log2 256 = 8).
  pose proof (Z.log2_lxor x y ltac:(lia) ltac:(lia)).
  assert (∀ z, 0 ≤ z < 256 → Z.log2 z < 8) as Hl.
  { intros z Hz. destruct (decide (z = 0)) as [-> |]; [cbn; lia |]. apply Z.log2_lt_pow2; lia. }
  pose proof (Hl x Hx). pose proof (Hl y Hy). lia.
Qed.

Lemma xorByte_involutive x y : xorByte (xorByte x y) y = x.
Proof.
  unfold xorByte. pose proof (b2z_range x) as Hx. pose proof (b2z_range y) as Hy.
  rewrite b2z_z2b_small by (by apply lxor_byte_range).
  rewrite Z.lxor_assoc, Z.lxor_nilpotent, Z.lxor_0_r. apply z2b_b2z.
Qed.

Lemma length_xorBytes a b : (length a ≤ length b)%nat → length (xorBytes a b) = length a.
Proof. intros H. unfold xorBytes. rewrite length_zip_with. lia. Qed.

Lemma xorBytes_involutive a b : (length a ≤ length b)%nat → xorBytes (xorBytes a b) b = a.
Proof.
  revert b. induction a as [| x a IH]; intros [| y b] H; cbn in *; try done; [lia |].
  rewrite xorByte_involutive. f_equal. apply IH. lia.
Qed.

(** ** Chaining modes

    [fuel] bounds the number of blocks; the length of the input is enough. *)

Fixpoint cbcEncrypt (fuel : nat) (b : Block) (iv p : bytes) : bytes :=
  match fuel with
  | O => []
  | S fuel =>
      if decide (p = []) then [] else
      let c := bl_encrypt b (xorBytes (take (bl_size b) p) iv) in
      c ++ cbcEncrypt fuel b c (drop (bl_size b) p)
  end.

Fixpoint cbcDecrypt (fuel : nat) (b : Block) (iv c : bytes) : bytes :=
  match fuel with
  | O => []
  | S fuel =>
      if decide (c = []) then [] else
      let block := take (bl_size b) c in
      xorBytes (bl_decrypt b block) iv ++ cbcDecrypt fuel b block (drop (bl_size b) c)
  end.

Fixpoint cfbEncrypt (fuel : nat) (b : Block) (iv p : bytes) : bytes :=
  match fuel with
  | O => []
  | S fuel =>
      if decide (p = []) then [] else
      let c := xorBytes (take (bl_size b) p) (bl_encrypt b iv) in
      c ++ cfbEncrypt fuel b c (drop (bl_size b) p)
  end.

Fixpoint cfbDecrypt (fuel : nat) (b : Block) (iv c : bytes) : bytes :=
  match fuel with
  | O => []
  | S fuel =>
      if decide (c = []) then [] else
      let block := take (bl_size b) c in
      xorBytes block (bl_encrypt b iv) ++ cfbDecrypt fuel b block (drop (bl_size b) c)
  end.

Fixpoint ofbCrypt (fuel : nat) (b : Block) (iv p : bytes) : bytes :=
  match fuel with
  | O => []
  | S fuel =>
      if decide (p = []) then [] else
      let keystream := bl_encrypt b iv in
      xorBytes (take (bl_size b) p) keystream ++ ofbCrypt fuel b keystream (drop (bl_size b) p)
  end.

Definition CBCEncrypt (b : Block) (iv p : bytes) : bytes := cbcEncrypt (length p) b iv p.
Definition CBCDecrypt (b : Block) (iv c : bytes) : bytes := cbcDecrypt (length c) b iv c.
Definition CFBEncrypt (b : Block) (iv p : bytes) : bytes := cfbEncrypt (length p) b iv p.
Definition CFBDecrypt (b : Block) (iv c : bytes) : bytes := cfbDecrypt (length c) b iv c.
Definition OFBCrypt (b : Block) (iv p : bytes) : bytes := ofbCrypt (length p) b iv p.

Section Modes.
Context (b : Block) (Hb : Block_laws b).

Lemma cbc_inverse fuel iv p :
  (length p ≤ fuel)%nat → length iv = bl_size b → (length p mod bl_size b = 0)%nat →
  length (cbcEncrypt fuel b iv p) = length p ∧ cbcDecrypt fuel b iv (cbcEncrypt fuel b iv p) = p.
Proof.
  revert iv p. pose proof (bl_size_range b Hb) as Hsz.
  induction fuel as [| fuel IH]; intros iv p Hf Hiv Hmod; cbn; [by destruct p; cbn in *; [| lia] |].
  destruct (decide (p = [])) as [-> | Hp]; [done |].
  assert (Hlen : (bl_size b ≤ length p)%nat).
  { destruct (decide (length p < bl_size b)%nat) as [Hlt |]; [| lia].
    rewrite Nat.mod_small in Hmod by lia. by destruct p. }
  assert (Htake : length (take (bl_size b) p) = bl_size b) by (rewrite length_take; lia).
  assert (Hx : length (xorBytes (take (bl_size b) p) iv) = bl_size b) by (rewrite length_xorBytes; lia).
  pose proof (bl_encrypt_length b Hb _ Hx) as Hc.
  set (c := bl_encrypt b (xorBytes (take (bl_size b) p) iv)) in *.
  destruct (IH c (drop (bl_size b) p)) as [IHl IHd].
  { rewrite length_drop. lia. }
  { done. }
  { rewrite length_drop. replace (length p) with (length p - bl_size b + 1 * bl_size b)%nat in Hmod by lia.
    by rewrite Nat.Div0.mod_add in Hmod. }
  split; [rewrite length_app, Hc, IHl, length_drop; lia |].
  rewrite decide_False by (intros E; apply (f_equal length) in E; rewrite length_app, Hc in E; cbn in E; lia).
  rewrite take_app_exact, drop_app_exact by done. unfold c at 1. rewrite (bl_decrypt_encrypt b Hb) by done.
  rewrite xorBytes_involutive by lia. rewrite IHd. apply take_drop.
Qed.

Lemma cfb_inverse fuel iv p :
  (length p ≤ fuel)%nat → length iv = bl_size b →
  length (cfbEncrypt fuel b iv p) = length p ∧ cfbDecrypt fuel b iv (cfbEncrypt fuel b iv p) = p.
Proof.
  revert iv p. pose proof (bl_size_range b Hb) as Hsz.
  induction fuel as [| fuel IH]; intros iv p Hf Hiv; cbn; [by destruct p; cbn in *; [| lia] |].
  destruct (decide (p = [])) as [-> | Hp]; [done |].
  assert (0 < length p)%nat by (destruct p; [done | cbn; lia]).
  pose proof (bl_encrypt_length b Hb _ Hiv) as Hk.
  assert (Hc : length (xorBytes (take (bl_size b) p) (bl_encrypt b iv)) = length (take (bl_size b) p)).
  { apply length_xorBytes. rewrite length_take. lia. }
  set (c := xorBytes (take (bl_size b) p) (bl_encrypt b iv)) in *. rewrite length_take in Hc.
  assert (Hne : c ++ cfbEncrypt fuel b c (drop (bl_size b) p) ≠ []).
  { intros E. apply (f_equal length) in E. rewrite length_app, Hc in E. cbn in E. lia. }
  rewrite decide_False by done.
  destruct (decide (length p ≤ bl_size b)%nat) as [Hshort | Hlong].
  - rewrite (drop_ge p) by lia.
    assert (Hnil : ∀ fuel iv, cfbEncrypt fuel b iv [] = []) by by intros [].
    assert (Hnil' : ∀ fuel iv, cfbDecrypt fuel b iv [] = []) by by intros [].
    rewrite Hnil, app_nil_r, (take_ge c), (drop_ge c), Hnil', app_nil_r by lia. split; [lia |].
    unfold c. rewrite xorBytes_involutive by (rewrite length_take; lia). apply take_ge. lia.
  - destruct (IH c (drop (bl_size b) p)) as [IHl IHd]; [rewrite length_drop; lia | lia |].
    split; [rewrite length_app, IHl, length_drop; lia |].
    rewrite take_app_exact, drop_app_exact by lia. rewrite IHd. unfold c.
    rewrite xorBytes_involutive by (rewrite length_take; lia). apply take_drop.
Qed.

Lemma ofb_inverse fuel iv p :
  (length p ≤ fuel)%nat → length iv = bl_size b →
  length (ofbCrypt fuel b iv p) = length p ∧ ofbCrypt fuel b iv (ofbCrypt fuel b iv p) = p.
Proof.
  revert iv p. pose proof (bl_size_range b Hb) as Hsz.
  induction fuel as [| fuel IH]; intros iv p Hf Hiv; cbn; [by destruct p; cbn in *; [| lia] |].
  destruct (decide (p = [])) as [-> | Hp]; [done |].
  assert (0 < length p)%nat by (destruct p; [done | cbn; lia]).
  pose proof (bl_encrypt_length b Hb _ Hiv) as Hk. set (k := bl_encrypt b iv) in *.
  assert (Hc : length (xorBytes (take (bl_size b) p) k) = length (take (bl_size b) p)).
  { apply length_xorBytes. rewrite length_take. lia. }
  rewrite length_take in Hc. destruct (IH k (drop (bl_size b) p)) as [IHl IHd]; [rewrite length_drop; lia | lia |].
  rewrite length_drop in IHl.
  rewrite decide_False by (intros E; apply (f_equal length) in E; rewrite length_app, Hc in E; cbn in E; lia).
  split; [rewrite length_app; lia |].
  destruct (decide (length p ≤ bl_size b)%nat) as [Hshort | Hlong].
  - assert (Hnil : ∀ fuel iv, ofbCrypt fuel b iv [] = []) by by intros [].
    rewrite (drop_ge p), Hnil, app_nil_r, (take_ge (xorBytes _ _)), (drop_ge (xorBytes _ _)), Hnil, app_nil_r by lia.
    rewrite xorBytes_involutive by (rewrite length_take; lia). apply take_ge. lia.
  - rewrite take_app_exact, drop_app_exact by lia. rewrite IHd.
    rewrite xorBytes_involutive by (rewrite length_take; lia). apply take_drop.
Qed.

End Modes.

Lemma CBC_inverse b iv p :
  Block_laws b → length iv = bl_size b → (length p mod bl_size b = 0)%nat →
  length (CBCEncrypt b iv p) = length p ∧ CBCDecrypt b iv (CBCEncrypt b iv p) = p.
Proof.
  intros Hb Hiv Hmod. destruct (cbc_inverse b Hb (length p) iv p ltac:(lia) Hiv Hmod) as [Hl Hd].
  split; [done |]. unfold CBCDecrypt, CBCEncrypt. by rewrite Hl.
Qed.

Lemma CFB_inverse b iv p :
  Block_laws b → length iv = bl_size b →
  length (CFBEncrypt b iv p) = length p ∧ CFBDecrypt b iv (CFBEncrypt b iv p) = p.
Proof.
  intros Hb Hiv. destruct (cfb_inverse b Hb (length p) iv p ltac:(lia) Hiv) as [Hl Hd].
  split; [done |]. unfold CFBDecrypt, CFBEncrypt. by rewrite Hl.
Qed.

Lemma OFB_inverse b iv p :
  Block_laws b → length iv = bl_size b →
  length (OFBCrypt b iv p) = length p ∧ OFBCrypt b iv (OFBCrypt b iv p) = p.
Proof.
  intros Hb Hiv. destruct (ofb_inverse b Hb (length p) iv p ltac:(lia) Hiv) as [Hl Hd].
  split; [done |]. unfold OFBCrypt. by rewrite Hl.
Qed.

(** ** Padding *)

Definition pkcs7Pad (payload : bytes) (blockSize : Z) : result bytes :=
  if blockSize <=? 0 then Err (ErrNew "invalid block size") else
  let paddingSize := blockSize - lenZ payload mod blockSize in
  let paddingSize := if paddingSize =? 0 then blockSize else paddingSize in
  Ok (payload ++ replicate (Z.to_nat paddingSize) (z2b paddingSize)).

Definition pkcs7Unpad (payload : bytes) (blockSize : Z) : result bytes :=
  let invalid := ErrNew "invalid static key payload padding" in
  if (blockSize <=? 0) || (lenZ payload =? 0) || negb (lenZ payload mod blockSize =? 0) then Err invalid else
  let paddingSize := b2z (List.last payload x00) in
  if (paddingSize <=? 0) || (blockSize <? paddingSize) || (lenZ payload <? paddingSize) then Err invalid else
  let paddingStart := Z.to_nat (lenZ payload - paddingSize) in
  if forallb (λ x, b2z x =? u8 paddingSize) (drop paddingStart payload)
  then Ok (take paddingStart payload)
  else Err invalid.

Lemma pkcs7Pad_spec payload (blockSize : Z) :
  0 < blockSize < 256 →
  ∃ padded, pkcs7Pad payload blockSize = Ok padded ∧ lenZ padded mod blockSize = 0 ∧
    lenZ padded = (lenZ payload / blockSize + 1) * blockSize ∧ pkcs7Unpad padded blockSize = Ok payload.
Proof.
  intros Hb. unfold pkcs7Pad. destruct (Z.leb_spec blockSize 0); [lia |].
  pose proof (Z.mod_pos_bound (lenZ payload) blockSize ltac:(lia)) as Hm.
  pose proof (Z.div_mod (lenZ payload) blockSize ltac:(lia)) as Hdm.
  set (k := blockSize - lenZ payload mod blockSize) in *.
  destruct (Z.eqb_spec k 0); [lia |]. cbv zeta.
  eexists. split; [done |].
  assert (Hlen : lenZ (payload ++ replicate (Z.to_nat k) (z2b k)) = (lenZ payload / blockSize + 1) * blockSize).
  { unfold lenZ in *. rewrite length_app, length_replicate. lia. }
  assert (Hpos : 0 ≤ lenZ payload) by (unfold lenZ; lia).
  assert (Hk : lenZ (payload ++ replicate (Z.to_nat k) (z2b k)) = lenZ payload + k).
  { unfold lenZ. rewrite length_app, length_replicate. lia. }
  assert (Hlast : List.last (payload ++ replicate (Z.to_nat k) (z2b k)) x00 = z2b k).
  { replace (Z.to_nat k) with (Z.to_nat (k - 1) + 1)%nat by lia.
    rewrite replicate_add, app_assoc. cbn. apply List.last_last. }
  split; [by rewrite Hlen, Z.mod_mul by lia | split; [done |]].
  unfold pkcs7Unpad. rewrite Hlast, b2z_z2b_small, Hlen, Z.mod_mul by lia. rewrite <- Hlen, Hk.
  destruct (Z.leb_spec blockSize 0); [lia |]. destruct (Z.eqb_spec (lenZ payload + k) 0); [lia |].
  cbn [orb negb Z.eqb]. destruct (Z.leb_spec k 0); [lia |]. destruct (Z.ltb_spec blockSize k); [lia |].
  destruct (Z.ltb_spec (lenZ payload + k) k); [lia |]. cbn [orb].
  replace (lenZ payload + k - k) with (lenZ payload) by lia. unfold lenZ. rewrite Nat2Z.id.
  rewrite drop_app_exact, take_app_exact by done.
  assert (Hall : forallb (λ x, b2z x =? u8 k) (replicate (Z.to_nat k) (z2b k)) = true).
  { apply Is_true_true, forallb_True, Forall_replicate. rewrite b2z_z2b_small by lia. unfold u8. rewrite Z.mod_small by lia.
    by rewrite Z.eqb_refl. }
  by rewrite Hall.
Qed.

(** The padding of the CBC codecs can always be removed again, and fills the
    payload to a positive number of whole blocks. *)
Theorem pkcs7_roundtrip payload (blockSize : Z) :
  0 < blockSize < 256 →
  ∃ padded, pkcs7Pad payload blockSize = Ok padded ∧ lenZ padded mod blockSize = 0 ∧ lenZ payload < lenZ padded ∧
    pkcs7Unpad padded blockSize = Ok payload.
Proof.
  intros Hb. destruct (pkcs7Pad_spec payload blockSize Hb) as (padded & Hpad & Hmod & Hlen & Hun).
  exists padded. split_and!; try done. rewrite Hlen.
  pose proof (Z.mod_pos_bound (lenZ payload) blockSize ltac:(lia)).
  pose proof (Z.div_mod (lenZ payload) blockSize ltac:(lia)). lia.
Qed.

Lemma pkcs7_roundtrip_witness :
  ∃ padded, pkcs7Pad [x61; x62; x63] 8 = Ok padded ∧ lenZ padded mod 8 = 0 ∧ lenZ [x61; x62; x63] < lenZ padded ∧
    pkcs7Unpad padded 8 = Ok [x61; x62; x63].
Proof. apply (pkcs7_roundtrip [x61; x62; x63] 8). lia. Defined.

(** Only what [pkcs7Pad] produces is accepted. *)
Lemma pkcs7Unpad_sound padded (blockSize : Z) payload :
  0 < blockSize < 256 → pkcs7Unpad padded blockSize = Ok payload →
  ∃ k, 1 ≤ k ≤ blockSize ∧ padded = payload ++ replicate (Z.to_nat k) (z2b k).
Proof.
  intros Hb. unfold pkcs7Unpad. destruct (_ || _ || _); [done |].
  set (k := b2z (List.last padded x00)). pose proof (b2z_range (List.last padded x00)) as Hk. fold k in Hk.
  destruct ((k <=? 0) || (blockSize <? k) || (lenZ padded <? k)) eqn:Hg; [done |].
  apply orb_false_iff in Hg as [Hg H3]. apply orb_false_iff in Hg as [H1 H2].
  apply Z.leb_gt in H1. apply Z.ltb_ge in H2, H3. cbv zeta.
  destruct (forallb _ _) eqn:Hall; [| done]. intros [= <-]. exists k. split; [lia |].
  rewrite <- (take_drop (Z.to_nat (lenZ padded - k)) padded) at 1. f_equal.
  assert (Hl : length (drop (Z.to_nat (lenZ padded - k)) padded) = Z.to_nat k).
  { rewrite length_drop. unfold lenZ in *. lia. }
  apply Is_true_true, forallb_True in Hall. rewrite <- Hl. revert Hall. generalize (drop (Z.to_nat (lenZ padded - k)) padded) as l.
  clear. intros l Hall. induction Hall as [| x l Hx Hl IH]; [done |]. cbn. f_equal; [| done].
  apply Is_true_true, Z.eqb_eq in Hx. apply b2z_inj. rewrite Hx, b2z_z2b. unfold u8. done.
Qed.
