(* ===== verification/Codec.v ===== *)
(** * The data channel's codecs

    [data_codec.go], [data_codec_aead.go], [data_codec_cbc.go],
    [data_codec_stream.go] and [data_codec_static.go]: the AEAD, CBC, CFB/OFB and
    static key codecs behind the [dataCodec] interface, and their construction
    from key material.  The cryptographic primitives are the record [Crypto];
    [random n] is what [rand.Read] fills a buffer of [n] octets with, and the two
    times are the clock readings of the replay window. *)

From S2P Require Import Prelude ReplayWindow Crypto.

(** ** The interface *)

Class DataCodec (C : Type) := {
  Encode : C → Z → bytes → bytes → (nat → result bytes) → result bytes;
  Decode : C → bytes → bytes → Time → Time → result (Z * bytes) * C;
  EncodedLength : C → Z → Z;
}.

(** ** AEAD *)

Record tlsGCMDataCodec := mkGCM {
  gcm_sendAEAD : AEAD;
  gcm_sendIVSuffix : bytes;
  gcm_sendNonce : bytes;
  gcm_sendAdditionalData : bytes;
  gcm_receiveAEAD : AEAD;
  gcm_receiveIVSuffix : bytes;
  gcm_receiveNonce : bytes;
  gcm_receiveAdditionalData : bytes;
  gcm_replayWindow : option replayWindow;
}.

(** [c.replayWindow != nil && !c.replayWindow.Accept(packetID)] *)
Definition replayAccept (w : option replayWindow) (packetID : Z) (reapNow now : Time) : bool * option replayWindow :=
  match w with
  | None => (true, None)
  | Some w => let '(ok, w) := Accept w packetID reapNow now in (ok, Some w)
  end.

Definition replayAcceptLongForm (w : option replayWindow) (packetID timestamp : Z) (reapNow now : Time)
    : bool * option replayWindow :=
  match w with
  | None => (true, None)
  | Some w => let '(ok, w) := AcceptLongForm w packetID timestamp reapNow now in (ok, Some w)
  end.

Definition gcm_setWindow (c : tlsGCMDataCodec) (w : option replayWindow) : tlsGCMDataCodec :=
  mkGCM (gcm_sendAEAD c) (gcm_sendIVSuffix c) (gcm_sendNonce c) (gcm_sendAdditionalData c) (gcm_receiveAEAD c)
    (gcm_receiveIVSuffix c) (gcm_receiveNonce c) (gcm_receiveAdditionalData c) w.

(** A nonce buffer with the packet id and the suffix written over it. *)
Definition fillNonce (buffer : bytes) (packetID : Z) (suffix : bytes) : bytes :=
  copyAt (copyAt buffer 0 (PutUint32 packetID)) 4 suffix.

Definition gcm_EncodedLength (c : tlsGCMDataCodec) (payloadLength : Z) : Z :=
  4 + Z.of_nat tlsDataAEADTagSize + payloadLength.

Definition gcm_Encode (c : tlsGCMDataCodec) (packetID : Z) (aadPrefix payload : bytes) : result bytes :=
  if packetID =? 0 then Err (ErrNew "invalid data packet id") else
  let nonce := fillNonce (replicate (aead_NonceSize (gcm_sendAEAD c)) x00) packetID (gcm_sendIVSuffix c) in
  let packetIDBytes := PutUint32 packetID in
  let additionalData := aadPrefix ++ packetIDBytes in
  let ciphertext := aead_Seal (gcm_sendAEAD c) nonce payload additionalData in
  if lenZ ciphertext <? Z.of_nat tlsDataAEADTagSize then Err (ErrNew "invalid gcm ciphertext") else
  let split := (length ciphertext - tlsDataAEADTagSize)%nat in
  let tag := drop split ciphertext in
  let encryptedPayload := take split ciphertext in
  Ok (packetIDBytes ++ tag ++ encryptedPayload).

(** The in-place variant reuses the codec's nonce and additional data buffers
    and writes the header in front of the sealed payload. *)
Definition gcm_EncodeBuffer (c : tlsGCMDataCodec) (packetID : Z) (aadPrefix payload : bytes)
    : result bytes * tlsGCMDataCodec :=
  if packetID =? 0 then (Err (ErrNew "invalid data packet id"), c) else
  let nonceSize := aead_NonceSize (gcm_sendAEAD c) in
  let nonce := fillNonce (take nonceSize (gcm_sendNonce c)) packetID (gcm_sendIVSuffix c) in
  let sendNonce := copyAt (gcm_sendNonce c) 0 nonce in
  let sendAdditionalData := copyAt (gcm_sendAdditionalData c) 0 aadPrefix in
  let sendAdditionalData := copyAt sendAdditionalData (length aadPrefix) (PutUint32 packetID) in
  let c := mkGCM (gcm_sendAEAD c) (gcm_sendIVSuffix c) sendNonce sendAdditionalData (gcm_receiveAEAD c)
             (gcm_receiveIVSuffix c) (gcm_receiveNonce c) (gcm_receiveAdditionalData c) (gcm_replayWindow c) in
  let additionalData := take (length aadPrefix + 4) sendAdditionalData in
  let sealedPayload := aead_Seal (gcm_sendAEAD c) nonce payload additionalData in
  if negb (bool_decide (length sealedPayload = length payload + tlsDataAEADTagSize)%nat)
  then (Err (ErrNew "invalid gcm ciphertext"), c) else
  let tag := drop (length payload) sealedPayload in
  let encodedHeader := copyAt (replicate (4 + tlsDataAEADTagSize) x00) 0 (PutUint32 packetID) in
  let encodedHeader := copyAt encodedHeader 4 tag in
  (Ok (take (4 + tlsDataAEADTagSize + length payload) (encodedHeader ++ sealedPayload)), c).

Definition gcm_Decode (c : tlsGCMDataCodec) (aadPrefix payload : bytes) (reapNow now : Time)
    : result (Z * bytes) * tlsGCMDataCodec :=
  if lenZ payload <? 4 + Z.of_nat tlsDataAEADTagSize then (Err (ErrNew "invalid gcm payload"), c) else
  let packetID := Uint32 payload in
  let tag := slice 4 (4 + tlsDataAEADTagSize) payload in
  let ciphertext := drop (4 + tlsDataAEADTagSize) payload in
  let nonce := fillNonce (replicate (aead_NonceSize (gcm_receiveAEAD c)) x00) packetID (gcm_receiveIVSuffix c) in
  let sealedPayload := ciphertext ++ tag in
  let additionalData := aadPrefix ++ PutUint32 packetID in
  match aead_Open (gcm_receiveAEAD c) nonce sealedPayload additionalData with
  | Err e => (Err e, c)
  | Ok decodedPayload =>
      let '(ok, w) := replayAccept (gcm_replayWindow c) packetID reapNow now in
      let c := gcm_setWindow c w in
      if negb ok then (Err (ErrNew "replayed gcm packet"), c) else (Ok (packetID, decodedPayload), c)
  end.

(** The in-place variant moves the tag behind the ciphertext in the packet. *)
Definition gcm_DecodeBuffer (c : tlsGCMDataCodec) (aadPrefix payload : bytes) (reapNow now : Time)
    : result (Z * bytes) * tlsGCMDataCodec :=
  if lenZ payload <? 4 + Z.of_nat tlsDataAEADTagSize then (Err (ErrNew "invalid gcm payload"), c) else
  let packetID := Uint32 payload in
  let tag := slice 4 (4 + tlsDataAEADTagSize) payload in
  let ciphertextLength := (length payload - 4 - tlsDataAEADTagSize)%nat in
  let payload := copyAt payload 4 (drop (4 + tlsDataAEADTagSize) payload) in
  let payload := copyAt payload (4 + ciphertextLength) tag in
  let sealedPayload := slice 4 (4 + ciphertextLength + tlsDataAEADTagSize) payload in
  let nonceSize := aead_NonceSize (gcm_receiveAEAD c) in
  let nonce := fillNonce (take nonceSize (gcm_receiveNonce c)) packetID (gcm_receiveIVSuffix c) in
  let receiveNonce := copyAt (gcm_receiveNonce c) 0 nonce in
  let receiveAdditionalData := copyAt (gcm_receiveAdditionalData c) 0 aadPrefix in
  let receiveAdditionalData := copyAt receiveAdditionalData (length aadPrefix) (PutUint32 packetID) in
  let c := mkGCM (gcm_sendAEAD c) (gcm_sendIVSuffix c) (gcm_sendNonce c) (gcm_sendAdditionalData c)
             (gcm_receiveAEAD c) (gcm_receiveIVSuffix c) receiveNonce receiveAdditionalData (gcm_replayWindow c) in
  let additionalData := take (length aadPrefix + 4) receiveAdditionalData in
  match aead_Open (gcm_receiveAEAD c) nonce sealedPayload additionalData with
  | Err e => (Err e, c)
  | Ok decodedPayload =>
      let '(ok, w) := replayAccept (gcm_replayWindow c) packetID reapNow now in
      let c := gcm_setWindow c w in
      if negb ok then (Err (ErrNew "replayed gcm packet"), c) else (Ok (packetID, decodedPayload), c)
  end.

#[export] Instance gcm_codec : DataCodec tlsGCMDataCodec := {
  Encode c packetID aadPrefix payload _ := gcm_Encode c packetID aadPrefix payload;
  Decode := gcm_Decode;
  EncodedLength := gcm_EncodedLength;
}.

(** ** CBC

    [hmac key message] is [hmac.New(c.hashFactory, key)] over the message; a nil
    cipher block is [None]. *)

Record tlsCBCDataCodec := mkCBC {
  cbc_sendCipherBlock : option Block;
  cbc_sendHMACKey : bytes;
  cbc_receiveCipher : option Block;
  cbc_receiveHMACKey : bytes;
  cbc_hash : bytes → bytes → bytes;
  cbc_hmacSize : nat;
  cbc_replayWindow : option replayWindow;
}.

Definition cbc_setWindow (c : tlsCBCDataCodec) (w : option replayWindow) : tlsCBCDataCodec :=
  mkCBC (cbc_sendCipherBlock c) (cbc_sendHMACKey c) (cbc_receiveCipher c) (cbc_receiveHMACKey c) (cbc_hash c)
    (cbc_hmacSize c) w.

(** The length of [plainLength] octets under a block cipher, IV included. *)
Definition blockProtectedLength (block : option Block) (plainLength : Z) : Z :=
  match block with
  | None => plainLength
  | Some block =>
      let blockSize := Z.of_nat (bl_size block) in
      blockSize + (plainLength / blockSize + 1) * blockSize
  end.

Definition cbc_EncodedLength (c : tlsCBCDataCodec) (payloadLength : Z) : Z :=
  let plainLength := 4 + payloadLength in
  Z.of_nat (cbc_hmacSize c) + blockProtectedLength (cbc_sendCipherBlock c) plainLength.

(** Encryption and decryption of a plain payload, as [Encode] and [Decode] of
    the CBC and the static key codec have them. *)
Definition blockProtect (block : option Block) (random : nat → result bytes) (plainPayload : bytes) : result bytes :=
  match block with
  | None => Ok plainPayload
  | Some block =>
      paddedPayload ← pkcs7Pad plainPayload (Z.of_nat (bl_size block));
      initializationVector ← random (bl_size block);
      Ok (initializationVector ++ CBCEncrypt block initializationVector paddedPayload)
  end.

Definition blockUnprotect (invalid : goerr) (block : option Block) (protectedPayload : bytes) : result bytes :=
  match block with
  | None => Ok protectedPayload
  | Some block =>
      let blockSize := bl_size block in
      if bool_decide (length protectedPayload < blockSize * 2)%nat
         || negb (bool_decide (length protectedPayload mod blockSize = 0)%nat)
      then Err invalid else
      let initializationVector := take blockSize protectedPayload in
      let cipherPayload := drop blockSize protectedPayload in
      pkcs7Unpad (CBCDecrypt block initializationVector cipherPayload) (Z.of_nat blockSize)
  end.

Definition macPrepend (hash : bytes → bytes → bytes) (hmacSize : nat) (key protectedPayload : bytes) : bytes :=
  if decide (0 < hmacSize)%nat then hash key protectedPayload ++ protectedPayload else protectedPayload.

Definition macStrip (invalid invalidMAC : goerr) (hash : bytes → bytes → bytes) (hmacSize : nat) (key payload : bytes)
    : result bytes :=
  if decide (0 < hmacSize)%nat then
    if bool_decide (length payload < hmacSize)%nat then Err invalid else
    let receivedMAC := take hmacSize payload in
    let protectedPayload := drop hmacSize payload in
    if bool_decide (receivedMAC = hash key protectedPayload) then Ok protectedPayload else Err invalidMAC
  else Ok payload.

Definition cbc_Encode (c : tlsCBCDataCodec) (packetID : Z) (aadPrefix payload : bytes)
    (random : nat → result bytes) : result bytes :=
  if packetID =? 0 then Err (ErrNew "invalid data packet id") else
  let plainPayload := PutUint32 packetID ++ payload in
  protectedPayload ← blockProtect (cbc_sendCipherBlock c) random plainPayload;
  Ok (macPrepend (cbc_hash c) (cbc_hmacSize c) (cbc_sendHMACKey c) protectedPayload).

Definition cbc_Decode (c : tlsCBCDataCodec) (aadPrefix payload : bytes) (reapNow now : Time)
    : result (Z * bytes) * tlsCBCDataCodec :=
  let invalid := ErrNew "invalid tls data packet" in
  match (protectedPayload ← macStrip invalid (ErrNew "invalid tls data packet hmac") (cbc_hash c) (cbc_hmacSize c)
                              (cbc_receiveHMACKey c) payload;
         blockUnprotect invalid (cbc_receiveCipher c) protectedPayload) with
  | Err e => (Err e, c)
  | Ok plainPayload =>
      if lenZ plainPayload <? 4 then (Err invalid, c) else
      let packetID := Uint32 plainPayload in
      let '(ok, w) := replayAccept (cbc_replayWindow c) packetID reapNow now in
      let c := cbc_setWindow c w in
      if negb ok then (Err (ErrNew "replayed tls data packet"), c) else (Ok (packetID, drop 4 plainPayload), c)
  end.

#[export] Instance cbc_codec : DataCodec tlsCBCDataCodec := {
  Encode := cbc_Encode; Decode := cbc_Decode; EncodedLength := cbc_EncodedLength;
}.

(** ** CFB and OFB *)

Inductive tlsStreamCipherMode := tlsStreamCipherModeCFB | tlsStreamCipherModeOFB.

Record tlsStreamDataCodec := mkStreamCodec {
  str_sendCipherBlock : Block;
  str_sendHMACKey : bytes;
  str_receiveCipher : Block;
  str_receiveHMACKey : bytes;
  str_hash : bytes → bytes → bytes;
  str_hmacSize : nat;
  str_mode : tlsStreamCipherMode;
  str_sendTimestamp : Z;
  str_replayWindow : option replayWindow;
}.

Definition str_setWindow (c : tlsStreamDataCodec) (w : option replayWindow) : tlsStreamDataCodec :=
  mkStreamCodec (str_sendCipherBlock c) (str_sendHMACKey c) (str_receiveCipher c) (str_receiveHMACKey c) (str_hash c)
    (str_hmacSize c) (str_mode c) (str_sendTimestamp c) w.

(** [c.stream(block, iv, encrypt).XORKeyStream(dst, src)] *)
Definition stream (mode : tlsStreamCipherMode) (block : Block) (initializationVector : bytes) (encrypt : bool)
    (payload : bytes) : bytes :=
  match mode with
  | tlsStreamCipherModeOFB => OFBCrypt block initializationVector payload
  | tlsStreamCipherModeCFB =>
      if encrypt then CFBEncrypt block initializationVector payload
      else CFBDecrypt block initializationVector payload
  end.

Definition str_EncodedLength (c : tlsStreamDataCodec) (payloadLength : Z) : Z :=
  Z.of_nat (str_hmacSize c) + Z.of_nat (bl_size (str_sendCipherBlock c)) + payloadLength.

Definition str_Encode (c : tlsStreamDataCodec) (packetID : Z) (aadPrefix payload : bytes) : result bytes :=
  if packetID =? 0 then Err (ErrNew "invalid data packet id") else
  let initializationVector := replicate (bl_size (str_sendCipherBlock c)) x00 in
  let initializationVector := copyAt initializationVector 0 (PutUint32 packetID) in
  let initializationVector := copyAt initializationVector 4 (PutUint32 (str_sendTimestamp c)) in
  let cipherPayload := stream (str_mode c) (str_sendCipherBlock c) initializationVector true payload in
  let protectedPayload := initializationVector ++ cipherPayload in
  Ok (macPrepend (str_hash c) (str_hmacSize c) (str_sendHMACKey c) protectedPayload).

Definition str_Decode (c : tlsStreamDataCodec) (aadPrefix payload : bytes) (reapNow now : Time)
    : result (Z * bytes) * tlsStreamDataCodec :=
  let invalid := ErrNew "invalid tls stream data packet" in
  match macStrip invalid (ErrNew "invalid tls stream data packet hmac") (str_hash c) (str_hmacSize c)
          (str_receiveHMACKey c) payload with
  | Err e => (Err e, c)
  | Ok protectedPayload =>
      let blockSize := bl_size (str_receiveCipher c) in
      if bool_decide (length protectedPayload ≤ blockSize)%nat then (Err invalid, c) else
      let initializationVector := take blockSize protectedPayload in
      let packetID := Uint32 initializationVector in
      let packetTimestamp := Uint32 (drop 4 initializationVector) in
      let cipherPayload := drop blockSize protectedPayload in
      let decodedPayload := stream (str_mode c) (str_receiveCipher c) initializationVector false cipherPayload in
      let '(ok, w) := replayAcceptLongForm (str_replayWindow c) packetID packetTimestamp reapNow now in
      let c := str_setWindow c w in
      if negb ok then (Err (ErrNew "replayed tls stream data packet"), c) else (Ok (packetID, decodedPayload), c)
  end.

#[export] Instance str_codec : DataCodec tlsStreamDataCodec := {
  Encode c packetID aadPrefix payload _ := str_Encode c packetID aadPrefix payload;
  Decode := str_Decode; EncodedLength := str_EncodedLength;
}.

(** ** Static keys *)

Record staticKeyDecodeCandidate := mkCandidate { cand_cipherBlock : option Block; cand_hmacKey : bytes }.

Record staticKeyDataCodec := mkStatic {
  sta_sendCipherBlock : option Block;
  sta_sendHMACKey : bytes;
  sta_receiveCandidates : list staticKeyDecodeCandidate;
  sta_hash : bytes → bytes → bytes;
  sta_hmacSize : nat;
  sta_sendTimestamp : Z;
  sta_replayWindow : option replayWindow;
}.

Definition sta_setWindow (c : staticKeyDataCodec) (w : option replayWindow) : staticKeyDataCodec :=
  mkStatic (sta_sendCipherBlock c) (sta_sendHMACKey c) (sta_receiveCandidates c) (sta_hash c) (sta_hmacSize c)
    (sta_sendTimestamp c) w.

Definition sta_EncodedLength (c : staticKeyDataCodec) (payloadLength : Z) : Z :=
  let plainLength := 8 + payloadLength in
  Z.of_nat (sta_hmacSize c) + blockProtectedLength (sta_sendCipherBlock c) plainLength.

Definition sta_Encode (c : staticKeyDataCodec) (packetID : Z) (aadPrefix payload : bytes)
    (random : nat → result bytes) : result bytes :=
  if packetID =? 0 then Err (ErrNew "invalid static key packet id") else
  let plainPayload := PutUint32 packetID ++ PutUint32 (sta_sendTimestamp c) ++ payload in
  protectedPayload ← blockProtect (sta_sendCipherBlock c) random plainPayload;
  Ok (macPrepend (sta_hash c) (sta_hmacSize c) (sta_sendHMACKey c) protectedPayload).

Definition decodeWithCandidate (c : staticKeyDataCodec) (payload : bytes) (candidate : staticKeyDecodeCandidate)
    : result (Z * Z * bytes) :=
  let invalid := ErrNew "invalid static key payload" in
  protectedPayload ← macStrip invalid (ErrNew "invalid static key payload hmac") (sta_hash c) (sta_hmacSize c)
                       (cand_hmacKey candidate) payload;
  plainPayload ← blockUnprotect invalid (cand_cipherBlock candidate) protectedPayload;
  if lenZ plainPayload <? 8 then Err invalid else
  let packetID := Uint32 plainPayload in
  if packetID =? 0 then Err (ErrNew "invalid static key packet id") else
  let packetTimestamp := Uint32 (drop 4 plainPayload) in
  Ok (packetID, packetTimestamp, drop 8 plainPayload).

(** The loop over the candidates, with the error of the last one. *)
Fixpoint decodeCandidates (c : staticKeyDataCodec) (payload : bytes) (candidates : list staticKeyDecodeCandidate)
    (decodeError : option goerr) : result (Z * Z * bytes) :=
  match candidates with
  | [] => Err (default (ErrNew "invalid static key payload") decodeError)
  | candidate :: candidates =>
      match decodeWithCandidate c payload candidate with
      | Ok decoded => Ok decoded
      | Err err => decodeCandidates c payload candidates (Some err)
      end
  end.

Definition sta_Decode (c : staticKeyDataCodec) (aadPrefix payload : bytes) (reapNow now : Time)
    : result (Z * bytes) * staticKeyDataCodec :=
  match decodeCandidates c payload (sta_receiveCandidates c) None with
  | Err e => (Err e, c)
  | Ok (packetID, packetTimestamp, decodedPayload) =>
      let '(ok, w) := replayAcceptLongForm (sta_replayWindow c) packetID packetTimestamp reapNow now in
      let c := sta_setWindow c w in
      if negb ok then (Err (ErrNew "replayed static key data packet"), c)
      else (Ok (packetID, decodedPayload), c)
  end.

#[export] Instance sta_codec : DataCodec staticKeyDataCodec := {
  Encode := sta_Encode; Decode := sta_Decode; EncodedLength := sta_EncodedLength;
}.

(** ** Construction *)

(** The libraries: the block cipher of a name and a key, AES-GCM and
    ChaCha20-Poly1305 of a key, and HMAC with the hash of a name. *)
Record Crypto := mkCrypto {
  cr_NewCipher : string → bytes → result Block;
  cr_NewGCM : bytes → result AEAD;
  cr_NewChaCha20Poly1305 : bytes → result AEAD;
  cr_hmac : string → bytes → bytes → bytes;
}.

Definition dataReplayWindowParameters (replayWindowSize replayWindowTime : Z) : Z * Z :=
  (if replayWindowSize =? 0 then defaultReplayWindowSize else replayWindowSize,
   if replayWindowTime =? 0 then defaultReplayWindowTime else replayWindowTime).

Record staticKeySlot := mkSlot { slot_cipherKey : bytes; slot_hmacKey : bytes }.

Definition splitStaticKeyMaterial (m : bytes) : staticKeySlot * staticKeySlot :=
  (mkSlot (slice 0 64 m) (slice 64 128 m), mkSlot (slice 128 192 m) (slice 192 256 m)).

Definition tlsDataKeySlots (keySlots : staticKeySlot * staticKeySlot) (server : bool) : staticKeySlot * staticKeySlot :=
  if server then (keySlots.2, keySlots.1) else keySlots.

Definition staticCipherKeySize (cipherName : string) : result Z :=
  if decide (cipherName = "BF-CBC") then Ok 16 else
  if decide (cipherName = "DES-CBC") then Ok 8 else
  if decide (cipherName = "DES-EDE-CBC") then Ok 16 else
  if decide (cipherName = "DES-EDE3-CBC") then Ok 24 else
  if decide (cipherName = "CAST5-CBC") then Ok 16 else
  if decide (cipherName = "AES-128-CBC") then Ok 16 else
  if decide (cipherName = "AES-192-CBC") then Ok 24 else
  if decide (cipherName = "AES-256-CBC") then Ok 32 else
  if decide (cipherName ∈ ["ARIA-128-CBC"; "CAMELLIA-128-CBC"; "SEED-CBC"; "SM4-CBC"]) then Ok 16 else
  if decide (cipherName ∈ ["ARIA-192-CBC"; "CAMELLIA-192-CBC"]) then Ok 24 else
  if decide (cipherName ∈ ["ARIA-256-CBC"; "CAMELLIA-256-CBC"]) then Ok 32 else
  if decide (cipherName = "NONE") then Ok 0 else
  Err (ErrNew "unsupported static key cipher").

(** The library behind each name; [DES-EDE-CBC] repeats the first key. *)
Definition newStaticCipherBlock (cr : Crypto) (cipherName : string) (keyMaterial : bytes) (keySize : Z)
    : result (option Block) :=
  if decide (cipherName = "NONE") then Ok None else
  if (keySize <=? 0) || (lenZ keyMaterial <? keySize) then Err (ErrNew "invalid static key cipher key size") else
  let cipherKey := take (Z.to_nat keySize) keyMaterial in
  let library (name : string) (key : bytes) := Some <$> cr_NewCipher cr name key in
  if decide (cipherName = "BF-CBC") then library "blowfish" cipherKey else
  if decide (cipherName = "DES-CBC") then library "des" cipherKey else
  if decide (cipherName = "DES-EDE-CBC")
  then library "3des" (copyAt (copyAt (replicate 24 x00) 0 cipherKey) 16 (take 8 cipherKey)) else
  if decide (cipherName = "DES-EDE3-CBC") then library "3des" cipherKey else
  if decide (cipherName = "CAST5-CBC") then library "cast5" cipherKey else
  if decide (cipherName ∈ ["AES-128-CBC"; "AES-192-CBC"; "AES-256-CBC"]) then library "aes" cipherKey else
  if decide (cipherName ∈ ["ARIA-128-CBC"; "ARIA-192-CBC"; "ARIA-256-CBC"]) then library "aria" cipherKey else
  if decide (cipherName ∈ ["CAMELLIA-128-CBC"; "CAMELLIA-192-CBC"; "CAMELLIA-256-CBC"])
  then library "camellia" cipherKey else
  if decide (cipherName = "SEED-CBC") then library "seed" cipherKey else
  if decide (cipherName = "SM4-CBC") then library "sm4" cipherKey else
  Err (ErrNew "unsupported static key cipher").

(** The hash and its size; [NONE] has neither. *)
Definition staticHMACFactory (authName : string) : result (string * nat) :=
  if decide (authName = ""%string ∨ authName = "SHA1") then Ok ("sha1", 20%nat) else
  if decide (authName = "SHA224") then Ok ("sha224", 28%nat) else
  if decide (authName = "SHA256") then Ok ("sha256", 32%nat) else
  if decide (authName = "SHA384") then Ok ("sha384", 48%nat) else
  if decide (authName = "SHA512") then Ok ("sha512", 64%nat) else
  if decide (authName = "RIPEMD160") then Ok ("ripemd160", 20%nat) else
  if decide (authName = "MD5") then Ok ("md5", 16%nat) else
  if decide (authName = "NONE") then Ok (""%string, 0%nat) else
  Err (ErrNew "unsupported static key auth").

Definition gcmKeySize (cipherName : string) : result nat :=
  if decide (cipherName = "AES-128-GCM") then Ok 16%nat else
  if decide (cipherName = "AES-192-GCM") then Ok 24%nat else
  if decide (cipherName = "AES-256-GCM") then Ok 32%nat else
  Err (ErrNew "unsupported gcm cipher").

Definition aeadCodec (sendAEAD receiveAEAD : AEAD) (sendSlot receiveSlot : staticKeySlot)
    (replayWindowSize replayWindowTime : Z) : tlsGCMDataCodec :=
  mkGCM sendAEAD (take 8 (slot_hmacKey sendSlot)) (replicate 32 x00) (replicate 8 x00)
    receiveAEAD (take 8 (slot_hmacKey receiveSlot)) (replicate 32 x00) (replicate 8 x00)
    (Some (newReplayWindow replayWindowSize replayWindowTime)).

Definition newTLSGCMDataCodec (cr : Crypto) (keyMaterial : bytes) (server : bool) (cipherName : string)
    (replayWindowSize replayWindowTime : Z) : result tlsGCMDataCodec :=
  if lenZ keyMaterial <? 256 then Err (ErrNew "invalid tls key material") else
  let '(sendSlot, receiveSlot) := tlsDataKeySlots (splitStaticKeyMaterial keyMaterial) server in
  keySize ← gcmKeySize cipherName;
  sendAEAD ← cr_NewGCM cr (take keySize (slot_cipherKey sendSlot));
  receiveAEAD ← cr_NewGCM cr (take keySize (slot_cipherKey receiveSlot));
  Ok (aeadCodec sendAEAD receiveAEAD sendSlot receiveSlot replayWindowSize replayWindowTime).

Definition newTLSChaCha20Poly1305DataCodec (cr : Crypto) (keyMaterial : bytes) (server : bool)
    (replayWindowSize replayWindowTime : Z) : result tlsGCMDataCodec :=
  if lenZ keyMaterial <? 256 then Err (ErrNew "invalid tls key material") else
  let '(sendSlot, receiveSlot) := tlsDataKeySlots (splitStaticKeyMaterial keyMaterial) server in
  sendAEAD ← cr_NewChaCha20Poly1305 cr (take 32 (slot_cipherKey sendSlot));
  receiveAEAD ← cr_NewChaCha20Poly1305 cr (take 32 (slot_cipherKey receiveSlot));
  Ok (aeadCodec sendAEAD receiveAEAD sendSlot receiveSlot replayWindowSize replayWindowTime).

Definition hmacKeyOf (hmacSize : nat) (slot : staticKeySlot) : bytes :=
  if decide (0 < hmacSize)%nat then take hmacSize (slot_hmacKey slot) else [].

Definition newTLSCBCDataCodec (cr : Crypto) (keyMaterial : bytes) (server : bool) (cipherName authName : string)
    (replayWindowSize replayWindowTime : Z) : result tlsCBCDataCodec :=
  if lenZ keyMaterial <? 256 then Err (ErrNew "invalid tls key material") else
  let '(sendSlot, receiveSlot) := tlsDataKeySlots (splitStaticKeyMaterial keyMaterial) server in
  cipherKeySize ← staticCipherKeySize cipherName;
  '(hash, hmacSize) ← staticHMACFactory authName;
  sendCipherBlock ← newStaticCipherBlock cr cipherName (slot_cipherKey sendSlot) cipherKeySize;
  receiveCipherBlock ← newStaticCipherBlock cr cipherName (slot_cipherKey receiveSlot) cipherKeySize;
  Ok (mkCBC sendCipherBlock (hmacKeyOf hmacSize sendSlot) receiveCipherBlock (hmacKeyOf hmacSize receiveSlot)
        (cr_hmac cr hash) hmacSize (Some (newReplayWindow replayWindowSize replayWindowTime))).

Definition tlsStreamCipherSpec (cipherName : string) : result (tlsStreamCipherMode * string * Z) :=
  '(mode, cbcCipherName) ←
    (if HasSuffix cipherName "-CFB" then Ok (tlsStreamCipherModeCFB, TrimSuffix cipherName "-CFB" +:+ "-CBC")
     else if HasSuffix cipherName "-OFB" then Ok (tlsStreamCipherModeOFB, TrimSuffix cipherName "-OFB" +:+ "-CBC")
     else Err (ErrNew "unsupported tls stream cipher"));
  match staticCipherKeySize cbcCipherName with
  | Ok cipherKeySize => Ok (mode, cbcCipherName, cipherKeySize)
  | Err _ => Err (ErrNew "unsupported tls stream cipher")
  end.

(** [unixNow] is [time.Now().Unix()]; a nil block cannot occur, since a stream
    cipher is never [NONE]. *)
Definition newTLSStreamDataCodec (cr : Crypto) (unixNow : Z) (keyMaterial : bytes) (server : bool)
    (cipherName authName : string) (replayWindowSize replayWindowTime : Z) : result tlsStreamDataCodec :=
  if lenZ keyMaterial <? 256 then Err (ErrNew "invalid tls key material") else
  '(mode, cbcCipherName, cipherKeySize) ← tlsStreamCipherSpec cipherName;
  let '(sendSlot, receiveSlot) := tlsDataKeySlots (splitStaticKeyMaterial keyMaterial) server in
  '(hash, hmacSize) ← staticHMACFactory authName;
  sendCipherBlock ← newStaticCipherBlock cr cbcCipherName (slot_cipherKey sendSlot) cipherKeySize;
  receiveCipherBlock ← newStaticCipherBlock cr cbcCipherName (slot_cipherKey receiveSlot) cipherKeySize;
  match sendCipherBlock, receiveCipherBlock with
  | Some sendBlock, Some receiveBlock =>
      Ok (mkStreamCodec sendBlock (hmacKeyOf hmacSize sendSlot) receiveBlock (hmacKeyOf hmacSize receiveSlot)
            (cr_hmac cr hash) hmacSize mode (u32 unixNow)
            (Some (newReplayWindow replayWindowSize replayWindowTime)))
  | _, _ => Err (ErrNew "nil cipher block")
  end.

(** A [dataCodec] value of a TLS session. *)
Inductive tlsDataCodec :=
| TLSAEAD (c : tlsGCMDataCodec)
| TLSCBC (c : tlsCBCDataCodec)
| TLSStream (c : tlsStreamDataCodec).

#[export] Instance tls_codec : DataCodec tlsDataCodec := {
  Encode c := match c with TLSAEAD c => Encode c | TLSCBC c => Encode c | TLSStream c => Encode c end;
  Decode c aadPrefix payload reapNow now :=
    match c with
    | TLSAEAD c => let '(r, c) := Decode c aadPrefix payload reapNow now in (r, TLSAEAD c)
    | TLSCBC c => let '(r, c) := Decode c aadPrefix payload reapNow now in (r, TLSCBC c)
    | TLSStream c => let '(r, c) := Decode c aadPrefix payload reapNow now in (r, TLSStream c)
    end;
  EncodedLength c := match c with TLSAEAD c => EncodedLength c | TLSCBC c => EncodedLength c | TLSStream c => EncodedLength c end;
}.

Definition newTLSDataCodec (cr : Crypto) (unixNow : Z) (keyMaterial : bytes) (server : bool)
    (cipherName authName : string) (replayWindowSize replayWindowTime : Z) : result tlsDataCodec :=
  let '(replayWindowSize, replayWindowTime) := dataReplayWindowParameters replayWindowSize replayWindowTime in
  if decide (cipherName ∈ ["AES-128-GCM"; "AES-192-GCM"; "AES-256-GCM"])
  then TLSAEAD <$> newTLSGCMDataCodec cr keyMaterial server cipherName replayWindowSize replayWindowTime else
  if decide (cipherName = "CHACHA20-POLY1305")
  then TLSAEAD <$> newTLSChaCha20Poly1305DataCodec cr keyMaterial server replayWindowSize replayWindowTime else
  match tlsStreamCipherSpec cipherName with
  | Ok _ => TLSStream <$> newTLSStreamDataCodec cr unixNow keyMaterial server cipherName authName
                            replayWindowSize replayWindowTime
  | Err _ => TLSCBC <$> newTLSCBCDataCodec cr keyMaterial server cipherName authName replayWindowSize replayWindowTime
  end.

(** The slots to send with, to receive with and to fall back to. *)
Definition resolveStaticKeyDirection (keyDirection : Z) : bool * bool * bool :=
  if (keyDirection =? 1) || (keyDirection =? 2) then (true, false, true)
  else if keyDirection <? 0 then (false, false, true)
  else (false, true, false).

Definition slotAt (keySlots : staticKeySlot * staticKeySlot) (second : bool) : staticKeySlot :=
  if second then keySlots.2 else keySlots.1.

Definition newStaticKeyDataCodec (cr : Crypto) (unixNow : Z) (staticKeyMaterial : bytes) (keyDirection : Z)
    (cipherName authName : string) (replayWindowSize replayWindowTime : Z) : result staticKeyDataCodec :=
  cipherKeySize ← staticCipherKeySize cipherName;
  '(hash, hmacSize) ← staticHMACFactory authName;
  let keySlots := splitStaticKeyMaterial staticKeyMaterial in
  let '(sendIndex, receiveIndex, fallbackIndex) := resolveStaticKeyDirection keyDirection in
  let sendSlot := slotAt keySlots sendIndex in
  let receiveSlot := slotAt keySlots receiveIndex in
  sendCipherBlock ← newStaticCipherBlock cr cipherName (slot_cipherKey sendSlot) cipherKeySize;
  receiveCipherBlock ← newStaticCipherBlock cr cipherName (slot_cipherKey receiveSlot) cipherKeySize;
  let receiveCandidate := mkCandidate receiveCipherBlock (hmacKeyOf hmacSize receiveSlot) in
  receiveCandidates ←
    (if negb (Bool.eqb fallbackIndex receiveIndex) then
       let fallbackSlot := slotAt keySlots fallbackIndex in
       fallbackCipherBlock ← newStaticCipherBlock cr cipherName (slot_cipherKey fallbackSlot) cipherKeySize;
       Ok [receiveCandidate; mkCandidate fallbackCipherBlock (hmacKeyOf hmacSize fallbackSlot)]
     else Ok [receiveCandidate]);
  Ok (mkStatic sendCipherBlock (hmacKeyOf hmacSize sendSlot) receiveCandidates (cr_hmac cr hash) hmacSize
        (u32 unixNow) (Some (newReplayWindow replayWindowSize replayWindowTime))).
