(* ===== verification/CodecLaws.v ===== *)
(** * What the data channel's codecs promise

    Every codec decodes what its peer's codec encoded, unless the replay window
    refuses it, and announces the length of what it encodes: the class
    [LawfulCodec] states the promise, and each codec of [Codec.v] has an
    instance.  The codecs the two ends build from the same key material match,
    and the in-place variants of the AEAD codec equal the allocating ones. *)

From S2P Require Import Prelude ReplayWindow Crypto Codec.

(** ** What the codecs promise *)

(** The replay decision of a receiver on a packet of a sender: the long form
    with the sender's timestamp, or the short one. *)
Definition codecAccept (timestamp : option Z) (w : option replayWindow) (packetID : Z) (reapNow now : Time)
    : bool * option replayWindow :=
  match timestamp with
  | None => replayAccept w packetID reapNow now
  | Some ts => replayAcceptLongForm w packetID ts reapNow now
  end.

(** [rand.Read] fills the whole buffer or fails. *)
Definition random_ok (random : nat → result bytes) : Prop := ∀ n v, random n = Ok v → length v = n.

(** A sender's packets decode, at a receiver with the matching keys, to what was
    sent, unless the replay window refuses them; and have the announced length. *)
Class LawfulCodec (C : Type) `{DataCodec C} := {
  codecPair : C → C → Prop;
  codecWindow : C → option replayWindow;
  codecSetWindow : C → option replayWindow → C;
  codecTimestamp : C → option Z;
  codecPayload : C → bytes → Prop;
  law_decode s r packetID aadPrefix payload random encoded reapNow now :
    codecPair s r → 0 < packetID < 2 ^ 32 → random_ok random → codecPayload s payload →
    Encode s packetID aadPrefix payload random = Ok encoded →
    let '(ok, w) := codecAccept (codecTimestamp s) (codecWindow r) packetID reapNow now in
    ∃ err, Decode r aadPrefix encoded reapNow now =
      (if ok then Ok (packetID, payload) else Err err, codecSetWindow r w);
  law_length s r packetID aadPrefix payload random encoded :
    codecPair s r → random_ok random →
    Encode s packetID aadPrefix payload random = Ok encoded → lenZ encoded = EncodedLength s (lenZ payload);
  law_pair s r w : codecPair s r → codecPair s (codecSetWindow r w);
  law_window r w : codecWindow (codecSetWindow r w) = w;
}.

(** *** AEAD *)

Definition gcm_pair (s r : tlsGCMDataCodec) : Prop :=
  gcm_sendAEAD s = gcm_receiveAEAD r ∧ gcm_sendIVSuffix s = gcm_receiveIVSuffix r ∧ AEAD_laws (gcm_sendAEAD s).

(** The layout of an encoded packet. *)
Lemma gcm_Encode_Ok c packetID aadPrefix payload encoded :
  AEAD_laws (gcm_sendAEAD c) → gcm_Encode c packetID aadPrefix payload = Ok encoded →
  let nonce := fillNonce (replicate (aead_NonceSize (gcm_sendAEAD c)) x00) packetID (gcm_sendIVSuffix c) in
  let sealed := aead_Seal (gcm_sendAEAD c) nonce payload (aadPrefix ++ PutUint32 packetID) in
  packetID ≠ 0 ∧ encoded = PutUint32 packetID ++ drop (length payload) sealed ++ take (length payload) sealed.
Proof.
  intros Hl. unfold gcm_Encode. destruct (Z.eqb_spec packetID 0); [done |]. cbv zeta.
  set (sealed := aead_Seal _ _ _ _). pose proof (aead_seal_length _ Hl
    (fillNonce (replicate (aead_NonceSize (gcm_sendAEAD c)) x00) packetID (gcm_sendIVSuffix c)) payload
    (aadPrefix ++ PutUint32 packetID)) as Hlen. fold sealed in Hlen.
  unfold lenZ. rewrite Hlen. unfold tlsDataAEADTagSize. destruct (Z.ltb_spec (Z.of_nat (length payload + 16)) (Z.of_nat 16)); [lia |].
  intros [= <-]. split; [done |]. by replace (length payload + 16 - 16)%nat with (length payload) by lia.
Qed.

Lemma gcm_law_decode s r packetID aadPrefix payload encoded reapNow now :
  gcm_pair s r → 0 < packetID < 2 ^ 32 → gcm_Encode s packetID aadPrefix payload = Ok encoded →
  let '(ok, w) := replayAccept (gcm_replayWindow r) packetID reapNow now in
  gcm_Decode r aadPrefix encoded reapNow now =
    (if ok then Ok (packetID, payload) else Err (ErrNew "replayed gcm packet"), gcm_setWindow r w).
Proof.
  intros (Haead & Hiv & Hl) Hid Henc. apply gcm_Encode_Ok in Henc as [_ ->]; [| done].
  set (nonce := fillNonce _ _ _). set (sealed := aead_Seal _ _ _ _).
  assert (Hlen : length sealed = (length payload + 16)%nat) by apply (aead_seal_length _ Hl).
  assert (Htag : length (drop (length payload) sealed) = 16%nat) by (rewrite length_drop; lia).
  unfold gcm_Decode, tlsDataAEADTagSize. unfold lenZ.
  rewrite !length_app, length_PutUint32, Htag, length_take, Hlen.
  destruct (Z.ltb_spec (Z.of_nat (4 + (16 + (length payload `min` (length payload + 16))))) (4 + Z.of_nat 16)); [lia |].
  assert (Hu : Uint32 (PutUint32 packetID ++ drop (length payload) sealed ++ take (length payload) sealed) = packetID).
  { unfold Uint32. rewrite take_app_exact by apply length_PutUint32. unfold PutUint32. by rewrite be_decode_encode_small by lia. }
  assert (Hslice : slice 4 (4 + 16) (PutUint32 packetID ++ drop (length payload) sealed ++ take (length payload) sealed)
                   = drop (length payload) sealed).
  { unfold slice. rewrite drop_app_exact by apply length_PutUint32. by rewrite take_app_exact. }
  assert (Hdrop : drop (4 + 16) (PutUint32 packetID ++ drop (length payload) sealed ++ take (length payload) sealed)
                  = take (length payload) sealed).
  { rewrite app_assoc. apply drop_app_exact. rewrite length_app, length_PutUint32, Htag. done. }
  cbv zeta. rewrite Hu, Hslice, Hdrop, take_drop. rewrite <- Hiv, <- Haead. fold nonce.
  unfold sealed. rewrite (aead_open_seal _ Hl).
  destruct (replayAccept _ _ _ _) as [[] w]; done.
Qed.

Lemma gcm_law_length c packetID aadPrefix payload encoded :
  AEAD_laws (gcm_sendAEAD c) → gcm_Encode c packetID aadPrefix payload = Ok encoded →
  lenZ encoded = gcm_EncodedLength c (lenZ payload).
Proof.
  intros Hl Henc. apply gcm_Encode_Ok in Henc as [_ ->]; [| done].
  unfold gcm_EncodedLength, tlsDataAEADTagSize, lenZ.
  rewrite !length_app, length_PutUint32, length_drop, length_take, (aead_seal_length _ Hl).
  unfold tlsDataAEADTagSize. lia.
Qed.

#[export] Program Instance gcm_lawful : LawfulCodec tlsGCMDataCodec := {
  codecPair := gcm_pair;
  codecWindow := gcm_replayWindow;
  codecSetWindow := gcm_setWindow;
  codecTimestamp _ := None;
  codecPayload _ _ := True;
}.
Next Obligation.
  intros s r id aad p rnd e t1 t2 Hp Hid _ _ He. pose proof (gcm_law_decode s r id aad p e t1 t2 Hp Hid He) as H.
  cbn in *. destruct (replayAccept _ _ _ _) as [ok w]. eauto.
Qed.
Next Obligation. intros s r id aad p rnd e (_ & _ & Hl) _ He. exact (gcm_law_length s id aad p e Hl He). Qed.
Next Obligation. done. Qed.
Next Obligation. done. Qed.

(** *** The shared layers of the other codecs *)

Lemma macStrip_macPrepend e1 e2 hash n key p :
  ((0 < n)%nat → length (hash key p) = n) → macStrip e1 e2 hash n key (macPrepend hash n key p) = Ok p.
Proof.
  intros Hlen. unfold macStrip, macPrepend. destruct (decide (0 < n)%nat) as [Hn |]; [| done]. specialize (Hlen Hn).
  rewrite bool_decide_eq_false_2 by (rewrite length_app; lia).
  rewrite take_app_exact, drop_app_exact by done. by rewrite bool_decide_eq_true_2.
Qed.

Lemma length_macPrepend hash n key p :
  ((0 < n)%nat → length (hash key p) = n) → length (macPrepend hash n key p) = (n + length p)%nat.
Proof.
  intros Hlen. unfold macPrepend. destruct (decide (0 < n)%nat) as [Hn |]; [rewrite length_app, Hlen by done; lia | lia].
Qed.

Definition block_ok (block : option Block) : Prop := match block with Some b => Block_laws b | None => True end.

Lemma blockProtect_Ok block random plain p :
  block_ok block → random_ok random → blockProtect block random plain = Ok p →
  lenZ p = blockProtectedLength block (lenZ plain) ∧ ∀ invalid, blockUnprotect invalid block p = Ok plain.
Proof.
  intros Hb Hr. unfold blockProtect, blockProtectedLength, blockUnprotect. destruct block as [b |]; [| by intros [= ->]].
  cbn in Hb. pose proof (bl_size_range b Hb) as Hsz.
  destruct (pkcs7Pad_spec plain (Z.of_nat (bl_size b)) ltac:(lia)) as (padded & -> & Hmod & Hlen & Hun). cbn.
  destruct (random (bl_size b)) as [iv |] eqn:Hiv; cbn; [| done]. intros [= <-]. apply Hr in Hiv.
  assert (Hmodn : (length padded mod bl_size b = 0)%nat).
  { apply Nat2Z.inj. rewrite Nat2Z.inj_mod. exact Hmod. }
  destruct (CBC_inverse b iv padded Hb Hiv Hmodn) as [Hcl Hcd].
  assert (Hge : (bl_size b ≤ length padded)%nat).
  { destruct (decide (length padded < bl_size b)%nat) as [Hlt |]; [| lia].
    pose proof (Z.div_pos (lenZ plain) (Z.of_nat (bl_size b)) ltac:(unfold lenZ; lia) ltac:(lia)). unfold lenZ in *. nia. }
  split; [unfold lenZ in *; rewrite length_app; lia |]. intros invalid.
  assert (Hmodp : (length (iv ++ CBCEncrypt b iv padded) mod bl_size b = 0)%nat).
  { rewrite length_app, Hcl, Hiv. replace (bl_size b + length padded)%nat with (length padded + 1 * bl_size b)%nat by lia.
    by rewrite Nat.Div0.mod_add. }
  rewrite (bool_decide_eq_true_2 _ Hmodp), bool_decide_eq_false_2 by (rewrite length_app; lia). cbn [orb negb].
  rewrite take_app_exact, drop_app_exact by done. rewrite Hcd. done.
Qed.

(** *** CBC *)

Definition cbc_pair (s r : tlsCBCDataCodec) : Prop :=
  cbc_sendCipherBlock s = cbc_receiveCipher r ∧ cbc_sendHMACKey s = cbc_receiveHMACKey r ∧
  cbc_hash s = cbc_hash r ∧ cbc_hmacSize s = cbc_hmacSize r ∧ block_ok (cbc_sendCipherBlock s) ∧
  (∀ key m, (0 < cbc_hmacSize s)%nat → length (cbc_hash s key m) = cbc_hmacSize s).

Lemma cbc_law_decode s r packetID aadPrefix payload random encoded reapNow now :
  cbc_pair s r → 0 < packetID < 2 ^ 32 → random_ok random →
  cbc_Encode s packetID aadPrefix payload random = Ok encoded →
  let '(ok, w) := replayAccept (cbc_replayWindow r) packetID reapNow now in
  cbc_Decode r aadPrefix encoded reapNow now =
    (if ok then Ok (packetID, payload) else Err (ErrNew "replayed tls data packet"), cbc_setWindow r w).
Proof.
  intros (Hblk & Hkey & Hhash & Hsize & Hbok & Hmac) Hid Hr. unfold cbc_Encode.
  destruct (Z.eqb_spec packetID 0); [lia |]. cbv zeta.
  destruct (blockProtect _ _ _) as [p |] eqn:Hp; cbn; [| done]. intros [= <-].
  apply blockProtect_Ok in Hp as [_ Hun]; [| done | done].
  unfold cbc_Decode. rewrite <- Hblk, <- Hkey, <- Hhash, <- Hsize.
  rewrite macStrip_macPrepend by (intros; by apply Hmac). cbn [mbind result_bind]. rewrite Hun.
  unfold lenZ. rewrite length_app, length_PutUint32. destruct (Z.ltb_spec (Z.of_nat (4 + length payload)) 4); [lia |].
  rewrite Uint32_PutUint32_app, drop_app_exact by (lia || apply length_PutUint32).
  destruct (replayAccept _ _ _ _) as [[] w]; done.
Qed.

Lemma cbc_law_length s packetID aadPrefix payload random encoded :
  block_ok (cbc_sendCipherBlock s) → (∀ key m, (0 < cbc_hmacSize s)%nat → length (cbc_hash s key m) = cbc_hmacSize s) →
  random_ok random → cbc_Encode s packetID aadPrefix payload random = Ok encoded →
  lenZ encoded = cbc_EncodedLength s (lenZ payload).
Proof.
  intros Hbok Hmac Hr. unfold cbc_Encode. destruct (packetID =? 0); [done |]. cbv zeta.
  destruct (blockProtect _ _ _) as [p |] eqn:Hp; cbn; [| done]. intros [= <-].
  apply blockProtect_Ok in Hp as [Hlen _]; [| done | done]. unfold lenZ in *.
  rewrite length_macPrepend by (intros; by apply Hmac). rewrite length_app, length_PutUint32 in Hlen.
  unfold cbc_EncodedLength. replace (4 + Z.of_nat (length payload)) with (Z.of_nat (4 + length payload)) by lia. lia.
Qed.

#[export] Program Instance cbc_lawful : LawfulCodec tlsCBCDataCodec := {
  codecPair := cbc_pair;
  codecWindow := cbc_replayWindow;
  codecSetWindow := cbc_setWindow;
  codecTimestamp _ := None;
  codecPayload _ _ := True;
}.
Next Obligation.
  intros s r id aad p rnd e t1 t2 Hp Hid Hr _ He. pose proof (cbc_law_decode s r id aad p rnd e t1 t2 Hp Hid Hr He) as H.
  cbn in *. destruct (replayAccept _ _ _ _) as [ok w]. eauto.
Qed.
Next Obligation. intros s r id aad p rnd e (_ & _ & _ & _ & Hb & Hm) Hr He. exact (cbc_law_length s id aad p rnd e Hb Hm Hr He). Qed.
Next Obligation. done. Qed.
Next Obligation. done. Qed.

(** *** CFB and OFB *)

Definition str_pair (s r : tlsStreamDataCodec) : Prop :=
  str_sendCipherBlock s = str_receiveCipher r ∧ str_sendHMACKey s = str_receiveHMACKey r ∧
  str_hash s = str_hash r ∧ str_hmacSize s = str_hmacSize r ∧ str_mode s = str_mode r ∧
  Block_laws (str_sendCipherBlock s) ∧ 0 ≤ str_sendTimestamp s < 2 ^ 32 ∧
  (∀ key m, (0 < str_hmacSize s)%nat → length (str_hash s key m) = str_hmacSize s).

Lemma streamIV n a b :
  (8 ≤ n)%nat →
  copyAt (copyAt (replicate n x00) 0 (PutUint32 a)) 4 (PutUint32 b) = PutUint32 a ++ PutUint32 b ++ replicate (n - 8) x00.
Proof.
  intros Hn. unfold copyAt at 2. rewrite take_0, Nat.sub_0_r, length_replicate. cbn [app].
  rewrite (take_ge (PutUint32 a)) by (rewrite length_PutUint32; lia).
  rewrite length_PutUint32, drop_replicate. cbn [Nat.add].
  unfold copyAt. rewrite length_app, length_PutUint32, length_replicate.
  rewrite take_app_exact by apply length_PutUint32.
  rewrite (take_ge (PutUint32 b)) by (rewrite length_PutUint32; lia). rewrite length_PutUint32. f_equal. f_equal.
  replace (4 + 4)%nat with (length (PutUint32 a) + 4)%nat by (rewrite length_PutUint32; lia).
  rewrite drop_app_add, drop_replicate. f_equal. lia.
Qed.

Lemma streamIV_facts a b n :
  0 ≤ a < 2 ^ 32 → 0 ≤ b < 2 ^ 32 → (8 ≤ n)%nat →
  let iv := PutUint32 a ++ PutUint32 b ++ replicate (n - 8) x00 in
  length iv = n ∧ Uint32 iv = a ∧ Uint32 (drop 4 iv) = b.
Proof.
  intros Ha Hb Hn. cbv zeta. rewrite !length_app, !length_PutUint32, length_replicate.
  rewrite drop_app_exact by apply length_PutUint32. rewrite !Uint32_PutUint32_app by done. split_and!; done || lia.
Qed.

Lemma stream_inverse mode b iv p :
  Block_laws b → length iv = bl_size b →
  length (stream mode b iv true p) = length p ∧ stream mode b iv false (stream mode b iv true p) = p.
Proof. intros Hb Hiv. destruct mode; cbn; [by apply CFB_inverse | by apply OFB_inverse]. Qed.

Lemma str_law_decode s r packetID aadPrefix payload encoded reapNow now :
  str_pair s r → 0 < packetID < 2 ^ 32 → payload ≠ [] →
  str_Encode s packetID aadPrefix payload = Ok encoded →
  let '(ok, w) := replayAcceptLongForm (str_replayWindow r) packetID (str_sendTimestamp s) reapNow now in
  str_Decode r aadPrefix encoded reapNow now =
    (if ok then Ok (packetID, payload) else Err (ErrNew "replayed tls stream data packet"), str_setWindow r w).
Proof.
  intros (Hblk & Hkey & Hhash & Hsize & Hmode & Hb & Hts & Hmac) Hid Hne. unfold str_Encode.
  destruct (Z.eqb_spec packetID 0); [lia |]. pose proof (bl_size_range _ Hb) as Hsz.
  rewrite streamIV by lia. cbv zeta.
  destruct (streamIV_facts packetID (str_sendTimestamp s) (bl_size (str_sendCipherBlock s))) as (Hiv & Hu1 & Hu2); [lia.. |].
  set (iv := PutUint32 packetID ++ _) in *. clearbody iv. intros [= <-]. set (b := str_sendCipherBlock s) in *.
  destruct (stream_inverse (str_mode s) b iv payload Hb Hiv) as [Hcl Hcd].
  unfold str_Decode. rewrite <- Hkey, <- Hhash, <- Hsize, <- Hblk, <- Hmode.
  rewrite macStrip_macPrepend by (intros; by apply Hmac). cbv beta iota zeta.
  assert (0 < length payload)%nat by (destruct payload; [done | cbn; lia]).
  rewrite bool_decide_eq_false_2 by (rewrite length_app; lia).
  rewrite take_app_exact, drop_app_exact by done. rewrite Hcd, Hu1, Hu2.
  destruct (replayAcceptLongForm _ _ _ _ _) as [[] w]; done.
Qed.

Lemma str_law_length s r packetID aadPrefix payload encoded :
  str_pair s r → str_Encode s packetID aadPrefix payload = Ok encoded → lenZ encoded = str_EncodedLength s (lenZ payload).
Proof.
  intros (_ & _ & _ & _ & _ & Hb & _ & Hmac). unfold str_Encode. destruct (packetID =? 0); [done |].
  pose proof (bl_size_range _ Hb) as Hsz. rewrite streamIV by lia. cbv zeta.
  assert (Hiv : length (PutUint32 packetID ++ PutUint32 (str_sendTimestamp s) ++ replicate (bl_size (str_sendCipherBlock s) - 8) x00)
                = bl_size (str_sendCipherBlock s)) by (rewrite !length_app, !length_PutUint32, length_replicate; lia).
  set (iv := PutUint32 packetID ++ _) in *. clearbody iv. intros [= <-].
  destruct (stream_inverse (str_mode s) (str_sendCipherBlock s) iv payload Hb Hiv) as [Hcl _].
  unfold lenZ, str_EncodedLength. rewrite length_macPrepend by (intros; by apply Hmac). rewrite length_app. lia.
Qed.

#[export] Program Instance str_lawful : LawfulCodec tlsStreamDataCodec := {
  codecPair := str_pair;
  codecWindow := str_replayWindow;
  codecSetWindow := str_setWindow;
  codecTimestamp c := Some (str_sendTimestamp c);
  codecPayload _ payload := payload ≠ [];
}.
Next Obligation.
  intros s r id aad p rnd e t1 t2 Hp Hid _ Hne He. pose proof (str_law_decode s r id aad p e t1 t2 Hp Hid Hne He) as H.
  cbn in *. destruct (replayAcceptLongForm _ _ _ _ _) as [ok w]. eauto.
Qed.
Next Obligation. intros s r id aad p rnd e Hp _ He. exact (str_law_length s r id aad p e Hp He). Qed.
Next Obligation. done. Qed.
Next Obligation. done. Qed.

(** *** Static keys *)

Definition sta_pair (s r : staticKeyDataCodec) : Prop :=
  head (sta_receiveCandidates r) = Some (mkCandidate (sta_sendCipherBlock s) (sta_sendHMACKey s)) ∧
  sta_hash s = sta_hash r ∧ sta_hmacSize s = sta_hmacSize r ∧ block_ok (sta_sendCipherBlock s) ∧
  0 ≤ sta_sendTimestamp s < 2 ^ 32 ∧
  (∀ key m, (0 < sta_hmacSize s)%nat → length (sta_hash s key m) = sta_hmacSize s).

(** A candidate with the sender's keys decodes the sender's packet. *)
Lemma decodeWithCandidate_Ok s r packetID aadPrefix payload random encoded candidate :
  cand_cipherBlock candidate = sta_sendCipherBlock s → cand_hmacKey candidate = sta_sendHMACKey s →
  sta_hash s = sta_hash r → sta_hmacSize s = sta_hmacSize r → block_ok (sta_sendCipherBlock s) →
  0 ≤ sta_sendTimestamp s < 2 ^ 32 →
  (∀ key m, (0 < sta_hmacSize s)%nat → length (sta_hash s key m) = sta_hmacSize s) →
  0 < packetID < 2 ^ 32 → random_ok random → sta_Encode s packetID aadPrefix payload random = Ok encoded →
  decodeWithCandidate r encoded candidate = Ok (packetID, sta_sendTimestamp s, payload).
Proof.
  intros Hblk Hkey Hhash Hsize Hb Hts Hmac Hid Hr. unfold sta_Encode.
  destruct (Z.eqb_spec packetID 0); [lia |]. cbv zeta.
  destruct (blockProtect _ _ _) as [p |] eqn:Hp; cbn; [| done]. intros [= <-].
  apply blockProtect_Ok in Hp as [_ Hun]; [| done | done].
  unfold decodeWithCandidate. rewrite Hblk, Hkey, <- Hhash, <- Hsize.
  rewrite macStrip_macPrepend by (intros; by apply Hmac). cbn [mbind result_bind]. rewrite Hun. cbn [mbind result_bind].
  unfold lenZ. rewrite !length_app, !length_PutUint32. destruct (Z.ltb_spec (Z.of_nat (4 + (4 + length payload))) 8); [lia |].
  rewrite Uint32_PutUint32_app by lia. destruct (Z.eqb_spec packetID 0); [lia |]. cbv zeta.
  rewrite drop_app_exact by apply length_PutUint32. rewrite Uint32_PutUint32_app by lia.
  rewrite app_assoc, drop_app_exact by (rewrite length_app, !length_PutUint32; done). done.
Qed.

Lemma sta_law_decode s r packetID aadPrefix payload random encoded reapNow now :
  sta_pair s r → 0 < packetID < 2 ^ 32 → random_ok random →
  sta_Encode s packetID aadPrefix payload random = Ok encoded →
  let '(ok, w) := replayAcceptLongForm (sta_replayWindow r) packetID (sta_sendTimestamp s) reapNow now in
  sta_Decode r aadPrefix encoded reapNow now =
    (if ok then Ok (packetID, payload) else Err (ErrNew "replayed static key data packet"), sta_setWindow r w).
Proof.
  intros (Hcand & Hhash & Hsize & Hb & Hts & Hmac) Hid Hr Henc. unfold sta_Decode.
  destruct (sta_receiveCandidates r) as [| c cs]; [done |]. cbn in Hcand. injection Hcand as ->. cbn [decodeCandidates].
  erewrite decodeWithCandidate_Ok by (done || exact Henc).
  destruct (replayAcceptLongForm _ _ _ _ _) as [[] w]; done.
Qed.

Lemma sta_law_length s r packetID aadPrefix payload random encoded :
  sta_pair s r → random_ok random → sta_Encode s packetID aadPrefix payload random = Ok encoded →
  lenZ encoded = sta_EncodedLength s (lenZ payload).
Proof.
  intros (_ & _ & _ & Hbok & _ & Hmac) Hr. unfold sta_Encode. destruct (packetID =? 0); [done |]. cbv zeta.
  destruct (blockProtect _ _ _) as [p |] eqn:Hp; cbn; [| done]. intros [= <-].
  apply blockProtect_Ok in Hp as [Hlen _]; [| done | done]. unfold lenZ in *.
  rewrite length_macPrepend by (intros; by apply Hmac). rewrite !length_app, !length_PutUint32 in Hlen.
  unfold sta_EncodedLength. replace (8 + Z.of_nat (length payload)) with (Z.of_nat (4 + (4 + length payload))) by lia. lia.
Qed.

#[export] Program Instance sta_lawful : LawfulCodec staticKeyDataCodec := {
  codecPair := sta_pair;
  codecWindow := sta_replayWindow;
  codecSetWindow := sta_setWindow;
  codecTimestamp c := Some (sta_sendTimestamp c);
  codecPayload _ _ := True;
}.
Next Obligation.
  intros s r id aad p rnd e t1 t2 Hp Hid Hr _ He. pose proof (sta_law_decode s r id aad p rnd e t1 t2 Hp Hid Hr He) as H.
  cbn in *. destruct (replayAcceptLongForm _ _ _ _ _) as [ok w]. eauto.
Qed.
Next Obligation. intros s r id aad p rnd e Hp Hr He. exact (sta_law_length s r id aad p rnd e Hp Hr He). Qed.
Next Obligation. done. Qed.
Next Obligation. done. Qed.

(** *** The codec of a TLS session *)

Definition tls_pair (s r : tlsDataCodec) : Prop :=
  match s, r with
  | TLSAEAD s, TLSAEAD r => gcm_pair s r
  | TLSCBC s, TLSCBC r => cbc_pair s r
  | TLSStream s, TLSStream r => str_pair s r
  | _, _ => False
  end.

#[export] Program Instance tls_lawful : LawfulCodec tlsDataCodec := {
  codecPair := tls_pair;
  codecWindow c := match c with TLSAEAD c => gcm_replayWindow c | TLSCBC c => cbc_replayWindow c | TLSStream c => str_replayWindow c end;
  codecSetWindow c w :=
    match c with TLSAEAD c => TLSAEAD (gcm_setWindow c w) | TLSCBC c => TLSCBC (cbc_setWindow c w) | TLSStream c => TLSStream (str_setWindow c w) end;
  codecTimestamp c := match c with TLSStream c => Some (str_sendTimestamp c) | TLSAEAD _ | TLSCBC _ => None end;
  codecPayload c payload := match c with TLSStream _ => payload ≠ [] | TLSAEAD _ | TLSCBC _ => True end;
}.
Next Obligation.
  intros [s | s | s] [r | r | r] id aad p rnd e t1 t2 Hp Hid Hr Hok He; try done; cbn in Hp, He, Hok |- *.
  - pose proof (law_decode s r id aad p rnd e t1 t2 Hp Hid Hr Hok He) as H. cbn in H.
    destruct (replayAccept _ _ _ _) as [ok w]. destruct H as [err H]. exists err. by rewrite H.
  - pose proof (law_decode s r id aad p rnd e t1 t2 Hp Hid Hr Hok He) as H. cbn in H.
    destruct (replayAccept _ _ _ _) as [ok w]. destruct H as [err H]. exists err. by rewrite H.
  - pose proof (law_decode s r id aad p rnd e t1 t2 Hp Hid Hr Hok He) as H. cbn in H.
    destruct (replayAcceptLongForm _ _ _ _ _) as [ok w]. destruct H as [err H]. exists err. by rewrite H.
Qed.
Next Obligation.
  intros [s | s | s] [r | r | r] id aad p rnd e Hp Hr He; try done; cbn in Hp, He |- *.
  - exact (law_length s r id aad p rnd e Hp Hr He).
  - exact (law_length s r id aad p rnd e Hp Hr He).
  - exact (law_length s r id aad p rnd e Hp Hr He).
Qed.
Next Obligation. by intros [s | s | s] [r | r | r] w. Qed.
Next Obligation. by intros [r | r | r] w. Qed.

(** ** Key material *)

(** What the libraries promise. *)
Record Crypto_laws (cr : Crypto) : Prop := mkCryptoLaws {
  cl_block : ∀ name key b, cr_NewCipher cr name key = Ok b → Block_laws b;
  cl_gcm : ∀ key a, cr_NewGCM cr key = Ok a → AEAD_laws a;
  cl_chacha : ∀ key a, cr_NewChaCha20Poly1305 cr key = Ok a → AEAD_laws a;
  cl_hmac : ∀ authName hash n key m, staticHMACFactory authName = Ok (hash, n) → (0 < n)%nat → length (cr_hmac cr hash key m) = n;
}.

Lemma newStaticCipherBlock_ok cr name key n b :
  Crypto_laws cr → newStaticCipherBlock cr name key n = Ok b → block_ok b.
Proof.
  intros Hcr. unfold newStaticCipherBlock.
  assert (Hlib : ∀ lib k, Some <$> cr_NewCipher cr lib k = Ok b → block_ok b).
  { intros lib k. destruct (cr_NewCipher cr lib k) as [b' |] eqn:Hb; cbn; [| done]. intros [= <-]. cbn.
    by apply (cl_block _ Hcr) in Hb. }
  cbv zeta. destruct (decide (name = "NONE")); [by intros [= <-] |].
  destruct (_ || _); [done |]. repeat (destruct (decide _); [apply Hlib |]). done.
Qed.

Lemma gcm_codecs_pair mk km w1 r1 w2 r2 (c s : tlsGCMDataCodec) keySize :
  (∀ key a, mk key = Ok a → AEAD_laws a) →
  (let '(a, b) := tlsDataKeySlots (splitStaticKeyMaterial km) false in
   x ← mk (take keySize (slot_cipherKey a)); y ← mk (take keySize (slot_cipherKey b)); Ok (aeadCodec x y a b w1 r1)) = Ok c →
  (let '(a, b) := tlsDataKeySlots (splitStaticKeyMaterial km) true in
   x ← mk (take keySize (slot_cipherKey a)); y ← mk (take keySize (slot_cipherKey b)); Ok (aeadCodec x y a b w2 r2)) = Ok s →
  gcm_pair c s ∧ gcm_pair s c.
Proof.
  intros Hl. unfold tlsDataKeySlots. destruct (splitStaticKeyMaterial km) as [k1 k2]. cbn [fst snd].
  destruct (mk (take keySize (slot_cipherKey k1))) as [a1 |] eqn:E1; cbn; [| done].
  destruct (mk (take keySize (slot_cipherKey k2))) as [a2 |] eqn:E2; cbn; [| done].
  intros [= <-] [= <-]. apply Hl in E1, E2. done.
Qed.

Lemma cbc_codecs_pair cr km cipherName authName w1 r1 w2 r2 c s :
  Crypto_laws cr → newTLSCBCDataCodec cr km false cipherName authName w1 r1 = Ok c →
  newTLSCBCDataCodec cr km true cipherName authName w2 r2 = Ok s → cbc_pair c s ∧ cbc_pair s c.
Proof.
  intros Hcr. unfold newTLSCBCDataCodec, tlsDataKeySlots. destruct (_ <? 256); [done |].
  destruct (splitStaticKeyMaterial km) as [k1 k2]. cbn [fst snd].
  destruct (staticCipherKeySize cipherName) as [n |]; cbn; [| done].
  destruct (staticHMACFactory authName) as [[hash size] |] eqn:Hauth; cbn; [| done].
  destruct (newStaticCipherBlock cr cipherName (slot_cipherKey k1) n) as [b1 |] eqn:E1; cbn; [| done].
  destruct (newStaticCipherBlock cr cipherName (slot_cipherKey k2) n) as [b2 |] eqn:E2; cbn; [| done].
  intros [= <-] [= <-]. apply newStaticCipherBlock_ok in E1, E2; [| done..].
  unfold cbc_pair; cbn. split_and!; try done; intros key m Hs; by eapply cl_hmac.
Qed.

Lemma str_codecs_pair cr t1 t2 km cipherName authName w1 r1 w2 r2 c s :
  Crypto_laws cr → newTLSStreamDataCodec cr t1 km false cipherName authName w1 r1 = Ok c →
  newTLSStreamDataCodec cr t2 km true cipherName authName w2 r2 = Ok s → str_pair c s ∧ str_pair s c.
Proof.
  intros Hcr. unfold newTLSStreamDataCodec, tlsDataKeySlots. destruct (_ <? 256); [done |].
  destruct (tlsStreamCipherSpec cipherName) as [[[mode cbcName] n] |]; cbn [mbind result_bind]; [| done].
  destruct (splitStaticKeyMaterial km) as [k1 k2]. cbn [fst snd].
  destruct (staticHMACFactory authName) as [[hash size] |] eqn:Hauth; cbn; [| done].
  destruct (newStaticCipherBlock cr cbcName (slot_cipherKey k1) n) as [b1 |] eqn:E1; cbn; [| done].
  destruct (newStaticCipherBlock cr cbcName (slot_cipherKey k2) n) as [b2 |] eqn:E2; cbn; [| done].
  apply newStaticCipherBlock_ok in E1, E2; [| done..].
  destruct b1, b2; try done. intros [= <-] [= <-]. cbn in E1, E2.
  pose proof (u32_range t1). pose proof (u32_range t2).
  unfold str_pair; cbn. split_and!; try done; try lia; intros key m Hs; by eapply cl_hmac.
Qed.

(** The codecs the two ends of a session build from the same key material,
    cipher and digest can decode each other's packets, whatever their replay windows. *)
Lemma tls_codecs_pair cr t1 t2 km cipherName authName w1 r1 w2 r2 c s :
  Crypto_laws cr →
  newTLSDataCodec cr t1 km false cipherName authName w1 r1 = Ok c →
  newTLSDataCodec cr t2 km true cipherName authName w2 r2 = Ok s →
  codecPair c s ∧ codecPair s c.
Proof.
  intros Hcr. unfold newTLSDataCodec. destruct (dataReplayWindowParameters w1 r1) as [w1' r1'], (dataReplayWindowParameters w2 r2) as [w2' r2'].
  destruct (decide (cipherName ∈ _)).
  { destruct (newTLSGCMDataCodec cr km false cipherName w1' r1') as [c' |] eqn:Ec; cbn; [| done].
    destruct (newTLSGCMDataCodec cr km true cipherName w2' r2') as [s' |] eqn:Es; cbn; [| done].
    intros [= <-] [= <-]. unfold newTLSGCMDataCodec in Ec, Es. destruct (_ <? 256); [done |].
    destruct (gcmKeySize cipherName) as [n |]; [| by destruct (tlsDataKeySlots _ _)].
    by eapply (gcm_codecs_pair (cr_NewGCM cr) km w1' r1' w2' r2' c' s' n (cl_gcm _ Hcr)). }
  destruct (decide (cipherName = _)).
  { destruct (newTLSChaCha20Poly1305DataCodec cr km false w1' r1') as [c' |] eqn:Ec; cbn; [| done].
    destruct (newTLSChaCha20Poly1305DataCodec cr km true w2' r2') as [s' |] eqn:Es; cbn; [| done].
    intros [= <-] [= <-]. unfold newTLSChaCha20Poly1305DataCodec in Ec, Es. destruct (_ <? 256); [done |].
    by eapply (gcm_codecs_pair (cr_NewChaCha20Poly1305 cr) km w1' r1' w2' r2' c' s' 32 (cl_chacha _ Hcr)). }
  destruct (tlsStreamCipherSpec cipherName).
  - destruct (newTLSStreamDataCodec cr t1 km false cipherName authName w1' r1') as [c' |] eqn:Ec; cbn; [| done].
    destruct (newTLSStreamDataCodec cr t2 km true cipherName authName w2' r2') as [s' |] eqn:Es; cbn; [| done].
    intros [= <-] [= <-]. by eapply str_codecs_pair.
  - destruct (newTLSCBCDataCodec cr km false cipherName authName w1' r1') as [c' |] eqn:Ec; cbn; [| done].
    destruct (newTLSCBCDataCodec cr km true cipherName authName w2' r2') as [s' |] eqn:Es; cbn; [| done].
    intros [= <-] [= <-]. by eapply cbc_codecs_pair.
Qed.

(** Every codec of a session starts with the configured replay window, never an empty one. *)
Lemma newTLSDataCodec_window cr unixNow km server cipherName authName w t c :
  newTLSDataCodec cr unixNow km server cipherName authName w t = Ok c →
  codecWindow c = Some (newReplayWindow (dataReplayWindowParameters w t).1 (dataReplayWindowParameters w t).2).
Proof.
  unfold newTLSDataCodec. destruct (dataReplayWindowParameters w t) as [w' t']. cbn [fst snd].
  destruct (decide (cipherName ∈ _)).
  { destruct (newTLSGCMDataCodec _ _ _ _ _ _) as [c' |] eqn:Ec; cbn; [| done]. intros [= <-].
    unfold newTLSGCMDataCodec in Ec. destruct (_ <? 256); [done |]. destruct (tlsDataKeySlots _ _) as [k1 k2].
    inv_bind Ec. by injection Ec as <-. }
  destruct (decide (cipherName = _)).
  { destruct (newTLSChaCha20Poly1305DataCodec _ _ _ _ _) as [c' |] eqn:Ec; cbn; [| done]. intros [= <-].
    unfold newTLSChaCha20Poly1305DataCodec in Ec. destruct (_ <? 256); [done |]. destruct (tlsDataKeySlots _ _) as [k1 k2].
    inv_bind Ec. by injection Ec as <-. }
  destruct (tlsStreamCipherSpec cipherName) as [[[mode name] keySize] |] eqn:Hspec.
  - destruct (newTLSStreamDataCodec _ _ _ _ _ _ _ _) as [c' |] eqn:Ec; cbn; [| done]. intros [= <-].
    unfold newTLSStreamDataCodec in Ec. destruct (_ <? 256); [done |]. rewrite Hspec in Ec.
    cbn [mbind result_bind] in Ec. destruct (tlsDataKeySlots _ _) as [k1 k2].
    inv_bind Ec. by repeat case_match; simplify_eq.
  - destruct (newTLSCBCDataCodec _ _ _ _ _ _ _) as [c' |] eqn:Ec; cbn; [| done]. intros [= <-].
    unfold newTLSCBCDataCodec in Ec. destruct (_ <? 256); [done |]. destruct (tlsDataKeySlots _ _) as [k1 k2].
    inv_bind Ec. by injection Ec as <-.
Qed.

(** ** The in-place variants *)

Definition gcm_buffers_ok (c : tlsGCMDataCodec) : Prop :=
  aead_NonceSize (gcm_sendAEAD c) = 12%nat ∧ aead_NonceSize (gcm_receiveAEAD c) = 12%nat ∧
  length (gcm_sendIVSuffix c) = 8%nat ∧ length (gcm_receiveIVSuffix c) = 8%nat ∧
  length (gcm_sendNonce c) = 32%nat ∧ length (gcm_receiveNonce c) = 32%nat ∧
  length (gcm_sendAdditionalData c) = 8%nat ∧ length (gcm_receiveAdditionalData c) = 8%nat.

(** Whatever an earlier call left in the nonce buffer is overwritten. *)
Lemma fillNonce_any buffer packetID suffix :
  length buffer = 12%nat → length suffix = 8%nat → fillNonce buffer packetID suffix = PutUint32 packetID ++ suffix.
Proof.
  intros Hb Hs. unfold fillNonce. pose proof (copyAt_two buffer (PutUint32 packetID) suffix) as H.
  rewrite length_PutUint32 in H. apply H. lia.
Qed.

Lemma additionalData_any buffer aadPrefix packetID :
  length buffer = 8%nat → (length aadPrefix ≤ 4)%nat →
  take (length aadPrefix + 4) (copyAt (copyAt buffer 0 aadPrefix) (length aadPrefix) (PutUint32 packetID)) =
    aadPrefix ++ PutUint32 packetID.
Proof.
  intros Hb Ha. pose proof (take_copyAt_two buffer aadPrefix (PutUint32 packetID)) as H.
  rewrite length_PutUint32 in H. apply H. lia.
Qed.

(** The header in front of the sealed payload, cut at the payload's length. *)
Lemma gcm_EncodeBuffer_bytes packetID (sealed : bytes) n :
  length sealed = (n + 16)%nat →
  take (4 + 16 + n) (copyAt (copyAt (replicate (4 + 16) x00) 0 (PutUint32 packetID)) 4 (drop n sealed) ++ sealed) =
    PutUint32 packetID ++ drop n sealed ++ take n sealed.
Proof.
  intros Hlen. assert (Htag : length (drop n sealed) = 16%nat) by (rewrite length_drop; lia).
  assert (Hhead : copyAt (copyAt (replicate (4 + 16) x00) 0 (PutUint32 packetID)) 4 (drop n sealed) =
                  PutUint32 packetID ++ drop n sealed).
  { pose proof (copyAt_two (replicate (4 + 16) x00) (PutUint32 packetID) (drop n sealed)) as H.
    rewrite length_PutUint32, Htag in H. by apply H. }
  rewrite Hhead, app_assoc.
  replace (4 + 16 + n)%nat with (length (PutUint32 packetID ++ drop n sealed) + n)%nat
    by (rewrite length_app, length_PutUint32, Htag; lia).
  by rewrite take_app_add.
Qed.

(** The tag moved behind the ciphertext, in place. *)
Lemma gcm_DecodeBuffer_bytes (payload : bytes) :
  (20 ≤ length payload)%nat →
  let n := (length payload - 4 - 16)%nat in
  slice 4 (4 + n + 16) (copyAt (copyAt payload 4 (drop (4 + 16) payload)) (4 + n) (slice 4 (4 + 16) payload)) =
    drop (4 + 16) payload ++ slice 4 (4 + 16) payload.
Proof.
  intros Hlen. cbv zeta. set (n := (length payload - 4 - 16)%nat).
  set (tag := slice 4 (4 + 16) payload). set (ct := drop (4 + 16) payload).
  assert (Htag : length tag = 16%nat) by (unfold tag, slice; rewrite length_take, length_drop; lia).
  assert (Hct : length ct = n) by (unfold ct; rewrite length_drop; lia).
  assert (Hhead : length (take 4 payload) = 4%nat) by (rewrite length_take; lia).
  assert (H1 : copyAt payload 4 ct = take 4 payload ++ ct ++ drop (4 + n) payload).
  { unfold copyAt. rewrite (take_ge ct) by lia. by rewrite Hct. }
  assert (H2 : copyAt (copyAt payload 4 ct) (4 + n) tag = take 4 payload ++ ct ++ tag).
  { rewrite H1. unfold copyAt. rewrite (app_assoc (take 4 payload) ct).
    rewrite (take_app_exact _ (take 4 payload ++ ct)) by (rewrite length_app; lia).
    rewrite !length_app, length_drop, Hhead, Hct. rewrite (take_ge tag) by lia.
    rewrite (drop_ge (_ ++ _)) by (rewrite !length_app, length_drop; lia). rewrite app_nil_r. by rewrite <- app_assoc. }
  rewrite H2. unfold slice. rewrite drop_app_exact by done. apply take_ge. rewrite length_app. lia.
Qed.

(** The in-place variants of the AEAD codec produce and accept the same
    octets as the allocating ones, with the same replay decisions, whatever the
    reused nonce and additional data buffers still hold. *)
Theorem gcm_buffers_equivalent c packetID aadPrefix payload reapNow now :
  gcm_buffers_ok c → AEAD_laws (gcm_sendAEAD c) → (length aadPrefix ≤ 4)%nat →
  (gcm_EncodeBuffer c packetID aadPrefix payload).1 = gcm_Encode c packetID aadPrefix payload ∧
  (gcm_DecodeBuffer c aadPrefix payload reapNow now).1 = (gcm_Decode c aadPrefix payload reapNow now).1 ∧
  gcm_replayWindow (gcm_DecodeBuffer c aadPrefix payload reapNow now).2 =
    gcm_replayWindow (gcm_Decode c aadPrefix payload reapNow now).2 ∧
  gcm_buffers_ok (gcm_EncodeBuffer c packetID aadPrefix payload).2 ∧
  gcm_buffers_ok (gcm_DecodeBuffer c aadPrefix payload reapNow now).2.
Proof.
  intros (Hn1 & Hn2 & Hs1 & Hs2 & Hb1 & Hb2 & Ha1 & Ha2) Hl Haad.
  assert (Hfill1 : ∀ id, fillNonce (take 12 (gcm_sendNonce c)) id (gcm_sendIVSuffix c) =
                         fillNonce (replicate 12 x00) id (gcm_sendIVSuffix c)).
  { intros id. rewrite !fillNonce_any; [done | by rewrite length_replicate | done | rewrite length_take; lia | done]. }
  assert (Hfill2 : ∀ id, fillNonce (take 12 (gcm_receiveNonce c)) id (gcm_receiveIVSuffix c) =
                         fillNonce (replicate 12 x00) id (gcm_receiveIVSuffix c)).
  { intros id. rewrite !fillNonce_any; [done | by rewrite length_replicate | done | rewrite length_take; lia | done]. }
  assert (Hlad : ∀ buf id, length buf = 8%nat → length (copyAt (copyAt buf 0 aadPrefix) (length aadPrefix) (PutUint32 id)) = 8%nat).
  { intros buf id Hbuf. rewrite !length_copyAt; rewrite ?length_copyAt; lia. }
  assert (Hlnonce : ∀ buf nonce, length buf = 32%nat → length (copyAt buf 0 nonce) = 32%nat).
  { intros buf nonce Hbuf. rewrite length_copyAt; lia. }
  assert (Henc : (gcm_EncodeBuffer c packetID aadPrefix payload).1 = gcm_Encode c packetID aadPrefix payload ∧
    gcm_buffers_ok (gcm_EncodeBuffer c packetID aadPrefix payload).2).
  { unfold gcm_EncodeBuffer, gcm_Encode. destruct (packetID =? 0); [done |]. cbv zeta. cbn [gcm_sendAEAD].
    rewrite Hn1, Hfill1, additionalData_any by done.
    pose proof (aead_seal_length _ Hl (fillNonce (replicate 12 x00) packetID (gcm_sendIVSuffix c)) payload
      (aadPrefix ++ PutUint32 packetID)) as Hlen.
    set (sealed := aead_Seal _ _ _ _) in *. unfold lenZ. rewrite Hlen. unfold tlsDataAEADTagSize in *.
    destruct (Z.ltb_spec (Z.of_nat (length payload + 16)) (Z.of_nat 16)); [lia |].
    rewrite bool_decide_eq_true_2 by done. cbn [negb fst snd]. split.
    - rewrite gcm_EncodeBuffer_bytes by done. by replace (length payload + 16 - 16)%nat with (length payload) by lia.
    - unfold gcm_buffers_ok; cbn. split_and!; auto. }
  assert (Hdec : (gcm_DecodeBuffer c aadPrefix payload reapNow now).1 = (gcm_Decode c aadPrefix payload reapNow now).1 ∧
    gcm_replayWindow (gcm_DecodeBuffer c aadPrefix payload reapNow now).2 =
      gcm_replayWindow (gcm_Decode c aadPrefix payload reapNow now).2 ∧
    gcm_buffers_ok (gcm_DecodeBuffer c aadPrefix payload reapNow now).2).
  { unfold gcm_DecodeBuffer, gcm_Decode, tlsDataAEADTagSize.
    destruct (Z.ltb_spec (lenZ payload) (4 + Z.of_nat 16)) as [| Hge]; [done |]. cbv zeta.
    cbn [gcm_receiveAEAD gcm_replayWindow].
    rewrite Hn2, Hfill2, additionalData_any, gcm_DecodeBuffer_bytes by (done || unfold lenZ in Hge; lia).
    destruct (aead_Open _ _ _ _) as [decoded |].
    - destruct (replayAccept _ _ _ _) as [[] w]; cbn [negb fst snd gcm_replayWindow gcm_setWindow];
        (split_and!; [done | done |]; unfold gcm_buffers_ok; cbn; split_and!; auto).
    - split_and!; [done | done |]. unfold gcm_buffers_ok; cbn; split_and!; auto. }
  tauto.
Qed.

(** ** Static keys and direction *)

(** With a key direction, where the two directions have keys of their own,
    the static key codec still decodes a packet it sent itself, reflected back
    at it: the slot to fall back to is the slot it sends with. *)
Theorem static_accepts_own_packets cr unixNow km keyDirection cipherName authName w t c packetID aadPrefix payload random
    encoded receive rest err reapNow now :
  Crypto_laws cr → 0 ≤ keyDirection →
  newStaticKeyDataCodec cr unixNow km keyDirection cipherName authName w t = Ok c →
  0 < packetID < 2 ^ 32 → random_ok random →
  sta_Encode c packetID aadPrefix payload random = Ok encoded →
  sta_receiveCandidates c = receive :: rest → decodeWithCandidate c encoded receive = Err err →
  (replayAcceptLongForm (sta_replayWindow c) packetID (sta_sendTimestamp c) reapNow now).1 = true →
  (sta_Decode c aadPrefix encoded reapNow now).1 = Ok (packetID, payload).
Proof.
  intros Hcr Hdir Hnew Hid Hr Henc Hcands Hfail Hacc.
  assert (Hc : ∃ cand, rest = [cand] ∧ cand_cipherBlock cand = sta_sendCipherBlock c ∧ cand_hmacKey cand = sta_sendHMACKey c ∧
    block_ok (sta_sendCipherBlock c) ∧ 0 ≤ sta_sendTimestamp c < 2 ^ 32 ∧
    (∀ key m, (0 < sta_hmacSize c)%nat → length (sta_hash c key m) = sta_hmacSize c)).
  { unfold newStaticKeyDataCodec in Hnew.
    assert (Hres : ∃ i, resolveStaticKeyDirection keyDirection = (i, negb i, i)).
    { unfold resolveStaticKeyDirection. destruct (_ || _); [by exists true |].
      destruct (Z.ltb_spec keyDirection 0); [lia | by exists false]. }
    destruct Hres as [i Hres]. rewrite Hres in Hnew. inv_bind Hnew. injection Hnew as <-. cbn in *.
    assert (Hi : negb (Bool.eqb i (negb i)) = true) by by destruct i. rewrite Hi in *.
    match goal with H : (_ ≫= _) = Ok _ |- _ => inv_bind H; injection H as <- end.
    injection Hcands as <- <-. eexists. split; [done |]. cbn. pose proof (u32_range unixNow).
    split_and!; [congruence | done | | lia | lia |].
    - eapply newStaticCipherBlock_ok; [done |]. done.
    - intros key m Hs. by eapply cl_hmac. }
  destruct Hc as (cand & -> & Hblk & Hkey & Hb & Hts & Hmac).
  unfold sta_Decode. rewrite Hcands. cbn [decodeCandidates]. rewrite Hfail.
  erewrite (decodeWithCandidate_Ok c c) by (done || exact Henc).
  destruct (replayAcceptLongForm _ _ _ _ _) as [ok w']. cbn in Hacc. by rewrite Hacc.
Qed.

(** ** An example of the libraries, with their laws *)

Definition exampleBlock : Block := mkBlock 16 (@rev byte) (@rev byte).

Definition exampleTag (nonce ad : bytes) : bytes := take 16 (nonce ++ ad ++ replicate 16 x00).

Definition exampleAEAD : AEAD :=
  mkAEAD 12 (λ nonce plain ad, plain ++ exampleTag nonce ad)
    (λ nonce sealed ad,
       let n := (length sealed - 16)%nat in
       if bool_decide (drop n sealed = exampleTag nonce ad) then Ok (take n sealed) else Err (ErrNew "message authentication failed")).

Definition exampleHashSize (hash : string) : nat :=
  if decide (hash = "sha1" ∨ hash = "ripemd160") then 20 else if decide (hash = "sha224") then 28
  else if decide (hash = "sha256") then 32 else if decide (hash = "sha384") then 48
  else if decide (hash = "sha512") then 64 else if decide (hash = "md5") then 16 else 0.

Definition exampleCrypto : Crypto :=
  mkCrypto (λ _ _, Ok exampleBlock) (λ _, Ok exampleAEAD) (λ _, Ok exampleAEAD)
    (λ hash key m, take (exampleHashSize hash) (take 8 key ++ rev m ++ replicate 64 x00)).

Lemma exampleBlock_laws : Block_laws exampleBlock.
Proof.
  split; cbn.
  - lia.
  - intros x Hx. by rewrite length_rev.
  - intros x _. apply rev_involutive.
Qed.

Lemma exampleAEAD_laws : AEAD_laws exampleAEAD.
Proof.
  assert (Htag : ∀ nonce ad, length (exampleTag nonce ad) = 16%nat).
  { intros nonce ad. unfold exampleTag. rewrite length_take, !length_app, length_replicate. lia. }
  split; intros nonce plain ad; cbn.
  - by rewrite length_app, Htag.
  - assert (Hn : (length (plain ++ exampleTag nonce ad) - 16)%nat = length plain) by (rewrite length_app, Htag; lia).
    rewrite Hn, drop_app_exact, take_app_exact by done. by rewrite bool_decide_eq_true_2.
Qed.

Lemma exampleCrypto_laws : Crypto_laws exampleCrypto.
Proof.
  split; cbn [exampleCrypto cr_NewCipher cr_NewGCM cr_NewChaCha20Poly1305 cr_hmac].
  - intros name key b [= <-]. apply exampleBlock_laws.
  - intros key a [= <-]. apply exampleAEAD_laws.
  - intros key a [= <-]. apply exampleAEAD_laws.
  - intros authName hash n key m Hf _.
    assert (Hn : exampleHashSize hash = n ∧ (n ≤ 64)%nat).
    { unfold staticHMACFactory in Hf.
      repeat (destruct (decide _) in Hf; [injection Hf as <- <-; split; [vm_compute; reflexivity | lia] |]). done. }
    destruct Hn as [-> Hn]. rewrite length_take, !length_app, length_replicate. lia.
Qed.

Definition exampleRandom (n : nat) : result bytes := Ok (replicate n x07).

Lemma exampleRandom_ok : random_ok exampleRandom.
Proof. intros n v [= <-]. apply length_replicate. Qed.

Definition exampleKeyMaterial : bytes := z2b <$> seqZ 0 256.

Definition exampleGCM : tlsGCMDataCodec :=
  aeadCodec exampleAEAD exampleAEAD (splitStaticKeyMaterial exampleKeyMaterial).1
    (splitStaticKeyMaterial exampleKeyMaterial).2 64 0.

Lemma gcm_buffers_equivalent_witness :
  (gcm_EncodeBuffer exampleGCM 7 [x30] [x61; x62]).1 = gcm_Encode exampleGCM 7 [x30] [x61; x62].
Proof.
  refine (proj1 (gcm_buffers_equivalent exampleGCM 7 [x30] [x61; x62] 1 1 _ _ _)).
  - vm_compute. repeat split.
  - apply exampleAEAD_laws.
  - cbn. lia.
Defined.

Definition exampleStatic : staticKeyDataCodec :=
  match newStaticKeyDataCodec exampleCrypto 1000 exampleKeyMaterial 0 "AES-128-CBC" "SHA256" 64 0 with
  | Ok c => c
  | Err _ => mkStatic None [] [] (λ _ _, []) 0 0 None
  end.

Definition exampleStaticPacket : bytes :=
  match sta_Encode exampleStatic 1 [] [x61; x62] exampleRandom with Ok e => e | Err _ => [] end.

Lemma static_accepts_own_packets_witness :
  (sta_Decode exampleStatic [] exampleStaticPacket 1 1).1 = Ok (1, [x61; x62]).
Proof.
  apply (static_accepts_own_packets exampleCrypto 1000 exampleKeyMaterial 0 "AES-128-CBC" "SHA256" 64 0 exampleStatic
    1 [] [x61; x62] exampleRandom exampleStaticPacket
    (default (mkCandidate None []) (head (sta_receiveCandidates exampleStatic))) (tail (sta_receiveCandidates exampleStatic))
    (ErrNew "invalid static key payload hmac") 1 1).
  - apply exampleCrypto_laws.
  - lia.
  - reflexivity.
  - lia.
  - apply exampleRandom_ok.
  - vm_compute. reflexivity.
  - reflexivity.
  - vm_compute. reflexivity.
  - vm_compute. reflexivity.
Defined.
