(* ===== verification/DataChannel.v ===== *)
(** * The data channel

    What a receiver makes of the packets of its peer, for any codec that keeps
    the promise of [LawfulCodec]: whatever the network loses, repeats or
    reorders, every packet that decodes is one that was sent, none is delivered
    twice, and packets that arrive in order are all delivered. *)

From S2P Require Import Prelude ReplayWindow Crypto Codec CodecLaws.

(** A packet on its way: what was sent, its encoding, and the receiver's clock. *)
Record arrival := mkArrival {
  ar_id : Z;
  ar_aadPrefix : bytes;
  ar_payload : bytes;
  ar_encoded : bytes;
  ar_reapNow : Time;
  ar_now : Time;
}.

Section Channel.
Context {C : Type} {dc : DataCodec C} {lc : LawfulCodec C}.

(** The packets a sender can have sent. *)
Definition sentBy (s : C) (a : arrival) : Prop :=
  0 < ar_id a < 2 ^ 32 ∧ codecPayload s (ar_payload a) ∧
  ∃ random, random_ok random ∧ Encode s (ar_id a) (ar_aadPrefix a) (ar_payload a) random = Ok (ar_encoded a).

Fixpoint receive (r : C) (arrivals : list arrival) : list (result (Z * bytes)) * C :=
  match arrivals with
  | [] => ([], r)
  | a :: arrivals =>
      let '(x, r) := Decode r (ar_aadPrefix a) (ar_encoded a) (ar_reapNow a) (ar_now a) in
      let '(out, r) := receive r arrivals in (x :: out, r)
  end.

(** The replay decisions, one after the other. *)
Fixpoint decisions (timestamp : option Z) (w : option replayWindow) (arrivals : list arrival) : list bool :=
  match arrivals with
  | [] => []
  | a :: arrivals =>
      let '(ok, w) := codecAccept timestamp w (ar_id a) (ar_reapNow a) (ar_now a) in
      ok :: decisions timestamp w arrivals
  end.

Definition resultOk (x : result (Z * bytes)) : bool := match x with Ok _ => true | Err _ => false end.

(** Decoding is sound, and succeeds exactly when the replay window accepts. *)
Lemma receive_spec s r arrivals :
  codecPair s r → Forall (sentBy s) arrivals →
  let out := (receive r arrivals).1 in
  resultOk <$> out = decisions (codecTimestamp s) (codecWindow r) arrivals ∧
  Forall2 (λ x a, ∀ y, x = Ok y → y = (ar_id a, ar_payload a)) out arrivals.
Proof.
  intros Hp Hall. cbv zeta. revert r Hp. induction Hall as [| a arrivals Ha Hall IH]; intros r Hp; cbn [receive decisions]; [done |].
  destruct Ha as (Hid & Hpay & rnd & Hr & Henc).
  pose proof (law_decode s r (ar_id a) (ar_aadPrefix a) (ar_payload a) rnd (ar_encoded a) (ar_reapNow a) (ar_now a)
    Hp Hid Hr Hpay Henc) as Hd.
  destruct (codecAccept _ _ _ _ _) as [ok w]. destruct Hd as [err ->].
  specialize (IH (codecSetWindow r w) (law_pair s r w Hp)).
  destruct (receive (codecSetWindow r w) arrivals) as [out r']. cbn [fst] in *. destruct IH as [IH1 IH2].
  rewrite law_window in IH1. split.
  - cbn. rewrite IH1. by destruct ok.
  - constructor; [| done]. intros y. by destruct ok; intros [= <-].
Qed.

(** The ids a run of the replay window accepts. *)
Definition acceptedIDs (bs : list bool) (arrivals : list arrival) : list Z :=
  omap (λ '(b, a), if b : bool then Some (ar_id a) else None) (zip bs arrivals).

Definition delivered (out : list (result (Z * bytes))) : list (Z * bytes) :=
  omap (λ x, match x with Ok y => Some y | Err _ => None end) out.

Lemma delivered_acceptedIDs out arrivals :
  Forall2 (λ x a, ∀ y, x = Ok y → y = (ar_id a, ar_payload a)) out arrivals →
  (delivered out).*1 = acceptedIDs (resultOk <$> out) arrivals.
Proof.
  induction 1 as [| x a out arrivals Hx _ IH]; [done |]. unfold delivered, acceptedIDs in *. cbn.
  destruct x as [y |]; cbn; [| done]. rewrite (Hx y eq_refl). cbn. by rewrite IH.
Qed.

Lemma decisions_short w arrivals :
  acceptedIDs (decisions None (Some w) arrivals) arrivals =
    (accept_run w ((λ a, (ar_id a, ar_reapNow a, ar_now a)) <$> arrivals)).1.
Proof.
  revert w. induction arrivals as [| a arrivals IH]; intros w; [done |]. cbn.
  destruct (Accept w (ar_id a) (ar_reapNow a) (ar_now a)) as [ok w']. unfold acceptedIDs in *. cbn. rewrite IH.
  destruct (accept_run w' _) as [acc w'']. by destruct ok.
Qed.

Lemma decisions_long ts w arrivals :
  (λ id, (id, ts)) <$> acceptedIDs (decisions (Some ts) (Some w) arrivals) arrivals =
    (longform_run w ((λ a, (ar_id a, ts, ar_reapNow a, ar_now a)) <$> arrivals)).1.
Proof.
  revert w. induction arrivals as [| a arrivals IH]; intros w; [done |]. cbn.
  destruct (AcceptLongForm w (ar_id a) ts (ar_reapNow a) (ar_now a)) as [ok w']. unfold acceptedIDs in *. cbn. 
  specialize (IH w'). destruct (longform_run w' _) as [acc w'']. cbn in *. destruct ok; cbn; by rewrite <- IH.
Qed.

Lemma acceptedIDs_NoDup s W tw arrivals :
  0 ≤ W < 2 ^ 32 → (∀ ts, codecTimestamp s = Some ts → 0 ≤ ts) → Forall (sentBy s) arrivals →
  NoDup (acceptedIDs (decisions (codecTimestamp s) (Some (newReplayWindow W tw)) arrivals) arrivals).
Proof.
  intros HW Hts Hall.
  assert (Hids : Forall (λ a, 0 ≤ ar_id a < 2 ^ 32) arrivals).
  { eapply Forall_impl; [exact Hall |]. intros a (Hid & _). lia. }
  pose proof (newReplayWindow_inv W tw HW) as Hinv. destruct (codecTimestamp s) as [ts |].
  - apply (NoDup_fmap_1 (λ id, (id, ts))). rewrite decisions_long.
    destruct (longform_run _ _) as [acc w'] eqn:Hrun. cbn.
    eapply longform_run_spec in Hrun as [Hnd _]; [done | exact Hinv |].
    apply Forall_fmap. eapply Forall_impl; [exact Hids |]. intros a Ha. cbn. split; [done | by apply Hts].
  - rewrite decisions_short. destruct (accept_run _ _) as [acc w'] eqn:Hrun. cbn.
    eapply accept_run_spec in Hrun as [Hnd _]; [done | exact Hinv |].
    apply Forall_fmap. eapply Forall_impl; [exact Hids |]. done.
Qed.

(** Newer packets are always accepted. *)
Definition windowBelow (w : replayWindow) (id : Z) : Prop :=
  rw_windowSize w ≠ 0 ∧ (rw_initialized w = true → rw_highestID w < id).

Lemma acceptLocked_newer w id t1 t2 :
  windowBelow w id →
  ∃ w', acceptLocked w id t1 t2 = (true, w') ∧ rw_windowSize w' = rw_windowSize w ∧ rw_initialized w' = true ∧ rw_highestID w' = id ∧
    (rw_initialized w = true → rw_highestTimestamp w' = rw_highestTimestamp w).
Proof.
  intros [Hsz Hlt]. unfold acceptLocked. destruct (rw_initialized w) eqn:Hi; cbn [negb].
  - rewrite (proj2 (Z.eqb_neq _ 0) Hsz). destruct (reapLocked_fields w t1) as (E1 & E2 & E3 & E4).
    rewrite E1. rewrite (proj2 (Z.ltb_lt _ _)) by (by apply Hlt).
    eexists. split; [done |]. cbn. by rewrite E2, E3, E4.
  - eexists. split; [done |]. done.
Qed.

(** The timestamp the window was last used with is the sender's. *)
Definition windowTimestamp (timestamp : option Z) (w : replayWindow) : Prop :=
  match timestamp with Some ts => rw_initialized w = true → rw_highestTimestamp w = ts | None => True end.

Lemma codecAccept_newer timestamp w id t1 t2 :
  id ≠ 0 → windowBelow w id → windowTimestamp timestamp w →
  ∃ w', codecAccept timestamp (Some w) id t1 t2 = (true, Some w') ∧ rw_windowSize w' = rw_windowSize w ∧
    rw_initialized w' = true ∧ rw_highestID w' = id ∧ windowTimestamp timestamp w'.
Proof.
  intros Hid Hb Hts. unfold codecAccept, replayAccept, replayAcceptLongForm, Accept, AcceptLongForm.
  rewrite (proj2 (Z.eqb_neq id 0) Hid). pose proof (acceptLocked_newer w id t1 t2 Hb) as (w' & Hacc & Hsz & Hi & Hh & Hkeep).
  destruct timestamp as [ts |]; cbn in Hts.
  - destruct (rw_initialized w) eqn:Hinit; cbn [negb].
    + rewrite (Hts eq_refl), Z.ltb_irrefl, Hacc. eexists. split; [done |]. split_and!; try done.
      intros _. by rewrite (Hkeep eq_refl), Hts.
    + destruct Hb as [Hsz0 _]. rewrite (proj2 (Z.eqb_neq _ 0) Hsz0). cbn [andb]. eexists. split; [done |]. done.
  - rewrite Hacc. by eexists.
Qed.

Lemma decisions_in_order timestamp w arrivals :
  windowTimestamp timestamp w → StronglySorted Z.lt (ar_id <$> arrivals) →
  Forall (λ a, ar_id a ≠ 0 ∧ windowBelow w (ar_id a)) arrivals →
  decisions timestamp (Some w) arrivals = replicate (length arrivals) true.
Proof.
  revert w. induction arrivals as [| a arrivals IH]; intros w Hts Hsort Hall; [done |].
  cbn in Hsort. apply StronglySorted_inv in Hsort as [Hsort Hlt]. inversion Hall as [| ? ? [Hne Hb] Hall']; subst.
  destruct (codecAccept_newer timestamp w (ar_id a) (ar_reapNow a) (ar_now a) Hne Hb Hts)
    as (w' & Hacc & Hsz & Hi & Hh & Hts'). cbn [decisions]. rewrite Hacc. cbn [length replicate]. f_equal.
  apply IH; [done | done |]. rewrite (Forall_fmap ar_id) in Hlt.
  eapply Forall_impl; [exact (proj2 (Forall_and _ _) (conj Hall' Hlt)) |]. cbn. intros b [[Hb0 [Hbs _]] Hlt'].
  split; [done |]. split; [by rewrite Hsz |]. intros _. rewrite Hh. exact Hlt'.
Qed.

End Channel.

(** ** The channel of a TLS session *)

Section Session.
Context (cr : Crypto) (Hcr : Crypto_laws cr).

Lemma tls_timestamp_nonneg (s r : tlsDataCodec) ts : codecPair s r → codecTimestamp s = Some ts → 0 ≤ ts.
Proof.
  destruct s as [s | s | s], r as [r | r | r]; cbn; try done.
  intros (_ & _ & _ & _ & _ & _ & Hts & _) [= <-]. lia.
Qed.

Lemma replay_parameters_size w t : 0 ≤ w < 2 ^ 32 → 0 < (dataReplayWindowParameters w t).1 < 2 ^ 32.
Proof. intros Hw. unfold dataReplayWindowParameters, defaultReplayWindowSize; cbn. destruct (Z.eqb_spec w 0); lia. Qed.

End Session.

(** The two ends of a session: the client's and the server's codec, made from
    the same key material with the same parameters. *)
Definition sessionCodecs (cr : Crypto) (km : bytes) (cipherName authName : string) (w t : Z) (client server : tlsDataCodec) : Prop :=
  (∃ t1, newTLSDataCodec cr t1 km false cipherName authName w t = Ok client) ∧
  (∃ t2, newTLSDataCodec cr t2 km true cipherName authName w t = Ok server).

(** C1: whatever packets of its peer a TLS session's receiver gets, lost,
    repeated and reordered in any way, everything it delivers is a packet the
    peer sent, with its packet id and its payload, and no packet id is
    delivered twice.  Both directions, every cipher and digest. *)
Theorem data_channel_exactly_once cr km cipherName authName w t client server sender receiver arrivals :
  Crypto_laws cr → 0 ≤ w < 2 ^ 32 → sessionCodecs cr km cipherName authName w t client server →
  ((sender, receiver) = (client, server) ∨ (sender, receiver) = (server, client)) →
  Forall (sentBy sender) arrivals →
  let out := (receive receiver arrivals).1 in
  NoDup (delivered out).*1 ∧
  ∀ i y, out !! i = Some (Ok y) → ∃ a, arrivals !! i = Some a ∧ y = (ar_id a, ar_payload a).
Proof.
  intros Hcr Hw [[t1 Hc] [t2 Hs]] Hdir Hall out.
  destruct (tls_codecs_pair cr t1 t2 km cipherName authName w t w t client server Hcr Hc Hs) as [Hcs Hsc].
  apply newTLSDataCodec_window in Hc, Hs. pose proof (replay_parameters_size w t Hw) as HW.
  assert (Hpair : codecPair sender receiver ∧
    codecWindow receiver = Some (newReplayWindow (dataReplayWindowParameters w t).1 (dataReplayWindowParameters w t).2)).
  { destruct Hdir as [[= -> ->] | [= -> ->]]; done. }
  destruct Hpair as [Hpair Hwin].
  destruct (receive_spec sender receiver arrivals Hpair Hall) as [Hdec Hsound]. fold out in Hdec, Hsound. split.
  - rewrite (delivered_acceptedIDs _ _ Hsound), Hdec, Hwin. apply acceptedIDs_NoDup; [lia | | done].
    intros ts. by eapply tls_timestamp_nonneg.
  - intros i y Hi. eapply Forall2_lookup_l in Hsound as (a & Ha & Hy); [| exact Hi]. exists a. split; [done |]. by apply Hy.
Qed.

(** Packets that arrive in the order they were sent are all delivered. *)
Theorem data_channel_in_order cr km cipherName authName w t client server sender receiver arrivals :
  Crypto_laws cr → 0 ≤ w < 2 ^ 32 → sessionCodecs cr km cipherName authName w t client server →
  ((sender, receiver) = (client, server) ∨ (sender, receiver) = (server, client)) →
  Forall (sentBy sender) arrivals → StronglySorted Z.lt (ar_id <$> arrivals) →
  (receive receiver arrivals).1 = (λ a, Ok (ar_id a, ar_payload a)) <$> arrivals.
Proof.
  intros Hcr Hw [[t1 Hc] [t2 Hs]] Hdir Hall Hsort.
  destruct (tls_codecs_pair cr t1 t2 km cipherName authName w t w t client server Hcr Hc Hs) as [Hcs Hsc].
  apply newTLSDataCodec_window in Hc, Hs. pose proof (replay_parameters_size w t Hw) as HW.
  assert (Hpair : codecPair sender receiver ∧
    codecWindow receiver = Some (newReplayWindow (dataReplayWindowParameters w t).1 (dataReplayWindowParameters w t).2)).
  { destruct Hdir as [[= -> ->] | [= -> ->]]; done. }
  destruct Hpair as [Hpair Hwin].
  destruct (receive_spec sender receiver arrivals Hpair Hall) as [Hdec Hsound].
  rewrite Hwin, decisions_in_order in Hdec; [| by destruct (codecTimestamp sender) | done |].
  - revert Hdec Hsound. generalize (receive receiver arrivals).1 as out. clear.
    intros out Hdec Hsound. induction Hsound as [| x a out arrivals Hx _ IH]; [done |].
    cbn in Hdec. injection Hdec as Hok Hdec. cbn. rewrite (IH Hdec). f_equal.
    destruct x as [y |]; [| done]. by rewrite (Hx y eq_refl).
  - eapply Forall_impl; [exact Hall |]. intros a ((Hid & _) & _). split; [lia |].
    split; [cbn [rw_windowSize newReplayWindow]; lia | done].
Qed.

(** ** An example session *)

Definition exampleCodec (server : bool) (cipherName : string) : tlsDataCodec :=
  match newTLSDataCodec exampleCrypto 1000 exampleKeyMaterial server cipherName "SHA256" 0 0 with
  | Ok c => c
  | Err _ => TLSAEAD exampleGCM
  end.

Definition exampleArrival (cipherName : string) (id : Z) : arrival :=
  mkArrival id [x30] [x61; x62; x63]
    match Encode (exampleCodec false cipherName) id [x30] [x61; x62; x63] exampleRandom with Ok e => e | Err _ => [] end 9 9.

Lemma exampleArrival_sent cipherName id :
  0 < id < 2 ^ 32 → is_Some (match Encode (exampleCodec false cipherName) id [x30] [x61; x62; x63] exampleRandom with Ok e => Some e | Err _ => None end) →
  sentBy (exampleCodec false cipherName) (exampleArrival cipherName id).
Proof.
  intros Hid Hok. split; [done |]. split; [by destruct (exampleCodec false cipherName) |].
  exists exampleRandom. split; [apply exampleRandom_ok |]. unfold exampleArrival; cbn [ar_id ar_aadPrefix ar_payload ar_encoded].
  destruct (Encode _ _ _ _ _); [done |]. by destruct Hok.
Qed.

Lemma data_channel_exactly_once_witness :
  let arrivals := exampleArrival "AES-256-CBC" <$> [2; 1; 2; 3; 1] in
  (receive (exampleCodec true "AES-256-CBC") arrivals).1 =
    [Ok (2, [x61; x62; x63]); Ok (1, [x61; x62; x63]); Err (ErrNew "replayed tls data packet");
     Ok (3, [x61; x62; x63]); Err (ErrNew "replayed tls data packet")] ∧
  NoDup (delivered (receive (exampleCodec true "AES-256-CBC") arrivals).1).*1.
Proof.
  cbv zeta. split; [vm_compute; reflexivity |].
  refine (proj1 (data_channel_exactly_once exampleCrypto exampleKeyMaterial "AES-256-CBC" "SHA256" 0 0
    (exampleCodec false "AES-256-CBC") (exampleCodec true "AES-256-CBC") (exampleCodec false "AES-256-CBC") _ _ _ _ _ _ _)).
  - apply exampleCrypto_laws.
  - lia.
  - split; exists 1000; reflexivity.
  - by left.
  - repeat first [apply Forall_nil_2 | apply Forall_cons_2]; (apply exampleArrival_sent; [lia | vm_compute; eauto]).
Defined.

Lemma data_channel_in_order_witness :
  let arrivals := exampleArrival "BF-OFB" <$> [1; 2; 7] in
  (receive (exampleCodec true "BF-OFB") arrivals).1 = (λ a, Ok (ar_id a, ar_payload a)) <$> arrivals.
Proof.
  cbv zeta.
  apply (data_channel_in_order exampleCrypto exampleKeyMaterial "BF-OFB" "SHA256" 0 0
    (exampleCodec false "BF-OFB") (exampleCodec true "BF-OFB") (exampleCodec false "BF-OFB")).
  - apply exampleCrypto_laws.
  - lia.
  - split; exists 1000; reflexivity.
  - by left.
  - repeat first [apply Forall_nil_2 | apply Forall_cons_2]; (apply exampleArrival_sent; [lia | vm_compute; eauto]).
  - repeat first [apply Forall_nil_2 | apply Forall_cons_2 | constructor]; cbn; lia.
Defined.
