(* ===== verification/ControlWrap.v ===== *)
(** * Protection of the control channel ([control_wrap.go])

    tls-auth, tls-crypt and tls-crypt-v2: control packets are authenticated, and
    with tls-crypt encrypted, under static keys, with packet ids against replays.
    [Crypto] is the record of libraries of [Codec.v]; SHA-256 and AES are its
    ["sha256"] and ["aes"].  The functions take the key material; [Keys] loads it from
    files. *)

From S2P Require Import Prelude Packet ReplayWindow Crypto Codec CodecLaws DataChannel.

Definition tlsControlHeaderLength : nat := 9.
Definition tlsControlPacketIDLength : nat := 8.
Definition tlsCryptTagLength : nat := 32.
Definition tlsCryptBlockLength : nat := 16.
Definition tlsCryptV2ClientKeyDataLength : nat := 256.
Definition tlsCryptV2ServerKeyLength : nat := 128.
Definition tlsCryptKeyDirectionNormal : Z := 0.
Definition tlsCryptKeyDirectionInverse : Z := 1.
Definition tlsCryptV2EarlyNegotiationStart : Z := 251658240.
Definition tlsCryptV2TLVTypeEarlyNegotiationFlags : Z := 1.
Definition tlsCryptV2EarlyNegotiationFlagResendWKC : Z := 1.

(** ** Counter mode ([cipher.NewCTR]) *)

Fixpoint ctrCrypt (fuel : nat) (b : Block) (counter : Z) (p : bytes) : bytes :=
  match fuel with
  | O => []
  | S fuel =>
      if decide (p = []) then [] else
      let keystream := bl_encrypt b (be_encode (bl_size b) counter) in
      xorBytes (take (bl_size b) p) keystream ++ ctrCrypt fuel b (counter + 1) (drop (bl_size b) p)
  end.

(** The counter is a block that wraps around. *)
Definition CTRCrypt (b : Block) (iv p : bytes) : bytes := ctrCrypt (length p) b (be_decode iv) p.

(** ** Packet ids *)

Record tlsPacketIDState := mkPacketIDState { ps_nextID : Z; ps_timestamp : Z }.

Definition seedNextID (s : tlsPacketIDState) (nextID unixNow : Z) : tlsPacketIDState :=
  mkPacketIDState nextID (if ps_timestamp s =? 0 then u32 unixNow else ps_timestamp s).

(** [unixNow] is read for a state without a timestamp, [wrapNow] when the counter wraps. *)
Definition next (s : tlsPacketIDState) (unixNow wrapNow : Z) : bytes * tlsPacketIDState :=
  let timestamp := if ps_timestamp s =? 0 then u32 unixNow else ps_timestamp s in
  let wrap := ps_nextID s =? MaxUint32 in
  let timestamp := if wrap then (if timestamp <? u32 wrapNow then u32 wrapNow else timestamp) else timestamp in
  let nextID := u32 ((if wrap then 0 else ps_nextID s) + 1) in
  (PutUint32 nextID ++ PutUint32 timestamp, mkPacketIDState nextID timestamp).

(** ** tls-auth *)

Record controlAuthCodec := mkAuth {
  ca_sendKey : bytes;
  ca_receiveKeys : list bytes;
  ca_sendState : tlsPacketIDState;
  ca_receiveState : option replayWindow;
  ca_hash : bytes → bytes → bytes;
  ca_digestSize : nat;
}.

Definition controlReplayWindow : replayWindow := newReplayWindow defaultReplayWindowSize defaultReplayWindowTime.

Definition auth_newSessionCodec (c : controlAuthCodec) : controlAuthCodec :=
  mkAuth (ca_sendKey c) (ca_receiveKeys c) (mkPacketIDState 0 0) (Some controlReplayWindow) (ca_hash c) (ca_digestSize c).

Definition newControlAuthCodecWithAuth (cr : Crypto) (staticKeyMaterial : bytes) (keyDirection : Z) (authName : string)
    : result controlAuthCodec :=
  '(hash, digestSize) ← staticHMACFactory authName;
  if decide (digestSize = 0%nat) then Err (ErrNew "tls-auth requires a non-NONE auth algorithm") else
  let keySlots := splitStaticKeyMaterial staticKeyMaterial in
  let '(sendIndex, receiveIndex, fallbackIndex) := resolveStaticKeyDirection keyDirection in
  let keyOf index := take digestSize (slot_hmacKey (slotAt keySlots index)) in
  let receiveKeys :=
    [keyOf receiveIndex] ++ (if negb (Bool.eqb fallbackIndex receiveIndex) then [keyOf fallbackIndex] else []) in
  Ok (mkAuth (keyOf sendIndex) receiveKeys (mkPacketIDState 0 0) (Some controlReplayWindow) (cr_hmac cr hash) digestSize).

Definition auth_encodeControlPacket (c : controlAuthCodec) (rawPacket : bytes) (unixNow wrapNow : Z)
    : bytes * controlAuthCodec :=
  if bool_decide (length rawPacket < tlsControlHeaderLength)%nat then (rawPacket, c) else
  let '(packetID, sendState) := next (ca_sendState c) unixNow wrapNow in
  let c := mkAuth (ca_sendKey c) (ca_receiveKeys c) sendState (ca_receiveState c) (ca_hash c) (ca_digestSize c) in
  let authInput := packetID ++ rawPacket in
  let digest := ca_hash c (ca_sendKey c) authInput in
  (take tlsControlHeaderLength rawPacket ++ digest ++ packetID ++ drop tlsControlHeaderLength rawPacket, c).

Definition auth_setReceive (c : controlAuthCodec) (w : option replayWindow) : controlAuthCodec :=
  mkAuth (ca_sendKey c) (ca_receiveKeys c) (ca_sendState c) w (ca_hash c) (ca_digestSize c).

(** The loop over the keys stops at the first that authenticates the packet. *)
Fixpoint auth_tryKeys (c : controlAuthCodec) (keys : list bytes) (receivedDigest authInput packetIDBytes decoded : bytes)
    (reapNow now : Time) : option bytes * controlAuthCodec :=
  match keys with
  | [] => (None, c)
  | receiveKey :: keys =>
      if negb (bool_decide (receivedDigest = ca_hash c receiveKey authInput))
      then auth_tryKeys c keys receivedDigest authInput packetIDBytes decoded reapNow now
      else
        let packetID := Uint32 packetIDBytes in
        let packetTimestamp := Uint32 (drop 4 packetIDBytes) in
        let '(ok, w) := replayAcceptLongForm (ca_receiveState c) packetID packetTimestamp reapNow now in
        let c := auth_setReceive c w in
        if negb ok then (None, c) else (Some decoded, c)
  end.

Definition auth_decodeControlPacket (c : controlAuthCodec) (rawPacket : bytes) (reapNow now : Time)
    : option bytes * controlAuthCodec :=
  let h := tlsControlHeaderLength in
  let d := ca_digestSize c in
  if bool_decide (length rawPacket < h + d + tlsControlPacketIDLength)%nat then (None, c) else
  let header := take h rawPacket in
  let receivedDigest := slice h (h + d) rawPacket in
  let packetIDBytes := slice (h + d) (h + d + tlsControlPacketIDLength) rawPacket in
  let body := drop (h + d + tlsControlPacketIDLength) rawPacket in
  let authInput := packetIDBytes ++ header ++ body in
  auth_tryKeys c (ca_receiveKeys c) receivedDigest authInput packetIDBytes (header ++ body) reapNow now.

(** ** tls-crypt *)

Record controlCryptCandidate := mkCryptCandidate { cc_encryptBlock : Block; cc_authKey : bytes }.

Record controlCryptCodec := mkCrypt {
  ck_sendEncryptBlock : Block;
  ck_sendAuthKey : bytes;
  ck_receiveCandidates : list controlCryptCandidate;
  ck_sendState : tlsPacketIDState;
  ck_receiveState : option replayWindow;
}.

Definition crypt_newSessionCodec (c : controlCryptCodec) : controlCryptCodec :=
  mkCrypt (ck_sendEncryptBlock c) (ck_sendAuthKey c) (ck_receiveCandidates c) (mkPacketIDState 0 0)
    (Some controlReplayWindow).

Definition newControlCryptKeys (cr : Crypto) (keySlot : staticKeySlot) : result (Block * bytes) :=
  encryptBlock ← cr_NewCipher cr "aes" (take 32 (slot_cipherKey keySlot));
  Ok (encryptBlock, take 32 (slot_hmacKey keySlot)).

Definition newControlCryptCodecFromMaterial (cr : Crypto) (staticKeyMaterial : bytes) (keyDirection : Z)
    : result controlCryptCodec :=
  let keySlots := splitStaticKeyMaterial staticKeyMaterial in
  let '(sendIndex, receiveIndex, fallbackIndex) := resolveStaticKeyDirection keyDirection in
  '(sendEncryptBlock, sendAuthKey) ← newControlCryptKeys cr (slotAt keySlots sendIndex);
  '(receiveEncryptBlock, receiveAuthKey) ← newControlCryptKeys cr (slotAt keySlots receiveIndex);
  let receive := mkCryptCandidate receiveEncryptBlock receiveAuthKey in
  receiveCandidates ←
    (if negb (Bool.eqb fallbackIndex receiveIndex) then
       '(fallbackEncryptBlock, fallbackAuthKey) ← newControlCryptKeys cr (slotAt keySlots fallbackIndex);
       Ok [receive; mkCryptCandidate fallbackEncryptBlock fallbackAuthKey]
     else Ok [receive]);
  Ok (mkCrypt sendEncryptBlock sendAuthKey receiveCandidates (mkPacketIDState 0 0) (Some controlReplayWindow)).

Section Crypt.
Context (cr : Crypto).

Definition sha256 : bytes → bytes → bytes := cr_hmac cr "sha256".

Definition crypt_encodeControlPacket (c : controlCryptCodec) (rawPacket : bytes) (unixNow wrapNow : Z)
    : bytes * controlCryptCodec :=
  if bool_decide (length rawPacket < tlsControlHeaderLength)%nat then (rawPacket, c) else
  let header := take tlsControlHeaderLength rawPacket in
  let body := drop tlsControlHeaderLength rawPacket in
  let '(packetID, sendState) := next (ck_sendState c) unixNow wrapNow in
  let c := mkCrypt (ck_sendEncryptBlock c) (ck_sendAuthKey c) (ck_receiveCandidates c) sendState (ck_receiveState c) in
  let tag := sha256 (ck_sendAuthKey c) (header ++ packetID ++ body) in
  let ciphertext := CTRCrypt (ck_sendEncryptBlock c) (take tlsCryptBlockLength tag) body in
  (header ++ packetID ++ tag ++ ciphertext, c).

Definition crypt_setReceive (c : controlCryptCodec) (w : option replayWindow) : controlCryptCodec :=
  mkCrypt (ck_sendEncryptBlock c) (ck_sendAuthKey c) (ck_receiveCandidates c) (ck_sendState c) w.

Fixpoint crypt_tryCandidates (c : controlCryptCodec) (candidates : list controlCryptCandidate)
    (header packetIDBytes receivedTag ciphertext : bytes) (reapNow now : Time) : option bytes * controlCryptCodec :=
  match candidates with
  | [] => (None, c)
  | candidate :: candidates =>
      let plaintext := CTRCrypt (cc_encryptBlock candidate) (take tlsCryptBlockLength receivedTag) ciphertext in
      let expectedTag := sha256 (cc_authKey candidate) (header ++ packetIDBytes ++ plaintext) in
      if negb (bool_decide (receivedTag = expectedTag))
      then crypt_tryCandidates c candidates header packetIDBytes receivedTag ciphertext reapNow now
      else
        let packetID := Uint32 packetIDBytes in
        let packetTimestamp := Uint32 (drop 4 packetIDBytes) in
        let '(ok, w) := replayAcceptLongForm (ck_receiveState c) packetID packetTimestamp reapNow now in
        let c := crypt_setReceive c w in
        if negb ok then (None, c) else (Some (header ++ plaintext), c)
  end.

Definition crypt_decodeControlPacket (c : controlCryptCodec) (rawPacket : bytes) (reapNow now : Time)
    : option bytes * controlCryptCodec :=
  let h := tlsControlHeaderLength in
  let i := tlsControlPacketIDLength in
  if bool_decide (length rawPacket < h + i + tlsCryptTagLength)%nat then (None, c) else
  let header := take h rawPacket in
  let packetIDBytes := slice h (h + i) rawPacket in
  let receivedTag := slice (h + i) (h + i + tlsCryptTagLength) rawPacket in
  let ciphertext := drop (h + i + tlsCryptTagLength) rawPacket in
  crypt_tryCandidates c (ck_receiveCandidates c) header packetIDBytes receivedTag ciphertext reapNow now.

(** ** tls-crypt-v2 *)

Definition unwrapTLSCryptV2ClientKey (wrappedClientKey serverKey : bytes) : result bytes :=
  if bool_decide (length serverKey < tlsCryptV2ServerKeyLength)%nat then Err (ErrNew "invalid tls-crypt-v2 server key") else
  if bool_decide (length wrappedClientKey < tlsCryptTagLength + 2)%nat then Err (ErrNew "invalid tls-crypt-v2 wrapped key") else
  let lengthBytes := drop (length wrappedClientKey - 2) wrappedClientKey in
  let netLength := be_decode lengthBytes in
  if negb (netLength =? lenZ wrappedClientKey) then Err (ErrNew "invalid tls-crypt-v2 wrapped key length") else
  encryptBlock ← cr_NewCipher cr "aes" (take 32 serverKey);
  let authKey := slice 64 96 serverKey in
  let tag := take tlsCryptTagLength wrappedClientKey in
  let ciphertext := slice tlsCryptTagLength (length wrappedClientKey - 2) wrappedClientKey in
  let plaintext := CTRCrypt encryptBlock (take tlsCryptBlockLength tag) ciphertext in
  let expectedTag := sha256 authKey (lengthBytes ++ plaintext) in
  if negb (bool_decide (tag = expectedTag)) then Err (ErrNew "tls-crypt-v2 client key authentication failed") else
  if bool_decide (length plaintext < tlsCryptV2ClientKeyDataLength)%nat then Err (ErrNew "tls-crypt-v2 plaintext too short") else
  Ok (take tlsCryptV2ClientKeyDataLength plaintext).

Definition appendTLSCryptV2WrappedClientKey (rawPacket wrappedClientKey : bytes) (opcode : Z) : bytes :=
  if bool_decide (0 < length wrappedClientKey)%nat
     && ((opcode =? OpcodeControlHardResetClientV3) || (opcode =? OpcodeControlWKCv1))
  then rawPacket ++ wrappedClientKey else rawPacket.

Definition tlsCryptV2ResetAnnouncesEarlyNegotiation (rawPacket : bytes) : bool :=
  if bool_decide (length rawPacket < tlsControlHeaderLength + 4)%nat then false else
  let packetID := be_decode (slice tlsControlHeaderLength (tlsControlHeaderLength + 4) rawPacket) in
  Z.land packetID tlsCryptV2EarlyNegotiationStart =? tlsCryptV2EarlyNegotiationStart.

(** The type-length-value records; a record takes at least four octets, so the
    length of the payload is enough fuel. *)
Fixpoint parseEarlyNegotiationLoop (fuel : nat) (remainingPayload : bytes) (flags : Z) : result Z :=
  match fuel with
  | O => Ok flags
  | S fuel =>
      let malformed := ErrNew "malformed tls-crypt-v2 early negotiation" in
      if decide (remainingPayload = []) then Ok flags else
      if lenZ remainingPayload <? 4 then Err malformed else
      let tlvType := Uint16 remainingPayload in
      let tlvLength := be_decode (slice 2 4 remainingPayload) in
      let remainingPayload := drop 4 remainingPayload in
      if lenZ remainingPayload <? tlvLength then Err malformed else
      let tlvValue := take (Z.to_nat tlvLength) remainingPayload in
      let remainingPayload := drop (Z.to_nat tlvLength) remainingPayload in
      if negb (tlvType =? tlsCryptV2TLVTypeEarlyNegotiationFlags)
      then parseEarlyNegotiationLoop fuel remainingPayload flags else
      if negb (tlvLength =? 2) then Err malformed else
      parseEarlyNegotiationLoop fuel remainingPayload (Z.lor flags (Uint16 tlvValue))
  end.

Definition parseTLSCryptV2EarlyNegotiationFlags (payload : bytes) : result Z :=
  parseEarlyNegotiationLoop (S (length payload)) payload 0.

Definition tlsCryptV2ServerRequestsWrappedClientKeyResend (payload : bytes) : result bool :=
  flags ← parseTLSCryptV2EarlyNegotiationFlags payload;
  Ok (negb (Z.land flags tlsCryptV2EarlyNegotiationFlagResendWKC =? 0)).

(** ** The protection of a session *)

Record tlsControlProtection := mkProtection {
  cp_auth : option controlAuthCodec;
  cp_crypt : option controlCryptCodec;
  cp_cryptV2ServerKey : bytes;
}.

Definition newSessionProtection (p : tlsControlProtection) : tlsControlProtection :=
  mkProtection (auth_newSessionCodec <$> cp_auth p) (crypt_newSessionCodec <$> cp_crypt p) (cp_cryptV2ServerKey p).

Definition controlPacketOverhead (p : tlsControlProtection) : nat :=
  if bool_decide (cp_crypt p ≠ None ∨ 0 < length (cp_cryptV2ServerKey p))%nat
  then tlsControlPacketIDLength + tlsCryptTagLength + tlsCryptBlockLength
  else match cp_auth p with Some auth => ca_digestSize auth + tlsControlPacketIDLength | None => 0 end.

Definition encodeOutgoingControlPacket (p : tlsControlProtection) (rawPacket : bytes) (unixNow wrapNow : Z)
    : bytes * tlsControlProtection :=
  match cp_crypt p with
  | Some crypt =>
      let '(encoded, crypt) := crypt_encodeControlPacket crypt rawPacket unixNow wrapNow in
      (encoded, mkProtection (cp_auth p) (Some crypt) (cp_cryptV2ServerKey p))
  | None =>
      match cp_auth p with
      | Some auth =>
          let '(encoded, auth) := auth_encodeControlPacket auth rawPacket unixNow wrapNow in
          (encoded, mkProtection (Some auth) None (cp_cryptV2ServerKey p))
      | None => (rawPacket, p)
      end
  end.

Definition extractTLSCryptV2ClientKey (p : tlsControlProtection) (rawPacket : bytes)
    : result bytes * tlsControlProtection :=
  if bool_decide (length (cp_cryptV2ServerKey p) = 0)%nat
  then (Err (ErrNew "peer wants tls-crypt-v2 but no server key is present"), p) else
  if bool_decide (length rawPacket < tlsControlHeaderLength + 2)%nat
  then (Err (ErrNew "invalid tls-crypt-v2 packet"), p) else
  let wrappedKeyLength := Z.to_nat (be_decode (drop (length rawPacket - 2) rawPacket)) in
  if bool_decide (wrappedKeyLength < tlsCryptTagLength + 2)%nat
     || bool_decide (length rawPacket - tlsControlHeaderLength < wrappedKeyLength)%nat
  then (Err (ErrNew "invalid tls-crypt-v2 wrapped key"), p) else
  let packetBytes := take (length rawPacket - wrappedKeyLength) rawPacket in
  match cp_crypt p with
  | Some _ => (Ok packetBytes, p)
  | None =>
      match (clientKeyMaterial ← unwrapTLSCryptV2ClientKey (drop (length rawPacket - wrappedKeyLength) rawPacket)
                                   (cp_cryptV2ServerKey p);
             newControlCryptCodecFromMaterial cr clientKeyMaterial tlsCryptKeyDirectionNormal) with
      | Err e => (Err e, p)
      | Ok cryptCodec => (Ok packetBytes, mkProtection (cp_auth p) (Some cryptCodec) (cp_cryptV2ServerKey p))
      end
  end.

Definition decodeIncomingControlPacket (p : tlsControlProtection) (rawPacket : bytes) (reapNow now : Time)
    : result bytes * tlsControlProtection :=
  if bool_decide (length rawPacket < tlsControlHeaderLength)%nat
  then (Err (ErrNew "invalid tls control packet"), p) else
  let opcode := Z.shiftr (b2z (hd x00 rawPacket)) 3 in
  let '(stripped, p) :=
    if (opcode =? OpcodeControlHardResetClientV3) || (opcode =? OpcodeControlWKCv1)
    then extractTLSCryptV2ClientKey p rawPacket else (Ok rawPacket, p) in
  match stripped with
  | Err e => (Err e, p)
  | Ok packetBytes =>
      match cp_crypt p with
      | Some crypt =>
          let '(decoded, crypt) := crypt_decodeControlPacket crypt packetBytes reapNow now in
          let p := mkProtection (cp_auth p) (Some crypt) (cp_cryptV2ServerKey p) in
          match decoded with
          | Some decodedPacket => (Ok decodedPacket, p)
          | None => (Err (ErrNew "invalid tls-crypt packet"), p)
          end
      | None =>
          match cp_auth p with
          | Some auth =>
              let '(decoded, auth) := auth_decodeControlPacket auth packetBytes reapNow now in
              let p := mkProtection (Some auth) None (cp_cryptV2ServerKey p) in
              match decoded with
              | Some decodedPacket => (Ok decodedPacket, p)
              | None => (Err (ErrNew "invalid tls-auth packet"), p)
              end
          | None =>
              if bool_decide (0 < length (cp_cryptV2ServerKey p))%nat
              then (Err (ErrNew "missing tls-crypt-v2 wrapped client key"), p)
              else (Ok packetBytes, p)
          end
      end
  end.

End Crypt.

(** ** The two ends agree *)

Lemma ctr_inverse b fuel counter p :
  Block_laws b → (length p ≤ fuel)%nat →
  length (ctrCrypt fuel b counter p) = length p ∧ ctrCrypt fuel b counter (ctrCrypt fuel b counter p) = p.
Proof.
  intros Hb. revert counter p. pose proof (bl_size_range b Hb) as Hsz.
  induction fuel as [| fuel IH]; intros counter p Hf; cbn; [by destruct p; cbn in *; [| lia] |].
  destruct (decide (p = [])) as [-> | Hp]; [done |].
  assert (0 < length p)%nat by (destruct p; [done | cbn; lia]).
  pose proof (bl_encrypt_length b Hb (be_encode (bl_size b) counter) (length_be_encode _ _)) as Hk.
  set (k := bl_encrypt b (be_encode (bl_size b) counter)) in *.
  assert (Hc : length (xorBytes (take (bl_size b) p) k) = length (take (bl_size b) p)).
  { apply length_xorBytes. rewrite length_take. lia. }
  rewrite length_take in Hc. destruct (IH (counter + 1) (drop (bl_size b) p)) as [IHl IHd]; [rewrite length_drop; lia |].
  rewrite length_drop in IHl.
  rewrite decide_False by (intros E; apply (f_equal length) in E; rewrite length_app, Hc in E; cbn in E; lia).
  split; [rewrite length_app; lia |].
  destruct (decide (length p ≤ bl_size b)%nat) as [Hshort | Hlong].
  - assert (Hnil : ∀ fuel counter, ctrCrypt fuel b counter [] = []) by by intros [].
    rewrite (drop_ge p), Hnil, app_nil_r, (take_ge (xorBytes _ _)), (drop_ge (xorBytes _ _)), Hnil, app_nil_r by lia.
    rewrite xorBytes_involutive by (rewrite length_take; lia). apply take_ge. lia.
  - rewrite take_app_exact, drop_app_exact by lia. rewrite IHd.
    rewrite xorBytes_involutive by (rewrite length_take; lia). apply take_drop.
Qed.

Lemma CTR_inverse b iv p :
  Block_laws b → length (CTRCrypt b iv p) = length p ∧ CTRCrypt b iv (CTRCrypt b iv p) = p.
Proof.
  intros Hb. destruct (ctr_inverse b (length p) (be_decode iv) p Hb ltac:(lia)) as [Hl Hd].
  split; [done |]. unfold CTRCrypt. by rewrite Hl.
Qed.

(** The packet id a state hands out. *)
Definition packetID_ok (s : tlsPacketIDState) : Prop := 0 ≤ ps_nextID s < 2 ^ 32 ∧ 0 ≤ ps_timestamp s < 2 ^ 32.

Lemma next_spec s t1 t2 :
  packetID_ok s →
  let '(packetID, s') := next s t1 t2 in
  packetID = PutUint32 (ps_nextID s') ++ PutUint32 (ps_timestamp s') ∧ packetID_ok s' ∧
  ps_timestamp s ≤ ps_timestamp s' ∧ (ps_nextID s < MaxUint32 → ps_nextID s' = ps_nextID s + 1).
Proof.
  intros [Hid Hts]. unfold next. cbv zeta. cbn [ps_nextID ps_timestamp]. pose proof (u32_range t1). pose proof (u32_range t2).
  assert (Hmax : MaxUint32 = 2 ^ 32 - 1) by done.
  split; [done |]. split; [split; cbn [ps_nextID ps_timestamp] |].
  - apply u32_range.
  - destruct (Z.eqb_spec (ps_timestamp s) 0), (ps_nextID s =? MaxUint32); try match goal with |- context [?a <? ?b] => destruct (Z.ltb_spec a b) end; lia.
  - split.
    + destruct (Z.eqb_spec (ps_timestamp s) 0), (ps_nextID s =? MaxUint32); try match goal with |- context [?a <? ?b] => destruct (Z.ltb_spec a b) end; lia.
    + intros Hlt. rewrite (proj2 (Z.eqb_neq _ _)) by lia. apply u32_small. lia.
Qed.

Lemma packetID_decode id ts :
  0 ≤ id < 2 ^ 32 → 0 ≤ ts < 2 ^ 32 →
  let packetID := PutUint32 id ++ PutUint32 ts in
  length packetID = 8%nat ∧ Uint32 packetID = id ∧ Uint32 (drop 4 packetID) = ts.
Proof.
  intros Hid Hts. cbv zeta. split; [by rewrite length_app, !length_PutUint32 |].
  rewrite drop_app_exact by apply length_PutUint32. split; [by apply Uint32_PutUint32_app |].
  rewrite <- (app_nil_r (PutUint32 ts)). by apply Uint32_PutUint32_app.
Qed.

Definition auth_pair (s r : controlAuthCodec) : Prop :=
  head (ca_receiveKeys r) = Some (ca_sendKey s) ∧ ca_hash r = ca_hash s ∧ ca_digestSize r = ca_digestSize s ∧
  ∀ key m, length (ca_hash s key m) = ca_digestSize s.

Lemma auth_roundtrip s r raw t1 t2 reapNow now :
  auth_pair s r → packetID_ok (ca_sendState s) → (tlsControlHeaderLength ≤ length raw)%nat →
  let '(wire, s') := auth_encodeControlPacket s raw t1 t2 in
  let '(packetID, st) := next (ca_sendState s) t1 t2 in
  let '(ok, w) := replayAcceptLongForm (ca_receiveState r) (ps_nextID st) (ps_timestamp st) reapNow now in
  s' = mkAuth (ca_sendKey s) (ca_receiveKeys s) st (ca_receiveState s) (ca_hash s) (ca_digestSize s) ∧
  (∃ k, wire = take tlsControlHeaderLength raw ++ k) ∧
  auth_decodeControlPacket r wire reapNow now = (if ok then Some raw else None, auth_setReceive r w).
Proof.
  intros (Hkey & Hhash & Hsize & Hlen) Hst Hraw. unfold auth_encodeControlPacket.
  rewrite bool_decide_eq_false_2 by lia. pose proof (next_spec (ca_sendState s) t1 t2 Hst) as Hn.
  destruct (next (ca_sendState s) t1 t2) as [pid st]. destruct Hn as (-> & [Hid Hts] & _).
  destruct (packetID_decode (ps_nextID st) (ps_timestamp st) Hid Hts) as (Hpl & Hu1 & Hu2).
  set (pid := PutUint32 _ ++ PutUint32 _) in *. cbn [ca_hash ca_sendKey].
  destruct (replayAcceptLongForm _ _ _ _ _) as [ok w] eqn:Hacc. split; [done |]. split; [by eexists |].
  set (d := ca_hash s (ca_sendKey s) (pid ++ raw)). assert (Hd : length d = ca_digestSize s) by apply Hlen.
  unfold auth_decodeControlPacket. rewrite Hsize. unfold tlsControlPacketIDLength in *. clearbody pid.
  set (h := take tlsControlHeaderLength raw). assert (Hh : length h = tlsControlHeaderLength) by (unfold h; rewrite length_take; lia).
  set (b := drop tlsControlHeaderLength raw).
  rewrite bool_decide_eq_false_2 by (rewrite !length_app, Hh, Hd, Hpl; lia).
  unfold slice. rewrite (take_app_exact tlsControlHeaderLength h), (drop_app_exact tlsControlHeaderLength h) by done.
  assert (E1 : drop (tlsControlHeaderLength + ca_digestSize s) (h ++ d ++ pid ++ b) = pid ++ b).
  { rewrite app_assoc. apply drop_app_exact. rewrite length_app. lia. }
  assert (E2 : drop (tlsControlHeaderLength + ca_digestSize s + 8) (h ++ d ++ pid ++ b) = b).
  { rewrite <- drop_drop, E1. by apply drop_app_exact. }
  rewrite E1, E2, (take_app_exact _ d), (take_app_exact _ pid) by lia.
  assert (Hraw' : h ++ b = raw) by apply take_drop. rewrite Hraw'.
  destruct (ca_receiveKeys r) as [| key keys]; [done |]. injection Hkey as ->. cbn [auth_tryKeys].
  rewrite Hhash, bool_decide_eq_true_2 by done. cbn [negb]. rewrite Hu1, Hu2, Hacc. by destruct ok.
Qed.

Definition crypt_pair (s r : controlCryptCodec) : Prop :=
  head (ck_receiveCandidates r) = Some (mkCryptCandidate (ck_sendEncryptBlock s) (ck_sendAuthKey s)) ∧
  Block_laws (ck_sendEncryptBlock s).

Lemma sha256_length cr key m : Crypto_laws cr → length (sha256 cr key m) = tlsCryptTagLength.
Proof. intros Hcr. apply (cl_hmac cr Hcr "SHA256"); [done | unfold tlsCryptTagLength; lia]. Qed.

Lemma crypt_roundtrip cr s r raw t1 t2 reapNow now :
  Crypto_laws cr → crypt_pair s r → packetID_ok (ck_sendState s) → (tlsControlHeaderLength ≤ length raw)%nat →
  let '(wire, s') := crypt_encodeControlPacket cr s raw t1 t2 in
  let '(packetID, st) := next (ck_sendState s) t1 t2 in
  let '(ok, w) := replayAcceptLongForm (ck_receiveState r) (ps_nextID st) (ps_timestamp st) reapNow now in
  s' = mkCrypt (ck_sendEncryptBlock s) (ck_sendAuthKey s) (ck_receiveCandidates s) st (ck_receiveState s) ∧
  (∃ k, wire = take tlsControlHeaderLength raw ++ k) ∧
  crypt_decodeControlPacket cr r wire reapNow now = (if ok then Some raw else None, crypt_setReceive r w).
Proof.
  intros Hcr [Hkey Hb] Hst Hraw. unfold crypt_encodeControlPacket.
  rewrite bool_decide_eq_false_2 by lia. pose proof (next_spec (ck_sendState s) t1 t2 Hst) as Hn.
  destruct (next (ck_sendState s) t1 t2) as [pid st]. destruct Hn as (-> & [Hid Hts] & _).
  destruct (packetID_decode (ps_nextID st) (ps_timestamp st) Hid Hts) as (Hpl & Hu1 & Hu2).
  set (pid := PutUint32 _ ++ PutUint32 _) in *. cbn [ck_sendEncryptBlock ck_sendAuthKey].
  destruct (replayAcceptLongForm _ _ _ _ _) as [ok w] eqn:Hacc. split; [done |]. split; [by eexists |].
  unfold crypt_decodeControlPacket. unfold tlsControlPacketIDLength in *. clearbody pid.
  set (h := take tlsControlHeaderLength raw). assert (Hh : length h = tlsControlHeaderLength) by (unfold h; rewrite length_take; lia).
  set (b := drop tlsControlHeaderLength raw). set (tag := sha256 cr _ _).
  assert (Htag : length tag = tlsCryptTagLength) by by apply sha256_length.
  destruct (CTR_inverse (ck_sendEncryptBlock s) (take tlsCryptBlockLength tag) b Hb) as [_ Hctr].
  set (ct := CTRCrypt _ _ b) in *.
  rewrite bool_decide_eq_false_2 by (rewrite !length_app, Hh, Hpl, Htag; lia).
  unfold slice. rewrite (take_app_exact tlsControlHeaderLength h), (drop_app_exact tlsControlHeaderLength h) by done.
  assert (E1 : drop (tlsControlHeaderLength + 8) (h ++ pid ++ tag ++ ct) = tag ++ ct).
  { rewrite app_assoc. apply drop_app_exact. rewrite length_app. lia. }
  assert (E2 : drop (tlsControlHeaderLength + 8 + tlsCryptTagLength) (h ++ pid ++ tag ++ ct) = ct).
  { rewrite <- drop_drop, E1. by apply drop_app_exact. }
  rewrite E1, E2, (take_app_exact _ pid), (take_app_exact _ tag) by lia.
  destruct (ck_receiveCandidates r) as [| key keys]; [done |]. injection Hkey as ->. cbn [crypt_tryCandidates].
  cbn [cc_encryptBlock cc_authKey]. rewrite Hctr. fold tag. rewrite bool_decide_eq_true_2 by done. cbn [negb].
  rewrite Hu1, Hu2, Hacc. destruct ok; [| done]. cbn [negb]. by rewrite (take_drop tlsControlHeaderLength raw : h ++ b = raw).
Qed.

(** *** Sessions *)

Definition protPair (s r : tlsControlProtection) : Prop :=
  match cp_crypt s, cp_crypt r with
  | Some a, Some b => crypt_pair a b
  | None, None => match cp_auth s, cp_auth r with Some a, Some b => auth_pair a b | _, _ => False end
  | _, _ => False
  end.

Definition protWindow (p : tlsControlProtection) : option replayWindow :=
  match cp_crypt p with Some c => ck_receiveState c | None => cp_auth p ≫= ca_receiveState end.

Definition protSetWindow (p : tlsControlProtection) (w : option replayWindow) : tlsControlProtection :=
  match cp_crypt p with
  | Some c => mkProtection (cp_auth p) (Some (crypt_setReceive c w)) (cp_cryptV2ServerKey p)
  | None => mkProtection ((λ c, auth_setReceive c w) <$> cp_auth p) None (cp_cryptV2ServerKey p)
  end.

Definition protSendState (p : tlsControlProtection) : tlsPacketIDState :=
  match cp_crypt p with
  | Some c => ck_sendState c
  | None => match cp_auth p with Some c => ca_sendState c | None => mkPacketIDState 0 0 end
  end.

(** A packet that carries no wrapped client key. *)
Definition plainOpcode (raw : bytes) : Prop :=
  let opcode := Z.shiftr (b2z (hd x00 raw)) 3 in
  opcode ≠ OpcodeControlHardResetClientV3 ∧ opcode ≠ OpcodeControlWKCv1.

Definition controlPacket (raw : bytes) : Prop := (tlsControlHeaderLength ≤ length raw)%nat ∧ plainOpcode raw.

Lemma controlPacket_header raw k :
  controlPacket raw →
  (tlsControlHeaderLength ≤ length (take tlsControlHeaderLength raw ++ k))%nat ∧
  plainOpcode (take tlsControlHeaderLength raw ++ k).
Proof.
  intros [Hlen Hop]. split; [rewrite length_app, length_take; lia |].
  destruct raw as [| x raw]; [cbn in Hlen; unfold tlsControlHeaderLength in Hlen; lia |]. done.
Qed.

(** What a packet that was sent decodes to, at any receiver with the keys. *)
Definition decodesTo (cr : Crypto) (s : tlsControlProtection) (wire raw : bytes) (id ts : Z) : Prop :=
  ∀ r reapNow now, protPair s r →
  let '(ok, w) := replayAcceptLongForm (protWindow r) id ts reapNow now in
  ∃ err, decodeIncomingControlPacket cr r wire reapNow now = (if ok then Ok raw else Err err, protSetWindow r w).

(** Sending changes nothing but the packet id. *)
Definition sameKeys (s s' : tlsControlProtection) : Prop := ∀ r, protPair s r ↔ protPair s' r.

Lemma encode_step cr s r0 raw t1 t2 :
  Crypto_laws cr → protPair s r0 → packetID_ok (protSendState s) → controlPacket raw →
  let '(wire, s') := encodeOutgoingControlPacket cr s raw t1 t2 in
  let '(_, st) := next (protSendState s) t1 t2 in
  protSendState s' = st ∧ sameKeys s s' ∧ decodesTo cr s wire raw (ps_nextID st) (ps_timestamp st).
Proof.
  intros Hcr Hp0 Hst Hraw. unfold encodeOutgoingControlPacket, protSendState in *.
  destruct (next _ t1 t2) as [pid st] eqn:Hnext. destruct s as [auth [a |] sk]; cbn in *.
  - destruct (crypt_encodeControlPacket cr a raw t1 t2) as [wire a'] eqn:He. cbn.
    assert (Hrt : ∀ b reapNow now, crypt_pair a b →
      let '(ok, w) := replayAcceptLongForm (ck_receiveState b) (ps_nextID st) (ps_timestamp st) reapNow now in
      a' = mkCrypt (ck_sendEncryptBlock a) (ck_sendAuthKey a) (ck_receiveCandidates a) st (ck_receiveState a) ∧
      (∃ k, wire = take tlsControlHeaderLength raw ++ k) ∧
      crypt_decodeControlPacket cr b wire reapNow now = (if ok then Some raw else None, crypt_setReceive b w)).
    { intros b reapNow now Hb. pose proof (crypt_roundtrip cr a b raw t1 t2 reapNow now Hcr Hb Hst (proj1 Hraw)) as H.
      by rewrite He, Hnext in H. }
    destruct r0 as [? [b0 |] ?]; cbn in Hp0; [| done]. pose proof (Hrt b0 0 0 Hp0) as H0.
    destruct (replayAcceptLongForm _ _ _ _ _) as [ok0 w0] in H0. destruct H0 as (-> & [k Hk] & _).
    split; [done |]. split; [done |]. intros r reapNow now Hp.
    destruct r as [rauth [b |] rk]; cbn in Hp; [| done]. cbn [protWindow cp_crypt]. specialize (Hrt b reapNow now Hp).
    destruct (replayAcceptLongForm _ _ _ _ _) as [ok w]. destruct Hrt as (_ & _ & Hdec).
    destruct (controlPacket_header raw k Hraw) as [Hl [Ho1 Ho2]]. rewrite <- Hk in *.
    unfold decodeIncomingControlPacket. rewrite bool_decide_eq_false_2 by lia.
    rewrite (proj2 (Z.eqb_neq _ _) Ho1), (proj2 (Z.eqb_neq _ _) Ho2). cbn [orb cp_crypt cp_auth cp_cryptV2ServerKey].
    rewrite Hdec. eexists. by destruct ok.
  - destruct auth as [a |]; [| by destruct r0 as [? [|] ?]].
    destruct (auth_encodeControlPacket a raw t1 t2) as [wire a'] eqn:He. cbn.
    assert (Hrt : ∀ b reapNow now, auth_pair a b →
      let '(ok, w) := replayAcceptLongForm (ca_receiveState b) (ps_nextID st) (ps_timestamp st) reapNow now in
      a' = mkAuth (ca_sendKey a) (ca_receiveKeys a) st (ca_receiveState a) (ca_hash a) (ca_digestSize a) ∧
      (∃ k, wire = take tlsControlHeaderLength raw ++ k) ∧
      auth_decodeControlPacket b wire reapNow now = (if ok then Some raw else None, auth_setReceive b w)).
    { intros b reapNow now Hb. pose proof (auth_roundtrip a b raw t1 t2 reapNow now Hb Hst (proj1 Hraw)) as H.
      by rewrite He, Hnext in H. }
    destruct r0 as [[b0 |] [|] ?]; cbn in Hp0; try done. pose proof (Hrt b0 0 0 Hp0) as H0.
    destruct (replayAcceptLongForm _ _ _ _ _) as [ok0 w0] in H0. destruct H0 as (-> & [k Hk] & _).
    split; [done |]. split; [done |]. intros r reapNow now Hp.
    destruct r as [[b |] [|] rk]; cbn in Hp; try done. cbn [protWindow cp_crypt cp_auth mbind option_bind].
    specialize (Hrt b reapNow now Hp).
    destruct (replayAcceptLongForm _ _ _ _ _) as [ok w]. destruct Hrt as (_ & _ & Hdec).
    destruct (controlPacket_header raw k Hraw) as [Hl [Ho1 Ho2]]. rewrite <- Hk in *.
    unfold decodeIncomingControlPacket. rewrite bool_decide_eq_false_2 by lia.
    rewrite (proj2 (Z.eqb_neq _ _) Ho1), (proj2 (Z.eqb_neq _ _) Ho2). cbn [orb cp_crypt cp_auth cp_cryptV2ServerKey].
    rewrite Hdec. eexists. by destruct ok.
Qed.

Lemma sameKeys_decodesTo cr s s' wire raw id ts :
  sameKeys s s' → decodesTo cr s' wire raw id ts → decodesTo cr s wire raw id ts.
Proof. intros Hs H r reapNow now Hp. apply H. by apply Hs. Qed.

(** A session's packets, one after the other, with the readings of the clock. *)
Fixpoint sendControl (cr : Crypto) (s : tlsControlProtection) (sends : list (bytes * Z * Z)) : list bytes :=
  match sends with
  | [] => []
  | (raw, unixNow, wrapNow) :: sends =>
      let '(wire, s) := encodeOutgoingControlPacket cr s raw unixNow wrapNow in wire :: sendControl cr s sends
  end.

(** What the receiver makes of the arrivals: which packet, at what time. *)
Fixpoint receiveControl (cr : Crypto) (r : tlsControlProtection) (wires : list bytes) (arrivals : list (nat * Time * Time))
    : list (nat * bytes) :=
  match arrivals with
  | [] => []
  | (i, reapNow, now) :: arrivals =>
      match wires !! i with
      | None => receiveControl cr r wires arrivals
      | Some wire =>
          let '(decoded, r) := decodeIncomingControlPacket cr r wire reapNow now in
          match decoded with
          | Ok packet => (i, packet) :: receiveControl cr r wires arrivals
          | Err _ => receiveControl cr r wires arrivals
          end
      end
  end.

(** Every packet has the id after the one before it, and a timestamp that is not older. *)
Lemma sendControl_spec cr s r0 sends :
  Crypto_laws cr → protPair s r0 → packetID_ok (protSendState s) →
  ps_nextID (protSendState s) + lenZ sends ≤ MaxUint32 → Forall (λ x, controlPacket x.1.1) sends →
  length (sendControl cr s sends) = length sends ∧
  ∃ tss, length tss = length sends ∧ StronglySorted Z.le (ps_timestamp (protSendState s) :: tss) ∧
    ∀ i wire send ts, sendControl cr s sends !! i = Some wire → sends !! i = Some send → tss !! i = Some ts →
      decodesTo cr s wire send.1.1 (ps_nextID (protSendState s) + Z.of_nat i + 1) ts.
Proof.
  intros Hcr Hp Hst Hn Hall. revert s Hp Hst Hn.
  induction Hall as [| [[raw t1] t2] sends Hraw Hall IH]; intros s Hp Hst Hn; cbn [sendControl].
  { split; [done |]. exists []. split_and!; [done | repeat constructor | done]. }
  pose proof (encode_step cr s r0 raw t1 t2 Hcr Hp Hst Hraw) as He. pose proof (next_spec (protSendState s) t1 t2 Hst) as Hnx.
  destruct (encodeOutgoingControlPacket cr s raw t1 t2) as [wire s']. destruct (next _ t1 t2) as [pid st].
  destruct He as (Hst' & Hkeys & Hdec), Hnx as (_ & Hok & Hts & Hid).
  unfold lenZ in Hn. cbn [length] in Hn. rewrite Hid in Hdec by lia. specialize (Hid ltac:(lia)).
  destruct (IH s') as [Hlen (tss & Htss & Hsort & Hspec)];
    [by apply Hkeys | by rewrite Hst' | rewrite Hst', Hid; unfold lenZ; lia |].
  cbn [length]. split; [by rewrite Hlen |]. rewrite Hst' in Hsort, Hspec. exists (ps_timestamp st :: tss). cbn [length].
  split_and!; [by rewrite Htss | constructor; [done |] |].
  - constructor; [done |]. apply StronglySorted_inv in Hsort as [_ Hge]. eapply Forall_impl; [exact Hge |]. intros; lia.
  - intros [| i] w x ts; cbn [lookup list_lookup].
    + intros [= <-] [= <-] [= <-]. by replace (_ + Z.of_nat 0 + 1) with (ps_nextID (protSendState s) + 1) by lia.
    + intros Hw Hx Ht. eapply sameKeys_decodesTo; [exact Hkeys |].
      replace (_ + Z.of_nat (S i) + 1) with (ps_nextID st + Z.of_nat i + 1) by lia. by eapply Hspec.
Qed.

Lemma protPair_setWindow s r w : protPair s r → protPair s (protSetWindow r w).
Proof. destruct s as [[|] [|] ?], r as [[|] [|] ?]; done. Qed.

Lemma protWindow_set s r w : protPair s r → protWindow (protSetWindow r w) = w.
Proof. destruct s as [[|] [|] ?], r as [[|] [|] ?]; done. Qed.

Lemma AcceptLongForm_newer w id ts t1 t2 :
  id ≠ 0 → rw_windowSize w ≠ 0 →
  (rw_initialized w = true → rw_highestTimestamp w < ts ∨ rw_highestTimestamp w = ts ∧ rw_highestID w < id) →
  ∃ w', AcceptLongForm w id ts t1 t2 = (true, w') ∧ rw_windowSize w' = rw_windowSize w ∧
    rw_highestID w' = id ∧ rw_highestTimestamp w' = ts.
Proof.
  intros Hid Hsz Hnew. unfold AcceptLongForm. rewrite (proj2 (Z.eqb_neq id 0) Hid), (proj2 (Z.eqb_neq _ 0) Hsz).
  destruct (rw_initialized w) eqn:Hi; cbn [negb andb]; [| by eexists].
  destruct (Hnew eq_refl) as [Hts | [Hts Hlt]].
  - rewrite (proj2 (Z.ltb_ge _ _)) by lia. rewrite (proj2 (Z.ltb_lt _ _)) by lia. by eexists.
  - rewrite Hts, Z.ltb_irrefl. destruct (acceptLocked_newer w id t1 t2) as (w' & -> & ? & ? & ? & Hk); [by split |].
    exists w'. split_and!; try done. by rewrite Hk.
Qed.

Section Receive.
Context (cr : Crypto) (s : tlsControlProtection) (wires raws : list bytes) (n0 : Z) (tss : list Z).
Context (Hdec : ∀ i wire raw ts, wires !! i = Some wire → raws !! i = Some raw → tss !! i = Some ts →
  decodesTo cr s wire raw (n0 + Z.of_nat i + 1) ts).
Context (Hwires : length wires = length raws) (Htss : length tss = length raws).

Definition arrivalCall (a : nat * Time * Time) : Z * Z * Time * Time :=
  (n0 + Z.of_nat a.1.1 + 1, tss !!! a.1.1, a.1.2, a.2).

(** One arrival. *)
Lemma receiveControl_step i reapNow now arrivals r w :
  protPair s r → protWindow r = Some w → (i < length raws)%nat →
  let '(ok, w') := AcceptLongForm w (n0 + Z.of_nat i + 1) (tss !!! i) reapNow now in
  ∃ r', protPair s r' ∧ protWindow r' = Some w' ∧
    receiveControl cr r wires ((i, reapNow, now) :: arrivals) =
      (if ok then [(i, raws !!! i)] else []) ++ receiveControl cr r' wires arrivals.
Proof.
  intros Hp Hw Hi. destruct (lookup_lt_is_Some_2 wires i ltac:(lia)) as [wire Hwire].
  destruct (lookup_lt_is_Some_2 raws i Hi) as [raw Hraw]. destruct (lookup_lt_is_Some_2 tss i ltac:(lia)) as [ts Hts].
  rewrite (list_lookup_total_correct _ _ _ Hts), (list_lookup_total_correct _ _ _ Hraw).
  pose proof (Hdec i wire raw ts Hwire Hraw Hts r reapNow now Hp) as H. rewrite Hw in H. cbn [replayAcceptLongForm] in H.
  destruct (AcceptLongForm w _ ts reapNow now) as [ok w']. destruct H as [err He].
  exists (protSetWindow r (Some w')). split; [by apply protPair_setWindow |]. split; [by eapply protWindow_set |].
  cbn [receiveControl]. rewrite Hwire, He. by destruct ok.
Qed.

Lemma receiveControl_run arrivals r w :
  protPair s r → protWindow r = Some w → Forall (λ a, a.1.1 < length raws)%nat arrivals →
  (λ d, (n0 + Z.of_nat d.1 + 1, tss !!! d.1)) <$> receiveControl cr r wires arrivals =
    (longform_run w (arrivalCall <$> arrivals)).1 ∧
  ∀ i packet, (i, packet) ∈ receiveControl cr r wires arrivals → raws !! i = Some packet.
Proof.
  intros Hp Hw Hall. revert r w Hp Hw. induction Hall as [| [[i t1] t2] arrivals Hi Hall IH]; intros r w Hp Hw.
  { split; [done |]. cbn. set_solver. }
  pose proof (receiveControl_step i t1 t2 arrivals r w Hp Hw Hi) as Hstep.
  change (arrivalCall <$> (i, t1, t2) :: arrivals) with (arrivalCall (i, t1, t2) :: (arrivalCall <$> arrivals)).
  unfold arrivalCall at 1. cbn [longform_run fst snd]. destruct (AcceptLongForm w _ _ t1 t2) as [ok w'].
  destruct Hstep as (r' & Hp' & Hw' & ->). destruct (IH r' w' Hp' Hw') as [Hrun Hin].
  destruct (longform_run w' _) as [acc w'']. cbn [fst] in *. split.
  - rewrite fmap_app, Hrun. by destruct ok.
  - intros j packet [Hj | Hj]%elem_of_app; [| by apply Hin]. destruct ok; [| set_solver].
    apply list_elem_of_singleton in Hj as [= -> ->]. by apply list_lookup_lookup_total_lt.
Qed.

Lemma receiveControl_in_order (arrivals : list (nat * Time * Time)) r w :
  protPair s r → protWindow r = Some w → Forall (λ a, a.1.1 < length raws)%nat arrivals →
  0 ≤ n0 → rw_windowSize w ≠ 0 → StronglySorted Z.le tss → StronglySorted lt arrivals.*1.*1 →
  (rw_initialized w = true → Forall (λ a, ∃ j, (j < a.1.1)%nat ∧ (rw_highestID w, rw_highestTimestamp w) = (n0 + Z.of_nat j + 1, tss !!! j)) arrivals) →
  receiveControl cr r wires arrivals = (λ a, (a.1.1, raws !!! a.1.1)) <$> arrivals.
Proof.
  intros Hp Hw Hall Hn Hsz Hts Hsort Hprev. revert r w Hp Hw Hsz Hprev.
  induction Hall as [| [[i t1] t2] arrivals Hi Hall IH]; intros r w Hp Hw Hsz Hprev; [done |].
  cbn in Hsort, Hi. apply StronglySorted_inv in Hsort as [Hsort Hlt].
  pose proof (receiveControl_step i t1 t2 arrivals r w Hp Hw Hi) as Hstep.
  destruct (AcceptLongForm_newer w (n0 + Z.of_nat i + 1) (tss !!! i) t1 t2) as (w' & Hacc & Hs' & Hid' & Hts'); [lia | done | |].
  { intros Hinit. specialize (Hprev Hinit). apply Forall_cons in Hprev as [(j & Hj & [= -> ->]) _]. cbn in Hj.
    assert (tss !!! j ≤ tss !!! i); [| lia].
    eapply (StronglySorted_app_1_elem_of Z.le (take i tss) (drop i tss)).
    - by rewrite take_drop.
    - apply list_elem_of_lookup. exists j. rewrite lookup_take_lt by lia. apply list_lookup_lookup_total_lt. lia.
    - apply list_elem_of_lookup. exists 0%nat. rewrite lookup_drop, Nat.add_0_r. apply list_lookup_lookup_total_lt. lia. }
  rewrite Hacc in Hstep. destruct Hstep as (r' & Hp' & Hw' & ->). cbn. f_equal.
  eapply IH; [done | exact Hp' | exact Hw' | by rewrite Hs' |]. intros _.
  rewrite !Forall_fmap in Hlt. eapply Forall_impl; [exact Hlt |]. intros a Ha. exists i. split; [exact Ha |]. by rewrite Hid', Hts'.
Qed.
End Receive.

(** *** The ends of a session *)

(** The sender's key is the one the receiver tries first. *)
Definition directionsMatch (sender receiver : Z) : Prop :=
  (resolveStaticKeyDirection sender).1.1 = (resolveStaticKeyDirection receiver).1.2.

(** The protections of the two ends, made from the same static key. *)
Inductive controlEnds (cr : Crypto) : tlsControlProtection → tlsControlProtection → Prop :=
| ends_auth km authName ds dr a b :
    directionsMatch ds dr → newControlAuthCodecWithAuth cr km ds authName = Ok a → newControlAuthCodecWithAuth cr km dr authName = Ok b →
    controlEnds cr (newSessionProtection (mkProtection (Some a) None [])) (newSessionProtection (mkProtection (Some b) None []))
| ends_crypt km ds dr a b :
    directionsMatch ds dr → newControlCryptCodecFromMaterial cr km ds = Ok a → newControlCryptCodecFromMaterial cr km dr = Ok b →
    controlEnds cr (newSessionProtection (mkProtection None (Some a) [])) (newSessionProtection (mkProtection None (Some b) [])).

Lemma newControlAuthCodec_pair cr km authName ds dr a b :
  Crypto_laws cr → directionsMatch ds dr → newControlAuthCodecWithAuth cr km ds authName = Ok a →
  newControlAuthCodecWithAuth cr km dr authName = Ok b → auth_pair a b.
Proof.
  intros Hcr Hdir. unfold newControlAuthCodecWithAuth, directionsMatch in *.
  destruct (staticHMACFactory authName) as [[hash n] |] eqn:Hf; [| done]. cbn [mbind result_bind].
  destruct (decide (n = 0%nat)); [done |].
  destruct (resolveStaticKeyDirection ds) as [[si ri] fi], (resolveStaticKeyDirection dr) as [[sj rj] fj].
  cbn in Hdir. subst rj. intros [= <-] [= <-]. split_and!; try done. cbn. intros key m. apply (cl_hmac cr Hcr authName); [done | lia].
Qed.

Lemma newControlCryptKeys_block cr slot b key : Crypto_laws cr → newControlCryptKeys cr slot = Ok (b, key) → Block_laws b.
Proof. intros Hcr H. unfold newControlCryptKeys in H. inv_bind H. injection H as <- _. by eapply cl_block. Qed.

Lemma newControlCryptCodec_pair cr km ds dr a b :
  Crypto_laws cr → directionsMatch ds dr → newControlCryptCodecFromMaterial cr km ds = Ok a →
  newControlCryptCodecFromMaterial cr km dr = Ok b → crypt_pair a b.
Proof.
  intros Hcr Hdir. unfold newControlCryptCodecFromMaterial, directionsMatch in *.
  destruct (resolveStaticKeyDirection ds) as [[si ri] fi], (resolveStaticKeyDirection dr) as [[sj rj] fj].
  cbn in Hdir. subst rj. intros Ha Hb.
  apply result_bind_Ok in Ha as ([sb sk] & Hsend & Ha). inv_bind Ha. injection Ha as <-.
  apply result_bind_Ok in Hb as ([tb tk] & _ & Hb). rewrite Hsend in Hb. cbn [mbind result_bind] in Hb.
  apply result_bind_Ok in Hb as (cands & Hcands & Hb). injection Hb as <-.
  split; [| by eapply newControlCryptKeys_block]. cbn.
  destruct (negb (Bool.eqb fj si)); [inv_bind Hcands |]; by injection Hcands as <-.
Qed.

Lemma controlEnds_pair cr s r :
  Crypto_laws cr → controlEnds cr s r →
  protPair s r ∧ protWindow r = Some controlReplayWindow ∧ protSendState s = mkPacketIDState 0 0.
Proof.
  intros Hcr [km authName ds dr a b Hd Ha Hb | km ds dr a b Hd Ha Hb]; split_and!; try done.
  - exact (newControlAuthCodec_pair cr km authName ds dr a b Hcr Hd Ha Hb).
  - exact (newControlCryptCodec_pair cr km ds dr a b Hcr Hd Ha Hb).
Qed.

(** Whatever the network loses, repeats or reorders of the control packets of
    a tls-auth or tls-crypt session, up to 2^32 - 1 of them and whatever the
    clocks say, the receiver accepts each packet at most once and recovers its
    octets, and packets that arrive in the order they were sent are all
    accepted. *)
Theorem control_channel_exactly_once cr s r sends arrivals :
  Crypto_laws cr → controlEnds cr s r → Forall (λ x, controlPacket x.1.1) sends → lenZ sends ≤ MaxUint32 →
  Forall (λ a, a.1.1 < length sends)%nat arrivals →
  let accepted := receiveControl cr r (sendControl cr s sends) arrivals in
  NoDup accepted.*1 ∧
  (∀ i packet, (i, packet) ∈ accepted → sends.*1.*1 !! i = Some packet) ∧
  (StronglySorted lt arrivals.*1.*1 → accepted.*1 = arrivals.*1.*1).
Proof.
  intros Hcr Hends Hraws Hn Harr accepted. destruct (controlEnds_pair cr s r Hcr Hends) as (Hp & Hw & Hst).
  destruct (sendControl_spec cr s r sends Hcr Hp) as [Hlen (tss & Htss & Hsort & Hspec)];
    [rewrite Hst; split; cbn; lia | rewrite Hst; cbn; lia | done |].
  rewrite Hst in Hspec, Hsort. cbn [ps_nextID ps_timestamp] in *.
  assert (Hdec : ∀ i wire raw ts, sendControl cr s sends !! i = Some wire → sends.*1.*1 !! i = Some raw → tss !! i = Some ts →
    decodesTo cr s wire raw (0 + Z.of_nat i + 1) ts).
  { intros i wire raw ts H1 H2 H3. rewrite <- list_fmap_compose in H2. apply list_lookup_fmap_Some in H2 as (x & -> & Hx).
    by eapply Hspec. }
  assert (Hl1 : length (sendControl cr s sends) = length sends.*1.*1) by (rewrite Hlen, !length_fmap; done).
  assert (Hl2 : length tss = length sends.*1.*1) by (rewrite Htss, !length_fmap; done).
  assert (Harr' : Forall (λ a, a.1.1 < length sends.*1.*1)%nat arrivals) by by rewrite !length_fmap.
  destruct (receiveControl_run cr s _ sends.*1.*1 0 tss Hdec Hl1 Hl2 arrivals r _ Hp Hw Harr') as [Hrun Hin]. split_and!.
  - apply (NoDup_fmap_1 (λ i, (0 + Z.of_nat i + 1, tss !!! i))). fold accepted in Hrun.
    rewrite <- list_fmap_compose. unfold compose. rewrite Hrun.
    destruct (longform_run _ _) as [acc w'] eqn:Hrun'. cbn.
    eapply longform_run_spec in Hrun' as [Hnd _]; [done | by apply (newReplayWindow_inv 64) |].
    apply Forall_fmap. eapply Forall_impl; [exact Harr |]. intros [[i ?] ?] Hi. cbn in Hi |- *.
    assert (MaxUint32 = 2 ^ 32 - 1) by done. unfold lenZ in Hn. split; [lia |].
    apply StronglySorted_inv in Hsort as [_ Hge]. rewrite Forall_forall in Hge. apply Hge.
    apply list_elem_of_lookup. exists i. apply list_lookup_lookup_total_lt. lia.
  - exact Hin.
  - intros Horder. unfold accepted.
    rewrite (receiveControl_in_order cr s _ sends.*1.*1 0 tss Hdec Hl1 Hl2 arrivals r _ Hp Hw Harr');
      [by rewrite <- !list_fmap_compose | lia | done | by apply StronglySorted_inv in Hsort as [? _] | done | done].
Qed.

(** ** tls-crypt-v2 *)

(** A wrapped client key as the key generator writes it: the tag of the length,
    the key and the metadata, the encrypted key and metadata, the length. *)
Definition wrappedClientKeyOf (cr : Crypto) (serverKey clientKey metadata wrapped : bytes) : Prop :=
  let plaintext := clientKey ++ metadata in
  let netLength := PutUint16 (lenZ plaintext + 34) in
  let tag := sha256 cr (slice 64 96 serverKey) (netLength ++ plaintext) in
  lenZ plaintext + 34 < 65536 ∧
  ∃ b, cr_NewCipher cr "aes" (take 32 serverKey) = Ok b ∧
    wrapped = tag ++ CTRCrypt b (take tlsCryptBlockLength tag) plaintext ++ netLength.

Lemma unwrap_wrapped cr serverKey clientKey metadata wrapped :
  Crypto_laws cr → (tlsCryptV2ServerKeyLength ≤ length serverKey)%nat → length clientKey = tlsCryptV2ClientKeyDataLength →
  wrappedClientKeyOf cr serverKey clientKey metadata wrapped →
  (∃ k, wrapped = k ++ PutUint16 (lenZ wrapped)) ∧ (34 ≤ length wrapped)%nat ∧ lenZ wrapped < 65536 ∧
  unwrapTLSCryptV2ClientKey cr wrapped serverKey = Ok clientKey.
Proof.
  intros Hcr Hsk Hck (Hlen & b & Hb & Hw). set (plain := clientKey ++ metadata) in *.
  set (net := PutUint16 _) in *. set (tag := sha256 cr _ _) in *.
  assert (Htag : length tag = tlsCryptTagLength) by by apply sha256_length.
  assert (Hnet : length net = 2%nat) by apply length_PutUint16.
  destruct (CTR_inverse b (take tlsCryptBlockLength tag) plain) as [Hct Hctr]; [by eapply cl_block |].
  set (ct := CTRCrypt b _ plain) in *. unfold tlsCryptTagLength in *.
  assert (Hwl : length wrapped = (34 + length plain)%nat) by (rewrite Hw, !length_app; lia).
  assert (HwZ : lenZ wrapped = lenZ plain + 34) by (unfold lenZ; lia).
  split; [exists (tag ++ ct); rewrite HwZ; fold net; by rewrite Hw, app_assoc |]. split; [lia |]. split; [lia |].
  unfold unwrapTLSCryptV2ClientKey. rewrite !bool_decide_eq_false_2 by (unfold tlsCryptTagLength; lia).
  assert (E1 : drop (length wrapped - 2) wrapped = net).
  { rewrite Hwl, Hw, app_assoc. apply drop_app_exact. rewrite length_app. lia. }
  rewrite E1. unfold net at 1. rewrite be_decode_PutUint16 by (unfold lenZ in *; lia).
  rewrite HwZ, Z.eqb_refl. cbn [negb]. rewrite Hb. cbn [mbind result_bind]. unfold tlsCryptTagLength.
  assert (E2 : take 32 wrapped = tag) by (rewrite Hw; by apply take_app_exact).
  assert (E3 : slice 32 (length wrapped - 2) wrapped = ct).
  { unfold slice. rewrite Hwl. rewrite Hw, drop_app_exact by done. apply take_app_exact. lia. }
  rewrite E2, E3, Hctr. fold tag. rewrite bool_decide_eq_true_2 by done. cbn [negb].
  rewrite bool_decide_eq_false_2 by (unfold plain; rewrite length_app; lia).
  f_equal. by apply take_app_exact.
Qed.

(** The server strips the wrapped key and installs the client's. *)
Lemma extract_wrapped cr serverKey clientKey metadata wrapped b encoded :
  Crypto_laws cr → (tlsCryptV2ServerKeyLength ≤ length serverKey)%nat → length clientKey = tlsCryptV2ClientKeyDataLength →
  wrappedClientKeyOf cr serverKey clientKey metadata wrapped → (tlsControlHeaderLength ≤ length encoded)%nat →
  newControlCryptCodecFromMaterial cr clientKey tlsCryptKeyDirectionNormal = Ok b →
  extractTLSCryptV2ClientKey cr (mkProtection None None serverKey) (encoded ++ wrapped) =
    (Ok encoded, mkProtection None (Some b) serverKey).
Proof.
  intros Hcr Hsk Hck Hwrap Hel Hb.
  destruct (unwrap_wrapped cr serverKey clientKey metadata wrapped Hcr Hsk Hck Hwrap) as ([k Hk] & Hw1 & Hw2 & Hunw).
  unfold extractTLSCryptV2ClientKey. cbn [cp_cryptV2ServerKey cp_crypt cp_auth].
  unfold tlsCryptV2ServerKeyLength, tlsCryptTagLength in *.
  rewrite bool_decide_eq_false_2 by lia. rewrite bool_decide_eq_false_2 by (rewrite length_app; lia).
  assert (E1 : drop (length (encoded ++ wrapped) - 2) (encoded ++ wrapped) = PutUint16 (lenZ wrapped)).
  { rewrite length_app. rewrite Hk at 2. rewrite app_assoc. apply drop_app_exact. rewrite length_app.
    apply (f_equal length) in Hk. rewrite length_app, length_PutUint16 in Hk. lia. }
  assert (Hwz : Z.to_nat (lenZ wrapped) = length wrapped) by apply Nat2Z.id.
  rewrite E1, be_decode_PutUint16 by (unfold lenZ in *; lia). rewrite Hwz, length_app, !bool_decide_eq_false_2 by lia.
  cbn [orb]. rewrite Nat.add_sub, drop_app_exact, take_app_exact by done. rewrite Hunw. cbn [mbind result_bind]. by rewrite Hb.
Qed.

Lemma newControlCryptCodec_window cr km direction c :
  newControlCryptCodecFromMaterial cr km direction = Ok c → ck_receiveState c = Some controlReplayWindow ∧ ck_sendState c = mkPacketIDState 0 0.
Proof.
  unfold newControlCryptCodecFromMaterial. destruct (resolveStaticKeyDirection _) as [[? ?] ?]. intros H. inv_bind H. by injection H as <-.
Qed.

(** The first packet of a client, whatever the state of its packet ids. *)
Lemma first_packet_unwrapped cr serverKey clientKey metadata wrapped a b st raw t1 t2 reapNow now :
  Crypto_laws cr → (tlsCryptV2ServerKeyLength ≤ length serverKey)%nat → length clientKey = tlsCryptV2ClientKeyDataLength →
  wrappedClientKeyOf cr serverKey clientKey metadata wrapped →
  newControlCryptCodecFromMaterial cr clientKey tlsCryptKeyDirectionInverse = Ok a →
  newControlCryptCodecFromMaterial cr clientKey tlsCryptKeyDirectionNormal = Ok b →
  (tlsControlHeaderLength ≤ length raw)%nat →
  Z.shiftr (b2z (hd x00 raw)) 3 = OpcodeControlHardResetClientV3 →
  packetID_ok st → ps_nextID st < MaxUint32 →
  let sender := mkCrypt (ck_sendEncryptBlock a) (ck_sendAuthKey a) (ck_receiveCandidates a) st (ck_receiveState a) in
  let '(encoded, client') := encodeOutgoingControlPacket cr (mkProtection None (Some sender) []) raw t1 t2 in
  let wire := appendTLSCryptV2WrappedClientKey encoded wrapped OpcodeControlHardResetClientV3 in
  let '(decoded, server') := decodeIncomingControlPacket cr (mkProtection None None serverKey) wire reapNow now in
  decoded = Ok raw ∧ protPair client' server' ∧ protPair server' client'.
Proof.
  intros Hcr Hsk Hck Hwrap Ha Hb Hraw Hop Hst Hlt sender.
  assert (Hab : crypt_pair sender b) by exact (newControlCryptCodec_pair cr clientKey 1 0 a b Hcr eq_refl Ha Hb).
  assert (Hba : crypt_pair b sender) by exact (newControlCryptCodec_pair cr clientKey 0 1 b a Hcr eq_refl Hb Ha).
  destruct (unwrap_wrapped cr serverKey clientKey metadata wrapped Hcr Hsk Hck Hwrap) as (_ & Hw1 & _).
  cbn [encodeOutgoingControlPacket cp_crypt cp_auth cp_cryptV2ServerKey].
  pose proof (crypt_roundtrip cr sender b raw t1 t2 reapNow now Hcr Hab Hst Hraw) as Hrt.
  destruct (crypt_encodeControlPacket cr sender raw t1 t2) as [encoded a'].
  cbn [ck_sendState sender] in Hrt. pose proof (next_spec st t1 t2 Hst) as Hn.
  destruct (next st t1 t2) as [pid st']. destruct Hn as (_ & [Hi _] & _ & Hid). specialize (Hid Hlt).
  rewrite (proj1 (newControlCryptCodec_window _ _ _ _ Hb)) in Hrt. cbn [replayAcceptLongForm] in Hrt.
  destruct (AcceptLongForm_newer controlReplayWindow (ps_nextID st') (ps_timestamp st') reapNow now) as (w' & Hacc & _);
    [rewrite Hid; destruct Hst; lia | done | done |].
  rewrite Hacc in Hrt. destruct Hrt as (-> & [h Hh] & Hdec).
  unfold appendTLSCryptV2WrappedClientKey. rewrite bool_decide_eq_true_2 by lia. cbn [andb orb Z.eqb]. rewrite Z.eqb_refl. cbn [orb].
  assert (Hel : (tlsControlHeaderLength ≤ length encoded)%nat) by (rewrite Hh, length_app, length_take; lia).
  unfold decodeIncomingControlPacket. rewrite bool_decide_eq_false_2 by (rewrite length_app; lia).
  assert (Hhd : hd x00 (encoded ++ wrapped) = hd x00 raw).
  { rewrite Hh. destruct raw; [cbn in Hraw; unfold tlsControlHeaderLength in Hraw; lia | done]. }
  rewrite Hhd, Hop, Z.eqb_refl. cbn [orb].
  rewrite (extract_wrapped cr serverKey clientKey metadata wrapped b) by done. cbn [cp_crypt]. by rewrite Hdec.
Qed.

(** Tls-crypt-v2: a server that holds only its server key decodes the first
    packet of a client whose key was wrapped for it, and from then on the two
    ends have matching keys in both directions. *)
Theorem tls_crypt_v2_first_packet cr serverKey clientKey metadata wrapped a b raw t1 t2 reapNow now :
  Crypto_laws cr → (tlsCryptV2ServerKeyLength ≤ length serverKey)%nat → length clientKey = tlsCryptV2ClientKeyDataLength →
  wrappedClientKeyOf cr serverKey clientKey metadata wrapped →
  newControlCryptCodecFromMaterial cr clientKey tlsCryptKeyDirectionInverse = Ok a →
  newControlCryptCodecFromMaterial cr clientKey tlsCryptKeyDirectionNormal = Ok b →
  (tlsControlHeaderLength ≤ length raw)%nat →
  Z.shiftr (b2z (hd x00 raw)) 3 = OpcodeControlHardResetClientV3 →
  let client := newSessionProtection (mkProtection None (Some a) []) in
  let server := mkProtection None None serverKey in
  let '(encoded, client') := encodeOutgoingControlPacket cr client raw t1 t2 in
  let wire := appendTLSCryptV2WrappedClientKey encoded wrapped OpcodeControlHardResetClientV3 in
  let '(decoded, server') := decodeIncomingControlPacket cr server wire reapNow now in
  decoded = Ok raw ∧ protPair client' server' ∧ protPair server' client'.
Proof.
  intros Hcr Hsk Hck Hwrap Ha Hb Hraw Hop client server.
  pose proof (first_packet_unwrapped cr serverKey clientKey metadata wrapped a b (mkPacketIDState 0 0) raw t1 t2 reapNow now
    Hcr Hsk Hck Hwrap Ha Hb Hraw Hop ltac:(split; cbn; lia) ltac:(done)) as H.
  by rewrite (proj1 (newControlCryptCodec_window _ _ _ _ Ha)) in H.
Qed.

(** ** Examples *)

Definition exampleControlPacket (opcode : Z) : bytes := z2b (opcode * 8) :: (z2b <$> seqZ 1 20).

Definition exampleAuth (direction : Z) : tlsControlProtection :=
  match newControlAuthCodecWithAuth exampleCrypto exampleKeyMaterial direction "SHA256" with
  | Ok c => newSessionProtection (mkProtection (Some c) None [])
  | Err _ => mkProtection None None []
  end.

Definition exampleSends : list (bytes * Z * Z) := replicate 3 (exampleControlPacket OpcodeControlV1, 1000, 1000).

Lemma control_channel_exactly_once_witness :
  let accepted := receiveControl exampleCrypto (exampleAuth 0) (sendControl exampleCrypto (exampleAuth 1) exampleSends)
    [(1%nat, 5, 5); (0%nat, 6, 6); (1%nat, 7, 7); (2%nat, 8, 8)] in
  accepted.*1 = [1; 0; 2]%nat ∧ NoDup accepted.*1.
Proof.
  cbv zeta. split; [vm_compute; reflexivity |].
  refine (proj1 (control_channel_exactly_once exampleCrypto (exampleAuth 1) (exampleAuth 0) exampleSends _ _ _ _ _ _)).
  - apply exampleCrypto_laws.
  - eapply (ends_auth exampleCrypto exampleKeyMaterial "SHA256" 1 0); reflexivity.
  - repeat first [apply Forall_nil_2 | apply Forall_cons_2]; (split; [apply (bool_decide_unpack _); vm_compute; done | by split]).
  - apply (bool_decide_unpack _). vm_compute. done.
  - repeat first [apply Forall_nil_2 | apply Forall_cons_2]; (apply (bool_decide_unpack _); vm_compute; done).
Defined.

Definition exampleCrypt (direction : Z) : controlCryptCodec :=
  match newControlCryptCodecFromMaterial exampleCrypto exampleKeyMaterial direction with
  | Ok c => c
  | Err _ => mkCrypt exampleBlock [] [] (mkPacketIDState 0 0) None
  end.

Definition exampleServerKey : bytes := take 128 exampleKeyMaterial.

Definition exampleWrapped : bytes :=
  let net := PutUint16 (lenZ exampleKeyMaterial + 1 + 34) in
  let tag := sha256 exampleCrypto (slice 64 96 exampleServerKey) (net ++ exampleKeyMaterial ++ [x01]) in
  tag ++ CTRCrypt exampleBlock (take 16 tag) (exampleKeyMaterial ++ [x01]) ++ net.

Lemma tls_crypt_v2_first_packet_witness :
  let raw := exampleControlPacket OpcodeControlHardResetClientV3 in
  let client := newSessionProtection (mkProtection None (Some (exampleCrypt 1)) []) in
  let encoded := (encodeOutgoingControlPacket exampleCrypto client raw 1000 1000).1 in
  let wire := appendTLSCryptV2WrappedClientKey encoded exampleWrapped OpcodeControlHardResetClientV3 in
  (decodeIncomingControlPacket exampleCrypto (mkProtection None None exampleServerKey) wire 7 7).1 = Ok raw.
Proof.
  cbv zeta.
  pose proof (tls_crypt_v2_first_packet exampleCrypto exampleServerKey exampleKeyMaterial [x01] exampleWrapped
    (exampleCrypt 1) (exampleCrypt 0) (exampleControlPacket OpcodeControlHardResetClientV3) 1000 1000 7 7) as H.
  cbv zeta in H. destruct (encodeOutgoingControlPacket _ _ _ _ _) as [encoded client']. cbn [fst].
  destruct (decodeIncomingControlPacket _ _ _ _ _) as [decoded server']. apply H.
  - apply exampleCrypto_laws.
  - apply (bool_decide_unpack _). vm_compute. done.
  - vm_compute. reflexivity.
  - split; [apply (bool_decide_unpack _); vm_compute; done |]. exists exampleBlock. split; [done |]. vm_compute. reflexivity.
  - reflexivity.
  - reflexivity.
  - apply (bool_decide_unpack _). vm_compute. done.
  - vm_compute. reflexivity.
Defined.
