(* ===== verification/GoStrings.v ===== *)
(** * Strings ([strings] and [strconv])

    A Go string is a [string], whose characters are octets.  Case folding and
    white space are those of ASCII, which is what the names and the protocol
    messages of the program are written in. *)

From Stdlib Require Import Strings.Ascii.
From S2P Require Import Prelude.

Definition bytesOf (s : string) : bytes := String.list_byte_of_string s.
Definition stringOf (l : bytes) : string := String.string_of_list_byte l.

Lemma stringOf_bytesOf s : stringOf (bytesOf s) = s.
Proof. apply String.string_of_list_byte_of_string. Qed.

Lemma bytesOf_stringOf l : bytesOf (stringOf l) = l.
Proof. apply String.list_byte_of_string_of_list_byte. Qed.

Definition newline : ascii := Ascii.ascii_of_nat 10.
Definition carriageReturn : ascii := Ascii.ascii_of_nat 13.
Definition LF : string := String newline EmptyString.

Lemma append_nil s : EmptyString +:+ s = s.
Proof. done. Qed.

Lemma append_cons c a b : String c a +:+ b = String c (a +:+ b).
Proof. done. Qed.

(** ** Splitting and joining *)

(** [strings.Split] and [strings.SplitSeq] with a separator of one character. *)
Fixpoint Split (sep : ascii) (s : string) : list string :=
  match s with
  | EmptyString => [EmptyString]
  | String c s =>
      if decide (c = sep) then EmptyString :: Split sep s
      else match Split sep s with
           | [] => [String c EmptyString]
           | x :: xs => String c x :: xs
           end
  end.

(** [strings.Join]. *)
Fixpoint Join (sep : string) (l : list string) : string :=
  match l with
  | [] => EmptyString
  | [x] => x
  | x :: l => (x +:+ sep +:+ Join sep l)%string
  end.

Fixpoint containsChar (c : ascii) (s : string) : bool :=
  match s with EmptyString => false | String d s => bool_decide (c = d) || containsChar c s end.

Lemma Split_nonempty sep s : Split sep s ≠ [].
Proof. destruct s as [| c s]; cbn; [done |]. destruct (decide _); [done |]. by destruct (Split sep s). Qed.

(** A line that does not contain the separator is split off. *)
Lemma Split_app sep a s :
  containsChar sep a = false → Split sep (a +:+ String sep s) = a :: Split sep s.
Proof.
  induction a as [| c a IH]; rewrite ?append_nil, ?append_cons; cbn [Split containsChar];
    [intros _; by destruct (decide (sep = sep)) |].
  intros [Hc Ha]%orb_false_iff. apply bool_decide_eq_false in Hc. destruct (decide (c = sep)); [congruence |]. by rewrite IH.
Qed.

Lemma Split_single sep a : containsChar sep a = false → Split sep a = [a].
Proof.
  induction a as [| c a IH]; cbn [Split containsChar]; [done |].
  intros [Hc Ha]%orb_false_iff. apply bool_decide_eq_false in Hc. destruct (decide (c = sep)); [congruence |]. by rewrite IH.
Qed.

Lemma containsChar_app c a b : containsChar c (a +:+ b) = containsChar c a || containsChar c b.
Proof. induction a as [| d a IH]; [done |]. rewrite append_cons. cbn [containsChar]. by rewrite IH, orb_assoc. Qed.

(** Splitting what was joined. *)
Lemma Split_Join sep l :
  l ≠ [] → Forall (λ x, containsChar sep x = false) l → Split sep (Join (String sep EmptyString) l) = l.
Proof.
  intros Hne Hall. induction Hall as [| x l Hx Hall IH]; [done |]. destruct l as [| y l]; [by apply Split_single |].
  change (Split sep (x +:+ String sep (Join (String sep EmptyString) (y :: l))) = x :: y :: l).
  rewrite Split_app by done. by rewrite IH.
Qed.

(** ** Trimming *)

Fixpoint TrimLeftFunc (p : ascii → bool) (s : string) : string :=
  match s with
  | EmptyString => EmptyString
  | String c t => if p c then TrimLeftFunc p t else s
  end.

Fixpoint TrimRightFunc (p : ascii → bool) (s : string) : string :=
  match s with
  | EmptyString => EmptyString
  | String c s =>
      let t := TrimRightFunc p s in
      if bool_decide (t = EmptyString) && p c then EmptyString else String c t
  end.

Definition isSpace (c : ascii) : bool :=
  let n := Ascii.nat_of_ascii c in bool_decide (n ∈ [9; 10; 11; 12; 13; 32]%nat).

Definition TrimSpace (s : string) : string := TrimLeftFunc isSpace (TrimRightFunc isSpace s).

Definition TrimRightChar (s : string) (c : ascii) : string := TrimRightFunc (λ d, bool_decide (c = d)) s.

Definition TrimPrefix (s p : string) : string :=
  if HasPrefix s p then String.substring (String.length p) (String.length s - String.length p) s else s.

Lemma HasPrefix_app p s : HasPrefix (p +:+ s) p = true.
Proof.
  unfold HasPrefix. induction p as [| c p IH]; [by destruct s |]. rewrite append_cons. cbn [String.prefix].
  by destruct (Ascii.ascii_dec c c).
Qed.

Lemma substring_all s : String.substring 0 (String.length s) s = s.
Proof. induction s as [| c s IH]; cbn; [done |]. by rewrite IH. Qed.

Lemma substring_app p s : String.substring (String.length p) (String.length s) (p +:+ s) = s.
Proof. induction p as [| c p IH]; rewrite ?append_nil, ?append_cons; [apply substring_all | exact IH]. Qed.

Lemma string_length_app (p s : string) : String.length (p +:+ s) = (String.length p + String.length s)%nat.
Proof. induction p as [| c p IH]; [done |]. rewrite append_cons. cbn. by rewrite IH. Qed.

Lemma TrimPrefix_app p s : TrimPrefix (p +:+ s) p = s.
Proof.
  unfold TrimPrefix. rewrite HasPrefix_app, string_length_app.
  replace (_ - _)%nat with (String.length s) by lia. apply substring_app.
Qed.

(** ** Case *)

Definition lowerChar (c : ascii) : ascii :=
  let n := Ascii.nat_of_ascii c in
  if bool_decide (65 ≤ n ≤ 90)%nat then Ascii.ascii_of_nat (n + 32) else c.

Fixpoint ToLower (s : string) : string :=
  match s with EmptyString => EmptyString | String c s => String (lowerChar c) (ToLower s) end.

Definition EqualFold (a b : string) : bool := bool_decide (ToLower a = ToLower b).

(** ** Numbers *)

Definition digitValue (c : ascii) : option Z :=
  let n := Z.of_nat (Ascii.nat_of_ascii c) in
  if (48 <=? n) && (n <=? 57) then Some (n - 48) else None.

Fixpoint parseDigits (s : string) (acc : Z) : option Z :=
  match s with
  | EmptyString => Some acc
  | String c s => d ← digitValue c; parseDigits s (acc * 10 + d)
  end.

(** [strconv.ParseUint(s, 10, bitSize)]. *)
Definition ParseUint (s : string) (bitSize : Z) : result Z :=
  if decide (s = EmptyString) then Err (ErrNew "invalid syntax") else
  match parseDigits s 0 with
  | None => Err (ErrNew "invalid syntax")
  | Some n => if n <? 2 ^ bitSize then Ok n else Err (ErrNew "value out of range")
  end.

Definition hexValue (c : ascii) : option Z :=
  let n := Z.of_nat (Ascii.nat_of_ascii c) in
  if (48 <=? n) && (n <=? 57) then Some (n - 48)
  else if (97 <=? n) && (n <=? 102) then Some (n - 87)
  else if (65 <=? n) && (n <=? 70) then Some (n - 55) else None.

Fixpoint parseHexDigits (s : string) (acc : Z) : option Z :=
  match s with
  | EmptyString => Some acc
  | String c s => d ← hexValue c; parseHexDigits s (acc * 16 + d)
  end.

(** [strconv.ParseUint(s, 16, bitSize)]. *)
Definition ParseHex (s : string) (bitSize : Z) : result Z :=
  if decide (s = EmptyString) then Err (ErrNew "invalid syntax") else
  match parseHexDigits s 0 with
  | None => Err (ErrNew "invalid syntax")
  | Some n => if n <? 2 ^ bitSize then Ok n else Err (ErrNew "value out of range")
  end.

(** [strings.ContainsAny]. *)
Fixpoint ContainsAny (s chars : string) : bool :=
  match s with EmptyString => false | String c s => containsChar c chars || ContainsAny s chars end.

(** [strconv.Atoi]: a sign and digits, within a 64-bit [int]. *)
Definition Atoi (s : string) : result Z :=
  let signed (negative : bool) (digits : string) :=
    if decide (digits = EmptyString) then Err (ErrNew "invalid syntax") else
    match parseDigits digits 0 with
    | None => Err (ErrNew "invalid syntax")
    | Some n =>
        let v := if negative then - n else n in
        if (-(2 ^ 63) <=? v) && (v <? 2 ^ 63) then Ok v else Err (ErrNew "value out of range")
    end in
  match s with
  | EmptyString => Err (ErrNew "invalid syntax")
  | String c rest =>
      if decide (c = "+"%char) then signed false rest
      else if decide (c = "-"%char) then signed true rest
      else signed false s
  end.

Definition digitChar (d : Z) : ascii := Ascii.ascii_of_nat (Z.to_nat (48 + d)).

Fixpoint formatDigits (fuel : nat) (n : Z) (rest : string) : string :=
  match fuel with
  | O => rest
  | S fuel =>
      let s := String (digitChar (n mod 10)) rest in
      if n <? 10 then s else formatDigits fuel (n / 10) s
  end.

(** [strconv.FormatUint(n, 10)]: a 64-bit number has at most twenty digits. *)
Definition FormatUint (n : Z) : string := formatDigits 20 n EmptyString.

(** [strconv.Itoa]. *)
Definition Itoa (n : Z) : string := if n <? 0 then String "-"%char (FormatUint (- n)) else FormatUint n.

Lemma digitValue_digitChar d : 0 ≤ d < 10 → digitValue (digitChar d) = Some d.
Proof.
  intros Hd. assert (d ∈ seqZ 0 10) as H by (apply elem_of_seqZ; lia).
  revert H. generalize d. apply Forall_forall. by repeat constructor.
Qed.

Lemma digitChar_neq d (c : ascii) : 0 ≤ d < 10 → digitValue c = None → digitChar d ≠ c.
Proof. intros Hd Hc <-. by rewrite digitValue_digitChar in Hc. Qed.

Lemma parseDigits_app s t acc v : parseDigits s acc = Some v → parseDigits (s +:+ t) acc = parseDigits t v.
Proof.
  revert acc. induction s as [| c s IH]; intros acc; rewrite ?append_cons; cbn [parseDigits]; [by intros [= ->] |].
  destruct (digitValue c); cbn; [apply IH | done].
Qed.

(** The digits are a number in front of what follows. *)
Lemma formatDigits_spec fuel n rest :
  0 ≤ n < 10 ^ Z.of_nat fuel →
  ∃ s, formatDigits fuel n rest = s +:+ rest ∧ parseDigits s 0 = Some n ∧ (s = EmptyString → fuel = O) ∧
    ∀ c, digitValue c = None → containsChar c s = false.
Proof.
  revert n rest. induction fuel as [| fuel IH]; intros n rest Hn.
  { exists EmptyString. cbn in *. by replace n with 0 by lia. }
  cbn [formatDigits]. assert (Hd : 0 ≤ n mod 10 < 10) by (apply Z.mod_pos_bound; lia).
  destruct (Z.ltb_spec n 10) as [Hs | Hl].
  - rewrite Z.mod_small in * by lia. exists (String (digitChar n) EmptyString). cbn [parseDigits].
    rewrite digitValue_digitChar by lia. split_and!; [done | done | done |].
    intros c Hc. cbn. by rewrite bool_decide_eq_false_2 by (intros ->; by eapply digitChar_neq).
  - destruct (IH (n / 10) (String (digitChar (n mod 10)) rest)) as (s & -> & Hp & Hne & Hc).
    { rewrite Nat2Z.inj_succ, Z.pow_succ_r in Hn by lia. split; [apply Z.div_pos; lia |]. apply Z.div_lt_upper_bound; lia. }
    exists (s +:+ String (digitChar (n mod 10)) EmptyString). split_and!.
    + clear. induction s as [| c s IHs]; [done |]. rewrite !append_cons. by f_equal.
    + rewrite (parseDigits_app _ _ _ _ Hp). cbn [parseDigits]. rewrite digitValue_digitChar by lia. cbn.
      f_equal. pose proof (Z.div_mod n 10). lia.
    + by destruct s.
    + intros c Hcv. rewrite containsChar_app, Hc by done. cbn. by rewrite bool_decide_eq_false_2 by (intros ->; by eapply digitChar_neq).
Qed.

Lemma string_app_nil (s : string) : s +:+ EmptyString = s.
Proof. induction s as [| c s IH]; [done |]. rewrite append_cons. by f_equal. Qed.

Lemma FormatUint_spec n :
  0 ≤ n < 2 ^ 64 →
  parseDigits (FormatUint n) 0 = Some n ∧ FormatUint n ≠ EmptyString ∧
  ∀ c, digitValue c = None → containsChar c (FormatUint n) = false.
Proof.
  intros Hn. destruct (formatDigits_spec 20 n EmptyString) as (s & Hs & Hp & Hne & Hc); [lia |].
  unfold FormatUint. rewrite Hs, string_app_nil. split_and!; [done | intros Hs0; by apply Hne in Hs0 | done].
Qed.

Lemma ParseUint_FormatUint n bits : 0 ≤ n < 2 ^ bits → bits ≤ 64 → 0 ≤ bits → ParseUint (FormatUint n) bits = Ok n.
Proof.
  intros Hn Hb Hb0. assert (2 ^ bits ≤ 2 ^ 64) by (apply Z.pow_le_mono_r; lia).
  destruct (FormatUint_spec n) as (Hp & Hne & _); [lia |]. unfold ParseUint. rewrite decide_False by done.
  rewrite Hp. by rewrite (proj2 (Z.ltb_lt _ _)) by lia.
Qed.

Lemma Atoi_Itoa n : 0 ≤ n < 2 ^ 63 → Atoi (Itoa n) = Ok n.
Proof.
  intros Hn. unfold Itoa. rewrite (proj2 (Z.ltb_ge _ _)) by lia.
  destruct (FormatUint_spec n) as (Hp & Hne & Hc); [lia |]. destruct (FormatUint n) as [| c s] eqn:Hs; [done |].
  pose proof (Hc "+"%char eq_refl) as Hplus. pose proof (Hc "-"%char eq_refl) as Hminus. cbn in Hplus, Hminus.
  apply orb_false_iff in Hplus as [Hplus _], Hminus as [Hminus _]. apply bool_decide_eq_false in Hplus, Hminus.
  unfold Atoi. rewrite !decide_False by congruence. rewrite Hp.
  destruct (Z.leb_spec (-(2 ^ 63)) n); [| lia]. by rewrite (proj2 (Z.ltb_lt _ _)) by lia.
Qed.

(** ** Words *)

(** [strings.Fields]: the words between white space. *)
Fixpoint fieldsLoop (s : string) (word : string) : list string :=
  match s with
  | EmptyString => if decide (word = EmptyString) then [] else [word]
  | String c s =>
      if isSpace c then (if decide (word = EmptyString) then fieldsLoop s word else word :: fieldsLoop s EmptyString)
      else fieldsLoop s (word +:+ String c EmptyString)
  end.

Definition Fields (s : string) : list string := fieldsLoop s EmptyString.

Definition upperChar (c : ascii) : ascii :=
  let n := Ascii.nat_of_ascii c in
  if bool_decide (97 ≤ n ≤ 122)%nat then Ascii.ascii_of_nat (n - 32) else c.

Fixpoint ToUpper (s : string) : string :=
  match s with EmptyString => EmptyString | String c s => String (upperChar c) (ToUpper s) end.

(** [strings.Trim] with a cutset of one character. *)
Definition TrimChar (s : string) (c : ascii) : string :=
  TrimLeftFunc (λ d, bool_decide (c = d)) (TrimRightFunc (λ d, bool_decide (c = d)) s).

(** [strings.Cut] at the first occurrence of a character. *)
Fixpoint Cut (sep : ascii) (s : string) : option (string * string) :=
  match s with
  | EmptyString => None
  | String c s =>
      if decide (c = sep) then Some (EmptyString, s)
      else match Cut sep s with Some (before, after) => Some (String c before, after) | None => None end
  end.
