(* ===== verification/Base64.v ===== *)
(** * Base64: [encoding/base64]'s [StdEncoding]

    The decoder skips line ends, wants padding, and gives what it decoded before
    an error together with the error: the code uses both. *)

From S2P Require Import Prelude GoStrings.

Definition sextetByte (s : Z) : byte :=
  z2b (if s <? 26 then 65 + s else if s <? 52 then 97 + (s - 26) else if s <? 62 then 48 + (s - 52) else if s =? 62 then 43 else 47).

Definition sextetOf (c : byte) : option Z :=
  let v := b2z c in
  if (65 <=? v) && (v <=? 90) then Some (v - 65)
  else if (97 <=? v) && (v <=? 122) then Some (v - 97 + 26)
  else if (48 <=? v) && (v <=? 57) then Some (v - 48 + 52)
  else if v =? 43 then Some 62 else if v =? 47 then Some 63 else None.

Definition padByte : byte := x3d.

Definition isLineEnd (c : byte) : bool := bool_decide (c = x0a ∨ c = x0d).

Fixpoint base64Encode (src : bytes) : bytes :=
  match src with
  | a :: b :: c :: src =>
      let v := b2z a * 65536 + b2z b * 256 + b2z c in
      sextetByte (v / 262144) :: sextetByte (v / 4096 mod 64) :: sextetByte (v / 64 mod 64) :: sextetByte (v mod 64) :: base64Encode src
  | [a; b] =>
      let v := b2z a * 65536 + b2z b * 256 in
      [sextetByte (v / 262144); sextetByte (v / 4096 mod 64); sextetByte (v / 64 mod 64); padByte]
  | [a] =>
      let v := b2z a * 65536 in
      [sextetByte (v / 262144); sextetByte (v / 4096 mod 64); padByte; padByte]
  | [] => []
  end.

(** The octets of a quantum of which some sextets were read. *)
Definition quantumBytes (quantum : list Z) : bytes :=
  match quantum with
  | [s0; s1] => [z2b ((s0 * 64 + s1) / 16)]
  | [s0; s1; s2] => [z2b ((s0 * 64 + s1) / 16); z2b ((s0 * 4096 + s1 * 64 + s2) / 4)]
  | [s0; s1; s2; s3] =>
      let v := s0 * 262144 + s1 * 4096 + s2 * 64 + s3 in [z2b (v / 65536); z2b (v / 256); z2b v]
  | _ => []
  end.

Fixpoint skipLineEnds (src : bytes) : bytes :=
  match src with
  | c :: rest => if isLineEnd c then skipLineEnds rest else src
  | [] => []
  end.

(** The decoded octets and whether all of the input was good; [quantum] holds
    the sextets of the group being read. *)
Fixpoint base64Loop (src : bytes) (quantum : list Z) (output : bytes) : bytes * bool :=
  match src with
  | [] => (output, match quantum with [] => true | _ => false end)
  | c :: rest =>
      match sextetOf c with
      | Some s =>
          let quantum := quantum ++ [s] in
          if (length quantum =? 4)%nat then base64Loop rest [] (output ++ quantumBytes quantum) else base64Loop rest quantum output
      | None =>
          if isLineEnd c then base64Loop rest quantum output else
          if negb (bool_decide (c = padByte)) then (output, false) else
          match length quantum with
          | 2%nat =>
              match skipLineEnds rest with
              | d :: rest =>
                  if bool_decide (d = padByte) then (output ++ quantumBytes quantum, match skipLineEnds rest with [] => true | _ => false end)
                  else (output, false)
              | [] => (output, false)
              end
          | 3%nat => (output ++ quantumBytes quantum, match skipLineEnds rest with [] => true | _ => false end)
          | _ => (output, false)
          end
      end
  end.

Definition base64Decode (src : bytes) : bytes * bool := base64Loop src [] [].

Definition EncodeToString (src : bytes) : string := stringOf (base64Encode src).
Definition DecodeString (s : string) : bytes * bool := base64Decode (bytesOf s).

(** ** What is encoded is decoded *)

Lemma sextetOf_sextetByte s : 0 ≤ s < 64 → sextetOf (sextetByte s) = Some s.
Proof.
  intros Hs. pose proof (by_cases (λ s, match sextetOf (sextetByte s) with Some t => t =? s | None => false end) 0 64 s eq_refl Hs) as H.
  cbn beta in H. destruct (sextetOf _); [| done]. f_equal. lia.
Qed.

Lemma base64Loop_sextet s rest quantum output :
  0 ≤ s < 64 →
  base64Loop (sextetByte s :: rest) quantum output =
    if (length (quantum ++ [s]) =? 4)%nat then base64Loop rest [] (output ++ quantumBytes (quantum ++ [s])) else base64Loop rest (quantum ++ [s]) output.
Proof. intros Hs. cbn [base64Loop]. by rewrite sextetOf_sextetByte. Qed.

Lemma sextets_of_three a b c :
  let v := b2z a * 65536 + b2z b * 256 + b2z c in
  0 ≤ v / 262144 < 64 ∧ 0 ≤ v / 4096 mod 64 < 64 ∧ 0 ≤ v / 64 mod 64 < 64 ∧ 0 ≤ v mod 64 < 64 ∧
  quantumBytes [v / 262144; v / 4096 mod 64; v / 64 mod 64; v mod 64] = [a; b; c].
Proof.
  intros v. pose proof (b2z_range a). pose proof (b2z_range b). pose proof (b2z_range c).
  assert (Hv : v / 262144 * 262144 + v / 4096 mod 64 * 4096 + v / 64 mod 64 * 64 + v mod 64 = v)
    by (subst v; Z.to_euclidean_division_equations; lia).
  split_and!; try (subst v; Z.to_euclidean_division_equations; lia).
  cbn [quantumBytes]. rewrite Hv. subst v.
  repeat f_equal; apply b2z_inj; rewrite b2z_z2b; Z.to_euclidean_division_equations; lia.
Qed.

Lemma sextets_of_two a b :
  let v := b2z a * 65536 + b2z b * 256 in
  0 ≤ v / 262144 < 64 ∧ 0 ≤ v / 4096 mod 64 < 64 ∧ 0 ≤ v / 64 mod 64 < 64 ∧
  quantumBytes [v / 262144; v / 4096 mod 64; v / 64 mod 64] = [a; b].
Proof.
  intros v. pose proof (b2z_range a). pose proof (b2z_range b).
  split_and!; try (subst v; Z.to_euclidean_division_equations; lia).
  cbn [quantumBytes]. subst v. repeat f_equal; apply b2z_inj; rewrite b2z_z2b; Z.to_euclidean_division_equations; lia.
Qed.

Lemma sextets_of_one a :
  let v := b2z a * 65536 in
  0 ≤ v / 262144 < 64 ∧ 0 ≤ v / 4096 mod 64 < 64 ∧ quantumBytes [v / 262144; v / 4096 mod 64] = [a].
Proof.
  intros v. pose proof (b2z_range a). split_and!; try (subst v; Z.to_euclidean_division_equations; lia).
  cbn [quantumBytes]. subst v. repeat f_equal; apply b2z_inj; rewrite b2z_z2b; Z.to_euclidean_division_equations; lia.
Qed.

Lemma base64Loop_encoded n src output : (length src < n)%nat → base64Loop (base64Encode src) [] output = (output ++ src, true).
Proof.
  revert src output. induction n as [| n IH]; intros src output Hn; [lia |].
  destruct src as [| a [| b [| c src]]]; cbn [base64Encode].
  - by rewrite app_nil_r.
  - destruct (sextets_of_one a) as (H1 & H2 & H3). rewrite !base64Loop_sextet by done. cbn [app length Nat.eqb].
    cbn [base64Loop]. change (sextetOf padByte) with (@None Z). cbv iota. change (isLineEnd padByte) with false. cbn [skipLineEnds].
    rewrite bool_decide_true by done. cbn [negb length]. change (isLineEnd padByte) with false. cbv iota. by rewrite H3.
  - destruct (sextets_of_two a b) as (H1 & H2 & H3 & H4). rewrite !base64Loop_sextet by done. cbn [app length Nat.eqb].
    cbn [base64Loop]. change (sextetOf padByte) with (@None Z). cbv iota. change (isLineEnd padByte) with false. cbn [skipLineEnds].
    rewrite bool_decide_true by done. cbn [negb length]. by rewrite H4.
  - destruct (sextets_of_three a b c) as (H1 & H2 & H3 & H4 & H5). rewrite !base64Loop_sextet by done. cbn [app length Nat.eqb].
    rewrite H5, IH by (cbn in Hn; lia). by rewrite <- app_assoc.
Qed.

Lemma base64_roundtrip src : base64Decode (base64Encode src) = (src, true).
Proof. unfold base64Decode. by rewrite (base64Loop_encoded (S (length src))) by lia. Qed.

Lemma DecodeString_EncodeToString src : DecodeString (EncodeToString src) = (src, true).
Proof. unfold DecodeString, EncodeToString. rewrite bytesOf_stringOf. apply base64_roundtrip. Qed.
