(* ===== verification/Lzo.v ===== *)
(** * LZO1X compression ([lzo_compress.go])

    The compressor of the program, and the LZO1X format as a reference decoder.
    Indexing a slice out of range panics in Go: the functions return an
    [option], and [None] is a panic.  The theorem says that there is none and
    that the stream decodes to the input. *)

From S2P Require Import Prelude Crypto.

Definition lzoMaxOffsetM2 : Z := 2048.
Definition lzoMaxOffsetM3 : Z := 16384.
Definition lzoMaxOffsetM4 : Z := 49151.
Definition lzoMaxLengthM2 : Z := 8.
Definition lzoMaxLengthM4 : Z := 9.
Definition lzoMarkerM3 : Z := 32.
Definition lzoMarkerM4 : Z := 16.
Definition lzoDictBits : Z := 14.
Definition lzoDictMask : Z := Z.shiftl 1 lzoDictBits - 1.
Definition lzoDictHigh : Z := Z.shiftr lzoDictMask 1 + 1.

(** [input[i]]. *)
Definition index {A} (l : list A) (i : Z) : option A := if i <? 0 then None else l !! Z.to_nat i.

(** ** Output *)

Fixpoint appendMultipleLoop (fuel : nat) (output : bytes) (value : Z) : bytes :=
  match fuel with
  | O => output
  | S fuel => if 255 <? value then appendMultipleLoop fuel (output ++ [x00]) (value - 255) else output ++ [z2b value]
  end.

(** Every round takes 255 off the value. *)
Definition appendLZOMultiple (output : bytes) (value : Z) : bytes := appendMultipleLoop (S (Z.to_nat value)) output value.

(** [output[len(output)-2] |= byte(n)]. *)
Definition orSecondLast (output : bytes) (n : Z) : option bytes :=
  b ← index output (lenZ output - 2);
  Some (<[(length output - 2)%nat := z2b (Z.lor (b2z b) n)]> output).

Definition appendLZOLiteral (output literal : bytes) : option bytes :=
  let literalCount := lenZ literal in
  if literalCount =? 0 then Some output else
  output ←
    (if (lenZ output =? 0) && (literalCount <=? 238) then Some (output ++ [z2b (17 + literalCount)])
     else if literalCount <=? 3 then orSecondLast output literalCount
     else if literalCount <=? 18 then Some (output ++ [z2b (literalCount - 3)])
     else Some (appendLZOMultiple (output ++ [x00]) (literalCount - 18)));
  Some (output ++ literal).

(** A match of at most eight octets. *)
Definition appendShortMatch (output : bytes) (matchOffset matchLength : Z) : bytes :=
  if matchOffset <=? lzoMaxOffsetM2 then
    let matchOffset := matchOffset - 1 in
    output ++ [z2b (Z.lor (Z.shiftl (matchLength - 1) 5) (Z.shiftl (Z.land matchOffset 7) 2)); z2b (Z.shiftr matchOffset 3)]
  else if matchOffset <=? lzoMaxOffsetM3 then
    let matchOffset := matchOffset - 1 in
    output ++ [z2b (Z.lor lzoMarkerM3 (matchLength - 2)); z2b (Z.shiftl (Z.land matchOffset 63) 2); z2b (Z.shiftr matchOffset 6)]
  else
    let matchOffset := matchOffset - 16384 in
    output ++ [z2b (Z.lor (Z.lor lzoMarkerM4 (Z.shiftr (Z.land matchOffset 16384) 11)) (matchLength - 2));
               z2b (Z.shiftl (Z.land matchOffset 63) 2); z2b (Z.shiftr matchOffset 6)].

(** A match of nine octets or more. *)
Definition appendLongMatch (output : bytes) (matchOffset matchLength : Z) : bytes :=
  let '(output, matchOffset) :=
    if matchOffset <=? lzoMaxOffsetM3 then
      let matchOffset := matchOffset - 1 in
      (if matchLength <=? 33 then output ++ [z2b (Z.lor lzoMarkerM3 (matchLength - 2))]
       else appendLZOMultiple (output ++ [z2b lzoMarkerM3]) (matchLength - 33), matchOffset)
    else
      let matchOffset := matchOffset - 16384 in
      (if matchLength <=? lzoMaxLengthM4
       then output ++ [z2b (Z.lor (Z.lor lzoMarkerM4 (Z.shiftr (Z.land matchOffset 16384) 11)) (matchLength - 2))]
       else appendLZOMultiple (output ++ [z2b (Z.lor lzoMarkerM4 (Z.shiftr (Z.land matchOffset 16384) 11))])
              (matchLength - lzoMaxLengthM4), matchOffset) in
  output ++ [z2b (Z.shiftl (Z.land matchOffset 63) 2); z2b (Z.shiftr matchOffset 6)].

(** ** Matching *)

Definition findLZOCandidate (dictionary : list Z) (input : bytes) (inputPosition dictionaryIndex : Z) : option (Z * Z) :=
  entry ← index dictionary dictionaryIndex;
  let matchPosition := entry - 1 in
  if (matchPosition <? 0) || (inputPosition =? matchPosition) || (lzoMaxOffsetM4 <? inputPosition - matchPosition)
  then Some (-1, 0) else
  let matchOffset := inputPosition - matchPosition in
  if matchOffset <=? lzoMaxOffsetM2 then Some (matchPosition, matchOffset) else
  a ← index input (matchPosition + 3); b ← index input (inputPosition + 3);
  Some (if decide (a = b) then (matchPosition, matchOffset) else (-1, 0)).

(** [input[i] == input[j]]. *)
Definition sameAt (input : bytes) (i j : Z) : option bool :=
  a ← index input i; b ← index input j; Some (bool_decide (a = b)).

(** Conditions joined with [&&], from the left; a false one stops the evaluation. *)
Definition andThen (a : option bool) (b : option bool) : option bool :=
  match a with Some true => b | _ => a end.

(** [for matchLength = 3; matchLength < 9; matchLength++]: the length at which
    the loop stopped and the position it leaves behind. *)
Fixpoint shortMatchLoop (fuel : nat) (input : bytes) (matchPosition matchLength inputPosition : Z) : option (Z * Z) :=
  match fuel with
  | O => Some (matchLength, inputPosition)
  | S fuel =>
      if matchLength <? 9 then
        let inputPosition := inputPosition + 1 in
        same ← sameAt input (matchPosition + matchLength) (inputPosition - 1);
        if same : bool then shortMatchLoop fuel input matchPosition (matchLength + 1) inputPosition
        else Some (matchLength, inputPosition)
      else Some (matchLength, inputPosition)
  end.

Fixpoint longMatchLoop (fuel : nat) (input : bytes) (matchPosition inputPosition : Z) : option Z :=
  match fuel with
  | O => Some inputPosition
  | S fuel =>
      if inputPosition <? lenZ input then
        same ← sameAt input matchPosition inputPosition;
        if same : bool then longMatchLoop fuel input (matchPosition + 1) (inputPosition + 1) else Some inputPosition
      else Some inputPosition
  end.

Record lzoState := mkLzo {
  lz_dictionary : list Z;
  lz_output : bytes;
  lz_literalStart : Z;
  lz_inputPosition : Z;
}.

(** The body of a match: the literals before it, its length, its encoding. *)
Definition emitMatch (input : bytes) (s : lzoState) (dictionaryIndex matchPosition matchOffset : Z) : option lzoState :=
  let start := lz_inputPosition s in
  let dictionary := <[Z.to_nat dictionaryIndex := start + 1]> (lz_dictionary s) in
  output ←
    (if start =? lz_literalStart s then Some (lz_output s)
     else appendLZOLiteral (lz_output s) (slice (Z.to_nat (lz_literalStart s)) (Z.to_nat start) input));
  '(matchLength, inputPosition) ← shortMatchLoop 6 input matchPosition 3 (start + 3);
  if matchLength <? 9 then
    let inputPosition := inputPosition - 1 in
    Some (mkLzo dictionary (appendShortMatch output matchOffset (inputPosition - start)) inputPosition inputPosition)
  else
    inputPosition ← longMatchLoop (length input) input (matchPosition + (lzoMaxLengthM2 + 1)) inputPosition;
    Some (mkLzo dictionary (appendLongMatch output matchOffset (inputPosition - start)) inputPosition inputPosition).

(** One attempt: [Some None] when there is no match. *)
Definition attemptMatch (input : bytes) (s : lzoState) (dictionaryIndex : Z) : option (option lzoState) :=
  let pos := lz_inputPosition s in
  '(matchPosition, matchOffset) ← findLZOCandidate (lz_dictionary s) input pos dictionaryIndex;
  tryMatch ←
    (if 0 <=? matchPosition
     then if matchOffset <=? lzoMaxOffsetM2 then Some true else sameAt input (matchPosition + 3) (pos + 3)
     else Some false);
  matched ← andThen (Some tryMatch) (andThen (sameAt input matchPosition pos)
              (andThen (sameAt input (matchPosition + 1) (pos + 1)) (sameAt input (matchPosition + 2) (pos + 2))));
  if matched : bool then Some <$> emitMatch input s dictionaryIndex matchPosition matchOffset else Some None.

Definition dictionaryKey (input : bytes) (pos : Z) : option Z :=
  a ← index input (pos + 3); b ← index input (pos + 2); c ← index input (pos + 1); d ← index input pos;
  let key := b2z a in
  let key := Z.lxor (Z.shiftl key 6) (b2z b) in
  let key := Z.lxor (Z.shiftl key 5) (b2z c) in
  let key := Z.lxor (Z.shiftl key 5) (b2z d) in
  Some (Z.land (Z.shiftr (33 * key) 5) lzoDictMask).

Definition secondIndex (dictionaryIndex : Z) : Z :=
  Z.lxor (Z.land dictionaryIndex (Z.land lzoDictMask 2047)) (Z.lor lzoDictHigh 31).

(** One round of the outer loop. *)
Definition lzoRound (input : bytes) (s : lzoState) : option lzoState :=
  let pos := lz_inputPosition s in
  dictionaryIndex ← dictionaryKey input pos;
  first ← attemptMatch input s dictionaryIndex;
  match first with
  | Some s => Some s
  | None =>
      let dictionaryIndex := secondIndex dictionaryIndex in
      second ← attemptMatch input s dictionaryIndex;
      match second with
      | Some s => Some s
      | None =>
          Some (mkLzo (<[Z.to_nat dictionaryIndex := pos + 1]> (lz_dictionary s)) (lz_output s) (lz_literalStart s)
                  (pos + (1 + Z.shiftr (pos - lz_literalStart s) 5)))
      end
  end.

Fixpoint lzoLoop (fuel : nat) (input : bytes) (inputLimit : Z) (s : lzoState) : option lzoState :=
  match fuel with
  | O => None
  | S fuel =>
      s ← lzoRound input s;
      if inputLimit <=? lz_inputPosition s then Some s else lzoLoop fuel input inputLimit s
  end.

(** Every round moves the position forward: the length of the input is enough fuel. *)
Definition compressLZOBlockCore (input : bytes) : option (bytes * Z) :=
  let inputLength := lenZ input in
  let inputLimit := inputLength - lzoMaxLengthM2 - 5 in
  s ← lzoLoop (length input) input inputLimit (mkLzo (replicate (Z.to_nat (Z.shiftl 1 lzoDictBits)) 0) [] 0 4);
  Some (lz_output s, inputLength - lz_literalStart s).

Definition compressLZOBlock (input : bytes) : option bytes :=
  let inputLength := lenZ input in
  '(output, literalTailSize) ←
    (if lzoMaxLengthM2 + 5 <? inputLength then compressLZOBlockCore input else Some ([], inputLength));
  output ←
    (if 0 <? literalTailSize
     then appendLZOLiteral output (drop (Z.to_nat (inputLength - literalTailSize)) input) else Some output);
  Some (output ++ [z2b (Z.lor lzoMarkerM4 1); x00; x00]).

(** ** The format

    A stream is a sequence of instructions.  Every instruction but a literal run
    copies a match and then up to three literals, whose number is in the
    instruction and is the state the next one starts in; the state after a
    literal run is 4. *)

Record lzoDecoder := mkDecoder { ld_state : Z; ld_rest : bytes; ld_out : bytes }.

(** A length that does not fit its field: zeros for 255 each, then the rest. *)
Fixpoint readMultiple (bs : bytes) : option (Z * bytes) :=
  match bs with
  | [] => None
  | b :: bs => if b2z b =? 0 then '(n, rest) ← readMultiple bs; Some (255 + n, rest) else Some (b2z b, bs)
  end.

Definition readLength (field limit base : Z) (bs : bytes) : option (Z * bytes) :=
  if field =? 0 then '(n, rest) ← readMultiple bs; Some (base + limit + n, rest) else Some (base + field, bs).

(** A match may overlap its own copy. *)
Fixpoint copyMatch (n : nat) (distance : Z) (out : bytes) : option bytes :=
  match n with
  | O => Some out
  | S n => b ← index out (lenZ out - distance); copyMatch n distance (out ++ [b])
  end.

Definition takeLiterals (n : Z) (bs out : bytes) : option (bytes * bytes) :=
  if lenZ bs <? n then None else Some (drop (Z.to_nat n) bs, out ++ take (Z.to_nat n) bs).

(** A match, then its literals. *)
Definition applyMatch (length distance state : Z) (bs out : bytes) : option lzoDecoder :=
  out ← copyMatch (Z.to_nat length) distance out;
  '(bs, out) ← takeLiterals state bs out;
  Some (mkDecoder state bs out).

Definition applyLiterals (n : Z) (bs out : bytes) : option lzoDecoder :=
  '(bs, out) ← takeLiterals n bs out; Some (mkDecoder 4 bs out).

(** The two octets after an M3 or M4 instruction: the distance and the state. *)
Definition readDistance (bs : bytes) : option (Z * Z * bytes) :=
  match bs with
  | lo :: hi :: bs => let word := b2z lo + 256 * b2z hi in Some (Z.shiftr word 2, Z.land word 3, bs)
  | _ => None
  end.

(** One instruction: [inr] is the end of the stream. *)
Definition lzoStep (d : lzoDecoder) : option (lzoDecoder + bytes) :=
  match ld_rest d with
  | [] => None
  | b :: bs =>
      let t := b2z b in
      if 64 <=? t then
        match bs with
        | [] => None
        | h :: bs => inl <$> applyMatch (Z.shiftr t 5 + 1) (8 * b2z h + Z.land (Z.shiftr t 2) 7 + 1) (Z.land t 3) bs (ld_out d)
        end
      else if 32 <=? t then
        '(n, bs) ← readLength (Z.land t 31) 31 2 bs;
        '(distance, state, bs) ← readDistance bs;
        inl <$> applyMatch n (distance + 1) state bs (ld_out d)
      else if 16 <=? t then
        '(n, bs) ← readLength (Z.land t 7) 7 2 bs;
        '(low, state, bs) ← readDistance bs;
        let distance := 16384 + 2048 * Z.land t 8 + low in
        if distance =? 16384 then (if decide (bs = []) then Some (inr (ld_out d)) else None)
        else inl <$> applyMatch n distance state bs (ld_out d)
      else if ld_state d =? 0 then
        '(n, bs) ← readLength t 15 3 bs; inl <$> applyLiterals n bs (ld_out d)
      else
        match bs with
        | [] => None
        | h :: bs =>
            if ld_state d =? 4
            then inl <$> applyMatch 3 (4 * b2z h + Z.shiftr t 2 + 2049) (Z.land t 3) bs (ld_out d)
            else inl <$> applyMatch 2 (4 * b2z h + Z.shiftr t 2 + 1) (Z.land t 3) bs (ld_out d)
        end
  end.

(** The first octet of a stream may count literals. *)
Definition lzoStart (compressed : bytes) : option lzoDecoder :=
  match compressed with
  | [] => None
  | b :: bs =>
      let t := b2z b in
      if 17 <? t then
        if t - 17 <? 4 then '(bs, out) ← takeLiterals (t - 17) bs []; Some (mkDecoder (t - 17) bs out)
        else applyLiterals (t - 17) bs []
      else Some (mkDecoder 0 compressed [])
  end.

Fixpoint lzoRun (fuel : nat) (d : lzoDecoder) : option bytes :=
  match fuel with
  | O => None
  | S fuel => next ← lzoStep d; match next with inl d => lzoRun fuel d | inr out => Some out end
  end.

(** Every instruction takes an octet. *)
Definition lzo1xDecode (compressed : bytes) : option bytes :=
  d ← lzoStart compressed; lzoRun (S (length compressed)) d.

(** ** Decoding *)

Lemma index_Some {A} (l : list A) i : 0 ≤ i < lenZ l → ∃ x, index l i = Some x ∧ l !! Z.to_nat i = Some x.
Proof.
  intros Hi. unfold index. rewrite (proj2 (Z.ltb_ge _ _)) by lia.
  destruct (lookup_lt_is_Some_2 l (Z.to_nat i)) as [x Hx]; [golen |]. eauto.
Qed.

Definition step (d d' : lzoDecoder) : Prop := lzoStep d = Some (inl d').

(** The stream up to a point decodes, whatever follows. *)
Definition decodesFrom (compressed : bytes) (d : lzoDecoder) : Prop := ∃ d0, lzoStart compressed = Some d0 ∧ rtc step d0 d.

Lemma decodesFrom_step c d d' : decodesFrom c d → lzoStep d = Some (inl d') → decodesFrom c d'.
Proof. intros (d0 & Hs & Hr) H. exists d0. split; [done |]. by eapply rtc_r. Qed.

Lemma readMultiple_shorter bs n rest : readMultiple bs = Some (n, rest) → (length rest < length bs)%nat.
Proof.
  revert n rest. induction bs as [| b bs IH]; intros n rest; cbn; [done |]. destruct (b2z b =? 0).
  - destruct (readMultiple bs) as [[m r] |]; cbn; [| done]. intros [= <- <-]. specialize (IH m r eq_refl). lia.
  - intros [= <- <-]. lia.
Qed.

Lemma readLength_shorter f l b bs n rest : readLength f l b bs = Some (n, rest) → (length rest ≤ length bs)%nat.
Proof.
  unfold readLength. destruct (f =? 0); [| by intros [= <- <-]].
  destruct (readMultiple bs) as [[m r] |] eqn:E; cbn; [| done]. intros [= <- <-]. apply readMultiple_shorter in E. lia.
Qed.

Lemma readDistance_shorter bs d s rest : readDistance bs = Some (d, s, rest) → (length rest < length bs)%nat.
Proof. destruct bs as [| lo [| hi bs]]; cbn; try done. intros [= <- <- <-]. lia. Qed.

Lemma takeLiterals_shorter n bs out bs' out' : takeLiterals n bs out = Some (bs', out') → (length bs' ≤ length bs)%nat.
Proof. unfold takeLiterals. destruct (lenZ bs <? n); [done |]. intros [= <- <-]. rewrite length_drop. lia. Qed.

Lemma applyMatch_shorter l d s bs out d' : applyMatch l d s bs out = Some d' → (length (ld_rest d') ≤ length bs)%nat.
Proof.
  unfold applyMatch. destruct (copyMatch _ d out); cbn; [| done].
  destruct (takeLiterals s bs _) as [[bs' out'] |] eqn:E; cbn; [| done]. intros [= <-]. by apply takeLiterals_shorter in E.
Qed.

Lemma applyLiterals_shorter n bs out d' : applyLiterals n bs out = Some d' → (length (ld_rest d') ≤ length bs)%nat.
Proof.
  unfold applyLiterals. destruct (takeLiterals n bs out) as [[bs' out'] |] eqn:E; cbn; [| done].
  intros [= <-]. by apply takeLiterals_shorter in E.
Qed.

(** An instruction takes at least an octet of the stream. *)
Lemma step_shorter d d' : step d d' → (length (ld_rest d') < length (ld_rest d))%nat.
Proof.
  unfold step, lzoStep. destruct (ld_rest d) as [| b bs]; [done |]. cbv zeta. cbn [length].
  assert (Hinl : ∀ o : option lzoDecoder, (inl <$> o) = Some (inl d' : lzoDecoder + bytes) → o = Some d') by (intros [x |]; cbn; congruence).
  destruct (64 <=? b2z b).
  { destruct bs as [| h bs]; [done |]. intros ?%Hinl%applyMatch_shorter. cbn [length]. lia. }
  destruct (32 <=? b2z b).
  { destruct (readLength _ 31 2 bs) as [[n r] |] eqn:E; cbn; [| done]. apply readLength_shorter in E.
    destruct (readDistance r) as [[[dd s] r'] |] eqn:E2; cbn; [| done]. apply readDistance_shorter in E2.
    intros ?%Hinl%applyMatch_shorter. lia. }
  destruct (16 <=? b2z b).
  { destruct (readLength _ 7 2 bs) as [[n r] |] eqn:E; cbn [mbind option_bind]; [| done]. apply readLength_shorter in E.
    destruct (readDistance r) as [[[dd s] r'] |] eqn:E2; cbn [mbind option_bind]; [| done]. apply readDistance_shorter in E2.
    destruct (_ =? 16384); [by destruct (decide (r' = [])) |]. intros ?%Hinl%applyMatch_shorter. lia. }
  destruct (ld_state d =? 0).
  { destruct (readLength _ 15 3 bs) as [[n r] |] eqn:E; cbn; [| done]. apply readLength_shorter in E.
    intros ?%Hinl%applyLiterals_shorter. lia. }
  destruct bs as [| h bs]; [done |]. cbn [length].
  destruct (ld_state d =? 4); intros ?%Hinl%applyMatch_shorter; lia.
Qed.

Lemma lzoRun_reaches d d' out fuel :
  rtc step d d' → lzoStep d' = Some (inr out) → (length (ld_rest d) < fuel)%nat → lzoRun fuel d = Some out.
Proof.
  intros Hr Hend. revert fuel. induction Hr as [d | d d1 d' Hs Hr IH]; intros [| fuel] Hf; try lia; cbn [lzoRun].
  - by rewrite Hend.
  - pose proof (step_shorter _ _ Hs). unfold step in Hs. rewrite Hs. cbn. apply IH; [done | lia].
Qed.

Lemma decodesFrom_end c d out : decodesFrom c d → lzoStep d = Some (inr out) → lzo1xDecode c = Some out.
Proof.
  intros (d0 & Hs & Hr) Hend. unfold lzo1xDecode. rewrite Hs. cbn [mbind option_bind].
  eapply lzoRun_reaches; [exact Hr | exact Hend |].
  assert (length (ld_rest d0) ≤ length c)%nat; [| lia]. destruct c as [| b bs]; [done |]. cbn [lzoStart] in Hs.
  destruct (17 <? b2z b); [destruct (b2z b - 17 <? 4) |].
  - destruct (takeLiterals _ bs []) as [[bs' o] |] eqn:E; cbn in Hs; [| done]. injection Hs as <-.
    apply takeLiterals_shorter in E. cbn. lia.
  - apply applyLiterals_shorter in Hs. cbn. lia.
  - by injection Hs as <-.
Qed.

(** *** Lengths and literals *)

Lemma appendMultipleLoop_acc fuel o v : appendMultipleLoop fuel o v = o ++ appendMultipleLoop fuel [] v.
Proof.
  revert o v. induction fuel as [| fuel IH]; intros o v; cbn [appendMultipleLoop]; [by rewrite app_nil_r |].
  destruct (255 <? v); [| done]. rewrite IH, (IH ([] ++ [x00])). by rewrite <- app_assoc.
Qed.

Lemma readMultiple_append fuel v rest :
  1 ≤ v → (Z.to_nat v < fuel)%nat → readMultiple (appendMultipleLoop fuel [] v ++ rest) = Some (v, rest).
Proof.
  revert v. induction fuel as [| fuel IH]; intros v Hv Hf; [lia |]. cbn [appendMultipleLoop].
  destruct (Z.ltb_spec 255 v).
  - rewrite appendMultipleLoop_acc. cbn [app readMultiple]. change (b2z x00 =? 0) with true. cbv iota.
    rewrite IH by lia. cbn. do 2 f_equal. lia.
  - cbn [app readMultiple]. rewrite b2z_z2b_small by lia. by rewrite (proj2 (Z.eqb_neq _ _)) by lia.
Qed.

Lemma appendLZOMultiple_spec o v :
  1 ≤ v → ∃ m, appendLZOMultiple o v = o ++ m ∧ ∀ rest, readMultiple (m ++ rest) = Some (v, rest).
Proof.
  intros Hv. unfold appendLZOMultiple. eexists. split; [apply appendMultipleLoop_acc |].
  intros rest. apply readMultiple_append; lia.
Qed.

Lemma takeLiterals_app lit rest out : takeLiterals (lenZ lit) (lit ++ rest) out = Some (rest, out ++ lit).
Proof.
  unfold takeLiterals. rewrite (proj2 (Z.ltb_ge _ _)) by golen.
  unfold lenZ. rewrite Nat2Z.id. by rewrite drop_app_exact, take_app_exact.
Qed.

(** The header of a run of at least four literals. *)
Definition literalHeader (count : Z) : bytes :=
  if count <=? 18 then [z2b (count - 3)] else appendLZOMultiple [x00] (count - 18).

Lemma literal_run_step lit rest out :
  4 ≤ lenZ lit →
  lzoStep (mkDecoder 0 (literalHeader (lenZ lit) ++ lit ++ rest) out) = Some (inl (mkDecoder 4 rest (out ++ lit))).
Proof.
  intros Hl. unfold literalHeader. destruct (Z.leb_spec (lenZ lit) 18).
  - cbn [lzoStep ld_rest ld_out ld_state app]. rewrite b2z_z2b_small by lia.
    rewrite !(proj2 (Z.leb_gt _ _)) by lia. cbn [Z.eqb]. unfold readLength.
    rewrite (proj2 (Z.eqb_neq _ _)) by lia. cbn [mbind option_bind]. replace (3 + (lenZ lit - 3)) with (lenZ lit) by lia.
    unfold applyLiterals. by rewrite takeLiterals_app.
  - destruct (appendLZOMultiple_spec [x00] (lenZ lit - 18)) as (m & -> & Hm); [lia |].
    cbn [lzoStep ld_rest ld_out ld_state app]. change (b2z x00) with 0. cbn [Z.leb Z.compare Z.eqb]. unfold readLength.
    cbn [Z.eqb]. rewrite Hm. cbn [mbind option_bind]. replace (3 + 15 + (lenZ lit - 18)) with (lenZ lit) by lia.
    unfold applyLiterals. by rewrite takeLiterals_app.
Qed.

(** The stream so far decodes to [p]; after a match the number of literals that
    follow may still be written into it. *)
Definition openStream (o p : bytes) : Prop :=
  (o = [] ∧ p = []) ∨
  ∃ o' x y, o = o' ++ [x; y] ∧
    ∀ lits rest, lenZ lits ≤ 3 →
      decodesFrom (o' ++ [z2b (Z.lor (b2z x) (lenZ lits)); y] ++ lits ++ rest) (mkDecoder (lenZ lits) rest (p ++ lits)).

Definition settledStream (o p : bytes) : Prop := ∃ s, ∀ rest, decodesFrom (o ++ rest) (mkDecoder s rest p).

Lemma openStream_settled o p : openStream o p → o ≠ [] → ∀ rest, decodesFrom (o ++ rest) (mkDecoder 0 rest p).
Proof.
  intros [[-> _] | (o' & x & y & -> & Hd)] Hne rest; [done |]. specialize (Hd [] rest ltac:(done)).
  change (lenZ []) with 0 in Hd. rewrite Z.lor_0_r, z2b_b2z, app_nil_r in Hd. by rewrite <- app_assoc.
Qed.

Lemma appendLZOLiteral_spec o p lit :
  openStream o p → lit ≠ [] → ∃ o', appendLZOLiteral o lit = Some o' ∧ o' ≠ [] ∧ settledStream o' (p ++ lit).
Proof.
  intros Ho Hne. assert (Hl : 0 < lenZ lit) by (destruct lit; [done |]; golen).
  assert (Hrun : 4 ≤ lenZ lit → (o ≠ [] ∨ 238 < lenZ lit) → ∀ rest,
    decodesFrom (o ++ literalHeader (lenZ lit) ++ lit ++ rest) (mkDecoder 4 rest (p ++ lit))).
  { intros H4 Hor rest. eapply decodesFrom_step; [| by apply literal_run_step].
    destruct (decide (o = [])) as [-> | Hne0]; [| by apply openStream_settled].
    destruct Ho as [[_ ->] | (o' & x & y & H & _)]; [| by destruct o']. destruct Hor as [? | Hbig]; [done |].
    unfold literalHeader. rewrite (proj2 (Z.leb_gt _ _)) by lia.
    destruct (appendLZOMultiple_spec [x00] (lenZ lit - 18)) as (m & -> & _); [lia |]. eexists. split; [done |]. done. }
  unfold appendLZOLiteral. rewrite (proj2 (Z.eqb_neq _ _)) by lia.
  destruct ((lenZ o =? 0) && (lenZ lit <=? 238)) eqn:Hc.
  { apply andb_true_iff in Hc as [Hc%Z.eqb_eq Hc'%Z.leb_le]. assert (o = []) as -> by (destruct o; [done | golen]).
    destruct Ho as [[_ ->] | (o' & x & y & H & _)]; [| by destruct o'].
    eexists. split; [done |]. split; [done |].
    exists (if lenZ lit <? 4 then lenZ lit else 4). intros rest. eexists. split; [| done].
    cbn [lzoStart app]. rewrite b2z_z2b_small by lia. rewrite (proj2 (Z.ltb_lt _ _)) by lia.
    replace (17 + lenZ lit - 17) with (lenZ lit) by lia. unfold applyLiterals. rewrite takeLiterals_app. cbn.
    by destruct (lenZ lit <? 4). }
  destruct (Z.leb_spec (lenZ lit) 3) as [H3 | H3].
  - destruct Ho as [[-> _] | (o' & x & y & -> & Hd)]; [exfalso; revert Hc; cbn; destruct (Z.leb_spec (lenZ lit) 238); [done | lia] |].
    unfold orSecondLast. assert (Hlo : lenZ (o' ++ [x; y]) - 2 = lenZ o') by golen.
    assert (Hln : (length (o' ++ [x; y]) - 2 = length o' + 0)%nat) by golen.
    assert (Hix : index (o' ++ [x; y]) (lenZ o') = Some x).
    { unfold index. rewrite (proj2 (Z.ltb_ge _ _)) by golen. unfold lenZ. by rewrite Nat2Z.id, lookup_app_r, Nat.sub_diag by lia. }
    rewrite Hlo, Hix. cbn [mbind option_bind]. rewrite Hln, insert_app_r. cbn [insert list_insert].
    eexists. split; [done |]. split; [by destruct o' |]. exists (lenZ lit). intros rest. rewrite <- !app_assoc. by apply Hd.
  - assert (Hor : o ≠ [] ∨ 238 < lenZ lit).
    { destruct (decide (o = [])) as [-> | ?]; [right | by left]. revert Hc. cbn. destruct (Z.leb_spec (lenZ lit) 238); [done | lia]. }
    assert (Hhdr : (if lenZ lit <=? 18 then Some (o ++ [z2b (lenZ lit - 3)]) else Some (appendLZOMultiple (o ++ [x00]) (lenZ lit - 18)))
      = Some (o ++ literalHeader (lenZ lit))).
    { unfold literalHeader. destruct (lenZ lit <=? 18); [done |]. unfold appendLZOMultiple.
      rewrite appendMultipleLoop_acc, (appendMultipleLoop_acc _ [x00]). by rewrite <- app_assoc. }
    rewrite Hhdr. cbn [mbind option_bind]. eexists. split; [done |].
    split; [by intros [_ ?]%app_eq_nil | exists 4; intros rest; rewrite <- !app_assoc; apply Hrun; [lia | done]].
Qed.

(** *** Matches *)

(** The octets of a match, whose next to last one takes the number of literals. *)
Definition matchEncodes (bs : bytes) (n distance : Z) : Prop :=
  ∃ pre x y, bs = pre ++ [x; y] ∧ ∀ s out out' lits rest,
    copyMatch (Z.to_nat n) distance out = Some out' → lenZ lits ≤ 3 →
    lzoStep (mkDecoder s (pre ++ [z2b (Z.lor (b2z x) (lenZ lits)); y] ++ lits ++ rest) out) =
      Some (inl (mkDecoder (lenZ lits) rest (out' ++ lits))).

Lemma openStream_match o p p' bs n distance :
  settledStream o p → matchEncodes bs n distance → copyMatch (Z.to_nat n) distance p = Some p' → openStream (o ++ bs) p'.
Proof.
  intros [s Hs] (pre & x & y & -> & Hm) Hc. right. exists (o ++ pre), x, y. split; [by rewrite app_assoc |].
  intros lits rest Hl. eapply decodesFrom_step; [| apply (Hm s p p' lits rest Hc Hl)]. rewrite <- app_assoc. apply Hs.
Qed.

Lemma applyMatch_lits n distance lits rest out out' :
  copyMatch (Z.to_nat n) distance out = Some out' →
  applyMatch n distance (lenZ lits) (lits ++ rest) out = Some (mkDecoder (lenZ lits) rest (out' ++ lits)).
Proof. intros Hc. unfold applyMatch. rewrite Hc. cbn [mbind option_bind]. by rewrite takeLiterals_app. Qed.

(** Adding the number of literals to an octet whose low bits are clear. *)
Lemma lor_low a n : 0 ≤ n ≤ 3 → 0 ≤ a → Z.lor (4 * a) n = 4 * a + n.
Proof.
  intros Hn Ha. rewrite Z.lor_comm. replace (4 * a) with (Z.shiftl a 2) by (rewrite Z.shiftl_mul_pow2; lia).
  rewrite lor_shiftl_add by lia. rewrite Z.shiftl_mul_pow2 by lia. lia.
Qed.

Lemma readDistance_append o n rest :
  0 ≤ o → 0 ≤ n ≤ 3 →
  readDistance (z2b (Z.lor (b2z (z2b (Z.shiftl (Z.land o 63) 2))) n) :: z2b (Z.shiftr o 6) :: rest) =
    Some (o mod 16384, n, rest).
Proof.
  intros Ho Hn. change 63 with (Z.ones 6). rewrite Z.land_ones by lia. rewrite Z.shiftl_mul_pow2, Z.shiftr_div_pow2 by lia.
  change (2 ^ 6) with 64. change (2 ^ 2) with 4. pose proof (Z.mod_pos_bound o 64 ltac:(lia)) as Hm.
  rewrite (b2z_z2b_small (o mod 64 * 4)) by lia. rewrite (Z.mul_comm (o mod 64)), lor_low by lia.
  unfold readDistance. rewrite b2z_z2b_small by lia. rewrite b2z_z2b. rewrite Z.shiftr_div_pow2 by lia.
  change 3 with (Z.ones 2). rewrite Z.land_ones by lia. change (2 ^ 2) with 4.
  assert (Hdm : o mod 16384 = o mod 64 + 64 * ((o / 64) mod 256)) by (change 16384 with (64 * 256); apply Z.rem_mul_r; lia).
  rewrite Hdm. pose proof (Z.mod_pos_bound (o / 64) 256 ltac:(lia)).
  do 3 f_equal; Z.to_euclidean_division_equations; lia.
Qed.

Lemma short_M2 n off :
  3 ≤ n ≤ 8 → 1 ≤ off ≤ 2048 →
  matchEncodes [z2b (Z.lor (Z.shiftl (n - 1) 5) (Z.shiftl (Z.land (off - 1) 7) 2)); z2b (Z.shiftr (off - 1) 3)] n off.
Proof.
  intros Hn Ho. exists [], (z2b (Z.lor (Z.shiftl (n - 1) 5) (Z.shiftl (Z.land (off - 1) 7) 2))), (z2b (Z.shiftr (off - 1) 3)).
  split; [done |]. intros s out out' lits rest Hc Hl.
  change 7 with (Z.ones 3). rewrite Z.land_ones by lia. change (2 ^ 3) with 8. pose proof (Z.mod_pos_bound (off - 1) 8 ltac:(lia)) as Hm.
  rewrite (Z.lor_comm (Z.shiftl _ 5)), lor_shiftl_add by (rewrite ?Z.shiftl_mul_pow2; lia).
  rewrite Z.shiftl_mul_pow2, Z.shiftr_div_pow2 by lia. change (2 ^ 2) with 4. change (2 ^ 5) with 32. change (2 ^ 3) with 8.
  assert (Hl0 : 0 ≤ lenZ lits) by golen.
  rewrite (b2z_z2b_small (_ + _)) by lia. replace ((off - 1) mod 8 * 4 + (n - 1) * 32) with (4 * ((off - 1) mod 8 + (n - 1) * 8)) by lia.
  rewrite lor_low by lia. cbn [app lzoStep ld_rest ld_out]. rewrite (b2z_z2b_small (4 * _ + _)) by lia.
  rewrite (proj2 (Z.leb_le _ _)) by lia.
  rewrite b2z_z2b_small by (split; [apply Z.div_pos; lia | apply Z.div_lt_upper_bound; lia]).
  rewrite !Z.shiftr_div_pow2 by lia. change 3 with (Z.ones 2). change 7 with (Z.ones 3). rewrite !Z.land_ones by lia.
  change (2 ^ 2) with 4. change (2 ^ 3) with 8. change (2 ^ 5) with 32.
  replace ((4 * ((off - 1) mod 8 + (n - 1) * 8) + lenZ lits) / 32 + 1) with n by (Z.to_euclidean_division_equations; lia).
  replace ((4 * ((off - 1) mod 8 + (n - 1) * 8) + lenZ lits) mod 4) with (lenZ lits) by (Z.to_euclidean_division_equations; lia).
  replace (_ + _ + 1) with off by (Z.to_euclidean_division_equations; lia).
  by rewrite (applyMatch_lits n off lits rest out out').
Qed.

(** The first octet of an M3 instruction. *)
Lemma head_M3 v : 0 ≤ v ≤ 31 → b2z (z2b (Z.lor lzoMarkerM3 v)) = 32 + v ∧ Z.land (32 + v) 31 = v.
Proof.
  intros Hv. pose proof (by_cases (λ v, (b2z (z2b (Z.lor lzoMarkerM3 v)) =? 32 + v) && (Z.land (32 + v) 31 =? v)) 0 32 v
    ltac:(vm_compute; reflexivity) ltac:(lia)) as H.
  by apply andb_true_iff in H as [H1%Z.eqb_eq H2%Z.eqb_eq].
Qed.

(** The length field and what follows it. *)
Lemma length_M3 n off h ext :
  2 ≤ n → 1 ≤ off ≤ 16384 → 0 ≤ h ≤ 31 →
  (∀ rest, readLength h 31 2 (ext ++ rest) = Some (n, rest)) →
  matchEncodes (z2b (Z.lor lzoMarkerM3 h) :: ext ++ [z2b (Z.shiftl (Z.land (off - 1) 63) 2); z2b (Z.shiftr (off - 1) 6)]) n off.
Proof.
  intros Hn Ho Hh Hext. eexists (z2b (Z.lor lzoMarkerM3 h) :: ext), _, _. split; [done |]. intros s out out' lits rest Hc Hl.
  destruct (head_M3 h Hh) as [Hb Hand]. cbn [app lzoStep ld_rest ld_out]. rewrite Hb.
  rewrite (proj2 (Z.leb_gt _ _)) by lia. rewrite (proj2 (Z.leb_le _ _)) by lia. rewrite Hand, Hext. cbn [mbind option_bind app].
  rewrite readDistance_append by golen. cbn [mbind option_bind]. rewrite Z.mod_small by lia.
  replace (off - 1 + 1) with off by lia. by rewrite (applyMatch_lits n off lits rest out out').
Qed.

Definition highBit (o : Z) : Z := Z.shiftr (Z.land o 16384) 11.

Lemma highBit_spec o : 0 ≤ o < 32768 → (o < 16384 ∧ highBit o = 0) ∨ (16384 ≤ o ∧ highBit o = 8).
Proof.
  intros Ho. unfold highBit.
  assert (Hland : Z.land o 16384 = if Z.testbit o 14 then 16384 else 0).
  { change 16384 with (2 ^ 14). apply Z.bits_inj'. intros n Hn. rewrite Z.land_spec, Z.pow2_bits_eqb by lia.
    destruct (Z.eqb_spec 14 n) as [<- |].
    - destruct (Z.testbit o 14); cbn [andb]; [by rewrite Z.pow2_bits_true | by rewrite Z.bits_0].
    - rewrite andb_false_r. destruct (Z.testbit o 14); [rewrite Z.pow2_bits_false | rewrite Z.bits_0]; [done | lia | done]. }
  rewrite Hland. destruct (Z.testbit o 14) eqn:Hb.
  - right. split; [| done]. apply Z.testbit_true in Hb; [| lia]. change (2 ^ 14) with 16384 in Hb.
    Z.to_euclidean_division_equations; lia.
  - left. split; [| done]. apply Z.testbit_false in Hb; [| lia]. change (2 ^ 14) with 16384 in Hb.
    Z.to_euclidean_division_equations; lia.
Qed.

Lemma head_M4 hb v :
  hb = 0 ∨ hb = 8 → 0 ≤ v ≤ 7 →
  b2z (z2b (Z.lor (Z.lor lzoMarkerM4 hb) v)) = 16 + hb + v ∧ Z.land (16 + hb + v) 7 = v ∧ Z.land (16 + hb + v) 8 = hb.
Proof.
  intros Hhb Hv.
  set (P hb v := (b2z (z2b (Z.lor (Z.lor lzoMarkerM4 hb) v)) =? 16 + hb + v) && (Z.land (16 + hb + v) 7 =? v) && (Z.land (16 + hb + v) 8 =? hb)).
  assert (H : P hb v = true).
  { destruct Hhb as [-> | ->]; [apply (by_cases (P 0) 0 8) | apply (by_cases (P 8) 0 8)]; (vm_compute; reflexivity) || lia. }
  apply andb_true_iff in H as [[H1%Z.eqb_eq H2%Z.eqb_eq]%andb_true_iff H3%Z.eqb_eq]. done.
Qed.

Lemma length_M4 n off h ext :
  2 ≤ n → 16384 < off ≤ 49151 → 0 ≤ h ≤ 7 →
  (∀ rest, readLength h 7 2 (ext ++ rest) = Some (n, rest)) →
  matchEncodes (z2b (Z.lor (Z.lor lzoMarkerM4 (highBit (off - 16384))) h) ::
    ext ++ [z2b (Z.shiftl (Z.land (off - 16384) 63) 2); z2b (Z.shiftr (off - 16384) 6)]) n off.
Proof.
  intros Hn Ho Hh Hext. eexists (z2b (Z.lor (Z.lor lzoMarkerM4 (highBit (off - 16384))) h) :: ext), _, _. split; [done |].
  intros s out out' lits rest Hc Hl. pose proof (highBit_spec (off - 16384) ltac:(lia)) as Hhb.
  destruct (head_M4 (highBit (off - 16384)) h ltac:(tauto) Hh) as (Hb & Hand & Hand8). cbn [app lzoStep ld_rest ld_out]. rewrite Hb.
  rewrite !(proj2 (Z.leb_gt _ _)) by lia. rewrite (proj2 (Z.leb_le _ _)) by lia.
  rewrite Hand, Hand8, Hext. cbn [mbind option_bind app].
  rewrite readDistance_append by golen. cbn [mbind option_bind].
  assert (Hd : 16384 + 2048 * highBit (off - 16384) + (off - 16384) mod 16384 = off).
  { destruct Hhb as [[Hlt ->] | [Hge ->]]; [rewrite Z.mod_small by lia; lia |]. Z.to_euclidean_division_equations; lia. }
  rewrite Hd, (proj2 (Z.eqb_neq off 16384)) by lia. by rewrite (applyMatch_lits n off lits rest out out').
Qed.

Lemma appendShortMatch_spec o off n :
  3 ≤ n ≤ 8 → 1 ≤ off ≤ lzoMaxOffsetM4 → ∃ bs, appendShortMatch o off n = o ++ bs ∧ matchEncodes bs n off.
Proof.
  unfold appendShortMatch, lzoMaxOffsetM2, lzoMaxOffsetM3, lzoMaxOffsetM4. intros Hn Ho.
  destruct (Z.leb_spec off 2048); [eexists; split; [done | apply short_M2; lia] |].
  assert (Hfield : ∀ limit rest, readLength (n - 2) limit 2 ([] ++ rest) = Some (n, rest)).
  { intros limit rest. unfold readLength. rewrite (proj2 (Z.eqb_neq _ _)) by lia. cbn. do 2 f_equal. lia. }
  destruct (Z.leb_spec off 16384); eexists; (split; [done |]).
  - apply (length_M3 n off (n - 2) []); [lia | lia | lia | apply Hfield].
  - apply (length_M4 n off (n - 2) []); [lia | lia | lia | apply Hfield].
Qed.

(** A length that may need more octets than its field. *)
Lemma length_field o b0 limit n (b1 : Z → byte) :
  2 < n → b0 = b1 0 →
  let o' := if n <=? limit + 2 then o ++ [b1 (n - 2)] else appendLZOMultiple (o ++ [b0]) (n - (limit + 2)) in
  ∃ h ext, o' = o ++ b1 h :: ext ∧ 0 ≤ h ≤ Z.max 0 limit ∧ ∀ rest, readLength h limit 2 (ext ++ rest) = Some (n, rest).
Proof.
  intros Hn Hb. cbv zeta. unfold readLength. destruct (Z.leb_spec n (limit + 2)).
  - exists (n - 2), []. split_and!; [done | lia | lia |]. intros rest. rewrite (proj2 (Z.eqb_neq _ _)) by lia. cbn. do 2 f_equal. lia.
  - destruct (appendLZOMultiple_spec (o ++ [b0]) (n - (limit + 2))) as (m & -> & Hm); [lia |].
    exists 0, m. split_and!; [rewrite <- app_assoc, Hb; done | lia | lia |]. intros rest. cbn [Z.eqb]. rewrite Hm. cbn. do 2 f_equal. lia.
Qed.

Lemma appendLongMatch_spec o off n :
  9 ≤ n → 1 ≤ off ≤ lzoMaxOffsetM4 → ∃ bs, appendLongMatch o off n = o ++ bs ∧ matchEncodes bs n off.
Proof.
  unfold appendLongMatch, lzoMaxOffsetM3, lzoMaxOffsetM4, lzoMaxLengthM4. intros Hn Ho.
  destruct (Z.leb_spec off 16384).
  - destruct (length_field o (z2b lzoMarkerM3) 31 n (λ h, z2b (Z.lor lzoMarkerM3 h))) as (h & ext & He & Hh & Hr); [lia | done |].
    cbn [Z.add] in He. change (31 + 2) with 33 in He. rewrite He. eexists. split; [by rewrite <- app_assoc |].
    apply length_M3; [lia | lia | lia | done].
  - fold (highBit (off - 16384)).
    destruct (length_field o (z2b (Z.lor lzoMarkerM4 (highBit (off - 16384)))) 7 n
      (λ h, z2b (Z.lor (Z.lor lzoMarkerM4 (highBit (off - 16384))) h))) as (h & ext & He & Hh & Hr); [lia | by rewrite Z.lor_0_r |].
    change (7 + 2) with 9 in He. rewrite He. eexists. split; [by rewrite <- app_assoc |].
    apply length_M4; [lia | lia | lia | done].
Qed.

(** *** Copies of the input *)

Section Input.
Context (input : bytes).

(** The [n] octets from [i] and from [j] agree. *)
Definition agree (i j n : Z) : Prop := ∀ k, 0 ≤ k < n → index input (i + k) = index input (j + k).

Lemma copyMatch_input n p d :
  1 ≤ d ≤ p → p + Z.of_nat n ≤ lenZ input → agree (p - d) p (Z.of_nat n) →
  copyMatch n d (take (Z.to_nat p) input) = Some (take (Z.to_nat (p + Z.of_nat n)) input).
Proof.
  revert p. induction n as [| n IH]; intros p Hd Hp Ha; cbn [copyMatch]; [by rewrite Z.add_0_r |].
  assert (Hl : lenZ (take (Z.to_nat p) input) = p) by golen. rewrite Hl.
  pose proof (Ha 0 ltac:(lia)) as H0. rewrite !Z.add_0_r in H0.
  destruct (index_Some input p ltac:(lia)) as (b & Hb & Hlk). rewrite Hb in H0.
  assert (Hix : index (take (Z.to_nat p) input) (p - d) = Some b).
  { unfold index in H0 |- *. destruct (p - d <? 0); [done |]. rewrite lookup_take_lt by lia. done. }
  rewrite Hix. cbn [mbind option_bind]. rewrite <- (take_S_r input (Z.to_nat p) b Hlk).
  replace (S (Z.to_nat p)) with (Z.to_nat (p + 1)) by lia. rewrite IH; [do 2 f_equal; lia | lia | lia |].
  intros k Hk. specialize (Ha (k + 1) ltac:(lia)).
  replace (p + 1 - d + k) with (p - d + (k + 1)) by lia. by replace (p + 1 + k) with (p + (k + 1)) by lia.
Qed.

Lemma sameAt_spec i j :
  0 ≤ i < lenZ input → 0 ≤ j < lenZ input →
  ∃ b, sameAt input i j = Some b ∧ (b = true → index input i = index input j).
Proof.
  intros Hi Hj. destruct (index_Some input i Hi) as (x & Hx & _), (index_Some input j Hj) as (y & Hy & _).
  unfold sameAt. rewrite Hx, Hy. cbn. eexists. split; [done |]. intros ->%bool_decide_eq_true. done.
Qed.

Lemma agree_snoc i j n : agree i j n → index input (i + n) = index input (j + n) → agree i j (n + 1).
Proof. intros Ha Hn k Hk. destruct (decide (k = n)) as [-> | ?]; [done | apply Ha; lia]. Qed.

Lemma shortMatchLoop_spec fuel mp n start :
  0 ≤ mp < start → start + 9 ≤ lenZ input → 3 ≤ n ≤ 9 → Z.of_nat fuel = 9 - n → agree mp start n →
  ∃ n' pos, shortMatchLoop fuel input mp n (start + n) = Some (n', pos) ∧ 3 ≤ n' ≤ 9 ∧ agree mp start n' ∧
    pos = start + n' + (if n' <? 9 then 1 else 0).
Proof.
  intros Hmp Hs. revert n. induction fuel as [| fuel IH]; intros n Hn Hf Ha; cbn [shortMatchLoop].
  - exists n, (start + n). replace n with 9 in * by lia. split_and!; [done | lia | lia | done | cbn; lia].
  - destruct (Z.ltb_spec n 9); [| lia]. replace (start + n + 1 - 1) with (start + n) by lia.
    destruct (sameAt_spec (mp + n) (start + n)) as (b & -> & Hb); [lia | lia |]. cbn [mbind option_bind]. destruct b.
    + replace (start + n + 1) with (start + (n + 1)) by lia. apply IH; [lia | lia |]. apply agree_snoc; [done | by apply Hb].
    + exists n, (start + n + 1). rewrite (proj2 (Z.ltb_lt _ _)) by lia. split_and!; [done | lia | lia | done | done].
Qed.

Lemma longMatchLoop_spec fuel mp n start :
  0 ≤ mp < start → 0 ≤ n → start + n ≤ lenZ input → agree mp start n →
  ∃ n', longMatchLoop fuel input (mp + n) (start + n) = Some (start + n') ∧ n ≤ n' ∧ start + n' ≤ lenZ input ∧ agree mp start n'.
Proof.
  intros Hmp. revert n. induction fuel as [| fuel IH]; intros n Hn Hs Ha; cbn [longMatchLoop].
  - exists n. split_and!; [done | lia | lia | done].
  - destruct (Z.ltb_spec (start + n) (lenZ input)); [| exists n; split_and!; [done | lia | lia | done]].
    destruct (sameAt_spec (mp + n) (start + n)) as (b & -> & Hb); [lia | lia |]. cbn [mbind option_bind]. destruct b.
    + replace (mp + n + 1) with (mp + (n + 1)) by lia. replace (start + n + 1) with (start + (n + 1)) by lia.
      destruct (IH (n + 1)) as (n' & -> & ? & ? & ?); [lia | lia | apply agree_snoc; [done | by apply Hb] |].
      exists n'. split_and!; [done | lia | lia | done].
    + exists n. split_and!; [done | lia | lia | done].
Qed.

(** *** The compressor *)

Record lzo_inv (s : lzoState) : Prop := {
  inv_literal : 0 ≤ lz_literalStart s ≤ lz_inputPosition s ∧ lz_literalStart s ≤ lenZ input;
  inv_position : 4 ≤ lz_inputPosition s;
  inv_dictionary : lenZ (lz_dictionary s) = 16384 ∧ Forall (λ e, 0 ≤ e ≤ lz_inputPosition s) (lz_dictionary s);
  inv_stream : openStream (lz_output s) (take (Z.to_nat (lz_literalStart s)) input);
  inv_first : lz_output s = [] → lz_literalStart s = 0;
}.

Lemma findLZOCandidate_spec s i :
  lzo_inv s → 0 ≤ i < 16384 → lz_inputPosition s + 9 ≤ lenZ input →
  ∃ mp off, findLZOCandidate (lz_dictionary s) input (lz_inputPosition s) i = Some (mp, off) ∧
    (0 ≤ mp → mp < lz_inputPosition s ∧ off = lz_inputPosition s - mp ∧ off ≤ lzoMaxOffsetM4).
Proof.
  intros [Hlit Hpos [Hdl Hd] _ _] Hi Hn. unfold findLZOCandidate.
  destruct (index_Some (lz_dictionary s) i ltac:(lia)) as (e & -> & He). cbn [mbind option_bind].
  assert (He' : 0 ≤ e ≤ lz_inputPosition s) by (rewrite Forall_forall in Hd; apply Hd, list_elem_of_lookup; eauto).
  destruct (Z.ltb_spec (e - 1) 0); cbn [orb]; [exists (-1), 0; split; [done | lia] |].
  destruct (Z.eqb_spec (lz_inputPosition s) (e - 1)); cbn [orb]; [lia |].
  destruct (Z.ltb_spec lzoMaxOffsetM4 (lz_inputPosition s - (e - 1))); cbn [orb]; [exists (-1), 0; split; [done | lia] |].
  destruct (_ <=? lzoMaxOffsetM2); [eexists _, _; split; [done |]; intros _; split_and!; lia |].
  destruct (index_Some input (e - 1 + 3)) as (a & -> & _); [lia |].
  destruct (index_Some input (lz_inputPosition s + 3)) as (b & -> & _); [lia |]. cbn [mbind option_bind].
  destruct (decide (a = b)); eexists _, _; (split; [done |]); [intros _; split_and!; lia | lia].
Qed.

Lemma dictionary_insert (d : list Z) i pos pos' :
  lenZ d = 16384 ∧ Forall (λ e, 0 ≤ e ≤ pos) d → 0 ≤ pos → pos < pos' →
  lenZ (<[i := pos + 1]> d) = 16384 ∧ Forall (λ e, 0 ≤ e ≤ pos') (<[i := pos + 1]> d).
Proof.
  intros [Hl Hd] Hp Hlt. split; [golen |]. apply Forall_insert; [| lia]. eapply Forall_impl; [exact Hd |]. cbn. intros; lia.
Qed.

(** The literals before a match are flushed: the stream is ready for the match. *)
Lemma flush_literals s :
  lzo_inv s → lz_inputPosition s ≤ lenZ input →
  ∃ o, (if lz_inputPosition s =? lz_literalStart s then Some (lz_output s)
        else appendLZOLiteral (lz_output s) (slice (Z.to_nat (lz_literalStart s)) (Z.to_nat (lz_inputPosition s)) input)) = Some o ∧
    o ≠ [] ∧ settledStream o (take (Z.to_nat (lz_inputPosition s)) input).
Proof.
  intros [Hlit Hpos _ Hopen Hfirst] Hn. destruct (Z.eqb_spec (lz_inputPosition s) (lz_literalStart s)) as [E0 | Hne].
  - rewrite E0 in *. eexists. split; [done |]. assert (lz_output s ≠ []) by (intros E; specialize (Hfirst E); lia).
    split; [done |]. exists 0. by apply openStream_settled.
  - set (lit := slice _ _ input).
    assert (Hl : lenZ lit = lz_inputPosition s - lz_literalStart s) by (unfold lit, slice; golen).
    destruct (appendLZOLiteral_spec _ _ lit Hopen) as (o & -> & Hne' & Hs); [intros E; rewrite E in Hl; change (lenZ ([] : bytes)) with 0 in Hl; lia |].
    eexists. split; [done |]. split; [done |].
    replace (take (Z.to_nat (lz_inputPosition s)) input) with (take (Z.to_nat (lz_literalStart s)) input ++ lit); [done |].
    unfold lit, slice. rewrite take_take_drop. f_equal. lia.
Qed.

Lemma emitMatch_spec s i mp off :
  lzo_inv s → lz_inputPosition s + 9 ≤ lenZ input →
  0 ≤ mp < lz_inputPosition s → off = lz_inputPosition s - mp → off ≤ lzoMaxOffsetM4 → agree mp (lz_inputPosition s) 3 →
  ∃ s', emitMatch input s i mp off = Some s' ∧ lzo_inv s' ∧ lz_inputPosition s < lz_inputPosition s' .
Proof.
  intros Hinv Hn Hmp Hoff Hmax Ha. destruct (flush_literals s Hinv ltac:(lia)) as (o & Ho & Hne & Hset).
  destruct Hinv as [Hlit Hpos Hd _ _]. set (start := lz_inputPosition s) in *. unfold emitMatch. fold start. rewrite Ho. cbn [mbind option_bind].
  destruct (shortMatchLoop_spec 6 mp 3 start Hmp Hn ltac:(lia) ltac:(lia) Ha) as (n & pos & -> & Hn39 & Hag & Hposn).
  cbn [mbind option_bind].
  assert (Hfin : ∀ n' bs dict, agree mp start n' → 3 ≤ n' → start + n' ≤ lenZ input → matchEncodes bs n' off →
    lenZ dict = 16384 ∧ Forall (λ e, 0 ≤ e ≤ start + n') dict →
    lzo_inv (mkLzo dict (o ++ bs) (start + n') (start + n'))).
  { intros n' bs dict Hagn Hn' Hlen Hm Hdict. split; cbn [lz_dictionary lz_output lz_literalStart lz_inputPosition]; [lia | lia | done | |].
    - eapply openStream_match; [exact Hset | exact Hm |]. rewrite copyMatch_input; [do 2 f_equal; lia | lia | lia |].
      rewrite Z2Nat.id by lia. by replace (start - off) with mp by lia.
    - intros [E _]%app_eq_nil. done. }
  destruct (Z.ltb_spec n 9) as [Hlt | Hge].
  - replace (pos - 1) with (start + n) by lia. replace (start + n - start) with n by lia.
    destruct (appendShortMatch_spec o off n) as (bs & -> & Hm); [lia | lia |].
    eexists. split; [done |]. split; [| cbn; lia]. apply Hfin; [done | lia | lia | done |]. apply dictionary_insert; [done | lia | lia].
  - unfold lzoMaxLengthM2. replace pos with (start + 9) by lia. replace n with 9 in * by lia.
    destruct (longMatchLoop_spec (length input) mp 9 start Hmp ltac:(lia) ltac:(lia) Hag) as (n' & Hl & H9 & Hlen & Hag').
    change (8 + 1) with 9. rewrite Hl. cbn [mbind option_bind]. replace (start + n' - start) with n' by lia.
    destruct (appendLongMatch_spec o off n') as (bs & -> & Hm); [lia | lia |].
    eexists. split; [done |]. split; [| cbn; lia]. apply Hfin; [done | lia | lia | done |]. apply dictionary_insert; [done | lia | lia].
Qed.

Lemma attemptMatch_spec s i :
  lzo_inv s → 0 ≤ i < 16384 → lz_inputPosition s + 9 ≤ lenZ input →
  ∃ r, attemptMatch input s i = Some r ∧
    match r with Some s' => lzo_inv s' ∧ lz_inputPosition s < lz_inputPosition s' | None => True end.
Proof.
  intros Hinv Hi Hn. unfold attemptMatch.
  destruct (findLZOCandidate_spec s i Hinv Hi Hn) as (mp & off & -> & Hmp). cbn [mbind option_bind].
  pose proof (inv_position s Hinv) as Hpos. set (pos := lz_inputPosition s) in *.
  destruct (Z.leb_spec 0 mp) as [Hmp0 | Hneg]; [| by exists None]. specialize (Hmp Hmp0) as (Hlt & Hoff & Hmax).
  assert (Htry : ∃ b, (if off <=? lzoMaxOffsetM2 then Some true else sameAt input (mp + 3) (pos + 3)) = Some b).
  { destruct (off <=? lzoMaxOffsetM2); [eauto |]. destruct (sameAt_spec (mp + 3) (pos + 3)) as (b & -> & _); [lia | lia | eauto]. }
  destruct Htry as [b ->]. cbn [mbind option_bind andThen]. destruct b; [| by exists None].
  destruct (sameAt_spec mp pos) as (b0 & -> & H0); [lia | lia |].
  destruct (sameAt_spec (mp + 1) (pos + 1)) as (b1 & -> & H1); [lia | lia |].
  destruct (sameAt_spec (mp + 2) (pos + 2)) as (b2 & -> & H2); [lia | lia |]. cbn [andThen].
  destruct b0; [| by exists None]. destruct b1; [| by exists None]. cbn [andThen mbind option_bind]. destruct b2; [| by exists None].
  assert (Ha : agree mp pos 3).
  { intros k Hk. assert (k = 0 ∨ k = 1 ∨ k = 2) as [-> | [-> | ->]] by lia; rewrite ?Z.add_0_r; auto. }
  destruct (emitMatch_spec s i mp off Hinv Hn) as (s' & -> & Hinv' & Hgt); [lia | done | done | done |].
  eexists. split; [done |]. done.
Qed.

Lemma dictionaryKey_spec pos : 0 ≤ pos → pos + 9 ≤ lenZ input → ∃ i, dictionaryKey input pos = Some i ∧ 0 ≤ i < 16384.
Proof.
  intros Hp Hn. unfold dictionaryKey.
  destruct (index_Some input (pos + 3)) as (a & -> & _); [lia |]. destruct (index_Some input (pos + 2)) as (b & -> & _); [lia |].
  destruct (index_Some input (pos + 1)) as (c & -> & _); [lia |]. destruct (index_Some input pos) as (d & -> & _); [lia |].
  cbn [mbind option_bind]. eexists. split; [done |]. change lzoDictMask with (Z.ones 14). rewrite Z.land_ones by lia.
  apply Z.mod_pos_bound. done.
Qed.

Lemma secondIndex_range i : 0 ≤ secondIndex i < 16384.
Proof.
  unfold secondIndex. change (Z.land lzoDictMask 2047) with (Z.ones 11). change (Z.lor lzoDictHigh 31) with 8223.
  rewrite Z.land_ones by lia. pose proof (Z.mod_pos_bound i (2 ^ 11) ltac:(lia)) as Hm.
  split; [apply Z.lxor_nonneg; lia |]. destruct (decide (Z.lxor (i mod 2 ^ 11) 8223 = 0)) as [-> | Hne]; [lia |].
  assert (0 ≤ Z.lxor (i mod 2 ^ 11) 8223) by (apply Z.lxor_nonneg; lia).
  change 16384 with (2 ^ 14). apply Z.log2_lt_pow2; [lia |].
  pose proof (Z.log2_lxor (i mod 2 ^ 11) 8223 ltac:(lia) ltac:(lia)) as Hlog.
  assert (Z.log2 (i mod 2 ^ 11) ≤ Z.log2 2047) by (apply Z.log2_le_mono; lia).
  change (Z.log2 2047) with 10 in *. change (Z.log2 8223) with 13 in *. lia.
Qed.

Lemma lzoRound_spec s :
  lzo_inv s → lz_inputPosition s + 9 ≤ lenZ input →
  ∃ s', lzoRound input s = Some s' ∧ lzo_inv s' ∧ lz_inputPosition s < lz_inputPosition s'.
Proof.
  intros Hinv Hn. pose proof (inv_position s Hinv) as Hpos. unfold lzoRound.
  destruct (dictionaryKey_spec (lz_inputPosition s) ltac:(lia) Hn) as (i & -> & Hi). cbn [mbind option_bind].
  destruct (attemptMatch_spec s i Hinv Hi Hn) as (r1 & -> & H1). cbn [mbind option_bind]. destruct r1 as [s1 |]; [eauto |].
  destruct (attemptMatch_spec s (secondIndex i) Hinv (secondIndex_range i) Hn) as (r2 & -> & H2). cbn [mbind option_bind].
  destruct r2 as [s2 |]; [eauto |]. destruct Hinv as [Hlit _ Hd Hopen Hfirst].
  assert (Hsh : 0 ≤ Z.shiftr (lz_inputPosition s - lz_literalStart s) 5) by (apply Z.shiftr_nonneg; lia).
  eexists. split; [done |]. split; [split; cbn [lz_dictionary lz_output lz_literalStart lz_inputPosition] | cbn; lia];
    [lia | lia | apply dictionary_insert; [done | lia | lia] | done | done].
Qed.

Lemma lzoLoop_spec fuel s :
  lzo_inv s → lz_inputPosition s + 9 ≤ lenZ input → lenZ input - 13 - lz_inputPosition s < Z.of_nat fuel → (0 < fuel)%nat →
  ∃ s', lzoLoop fuel input (lenZ input - lzoMaxLengthM2 - 5) s = Some s' ∧ lzo_inv s'.
Proof.
  revert s. induction fuel as [| fuel IH]; intros s Hinv Hn Hf Hpos; [lia |]. cbn [lzoLoop].
  destruct (lzoRound_spec s Hinv Hn) as (s' & -> & Hinv' & Hlt). cbn [mbind option_bind].
  unfold lzoMaxLengthM2 in *. destruct (Z.leb_spec (lenZ input - 8 - 5) (lz_inputPosition s')); [eauto |].
  apply IH; [done | lia | lia | lia].
Qed.
End Input.

(** ** Properties *)

(** The marker that ends a stream, in every state. *)
Lemma end_step s out : lzoStep (mkDecoder s [z2b (Z.lor lzoMarkerM4 1); x00; x00] out) = Some (inr out).
Proof. done. Qed.

Lemma initial_inv input : lzo_inv input (mkLzo (replicate (Z.to_nat (Z.shiftl 1 lzoDictBits)) 0) [] 0 4).
Proof.
  split; cbn [lz_dictionary lz_output lz_literalStart lz_inputPosition]; [golen | lia | | by left | done].
  change (Z.shiftl 1 lzoDictBits) with 16384. split; [golen |]. apply Forall_replicate. lia.
Qed.

(** What is left of the input when the matching is over. *)
Lemma core_spec input :
  13 < lenZ input →
  ∃ o lit, compressLZOBlockCore input = Some (o, lenZ input - lit) ∧ 0 ≤ lit ≤ lenZ input ∧
    openStream o (take (Z.to_nat lit) input) ∧ (o = [] → lit = 0).
Proof.
  intros Hn. unfold compressLZOBlockCore.
  destruct (lzoLoop_spec input (length input) _ (initial_inv input)) as (s & -> & [Hlit _ _ Hopen Hfirst]);
    [cbn; lia | cbn; golen | golen |].
  cbn [mbind option_bind]. exists (lz_output s), (lz_literalStart s). split_and!; [done | lia | lia | done | done].
Qed.

(** Compression returns a stream that decodes to the input. *)
Lemma lzo_decodable input : ∃ compressed, compressLZOBlock input = Some compressed ∧ lzo1xDecode compressed = Some input.
Proof.
  assert (Hcore : ∃ o lit, (if lzoMaxLengthM2 + 5 <? lenZ input then compressLZOBlockCore input else Some ([], lenZ input)) =
      Some (o, lenZ input - lit) ∧ 0 ≤ lit ≤ lenZ input ∧ openStream o (take (Z.to_nat lit) input) ∧ (o = [] → lit = 0)).
  { unfold lzoMaxLengthM2. destruct (Z.ltb_spec (8 + 5) (lenZ input)); [by apply core_spec |].
    exists [], 0. rewrite Z.sub_0_r. split_and!; [done | lia | golen | by left | done]. }
  destruct Hcore as (o & lit & Hc & Hlit & Hopen & Hfirst). unfold compressLZOBlock. rewrite Hc. cbn [mbind option_bind].
  destruct (Z.ltb_spec 0 (lenZ input - lit)) as [Htail | Hnone].
  - replace (lenZ input - (lenZ input - lit)) with lit by lia.
    destruct (appendLZOLiteral_spec o _ (drop (Z.to_nat lit) input) Hopen) as (o' & -> & _ & s & Hs).
    { intros E. apply (f_equal length) in E. golen. }
    cbn [mbind option_bind]. eexists. split; [done |]. rewrite take_drop in Hs. by eapply decodesFrom_end; [apply Hs | apply end_step].
  - cbn [mbind option_bind]. eexists. split; [done |]. replace lit with (lenZ input) in * by lia.
    rewrite take_ge in Hopen by golen. destruct (decide (o = [])) as [-> | Hne].
    + destruct input; [done |]. specialize (Hfirst eq_refl). golen.
    + eapply decodesFrom_end; [by apply openStream_settled | apply end_step].
Qed.

(** C17: compression never indexes out of range, always returns, and its output is
    an LZO1X stream that decodes to the input, for every input. *)
Theorem lzo_roundtrip input : (compressLZOBlock input ≫= lzo1xDecode) = Some input.
Proof. destruct (lzo_decodable input) as (c & -> & Hc). exact Hc. Qed.
