(* ===== verification/Compression.v ===== *)
(** * Compression and framing ([compression_options.go], [allow_compression.go],
      [data_channel_compression.go], [data_channel_framing.go])

    The compression settings that directives build up, the compression frames of
    the data channel, and the framing that puts them together with
    fragmentation.  The decompressors of the LZO and LZ4 libraries are
    parameters. *)

From S2P Require Import Prelude GoStrings Fragment Lzo.

(** ** Settings *)

Inductive compressionAlgorithm :=
| compressionAlgorithmNone | compressionAlgorithmStub | compressionAlgorithmLZO
| compressionAlgorithmLZ4 | compressionAlgorithmStubV2 | compressionAlgorithmLZ4V2.

#[export] Instance compressionAlgorithm_eq_dec : EqDecision compressionAlgorithm.
Proof. solve_decision. Defined.

Record compressionSettings := mkCompression {
  cs_algorithm : compressionAlgorithm;
  cs_swap : bool;
  cs_adaptive : bool;
  cs_asymmetric : bool;
}.

(** The zero value. *)
Definition noCompression : compressionSettings := mkCompression compressionAlgorithmNone false false false.

Record compressionDirective := mkDirective { cd_Name : string; cd_Value : string }.

Definition ErrCompressionNotSupported : goerr := ErrNew "unsupported compression option".

(** [settings.apply]: the error leaves the settings as far as they were changed. *)
Definition apply (settings : compressionSettings) (directive : compressionDirective) : result unit * compressionSettings :=
  let '(mkCompression algorithm swap adaptive asymmetric) := settings in
  let value := cd_Value directive in
  if decide (cd_Name directive = "compress") then
    if decide (value = EmptyString ∨ value = "stub") then (Ok (), mkCompression compressionAlgorithmStub true adaptive asymmetric) else
    if decide (value = "stub-v2") then (Ok (), mkCompression compressionAlgorithmStubV2 swap adaptive asymmetric) else
    if decide (value = "lzo") then (Ok (), mkCompression compressionAlgorithmLZO false false asymmetric) else
    if decide (value = "lz4") then (Ok (), mkCompression compressionAlgorithmLZ4 true adaptive asymmetric) else
    if decide (value = "lz4-v2") then (Ok (), mkCompression compressionAlgorithmLZ4V2 swap adaptive asymmetric) else
    if decide (value ∈ ["migrate"; "none"; "no"; "disabled"; "off"]) then (Ok (), noCompression) else
    (Err (ErrExtend ErrCompressionNotSupported (cd_Name directive +:+ " " +:+ value)), settings)
  else if decide (cd_Name directive = "comp-lzo") then
    if decide (value = EmptyString ∨ value = "adaptive") then (Ok (), mkCompression compressionAlgorithmLZO false true false) else
    if decide (value = "yes") then (Ok (), mkCompression compressionAlgorithmLZO false false false) else
    if decide (value = "asym") then (Ok (), mkCompression compressionAlgorithmLZO false false true) else
    if decide (value = "no") then (Ok (), mkCompression compressionAlgorithmStub false false asymmetric) else
    if decide (value ∈ ["none"; "disabled"; "off"]) then (Ok (), noCompression) else
    (Err (ErrExtend ErrCompressionNotSupported (cd_Name directive +:+ " " +:+ value)),
     mkCompression algorithm false adaptive asymmetric)
  else (Err (ErrExtend ErrCompressionNotSupported (cd_Name directive)), settings).

Definition framingEnabled (settings : compressionSettings) : bool :=
  negb (bool_decide (cs_algorithm settings = compressionAlgorithmNone)).

Definition nonStubEnabled (settings : compressionSettings) : bool :=
  match cs_algorithm settings with
  | compressionAlgorithmLZO | compressionAlgorithmLZ4 | compressionAlgorithmLZ4V2 => true
  | _ => false
  end.

Definition framingOverhead (settings : compressionSettings) : Z :=
  match cs_algorithm settings with
  | compressionAlgorithmStub | compressionAlgorithmLZO | compressionAlgorithmLZ4 => 1
  | _ => 0
  end.

Inductive allowCompressionPolicy := allowCompressionStubOnly | allowCompressionAsymmetric | allowCompressionYes.

#[export] Instance allowCompressionPolicy_eq_dec : EqDecision allowCompressionPolicy.
Proof. solve_decision. Defined.

Definition ErrInvalidAllowCompression : goerr := ErrNew "invalid allow-compression value".
Definition ErrAllowCompressionConflict : goerr :=
  ErrNew "allow-compression no conflicts with statically enabled compression".

Definition parseAllowCompressionPolicy (value : string) : result allowCompressionPolicy :=
  if decide (value = EmptyString ∨ value = "no") then Ok allowCompressionStubOnly else
  if decide (value = "asym") then Ok allowCompressionAsymmetric else
  if decide (value = "yes") then Ok allowCompressionYes else Err ErrInvalidAllowCompression.

Definition resolveEffectiveAllowCompressionPolicy (allowCompression : string) (settings : compressionSettings)
    : result allowCompressionPolicy :=
  if decide (allowCompression = EmptyString)
  then Ok (if nonStubEnabled settings then allowCompressionAsymmetric else allowCompressionStubOnly) else
  policy ← parseAllowCompressionPolicy allowCompression;
  if bool_decide (policy = allowCompressionStubOnly) && nonStubEnabled settings
  then Err ErrAllowCompressionConflict else Ok policy.

Definition compressesOutbound (settings : compressionSettings) (allowCompression : allowCompressionPolicy) : bool :=
  bool_decide (cs_algorithm settings = compressionAlgorithmLZO) && negb (cs_asymmetric settings) &&
  bool_decide (allowCompression = allowCompressionYes).

Definition resolveCompressionSettings (compression compressionLZO : string) : result compressionSettings :=
  let applyTrimmed (name value : string) (settings : compressionSettings) : result compressionSettings :=
    if decide (TrimSpace value = EmptyString) then Ok settings else
    let '(r, settings) := apply settings (mkDirective name (TrimSpace value)) in _ ← r; Ok settings in
  settings ← applyTrimmed "compress" compression noCompression;
  applyTrimmed "comp-lzo" compressionLZO settings.

(** ** Frames *)

Definition openVPNLZOCompressByte : byte := x66.
Definition openVPNLZ4CompressByte : byte := x69.
Definition openVPNNoCompressByte : byte := xfa.
Definition openVPNNoCompressByteSwap : byte := xfb.
Definition openVPNCompressV2IndicatorByte : byte := x50.
Definition openVPNCompressV2SubTypeNone : byte := x00.
Definition openVPNCompressV2SubTypeLZ4 : byte := x01.
Definition openVPNLZOMaxDecompressedSize : Z := 65536.
Definition openVPNLZ4MaxDecompressedSize : Z := 65536.
Definition openVPNCompressionThreshold : Z := 100.
Definition openVPNLZOAdaptiveSampleDuration : Z := 2 * Second.
Definition openVPNLZOAdaptiveOffDuration : Z := 60 * Second.
Definition openVPNLZOAdaptiveMinimumBytes : Z := 1000.
Definition openVPNLZOAdaptiveSavePercent : Z := 5.

Definition applyStubCompressionFrame (payload : bytes) (swap : bool) : bytes :=
  if negb swap then openVPNNoCompressByte :: payload else
  match payload with
  | [] => [openVPNNoCompressByteSwap]
  | head :: tail => openVPNNoCompressByteSwap :: tail ++ [head]
  end.

(** The last octet goes back to the front. *)
Definition unswapV1FrameHead (framedPayload : bytes) : bytes :=
  if bool_decide (length framedPayload ≤ 1)%nat then [] else
  let payloadLength := (length framedPayload - 1)%nat in
  default x00 (framedPayload !! payloadLength) :: slice 1 payloadLength framedPayload.

Definition unframeStubCompression (framedPayload : bytes) (swap : bool) : result bytes :=
  match framedPayload with
  | [] => Err (ErrNew "missing compression marker")
  | marker :: rest =>
      if negb swap then
        if decide (marker = openVPNNoCompressByte) then Ok rest else Err (ErrNew "invalid compression stub marker")
      else
        if decide (marker = openVPNNoCompressByteSwap) then Ok (unswapV1FrameHead framedPayload)
        else Err (ErrNew "invalid compression stub marker")
  end.

Definition escapeV2StubCompression (payload : bytes) : bytes :=
  if decide (head payload = Some openVPNCompressV2IndicatorByte)
  then openVPNCompressV2IndicatorByte :: openVPNCompressV2SubTypeNone :: payload else payload.

(** The libraries: a block and the size of the output buffer. *)
Record Decompressors := mkDecompressors {
  lzoDecompress : bytes → Z → result bytes;
  lz4UncompressBlock : bytes → Z → result bytes;
}.

Section Frames.
Context (dz : Decompressors).

Definition decompressLZOBlock (compressedBlock : bytes) : result bytes :=
  if decide (compressedBlock = []) then Err (ErrNew "empty lzo block") else
  match lzoDecompress dz compressedBlock openVPNLZOMaxDecompressedSize with
  | Err err => Err (ErrCause err "decompress lzo block")
  | Ok decompressed =>
      if lenZ decompressed <=? 0 then Err (ErrNew "lzo block decompression produced empty output") else Ok decompressed
  end.

Definition decompressLZ4Block (compressedBlock : bytes) : result bytes :=
  if decide (compressedBlock = []) then Err (ErrNew "empty lz4 block") else
  match lz4UncompressBlock dz compressedBlock openVPNLZ4MaxDecompressedSize with
  | Err _ => Err (ErrNew "lz4 block decompression failed")
  | Ok decompressed =>
      if lenZ decompressed <=? 0 then Err (ErrNew "lz4 block decompression produced empty output") else Ok decompressed
  end.

Definition decodeLZOFrame (framedPayload : bytes) : result bytes :=
  match framedPayload with
  | [] => Err (ErrNew "missing compression marker")
  | marker :: rest =>
      if decide (marker = openVPNNoCompressByte) then Ok rest else
      if decide (marker = openVPNLZOCompressByte) then decompressLZOBlock rest else
      Err (ErrNew "invalid lzo compression marker")
  end.

Definition decompressLZ4V1Frame (framedPayload : bytes) : result bytes :=
  if bool_decide (length framedPayload < 2)%nat then Err (ErrNew "truncated lz4 v1 payload") else
  let blockLength := (length framedPayload - 1)%nat in
  decompressLZ4Block (default x00 (framedPayload !! blockLength) :: slice 1 blockLength framedPayload).

Definition decodeLZ4V1Frame (framedPayload : bytes) : result bytes :=
  match framedPayload with
  | [] => Err (ErrNew "missing compression marker")
  | marker :: _ =>
      if decide (marker = openVPNNoCompressByteSwap) then Ok (unswapV1FrameHead framedPayload) else
      if decide (marker = openVPNLZ4CompressByte) then decompressLZ4V1Frame framedPayload else
      Err (ErrNew "invalid lz4 compression marker")
  end.

Definition unwrapV2Compression (compression : compressionSettings) (payload : bytes) : result bytes :=
  if negb (bool_decide (head payload = Some openVPNCompressV2IndicatorByte)) then Ok payload else
  match payload with
  | _ :: subType :: rest =>
      if decide (subType = openVPNCompressV2SubTypeNone) then Ok rest else
      if decide (subType = openVPNCompressV2SubTypeLZ4) then
        if negb (bool_decide (cs_algorithm compression = compressionAlgorithmLZ4V2))
        then Err (ErrNew "compressed lz4 v2 payload is not supported")
        else decompressLZ4Block rest
      else Err (ErrNew "invalid v2 compression sub-type")
  | _ => Err (ErrNew "truncated v2 compression header")
  end.

End Frames.

(** ** Framing *)

Record dataChannelFraming := mkFraming {
  df_compression : compressionSettings;
  df_compressOutbound : bool;
  df_fragmentSize : Z;
  df_lzoAdaptiveDisabled : bool;
  df_lzoAdaptiveNext : Time;
  df_lzoAdaptiveTotalBytes : Z;
  df_lzoAdaptiveCompressedBytes : Z;
  df_fragments : fragmentState;
}.

Definition setAdaptive (f : dataChannelFraming) (disabled : bool) (next : Time) (total compressed : Z) : dataChannelFraming :=
  mkFraming (df_compression f) (df_compressOutbound f) (df_fragmentSize f) disabled next total compressed (df_fragments f).

Definition setFragments (f : dataChannelFraming) (s : fragmentState) : dataChannelFraming :=
  mkFraming (df_compression f) (df_compressOutbound f) (df_fragmentSize f) (df_lzoAdaptiveDisabled f) (df_lzoAdaptiveNext f)
    (df_lzoAdaptiveTotalBytes f) (df_lzoAdaptiveCompressedBytes f) s.

(** [random] is [rand.Uint32()]. *)
Definition newDataChannelFraming (compression : compressionSettings) (fragment : Z) (allowCompression : allowCompressionPolicy)
    (random : Z) : option dataChannelFraming :=
  let fragmentSize := fragment in
  if negb (framingEnabled compression) && (fragmentSize <=? 0) then None else
  Some (mkFraming compression (compressesOutbound compression allowCompression) fragmentSize false 0 0 0
    (mkFragment (Z.land random openVPNFragmentSequenceMask) ∅ 0 0 false openVPNFragmentReassemblyTimeout
       openVPNFragmentReassemblyMaxBytes openVPNFragmentReassemblyMaxPacketBytes)).

Definition payloadOverhead (f : option dataChannelFraming) : Z :=
  match f with
  | None => 0
  | Some f => framingOverhead (df_compression f) + (if 0 <? df_fragmentSize f then 4 else 0)
  end.

Definition lzoCompressionEnabled (f : dataChannelFraming) (now : Time) : bool * dataChannelFraming :=
  if negb (cs_adaptive (df_compression f)) then (true, f) else
  let f :=
    if IsZero (df_lzoAdaptiveNext f) || negb (now <? df_lzoAdaptiveNext f) then
      if df_lzoAdaptiveDisabled f then setAdaptive f false (now + openVPNLZOAdaptiveSampleDuration) 0 0
      else if (openVPNLZOAdaptiveMinimumBytes <? df_lzoAdaptiveTotalBytes f) &&
              (df_lzoAdaptiveTotalBytes f - df_lzoAdaptiveCompressedBytes f <?
                 Z.quot (df_lzoAdaptiveTotalBytes f) (Z.quot 100 openVPNLZOAdaptiveSavePercent))
      then setAdaptive f true (now + openVPNLZOAdaptiveOffDuration) 0 0
      else setAdaptive f (df_lzoAdaptiveDisabled f) (now + openVPNLZOAdaptiveSampleDuration) 0 0
    else f in
  (negb (df_lzoAdaptiveDisabled f), f).

Definition recordLZOCompression (f : dataChannelFraming) (totalBytes compressedBytes : Z) : dataChannelFraming :=
  setAdaptive f (df_lzoAdaptiveDisabled f) (df_lzoAdaptiveNext f) (df_lzoAdaptiveTotalBytes f + totalBytes)
    (df_lzoAdaptiveCompressedBytes f + compressedBytes).

(** [None] is a panic of the compressor; conditions are evaluated from the left,
    so a short payload does not touch the adaptive state. *)
Definition encodeLZOFrame (f : dataChannelFraming) (payload : bytes) (now : Time) : option (bytes * dataChannelFraming) :=
  let stub := openVPNNoCompressByte :: payload in
  if negb (df_compressOutbound f) || (lenZ payload <? openVPNCompressionThreshold) then Some (stub, f) else
  let '(enabled, f) := lzoCompressionEnabled f now in
  if negb enabled then Some (stub, f) else
  compressedPayload ← compressLZOBlock payload;
  let f := if cs_adaptive (df_compression f) then recordLZOCompression f (lenZ payload) (lenZ compressedPayload) else f in
  if lenZ payload <=? lenZ compressedPayload then Some (stub, f) else Some (openVPNLZOCompressByte :: compressedPayload, f).

Definition encodeCompression (f : dataChannelFraming) (payload : bytes) (now : Time) : option (bytes * dataChannelFraming) :=
  match cs_algorithm (df_compression f) with
  | compressionAlgorithmNone => Some (payload, f)
  | compressionAlgorithmStub => Some (applyStubCompressionFrame payload (cs_swap (df_compression f)), f)
  | compressionAlgorithmLZ4 => Some (applyStubCompressionFrame payload true, f)
  | compressionAlgorithmLZO => encodeLZOFrame f payload now
  | compressionAlgorithmStubV2 | compressionAlgorithmLZ4V2 => Some (escapeV2StubCompression payload, f)
  end.

Definition framing_Encode (f : option dataChannelFraming) (payload : bytes) (fragmentSize : Z) (now : Time)
    : option (result (list bytes) * option dataChannelFraming) :=
  match f with
  | None => Some (Ok [payload], None)
  | Some f =>
      '(framedPayload, f) ← encodeCompression f payload now;
      if df_fragmentSize f <=? 0 then Some (Ok [framedPayload], Some f) else
      let '(frames, s) := encodeFragments (df_fragments f) framedPayload fragmentSize in
      Some (frames, Some (setFragments f s))
  end.

Section Decode.
Context (dz : Decompressors) (range : gmap Z incomingFragmentBuffer → list (Z * incomingFragmentBuffer)).

Definition decodeCompression (compression : compressionSettings) (framedPayload : bytes) : result bytes :=
  match cs_algorithm compression with
  | compressionAlgorithmNone => Ok framedPayload
  | compressionAlgorithmStub => unframeStubCompression framedPayload (cs_swap compression)
  | compressionAlgorithmLZO => decodeLZOFrame dz framedPayload
  | compressionAlgorithmLZ4 => decodeLZ4V1Frame dz framedPayload
  | compressionAlgorithmStubV2 | compressionAlgorithmLZ4V2 => unwrapV2Compression dz compression framedPayload
  end.

(** [Ok None] is a fragment of a packet that is not complete. *)
Definition framing_Decode (f : option dataChannelFraming) (payload : bytes) (now : Time)
    : result (option bytes) * option dataChannelFraming :=
  match f with
  | None => (Ok (Some payload), None)
  | Some f =>
      let '(reassembled, f) :=
        if 0 <? df_fragmentSize f then
          let '(r, s) := decodeFragment range (df_fragments f) now payload in (r, setFragments f s)
        else (Ok (Some payload), f) in
      match reassembled with
      | Err err => (Err err, Some f)
      | Ok None => (Ok None, Some f)
      | Ok (Some framedPayload) =>
          (match decodeCompression (df_compression f) framedPayload with Ok p => Ok (Some p) | Err err => Err err end, Some f)
      end
  end.

End Decode.

(** ** What the receiver makes of frames *)

(** [lzo.Decompress] decodes LZO1X streams into buffers that are large enough. *)
Definition Decompressors_laws (dz : Decompressors) : Prop :=
  ∀ c p n, lzo1xDecode c = Some p → lenZ p ≤ n → lzoDecompress dz c n = Ok p.

Lemma unswap_swap payload : unswapV1FrameHead (applyStubCompressionFrame payload true) = payload.
Proof.
  destruct payload as [| b p]; [done |]. cbn [applyStubCompressionFrame negb]. unfold unswapV1FrameHead.
  rewrite bool_decide_eq_false_2 by (cbn; golen). set (m := openVPNNoCompressByteSwap).
  replace (length (m :: p ++ [b]) - 1)%nat with (length (m :: p)) by (cbn; rewrite length_app; cbn; lia).
  change (m :: p ++ [b]) with ((m :: p) ++ [b]). rewrite lookup_app_r, Nat.sub_diag by lia. cbn [lookup list_lookup default].
  unfold slice. cbn [drop app length]. f_equal. apply take_app_exact. lia.
Qed.

Lemma swap_marker payload : ∃ rest, applyStubCompressionFrame payload true = openVPNNoCompressByteSwap :: rest ∧ lenZ rest = lenZ payload.
Proof. destruct payload as [| b p]; eexists; (split; [done |]); golen. Qed.

Lemma stub_frame payload swap : unframeStubCompression (applyStubCompressionFrame payload swap) swap = Ok payload.
Proof.
  destruct swap; [| done]. destruct (swap_marker payload) as (rest & E & _). rewrite E. cbn [unframeStubCompression negb].
  rewrite decide_True by done. by rewrite <- E, unswap_swap.
Qed.

Lemma lz4_stub_frame dz payload : decodeLZ4V1Frame dz (applyStubCompressionFrame payload true) = Ok payload.
Proof.
  destruct (swap_marker payload) as (rest & E & _). rewrite E. cbn [decodeLZ4V1Frame].
  rewrite decide_True by done. by rewrite <- E, unswap_swap.
Qed.

Lemma v2_frame dz compression payload : unwrapV2Compression dz compression (escapeV2StubCompression payload) = Ok payload.
Proof.
  unfold escapeV2StubCompression, unwrapV2Compression. destruct (decide _); [done |]. by rewrite bool_decide_eq_false_2.
Qed.

Lemma length_stub_frame payload swap : lenZ (applyStubCompressionFrame payload swap) = lenZ payload + 1.
Proof. destruct swap; [destruct (swap_marker payload) as (rest & -> & H) | change (applyStubCompressionFrame payload false) with (openVPNNoCompressByte :: payload)]; golen. Qed.

Lemma length_v2_frame payload : lenZ (escapeV2StubCompression payload) ≤ lenZ payload + 2.
Proof. unfold escapeV2StubCompression. destruct (decide _); golen. Qed.

(** The adaptive state is all that sending changes. *)
Definition sameSettings (f f' : dataChannelFraming) : Prop :=
  df_compression f' = df_compression f ∧ df_fragmentSize f' = df_fragmentSize f ∧ df_fragments f' = df_fragments f.

Lemma lzoCompressionEnabled_settings f now : sameSettings f (lzoCompressionEnabled f now).2.
Proof.
  unfold lzoCompressionEnabled. destruct (negb _); [done |]. destruct (_ || _); [| done].
  destruct (df_lzoAdaptiveDisabled f); [done |]. by destruct (_ && _).
Qed.

(** What a compression frame must satisfy. *)
Definition frameOk (dz : Decompressors) (f : dataChannelFraming) (payload framed : bytes) (f' : dataChannelFraming) : Prop :=
  decodeCompression dz (df_compression f) framed = Ok payload ∧ lenZ framed ≤ lenZ payload + 2 ∧ sameSettings f f'.

Lemma lzo_frame dz f payload now :
  Decompressors_laws dz → lenZ payload ≤ openVPNLZOMaxDecompressedSize →
  cs_algorithm (df_compression f) = compressionAlgorithmLZO →
  ∃ framed f', encodeLZOFrame f payload now = Some (framed, f') ∧ frameOk dz f payload framed f'.
Proof.
  intros Hdz Hlen Halg. unfold frameOk, decodeCompression. rewrite Halg. unfold encodeLZOFrame.
  pose proof (lzoCompressionEnabled_settings f now) as Hset.
  destruct (_ || _) eqn:Hshort; [eexists _, _; split_and!; [done | done | golen | done..] |].
  apply orb_false_iff in Hshort as [_ Hge%Z.ltb_ge]. unfold openVPNCompressionThreshold in Hge.
  destruct (lzoCompressionEnabled f now) as [enabled f1]. cbn [snd] in *.
  destruct (negb enabled); [eexists _, _; split_and!; [done | done | golen | done..] |].
  destruct (lzo_decodable payload) as (c & -> & Hc). cbn [mbind option_bind].
  set (f2 := if cs_adaptive (df_compression f1) then _ else f1).
  assert (Hf2 : sameSettings f f2) by (unfold f2; by destruct (cs_adaptive _)).
  destruct (Z.leb_spec (lenZ payload) (lenZ c)); eexists _, _; (split_and!; [done | | golen | apply Hf2..]); [done |].
  cbn [decodeLZOFrame]. rewrite decide_False by done. rewrite decide_True by done. unfold decompressLZOBlock.
  rewrite decide_False by (intros ->; done). rewrite (Hdz c payload) by done. by rewrite (proj2 (Z.leb_gt _ _)) by lia.
Qed.

Lemma compression_frame dz f payload now :
  Decompressors_laws dz → lenZ payload ≤ openVPNLZOMaxDecompressedSize →
  ∃ framed f', encodeCompression f payload now = Some (framed, f') ∧ frameOk dz f payload framed f'.
Proof.
  intros Hdz Hlen. unfold encodeCompression.
  destruct (cs_algorithm (df_compression f)) eqn:Halg; [| | by apply lzo_frame | ..];
    eexists _, _; (split; [done |]); unfold frameOk, decodeCompression; rewrite Halg; (split_and!; try done);
    rewrite ?length_stub_frame; try lia; try apply length_v2_frame.
  - apply stub_frame.
  - apply lz4_stub_frame.
  - apply v2_frame.
  - apply v2_frame.
Qed.

(** The packets of a peer, at the times they arrive. *)
Definition framingRun (dz : Decompressors) (range : gmap Z incomingFragmentBuffer → list (Z * incomingFragmentBuffer))
    (f : dataChannelFraming) (arrivals : list (Time * bytes)) : list (result (option bytes)) * option dataChannelFraming :=
  foldl (λ '(out, f) '(now, payload), let '(r, f) := framing_Decode dz range f payload now in (out ++ [r], f))
    ([], Some f) arrivals.

(** What is left to do with a reassembled frame. *)
Definition unframe (dz : Decompressors) (compression : compressionSettings) (r : result (option bytes)) : result (option bytes) :=
  match r with
  | Err err => Err err
  | Ok None => Ok None
  | Ok (Some framed) => match decodeCompression dz compression framed with Ok p => Ok (Some p) | Err err => Err err end
  end.

(** With fragmentation, framing is reassembly and then decompression. *)
Lemma framingRun_fragments dz range f arrivals :
  0 < df_fragmentSize f →
  framingRun dz range f arrivals =
    (unframe dz (df_compression f) <$> (decodeRun range (df_fragments f) arrivals).1,
     Some (setFragments f (decodeRun range (df_fragments f) arrivals).2)).
Proof.
  intros Hpos. unfold framingRun, decodeRun. induction arrivals as [| [now payload] arrivals IH] using rev_ind; [by destruct f |].
  rewrite !foldl_app, IH. cbn [foldl]. destruct (foldl _ ([], df_fragments f) arrivals) as [out s]. cbn [fst snd framing_Decode].
  cbn [setFragments df_fragmentSize df_fragments df_compression]. rewrite (proj2 (Z.ltb_lt _ _)) by lia.
  destruct (decodeFragment range s now payload) as [r s']. cbn [fst snd]. rewrite fmap_app.
  destruct r as [[framed |] | err]; [| done | done]. cbn. by destruct (decodeCompression _ _ framed).
Qed.

(** A receiver that can take the packet: nothing of the packet's sequence number
    is waiting, and the packets arrive before the reassembly times out. *)
Definition framingReady (f g : dataChannelFraming) (payload : bytes) (times : list Time) : Prop :=
  let s := df_fragments g in
  0 ≤ fs_outgoingSequence (df_fragments f) < 256 ∧ acc_ok s ∧ fs_incomingBytes s ≤ maxReassemblyBytes s ∧
  lenZ payload + 2 ≤ maxPacketBytes s ∧ maxPacketBytes s ≤ maxReassemblyBytes s ∧
  fs_incomingBySequence s !! fs_outgoingSequence (df_fragments f) = None ∧ timely (timeoutOf s) (hd 1 times) times.

(** C16: the packets that framing makes of a payload, in whatever order they
    arrive, give the payload back to a peer with the same settings, when the
    last of them arrives and not before: for every compression algorithm, with
    the program's own LZO compressor, and with or without fragmentation. *)
Theorem framing_roundtrip dz range f g payload fragmentSize now :
  Decompressors_laws dz → (∀ m, range m ≡ₚ map_to_list m) → lenZ payload + 2 < 65536 →
  df_compression g = df_compression f → df_fragmentSize g = df_fragmentSize f →
  ∃ r f', framing_Encode (Some f) payload fragmentSize now = Some (r, f') ∧
  ∀ frames arrivals times, r = Ok frames → arrivals ≡ₚ frames → length times = length arrivals → framingReady f g payload times →
    (framingRun dz range g (zip times arrivals)).1 = replicate (length frames - 1) (Ok None) ++ [Ok (Some payload)].
Proof.
  intros Hdz Hrange Hlen Hcomp Hfrag. cbn [framing_Encode].
  destruct (compression_frame dz f payload now Hdz) as (framed & f1 & -> & Hdec & Hfl & Hs1 & Hs2 & Hs3);
    [unfold openVPNLZOMaxDecompressedSize; lia |].
  cbn [mbind option_bind]. rewrite Hs2. destruct (Z.leb_spec (df_fragmentSize f) 0) as [Hno | Hyes].
  - eexists _, _. split; [done |]. intros frames arrivals times [= <-] Hperm Htimes _.
    apply Permutation_singleton_r in Hperm as ->. destruct times as [| t [| ? ?]]; try done. cbn.
    rewrite Hfrag, (proj2 (Z.ltb_ge _ _)) by lia. by rewrite Hcomp, Hdec.
  - destruct (encodeFragments (df_fragments f1) framed fragmentSize) as [r s] eqn:He.
    eexists _, _. split; [done |]. intros frames arrivals times -> Hperm Htimes (Hseq & Hacc & Hb & Hp & Hl & Hnone & Htimely).
    rewrite Hs3 in He. rewrite framingRun_fragments by lia. cbn [fst].
    rewrite (fragments_reassemble range (df_fragments f) framed fragmentSize frames arrivals times (df_fragments g));
      [| done | done | lia | by rewrite He | done | done | done | lia | done | done | done | done].
    rewrite fmap_app, fmap_replicate. cbn. by rewrite Hcomp, Hdec.
Qed.

(** ** An example *)

Definition exampleDecompressors : Decompressors :=
  mkDecompressors (λ c n, match lzo1xDecode c with
                          | Some p => if lenZ p <=? n then Ok p else Err (ErrNew "output overrun")
                          | None => Err (ErrNew "invalid stream")
                          end) (λ _ _, Err (ErrNew "not used")).

Lemma exampleDecompressors_laws : Decompressors_laws exampleDecompressors.
Proof. intros c p n Hc Hn. cbn. rewrite Hc. by rewrite (proj2 (Z.leb_le _ _)) by lia. Qed.

(** LZO with fragmentation. *)
Definition exampleFraming (random : Z) : dataChannelFraming :=
  default (mkFraming noCompression false 0 false 0 0 0 (newFragmentState 0))
    (newDataChannelFraming (mkCompression compressionAlgorithmLZO false false false) 1 allowCompressionYes random).

Definition compressible : bytes := (z2b <$> seqZ 0 20) ++ replicate 100 x61 ++ (z2b <$> seqZ 100 30).

Lemma framing_roundtrip_witness :
  match framing_Encode (Some (exampleFraming 3)) compressible 20 7 with
  | Some (Ok frames, _) =>
      (framingRun exampleDecompressors map_to_list (exampleFraming 9) (zip [1; 2; 3; 4] (reverse frames))).1 =
        replicate 3 (Ok None) ++ [Ok (Some compressible)]
  | _ => False
  end.
Proof.
  destruct (framing_roundtrip exampleDecompressors map_to_list (exampleFraming 3) (exampleFraming 9) compressible 20 7)
    as (r & f' & He & H).
  - apply exampleDecompressors_laws.
  - done.
  - vm_compute. done.
  - reflexivity.
  - reflexivity.
  - assert (Hr : match framing_Encode (Some (exampleFraming 3)) compressible 20 7 with
      | Some (Ok frames, _) => length frames = 4%nat | _ => False end) by (vm_compute; reflexivity).
    rewrite He in Hr |- *. destruct r as [frames | err]; [| done].
    rewrite (H frames (reverse frames) [1; 2; 3; 4]).
    + by rewrite Hr.
    + done.
    + apply reverse_Permutation.
    + by rewrite length_reverse, Hr.
    + unfold framingReady. change (df_fragments (exampleFraming 9)) with (newFragmentState 9).
      change (df_fragments (exampleFraming 3)) with (newFragmentState 3). change (lenZ compressible) with 150. cbv zeta.
      split; [cbn; lia |]. split; [split; [reflexivity | apply map_Forall_empty] |].
      repeat match goal with |- _ ∧ _ => split end; [by vm_compute .. | reflexivity |].
      cbn; repeat split; (lia || by vm_compute).
Defined.
