(* ===== verification/KeyMethod.v ===== *)
(** * Key exchange ([key_method.go])

    The key method messages of the two ends, the TLS 1.0 PRF that makes the data
    channel's key material out of them, and the strings they announce their
    options with.  Digests are those of the record [Crypto]; an exported key
    material is an argument. *)

From S2P Require Import Prelude GoStrings Codec CodecLaws Compression.

Definition tlsKeyMethod2 : Z := 2.
Definition tlsIVProtoDataV2 : Z := Z.shiftl 1 1.
Definition tlsIVProtoRequestPush : Z := Z.shiftl 1 2.
Definition tlsIVProtoTLSKeyExport : Z := Z.shiftl 1 3.
Definition tlsIVProtoAuthPendingKW : Z := Z.shiftl 1 4.
Definition tlsIVProtoNCPP2P : Z := Z.shiftl 1 5.
Definition tlsIVProtoCCExitNotify : Z := Z.shiftl 1 7.
Definition tlsIVProtoAuthFailTemp : Z := Z.shiftl 1 8.
Definition tlsAdvertisedVersion : string := "2.6.14".

Record tlsKeyMethodKeySource := mkKeySource { ks_PreMaster : bytes; ks_Random1 : bytes; ks_Random2 : bytes }.

Record tlsKeyMethodMessage := mkMessage {
  km_OptionsString : string;
  km_Username : string;
  km_Password : string;
  km_PeerInfo : string;
  km_KeySource : tlsKeyMethodKeySource;
}.

Definition generateTLSKeyMethodKeySource (random : nat → nat → result bytes) (isClient : bool) : result tlsKeyMethodKeySource :=
  random1 ← random 0%nat 32%nat;
  random2 ← random 1%nat 32%nat;
  preMaster ← (if isClient then random 2%nat 48%nat else Ok []);
  Ok (mkKeySource preMaster random1 random2).

(** ** Messages *)

Definition writeLengthPrefixedString (value : string) : result bytes :=
  let stringBytes := bytesOf value ++ [x00] in
  if 65535 <? lenZ stringBytes then Err (ErrNew "length-prefixed string too long") else
  Ok (PutUint16 (lenZ stringBytes) ++ stringBytes).

(** [reader.Read] into a buffer of [n] octets, [n > 0]: what there is, up to [n];
    what is missing stays zero.  It fails only at the end of the input. *)
Definition readerRead (n : nat) (reader : bytes) : result (bytes * bytes) :=
  match reader with
  | [] => Err io_EOF
  | _ => Ok (take n reader ++ replicate (n - length reader) x00, drop n reader)
  end.

Definition readLengthPrefixedString (reader : bytes) : result (string * bytes) :=
  '(length, reader) ← ReadUint16 reader;
  if length =? 0 then Ok (EmptyString, reader) else
  '(stringBytes, reader) ← readerRead (Z.to_nat length) reader;
  Ok (stringOf (if decide (last stringBytes = Some x00) then removelast stringBytes else stringBytes), reader).

Definition buildTLSKeyMethod2Payload (server : bool) (message : tlsKeyMethodMessage) : result bytes :=
  let keySource := km_KeySource message in
  preMaster ←
    (if server then Ok []
     else if negb (bool_decide (length (ks_PreMaster keySource) = 48%nat))
          then Err (ErrNew "client key source pre-master must be 48 bytes") else Ok (ks_PreMaster keySource));
  if negb (bool_decide (length (ks_Random1 keySource) = 32%nat)) then Err (ErrNew "key source random1 must be 32 bytes") else
  if negb (bool_decide (length (ks_Random2 keySource) = 32%nat)) then Err (ErrNew "key source random2 must be 32 bytes") else
  optionsString ← writeLengthPrefixedString (km_OptionsString message);
  username ← writeLengthPrefixedString (km_Username message);
  password ← writeLengthPrefixedString (km_Password message);
  peerInfo ← writeLengthPrefixedString (km_PeerInfo message);
  Ok (PutUint32 0 ++ [z2b tlsKeyMethod2] ++ preMaster ++ ks_Random1 keySource ++ ks_Random2 keySource ++
      optionsString ++ username ++ password ++ peerInfo).

Definition parseTLSKeyMethod2Payload (payload : bytes) (server : bool) : result tlsKeyMethodMessage :=
  '(_, reader) ← ReadUint32 payload;
  '(keyMethod, reader) ← match reader with [] => Err io_EOF | b :: reader => Ok (b2z b, reader) end;
  if negb (Z.land keyMethod 15 =? tlsKeyMethod2) then Err (ErrNew "unsupported key-method") else
  '(preMaster, reader) ← (if server then Ok ([], reader) else readerRead 48 reader);
  '(random1, reader) ← readerRead 32 reader;
  '(random2, reader) ← readerRead 32 reader;
  '(optionsString, reader) ← readLengthPrefixedString reader;
  '(username, reader) ← readLengthPrefixedString reader;
  '(password, reader) ← readLengthPrefixedString reader;
  '(peerInfo, reader) ← readLengthPrefixedString reader;
  Ok (mkMessage optionsString username password peerInfo (mkKeySource preMaster random1 random2)).

(** ** The PRF *)

Section PRF.
Context (cr : Crypto).

Fixpoint pHashLoop (fuel : nat) (hash : string) (secret seed iterationSeed output : bytes) (outputLength : nat) : bytes :=
  match fuel with
  | O => output
  | S fuel =>
      if bool_decide (length output < outputLength)%nat then
        let output := output ++ cr_hmac cr hash secret (iterationSeed ++ seed) in
        if bool_decide (outputLength ≤ length output)%nat then output
        else pHashLoop fuel hash secret seed (cr_hmac cr hash secret iterationSeed) output outputLength
      else output
  end.

(** Every round adds a digest: the length of the output is enough fuel. *)
Definition tls1PHash (hash : string) (secret seed : bytes) (outputLength : nat) : bytes :=
  if bool_decide (outputLength = 0)%nat then [] else
  take outputLength (pHashLoop outputLength hash secret seed (cr_hmac cr hash secret seed) [] outputLength).

Definition openvpnTLS1PRF (secret seed : bytes) (outputLength : nat) : bytes :=
  let halfLength := (length secret / 2)%nat in
  let splitLength := (halfLength + length secret mod 2)%nat in
  let firstSecretHalf := take splitLength secret in
  let secondSecretHalf := slice halfLength (halfLength + splitLength) secret in
  Crypto.xorBytes (tls1PHash "md5" firstSecretHalf seed outputLength) (tls1PHash "sha1" secondSecretHalf seed outputLength).

Definition openvpnPRF (secret : bytes) (label : string) (clientSeed serverSeed clientSessionID serverSessionID : bytes)
    (outputLength : nat) : bytes :=
  openvpnTLS1PRF secret (bytesOf label ++ clientSeed ++ serverSeed ++ clientSessionID ++ serverSessionID) outputLength.

Definition tlsPRFMasterSecretLabel : string := "OpenVPN master secret".
Definition tlsPRFKeyExpansionLabel : string := "OpenVPN key expansion".
Definition tlsPRFMasterSecretLength : nat := 48.
Definition tlsPRFKeyMaterialLength : nat := 256.

Definition deriveTLSKeyMaterialPRF (clientPreMaster clientRandom1 serverRandom1 clientRandom2 serverRandom2
    clientSessionID serverSessionID : bytes) : bytes :=
  let master := openvpnPRF clientPreMaster tlsPRFMasterSecretLabel clientRandom1 serverRandom1 [] [] tlsPRFMasterSecretLength in
  openvpnPRF master tlsPRFKeyExpansionLabel clientRandom2 serverRandom2 clientSessionID serverSessionID tlsPRFKeyMaterialLength.

(** [checkTLSKeySourcesComplete] and the check of a renegotiation. *)
Definition keySourcesComplete (client server : tlsKeyMethodKeySource) : bool :=
  bool_decide (length (ks_PreMaster client) = 48%nat) && bool_decide (length (ks_Random1 client) = 32%nat) &&
  bool_decide (length (ks_Random2 client) = 32%nat) && bool_decide (length (ks_Random1 server) = 32%nat) &&
  bool_decide (length (ks_Random2 server) = 32%nat).

(** [exported] is what TLS exports. *)
Definition deriveRenegotiatedKeyMaterial (exported : result bytes) (useKeyMaterialExport : bool)
    (clientKeySource serverKeySource : tlsKeyMethodKeySource) (localSessionID remoteSessionID : bytes) (server : bool) : result bytes :=
  if useKeyMaterialExport then exported else
  if negb (keySourcesComplete clientKeySource serverKeySource)
  then Err (ErrNew "tls mode: incomplete key source material for renegotiation") else
  let clientSessionID := if server then remoteSessionID else localSessionID in
  let serverSessionID := if server then localSessionID else remoteSessionID in
  Ok (deriveTLSKeyMaterialPRF (ks_PreMaster clientKeySource) (ks_Random1 clientKeySource) (ks_Random1 serverKeySource)
        (ks_Random2 clientKeySource) (ks_Random2 serverKeySource) clientSessionID serverSessionID).

End PRF.

(** ** The messages of a session *)

Lemma writeLengthPrefixedString_Ok value encoded :
  writeLengthPrefixedString value = Ok encoded →
  encoded = PutUint16 (lenZ (bytesOf value ++ [x00])) ++ bytesOf value ++ [x00] ∧ lenZ (bytesOf value) < 65535.
Proof.
  unfold writeLengthPrefixedString. destruct (Z.ltb_spec 65535 (lenZ (bytesOf value ++ [x00]))); [done |].
  intros [= <-]. split; [done | golen].
Qed.

(** A string is read whole, or, at the end of the message, with zeros for what is missing. *)
Lemma readLengthPrefixedString_take value n rest :
  lenZ (bytesOf value) < 65535 → (0 < n)%nat → (n ≤ S (length (bytesOf value)) → rest = [] ∨ n = S (length (bytesOf value)))%nat →
  (n ≤ S (length (bytesOf value)))%nat →
  readLengthPrefixedString (PutUint16 (lenZ (bytesOf value ++ [x00])) ++ take n (bytesOf value ++ [x00]) ++ rest) =
    Ok (stringOf (take n (bytesOf value) ++ replicate (length (bytesOf value) - n) x00), rest).
Proof.
  intros Hl Hn Hrest Hle. unfold readLengthPrefixedString. unfold PutUint16. rewrite ReadUint16_app. cbn [mbind result_bind].
  assert (Hlen : lenZ (bytesOf value ++ [x00]) = lenZ (bytesOf value) + 1) by golen.
  rewrite u16_small by golen. rewrite (proj2 (Z.eqb_neq _ _)) by golen.
  set (v := bytesOf value) in *. unfold readerRead.
  assert (Hne : take n (v ++ [x00]) ++ rest ≠ []) by (intros E; apply (f_equal length) in E; golen).
  destruct (take n (v ++ [x00]) ++ rest) as [| b r] eqn:Hbr; [done |]. rewrite <- Hbr. cbn [mbind result_bind].
  assert (HL : Z.to_nat (lenZ (v ++ [x00])) = S (length v)) by golen. rewrite HL.
  destruct (decide (n = S (length v))) as [-> | Hlt].
  - rewrite (take_ge (v ++ [x00])) by golen. rewrite take_app_exact, drop_app_exact by golen.
    replace (S (length v) - length ((v ++ [x00]) ++ rest))%nat with 0%nat by golen. cbn [replicate]. rewrite app_nil_r.
    rewrite last_snoc, decide_True, removelast_last by done.
    rewrite (take_ge v) by lia. replace (length v - S (length v))%nat with 0%nat by lia. by rewrite app_nil_r.
  - destruct (Hrest Hle) as [-> | ?]; [| lia]. rewrite app_nil_r.
    rewrite (take_ge (take n (v ++ [x00]))), drop_ge by golen. rewrite take_app_le by lia.
    replace (S (length v) - length (take n v))%nat with (S (length v - n)) by golen.
    rewrite replicate_S_end, app_assoc, last_snoc, decide_True, removelast_last by done. done.
Qed.

Lemma readLengthPrefixedString_write value encoded rest :
  writeLengthPrefixedString value = Ok encoded → readLengthPrefixedString (encoded ++ rest) = Ok (value, rest).
Proof.
  intros [-> Hl]%writeLengthPrefixedString_Ok.
  pose proof (readLengthPrefixedString_take value (S (length (bytesOf value))) rest Hl ltac:(lia) ltac:(by right) ltac:(lia)) as H.
  rewrite take_ge in H by golen. rewrite <- app_assoc. rewrite H. rewrite take_ge by lia.
  replace (_ - _)%nat with 0%nat by lia. cbn [replicate]. rewrite app_nil_r. by rewrite stringOf_bytesOf.
Qed.

Lemma readerRead_app a rest : a ≠ [] → readerRead (length a) (a ++ rest) = Ok (a, rest).
Proof.
  intros Ha. unfold readerRead. destruct (a ++ rest) as [| b r] eqn:E; [by destruct a |]. rewrite <- E.
  rewrite take_app_exact, drop_app_exact by done. replace (_ - _)%nat with 0%nat by golen. cbn [replicate]. by rewrite app_nil_r.
Qed.

Lemma readerRead_exact n a rest : length a = n → (0 < n)%nat → readerRead n (a ++ rest) = Ok (a, rest).
Proof. intros <- Hn. apply readerRead_app. intros ->. cbn in Hn. lia. Qed.

(** Everything up to the peer info is read back. *)
Lemma parse_prefix (server : bool) m (preMaster : bytes) encodedOptions encodedUser encodedPassword tail :
  (if server then preMaster = [] else length preMaster = 48%nat) →
  length (ks_Random1 (km_KeySource m)) = 32%nat → length (ks_Random2 (km_KeySource m)) = 32%nat →
  writeLengthPrefixedString (km_OptionsString m) = Ok encodedOptions →
  writeLengthPrefixedString (km_Username m) = Ok encodedUser → writeLengthPrefixedString (km_Password m) = Ok encodedPassword →
  parseTLSKeyMethod2Payload (PutUint32 0 ++ [z2b tlsKeyMethod2] ++ preMaster ++ ks_Random1 (km_KeySource m) ++
      ks_Random2 (km_KeySource m) ++ encodedOptions ++ encodedUser ++ encodedPassword ++ tail) server =
    '(peerInfo, _) ← readLengthPrefixedString tail;
    Ok (mkMessage (km_OptionsString m) (km_Username m) (km_Password m) peerInfo
         (mkKeySource preMaster (ks_Random1 (km_KeySource m)) (ks_Random2 (km_KeySource m)))).
Proof.
  intros Hp H1 H2 Ho Hu Hw. unfold parseTLSKeyMethod2Payload, PutUint32. rewrite ReadUint32_app. cbn [mbind result_bind app].
  change (negb (Z.land (b2z (z2b tlsKeyMethod2)) 15 =? tlsKeyMethod2)) with false. cbv iota.
  destruct server.
  - rewrite Hp. cbn [mbind result_bind app]. rewrite !readerRead_exact by (done || lia). cbn [mbind result_bind].
    rewrite readerRead_exact by (done || lia). cbn [mbind result_bind].
    erewrite !readLengthPrefixedString_write by done. cbn [mbind result_bind].
    erewrite !readLengthPrefixedString_write by done. cbn [mbind result_bind].
    erewrite !readLengthPrefixedString_write by done. done.
  - rewrite readerRead_exact by (done || lia). cbn [mbind result_bind].
    rewrite readerRead_exact by (done || lia). cbn [mbind result_bind].
    rewrite readerRead_exact by (done || lia). cbn [mbind result_bind].
    erewrite !readLengthPrefixedString_write by done. cbn [mbind result_bind].
    erewrite !readLengthPrefixedString_write by done. cbn [mbind result_bind].
    erewrite !readLengthPrefixedString_write by done. done.
Qed.

(** What the builder accepts. *)
Lemma build_Ok (server : bool) m payload :
  buildTLSKeyMethod2Payload server m = Ok payload →
  ∃ preMaster o u w i,
    preMaster = (if server then [] else ks_PreMaster (km_KeySource m)) ∧
    (if server then preMaster = [] else length preMaster = 48%nat) ∧
    length (ks_Random1 (km_KeySource m)) = 32%nat ∧ length (ks_Random2 (km_KeySource m)) = 32%nat ∧
    writeLengthPrefixedString (km_OptionsString m) = Ok o ∧ writeLengthPrefixedString (km_Username m) = Ok u ∧
    writeLengthPrefixedString (km_Password m) = Ok w ∧ writeLengthPrefixedString (km_PeerInfo m) = Ok i ∧
    payload = PutUint32 0 ++ [z2b tlsKeyMethod2] ++ preMaster ++ ks_Random1 (km_KeySource m) ++
      ks_Random2 (km_KeySource m) ++ o ++ u ++ w ++ i.
Proof.
  unfold buildTLSKeyMethod2Payload. intros H. apply result_bind_Ok in H as (preMaster & Hp & H).
  destruct (negb (bool_decide (length (ks_Random1 _) = _))) eqn:H1; [done |].
  destruct (negb (bool_decide (length (ks_Random2 _) = _))) eqn:H2; [done |].
  apply negb_false_iff, bool_decide_eq_true in H1, H2.
  apply result_bind_Ok in H as (o & Ho & H). apply result_bind_Ok in H as (u & Hu & H).
  apply result_bind_Ok in H as (w & Hw & H). apply result_bind_Ok in H as (i & Hi & H).
  exists preMaster, o, u, w, i. assert (Hpay : payload = PutUint32 0 ++ [z2b tlsKeyMethod2] ++ preMaster ++ ks_Random1 (km_KeySource m) ++
      ks_Random2 (km_KeySource m) ++ o ++ u ++ w ++ i) by congruence.
  destruct server; [injection Hp as <-; split_and!; done |].
  destruct (negb _) eqn:Hl in Hp; [done |]. apply negb_false_iff, bool_decide_eq_true in Hl. injection Hp as <-. split_and!; done.
Qed.

(** The message without the pre-master secret, which a server does not send. *)
Definition sentMessage (server : bool) (m : tlsKeyMethodMessage) : tlsKeyMethodMessage :=
  mkMessage (km_OptionsString m) (km_Username m) (km_Password m) (km_PeerInfo m)
    (mkKeySource (if server then [] else ks_PreMaster (km_KeySource m)) (ks_Random1 (km_KeySource m)) (ks_Random2 (km_KeySource m))).

Lemma parse_build server m payload :
  buildTLSKeyMethod2Payload server m = Ok payload → parseTLSKeyMethod2Payload payload server = Ok (sentMessage server m).
Proof.
  intros (pm & o & u & w & i & Hpm & Hl & H1 & H2 & Ho & Hu & Hw & Hi & ->)%build_Ok.
  rewrite (parse_prefix server m pm o u w i) by done.
  rewrite <- (app_nil_r i). erewrite readLengthPrefixedString_write by done. cbn. by rewrite Hpm.
Qed.

(** A key method message is read back as it was written, by either end: the
    options, the credentials, the peer info and the key source. *)
Theorem key_method_roundtrip server m payload :
  buildTLSKeyMethod2Payload server m = Ok payload → parseTLSKeyMethod2Payload payload server = Ok (sentMessage server m).
Proof. apply parse_build. Qed.

(** A message that breaks off inside its peer info is accepted, with zeros in
    place of the octets that are missing. *)
Theorem truncated_peer_info_accepted server m payload k :
  buildTLSKeyMethod2Payload server m = Ok payload → (0 < k ≤ length (bytesOf (km_PeerInfo m)))%nat →
  parseTLSKeyMethod2Payload (take (length payload - k) payload) server =
    Ok (mkMessage (km_OptionsString m) (km_Username m) (km_Password m)
         (stringOf (take (S (length (bytesOf (km_PeerInfo m))) - k) (bytesOf (km_PeerInfo m)) ++ replicate (k - 1) x00))
         (km_KeySource (sentMessage server m))).
Proof.
  intros (pm & o & u & w & i & Hpm & Hl & H1 & H2 & Ho & Hu & Hw & Hi & ->)%build_Ok Hk.
  apply writeLengthPrefixedString_Ok in Hi as [Hi Hlen]. set (v := bytesOf (km_PeerInfo m)) in *.
  assert (Hil : length i = (3 + length v)%nat) by (rewrite Hi; golen).
  set (pre := PutUint32 0 ++ [z2b tlsKeyMethod2] ++ pm ++ ks_Random1 (km_KeySource m) ++ ks_Random2 (km_KeySource m) ++ o ++ u ++ w).
  assert (Hpre : PutUint32 0 ++ [z2b tlsKeyMethod2] ++ pm ++ ks_Random1 (km_KeySource m) ++ ks_Random2 (km_KeySource m) ++ o ++ u ++ w ++ i
    = pre ++ i) by (unfold pre; by rewrite <- !app_assoc).
  rewrite Hpre. rewrite take_app_ge by (rewrite length_app; lia).
  replace (length (pre ++ i) - k - length pre)%nat with (length i - k)%nat by (rewrite length_app; lia).
  unfold pre. rewrite <- !app_assoc. rewrite (parse_prefix server m pm o u w) by done.
  set (n := (S (length v) - k)%nat).
  assert (Htake : take (length i - k) i = PutUint16 (lenZ (v ++ [x00])) ++ take n (v ++ [x00]) ++ []).
  { rewrite Hil, Hi, app_nil_r. rewrite take_app_ge by golen. f_equal. f_equal. unfold n. golen. }
  rewrite Htake. unfold v at 1 2. rewrite readLengthPrefixedString_take by (fold v; first [by left | unfold n; lia]).
  fold v. cbn [mbind result_bind]. replace (length v - n)%nat with (k - 1)%nat by (unfold n; lia).
  by rewrite Hpm.
Qed.

(** *** The key material *)

Lemma pHashLoop_length cr hash secret seed fuel iteration output n :
  (∀ key m, 0 < length (cr_hmac cr hash key m))%nat → (n - length output ≤ fuel)%nat → (0 < n)%nat → (length output < n)%nat →
  (n ≤ length (pHashLoop cr fuel hash secret seed iteration output n))%nat.
Proof.
  intros Hh. revert iteration output. induction fuel as [| fuel IH]; intros iteration output Hf Hn Ho; [lia |].
  cbn [pHashLoop]. rewrite bool_decide_eq_true_2 by done. pose proof (Hh secret (iteration ++ seed)).
  destruct (bool_decide (n ≤ _)%nat) eqn:Hd; [by apply bool_decide_eq_true in Hd |]. apply bool_decide_eq_false in Hd.
  apply IH; rewrite length_app in *; lia.
Qed.

Lemma length_tls1PHash cr hash secret seed n :
  (∀ key m, 0 < length (cr_hmac cr hash key m))%nat → length (tls1PHash cr hash secret seed n) = n.
Proof.
  intros Hh. unfold tls1PHash. destruct (bool_decide (n = 0)%nat) eqn:Hn; [by apply bool_decide_eq_true in Hn as -> |].
  apply bool_decide_eq_false in Hn. rewrite length_take.
  pose proof (pHashLoop_length cr hash secret seed n (cr_hmac cr hash secret seed) [] n Hh ltac:(cbn; lia) ltac:(lia) ltac:(cbn; lia)).
  lia.
Qed.

Lemma length_openvpnPRF cr secret label a b c d n : Crypto_laws cr → length (openvpnPRF cr secret label a b c d n) = n.
Proof.
  intros Hcr. unfold openvpnPRF, openvpnTLS1PRF.
  assert (Hmd5 : ∀ key m, (0 < length (cr_hmac cr "md5" key m))%nat)
    by (intros; rewrite (cl_hmac cr Hcr "MD5" "md5" 16) by (done || lia); lia).
  assert (Hsha1 : ∀ key m, (0 < length (cr_hmac cr "sha1" key m))%nat)
    by (intros; rewrite (cl_hmac cr Hcr "SHA1" "sha1" 20) by (done || lia); lia).
  rewrite Crypto.length_xorBytes; by rewrite !length_tls1PHash.
Qed.

(** C18: after the two ends have exchanged their key method messages, both derive
    the same 256 octets of key material, each from its own message, the message it
    received and the session ids. *)
Theorem key_exchange_agreement cr exported clientMessage serverMessage clientPayload serverPayload clientSeen serverSeen
    clientSessionID serverSessionID :
  Crypto_laws cr →
  buildTLSKeyMethod2Payload false clientMessage = Ok clientPayload → buildTLSKeyMethod2Payload true serverMessage = Ok serverPayload →
  parseTLSKeyMethod2Payload clientPayload false = Ok serverSeen → parseTLSKeyMethod2Payload serverPayload true = Ok clientSeen →
  ∃ keyMaterial, length keyMaterial = 256%nat ∧
    deriveRenegotiatedKeyMaterial cr exported false (km_KeySource clientMessage) (km_KeySource clientSeen)
      clientSessionID serverSessionID false = Ok keyMaterial ∧
    deriveRenegotiatedKeyMaterial cr exported false (km_KeySource serverSeen) (km_KeySource serverMessage)
      serverSessionID clientSessionID true = Ok keyMaterial.
Proof.
  intros Hcr Hc Hs Hps Hpc. rewrite (parse_build _ _ _ Hc) in Hps. rewrite (parse_build _ _ _ Hs) in Hpc.
  injection Hps as <-. injection Hpc as <-.
  apply build_Ok in Hc as (pm & ? & ? & ? & ? & -> & Hl & H1 & H2 & _). apply build_Ok in Hs as (? & ? & ? & ? & ? & _ & _ & H3 & H4 & _).
  unfold deriveRenegotiatedKeyMaterial, keySourcesComplete. cbn [km_KeySource sentMessage ks_PreMaster ks_Random1 ks_Random2].
  rewrite !bool_decide_eq_true_2 by done. cbn [andb negb]. eexists. split; [| by split]. by apply length_openvpnPRF.
Qed.

(** ** An example *)

Definition exampleKeySource (b : byte) : tlsKeyMethodKeySource := mkKeySource (replicate 48 b) (replicate 32 x01) (replicate 32 x02).

Definition exampleMessage (b : byte) : tlsKeyMethodMessage := mkMessage "V4" "user" EmptyString "IV_VER=2" (exampleKeySource b).

Definition examplePayloadOf (server : bool) (b : byte) : bytes :=
  match buildTLSKeyMethod2Payload server (exampleMessage b) with Ok p => p | Err _ => [] end.

Lemma key_method_roundtrip_witness :
  parseTLSKeyMethod2Payload (examplePayloadOf false x07) false = Ok (exampleMessage x07).
Proof. apply (key_method_roundtrip false (exampleMessage x07) (examplePayloadOf false x07)). vm_compute. reflexivity. Defined.

Lemma truncated_peer_info_accepted_witness :
  parseTLSKeyMethod2Payload (take (length (examplePayloadOf true x07) - 4) (examplePayloadOf true x07)) true =
    Ok (mkMessage "V4" "user" EmptyString ("IV_VE" +:+ stringOf (replicate 3 x00)) (mkKeySource [] (replicate 32 x01) (replicate 32 x02))).
Proof.
  rewrite (truncated_peer_info_accepted true (exampleMessage x07) (examplePayloadOf true x07) 4).
  - vm_compute. reflexivity.
  - vm_compute. reflexivity.
  - vm_compute. lia.
Defined.

Lemma key_exchange_agreement_witness :
  ∃ keyMaterial, length keyMaterial = 256%nat ∧
    deriveRenegotiatedKeyMaterial exampleCrypto (Err io_EOF) false (exampleKeySource x07) (mkKeySource [] (replicate 32 x01) (replicate 32 x02))
      [x0a] [x0b] false = Ok keyMaterial ∧
    deriveRenegotiatedKeyMaterial exampleCrypto (Err io_EOF) false (exampleKeySource x07) (exampleKeySource x08)
      [x0b] [x0a] true = Ok keyMaterial.
Proof.
  refine (key_exchange_agreement exampleCrypto (Err io_EOF) (exampleMessage x07) (exampleMessage x08)
    (examplePayloadOf false x07) (examplePayloadOf true x08) (sentMessage true (exampleMessage x08)) (exampleMessage x07) [x0a] [x0b] _ _ _ _ _).
  - apply exampleCrypto_laws.
  - vm_compute. reflexivity.
  - vm_compute. reflexivity.
  - vm_compute. reflexivity.
  - vm_compute. reflexivity.
Defined.
