(* ===== verification/Options.v ===== *)
(** * Options ([options.go], [options_validation.go], and the parsers of [tls_config.go]
      and [peer_certificate_verifier.go] that validation calls)

    The options a program embeds a client or a server with, and the checks
    [NewClient] and [NewServer] make before anything is started.  The context, the
    logger, the dialers and the callback of the source are not data and have no
    field; an injected listener or packet connection is its local address, an
    authenticator is whether there is one. *)

From Stdlib Require Import Strings.Ascii.
From S2P Require Import Prelude GoStrings ReplayWindow Netip Crypto Codec.

Definition ModeTLS : string := "tls".
Definition ModeStaticKey : string := "static_key".

(** ** Errors ([errors.go]) *)

Definition ErrMissingServer : goerr := ErrNew "missing openvpn server".
Definition ErrMissingListenAddress : goerr := ErrNew "missing openvpn listen address".
Definition ErrUnsupportedProtocol : goerr := ErrNew "unsupported openvpn protocol".
Definition ErrUnsupportedMode : goerr := ErrNew "unsupported openvpn mode".
Definition ErrMissingStaticKey : goerr := ErrNew "missing openvpn static key".
Definition ErrOptionNotSupported : goerr := ErrNew "option is not supported yet".
Definition ErrMissingCAOrPeerFingerprint : goerr :=
  ErrNew "tls mode: either certificate-authority or peer-fingerprint must be configured".
Definition ErrMaterialSourceConflict : goerr := ErrNew "material path and content are both set".

(** A guard with an early return. *)
Definition failIf (condition : bool) (error : goerr) : result unit := if condition then Err error else Ok ().

Lemma failIf_Ok b e u : failIf b e = Ok u ↔ b = false.
Proof. destruct b, u; naive_solver. Qed.

Definition nonEmpty (s : string) : bool := negb (bool_decide (s = EmptyString)).
Definition hasAny {A} (l : list A) : bool := negb (bool_decide (l = [])).

(** ** Data *)

Record PullFilter := mkPullFilter { pf_Action : string; pf_Text : string }.

Record Remote := mkRemote { rem_Host : string; rem_Port : Z; rem_Protocol : string }.

Record TunnelRoute := mkTunnelRoute { tr_Prefix : prefix; tr_Gateway : Addr; tr_Metric : Z }.

Record AddrPort := mkAddrPort { ap_Addr : Addr; ap_Port : Z }.

Record TunnelDNSServer := mkDNSServer {
  dns_Priority : Z;
  dns_Addresses : list AddrPort;
  dns_ResolveDomains : list string;
  dns_DNSSEC : string;
  dns_Transport : string;
  dns_SNI : string;
}.

Definition maxTunnelDNSServerAddresses : Z := 8.

#[export] Instance prefix_eq_dec : EqDecision prefix.
Proof. solve_decision. Defined.

#[export] Instance TunnelRoute_eq_dec : EqDecision TunnelRoute.
Proof. solve_decision. Defined.

#[export] Instance AddrPort_eq_dec : EqDecision AddrPort.
Proof. solve_decision. Defined.

#[export] Instance TunnelDNSServer_eq_dec : EqDecision TunnelDNSServer.
Proof. solve_decision. Defined.

Record Material := mkMaterial { m_Path : string; m_Content : bytes }.

Definition noMaterial : Material := mkMaterial EmptyString [].

Definition Validate (m : Material) (name : string) : result unit :=
  failIf (nonEmpty (m_Path m) && hasAny (m_Content m)) (ErrExtend ErrMaterialSourceConflict name).

Definition IsSet (m : Material) : bool := nonEmpty (m_Path m) || hasAny (m_Content m).

(** [readFile] is [os.ReadFile]. *)
Definition loadMaterial (readFile : string → result bytes) (material : Material) : result bytes :=
  _ ← Validate material "material";
  if hasAny (m_Content material) then Ok (m_Content material) else
  if negb (nonEmpty (m_Path material)) then Ok [] else
  readFile (m_Path material).

Record ClientTransportOptions := mkClientTransport {
  cto_Remotes : list Remote;
  cto_RemoteRandom : bool;
  cto_Protocol : string;
  cto_ExplicitExitNotify : Z;
}.

Record ClientDataChannelOptions := mkClientDataChannel {
  cdo_MTU : Z;
  cdo_MSSFix : Z;
  cdo_MSSFixDisabled : bool;
  cdo_MSSFixMode : string;
  cdo_Fragment : Z;
  cdo_Cipher : string;
  cdo_Ciphers : list string;
  cdo_FallbackCipher : string;
  cdo_Auth : string;
  cdo_Compression : string;
  cdo_CompressionLZO : string;
  cdo_AllowCompression : string;
  cdo_ReplayWindow : Z;
  cdo_ReplayWindowTime : Z;
  cdo_PacketHeadroom : Z;
}.

(** The options [ClientTLSOptions] and [ServerTLSOptions] have in common. *)
Record TLSOptions := mkTLSOptions {
  tls_CertificateAuthority : Material;
  tls_Certificate : Material;
  tls_Key : Material;
  tls_Auth : Material;
  tls_Crypt : Material;
  tls_CryptV2 : Material;
  tls_VerifyX509Name : string;
  tls_VerifyX509Type : string;
  tls_PeerFingerprint : list string;
  tls_CRLVerify : string;
  tls_RemoteCertificateKU : list string;
  tls_RemoteCertificateEKU : string;
  tls_RemoteCertificateTLS : string;
  tls_NSCertificateType : string;
  tls_VersionMin : string;
  tls_VersionMax : string;
  tls_CertificateProfile : string;
  tls_Cipher : string;
  tls_Groups : string;
}.

Record ClientAuthenticationOptions := mkClientAuthentication {
  cao_Username : string;
  cao_Password : string;
  cao_AuthRetry : string;
  cao_StaticChallenge : string;
  cao_StaticChallengeEcho : bool;
}.

Record ClientPullOptions := mkClientPull {
  cpo_Enabled : bool;
  cpo_Filters : list PullFilter;
  cpo_RouteNoPull : bool;
}.

Record ClientTunnelOptions := mkClientTunnel {
  ctn_DevType : string;
  ctn_Topology : string;
  ctn_RedirectGateway : bool;
  ctn_RedirectGatewayFlags : list string;
  ctn_RedirectPrivate : bool;
  ctn_RouteMetric : Z;
  ctn_BlockIPv6 : bool;
  ctn_BlockOutsideDNS : bool;
  ctn_RouteGateway : Addr;
  ctn_Routes : list TunnelRoute;
  ctn_DHCPOptions : list string;
  ctn_LocalAddress : list prefix;
  ctn_VPNGateway : Addr;
  ctn_VPNGatewayIPv6 : Addr;
}.

Record ClientTimingOptions := mkClientTiming {
  cti_RenegotiationInterval : Z;
  cti_RenegotiationDisabled : bool;
  cti_RenegotiationBytes : Z;
  cti_RenegotiationPackets : Z;
  cti_PingInterval : Z;
  cti_PingRestart : Z;
  cti_PingRestartDisabled : bool;
  cti_TLSTimeout : Z;
  cti_HandWindow : Z;
}.

Record ClientOptions := mkClientOptions {
  co_Mode : string;
  co_Transport : ClientTransportOptions;
  co_DataChannel : ClientDataChannelOptions;
  co_TLS : TLSOptions;
  co_Authentication : ClientAuthenticationOptions;
  co_Pull : ClientPullOptions;
  co_Tunnel : ClientTunnelOptions;
  co_Timing : ClientTimingOptions;
  co_StaticKey : Material;
  co_KeyDirection : Z;
}.

Record ServerTransportOptions := mkServerTransport {
  sto_ListenAddress : string;
  sto_RemoteAddress : string;
  sto_Listener : option string;
  sto_PacketConn : option string;
  sto_Protocol : string;
}.

Record ServerResourceOptions := mkServerResource {
  sro_MaxClients : Z;
  sro_ConnectFrequency : Z;
  sro_ConnectFrequencyPeriod : Z;
  sro_InitialConnectFrequency : Z;
  sro_InitialConnectFrequencyPeriod : Z;
}.

Record ServerDataChannelOptions := mkServerDataChannel {
  sdo_MTU : Z;
  sdo_MSSFix : Z;
  sdo_MSSFixDisabled : bool;
  sdo_MSSFixMode : string;
  sdo_Cipher : string;
  sdo_Ciphers : list string;
  sdo_FallbackCipher : string;
  sdo_Auth : string;
  sdo_ReplayWindow : Z;
  sdo_ReplayWindowTime : Z;
  sdo_PacketHeadroom : Z;
}.

Record ServerTimingOptions := mkServerTiming {
  sti_RenegotiationInterval : Z;
  sti_RenegotiationDisabled : bool;
  sti_RenegotiationBytes : Z;
  sti_RenegotiationPackets : Z;
  sti_HandWindow : Z;
  sti_PingInterval : Z;
  sti_PingRestart : Z;
}.

Record ServerTunnelOptions := mkServerTunnel {
  stn_AddressPools : list prefix;
  stn_Topology : string;
  stn_LocalAddress : list prefix;
  stn_VPNGateway : Addr;
  stn_VPNGatewayIPv6 : Addr;
}.

Record ServerPushOptions := mkServerPush {
  spo_Routes : list prefix;
  spo_DNS : list Addr;
  spo_DNSServers : list TunnelDNSServer;
  spo_SearchDomains : list string;
  spo_DHCPOptions : list string;
  spo_BlockOutsideDNS : bool;
  spo_PingInterval : Z;
  spo_PingIntervalEnabled : bool;
  spo_PingRestart : Z;
  spo_PingRestartEnabled : bool;
  spo_RedirectGateway : bool;
  spo_RedirectGatewayFlags : list string;
}.

(** [ServerTLSOptions] adds two fields to the common ones. *)
Record ServerOptions := mkServerOptions {
  so_Mode : string;
  so_Transport : ServerTransportOptions;
  so_Resources : ServerResourceOptions;
  so_DataChannel : ServerDataChannelOptions;
  so_TLS : TLSOptions;
  so_CryptV2ForceCookie : bool;
  so_VerifyClientCertificate : string;
  so_Authenticator : bool;
  so_DuplicateCN : bool;
  so_Timing : ServerTimingOptions;
  so_Tunnel : ServerTunnelOptions;
  so_Push : ServerPushOptions;
  so_StaticKey : Material;
  so_KeyDirection : Z;
}.

Definition prefix_IsValid (p : prefix) : bool :=
  Addr_IsValid (prefix_Addr p) && (0 <=? prefix_Bits p) && (prefix_Bits p <=? addrFamily (prefix_Addr p)).

(** ** Parsers of TLS options *)

Definition hasTLSCredentialMaterial (values : list Material) : bool := existsb IsSet values.

Definition parseTLSVersionToken (versionToken : string) : result Z :=
  if decide (versionToken = EmptyString) then Ok 0 else
  if decide (versionToken = "1.0") then Ok 769 else
  if decide (versionToken = "1.1") then Ok 770 else
  if decide (versionToken = "1.2") then Ok 771 else
  if decide (versionToken = "1.3") then Ok 772 else
  Err (ErrNew ("unknown tls-version parameter: " +:+ versionToken)).

Definition resolveTLSVersionBounds (versionMinToken versionMaxToken : string) : result (Z * Z) :=
  parsedMin ← parseTLSVersionToken versionMinToken;
  parsedMax ← parseTLSVersionToken versionMaxToken;
  let parsedMin := if parsedMin =? 0 then 771 else parsedMin in
  if negb (parsedMax =? 0) && (parsedMax <? parsedMin) then Err (ErrNew "tls-version-min bigger than tls-version-max") else
  Ok (parsedMin, parsedMax).

Definition parseTLSCertProfile (profile : string) : result string :=
  if decide (profile ∈ [EmptyString; "legacy"; "preferred"; "insecure"; "suiteb"])
  then Ok (if decide (profile = EmptyString) then "legacy" else profile)
  else Err (ErrNew ("unknown tls-cert-profile value: " +:+ profile)).

Definition validateTLSCredentialSet (mode : string) (certificateAuthority certificate key : Material)
    (peerFingerprints : list string) (requireCertAndKey : bool) : result unit :=
  let caSet := IsSet certificateAuthority in
  let certSet := IsSet certificate in
  let keySet := IsSet key in
  if negb caSet && negb certSet && negb keySet && negb (hasAny peerFingerprints) then
    if decide (mode = ModeTLS)
    then Err (if requireCertAndKey then ErrNew "tls server requires certificate and key" else ErrMissingCAOrPeerFingerprint)
    else Ok ()
  else
  _ ← failIf (negb (bool_decide (mode = ModeTLS))) (ErrExtend ErrOptionNotSupported "certificate material outside tls mode");
  _ ← failIf (xorb certSet keySet) (ErrNew "certificate and key must both be set or both omitted");
  failIf (requireCertAndKey && negb certSet) (ErrNew "tls server requires certificate and key").

(** The suites with their OpenSSL names and [tls.CipherSuiteName]. *)
Definition tlsCipherTranslationTable : list (string * Z * string) :=
  [("RC4-SHA", 5, "TLS_RSA_WITH_RC4_128_SHA");
   ("DES-CBC3-SHA", 10, "TLS_RSA_WITH_3DES_EDE_CBC_SHA");
   ("AES128-SHA", 47, "TLS_RSA_WITH_AES_128_CBC_SHA");
   ("AES256-SHA", 53, "TLS_RSA_WITH_AES_256_CBC_SHA");
   ("AES128-SHA256", 60, "TLS_RSA_WITH_AES_128_CBC_SHA256");
   ("AES128-GCM-SHA256", 156, "TLS_RSA_WITH_AES_128_GCM_SHA256");
   ("AES256-GCM-SHA384", 157, "TLS_RSA_WITH_AES_256_GCM_SHA384");
   ("ECDHE-ECDSA-AES128-SHA", 49161, "TLS_ECDHE_ECDSA_WITH_AES_128_CBC_SHA");
   ("ECDHE-ECDSA-AES256-SHA", 49162, "TLS_ECDHE_ECDSA_WITH_AES_256_CBC_SHA");
   ("ECDHE-ECDSA-RC4-SHA", 49159, "TLS_ECDHE_ECDSA_WITH_RC4_128_SHA");
   ("ECDHE-RSA-RC4-SHA", 49169, "TLS_ECDHE_RSA_WITH_RC4_128_SHA");
   ("ECDHE-RSA-DES-CBC3-SHA", 49170, "TLS_ECDHE_RSA_WITH_3DES_EDE_CBC_SHA");
   ("ECDHE-RSA-AES128-SHA", 49171, "TLS_ECDHE_RSA_WITH_AES_128_CBC_SHA");
   ("ECDHE-RSA-AES256-SHA", 49172, "TLS_ECDHE_RSA_WITH_AES_256_CBC_SHA");
   ("ECDHE-ECDSA-AES128-SHA256", 49187, "TLS_ECDHE_ECDSA_WITH_AES_128_CBC_SHA256");
   ("ECDHE-RSA-AES128-SHA256", 49191, "TLS_ECDHE_RSA_WITH_AES_128_CBC_SHA256");
   ("ECDHE-ECDSA-AES128-GCM-SHA256", 49195, "TLS_ECDHE_ECDSA_WITH_AES_128_GCM_SHA256");
   ("ECDHE-RSA-AES128-GCM-SHA256", 49199, "TLS_ECDHE_RSA_WITH_AES_128_GCM_SHA256");
   ("ECDHE-ECDSA-AES256-GCM-SHA384", 49196, "TLS_ECDHE_ECDSA_WITH_AES_256_GCM_SHA384");
   ("ECDHE-RSA-AES256-GCM-SHA384", 49200, "TLS_ECDHE_RSA_WITH_AES_256_GCM_SHA384");
   ("ECDHE-ECDSA-CHACHA20-POLY1305", 52393, "TLS_ECDHE_ECDSA_WITH_CHACHA20_POLY1305_SHA256");
   ("ECDHE-RSA-CHACHA20-POLY1305", 52392, "TLS_ECDHE_RSA_WITH_CHACHA20_POLY1305_SHA256")].

Definition lookupTLSCipherSuite (token : string) : result Z :=
  match find (λ '(openSSLName, suiteID, name), bool_decide (openSSLName = token) || bool_decide (name = token))
             tlsCipherTranslationTable with
  | Some (_, suiteID, _) => Ok suiteID
  | None => Err (ErrNew ("unsupported tls-cipher name: " +:+ token))
  end.

(** The loop over the tokens of a list: every token is looked up, duplicates are
    left out; [seen] is the set of what [collected] holds. *)
Fixpoint collectTokens (emptyToken : goerr) (lookup : string → result Z) (tokens : list string) (seen : gset Z)
    (collected : list Z) : result (list Z) :=
  match tokens with
  | [] => Ok collected
  | token :: tokens =>
      if decide (token = EmptyString) then Err emptyToken else
      found ← lookup token;
      if decide (found ∈ seen) then collectTokens emptyToken lookup tokens seen collected
      else collectTokens emptyToken lookup tokens ({[found]} ∪ seen) (collected ++ [found])
  end.

Definition parseTLSCipherSuites (input : string) : result (list Z) :=
  if decide (input = EmptyString) then Ok [] else
  suiteIDs ← collectTokens (ErrNew "tls-cipher contains an empty cipher suite") lookupTLSCipherSuite
               (Split ":"%char input) ∅ [];
  if negb (hasAny suiteIDs) then Err (ErrNew "tls-cipher yielded no supported TLS 1.2 cipher suites") else Ok suiteIDs.

Definition tlsGroupAliases : gmap string Z := list_to_map
  [("X25519", 29); ("CURVE25519", 29); ("SECP256R1", 23); ("PRIME256V1", 23); ("P-256", 23); ("NISTP256", 23);
   ("SECP384R1", 24); ("P-384", 24); ("NISTP384", 24); ("SECP521R1", 25); ("P-521", 25); ("NISTP521", 25)].

Definition parseTLSGroups (input : string) : result (list Z) :=
  if decide (input = EmptyString) then Ok [] else
  curveIDs ← collectTokens (ErrNew "tls-groups contains an empty group name")
    (λ token, match tlsGroupAliases !! token with
              | Some curveID => Ok curveID
              | None => Err (ErrNew ("unsupported tls-groups name: " +:+ token))
              end) (Split ":"%char input) ∅ [];
  if negb (hasAny curveIDs) then Err (ErrNew "tls-groups yielded no supported curves") else Ok curveIDs.

Definition applyCertificateProfileTLSCipherDefault (profile : string) (cipherSuites : list Z) : list Z :=
  if negb (bool_decide (profile = "suiteb")) || hasAny cipherSuites then cipherSuites else [49195; 49196].

(** ** Certificate usages *)

(** [asn1.ObjectIdentifier]. *)
Abbreviation ObjectIdentifier := (list Z) (only parsing).

Definition serverAuthOID : ObjectIdentifier := [1; 3; 6; 1; 5; 5; 7; 3; 1].
Definition clientAuthOID : ObjectIdentifier := [1; 3; 6; 1; 5; 5; 7; 3; 2].

Definition openSSLKeyPurposeNames : gmap string (list Z) := list_to_map
  [("server", serverAuthOID); ("client", clientAuthOID);
   ("TLS Web Server Authentication", serverAuthOID); ("TLS Web Client Authentication", clientAuthOID);
   ("Code Signing", [1; 3; 6; 1; 5; 5; 7; 3; 3]); ("E-mail Protection", [1; 3; 6; 1; 5; 5; 7; 3; 4]);
   ("IPSec End System", [1; 3; 6; 1; 5; 5; 7; 3; 5]); ("IPSec Tunnel", [1; 3; 6; 1; 5; 5; 7; 3; 6]);
   ("IPSec User", [1; 3; 6; 1; 5; 5; 7; 3; 7]); ("Time Stamping", [1; 3; 6; 1; 5; 5; 7; 3; 8]);
   ("OCSP Signing", [1; 3; 6; 1; 5; 5; 7; 3; 9]); ("Any Extended Key Usage", [2; 5; 29; 37; 0]);
   ("Microsoft Server Gated Crypto", [1; 3; 6; 1; 4; 1; 311; 10; 3; 3]);
   ("Netscape Server Gated Crypto", [2; 16; 840; 1; 113730; 4; 1]);
   ("Microsoft Commercial Code Signing", [1; 3; 6; 1; 4; 1; 311; 2; 1; 22]);
   ("Microsoft Individual Code Signing", [1; 3; 6; 1; 4; 1; 311; 2; 1; 21])].

Definition parseHexKeyUsage (value : string) : result Z :=
  if decide (value = EmptyString) then Err (ErrNew "empty key usage hex") else ParseHex value 64.

Fixpoint parseRemoteCertKeyUsages (values : list string) : result (list Z) :=
  match values with
  | [] => Ok []
  | value :: values =>
      if decide (value = EmptyString) then Err (ErrNew "empty key usage hex") else
      parsed ← parseHexKeyUsage value;
      parsedValues ← parseRemoteCertKeyUsages values;
      Ok (parsed :: parsedValues)
  end.

Definition invalidObjectIdentifier : goerr := ErrNew "invalid object identifier".

Fixpoint parseComponents (parts : list string) : result (list Z) :=
  match parts with
  | [] => Ok []
  | part :: parts =>
      if decide (part = EmptyString) then Err invalidObjectIdentifier else
      match Atoi part with
      | Ok component =>
          if component <? 0 then Err invalidObjectIdentifier else
          identifier ← parseComponents parts; Ok (component :: identifier)
      | Err _ => Err invalidObjectIdentifier
      end
  end.

Definition parseObjectIdentifier (value : string) : result ObjectIdentifier :=
  let parts := Split "."%char value in
  if lenZ parts <? 2 then Err invalidObjectIdentifier else
  identifier ← parseComponents parts;
  match identifier with
  | a :: b :: _ =>
      if (2 <? a) || ((a <? 2) && (39 <? b)) then Err invalidObjectIdentifier else Ok identifier
  | _ => Err invalidObjectIdentifier
  end.

Definition parseRemoteCertExtKeyUsage (value : string) : result (list ObjectIdentifier) :=
  if decide (value = EmptyString) then Ok [] else
  match openSSLKeyPurposeNames !! value with
  | Some knownUsage => Ok [knownUsage]
  | None =>
      match parseObjectIdentifier value with
      | Ok usage => Ok [usage]
      | Err _ => Err (ErrNew ("unsupported remote-cert-eku value: " +:+ value))
      end
  end.

Definition expandRemoteCertTLS (mode : string) : result (bool * list ObjectIdentifier) :=
  if decide (mode = EmptyString) then Ok (false, []) else
  if decide (mode = "server") then Ok (true, [serverAuthOID]) else
  if decide (mode = "client") then Ok (true, [clientAuthOID]) else
  Err (ErrNew ("remote-cert-tls must be 'client' or 'server', got: " +:+ mode)).

Definition mergeExtendedKeyUsage (existing additional : list ObjectIdentifier) : list ObjectIdentifier :=
  if negb (hasAny additional) then existing else
  if negb (hasAny existing) then additional else
  foldl (λ merged addition, if decide (addition ∈ merged) then merged else merged ++ [addition]) existing additional.

(** ** Validation ([options_validation.go]) *)

Definition MSSFixModeMTU : string := "mtu".
Definition MSSFixModeFixed : string := "fixed".
Definition peerIDMaxValue : Z := 2 ^ 24 - 1.

Definition validateMode (mode : string) : result string :=
  if decide (mode ∈ [ModeTLS; ModeStaticKey]) then Ok mode else Err ErrUnsupportedMode.

Definition validateDurationOption (name : string) (value : Z) : result unit :=
  _ ← failIf (value <? 0) (ErrNew (name +:+ " must not be negative"));
  failIf ((0 <? value) && (value <? Second)) (ErrNew (name +:+ " must be zero or at least 1s")).

Definition validatePingDurationOption (name : string) (value : Z) : result unit :=
  _ ← validateDurationOption name value;
  failIf (negb (Z.rem value Second =? 0)) (ErrNew (name +:+ " must use whole seconds")).

Definition validateClientDurationOptions (options : ClientOptions) : result unit :=
  let timingOptions := co_Timing options in
  _ ← failIf (cti_RenegotiationDisabled timingOptions && (0 <? cti_RenegotiationInterval timingOptions))
        (ErrNew "ClientOptions.Timing.RenegotiationInterval conflicts with RenegotiationDisabled");
  _ ← validateDurationOption "ClientOptions.Timing.RenegotiationInterval" (cti_RenegotiationInterval timingOptions);
  _ ← validatePingDurationOption "ClientOptions.Timing.PingInterval" (cti_PingInterval timingOptions);
  _ ← validatePingDurationOption "ClientOptions.Timing.PingRestart" (cti_PingRestart timingOptions);
  _ ← failIf (cti_PingRestartDisabled timingOptions && (0 <? cti_PingRestart timingOptions))
        (ErrNew "ClientOptions.Timing.PingRestart conflicts with PingRestartDisabled");
  _ ← validateDurationOption "ClientOptions.Timing.TLSTimeout" (cti_TLSTimeout timingOptions);
  validateDurationOption "ClientOptions.Timing.HandWindow" (cti_HandWindow timingOptions).

Definition validateServerDurationOptions (options : ServerOptions) : result unit :=
  let timingOptions := so_Timing options in
  _ ← failIf (sti_RenegotiationDisabled timingOptions && (0 <? sti_RenegotiationInterval timingOptions))
        (ErrNew "ServerOptions.Timing.RenegotiationInterval conflicts with RenegotiationDisabled");
  _ ← validateDurationOption "ServerOptions.Timing.RenegotiationInterval" (sti_RenegotiationInterval timingOptions);
  _ ← validateDurationOption "ServerOptions.Timing.HandWindow" (sti_HandWindow timingOptions);
  _ ← validatePingDurationOption "ServerOptions.Timing.PingInterval" (sti_PingInterval timingOptions);
  _ ← validatePingDurationOption "ServerOptions.Timing.PingRestart" (sti_PingRestart timingOptions);
  _ ← validatePingDurationOption "ServerOptions.Push.PingInterval" (spo_PingInterval (so_Push options));
  validatePingDurationOption "ServerOptions.Push.PingRestart" (spo_PingRestart (so_Push options)).

Definition validateDataCipherName (name cipherName : string) : result unit :=
  if decide (cipherName ∈
       [EmptyString; "BF-CBC"; "DES-CBC"; "DES-EDE-CBC"; "DES-EDE3-CBC"; "CAST5-CBC";
        "AES-128-CBC"; "AES-192-CBC"; "AES-256-CBC"; "ARIA-128-CBC"; "ARIA-192-CBC"; "ARIA-256-CBC";
        "CAMELLIA-128-CBC"; "CAMELLIA-192-CBC"; "CAMELLIA-256-CBC"; "SEED-CBC"; "SM4-CBC";
        "AES-128-GCM"; "AES-192-GCM"; "AES-256-GCM"; "CHACHA20-POLY1305"; "NONE"]) then Ok () else
  match tlsStreamCipherSpec cipherName with
  | Ok _ => Ok ()
  | Err _ => Err (ErrNew (name +:+ " must use a canonical OpenVPN cipher name"))
  end.

(** The loop over [Ciphers]; [cipherIndex] is the range index. *)
Fixpoint validateDataCiphers (optionsName : string) (cipherIndex : Z) (dataCiphers : list string) : result unit :=
  match dataCiphers with
  | [] => Ok ()
  | dataCipher :: dataCiphers =>
      _ ← failIf (negb (nonEmpty dataCipher))
            (ErrNew (optionsName +:+ ".Ciphers[" +:+ Itoa cipherIndex +:+ "] must not be empty"));
      _ ← validateDataCipherName (optionsName +:+ ".Ciphers[" +:+ Itoa cipherIndex +:+ "]") dataCipher;
      validateDataCiphers optionsName (cipherIndex + 1) dataCiphers
  end.

Definition validateDataChannelNames (optionsName cipherName : string) (dataCiphers : list string)
    (fallbackCipher authName : string) : result unit :=
  _ ← validateDataCipherName (optionsName +:+ ".Cipher") cipherName;
  _ ← validateDataCiphers optionsName 0 dataCiphers;
  _ ← validateDataCipherName (optionsName +:+ ".FallbackCipher") fallbackCipher;
  if decide (authName ∈ [EmptyString; "SHA1"; "SHA224"; "SHA256"; "SHA384"; "SHA512"; "RIPEMD160"; "MD5"; "NONE"])
  then Ok () else Err (ErrNew (optionsName +:+ ".Auth must use a canonical OpenVPN digest name")).

Definition validateDataChannelPolicy (optionsName : string) (mssFix : Z) (mssFixDisabled : bool) (mssFixMode : string)
    (replayWindow replayWindowTime : Z) : result unit :=
  _ ← failIf ((0 <? mssFix) && mssFixDisabled) (ErrNew (optionsName +:+ ".MSSFix conflicts with MSSFixDisabled"));
  _ ← failIf (mssFixDisabled && nonEmpty mssFixMode) (ErrNew (optionsName +:+ ".MSSFixMode conflicts with MSSFixDisabled"));
  _ ← failIf ((mssFix =? 0) && nonEmpty mssFixMode) (ErrNew (optionsName +:+ ".MSSFixMode requires MSSFix"));
  _ ← failIf (negb (bool_decide (mssFixMode ∈ [EmptyString; MSSFixModeMTU; MSSFixModeFixed])))
        (ErrNew (optionsName +:+ ".MSSFixMode must be mtu or fixed"));
  _ ← failIf (maxReplayWindowSize <? replayWindow) (ErrNew (optionsName +:+ ".ReplayWindow must not exceed 65536"));
  _ ← failIf ((replayWindowTime <? 0) || (maxReplayWindowTime <? replayWindowTime))
        (ErrNew (optionsName +:+ ".ReplayWindowTime must be between 0s and 10m0s"));
  failIf (negb (Z.rem replayWindowTime Second =? 0)) (ErrNew (optionsName +:+ ".ReplayWindowTime must use whole seconds")).

Fixpoint isLowerHex (value : string) : bool :=
  match value with
  | EmptyString => true
  | String character value =>
      let n := Z.of_nat (nat_of_ascii character) in
      if ((n <? 48) || (57 <? n)) && ((n <? 97) || (102 <? n)) then false else isLowerHex value
  end.

Fixpoint validateFingerprints (optionsName : string) (fingerprintIndex : Z) (peerFingerprints : list string) : result unit :=
  match peerFingerprints with
  | [] => Ok ()
  | fingerprint :: peerFingerprints =>
      _ ← failIf (negb (bool_decide (String.length fingerprint = 64%nat)) || negb (isLowerHex fingerprint))
            (ErrNew (optionsName +:+ ".PeerFingerprint[" +:+ Itoa fingerprintIndex +:+ "] must be canonical lowercase hex"));
      validateFingerprints optionsName (fingerprintIndex + 1) peerFingerprints
  end.

Definition validateTLSOptionNames (optionsName : string) (o : TLSOptions) : result unit :=
  _ ← failIf (negb (bool_decide (tls_VerifyX509Type o ∈ [EmptyString; "subject"; "name"; "name-prefix"])))
        (ErrNew (optionsName +:+ ".VerifyX509Type must be subject, name, or name-prefix"));
  _ ← validateFingerprints optionsName 0 (tls_PeerFingerprint o);
  _ ← parseRemoteCertKeyUsages (tls_RemoteCertificateKU o);
  _ ← parseRemoteCertExtKeyUsage (tls_RemoteCertificateEKU o);
  _ ← expandRemoteCertTLS (tls_RemoteCertificateTLS o);
  _ ← failIf (negb (bool_decide (tls_NSCertificateType o ∈ [EmptyString; "server"; "client"])))
        (ErrNew (optionsName +:+ ".NSCertificateType must be server or client"));
  _ ← resolveTLSVersionBounds (tls_VersionMin o) (tls_VersionMax o);
  _ ← parseTLSCertProfile (tls_CertificateProfile o);
  _ ← parseTLSCipherSuites (tls_Cipher o);
  _ ← parseTLSGroups (tls_Groups o);
  Ok ().

Definition validateMaterialSources (o : TLSOptions) (staticKey : Material) : result unit :=
  foldl (λ r '(name, material), _ ← r; Validate material name) (Ok ())
    [("certificate-authority", tls_CertificateAuthority o); ("certificate", tls_Certificate o); ("key", tls_Key o);
     ("tls-auth", tls_Auth o); ("tls-crypt", tls_Crypt o); ("tls-crypt-v2", tls_CryptV2 o); ("static-key", staticKey)].

Definition validateClientMaterialSources (options : ClientOptions) : result unit :=
  validateMaterialSources (co_TLS options) (co_StaticKey options).

Definition validateServerMaterialSources (options : ServerOptions) : result unit :=
  validateMaterialSources (so_TLS options) (so_StaticKey options).

Fixpoint validatePullFilters (filterIndex : Z) (filters : list PullFilter) : result unit :=
  match filters with
  | [] => Ok ()
  | filter :: filters =>
      let name := "ClientOptions.Pull.Filters[" +:+ Itoa filterIndex +:+ "]" in
      _ ← failIf (negb (bool_decide (pf_Action filter ∈ ["accept"; "ignore"; "reject"])))
            (ErrNew (name +:+ ".Action must be accept, ignore, or reject"));
      _ ← failIf (negb (nonEmpty (pf_Text filter))) (ErrNew (name +:+ ".Text must not be empty"));
      validatePullFilters (filterIndex + 1) filters
  end.

Definition validateClientPolicyOptions (options : ClientOptions) : result unit :=
  _ ← failIf (negb (bool_decide (ctn_DevType (co_Tunnel options) ∈ [EmptyString; "tun"])))
        (ErrNew "ClientOptions.Tunnel.DevType must be tun");
  _ ← failIf (negb (bool_decide (ctn_Topology (co_Tunnel options) ∈ [EmptyString; "net30"; "p2p"; "subnet"])))
        (ErrNew "ClientOptions.Tunnel.Topology must be net30, p2p, or subnet");
  _ ← failIf (negb (bool_decide (cao_AuthRetry (co_Authentication options) ∈ [EmptyString; "none"; "nointeract"; "interact"])))
        (ErrNew "ClientOptions.Authentication.AuthRetry must be none, nointeract, or interact");
  _ ← validatePullFilters 0 (cpo_Filters (co_Pull options));
  failIf ((0 <? cdo_Fragment (co_DataChannel options)) && (cdo_Fragment (co_DataChannel options) <? 68))
    (ErrNew "ClientOptions.DataChannel.Fragment must be zero or at least 68").

(** Any option that only a TLS session uses. *)
Definition hasTLSNames (o : TLSOptions) : bool :=
  nonEmpty (tls_VerifyX509Name o) || nonEmpty (tls_VerifyX509Type o) || hasAny (tls_PeerFingerprint o) ||
  nonEmpty (tls_CRLVerify o) || hasAny (tls_RemoteCertificateKU o) || nonEmpty (tls_RemoteCertificateEKU o) ||
  nonEmpty (tls_RemoteCertificateTLS o) || nonEmpty (tls_NSCertificateType o) || nonEmpty (tls_VersionMin o) ||
  nonEmpty (tls_VersionMax o) || nonEmpty (tls_CertificateProfile o) || nonEmpty (tls_Cipher o) || nonEmpty (tls_Groups o).

Definition tlsMaterials (o : TLSOptions) : list Material :=
  [tls_CertificateAuthority o; tls_Certificate o; tls_Key o; tls_Auth o; tls_Crypt o; tls_CryptV2 o].

(** At most one way of protecting the control channel. *)
Definition validateControlProtection (o : TLSOptions) : result unit :=
  _ ← failIf (IsSet (tls_Auth o) && IsSet (tls_Crypt o)) (ErrExtend ErrOptionNotSupported "tls_auth+tls_crypt");
  _ ← failIf (IsSet (tls_Auth o) && IsSet (tls_CryptV2 o)) (ErrExtend ErrOptionNotSupported "tls_auth+tls_crypt_v2");
  failIf (IsSet (tls_Crypt o) && IsSet (tls_CryptV2 o)) (ErrExtend ErrOptionNotSupported "tls_crypt+tls_crypt_v2").

Definition validateImplementedClientOptions (options : ClientOptions) : result unit :=
  let dataChannelOptions := co_DataChannel options in
  let tlsOptions := co_TLS options in
  let timingOptions := co_Timing options in
  let static := bool_decide (co_Mode options = ModeStaticKey) in
  _ ← failIf ((co_KeyDirection options <? -1) || (1 <? co_KeyDirection options))
        (ErrNew "ClientOptions.KeyDirection must be -1, 0, or 1");
  _ ← validateClientMaterialSources options;
  _ ← validateClientDurationOptions options;
  _ ← validateDataChannelNames "ClientOptions.DataChannel" (cdo_Cipher dataChannelOptions) (cdo_Ciphers dataChannelOptions)
        (cdo_FallbackCipher dataChannelOptions) (cdo_Auth dataChannelOptions);
  _ ← validateDataChannelPolicy "ClientOptions.DataChannel" (cdo_MSSFix dataChannelOptions) (cdo_MSSFixDisabled dataChannelOptions)
        (cdo_MSSFixMode dataChannelOptions) (cdo_ReplayWindow dataChannelOptions) (cdo_ReplayWindowTime dataChannelOptions);
  _ ← (if static then
         _ ← failIf (negb (nonEmpty (cdo_Cipher dataChannelOptions)))
               (ErrNew "ClientOptions.DataChannel.Cipher is required in static_key mode");
         _ ← match staticCipherKeySize (cdo_Cipher dataChannelOptions) with
             | Ok _ => Ok ()
             | Err _ => Err (ErrNew ("ClientOptions.DataChannel.Cipher is not supported in static_key mode: "
                                      +:+ cdo_Cipher dataChannelOptions))
             end;
         failIf (hasAny (cdo_Ciphers dataChannelOptions) || nonEmpty (cdo_FallbackCipher dataChannelOptions))
           (ErrExtend ErrOptionNotSupported "data_ciphers in static_key mode; use Cipher")
       else Ok ());
  _ ← validateTLSOptionNames "ClientOptions.TLS" tlsOptions;
  _ ← validateTLSCredentialSet (co_Mode options) (tls_CertificateAuthority tlsOptions) (tls_Certificate tlsOptions)
        (tls_Key tlsOptions) (tls_PeerFingerprint tlsOptions) false;
  _ ← validateClientPolicyOptions options;
  _ ← failIf (bool_decide (co_Mode options = ModeTLS) && IsSet (co_StaticKey options))
        (ErrExtend ErrOptionNotSupported "static_key in tls mode");
  _ ← failIf (static && hasTLSCredentialMaterial (tlsMaterials tlsOptions))
        (ErrExtend ErrOptionNotSupported "TLS material in static_key mode");
  _ ← failIf (static && (hasTLSNames tlsOptions || negb (cti_TLSTimeout timingOptions =? 0) ||
                         negb (cti_HandWindow timingOptions =? 0) || negb (cti_RenegotiationBytes timingOptions =? 0) ||
                         negb (cti_RenegotiationPackets timingOptions =? 0)))
        (ErrExtend ErrOptionNotSupported "TLS options in static_key mode");
  validateControlProtection tlsOptions.

Definition validateServerResourceOptions (options : ServerOptions) : result unit :=
  let r := so_Resources options in
  _ ← failIf (sro_MaxClients r <? 0) (ErrNew "ServerOptions.Resources.MaxClients must not be negative");
  _ ← failIf (peerIDMaxValue <=? sro_MaxClients r) (ErrNew "ServerOptions.Resources.MaxClients must be less than 16777215");
  _ ← failIf (bool_decide (so_Mode options = ModeStaticKey) && (1 <? sro_MaxClients r))
        (ErrNew "ServerOptions.Resources.MaxClients must not exceed 1 in static_key mode");
  _ ← failIf (sro_ConnectFrequency r <? 0) (ErrNew "ServerOptions.Resources.ConnectFrequency must not be negative");
  _ ← failIf ((0 <? sro_ConnectFrequency r) && (sro_ConnectFrequencyPeriod r <=? 0))
        (ErrNew "ServerOptions.Resources.ConnectFrequency requires ConnectFrequencyPeriod");
  _ ← failIf (sro_ConnectFrequencyPeriod r <? 0) (ErrNew "ServerOptions.Resources.ConnectFrequencyPeriod must not be negative");
  _ ← failIf ((0 <? sro_ConnectFrequencyPeriod r) && negb (HasPrefix (sto_Protocol (so_Transport options)) "udp"))
        (ErrNew "ServerOptions.Resources.ConnectFrequency is only supported by UDP servers");
  _ ← failIf (sro_InitialConnectFrequency r <? 0) (ErrNew "ServerOptions.Resources.InitialConnectFrequency must not be negative");
  _ ← failIf ((0 <? sro_InitialConnectFrequency r) && (sro_InitialConnectFrequencyPeriod r <=? 0))
        (ErrNew "ServerOptions.Resources.InitialConnectFrequency requires InitialConnectFrequencyPeriod");
  failIf (sro_InitialConnectFrequencyPeriod r <? 0)
    (ErrNew "ServerOptions.Resources.InitialConnectFrequencyPeriod must not be negative").

Definition isDomainCharacter (c : ascii) : bool :=
  let n := Z.of_nat (nat_of_ascii c) in
  ((65 <=? n) && (n <=? 90)) || ((97 <=? n) && (n <=? 122)) || ((48 <=? n) && (n <=? 57)) ||
  (n =? 46) || (n =? 45) || (n =? 95) || (128 <=? n).

Fixpoint allCharacters (p : ascii → bool) (s : string) : bool :=
  match s with EmptyString => true | String c s => p c && allCharacters p s end.

Definition validateTunnelDNSDomain (domain : string) : bool :=
  nonEmpty domain && allCharacters isDomainCharacter domain.

(** The first element that fails a test stops a range loop with an error that
    names its index. *)
Fixpoint checkEach {A} (ok : A → bool) (error : Z → goerr) (i : Z) (l : list A) : result unit :=
  match l with
  | [] => Ok ()
  | x :: l => if ok x then checkEach ok error (i + 1) l else Err (error i)
  end.

Fixpoint validateDNSServers (seenDNSPriorities : gset Z) (serverIndex : Z) (servers : list TunnelDNSServer) : result unit :=
  match servers with
  | [] => Ok ()
  | server :: servers =>
      let name := "ServerOptions.Push.DNSServers[" +:+ Itoa serverIndex +:+ "]" in
      _ ← failIf ((dns_Priority server <? 0) || (127 <? dns_Priority server))
            (ErrNew (name +:+ ".Priority must be between 0 and 127"));
      _ ← failIf (bool_decide (dns_Priority server ∈ seenDNSPriorities))
            (ErrNew ("ServerOptions.Push.DNSServers contains duplicate priority " +:+ Itoa (dns_Priority server)));
      _ ← failIf (negb (hasAny (dns_Addresses server))) (ErrNew (name +:+ " must contain at least one address"));
      _ ← failIf (maxTunnelDNSServerAddresses <? lenZ (dns_Addresses server))
            (ErrNew (name +:+ " must not contain more than 8 addresses"));
      _ ← checkEach (λ address, Addr_IsValid (ap_Addr address))
            (λ i, ErrNew (name +:+ ".Addresses[" +:+ Itoa i +:+ "] is invalid")) 0 (dns_Addresses server);
      _ ← checkEach validateTunnelDNSDomain
            (λ i, ErrNew (name +:+ ".ResolveDomains[" +:+ Itoa i +:+ "] contains invalid characters")) 0
            (dns_ResolveDomains server);
      _ ← failIf (nonEmpty (dns_SNI server) && negb (validateTunnelDNSDomain (dns_SNI server)))
            (ErrNew (name +:+ ".SNI contains invalid characters"));
      _ ← failIf (negb (bool_decide (dns_DNSSEC server ∈ [EmptyString; "yes"; "optional"; "no"])))
            (ErrNew (name +:+ ".DNSSEC must be yes, optional, or no"));
      _ ← failIf (negb (bool_decide (dns_Transport server ∈ [EmptyString; "plain"; "dot"; "doh"])))
            (ErrNew (name +:+ ".Transport must be plain, dot, or doh"));
      validateDNSServers ({[dns_Priority server]} ∪ seenDNSPriorities) (serverIndex + 1) servers
  end.

(** What [static_key] mode asks of the tunnel's addresses. *)
Definition validateStaticTunnel (t : ServerTunnelOptions) : result unit :=
  _ ← failIf (negb (hasAny (stn_LocalAddress t))) (ErrNew "ServerOptions.Tunnel.LocalAddress is required in static_key mode");
  _ ← checkEach prefix_IsValid (λ _, ErrNew "ServerOptions.Tunnel.LocalAddress contains an invalid prefix") 0 (stn_LocalAddress t);
  let hasIPv4 := existsb (λ p, Is4 (prefix_Addr p)) (stn_LocalAddress t) in
  let hasIPv6 := existsb (λ p, Is6 (prefix_Addr p)) (stn_LocalAddress t) in
  _ ← failIf (hasIPv4 && negb (Addr_IsValid (stn_VPNGateway t)))
        (ErrNew "ServerOptions.Tunnel.VPNGateway is required for IPv4 static_key mode");
  _ ← failIf (hasIPv6 && negb (Addr_IsValid (stn_VPNGatewayIPv6 t)))
        (ErrNew "ServerOptions.Tunnel.VPNGatewayIPv6 is required for IPv6 static_key mode");
  _ ← failIf (Addr_IsValid (stn_VPNGateway t) && negb hasIPv4)
        (ErrNew "ServerOptions.Tunnel.VPNGateway requires an IPv4 LocalAddress in static_key mode");
  failIf (Addr_IsValid (stn_VPNGatewayIPv6 t) && negb hasIPv6)
    (ErrNew "ServerOptions.Tunnel.VPNGatewayIPv6 requires an IPv6 LocalAddress in static_key mode").

Definition validateServerTunnelOptions (options : ServerOptions) : result unit :=
  let t := so_Tunnel options in
  _ ← failIf (negb (bool_decide (stn_Topology t ∈ [EmptyString; "net30"; "p2p"; "subnet"])))
        (ErrNew "ServerOptions.Tunnel.Topology must be net30, p2p, or subnet");
  _ ← failIf (Addr_IsValid (stn_VPNGateway t) && negb (Is4 (stn_VPNGateway t)))
        (ErrNew "ServerOptions.Tunnel.VPNGateway must be IPv4");
  _ ← failIf (Addr_IsValid (stn_VPNGatewayIPv6 t) && negb (Is6 (stn_VPNGatewayIPv6 t)))
        (ErrNew "ServerOptions.Tunnel.VPNGatewayIPv6 must be IPv6");
  _ ← (if decide (so_Mode options = ModeStaticKey) then validateStaticTunnel t else Ok ());
  _ ← checkEach validateTunnelDNSDomain
        (λ i, ErrNew ("ServerOptions.Push.SearchDomains[" +:+ Itoa i +:+ "] contains invalid characters")) 0
        (spo_SearchDomains (so_Push options));
  validateDNSServers ∅ 0 (spo_DNSServers (so_Push options)).

Definition whitespace : string :=
  String " "%char (String (ascii_of_nat 9) (String carriageReturn (String newline EmptyString))).

Definition isSome {A} (o : option A) : bool := match o with Some _ => true | None => false end.

Definition validateServerTransportOptions (options : ServerOptions) : result unit :=
  let t := so_Transport options in
  let static := bool_decide (so_Mode options = ModeStaticKey) in
  _ ← failIf (ContainsAny (sto_ListenAddress t) whitespace)
        (ErrNew "ServerOptions.Transport.ListenAddress must not contain whitespace");
  _ ← failIf (isSome (sto_Listener t) && isSome (sto_PacketConn t))
        (ErrExtend ErrOptionNotSupported "multiple server transports");
  _ ← failIf (bool_decide (so_Mode options = ModeTLS) && nonEmpty (sto_RemoteAddress t))
        (ErrNew "ServerOptions.Transport.RemoteAddress is only used by UDP static_key mode");
  if HasPrefix (sto_Protocol t) "tcp" then
    _ ← failIf (isSome (sto_PacketConn t)) (ErrExtend ErrOptionNotSupported "packet transport in tcp mode");
    failIf (static && nonEmpty (sto_RemoteAddress t))
      (ErrNew "ServerOptions.Transport.RemoteAddress is only used by UDP static_key mode")
  else
  _ ← failIf (isSome (sto_Listener t)) (ErrExtend ErrOptionNotSupported "stream transport in udp mode");
  failIf (static && negb (nonEmpty (sto_RemoteAddress t)))
    (ErrNew "ServerOptions.Transport.RemoteAddress is required by UDP static_key mode").

(** Any pushed option. *)
Definition hasPushOptions (p : ServerPushOptions) : bool :=
  hasAny (spo_Routes p) || hasAny (spo_DNS p) || hasAny (spo_DNSServers p) || hasAny (spo_SearchDomains p) ||
  hasAny (spo_DHCPOptions p) || spo_BlockOutsideDNS p || spo_PingIntervalEnabled p || (0 <? spo_PingInterval p) ||
  spo_PingRestartEnabled p || (0 <? spo_PingRestart p) || spo_RedirectGateway p || hasAny (spo_RedirectGatewayFlags p).

Definition validateStaticServer (options : ServerOptions) : result unit :=
  let d := so_DataChannel options in
  let timing := so_Timing options in
  _ ← failIf (negb (IsSet (so_StaticKey options))) ErrMissingStaticKey;
  _ ← failIf (negb (nonEmpty (sdo_Cipher d))) (ErrNew "ServerOptions.DataChannel.Cipher is required in static_key mode");
  _ ← match staticCipherKeySize (sdo_Cipher d) with
      | Ok _ => Ok ()
      | Err _ => Err (ErrNew ("ServerOptions.DataChannel.Cipher is not supported in static_key mode: " +:+ sdo_Cipher d))
      end;
  _ ← failIf (hasTLSCredentialMaterial (tlsMaterials (so_TLS options)))
        (ErrExtend ErrOptionNotSupported "TLS material in static_key server mode");
  _ ← failIf (hasTLSNames (so_TLS options)) (ErrExtend ErrOptionNotSupported "TLS options in static_key server mode");
  _ ← failIf (so_Authenticator options || so_DuplicateCN options)
        (ErrExtend ErrOptionNotSupported "authentication in static_key server mode");
  _ ← failIf (negb (sti_RenegotiationInterval timing =? 0) || sti_RenegotiationDisabled timing ||
              negb (sti_RenegotiationBytes timing =? 0) || negb (sti_RenegotiationPackets timing =? 0) ||
              negb (sti_HandWindow timing =? 0))
        (ErrExtend ErrOptionNotSupported "TLS timing in static_key server mode");
  _ ← failIf (hasPushOptions (so_Push options)) (ErrExtend ErrOptionNotSupported "push options in static_key server mode");
  failIf (hasAny (sdo_Ciphers d) || nonEmpty (sdo_FallbackCipher d))
    (ErrExtend ErrOptionNotSupported "data_ciphers in static_key server mode; use Cipher").

Definition validateImplementedServerOptions (options : ServerOptions) : result unit :=
  let dataChannelOptions := so_DataChannel options in
  let tlsOptions := so_TLS options in
  _ ← failIf ((so_KeyDirection options <? -1) || (1 <? so_KeyDirection options))
        (ErrNew "ServerOptions.KeyDirection must be -1, 0, or 1");
  _ ← validateServerMaterialSources options;
  _ ← validateServerDurationOptions options;
  _ ← validateDataChannelNames "ServerOptions.DataChannel" (sdo_Cipher dataChannelOptions) (sdo_Ciphers dataChannelOptions)
        (sdo_FallbackCipher dataChannelOptions) (sdo_Auth dataChannelOptions);
  _ ← validateDataChannelPolicy "ServerOptions.DataChannel" (sdo_MSSFix dataChannelOptions) (sdo_MSSFixDisabled dataChannelOptions)
        (sdo_MSSFixMode dataChannelOptions) (sdo_ReplayWindow dataChannelOptions) (sdo_ReplayWindowTime dataChannelOptions);
  _ ← validateTLSOptionNames "ServerOptions.TLS" tlsOptions;
  _ ← validateTLSCredentialSet (so_Mode options) (tls_CertificateAuthority tlsOptions) (tls_Certificate tlsOptions)
        (tls_Key tlsOptions) (tls_PeerFingerprint tlsOptions) true;
  _ ← validateServerTransportOptions options;
  _ ← validateServerResourceOptions options;
  _ ← validateServerTunnelOptions options;
  _ ← failIf (bool_decide (so_Mode options = ModeTLS) && IsSet (so_StaticKey options))
        (ErrExtend ErrOptionNotSupported "static_key in tls server mode");
  _ ← failIf (bool_decide (so_Mode options = ModeTLS) && nonEmpty (sdo_Cipher dataChannelOptions))
        (ErrExtend ErrOptionNotSupported "DataChannel.Cipher in tls server mode; use Ciphers or FallbackCipher");
  _ ← (if decide (so_Mode options = ModeStaticKey) then validateStaticServer options else Ok ());
  _ ← failIf (so_CryptV2ForceCookie options && negb (IsSet (tls_CryptV2 tlsOptions)))
        (ErrNew "ServerOptions.TLS.CryptV2ForceCookie requires tls-crypt-v2");
  validateControlProtection tlsOptions.

Definition resolveTransportProtocol (protocol : string) : result (string * string) :=
  if decide (protocol ∈ ["udp"; "udp4"; "udp6"; "tcp"; "tcp4"; "tcp6"]) then Ok (protocol, protocol)
  else Err ErrUnsupportedProtocol.
