(* ===== verification/Negotiation.v ===== *)
(** * Negotiation ([key_method.go], [cipher_negotiation.go], [server_negotiation.go])

    What the two ends announce in the strings of the key method messages, how
    they read the other's announcement, and the data channel cipher they choose
    from it. *)

From Stdlib Require Import Strings.Ascii.
From S2P Require Import Prelude GoStrings Crypto Codec CodecLaws Compression KeyMethod Netip Options.

Definition ErrCipherNegotiationFailed : goerr := ErrNew "cipher negotiation failed with peer".

(** ** Announcements *)

Definition tlsAdvertisedDataCiphers (dataCiphers : list string) : list string :=
  match dataCiphers with
  | [] => ["AES-256-GCM"; "AES-128-GCM"; "CHACHA20-POLY1305"]
  | _ => dataCiphers
  end.

Definition tlsSupportsNCPv2 (dataCiphers : list string) : bool :=
  bool_decide ("AES-128-GCM" ∈ dataCiphers) && bool_decide ("AES-256-GCM" ∈ dataCiphers).

Definition tlsCipherKeyBits (cipherName : string) : result string :=
  if decide (cipherName ∈
       ["AES-128-GCM"; "AES-128-CBC"; "AES-128-CFB"; "AES-128-OFB"; "ARIA-128-CBC"; "ARIA-128-CFB"; "ARIA-128-OFB";
        "CAMELLIA-128-CBC"; "CAMELLIA-128-CFB"; "CAMELLIA-128-OFB"; "SEED-CBC"; "SEED-CFB"; "SEED-OFB";
        "SM4-CBC"; "SM4-CFB"; "SM4-OFB"]) then Ok "128" else
  if decide (cipherName ∈
       ["AES-192-GCM"; "AES-192-CBC"; "AES-192-CFB"; "AES-192-OFB"; "ARIA-192-CBC"; "ARIA-192-CFB"; "ARIA-192-OFB";
        "CAMELLIA-192-CBC"; "CAMELLIA-192-CFB"; "CAMELLIA-192-OFB"]) then Ok "192" else
  if decide (cipherName ∈
       ["AES-256-GCM"; "AES-256-CBC"; "AES-256-CFB"; "AES-256-OFB"; "ARIA-256-CBC"; "ARIA-256-CFB"; "ARIA-256-OFB";
        "CAMELLIA-256-CBC"; "CAMELLIA-256-CFB"; "CAMELLIA-256-OFB"]) then Ok "256" else
  if decide (cipherName = "CHACHA20-POLY1305") then Ok "256" else
  if decide (cipherName ∈ ["BF-CBC"; "BF-CFB"; "BF-OFB"; "CAST5-CBC"; "CAST5-CFB"; "CAST5-OFB"]) then Ok "128" else
  if decide (cipherName ∈ ["DES-CBC"; "DES-CFB"; "DES-OFB"]) then Ok "64" else
  if decide (cipherName ∈ ["DES-EDE-CBC"; "DES-EDE-CFB"; "DES-EDE-OFB"]) then Ok "128" else
  if decide (cipherName ∈ ["DES-EDE3-CBC"; "DES-EDE3-CFB"; "DES-EDE3-OFB"]) then Ok "192" else
  if decide (cipherName = "NONE") then Ok "0" else
  Err (ErrNew "unsupported cipher").

Definition tlsProtoName (protocol : string) (isClient : bool) : string :=
  if decide (protocol ∈ ["udp"; "udp4"]) then "UDPv4" else
  if decide (protocol = "udp6") then "UDPv6" else
  if decide (protocol ∈ ["tcp"; "tcp4"]) then (if isClient then "TCPv4_CLIENT" else "TCPv4_SERVER") else
  if decide (protocol = "tcp6") then (if isClient then "TCPv6_CLIENT" else "TCPv6_SERVER") else
  "UDPv4".

Definition buildTLSOptionsStringWithMTU (protocol : string) (isClient tlsAuthEnabled : bool) (compression : compressionSettings)
    (cipherName authName : string) (tunMTU : Z) : string :=
  let tunMTU := if tunMTU =? 0 then 1500 else tunMTU in
  let linkMTU := u32 (tunMTU + 50) in
  let resolvedCipher := if decide (cipherName = EmptyString) then "AES-256-GCM" else cipherName in
  let resolvedAuth := if decide (authName = EmptyString) then "SHA1" else authName in
  "V4,dev-type tun,link-mtu " +:+ FormatUint linkMTU +:+ ",tun-mtu " +:+ FormatUint tunMTU +:+
  ",proto " +:+ tlsProtoName protocol isClient +:+
  (if framingEnabled compression then ",comp-lzo" else EmptyString) +:+
  ",cipher " +:+ resolvedCipher +:+ ",auth " +:+ resolvedAuth +:+
  (match tlsCipherKeyBits resolvedCipher with Ok keySize => ",keysize " +:+ keySize | Err _ => EmptyString end) +:+
  (if tlsAuthEnabled then ",tls-auth" else EmptyString) +:+
  ",key-method 2," +:+ (if isClient then "tls-client" else "tls-server").

(** Every line of a peer info ends with a newline. *)
Fixpoint lines (l : list string) : string :=
  match l with [] => EmptyString | line :: l => line +:+ String newline (lines l) end.

Definition tlsAdvertisedPlatform (operatingSystem : string) : string :=
  let name := ToLower (TrimSpace operatingSystem) in
  if decide (name = "linux") then "linux" else
  if decide (name = "darwin") then "mac" else
  if decide (name = "windows") then "win" else
  if decide (name ∈ ["freebsd"; "netbsd"; "openbsd"; "solaris"; "android"]) then name else
  if decide (name = "ios") then "mac" else "linux".

Definition clientIVProto (requestPush : bool) : Z :=
  let ivProto := Z.lor (Z.lor tlsIVProtoDataV2 tlsIVProtoTLSKeyExport) tlsIVProtoCCExitNotify in
  if requestPush
  then Z.lor (Z.lor (Z.lor ivProto tlsIVProtoRequestPush) tlsIVProtoAuthPendingKW) tlsIVProtoAuthFailTemp
  else Z.lor ivProto tlsIVProtoNCPP2P.

(** The errors of the compression options are ignored, as in the source; the
    zero values take their place. *)
Definition clientAllowCompression (options : ClientOptions) : allowCompressionPolicy :=
  let compression :=
    match resolveCompressionSettings (cdo_Compression (co_DataChannel options)) (cdo_CompressionLZO (co_DataChannel options)) with
    | Ok settings => settings
    | Err _ => noCompression
    end in
  match resolveEffectiveAllowCompressionPolicy (cdo_AllowCompression (co_DataChannel options)) compression with
  | Ok policy => policy
  | Err _ => allowCompressionStubOnly
  end.

Definition buildTLSPeerInfo (GOOS : string) (options : ClientOptions) (requestPush : bool) : string :=
  let dataCiphers := tlsAdvertisedDataCiphers (cdo_Ciphers (co_DataChannel options)) in
  let tunMTU := if cdo_MTU (co_DataChannel options) =? 0 then 1500 else cdo_MTU (co_DataChannel options) in
  lines (["IV_VER=" +:+ tlsAdvertisedVersion; "IV_PLAT=" +:+ tlsAdvertisedPlatform GOOS] ++
         (if tlsSupportsNCPv2 dataCiphers then ["IV_NCP=2"] else []) ++
         ["IV_CIPHERS=" +:+ Join ":" dataCiphers; "IV_PROTO=" +:+ Itoa (clientIVProto requestPush)] ++
         (if requestPush then ["IV_SSO=webauth,openurl,crtext"; "IV_MTU=" +:+ FormatUint tunMTU] else []) ++
         ["IV_LZ4=1"; "IV_LZ4v2=1"] ++
         (if decide (clientAllowCompression options = allowCompressionStubOnly) then ["IV_LZO_STUB=1"] else ["IV_LZO=1"]) ++
         ["IV_COMP_STUB=1"; "IV_COMP_STUBv2=1"; "IV_TCPNL=1"]).

Definition serverIVProto : Z := Z.lor (Z.lor tlsIVProtoDataV2 tlsIVProtoTLSKeyExport) tlsIVProtoCCExitNotify.

Definition buildTLSServerPeerInfo (options : ServerOptions) : string :=
  let serverCiphers := tlsAdvertisedDataCiphers (sdo_Ciphers (so_DataChannel options)) in
  lines (["IV_PROTO=" +:+ Itoa serverIVProto] ++
         (if tlsSupportsNCPv2 serverCiphers then ["IV_NCP=2"] else []) ++
         (if hasAny serverCiphers then ["IV_CIPHERS=" +:+ Join ":" serverCiphers] else [])).

(** ** Reading an announcement *)

Definition trimCR (line : string) : string := TrimRightChar line carriageReturn.

(** The value of the first line that begins with [key]; [trim] is what the loop
    does to each line first. *)
Fixpoint peerInfoValue (trim : string → string) (key : string) (infoLines : list string) : option string :=
  match infoLines with
  | [] => None
  | line :: infoLines =>
      if HasPrefix (trim line) key then Some (TrimPrefix (trim line) key) else peerInfoValue trim key infoLines
  end.

Definition peerInfoIVProto (peerInfo : string) : option Z :=
  value ← peerInfoValue trimCR "IV_PROTO=" (Split newline peerInfo);
  match Atoi value with Ok parsedValue => Some parsedValue | Err _ => None end.

Definition peerSupportsIVProtoFlag (peerInfo : string) (flag : Z) : bool :=
  match peerInfoIVProto peerInfo with
  | Some ivProto => negb (Z.land ivProto flag =? 0)
  | None => false
  end.

Definition peerInfoMTU (peerInfo : string) : option Z :=
  value ← peerInfoValue trimCR "IV_MTU=" (Split newline peerInfo);
  match ParseUint value 32 with
  | Ok parsedValue => if parsedValue =? 0 then None else Some parsedValue
  | Err _ => None
  end.

Definition peerInfoNCPVersion (peerInfo : string) : Z :=
  match peerInfoValue trimCR "IV_NCP=" (Split newline peerInfo) with
  | Some value => match Atoi value with Ok parsedValue => parsedValue | Err _ => 0 end
  | None => 0
  end.

Definition splitPeerInfoCipherList (value : string) : list string :=
  List.filter nonEmpty (TrimSpace <$> Split ":"%char value).

(** [None]: not announced. *)
Definition peerInfoIVCipherList (peerInfo : string) : option (list string) :=
  splitPeerInfoCipherList <$> peerInfoValue id "IV_CIPHERS=" (Split newline peerInfo).

Definition parsePeerInfoCipherList (peerInfo : string) : option (list string) :=
  match peerInfoIVCipherList peerInfo with
  | Some ciphers => Some ciphers
  | None => if 2 <=? peerInfoNCPVersion peerInfo then Some ["AES-256-GCM"; "AES-128-GCM"] else None
  end.

Fixpoint cutAtZero (payload : bytes) : bytes :=
  match payload with
  | [] => []
  | b :: payload => if decide (b = x00) then [] else b :: cutAtZero payload
  end.

Definition normalizeTLSControlMessage (payload : bytes) : string := TrimSpace (stringOf (cutAtZero payload)).

Fixpoint extractCipher (tokens : list string) : string :=
  match tokens with
  | [] => EmptyString
  | rawToken :: tokens =>
      let trimmedToken := TrimSpace rawToken in
      if negb (HasPrefix trimmedToken "cipher ") then extractCipher tokens else
      let cipherValue := TrimSpace (TrimPrefix trimmedToken "cipher ") in
      if decide (cipherValue = "[null-cipher]") then "none" else cipherValue
  end.

Definition extractRemoteCipherName (optionsString : string) : string := extractCipher (Split ","%char optionsString).

(** ** Choosing the cipher *)

(** The first of [candidates] that equals [name] but for its case. *)
Definition findFold (name : string) (candidates : list string) : option string :=
  List.find (λ candidate, EqualFold candidate name) candidates.

Definition selectPulledCipher (options : ClientOptions) (remoteCipherName : string) : result string :=
  let advertisedCiphers := tlsAdvertisedDataCiphers (cdo_Ciphers (co_DataChannel options)) in
  let trimmedRemote := TrimSpace remoteCipherName in
  if nonEmpty trimmedRemote then
    match findFold trimmedRemote advertisedCiphers with
    | Some candidate => Ok candidate
    | None => Err (ErrExtend ErrCipherNegotiationFailed
                     ("peer cipher " +:+ trimmedRemote +:+ " not in data-ciphers " +:+ Join ":" advertisedCiphers
                      +:+ "; add it to --data-ciphers or reconfigure the server"))
    end
  else if nonEmpty (cdo_FallbackCipher (co_DataChannel options)) then Ok (cdo_FallbackCipher (co_DataChannel options))
  else Err (ErrExtend ErrCipherNegotiationFailed
              ("server pushed no cipher and announced none in its options string"
               +:+ "; set data-ciphers-fallback to connect to this server")).

(** The loop over the peer's ciphers in its order. *)
Fixpoint firstShared (peerCiphers localCiphers : list string) : option string :=
  match peerCiphers with
  | [] => None
  | peerCipher :: peerCiphers =>
      match findFold peerCipher localCiphers with
      | Some localCipher => Some localCipher
      | None => firstShared peerCiphers localCiphers
      end
  end.

Definition selectP2PCipher (options : ClientOptions) (peerInfo : string) : result string :=
  let localCiphers := tlsAdvertisedDataCiphers (cdo_Ciphers (co_DataChannel options)) in
  let peerCiphers := default [] (peerInfoIVCipherList peerInfo) in
  match firstShared peerCiphers localCiphers with
  | Some localCipher => Ok localCipher
  | None =>
      if nonEmpty (cdo_FallbackCipher (co_DataChannel options)) then Ok (cdo_FallbackCipher (co_DataChannel options))
      else Err (ErrExtend ErrCipherNegotiationFailed
                  ("peer announced no data cipher shared with data-ciphers " +:+ Join ":" localCiphers
                   +:+ "; set data-ciphers-fallback to connect to this peer"))
  end.

Definition tlsValidateServerPushedCipher (options : ClientOptions) (pushedCipher : string) : result string :=
  let trimmedCipher := TrimSpace pushedCipher in
  if negb (nonEmpty trimmedCipher) then Ok EmptyString else
  if EqualFold (cdo_FallbackCipher (co_DataChannel options)) trimmedCipher
  then Ok (cdo_FallbackCipher (co_DataChannel options)) else
  let advertised := tlsAdvertisedDataCiphers (cdo_Ciphers (co_DataChannel options)) in
  match findFold trimmedCipher advertised with
  | Some candidate => Ok candidate
  | None => Err (ErrNew ("negotiated cipher not allowed - " +:+ trimmedCipher +:+ " not in " +:+ Join ":" advertised))
  end.

(** The loop over the server's ciphers: one of the client's list, or the cipher of
    its options string when it announced no list. *)
Fixpoint serverChoice (serverCiphers clientCiphers : list string) (remoteCipher : string) : option string :=
  match serverCiphers with
  | [] => None
  | serverCipher :: serverCiphers =>
      if existsb (EqualFold serverCipher) clientCiphers || (nonEmpty remoteCipher && EqualFold serverCipher remoteCipher)
      then Some serverCipher else serverChoice serverCiphers clientCiphers remoteCipher
  end.

Definition tlsServerCipher (peerInfo optionsString : string) (options : ServerOptions) : result string :=
  let serverCiphers := tlsAdvertisedDataCiphers (sdo_Ciphers (so_DataChannel options)) in
  let clientCiphers := parsePeerInfoCipherList peerInfo in
  let remoteCipher := if isSome clientCiphers then EmptyString else TrimSpace (extractRemoteCipherName optionsString) in
  match serverChoice serverCiphers (default [] clientCiphers) remoteCipher with
  | Some serverCipher => Ok serverCipher
  | None =>
      if isSome clientCiphers || nonEmpty remoteCipher then Err (ErrExtend ErrCipherNegotiationFailed "no shared cipher") else
      if nonEmpty (sdo_FallbackCipher (so_DataChannel options)) then Ok (sdo_FallbackCipher (so_DataChannel options)) else
      Err (ErrExtend ErrCipherNegotiationFailed "no shared cipher")
  end.

(** ** Announcements are understood *)

Lemma Split_lines l :
  Forall (λ x, containsChar newline x = false) l → Split newline (lines l) = l ++ [EmptyString].
Proof. induction 1 as [| x l Hx _ IH]; [done |]. cbn [lines]. by rewrite Split_app, IH. Qed.

Lemma TrimRightChar_id s c : containsChar c s = false → TrimRightChar s c = s.
Proof.
  unfold TrimRightChar. induction s as [| d s IH]; cbn [containsChar TrimRightFunc]; [done |].
  intros [Hd Hs]%orb_false_iff. rewrite IH by done. destruct (bool_decide (s = EmptyString)); cbn; [by rewrite Hd | done].
Qed.

(** A line [key=value]. *)
Definition field (f : string * string) : string := f.1 +:+ String "="%char f.2.

Lemma HasPrefix_cons c d s p : HasPrefix (String c s) (String d p) = bool_decide (c = d) && HasPrefix s p.
Proof.
  unfold HasPrefix. cbn [String.prefix]. destruct (Ascii.ascii_dec d c); [by rewrite bool_decide_eq_true_2 |].
  by rewrite bool_decide_eq_false_2 by congruence.
Qed.

Lemma HasPrefix_field key k v :
  containsChar "="%char k = false → containsChar "="%char key = false →
  HasPrefix (field (k, v)) (key +:+ "=") = bool_decide (k = key).
Proof.
  unfold field. cbn [fst snd]. revert key. induction k as [| c k IH]; intros [| d key] Hk Hkey; rewrite ?append_nil, ?append_cons.
  - by destruct v.
  - rewrite HasPrefix_cons. cbn [containsChar] in Hkey. apply orb_false_iff in Hkey as [Hd _]. rewrite Hd.
    by rewrite bool_decide_eq_false_2.
  - change ("=" : string) with (String "="%char EmptyString). rewrite HasPrefix_cons.
    cbn [containsChar] in Hk. apply orb_false_iff in Hk as [Hc _]. apply bool_decide_eq_false in Hc.
    rewrite (bool_decide_eq_false_2 (c = _)) by congruence. by rewrite bool_decide_eq_false_2.
  - rewrite HasPrefix_cons. cbn [containsChar] in Hk, Hkey. apply orb_false_iff in Hk as [_ Hk], Hkey as [_ Hkey].
    rewrite IH by done. destruct (decide (c = d)) as [-> | Hcd].
    + rewrite bool_decide_eq_true_2 by done. cbn. apply bool_decide_ext. naive_solver congruence.
    + rewrite bool_decide_eq_false_2 by done. cbn. by rewrite bool_decide_eq_false_2 by congruence.
Qed.

Fixpoint assoc (key : string) (fields : list (string * string)) : option string :=
  match fields with
  | [] => None
  | (k, v) :: fields => if decide (k = key) then Some v else assoc key fields
  end.

(** Keys and values a peer info can carry. *)
Definition plainField (f : string * string) : bool :=
  negb (containsChar "="%char f.1) && negb (containsChar newline (field f)) && negb (containsChar carriageReturn (field f)).

Lemma peerInfoValue_fields trim key fields :
  (∀ s, containsChar carriageReturn s = false → trim s = s) → containsChar "="%char key = false →
  Forall (λ f, plainField f = true) fields →
  peerInfoValue trim (key +:+ "=") (Split newline (lines (field <$> fields))) = assoc key fields.
Proof.
  intros Htrim Hkey Hf. rewrite Split_lines.
  2: { apply Forall_fmap. eapply Forall_impl; [exact Hf |]. intros f. unfold plainField. cbn. by intros [[_ ?%negb_true_iff]%andb_prop _]%andb_prop. }
  induction Hf as [| [k v] fields Hkv _ IH].
  - cbn [fmap list_fmap app peerInfoValue assoc]. rewrite Htrim by done.
    change (HasPrefix EmptyString (key +:+ "=")) with (String.prefix (key +:+ "=") EmptyString). by destruct key.
  - change ((field <$> (k, v) :: fields) ++ [EmptyString]) with (field (k, v) :: ((field <$> fields) ++ [EmptyString])).
    unfold plainField in Hkv. cbn [fst] in Hkv.
    apply andb_prop in Hkv as [[?%negb_true_iff ?%negb_true_iff]%andb_prop ?%negb_true_iff].
    cbn [peerInfoValue assoc]. rewrite Htrim, HasPrefix_field by done. destruct (decide (k = key)) as [-> | Hne].
    + rewrite bool_decide_eq_true_2 by done. f_equal. unfold field. cbn [fst snd].
      replace (key +:+ String "="%char v) with ((key +:+ "=") +:+ v) by (clear; induction key; [done |]; by rewrite !append_cons; f_equal).
      apply TrimPrefix_app.
    + rewrite bool_decide_eq_false_2 by done. apply IH.
Qed.

Lemma trimCR_id s : containsChar carriageReturn s = false → trimCR s = s.
Proof. apply TrimRightChar_id. Qed.

(** ** The names validation lets through *)

Definition blockCiphers : list string :=
  ["BF"; "DES"; "DES-EDE"; "DES-EDE3"; "CAST5"; "AES-128"; "AES-192"; "AES-256"; "ARIA-128"; "CAMELLIA-128"; "SEED"; "SM4";
   "ARIA-192"; "CAMELLIA-192"; "ARIA-256"; "CAMELLIA-256"].

Definition canonicalCiphers : list string :=
  ["AES-128-GCM"; "AES-192-GCM"; "AES-256-GCM"; "CHACHA20-POLY1305"; "NONE"] ++
  flat_map (λ name, [name +:+ "-CBC"; name +:+ "-CFB"; name +:+ "-OFB"]) blockCiphers.

Lemma app_suffix_inj (a b s : string) : a +:+ s = b +:+ s → a = b.
Proof.
  intros H. revert b H. induction a as [| c a IH]; intros [| d b] H; rewrite ?append_cons, ?append_nil in H; [done | | |].
  - apply (f_equal String.length) in H. cbn in H. rewrite string_length_app in H. lia.
  - apply (f_equal String.length) in H. cbn in H. rewrite string_length_app in H. lia.
  - injection H as -> H. by rewrite (IH b H).
Qed.

Lemma staticCipherKeySize_names c n :
  staticCipherKeySize c = Ok n → c = "NONE" ∨ ∃ name, name ∈ blockCiphers ∧ c = name +:+ "-CBC".
Proof.
  unfold staticCipherKeySize.
  assert (Hin : ∀ l, c ∈ l → forallb (λ x, existsb (λ name, bool_decide (x = name +:+ "-CBC")) blockCiphers) l = true →
                  ∃ name, name ∈ blockCiphers ∧ c = name +:+ "-CBC").
  { intros l Hc Hl. rewrite forallb_forall in Hl. specialize (Hl c (proj1 (list_elem_of_In _ _) Hc)).
    apply existsb_exists in Hl as (name & Hn & Hb%bool_decide_eq_true). exists name. by rewrite list_elem_of_In. }
  repeat first
    [ destruct (decide (c = _)) as [H | H];
      [intros _; first [by left | right; apply (Hin [c]); [by apply list_elem_of_singleton | by rewrite H]] | clear H]
    | destruct (decide (c ∈ _)) as [H | H]; [intros _; right; by apply (Hin _ H) | clear H] ].
  done.
Qed.

Lemma HasSuffix_app s suffix : HasSuffix s suffix = true → s = TrimSuffix s suffix +:+ suffix.
Proof.
  unfold TrimSuffix. intros H. rewrite H. unfold HasSuffix in H.
  apply andb_prop in H as [Hl%bool_decide_eq_true Hs%bool_decide_eq_true].
  rewrite <- Hs at 2. clear Hs. generalize (String.length suffix) Hl. clear Hl. intros n.
  induction s as [| c s IH]; intros Hl; [by destruct n |].
  cbn [String.length] in *. destruct (decide (n = S (String.length s))) as [-> |].
  - rewrite Nat.sub_diag. cbn [String.substring]. rewrite append_nil. f_equal. symmetry. apply substring_all.
  - replace (S (String.length s) - n)%nat with (S (String.length s - n)) by lia. cbn [String.substring].
    rewrite append_cons. f_equal. apply IH. lia.
Qed.

(** Membership in a concrete list, carried over to another by computation. *)
Lemma elem_of_transfer (l : list string) (P : string → bool) c : c ∈ l → forallb P l = true → P c = true.
Proof. intros Hc Hl. rewrite forallb_forall in Hl. by apply Hl, list_elem_of_In. Qed.

Lemma validateDataCipherName_canonical name c :
  validateDataCipherName name c = Ok () → c = EmptyString ∨ c ∈ canonicalCiphers.
Proof.
  unfold validateDataCipherName. destruct (decide (c ∈ _)) as [Hc | _].
  { intros _. apply (elem_of_transfer _ (λ c, bool_decide (c = EmptyString ∨ c ∈ canonicalCiphers))) in Hc; [| by vm_compute].
    by apply bool_decide_eq_true in Hc. }
  assert (Hmode : ∀ suffix n, HasSuffix c suffix = true → staticCipherKeySize (TrimSuffix c suffix +:+ "-CBC") = Ok n →
            forallb (λ name, bool_decide (name +:+ suffix ∈ canonicalCiphers)) blockCiphers = true → c ∈ canonicalCiphers).
  { intros suffix n Hs Hn Hall. apply staticCipherKeySize_names in Hn as [Hn | (base & Hbase & Hn)].
    - exfalso. destruct (TrimSuffix c suffix) as [| d x]; [done |]. apply (f_equal String.length) in Hn.
      rewrite string_length_app in Hn. cbn in Hn. lia.
    - apply app_suffix_inj in Hn. rewrite (HasSuffix_app _ _ Hs), Hn. 
      by apply (elem_of_transfer _ _ _ Hbase), bool_decide_eq_true in Hall. }
  unfold tlsStreamCipherSpec. destruct (HasSuffix c "-CFB") eqn:Hcfb; [| destruct (HasSuffix c "-OFB") eqn:Hofb]; cbn; [| | done].
  - destruct (staticCipherKeySize _) eqn:Hn; [| done]. intros _. right. by apply (Hmode _ _ Hcfb Hn).
  - destruct (staticCipherKeySize _) eqn:Hn; [| done]. intros _. right. by apply (Hmode _ _ Hofb Hn).
Qed.

Lemma validateDataChannelNames_canonical optionsName cipherName dataCiphers fallbackCipher authName :
  validateDataChannelNames optionsName cipherName dataCiphers fallbackCipher authName = Ok () →
  Forall (λ c, c ∈ canonicalCiphers) dataCiphers ∧ (fallbackCipher = EmptyString ∨ fallbackCipher ∈ canonicalCiphers) ∧
  authName ∈ [EmptyString; "SHA1"; "SHA224"; "SHA256"; "SHA384"; "SHA512"; "RIPEMD160"; "MD5"; "NONE"].
Proof.
  unfold validateDataChannelNames. intros H.
  apply result_bind_Ok in H as ([] & _ & H). apply result_bind_Ok in H as ([] & Hc & H).
  apply result_bind_Ok in H as ([] & Hf & H). destruct (decide _); [| done]. split_and!; [| by eapply validateDataCipherName_canonical | done].
  clear -Hc. revert Hc. generalize 0. induction dataCiphers as [| c l IH]; intros i; cbn [validateDataCiphers]; [by constructor |].
  intros H. apply result_bind_Ok in H as ([] & H1%failIf_Ok & H). apply result_bind_Ok in H as ([] & H2 & H).
  constructor; [| by eapply IH]. apply validateDataCipherName_canonical in H2 as [-> |]; done.
Qed.

Lemma tlsAdvertisedDataCiphers_canonical l :
  Forall (λ c, c ∈ canonicalCiphers) l → Forall (λ c, c ∈ canonicalCiphers) (tlsAdvertisedDataCiphers l).
Proof.
  destruct l; [| done]. intros _. cbn. repeat first [apply Forall_nil_2 | apply Forall_cons_2];
    apply (bool_decide_unpack _); vm_compute; done.
Qed.

Lemma tlsAdvertisedDataCiphers_nonempty l : tlsAdvertisedDataCiphers l ≠ [].
Proof. by destruct l. Qed.

(** What a canonical name is made of. *)
Lemma canonical_plain c :
  c ∈ canonicalCiphers →
  (containsChar ":"%char c = false ∧ containsChar ","%char c = false ∧ containsChar newline c = false ∧
   containsChar carriageReturn c = false) ∧ TrimSpace c = c ∧ nonEmpty c = true ∧ c ≠ "[null-cipher]".
Proof.
  intros Hc. apply (elem_of_transfer _ (λ c, bool_decide ((containsChar ":"%char c = false ∧ containsChar ","%char c = false ∧
    containsChar newline c = false ∧ containsChar carriageReturn c = false) ∧ TrimSpace c = c ∧ nonEmpty c = true ∧ c ≠ "[null-cipher]"))) in Hc;
    [by apply bool_decide_eq_true in Hc | by vm_compute].
Qed.

(** Canonical names differ in more than their case. *)
Lemma canonical_EqualFold c d : c ∈ canonicalCiphers → d ∈ canonicalCiphers → EqualFold c d = bool_decide (c = d).
Proof.
  intros Hc Hd. apply (elem_of_transfer _ (λ c, forallb (λ d, eqb (EqualFold c d) (bool_decide (c = d))) canonicalCiphers)) in Hc;
    [| by vm_compute].
  rewrite forallb_forall in Hc. apply eqb_prop, Hc. by apply list_elem_of_In.
Qed.

(** ** Every validated cipher can be used *)

(** The key sizes the cipher libraries document. *)
Definition libraryKeySizes : list (string * nat) :=
  [("blowfish", 16); ("des", 8); ("3des", 24); ("cast5", 16); ("aes", 16); ("aes", 24); ("aes", 32);
   ("aria", 16); ("aria", 24); ("aria", 32); ("camellia", 16); ("camellia", 24); ("camellia", 32); ("seed", 16); ("sm4", 16)]%nat.

Record Crypto_total (cr : Crypto) : Prop := mkCryptoTotal {
  ct_block : ∀ name key, (name, length key) ∈ libraryKeySizes → ∃ b, cr_NewCipher cr name key = Ok b;
  ct_gcm : ∀ key, length key ∈ [16; 24; 32]%nat → ∃ a, cr_NewGCM cr key = Ok a;
  ct_chacha : ∀ key, length key = 32%nat → ∃ a, cr_NewChaCha20Poly1305 cr key = Ok a;
}.

(** One goal per element of a concrete list. *)
Ltac elem_cases H :=
  try unfold blockCiphers in H; repeat (apply elem_of_cons in H as [-> | H]); try (by inversion H).

Ltac decide_names := repeat first
  [ rewrite decide_True by (first [done | apply (bool_decide_unpack _); vm_compute; done])
  | rewrite decide_False by (first [done | apply (bool_decide_unpack _); vm_compute; done]) ].

Lemma newStaticCipherBlock_total cr name key n :
  Crypto_total cr → name ∈ blockCiphers → length key = 64%nat → staticCipherKeySize (name +:+ "-CBC") = Ok n →
  ∃ b, newStaticCipherBlock cr (name +:+ "-CBC") key n = Ok (Some b).
Proof.
  intros Hcr Hname Hkey Hn.
  assert (Hlib : ∀ lib k m, length k = m → (lib, m) ∈ libraryKeySizes → ∃ b, Some <$> cr_NewCipher cr lib k = Ok (Some b)).
  { intros lib k m <- Hk. destruct (ct_block _ Hcr lib k Hk) as [b ->]. by exists b. }
  assert (H3 : length (copyAt (copyAt (replicate 24 x00) 0 (take 16 key)) 16 (take 8 (take 16 key))) = 24%nat).
  { unfold copyAt. rewrite !length_app, !length_take, !length_drop, !length_app, !length_take, !length_drop, !length_replicate. lia. }
  assert (lenZ key = 64) as HlenZ by (unfold lenZ; lia).
  unfold newStaticCipherBlock. rewrite HlenZ.
  elem_cases Hname.
  all: vm_compute in Hn; injection Hn as <-; cbv zeta; decide_names;
    match goal with |- context [if ?b then Err _ else _] => change b with false end; cbv iota; decide_names;
    (eapply Hlib; [first [exact H3 | rewrite length_take, Hkey; cbn; reflexivity] | apply (bool_decide_unpack _); vm_compute; done]).
Qed.

Lemma staticCipherKeySize_total name : name ∈ blockCiphers → ∃ n, staticCipherKeySize (name +:+ "-CBC") = Ok n.
Proof.
  intros Hname. elem_cases Hname.
  all: eexists; vm_compute; reflexivity.
Qed.

Lemma staticHMACFactory_total authName :
  authName ∈ [EmptyString; "SHA1"; "SHA224"; "SHA256"; "SHA384"; "SHA512"; "RIPEMD160"; "MD5"; "NONE"] →
  ∃ hash n, staticHMACFactory authName = Ok (hash, n).
Proof.
  intros Hname. elem_cases Hname.
  all: do 2 eexists; vm_compute; reflexivity.
Qed.

Lemma slot_lengths km server :
  (256 ≤ length km)%nat →
  length (slot_cipherKey (tlsDataKeySlots (splitStaticKeyMaterial km) server).1) = 64%nat ∧
  length (slot_cipherKey (tlsDataKeySlots (splitStaticKeyMaterial km) server).2) = 64%nat.
Proof. intros H. destruct server; cbn; unfold slice; rewrite !length_take, !length_drop; lia. Qed.

Lemma tlsStreamCipherSpec_names name n :
  name ∈ blockCiphers → staticCipherKeySize (name +:+ "-CBC") = Ok n →
  tlsStreamCipherSpec (name +:+ "-CFB") = Ok (tlsStreamCipherModeCFB, name +:+ "-CBC", n) ∧
  tlsStreamCipherSpec (name +:+ "-OFB") = Ok (tlsStreamCipherModeOFB, name +:+ "-CBC", n) ∧
  ∃ e, tlsStreamCipherSpec (name +:+ "-CBC") = Err e.
Proof. intros Hname Hn. elem_cases Hname. all: vm_compute in Hn; injection Hn as <-; repeat split; eexists; vm_compute; reflexivity. Qed.

Lemma not_aead name suffix :
  name ∈ blockCiphers → suffix ∈ ["-CBC"; "-CFB"; "-OFB"] →
  name +:+ suffix ∉ ["AES-128-GCM"; "AES-192-GCM"; "AES-256-GCM"] ∧ name +:+ suffix ≠ "CHACHA20-POLY1305".
Proof.
  intros Hname Hs. apply (elem_of_transfer _ (λ suffix, forallb (λ name,
    bool_decide (name +:+ suffix ∉ ["AES-128-GCM"; "AES-192-GCM"; "AES-256-GCM"] ∧ name +:+ suffix ≠ "CHACHA20-POLY1305")) blockCiphers)) in Hs;
    [| by vm_compute].
  rewrite forallb_forall in Hs. by apply (bool_decide_eq_true_1 _), Hs, list_elem_of_In.
Qed.

Section Total.

Context (cr : Crypto) (Hcr : Crypto_total cr) (km : bytes) (Hkm : (256 ≤ length km)%nat) (server : bool) (authName : string).
Context (Ha : authName ∈ [EmptyString; "SHA1"; "SHA224"; "SHA256"; "SHA384"; "SHA512"; "RIPEMD160"; "MD5"; "NONE"]).

#[local] Lemma km_enough : (lenZ km <? 256) = false.
Proof using Hkm. apply Z.ltb_ge. unfold lenZ. lia. Qed.

Lemma aead_total c w t :
  c ∈ ["AES-128-GCM"; "AES-192-GCM"; "AES-256-GCM"] → ∃ codec, newTLSGCMDataCodec cr km server c w t = Ok codec.
Proof using Hcr Hkm.
  intros Hc. unfold newTLSGCMDataCodec. rewrite km_enough. pose proof (slot_lengths km server Hkm) as [Hs Hr].
  destruct (tlsDataKeySlots _ _) as [send receive]. cbn [fst snd] in *.
  assert (∃ n, gcmKeySize c = Ok n ∧ n ∈ [16; 24; 32]%nat) as (n & -> & Hn).
  { elem_cases Hc; eexists; (split; [vm_compute; reflexivity | apply (bool_decide_unpack _); vm_compute; done]). }
  cbn [mbind result_bind].
  assert (Hgcm : ∀ key, length key = 64%nat → ∃ a, cr_NewGCM cr (take n key) = Ok a).
  { intros key Hk. apply (ct_gcm _ Hcr). rewrite length_take, Hk. elem_cases Hn; apply (bool_decide_unpack _); vm_compute; done. }
  destruct (Hgcm _ Hs) as [a ->], (Hgcm _ Hr) as [b ->]. by eexists.
Qed.

Lemma chacha_total w t : ∃ codec, newTLSChaCha20Poly1305DataCodec cr km server w t = Ok codec.
Proof using Hcr Hkm.
  unfold newTLSChaCha20Poly1305DataCodec. rewrite km_enough. pose proof (slot_lengths km server Hkm) as [Hs Hr].
  destruct (tlsDataKeySlots _ _) as [send receive]. cbn [fst snd] in *.
  destruct (ct_chacha _ Hcr (take 32 (slot_cipherKey send))) as [a ->]; [rewrite length_take; lia |].
  destruct (ct_chacha _ Hcr (take 32 (slot_cipherKey receive))) as [b ->]; [rewrite length_take; lia |]. by eexists.
Qed.

Lemma cbc_total c w t :
  (c = "NONE" ∨ ∃ name, name ∈ blockCiphers ∧ c = name +:+ "-CBC") →
  ∃ codec, newTLSCBCDataCodec cr km server c authName w t = Ok codec.
Proof using Hcr Hkm Ha.
  intros Hc. unfold newTLSCBCDataCodec. rewrite km_enough. pose proof (slot_lengths km server Hkm) as [Hs Hr].
  destruct (tlsDataKeySlots _ _) as [send receive]. cbn [fst snd] in *.
  destruct (staticHMACFactory_total authName Ha) as (hash & hn & Hhash).
  destruct Hc as [-> | (name & Hname & ->)].
  - change (staticCipherKeySize "NONE") with (Ok 0 : result Z). cbn [mbind result_bind]. rewrite Hhash. cbn [mbind result_bind].
    change (newStaticCipherBlock cr "NONE" ?k ?n) with (Ok None : result (option Block)).
    cbn [mbind result_bind]. by eexists.
  - destruct (staticCipherKeySize_total name Hname) as [n Hn]. rewrite Hn. cbn [mbind result_bind]. rewrite Hhash. cbn [mbind result_bind].
    destruct (newStaticCipherBlock_total cr name _ n Hcr Hname Hs Hn) as [b ->],
      (newStaticCipherBlock_total cr name _ n Hcr Hname Hr Hn) as [b' ->]. by eexists.
Qed.

Lemma stream_total c name mode n unixNow w t :
  name ∈ blockCiphers → staticCipherKeySize (name +:+ "-CBC") = Ok n → tlsStreamCipherSpec c = Ok (mode, name +:+ "-CBC", n) →
  ∃ codec, newTLSStreamDataCodec cr unixNow km server c authName w t = Ok codec.
Proof using Hcr Hkm Ha.
  intros Hname Hn Hspec. unfold newTLSStreamDataCodec. rewrite km_enough, Hspec. cbn [mbind result_bind].
  pose proof (slot_lengths km server Hkm) as [Hs Hr]. destruct (tlsDataKeySlots _ _) as [send receive]. cbn [fst snd] in *.
  destruct (staticHMACFactory_total authName Ha) as (hash & hn & ->). cbn [mbind result_bind].
  destruct (newStaticCipherBlock_total cr name _ n Hcr Hname Hs Hn) as [b ->],
    (newStaticCipherBlock_total cr name _ n Hcr Hname Hr Hn) as [b' ->]. by eexists.
Qed.

Lemma newTLSDataCodec_total c unixNow w t :
  c ∈ canonicalCiphers → ∃ codec, newTLSDataCodec cr unixNow km server c authName w t = Ok codec.
Proof using Hcr Hkm Ha.
  intros Hc. unfold newTLSDataCodec. destruct (dataReplayWindowParameters w t) as [w' t'].
  assert (Hmap : ∀ {A B} (f : A → B) (r : result A), (∃ x, r = Ok x) → ∃ y, f <$> r = Ok y) by (intros A B f r [x ->]; by eexists).
  apply elem_of_app in Hc as [Hc | Hc].
  - destruct (decide (c ∈ ["AES-128-GCM"; "AES-192-GCM"; "AES-256-GCM"])) as [Hg | Hg]; [by apply Hmap, aead_total |].
    destruct (decide (c = "CHACHA20-POLY1305")); [by apply Hmap, chacha_total |].
    assert (c = "NONE") as -> by (elem_cases Hc; try done; exfalso; apply Hg; apply (bool_decide_unpack _); vm_compute; done).
    change (tlsStreamCipherSpec "NONE") with (Err (ErrNew "unsupported tls stream cipher") : result (tlsStreamCipherMode * string * Z)).
    apply Hmap, cbc_total. by left.
  - rewrite list_elem_of_In in Hc. apply in_flat_map in Hc as (name & Hname%list_elem_of_In & Hc%list_elem_of_In).
    destruct (staticCipherKeySize_total name Hname) as [n Hn].
    destruct (tlsStreamCipherSpec_names name n Hname Hn) as (Hcfb & Hofb & e & Hcbc).
    assert (∃ suffix, c = name +:+ suffix ∧ suffix ∈ ["-CBC"; "-CFB"; "-OFB"]) as (suffix & -> & Hsuffix)
      by (elem_cases Hc; eexists; (split; [reflexivity |]); apply (bool_decide_unpack _); vm_compute; done).
    destruct (not_aead name suffix Hname Hsuffix) as [Hg Hch].
    rewrite (decide_False (P := name +:+ suffix ∈ _)), decide_False by done. elem_cases Hsuffix.
    + rewrite Hcbc. apply Hmap, cbc_total. right. by exists name.
    + rewrite Hcfb. by eapply Hmap, stream_total.
    + rewrite Hofb. by eapply Hmap, stream_total.
Qed.

End Total.

(** ** What a client announces *)

Definition clientFields (GOOS : string) (options : ClientOptions) (requestPush : bool) : list (string * string) :=
  let dataCiphers := tlsAdvertisedDataCiphers (cdo_Ciphers (co_DataChannel options)) in
  let tunMTU := if cdo_MTU (co_DataChannel options) =? 0 then 1500 else cdo_MTU (co_DataChannel options) in
  [("IV_VER", tlsAdvertisedVersion); ("IV_PLAT", tlsAdvertisedPlatform GOOS)] ++
  (if tlsSupportsNCPv2 dataCiphers then [("IV_NCP", "2")] else []) ++
  [("IV_CIPHERS", Join ":" dataCiphers); ("IV_PROTO", Itoa (clientIVProto requestPush))] ++
  (if requestPush then [("IV_SSO", "webauth,openurl,crtext"); ("IV_MTU", FormatUint tunMTU)] else []) ++
  [("IV_LZ4", "1"); ("IV_LZ4v2", "1")] ++
  (if decide (clientAllowCompression options = allowCompressionStubOnly) then [("IV_LZO_STUB", "1")] else [("IV_LZO", "1")]) ++
  [("IV_COMP_STUB", "1"); ("IV_COMP_STUBv2", "1"); ("IV_TCPNL", "1")].

Lemma buildTLSPeerInfo_fields GOOS options requestPush :
  buildTLSPeerInfo GOOS options requestPush = lines (field <$> clientFields GOOS options requestPush).
Proof.
  unfold buildTLSPeerInfo, clientFields. rewrite !fmap_app.
  destruct (tlsSupportsNCPv2 _), requestPush, (decide (clientAllowCompression options = _)); reflexivity.
Qed.

Lemma containsChar_Join c l sep :
  containsChar c sep = false → Forall (λ x, containsChar c x = false) l → containsChar c (Join sep l) = false.
Proof.
  intros Hsep. induction 1 as [| x l Hx Hl IH]; [done |]. destruct l as [| y l]; [done |].
  change (Join sep (x :: y :: l)) with (x +:+ sep +:+ Join sep (y :: l)). by rewrite !containsChar_app, Hx, Hsep, IH.
Qed.

Lemma plainField_intro k v :
  containsChar "="%char k = false → containsChar newline k = false → containsChar carriageReturn k = false →
  containsChar newline v = false → containsChar carriageReturn v = false → plainField (k, v) = true.
Proof.
  intros H1 H2 H3 H4 H5. unfold plainField, field. cbn [fst snd]. rewrite H1, !containsChar_app, H2, H3.
  cbn [containsChar]. rewrite H4, H5. vm_compute. done.
Qed.

Lemma tlsAdvertisedPlatform_cases GOOS :
  tlsAdvertisedPlatform GOOS ∈ ["linux"; "mac"; "win"; "freebsd"; "netbsd"; "openbsd"; "solaris"; "android"].
Proof.
  unfold tlsAdvertisedPlatform. cbv zeta. generalize (ToLower (TrimSpace GOOS)). intros name.
  destruct (decide (name = "linux")); [apply (bool_decide_unpack _); by vm_compute |].
  destruct (decide (name = "darwin")); [apply (bool_decide_unpack _); by vm_compute |].
  destruct (decide (name = "windows")); [apply (bool_decide_unpack _); by vm_compute |].
  destruct (decide (name ∈ _)) as [H |]; [elem_cases H; apply (bool_decide_unpack _); by vm_compute |].
  destruct (decide (name = "ios")); apply (bool_decide_unpack _); by vm_compute.
Qed.

Section Announcements.

Context (GOOS : string) (options : ClientOptions) (requestPush : bool).
Context (Hciphers : Forall (λ c, c ∈ canonicalCiphers) (cdo_Ciphers (co_DataChannel options))).
Context (Hmtu : 0 ≤ cdo_MTU (co_DataChannel options) < 2 ^ 32).

#[local] Lemma ciphers_plain c :
  c ∈ [newline; carriageReturn] →
  containsChar c (Join ":" (tlsAdvertisedDataCiphers (cdo_Ciphers (co_DataChannel options)))) = false.
Proof using Hciphers.
  intros Hc. apply containsChar_Join; [elem_cases Hc; by vm_compute |].
  eapply Forall_impl; [by apply tlsAdvertisedDataCiphers_canonical |]. intros d Hd%canonical_plain.
  destruct Hd as ((_ & _ & H1 & H2) & _). by elem_cases Hc.
Qed.

Lemma clientFields_plain : Forall (λ f, plainField f = true) (clientFields GOOS options requestPush).
Proof using Hciphers Hmtu.
  unfold clientFields. rewrite !Forall_app.
  assert (Hplat : plainField ("IV_PLAT", tlsAdvertisedPlatform GOOS) = true).
  { pose proof (tlsAdvertisedPlatform_cases GOOS) as H. 
    by apply (elem_of_transfer _ (λ p, plainField ("IV_PLAT", p))) in H; [| by vm_compute]. }
  assert (Hdigits : ∀ k n, 0 ≤ n < 2 ^ 64 → plainField (k, ""%string) = true → plainField (k, FormatUint n) = true).
  { intros k n Hn Hk. unfold plainField, field in Hk. cbn [fst snd] in Hk.
    apply andb_prop in Hk as [[H1%negb_true_iff H2%negb_true_iff]%andb_prop H3%negb_true_iff].
    rewrite containsChar_app in H2, H3. apply orb_false_iff in H2 as [H2 _], H3 as [H3 _].
    destruct (FormatUint_spec n Hn) as (_ & _ & Hd). apply plainField_intro; try done; by apply Hd. }
  split_and!.
  - repeat first [apply Forall_nil_2 | apply Forall_cons_2]; [by vm_compute | done].
  - destruct (tlsSupportsNCPv2 _); repeat first [apply Forall_nil_2 | apply Forall_cons_2]; by vm_compute.
  - repeat first [apply Forall_nil_2 | apply Forall_cons_2]; [| by destruct requestPush; vm_compute].
    apply plainField_intro; try (by vm_compute); apply ciphers_plain; apply (bool_decide_unpack _); by vm_compute.
  - destruct requestPush; repeat first [apply Forall_nil_2 | apply Forall_cons_2]; [by vm_compute |].
    apply Hdigits; [destruct (_ =? 0); lia | by vm_compute].
  - repeat first [apply Forall_nil_2 | apply Forall_cons_2]; by vm_compute.
  - destruct (decide _); repeat first [apply Forall_nil_2 | apply Forall_cons_2]; by vm_compute.
  - repeat first [apply Forall_nil_2 | apply Forall_cons_2]; by vm_compute.
Qed.

Lemma client_announces trim key :
  (∀ s, containsChar carriageReturn s = false → trim s = s) → containsChar "="%char key = false →
  peerInfoValue trim (key +:+ "=") (Split newline (buildTLSPeerInfo GOOS options requestPush)) =
    assoc key (clientFields GOOS options requestPush).
Proof using Hciphers Hmtu. intros. rewrite buildTLSPeerInfo_fields. apply peerInfoValue_fields; [done .. |]. apply clientFields_plain. Qed.

End Announcements.

Definition serverFields (options : ServerOptions) : list (string * string) :=
  let serverCiphers := tlsAdvertisedDataCiphers (sdo_Ciphers (so_DataChannel options)) in
  [("IV_PROTO", Itoa serverIVProto)] ++
  (if tlsSupportsNCPv2 serverCiphers then [("IV_NCP", "2")] else []) ++ [("IV_CIPHERS", Join ":" serverCiphers)].

Lemma server_announces options trim key :
  Forall (λ c, c ∈ canonicalCiphers) (sdo_Ciphers (so_DataChannel options)) →
  (∀ s, containsChar carriageReturn s = false → trim s = s) → containsChar "="%char key = false →
  peerInfoValue trim (key +:+ "=") (Split newline (buildTLSServerPeerInfo options)) = assoc key (serverFields options).
Proof.
  intros Hc%tlsAdvertisedDataCiphers_canonical Htrim Hkey.
  assert (buildTLSServerPeerInfo options = lines (field <$> serverFields options)) as ->.
  { unfold buildTLSServerPeerInfo, serverFields. pose proof (tlsAdvertisedDataCiphers_nonempty (sdo_Ciphers (so_DataChannel options))).
    rewrite !fmap_app. destruct (tlsAdvertisedDataCiphers _); [done |]. by destruct (tlsSupportsNCPv2 _). }
  apply peerInfoValue_fields; [done | done |]. unfold serverFields. rewrite !Forall_app. split_and!.
  - repeat first [apply Forall_nil_2 | apply Forall_cons_2]; by vm_compute.
  - destruct (tlsSupportsNCPv2 _); repeat first [apply Forall_nil_2 | apply Forall_cons_2]; by vm_compute.
  - repeat first [apply Forall_nil_2 | apply Forall_cons_2]. apply plainField_intro; try (by vm_compute).
    + apply containsChar_Join; [done |]. eapply Forall_impl; [exact Hc |]. intros c ?%canonical_plain. naive_solver.
    + apply containsChar_Join; [done |]. eapply Forall_impl; [exact Hc |]. intros c ?%canonical_plain. naive_solver.
Qed.

Lemma splitPeerInfoCipherList_Join l :
  l ≠ [] → Forall (λ c, c ∈ canonicalCiphers) l → splitPeerInfoCipherList (Join ":" l) = l.
Proof.
  intros Hne Hl. unfold splitPeerInfoCipherList. rewrite Split_Join; [| done |].
  - induction Hl as [| c l Hc _ IH]; [done |]. apply canonical_plain in Hc as (_ & Ht & Hn & _). cbn. rewrite Ht, Hn. f_equal.
    destruct l; [done |]. by apply IH.
  - eapply Forall_impl; [exact Hl |]. intros c ?%canonical_plain. naive_solver.
Qed.

(** ** The options string *)

Lemma string_app_assoc (a b c : string) : (a +:+ b) +:+ c = a +:+ b +:+ c.
Proof. induction a as [| x a IH]; [done |]. by rewrite !append_cons, IH. Qed.

Lemma TrimSpace_nonspace c x : isSpace c = false → TrimSpace (String c x) = String c (TrimRightFunc isSpace x).
Proof. intros Hc. unfold TrimSpace. cbn [TrimRightFunc]. rewrite Hc, andb_false_r. cbn [TrimLeftFunc]. by rewrite Hc. Qed.

Lemma TrimRightFunc_app p a b : TrimRightFunc p b ≠ EmptyString → TrimRightFunc p (a +:+ b) = a +:+ TrimRightFunc p b.
Proof.
  intros Hb. induction a as [| c a IH]; [done |]. rewrite !append_cons. cbn [TrimRightFunc]. rewrite IH.
  rewrite bool_decide_eq_false_2; [done |]. destruct a; [by rewrite append_nil | by rewrite append_cons].
Qed.

Section OptionsString.

Context (protocol : string) (isClient tlsAuthEnabled : bool) (compression : compressionSettings) (c authName : string) (tunMTU : Z).
Context (Hc : c ∈ canonicalCiphers) (Hauth : containsChar ","%char authName = false) (Hmtu : 0 ≤ tunMTU < 2 ^ 32).

Definition optionTokens : list string :=
  let tunMTU := if tunMTU =? 0 then 1500 else tunMTU in
  ["V4"; "dev-type tun"; "link-mtu " +:+ FormatUint (u32 (tunMTU + 50)); "tun-mtu " +:+ FormatUint tunMTU;
   "proto " +:+ tlsProtoName protocol isClient] ++
  (if framingEnabled compression then ["comp-lzo"] else []) ++
  ["cipher " +:+ c; "auth " +:+ (if decide (authName = EmptyString) then "SHA1" else authName)] ++
  (match tlsCipherKeyBits c with Ok keySize => ["keysize " +:+ keySize] | Err _ => [] end) ++
  (if tlsAuthEnabled then ["tls-auth"] else []) ++ ["key-method 2"; if isClient then "tls-client" else "tls-server"].

Lemma optionTokens_Join :
  buildTLSOptionsStringWithMTU protocol isClient tlsAuthEnabled compression c authName tunMTU = Join "," optionTokens.
Proof using Hc.
  unfold buildTLSOptionsStringWithMTU, optionTokens. assert (c ≠ EmptyString) by (intros ->; by apply canonical_plain in Hc as (_ & _ & ? & _)).
  rewrite decide_False by done.
  destruct (framingEnabled compression), (tlsCipherKeyBits c), tlsAuthEnabled; cbn [Join app]; rewrite !string_app_assoc; reflexivity.
Qed.

Lemma tlsCipherKeyBits_comma keySize : tlsCipherKeyBits c = Ok keySize → containsChar ","%char keySize = false.
Proof using.
  unfold tlsCipherKeyBits. repeat (destruct (decide _); [by intros [= <-] |]). done.
Qed.

Lemma optionTokens_plain : Forall (λ x, containsChar ","%char x = false) optionTokens.
Proof using Hc Hauth Hmtu.
  unfold optionTokens. rewrite !Forall_app.
  assert (Hd : ∀ p n, 0 ≤ n < 2 ^ 64 → containsChar ","%char p = false → containsChar ","%char (p +:+ FormatUint n) = false).
  { intros p n Hn Hp. rewrite containsChar_app, Hp. cbn. destruct (FormatUint_spec n Hn) as (_ & _ & H). by apply H. }
  split_and!.
  - repeat first [apply Forall_nil_2 | apply Forall_cons_2]; [done | done | | |].
    + apply Hd; [| done]. unfold u32. pose proof (Z.mod_pos_bound ((if tunMTU =? 0 then 1500 else tunMTU) + 50) (2 ^ 32)). lia.
    + apply Hd; [destruct (_ =? _); lia | done].
    + rewrite containsChar_app. cbn. unfold tlsProtoName. repeat (destruct (decide _); [by destruct isClient |]). done.
  - destruct (framingEnabled _); by repeat constructor.
  - repeat first [apply Forall_nil_2 | apply Forall_cons_2]; rewrite containsChar_app; cbn.
    + apply canonical_plain in Hc. naive_solver.
    + by destruct (decide _).
  - destruct (tlsCipherKeyBits c) eqn:Hk; repeat first [apply Forall_nil_2 | apply Forall_cons_2].
    rewrite containsChar_app. cbn. by apply tlsCipherKeyBits_comma.
  - destruct tlsAuthEnabled; by repeat constructor.
  - destruct isClient; by repeat constructor.
Qed.

Lemma extractCipher_skip (d : ascii) x tokens :
  isSpace d = false → d ≠ "c"%char → extractCipher (String d x :: tokens) = extractCipher tokens.
Proof using.
  intros Hs Hd. cbn [extractCipher]. rewrite TrimSpace_nonspace by done.
  change "cipher " with (String "c" "ipher "). rewrite HasPrefix_cons, bool_decide_eq_false_2 by done. done.
Qed.

(** The peer reads the cipher out of the options string. *)
Lemma extractRemoteCipherName_built :
  extractRemoteCipherName (buildTLSOptionsStringWithMTU protocol isClient tlsAuthEnabled compression c authName tunMTU) = c.
Proof using Hc Hauth Hmtu.
  unfold extractRemoteCipherName. rewrite optionTokens_Join, (Split_Join ","%char); [| done | apply optionTokens_plain].
  assert (Hcipher : ∀ tokens, extractCipher (("cipher " +:+ c) :: tokens) = c).
  { intros tokens. destruct (canonical_plain c Hc) as (_ & Ht & Hn & Hnull). cbn [extractCipher].
    assert (Hr : TrimRightFunc isSpace c = c).
    { apply (elem_of_transfer _ (λ c, bool_decide (TrimRightFunc isSpace c = c))), bool_decide_eq_true in Hc; [done | by vm_compute]. }
    change ("cipher " +:+ c) with (String "c" ("ipher " +:+ c)). rewrite TrimSpace_nonspace by done.
    rewrite TrimRightFunc_app by (rewrite Hr; intros ->; done). rewrite Hr.
    change (String "c" ("ipher " +:+ c)) with ("cipher " +:+ c). rewrite HasPrefix_app, TrimPrefix_app, Ht. cbn [negb].
    by rewrite decide_False. }
  unfold optionTokens. cbn [app]. rewrite !append_cons. do 5 (rewrite extractCipher_skip by done).
  destruct (framingEnabled compression); cbn [app]; [| apply Hcipher].
  assert (Hskip : ∀ tokens, extractCipher ("comp-lzo" :: tokens) = extractCipher tokens).
  { intros tokens. cbn [extractCipher]. by change (negb (HasPrefix (TrimSpace "comp-lzo") "cipher ")) with true. }
  rewrite Hskip. apply Hcipher.
Qed.

End OptionsString.

(** ** Agreement on the cipher *)

Lemma findFold_canonical c l :
  c ∈ canonicalCiphers → Forall (λ c, c ∈ canonicalCiphers) l → findFold c l = if decide (c ∈ l) then Some c else None.
Proof.
  intros Hc Hl. unfold findFold. induction Hl as [| d l Hd _ IH]; [done |]. cbn [List.find]. rewrite canonical_EqualFold by done.
  destruct (decide (d = c)) as [-> |].
  - rewrite bool_decide_eq_true_2 by done. by rewrite decide_True by left.
  - rewrite bool_decide_eq_false_2, IH by done. destruct (decide (c ∈ l)); [by rewrite decide_True by by right |].
    by rewrite decide_False by (by rewrite elem_of_cons; intros [|]).
Qed.

Lemma existsb_canonical c l :
  c ∈ canonicalCiphers → Forall (λ c, c ∈ canonicalCiphers) l → existsb (EqualFold c) l = bool_decide (c ∈ l).
Proof.
  intros Hc Hl. induction Hl as [| d l Hd _ IH]; [done |]. cbn [existsb]. rewrite canonical_EqualFold, IH by done.
  destruct (decide (c = d)) as [-> |].
  - rewrite bool_decide_eq_true_2 by done. cbn [orb]. symmetry. apply bool_decide_eq_true_2. by left.
  - rewrite bool_decide_eq_false_2 by done. cbn. apply bool_decide_ext. rewrite elem_of_cons. naive_solver.
Qed.

(** The server's loop and the peer-to-peer client's loop choose the same cipher:
    the first of the server's list that the client has. *)
Lemma serverChoice_firstShared serverCiphers clientCiphers :
  Forall (λ c, c ∈ canonicalCiphers) serverCiphers → Forall (λ c, c ∈ canonicalCiphers) clientCiphers →
  serverChoice serverCiphers clientCiphers EmptyString = firstShared serverCiphers clientCiphers ∧
  match serverChoice serverCiphers clientCiphers EmptyString with
  | Some c => c ∈ serverCiphers ∧ c ∈ clientCiphers
  | None => ∀ c, c ∈ serverCiphers → c ∉ clientCiphers
  end.
Proof.
  intros Hs Hc. induction Hs as [| d l Hd _ IH]; [by split; [| intros c ?%not_elem_of_nil] |].
  cbn [serverChoice firstShared nonEmpty]. change (nonEmpty EmptyString) with false. cbn [andb]. rewrite orb_false_r.
  rewrite existsb_canonical, findFold_canonical by done.
  destruct (decide (d ∈ clientCiphers)) as [Hin | Hin].
  - rewrite bool_decide_eq_true_2 by done. split_and!; [done | by left | done].
  - rewrite bool_decide_eq_false_2 by done. destruct IH as [IH1 IH2]. split; [done |].
    destruct (serverChoice l clientCiphers EmptyString) as [c |].
    + destruct IH2. by split; [right |].
    + intros c [-> | Hcl]%elem_of_cons; [done | by apply IH2].
Qed.

Ltac inv_checks H := repeat (apply result_bind_Ok in H as ([] & ? & H)).

Definition digestNames : list string :=
  [EmptyString; "SHA1"; "SHA224"; "SHA256"; "SHA384"; "SHA512"; "RIPEMD160"; "MD5"; "NONE"].

Lemma validated_client co :
  validateImplementedClientOptions co = Ok () →
  Forall (λ c, c ∈ canonicalCiphers) (cdo_Ciphers (co_DataChannel co)) ∧
  (cdo_FallbackCipher (co_DataChannel co) = EmptyString ∨ cdo_FallbackCipher (co_DataChannel co) ∈ canonicalCiphers) ∧
  cdo_Auth (co_DataChannel co) ∈ digestNames.
Proof. intros H. unfold validateImplementedClientOptions in H. cbv zeta in H. inv_checks H. by eapply validateDataChannelNames_canonical. Qed.

Lemma validated_server so :
  validateImplementedServerOptions so = Ok () →
  Forall (λ c, c ∈ canonicalCiphers) (sdo_Ciphers (so_DataChannel so)) ∧
  (sdo_FallbackCipher (so_DataChannel so) = EmptyString ∨ sdo_FallbackCipher (so_DataChannel so) ∈ canonicalCiphers) ∧
  sdo_Auth (so_DataChannel so) ∈ digestNames.
Proof. intros H. unfold validateImplementedServerOptions in H. cbv zeta in H. inv_checks H. by eapply validateDataChannelNames_canonical. Qed.

Lemma client_cipher_list GOOS co requestPush :
  Forall (λ c, c ∈ canonicalCiphers) (cdo_Ciphers (co_DataChannel co)) → 0 ≤ cdo_MTU (co_DataChannel co) < 2 ^ 32 →
  peerInfoIVCipherList (buildTLSPeerInfo GOOS co requestPush) = Some (tlsAdvertisedDataCiphers (cdo_Ciphers (co_DataChannel co))).
Proof.
  intros Hc Hm. unfold peerInfoIVCipherList. change "IV_CIPHERS=" with ("IV_CIPHERS" +:+ "="). rewrite client_announces by done.
  assert (assoc "IV_CIPHERS" (clientFields GOOS co requestPush) =
          Some (Join ":" (tlsAdvertisedDataCiphers (cdo_Ciphers (co_DataChannel co))))) as ->.
  { unfold clientFields. by destruct (tlsSupportsNCPv2 _). }
  cbn. f_equal. apply splitPeerInfoCipherList_Join; [apply tlsAdvertisedDataCiphers_nonempty | by apply tlsAdvertisedDataCiphers_canonical].
Qed.

Lemma server_cipher_list so :
  Forall (λ c, c ∈ canonicalCiphers) (sdo_Ciphers (so_DataChannel so)) →
  peerInfoIVCipherList (buildTLSServerPeerInfo so) = Some (tlsAdvertisedDataCiphers (sdo_Ciphers (so_DataChannel so))).
Proof.
  intros Hc. unfold peerInfoIVCipherList. change "IV_CIPHERS=" with ("IV_CIPHERS" +:+ "="). rewrite server_announces by done.
  assert (assoc "IV_CIPHERS" (serverFields so) =
          Some (Join ":" (tlsAdvertisedDataCiphers (sdo_Ciphers (so_DataChannel so))))) as ->.
  { unfold serverFields. by destruct (tlsSupportsNCPv2 _). }
  cbn. f_equal. apply splitPeerInfoCipherList_Join; [apply tlsAdvertisedDataCiphers_nonempty | by apply tlsAdvertisedDataCiphers_canonical].
Qed.

Lemma fold_empty c : EqualFold EmptyString c = true → c = EmptyString.
Proof. unfold EqualFold. intros H%bool_decide_eq_true. by destruct c. Qed.

Lemma digest_comma authName : authName ∈ digestNames → containsChar ","%char authName = false.
Proof. intros H. by apply (elem_of_transfer _ (λ a, negb (containsChar ","%char a))), negb_true_iff in H; [| by vm_compute]. Qed.

(** The negotiation of the data channel's cipher through the announcements. *)
Lemma cipher_negotiation cr GOOS (co : ClientOptions) (so : ServerOptions) requestPush optionsString :
  Crypto_total cr →
  validateImplementedClientOptions co = Ok () → 0 ≤ cdo_MTU (co_DataChannel co) < 2 ^ 32 →
  validateImplementedServerOptions so = Ok () → 0 ≤ sdo_MTU (so_DataChannel so) < 2 ^ 32 →
  let clientCiphers := tlsAdvertisedDataCiphers (cdo_Ciphers (co_DataChannel co)) in
  let serverCiphers := tlsAdvertisedDataCiphers (sdo_Ciphers (so_DataChannel so)) in
  match tlsServerCipher (buildTLSPeerInfo GOOS co requestPush) optionsString so with
  | Ok c =>
      c ∈ clientCiphers ∧ firstShared serverCiphers clientCiphers = Some c ∧
      tlsValidateServerPushedCipher co c = Ok c ∧
      selectPulledCipher co (extractRemoteCipherName
        (buildTLSOptionsStringWithMTU (sto_Protocol (so_Transport so)) false (IsSet (tls_Auth (so_TLS so))) noCompression c
           (sdo_Auth (so_DataChannel so)) (sdo_MTU (so_DataChannel so)))) = Ok c ∧
      selectP2PCipher co (buildTLSServerPeerInfo so) = Ok c ∧
      ∀ keyMaterial unixNow auth, (256 ≤ length keyMaterial)%nat → auth ∈ [cdo_Auth (co_DataChannel co); sdo_Auth (so_DataChannel so)] → ∃ clientCodec serverCodec,
        newTLSDataCodec cr unixNow keyMaterial false c auth
          (cdo_ReplayWindow (co_DataChannel co)) (cdo_ReplayWindowTime (co_DataChannel co)) = Ok clientCodec ∧
        newTLSDataCodec cr unixNow keyMaterial true c (sdo_Auth (so_DataChannel so))
          (sdo_ReplayWindow (so_DataChannel so)) (sdo_ReplayWindowTime (so_DataChannel so)) = Ok serverCodec
  | Err _ => ∀ c, c ∈ serverCiphers → c ∉ clientCiphers
  end.
Proof.
  intros Hcr Hco Hcm Hso Hsm clientCiphers serverCiphers.
  destruct (validated_client co Hco) as (Hcc & Hcf & Hca). destruct (validated_server so Hso) as (Hsc & Hsf & Hsa).
  pose proof (tlsAdvertisedDataCiphers_canonical _ Hcc) as Hclient. pose proof (tlsAdvertisedDataCiphers_canonical _ Hsc) as Hserver.
  fold clientCiphers in Hclient. fold serverCiphers in Hserver.
  unfold tlsServerCipher, parsePeerInfoCipherList. rewrite client_cipher_list by done. cbv beta iota zeta delta [default from_option isSome id].
  fold clientCiphers. fold serverCiphers.
  destruct (serverChoice_firstShared serverCiphers clientCiphers Hserver Hclient) as [Hsame Hchoice].
  destruct (serverChoice serverCiphers clientCiphers EmptyString) as [c |]; [| exact Hchoice].
  destruct Hchoice as [Hin_s Hin_c]. assert (Hc : c ∈ canonicalCiphers) by (by eapply Forall_forall in Hin_c; [| exact Hclient]).
  destruct (canonical_plain c Hc) as (_ & Ht & Hn & _).
  split_and!; [done | by rewrite <- Hsame | | | |].
  - unfold tlsValidateServerPushedCipher. rewrite Ht, Hn. cbn [negb]. fold clientCiphers. rewrite findFold_canonical by done.
    rewrite decide_True by done. destruct Hcf as [-> | Hf].
    { destruct (EqualFold EmptyString c) eqn:Hfold; [| done]. apply fold_empty in Hfold. rewrite Hfold in Hn. by vm_compute in Hn. }
    rewrite canonical_EqualFold by done. case_bool_decide; [by f_equal | done].
  - rewrite extractRemoteCipherName_built; [| done | by apply digest_comma | done].
    unfold selectPulledCipher. rewrite Ht, Hn. fold clientCiphers. rewrite findFold_canonical by done. by rewrite decide_True.
  - unfold selectP2PCipher. rewrite server_cipher_list by done. cbv beta iota delta [default from_option id]. fold clientCiphers. fold serverCiphers. by rewrite <- Hsame.
  - intros keyMaterial unixNow auth Hkm Hauth.
    assert (Ha : auth ∈ digestNames) by (apply elem_of_cons in Hauth as [-> | ->%list_elem_of_singleton]; done).
    destruct (newTLSDataCodec_total cr Hcr keyMaterial Hkm false _ Ha c unixNow (cdo_ReplayWindow (co_DataChannel co))
                (cdo_ReplayWindowTime (co_DataChannel co)) Hc) as [x Hx].
    destruct (newTLSDataCodec_total cr Hcr keyMaterial Hkm true _ Hsa c unixNow (sdo_ReplayWindow (so_DataChannel so))
                (sdo_ReplayWindowTime (so_DataChannel so)) Hc) as [y Hy].
    by exists x, y.
Qed.

(** C19: the announcements of the key exchange carry the negotiation: the server
    chooses the first of its ciphers that the client announced, the client accepts
    exactly that cipher whether it is pushed, read from the server's options string
    or chosen from the server's peer info without pulling, and both ends can build
    their codecs with it, the client with its own digest as well as with the server's;
    the choice fails only when the two have no cipher in common.  The options are any that validation lets through. *)
Theorem cipher_negotiation_agrees cr GOOS (co : ClientOptions) (so : ServerOptions) requestPush optionsString :
  Crypto_total cr →
  validateImplementedClientOptions co = Ok () → 0 ≤ cdo_MTU (co_DataChannel co) < 2 ^ 32 →
  validateImplementedServerOptions so = Ok () → 0 ≤ sdo_MTU (so_DataChannel so) < 2 ^ 32 →
  let clientCiphers := tlsAdvertisedDataCiphers (cdo_Ciphers (co_DataChannel co)) in
  let serverCiphers := tlsAdvertisedDataCiphers (sdo_Ciphers (so_DataChannel so)) in
  match tlsServerCipher (buildTLSPeerInfo GOOS co requestPush) optionsString so with
  | Ok c =>
      c ∈ clientCiphers ∧ firstShared serverCiphers clientCiphers = Some c ∧
      tlsValidateServerPushedCipher co c = Ok c ∧
      selectPulledCipher co (extractRemoteCipherName
        (buildTLSOptionsStringWithMTU (sto_Protocol (so_Transport so)) false (IsSet (tls_Auth (so_TLS so))) noCompression c
           (sdo_Auth (so_DataChannel so)) (sdo_MTU (so_DataChannel so)))) = Ok c ∧
      selectP2PCipher co (buildTLSServerPeerInfo so) = Ok c ∧
      ∀ keyMaterial unixNow auth, (256 ≤ length keyMaterial)%nat → auth ∈ [cdo_Auth (co_DataChannel co); sdo_Auth (so_DataChannel so)] → ∃ clientCodec serverCodec,
        newTLSDataCodec cr unixNow keyMaterial false c auth
          (cdo_ReplayWindow (co_DataChannel co)) (cdo_ReplayWindowTime (co_DataChannel co)) = Ok clientCodec ∧
        newTLSDataCodec cr unixNow keyMaterial true c (sdo_Auth (so_DataChannel so))
          (sdo_ReplayWindow (so_DataChannel so)) (sdo_ReplayWindowTime (so_DataChannel so)) = Ok serverCodec
  | Err _ => ∀ c, c ∈ serverCiphers → c ∉ clientCiphers
  end.
Proof. apply cipher_negotiation. Qed.

(** What the server reads in the client's peer info. *)
Lemma client_announcement_understood GOOS co requestPush :
  validateImplementedClientOptions co = Ok () → 0 ≤ cdo_MTU (co_DataChannel co) < 2 ^ 32 →
  let info := buildTLSPeerInfo GOOS co requestPush in
  peerInfoIVProto info = Some (clientIVProto requestPush) ∧
  peerInfoMTU info = (if requestPush then Some (if cdo_MTU (co_DataChannel co) =? 0 then 1500 else cdo_MTU (co_DataChannel co)) else None) ∧
  peerInfoNCPVersion info = (if tlsSupportsNCPv2 (tlsAdvertisedDataCiphers (cdo_Ciphers (co_DataChannel co))) then 2 else 0).
Proof.
  intros Hco Hm. destruct (validated_client co Hco) as (Hcc & _ & _). unfold peerInfoIVProto, peerInfoMTU, peerInfoNCPVersion.
  change "IV_PROTO=" with ("IV_PROTO" +:+ "="). change "IV_MTU=" with ("IV_MTU" +:+ "="). change "IV_NCP=" with ("IV_NCP" +:+ "=").
  rewrite !client_announces by (first [done | exact trimCR_id]). unfold clientFields.
  set (mtu := if cdo_MTU (co_DataChannel co) =? 0 then 1500 else cdo_MTU (co_DataChannel co)). split_and!.
  - destruct (tlsSupportsNCPv2 _), requestPush; vm_compute; reflexivity.
  - destruct requestPush.
    + match goal with |- (assoc "IV_MTU" ?fields ≫= _) = _ => assert (assoc "IV_MTU" fields = Some (FormatUint mtu)) as -> end.
      { by destruct (tlsSupportsNCPv2 _). }
      cbn [mbind option_bind]. rewrite ParseUint_FormatUint by (subst mtu; destruct (Z.eqb_spec (cdo_MTU (co_DataChannel co)) 0); lia).
      subst mtu. destruct (Z.eqb_spec (cdo_MTU (co_DataChannel co)) 0) as [_ | Hne]; [done |]. by rewrite (proj2 (Z.eqb_neq _ _) Hne).
    + destruct (tlsSupportsNCPv2 _), (decide (clientAllowCompression co = _)); vm_compute; reflexivity.
  - destruct (tlsSupportsNCPv2 _), requestPush, (decide (clientAllowCompression co = _)); vm_compute; reflexivity.
Qed.

Definition exampleTLS : TLSOptions :=
  mkTLSOptions (mkMaterial "ca.crt" []) (mkMaterial "peer.crt" []) (mkMaterial "peer.key" []) noMaterial noMaterial noMaterial
    "" "" [] "" [] "" "server" "" "1.2" "" "" "" "".

Definition exampleClientOptions : ClientOptions :=
  mkClientOptions ModeTLS (mkClientTransport [mkRemote "vpn.example.org" 1194 ""] false "udp" 0)
    (mkClientDataChannel 0 0 false "" 0 "" ["AES-128-GCM"; "AES-256-CBC"] "" "" "" "" "" 0 0 0)
    exampleTLS (mkClientAuthentication "" "" "" "" false) (mkClientPull true [] false)
    (mkClientTunnel "" "" false [] false 0 false false AddrInvalid [] [] [] AddrInvalid AddrInvalid)
    (mkClientTiming 0 false 0 0 0 0 false 0 0) noMaterial 0.

Definition exampleServerOptions : ServerOptions :=
  mkServerOptions ModeTLS (mkServerTransport ":1194" "" None None "udp") (mkServerResource 0 0 0 0 0)
    (mkServerDataChannel 1400 0 false "" "" ["CHACHA20-POLY1305"; "AES-256-CBC"; "AES-128-GCM"] "" "SHA256" 0 0 0)
    exampleTLS false "" false false (mkServerTiming 0 false 0 0 0 0 0)
    (mkServerTunnel [mkPrefix (Addr4 168296448) 24] "subnet" [] AddrInvalid AddrInvalid)
    (mkServerPush [] [] [] ["example.org"] [] false 0 false 0 false false []) noMaterial 0.

Lemma exampleCrypto_total : Crypto_total exampleCrypto.
Proof. by split; eauto. Qed.

Lemma cipher_negotiation_agrees_witness :
  selectP2PCipher exampleClientOptions (buildTLSServerPeerInfo exampleServerOptions) = Ok "AES-256-CBC" ∧
  tlsValidateServerPushedCipher exampleClientOptions "AES-256-CBC" = Ok "AES-256-CBC".
Proof.
  assert (Hc : tlsServerCipher (buildTLSPeerInfo "linux" exampleClientOptions true) "" exampleServerOptions = Ok "AES-256-CBC")
    by (vm_compute; reflexivity).
  pose proof (cipher_negotiation_agrees exampleCrypto "linux" exampleClientOptions exampleServerOptions true "" exampleCrypto_total
    ltac:(vm_compute; reflexivity) ltac:(cbn; lia) ltac:(vm_compute; reflexivity) ltac:(cbn; lia)) as H.
  cbv zeta in H. rewrite Hc in H. destruct H as (_ & _ & Hv & _ & Hp & _). by split.
Defined.
