(* ===== verification/NetipText.v ===== *)
(** * The texts of addresses and prefixes: what the code uses of [net/netip] and [net]

    Addresses without zones: a text with a zone has no address here.  The errors
    of the library are one error.  IPv4 texts are read back to what was printed. *)

From Stdlib Require Import Strings.Ascii.
From S2P Require Import Prelude GoStrings Netip.

Definition errParseAddr : goerr := ErrNew "ParseAddr".

(** ** IPv4 *)

Definition octet (v : Z) (i : Z) : Z := Z.shiftr v (8 * (3 - i)) mod 256.

Definition dotted (v : Z) : string :=
  Join "." (FormatUint <$> [octet v 0; octet v 1; octet v 2; octet v 3]).

(** One field: digits without a leading zero, at most 255. *)
Definition parseOctet (s : string) : option Z :=
  if decide (s = EmptyString) then None else
  if HasPrefix s "0" && negb (bool_decide (s = "0")) then None else
  n ← parseDigits s 0;
  if n <=? 255 then Some n else None.

Definition parseIPv4 (s : string) : option Z :=
  match parseOctet <$> Split "."%char s with
  | [Some a; Some b; Some c; Some d] => Some (((a * 256 + b) * 256 + c) * 256 + d)
  | _ => None
  end.

(** ** IPv6 *)

Definition hexDigit (d : Z) : ascii := ascii_of_nat (Z.to_nat (if d <? 10 then 48 + d else 87 + d)).

(** A 16-bit group in hexadecimal without leading zeros. *)
Definition formatGroup (g : Z) : string :=
  let digits := [g / 4096; g / 256 mod 16; g / 16 mod 16; g mod 16] in
  let significant := if g <? 16 then drop 3 digits else if g <? 256 then drop 2 digits else if g <? 4096 then drop 1 digits else digits in
  foldr (λ d s, String (hexDigit d) s) EmptyString significant.

Definition groups (v : Z) : list Z := (λ i, Z.shiftr v (16 * (7 - i)) mod 65536) <$> [0; 1; 2; 3; 4; 5; 6; 7].

Fixpoint leadingZeros (l : list Z) : nat :=
  match l with g :: l => if g =? 0 then S (leadingZeros l) else O | [] => O end.

(** The first longest run of at least two zero groups: where it starts and its length. *)
Fixpoint longestZeros (i : nat) (l : list Z) (best : nat * nat) : nat * nat :=
  match l with
  | [] => best
  | _ :: rest =>
      let n := leadingZeros l in
      longestZeros (S i) rest (if decide (2 ≤ n ∧ best.2 < n)%nat then (i, n) else best)
  end.

Definition format6 (v : Z) : string :=
  let gs := groups v in
  let '(start, n) := longestZeros 0 gs (0%nat, 0%nat) in
  if decide (n = 0%nat) then Join ":" (formatGroup <$> gs)
  else Join ":" (formatGroup <$> take start gs) +:+ "::" +:+ Join ":" (formatGroup <$> drop (start + n) gs).

(** [Is4In6]: ::ffff:0:0/96. *)
Definition is4in6 (v : Z) : bool := Z.shiftr v 32 =? 65535.

Definition Addr_String (a : Addr) : string :=
  match a with
  | AddrInvalid => "invalid IP"
  | Addr4 v => dotted v
  | Addr6 v => if is4in6 v then "::ffff:" +:+ dotted (v mod 2 ^ 32) else format6 v
  end.

(** The hexadecimal digits in front of a text: their number, their value and the rest. *)
Fixpoint hexPrefix (s : string) (n : nat) (acc : Z) : nat * Z * string :=
  match s with
  | String c rest => match hexValue c with Some d => hexPrefix rest (S n) (acc * 16 + d) | None => (n, acc, s) end
  | EmptyString => (n, acc, s)
  end.

Definition assemble (ellipsis : option nat) (gs : list Z) : option Z :=
  let value (l : list Z) : Z := foldl (λ acc g, acc * 65536 + g) 0 l in
  let n := (8 - length gs)%nat in
  match ellipsis with
  | None => if decide (length gs = 8%nat) then Some (value gs) else None
  | Some e => if decide (length gs < 8)%nat then Some (value (take e gs ++ replicate n 0 ++ drop e gs)) else None
  end.

(** The loop of [parseIPv6] over the groups, eight at most; [gs] are the groups
    read so far, [ellipsis] how many there were before the [::]. *)
Fixpoint parseGroups (fuel : nat) (s : string) (ellipsis : option nat) (gs : list Z) : option Z :=
  match fuel with
  | O => None
  | S fuel =>
      if decide (length gs = 8%nat) then None else
      let '(digits, acc, rest) := hexPrefix s 0 0 in
      if decide (digits = 0%nat ∨ 4 < digits)%nat then None else
      match rest with
      | EmptyString => assemble ellipsis (gs ++ [acc])
      | String "." _ =>
          if decide ((ellipsis = None ∧ length gs ≠ 6%nat) ∨ (6 < length gs)%nat) then None else
          v ← parseIPv4 s; assemble ellipsis (gs ++ [v / 65536; v mod 65536])
      | String ":" EmptyString => None
      | String ":" (String ":" rest) =>
          if decide (ellipsis ≠ None) then None else
          if decide (rest = EmptyString) then assemble (Some (length gs + 1)%nat) (gs ++ [acc])
          else parseGroups fuel rest (Some (length gs + 1)%nat) (gs ++ [acc])
      | String ":" rest => parseGroups fuel rest ellipsis (gs ++ [acc])
      | _ => None
      end
  end.

Definition parseIPv6 (s : string) : option Z :=
  if HasPrefix s "::" then
    let s := TrimPrefix s "::" in
    if decide (s = EmptyString) then Some 0 else parseGroups 9 s (Some 0%nat) []
  else parseGroups 9 s None [].

(** The first dot, colon or percent sign decides the family. *)
Fixpoint addrKind (s : string) : option ascii :=
  match s with
  | EmptyString => None
  | String c s => if decide (c ∈ ["."%char; ":"%char; "%"%char]) then Some c else addrKind s
  end.

Definition ParseAddr (s : string) : result Addr :=
  match addrKind s with
  | Some "."%char => match parseIPv4 s with Some v => Ok (Addr4 v) | None => Err errParseAddr end
  | Some ":"%char => match parseIPv6 s with Some v => Ok (Addr6 v) | None => Err errParseAddr end
  | _ => Err errParseAddr
  end.

(** ** Prefixes, ports and masks *)

(** [strings.Cut] at the last occurrence of a character. *)
Fixpoint cutLast (sep : ascii) (s : string) : option (string * string) :=
  match s with
  | EmptyString => None
  | String c s =>
      match cutLast sep s with
      | Some (before, after) => Some (String c before, after)
      | None => if decide (c = sep) then Some (EmptyString, s) else None
      end
  end.

Definition prefix_String (p : prefix) : string := Addr_String (prefix_Addr p) +:+ "/" +:+ Itoa (prefix_Bits p).

Definition ParsePrefix (s : string) : result prefix :=
  match cutLast "/"%char s with
  | None => Err (ErrNew "ParsePrefix")
  | Some (addressText, bitsText) =>
      address ← ParseAddr addressText;
      (* no sign and no leading zero *)
      if bool_decide (1 < String.length bitsText)%nat && negb (existsb (λ c, HasPrefix bitsText (String c EmptyString))
           ["1"; "2"; "3"; "4"; "5"; "6"; "7"; "8"; "9"]%char) then Err (ErrNew "ParsePrefix") else
      match Atoi bitsText with
      | Ok bits =>
          if (bits <? 0) || (addrFamily address <? bits) then Err (ErrNew "ParsePrefix") else Ok (mkPrefix address bits)
      | Err _ => Err (ErrNew "ParsePrefix")
      end
  end.

(** [netip.AddrPort.String] of a valid address. *)
Definition AddrPort_String (address : Addr) (port : Z) : string :=
  match address with
  | Addr6 _ => "[" +:+ Addr_String address +:+ "]:" +:+ FormatUint port
  | _ => Addr_String address +:+ ":" +:+ FormatUint port
  end.

Definition ParseAddrPort (s : string) : result (Addr * Z) :=
  match cutLast ":"%char s with
  | None => Err (ErrNew "ParseAddrPort")
  | Some (addressText, portText) =>
      if decide (addressText = EmptyString) then Err (ErrNew "ParseAddrPort") else
      let bracketed := HasPrefix addressText "[" in
      if bracketed && negb (bool_decide (1 < String.length addressText)%nat && HasSuffix addressText "]")
      then Err (ErrNew "ParseAddrPort") else
      let addressText := if bracketed then TrimSuffix (TrimPrefix addressText "[") "]" else addressText in
      port ← ParseUint portText 16;
      address ← ParseAddr addressText;
      if xorb bracketed (Is6 address) then Err (ErrNew "ParseAddrPort") else Ok (address, port)
  end.

(** [net.CIDRMask(bits, 32)] as a number. *)
Definition ipv4Mask (bits : Z) : Z := 2 ^ 32 - 2 ^ (32 - bits).

(** [net.IPMask.Size]: the number of leading ones of a canonical mask. *)
Definition maskSize (mask : Z) : option Z :=
  List.find (λ bits, ipv4Mask bits =? mask) (seqZ 0 33).

(** [net.ParseIP(token).To4()]: an IPv4 address, mapped into IPv6 or not. *)
Definition parseIPTo4 (token : string) : option Z :=
  match ParseAddr token with
  | Ok (Addr4 v) => Some v
  | Ok (Addr6 v) => if is4in6 v then Some (v mod 2 ^ 32) else None
  | _ => None
  end.

(** ** What is printed is read back *)

Lemma octet_range v i : 0 ≤ octet v i < 256.
Proof. apply Z.mod_pos_bound. lia. Qed.

Lemma octets_value v :
  0 ≤ v < 2 ^ 32 → ((octet v 0 * 256 + octet v 1) * 256 + octet v 2) * 256 + octet v 3 = v.
Proof.
  intros Hv. unfold octet. rewrite !Z.shiftr_div_pow2 by lia. change (2 ^ (8 * (3 - 0))) with 16777216.
  change (2 ^ (8 * (3 - 1))) with 65536. change (2 ^ (8 * (3 - 2))) with 256. change (2 ^ (8 * (3 - 3))) with 1.
  Z.to_euclidean_division_equations; lia.
Qed.

Lemma parseOctet_FormatUint n : 0 ≤ n < 256 → parseOctet (FormatUint n) = Some n.
Proof.
  intros Hn. pose proof (by_cases (λ m, match parseOctet (FormatUint m) with Some k => k =? m | None => false end) 0 256 n
    ltac:(vm_compute; reflexivity) ltac:(lia)) as H.
  cbv beta in H. destruct (parseOctet (FormatUint n)) as [k |]; [| done]. f_equal. by apply Z.eqb_eq.
Qed.

Lemma FormatUint_plain n c : 0 ≤ n < 2 ^ 64 → digitValue c = None → containsChar c (FormatUint n) = false.
Proof. intros Hn Hc. destruct (FormatUint_spec n Hn) as (_ & _ & H). by apply H. Qed.

Lemma parseIPv4_dotted v : 0 ≤ v < 2 ^ 32 → parseIPv4 (dotted v) = Some v.
Proof.
  intros Hv. unfold parseIPv4, dotted. rewrite (Split_Join "."%char); [| done |].
  - cbn [fmap list_fmap]. rewrite !parseOctet_FormatUint by apply octet_range. f_equal. by apply octets_value.
  - apply Forall_fmap, Forall_forall. intros x Hx. apply FormatUint_plain; [| done].
    repeat (apply elem_of_cons in Hx as [-> | Hx]); try (by apply not_elem_of_nil in Hx).
    all: match goal with |- context [octet ?v ?i] => pose proof (octet_range v i) end; lia.
Qed.

Lemma addrKind_skip s t : (∀ c, c ∈ ["."%char; ":"%char; "%"%char] → containsChar c s = false) → addrKind (s +:+ t) = addrKind t.
Proof.
  induction s as [| d s IH]; intros H; [done |]. rewrite append_cons. cbn [addrKind].
  destruct (decide (d ∈ _)) as [Hd | Hd].
  - specialize (H d Hd). cbn [containsChar] in H. rewrite bool_decide_eq_true_2 in H by done. done.
  - apply IH. intros c Hc. specialize (H c Hc). cbn [containsChar] in H. by apply orb_false_iff in H as [_ H].
Qed.

(** An IPv4 address is read back from its text. *)
Lemma ParseAddr_dotted v : 0 ≤ v < 2 ^ 32 → ParseAddr (dotted v) = Ok (Addr4 v).
Proof.
  intros Hv. unfold ParseAddr. assert (addrKind (dotted v) = Some "."%char) as ->.
  { unfold dotted. cbn [fmap list_fmap Join]. rewrite addrKind_skip; [done |]. intros c Hc. apply FormatUint_plain.
    - pose proof (octet_range v 0). lia.
    - rewrite !elem_of_cons in Hc. by destruct Hc as [-> | [-> | [-> | Hc%not_elem_of_nil]]]. }
  by rewrite parseIPv4_dotted.
Qed.

Lemma maskSize_ipv4Mask bits : 0 ≤ bits ≤ 32 → maskSize (ipv4Mask bits) = Some bits.
Proof.
  intros Hb. pose proof (by_cases (λ b, match maskSize (ipv4Mask b) with Some k => k =? b | None => false end) 0 33 bits
    ltac:(vm_compute; reflexivity) ltac:(lia)) as H.
  cbv beta in H. destruct (maskSize (ipv4Mask bits)) as [k |]; [| done]. f_equal. by apply Z.eqb_eq.
Qed.

Lemma ipv4Mask_range bits : 0 ≤ bits ≤ 32 → 0 ≤ ipv4Mask bits < 2 ^ 32.
Proof.
  intros Hb. unfold ipv4Mask. assert (0 < 2 ^ (32 - bits)) by (apply Z.pow_pos_nonneg; lia).
  assert (2 ^ (32 - bits) ≤ 2 ^ 32) by (apply Z.pow_le_mono_r; lia). lia.
Qed.

Lemma dotted_plain v c : digitValue c = None → c ≠ "."%char → containsChar c (dotted v) = false.
Proof.
  intros Hc Hd. unfold dotted. cbn [fmap list_fmap Join]. rewrite !containsChar_app. cbn [containsChar].
  rewrite (bool_decide_eq_false_2 (c = "."%char)) by done.
  rewrite !FormatUint_plain; try done; match goal with |- context [octet ?v ?i] => pose proof (octet_range v i) end; lia.
Qed.
