(* ===== verification/PushOptions.v ===== *)
(** * Pushed options ([pull_options.go], [push_options.go], [route_options.go],
      [server_negotiation.go], and the data of [tunnel_options.go])

    The options a server pushes, as the lines of [PUSH_REPLY] messages: how the
    server writes them and cuts them into messages, how the client puts the
    messages together again and reads them. *)

From Stdlib Require Import Strings.Ascii.
From S2P Require Import Prelude GoStrings Crypto Codec CodecLaws Compression KeyMethod Netip NetipText IPPool Options Negotiation.

Definition pushRequestPayload : string := "PUSH_REQUEST".
Definition pushReplyPayloadPrefix : string := "PUSH_REPLY".
Definition pushUpdatePayloadPrefix : string := "PUSH_UPDATE".

(** ** Data *)

Inductive pushedPingTimeoutAction := pushedPingTimeoutNone | pushedPingTimeoutRestart | pushedPingTimeoutExit.

Inductive pushOptionsKind := pushOptionsKindReply | pushOptionsKindUpdate.

Record pushedLocalAddress := mkLocalAddress { pla_Prefix : prefix; pla_Peer : Addr; pla_Raw : string }.

Record pushedRoute := mkPushedRoute { pr_Route : TunnelRoute; pr_Raw : string }.

Record pushedAddress := mkPushedAddress { pa_Address : Addr; pa_Raw : string; pa_OptionName : string }.

Record pushedOptionParseError := mkParseError { pe_Name : string; pe_Value : string; pe_Err : goerr }.

Record pushedExcludedRoute := mkExcludedRoute { pex_Name : string; pex_Value : string; pex_Route : TunnelRoute }.

Record wirePushedOptions := mkWire {
  w_Topology : string;
  w_TunMTU : Z;
  w_Ifconfig : string;
  w_IfconfigIPv6 : string;
  w_RouteGateway : string;
  w_Route : list string;
  w_RouteIPv6 : list string;
  w_DNS : list string;
  w_DHCPOptions : list string;
  w_BlockIPv6 : bool;
  w_BlockOutsideDNS : bool;
  w_RedirectGateway : bool;
  w_RedirectGatewayFlags : list string;
  w_RedirectPrivate : bool;
  w_RouteMetric : Z;
  w_RouteMetricSet : bool;
  w_PingInterval : Z;
  w_PingIntervalEnabled : bool;
  w_PingRestart : Z;
  w_PingRestartEnabled : bool;
  w_AuthToken : string;
  w_AuthTokenUser : string;
  w_PeerID : option Z;
  w_SelectedCipher : string;
  w_SelectedAuth : string;
  w_ProtocolFlags : list string;
  w_KeyDerivation : string;
  w_ExplicitExitNotify : Z;
  w_ExplicitExitNotifySet : bool;
  w_CompressionDirectives : list compressionDirective;
  w_InactiveTimeout : Z;
  w_InactiveMinimumBytes : Z;
  w_InactiveTimeoutSet : bool;
  w_SessionTimeout : Z;
  w_SessionTimeoutSet : bool;
  w_PingExit : Z;
  w_PingExitSet : bool;
  w_PingTimeoutAction : pushedPingTimeoutAction;
  w_PingTimerRemote : bool;
}.

#[export] Instance eta_wirePushedOptions : Eta wirePushedOptions := λ r,
  mkWire (w_Topology r) (w_TunMTU r) (w_Ifconfig r) (w_IfconfigIPv6 r) (w_RouteGateway r) (w_Route r) (w_RouteIPv6 r)
  (w_DNS r) (w_DHCPOptions r) (w_BlockIPv6 r) (w_BlockOutsideDNS r) (w_RedirectGateway r) (w_RedirectGatewayFlags r)
  (w_RedirectPrivate r) (w_RouteMetric r) (w_RouteMetricSet r) (w_PingInterval r) (w_PingIntervalEnabled r)
  (w_PingRestart r) (w_PingRestartEnabled r) (w_AuthToken r) (w_AuthTokenUser r) (w_PeerID r) (w_SelectedCipher r)
  (w_SelectedAuth r) (w_ProtocolFlags r) (w_KeyDerivation r) (w_ExplicitExitNotify r) (w_ExplicitExitNotifySet r)
  (w_CompressionDirectives r) (w_InactiveTimeout r) (w_InactiveMinimumBytes r) (w_InactiveTimeoutSet r)
  (w_SessionTimeout r) (w_SessionTimeoutSet r) (w_PingExit r) (w_PingExitSet r) (w_PingTimeoutAction r)
  (w_PingTimerRemote r).

(** The zero value. *)
Definition no_wirePushedOptions : wirePushedOptions :=
  mkWire EmptyString 0 EmptyString EmptyString EmptyString [] [] [] [] false false false [] false 0 false 0 false 0
  false EmptyString EmptyString None EmptyString EmptyString [] EmptyString 0 false [] 0 0 false 0 false 0 false
  pushedPingTimeoutNone false.

Record pushedOptions := mkPushed {
  po_kind : pushOptionsKind;
  po_modernDNS : bool;
  po_modernDNSAddresses : list pushedAddress;
  po_modernSearchDomains : list string;
  po_pullFilterRejection : string;
  po_Topology : string;
  po_TunMTU : Z;
  po_LocalAddress : list pushedLocalAddress;
  po_RouteGateway : Addr;
  po_RouteGatewayVPN : bool;
  po_RouteGatewayRaw : string;
  po_Routes : list pushedRoute;
  po_DNS : list pushedAddress;
  po_DNSServers : list TunnelDNSServer;
  po_DHCPOptions : list string;
  po_SearchDomains : list string;
  po_DNSRoutes : list string;
  po_BlockIPv6 : bool;
  po_BlockOutsideDNS : bool;
  po_RedirectGateway : bool;
  po_RedirectGatewayFlags : list string;
  po_RedirectPrivate : bool;
  po_RouteMetric : Z;
  po_RouteMetricSet : bool;
  po_PingInterval : Z;
  po_PingIntervalEnabled : bool;
  po_PingRestart : Z;
  po_PingRestartEnabled : bool;
  po_AuthToken : string;
  po_AuthTokenUser : string;
  po_PeerID : option Z;
  po_SelectedCipher : string;
  po_SelectedAuth : string;
  po_ProtocolFlags : list string;
  po_KeyDerivation : string;
  po_ExplicitExitNotify : Z;
  po_ExplicitExitNotifySet : bool;
  po_CompressionDirectives : list compressionDirective;
  po_InactiveTimeout : Z;
  po_InactiveMinimumBytes : Z;
  po_InactiveTimeoutSet : bool;
  po_SessionTimeout : Z;
  po_SessionTimeoutSet : bool;
  po_PingExit : Z;
  po_PingExitSet : bool;
  po_PingTimerRemote : bool;
  po_parseErrors : list pushedOptionParseError;
  po_excludedRoutes : list pushedExcludedRoute;
}.

#[export] Instance eta_pushedOptions : Eta pushedOptions := λ r,
  mkPushed (po_kind r) (po_modernDNS r) (po_modernDNSAddresses r) (po_modernSearchDomains r)
  (po_pullFilterRejection r) (po_Topology r) (po_TunMTU r) (po_LocalAddress r) (po_RouteGateway r)
  (po_RouteGatewayVPN r) (po_RouteGatewayRaw r) (po_Routes r) (po_DNS r) (po_DNSServers r) (po_DHCPOptions r)
  (po_SearchDomains r) (po_DNSRoutes r) (po_BlockIPv6 r) (po_BlockOutsideDNS r) (po_RedirectGateway r)
  (po_RedirectGatewayFlags r) (po_RedirectPrivate r) (po_RouteMetric r) (po_RouteMetricSet r) (po_PingInterval r)
  (po_PingIntervalEnabled r) (po_PingRestart r) (po_PingRestartEnabled r) (po_AuthToken r) (po_AuthTokenUser r)
  (po_PeerID r) (po_SelectedCipher r) (po_SelectedAuth r) (po_ProtocolFlags r) (po_KeyDerivation r)
  (po_ExplicitExitNotify r) (po_ExplicitExitNotifySet r) (po_CompressionDirectives r) (po_InactiveTimeout r)
  (po_InactiveMinimumBytes r) (po_InactiveTimeoutSet r) (po_SessionTimeout r) (po_SessionTimeoutSet r)
  (po_PingExit r) (po_PingExitSet r) (po_PingTimerRemote r) (po_parseErrors r) (po_excludedRoutes r).

(** The zero value. *)
Definition no_pushedOptions : pushedOptions :=
  mkPushed pushOptionsKindReply false [] [] EmptyString EmptyString 0 [] AddrInvalid false EmptyString [] [] [] [] []
  [] false false false [] false 0 false 0 false 0 false EmptyString EmptyString None EmptyString EmptyString []
  EmptyString 0 false [] 0 0 false 0 false 0 false false [] [].

(** ** Option lines *)

(** The states of the line parser; a finished parameter returns to the first. *)
Inductive lineState := lineInitial | lineQuoted | lineUnquoted | lineSingleQuoted.

#[export] Instance lineState_eq_dec : EqDecision lineState.
Proof. solve_decision. Defined.

Definition pushedOptionLineMaxParameters : nat := 16.

Definition NUL : ascii := ascii_of_nat 0.
Definition backslashChar : ascii := ascii_of_nat 92.
Definition doubleQuote : ascii := ascii_of_nat 34.
Definition singleQuote : ascii := ascii_of_nat 39.

Definition isPushedOptionLineSpace (character : ascii) : bool := bool_decide (character = NUL) || isSpace character.

(** What one character does: the parameter is finished, or a character is
    stored, or neither; or the rest of the line is a comment. *)
Inductive lineStep := lineComment | lineDone | lineNext (state : lineState) (stored : option ascii).

Definition stepLine (state : lineState) (backslash : bool) (character : ascii) : lineStep :=
  match state with
  | lineInitial =>
      if isPushedOptionLineSpace character then lineNext lineInitial None else
      if bool_decide (character = ";"%char) || bool_decide (character = "#"%char) then lineComment else
      if negb backslash && bool_decide (character = doubleQuote) then lineNext lineQuoted None else
      if negb backslash && bool_decide (character = singleQuote) then lineNext lineSingleQuoted None else
      lineNext lineUnquoted (Some character)
  | lineUnquoted =>
      if negb backslash && isPushedOptionLineSpace character then lineDone else lineNext lineUnquoted (Some character)
  | lineQuoted =>
      if negb backslash && bool_decide (character = doubleQuote) then lineDone else lineNext lineQuoted (Some character)
  | lineSingleQuoted =>
      if bool_decide (character = singleQuote) then lineDone else lineNext lineSingleQuoted (Some character)
  end.

(** A stored zero is not written. *)
Definition store (parameter : string) (stored : option ascii) : string :=
  match stored with
  | Some c => if decide (c = NUL) then parameter else parameter +:+ String c EmptyString
  | None => parameter
  end.

Definition finishLine (state : lineState) (parameters : list string) : option (list string) :=
  if decide (state = lineInitial) then match parameters with [] => None | _ => Some parameters end else None.

(** The loop over the line's characters and the zero behind them. *)
Fixpoint lineLoop (line : string) (parameters : list string) (parameter : string) (state : lineState) (backslash : bool)
    : option (list string) :=
  let character := match line with EmptyString => NUL | String c _ => c end in
  let continue (parameters : list string) (parameter : string) (state : lineState) (backslash : bool) :=
    match line with
    | EmptyString => finishLine state parameters
    | String _ line => lineLoop line parameters parameter state backslash
    end in
  if negb backslash && bool_decide (character = backslashChar) && negb (bool_decide (state = lineSingleQuoted))
  then continue parameters parameter state true else
  if backslash && negb (bool_decide (character = backslashChar)) && negb (bool_decide (character = doubleQuote)) &&
     negb (isPushedOptionLineSpace character) then None else
  match stepLine state backslash character with
  | lineComment => finishLine lineInitial parameters
  | lineDone =>
      let parameters := parameters ++ [parameter] in
      if decide (pushedOptionLineMaxParameters ≤ length parameters)%nat then finishLine lineInitial parameters
      else continue parameters EmptyString lineInitial false
  | lineNext state stored => continue parameters (store parameter stored) state false
  end.

Definition parsePushedOptionLine (line : string) : option (list string) := lineLoop line [] EmptyString lineInitial false.

(** ** Numbers *)

Definition s32 (z : Z) : Z := (z + 2 ^ 31) mod 2 ^ 32 - 2 ^ 31.

Fixpoint leadingDigits (s : string) (acc : Z) (count : nat) : Z * nat :=
  match s with
  | String c rest => match digitValue c with Some d => leadingDigits rest (acc * 10 + d) (S count) | None => (acc, count) end
  | EmptyString => (acc, count)
  end.

Definition parsePushedPositiveInteger (value : string) : Z :=
  let text := TrimLeftFunc isSpace value in
  let negative := HasPrefix text "-" in
  let unsigned := if HasPrefix text "+" then TrimPrefix text "+" else if negative then TrimPrefix text "-" else text in
  let '(number, count) := leadingDigits unsigned 0 0 in
  if decide (count = 0%nat) then 0 else
  let number := if negative then - number else number in
  let parsed := if number <? -(2 ^ 63) then -(2 ^ 63) else if 2 ^ 63 - 1 <? number then 2 ^ 63 - 1 else number in
  let truncated := s32 parsed in
  if truncated <? 0 then 0 else truncated.

Definition parsePushedSecondCount (value : string) : Z := parsePushedPositiveInteger value * Second.

(** ** Filters *)

(** Allowed and rejected. *)
Fixpoint applyPullFilters (filters : list PullFilter) (optionLine : string) : bool * bool :=
  match filters with
  | [] => (true, false)
  | filter :: filters =>
      if negb (HasPrefix optionLine (pf_Text filter)) then applyPullFilters filters optionLine else
      if decide (pf_Action filter = "accept") then (true, false) else
      if decide (pf_Action filter = "ignore") then (false, false) else
      if decide (pf_Action filter = "reject") then (false, true) else
      applyPullFilters filters optionLine
  end.

(** ** Addresses and routes of option values ([route_options.go]) *)

Definition errInvalidPushedRouteGateway : goerr := ErrNew "invalid pushed route-gateway".

Definition normalizeTopology (topology : string) : string := ToLower (TrimSpace topology).

Definition isIPv4MaskGateway (address : Addr) : bool :=
  match address with
  | Addr4 v => match maskSize v with Some size => size <? 32 | None => false end
  | _ => false
  end.

Fixpoint ifconfigGatewayLoop (ifconfigValues : list string) : Addr :=
  match ifconfigValues with
  | [] => AddrInvalid
  | ifconfigValue :: ifconfigValues =>
      match Fields ifconfigValue with
      | _ :: second :: _ =>
          match ParseAddr second with
          | Ok gatewayAddress =>
              if negb (Is4 gatewayAddress) || isIPv4MaskGateway gatewayAddress
              then ifconfigGatewayLoop ifconfigValues else gatewayAddress
          | Err _ => ifconfigGatewayLoop ifconfigValues
          end
      | _ => ifconfigGatewayLoop ifconfigValues
      end
  end.

Definition parseIfconfigVPNGateway (ifconfigValues : list string) (topology : string) : Addr :=
  if decide (normalizeTopology topology = "subnet") then AddrInvalid else ifconfigGatewayLoop ifconfigValues.

Definition isNetGatewayToken (routeGateway : string) : bool :=
  bool_decide (ToLower (TrimSpace routeGateway) ∈ ["net_gateway"; "dhcp"]).

Definition parseDottedIPv4Mask (token : string) : option Z := v ← parseIPTo4 token; maskSize v.

Definition cause {A} (message : string) (r : result A) : result A :=
  match r with Ok x => Ok x | Err e => Err (ErrCause e message) end.

Definition parseIfconfigPrefix (ifconfig topology : string) : result prefix :=
  let trimmed := TrimSpace ifconfig in
  if decide (trimmed = EmptyString) then Err (ErrNew "empty ifconfig") else
  if containsChar "/"%char trimmed then cause ("parse ifconfig cidr: " +:+ trimmed) (ParsePrefix trimmed) else
  match Fields trimmed with
  | [localText; second] =>
      localAddress ← cause ("parse ifconfig local: " +:+ localText) (ParseAddr localText);
      if negb (Is4 localAddress) then Err (ErrNew ("ipv4 ifconfig expected, got: " +:+ localText)) else
      let mask := parseDottedIPv4Mask second in
      let normalizedTopology := normalizeTopology topology in
      let normalizedTopology :=
        if decide (normalizedTopology = EmptyString) then (if isSome mask then "subnet" else "net30") else normalizedTopology in
      if decide (normalizedTopology = ipv4TopologySubnet) then
        match mask with
        | None => Err (ErrNew ("ifconfig subnet topology requires dotted-quad netmask: " +:+ trimmed))
        | Some bits => Ok (mkPrefix localAddress bits)
        end
      else if decide (normalizedTopology = ipv4TopologyP2P ∨ normalizedTopology = ipv4TopologyNet30) then
        peer ← cause ("parse ifconfig peer: " +:+ second) (ParseAddr second);
        if negb (Is4 peer) then Err (ErrNew ("ipv4 ifconfig peer expected, got: " +:+ second)) else
        Ok (mkPrefix localAddress (if decide (normalizedTopology = ipv4TopologyP2P) then 32 else 30))
      else Err (ErrNew ("unsupported topology: " +:+ topology))
  | _ => Err (ErrNew ("invalid ifconfig: " +:+ trimmed))
  end.

Definition parseIPv6Address (token : string) : result Addr :=
  address ← cause ("parse ipv6 address: " +:+ token) (ParseAddr token);
  if negb (Is6 address) then Err (ErrNew ("ipv6 address expected, got: " +:+ token)) else Ok address.

Definition parseIPv6AddressPrefix (token : string) : result prefix :=
  let '(addressToken, netbits) :=
    match Cut "/"%char token with
    | None => (token, Ok 64)
    | Some (addressToken, netbitsToken) =>
        (addressToken,
         if decide (netbitsToken = EmptyString) then Ok 0 else
         match Atoi netbitsToken with
         | Ok parsedNetbits => if (0 <=? parsedNetbits) && (parsedNetbits <=? 128) then Ok parsedNetbits else Err (ErrNew "netbits")
         | Err e => Err e
         end)
    end in
  match netbits with
  | Err _ => Err (ErrNew ("ipv6 prefix '" +:+ token +:+ "': invalid '/bits' spec"))
  | Ok netbits =>
      address ← cause ("ipv6 prefix '" +:+ token +:+ "'") (parseIPv6Address addressToken);
      Ok (mkPrefix address netbits)
  end.

Definition parseIfconfigIPv6 (row : string) : result (prefix * Addr) :=
  match Fields (TrimSpace row) with
  | [localText; remoteText] =>
      localPrefix ← parseIPv6AddressPrefix localText;
      remoteAddress ← parseIPv6Address remoteText;
      if (prefix_Bits localPrefix <? 64) || (124 <? prefix_Bits localPrefix)
      then Err (ErrNew ("ifconfig-ipv6 netbits must be between 64 and 124, not '/" +:+ Itoa (prefix_Bits localPrefix) +:+ "'"))
      else Ok (localPrefix, remoteAddress)
  | _ => Err (ErrNew ("ifconfig-ipv6 expects a local and a remote endpoint, got: " +:+ row))
  end.

(** The gateway and whether the route is excluded from the tunnel. *)
Definition parsePushedRouteGateway (token : string) (remoteHost : Addr) (ipv4 : bool) : result (Addr * bool) :=
  let trimmedToken := TrimSpace token in
  if decide (trimmedToken = EmptyString) then Ok (AddrInvalid, false) else
  if EqualFold trimmedToken "vpn_gateway" then Ok (AddrInvalid, false) else
  if EqualFold trimmedToken "remote_host" then
    Ok (if Addr_IsValid remoteHost && eqb (Is4 remoteHost) ipv4 then remoteHost else AddrInvalid, false) else
  if isNetGatewayToken trimmedToken then Ok (AddrInvalid, true) else
  gateway ← ParseAddr trimmedToken;
  if negb (eqb (Is4 gateway) ipv4) then
    Err (ErrNew ((if ipv4 then "ipv4" else "ipv6") +:+ " route gateway expected, got: " +:+ trimmedToken)) else
  Ok (gateway, false).

(** What follows the destination of a route: a metric, or a gateway and a metric. *)
Definition parseRouteTail (tokens : list string) (remoteHost : Addr) (ipv4 : bool) (what : string) : result (Addr * Z * bool) :=
  let tailMetric (tokens : list string) (metric : Z) (k : Z → result (Addr * Z * bool)) :=
    match tokens with
    | [] => k metric
    | token :: _ => parsedMetric ← cause ("parse " +:+ what +:+ " metric: " +:+ token) (Atoi token); k parsedMetric
    end in
  match tokens with
  | [] => Ok (AddrInvalid, 0, false)
  | token :: tokens =>
      match Atoi token with
      | Ok parsedMetric => tailMetric tokens parsedMetric (λ metric, Ok (AddrInvalid, metric, false))
      | Err _ =>
          '(gateway, excluded) ← cause ("parse " +:+ what +:+ " gateway: " +:+ token) (parsePushedRouteGateway token remoteHost ipv4);
          tailMetric tokens 0 (λ metric, Ok (gateway, metric, excluded))
      end
  end.

Definition parsePushedRoute (row : string) (remoteHost : Addr) : result (prefix * Addr * Z * bool) :=
  match Fields (TrimSpace row) with
  | [] => Err (ErrNew "empty route")
  | destination :: tokens =>
      '(address, bits, tokens) ←
        (if containsChar "/"%char destination then
           destinationPrefix ← cause ("parse route destination: " +:+ destination) (ParsePrefix destination);
           if negb (Is4 (prefix_Addr destinationPrefix)) then Err (ErrNew ("ipv4 route expected, got: " +:+ destination)) else
           Ok (prefix_Addr destinationPrefix, prefix_Bits destinationPrefix, tokens)
         else
           address ← cause ("parse route destination: " +:+ destination) (ParseAddr destination);
           if negb (Is4 address) then Err (ErrNew ("ipv4 route expected, got: " +:+ destination)) else
           match tokens with
           | maskText :: rest =>
               match parseDottedIPv4Mask maskText with
               | Some maskBits => Ok (address, maskBits, rest)
               | None => Ok (address, 32, tokens)
               end
           | [] => Ok (address, 32, [])
           end);
      '(gateway, metric, excluded) ← parseRouteTail tokens remoteHost true "route";
      if (bits <? 0) || (32 <? bits) then Err (ErrNew ("invalid ipv4 prefix bits: " +:+ Itoa bits)) else
      Ok (mkPrefix address bits, gateway, metric, excluded)
  end.

Definition parsePushedRouteIPv6 (row : string) (remoteHost : Addr) : result (prefix * Addr * Z * bool) :=
  match Fields (TrimSpace row) with
  | [] => Err (ErrNew "empty route-ipv6")
  | destination :: tokens =>
      prefix ← cause "parse route-ipv6 destination" (parseIPv6AddressPrefix destination);
      '(gateway, metric, excluded) ← parseRouteTail tokens remoteHost false "route-ipv6";
      Ok (prefix_Masked prefix, gateway, metric, excluded)
  end.

(** ** Reading option values ([pull_options.go]) *)

Definition addParseError (o : pushedOptions) (name value : string) (err : goerr) : pushedOptions :=
  o <| po_parseErrors := po_parseErrors o ++ [mkParseError name value err] |>.

Definition addExcludedRoute (o : pushedOptions) (name value : string) (route : TunnelRoute) : pushedOptions :=
  o <| po_excludedRoutes := po_excludedRoutes o ++ [mkExcludedRoute name value route] |>.

(** [appendUniqueStringValues]: the values not there yet, in order. *)
Definition appendUniqueStringValues (destination values : list string) : list string :=
  foldl (λ merged value, if decide (value ∈ merged) then merged else merged ++ [value]) destination values.

Definition addWireIfconfig (o : pushedOptions) (value topology : string) : pushedOptions :=
  let raw := TrimSpace value in
  if decide (raw = EmptyString) then o else
  match parseIfconfigPrefix raw topology with
  | Err err => addParseError o "ifconfig" raw err
  | Ok p => o <| po_LocalAddress := po_LocalAddress o ++ [mkLocalAddress p (parseIfconfigVPNGateway [raw] topology) raw] |>
  end.

Definition addWireIfconfigIPv6 (o : pushedOptions) (value : string) : pushedOptions :=
  let raw := TrimSpace value in
  if decide (raw = EmptyString) then o else
  match parseIfconfigIPv6 raw with
  | Err err => addParseError o "ifconfig-ipv6" raw err
  | Ok (p, peer) => o <| po_LocalAddress := po_LocalAddress o ++ [mkLocalAddress p peer raw] |>
  end.

Definition setWireRouteGateway (o : pushedOptions) (value : string) : pushedOptions :=
  let raw := TrimSpace value in
  if decide (raw = EmptyString) then o else
  let o := o <| po_RouteGatewayRaw := raw |> in
  match Fields raw with
  | [] => o
  | first :: _ =>
      if EqualFold first "vpn_gateway" then o <| po_RouteGatewayVPN := true |> else
      match ParseAddr first with
      | Err _ => addParseError o "route-gateway" raw errInvalidPushedRouteGateway
      | Ok routeGateway => o <| po_RouteGateway := routeGateway |>
      end
  end.

(** [addWireRoute] and [addWireRouteIPv6]: the option's name and its parser. *)
Definition addRoute (name : string) (parse : string → Addr → result (prefix * Addr * Z * bool)) (o : pushedOptions)
    (value : string) (remoteHost : Addr) : pushedOptions :=
  let raw := TrimSpace value in
  if decide (raw = EmptyString) then o else
  match parse raw remoteHost with
  | Err err => addParseError o name raw err
  | Ok (p, gateway, metric, excluded) =>
      if excluded : bool then addExcludedRoute o name raw (mkTunnelRoute p AddrInvalid metric)
      else o <| po_Routes := po_Routes o ++ [mkPushedRoute (mkTunnelRoute p gateway metric) raw] |>
  end.

Definition addWireRoute : pushedOptions → string → Addr → pushedOptions := addRoute "route" parsePushedRoute.
Definition addWireRouteIPv6 : pushedOptions → string → Addr → pushedOptions := addRoute "route-ipv6" parsePushedRouteIPv6.

Definition parseTunnelDNSAddress (value : string) : result AddrPort :=
  match ParseAddr value with
  | Ok address => Ok (mkAddrPort address 0)
  | Err _ =>
      '(address, port) ← ParseAddrPort value;
      if port =? 0 then Err (ErrNew "dns server port must not be zero") else Ok (mkAddrPort address port)
  end.

(** [tunnelDNSServer] returns a pointer to the server with the priority, which
    is appended when there is none; here what is done to it, [update], is an argument. *)
Fixpoint updateServer (servers : list TunnelDNSServer) (priority : Z) (update : TunnelDNSServer → TunnelDNSServer) : list TunnelDNSServer :=
  match servers with
  | [] => [update (mkDNSServer priority [] [] EmptyString EmptyString EmptyString)]
  | server :: servers =>
      if dns_Priority server =? priority then update server :: servers else server :: updateServer servers priority update
  end.

#[export] Instance eta_TunnelDNSServer : Eta TunnelDNSServer := λ r,
  mkDNSServer (dns_Priority r) (dns_Addresses r) (dns_ResolveDomains r) (dns_DNSSEC r) (dns_Transport r) (dns_SNI r).

Definition tunnelDNSServer (o : pushedOptions) (priority : Z) (update : TunnelDNSServer → TunnelDNSServer) : pushedOptions :=
  o <| po_DNSServers := updateServer (po_DNSServers o) priority update |>.

Definition serverOf (o : pushedOptions) (priority : Z) : TunnelDNSServer :=
  default (mkDNSServer priority [] [] EmptyString EmptyString EmptyString)
    (List.find (λ server, dns_Priority server =? priority) (po_DNSServers o)).

Fixpoint addDNSAddresses (o : pushedOptions) (raw : string) (priority : Z) (values : list string) : pushedOptions :=
  match values with
  | [] => o
  | addressValue :: values =>
      if maxTunnelDNSServerAddresses <=? lenZ (dns_Addresses (serverOf o priority))
      then addParseError o "dns" raw (ErrNew ("dns server address maximum exceeded: " +:+ addressValue)) else
      match parseTunnelDNSAddress addressValue with
      | Err parseErr => addDNSAddresses (addParseError o "dns" raw (ErrCause parseErr ("parse dns server address: " +:+ addressValue))) raw priority values
      | Ok address =>
          let o := tunnelDNSServer o priority (λ server, server <| dns_Addresses := dns_Addresses server ++ [address] |>) in
          let modernAddress := mkPushedAddress (ap_Addr address) raw "dns" in
          let o := o <| po_DNS := po_DNS o ++ [modernAddress] |>
                     <| po_modernDNSAddresses := po_modernDNSAddresses o ++ [modernAddress] |> in
          addDNSAddresses o raw priority values
      end
  end.

(** The domains of an option: the valid ones are added, the others reported. *)
Definition addDomains (name raw complaint : string) (add : pushedOptions → string → pushedOptions) (o : pushedOptions) (domains : list string)
    : pushedOptions :=
  foldl (λ o domain, if validateTunnelDNSDomain domain then add o domain
                     else addParseError o name raw (ErrNew (complaint +:+ domain))) o domains.

Definition setDNSServerField (o : pushedOptions) (raw : string) (priority : Z) (option : string) (values : list string) : pushedOptions :=
  let what := ToLower option in
  let fail (message : string) := addParseError o "dns" raw (ErrNew message) in
  if decide (what = "address") then
    match values with [] => fail "dns server address requires address value" | _ => addDNSAddresses o raw priority values end
  else if decide (what = "resolve-domains") then
    match values with
    | [] => fail "dns server resolve-domains requires domain value"
    | _ => addDomains "dns" raw "dns resolve domain contains invalid characters: "
             (λ o domain, tunnelDNSServer o priority (λ server,
                server <| dns_ResolveDomains := appendUniqueStringValues (dns_ResolveDomains server) [domain] |>)) o values
    end
  else if decide (what = "dnssec") then
    match values with
    | [value] =>
        if decide (ToLower value ∈ ["yes"; "optional"; "no"])
        then tunnelDNSServer o priority (λ server, server <| dns_DNSSEC := ToLower value |>)
        else fail ("invalid dnssec mode: " +:+ value)
    | _ => fail "dns server dnssec requires one value"
    end
  else if decide (what = "transport") then
    match values with
    | [value] =>
        if decide (value = "plain") then tunnelDNSServer o priority (λ server, server <| dns_Transport := "plain" |>) else
        if decide (value = "DoT") then tunnelDNSServer o priority (λ server, server <| dns_Transport := "dot" |>) else
        if decide (value = "DoH") then tunnelDNSServer o priority (λ server, server <| dns_Transport := "doh" |>) else
        fail ("invalid dns transport: " +:+ value)
    | _ => fail "dns server transport requires one value"
    end
  else if decide (what = "sni") then
    match values with
    | [value] =>
        if negb (validateTunnelDNSDomain value) then fail ("dns server sni contains invalid characters: " +:+ value)
        else tunnelDNSServer o priority (λ server, server <| dns_SNI := value |>)
    | _ => fail "dns server sni requires one value"
    end
  else fail ("unsupported dns server option: " +:+ option).

Definition addWireDNSOptionV2 (o : pushedOptions) (value : string) : pushedOptions :=
  let raw := TrimSpace value in
  if decide (raw = EmptyString) then o else
  match Fields raw with
  | [] => o
  | first :: rest =>
      if EqualFold first "search-domains" then
        match rest with
        | [] => addParseError o "dns" raw (ErrNew "dns search-domains requires domain value")
        | _ => addDomains "dns" raw "dns search domain contains invalid characters: "
                 (λ o domain,
                    o <| po_SearchDomains := appendUniqueStringValues (po_SearchDomains o) [domain] |>
                      <| po_modernSearchDomains := appendUniqueStringValues (po_modernSearchDomains o) [domain] |>) o rest
        end
      else if negb (EqualFold first "server") then o else
      match rest with
      | priorityText :: option :: values =>
          match Atoi priorityText with
          | Err err => addParseError o "dns" raw (ErrCause err ("parse dns server priority: " +:+ priorityText))
          | Ok priority =>
              if (priority <? 0) || (127 <? priority)
              then addParseError o "dns" raw (ErrNew "pushed dns server priority must be between 0 and 127")
              else setDNSServerField (tunnelDNSServer o priority id) raw priority option values
          end
      | _ => addParseError o "dns" raw (ErrNew ("invalid dns server option: " +:+ raw))
      end
  end.

Definition addWireDHCPOptionDNS (o : pushedOptions) (value : string) : pushedOptions :=
  let raw := TrimSpace value in
  if decide (raw = EmptyString) then o else
  match Fields raw with
  | [] => o
  | first :: rest =>
      let optionName := ToUpper first in
      let fail (message : string) := addParseError o "dhcp-option" raw (ErrNew message) in
      if decide (optionName ∈ ["DOMAIN"; "ADAPTER_DOMAIN_SUFFIX"; "DOMAIN-SEARCH"]) then
        match rest with
        | [] => fail ("dhcp-option " +:+ optionName +:+ " requires domain value")
        | _ => addDomains "dhcp-option" raw ("dhcp-option " +:+ optionName +:+ " contains invalid domain: ")
                 (λ o domain, o <| po_SearchDomains := appendUniqueStringValues (po_SearchDomains o) [domain] |>) o rest
        end
      else if decide (optionName = "DOMAIN-ROUTE") then
        match rest with
        | [] => fail "dhcp-option DOMAIN-ROUTE requires domain value"
        | _ => addDomains "dhcp-option" raw "dhcp-option DOMAIN-ROUTE contains invalid domain: "
                 (λ o domain, o <| po_DNSRoutes := appendUniqueStringValues (po_DNSRoutes o) [domain] |>) o rest
        end
      else if negb (bool_decide (optionName ∈ ["DNS"; "DNS6"])) then o else
      match rest with
      | [] => fail ("dhcp-option " +:+ optionName +:+ " requires address value")
      | _ =>
          foldl (λ o addressValue,
            match ParseAddr addressValue with
            | Err err => addParseError o "dhcp-option" raw
                           (ErrCause err ("parse dhcp-option " +:+ optionName +:+ " address: " +:+ addressValue))
            | Ok address =>
                if bool_decide (optionName = "DNS") && negb (Is4 address)
                then addParseError o "dhcp-option" raw (ErrNew ("dhcp-option DNS expected IPv4 address: " +:+ addressValue)) else
                if bool_decide (optionName = "DNS6") && negb (Is6 address)
                then addParseError o "dhcp-option" raw (ErrNew ("dhcp-option DNS6 expected IPv6 address: " +:+ addressValue)) else
                o <| po_DNS := po_DNS o ++ [mkPushedAddress address raw "dhcp-option"] |>
            end) o rest
      end
  end.

Definition filterOpenVPNNonDNSDHCPOptions (values : list string) : list string :=
  List.filter (λ value,
    match Fields value with
    | [] => true
    | first :: _ => negb (bool_decide (ToUpper first ∈ ["DNS"; "DNS6"; "DOMAIN"; "ADAPTER_DOMAIN_SUFFIX"; "DOMAIN-SEARCH"; "DOMAIN-ROUTE"]))
    end) values.

(** The fields that are copied. *)
Definition copyWire (w : wirePushedOptions) : pushedOptions :=
  no_pushedOptions
    <| po_Topology := w_Topology w |> <| po_TunMTU := w_TunMTU w |> <| po_DHCPOptions := w_DHCPOptions w |>
    <| po_BlockIPv6 := w_BlockIPv6 w |> <| po_BlockOutsideDNS := w_BlockOutsideDNS w |>
    <| po_RedirectGateway := w_RedirectGateway w |> <| po_RedirectGatewayFlags := w_RedirectGatewayFlags w |>
    <| po_RedirectPrivate := w_RedirectPrivate w |> <| po_RouteMetric := w_RouteMetric w |>
    <| po_RouteMetricSet := w_RouteMetricSet w |> <| po_PingInterval := w_PingInterval w |>
    <| po_PingIntervalEnabled := w_PingIntervalEnabled w |> <| po_PingRestart := w_PingRestart w |>
    <| po_PingRestartEnabled := w_PingRestartEnabled w |> <| po_AuthToken := w_AuthToken w |>
    <| po_AuthTokenUser := w_AuthTokenUser w |> <| po_PeerID := w_PeerID w |> <| po_SelectedCipher := w_SelectedCipher w |>
    <| po_SelectedAuth := w_SelectedAuth w |> <| po_ProtocolFlags := w_ProtocolFlags w |>
    <| po_KeyDerivation := w_KeyDerivation w |> <| po_ExplicitExitNotify := w_ExplicitExitNotify w |>
    <| po_ExplicitExitNotifySet := w_ExplicitExitNotifySet w |> <| po_CompressionDirectives := w_CompressionDirectives w |>
    <| po_InactiveTimeout := w_InactiveTimeout w |> <| po_InactiveMinimumBytes := w_InactiveMinimumBytes w |>
    <| po_InactiveTimeoutSet := w_InactiveTimeoutSet w |> <| po_SessionTimeout := w_SessionTimeout w |>
    <| po_SessionTimeoutSet := w_SessionTimeoutSet w |> <| po_PingExit := w_PingExit w |>
    <| po_PingExitSet := w_PingExitSet w |> <| po_PingTimerRemote := w_PingTimerRemote w |>.

(** The latest of [ping-restart] and [ping-exit] wins. *)
Definition resolvePingTimeout (action : pushedPingTimeoutAction) (o : pushedOptions) : pushedOptions :=
  match action with
  | pushedPingTimeoutNone => o
  | pushedPingTimeoutRestart => o <| po_PingExit := 0 |> <| po_PingExitSet := false |>
  | pushedPingTimeoutExit => o <| po_PingRestart := 0 |> <| po_PingRestartEnabled := false |>
  end.

(** Servers that were given no address are dropped and reported. *)
Fixpoint dropServersWithoutAddress (o : pushedOptions) (servers : list TunnelDNSServer) : pushedOptions * list TunnelDNSServer :=
  match servers with
  | [] => (o, [])
  | server :: servers =>
      if hasAny (dns_Addresses server) then
        let '(o, kept) := dropServersWithoutAddress o servers in (o, server :: kept)
      else
        dropServersWithoutAddress
          (addParseError o "dns" ("server " +:+ Itoa (dns_Priority server)) (ErrNew "dns server has no address assigned")) servers
  end.

Definition pushedOptionsFromWire (w : wirePushedOptions) (remoteHost : Addr) : pushedOptions :=
  let o := resolvePingTimeout (w_PingTimeoutAction w) (copyWire w) in
  let o := if nonEmpty (w_Ifconfig w) then addWireIfconfig o (w_Ifconfig w) (w_Topology w) else o in
  let o := if nonEmpty (w_IfconfigIPv6 w) then addWireIfconfigIPv6 o (w_IfconfigIPv6 w) else o in
  let o := setWireRouteGateway o (w_RouteGateway w) in
  let o := foldl (λ o value, addWireRoute o value remoteHost) o (w_Route w) in
  let o := foldl (λ o value, addWireRouteIPv6 o value remoteHost) o (w_RouteIPv6 w) in
  let o := foldl addWireDNSOptionV2 o (w_DNS w) in
  let '(o, servers) := dropServersWithoutAddress o (po_DNSServers o) in
  let o := o <| po_DNSServers := servers |> <| po_modernDNS := hasAny servers |> in
  let o := foldl (λ o value, if po_modernDNS o then o else addWireDHCPOptionDNS o value) o (w_DHCPOptions w) in
  if po_modernDNS o then o <| po_DHCPOptions := filterOpenVPNNonDNSDHCPOptions (po_DHCPOptions o) |> else o.

(** ** Messages *)

Definition normalizeControlPayload (payload : bytes) : string := TrimSpace (TrimChar (stringOf payload) NUL).

(** The command and the option lines. *)
Definition splitPushReplyPayloadLines (payload : bytes) : option (string * list string) :=
  let payloadValue := normalizeControlPayload payload in
  if decide (payloadValue = EmptyString) then None else
  match Split ","%char payloadValue with
  | first :: payloadLines =>
      let commandName := TrimSpace first in
      if negb (EqualFold commandName pushReplyPayloadPrefix) && negb (EqualFold commandName pushUpdatePayloadPrefix) then None
      else Some (commandName, payloadLines)
  | [] => None
  end.

Definition parseContinuation (value : string) (continuation : Z) : Z :=
  match Atoi value with
  | Ok continuationValue => if (0 <=? continuationValue) && (continuationValue <=? 2) then continuationValue else continuation
  | Err _ => continuation
  end.

Fixpoint appendLines (accumulatedLines payloadLines : list string) (continuation : Z) : list string * Z :=
  match payloadLines with
  | [] => (accumulatedLines, continuation)
  | optionLine :: payloadLines =>
      let continuation :=
        match parsePushedOptionLine optionLine with
        | Some (name :: value :: _) => if EqualFold name "push-continuation" then parseContinuation value continuation else continuation
        | _ => continuation
        end in
      appendLines (accumulatedLines ++ [optionLine]) payloadLines continuation
  end.

(** [None]: the payload is not a push message. *)
Definition appendPushReplyPayloadSegment (accumulatedLines : list string) (payload : bytes) : option (list string * Z) :=
  '(commandName, payloadLines) ← splitPushReplyPayloadLines payload;
  let accumulatedLines := if hasAny accumulatedLines then accumulatedLines else [commandName] in
  Some (appendLines accumulatedLines payloadLines 0).

(** One option of the big switch: its lower-case name and its value. *)
Definition decodeOption (w : wirePushedOptions) (name value : string) : wirePushedOptions :=
  let given := nonEmpty value in
  if decide (name = "topology") then (if given then w <| w_Topology := value |> else w) else
  if decide (name = "tun-mtu") then
    (if 0 <? parsePushedPositiveInteger value then w <| w_TunMTU := parsePushedPositiveInteger value |> else w) else
  if decide (name = "ifconfig") then (if given then w <| w_Ifconfig := value |> else w) else
  if decide (name = "ifconfig-ipv6") then (if given then w <| w_IfconfigIPv6 := value |> else w) else
  if decide (name = "route") then (if given then w <| w_Route := w_Route w ++ [value] |> else w) else
  if decide (name = "route-gateway") then (if given then w <| w_RouteGateway := value |> else w) else
  if decide (name = "route-ipv6") then (if given then w <| w_RouteIPv6 := w_RouteIPv6 w ++ [value] |> else w) else
  if decide (name = "dns") then (if given then w <| w_DNS := w_DNS w ++ [value] |> else w) else
  if decide (name = "dhcp-option") then (if given then w <| w_DHCPOptions := w_DHCPOptions w ++ [value] |> else w) else
  if decide (name = "block-ipv6") then w <| w_BlockIPv6 := true |> else
  if decide (name = "block-outside-dns") then w <| w_BlockOutsideDNS := true |> else
  if decide (name = "redirect-gateway") then
    let w := w <| w_RedirectGateway := true |> in (if given then w <| w_RedirectGatewayFlags := Fields value |> else w) else
  if decide (name = "redirect-private") then
    let w := w <| w_RedirectPrivate := true |> in (if given then w <| w_RedirectGatewayFlags := Fields value |> else w) else
  if decide (name = "route-metric") then
    (if given then w <| w_RouteMetric := parsePushedPositiveInteger value |> <| w_RouteMetricSet := true |> else w) else
  if decide (name = "ping") then
    (if given then w <| w_PingInterval := parsePushedSecondCount value |> <| w_PingIntervalEnabled := true |> else w) else
  if decide (name = "ping-restart") then
    (if given then w <| w_PingRestart := parsePushedSecondCount value |> <| w_PingRestartEnabled := true |>
                     <| w_PingTimeoutAction := pushedPingTimeoutRestart |> else w) else
  if decide (name = "auth-token") then w <| w_AuthToken := value |> else
  if decide (name = "auth-token-user") then w <| w_AuthTokenUser := value |> else
  if decide (name = "peer-id") then
    match ParseUint (TrimSpace value) 32 with
    | Ok peerIDValue => if peerIDValue <=? peerIDMaxValue then w <| w_PeerID := Some peerIDValue |> else w
    | Err _ => w
    end else
  if decide (name = "cipher") then (if given then w <| w_SelectedCipher := value |> else w) else
  if decide (name = "auth") then (if given then w <| w_SelectedAuth := value |> else w) else
  if decide (name = "protocol-flags") then (if given then w <| w_ProtocolFlags := Fields value |> else w) else
  if decide (name = "key-derivation") then (if given then w <| w_KeyDerivation := ToLower (TrimSpace value) |> else w) else
  if decide (name = "explicit-exit-notify") then
    w <| w_ExplicitExitNotify := if given then parsePushedPositiveInteger value else 1 |> <| w_ExplicitExitNotifySet := true |> else
  if decide (name = "compress" ∨ name = "comp-lzo") then
    w <| w_CompressionDirectives := w_CompressionDirectives w ++ [mkDirective name (TrimSpace value)] |> else
  if decide (name = "inactive") then
    match Fields value with
    | [] => w
    | timeout :: rest =>
        let w := w <| w_InactiveTimeout := parsePushedSecondCount timeout |> <| w_InactiveTimeoutSet := true |> in
        match rest with
        | minimumText :: _ =>
            match Atoi minimumText with
            | Ok minimumBytes => if 0 <? minimumBytes then w <| w_InactiveMinimumBytes := minimumBytes |> else w
            | Err _ => w
            end
        | [] => w
        end
    end else
  if decide (name = "session-timeout") then
    (if given then w <| w_SessionTimeout := parsePushedSecondCount value |> <| w_SessionTimeoutSet := true |> else w) else
  if decide (name = "ping-exit") then
    (if given then w <| w_PingExit := parsePushedSecondCount value |> <| w_PingExitSet := true |>
                     <| w_PingTimeoutAction := pushedPingTimeoutExit |> else w) else
  if decide (name = "ping-timer-rem") then w <| w_PingTimerRemote := true |> else w.

(** The loop over the option lines: the options read, the last continuation and
    the line a filter rejected. *)
Fixpoint decodeLines (filters : list PullFilter) (optionLines : list string) (w : wirePushedOptions) (continuation : Z)
    : wirePushedOptions * Z * string :=
  match optionLines with
  | [] => (w, continuation, EmptyString)
  | payloadLine :: optionLines =>
      let optionLine := TrimLeftFunc isSpace payloadLine in
      let '(allowed, rejected) := applyPullFilters filters optionLine in
      if rejected : bool then (w, continuation, optionLine) else
      if negb allowed then decodeLines filters optionLines w continuation else
      match parsePushedOptionLine payloadLine with
      | None | Some [] => decodeLines filters optionLines w continuation
      | Some (optionName :: parameters) =>
          let optionValue := Join " " parameters in
          let name := ToLower optionName in
          decodeLines filters optionLines (decodeOption w name optionValue)
            (if decide (name = "push-continuation") then parseContinuation optionValue continuation else continuation)
      end
  end.

Definition decodePushReplyOptionLines (commandName : string) (optionLines : list string) (remoteHost : Addr)
    (filters : list PullFilter) : pushedOptions * Z :=
  let kind := if EqualFold commandName pushUpdatePayloadPrefix then pushOptionsKindUpdate else pushOptionsKindReply in
  let '(w, continuation, rejection) := decodeLines filters optionLines no_wirePushedOptions 0 in
  ((pushedOptionsFromWire w remoteHost) <| po_kind := kind |> <| po_pullFilterRejection := rejection |>, continuation).

Definition decodePushReplyPayloadWithFilters (payload : bytes) (remoteHost : Addr) (filters : list PullFilter)
    : option (pushedOptions * Z) :=
  '(commandName, payloadLines) ← splitPushReplyPayloadLines payload;
  Some (decodePushReplyOptionLines commandName payloadLines remoteHost filters).

(** What [pullConfigurationAndCipher] does with the control records of a push
    reply: the lines are accumulated until a record does not ask for another. *)
Fixpoint receivePushReply (accumulatedLines : list string) (remoteHost : Addr) (filters : list PullFilter) (controlRecords : list bytes)
    : option pushedOptions :=
  match controlRecords with
  | [] => None
  | controlRecord :: controlRecords =>
      match appendPushReplyPayloadSegment accumulatedLines controlRecord with
      | None => receivePushReply accumulatedLines remoteHost filters controlRecords
      | Some (lines, continuation) =>
          if continuation =? 2 then receivePushReply lines remoteHost filters controlRecords else
          match lines with
          | commandName :: optionLines => Some (decodePushReplyOptionLines commandName optionLines remoteHost filters).1
          | [] => None
          end
      end
  end.

(** ** Writing them ([push_options.go], [server_negotiation.go]) *)

(** [formatIfconfigPrefix] and [formatIPv4RoutePrefix]: the address and the mask. *)
Definition formatAddressMask (p : prefix) : string :=
  if negb (prefix_IsValid p) || negb (Is4 (prefix_Addr p)) then EmptyString else
  Addr_String (prefix_Addr p) +:+ " " +:+ dotted (ipv4Mask (prefix_Bits p)).

Definition formatIfconfigPrefix (p : prefix) : string := formatAddressMask p.
Definition formatIPv4RoutePrefix (p : prefix) : string := formatAddressMask (prefix_Masked p).

Definition formatPushedIfconfig (value : pushedLocalAddress) (topology : string) : string :=
  let p := pla_Prefix value in
  if negb (prefix_IsValid p) || negb (Is4 (prefix_Addr p)) then EmptyString else
  if Is4 (pla_Peer value) && negb (bool_decide (normalizeTopology topology = ipv4TopologySubnet))
  then Addr_String (prefix_Addr p) +:+ " " +:+ Addr_String (pla_Peer value) else
  if decide (normalizeTopology topology = ipv4TopologyP2P ∨ normalizeTopology topology = ipv4TopologyNet30) then EmptyString else
  formatIfconfigPrefix p.

Definition formatPushedIfconfigIPv6 (value : pushedLocalAddress) : string :=
  let p := pla_Prefix value in
  if negb (prefix_IsValid p) || negb (Is6 (prefix_Addr p)) then EmptyString else
  if Is6 (pla_Peer value) then prefix_String p +:+ " " +:+ Addr_String (pla_Peer value) else EmptyString.

Definition formatPushedRouteGateway (o : pushedOptions) : string :=
  if nonEmpty (po_RouteGatewayRaw o) then po_RouteGatewayRaw o else
  if po_RouteGatewayVPN o then "vpn_gateway" else
  if Addr_IsValid (po_RouteGateway o) then Addr_String (po_RouteGateway o) else EmptyString.

Definition formatPushedRoute (route : pushedRoute) : string :=
  if nonEmpty (pr_Raw route) then pr_Raw route else
  let tunnelRoute := pr_Route route in
  let p := prefix_Masked (tr_Prefix tunnelRoute) in
  if negb (prefix_IsValid p) then EmptyString else
  (if Is4 (prefix_Addr p) then formatIPv4RoutePrefix p else prefix_String p) +:+
  (if Addr_IsValid (tr_Gateway tunnelRoute) then
     " " +:+ Addr_String (tr_Gateway tunnelRoute) +:+
     (if tr_Metric tunnelRoute =? 0 then EmptyString else " " +:+ Itoa (tr_Metric tunnelRoute))
   else EmptyString).

Definition hasPushedLocalAddressFamily (values : list pushedLocalAddress) (ipv4 : bool) : bool :=
  existsb (λ value, prefix_IsValid (pla_Prefix value) && eqb (Is4 (prefix_Addr (pla_Prefix value))) ipv4) values.

Definition applyPushedIPv6LocalAddressPeer (values : list pushedLocalAddress) (peer : Addr) : list pushedLocalAddress :=
  if negb (Is6 peer) then values else
  (λ value, if prefix_IsValid (pla_Prefix value) && Is6 (prefix_Addr (pla_Prefix value)) && negb (Is6 (pla_Peer value))
            then mkLocalAddress (pla_Prefix value) peer (pla_Raw value) else value) <$> values.

Definition replacePushedLocalAddressByFamily (values : list pushedLocalAddress) (replacement : pushedLocalAddress) : list pushedLocalAddress :=
  if negb (prefix_IsValid (pla_Prefix replacement)) then values else
  let ipv4 := Is4 (prefix_Addr (pla_Prefix replacement)) in
  List.filter (λ value, negb (prefix_IsValid (pla_Prefix value) && eqb (Is4 (prefix_Addr (pla_Prefix value))) ipv4)) values ++ [replacement].

Definition pushedRoutesFromPrefixes (values : list prefix) : list pushedRoute :=
  (λ value, mkPushedRoute (mkTunnelRoute (prefix_Masked value) AddrInvalid 0) EmptyString) <$> List.filter prefix_IsValid values.

Definition pushedAddressesFromAddresses (values : list Addr) : list pushedAddress :=
  (λ value, mkPushedAddress value EmptyString EmptyString) <$> List.filter Addr_IsValid values.

(** A prefix as the pools see it: an invalid one is none. *)
Definition validPrefix (p : prefix) : option prefix := if prefix_IsValid p then Some p else None.

Definition buildPushedOptions (options : ServerOptions) : pushedOptions :=
  let pools := stn_AddressPools (so_Tunnel options) in
  let push := so_Push options in
  let localAddress : list pushedLocalAddress := [] in
  let addFamily (ipv4 : bool) (localAddress : list pushedLocalAddress) :=
    if hasPushedLocalAddressFamily localAddress ipv4 then localAddress else
    match firstPrefixByFamily (validPrefix <$> pools) ipv4 with
    | Some p => localAddress ++ [mkLocalAddress p AddrInvalid EmptyString]
    | None => localAddress
    end in
  let localAddress := addFamily false (addFamily true localAddress) in
  let localAddress :=
    match firstPrefixByFamily (validPrefix <$> stn_LocalAddress (so_Tunnel options)) false with
    | Some p => applyPushedIPv6LocalAddressPeer localAddress (prefix_Addr p)
    | None => localAddress
    end in
  no_pushedOptions
    <| po_TunMTU := sdo_MTU (so_DataChannel options) |> <| po_LocalAddress := localAddress |>
    <| po_Routes := pushedRoutesFromPrefixes (spo_Routes push) |> <| po_DNS := pushedAddressesFromAddresses (spo_DNS push) |>
    <| po_DNSServers := spo_DNSServers push |> <| po_DHCPOptions := spo_DHCPOptions push |>
    <| po_SearchDomains := spo_SearchDomains push |> <| po_modernDNS := hasAny (spo_DNSServers push) |>
    <| po_BlockOutsideDNS := spo_BlockOutsideDNS push |> <| po_RedirectGateway := spo_RedirectGateway push |>
    <| po_RedirectGatewayFlags := spo_RedirectGatewayFlags push |> <| po_PingInterval := spo_PingInterval push |>
    <| po_PingIntervalEnabled := spo_PingIntervalEnabled push || (0 <? spo_PingInterval push) |>
    <| po_PingRestart := spo_PingRestart push |>
    <| po_PingRestartEnabled := spo_PingRestartEnabled push || (0 <? spo_PingRestart push) |>.

(** The lines of one DNS server. *)
Definition dnsServerFields (server : TunnelDNSServer) : list string :=
  let name := "dns server " +:+ Itoa (dns_Priority server) in
  (if hasAny (dns_Addresses server) then
     [name +:+ " address " +:+ Join " " ((λ address, if ap_Port address =? 0 then Addr_String (ap_Addr address)
                                                    else AddrPort_String (ap_Addr address) (ap_Port address)) <$> dns_Addresses server)]
   else []) ++
  (if hasAny (dns_ResolveDomains server) then [name +:+ " resolve-domains " +:+ Join " " (dns_ResolveDomains server)] else []) ++
  (if nonEmpty (dns_DNSSEC server) then [name +:+ " dnssec " +:+ dns_DNSSEC server] else []) ++
  (if nonEmpty (dns_Transport server) then
     [name +:+ " transport " +:+ (if decide (dns_Transport server = "doh") then "DoH" else
                                  if decide (dns_Transport server = "dot") then "DoT" else dns_Transport server)]
   else []) ++
  (if nonEmpty (dns_SNI server) then [name +:+ " sni " +:+ dns_SNI server] else []).

(** [slices.SortFunc] by priority; validation makes the priorities distinct, so
    that the order does not depend on the algorithm. *)
Fixpoint insertServer (server : TunnelDNSServer) (sorted : list TunnelDNSServer) : list TunnelDNSServer :=
  match sorted with
  | [] => [server]
  | first :: rest => if dns_Priority server <? dns_Priority first then server :: sorted else first :: insertServer server rest
  end.

Definition sortServers (servers : list TunnelDNSServer) : list TunnelDNSServer :=
  foldl (λ sorted server, insertServer server sorted) [] servers.

Definition trimmedField (name value : string) : list string :=
  if nonEmpty (TrimSpace value) then [name +:+ " " +:+ TrimSpace value] else [].

Definition seconds (d : Z) : string := Itoa (Z.quot d Second).

Definition localAddressFields (o : pushedOptions) (localAddress : pushedLocalAddress) : list string :=
  if Is4 (prefix_Addr (pla_Prefix localAddress)) then trimmedField "ifconfig" (formatPushedIfconfig localAddress (po_Topology o)) else
  if Is6 (prefix_Addr (pla_Prefix localAddress)) then trimmedField "ifconfig-ipv6" (formatPushedIfconfigIPv6 localAddress) else [].

Definition routeFields (route : pushedRoute) : list string :=
  if Is4 (prefix_Addr (tr_Prefix (pr_Route route))) then trimmedField "route" (formatPushedRoute route) else
  if Is6 (prefix_Addr (tr_Prefix (pr_Route route))) then trimmedField "route-ipv6" (formatPushedRoute route) else [].

Definition dnsAddressFields (value : pushedAddress) : list string :=
  match pa_Address value with
  | AddrInvalid => []
  | Addr4 _ => ["dhcp-option DNS " +:+ Addr_String (pa_Address value)]
  | Addr6 _ => ["dhcp-option DNS6 " +:+ Addr_String (pa_Address value)]
  end.

Definition directiveField (directive : compressionDirective) : string :=
  if nonEmpty (TrimSpace (cd_Value directive)) then cd_Name directive +:+ " " +:+ TrimSpace (cd_Value directive) else cd_Name directive.

Definition buildPushReplyOptionFields (o : pushedOptions) : list string :=
  [pushReplyPayloadPrefix] ++
  trimmedField "topology" (po_Topology o) ++
  (if 0 <? po_TunMTU o then ["tun-mtu " +:+ FormatUint (po_TunMTU o)] else []) ++
  flat_map (localAddressFields o) (po_LocalAddress o) ++
  (if nonEmpty (formatPushedRouteGateway o) then ["route-gateway " +:+ formatPushedRouteGateway o] else []) ++
  flat_map routeFields (po_Routes o) ++
  flat_map dnsAddressFields (po_DNS o) ++
  (if hasAny (po_SearchDomains o) then ["dns search-domains " +:+ Join " " (po_SearchDomains o)] else []) ++
  flat_map dnsServerFields (sortServers (po_DNSServers o)) ++
  flat_map (trimmedField "dhcp-option") (po_DHCPOptions o) ++
  (if po_BlockIPv6 o then ["block-ipv6"] else []) ++
  (if po_BlockOutsideDNS o then ["block-outside-dns"] else []) ++
  (if po_RedirectGateway o then
     let redirectGatewayValue := TrimSpace (Join " " (po_RedirectGatewayFlags o)) in
     [if nonEmpty redirectGatewayValue then "redirect-gateway " +:+ redirectGatewayValue else "redirect-gateway"]
   else []) ++
  (if po_RedirectPrivate o then ["redirect-private"] else []) ++
  (if po_RouteMetric o =? 0 then [] else ["route-metric " +:+ Itoa (po_RouteMetric o)]) ++
  (if po_PingIntervalEnabled o then ["ping " +:+ seconds (po_PingInterval o)] else []) ++
  (if po_PingRestartEnabled o then ["ping-restart " +:+ seconds (po_PingRestart o)] else []) ++
  trimmedField "auth-token" (po_AuthToken o) ++
  trimmedField "auth-token-user" (po_AuthTokenUser o) ++
  (match po_PeerID o with Some peerID => ["peer-id " +:+ FormatUint peerID] | None => [] end) ++
  trimmedField "cipher" (po_SelectedCipher o) ++
  trimmedField "auth" (po_SelectedAuth o) ++
  (if hasAny (po_ProtocolFlags o) then ["protocol-flags " +:+ Join " " (po_ProtocolFlags o)] else []) ++
  trimmedField "key-derivation" (po_KeyDerivation o) ++
  (if 0 <? po_ExplicitExitNotify o then ["explicit-exit-notify " +:+ FormatUint (po_ExplicitExitNotify o)] else []) ++
  (directiveField <$> po_CompressionDirectives o) ++
  (if 0 <? po_InactiveTimeout o then
     ["inactive " +:+ seconds (po_InactiveTimeout o) +:+
      (if 0 <? po_InactiveMinimumBytes o then " " +:+ FormatUint (po_InactiveMinimumBytes o) else EmptyString)] else []) ++
  (if 0 <? po_SessionTimeout o then ["session-timeout " +:+ seconds (po_SessionTimeout o)] else []) ++
  (if 0 <? po_PingExit o then ["ping-exit " +:+ seconds (po_PingExit o)] else []) ++
  (if po_PingTimerRemote o then ["ping-timer-rem"] else []).

Definition serverPushBundleSize : Z := 1024.
Definition serverPushBundleOverhead : Z := 84.
Definition serverPushSafeCapacity : Z := serverPushBundleSize - serverPushBundleOverhead.

Definition slen (s : string) : Z := Z.of_nat (String.length s).

(** The loop over the fields: the payloads so far, the one being filled. *)
Fixpoint splitFieldsLoop (fields : list string) (current : string) (multiPush : bool) (payloads : list bytes) : result (list bytes) :=
  match fields with
  | [] => Ok (payloads ++ [bytesOf (if multiPush then current +:+ ",push-continuation 1" else current)])
  | field :: fields =>
      let addition := "," +:+ field in
      let tooLong := ErrNew ("push option is too long: " +:+ field) in
      '(current, multiPush, payloads) ←
        (if serverPushSafeCapacity <=? slen current + slen addition then
           if decide (current = pushReplyPayloadPrefix) then Err tooLong
           else Ok (pushReplyPayloadPrefix, true, payloads ++ [bytesOf (current +:+ ",push-continuation 2")])
         else Ok (current, multiPush, payloads));
      if serverPushSafeCapacity <=? slen current + slen addition then Err tooLong else
      splitFieldsLoop fields (current +:+ addition) multiPush payloads
  end.

Definition splitServerPushReplyFields (fields : list string) : result (list bytes) :=
  match fields with
  | first :: fields =>
      if decide (first = pushReplyPayloadPrefix) then splitFieldsLoop fields pushReplyPayloadPrefix false []
      else Err (ErrNew "invalid OpenVPN push reply fields")
  | [] => Err (ErrNew "invalid OpenVPN push reply fields")
  end.

Definition appendUniquePushedRoutes (routes : list pushedRoute) (route : TunnelRoute) : list pushedRoute :=
  if existsb (λ existingRoute, bool_decide (pr_Route existingRoute = route)) routes then routes
  else routes ++ [mkPushedRoute route EmptyString].

Record serverPushAssignment := mkAssignment {
  sa_IPv4Topology : string;
  sa_ServerIPv4 : Addr;
  sa_LocalAddressIPv4 : pushedLocalAddress;
  sa_LocalAddressIPv6 : pushedLocalAddress;
  sa_PeerID : option Z;
}.

(** The options pushed to a peer with its own addresses. *)
Definition assignPushedOptions (options : ServerOptions) (peerInfo : string) (assignment : serverPushAssignment) : pushedOptions :=
  let o := buildPushedOptions options in
  let o := if isSome (peerInfoMTU peerInfo) then o else o <| po_TunMTU := 0 |> in
  let replace (replacement : pushedLocalAddress) (o : pushedOptions) :=
    if prefix_IsValid (pla_Prefix replacement)
    then o <| po_LocalAddress := replacePushedLocalAddressByFamily (po_LocalAddress o) replacement |> else o in
  let o := replace (sa_LocalAddressIPv6 assignment) (replace (sa_LocalAddressIPv4 assignment) o) in
  if negb (nonEmpty (sa_IPv4Topology assignment)) then o else
  let o := o <| po_Topology := sa_IPv4Topology assignment |> in
  if decide (sa_IPv4Topology assignment = ipv4TopologySubnet) then
    if negb (Addr_IsValid (po_RouteGateway o)) && negb (po_RouteGatewayVPN o) && negb (nonEmpty (po_RouteGatewayRaw o))
    then o <| po_RouteGateway := sa_ServerIPv4 assignment |> else o
  else if decide (sa_IPv4Topology assignment = ipv4TopologyNet30) then
    o <| po_Routes := appendUniquePushedRoutes (po_Routes o) (mkTunnelRoute (mkPrefix (sa_ServerIPv4 assignment) 32) AddrInvalid 0) |>
  else o.

(** The fields that depend on what the peer supports. *)
Definition negotiatedFields (peerInfo selectedCipher : string) (assignment : serverPushAssignment) : list string :=
  (if nonEmpty selectedCipher && (isSome (parsePeerInfoCipherList peerInfo) || (2 <=? peerInfoNCPVersion peerInfo))
   then ["cipher " +:+ selectedCipher] else []) ++
  (match sa_PeerID assignment with
   | Some peerID => if peerSupportsIVProtoFlag peerInfo tlsIVProtoDataV2 then ["peer-id " +:+ FormatUint peerID] else []
   | None => []
   end) ++
  (let supportsTLSKeyExport := peerSupportsIVProtoFlag peerInfo tlsIVProtoTLSKeyExport in
   if peerSupportsIVProtoFlag peerInfo tlsIVProtoCCExitNotify
   then ["protocol-flags " +:+ Join " " (["cc-exit"] ++ (if supportsTLSKeyExport then ["tls-ekm"] else []))]
   else if supportsTLSKeyExport then ["key-derivation tls-ekm"] else []).

Definition buildServerPushReplyPayloads (options : ServerOptions) (peerInfo selectedCipher : string) (assignment : serverPushAssignment)
    : result (list bytes) :=
  splitServerPushReplyFields
    (buildPushReplyOptionFields (assignPushedOptions options peerInfo assignment) ++ negotiatedFields peerInfo selectedCipher assignment).

(** [tlsControlStringPayload]: a control channel string ends with a zero. *)
Definition tlsControlStringPayload (payload : bytes) : bytes :=
  match last payload with
  | None => [x00]
  | Some b => if decide (b = x00) then payload else payload ++ [x00]
  end.
