(* ===== verification/PushLaws.v ===== *)
(** * What is pushed is what is pulled

    The client that reads the messages of a push reply gets the options the
    server wrote. *)

From Stdlib Require Import Strings.Ascii.
From S2P Require Import Prelude GoStrings Crypto Codec CodecLaws Compression KeyMethod Netip NetipText IPPool Options Negotiation PushOptions.

(** ** Lines of plain words *)

Definition plainChar (c : ascii) : bool :=
  negb (isPushedOptionLineSpace c || bool_decide (c = backslashChar) || bool_decide (c = doubleQuote) ||
        bool_decide (c = singleQuote) || bool_decide (c = ","%char) || bool_decide (c = ";"%char) || bool_decide (c = "#"%char)).

Definition plainWord (w : string) : bool := nonEmpty w && allCharacters plainChar w.

Lemma plainChar_inv c :
  plainChar c = true →
  isPushedOptionLineSpace c = false ∧ c ≠ backslashChar ∧ c ≠ doubleQuote ∧ c ≠ singleQuote ∧ c ≠ ","%char ∧ c ≠ ";"%char ∧ c ≠ "#"%char ∧ c ≠ NUL.
Proof.
  unfold plainChar. intros H%negb_true_iff. do 6 (apply orb_false_iff in H as [H ?]).
  split_and!; try (by eapply bool_decide_eq_false_1); try done.
  unfold isPushedOptionLineSpace in H. apply orb_false_iff in H as [H _]. by apply bool_decide_eq_false in H.
Qed.

(** One plain character in front of a line. *)
Lemma lineLoop_plain c line parameters parameter state :
  plainChar c = true → state = lineInitial ∨ state = lineUnquoted →
  lineLoop (String c line) parameters parameter state false =
    lineLoop line parameters (parameter +:+ String c EmptyString) lineUnquoted false.
Proof.
  intros Hc Hs. destruct (plainChar_inv c Hc) as (H1 & H2 & H3 & H4 & _ & H6 & H7 & H8).
  cbn [lineLoop]. rewrite (bool_decide_eq_false_2 (c = backslashChar)) by done. cbn [negb andb].
  assert (stepLine state false c = lineNext lineUnquoted (Some c)) as ->.
  { destruct Hs as [-> | ->]; cbn [stepLine]; rewrite H1; cbn [negb andb]; [| done].
    by rewrite !bool_decide_eq_false_2 by done. }
  cbn [store]. by rewrite decide_False.
Qed.

Lemma lineLoop_plains w line parameters parameter state :
  allCharacters plainChar w = true → w ≠ EmptyString → state = lineInitial ∨ state = lineUnquoted →
  lineLoop (w +:+ line) parameters parameter state false = lineLoop line parameters (parameter +:+ w) lineUnquoted false.
Proof.
  revert parameter state. induction w as [| c w IH]; intros parameter state Hw Hne Hs; [done |].
  cbn [allCharacters] in Hw. apply andb_prop in Hw as [Hc Hw]. rewrite append_cons, lineLoop_plain by done.
  destruct w as [| d w]; [done |]. rewrite IH by (try done; by right).
  f_equal. by rewrite string_app_assoc.
Qed.

(** The end of a word: white space, or the end of the line. *)
Lemma lineLoop_space line parameters parameter :
  lineLoop (String " " line) parameters parameter lineUnquoted false =
    if decide (16 ≤ length (parameters ++ [parameter]))%nat then Some (parameters ++ [parameter])
    else lineLoop line (parameters ++ [parameter]) EmptyString lineInitial false.
Proof.
  cbn [lineLoop]. change (stepLine lineUnquoted false " ") with lineDone. cbn [negb andb].
  change (bool_decide (" "%char = backslashChar)) with false. cbn [andb]. unfold pushedOptionLineMaxParameters.
  destruct (decide _); [| done]. unfold finishLine. rewrite decide_True by done. by destruct parameters.
Qed.

Lemma lineLoop_end parameters parameter :
  lineLoop EmptyString parameters parameter lineUnquoted false = Some (parameters ++ [parameter]).
Proof.
  cbn [lineLoop]. change (stepLine lineUnquoted false NUL) with lineDone. change (bool_decide (NUL = backslashChar)) with false. cbn [negb andb].
  assert (Hf : finishLine lineInitial (parameters ++ [parameter]) = Some (parameters ++ [parameter])).
  { unfold finishLine. rewrite decide_True by done. by destruct parameters. }
  by destruct (decide (pushedOptionLineMaxParameters ≤ _)%nat).
Qed.

Lemma lineLoop_words words parameters :
  Forall (λ w, plainWord w = true) words → words ≠ [] → (length parameters < 16)%nat →
  lineLoop (Join " " words) parameters EmptyString lineInitial false = Some (take 16 (parameters ++ words)).
Proof.
  intros Hw. revert parameters. induction Hw as [| w words Hw Hwords IH]; intros parameters Hne Hp; [done |].
  unfold plainWord in Hw. apply andb_prop in Hw as [Hn Hw].
  assert (w ≠ EmptyString) by (intros ->; by vm_compute in Hn). destruct words as [| v words].
  - cbn [Join]. rewrite <- (string_app_nil w) at 1. rewrite lineLoop_plains by (try done; by left).
    rewrite append_nil, lineLoop_end. by rewrite take_ge by (rewrite length_app; cbn; lia).
  - change (Join " " (w :: v :: words)) with (w +:+ String " " (Join " " (v :: words))).
    rewrite lineLoop_plains by (try done; by left). rewrite append_nil, lineLoop_space.
    replace (parameters ++ w :: v :: words) with ((parameters ++ [w]) ++ v :: words) by (by rewrite <- app_assoc).
    destruct (decide _) as [H16 | H16].
    + rewrite take_app_le by lia. rewrite take_ge; [done |]. rewrite length_app in *. cbn in *. lia.
    + apply IH; [done |]. lia.
Qed.

(** A line of plain words is read as its first sixteen words. *)
Lemma parsePushedOptionLine_words words :
  Forall (λ w, plainWord w = true) words → words ≠ [] → parsePushedOptionLine (Join " " words) = Some (take 16 words).
Proof. intros. unfold parsePushedOptionLine. rewrite lineLoop_words by (try done; cbn; lia). done. Qed.

(** ** Messages *)

Definition pushMessage (lines : list string) : string := Join "," (pushReplyPayloadPrefix :: lines).

Definition isContinuation (line : string) : bool :=
  match parsePushedOptionLine line with
  | Some (name :: _ :: _) => EqualFold name "push-continuation"
  | _ => false
  end.

(** A line that survives the message: no comma, no zero, no white space at its end. *)
Record messageLine (line : string) : Prop := mkMessageLine {
  ml_nonempty : line ≠ EmptyString;
  ml_comma : containsChar ","%char line = false;
  ml_zero : containsChar NUL line = false;
  ml_trimmed : TrimRightFunc isSpace line = line;
}.

Lemma Join_snoc sep l x : l ≠ [] → Join sep (l ++ [x]) = Join sep l +:+ sep +:+ x.
Proof.
  induction l as [| y l IH]; intros Hne; [done |]. destruct l as [| z l]; [done |].
  change (Join sep ((y :: z :: l) ++ [x])) with (y +:+ sep +:+ Join sep ((z :: l) ++ [x])). rewrite IH by done.
  change (Join sep (y :: z :: l)) with (y +:+ sep +:+ Join sep (z :: l)). by rewrite !string_app_assoc.
Qed.

Lemma pushMessage_snoc lines line : pushMessage (lines ++ [line]) = pushMessage lines +:+ "," +:+ line.
Proof. unfold pushMessage. by rewrite app_comm_cons, Join_snoc. Qed.

Lemma pushMessage_trimmed lines : Forall messageLine lines → TrimSpace (pushMessage lines) = pushMessage lines.
Proof.
  intros Hl. destruct lines as [| x lines] using rev_ind; [by vm_compute |]. apply Forall_app in Hl as [_ [[Hne _ _ Ht] _]%Forall_cons].
  rewrite pushMessage_snoc.
  assert (∃ rest, pushMessage lines = String "P" rest) as [rest ->].
  { unfold pushMessage. destruct lines; by eexists. }
  rewrite append_cons, TrimSpace_nonspace by done. f_equal. rewrite <- (string_app_assoc rest ","). rewrite TrimRightFunc_app, Ht; [done |].
  by rewrite Ht.
Qed.

Lemma containsChar_bytes s : containsChar NUL s = false → x00 ∉ bytesOf s.
Proof.
  induction s as [| c s IH]; [intros _; apply not_elem_of_nil |]. cbn [containsChar]. intros [Hc Hs]%orb_false_iff.
  apply bool_decide_eq_false in Hc. change (bytesOf (String c s)) with (byte_of_ascii c :: bytesOf s).
  apply not_elem_of_cons. split; [| by apply IH]. intros Hb. apply Hc. rewrite <- (ascii_of_byte_of_ascii c), <- Hb. done.
Qed.

Lemma TrimRightFunc_id p s : TrimRightFunc p s = s ∨ ∃ c, p c = true ∧ containsChar c s = true.
Proof.
  induction s as [| c s IH]; [by left |]. cbn [TrimRightFunc containsChar]. destruct IH as [-> | (d & Hd & Hs)].
  - destruct (p c) eqn:Hp; [right; exists c; by rewrite bool_decide_eq_true_2 |]. left. by rewrite andb_false_r.
  - right. exists d. by rewrite Hs, orb_true_r.
Qed.

Lemma TrimLeftFunc_id p s : TrimLeftFunc p s = s ∨ ∃ c, p c = true ∧ containsChar c s = true.
Proof.
  destruct s as [| c s]; [by left |]. cbn [TrimLeftFunc containsChar]. destruct (p c) eqn:Hp; [| by left].
  right. exists c. by rewrite bool_decide_eq_true_2.
Qed.

Lemma TrimChar_id s c : containsChar c s = false → TrimChar s c = s.
Proof.
  intros Hc. unfold TrimChar. destruct (TrimRightFunc_id (λ d, bool_decide (c = d)) s) as [-> | (d & Hd & Hs)].
  - destruct (TrimLeftFunc_id (λ d, bool_decide (c = d)) s) as [-> | (d & Hd & Hs)]; [done |].
    apply bool_decide_eq_true in Hd as <-. congruence.
  - apply bool_decide_eq_true in Hd as <-. congruence.
Qed.

Lemma TrimRightFunc_snoc p s c : p c = true → TrimRightFunc p (s +:+ String c EmptyString) = TrimRightFunc p s.
Proof.
  intros Hc. induction s as [| d s IH]; [rewrite append_nil; cbn [TrimRightFunc]; by rewrite Hc |]. rewrite append_cons. cbn [TrimRightFunc]. by rewrite IH.
Qed.

Lemma stringOf_app a b : stringOf (a ++ b) = stringOf a +:+ stringOf b.
Proof. induction a as [| x a IH]; [done |]. change (stringOf ((x :: a) ++ b)) with (String (ascii_of_byte x) (stringOf (a ++ b))). by rewrite IH. Qed.

(** A control channel string is read back. *)
Lemma normalizeControlPayload_string s :
  s ≠ EmptyString → containsChar NUL s = false → TrimSpace s = s →
  normalizeControlPayload (tlsControlStringPayload (bytesOf s)) = s.
Proof.
  intros Hne Hz Ht. assert (tlsControlStringPayload (bytesOf s) = bytesOf s ++ [x00]) as ->.
  { unfold tlsControlStringPayload. pose proof (containsChar_bytes s Hz) as Hn. destruct (last (bytesOf s)) as [b |] eqn:Hl.
    - apply last_Some_elem_of in Hl. rewrite decide_False; [done |]. by intros ->.
    - apply last_None in Hl. apply (f_equal stringOf) in Hl. by rewrite stringOf_bytesOf in Hl. }
  unfold normalizeControlPayload. rewrite stringOf_app, stringOf_bytesOf. change (stringOf [x00]) with (String NUL EmptyString).
  assert (TrimChar (s +:+ String NUL EmptyString) NUL = TrimChar s NUL) as ->
    by (unfold TrimChar; by rewrite TrimRightFunc_snoc by by apply bool_decide_eq_true_2).
  by rewrite TrimChar_id.
Qed.

Lemma pushMessage_plain lines c :
  c ≠ ","%char → containsChar c pushReplyPayloadPrefix = false → Forall (λ l, containsChar c l = false) lines →
  containsChar c (pushMessage lines) = false.
Proof.
  intros Hc Hp Hl. apply containsChar_Join; [cbn [containsChar]; by rewrite bool_decide_eq_false_2 | by constructor].
Qed.

Lemma splitPushReplyPayloadLines_message lines :
  Forall messageLine lines →
  splitPushReplyPayloadLines (tlsControlStringPayload (bytesOf (pushMessage lines))) = Some (pushReplyPayloadPrefix, lines).
Proof.
  intros Hl. unfold splitPushReplyPayloadLines.
  assert (Hne : pushMessage lines ≠ EmptyString) by (unfold pushMessage; by destruct lines).
  rewrite normalizeControlPayload_string; [| done | | by apply pushMessage_trimmed].
  - rewrite decide_False by done. unfold pushMessage. rewrite (Split_Join ","%char); [done | done |].
    constructor; [done |]. eapply Forall_impl; [exact Hl |]. by intros x [].
  - apply pushMessage_plain; [done | done |]. eapply Forall_impl; [exact Hl |]. by intros x [].
Qed.

Lemma appendLines_spec acc lines c :
  appendLines acc lines c = (acc ++ lines, (appendLines [] lines c).2).
Proof.
  revert acc c. assert (H : ∀ acc c, (appendLines acc lines c).1 = acc ++ lines ∧ ∀ acc', (appendLines acc lines c).2 = (appendLines acc' lines c).2).
  { induction lines as [| x lines IH]; intros acc c; cbn [appendLines]; [by rewrite app_nil_r |].
    match goal with |- context [appendLines (acc ++ [x]) lines ?c'] => destruct (IH (acc ++ [x]) c') as [H1 H2] end.
    split; [by rewrite H1, <- app_assoc | intros; apply H2]. }
  intros acc c. destruct (H acc c) as [H1 H2]. rewrite <- H1, <- (H2 []). by destruct (appendLines acc lines c).
Qed.

Lemma appendLines_app acc lines lines' c :
  appendLines acc (lines ++ lines') c = appendLines (appendLines acc lines c).1 lines' (appendLines acc lines c).2.
Proof. revert acc c. induction lines as [| x lines IH]; intros acc c; [done |]. apply IH. Qed.

Lemma appendLines_plain acc lines c :
  Forall (λ l, isContinuation l = false) lines → appendLines acc lines c = (acc ++ lines, c).
Proof.
  intros Hl. revert acc. induction Hl as [| x lines Hx _ IH]; intros acc; cbn [appendLines]; [by rewrite app_nil_r |].
  unfold isContinuation in Hx.
  assert (match parsePushedOptionLine x with
          | Some (name :: value :: _) => if EqualFold name "push-continuation" then parseContinuation value c else c
          | _ => c end = c) as ->.
  { destruct (parsePushedOptionLine x) as [[| a [| b l]] |]; [done | done | by rewrite Hx | done]. }
  rewrite IH. by rewrite <- app_assoc.
Qed.

(** The marker at the end of a message and what it makes of the continuation. *)
Definition marker (n : Z) : string := "push-continuation " +:+ FormatUint n.

Lemma segment_plain acc lines :
  Forall messageLine lines → Forall (λ l, isContinuation l = false) lines →
  appendPushReplyPayloadSegment acc (tlsControlStringPayload (bytesOf (pushMessage lines))) =
    Some ((if hasAny acc then acc else [pushReplyPayloadPrefix]) ++ lines, 0).
Proof.
  intros Hl Hc. unfold appendPushReplyPayloadSegment. rewrite splitPushReplyPayloadLines_message by done.
  cbn [mbind option_bind]. by rewrite appendLines_plain.
Qed.

Lemma marker_line n : n = 1 ∨ n = 2 → messageLine (marker n).
Proof. intros [-> | ->]; (split; [intros H; vm_compute in H; discriminate H | vm_compute; reflexivity ..]). Qed.

Lemma segment_marked acc lines n :
  n = 1 ∨ n = 2 → Forall messageLine lines → Forall (λ l, isContinuation l = false) lines →
  appendPushReplyPayloadSegment acc (tlsControlStringPayload (bytesOf (pushMessage (lines ++ [marker n])))) =
    Some ((if hasAny acc then acc else [pushReplyPayloadPrefix]) ++ lines ++ [marker n], n).
Proof.
  intros Hn Hl Hc. unfold appendPushReplyPayloadSegment.
  rewrite splitPushReplyPayloadLines_message by (apply Forall_app; split; [done |]; constructor; [by apply marker_line | done]).
  cbn [mbind option_bind]. rewrite appendLines_app, (appendLines_plain _ lines) by done. cbn [fst snd appendLines]. rewrite <- app_assoc.
  by destruct Hn as [-> | ->].
Qed.

(** ** Cutting the fields into messages *)

Lemma slen_app a b : slen (a +:+ b) = slen a + slen b.
Proof. unfold slen. rewrite string_length_app. lia. Qed.

Lemma splitFieldsLoop_spec fields cur multiPush payloads r :
  splitFieldsLoop fields (pushMessage cur) multiPush payloads = Ok r → slen (pushMessage cur) < serverPushSafeCapacity →
  ∃ chunks rest,
    r = payloads ++ ((λ chunk, bytesOf (pushMessage (chunk ++ [marker 2]))) <$> chunks) ++
        [bytesOf (pushMessage (rest ++ (if multiPush || hasAny chunks then [marker 1] else [])))] ∧
    cur ++ fields = concat chunks ++ rest ∧
    Forall (λ chunk, slen (pushMessage chunk) < serverPushSafeCapacity) (chunks ++ [rest]).
Proof.
  revert cur multiPush payloads. induction fields as [| f fields IH]; intros cur multiPush payloads H Hcur.
  { injection H as <-. exists [], cur. cbn [fmap list_fmap concat app hasAny]. rewrite orb_false_r, app_nil_r. split_and!; [| done | by repeat constructor].
    destruct multiPush; [| by rewrite app_nil_r]. by rewrite pushMessage_snoc. }
  cbn [splitFieldsLoop] in H. cbv zeta in H.
  destruct (Z.leb_spec serverPushSafeCapacity (slen (pushMessage cur) + slen ("," +:+ f))) as [Hbig | Hfit].
  - destruct (decide (pushMessage cur = pushReplyPayloadPrefix)); [done |]. cbn [mbind result_bind] in H.
    destruct (Z.leb_spec serverPushSafeCapacity (slen pushReplyPayloadPrefix + slen ("," +:+ f))); [done |].
    change (pushReplyPayloadPrefix +:+ "," +:+ f) with (pushMessage [f]) in H.
    apply IH in H as (chunks & rest & -> & Hall & Hsizes); [| change (slen (pushReplyPayloadPrefix +:+ "," +:+ f) < serverPushSafeCapacity); rewrite slen_app; lia].
    exists (cur :: chunks), rest. split_and!.
    + rewrite <- app_assoc. cbn [app fmap list_fmap]. f_equal. f_equal; [by rewrite pushMessage_snoc |].
      cbn [orb]. by rewrite orb_true_r.
    + cbn [concat]. by rewrite <- app_assoc, <- Hall.
    + by constructor.
  - cbn [mbind result_bind] in H. rewrite (proj2 (Z.leb_gt _ _) Hfit) in H. rewrite <- pushMessage_snoc in H.
    apply IH in H as (chunks & rest & -> & Hall & Hsizes); [| rewrite pushMessage_snoc, slen_app; lia].
    exists chunks, rest. split_and!; [done | | done]. by rewrite <- Hall, <- app_assoc.
Qed.

(** The cut fails only on a field that no message has room for. *)
Lemma splitFieldsLoop_total fields cur multiPush payloads :
  Forall (λ f, slen pushReplyPayloadPrefix + 1 + slen f < serverPushSafeCapacity) fields →
  ∃ r, splitFieldsLoop fields (pushMessage cur) multiPush payloads = Ok r.
Proof.
  intros Hf. revert cur multiPush payloads. induction Hf as [| f fields Hsize _ IH]; intros cur multiPush payloads; [by eexists |].
  cbn [splitFieldsLoop]. cbv zeta.
  assert (Hadd : slen ("," +:+ f) = 1 + slen f) by (by rewrite slen_app).
  destruct (Z.leb_spec serverPushSafeCapacity (slen (pushMessage cur) + slen ("," +:+ f))) as [Hbig | Hfit].
  - destruct (decide (pushMessage cur = pushReplyPayloadPrefix)) as [Heq | _]; [rewrite Heq in Hbig; lia |]. cbn [mbind result_bind].
    destruct (Z.leb_spec serverPushSafeCapacity (slen pushReplyPayloadPrefix + slen ("," +:+ f))); [lia |].
    change (pushReplyPayloadPrefix +:+ "," +:+ f) with (pushMessage [f]). apply IH.
  - cbn [mbind result_bind]. rewrite (proj2 (Z.leb_gt _ _) Hfit). rewrite <- pushMessage_snoc. apply IH.
Qed.

(** ** Putting them together again *)

Definition isMarker (line : string) : bool := bool_decide (line = marker 1 ∨ line = marker 2).

Definition unmark (lines : list string) : list string := List.filter (λ line, negb (isMarker line)) lines.

(** The filters do not reject the markers. *)
Definition markersPass (filters : list PullFilter) : Prop :=
  (applyPullFilters filters (marker 1)).2 = false ∧ (applyPullFilters filters (marker 2)).2 = false.

Lemma decodeOption_continuation w value : decodeOption w "push-continuation" value = w.
Proof. reflexivity. Qed.

(** The markers change nothing but the continuation. *)
Lemma decodeLines_unmark filters lines w c c' :
  markersPass filters →
  let '(w1, _, r1) := decodeLines filters lines w c in
  let '(w2, _, r2) := decodeLines filters (unmark lines) w c' in w1 = w2 ∧ r1 = r2.
Proof.
  intros Hm. revert w c c'. induction lines as [| x lines IH]; intros w c c'; [done |].
  unfold unmark. cbn [List.filter]. destruct (isMarker x) eqn:Hx; cbn [negb].
  - fold (unmark lines). apply bool_decide_eq_true in Hx. cbn [decodeLines].
    assert (TrimLeftFunc isSpace x = x ∧ (applyPullFilters filters x).2 = false ∧ ∃ v, parsePushedOptionLine x = Some ["push-continuation"; v]) as (-> & Hr & v & Hp).
    { destruct Hm as [H1 H2]. destruct Hx as [-> | ->]; (split_and!; [by vm_compute | done | by eexists; vm_compute]). }
    destruct (applyPullFilters filters x) as [allowed rejected]. cbn in Hr. rewrite Hr.
    destruct allowed; cbn [negb]; [rewrite Hp | apply IH].
    change (ToLower "push-continuation") with "push-continuation". rewrite decodeOption_continuation. apply IH.
  - fold (unmark lines). cbn [decodeLines]. destruct (applyPullFilters filters _) as [allowed rejected].
    destruct rejected; [done |]. destruct allowed; cbn [negb]; [| apply IH].
    destruct (parsePushedOptionLine x) as [[| name l] |]; apply IH.
Qed.

(** A line the server may push. *)
Record pushLine (line : string) : Prop := mkPushLine {
  pl_message : messageLine line;
  pl_plain : isContinuation line = false;
}.

Lemma pushLine_not_marker line : pushLine line → isMarker line = false.
Proof. intros [_ Hp]. apply bool_decide_eq_false. intros [-> | ->]; by vm_compute in Hp. Qed.

Lemma unmark_app a b : unmark (a ++ b) = unmark a ++ unmark b.
Proof. apply List.filter_app. Qed.

Lemma unmark_plain lines : Forall pushLine lines → unmark lines = lines.
Proof. unfold unmark. induction 1 as [| x lines Hx _ IH]; [done |]. cbn [List.filter]. by rewrite (pushLine_not_marker x Hx), IH. Qed.

Lemma unmark_marker n : n = 1 ∨ n = 2 → unmark [marker n] = [].
Proof. intros [-> | ->]; by vm_compute. Qed.

Lemma pushLine_split lines : Forall pushLine lines → Forall messageLine lines ∧ Forall (λ l, isContinuation l = false) lines.
Proof. intros H. split; (eapply Forall_impl; [exact H |]); by intros x []. Qed.

Lemma receive_chunks host filters chunks : ∀ acc final,
  Forall (Forall pushLine) chunks → (acc = [] ∨ ∃ lines, acc = pushReplyPayloadPrefix :: lines) →
  receivePushReply acc host filters (((λ chunk, tlsControlStringPayload (bytesOf (pushMessage (chunk ++ [marker 2])))) <$> chunks) ++ [final]) =
    receivePushReply (match chunks with [] => acc | _ => (if hasAny acc then acc else [pushReplyPayloadPrefix]) ++
                        concat ((λ chunk, chunk ++ [marker 2]) <$> chunks) end) host filters [final].
Proof.
  induction chunks as [| chunk chunks IH]; intros acc final Hc Hacc; [done |].
  apply Forall_cons in Hc as [Hchunk Hc]. destruct (pushLine_split chunk Hchunk) as [Hm Hp].
  rewrite fmap_cons, <- app_comm_cons. cbn [receivePushReply]. rewrite segment_marked by (done || by right). cbn [Z.eqb Pos.eqb].
  set (acc' := (if hasAny acc then acc else [pushReplyPayloadPrefix]) ++ chunk ++ [marker 2]).
  assert (Hacc' : ∃ lines, acc' = pushReplyPayloadPrefix :: lines).
  { subst acc'. destruct Hacc as [-> | [lines ->]]; by eexists. }
  rewrite IH by (try done; by right). f_equal. rewrite fmap_cons. cbn [concat]. destruct Hacc' as [lines Hl].
  destruct chunks as [| chunk' chunks]; [subst acc'; cbn; by rewrite app_nil_r |].
  assert (hasAny acc' = true) as -> by (by rewrite Hl). subst acc'. by rewrite <- app_assoc.
Qed.

Lemma length_bytesOf s : length (bytesOf s) = String.length s.
Proof. induction s as [| c s IH]; [done |]. change (length (bytesOf (String c s))) with (S (length (bytesOf s))). by rewrite IH. Qed.

Lemma terminated_size s : lenZ (tlsControlStringPayload (bytesOf s)) ≤ slen s + 1.
Proof.
  unfold slen. rewrite <- length_bytesOf. generalize (bytesOf s). intros p. unfold tlsControlStringPayload.
  destruct (last p); [destruct (decide _) |]; unfold lenZ; rewrite ?length_app; cbn [length]; lia.
Qed.

Lemma message_size lines :
  slen (pushMessage lines) < serverPushSafeCapacity → lenZ (tlsControlStringPayload (bytesOf (pushMessage lines))) < serverPushBundleSize.
Proof.
  intros Hs. pose proof (terminated_size (pushMessage lines)).
  unfold serverPushSafeCapacity, serverPushBundleOverhead in Hs. lia.
Qed.

Lemma marked_size lines n :
  n = 1 ∨ n = 2 → slen (pushMessage lines) < serverPushSafeCapacity →
  lenZ (tlsControlStringPayload (bytesOf (pushMessage (lines ++ [marker n])))) < serverPushBundleSize.
Proof.
  intros Hn Hs. assert (slen ("," +:+ marker n) = 20) as H20 by (destruct Hn as [-> | ->]; by vm_compute).
  pose proof (terminated_size (pushMessage (lines ++ [marker n]))) as H. rewrite pushMessage_snoc in H at 2. rewrite slen_app, H20 in H.
  unfold serverPushSafeCapacity, serverPushBundleOverhead in Hs. unfold serverPushBundleSize in *. lia.
Qed.

Lemma decode_unmark command lines host filters :
  markersPass filters →
  (decodePushReplyOptionLines command lines host filters).1 = (decodePushReplyOptionLines command (unmark lines) host filters).1.
Proof.
  intros Hm. unfold decodePushReplyOptionLines. pose proof (decodeLines_unmark filters lines no_wirePushedOptions 0 0 Hm) as H.
  destruct (decodeLines filters lines _ _) as [[w1 c1] r1], (decodeLines filters (unmark lines) _ _) as [[w2 c2] r2].
  by destruct H as [-> ->].
Qed.

Lemma unmark_chunks chunks : Forall (Forall pushLine) chunks → unmark (concat ((λ chunk, chunk ++ [marker 2]) <$> chunks)) = concat chunks.
Proof.
  induction 1 as [| chunk chunks Hc _ IH]; [done |]. rewrite fmap_cons. cbn [concat].
  by rewrite !unmark_app, unmark_plain, unmark_marker, app_nil_r, IH by (done || by right).
Qed.

(** The messages of a push reply are put together again. *)
Lemma push_reply_received (fields : list string) host filters :
  Forall pushLine fields → markersPass filters →
  match splitServerPushReplyFields (pushReplyPayloadPrefix :: fields) with
  | Ok payloads =>
      Forall (λ payload, lenZ (tlsControlStringPayload payload) < serverPushBundleSize) payloads ∧
      receivePushReply [] host filters (tlsControlStringPayload <$> payloads) =
        Some (decodePushReplyOptionLines pushReplyPayloadPrefix fields host filters).1
  | Err _ => Exists (λ f, serverPushSafeCapacity ≤ slen pushReplyPayloadPrefix + 1 + slen f) fields
  end.
Proof.
  intros Hf Hm. unfold splitServerPushReplyFields. rewrite decide_True by done.
  destruct (splitFieldsLoop fields pushReplyPayloadPrefix false []) as [payloads |] eqn:Hsplit.
  - change pushReplyPayloadPrefix with (pushMessage []) in Hsplit.
    apply splitFieldsLoop_spec in Hsplit as (chunks & rest & -> & Hall & Hsizes); [| by vm_compute]. cbn [app orb] in *. subst fields.
    apply Forall_app in Hf as [Hchunks Hrest]. rewrite Forall_concat in Hchunks.
    apply Forall_app in Hsizes as [Hsizes [Hsize _]%Forall_cons]. split.
    + apply Forall_app. split.
      * apply Forall_fmap. eapply Forall_impl; [exact Hsizes |]. intros chunk Hs. by apply marked_size; [right |].
      * constructor; [| done]. destruct (hasAny chunks); [by apply marked_size; [left |] |]. rewrite app_nil_r. by apply message_size.
    + rewrite fmap_app, <- list_fmap_compose. cbn [fmap list_fmap].
      rewrite (receive_chunks host filters chunks) by (try done; by left). cbn [receivePushReply].
      destruct (pushLine_split rest Hrest) as [Hrm Hrp]. destruct chunks as [| chunk chunks].
      * cbn [hasAny app concat]. rewrite app_nil_r, segment_plain by done. done.
      * change (hasAny (chunk :: chunks)) with true. cbv iota. rewrite segment_marked by (done || by left).
        set (all := concat ((λ chunk0 : list string, chunk0 ++ [marker 2]) <$> chunk :: chunks)).
        change (Some (decodePushReplyOptionLines pushReplyPayloadPrefix (all ++ rest ++ [marker 1]) host filters).1 =
                Some (decodePushReplyOptionLines pushReplyPayloadPrefix (concat (chunk :: chunks) ++ rest) host filters).1).
        rewrite (decode_unmark _ (all ++ rest ++ [marker 1])) by done.
        rewrite !unmark_app, (unmark_plain rest), unmark_marker, app_nil_r by (done || by left). do 3 f_equal. f_equal. f_equal. subst all.
        by apply unmark_chunks.
  - destruct (decide (Forall (λ f, slen pushReplyPayloadPrefix + 1 + slen f < serverPushSafeCapacity) fields)) as [Hfit | Hbig].
    + destruct (splitFieldsLoop_total fields [] false [] Hfit) as [r Hr]. change (pushMessage []) with pushReplyPayloadPrefix in Hr. congruence.
    + apply not_Forall_Exists in Hbig; [| apply _]. eapply Exists_impl; [exact Hbig |]. cbn. intros f Hlt. lia.
Qed.

(** C27: a push reply is cut into messages of less than 1024 octets, and the client
    that accumulates them reads the options as if they had come in one message,
    whatever is pushed and however many messages it takes; the cut fails only on
    an option that is too long for a message of its own. *)
Theorem push_reply_reassembled (fields : list string) host filters :
  Forall pushLine fields → markersPass filters →
  match splitServerPushReplyFields (pushReplyPayloadPrefix :: fields) with
  | Ok payloads =>
      Forall (λ payload, lenZ (tlsControlStringPayload payload) < serverPushBundleSize) payloads ∧
      receivePushReply [] host filters (tlsControlStringPayload <$> payloads) =
        Some (decodePushReplyOptionLines pushReplyPayloadPrefix fields host filters).1
  | Err _ => Exists (λ f, serverPushSafeCapacity ≤ slen pushReplyPayloadPrefix + 1 + slen f) fields
  end.
Proof. apply push_reply_received. Qed.

Lemma push_reply_reassembled_witness :
  let fields := replicate 60 "route 10.0.0.0 255.255.255.0" in
  ∃ payloads, splitServerPushReplyFields (pushReplyPayloadPrefix :: fields) = Ok payloads ∧ length payloads = 2%nat ∧
    receivePushReply [] AddrInvalid [] (tlsControlStringPayload <$> payloads) =
      Some (decodePushReplyOptionLines pushReplyPayloadPrefix fields AddrInvalid []).1.
Proof.
  intros fields. pose proof (push_reply_reassembled fields AddrInvalid []) as H.
  destruct (splitServerPushReplyFields (pushReplyPayloadPrefix :: fields)) as [payloads |] eqn:Hs; [| exfalso; vm_compute in Hs; discriminate Hs].
  assert (Hl : Forall pushLine fields).
  { apply Forall_replicate. split; [| vm_compute; reflexivity].
    split; [intros Hne; discriminate Hne | vm_compute; reflexivity | vm_compute; reflexivity | vm_compute; reflexivity]. }
  destruct (H Hl (conj eq_refl eq_refl)) as [_ Hr].
  exists payloads. split; [reflexivity |]. split; [| exact Hr]. vm_compute in Hs. injection Hs as <-. vm_compute. reflexivity.
Defined.

(** ** Words are read back *)

Lemma isSpace_plain c : plainChar c = true → isSpace c = false.
Proof.
  intros H. apply plainChar_inv in H as (H & _). unfold isPushedOptionLineSpace in H. by apply orb_false_iff in H as [_ H].
Qed.

Lemma fieldsLoop_word w s word :
  allCharacters plainChar w = true → fieldsLoop (w +:+ s) word = fieldsLoop s (word +:+ w).
Proof.
  revert word. induction w as [| c w IH]; intros word Hw; [by rewrite string_app_nil |].
  cbn [allCharacters] in Hw. apply andb_prop in Hw as [Hc Hw]. rewrite append_cons. cbn [fieldsLoop]. rewrite isSpace_plain by done.
  rewrite IH by done. by rewrite string_app_assoc.
Qed.

Lemma plainWord_inv w : plainWord w = true → w ≠ EmptyString ∧ allCharacters plainChar w = true.
Proof. unfold plainWord. intros [Hn Hw]%andb_prop. split; [| done]. intros ->. by vm_compute in Hn. Qed.

Lemma Fields_Join words : Forall (λ w, plainWord w = true) words → Fields (Join " " words) = words.
Proof.
  unfold Fields. induction 1 as [| w words Hw Hwords IH]; [done |]. apply plainWord_inv in Hw as [Hne Hw]. destruct words as [| v words].
  - cbn [Join]. rewrite <- (string_app_nil w) at 1. rewrite fieldsLoop_word, append_nil by done. cbn [fieldsLoop]. by rewrite decide_False.
  - change (Join " " (w :: v :: words)) with (w +:+ String " " (Join " " (v :: words))). rewrite fieldsLoop_word, append_nil by done.
    cbn [fieldsLoop]. change (isSpace " ") with true. cbv iota. rewrite decide_False by done. by rewrite IH.
Qed.

Lemma TrimRightFunc_plain w : plainWord w = true → TrimRightFunc isSpace w = w.
Proof.
  intros [Hne Hw]%plainWord_inv. clear Hne. induction w as [| c w IH]; [done |]. cbn [allCharacters] in Hw. apply andb_prop in Hw as [Hc Hw].
  cbn [TrimRightFunc]. by rewrite IH, isSpace_plain, andb_false_r by done.
Qed.

Lemma TrimSpace_words words : Forall (λ w, plainWord w = true) words → TrimSpace (Join " " words) = Join " " words.
Proof.
  intros Hw. destruct words as [| x words] using rev_ind; [done |]. apply Forall_app in Hw as [Hws [Hx _]%Forall_cons].
  pose proof (TrimRightFunc_plain x Hx) as Ht. pose proof (plainWord_inv x Hx) as [Hne _].
  assert (Hr : TrimRightFunc isSpace (Join " " (words ++ [x])) = Join " " (words ++ [x])).
  { destruct words as [| w words]; [done |]. rewrite Join_snoc by done. rewrite <- string_app_assoc, TrimRightFunc_app by (by rewrite Ht). by rewrite Ht. }
  unfold TrimSpace. rewrite Hr.
  assert (∃ w rest, words ++ [x] = w :: rest ∧ plainWord w = true) as (w & rest & -> & Hw')
    by (destruct words as [| w words]; [by exists x, [] | apply Forall_cons in Hws as [Hw' _]; by exists w, (words ++ [x])]).
  apply plainWord_inv in Hw' as [Hne' Hc]. destruct w as [| c w]; [done |]. cbn [allCharacters] in Hc. apply andb_prop in Hc as [Hc _].
  assert (∃ t, Join " " (String c w :: rest) = String c t) as [t ->] by (destruct rest; by eexists).
  cbn [TrimLeftFunc]. by rewrite isSpace_plain.
Qed.

Lemma Join_nonempty words : words ≠ [] → Forall (λ w, plainWord w = true) words → Join " " words ≠ EmptyString.
Proof.
  intros Hne Hw. destruct Hw as [| w words Hw _]; [done |]. apply plainWord_inv in Hw as [Hn _].
  destruct w as [| c w]; [done |]. by destruct words.
Qed.

Lemma nonEmpty_true s : s ≠ EmptyString → nonEmpty s = true.
Proof. intros H. unfold nonEmpty. by rewrite bool_decide_eq_false_2. Qed.

Lemma domain_plain domain : validateTunnelDNSDomain domain = true → plainWord domain = true.
Proof.
  unfold validateTunnelDNSDomain, plainWord. intros [-> Hd]%andb_prop. cbn [andb].
  induction domain as [| c domain IH]; [done |]. cbn [allCharacters] in *. apply andb_prop in Hd as [Hc Hd]. rewrite IH by done. rewrite andb_true_r.
  clear -Hc. revert Hc. destruct c as [[] [] [] [] [] [] [] []]; vm_compute; done.
Qed.

(** A line of plain words is one option. *)
Lemma decodeLines_words name params lines w c :
  plainWord name = true → Forall (λ w, plainWord w = true) params → ToLower name ≠ "push-continuation" →
  decodeLines [] (Join " " (name :: params) :: lines) w c =
    decodeLines [] lines (decodeOption w (ToLower name) (Join " " (take 15 params))) c.
Proof.
  intros Hn Hp Hc. cbn [decodeLines applyPullFilters negb]. rewrite parsePushedOptionLine_words by (done || by constructor).
  change (take 16 (name :: params)) with (name :: take 15 params). cbv iota zeta. by destruct (decide (ToLower name = "push-continuation")).
Qed.

Lemma appendUnique_new d x : x ∉ d → appendUniqueStringValues d [x] = d ++ [x].
Proof. intros H. unfold appendUniqueStringValues. cbn [foldl]. by rewrite decide_False. Qed.

Lemma addDomains_valid name raw complaint add o domains :
  Forall (λ d, validateTunnelDNSDomain d = true) domains → addDomains name raw complaint add o domains = foldl add o domains.
Proof.
  intros H. revert o. induction H as [| d domains Hd _ IH]; intros o; [done |]. unfold addDomains in *. cbn [foldl]. by rewrite Hd, IH.
Qed.

Lemma search_domains_fold add domains o :
  (∀ o domain, po_SearchDomains (add o domain) = appendUniqueStringValues (po_SearchDomains o) [domain]) →
  (∀ o domain, po_DNSServers (add o domain) = po_DNSServers o) →
  NoDup (po_SearchDomains o ++ domains) →
  po_SearchDomains (foldl add o domains) = po_SearchDomains o ++ domains ∧ po_DNSServers (foldl add o domains) = po_DNSServers o.
Proof.
  intros Hadd Hkeep. revert o. induction domains as [| d domains IH]; intros o Hnd; cbn [foldl]; [by rewrite app_nil_r |].
  assert (Hd : po_SearchDomains (add o d) = po_SearchDomains o ++ [d]).
  { rewrite Hadd. apply appendUnique_new. apply NoDup_app in Hnd as (_ & Hd & _). intros Hin. apply (Hd d Hin). by left. }
  destruct (IH (add o d)) as [H1 H2]; [by rewrite Hd, <- app_assoc |]. by rewrite H1, H2, Hd, Hkeep, <- app_assoc.
Qed.

(** The server puts all its search domains on one line, of which the client's
    parser reads sixteen words: of the domains that are pushed, it takes the first
    fourteen. *)
Theorem search_domains_truncated domains host :
  Forall (λ d, validateTunnelDNSDomain d = true) domains → NoDup domains → domains ≠ [] →
  let fields := buildPushReplyOptionFields (no_pushedOptions <| po_SearchDomains := domains |>) in
  fields = [pushReplyPayloadPrefix; "dns search-domains " +:+ Join " " domains] ∧
  po_SearchDomains (decodePushReplyOptionLines pushReplyPayloadPrefix (tail fields) host []).1 = take 14 domains.
Proof.
  intros Hd Hnd Hne fields.
  assert (Hf : fields = [pushReplyPayloadPrefix; "dns search-domains " +:+ Join " " domains]).
  { subst fields. unfold buildPushReplyOptionFields. cbn [po_SearchDomains setField]. destruct domains; [done |]. reflexivity. }
  split; [done |]. rewrite Hf. cbn [tail].
  assert (Hp : Forall (λ w, plainWord w = true) domains) by (eapply Forall_impl; [exact Hd |]; intros x; apply domain_plain).
  replace ("dns search-domains " +:+ Join " " domains) with (Join " " ("dns" :: "search-domains" :: domains)) by (by destruct domains).
  unfold decodePushReplyOptionLines. rewrite decodeLines_words; [| done | by constructor | done].
  change (take 15 ("search-domains" :: domains)) with ("search-domains" :: take 14 domains).
  assert (Hp14 : Forall (λ w, plainWord w = true) ("search-domains" :: take 14 domains)) by (constructor; [done | by apply Forall_take]).
  set (value := Join " " ("search-domains" :: take 14 domains)).
  assert (Hv : value ≠ EmptyString) by (by apply Join_nonempty).
  assert (decodeOption no_wirePushedOptions (ToLower "dns") value = no_wirePushedOptions <| w_DNS := [value] |>) as ->.
  { change (decodeOption no_wirePushedOptions (ToLower "dns") value) with
      (if nonEmpty value then no_wirePushedOptions <| w_DNS := [value] |> else no_wirePushedOptions).
    by rewrite nonEmpty_true. }
  cbn [decodeLines fst]. set (w := no_wirePushedOptions <| w_DNS := [value] |>).
  unfold pushedOptionsFromWire. set (o := copyWire w).
  change (w_PingTimeoutAction w) with pushedPingTimeoutNone. cbn [resolvePingTimeout].
  change (nonEmpty (w_Ifconfig w)) with false. change (nonEmpty (w_IfconfigIPv6 w)) with false. cbv iota.
  change (setWireRouteGateway o (w_RouteGateway w)) with o. change (w_Route w) with (@nil string). change (w_RouteIPv6 w) with (@nil string).
  change (w_DNS w) with [value]. change (w_DHCPOptions w) with (@nil string). cbn [foldl].
  assert (Hdns : ∃ add, (∀ o domain, po_SearchDomains (add o domain) = appendUniqueStringValues (po_SearchDomains o) [domain]) ∧
                        (∀ o domain, po_DNSServers (add o domain) = po_DNSServers o) ∧
                        addWireDNSOptionV2 o value = foldl add o (take 14 domains)).
  { eexists. split_and!; cycle 2.
    { unfold addWireDNSOptionV2. replace (TrimSpace value) with value by (symmetry; by apply TrimSpace_words). rewrite decide_False by done.
      unfold value. rewrite Fields_Join by done. change (EqualFold "search-domains" "search-domains") with true. cbv iota.
      rewrite addDomains_valid by by apply Forall_take.
      destruct (take 14 domains) eqn:Ht; [| reflexivity]. destruct domains; [by destruct Hne | discriminate Ht]. }
    all: done. }
  destruct Hdns as (add & Hadd & Hkeep & ->).
  destruct (search_domains_fold add (take 14 domains) o Hadd Hkeep) as [H1 H2].
  { change (po_SearchDomains o) with (@nil string). cbn [app]. rewrite <- (take_drop 14 domains) in Hnd. by apply NoDup_app in Hnd as [? _]. }
  rewrite H2. change (po_DNSServers o) with (@nil TunnelDNSServer). cbn [dropServersWithoutAddress]. exact H1.
Qed.

Lemma search_domains_truncated_witness :
  let domains := (λ n, "d" +:+ FormatUint n +:+ ".example") <$> seqZ 0 15 in
  length domains = 15%nat ∧
  length (po_SearchDomains (decodePushReplyOptionLines pushReplyPayloadPrefix
    (tail (buildPushReplyOptionFields (no_pushedOptions <| po_SearchDomains := domains |>))) (Addr4 3221225985) []).1) = 14%nat.
Proof.
  intros domains. split; [done |].
  destruct (search_domains_truncated domains (Addr4 3221225985)) as [_ ->]; [| | done | done].
  - apply (bool_decide_unpack _). vm_compute. done.
  - apply (bool_decide_unpack _). vm_compute. done.
Defined.
