(* ===== verification/TunnelConfig.v ===== *)
(** * The client's tunnel configuration ([tunnel_options.go], [client_tunnel.go],
      and [resetSessionConfiguration] of [client_supervisor.go])

    The configuration a client starts with, what pushed options make of it, and
    the queue of events that tells the embedding program about it.  The methods
    that change the state hold its lock from the first to the last change, so each
    is one transition; the callback of the program runs outside the lock. *)

From S2P Require Import Prelude GoStrings Base64 Netip NetipText Crypto Codec Fragment Compression Options PushOptions.

(** An [if] that changes a value, without an else. *)
Definition when {A} (b : bool) (f : A → A) (x : A) : A := if b then f x else x.

Lemma when_frame {A B} (p : A → B) b f x : (∀ x, p (f x) = p x) → p (when b f x) = p x.
Proof. intros H. destruct b; [apply H | done]. Qed.

Lemma when_inv {A} (P : A → Prop) b f x : P x → (∀ x, P x → P (f x)) → P (when b f x).
Proof. intros Hx H. destruct b; [by apply H | done]. Qed.

Record TunnelConfiguration := mkConfiguration {
  tc_DevType : string;
  tc_Topology : string;
  tc_TunMTU : Z;
  tc_LocalIPv4 : list prefix;
  tc_LocalIPv6 : list prefix;
  tc_VPNGateway : Addr;
  tc_VPNGatewayIPv6 : Addr;
  tc_IPv4Routes : list TunnelRoute;
  tc_IPv6Routes : list TunnelRoute;
  tc_ExcludedIPv4Routes : list TunnelRoute;
  tc_ExcludedIPv6Routes : list TunnelRoute;
  tc_DNS : list Addr;
  tc_DNSServers : list TunnelDNSServer;
  tc_DHCPOptions : list string;
  tc_SearchDomains : list string;
  tc_DNSRoutes : list string;
  tc_BlockIPv6 : bool;
  tc_BlockOutsideDNS : bool;
  tc_RedirectGateway : bool;
  tc_RedirectGatewayFlags : list string;
  tc_RedirectPrivate : bool;
  tc_RouteMetric : Z;
  tc_RouteGateway : Addr;
  tc_PingInterval : Z;
  tc_PingRestart : Z;
  tc_AuthToken : string;
  tc_AuthTokenUser : string;
  tc_ExplicitExitNotify : Z;
  tc_PeerID : option Z;
  tc_SelectedCipher : string;
  tc_SelectedAuth : string;
  tc_ProtocolFlags : list string;
  tc_KeyDerivation : string;
  tc_InactiveTimeout : Z;
  tc_InactiveMinimumBytes : Z;
  tc_SessionTimeout : Z;
  tc_PingExit : Z;
  tc_PingTimerRemote : bool;
}.

#[export] Instance eta_TunnelConfiguration : Eta TunnelConfiguration := λ r,
  mkConfiguration (tc_DevType r) (tc_Topology r) (tc_TunMTU r) (tc_LocalIPv4 r) (tc_LocalIPv6 r) (tc_VPNGateway r)
  (tc_VPNGatewayIPv6 r) (tc_IPv4Routes r) (tc_IPv6Routes r) (tc_ExcludedIPv4Routes r) (tc_ExcludedIPv6Routes r)
  (tc_DNS r) (tc_DNSServers r) (tc_DHCPOptions r) (tc_SearchDomains r) (tc_DNSRoutes r) (tc_BlockIPv6 r)
  (tc_BlockOutsideDNS r) (tc_RedirectGateway r) (tc_RedirectGatewayFlags r) (tc_RedirectPrivate r) (tc_RouteMetric r)
  (tc_RouteGateway r) (tc_PingInterval r) (tc_PingRestart r) (tc_AuthToken r) (tc_AuthTokenUser r)
  (tc_ExplicitExitNotify r) (tc_PeerID r) (tc_SelectedCipher r) (tc_SelectedAuth r) (tc_ProtocolFlags r)
  (tc_KeyDerivation r) (tc_InactiveTimeout r) (tc_InactiveMinimumBytes r) (tc_SessionTimeout r) (tc_PingExit r)
  (tc_PingTimerRemote r).

Definition no_TunnelConfiguration : TunnelConfiguration :=
  mkConfiguration EmptyString EmptyString 0 [] [] AddrInvalid AddrInvalid [] [] [] [] [] [] [] [] [] false false false []
  false 0 AddrInvalid 0 0 EmptyString EmptyString 0 None EmptyString EmptyString [] EmptyString 0 0 0 0 false.

#[export] Instance eta_TunnelRoute : Eta TunnelRoute := λ r, mkTunnelRoute (tr_Prefix r) (tr_Gateway r) (tr_Metric r).

(** ** Pieces ([tunnel_options.go]) *)

Definition cloneTunnelDNSServers (servers : list TunnelDNSServer) : list TunnelDNSServer :=
  (λ server, mkDNSServer (dns_Priority server) (dns_Addresses server) (dns_ResolveDomains server) (dns_DNSSEC server)
     (dns_Transport server) (dns_SNI server)) <$> servers.

(** The copy names the fields one by one, the peer id last. *)
Definition cloneTunnelConfiguration (c : TunnelConfiguration) : TunnelConfiguration :=
  let cloned := no_TunnelConfiguration
    <| tc_DevType := tc_DevType c |> <| tc_Topology := tc_Topology c |> <| tc_TunMTU := tc_TunMTU c |>
    <| tc_LocalIPv4 := tc_LocalIPv4 c |> <| tc_LocalIPv6 := tc_LocalIPv6 c |> <| tc_VPNGateway := tc_VPNGateway c |>
    <| tc_VPNGatewayIPv6 := tc_VPNGatewayIPv6 c |> <| tc_RouteGateway := tc_RouteGateway c |>
    <| tc_IPv4Routes := tc_IPv4Routes c |> <| tc_IPv6Routes := tc_IPv6Routes c |>
    <| tc_ExcludedIPv4Routes := tc_ExcludedIPv4Routes c |> <| tc_ExcludedIPv6Routes := tc_ExcludedIPv6Routes c |>
    <| tc_DNS := tc_DNS c |> <| tc_DNSServers := cloneTunnelDNSServers (tc_DNSServers c) |>
    <| tc_DHCPOptions := tc_DHCPOptions c |> <| tc_SearchDomains := tc_SearchDomains c |>
    <| tc_DNSRoutes := tc_DNSRoutes c |> <| tc_BlockIPv6 := tc_BlockIPv6 c |> <| tc_BlockOutsideDNS := tc_BlockOutsideDNS c |>
    <| tc_RedirectGateway := tc_RedirectGateway c |> <| tc_RedirectGatewayFlags := tc_RedirectGatewayFlags c |>
    <| tc_RedirectPrivate := tc_RedirectPrivate c |> <| tc_RouteMetric := tc_RouteMetric c |>
    <| tc_PingInterval := tc_PingInterval c |> <| tc_PingRestart := tc_PingRestart c |> <| tc_AuthToken := tc_AuthToken c |>
    <| tc_AuthTokenUser := tc_AuthTokenUser c |> <| tc_ExplicitExitNotify := tc_ExplicitExitNotify c |>
    <| tc_SelectedCipher := tc_SelectedCipher c |> <| tc_SelectedAuth := tc_SelectedAuth c |>
    <| tc_ProtocolFlags := tc_ProtocolFlags c |> <| tc_KeyDerivation := tc_KeyDerivation c |>
    <| tc_InactiveTimeout := tc_InactiveTimeout c |> <| tc_InactiveMinimumBytes := tc_InactiveMinimumBytes c |>
    <| tc_SessionTimeout := tc_SessionTimeout c |> <| tc_PingExit := tc_PingExit c |>
    <| tc_PingTimerRemote := tc_PingTimerRemote c |> in
  match tc_PeerID c with
  | Some peerID => cloned <| tc_PeerID := Some peerID |>
  | None => cloned
  end.

Definition localAddressByFamily (o : pushedOptions) (ipv4 : bool) : list pushedLocalAddress :=
  List.filter (λ value, prefix_IsValid (pla_Prefix value) && eqb (Is4 (prefix_Addr (pla_Prefix value))) ipv4) (po_LocalAddress o).

Definition routesByFamily (o : pushedOptions) (ipv4 : bool) : list pushedRoute :=
  List.filter (λ value, prefix_IsValid (tr_Prefix (pr_Route value)) && eqb (Is4 (prefix_Addr (tr_Prefix (pr_Route value)))) ipv4) (po_Routes o).

Definition routeGatewayFilterValue (o : pushedOptions) : string :=
  if nonEmpty (po_RouteGatewayRaw o) then po_RouteGatewayRaw o else
  if po_RouteGatewayVPN o then "vpn_gateway" else
  if Addr_IsValid (po_RouteGateway o) then Addr_String (po_RouteGateway o) else EmptyString.

Definition routeGateway (o : pushedOptions) (vpnGateway : Addr) (topology : string) : Addr :=
  if Addr_IsValid (po_RouteGateway o) then po_RouteGateway o else
  if po_RouteGatewayVPN o && Addr_IsValid vpnGateway && negb (EqualFold (TrimSpace topology) "subnet") then vpnGateway
  else AddrInvalid.

(** The distinct prefixes, and the first peer there is. *)
Definition pushedLocalAddressPrefixes (values : list pushedLocalAddress) : list prefix * Addr :=
  foldl (λ '(prefixes, vpnGateway) value,
    if negb (prefix_IsValid (pla_Prefix value)) then (prefixes, vpnGateway) else
    let vpnGateway := if negb (Addr_IsValid vpnGateway) && Addr_IsValid (pla_Peer value) then pla_Peer value else vpnGateway in
    (if decide (pla_Prefix value ∈ prefixes) then prefixes else prefixes ++ [pla_Prefix value], vpnGateway))
    ([], AddrInvalid) values.

Definition pushedAddresses (values : list pushedAddress) : list Addr :=
  List.filter Addr_IsValid (pa_Address <$> values).

(** A route as the configuration holds it: masked, with the metric filled in. *)
Definition normalizeRoute (routeMetric : Z) (route : TunnelRoute) : TunnelRoute :=
  let route := route <| tr_Prefix := prefix_Masked (tr_Prefix route) |> in
  if tr_Metric route =? 0 then route <| tr_Metric := routeMetric |> else route.

Definition pushedTunnelRoutes (values : list pushedRoute) (routeMetric : Z) : list TunnelRoute :=
  normalizeRoute routeMetric <$> List.filter (λ route, prefix_IsValid (tr_Prefix route)) (pr_Route <$> values).

Definition splitLocalAddressPrefixes (values : list prefix) : list prefix * list prefix :=
  let valid := List.filter prefix_IsValid values in
  (List.filter (λ value, Is4 (prefix_Addr value)) valid,
   List.filter (λ value, negb (Is4 (prefix_Addr value)) && Is6 (prefix_Addr value)) valid).

Definition splitTunnelRoutes (values : list TunnelRoute) (routeGateway vpnGateway vpnGatewayIPv6 : Addr) (routeMetric : Z)
    : list TunnelRoute * list TunnelRoute :=
  foldl (λ '(ipv4Routes, ipv6Routes) route,
    if negb (prefix_IsValid (tr_Prefix route)) then (ipv4Routes, ipv6Routes) else
    let route := normalizeRoute routeMetric route in
    if Is4 (prefix_Addr (tr_Prefix route)) then
      let route :=
        if negb (Addr_IsValid (tr_Gateway route)) && Is4 routeGateway then route <| tr_Gateway := routeGateway |>
        else if negb (Addr_IsValid (tr_Gateway route)) && Is4 vpnGateway then route <| tr_Gateway := vpnGateway |>
        else route in
      (ipv4Routes ++ [route], ipv6Routes)
    else if Is6 (prefix_Addr (tr_Prefix route)) then
      let route :=
        if negb (Addr_IsValid (tr_Gateway route)) && Is6 vpnGatewayIPv6 then route <| tr_Gateway := vpnGatewayIPv6 |> else route in
      (ipv4Routes, ipv6Routes ++ [route])
    else (ipv4Routes, ipv6Routes)) ([], []) values.

Definition fillRouteGateway (gateway : Addr) (route : TunnelRoute) : TunnelRoute :=
  if negb (Addr_IsValid (tr_Gateway route)) && eqb (Is4 (prefix_Addr (tr_Prefix route))) (Is4 gateway)
  then route <| tr_Gateway := gateway |> else route.

Definition fillTunnelRouteGateways (routes : list TunnelRoute) (gateway : Addr) : list TunnelRoute :=
  if negb (Addr_IsValid gateway) then routes else fillRouteGateway gateway <$> routes.

Definition appendUniqueAddresses (destination values : list Addr) : list Addr :=
  foldl (λ destination value,
    if negb (Addr_IsValid value) then destination else
    if decide (value ∈ destination) then destination else destination ++ [value]) destination values.

Definition appendUniqueTunnelRoutes (destination values : list TunnelRoute) : list TunnelRoute :=
  foldl (λ destination value,
    if negb (prefix_IsValid (tr_Prefix value)) then destination else
    let value := value <| tr_Prefix := prefix_Masked (tr_Prefix value) |> in
    if decide (value ∈ destination) then destination else destination ++ [value]) destination values.

Definition buildInitialTunnelConfiguration (options : ClientOptions) : TunnelConfiguration :=
  let t := co_Tunnel options in
  let '(localIPv4, localIPv6) := splitLocalAddressPrefixes (ctn_LocalAddress t) in
  let '(ipv4Routes, ipv6Routes) :=
    splitTunnelRoutes (ctn_Routes t) (ctn_RouteGateway t) (ctn_VPNGateway t) (ctn_VPNGatewayIPv6 t) (ctn_RouteMetric t) in
  let configuration := no_TunnelConfiguration
    <| tc_DevType := ctn_DevType t |> <| tc_Topology := ctn_Topology t |> <| tc_TunMTU := cdo_MTU (co_DataChannel options) |>
    <| tc_LocalIPv4 := localIPv4 |> <| tc_LocalIPv6 := localIPv6 |> <| tc_VPNGateway := ctn_VPNGateway t |>
    <| tc_VPNGatewayIPv6 := ctn_VPNGatewayIPv6 t |> <| tc_RouteGateway := ctn_RouteGateway t |>
    <| tc_IPv4Routes := ipv4Routes |> <| tc_IPv6Routes := ipv6Routes |> <| tc_DHCPOptions := ctn_DHCPOptions t |>
    <| tc_BlockIPv6 := ctn_BlockIPv6 t |> <| tc_BlockOutsideDNS := ctn_BlockOutsideDNS t |>
    <| tc_RedirectGateway := ctn_RedirectGateway t |> <| tc_RedirectGatewayFlags := ctn_RedirectGatewayFlags t |>
    <| tc_RedirectPrivate := ctn_RedirectPrivate t |> <| tc_RouteMetric := ctn_RouteMetric t |>
    <| tc_PingInterval := cti_PingInterval (co_Timing options) |> <| tc_PingRestart := cti_PingRestart (co_Timing options) |> in
  let parsedDHCPOptions := foldl addWireDHCPOptionDNS no_pushedOptions (ctn_DHCPOptions t) in
  configuration
    <| tc_DNS := pushedAddresses (po_DNS parsedDHCPOptions) |>
    <| tc_SearchDomains := po_SearchDomains parsedDHCPOptions |>
    <| tc_DNSRoutes := po_DNSRoutes parsedDHCPOptions |>.

(** ** State ([client_tunnel.go]) *)

Definition TunnelConfigurationEventInitial : string := "initial".
Definition TunnelConfigurationEventPushUpdate : string := "push_update".
Definition TunnelConfigurationEventRenegotiation : string := "renegotiation".

Record TunnelConfigurationEvent := mkEvent { ev_Reason : string; ev_Configuration : TunnelConfiguration }.

(** [wake] is whether the channel of capacity one holds a token. *)
Record clientTunnelConfigurationDispatcher := mkDispatcher {
  di_events : list TunnelConfigurationEvent;
  di_wake : bool;
  di_started : bool;
  di_stopped : bool;
}.

Record clientTunnelState := mkTunnel {
  ts_configuration : TunnelConfiguration;
  ts_authToken : string;
  ts_authTokenUser : string;
  ts_pulledOptionsReceived : bool;
  ts_modernDNSConfigured : bool;
  ts_modernSearchDomains : list string;
  ts_deferInitialEvent : bool;
  ts_pullFilterRejection : string;
  ts_compressionPushRejection : string;
  ts_dispatcher : clientTunnelConfigurationDispatcher;
}.

(** The part of the client the tunnel's methods use: its options, whether the
    program gave a callback, the data plane's compression, and the state. *)
Record Client := mkClient {
  cl_options : ClientOptions;
  cl_OnTunnelConfiguration : bool;
  cl_compression : compressionSettings;
  cl_allowCompressionPolicy : allowCompressionPolicy;
  cl_framing : option dataChannelFraming;
  cl_tunnel : clientTunnelState;
}.

#[export] Instance eta_dispatcher : Eta clientTunnelConfigurationDispatcher := λ r,
  mkDispatcher (di_events r) (di_wake r) (di_started r) (di_stopped r).

#[export] Instance eta_clientTunnelState : Eta clientTunnelState := λ r,
  mkTunnel (ts_configuration r) (ts_authToken r) (ts_authTokenUser r) (ts_pulledOptionsReceived r)
  (ts_modernDNSConfigured r) (ts_modernSearchDomains r) (ts_deferInitialEvent r) (ts_pullFilterRejection r)
  (ts_compressionPushRejection r) (ts_dispatcher r).

#[export] Instance eta_Client : Eta Client := λ r,
  mkClient (cl_options r) (cl_OnTunnelConfiguration r) (cl_compression r) (cl_allowCompressionPolicy r) (cl_framing r) (cl_tunnel r).

(** ** Events *)

Definition enqueueTunnelConfigurationEventLocked (c : Client) (event : TunnelConfigurationEvent) : bool * Client :=
  let t := cl_tunnel c in
  let d := ts_dispatcher t in
  if negb (cl_OnTunnelConfiguration c) || di_stopped d then (false, c)
  else (true, c <| cl_tunnel := t <| ts_dispatcher := d <| di_events := di_events d ++ [event] |> |> |>).

Definition signalTunnelConfigurationEvent (c : Client) : Client :=
  let t := cl_tunnel c in
  c <| cl_tunnel := t <| ts_dispatcher := (ts_dispatcher t) <| di_wake := true |> |> |>.

(** The methods below unlock before they signal: the flag is whether a signal is due. *)
Definition emitTunnelConfigurationEvent (c : Client) (reason : string) : bool * Client :=
  if negb (cl_OnTunnelConfiguration c) then (false, c) else
  enqueueTunnelConfigurationEventLocked c (mkEvent reason (cloneTunnelConfiguration (ts_configuration (cl_tunnel c)))).

(** Whether the dispatcher's goroutine is started. *)
Definition startTunnelConfigurationDispatcher (c : Client) : bool * Client :=
  let t := cl_tunnel c in
  let d := ts_dispatcher t in
  if negb (cl_OnTunnelConfiguration c) then (false, c) else
  if di_started d || di_stopped d then (false, c)
  else (true, c <| cl_tunnel := t <| ts_dispatcher := d <| di_started := true |> |> |>).

Definition stopTunnelConfigurationDispatcher (c : Client) : bool * Client :=
  let t := cl_tunnel c in
  (true, c <| cl_tunnel := t <| ts_dispatcher := (ts_dispatcher t) <| di_stopped := true |> <| di_events := [] |> |> |>).

(** Where the dispatcher's goroutine is: at the head of its loop, waiting for a
    token, calling the program back, or gone. *)
Inductive dispatcherAt := atLoop | atWait | atCallback (event : TunnelConfigurationEvent) | atReturn.

(** What the goroutine does next, [None] when it waits. *)
Definition runTunnelConfigurationDispatcher (place : dispatcherAt) (c : Client) : option (dispatcherAt * Client) :=
  let t := cl_tunnel c in
  let d := ts_dispatcher t in
  match place with
  | atLoop =>
      if di_stopped d then Some (atReturn, c <| cl_tunnel := t <| ts_dispatcher := d <| di_events := [] |> |> |>) else
      match di_events d with
      | [] => Some (atWait, c)
      | event :: events => Some (atCallback event, c <| cl_tunnel := t <| ts_dispatcher := d <| di_events := events |> |> |>)
      end
  | atWait => if di_wake d then Some (atLoop, c <| cl_tunnel := t <| ts_dispatcher := d <| di_wake := false |> |> |>) else None
  | atCallback _ => Some (atLoop, c)
  | atReturn => None
  end.

(** ** Applying pushed options *)

(** Merging replaces the server of a priority, and sorts. *)
Definition mergeTunnelDNSServers (destination servers : list TunnelDNSServer) : list TunnelDNSServer :=
  sortServers (foldl (λ merged server, updateServer merged (dns_Priority server) (λ _, server))
    (cloneTunnelDNSServers destination) servers).

(** Of a [ping-restart] and a [ping-exit] that is pushed alone, the other ends. *)
Definition resetPingTimeout (o : pushedOptions) (c : TunnelConfiguration) : TunnelConfiguration :=
  if eqb (po_PingRestartEnabled o) (po_PingExitSet o) then c else
  if po_PingRestartEnabled o then c <| tc_PingExit := 0 |> else c <| tc_PingRestart := 0 |>.

Definition applyLocalAddresses (o : pushedOptions) (c : TunnelConfiguration) : TunnelConfiguration :=
  let pushedLocalIPv4 := localAddressByFamily o true in
  let c :=
    if hasAny pushedLocalIPv4 then
      let '(localIPv4, vpnGateway) := pushedLocalAddressPrefixes pushedLocalIPv4 in
      c <| tc_LocalIPv4 := localIPv4 |> <| tc_VPNGateway := vpnGateway |>
    else c in
  let pushedLocalIPv6 := localAddressByFamily o false in
  if hasAny pushedLocalIPv6 then
    let '(localIPv6, vpnGatewayIPv6) := pushedLocalAddressPrefixes pushedLocalIPv6 in
    c <| tc_LocalIPv6 := localIPv6 |> <| tc_VPNGatewayIPv6 := vpnGatewayIPv6 |>
  else c.

Definition applyTunMTU (o : pushedOptions) (c : TunnelConfiguration) : list pushedOptionParseError * TunnelConfiguration :=
  if po_TunMTU o <=? 0 then ([], c) else
  let minimumTunMTU := if hasAny (tc_LocalIPv6 c) then 1280 else 576 in
  if po_TunMTU o <? minimumTunMTU
  then ([mkParseError "tun-mtu" (FormatUint (po_TunMTU o)) (ErrNew ("tun-mtu must be at least " +:+ FormatUint minimumTunMTU))], c)
  else ([], c <| tc_TunMTU := po_TunMTU o |>).

(** The DNS settings; the first [dns server] replaces what came by [dhcp-option].
    The flag is [modernDNSConfigured]. *)
Definition applyDNS (o : pushedOptions) (modernSearchDomains : list string) (configured : bool) (c : TunnelConfiguration)
    : bool * TunnelConfiguration :=
  let first := po_modernDNS o && negb configured in
  let c := when first (λ c,
    c <| tc_DNS := [] |> <| tc_SearchDomains := modernSearchDomains |> <| tc_DNSRoutes := [] |>
      <| tc_DHCPOptions := filterOpenVPNNonDNSDHCPOptions (tc_DHCPOptions c) |>) c in
  let configured := first || configured in
  let c :=
    if configured then
      c <| tc_DNS := appendUniqueAddresses (tc_DNS c) (pushedAddresses (po_modernDNSAddresses o)) |>
        <| tc_DNSServers := mergeTunnelDNSServers (tc_DNSServers c) (po_DNSServers o) |>
        <| tc_SearchDomains := appendUniqueStringValues (tc_SearchDomains c) (po_modernSearchDomains o) |>
        <| tc_DHCPOptions := appendUniqueStringValues (tc_DHCPOptions c) (filterOpenVPNNonDNSDHCPOptions (po_DHCPOptions o)) |>
    else
      c <| tc_DNS := appendUniqueAddresses (tc_DNS c) (pushedAddresses (po_DNS o)) |>
        <| tc_DHCPOptions := appendUniqueStringValues (tc_DHCPOptions c) (po_DHCPOptions o) |>
        <| tc_SearchDomains := appendUniqueStringValues (tc_SearchDomains c) (po_SearchDomains o) |>
        <| tc_DNSRoutes := appendUniqueStringValues (tc_DNSRoutes c) (po_DNSRoutes o) |> in
  let c := when (po_BlockIPv6 o) (λ c, c <| tc_BlockIPv6 := true |>) c in
  let c := when (po_BlockOutsideDNS o) (λ c, c <| tc_BlockOutsideDNS := true |>) c in
  let c := when (po_RouteMetricSet o) (λ c, c <| tc_RouteMetric := po_RouteMetric o |>) c in
  (configured, c).

Definition applySession (o : pushedOptions) (c : TunnelConfiguration) : TunnelConfiguration :=
  let c := when (po_PingIntervalEnabled o) (λ c, c <| tc_PingInterval := po_PingInterval o |>) c in
  let c := when (po_PingRestartEnabled o) (λ c, c <| tc_PingRestart := po_PingRestart o |>) c in
  let c := when (nonEmpty (po_AuthToken o)) (λ c, c <| tc_AuthToken := po_AuthToken o |>) c in
  let c := when (nonEmpty (po_AuthTokenUser o)) (λ c, c <| tc_AuthTokenUser := po_AuthTokenUser o |>) c in
  let c := when (po_ExplicitExitNotifySet o) (λ c, c <| tc_ExplicitExitNotify := po_ExplicitExitNotify o |>) c in
  let c := when (isSome (po_PeerID o)) (λ c, c <| tc_PeerID := po_PeerID o |>) c in
  let c := when (nonEmpty (po_SelectedCipher o)) (λ c, c <| tc_SelectedCipher := po_SelectedCipher o |>) c in
  let c := when (nonEmpty (po_SelectedAuth o)) (λ c, c <| tc_SelectedAuth := po_SelectedAuth o |>) c in
  let c := when (hasAny (po_ProtocolFlags o)) (λ c, c <| tc_ProtocolFlags := po_ProtocolFlags o |>) c in
  let c := when (nonEmpty (po_KeyDerivation o)) (λ c, c <| tc_KeyDerivation := po_KeyDerivation o |>) c in
  let c := when (po_InactiveTimeoutSet o)
    (λ c, c <| tc_InactiveTimeout := po_InactiveTimeout o |> <| tc_InactiveMinimumBytes := po_InactiveMinimumBytes o |>) c in
  let c := when (po_SessionTimeoutSet o) (λ c, c <| tc_SessionTimeout := po_SessionTimeout o |>) c in
  let c := when (po_PingExitSet o) (λ c, c <| tc_PingExit := po_PingExit o |>) c in
  when (po_PingTimerRemote o) (λ c, c <| tc_PingTimerRemote := true |>) c.

Definition applyRouteGateway (o : pushedOptions) (c : TunnelConfiguration) : list pushedOptionParseError * TunnelConfiguration :=
  if negb (Addr_IsValid (po_RouteGateway o) || po_RouteGatewayVPN o) then ([], c) else
  let effectiveRouteGateway := routeGateway o (tc_VPNGateway c) (tc_Topology c) in
  if Addr_IsValid effectiveRouteGateway then ([], c <| tc_RouteGateway := effectiveRouteGateway |>)
  else ([mkParseError "route-gateway" (routeGatewayFilterValue o) errInvalidPushedRouteGateway], c).

Definition applyRoutes (o : pushedOptions) (c : TunnelConfiguration) : TunnelConfiguration :=
  let c := c <| tc_IPv4Routes :=
    appendUniqueTunnelRoutes (tc_IPv4Routes c) (pushedTunnelRoutes (routesByFamily o true) (tc_RouteMetric c)) |> in
  let c := c <| tc_IPv6Routes :=
    appendUniqueTunnelRoutes (tc_IPv6Routes c) (pushedTunnelRoutes (routesByFamily o false) (tc_RouteMetric c)) |> in
  let c := foldl (λ c excludedRoute,
    if Is4 (prefix_Addr (tr_Prefix (pex_Route excludedRoute)))
    then c <| tc_ExcludedIPv4Routes := appendUniqueTunnelRoutes (tc_ExcludedIPv4Routes c) [pex_Route excludedRoute] |>
    else c <| tc_ExcludedIPv6Routes := appendUniqueTunnelRoutes (tc_ExcludedIPv6Routes c) [pex_Route excludedRoute] |>)
    c (po_excludedRoutes o) in
  let c := when (po_RedirectGateway o)
    (λ c, c <| tc_RedirectGateway := po_RedirectGateway o |> <| tc_RedirectGatewayFlags := po_RedirectGatewayFlags o |>) c in
  when (po_RedirectPrivate o) (λ c, c <| tc_RedirectPrivate := true |>) c.

Definition fillGateways (c : TunnelConfiguration) : TunnelConfiguration :=
  let ipv4RouteGateway := if Is4 (tc_RouteGateway c) then tc_RouteGateway c else tc_VPNGateway c in
  c <| tc_IPv4Routes := fillTunnelRouteGateways (tc_IPv4Routes c) ipv4RouteGateway |>
    <| tc_IPv6Routes := fillTunnelRouteGateways (tc_IPv6Routes c) (tc_VPNGatewayIPv6 c) |>.

(** What pushed options make of a configuration: the errors, whether modern DNS
    is configured, and the configuration. *)
Definition applyOptions (routeNoPull : bool) (o : pushedOptions) (modernSearchDomains : list string) (configured : bool)
    (c : TunnelConfiguration) : list pushedOptionParseError * bool * TunnelConfiguration :=
  let c := resetPingTimeout o c in
  let c := when (nonEmpty (po_Topology o)) (λ c, c <| tc_Topology := po_Topology o |>) c in
  let c := applyLocalAddresses o c in
  let '(mtuErrors, c) := applyTunMTU o c in
  let '(configured, c) := if routeNoPull then (configured, c) else applyDNS o modernSearchDomains configured c in
  let c := applySession o c in
  let '(gatewayErrors, c) := applyRouteGateway o c in
  let c := if routeNoPull then c else applyRoutes o c in
  (po_parseErrors o ++ mtuErrors ++ gatewayErrors, configured, fillGateways c).

Record pushedOptionsApplyResult := mkApplyResult { ar_pullFilterRejection : string; ar_compressionPushRejection : string }.

(** The directives in wire order, with the texts of those seen so far. *)
Fixpoint applyDirectives (settings : compressionSettings) (rejectionParts : list string) (directives : list compressionDirective)
    : list string * result compressionSettings :=
  match directives with
  | [] => (rejectionParts, Ok settings)
  | directive :: directives =>
      let rejectionPart := if nonEmpty (cd_Value directive) then cd_Name directive +:+ " " +:+ cd_Value directive else cd_Name directive in
      let rejectionParts := rejectionParts ++ [rejectionPart] in
      match apply settings directive with
      | (Err err, _) => (rejectionParts, Err err)
      | (Ok _, settings) => applyDirectives settings rejectionParts directives
      end
  end.

#[export] Instance compressionSettings_eq_dec : EqDecision compressionSettings.
Proof. solve_decision. Defined.

(** [random] is the random sequence number of the new framing. *)
Definition maybeReconfigureDataFramingFromPushedOptions (c : Client) (o : pushedOptions) (random : Z) : Client :=
  let reject rejectionParts :=
    c <| cl_tunnel := (cl_tunnel c) <| ts_compressionPushRejection := Join "; " rejectionParts |> |> in
  if negb (hasAny (po_CompressionDirectives o)) then c else
  match applyDirectives (cl_compression c) [] (po_CompressionDirectives o) with
  | (rejectionParts, Err _) => reject rejectionParts
  | (rejectionParts, Ok pushedCompression) =>
      if bool_decide (cl_allowCompressionPolicy c = allowCompressionStubOnly) && nonStubEnabled pushedCompression then reject rejectionParts else
      if decide (pushedCompression = cl_compression c) then c else
      c <| cl_framing := newDataChannelFraming pushedCompression (cdo_Fragment (co_DataChannel (cl_options c))) (cl_allowCompressionPolicy c) random |>
  end.

Definition routeNoPullBlocksOption (optionName : string) : bool :=
  bool_decide (optionName ∈ ["route"; "route-ipv6"; "route-metric"; "redirect-gateway"; "redirect-private"; "dns"; "dhcp-option";
    "block-ipv6"; "block-outside-dns"]).

(** The errors [warnPushedOptionParseErrors] reports. *)
Definition warnPushedOptionParseErrors (routeNoPull : bool) (parseErrors : list pushedOptionParseError) : list pushedOptionParseError :=
  List.filter (λ parseErr, negb (routeNoPull && routeNoPullBlocksOption (pe_Name parseErr))) parseErrors.

Definition eventReasonOf (isInitialPulledOptions : bool) (kind : pushOptionsKind) : string :=
  match kind with
  | pushOptionsKindUpdate => TunnelConfigurationEventPushUpdate
  | pushOptionsKindReply => if isInitialPulledOptions then TunnelConfigurationEventInitial else TunnelConfigurationEventRenegotiation
  end.

(** The section under the lock: the result, the errors that are reported, whether
    a signal is due, and the client. *)
Definition applyPushedOptions (c : Client) (o : pushedOptions) (random : Z)
    : pushedOptionsApplyResult * list pushedOptionParseError * bool * Client :=
  let routeNoPull := cpo_RouteNoPull (co_Pull (cl_options c)) in
  let t := cl_tunnel c in
  let isInitialPulledOptions := negb (ts_pulledOptionsReceived t) in
  let deferInitialTunnelEvent := isInitialPulledOptions && ts_deferInitialEvent t in
  let modernSearchDomains := appendUniqueStringValues (ts_modernSearchDomains t) (po_modernSearchDomains o) in
  let '(parseErrors, configured, updatedConfiguration) :=
    applyOptions routeNoPull o modernSearchDomains (ts_modernDNSConfigured t) (cloneTunnelConfiguration (ts_configuration t)) in
  let t := t <| ts_pullFilterRejection := po_pullFilterRejection o |> <| ts_compressionPushRejection := EmptyString |>
             <| ts_pulledOptionsReceived := true |> <| ts_modernSearchDomains := modernSearchDomains |>
             <| ts_modernDNSConfigured := configured |> in
  let t := when (nonEmpty (po_AuthToken o)) (λ t, t <| ts_authToken := po_AuthToken o |>) t in
  let t := when (nonEmpty (po_AuthTokenUser o)) (λ t, t <| ts_authTokenUser := po_AuthTokenUser o |>) t in
  let c := c <| cl_tunnel := t <| ts_configuration := updatedConfiguration |> |> in
  let c := if isInitialPulledOptions then maybeReconfigureDataFramingFromPushedOptions c o random else c in
  let '(eventQueued, c) :=
    if deferInitialTunnelEvent then (false, c) else
    enqueueTunnelConfigurationEventLocked c
      (mkEvent (eventReasonOf isInitialPulledOptions (po_kind o)) (cloneTunnelConfiguration (ts_configuration (cl_tunnel c)))) in
  (mkApplyResult (ts_pullFilterRejection (cl_tunnel c)) (ts_compressionPushRejection (cl_tunnel c)),
   warnPushedOptionParseErrors routeNoPull parseErrors, eventQueued, c).

Definition setInitialTunnelEventDeferred (c : Client) (deferred : bool) : Client :=
  c <| cl_tunnel := (cl_tunnel c) <| ts_deferInitialEvent := deferred |> |>.

(** ** Authentication tokens ([auth.go])

    A pushed token replaces the password until the server refuses it. *)

(** The part of a list before the first zero. *)
Fixpoint untilZero (l : bytes) : bytes :=
  match l with
  | [] => []
  | b :: l => if decide (b = x00) then [] else b :: untilZero l
  end.

Definition decodeAuthTokenUsername (encodedUsername : string) : option string :=
  match DecodeString encodedUsername with
  | (_, false) => None
  | ([], true) => None
  | (decodedUsername, true) => Some (stringOf (untilZero decodedUsername))
  end.

(** The user name and the password, when the token can be used. *)
Definition resolveAuthTokenCredentials (options : ClientOptions) (authToken authTokenUser stagedUsername : string) : option (string * string) :=
  if negb (nonEmpty authToken) then None else
  if nonEmpty authTokenUser then
    match decodeAuthTokenUsername authTokenUser with
    | None => None
    | Some username => Some (username, authToken)
    end
  else
    let username := cao_Username (co_Authentication options) in
    let username := if nonEmpty username then username else stagedUsername in
    if nonEmpty username then Some (username, authToken) else None.

Definition activeAuthTokenCredentials (c : Client) (fallbackUsername : string) : option (string * string) :=
  resolveAuthTokenCredentials (cl_options c) (ts_authToken (cl_tunnel c)) (ts_authTokenUser (cl_tunnel c)) fallbackUsername.

Definition clearAuthToken (c : Client) (stagedUsername : string) : bool * Client :=
  let t := cl_tunnel c in
  let tokenDefined := isSome (activeAuthTokenCredentials c stagedUsername) in
  (tokenDefined,
   c <| cl_tunnel := t <| ts_authToken := EmptyString |> <| ts_authTokenUser := EmptyString |>
        <| ts_configuration := (ts_configuration t) <| tc_AuthToken := EmptyString |> <| tc_AuthTokenUser := EmptyString |> |> |>).

Definition prePullInitialPingRestart : Z := 120 * Second.

(** [resetSessionConfiguration] of a session with a remote whose protocol is given. *)
Definition resetSessionConfiguration (c : Client) (protocol : string) (random : Z) : Client :=
  let o := cl_options c in
  let t := cl_tunnel c in
  let tunnelConfiguration := (buildInitialTunnelConfiguration o) <| tc_ExplicitExitNotify := cto_ExplicitExitNotify (co_Transport o) |> in
  let tunnelConfiguration :=
    if cpo_Enabled (co_Pull o) && HasPrefix protocol "udp" && (cti_PingRestart (co_Timing o) =? 0) &&
       negb (cti_PingRestartDisabled (co_Timing o))
    then tunnelConfiguration <| tc_PingRestart := prePullInitialPingRestart |> else tunnelConfiguration in
  let tunnelConfiguration := tunnelConfiguration <| tc_AuthToken := ts_authToken t |> <| tc_AuthTokenUser := ts_authTokenUser t |> in
  let t := t <| ts_configuration := tunnelConfiguration |> <| ts_pulledOptionsReceived := false |>
             <| ts_modernDNSConfigured := false |> <| ts_modernSearchDomains := [] |> <| ts_deferInitialEvent := false |>
             <| ts_pullFilterRejection := EmptyString |> <| ts_compressionPushRejection := EmptyString |> in
  c <| cl_tunnel := t |>
    <| cl_framing := newDataChannelFraming (cl_compression c) (cdo_Fragment (co_DataChannel o)) (cl_allowCompressionPolicy c) random |>.
