(* ===== verification/TunnelLaws.v ===== *)
(** * What the client's tunnel configuration promises

    Whatever a server pushes, and in whatever order pushes, restarts and events
    happen: the configuration stays well formed, [route-nopull] keeps the routing
    of the client as it was configured, and the program is told of every change in
    order.  Pushing the same routes twice does not keep them once. *)

From S2P Require Import Prelude GoStrings Netip NetipText Crypto Codec Fragment Compression Options Negotiation PushOptions TunnelConfig.

Arguments appendUniqueTunnelRoutes : simpl never.
Arguments appendUniqueAddresses : simpl never.
Arguments appendUniqueStringValues : simpl never.
Arguments mergeTunnelDNSServers : simpl never.
Arguments fillTunnelRouteGateways : simpl never.

Lemma foldl_inv {A B} (P : A → Prop) (f : A → B → A) a l : P a → (∀ a x, P a → P (f a x)) → P (foldl f a l).
Proof. intros Ha Hf. revert a Ha. induction l as [| x l IH]; intros a Ha; [done |]. apply IH. by apply Hf. Qed.

Lemma foldl_Forall_inv {A B} (P : A → Prop) (Q : B → Prop) (f : A → B → A) a l :
  Forall Q l → P a → (∀ a x, Q x → P a → P (f a x)) → P (foldl f a l).
Proof. intros Hl Ha Hf. revert a Ha. induction Hl as [| x l Hx _ IH]; intros a Ha; [done |]. apply IH. by apply Hf. Qed.

(** The copy loses no field. *)
Lemma cloneTunnelDNSServers_id servers : cloneTunnelDNSServers servers = servers.
Proof. unfold cloneTunnelDNSServers. induction servers as [| [] servers IH]; [done |]. cbn. by f_equal. Qed.

Lemma cloneTunnelConfiguration_id c : cloneTunnelConfiguration c = c.
Proof. unfold cloneTunnelConfiguration. rewrite cloneTunnelDNSServers_id. by destruct c as [????????????????????????????[]]. Qed.

(** ** Routes *)

Lemma prefix_Masked_family p : addrFamily (prefix_Addr (prefix_Masked p)) = addrFamily (prefix_Addr p).
Proof. by destruct p as [[] bits]. Qed.

Lemma prefix_Masked_valid p : prefix_IsValid (prefix_Masked p) = prefix_IsValid p.
Proof. by destruct p as [[] bits]. Qed.

Lemma prefix_Masked_Is4 p : Is4 (prefix_Addr (prefix_Masked p)) = Is4 (prefix_Addr p).
Proof. by destruct p as [[] bits]. Qed.

Lemma maskValue_idem f b v : maskValue f b (maskValue f b v) = maskValue f b v.
Proof.
  unfold maskValue. destruct (decide (2 ^ (f - b) = 0)) as [-> | Hne]; [by rewrite !Z.mod_0_r; lia |].
  assert (v - v mod 2 ^ (f - b) = v / 2 ^ (f - b) * 2 ^ (f - b)) as -> by (pose proof (Z.div_mod v (2 ^ (f - b)) Hne); lia).
  rewrite Z.mod_mul by done. lia.
Qed.

Lemma prefix_Masked_idem p : prefix_Masked (prefix_Masked p) = prefix_Masked p.
Proof. destruct p as [[] bits]; unfold prefix_Masked; cbn; by rewrite ?maskValue_idem. Qed.

(** A route of a family: a valid prefix without host bits. *)
Definition routeOk (four : bool) (route : TunnelRoute) : Prop :=
  prefix_IsValid (tr_Prefix route) = true ∧ Is4 (prefix_Addr (tr_Prefix route)) = four ∧
  prefix_Masked (tr_Prefix route) = tr_Prefix route.

Definition masked (route : TunnelRoute) : TunnelRoute := route <| tr_Prefix := prefix_Masked (tr_Prefix route) |>.

Lemma masked_ok route : prefix_IsValid (tr_Prefix route) = true → routeOk (Is4 (prefix_Addr (tr_Prefix route))) (masked route).
Proof. intros H. split_and!; cbn; [by rewrite prefix_Masked_valid | apply prefix_Masked_Is4 | apply prefix_Masked_idem]. Qed.

Lemma masked_id four route : routeOk four route → masked route = route.
Proof. intros (_ & _ & H). unfold masked. destruct route as [p g m]; cbn in *. by rewrite H. Qed.

Lemma normalizeRoute_prefix metric route : tr_Prefix (normalizeRoute metric route) = prefix_Masked (tr_Prefix route).
Proof. unfold normalizeRoute. by destruct (_ =? 0). Qed.

Lemma normalizeRoute_ok four metric route :
  prefix_IsValid (tr_Prefix route) = true → Is4 (prefix_Addr (tr_Prefix route)) = four → routeOk four (normalizeRoute metric route).
Proof.
  intros H <-. unfold routeOk. rewrite normalizeRoute_prefix. split_and!;
    [by rewrite prefix_Masked_valid | apply prefix_Masked_Is4 | apply prefix_Masked_idem].
Qed.

Lemma pushedTunnelRoutes_ok o four metric : Forall (routeOk four) (pushedTunnelRoutes (routesByFamily o four) metric).
Proof.
  unfold pushedTunnelRoutes. apply Forall_fmap, Forall_forall. intros route Hin%list_elem_of_In%filter_In. destruct Hin as [Hin Hv].
  apply list_elem_of_In, list_elem_of_fmap in Hin as (value & -> & Hin). apply list_elem_of_In, filter_In in Hin as [_ Hf].
  apply andb_prop in Hf as [_ Hf]. apply normalizeRoute_ok; [done |]. by apply eqb_prop.
Qed.

(** [appendUniqueTunnelRoutes] on routes that are already masked is the union. *)
Lemma appendUniqueTunnelRoutes_Forall (P : TunnelRoute → Prop) destination values :
  Forall P destination → Forall (λ value, prefix_IsValid (tr_Prefix value) = true → P (masked value)) values →
  Forall P (appendUniqueTunnelRoutes destination values).
Proof.
  intros Hd Hv. revert destination Hd. induction Hv as [| value values Hv _ IH]; intros destination Hd; [done |].
  unfold appendUniqueTunnelRoutes. cbn [foldl]. apply IH. fold (masked value).
  destruct (prefix_IsValid (tr_Prefix value)) eqn:E; cbn [negb]; [| done]. case_decide; [done |].
  apply Forall_app. split; [done |]. by repeat constructor; auto.
Qed.

Lemma appendUniqueTunnelRoutes_ok four destination values :
  Forall (routeOk four) destination → Forall (routeOk four) values → Forall (routeOk four) (appendUniqueTunnelRoutes destination values).
Proof.
  intros Hd Hv. apply appendUniqueTunnelRoutes_Forall; [done |]. eapply Forall_impl; [exact Hv |].
  intros value H _. by rewrite (masked_id four).
Qed.

Lemma fillRouteGateway_ok four gateway route : routeOk four route → routeOk four (fillRouteGateway gateway route).
Proof. unfold fillRouteGateway. by destruct (_ && _). Qed.

Lemma fillTunnelRouteGateways_ok four gateway routes :
  Forall (routeOk four) routes → Forall (routeOk four) (fillTunnelRouteGateways routes gateway).
Proof.
  intros H. unfold fillTunnelRouteGateways. destruct (Addr_IsValid gateway); cbn [negb]; [| done].
  apply Forall_fmap. eapply Forall_impl; [exact H |]. intros route. apply fillRouteGateway_ok.
Qed.

Definition hasGateway (route : TunnelRoute) : Prop := Addr_IsValid (tr_Gateway route) = true.

Lemma fillTunnelRouteGateways_filled four gateway routes :
  Addr_IsValid gateway = true → Is4 gateway = four → Forall (routeOk four) routes →
  Forall hasGateway (fillTunnelRouteGateways routes gateway).
Proof.
  intros Hv Hf H. unfold fillTunnelRouteGateways. rewrite Hv. cbn [negb]. apply Forall_fmap. eapply Forall_impl; [exact H |].
  intros route (_ & H4 & _). unfold hasGateway, compose, fillRouteGateway. rewrite H4, Hf, eqb_reflx.
  destruct (Addr_IsValid (tr_Gateway route)) eqn:E; cbn [negb andb]; [by rewrite E | done].
Qed.

(** The split of the configured routes. *)
Lemma splitTunnelRoutes_ok values rg vg vg6 metric :
  let '(ipv4Routes, ipv6Routes) := splitTunnelRoutes values rg vg vg6 metric in
  Forall (routeOk true) ipv4Routes ∧ Forall (routeOk false) ipv6Routes ∧
  (Is4 rg = true ∨ Is4 vg = true → Forall hasGateway ipv4Routes) ∧ (Is6 vg6 = true → Forall hasGateway ipv6Routes).
Proof.
  unfold splitTunnelRoutes.
  apply (foldl_inv (λ acc : list TunnelRoute * list TunnelRoute, let '(r4, r6) := acc in Forall (routeOk true) r4 ∧ Forall (routeOk false) r6 ∧
    (Is4 rg = true ∨ Is4 vg = true → Forall hasGateway r4) ∧ (Is6 vg6 = true → Forall hasGateway r6))).
  { split_and!; intros; constructor. }
  intros [r4 r6] route (H4 & H6 & G4 & G6).
  destruct (prefix_IsValid (tr_Prefix route)) eqn:Hv; cbn [negb]; [| done].
  pose proof (normalizeRoute_ok (Is4 (prefix_Addr (tr_Prefix route))) metric route Hv eq_refl) as Hok.
  set (r := normalizeRoute metric route) in *. clearbody r. destruct Hok as (Hrv & Hr4 & Hrm).
  destruct (Is4 (prefix_Addr (tr_Prefix r))) eqn:E4.
  - assert (Hgw : ∀ g, routeOk true (r <| tr_Gateway := g |>)) by done.
    split_and!; [| done | | done].
    + apply Forall_app. split; [done |]. constructor; [| done]. by destruct (negb _ && _); [| destruct (negb _ && _)].
    + intros Hg. apply Forall_app. split; [by apply G4 |]. constructor; [| done]. unfold hasGateway.
      destruct (Addr_IsValid (tr_Gateway r)) eqn:Eg; cbn [negb andb]; [done |].
      destruct rg; cbn in *; [| done |]; (destruct vg; cbn in *; naive_solver).
  - destruct (Is6 (prefix_Addr (tr_Prefix r))) eqn:E6; [| done].
    split_and!; [done | | done |].
    + apply Forall_app. split; [done |]. constructor; [| done]. by destruct (negb _ && _).
    + intros Hg. apply Forall_app. split; [by apply G6 |]. constructor; [| done]. unfold hasGateway. rewrite Hg.
      destruct (Addr_IsValid (tr_Gateway r)) eqn:Eg; cbn [negb andb]; [done |]. by destruct vg6.
Qed.

(** ** DNS servers *)

Definition byPriority (a b : TunnelDNSServer) : Prop := dns_Priority a < dns_Priority b.

Lemma insertServer_perm server sorted : insertServer server sorted ≡ₚ server :: sorted.
Proof.
  induction sorted as [| first sorted IH]; cbn [insertServer]; [done |]. destruct (_ <? _); [done |].
  rewrite IH. apply Permutation_swap.
Qed.

Lemma insertServer_sorted server sorted :
  StronglySorted byPriority sorted → dns_Priority server ∉ dns_Priority <$> sorted → StronglySorted byPriority (insertServer server sorted).
Proof.
  induction 1 as [| first sorted Hs IH Hf]; intros Hn; cbn [insertServer]; [by repeat constructor |].
  rewrite fmap_cons, not_elem_of_cons in Hn. destruct Hn as [Hne Hn]. destruct (dns_Priority server <? dns_Priority first) eqn:E.
  - constructor; [by constructor |]. constructor; [unfold byPriority; lia |]. eapply Forall_impl; [exact Hf |].
    unfold byPriority. intros x Hx. lia.
  - constructor; [by apply IH |]. rewrite insertServer_perm. constructor; [unfold byPriority; lia | done].
Qed.

Lemma sortServers_sorted servers : NoDup (dns_Priority <$> servers) → StronglySorted byPriority (sortServers servers).
Proof.
  unfold sortServers. change servers with ([] ++ servers) at 1. generalize (SSorted_nil byPriority). generalize (@nil TunnelDNSServer).
  induction servers as [| server servers IH]; intros sorted Hs Hnd; [done |]. cbn [foldl]. apply IH.
  - apply insertServer_sorted; [done |]. rewrite fmap_app, NoDup_app in Hnd. destruct Hnd as (_ & Hnd & _).
    intros Hin. apply (Hnd _ Hin). rewrite fmap_cons. by left.
  - rewrite fmap_app, insertServer_perm, fmap_cons in *. cbn [fmap list_fmap] in *. by rewrite <- Permutation_middle in Hnd.
Qed.

Lemma updateServer_priorities servers server :
  dns_Priority <$> updateServer servers (dns_Priority server) (λ _, server) =
    if decide (dns_Priority server ∈ dns_Priority <$> servers) then dns_Priority <$> servers
    else (dns_Priority <$> servers) ++ [dns_Priority server].
Proof.
  induction servers as [| first servers IH]; [done |]. cbn [updateServer]. rewrite (fmap_cons _ first).
  destruct (Z.eqb_spec (dns_Priority first) (dns_Priority server)) as [E | E].
  - rewrite decide_True by (rewrite E; by left). by rewrite fmap_cons, E.
  - rewrite fmap_cons, IH. destruct (decide (dns_Priority server ∈ dns_Priority <$> servers)).
    + by rewrite decide_True by (by right).
    + rewrite decide_False; [done |]. rewrite elem_of_cons. naive_solver.
Qed.

Lemma mergeTunnelDNSServers_sorted destination servers :
  StronglySorted byPriority destination → StronglySorted byPriority (mergeTunnelDNSServers destination servers).
Proof.
  intros Hs. apply sortServers_sorted. rewrite cloneTunnelDNSServers_id.
  apply (foldl_inv (λ l, NoDup (dns_Priority <$> l))).
  - induction Hs as [| first sorted Hs IH Hf]; [constructor |]. rewrite fmap_cons. constructor; [| done].
    intros (x & Hx & Hin)%list_elem_of_fmap. rewrite Forall_forall in Hf. specialize (Hf x Hin). unfold byPriority in Hf. lia.
  - intros l server Hl. rewrite updateServer_priorities. case_decide; [done |]. apply NoDup_app. split_and!; [done | | by repeat constructor; set_solver].
    intros x Hx ->%list_elem_of_singleton. done.
Qed.

(** ** Well-formed configurations *)

Definition prefixOk (four : bool) (p : prefix) : Prop := prefix_IsValid p = true ∧ Is4 (prefix_Addr p) = four.

(** What the fields promise whatever the gateways are. *)
Record fieldsOk (c : TunnelConfiguration) : Prop := {
  ok_local4 : Forall (prefixOk true) (tc_LocalIPv4 c);
  ok_local6 : Forall (prefixOk false) (tc_LocalIPv6 c);
  ok_routes4 : Forall (routeOk true) (tc_IPv4Routes c);
  ok_routes6 : Forall (routeOk false) (tc_IPv6Routes c);
  ok_excluded4 : Forall (routeOk true) (tc_ExcludedIPv4Routes c);
  ok_excluded6 : Forall (routeOk false) (tc_ExcludedIPv6Routes c);
  ok_dns : Forall (λ a, Addr_IsValid a = true) (tc_DNS c);
  ok_servers : StronglySorted byPriority (tc_DNSServers c);
}.

(** No route lacks a gateway when there is one for its family. *)
Definition gatewaysOk (c : TunnelConfiguration) : Prop :=
  (Is4 (tc_RouteGateway c) = true ∨ Is4 (tc_VPNGateway c) = true → Forall hasGateway (tc_IPv4Routes c)) ∧
  (Is6 (tc_VPNGatewayIPv6 c) = true → Forall hasGateway (tc_IPv6Routes c)).

Definition configurationOk (c : TunnelConfiguration) : Prop := fieldsOk c ∧ gatewaysOk c.

(** The fields that [fieldsOk] is about. *)
Definition fieldsOf (c : TunnelConfiguration) :=
  (tc_LocalIPv4 c, tc_LocalIPv6 c, tc_IPv4Routes c, tc_IPv6Routes c, tc_ExcludedIPv4Routes c, tc_ExcludedIPv6Routes c, tc_DNS c, tc_DNSServers c).

Lemma fieldsOk_frame c c' : fieldsOf c' = fieldsOf c → fieldsOk c → fieldsOk c'.
Proof. unfold fieldsOf. intros E [? ? ? ? ? ? ? ?]. simplify_eq. by split; congruence. Qed.

Ltac frame := repeat (rewrite when_frame by (intros; reflexivity)); try reflexivity.

Lemma resetPingTimeout_fields o c : fieldsOf (resetPingTimeout o c) = fieldsOf c.
Proof. unfold resetPingTimeout. by destruct (eqb _ _), (po_PingRestartEnabled o). Qed.

Lemma applySession_fields o c : fieldsOf (applySession o c) = fieldsOf c.
Proof. unfold applySession. cbv zeta. frame. Qed.

Lemma applyTunMTU_fields o c : fieldsOf (applyTunMTU o c).2 = fieldsOf c.
Proof. unfold applyTunMTU. destruct (_ <=? 0); [done |]. by destruct (_ <? _). Qed.

Lemma applyRouteGateway_fields o c : fieldsOf (applyRouteGateway o c).2 = fieldsOf c.
Proof. unfold applyRouteGateway. destruct (negb _); [done |]. by destruct (Addr_IsValid _). Qed.

Lemma pushedLocalAddressPrefixes_ok o four : Forall (prefixOk four) (pushedLocalAddressPrefixes (localAddressByFamily o four)).1.
Proof.
  assert (H : Forall (λ value, prefixOk four (pla_Prefix value)) (localAddressByFamily o four)).
  { apply Forall_forall. intros value [_ Hv]%list_elem_of_In%filter_In. apply andb_prop in Hv as [Hv H4]. split; [done |]. by apply eqb_prop. }
  unfold pushedLocalAddressPrefixes. eapply (foldl_Forall_inv (λ acc, Forall (prefixOk four) acc.1)); [exact H | constructor |].
  intros [prefixes gateway] value Hv Hp. destruct (negb _); [done |]. cbn [fst] in *. case_decide; [done |].
  apply Forall_app. split; [done |]. by repeat constructor; apply Hv.
Qed.

Lemma applyLocalAddresses_ok o c : fieldsOk c → fieldsOk (applyLocalAddresses o c).
Proof.
  intros H. unfold applyLocalAddresses. pose proof (pushedLocalAddressPrefixes_ok o true) as H4. pose proof (pushedLocalAddressPrefixes_ok o false) as H6.
  destruct (pushedLocalAddressPrefixes (localAddressByFamily o true)) as [l4 g4], (pushedLocalAddressPrefixes (localAddressByFamily o false)) as [l6 g6].
  cbn [fst] in *. destruct H. destruct (hasAny _), (hasAny _); by split.
Qed.

Lemma appendUniqueAddresses_ok destination values :
  Forall (λ a, Addr_IsValid a = true) destination → Forall (λ a, Addr_IsValid a = true) (appendUniqueAddresses destination values).
Proof.
  intros H. apply (foldl_inv (Forall (λ a, Addr_IsValid a = true))); [done |]. intros l a Hl.
  destruct (Addr_IsValid a) eqn:E; cbn [negb]; [| done]. case_decide; [done |]. apply Forall_app. split; [done |]. by repeat constructor.
Qed.

Lemma applyDNS_ok o domains configured c : fieldsOk c → fieldsOk (applyDNS o domains configured c).2.
Proof.
  intros H. unfold applyDNS. cbv zeta. cbn [snd]. do 3 (apply when_inv; [| intros ? []; by split]).
  set (c' := when (po_modernDNS o && negb configured) _ c).
  assert (Hc' : fieldsOk c'). { apply when_inv; [done |]. clear. intros c [? ? ? ? ? ? ? ?]. by split. }
  destruct Hc'. destruct (po_modernDNS o && negb configured || configured); split; try done; cbn;
    by first [apply appendUniqueAddresses_ok | apply mergeTunnelDNSServers_sorted].
Qed.

Lemma applyRoutes_ok o c : fieldsOk c → fieldsOk (applyRoutes o c).
Proof.
  intros H. unfold applyRoutes. cbv zeta. do 2 (apply when_inv; [| intros ? []; by split]).
  apply (foldl_inv fieldsOk).
  { destruct H. split; try done; cbn; by apply appendUniqueTunnelRoutes_ok; [| apply pushedTunnelRoutes_ok]. }
  intros c0 route [? ? ? ? ? ? ? ?].
  assert (Hm : Forall (λ value, prefix_IsValid (tr_Prefix value) = true → routeOk (Is4 (prefix_Addr (tr_Prefix (pex_Route route)))) (masked value)) [pex_Route route])
    by (constructor; [apply masked_ok | constructor]).
  destruct (Is4 (prefix_Addr (tr_Prefix (pex_Route route)))); split; try done; cbn; by apply appendUniqueTunnelRoutes_Forall.
Qed.

Lemma fillGateways_ok c : fieldsOk c → configurationOk (fillGateways c).
Proof.
  intros H. split; [| split].
  - destruct H. split; try done; cbn; by apply fillTunnelRouteGateways_ok.
  - unfold fillGateways. cbn. intros Hg. destruct (Is4 (tc_RouteGateway c)) eqn:E.
    + apply (fillTunnelRouteGateways_filled true); [by destruct (tc_RouteGateway c) | done | apply H].
    + destruct Hg as [? | Hg]; [done |]. apply (fillTunnelRouteGateways_filled true); [by destruct (tc_VPNGateway c) | done | apply H].
  - unfold fillGateways. cbn. intros Hg. apply (fillTunnelRouteGateways_filled false); [by destruct (tc_VPNGatewayIPv6 c) .. | apply H].
Qed.

Lemma applyOptions_ok routeNoPull o domains configured c :
  fieldsOk c → configurationOk (applyOptions routeNoPull o domains configured c).2.
Proof.
  intros H. unfold applyOptions. cbv zeta.
  set (c1 := applyLocalAddresses o _). assert (H1 : fieldsOk c1).
  { apply applyLocalAddresses_ok. apply when_inv; [| intros ? []; by split]. by eapply fieldsOk_frame; [apply resetPingTimeout_fields |]. }
  pose proof (applyTunMTU_fields o c1) as F2. destruct (applyTunMTU o c1) as [mtuErrors c2]. cbn [snd] in F2.
  assert (H2 : fieldsOk c2) by (by eapply fieldsOk_frame).
  assert (H3 : fieldsOk (if routeNoPull then (configured, c2) else applyDNS o domains configured c2).2)
    by (destruct routeNoPull; [done | by apply applyDNS_ok]).
  destruct (if routeNoPull then _ else _) as [configured' c3]. cbn [snd] in H3.
  pose proof (applyRouteGateway_fields o (applySession o c3)) as F4. destruct (applyRouteGateway o _) as [gatewayErrors c4]. cbn [snd] in *.
  apply fillGateways_ok. assert (H4 : fieldsOk c4) by (eapply fieldsOk_frame; [by rewrite F4, applySession_fields | done]).
  destruct routeNoPull; [done | by apply applyRoutes_ok].
Qed.

Lemma buildInitial_ok options : configurationOk (buildInitialTunnelConfiguration options).
Proof.
  unfold buildInitialTunnelConfiguration. cbv zeta.
  pose proof (splitTunnelRoutes_ok (ctn_Routes (co_Tunnel options)) (ctn_RouteGateway (co_Tunnel options)) (ctn_VPNGateway (co_Tunnel options))
    (ctn_VPNGatewayIPv6 (co_Tunnel options)) (ctn_RouteMetric (co_Tunnel options))) as Hr.
  destruct (splitTunnelRoutes _ _ _ _ _) as [r4 r6]. destruct Hr as (H4 & H6 & G4 & G6).
  destruct (splitLocalAddressPrefixes (ctn_LocalAddress (co_Tunnel options))) as [l4 l6] eqn:El. injection El as <- <-.
  split; [split; cbn; try done | done].
  - apply Forall_forall. intros p [Hp H]%list_elem_of_In%filter_In. by apply filter_In in Hp as [_ Hp].
  - apply Forall_forall. intros p [Hp H]%list_elem_of_In%filter_In. apply filter_In in Hp as [_ Hp]. split; [done |].
    apply andb_prop in H as [H _]. by apply negb_true_iff.
  - apply Forall_forall. by intros a [_ Ha]%list_elem_of_In%filter_In.
  - constructor.
Qed.

(** ** The client and its dispatcher

    The locked sections of the client's methods, the signals that follow them
    and the dispatcher's goroutine interleave in any order. *)

Inductive tunnelOp :=
| opApply (options : pushedOptions) (random : Z)
| opReset (protocol : string) (random : Z)
| opDefer (deferred : bool)
| opEmit (reason : string)
| opClearAuthToken (stagedUsername : string)
| opStop.

(** Whether a signal is due after the section, and the client. *)
Definition runTunnelOp (op : tunnelOp) (c : Client) : bool * Client :=
  match op with
  | opApply options random => let '(_, _, eventQueued, c) := applyPushedOptions c options random in (eventQueued, c)
  | opReset protocol random => (false, resetSessionConfiguration c protocol random)
  | opDefer deferred => (false, setInitialTunnelEventDeferred c deferred)
  | opEmit reason => emitTunnelConfigurationEvent c reason
  | opClearAuthToken stagedUsername => (false, (clearAuthToken c stagedUsername).2)
  | opStop => stopTunnelConfigurationDispatcher c
  end.

Definition eventsOf (c : Client) : list TunnelConfigurationEvent := di_events (ts_dispatcher (cl_tunnel c)).
Definition stopped (c : Client) : bool := di_stopped (ts_dispatcher (cl_tunnel c)).
Definition wake (c : Client) : bool := di_wake (ts_dispatcher (cl_tunnel c)).

(** The client, where the goroutine is, the signals that are due, and two
    histories: the events that were queued and those the program was called with. *)
Record tunnelSystem := mkSystem {
  sy_client : Client;
  sy_place : dispatcherAt;
  sy_signals : nat;
  sy_queued : list TunnelConfigurationEvent;
  sy_called : list TunnelConfigurationEvent;
}.

Definition calledWith (place : dispatcherAt) : list TunnelConfigurationEvent :=
  match place with atCallback event => [event] | _ => [] end.

Inductive tunnelStep : tunnelSystem → tunnelSystem → Prop :=
| stepOp op c place signals queued called due c' :
    runTunnelOp op c = (due, c') →
    tunnelStep (mkSystem c place signals queued called)
      (mkSystem c' place (if due : bool then S signals else signals) (queued ++ drop (length (eventsOf c)) (eventsOf c')) called)
| stepSignal c place signals queued called :
    tunnelStep (mkSystem c place (S signals) queued called) (mkSystem (signalTunnelConfigurationEvent c) place signals queued called)
| stepStart c place signals queued called :
    tunnelStep (mkSystem c place signals queued called) (mkSystem (startTunnelConfigurationDispatcher c).2 place signals queued called)
| stepDispatch c place signals queued called place' c' :
    di_started (ts_dispatcher (cl_tunnel c)) = true → runTunnelConfigurationDispatcher place c = Some (place', c') →
    tunnelStep (mkSystem c place signals queued called) (mkSystem c' place' signals queued (called ++ calledWith place')).

(** The client [NewClient] makes. *)
Definition newTunnelSystem (options : ClientOptions) (callback : bool) (compression : compressionSettings)
    (policy : allowCompressionPolicy) (framing : option dataChannelFraming) : tunnelSystem :=
  mkSystem
    (mkClient options callback compression policy framing
       (mkTunnel (buildInitialTunnelConfiguration options) EmptyString EmptyString false false [] false EmptyString EmptyString
          (mkDispatcher [] false false false)))
    atLoop 0 [] [].

Definition configuration (c : Client) : TunnelConfiguration := ts_configuration (cl_tunnel c).

(** What [enqueueTunnelConfigurationEventLocked] does. *)
Definition enqueued (event : TunnelConfigurationEvent) (due : bool) (c c' : Client) : Prop :=
  (due = false ∧ ts_dispatcher (cl_tunnel c') = ts_dispatcher (cl_tunnel c)) ∨
  (due = true ∧ stopped c = false ∧
   ts_dispatcher (cl_tunnel c') = (ts_dispatcher (cl_tunnel c)) <| di_events := eventsOf c ++ [event] |>).

Lemma enqueue_spec c event :
  let '(due, c') := enqueueTunnelConfigurationEventLocked c event in
  cl_options c' = cl_options c ∧ configuration c' = configuration c ∧ enqueued event due c c'.
Proof.
  unfold enqueueTunnelConfigurationEventLocked. destruct (negb _ || _) eqn:E; split_and!; try done; [by left |].
  right. apply orb_false_iff in E as [_ E]. done.
Qed.

Lemma reconfigure_frame c o random :
  let c' := maybeReconfigureDataFramingFromPushedOptions c o random in
  cl_options c' = cl_options c ∧ configuration c' = configuration c ∧ ts_dispatcher (cl_tunnel c') = ts_dispatcher (cl_tunnel c).
Proof.
  cbv zeta. unfold maybeReconfigureDataFramingFromPushedOptions. destruct (negb _); [done |].
  destruct (applyDirectives _ _ _) as [parts [settings |]]; [| done]. destruct (_ && _); [done |]. by case_decide.
Qed.

Lemma applyPushedOptions_spec c o random :
  let '(_, _, due, c') := applyPushedOptions c o random in
  let routeNoPull := cpo_RouteNoPull (co_Pull (cl_options c)) in
  cl_options c' = cl_options c ∧
  configuration c' = (applyOptions routeNoPull o (appendUniqueStringValues (ts_modernSearchDomains (cl_tunnel c)) (po_modernSearchDomains o))
                        (ts_modernDNSConfigured (cl_tunnel c)) (configuration c)).2 ∧
  ∃ reason, enqueued (mkEvent reason (configuration c')) due c c'.
Proof.
  unfold applyPushedOptions. cbv zeta. rewrite cloneTunnelConfiguration_id. fold (configuration c).
  destruct (applyOptions _ _ _ _ _) as [[parseErrors configured] updated].
  set (t1 := when (nonEmpty (po_AuthTokenUser o)) _ _).
  assert (Ht1 : ts_dispatcher t1 = ts_dispatcher (cl_tunnel c)) by (unfold t1; by rewrite !(when_frame ts_dispatcher)).
  set (c1 := c <| cl_tunnel := t1 <| ts_configuration := updated |> |>).
  assert (H1 : cl_options c1 = cl_options c ∧ configuration c1 = updated ∧ ts_dispatcher (cl_tunnel c1) = ts_dispatcher (cl_tunnel c)) by done.
  clearbody c1. set (c2 := if negb (ts_pulledOptionsReceived (cl_tunnel c)) then _ else _).
  assert (H2 : cl_options c2 = cl_options c ∧ configuration c2 = updated ∧ ts_dispatcher (cl_tunnel c2) = ts_dispatcher (cl_tunnel c)).
  { unfold c2. destruct (negb _); [| done]. destruct (reconfigure_frame c1 o random) as (-> & -> & ->). done. }
  clearbody c2. destruct H2 as (O2 & C2 & D2). cbn [snd]. rewrite cloneTunnelConfiguration_id. fold (configuration c2).
  destruct (negb _ && _).
  - split_and!; [done | done |]. exists EmptyString. left. done.
  - pose proof (enqueue_spec c2 (mkEvent (eventReasonOf (negb (ts_pulledOptionsReceived (cl_tunnel c))) (po_kind o)) (configuration c2))) as He.
    destruct (enqueueTunnelConfigurationEventLocked _ _) as [due c3]. destruct He as (O3 & C3 & E3).
    split_and!; [congruence | congruence |]. eexists. rewrite C3. unfold enqueued, stopped, eventsOf in *. rewrite D2 in E3. exact E3.
Qed.

(** Every section but stopping queues at most one event, of the configuration it leaves. *)
Lemma runTunnelOp_spec op c due c' :
  runTunnelOp op c = (due, c') →
  cl_options c' = cl_options c ∧
  ((∃ reason, enqueued (mkEvent reason (configuration c')) due c c') ∨
   (due = true ∧ ts_dispatcher (cl_tunnel c') = (ts_dispatcher (cl_tunnel c)) <| di_stopped := true |> <| di_events := [] |>)).
Proof.
  destruct op as [o random | protocol random | deferred | reason | staged |]; cbn [runTunnelOp].
  - pose proof (applyPushedOptions_spec c o random) as H. destruct (applyPushedOptions c o random) as [[[r e] d] c1].
    intros [= <- <-]. destruct H as (H1 & _ & H2). eauto.
  - intros [= <- <-]. split; [done |]. left. exists EmptyString. by left.
  - intros [= <- <-]. split; [done |]. left. exists EmptyString. by left.
  - unfold emitTunnelConfigurationEvent. rewrite cloneTunnelConfiguration_id. fold (configuration c).
    destruct (negb _). { intros [= <- <-]. split; [done |]. left. exists EmptyString. by left. }
    pose proof (enqueue_spec c (mkEvent reason (configuration c))) as H. destruct (enqueueTunnelConfigurationEventLocked _ _) as [d c1].
    intros [= <- <-]. destruct H as (H1 & H2 & H3). split; [done |]. left. exists reason. by rewrite H2.
  - intros [= <- <-]. split; [done |]. left. exists EmptyString. by left.
  - intros [= <- <-]. split; [done |]. by right.
Qed.

(** What the steps do to the parts the invariants are about. *)
Lemma dispatch_spec place c place' c' :
  runTunnelConfigurationDispatcher place c = Some (place', c') →
  cl_options c' = cl_options c ∧ configuration c' = configuration c ∧ stopped c' = stopped c ∧
  match place with
  | atLoop => if stopped c then place' = atReturn ∧ eventsOf c' = []
              else eventsOf c = calledWith place' ++ eventsOf c' ∧ (place' = atWait → eventsOf c' = []) ∧ wake c' = wake c
  | atWait => place' = atLoop ∧ wake c = true ∧ eventsOf c' = eventsOf c
  | atCallback _ => place' = atLoop ∧ c' = c
  | atReturn => False
  end.
Proof.
  unfold runTunnelConfigurationDispatcher. fold (stopped c) (eventsOf c) (wake c). destruct place as [| | event |].
  - destruct (stopped c) eqn:E; [intros [= <- <-]; done |]. destruct (eventsOf c) as [| event events] eqn:Ee; intros [= <- <-]; split_and!; done.
  - destruct (wake c) eqn:E; [| done]. by intros [= <- <-].
  - by intros [= <- <-].
  - done.
Qed.

Lemma start_spec c :
  let c' := (startTunnelConfigurationDispatcher c).2 in
  cl_options c' = cl_options c ∧ configuration c' = configuration c ∧ stopped c' = stopped c ∧ eventsOf c' = eventsOf c ∧ wake c' = wake c.
Proof. cbv zeta. unfold startTunnelConfigurationDispatcher. destruct (negb _); [done |]. by destruct (_ || _). Qed.

(** ** The program is told of every change, in order *)

Definition dispatcherOk (s : tunnelSystem) : Prop :=
  (if stopped (sy_client s) then sy_called s `prefix_of` sy_queued s ∧ eventsOf (sy_client s) = []
   else sy_queued s = sy_called s ++ eventsOf (sy_client s)) ∧
  (sy_place s = atWait → eventsOf (sy_client s) ≠ [] ∨ stopped (sy_client s) = true → wake (sy_client s) = true ∨ (0 < sy_signals s)%nat).

Lemma dispatcherOk_op op c place signals queued called due c' :
  runTunnelOp op c = (due, c') → dispatcherOk (mkSystem c place signals queued called) →
  dispatcherOk (mkSystem c' place (if due then S signals else signals) (queued ++ drop (length (eventsOf c)) (eventsOf c')) called).
Proof.
  intros H [Hq Hw]. apply runTunnelOp_spec in H as [_ [[reason [[-> Hd] | (-> & Hs & Hd)]] | [-> Hd]]]; unfold dispatcherOk; cbn in *.
  - assert (eventsOf c' = eventsOf c ∧ stopped c' = stopped c ∧ wake c' = wake c) as (-> & -> & ->)
      by (unfold eventsOf, stopped, wake; by rewrite Hd).
    by rewrite drop_all, app_nil_r.
  - assert (eventsOf c' = eventsOf c ++ [mkEvent reason (configuration c')] ∧ stopped c' = stopped c) as [-> ->]
      by (unfold eventsOf, stopped; by rewrite Hd).
    rewrite Hs in *. rewrite drop_app_length. subst queued. split; [by rewrite app_assoc | intros; right; lia].
  - assert (eventsOf c' = [] ∧ stopped c' = true) as [-> ->] by (unfold eventsOf, stopped; by rewrite Hd).
    rewrite drop_nil, app_nil_r. split; [| intros; right; lia]. split; [| done].
    destruct (stopped c); [apply Hq |]. subst. by eexists.
Qed.

Lemma dispatcherOk_step s s' : tunnelStep s s' → dispatcherOk s → dispatcherOk s'.
Proof.
  destruct 1 as [op c place signals queued called due c' H | c place signals queued called | c place signals queued called
               | c place signals queued called place' c' _ H]; intros Hok.
  - by eapply dispatcherOk_op.
  - destruct Hok as [Hq Hw]. split; [exact Hq | by left].
  - destruct (start_spec c) as (_ & _ & Hs & He & Hw). unfold dispatcherOk in *. cbn in *. rewrite Hs, He, Hw. done.
  - apply dispatch_spec in H as (_ & _ & Hs & H). destruct Hok as [Hq Hw]. unfold dispatcherOk. cbn in *. rewrite Hs.
    destruct place as [| | event |]; [| | | done].
    + destruct (stopped c).
      * destruct H as [-> ->]. destruct Hq as [Hq _]. cbn. by rewrite app_nil_r.
      * destruct H as (He & Hnil & Hwake). rewrite Hq, He, app_assoc. split; [done |]. intros Hp [Hne | ?]; [| done]. by destruct Hne; apply Hnil.
    + destruct H as (-> & _ & ->). cbn. by rewrite app_nil_r.
    + destruct H as [-> ->]. cbn. by rewrite app_nil_r.
Qed.

Lemma tunnel_invariant (P : tunnelSystem → Prop) s0 s :
  P s0 → (∀ s s', tunnelStep s s' → P s → P s') → rtc tunnelStep s0 s → P s.
Proof. intros H0 Hstep H. revert H0. induction H as [| s1 s2 s3 H12 _ IH]; [done |]. intros H1. apply IH. by eapply Hstep. Qed.

Lemma dispatcherOk_reachable options callback compression policy framing s :
  rtc tunnelStep (newTunnelSystem options callback compression policy framing) s → dispatcherOk s.
Proof. apply tunnel_invariant; [done | apply dispatcherOk_step]. Qed.

(** C29: however pushes, restarts, signals and the dispatcher interleave, the
    program is called with the queued events in their order, and until the client
    closes none is dropped: what it was not called with yet is in the queue.  The
    dispatcher never sleeps through an event or through the end: when it waits
    while there is work, a token is there or its signal is on the way. *)
Theorem events_delivered_in_order options callback compression policy framing s :
  rtc tunnelStep (newTunnelSystem options callback compression policy framing) s →
  sy_called s `prefix_of` sy_queued s ∧
  (stopped (sy_client s) = false → sy_queued s = sy_called s ++ eventsOf (sy_client s)) ∧
  (sy_place s = atWait → eventsOf (sy_client s) ≠ [] ∨ stopped (sy_client s) = true →
   wake (sy_client s) = true ∨ (0 < sy_signals s)%nat).
Proof.
  intros Hok%dispatcherOk_reachable.
  destruct Hok as [Hq Hw]. destruct (stopped (sy_client s)) eqn:E; split_and!; try done; [apply Hq |]. rewrite Hq. by eexists.
Qed.

(** ** Configurations stay well formed *)

Lemma resetSessionConfiguration_ok c protocol random : configurationOk (configuration (resetSessionConfiguration c protocol random)).
Proof.
  pose proof (buildInitial_ok (cl_options c)) as [[] []]. unfold resetSessionConfiguration, configuration. cbv zeta.
  destruct (_ && _); split; by split.
Qed.

Lemma runTunnelOp_ok op c : configurationOk (configuration c) → configurationOk (configuration (runTunnelOp op c).2).
Proof.
  intros H. destruct op as [o random | protocol random | deferred | reason | staged |]; cbn [runTunnelOp].
  - pose proof (applyPushedOptions_spec c o random) as Hs. destruct (applyPushedOptions c o random) as [[[r e] d] c1].
    destruct Hs as (_ & Hs & _). cbn [snd]. rewrite Hs. apply applyOptions_ok, H.
  - apply resetSessionConfiguration_ok.
  - done.
  - unfold emitTunnelConfigurationEvent. destruct (negb _); [done |].
    pose proof (enqueue_spec c (mkEvent reason (cloneTunnelConfiguration (ts_configuration (cl_tunnel c))))) as Hs.
    destruct (enqueueTunnelConfigurationEventLocked _ _) as [d c1]. destruct Hs as (_ & Hs & _). cbn [snd]. by rewrite Hs.
  - destruct H as [[] []]. split; by split.
  - done.
Qed.

Definition systemOk (s : tunnelSystem) : Prop :=
  configurationOk (configuration (sy_client s)) ∧ Forall (λ event, configurationOk (ev_Configuration event)) (sy_queued s).

Lemma systemOk_step s s' : tunnelStep s s' → systemOk s → systemOk s'.
Proof.
  destruct 1 as [op c place signals queued called due c' H | c place signals queued called | c place signals queued called
               | c place signals queued called place' c' _ H]; intros [Hc Hq]; cbn in *.
  - pose proof (runTunnelOp_ok op c Hc) as Hc'. rewrite H in Hc'. split; [done |]. cbn. apply Forall_app. split; [done |].
    apply runTunnelOp_spec in H as [_ [[reason [[-> Hd] | (-> & Hs & Hd)]] | [-> Hd]]]; unfold eventsOf at 2; rewrite Hd.
    + by rewrite drop_all.
    + cbn. rewrite drop_app_length. by constructor; [| constructor].
    + cbn. by rewrite drop_nil.
  - done.
  - destruct (start_spec c) as (_ & E & _). split; cbn; [by rewrite E | done].
  - apply dispatch_spec in H as (_ & E & _). split; cbn; [by rewrite E | done].
Qed.

(** C28: whatever a server pushes and however often, the configuration of a client
    and every configuration its program is told of are well formed: addresses and
    routes are in the lists of their family, routes are valid and without host
    bits, DNS addresses are valid, DNS servers are sorted by distinct priorities,
    and no route lacks a gateway when there is one for its family. *)
Theorem configurations_well_formed options callback compression policy framing s :
  rtc tunnelStep (newTunnelSystem options callback compression policy framing) s →
  configurationOk (configuration (sy_client s)) ∧ Forall (λ event, configurationOk (ev_Configuration event)) (sy_called s).
Proof.
  intros H. pose proof (dispatcherOk_reachable _ _ _ _ _ _ H) as [Hd _].
  apply (tunnel_invariant systemOk) in H as [Hc Hq]; [| split; [apply buildInitial_ok | constructor] | apply systemOk_step].
  split; [done |]. assert (sy_called s `prefix_of` sy_queued s) as [rest E].
  { destruct (stopped (sy_client s)); [apply Hd |]. rewrite Hd. by eexists. }
  rewrite E in Hq. by apply Forall_app in Hq as [? _].
Qed.

(** ** [route-nopull] *)

Definition routeKey (route : TunnelRoute) : prefix * Z := (tr_Prefix route, tr_Metric route).

(** What a server may not decide when the client does not pull routes. *)
Definition routing (c : TunnelConfiguration) :=
  (routeKey <$> tc_IPv4Routes c, routeKey <$> tc_IPv6Routes c, tc_ExcludedIPv4Routes c, tc_ExcludedIPv6Routes c,
   (tc_RedirectGateway c, tc_RedirectGatewayFlags c, tc_RedirectPrivate c, tc_RouteMetric c),
   (tc_DNS c, tc_DNSServers c, tc_DHCPOptions c, tc_SearchDomains c, tc_DNSRoutes c, tc_BlockIPv6 c, tc_BlockOutsideDNS c)).

Lemma fillTunnelRouteGateways_keys routes gateway : routeKey <$> fillTunnelRouteGateways routes gateway = routeKey <$> routes.
Proof.
  unfold fillTunnelRouteGateways. destruct (negb _); [done |]. rewrite <- list_fmap_compose. apply list_fmap_ext.
  intros _ route _. unfold compose, fillRouteGateway. by destruct (_ && _).
Qed.

Lemma fillGateways_routing c : routing (fillGateways c) = routing c.
Proof. unfold routing, fillGateways. cbn. by rewrite !fillTunnelRouteGateways_keys. Qed.

Lemma resetPingTimeout_routing o c : routing (resetPingTimeout o c) = routing c.
Proof. unfold resetPingTimeout. by destruct (eqb _ _), (po_PingRestartEnabled o). Qed.

Lemma applyLocalAddresses_routing o c : routing (applyLocalAddresses o c) = routing c.
Proof.
  unfold applyLocalAddresses. destruct (pushedLocalAddressPrefixes (localAddressByFamily o true)), (pushedLocalAddressPrefixes (localAddressByFamily o false)).
  by destruct (hasAny _), (hasAny _).
Qed.

Lemma applyTunMTU_routing o c : routing (applyTunMTU o c).2 = routing c.
Proof. unfold applyTunMTU. destruct (_ <=? 0); [done |]. by destruct (_ <? _). Qed.

Lemma applySession_routing o c : routing (applySession o c) = routing c.
Proof. unfold applySession. cbv zeta. repeat (rewrite (when_frame routing); [| intros; reflexivity]). done. Qed.

Lemma applyRouteGateway_routing o c : routing (applyRouteGateway o c).2 = routing c.
Proof. unfold applyRouteGateway. destruct (negb _); [done |]. by destruct (Addr_IsValid _). Qed.

Lemma applyOptions_routing o domains configured c : routing (applyOptions true o domains configured c).2 = routing c.
Proof.
  unfold applyOptions. cbv zeta iota. set (c1 := applyLocalAddresses o _).
  assert (H1 : routing c1 = routing c).
  { subst c1. rewrite applyLocalAddresses_routing, (when_frame routing) by done. apply resetPingTimeout_routing. }
  pose proof (applyTunMTU_routing o c1) as H2. destruct (applyTunMTU o c1) as [e2 c2]. cbn [snd] in H2.
  pose proof (applyRouteGateway_routing o (applySession o c2)) as H3. destruct (applyRouteGateway o _) as [e3 c3]. cbn [snd] in *.
  by rewrite fillGateways_routing, H3, applySession_routing, H2.
Qed.

Definition routingKept (options : ClientOptions) (s : tunnelSystem) : Prop :=
  cl_options (sy_client s) = options ∧ routing (configuration (sy_client s)) = routing (buildInitialTunnelConfiguration options).

Lemma routingKept_op options op c :
  cpo_RouteNoPull (co_Pull options) = true → cl_options c = options →
  routing (configuration c) = routing (buildInitialTunnelConfiguration options) →
  routing (configuration (runTunnelOp op c).2) = routing (buildInitialTunnelConfiguration options).
Proof.
  intros Hno Ho Hr. destruct op as [o random | protocol random | deferred | reason | staged |]; cbn [runTunnelOp]; try done.
  - pose proof (applyPushedOptions_spec c o random) as Hs. destruct (applyPushedOptions c o random) as [[[r e] d] c1].
    destruct Hs as (_ & Hs & _). cbn [snd]. rewrite Hs, Ho, Hno, applyOptions_routing. done.
  - unfold resetSessionConfiguration, configuration. cbv zeta. rewrite Ho. by destruct (_ && _).
  - unfold emitTunnelConfigurationEvent. destruct (negb _); [done |].
    pose proof (enqueue_spec c (mkEvent reason (cloneTunnelConfiguration (ts_configuration (cl_tunnel c))))) as Hs.
    destruct (enqueueTunnelConfigurationEventLocked _ _) as [d c1]. destruct Hs as (_ & Hs & _). cbn [snd]. by rewrite Hs.
Qed.

Lemma routingKept_step options s s' :
  cpo_RouteNoPull (co_Pull options) = true → tunnelStep s s' → routingKept options s → routingKept options s'.
Proof.
  intros Hno. destruct 1 as [op c place signals queued called due c' H | c place signals queued called | c place signals queued called
               | c place signals queued called place' c' _ H]; intros [Ho Hr]; cbn in *.
  - pose proof (routingKept_op options op c Hno Ho Hr) as Hr'. rewrite H in Hr'. apply runTunnelOp_spec in H as [E _]. by split; [cbn; rewrite E |].
  - done.
  - destruct (start_spec c) as (E1 & E2 & _). split; cbn; congruence.
  - apply dispatch_spec in H as (E1 & E2 & _). split; cbn; congruence.
Qed.

(** With [route-nopull] no server changes what the client routes: whatever is
    pushed, the routes and their metrics, the redirection, and the DNS settings
    remain those the client was configured with. *)
Theorem route_nopull_keeps_routing options callback compression policy framing s :
  cpo_RouteNoPull (co_Pull options) = true →
  rtc tunnelStep (newTunnelSystem options callback compression policy framing) s →
  routing (configuration (sy_client s)) = routing (buildInitialTunnelConfiguration options).
Proof.
  intros Hno H. apply (tunnel_invariant (routingKept options)) in H as [_ Hr]; [done | done |].
  intros s1 s2. by apply routingKept_step.
Qed.

(** ** Pushing the same routes again *)

Lemma appendUniqueTunnelRoutes_extends destination values :
  ∃ suffix, appendUniqueTunnelRoutes destination values = destination ++ suffix ∧
    ∀ value, value ∈ values → prefix_IsValid (tr_Prefix value) = true → masked value ∈ destination ++ suffix.
Proof.
  revert destination. induction values as [| value values IH]; intros destination.
  { exists []. rewrite app_nil_r. split; [done |]. intros value Hin. by apply not_elem_of_nil in Hin. }
  unfold appendUniqueTunnelRoutes. cbn [foldl]. fold (masked value). set (d := if negb _ then _ else _).
  assert (Hd : ∃ s, d = destination ++ s ∧ (prefix_IsValid (tr_Prefix value) = true → masked value ∈ destination ++ s)).
  { subst d. destruct (prefix_IsValid (tr_Prefix value)); cbn [negb].
    - case_decide; [exists []; rewrite app_nil_r; done |]. exists [masked value]. split; [done |]. intros _. apply elem_of_app. right. by left.
    - exists []. by rewrite app_nil_r. }
  clearbody d. destruct Hd as (s & -> & Hv). destruct (IH (destination ++ s)) as (suffix & E & Hall). exists (s ++ suffix).
  rewrite app_assoc. split; [exact E |]. intros x [-> | Hin]%elem_of_cons Hx; [| by apply Hall].
  apply elem_of_app. left. by apply Hv.
Qed.

(** The fields gateways and metrics are filled in from. *)
Definition fillers (c : TunnelConfiguration) : Addr * string * Addr * Z := (tc_VPNGateway c, tc_Topology c, tc_RouteGateway c, tc_RouteMetric c).

Definition pushFillers (o : pushedOptions) : Addr * string * Addr * Z → Addr * string * Addr * Z := λ '(vpn, topology, gateway, metric),
  let vpn := if hasAny (localAddressByFamily o true) then (pushedLocalAddressPrefixes (localAddressByFamily o true)).2 else vpn in
  let topology := if nonEmpty (po_Topology o) then po_Topology o else topology in
  let gateway :=
    if (Addr_IsValid (po_RouteGateway o) || po_RouteGatewayVPN o) && Addr_IsValid (routeGateway o vpn topology)
    then routeGateway o vpn topology else gateway in
  (vpn, topology, gateway, if po_RouteMetricSet o then po_RouteMetric o else metric).

Lemma pushFillers_idem o f : pushFillers o (pushFillers o f) = pushFillers o f.
Proof.
  destruct f as [[[vpn topology] gateway] metric]. unfold pushFillers. destruct (hasAny _), (nonEmpty _), (po_RouteMetricSet o);
  by destruct (_ && _).
Qed.

Definition fillersAndRoutes (c : TunnelConfiguration) := (fillers c, tc_IPv4Routes c).

Lemma applyLocalAddresses_fillers o c :
  fillersAndRoutes (applyLocalAddresses o c) =
    (if hasAny (localAddressByFamily o true) then (pushedLocalAddressPrefixes (localAddressByFamily o true)).2 else tc_VPNGateway c,
     tc_Topology c, tc_RouteGateway c, tc_RouteMetric c, tc_IPv4Routes c).
Proof.
  unfold applyLocalAddresses. destruct (pushedLocalAddressPrefixes (localAddressByFamily o true)), (pushedLocalAddressPrefixes (localAddressByFamily o false)).
  by destruct (hasAny (localAddressByFamily o true)), (hasAny _).
Qed.

Lemma applyDNS_fillers o domains configured c :
  fillersAndRoutes (applyDNS o domains configured c).2 =
    (tc_VPNGateway c, tc_Topology c, tc_RouteGateway c, if po_RouteMetricSet o then po_RouteMetric o else tc_RouteMetric c, tc_IPv4Routes c).
Proof.
  unfold applyDNS. cbv zeta.
  by destruct (po_modernDNS o), configured, (po_BlockIPv6 o), (po_BlockOutsideDNS o), (po_RouteMetricSet o).
Qed.

Lemma applyRoutes_fillers o c :
  fillersAndRoutes (applyRoutes o c) =
    (fillers c, appendUniqueTunnelRoutes (tc_IPv4Routes c) (pushedTunnelRoutes (routesByFamily o true) (tc_RouteMetric c))).
Proof.
  unfold applyRoutes. cbv zeta. rewrite !(when_frame fillersAndRoutes) by (intros; reflexivity).
  apply (foldl_inv (λ c', fillersAndRoutes c' = _)); [done |]. intros c' route H. by destruct (Is4 _).
Qed.

Lemma applyRouteGateway_fillers o c :
  fillersAndRoutes (applyRouteGateway o c).2 =
    (tc_VPNGateway c, tc_Topology c,
     if (Addr_IsValid (po_RouteGateway o) || po_RouteGatewayVPN o) && Addr_IsValid (routeGateway o (tc_VPNGateway c) (tc_Topology c))
     then routeGateway o (tc_VPNGateway c) (tc_Topology c) else tc_RouteGateway c,
     tc_RouteMetric c, tc_IPv4Routes c).
Proof. unfold applyRouteGateway. destruct (_ || _); cbn [negb andb]; [| done]. by destruct (Addr_IsValid (routeGateway _ _ _)). Qed.

(** What pulling routes does to the IPv4 routes and to what they are filled from. *)
Lemma applyOptions_routes o domains configured c :
  ∃ c', (applyOptions false o domains configured c).2 = fillGateways c' ∧ fillers c' = pushFillers o (fillers c) ∧
    tc_IPv4Routes c' = appendUniqueTunnelRoutes (tc_IPv4Routes c) (pushedTunnelRoutes (routesByFamily o true) (tc_RouteMetric c')).
Proof.
  unfold applyOptions. cbv zeta iota.
  set (c0 := when (nonEmpty (po_Topology o)) _ _).
  assert (H0 : fillersAndRoutes c0 = (tc_VPNGateway c, if nonEmpty (po_Topology o) then po_Topology o else tc_Topology c, tc_RouteGateway c, tc_RouteMetric c, tc_IPv4Routes c)).
  { subst c0. unfold when, resetPingTimeout. by destruct (nonEmpty _), (eqb _ _), (po_PingRestartEnabled o). }
  clearbody c0. pose proof (applyLocalAddresses_fillers o c0) as H1. set (c1 := applyLocalAddresses o c0) in *. clearbody c1.
  assert (H2 : fillersAndRoutes (applyTunMTU o c1).2 = fillersAndRoutes c1)
    by (unfold applyTunMTU; destruct (_ <=? 0); [done |]; by destruct (_ <? _)).
  destruct (applyTunMTU o c1) as [e2 c2]. cbn [snd] in H2.
  pose proof (applyDNS_fillers o domains configured c2) as H3. destruct (applyDNS o domains configured c2) as [m3 c3]. cbn [snd] in H3.
  assert (H4 : fillersAndRoutes (applySession o c3) = fillersAndRoutes c3)
    by (unfold applySession; cbv zeta; repeat (rewrite (when_frame fillersAndRoutes); [| intros; reflexivity]); done).
  set (c4 := applySession o c3) in *. clearbody c4.
  pose proof (applyRouteGateway_fillers o c4) as H5. destruct (applyRouteGateway o c4) as [e5 c5]. cbn [snd] in *.
  pose proof (applyRoutes_fillers o c5) as H6. exists (applyRoutes o c5). split; [done |].
  set (c6 := applyRoutes o c5) in *. clearbody c6.
  unfold fillersAndRoutes, fillers, pushFillers in *. injection H0 as ? ? ? ? ?. injection H1 as ? ? ? ? ?. injection H2 as ? ? ? ? ?.
  injection H3 as ? ? ? ? ?. injection H4 as ? ? ? ? ?. injection H5 as ? ? ? ? ?. injection H6 as ? ? ? ? ?.
  repeat match goal with E : ?f ?x = _ |- context [?f ?x] => rewrite E end. done.
Qed.

Definition ipv4Gateway (c : TunnelConfiguration) : Addr := if Is4 (tc_RouteGateway c) then tc_RouteGateway c else tc_VPNGateway c.

Lemma fillGateways_routes4 c :
  Is4 (tc_RouteGateway c) = true ∨ Is4 (tc_VPNGateway c) = true →
  tc_IPv4Routes (fillGateways c) = fillRouteGateway (ipv4Gateway c) <$> tc_IPv4Routes c.
Proof.
  intros H. cbn. unfold fillTunnelRouteGateways, ipv4Gateway.
  destruct (Is4 (tc_RouteGateway c)) eqn:E; [by destruct (tc_RouteGateway c) |]. destruct H as [? | H]; [done |]. by destruct (tc_VPNGateway c).
Qed.

Lemma fillRouteGateway_idem gateway route : fillRouteGateway gateway (fillRouteGateway gateway route) = fillRouteGateway gateway route.
Proof.
  unfold fillRouteGateway. destruct (negb (Addr_IsValid (tr_Gateway route)) && _) eqn:E; [| by rewrite E].
  set (r := route <| tr_Gateway := gateway |>). destruct (negb (Addr_IsValid (tr_Gateway r)) && _); reflexivity.
Qed.

Lemma applyOptions_repeat o d1 m1 d2 m2 c pushed :
  fieldsOk c → pushed ∈ routesByFamily o true → Addr_IsValid (tr_Gateway (pr_Route pushed)) = false →
  let c1 := (applyOptions false o d1 m1 c).2 in
  Is4 (tc_RouteGateway c1) = true ∨ Is4 (tc_VPNGateway c1) = true →
  ¬ NoDup (tc_IPv4Routes (applyOptions false o d2 m2 c1).2).
Proof.
  intros Hok Hin Hgw c1 Hg4. pose proof (applyOptions_ok false o d1 m1 c Hok) as [_ [Hfilled _]]. fold c1 in Hfilled. specialize (Hfilled Hg4).
  destruct (applyOptions_routes o d1 m1 c) as (p1 & E1 & F1 & R1). fold c1 in E1.
  destruct (applyOptions_routes o d2 m2 c1) as (p2 & E2 & F2 & R2).
  assert (F : fillers p2 = fillers p1).
  { assert (fillers c1 = fillers p1) as E by (by rewrite E1). by rewrite F2, E, F1, pushFillers_idem. }
  unfold fillers in F. injection F as Fv _ Fg Fm.
  assert (Hg1 : Is4 (tc_RouteGateway p1) = true ∨ Is4 (tc_VPNGateway p1) = true) by (by rewrite E1 in Hg4).
  set (n := normalizeRoute (tc_RouteMetric p1) (pr_Route pushed)).
  assert (Hn : n ∈ pushedTunnelRoutes (routesByFamily o true) (tc_RouteMetric p1)).
  { unfold pushedTunnelRoutes. apply list_elem_of_fmap_2, list_elem_of_In, filter_In. split; [by apply list_elem_of_In, list_elem_of_fmap_2 |].
    apply list_elem_of_In, filter_In in Hin as [_ Hin]. by apply andb_prop in Hin as [? _]. }
  pose proof (pushedTunnelRoutes_ok o true (tc_RouteMetric p1)) as Hpo. rewrite Forall_forall in Hpo. pose proof (Hpo n Hn) as Hnok. clear Hpo.
  destruct (appendUniqueTunnelRoutes_extends (tc_IPv4Routes c) (pushedTunnelRoutes (routesByFamily o true) (tc_RouteMetric p1))) as (s1 & A1 & B1).
  destruct (appendUniqueTunnelRoutes_extends (tc_IPv4Routes c1) (pushedTunnelRoutes (routesByFamily o true) (tc_RouteMetric p1))) as (s2 & A2 & B2).
  specialize (B1 n Hn (proj1 Hnok)). specialize (B2 n Hn (proj1 Hnok)). rewrite (masked_id true n Hnok) in B1, B2.
  rewrite <- A1, <- R1 in B1. rewrite Fm, A2 in R2.
  assert (Hc1 : fillRouteGateway (ipv4Gateway p1) n ∈ tc_IPv4Routes c1)
    by (rewrite E1, fillGateways_routes4 by done; by apply list_elem_of_fmap_2).
  assert (Hs2 : n ∈ s2).
  { apply elem_of_app in B2 as [B2 | ?]; [| done]. rewrite Forall_forall in Hfilled. specialize (Hfilled n B2). unfold hasGateway in Hfilled.
    assert (tr_Gateway n = tr_Gateway (pr_Route pushed)) as En by (unfold n, normalizeRoute; by destruct (_ =? 0)). congruence. }
  rewrite E2, fillGateways_routes4 by (by rewrite Fg, Fv). assert (ipv4Gateway p2 = ipv4Gateway p1) as -> by (unfold ipv4Gateway; by rewrite Fg, Fv).
  rewrite R2, fmap_app. intros (_ & Hnd & _)%NoDup_app. apply (Hnd (fillRouteGateway (ipv4Gateway p1) n)).
  - rewrite <- (fillRouteGateway_idem _ n). by apply list_elem_of_fmap_2.
  - by apply list_elem_of_fmap_2.
Qed.

(** A route that is pushed without a gateway is not recognised when it is pushed
    again, as when the server answers a push request twice: routes are compared
    before omitted gateways are filled in, so the second push adds the route a
    second time. *)
Theorem repeated_push_duplicates_routes client o random1 random2 pushed :
  let '(_, _, _, client1) := applyPushedOptions client o random1 in
  let '(_, _, _, client2) := applyPushedOptions client1 o random2 in
  cpo_RouteNoPull (co_Pull (cl_options client)) = false → configurationOk (configuration client) →
  pushed ∈ routesByFamily o true → Addr_IsValid (tr_Gateway (pr_Route pushed)) = false →
  Is4 (tc_RouteGateway (configuration client1)) = true ∨ Is4 (tc_VPNGateway (configuration client1)) = true →
  ¬ NoDup (tc_IPv4Routes (configuration client2)).
Proof.
  pose proof (applyPushedOptions_spec client o random1) as H1. destruct (applyPushedOptions client o random1) as [[[? ?] ?] client1].
  pose proof (applyPushedOptions_spec client1 o random2) as H2. destruct (applyPushedOptions client1 o random2) as [[[? ?] ?] client2].
  destruct H1 as (O1 & C1 & _), H2 as (O2 & C2 & _). intros Hp [Hok _] Hin Hgw. rewrite C2, O1, Hp, C1, Hp. by apply applyOptions_repeat with pushed.
Qed.

(** ** Witnesses *)

Definition pushOnce : pushedOptions :=
  (decodePushReplyOptionLines pushReplyPayloadPrefix
     ["topology subnet"; "ifconfig 10.8.0.2 255.255.255.0"; "route-gateway 10.8.0.1"; "route 10.1.0.0 255.255.0.0"]
     (Addr4 3221225985) []).1.

Definition exampleTunnel (options : ClientOptions) : tunnelSystem :=
  newTunnelSystem options true noCompression allowCompressionStubOnly None.

Definition exampleNoPull : ClientOptions :=
  mkClientOptions ModeTLS (co_Transport exampleClientOptions) (co_DataChannel exampleClientOptions) (co_TLS exampleClientOptions)
    (co_Authentication exampleClientOptions) (mkClientPull true [] true) (co_Tunnel exampleClientOptions)
    (co_Timing exampleClientOptions) (co_StaticKey exampleClientOptions) (co_KeyDirection exampleClientOptions).

Lemma repeated_push_duplicates_routes_witness :
  let client := sy_client (exampleTunnel exampleClientOptions) in
  let client1 := (applyPushedOptions client pushOnce 0).2 in
  ¬ NoDup (tc_IPv4Routes (configuration (applyPushedOptions client1 pushOnce 0).2)).
Proof.
  intros client client1.
  pose proof (repeated_push_duplicates_routes client pushOnce 0 0 (mkPushedRoute (mkTunnelRoute (mkPrefix (Addr4 167837696) 16) AddrInvalid 0) "10.1.0.0 255.255.0.0")) as H.
  destruct (applyPushedOptions client pushOnce 0) as [[[r1 e1] q1] c1] eqn:E1. change client1 with c1.
  destruct (applyPushedOptions c1 pushOnce 0) as [[[r2 e2] q2] c2] eqn:E2. apply H.
  - vm_compute. reflexivity.
  - apply buildInitial_ok.
  - match goal with |- ?x ∈ ?l => replace l with [x] by (vm_compute; reflexivity) end. by left.
  - reflexivity.
  - left. replace c1 with (applyPushedOptions client pushOnce 0).2 by (by rewrite E1). vm_compute. reflexivity.
Defined.

(** The steps as functions. *)
Definition doOp (op : tunnelOp) (s : tunnelSystem) : tunnelSystem :=
  let r := runTunnelOp op (sy_client s) in
  mkSystem r.2 (sy_place s) (if r.1 then S (sy_signals s) else sy_signals s)
    (sy_queued s ++ drop (length (eventsOf (sy_client s))) (eventsOf r.2)) (sy_called s).

Definition doStart (s : tunnelSystem) : tunnelSystem :=
  mkSystem (startTunnelConfigurationDispatcher (sy_client s)).2 (sy_place s) (sy_signals s) (sy_queued s) (sy_called s).

Definition doDispatch (s : tunnelSystem) : option tunnelSystem :=
  if di_started (ts_dispatcher (cl_tunnel (sy_client s))) then
    (λ '(place, c), mkSystem c place (sy_signals s) (sy_queued s) (sy_called s ++ calledWith place)) <$>
      runTunnelConfigurationDispatcher (sy_place s) (sy_client s)
  else None.

Lemma doOp_step op s : tunnelStep s (doOp op s).
Proof. destruct s. apply (stepOp op), surjective_pairing. Qed.

Lemma doStart_step s : tunnelStep s (doStart s).
Proof. destruct s. apply stepStart. Qed.

Lemma doDispatch_step s s' : doDispatch s = Some s' → tunnelStep s s'.
Proof.
  destruct s as [c place signals queued called]. unfold doDispatch. cbn. destruct (di_started _) eqn:E; [| done].
  intros ([place' c'] & Hr & ->)%fmap_Some. by apply stepDispatch.
Qed.

(** A push and the dispatcher that tells the program. *)
Lemma events_delivered_in_order_witness :
  ∃ s, rtc tunnelStep (exampleTunnel exampleClientOptions) s ∧ length (sy_called s) = 1%nat ∧ sy_called s `prefix_of` sy_queued s.
Proof.
  destruct (doDispatch (doStart (doOp (opApply pushOnce 0) (exampleTunnel exampleClientOptions)))) as [s |] eqn:E;
    [| exfalso; revert E; vm_compute; discriminate].
  assert (Hr : rtc tunnelStep (exampleTunnel exampleClientOptions) s).
  { eapply rtc_l; [apply (doOp_step (opApply pushOnce 0)) |]. eapply rtc_l; [apply doStart_step |]. apply rtc_once. by apply doDispatch_step. }
  exists s. split; [exact Hr |]. pose proof (events_delivered_in_order _ _ _ _ _ _ Hr) as (Hp & _ & _). split; [| exact Hp].
  assert (Hl : match doDispatch (doStart (doOp (opApply pushOnce 0) (exampleTunnel exampleClientOptions))) with
               | Some s => length (sy_called s) = 1%nat | None => False end) by (vm_compute; reflexivity).
  rewrite E in Hl. exact Hl.
Defined.

Lemma configurations_well_formed_witness :
  let s := doOp (opApply pushOnce 0) (exampleTunnel exampleClientOptions) in
  length (tc_IPv4Routes (configuration (sy_client s))) = 1%nat ∧ configurationOk (configuration (sy_client s)).
Proof.
  intros s. split; [vm_compute; reflexivity |].
  apply (configurations_well_formed exampleClientOptions true noCompression allowCompressionStubOnly None). apply rtc_once. apply doOp_step.
Defined.

Lemma route_nopull_keeps_routing_witness :
  let s := doOp (opApply pushOnce 0) (exampleTunnel exampleNoPull) in
  tc_RouteGateway (configuration (sy_client s)) = Addr4 168296449 ∧
  routing (configuration (sy_client s)) = routing (buildInitialTunnelConfiguration exampleNoPull).
Proof.
  intros s. split; [vm_compute; reflexivity |].
  apply (route_nopull_keeps_routing exampleNoPull true noCompression allowCompressionStubOnly None); [reflexivity |]. apply rtc_once, doOp_step.
Defined.
