(* ===== verification/Mss.v ===== *)
(** * TCP segment sizes ([mss_clamp.go], [mss_budget.go], and the payload budget of
      [client_data.go])

    The maximum segment size that connections through the tunnel announce is
    lowered to what fits a data packet: the option of the SYN segments is
    rewritten and the TCP checksum updated incrementally.  A packet is changed in
    place in the source; here the changed packet is returned. *)

From S2P Require Import Prelude GoStrings Netip Crypto Codec CodecLaws Fragment Compression Options.

Definition ipv4HeaderMinLength : Z := 20.
Definition ipv6HeaderLength : Z := 40.
Definition udpHeaderLength : Z := 8.
Definition tcpHeaderMinLength : nat := 20.
Definition tcpChecksumOffset : nat := 16.
Definition tcpOptionKindEnd : Z := 0.
Definition tcpOptionKindNOP : Z := 1.
Definition tcpOptionKindMSS : Z := 2.
Definition tcpMSSOptionLength : nat := 4.

Record mssClamp := mkClamp { mc_enabled : bool; mc_maximumSegmentSize : Z }.

(** [s[i]], and the sixteen bits at an offset, big endian. *)
Definition byteAt (s : bytes) (i : nat) : Z := b2z (default x00 (s !! i)).
Definition uint16At (s : bytes) (i : nat) : Z := byteAt s i * 256 + byteAt s (S i).
Definition putUint16At (s : bytes) (i : nat) (v : Z) : bytes := <[S i := z2b v]> (<[i := z2b (v / 256)]> s).

(** ** Checksums *)

(** [~v] of sixteen bits. *)
Definition not16 (v : Z) : Z := 65535 - v.

Definition reverseBytes16 (v : Z) : Z := (v mod 256) * 256 + v / 256.

(** The loop that folds a sum into sixteen bits. *)
Fixpoint fold16 (fuel : nat) (sum : Z) : Z :=
  match fuel with
  | O => sum
  | S fuel => if Z.shiftr sum 16 =? 0 then sum else fold16 fuel (Z.land sum 65535 + Z.shiftr sum 16)
  end.

Definition incrementallyUpdateChecksum16 (currentChecksum oldWord newWord : Z) : Z :=
  not16 (fold16 3 (not16 currentChecksum + not16 oldWord + newWord)).

Definition updateTCPChecksumForFieldRewrite (tcpSegment : bytes) (fieldOffset : nat) (previousValue updatedValue : Z) : bytes :=
  let '(previousValue, updatedValue) :=
    if Nat.even fieldOffset then (previousValue, updatedValue) else (reverseBytes16 previousValue, reverseBytes16 updatedValue) in
  let currentChecksum := uint16At tcpSegment tcpChecksumOffset in
  putUint16At tcpSegment tcpChecksumOffset (incrementallyUpdateChecksum16 currentChecksum previousValue updatedValue).

(** ** Clamping *)

(** The loop over the options of a SYN segment, from [optionOffset]. *)
Fixpoint clampLoop (fuel : nat) (tcpSegment : bytes) (dataOffset optionOffset : nat) (maxSegmentSize : Z) (clamped : bool) : bool * bytes :=
  match fuel with
  | O => (clamped, tcpSegment)
  | S fuel =>
      if (dataOffset <=? optionOffset)%nat then (clamped, tcpSegment) else
      let kind := byteAt tcpSegment optionOffset in
      if kind =? tcpOptionKindEnd then (clamped, tcpSegment) else
      if kind =? tcpOptionKindNOP then clampLoop fuel tcpSegment dataOffset (S optionOffset) maxSegmentSize clamped else
      if (dataOffset <=? S optionOffset)%nat then (clamped, tcpSegment) else
      let optionLength := Z.to_nat (byteAt tcpSegment (S optionOffset)) in
      if (optionLength <? 2)%nat || (dataOffset <? optionOffset + optionLength)%nat then (clamped, tcpSegment) else
      if negb (kind =? tcpOptionKindMSS) || negb (optionLength =? tcpMSSOptionLength)%nat
      then clampLoop fuel tcpSegment dataOffset (optionOffset + optionLength) maxSegmentSize clamped else
      let valueOffset := (optionOffset + 2)%nat in
      let advertisedMSS := uint16At tcpSegment valueOffset in
      if maxSegmentSize <? advertisedMSS then
        let tcpSegment := putUint16At tcpSegment valueOffset maxSegmentSize in
        let tcpSegment := updateTCPChecksumForFieldRewrite tcpSegment valueOffset advertisedMSS maxSegmentSize in
        clampLoop fuel tcpSegment dataOffset (optionOffset + optionLength) maxSegmentSize true
      else clampLoop fuel tcpSegment dataOffset (optionOffset + optionLength) maxSegmentSize clamped
  end.

Definition dataOffsetOf (tcpSegment : bytes) : nat := Z.to_nat (byteAt tcpSegment 12 / 16 * 4).

Definition clampTCPSYNSegmentMSS (tcpSegment : bytes) (maxSegmentSize : Z) : bool * bytes :=
  let dataOffset := dataOffsetOf tcpSegment in
  if (dataOffset <? tcpHeaderMinLength)%nat || (length tcpSegment <? dataOffset)%nat then (false, tcpSegment)
  else clampLoop dataOffset tcpSegment dataOffset tcpHeaderMinLength maxSegmentSize false.

(** Where the TCP segment of a packet begins, when it is a SYN segment that is
    not a fragment. *)
Definition locateTCPSYNSegment (packet : bytes) : option nat :=
  let segmentAt (ipHeaderLength : nat) :=
    let tcpSegment := drop ipHeaderLength packet in
    if (length tcpSegment <? tcpHeaderMinLength)%nat then None else
    if Z.land (byteAt tcpSegment 13) 2 =? 0 then None else Some ipHeaderLength in
  if (length packet <? 1)%nat then None else
  let version := byteAt packet 0 / 16 in
  if version =? 4 then
    if lenZ packet <? ipv4HeaderMinLength then None else
    if negb (uint16At packet 2 =? lenZ packet) || negb (Z.land (uint16At packet 6) 16383 =? 0) then None else
    let ihl := Z.land (byteAt packet 0) 15 * 4 in
    if (ihl <? ipv4HeaderMinLength) || (lenZ packet <? ihl) then None else
    if negb (byteAt packet 9 =? 6) then None else segmentAt (Z.to_nat ihl)
  else if version =? 6 then
    if lenZ packet <? ipv6HeaderLength then None else
    if negb (uint16At packet 4 + ipv6HeaderLength =? lenZ packet) then None else
    if negb (byteAt packet 6 =? 6) then None else segmentAt (Z.to_nat ipv6HeaderLength)
  else None.

(** Whether the packet was changed, and the packet. *)
Definition ApplyInPlace (c : mssClamp) (packet : bytes) : bool * bytes :=
  if negb (mc_enabled c) then (false, packet) else
  let effectiveMaxSegmentSize :=
    if (1 <=? length packet)%nat && (byteAt packet 0 / 16 =? 6) then u16 (mc_maximumSegmentSize c - (ipv6HeaderLength - ipv4HeaderMinLength))
    else mc_maximumSegmentSize c in
  match locateTCPSYNSegment packet with
  | None => (false, packet)
  | Some ipHeaderLength =>
      let '(clamped, tcpSegment) := clampTCPSYNSegmentMSS (drop ipHeaderLength packet) effectiveMaxSegmentSize in
      (clamped, take ipHeaderLength packet ++ tcpSegment)
  end.

(** [Apply] works on a copy. *)
Definition Apply (c : mssClamp) (packet : bytes) : bytes :=
  if negb (mc_enabled c) then packet else
  let '(clamped, clonedPacket) := ApplyInPlace c packet in
  if clamped : bool then clonedPacket else packet.

(** ** Budgets *)

(** The binary search for the largest payload that fits. *)
Fixpoint budgetLoop (fuel : nat) (encodedPacketLength : Z → Z) (packetSize minimumPayloadSize maximumPayloadSize : Z) : Z :=
  match fuel with
  | O => minimumPayloadSize
  | S fuel =>
      if maximumPayloadSize <=? minimumPayloadSize then minimumPayloadSize else
      let candidatePayloadSize := minimumPayloadSize + (maximumPayloadSize - minimumPayloadSize + 1) / 2 in
      if encodedPacketLength candidatePayloadSize <=? packetSize
      then budgetLoop fuel encodedPacketLength packetSize candidatePayloadSize maximumPayloadSize
      else budgetLoop fuel encodedPacketLength packetSize minimumPayloadSize (candidatePayloadSize - 1)
  end.

Definition calculateDataPayloadBudget {C} `{DataCodec C} (packetSize : Z) (codec : C) (packetHeaderSize fixedPayloadSize : Z) : Z :=
  let minimumPacketLength := packetHeaderSize + EncodedLength codec fixedPayloadSize in
  if packetSize <=? minimumPacketLength then packetSize - minimumPacketLength else
  budgetLoop (Z.to_nat packetSize) (λ size, packetHeaderSize + EncodedLength codec (fixedPayloadSize + size)) packetSize 1 packetSize.

Definition calculateMSSClamp {C} `{DataCodec C} (mssFix : Z) (mssFixMode : string) (dataFraming : option dataChannelFraming) (codec : C)
    (packetHeaderSize outerTransportOverhead : Z) : mssClamp :=
  if mssFix =? 0 then mkClamp false 0 else
  if decide (mssFixMode = MSSFixModeFixed) then mkClamp true (u16 (mssFix - ipv4HeaderMinLength - Z.of_nat tcpHeaderMinLength)) else
  let packetHeaderSize := if decide (mssFixMode = MSSFixModeMTU) then packetHeaderSize + outerTransportOverhead else packetHeaderSize in
  let payloadBudget := calculateDataPayloadBudget mssFix codec packetHeaderSize
    (ipv4HeaderMinLength + Z.of_nat tcpHeaderMinLength + payloadOverhead dataFraming) in
  mkClamp true (u16 payloadBudget).

(** [remoteIP] is the unmapped address of the peer. *)
Definition openVPNOuterTransportOverhead (protocol : string) (remoteIP : Addr) : Z :=
  let ipHeaderSize :=
    if Is6 remoteIP || (negb (Addr_IsValid remoteIP) && HasSuffix protocol "6") then ipv6HeaderLength else ipv4HeaderMinLength in
  if HasPrefix protocol "tcp" then ipHeaderSize + Z.of_nat tcpHeaderMinLength else ipHeaderSize + udpHeaderLength.

(** ** What clamping does *)

Lemma byteAt_range s i : 0 ≤ byteAt s i < 256.
Proof. apply b2z_range. Qed.

Lemma uint16At_range s i : 0 ≤ uint16At s i < 65536.
Proof. unfold uint16At. pose proof (byteAt_range s i). pose proof (byteAt_range s (S i)). lia. Qed.

Lemma length_putUint16At s i v : length (putUint16At s i v) = length s.
Proof. unfold putUint16At. by rewrite !length_insert. Qed.

Lemma byteAt_put_other s i v j : j ≠ i → j ≠ S i → byteAt (putUint16At s i v) j = byteAt s j.
Proof. intros H1 H2. unfold byteAt, putUint16At. by rewrite !list_lookup_insert_ne by congruence. Qed.

Lemma byteAt_put_0 s i v : (S i < length s)%nat → 0 ≤ v < 65536 → byteAt (putUint16At s i v) i = v / 256.
Proof.
  intros Hl Hv. unfold byteAt, putUint16At. rewrite list_lookup_insert_ne by lia. rewrite list_lookup_insert_eq by lia. cbn.
  rewrite b2z_z2b. apply Z.mod_small. split; [by apply Z.div_pos; lia | apply Z.div_lt_upper_bound; lia].
Qed.

Lemma byteAt_put_1 s i v : (S i < length s)%nat → byteAt (putUint16At s i v) (S i) = v mod 256.
Proof.
  intros Hl. unfold byteAt, putUint16At. rewrite list_lookup_insert_eq by (rewrite length_insert; lia). cbn. by rewrite b2z_z2b.
Qed.

Lemma uint16At_put s i v : (S i < length s)%nat → 0 ≤ v < 65536 → uint16At (putUint16At s i v) i = v.
Proof. intros Hl Hv. unfold uint16At. rewrite byteAt_put_0, byteAt_put_1 by done. pose proof (Z.div_mod v 256). lia. Qed.

Lemma uint16At_put_other s i v j : j ≠ i → j ≠ S i → S j ≠ i → uint16At (putUint16At s i v) j = uint16At s j.
Proof. intros H1 H2 H3. unfold uint16At. rewrite !byteAt_put_other by lia. done. Qed.

(** The sum of the sixteen bit words, as the checksum adds them; at an odd
    position the words begin with their second octet. *)
Fixpoint wordSum (even : bool) (s : bytes) : Z :=
  match s with
  | [] => 0
  | b :: s => (if even then 256 * b2z b else b2z b) + wordSum (negb even) s
  end.

Definition weight (even : bool) (i : nat) : Z := if eqb even (Nat.even i) then 256 else 1.

Lemma weight_S even i : weight (negb even) i = weight even (S i).
Proof. unfold weight. rewrite Nat.even_succ, <- Nat.negb_even. by destruct even, (Nat.even i). Qed.

Lemma wordSum_insert even s i b :
  (i < length s)%nat → wordSum even (<[i := b]> s) = wordSum even s + (b2z b - byteAt s i) * weight even i.
Proof.
  revert even i. induction s as [| a s IH]; intros even i Hi; cbn in Hi; [lia |]. destruct i as [| i].
  - change (byteAt (a :: s) 0) with (b2z a). cbn. unfold weight. destruct even; cbn; lia.
  - change (<[S i := b]> (a :: s)) with (a :: <[i := b]> s). cbn [wordSum]. rewrite IH by lia. rewrite weight_S.
    change (byteAt (a :: s) (S i)) with (byteAt s i). lia.
Qed.

Lemma wordSum_put s i v :
  (S i < length s)%nat → 0 ≤ v < 65536 →
  wordSum true (putUint16At s i v) - wordSum true s =
    if Nat.even i then v - uint16At s i else reverseBytes16 v - reverseBytes16 (uint16At s i).
Proof.
  intros Hi Hv. unfold putUint16At. rewrite wordSum_insert by (rewrite length_insert; lia). rewrite wordSum_insert by lia.
  rewrite !b2z_z2b. assert (byteAt (<[i := z2b (v / 256)]> s) (S i) = byteAt s (S i)) as ->
    by (unfold byteAt; by rewrite list_lookup_insert_ne by lia).
  unfold weight, reverseBytes16, uint16At. rewrite Nat.even_succ, <- Nat.negb_even.
  pose proof (byteAt_range s i). pose proof (byteAt_range s (S i)). destruct (Nat.even i); cbn [eqb negb];
    Z.to_euclidean_division_equations; lia.
Qed.

(** Folding keeps the sum modulo 65535, and three rounds are enough. *)
Lemma fold16_step fuel sum :
  0 ≤ sum → fold16 (S fuel) sum = if sum <? 65536 then sum else fold16 fuel (sum mod 65536 + sum / 65536).
Proof.
  intros H. cbn [fold16]. rewrite Z.shiftr_div_pow2 by lia. change (2 ^ 16) with 65536.
  change 65535 with (Z.ones 16). rewrite Z.land_ones by lia. change (2 ^ 16) with 65536.
  destruct (Z.ltb_spec sum 65536), (Z.eqb_spec (sum / 65536) 0); try done; Z.to_euclidean_division_equations; lia.
Qed.

Lemma fold16_spec sum : 0 ≤ sum ≤ 3 * 65535 → 0 ≤ fold16 3 sum < 65536 ∧ ∃ k, fold16 3 sum = sum + 65535 * k.
Proof.
  intros H. rewrite fold16_step by lia. destruct (Z.ltb_spec sum 65536); [split; [lia | exists 0; lia] |].
  set (s1 := sum mod 65536 + sum / 65536). assert (A1 : 0 ≤ s1 ≤ 65537 ∧ s1 = sum - 65535 * (sum / 65536)) by (subst s1; Z.to_euclidean_division_equations; lia).
  clearbody s1. rewrite fold16_step by lia. destruct (Z.ltb_spec s1 65536); [split; [lia | exists (- (sum / 65536)); lia] |].
  set (s2 := s1 mod 65536 + s1 / 65536). assert (A2 : 0 ≤ s2 ≤ 2 ∧ s2 = s1 - 65535 * (s1 / 65536)) by (subst s2; Z.to_euclidean_division_equations; lia).
  clearbody s2. rewrite fold16_step by lia. destruct (Z.ltb_spec s2 65536); [| lia].
  split; [lia |]. exists (- (sum / 65536) - s1 / 65536). lia.
Qed.

Lemma incrementallyUpdateChecksum16_spec c old new :
  0 ≤ c < 65536 → 0 ≤ old < 65536 → 0 ≤ new < 65536 →
  0 ≤ incrementallyUpdateChecksum16 c old new < 65536 ∧ ∃ k, incrementallyUpdateChecksum16 c old new = c + old - new + 65535 * k.
Proof.
  intros Hc Ho Hn. unfold incrementallyUpdateChecksum16, not16.
  destruct (fold16_spec (65535 - c + (65535 - old) + new)) as [Hr [k Hk]]; [lia |]. split; [lia |]. rewrite Hk. exists (- k - 1). lia.
Qed.

Lemma reverseBytes16_range v : 0 ≤ v < 65536 → 0 ≤ reverseBytes16 v < 65536.
Proof. intros H. unfold reverseBytes16. Z.to_euclidean_division_equations; lia. Qed.

(** One option rewritten: the words still have the same sum, modulo 65535. *)
Definition rewriteMSS (segment : bytes) (valueOffset : nat) (maximum : Z) : bytes :=
  updateTCPChecksumForFieldRewrite (putUint16At segment valueOffset maximum) valueOffset (uint16At segment valueOffset) maximum.

Lemma rewriteMSS_sum segment valueOffset maximum :
  (20 ≤ valueOffset)%nat → (S valueOffset < length segment)%nat → 0 ≤ maximum < 65536 →
  ∃ k, wordSum true (rewriteMSS segment valueOffset maximum) = wordSum true segment + 65535 * k.
Proof.
  intros H1 H2 H3. unfold rewriteMSS, updateTCPChecksumForFieldRewrite, tcpChecksumOffset.
  pose proof (uint16At_range segment valueOffset) as Ho.
  pose proof (wordSum_put segment valueOffset maximum ltac:(lia) H3) as Hv. set (s1 := putUint16At segment valueOffset maximum) in *.
  assert (Hl : length s1 = length segment) by apply length_putUint16At.
  pose proof (uint16At_range s1 16) as Hc. destruct (Nat.even valueOffset).
  - destruct (incrementallyUpdateChecksum16_spec (uint16At s1 16) (uint16At segment valueOffset) maximum Hc Ho H3) as [Hr [k Hk]].
    pose proof (wordSum_put s1 16 _ ltac:(lia) Hr) as Hs. cbn [Nat.even] in Hs. exists k. lia.
  - pose proof (reverseBytes16_range _ Ho) as Ho'. pose proof (reverseBytes16_range _ H3) as H3'.
    destruct (incrementallyUpdateChecksum16_spec (uint16At s1 16) _ _ Hc Ho' H3') as [Hr [k Hk]].
    pose proof (wordSum_put s1 16 _ ltac:(lia) Hr) as Hs. cbn [Nat.even] in Hs. exists k. lia.
Qed.

Lemma clampLoop_unchanged fuel segment d o maximum clamped segment' :
  clampLoop fuel segment d o maximum clamped = (false, segment') → segment' = segment ∧ clamped = false.
Proof.
  revert segment o clamped. induction fuel as [| fuel IH]; intros segment o clamped; cbn [clampLoop]; [by intros [= -> ->] |].
  repeat (match goal with |- context [if ?b then _ else _] => destruct b end); try (by intros [= -> ->]); try apply IH.
  intros [_ ?]%IH. done.
Qed.

(** ** Packets as the standards lay them out *)

(** An IPv4 packet of a header, with any options it has, and a TCP segment: it is whole,
    and neither a first nor a later fragment. *)
Definition ipv4Carries (packet header segment : bytes) : Prop :=
  packet = header ++ segment ∧ ∃ words, 5 ≤ words ≤ 15 ∧ byteAt packet 0 = 4 * 16 + words ∧ lenZ header = 4 * words ∧
    uint16At packet 2 = lenZ packet ∧ Z.testbit (uint16At packet 6) 13 = false ∧ uint16At packet 6 mod 8192 = 0 ∧ byteAt packet 9 = 6.

(** An IPv6 packet whose first header is that of TCP. *)
Definition ipv6Carries (packet header segment : bytes) : Prop :=
  packet = header ++ segment ∧ byteAt packet 0 / 16 = 6 ∧ lenZ header = 40 ∧ uint16At packet 4 = lenZ segment ∧ byteAt packet 6 = 6.

Definition carriesSYN (packet header segment : bytes) : Prop :=
  (ipv4Carries packet header segment ∨ ipv6Carries packet header segment) ∧ (20 ≤ length segment)%nat ∧ Z.testbit (byteAt segment 13) 1 = true.

(** The options of a TCP header: padding, and options of a kind with a value. *)
Inductive tcpOption := OptionNOP | OptionOf (kind : byte) (value : bytes).

Definition encodeOption (o : tcpOption) : bytes :=
  match o with OptionNOP => [x01] | OptionOf kind value => kind :: z2b (2 + lenZ value) :: value end.

Definition encodeOptions (options : list tcpOption) : bytes := concat (encodeOption <$> options).

Definition optionOk (o : tcpOption) : Prop :=
  match o with OptionNOP => True | OptionOf kind value => kind ≠ x00 ∧ kind ≠ x01 ∧ lenZ value ≤ 253 end.

(** Where the options end: with the header, with the mark, or with octets that are no
    option. *)
Inductive optionsEnd : bytes → Prop :=
| EndOfHeader : optionsEnd []
| EndMark rest : optionsEnd (x00 :: rest)
| EndTruncated kind : kind ≠ x00 → kind ≠ x01 → optionsEnd [kind]
| EndMalformed kind size rest : kind ≠ x00 → kind ≠ x01 → b2z size < 2 ∨ 2 + lenZ rest < b2z size → optionsEnd (kind :: size :: rest).

(** An announced segment size is lowered to the maximum. *)
Definition clampOption (maximum : Z) (o : tcpOption) : tcpOption :=
  match o with
  | OptionOf kind [high; low] =>
      if decide (kind = x02) then let size := Z.min (b2z high * 256 + b2z low) maximum in OptionOf kind [z2b (size / 256); z2b size] else o
  | _ => o
  end.

(** The largest segment size of a packet's family. *)
Definition maximumOf (c : mssClamp) (packet : bytes) : Z :=
  if (1 <=? length packet)%nat && (byteAt packet 0 / 16 =? 6) then u16 (mc_maximumSegmentSize c - (ipv6HeaderLength - ipv4HeaderMinLength))
  else mc_maximumSegmentSize c.

(** *** The packet is found *)

Lemma syn_bit v : (Z.land v 2 =? 0) = negb (Z.testbit v 1).
Proof.
  destruct (Z.testbit v 1) eqn:E; cbn [negb].
  - apply Z.eqb_neq. intros H. assert (Z.testbit (Z.land v 2) 1 = true) by (rewrite Z.land_spec, E; done). rewrite H in *. done.
  - apply Z.eqb_eq. apply Z.bits_inj'. intros n Hn. rewrite Z.land_spec, Z.bits_0. destruct (decide (n = 1)) as [->|]; [by rewrite E|].
    change 2 with (2 ^ 1). rewrite Z.pow2_bits_false by lia. apply andb_false_r.
Qed.

Lemma fragment_bits v : 0 ≤ v < 65536 → Z.land v 16383 = 0 ↔ Z.testbit v 13 = false ∧ v mod 8192 = 0.
Proof.
  intros Hv. change 16383 with (Z.ones 14). rewrite Z.land_ones by lia.
  rewrite Z.testbit_false by lia. change (2 ^ 13) with 8192. change (2 ^ 14) with 16384. Z.to_euclidean_division_equations; lia.
Qed.

Lemma locate_found packet header segment : carriesSYN packet header segment → locateTCPSYNSegment packet = Some (length header).
Proof.
  intros [Hip [Hlen Hsyn]]. assert (Hp : packet = header ++ segment) by (by destruct Hip as [[? ?]|[? ?]]).
  assert (Hat : ∀ h : nat, h = length header →
    (if (length (drop h packet) <? tcpHeaderMinLength)%nat then None else if Z.land (byteAt (drop h packet) 13) 2 =? 0 then None else Some h) = Some (length header)).
  { intros h ->. rewrite Hp, drop_app_length. destruct (Nat.ltb_spec (length segment) tcpHeaderMinLength) as [Hl|_]; [unfold tcpHeaderMinLength in Hl; lia|].
    by rewrite syn_bit, Hsyn. }
  assert (Hpl : lenZ packet = lenZ header + lenZ segment) by (rewrite Hp; unfold lenZ; rewrite length_app; lia).
  unfold locateTCPSYNSegment, ipv4HeaderMinLength, ipv6HeaderLength. unfold lenZ in *.
  destruct (Nat.ltb_spec (length packet) 1); [destruct Hip as [[_ (w & ?)]|[_ ?]]; lia|].
  destruct Hip as [[_ (w & Hw & H0 & Hh & H2 & H13 & H6 & H9)]|(_ & H0 & Hh & H4 & H6)].
  - unfold lenZ in *. replace (byteAt packet 0 / 16 =? 4) with true by (symmetry; rewrite Z.eqb_eq, H0; Z.to_euclidean_division_equations; lia).
    replace (Z.of_nat (length packet) <? 20) with false by (symmetry; rewrite Z.ltb_ge; lia).
    rewrite (proj2 (Z.eqb_eq (uint16At packet 2) _) H2). cbn [negb orb].
    rewrite (proj2 (fragment_bits _ (uint16At_range packet 6))) by done. cbn [negb Z.eqb].
    replace (Z.land (byteAt packet 0) 15 * 4) with (Z.of_nat (length header)).
    2: { change 15 with (Z.ones 4). rewrite Z.land_ones, H0 by lia. change (2 ^ 4) with 16. Z.to_euclidean_division_equations; lia. }
    replace (Z.of_nat (length header) <? 20) with false by (symmetry; rewrite Z.ltb_ge; lia).
    replace (Z.of_nat (length packet) <? Z.of_nat (length header)) with false by (symmetry; rewrite Z.ltb_ge; lia).
    rewrite H9. cbn [negb Z.eqb Pos.eqb orb]. apply Hat. lia.
  - unfold lenZ in *. rewrite H0. cbn [Z.eqb Pos.eqb]. replace (Z.of_nat (length packet) <? 40) with false by (symmetry; rewrite Z.ltb_ge; lia).
    replace (uint16At packet 4 + 40 =? Z.of_nat (length packet)) with true by (symmetry; rewrite Z.eqb_eq; lia).
    rewrite H6. cbn [negb Z.eqb Pos.eqb]. apply Hat. lia.
Qed.

Lemma located_carries packet h : locateTCPSYNSegment packet = Some h → carriesSYN packet (take h packet) (drop h packet) ∧ (h ≤ length packet)%nat.
Proof.
  assert (Hat : ∀ n : nat,
    (if (length (drop n packet) <? tcpHeaderMinLength)%nat then None else if Z.land (byteAt (drop n packet) 13) 2 =? 0 then None else Some n) = Some h →
    n = h ∧ (20 ≤ length (drop n packet))%nat ∧ Z.testbit (byteAt (drop n packet) 13) 1 = true).
  { intros n. destruct (Nat.ltb_spec (length (drop n packet)) tcpHeaderMinLength) as [|Hl]; [done|]. rewrite syn_bit.
    destruct (Z.testbit _ 1); cbn [negb]; [|done]. by intros [= ->]. }
  unfold locateTCPSYNSegment, ipv4HeaderMinLength, ipv6HeaderLength. destruct (Nat.ltb_spec (length packet) 1); [done|].
  pose proof (byteAt_range packet 0) as Hb0.
  destruct (Z.eqb_spec (byteAt packet 0 / 16) 4) as [E4|_]; [|destruct (Z.eqb_spec (byteAt packet 0 / 16) 6) as [E6|_]; [|done]].
  - destruct (Z.ltb_spec (lenZ packet) 20); [done|]. destruct (Z.eqb_spec (uint16At packet 2) (lenZ packet)) as [E2|]; [|done]. cbn [negb orb].
    destruct (Z.eqb_spec (Z.land (uint16At packet 6) 16383) 0) as [Ef|]; [|done]. cbn [negb]. apply fragment_bits in Ef; [|apply uint16At_range].
    set (ihl := Z.land (byteAt packet 0) 15 * 4). assert (Hi : ihl = byteAt packet 0 mod 16 * 4) by (subst ihl; change 15 with (Z.ones 4); by rewrite Z.land_ones by lia).
    destruct (Z.ltb_spec ihl 20); [done|]. destruct (Z.ltb_spec (lenZ packet) ihl); [done|]. cbn [orb].
    destruct (Z.eqb_spec (byteAt packet 9) 6) as [E9|]; [|done]. cbn [negb]. intros (<- & Hl & Hs)%Hat. unfold lenZ in *.
    split; [|lia]. split; [left|done]. split; [by rewrite take_drop|]. exists (byteAt packet 0 mod 16).
    unfold lenZ. rewrite length_take. destruct Ef. split_and!; try done; Z.to_euclidean_division_equations; lia.
  - destruct (Z.ltb_spec (lenZ packet) 40); [done|]. destruct (Z.eqb_spec (uint16At packet 4 + 40) (lenZ packet)) as [E2|]; [|done]. cbn [negb].
    destruct (Z.eqb_spec (byteAt packet 6) 6) as [E9|]; [|done]. cbn [negb]. intros (<- & Hl & Hs)%Hat. unfold lenZ in *.
    split; [|lia]. split; [right|done]. split; [by rewrite take_drop|]. unfold lenZ. rewrite length_take, length_drop. split_and!; try done; lia.
Qed.

(** *** The options are rewritten *)

Lemma byteAt_app p b q i : i = length p → byteAt (p ++ b :: q) i = b2z b.
Proof. intros ->. unfold byteAt. by rewrite list_lookup_middle. Qed.

Lemma byteAt_app_S p a b q i : i = S (length p) → byteAt (p ++ a :: b :: q) i = b2z b.
Proof. intros ->. change (p ++ a :: b :: q) with (p ++ [a] ++ b :: q). rewrite app_assoc. apply byteAt_app. rewrite length_app. cbn. lia. Qed.

Lemma putUint16At_app p a b q i v : i = length p → putUint16At (p ++ a :: b :: q) i v = p ++ z2b (v / 256) :: z2b v :: q.
Proof.
  intros ->. unfold putUint16At. rewrite !insert_app_r_alt by lia.
  replace (S (length p) - length p)%nat with 1%nat by lia. by rewrite Nat.sub_diag.
Qed.

Lemma rewriteMSS_app a x y rest h l post i maximum :
  length a = 16%nat → i = (18 + length rest)%nat → ∃ x' y',
  rewriteMSS (a ++ x :: y :: rest ++ h :: l :: post) i maximum = a ++ x' :: y' :: rest ++ z2b (maximum / 256) :: z2b maximum :: post.
Proof.
  intros Ha ->. unfold rewriteMSS, updateTCPChecksumForFieldRewrite, tcpChecksumOffset.
  replace (a ++ x :: y :: rest ++ h :: l :: post) with ((a ++ x :: y :: rest) ++ h :: l :: post) by (by rewrite <- app_assoc).
  rewrite putUint16At_app by (rewrite length_app, Ha; cbn; lia).
  destruct (if Nat.even _ then _ else _) as [old new]. rewrite <- (app_assoc a). cbn [app]. rewrite (putUint16At_app a) by done. eauto.
Qed.

Lemma b2z_eqb b c : (b2z b =? b2z c) = bool_decide (b = c).
Proof. case_bool_decide as E; [subst; apply Z.eqb_refl|]. apply Z.eqb_neq. intros H. apply E. by apply b2z_inj. Qed.

Lemma option_length (value : bytes) : lenZ value ≤ 253 → Z.to_nat (b2z (z2b (2 + lenZ value))) = (2 + length value)%nat.
Proof. intros H. unfold lenZ in *. rewrite b2z_z2b, Z.mod_small by lia. lia. Qed.

(** An option other than a segment size is left as it is. *)
Lemma clampOption_other maximum kind value : kind ≠ x02 ∨ length value ≠ 2%nat → clampOption maximum (OptionOf kind value) = OptionOf kind value.
Proof.
  intros H. unfold clampOption. destruct value as [|? [|? [|? ?]]]; try done. rewrite decide_False; [done|]. by destruct H.
Qed.

Lemma split_octets h l : z2b ((b2z h * 256 + b2z l) / 256) = h ∧ z2b (b2z h * 256 + b2z l) = l.
Proof.
  pose proof (b2z_range h). pose proof (b2z_range l). split.
  - replace ((b2z h * 256 + b2z l) / 256) with (b2z h) by (Z.to_euclidean_division_equations; lia). apply z2b_b2z.
  - apply b2z_inj. rewrite b2z_z2b. Z.to_euclidean_division_equations; lia.
Qed.

(** The loop at the end of the options changes nothing. *)
Lemma clampLoop_end fuel p tail data d i maximum clamped :
  optionsEnd tail → i = length p → d = (i + length tail)%nat → clampLoop fuel (p ++ tail ++ data) d i maximum clamped = (clamped, p ++ tail ++ data).
Proof.
  intros Hend -> ->. destruct fuel as [|fuel]; [done|]. cbn [clampLoop].
  destruct (Nat.leb_spec (length p + length tail) (length p)) as [|Hl]; [done|].
  unfold tcpOptionKindEnd, tcpOptionKindNOP. change 0 with (b2z x00). change 1 with (b2z x01).
  destruct Hend as [|rest|kind H0 H1|kind size rest H0 H1 Hs]; cbn [app]; rewrite ?byteAt_app by done; rewrite ?b2z_eqb.
  - cbn in Hl. lia.
  - done.
  - rewrite !bool_decide_false by done. by rewrite (proj2 (Nat.leb_le _ _)) by (cbn; lia).
  - rewrite !bool_decide_false by done. destruct (Nat.leb_spec (length p + length (kind :: size :: rest)) (S (length p))); [done|].
    rewrite byteAt_app_S by done. destruct (Nat.ltb_spec (Z.to_nat (b2z size)) 2) as [|H2]; [done|]. cbn [orb].
    rewrite (proj2 (Nat.ltb_lt _ _)); [done|]. unfold lenZ in Hs. cbn. pose proof (b2z_range size). lia.
Qed.

(** One segment size option of the loop. *)
Lemma clampLoop_size a x y rest h l post fuel d maximum clamped :
  length a = 16%nat → (2 ≤ length rest)%nat → (22 + length rest ≤ d)%nat → 0 ≤ maximum < 65536 →
  let s := a ++ x :: y :: rest ++ x02 :: x04 :: h :: l :: post in
  ∃ x' y' clamped' h' l', clampOption maximum (OptionOf x02 [h; l]) = OptionOf x02 [h'; l'] ∧
  let s' := a ++ x' :: y' :: rest ++ x02 :: x04 :: h' :: l' :: post in
  clampLoop (S fuel) s d (18 + length rest) maximum clamped = clampLoop fuel s' d (22 + length rest) maximum clamped' ∧
  (∃ k, wordSum true s' = wordSum true s + 65535 * k) ∧
  (clampOption maximum (OptionOf x02 [h; l]) = OptionOf x02 [h; l] → clamped' = clamped ∧ x' = x ∧ y' = y).
Proof.
  intros Ha Hr Hd Hm s. set (p := a ++ x :: y :: rest).
  assert (Hp : length p = (18 + length rest)%nat) by (subst p; rewrite length_app, Ha; cbn; lia).
  assert (Hs : s = p ++ x02 :: x04 :: h :: l :: post) by (subst s p; by rewrite <- app_assoc).
  assert (Hs2 : s = (p ++ [x02; x04]) ++ h :: l :: post) by (rewrite Hs, <- app_assoc; done).
  assert (Hsz : uint16At s (18 + length rest + 2) = b2z h * 256 + b2z l).
  { unfold uint16At. rewrite Hs2. rewrite byteAt_app by (rewrite length_app, Hp; cbn; lia). rewrite byteAt_app_S; [done|]. rewrite length_app, Hp. cbn. lia. }
  cbn [clampLoop]. rewrite Hsz. rewrite !Hs. rewrite (byteAt_app p) by lia. rewrite (byteAt_app_S p) by lia. rewrite <- !Hs.
  replace (Z.to_nat (b2z x04)) with 4%nat by done. destruct (Nat.leb_spec d (18 + length rest)); [lia|]. destruct (Nat.leb_spec d (S (18 + length rest))); [lia|].
  replace (b2z x02 =? tcpOptionKindEnd) with false by done. replace (b2z x02 =? tcpOptionKindNOP) with false by done.
  replace (b2z x02 =? tcpOptionKindMSS) with true by done. change (4 <? 2)%nat with false. change (4 =? tcpMSSOptionLength)%nat with true. cbn [negb orb].
  destruct (Nat.ltb_spec d (18 + length rest + 4)); [lia|]. replace (18 + length rest + 4)%nat with (22 + length rest)%nat by lia.
  unfold clampOption. rewrite decide_True by done. cbv zeta. destruct (split_octets h l) as [Eh El]. destruct (Z.ltb_spec maximum (b2z h * 256 + b2z l)) as [Hlt|Hge].
  - rewrite Z.min_r by lia.
    replace (updateTCPChecksumForFieldRewrite (putUint16At s (18 + length rest + 2) maximum) (18 + length rest + 2) (b2z h * 256 + b2z l) maximum)
      with (rewriteMSS s (18 + length rest + 2) maximum) by (unfold rewriteMSS; by rewrite Hsz).
    destruct (rewriteMSS_sum s (18 + length rest + 2) maximum ltac:(lia) ltac:(subst s; rewrite !length_app; cbn; rewrite length_app; cbn; lia) Hm) as [k Hk].
    destruct (rewriteMSS_app a x y (rest ++ [x02; x04]) h l post (18 + length rest + 2) maximum Ha ltac:(rewrite length_app; cbn; lia)) as (x' & y' & E).
    rewrite <- !app_assoc in E. cbn [app] in E. fold s in E. rewrite E in *.
    exists x', y', true, (z2b (maximum / 256)), (z2b maximum). split_and!; eauto. intros [= Eh' El']. exfalso.
    assert (Hb : b2z h = maximum / 256 ∧ b2z l = maximum mod 256) by (rewrite <- Eh', <- El', !b2z_z2b; clear -Hm; split; Z.to_euclidean_division_equations; lia).
    destruct Hb as [Hb1 Hb2]. rewrite Hb1, Hb2 in Hlt. pose proof (Z.div_mod maximum 256). lia.
  - rewrite Z.min_l by lia. rewrite Eh, El. exists x, y, clamped, h, l. split_and!; try done. exists 0. subst s. cbv zeta. lia.
Qed.

(** Every other option is passed over. *)
Lemma clampLoop_other p o post fuel d maximum clamped :
  optionOk o → (∀ h l, o ≠ OptionOf x02 [h; l]) → (length p + length (encodeOption o) ≤ d)%nat →
  clampLoop (S fuel) (p ++ encodeOption o ++ post) d (length p) maximum clamped =
  clampLoop fuel (p ++ encodeOption o ++ post) d (length p + length (encodeOption o)) maximum clamped ∧ clampOption maximum o = o.
Proof.
  intros Hok Hno Hd. cbn [clampLoop]. unfold tcpOptionKindEnd, tcpOptionKindNOP, tcpOptionKindMSS. change 0 with (b2z x00). change 1 with (b2z x01). change 2 with (b2z x02).
  destruct o as [|kind value]; cbn [encodeOption app length] in *.
  - destruct (Nat.leb_spec d (length p)); [lia|]. rewrite byteAt_app by done. rewrite !b2z_eqb. cbn. by rewrite Nat.add_1_r.
  - destruct Hok as (H0 & H1 & Hv). destruct (Nat.leb_spec d (length p)); [lia|]. destruct (Nat.leb_spec d (S (length p))); [lia|].
    rewrite byteAt_app, byteAt_app_S by done. rewrite option_length by done. rewrite !b2z_eqb, !(bool_decide_false (kind = _)) by done.
    destruct (Nat.ltb_spec (2 + length value) 2); [lia|]. destruct (Nat.ltb_spec d (length p + (2 + length value))); [lia|]. cbn [orb].
    assert (Hc : kind ≠ x02 ∨ length value ≠ 2%nat).
    { destruct (decide (kind = x02)) as [->|]; [right|by left]. destruct value as [|h [|l [|? ?]]]; cbn; try lia. by destruct (Hno h l). }
    rewrite clampOption_other by done. split; [|done].
    replace (negb (bool_decide (kind = x02)) || negb (2 + length value =? tcpMSSOptionLength)%nat) with true; [done|]. symmetry.
    destruct Hc as [Hc|Hc]; [by rewrite bool_decide_false by done|]. apply orb_true_iff. right. apply negb_true_iff, Nat.eqb_neq. unfold tcpMSSOptionLength. lia.
Qed.

Lemma mss_option_dec o : (∃ h l, o = OptionOf x02 [h; l]) ∨ ∀ h l, o ≠ OptionOf x02 [h; l].
Proof.
  destruct o as [|kind [|h [|l [|? ?]]]]; try (by right). destruct (decide (kind = x02)) as [->|]; [left; eauto|right; congruence].
Qed.

(** The whole loop. *)
Lemma clampLoop_options a tail data maximum options :
  length a = 16%nat → optionsEnd tail → 0 ≤ maximum < 65536 → Forall optionOk options → ∀ x y rest fuel d clamped,
  (2 ≤ length rest)%nat → d = (18 + length rest + length (encodeOptions options ++ tail))%nat → (length options ≤ fuel)%nat →
  let s := a ++ x :: y :: rest ++ encodeOptions options ++ tail ++ data in
  ∃ x' y' clamped', let s' := a ++ x' :: y' :: rest ++ encodeOptions (clampOption maximum <$> options) ++ tail ++ data in
  clampLoop fuel s d (18 + length rest) maximum clamped = (clamped', s') ∧ (∃ k, wordSum true s' = wordSum true s + 65535 * k) ∧
  (clampOption maximum <$> options = options → clamped' = clamped).
Proof.
  intros Ha Hend Hm Hok. induction Hok as [|o options Ho Hok IH]; intros x y rest fuel d clamped Hr Hd Hf s.
  { exists x, y, clamped. split_and!; [|exists 0; subst s; cbn [fmap list_fmap]; lia|done]. subst s. cbn [encodeOptions fmap list_fmap concat app].
    replace (a ++ x :: y :: rest ++ tail ++ data) with ((a ++ x :: y :: rest) ++ tail ++ data) by (rewrite <- app_assoc; done).
    apply clampLoop_end; [done| |done]. rewrite length_app, Ha. cbn. lia. }
  destruct fuel as [|fuel]; [cbn in Hf; lia|]. cbn in Hf.
  assert (Henc : encodeOptions (o :: options) = encodeOption o ++ encodeOptions options) by done.
  assert (Hdo : d = (18 + length (rest ++ encodeOption o) + length (encodeOptions options ++ tail))%nat) by (rewrite Hd, Henc, !length_app; lia).
  destruct (mss_option_dec o) as [(h & l & ->)|Hno].
  - destruct (clampLoop_size a x y rest h l (encodeOptions options ++ tail ++ data) fuel d maximum clamped Ha Hr) as (x1 & y1 & c1 & h' & l' & Eo & Est & [k1 Ek1] & Esame);
      [rewrite Hdo, length_app; cbn; lia|done|].
    destruct (IH x1 y1 (rest ++ encodeOption (OptionOf x02 [h'; l'])) fuel d c1) as (x2 & y2 & c2 & E2 & [k2 Ek2] & Esame2);
      [rewrite length_app; lia|rewrite Hdo, !length_app; done|lia|].
    exists x2, y2, c2. rewrite fmap_cons, Eo. subst s. rewrite Henc. cbn [encodeOptions fmap list_fmap concat]. rewrite <- !app_assoc in *. cbn [encodeOption app] in *.
    change (z2b (2 + lenZ [h; l])) with x04. change (z2b (2 + lenZ [h'; l'])) with x04 in *.
    split_and!; [|exists (k1 + k2); unfold encodeOptions in *; lia|].
    + rewrite Est. rewrite length_app in E2. cbn [length] in E2. replace (18 + (length rest + 4))%nat with (22 + length rest)%nat in E2 by lia. exact E2.
    + intros [= -> -> Eopts]. rewrite Esame2 by done. by apply Esame.
  - set (p := a ++ x :: y :: rest). assert (Hp : length p = (18 + length rest)%nat) by (subst p; rewrite length_app, Ha; cbn; lia).
    destruct (clampLoop_other p o (encodeOptions options ++ tail ++ data) fuel d maximum clamped Ho Hno) as [Est Eo]; [rewrite Hp, Hdo, length_app; lia|].
    destruct (IH x y (rest ++ encodeOption o) fuel d clamped) as (x2 & y2 & c2 & E2 & Ek & Esame2); [rewrite length_app; lia|done|lia|].
    exists x2, y2, c2. rewrite fmap_cons, Eo. subst s p. rewrite Henc. change (encodeOptions (o :: (clampOption maximum <$> options))) with (encodeOption o ++ encodeOptions (clampOption maximum <$> options)).
    rewrite <- !app_assoc in *. cbn [app] in *. split_and!; [|done|by intros [= Eopts]; apply Esame2].
    rewrite Hp in Est. rewrite Est. rewrite length_app in E2. by rewrite Nat.add_assoc in E2.
Qed.

(** Every run of octets is options and their end. *)
Lemma options_parse region : ∃ options tail, region = encodeOptions options ++ tail ∧ Forall optionOk options ∧ optionsEnd tail.
Proof.
  induction region as [region IH] using (induction_ltof1 _ (@length byte)). unfold ltof in IH.
  destruct region as [|kind region]; [exists [], []; by repeat constructor|].
  destruct (decide (kind = x00)) as [->|H0]; [exists [], (x00 :: region); by repeat constructor|].
  destruct (decide (kind = x01)) as [->|H1].
  { destruct (IH region) as (options & tail & -> & Hok & Hend); [cbn; lia|]. exists (OptionNOP :: options), tail. by repeat constructor. }
  destruct region as [|size rest]; [exists [], [kind]; by repeat constructor|].
  destruct (decide (b2z size < 2 ∨ 2 + lenZ rest < b2z size)) as [Hs|Hs]; [exists [], (kind :: size :: rest); split_and!; [done|constructor|by apply EndMalformed]|].
  assert (Hs' : 2 ≤ b2z size ≤ 2 + lenZ rest) by lia. pose proof (b2z_range size).
  set (value := take (Z.to_nat (b2z size - 2)) rest). assert (Hv : lenZ value = b2z size - 2) by (subst value; unfold lenZ in *; rewrite length_take; lia).
  destruct (IH (drop (Z.to_nat (b2z size - 2)) rest)) as (options & tail & Hrest & Hok & Hend); [rewrite length_drop; cbn; lia|].
  exists (OptionOf kind value :: options), tail. split_and!; [|constructor; [|done]|done].
  - change (encodeOptions (OptionOf kind value :: options)) with (kind :: z2b (2 + lenZ value) :: value ++ encodeOptions options). cbn [app]. rewrite Hv. replace (2 + (b2z size - 2)) with (b2z size) by lia. rewrite z2b_b2z, <- app_assoc. do 2 f_equal.
    rewrite <- Hrest. symmetry. apply take_drop.
  - cbn. split_and!; [done..|]. lia.
Qed.

(** *** Segments *)

(** A TCP segment: the header up to its checksum, the checksum, the urgent pointer, the
    options with what ends them, and the data. *)
Record tcpSegmentLayout := mkLayout {
  tl_start : bytes; tl_checksum : byte * byte; tl_urgent : bytes; tl_options : list tcpOption; tl_end : bytes; tl_data : bytes;
}.

Definition encodeLayout (l : tcpSegmentLayout) : bytes :=
  tl_start l ++ (tl_checksum l).1 :: (tl_checksum l).2 :: tl_urgent l ++ encodeOptions (tl_options l) ++ tl_end l ++ tl_data l.

(** The header ends where its data offset says, in words of four octets. *)
Definition layoutOk (l : tcpSegmentLayout) : Prop :=
  length (tl_start l) = 16%nat ∧ length (tl_urgent l) = 2%nat ∧ Forall optionOk (tl_options l) ∧ optionsEnd (tl_end l) ∧
  byteAt (tl_start l) 12 / 16 * 4 = 20 + lenZ (encodeOptions (tl_options l) ++ tl_end l).

(** The segment with its sizes lowered and another checksum. *)
Definition clampLayout (maximum : Z) (checksum : byte * byte) (l : tcpSegmentLayout) : tcpSegmentLayout :=
  mkLayout (tl_start l) checksum (tl_urgent l) (clampOption maximum <$> tl_options l) (tl_end l) (tl_data l).

Lemma byteAt_prefix p q i : (i < length p)%nat → byteAt (p ++ q) i = byteAt p i.
Proof. intros H. unfold byteAt. by rewrite lookup_app_l. Qed.

Lemma layout_dataOffset l : layoutOk l → dataOffsetOf (encodeLayout l) = (20 + length (encodeOptions (tl_options l) ++ tl_end l))%nat.
Proof.
  intros (H16 & H2 & _ & _ & Hd). unfold dataOffsetOf, encodeLayout. rewrite byteAt_prefix by lia. rewrite Hd. unfold lenZ. lia.
Qed.

(** A segment whose data offset is that of a header it holds has a layout. *)
Lemma layout_of segment :
  (20 ≤ dataOffsetOf segment ≤ length segment)%nat → ∃ l, layoutOk l ∧ segment = encodeLayout l.
Proof.
  intros Hd. pose proof (byteAt_range segment 12) as H12.
  destruct (options_parse (take (dataOffsetOf segment - 20) (drop 20 segment))) as (options & tail & Hopt & Hok & Hend).
  destruct (drop 16 segment) as [|x [|y r]] eqn:E16; [apply (f_equal length) in E16; rewrite length_drop in E16; cbn in E16; lia..|].
  assert (Hr : drop 20 segment = drop 2 r) by (change 20%nat with (16 + 4)%nat; rewrite <- drop_drop, E16; done).
  assert (Hseg : segment = take 16 segment ++ x :: y :: take 2 r ++ encodeOptions options ++ tail ++ drop (dataOffsetOf segment - 20) (drop 20 segment)).
  { rewrite (app_assoc (encodeOptions options)), <- Hopt, take_drop, Hr, take_drop, <- E16. symmetry. apply take_drop. }
  assert (Hlr : (length r = length segment - 18)%nat) by (apply (f_equal length) in E16; rewrite length_drop in E16; cbn in E16; lia).
  exists (mkLayout (take 16 segment) (x, y) (take 2 r) options tail (drop (dataOffsetOf segment - 20) (drop 20 segment))). split; [|exact Hseg].
  unfold layoutOk. cbn [tl_start tl_urgent tl_options tl_end]. rewrite !length_take. split_and!; [lia|lia|done|done|].
  rewrite <- Hopt. unfold lenZ. rewrite length_take, length_drop.
  assert (byteAt (take 16 segment) 12 = byteAt segment 12) as -> by (rewrite <- (take_drop 16 segment) at 2; rewrite byteAt_prefix; [done|rewrite length_take; lia]).
  unfold dataOffsetOf in *. Z.to_euclidean_division_equations; lia.
Qed.

Lemma clamp_layout l maximum : layoutOk l → 0 ≤ maximum < 65536 → ∃ clamped checksum,
  clampTCPSYNSegmentMSS (encodeLayout l) maximum = (clamped, encodeLayout (clampLayout maximum checksum l)) ∧
  (∃ k, wordSum true (encodeLayout (clampLayout maximum checksum l)) = wordSum true (encodeLayout l) + 65535 * k) ∧
  (clampOption maximum <$> tl_options l = tl_options l → clamped = false).
Proof.
  intros Hl Hm. unfold clampTCPSYNSegmentMSS. rewrite (layout_dataOffset l Hl). destruct Hl as (H16 & H2 & Hok & Hend & _).
  assert (Hlen : length (encodeLayout l) = (20 + length (encodeOptions (tl_options l) ++ tl_end l) + length (tl_data l))%nat).
  { unfold encodeLayout. rewrite length_app, H16. cbn. rewrite !length_app, H2. lia. }
  set (d := (20 + length (encodeOptions (tl_options l) ++ tl_end l))%nat) in *. unfold tcpHeaderMinLength.
  destruct (Nat.ltb_spec d 20); [lia|]. destruct (Nat.ltb_spec (length (encodeLayout l)) d); [lia|]. cbn [orb].
  destruct (clampLoop_options (tl_start l) (tl_end l) (tl_data l) maximum (tl_options l) H16 Hend Hm Hok
    (tl_checksum l).1 (tl_checksum l).2 (tl_urgent l) d d false) as (x & y & clamped & E & Hk & Hsame); [lia|subst d; lia| |].
  { subst d. rewrite length_app. assert (Hgen : ∀ options, (length options ≤ length (encodeOptions options))%nat); [|specialize (Hgen (tl_options l)); lia].
    induction options as [|[|kind value] options IH]; cbn in *; rewrite ?length_app in *; try unfold encodeOptions in IH; lia. }
  rewrite H2 in E. change (18 + 2)%nat with 20%nat in E. exists clamped, (x, y). eauto.
Qed.

Lemma ApplyInPlace_Apply c packet : (ApplyInPlace c packet).2 = Apply c packet.
Proof.
  unfold Apply. destruct (mc_enabled c) eqn:Ee; [|unfold ApplyInPlace; by rewrite Ee]. cbn [negb].
  destruct (ApplyInPlace c packet) as [[|] packet'] eqn:E; [done|]. revert E. unfold ApplyInPlace. rewrite Ee. cbn [negb].
  destruct (locateTCPSYNSegment packet) as [h|]; [|by intros [= <-]].
  destruct (clampTCPSYNSegmentMSS _ _) as [clamped segment'] eqn:Ec. intros [= -> <-]. cbn [snd].
  assert (segment' = drop h packet) as ->; [|apply take_drop]. revert Ec. unfold clampTCPSYNSegmentMSS.
  destruct (_ || _); [by intros [= <-]|]. by intros [-> _]%clampLoop_unchanged.
Qed.

(** C33: a segment size that is announced is lowered to what fits, and nothing else
    changes.  Segments are those that the standards of IP and TCP give: whole packets of
    IPv4 that are no fragments, and of IPv6 with the TCP header first, with the SYN bit.
    Clamping in place and clamping a copy give the same packet.  A packet that carries no
    SYN segment stays as it is, and so does one whose TCP data offset is smaller than a
    header or beyond the segment.  Any other has a layout of options, and of each such
    layout the result has the same IP header, the same TCP header but for the checksum,
    every option as it was but for the segment sizes, each of which is the smaller of
    what it was and the maximum of the packet's family (for IPv6, twenty octets less),
    and the same data; the sum of the words, which the checksum completes, is the same
    modulo 65535, so that a segment with a right checksum keeps one; and when no size is
    too large the packet stays as it is. *)
Theorem mss_clamp_correct c packet :
  mc_enabled c = true → 0 ≤ mc_maximumSegmentSize c < 65536 →
  (ApplyInPlace c packet).2 = Apply c packet ∧
  ((∀ header segment, ¬ carriesSYN packet header segment) → Apply c packet = packet) ∧
  ∀ header segment, carriesSYN packet header segment →
    let dataOffset := byteAt segment 12 / 16 * 4 in
    let maximum := maximumOf c packet in
    (dataOffset < 20 ∨ lenZ segment < dataOffset → Apply c packet = packet) ∧
    (20 ≤ dataOffset ≤ lenZ segment → ∃ l, layoutOk l ∧ segment = encodeLayout l) ∧
    ∀ l, layoutOk l → segment = encodeLayout l → ∃ checksum,
      Apply c packet = header ++ encodeLayout (clampLayout maximum checksum l) ∧
      (∃ k, wordSum true (encodeLayout (clampLayout maximum checksum l)) = wordSum true segment + 65535 * k) ∧
      (clampOption maximum <$> tl_options l = tl_options l → Apply c packet = packet).
Proof.
  intros Hen Hm. split; [apply ApplyInPlace_Apply|].
  assert (Hmax : 0 ≤ maximumOf c packet < 65536) by (unfold maximumOf, u16; destruct (_ && _); [apply Z.mod_pos_bound; lia|done]).
  split.
  { intros Hno. unfold Apply, ApplyInPlace. rewrite Hen. cbn [negb]. destruct (locateTCPSYNSegment packet) as [h|] eqn:E; [|done].
    apply located_carries in E as [E _]. by destruct (Hno _ _ E). }
  intros header segment Hc dataOffset maximum.
  assert (Hp : packet = header ++ segment) by (by destruct Hc as [[[? ?]|[? ?]] _]).
  assert (Hin : ApplyInPlace c packet = let '(clamped, segment') := clampTCPSYNSegmentMSS segment maximum in (clamped, header ++ segment')).
  { unfold ApplyInPlace. rewrite Hen, (locate_found _ _ _ Hc). cbn [negb]. by rewrite Hp, drop_app_length, take_app_length, <- Hp. }
  assert (Hdo : Z.of_nat (dataOffsetOf segment) = dataOffset) by (unfold dataOffsetOf; pose proof (byteAt_range segment 12); Z.to_euclidean_division_equations; lia).
  split_and!.
  - intros Hbad. rewrite <- ApplyInPlace_Apply, Hin. unfold clampTCPSYNSegmentMSS, tcpHeaderMinLength. unfold lenZ in Hbad.
    replace ((dataOffsetOf segment <? 20)%nat || (length segment <? dataOffsetOf segment)%nat) with true; [done|].
    symmetry. apply orb_true_iff. rewrite !Nat.ltb_lt. lia.
  - intros Hd. apply layout_of. unfold lenZ in Hd. lia.
  - intros l Hl ->. destruct (clamp_layout l maximum Hl Hmax) as (clamped & checksum & E & Hk & Hsame). rewrite E in Hin.
    exists checksum. split_and!; [by rewrite <- ApplyInPlace_Apply, Hin|done|].
    intros Heq. unfold Apply. rewrite Hen, Hin, (Hsame Heq). done.
Qed.

(** *** Lengths *)

Lemma clampLoop_length fuel segment d o maximum clamped : length (clampLoop fuel segment d o maximum clamped).2 = length segment.
Proof.
  revert segment o clamped. induction fuel as [|fuel IH]; intros segment o clamped; cbn [clampLoop]; [done|].
  repeat (match goal with |- context [if ?b then _ else _] => destruct b end); try done; try apply IH.
  rewrite IH. unfold updateTCPChecksumForFieldRewrite. destruct (if Nat.even _ then _ else _) as [a b]. by rewrite !length_putUint16At.
Qed.

Lemma Apply_length c packet : length (Apply c packet) = length packet.
Proof.
  rewrite <- ApplyInPlace_Apply. unfold ApplyInPlace. destruct (negb (mc_enabled c)); [done|].
  destruct (locateTCPSYNSegment packet) as [h|]; [|done].
  match goal with |- context [clampTCPSYNSegmentMSS ?s ?m] => assert (Hl : length (clampTCPSYNSegmentMSS s m).2 = length s); [|destruct (clampTCPSYNSegmentMSS s m) as [clamped segment]] end.
  { unfold clampTCPSYNSegmentMSS. destruct (_ || _); [done|]. apply clampLoop_length. }
  cbn [snd] in *. rewrite length_app, Hl, <- length_app. by rewrite take_drop.
Qed.

Lemma Apply_nil c packet : Apply c packet = [] ↔ packet = [].
Proof. rewrite <- !length_zero_iff_nil, Apply_length. done. Qed.

(** ** Budgets fit *)

Lemma budgetLoop_spec fuel f size lo hi :
  1 ≤ lo ≤ hi → hi - lo < Z.of_nat fuel → f lo ≤ size → (∀ n m, n ≤ m → f n ≤ f m) → size < f (hi + 1) →
  let r := budgetLoop fuel f size lo hi in lo ≤ r ≤ hi ∧ f r ≤ size ∧ ∀ n, f n ≤ size → n ≤ r.
Proof.
  revert lo hi. induction fuel as [| fuel IH]; intros lo hi Hlo Hfuel Hfit Hmono Htop; [lia |]. cbn [budgetLoop].
  destruct (Z.leb_spec hi lo).
  { split_and!; [lia | lia | done |]. intros n Hn. destruct (Z.le_gt_cases n lo); [done |]. assert (lo = hi) by lia. subst hi.
    specialize (Hmono (lo + 1) n ltac:(lia)). lia. }
  set (c := lo + (hi - lo + 1) / 2). assert (Hc : lo < c ≤ hi) by (subst c; Z.to_euclidean_division_equations; lia). clearbody c.
  destruct (Z.leb_spec (f c) size) as [Hle | Hgt].
  - destruct (IH c hi ltac:(lia) ltac:(lia) Hle Hmono Htop) as (Hr & Hfr & Hmax). split_and!; try done; lia.
  - destruct (IH lo (c - 1) ltac:(lia) ltac:(lia) Hfit Hmono ltac:(replace (c - 1 + 1) with c by lia; lia)) as (Hr & Hfr & Hmax).
    split_and!; try done; lia.
Qed.

(** Codecs do not shrink what they encode, and encode more for more. *)
Class MonotoneCodec (C : Type) `{DataCodec C} (codec : C) : Prop := {
  encoded_monotone : ∀ n m, n ≤ m → EncodedLength codec n ≤ EncodedLength codec m;
  encoded_grows : ∀ n, 0 ≤ n → n ≤ EncodedLength codec n;
}.

Section Budget.
Context {C : Type} `{DataCodec C} (codec : C) `{!MonotoneCodec C codec}.

Lemma calculateDataPayloadBudget_spec packetSize header fixed :
  0 ≤ header → 0 ≤ fixed → header + EncodedLength codec (fixed + 1) ≤ packetSize → header + EncodedLength codec fixed < packetSize →
  let r := calculateDataPayloadBudget packetSize codec header fixed in
  1 ≤ r ≤ packetSize ∧ header + EncodedLength codec (fixed + r) ≤ packetSize ∧
  ∀ n, header + EncodedLength codec (fixed + n) ≤ packetSize → n ≤ r.
Proof.
  intros Hh Hf H1 H0. unfold calculateDataPayloadBudget. destruct (Z.leb_spec packetSize (header + EncodedLength codec fixed)); [lia |].
  assert (Hsize : 1 ≤ packetSize).
  { pose proof (encoded_grows (codec := codec) (fixed + 1) ltac:(lia)). lia. }
  apply (budgetLoop_spec _ (λ size, header + EncodedLength codec (fixed + size))); try lia.
  - intros n m Hnm. cbn beta. pose proof (encoded_monotone (codec := codec) (fixed + n) (fixed + m) ltac:(lia)). lia.
  - cbn beta. pose proof (encoded_grows (codec := codec) (fixed + (packetSize + 1)) ltac:(lia)). lia.
Qed.

(** The segment size that is computed for an [mssfix] is the largest with which
    a full TCP segment, encoded and with all headers, fits the size that was asked
    for; nothing is lost to the width of the field. *)
Theorem mssfix_is_tight mssFix mode dataFraming header outer :
  0 ≤ header → 0 ≤ outer → mode ≠ MSSFixModeFixed → 0 < mssFix < 65536 → 0 ≤ payloadOverhead dataFraming →
  let total := if decide (mode = MSSFixModeMTU) then header + outer else header in
  let fixed := 40 + payloadOverhead dataFraming in
  total + EncodedLength codec (fixed + 1) ≤ mssFix → total + EncodedLength codec fixed < mssFix →
  let c := calculateMSSClamp mssFix mode dataFraming codec header outer in
  mc_enabled c = true ∧
  total + EncodedLength codec (fixed + mc_maximumSegmentSize c) ≤ mssFix ∧
  ∀ n, total + EncodedLength codec (fixed + n) ≤ mssFix → n ≤ mc_maximumSegmentSize c.
Proof.
  intros Hh Ho Hmode Hfix Hpo total fixed H1 H0. unfold calculateMSSClamp.
  destruct (Z.eqb_spec mssFix 0); [lia |]. rewrite decide_False by done. cbv zeta. fold total.
  change (ipv4HeaderMinLength + Z.of_nat tcpHeaderMinLength + payloadOverhead dataFraming) with fixed.
  destruct (calculateDataPayloadBudget_spec mssFix total fixed) as (Hr & Hfit & Hmax); [by subst total; case_decide; lia | lia | done | done |].
  cbn [mc_enabled mc_maximumSegmentSize]. unfold u16. rewrite Z.mod_small by lia. done.
Qed.

End Budget.

(** The codecs of the program are monotone. *)
#[export] Instance gcm_monotone c : MonotoneCodec tlsGCMDataCodec c.
Proof. split; cbn; unfold gcm_EncodedLength, tlsDataAEADTagSize; lia. Qed.

#[export] Instance str_monotone c : MonotoneCodec tlsStreamDataCodec c.
Proof. split; cbn; unfold str_EncodedLength; lia. Qed.

Lemma blockProtectedLength_monotone block n m :
  (∀ b, block = Some b → (0 < bl_size b)%nat) → n ≤ m → blockProtectedLength block n ≤ blockProtectedLength block m.
Proof.
  intros Hb Hnm. destruct block as [b |]; cbn; [| done]. specialize (Hb b eq_refl).
  pose proof (Z.div_le_mono n m (Z.of_nat (bl_size b)) ltac:(lia) Hnm). nia.
Qed.

Lemma blockProtectedLength_grows block n :
  (∀ b, block = Some b → (0 < bl_size b)%nat) → 0 ≤ n → n ≤ blockProtectedLength block n.
Proof.
  intros Hb Hn. destruct block as [b |]; cbn; [| done]. specialize (Hb b eq_refl).
  pose proof (Z.div_mod n (Z.of_nat (bl_size b)) ltac:(lia)). pose proof (Z.mod_pos_bound n (Z.of_nat (bl_size b)) ltac:(lia)). nia.
Qed.

Lemma cbc_monotone c : (∀ b, cbc_sendCipherBlock c = Some b → (0 < bl_size b)%nat) → MonotoneCodec tlsCBCDataCodec c.
Proof.
  intros Hb. split; cbn; unfold cbc_EncodedLength; intros.
  - pose proof (blockProtectedLength_monotone (cbc_sendCipherBlock c) (4 + n) (4 + m) Hb ltac:(lia)). lia.
  - pose proof (blockProtectedLength_grows (cbc_sendCipherBlock c) (4 + n) Hb ltac:(lia)). lia.
Qed.

(** A SYN segment that announces 1460, and a clamp of 1360. *)
Definition synPacket : bytes :=
  [x45; x00; x00; x2c; x00; x00; x40; x00; x40; x06; x00; x00; x0a; x00; x00; x01; x0a; x00; x00; x02] ++
  [x30; x39; x00; x50; x00; x00; x00; x01; x00; x00; x00; x00; x60; x02; xff; xff; x12; x34; x00; x00] ++ [x02; x04; x05; xb4].

Definition synLayout : tcpSegmentLayout :=
  mkLayout [x30; x39; x00; x50; x00; x00; x00; x01; x00; x00; x00; x00; x60; x02; xff; xff] (x12, x34) [x00; x00] [OptionOf x02 [x05; xb4]] [] [].

Lemma synPacket_carries : carriesSYN synPacket (take 20 synPacket) (drop 20 synPacket).
Proof. apply located_carries. vm_compute. reflexivity. Qed.

Lemma mss_clamp_correct_witness :
  let c := mkClamp true 1360 in
  encodeOptions (clampOption 1360 <$> tl_options synLayout) = [x02; x04; x05; x50] ∧
  ∃ checksum, Apply c synPacket = take 20 synPacket ++ encodeLayout (clampLayout 1360 checksum synLayout).
Proof.
  intros c. split; [vm_compute; reflexivity |].
  destruct (mss_clamp_correct c synPacket eq_refl ltac:(cbn; lia)) as (_ & _ & H).
  destruct (H _ _ synPacket_carries) as (_ & _ & Hl).
  destruct (Hl synLayout) as (checksum & E & _); [|vm_compute; reflexivity|exists checksum; exact E].
  unfold layoutOk. split_and!; [reflexivity|reflexivity| |constructor|vm_compute; reflexivity].
  repeat constructor; (discriminate || (cbn; lia)).
Defined.

Lemma mssfix_is_tight_witness :
  let codec := mkGCM exampleAEAD [] [] [] exampleAEAD [] [] [] None in
  let c := calculateMSSClamp 1492 MSSFixModeMTU None codec 4 28 in
  mc_maximumSegmentSize c = 1400 ∧ 32 + EncodedLength codec (40 + mc_maximumSegmentSize c) ≤ 1492.
Proof.
  intros codec c. split; [vm_compute; reflexivity |].
  pose proof (mssfix_is_tight codec 1492 MSSFixModeMTU None 4 28 ltac:(lia) ltac:(lia) ltac:(done) ltac:(lia) ltac:(cbn; lia)
    ltac:(vm_compute; discriminate) ltac:(vm_compute; reflexivity)) as (_ & H & _). exact H.
Defined.
