(* ===== verification/Admission.v ===== *)
(** * Admission of clients ([server_resource_policy.go], [session_id_hmac.go],
      [udp_predecrypt.go])

    A server meters resets and connections, and answers a first datagram with a
    session id that is a keyed digest of the client's address and session id, so
    that it keeps nothing of a client until the client has shown that it receives
    at its address. *)

From S2P Require Import Prelude Packet Session Netip Crypto Codec ReplayWindow ControlWrap Options.

(** ** Limits *)

Definition defaultServerMaxClients : Z := 1024.
Definition defaultServerInitialConnectFrequency : Z := 100.
Definition defaultServerInitialConnectFrequencyPeriod : Z := 10 * Second.

Record serverResourcePolicy := mkPolicy {
  rp_maxClients : Z;
  rp_connectFrequency : Z;
  rp_connectFrequencyPeriod : Z;
  rp_connectWindowStart : Time;
  rp_connectWindowCount : Z;
  rp_initialConnectFrequency : Z;
  rp_initialConnectFrequencyPeriod : Z;
  rp_initialWindowStart : Time;
  rp_initialWindowCount : Z;
  rp_instances : Z;
}.

#[export] Instance eta_serverResourcePolicy : Eta serverResourcePolicy := λ r,
  mkPolicy (rp_maxClients r) (rp_connectFrequency r) (rp_connectFrequencyPeriod r) (rp_connectWindowStart r)
  (rp_connectWindowCount r) (rp_initialConnectFrequency r) (rp_initialConnectFrequencyPeriod r) (rp_initialWindowStart r)
  (rp_initialWindowCount r) (rp_instances r).

Definition newServerResourcePolicy (options : ServerOptions) : serverResourcePolicy :=
  let r := so_Resources options in
  let maxClients := if sro_MaxClients r =? 0 then defaultServerMaxClients else sro_MaxClients r in
  let '(initialConnectFrequency, initialConnectFrequencyPeriod) :=
    if sro_InitialConnectFrequencyPeriod r =? 0
    then (defaultServerInitialConnectFrequency, defaultServerInitialConnectFrequencyPeriod)
    else (sro_InitialConnectFrequency r, sro_InitialConnectFrequencyPeriod r) in
  mkPolicy maxClients (sro_ConnectFrequency r) (sro_ConnectFrequencyPeriod r) 0 0 initialConnectFrequency
    initialConnectFrequencyPeriod 0 0 0.

Definition allowInitialPacket (p : serverResourcePolicy) (now : Time) : bool * serverResourcePolicy :=
  let p :=
    if IsZero (rp_initialWindowStart p) || (rp_initialConnectFrequencyPeriod p <? now - rp_initialWindowStart p)
    then p <| rp_initialWindowStart := now |> <| rp_initialWindowCount := 0 |> else p in
  let p := p <| rp_initialWindowCount := rp_initialWindowCount p + 1 |> in
  (rp_initialWindowCount p <=? rp_initialConnectFrequency p, p).

Definition refundInitialPacket (p : serverResourcePolicy) : serverResourcePolicy :=
  if 0 <? rp_initialWindowCount p then p <| rp_initialWindowCount := rp_initialWindowCount p - 1 |> else p.

Definition allowNewConnection (p : serverResourcePolicy) (now : Time) : bool * serverResourcePolicy :=
  if rp_connectFrequencyPeriod p =? 0 then (true, p) else
  let p :=
    if IsZero (rp_connectWindowStart p) || (rp_connectFrequencyPeriod p <=? now - rp_connectWindowStart p)
    then p <| rp_connectWindowStart := now |> <| rp_connectWindowCount := 0 |> else p in
  let p := p <| rp_connectWindowCount := rp_connectWindowCount p + 1 |> in
  (rp_connectWindowCount p <=? rp_connectFrequency p, p).

(** Whether a reservation is given. *)
Definition reserveInstance (p : serverResourcePolicy) : bool * serverResourcePolicy :=
  if rp_maxClients p <=? rp_instances p then (false, p) else (true, p <| rp_instances := rp_instances p + 1 |>).

Definition release (p : serverResourcePolicy) : serverResourcePolicy := p <| rp_instances := rp_instances p - 1 |>.

(** ** Session ids that are digests *)

Definition defaultHandshakeWindowSeconds : Z := 60.
Definition sessionIDHMACPastBuckets : Z := 2.
Definition sessionIDHMACFutureBuckets : Z := 1.

Record sessionIDHMACSigner := mkSigner { sg_hmacKey : bytes; sg_handwindow : Z }.

(** [random] is what [rand.Read] fills the key with. *)
Definition newSessionIDHMACSigner (random : nat → result bytes) : result sessionIDHMACSigner :=
  hmacKey ← random 32%nat; Ok (mkSigner hmacKey defaultHandshakeWindowSeconds).

(** A [net.Addr]: the octets of the address, the port and the zone of a UDP
    address, or the network and the text of another. *)
Inductive netAddr :=
| UDPAddr (ip : bytes) (port : Z) (zone : bytes)
| OtherAddr (network address : bytes).

Definition v4InV6Prefix : bytes := replicate 10 x00 ++ [xff; xff].

(** [net.IP]'s [To4] and [To16]; [None] is nil. *)
Definition To4 (ip : bytes) : option bytes :=
  if decide (length ip = 4%nat) then Some ip else
  if decide (length ip = 16%nat ∧ take 12 ip = v4InV6Prefix) then Some (drop 12 ip) else None.

Definition To16 (ip : bytes) : option bytes :=
  if decide (length ip = 4%nat) then Some (v4InV6Prefix ++ ip) else
  if decide (length ip = 16%nat) then Some ip else None.

Definition sessionIDHMACAddress (peerAddress : option netAddr) : bytes :=
  match peerAddress with
  | None => []
  | Some (OtherAddr network address) =>
      PutUint16 (lenZ network) ++ network ++ PutUint16 (lenZ address) ++ address
  | Some (UDPAddr ip port zone) =>
      let '(addressFamily, ipAddress) :=
        match To4 ip with
        | Some ipv4Address => (x04, ipv4Address)
        | None => (x06, default [] (To16 ip))
        end in
      [addressFamily] ++ ipAddress ++ PutUint16 port ++ PutUint16 (lenZ zone) ++ zone
  end.

Definition bucketOf (handwindow currentTime offset : Z) : Z := u32 (u32 (currentTime `quot` ((handwindow + 1) `quot` 2)) + u32 offset).

(** What is signed. *)
Definition cookieMessage (bucket : Z) (peerAddress : option netAddr) (clientSessionID : bytes) : bytes :=
  PutUint32 bucket ++ sessionIDHMACAddress peerAddress ++ clientSessionID.

Section Cookies.
Context (cr : Crypto).

Definition deriveSessionIDAt (s : sessionIDHMACSigner) (clientSessionID : bytes) (peerAddress : option netAddr) (currentTime offset : Z) : bytes :=
  take SessionIDLength (cr_hmac cr "sha256" (sg_hmacKey s) (cookieMessage (bucketOf (sg_handwindow s) currentTime offset) peerAddress clientSessionID)).

Definition validateAt (s : sessionIDHMACSigner) (expectedClientSessionID : bytes) (peerAddress : option netAddr) (serverSessionID : bytes)
    (currentTime : Z) : bool :=
  existsb (λ offset, bool_decide (deriveSessionIDAt s expectedClientSessionID peerAddress currentTime offset = serverSessionID))
    (seqZ (- sessionIDHMACPastBuckets) (sessionIDHMACPastBuckets + sessionIDHMACFutureBuckets + 1)).

(** ** The first datagrams of a client *)

Definition validateInitialClientReset (packet : Packet) : result unit :=
  if negb (pkt_KeyID packet =? 0) then Err (ErrNew "invalid initial OpenVPN client reset key-id") else
  if negb (pkt_Opcode packet =? OpcodeControlHardResetClientV2) && negb (pkt_Opcode packet =? OpcodeControlHardResetClientV3)
  then Err (ErrNew "invalid initial OpenVPN client reset opcode") else
  if negb (pkt_ID packet =? 0) || hasAny (pkt_AcknowledgmentIDs packet) || hasAny (pkt_Payload packet)
  then Err (ErrNew "invalid initial OpenVPN client reset state") else Ok ().

Definition isPossibleUDPPreDecryptPacket (rawPacket : bytes) : bool :=
  if (length rawPacket <? tlsControlHeaderLength)%nat || negb (Z.land (b2z (hd x00 rawPacket)) 7 =? 0) then false else
  if decide (slice 1 tlsControlHeaderLength rawPacket = zeroSessionID) then false else
  bool_decide (Z.shiftr (b2z (hd x00 rawPacket)) 3 ∈
    [OpcodeControlHardResetClientV2; OpcodeControlHardResetClientV3; OpcodeControlV1; OpcodeAcknowledgmentV1; OpcodeControlWKCv1]).

(** What becomes of a datagram that does not belong to a session. *)
Inductive udpPreDecryptResult :=
| udpPreDecryptDrop (err : goerr)
| udpPreDecryptChallenge (challenge serverSessionID clientSessionID : bytes)
| udpPreDecryptAccept (packet : Packet) (protection : tlsControlProtection) (serverSessionID clientSessionID : bytes) (directReset : bool).

Definition decodeUDPPreDecryptPacket (staticProtection : tlsControlProtection) (rawPacket : bytes) (reapNow now : Time)
    : result (Packet * tlsControlProtection * bool) :=
  let opcode := Z.shiftr (b2z (hd x00 rawPacket)) 3 in
  let '(decoded, protection) := decodeIncomingControlPacket cr (newSessionProtection staticProtection) rawPacket reapNow now in
  packetBytes ← decoded;
  packet ← ParsePacket packetBytes;
  if negb (pkt_Opcode packet =? opcode) then Err (ErrNew "UDP pre-decrypt opcode mismatch") else
  Ok (packet, protection, (opcode =? OpcodeControlHardResetClientV3) && tlsCryptV2ResetAnnouncesEarlyNegotiation rawPacket).

Definition encodeUDPPreDecryptPacket (packet : Packet) (protection : tlsControlProtection) (unixNow wrapNow : Z) : result bytes :=
  rawPacket ← Packet_Bytes packet; Ok (encodeOutgoingControlPacket cr protection rawPacket unixNow wrapNow).1.

Definition seedUDPProtectionAfterChallenge (protection : tlsControlProtection) (unixNow : Z) : tlsControlProtection :=
  mkProtection
    ((λ auth, mkAuth (ca_sendKey auth) (ca_receiveKeys auth) (seedNextID (ca_sendState auth) 1 unixNow) (ca_receiveState auth)
        (ca_hash auth) (ca_digestSize auth)) <$> cp_auth protection)
    ((λ crypt, mkCrypt (ck_sendEncryptBlock crypt) (ck_sendAuthKey crypt) (ck_receiveCandidates crypt) (seedNextID (ck_sendState crypt) 1 unixNow)
        (ck_receiveState crypt)) <$> cp_crypt protection)
    (cp_cryptV2ServerKey protection).

Definition challengePayload : bytes :=
  [x00; z2b tlsCryptV2TLVTypeEarlyNegotiationFlags; x00; x02; x00; z2b tlsCryptV2EarlyNegotiationFlagResendWKC].

(** [now] is the time of the datagram, [unixNow] its seconds; [reapNow] and
    [clock] are read by the codecs. *)
Definition preDecryptUDPPacket (forceCookie : bool) (staticProtection : tlsControlProtection) (signer : sessionIDHMACSigner)
    (policy : serverResourcePolicy) (rawPacket : bytes) (peerAddress : option netAddr) (now : Time) (unixNow : Z) (reapNow clock : Time)
    : udpPreDecryptResult * serverResourcePolicy :=
  match decodeUDPPreDecryptPacket staticProtection rawPacket reapNow clock with
  | Err err => (udpPreDecryptDrop err, policy)
  | Ok (packet, protection, earlyNegotiation) =>
      if negb (pkt_KeyID packet =? 0) || bool_decide (pkt_LocalSessionID packet = zeroSessionID)
      then (udpPreDecryptDrop (ErrNew "invalid UDP pre-decrypt identity"), policy) else
      if (pkt_Opcode packet =? OpcodeControlHardResetClientV2) || (pkt_Opcode packet =? OpcodeControlHardResetClientV3) then
        match validateInitialClientReset packet with
        | Err err => (udpPreDecryptDrop err, policy)
        | Ok _ =>
            let '(allowed, policy) := allowInitialPacket policy now in
            if negb allowed then (udpPreDecryptDrop (ErrNew "initial packet rate limit exceeded"), policy) else
            if (pkt_Opcode packet =? OpcodeControlHardResetClientV3) && negb earlyNegotiation then
              if forceCookie : bool
              then (udpPreDecryptDrop (ErrNew "tls-crypt-v2 client does not support stateless cookie negotiation"), policy)
              else (udpPreDecryptAccept packet protection zeroSessionID zeroSessionID true, policy)
            else
              let serverSessionID := deriveSessionIDAt signer (pkt_LocalSessionID packet) peerAddress unixNow 0 in
              let challengePacket :=
                mkPacket OpcodeControlHardResetServerV2 0 zeroPeerID serverSessionID [pkt_ID packet] (pkt_LocalSessionID packet) 0
                  (if pkt_Opcode packet =? OpcodeControlHardResetClientV3 then challengePayload else []) in
              match encodeUDPPreDecryptPacket challengePacket protection unixNow unixNow with
              | Err err => (udpPreDecryptDrop err, policy)
              | Ok challenge => (udpPreDecryptChallenge challenge serverSessionID (pkt_LocalSessionID packet), policy)
              end
        end
      else if (pkt_Opcode packet =? OpcodeControlV1) || (pkt_Opcode packet =? OpcodeAcknowledgmentV1) || (pkt_Opcode packet =? OpcodeControlWKCv1) then
        if negb (hasAny (pkt_AcknowledgmentIDs packet)) || bool_decide (pkt_RemoteSessionID packet = zeroSessionID)
        then (udpPreDecryptDrop (ErrNew "missing UDP session-id cookie"), policy) else
        if negb (validateAt signer (pkt_LocalSessionID packet) peerAddress (pkt_RemoteSessionID packet) unixNow)
        then (udpPreDecryptDrop (ErrNew "invalid UDP session-id cookie"), policy) else
        (udpPreDecryptAccept packet (seedUDPProtectionAfterChallenge protection unixNow) (pkt_RemoteSessionID packet)
           (pkt_LocalSessionID packet) false, policy)
      else (udpPreDecryptDrop (ErrNew "invalid UDP pre-decrypt opcode"), policy)
  end.

End Cookies.

(** ** Connections are metered *)

(** The answers to connections at the given times. *)
Fixpoint connections (p : serverResourcePolicy) (times : list Time) : list (Time * bool) :=
  match times with
  | [] => []
  | now :: times => let '(allowed, p) := allowNewConnection p now in (now, allowed) :: connections p times
  end.

(** How many were let in from [T] on and before [T + length]. *)
Definition admitted (T length : Z) (answers : list (Time * bool)) : Z :=
  lenZ (List.filter (λ '(t, allowed), allowed && (T <=? t) && (t <? T + length)) answers).

Lemma admitted_cons T len t allowed answers :
  admitted T len ((t, allowed) :: answers) = (if allowed && (T <=? t) && (t <? T + len) then 1 else 0) + admitted T len answers.
Proof. unfold admitted, lenZ. cbn. destruct (_ && _ && _); cbn [length]; lia. Qed.

Definition sameLimit (p p' : serverResourcePolicy) : Prop :=
  rp_connectFrequency p' = rp_connectFrequency p ∧ rp_connectFrequencyPeriod p' = rp_connectFrequencyPeriod p.

(** One connection: the window goes on or begins anew. *)
Lemma allowNewConnection_step p now :
  0 < rp_connectFrequencyPeriod p →
  let '(allowed, p') := allowNewConnection p now in
  sameLimit p p' ∧ allowed = (rp_connectWindowCount p' <=? rp_connectFrequency p) ∧
  ((rp_connectWindowStart p' = rp_connectWindowStart p ∧ rp_connectWindowCount p' = rp_connectWindowCount p + 1 ∧
    rp_connectWindowStart p ≠ 0 ∧ now - rp_connectWindowStart p < rp_connectFrequencyPeriod p) ∨
   (rp_connectWindowStart p' = now ∧ rp_connectWindowCount p' = 1 ∧
    (rp_connectWindowStart p = 0 ∨ rp_connectFrequencyPeriod p ≤ now - rp_connectWindowStart p))).
Proof.
  intros Hp. unfold allowNewConnection. destruct (Z.eqb_spec (rp_connectFrequencyPeriod p) 0); [lia |].
  unfold IsZero. destruct (Z.eqb_spec (rp_connectWindowStart p) 0) as [E | E]; cbn [orb].
  - split; [done |]. split; [done |]. right. by split_and!; [| | left].
  - destruct (Z.leb_spec (rp_connectFrequencyPeriod p) (now - rp_connectWindowStart p)).
    + split; [done |]. split; [done |]. right. by split_and!; [| | right].
    + split; [done |]. split; [done |]. left. by split_and!.
Qed.

(** In a window that began at [T] or later, what is left of it is let in. *)
Lemma connections_window p times T :
  let period := rp_connectFrequencyPeriod p in
  0 < period → T ≤ rp_connectWindowStart p → rp_connectWindowStart p ≠ 0 → Forall (λ t, 0 < t ∧ T ≤ t) times → StronglySorted Z.le times →
  admitted T period (connections p times) ≤ Z.max 0 (rp_connectFrequency p - rp_connectWindowCount p).
Proof.
  cbv zeta. revert p. induction times as [| t times IH]; intros p Hp HT H0 Ht Hs; [unfold admitted, lenZ; cbn; lia |].
  apply Forall_cons in Ht as [[Ht0 HtT] Ht]. apply StronglySorted_inv in Hs as [Hs Hle]. cbn [connections].
  pose proof (allowNewConnection_step p t Hp) as Hstep. destruct (allowNewConnection p t) as [allowed p'].
  destruct Hstep as ([Ef Ep] & Ea & Hcase). rewrite admitted_cons. rewrite <- Ep.
  destruct (Z.ltb_spec t (T + rp_connectFrequencyPeriod p')).
  - destruct Hcase as [(Es & Ec & _) | (_ & _ & [? | ?])]; [| lia | lia].
    specialize (IH p' ltac:(lia) ltac:(lia) ltac:(lia) Ht Hs). rewrite Ef, Ec in *.
    destruct allowed; cbn [andb]; [| lia]. symmetry in Ea. apply Z.leb_le in Ea. destruct (_ && _); lia.
  - rewrite andb_false_r. assert (Hnone : admitted T (rp_connectFrequencyPeriod p') (connections p' times) = 0); [| lia].
    clear IH. unfold admitted. assert (Hall : Forall (λ u, T + rp_connectFrequencyPeriod p' ≤ u) times)
      by (eapply Forall_impl; [exact Hle |]; cbn; intros; lia).
    set (period := rp_connectFrequencyPeriod p') in *. clearbody period. clear -Hall.
    revert p'. induction Hall as [| u times Hu _ IH]; intros p'; [done |]. cbn [connections].
    destruct (allowNewConnection p' u) as [allowed p'']. cbn [List.filter]. destruct (Z.ltb_spec u (T + period)); [lia |].
    rewrite andb_false_r. apply IH.
Qed.

Lemma connections_rest p times T :
  let period := rp_connectFrequencyPeriod p in
  0 < period → 0 ≤ rp_connectFrequency p → 0 ≤ rp_connectWindowCount p → Forall (λ t, 0 < t) times → StronglySorted Z.le times →
  admitted T period (connections p times) ≤ 2 * rp_connectFrequency p ∧
  (Forall (λ t, T ≤ t) times →
   admitted T period (connections p times) ≤ Z.max 0 (rp_connectFrequency p - rp_connectWindowCount p) + rp_connectFrequency p).
Proof.
  cbv zeta. revert p. induction times as [| t times IH]; intros p Hp Hf Hc Ht Hs; [unfold admitted, lenZ; cbn; lia |].
  apply Forall_cons in Ht as [Ht0 Ht]. apply StronglySorted_inv in Hs as [Hs Hle]. cbn [connections].
  pose proof (allowNewConnection_step p t Hp) as Hstep. destruct (allowNewConnection p t) as [allowed p'].
  destruct Hstep as ([Ef Ep] & Ea & Hcase). rewrite admitted_cons, <- Ep.
  destruct (IH p' ltac:(lia) ltac:(lia) ltac:(destruct Hcase as [(_ & ? & _) | (_ & ? & _)]; lia) Ht Hs) as [IH1 IH2]. rewrite Ef in *.
  assert (Hlater : T ≤ t → (if allowed && (T <=? t) && (t <? T + rp_connectFrequencyPeriod p') then 1 else 0) +
    admitted T (rp_connectFrequencyPeriod p') (connections p' times) ≤
    Z.max 0 (rp_connectFrequency p - rp_connectWindowCount p) + rp_connectFrequency p).
  { intros HT. assert (Hall : Forall (λ u, T ≤ u) times) by (eapply Forall_impl; [exact Hle |]; cbn; intros; lia).
    destruct Hcase as [(_ & Ec & _) | (Es & Ec & _)].
    - specialize (IH2 Hall). rewrite Ec in *. destruct allowed; cbn [andb]; [| lia].
      symmetry in Ea. apply Z.leb_le in Ea. destruct (_ && _); lia.
    - pose proof (connections_window p' times T ltac:(lia) ltac:(lia) ltac:(lia)) as Hw. cbv zeta in Hw. rewrite Ef, Ec in Hw.
      specialize (Hw ltac:(apply Forall_and; done) Hs). rewrite Ec in Ea. destruct allowed; cbn [andb]; [| lia].
      symmetry in Ea. apply Z.leb_le in Ea. destruct (_ && _); lia. }
  split.
  - destruct (Z.leb_spec T t); [specialize (Hlater ltac:(lia)); lia |]. rewrite andb_false_r. cbn [andb]. lia.
  - intros HT%Forall_cons. apply Hlater, HT.
Qed.

(** In any interval of the length of the period, wherever it begins, no more
    than twice the configured number of connections is let in: it meets at most
    two of the windows that the policy counts in. *)
Theorem connection_rate_limited options times T :
  let r := so_Resources options in
  0 < sro_ConnectFrequencyPeriod r → 0 ≤ sro_ConnectFrequency r → Forall (λ t, 0 < t) times → StronglySorted Z.le times →
  admitted T (sro_ConnectFrequencyPeriod r) (connections (newServerResourcePolicy options) times) ≤ 2 * sro_ConnectFrequency r.
Proof.
  cbv zeta. intros Hp Hf Ht Hs. set (p := newServerResourcePolicy options).
  assert (E : rp_connectFrequencyPeriod p = sro_ConnectFrequencyPeriod (so_Resources options) ∧
              rp_connectFrequency p = sro_ConnectFrequency (so_Resources options) ∧ rp_connectWindowCount p = 0)
    by (subst p; unfold newServerResourcePolicy; by destruct (_ =? 0)).
  destruct E as (E1 & E2 & E3). rewrite <- E1, <- E2. apply connections_rest; try lia; done.
Qed.

(** ** Cookies *)

Section CookieLaws.
Context (cr : Crypto).

(** The buckets that [validateAt] tries. *)
Lemma validateAt_true s client addr sid t :
  validateAt cr s client addr sid t = true ↔ ∃ offset, -2 ≤ offset ≤ 1 ∧ deriveSessionIDAt cr s client addr t offset = sid.
Proof.
  unfold validateAt. rewrite existsb_exists. split.
  - intros (o & Ho & E). apply bool_decide_eq_true in E. exists o. split; [| done].
    apply list_elem_of_In, elem_of_seqZ in Ho. unfold sessionIDHMACPastBuckets, sessionIDHMACFutureBuckets in Ho. lia.
  - intros (o & Ho & E). exists o. split; [| by apply bool_decide_eq_true].
    apply list_elem_of_In, elem_of_seqZ. unfold sessionIDHMACPastBuckets, sessionIDHMACFutureBuckets. lia.
Qed.

Lemma bucketOf_shift t t' :
  0 ≤ t → 0 ≤ t' → ∃ d, t `quot` 30 = t' `quot` 30 + d ∧
  bucketOf defaultHandshakeWindowSeconds t' d = bucketOf defaultHandshakeWindowSeconds t 0 ∧ -30 * (d + 1) < t' - t < 30 * (1 - d).
Proof.
  intros Ht Ht'. exists (t `quot` 30 - t' `quot` 30). split; [lia |]. unfold bucketOf, defaultHandshakeWindowSeconds.
  change ((60 + 1) `quot` 2) with 30. split.
  - unfold u32. rewrite <- !Zplus_mod. f_equal. lia.
  - rewrite !Z.quot_div_nonneg by lia. pose proof (Z.div_mod t 30 ltac:(lia)). pose proof (Z.div_mod t' 30 ltac:(lia)).
    pose proof (Z.mod_pos_bound t 30 ltac:(lia)). pose proof (Z.mod_pos_bound t' 30 ltac:(lia)). lia.
Qed.

(** A cookie is good for the sixty seconds of the handshake, and for a clock that
    is set back by thirty. *)
Lemma cookie_fresh s client addr t t' :
  sg_handwindow s = defaultHandshakeWindowSeconds → 0 ≤ t → 0 ≤ t' → t - 30 ≤ t' ≤ t + 60 →
  validateAt cr s client addr (deriveSessionIDAt cr s client addr t 0) t' = true.
Proof.
  intros Hw Ht Ht' Hr. apply validateAt_true. destruct (bucketOf_shift t t' Ht Ht') as (d & _ & Hd & Hb).
  exists d. split; [lia |]. unfold deriveSessionIDAt. by rewrite Hw, Hd.
Qed.

(** The addresses a UDP socket reports. *)
Definition udpAddressOk (ip : bytes) (port : Z) (zone : bytes) : Prop :=
  (length ip = 4%nat ∨ length ip = 16%nat) ∧ 0 ≤ port < 65536 ∧ lenZ zone < 65536.

Lemma PutUint16_inj a b : 0 ≤ a < 65536 → 0 ≤ b < 65536 → PutUint16 a = PutUint16 b → a = b.
Proof. intros Ha Hb E. rewrite <- (be_decode_PutUint16 a), <- (be_decode_PutUint16 b) by done. by rewrite E. Qed.

Lemma PutUint32_inj a b : 0 ≤ a < 2 ^ 32 → 0 ≤ b < 2 ^ 32 → PutUint32 a = PutUint32 b → a = b.
Proof.
  intros Ha Hb E. rewrite <- (Uint32_PutUint32_app a []), <- (Uint32_PutUint32_app b []) by done. by rewrite E.
Qed.

(** The four or sixteen octets of an address determine its sixteen. *)
Lemma To4_cases ip :
  length ip = 4%nat ∨ length ip = 16%nat →
  (∃ v4, To4 ip = Some v4 ∧ length v4 = 4%nat ∧ To16 ip = Some (v4InV6Prefix ++ v4)) ∨ (To4 ip = None ∧ To16 ip = Some ip ∧ length ip = 16%nat).
Proof.
  intros Hl. unfold To4, To16. destruct (decide (length ip = 4%nat)) as [E | E]; [left; by exists ip |].
  destruct Hl as [? | Hl]; [done |]. destruct (decide (length ip = 16%nat)); [| done].
  destruct (decide _) as [[_ Hp] | Hn]; [left | right; by split_and!].
  exists (drop 12 ip). split_and!; [done | by rewrite length_drop, Hl |]. by rewrite <- Hp, take_drop.
Qed.

Lemma sessionIDHMACAddress_inj ip port zone ip' port' zone' k k' :
  udpAddressOk ip port zone → udpAddressOk ip' port' zone' → length k = length k' →
  sessionIDHMACAddress (Some (UDPAddr ip port zone)) ++ k = sessionIDHMACAddress (Some (UDPAddr ip' port' zone')) ++ k' →
  To16 ip = To16 ip' ∧ port = port' ∧ zone = zone' ∧ k = k'.
Proof.
  intros (Hi & Hp & Hz) (Hi' & Hp' & Hz') Hk. unfold sessionIDHMACAddress.
  assert (Htail : ∀ a a' : bytes, length a = length a' →
    (a ++ PutUint16 port ++ PutUint16 (lenZ zone) ++ zone) ++ k = (a' ++ PutUint16 port' ++ PutUint16 (lenZ zone') ++ zone') ++ k' →
    a = a' ∧ port = port' ∧ zone = zone' ∧ k = k').
  { intros a a' Ha E. rewrite <- !app_assoc in E. apply app_inj_1 in E as [-> E]; [| done].
    apply app_inj_1 in E as [Ep E]; [| by rewrite !length_PutUint16]. apply app_inj_1 in E as [Ez E]; [| by rewrite !length_PutUint16].
    apply PutUint16_inj in Ep; [| done | done]. apply PutUint16_inj in Ez; [| unfold lenZ in *; lia ..].
    apply app_inj_1 in E as [-> ->]; [done | unfold lenZ in Ez; lia]. }
  destruct (To4_cases ip Hi) as [(v & E4 & Hv & E16) | (E4 & E16 & Hl)], (To4_cases ip' Hi') as [(v' & E4' & Hv' & E16') | (E4' & E16' & Hl')];
    rewrite E4, E4', E16, E16'; cbn [default]; intros [= E].
  - apply Htail in E as (-> & ? & ? & ?); [| congruence]. by split_and!.
  - apply Htail in E as (-> & ? & ? & ?); [| congruence]. by split_and!.
Qed.

(** C31: a cookie that was made for one client is good for no other: whoever
    presents it sends from the same address, port and zone, with the same session
    id, less than ninety seconds later and less than sixty earlier, unless what was
    signed for the one client and what is signed to check the other, in one of the four
    buckets that are tried, are different messages whose digests begin with the same
    eight octets. *)
Theorem cookie_binds_client s client client' ip port zone ip' port' zone' t t' :
  sg_handwindow s = defaultHandshakeWindowSeconds → length client = SessionIDLength → length client' = SessionIDLength →
  udpAddressOk ip port zone → udpAddressOk ip' port' zone' → 0 ≤ t < 2 ^ 32 → 0 ≤ t' < 2 ^ 32 →
  validateAt cr s client' (Some (UDPAddr ip' port' zone')) (deriveSessionIDAt cr s client (Some (UDPAddr ip port zone)) t 0) t' = true →
  client' = client ∧ To16 ip' = To16 ip ∧ port' = port ∧ zone' = zone ∧ t - 60 < t' < t + 90 ∨
  ∃ offset, -2 ≤ offset ≤ 1 ∧
    let signed := cookieMessage (bucketOf defaultHandshakeWindowSeconds t 0) (Some (UDPAddr ip port zone)) client in
    let checked := cookieMessage (bucketOf defaultHandshakeWindowSeconds t' offset) (Some (UDPAddr ip' port' zone')) client' in
    checked ≠ signed ∧ take SessionIDLength (cr_hmac cr "sha256" (sg_hmacKey s) checked) = take SessionIDLength (cr_hmac cr "sha256" (sg_hmacKey s) signed).
Proof.
  intros Hw Hc Hc' Ha Ha' Ht Ht' (o & Ho & E)%validateAt_true. unfold deriveSessionIDAt in E. rewrite Hw in E.
  set (m' := cookieMessage (bucketOf _ t' o) _ _) in E. set (m := cookieMessage (bucketOf _ t 0) _ _) in E.
  destruct (decide (m' = m)) as [Em |]; [left | right; by exists o].
  subst m m'. unfold cookieMessage in Em. apply app_inj_1 in Em as [Eb Em]; [| by rewrite !length_PutUint32].
  apply sessionIDHMACAddress_inj in Em as (? & ? & ? & ?); [| done | done | congruence]. split_and!; try done.
  all: apply PutUint32_inj in Eb; [| apply u32_range | apply u32_range].
  all: unfold bucketOf, defaultHandshakeWindowSeconds, u32 in Eb; change ((60 + 1) `quot` 2) with 30 in Eb.
  all: rewrite !Z.quot_div_nonneg, <- !Zplus_mod in Eb by lia.
  all: pose proof (Z.div_mod t 30 ltac:(lia)); pose proof (Z.div_mod t' 30 ltac:(lia)).
  all: pose proof (Z.mod_pos_bound t 30 ltac:(lia)); pose proof (Z.mod_pos_bound t' 30 ltac:(lia)).
  all: assert (Eq : t' / 30 + o = t / 30); [| lia].
  all: rewrite (Z.mod_small (t / 30 + 0)) in Eb by lia.
  all: destruct (decide (0 ≤ t' / 30 + o)); [rewrite Z.mod_small in Eb by lia; lia |].
  all: replace ((t' / 30 + o) mod 2 ^ 32) with (t' / 30 + o + 2 ^ 32) in Eb; [lia |].
  all: symmetry; rewrite <- (Z.mod_small (t' / 30 + o + 2 ^ 32) (2 ^ 32)) at 1 by lia; rewrite <- (Z_mod_plus_full (t' / 30 + o) 1 (2 ^ 32)); f_equal; lia.
Qed.

End CookieLaws.

Section Handshake.
Context (cr : Crypto).

(** A challenge carries the session id that the digest gives, and names the client. *)
Lemma preDecrypt_challenge force static s policy raw addr now t reapNow clock challenge sid cid policy' :
  preDecryptUDPPacket cr force static s policy raw addr now t reapNow clock = (udpPreDecryptChallenge challenge sid cid, policy') →
  sid = deriveSessionIDAt cr s cid addr t 0 ∧ cid ≠ zeroSessionID.
Proof.
  unfold preDecryptUDPPacket. destruct (decodeUDPPreDecryptPacket _ _ _ _ _) as [[[packet protection] early] | err]; [| done].
  destruct (_ || _) eqn:Hid; [done |]. apply orb_false_iff in Hid as [_ Hid%bool_decide_eq_false].
  destruct (_ || _).
  - destruct (validateInitialClientReset packet); [| done]. destruct (allowInitialPacket policy now) as [allowed p].
    destruct (negb allowed); [done |]. destruct (_ && _); [by destruct force |].
    destruct (encodeUDPPreDecryptPacket _ _ _ _ _); [| done]. intros [= <- <- <- <-]. done.
  - destruct (_ || _); [| done]. destruct (_ || _); [done |]. by destruct (negb _).
Qed.

(** C30: the server keeps nothing of a client between its challenge and the answer:
    a control packet that names the challenge's session id and the client's own,
    and comes from the same address within sixty seconds, is accepted whatever the
    server did meanwhile, whichever protection its sender used. *)
Theorem challenge_answer_accepted force static s policy raw addr now t reapNow clock challenge sid cid policy1
    policy2 raw' now' t' reapNow' clock' packet protection early :
  preDecryptUDPPacket cr force static s policy raw addr now t reapNow clock = (udpPreDecryptChallenge challenge sid cid, policy1) →
  sg_handwindow s = defaultHandshakeWindowSeconds → 0 ≤ t → t ≤ t' ≤ t + 60 →
  decodeUDPPreDecryptPacket cr static raw' reapNow' clock' = Ok (packet, protection, early) →
  pkt_Opcode packet ∈ [OpcodeControlV1; OpcodeAcknowledgmentV1; OpcodeControlWKCv1] →
  pkt_KeyID packet = 0 → pkt_AcknowledgmentIDs packet ≠ [] → sid ≠ zeroSessionID →
  pkt_LocalSessionID packet = cid → pkt_RemoteSessionID packet = sid →
  preDecryptUDPPacket cr force static s policy2 raw' addr now' t' reapNow' clock' =
    (udpPreDecryptAccept packet (seedUDPProtectionAfterChallenge protection t') sid cid false, policy2).
Proof.
  intros Hch Hw Ht Ht' Hdec Hop Hkey Hack Hsid Hcid Hrem. apply preDecrypt_challenge in Hch as [-> Hz].
  unfold preDecryptUDPPacket. rewrite Hdec, Hkey, Hcid, Hrem, cookie_fresh by (done || lia).
  rewrite !bool_decide_eq_false_2 by done. destruct (pkt_AcknowledgmentIDs packet); [done |]. cbn [hasAny negb orb].
  apply elem_of_cons in Hop as [-> | [-> | [-> | []%not_elem_of_nil]%elem_of_cons]%elem_of_cons]; reflexivity.
Qed.



End Handshake.

(** ** The hypotheses can hold *)

Module AdmissionWitness.

(** A digest that reads the message from its end. *)
Definition crypto : Crypto :=
  Codec.mkCrypto (λ _ _, Err (ErrNew "none")) (λ _, Err (ErrNew "none")) (λ _, Err (ErrNew "none")) (λ _ key m, reverse m ++ key).

Definition signer : sessionIDHMACSigner := mkSigner (replicate 32 x01) defaultHandshakeWindowSeconds.
Definition protection : tlsControlProtection := mkProtection None None [].
Definition client : bytes := [x01; x02; x03; x04; x05; x06; x07; x08].
Definition address : option netAddr := Some (UDPAddr [xc0; x00; x02; x01] 1194 []).
Definition policy : serverResourcePolicy := mkPolicy 1024 0 0 0 0 100 (10 * Second) 0 0 0.
Definition reset : Packet := mkPacket OpcodeControlHardResetClientV2 0 zeroPeerID client [] zeroSessionID 0 [].
Definition rawOf (packet : Packet) : bytes := match Packet_Bytes packet with Ok raw => raw | Err _ => [] end.
Definition sid : bytes := deriveSessionIDAt crypto signer client address 100 0.
Definition answer : Packet := mkPacket OpcodeControlV1 0 zeroPeerID client [0] sid 1 [x16].

(** Two connections in ten nanoseconds. *)
Definition metered : ServerOptions :=
  mkServerOptions EmptyString (mkServerTransport EmptyString EmptyString None None EmptyString) (mkServerResource 0 2 10 0 0)
    (mkServerDataChannel 0 0 false EmptyString EmptyString [] EmptyString EmptyString 0 0 0)
    (mkTLSOptions noMaterial noMaterial noMaterial noMaterial noMaterial noMaterial EmptyString EmptyString [] EmptyString [] EmptyString
       EmptyString EmptyString EmptyString EmptyString EmptyString EmptyString EmptyString)
    false EmptyString false false (mkServerTiming 0 false 0 0 0 0 0) (mkServerTunnel [] EmptyString [] AddrInvalid AddrInvalid)
    (mkServerPush [] [] [] [] [] false 0 false 0 false false []) noMaterial 0.

Definition times : list Time := [5; 13; 14; 15; 16; 17].

End AdmissionWitness.

Lemma connection_rate_limited_witness :
  let answers := connections (newServerResourcePolicy AdmissionWitness.metered) AdmissionWitness.times in
  answers = [(5, true); (13, true); (14, false); (15, true); (16, true); (17, false)] ∧ admitted 8 10 answers ≤ 2 * 2.
Proof.
  cbv zeta. split; [vm_compute; reflexivity |].
  apply (connection_rate_limited AdmissionWitness.metered AdmissionWitness.times 8); cbn; [lia | lia | | ]; unfold AdmissionWitness.times.
  - repeat constructor; lia.
  - repeat constructor; lia.
Defined.

Lemma cookie_binds_client_witness :
  let ip := [xc0; x00; x02; x01] in
  validateAt AdmissionWitness.crypto AdmissionWitness.signer AdmissionWitness.client (Some (UDPAddr (v4InV6Prefix ++ ip) 1194 []))
    AdmissionWitness.sid 160 = true ∧
  (AdmissionWitness.client = AdmissionWitness.client ∧ To16 (v4InV6Prefix ++ ip) = To16 ip ∧ 1194 = 1194 ∧ @nil Byte.byte = [] ∧ 100 - 60 < 160 < 100 + 90 ∨
   ∃ offset, -2 ≤ offset ≤ 1 ∧
     let signed := cookieMessage (bucketOf defaultHandshakeWindowSeconds 100 0) (Some (UDPAddr ip 1194 [])) AdmissionWitness.client in
     let checked := cookieMessage (bucketOf defaultHandshakeWindowSeconds 160 offset) (Some (UDPAddr (v4InV6Prefix ++ ip) 1194 [])) AdmissionWitness.client in
     checked ≠ signed ∧ take SessionIDLength (cr_hmac AdmissionWitness.crypto "sha256" (replicate 32 x01) checked) =
       take SessionIDLength (cr_hmac AdmissionWitness.crypto "sha256" (replicate 32 x01) signed)).
Proof.
  cbv zeta. split; [vm_compute; reflexivity |].
  apply (cookie_binds_client AdmissionWitness.crypto AdmissionWitness.signer AdmissionWitness.client AdmissionWitness.client
    [xc0; x00; x02; x01] 1194 [] (v4InV6Prefix ++ [xc0; x00; x02; x01]) 1194 [] 100 160);
    [done | done | done | split_and!; [by left | lia | lia | done] | split_and!; [by right | lia | lia | done] | lia | lia | vm_compute; reflexivity].
Defined.

Lemma challenge_answer_accepted_witness :
  let w := preDecryptUDPPacket AdmissionWitness.crypto true AdmissionWitness.protection AdmissionWitness.signer in
  ∃ challenge policy1, w AdmissionWitness.policy (AdmissionWitness.rawOf AdmissionWitness.reset) AdmissionWitness.address 5 100 0 0 =
    (udpPreDecryptChallenge challenge AdmissionWitness.sid AdmissionWitness.client, policy1) ∧
  w AdmissionWitness.policy (AdmissionWitness.rawOf AdmissionWitness.answer) AdmissionWitness.address 6 130 0 0 =
    (udpPreDecryptAccept AdmissionWitness.answer (seedUDPProtectionAfterChallenge AdmissionWitness.protection 130) AdmissionWitness.sid
       AdmissionWitness.client false, AdmissionWitness.policy).
Proof.
  cbv zeta. eexists _, _. split; [vm_compute; reflexivity |].
  eapply (challenge_answer_accepted AdmissionWitness.crypto true AdmissionWitness.protection AdmissionWitness.signer AdmissionWitness.policy
    (AdmissionWitness.rawOf AdmissionWitness.reset) AdmissionWitness.address 5 100 0 0);
    [vm_compute; reflexivity | done | lia | lia | vm_compute; reflexivity | left | done | done | done | done | done].
Defined.

