(* ===== verification/Auth.v ===== *)
(** * Authentication ([auth.go], [challenge.go], and the classification of
      [control_directives.go] and [client_restart.go])

    What a client makes of the server's authentication messages, the credentials
    it stages, and the challenges its program answers.  The callbacks of a
    challenge are events; the channel that tells watchers of a change is a number,
    with the set of the channels that were closed. *)

From Stdlib Require Import Strings.Ascii.
From S2P Require Import Prelude GoStrings Base64 Netip Crypto Codec Fragment Compression KeyMethod Options Negotiation PushOptions PushLaws TunnelConfig.

(** ** Errors *)

Definition ErrAuthenticationFailed : goerr := ErrNew "authentication failed".
Definition ErrServerRestart : goerr := ErrNew "server requested restart".
Definition ErrServerHalt : goerr := ErrNew "server halted session".
Definition ErrServerExit : goerr := ErrNew "server exited".
Definition ErrNoPendingChallenge : goerr := ErrNew "no pending openvpn challenge".
Definition ErrChallengeNotAnswerable : goerr := ErrNew "challenge does not accept a response".
Definition ErrChallengeCanceled : goerr := ErrNew "authentication challenge canceled".
Definition ErrPullFilterRejected : goerr := ErrNew "pushed option rejected by pull-filter".
Definition ErrCompressionPushRejected : goerr := ErrNew "pushed compression rejected".

Inductive AuthFailedAdvance := AuthFailedAdvanceNextAddress | AuthFailedAdvanceNextRemote | AuthFailedAdvanceStay.

Inductive clientRemoteAdvance := clientRemoteAdvanceStay | clientRemoteAdvanceNextAddress | clientRemoteAdvanceNextRemote.

Record CRV1Challenge := mkCRV1 {
  crv_StateID : string;
  crv_Username : string;
  crv_ChallengeText : string;
  crv_Echo : bool;
}.

(** The errors that end a client's session: the types of [auth.go] and
    [client_restart.go], those of [crypto/x509] that the client looks for, plain
    errors, and what wraps and joins them. *)
Inductive clientErr :=
| Plain (e : goerr)
| AuthFailedTemporaryError (BackoffSeconds : Z) (Advance : AuthFailedAdvance) (Reason : string)
| AuthTokenAuthenticationFailedError (Reason : string)
| AuthFailedTerminalError (Reason : string)
| AuthChallengeError (Challenge : CRV1Challenge)
| serverRestartError (advance : clientRemoteAdvance)
| UnknownAuthorityError
| HostnameError
| CertificateInvalidError
| Wrapped (e : clientErr) (message : string)
| Joined (e e' : clientErr).

#[export] Instance AuthFailedAdvance_eq_dec : EqDecision AuthFailedAdvance.
Proof. solve_decision. Defined.
#[export] Instance clientRemoteAdvance_eq_dec : EqDecision clientRemoteAdvance.
Proof. solve_decision. Defined.
#[export] Instance CRV1Challenge_eq_dec : EqDecision CRV1Challenge.
Proof. solve_decision. Defined.
#[export] Instance clientErr_eq_dec : EqDecision clientErr.
Proof. solve_decision. Defined.

(** [errors.Is] and [E.IsMulti]: the errors an error wraps. *)
Fixpoint goerrIs (e target : goerr) : bool :=
  bool_decide (e = target) ||
  match e with
  | ErrNew _ => false
  | ErrExtend base _ => goerrIs base target
  | ErrExtendCause base _ cause => goerrIs base target || goerrIs cause target
  | ErrCause cause _ => goerrIs cause target
  end.

Fixpoint Is (e : clientErr) (target : goerr) : bool :=
  match e with
  | Plain e => goerrIs e target
  | AuthFailedTemporaryError _ _ _ | AuthTokenAuthenticationFailedError _ | AuthFailedTerminalError _ | AuthChallengeError _ =>
      goerrIs ErrAuthenticationFailed target
  | serverRestartError _ => goerrIs ErrServerRestart target
  | UnknownAuthorityError | HostnameError | CertificateInvalidError => false
  | Wrapped e _ => Is e target
  | Joined e e' => Is e target || Is e' target
  end.

Definition IsMulti (e : clientErr) (targets : list goerr) : bool := existsb (Is e) targets.

(** [E.Cast]: the first error that [f] recognises among those wrapped. *)
Fixpoint Cast {A} (f : clientErr → option A) (e : clientErr) : option A :=
  match f e with
  | Some x => Some x
  | None =>
      match e with
      | Wrapped e _ => Cast f e
      | Joined e e' => match Cast f e with Some x => Some x | None => Cast f e' end
      | _ => None
      end
  end.

Definition asTemporary (e : clientErr) : option (Z * AuthFailedAdvance * string) :=
  match e with AuthFailedTemporaryError backoff advance reason => Some (backoff, advance, reason) | _ => None end.
Definition asTokenFailure (e : clientErr) : option string :=
  match e with AuthTokenAuthenticationFailedError reason => Some reason | _ => None end.
Definition asTerminal (e : clientErr) : option string :=
  match e with AuthFailedTerminalError reason => Some reason | _ => None end.
Definition asChallenge (e : clientErr) : option CRV1Challenge :=
  match e with AuthChallengeError challenge => Some challenge | _ => None end.
Definition asRestart (e : clientErr) : option clientRemoteAdvance :=
  match e with serverRestartError advance => Some advance | _ => None end.

(** ** Messages *)

Definition authFailedPayload : string := "AUTH_FAILED".
Definition authPendingPayload : string := "AUTH_PENDING".

Definition isAuthFailedPayload (payload : bytes) : bool :=
  let normalizedPayload := normalizeControlPayload payload in
  if negb (nonEmpty normalizedPayload) then false else
  if EqualFold normalizedPayload authFailedPayload then true else
  HasPrefix (ToUpper normalizedPayload) (authFailedPayload +:+ ",").

Definition buildAuthFailedPayload (reason : string) : bytes :=
  let trimmedReason := TrimSpace reason in
  if nonEmpty trimmedReason then bytesOf (authFailedPayload +:+ "," +:+ trimmedReason) else bytesOf authFailedPayload.

Record authFailedInfo := mkInfo {
  fi_failed : bool;
  fi_temporary : bool;
  fi_reason : string;
  fi_backoffSeconds : Z;
  fi_advance : AuthFailedAdvance;
}.

#[export] Instance eta_authFailedInfo : Eta authFailedInfo := λ i,
  mkInfo (fi_failed i) (fi_temporary i) (fi_reason i) (fi_backoffSeconds i) (fi_advance i).

Definition noInfo : authFailedInfo := mkInfo false false EmptyString 0 AuthFailedAdvanceNextAddress.

(** One entry of the flags of a temporary failure. *)
Definition applyFlag (info : authFailedInfo) (flagEntry : string) : authFailedInfo :=
  let trimmedFlag := TrimSpace flagEntry in
  if negb (nonEmpty trimmedFlag) then info else
  match Cut " "%char trimmedFlag with
  | None => info
  | Some (keyword, value) =>
      let trimmedValue := TrimSpace value in
      if decide (ToLower keyword = "backoff") then
        match ParseUint trimmedValue 32 with Ok parsedBackoff => info <| fi_backoffSeconds := parsedBackoff |> | Err _ => info end
      else if decide (ToLower keyword = "advance") then
        let v := ToLower trimmedValue in
        if decide (v = "no") then info <| fi_advance := AuthFailedAdvanceStay |>
        else if decide (v = "remote") then info <| fi_advance := AuthFailedAdvanceNextRemote |>
        else if decide (v = "addr") then info <| fi_advance := AuthFailedAdvanceNextAddress |> else info
      else info
  end.

Definition applyAuthFailedTemporaryFlags (info : authFailedInfo) (bracketContent : string) : authFailedInfo :=
  foldl applyFlag info (Split ","%char bracketContent).

Definition parseAuthFailedPayload (payload : bytes) : authFailedInfo :=
  let normalized := normalizeControlPayload payload in
  if negb (nonEmpty normalized) then noInfo else
  if negb (HasPrefix (ToUpper normalized) authFailedPayload) then noInfo else
  let suffix := TrimPrefix normalized authFailedPayload in
  if negb (nonEmpty suffix) then noInfo <| fi_failed := true |> else
  if negb (HasPrefix suffix ",") then noInfo else
  let suffix := TrimPrefix suffix "," in
  let info := noInfo <| fi_failed := true |> in
  if negb (HasPrefix (ToUpper suffix) "TEMP") then info <| fi_reason := TrimSpace suffix |> else
  let info := info <| fi_temporary := true |> in
  let suffix := TrimPrefix suffix "TEMP" in
  let '(info, suffix) :=
    if HasPrefix suffix "[" then
      match Cut "]"%char (TrimPrefix suffix "[") with
      | Some (bracketContent, rest) => (applyAuthFailedTemporaryFlags info bracketContent, rest)
      | None => (info, suffix)
      end
    else (info, suffix) in
  info <| fi_reason := TrimSpace (TrimPrefix suffix ":") |>.

Definition AuthRetryModeNone : string := "none".
Definition AuthRetryModeNoInteract : string := "nointeract".
Definition AuthRetryModeInteract : string := "interact".

Definition resolveAuthRetryMode (value : string) : string :=
  if decide (value = AuthRetryModeNoInteract) then AuthRetryModeNoInteract else
  if decide (value = AuthRetryModeInteract) then AuthRetryModeInteract else AuthRetryModeNone.

(** One field of [AUTH_PENDING]. *)
Definition pendingTimeoutField (fieldEntry : string) : option Z :=
  let trimmedField := TrimSpace fieldEntry in
  if negb (HasPrefix (ToLower trimmedField) "timeout") then None else
  let valueText := TrimSpace (TrimPrefix trimmedField "timeout") in
  let valueText := TrimSpace (TrimPrefix valueText "=") in
  match ParseUint valueText 32 with Ok parsedTimeout => Some parsedTimeout | Err _ => None end.

Fixpoint firstTimeout (fields : list string) : option Z :=
  match fields with
  | [] => None
  | field :: fields => match pendingTimeoutField field with Some t => Some t | None => firstTimeout fields end
  end.

Definition parseAuthPendingTimeout (payload : bytes) : option Z :=
  let normalized := normalizeControlPayload payload in
  if negb (nonEmpty normalized) then None else
  if negb (HasPrefix (ToUpper normalized) authPendingPayload) then None else
  let suffix := TrimPrefix normalized authPendingPayload in
  if negb (HasPrefix suffix ",") then None else
  firstTimeout (Split ","%char (TrimPrefix suffix ",")).

Definition authPendingDeadline (options : ClientOptions) (controlRecord : bytes) (now : Time) : Time :=
  let handWindow := cti_HandWindow (co_Timing options) in
  let renegotiationInterval := cti_RenegotiationInterval (co_Timing options) in
  let maximumExtension := Z.max handWindow (renegotiationInterval `quot` 2) in
  let extension := match parseAuthPendingTimeout controlRecord with Some parsedTimeout => parsedTimeout * Second | None => handWindow end in
  now + Z.min extension maximumExtension.

(** [strings.SplitN] with at most [n + 1] parts. *)
Fixpoint SplitN (n : nat) (sep : ascii) (s : string) : list string :=
  match n with
  | O => [s]
  | S n => match Cut sep s with Some (before, after) => before :: SplitN n sep after | None => [s] end
  end.

Definition parseCRV1Challenge (challenge : string) : option CRV1Challenge :=
  match SplitN 4 ":"%char challenge with
  | magic :: flags :: stateID :: user :: text =>
      if decide (magic = "CRV1") then
        if negb (hasAny text) && negb (nonEmpty user) then None else
        Some (mkCRV1 stateID (stringOf (DecodeString user).1) (default EmptyString (head text)) (containsChar "E"%char flags))
      else None
  | _ => None
  end.

Definition extractCRV1FromAuthFailed (payload : bytes) : option CRV1Challenge :=
  let normalized := normalizeControlPayload payload in
  if negb (HasPrefix (ToUpper normalized) (authFailedPayload +:+ ",")) then None else
  parseCRV1Challenge (String.substring (String.length authFailedPayload + 1) (String.length normalized) normalized).

Definition newAuthFailedErrorFromPayload (payload : bytes) (authRetry : string) : clientErr :=
  match extractCRV1FromAuthFailed payload with
  | Some challenge => AuthChallengeError challenge
  | None =>
      let info := parseAuthFailedPayload payload in
      let none := bool_decide (resolveAuthRetryMode authRetry = AuthRetryModeNone) in
      if negb (fi_failed info) then (if none then AuthFailedTerminalError EmptyString else Plain ErrAuthenticationFailed) else
      if fi_temporary info then AuthFailedTemporaryError (fi_backoffSeconds info) (fi_advance info) (fi_reason info) else
      if none then AuthFailedTerminalError (fi_reason info) else Plain ErrAuthenticationFailed
  end.

(** ** Directives *)

Inductive tlsControlDirective :=
| tlsControlDirectiveUnknown
| tlsControlDirectiveAuthFailed
| tlsControlDirectiveAuthPending
| tlsControlDirectivePushReply
| tlsControlDirectiveRestart
| tlsControlDirectiveHalt
| tlsControlDirectiveExit
| tlsControlDirectiveInfoPre
| tlsControlDirectiveInfo
| tlsControlDirectiveCRResponse.

#[export] Instance tlsControlDirective_eq_dec : EqDecision tlsControlDirective.
Proof. solve_decision. Defined.

(** The name alone, or the name and a comma. *)
Definition isCommand (upperPayload name : string) : bool :=
  bool_decide (upperPayload = name) || HasPrefix upperPayload (name +:+ ",").

Definition classifyTLSControlDirective (payload : bytes) : tlsControlDirective :=
  let normalizedPayload := normalizeControlPayload payload in
  if negb (nonEmpty normalizedPayload) then tlsControlDirectiveUnknown else
  let upperPayload := ToUpper normalizedPayload in
  if isCommand upperPayload "AUTH_FAILED" then tlsControlDirectiveAuthFailed else
  if isCommand upperPayload "AUTH_PENDING" then tlsControlDirectiveAuthPending else
  if HasPrefix upperPayload "PUSH_" then tlsControlDirectivePushReply else
  if isCommand upperPayload "RESTART" then tlsControlDirectiveRestart else
  if isCommand upperPayload "HALT" then tlsControlDirectiveHalt else
  if isCommand upperPayload "INFO_PRE" then tlsControlDirectiveInfoPre else
  if isCommand upperPayload "INFO" then tlsControlDirectiveInfo else
  if isCommand upperPayload "CR_RESPONSE" then tlsControlDirectiveCRResponse else
  if isCommand upperPayload "EXIT" then tlsControlDirectiveExit else tlsControlDirectiveUnknown.

Definition newServerRestartError (payload : bytes) : clientErr :=
  match Cut ","%char (normalizeControlPayload payload) with
  | None => serverRestartError clientRemoteAdvanceStay
  | Some (_, flagsPayload) =>
      let flagsPayload := TrimSpace flagsPayload in
      if negb (HasPrefix flagsPayload "[") then serverRestartError clientRemoteAdvanceStay else
      match Cut "]"%char (TrimPrefix flagsPayload "[") with
      | None => serverRestartError clientRemoteAdvanceStay
      | Some (flags, _) =>
          serverRestartError (if containsChar "N"%char (ToUpper flags) then clientRemoteAdvanceNextAddress else clientRemoteAdvanceStay)
      end
  end.

Definition tlsProtocolFlagCCExit : string := "cc-exit".
Definition tlsProtocolFlagTLSKeyMaterialExport : string := "tls-ekm".

Definition shouldSendCCExitOverControlChannel (c : TunnelConfiguration) : bool :=
  existsb (λ protocolFlag, EqualFold (TrimSpace protocolFlag) tlsProtocolFlagCCExit) (tc_ProtocolFlags c).

Definition tunnelUsesKeyMaterialExport (c : TunnelConfiguration) : bool :=
  EqualFold (TrimSpace (tc_KeyDerivation c)) tlsProtocolFlagTLSKeyMaterialExport ||
  existsb (λ protocolFlag, EqualFold (TrimSpace protocolFlag) tlsProtocolFlagTLSKeyMaterialExport) (tc_ProtocolFlags c).

(** ** Challenges *)

Inductive ChallengeKind := ChallengeCredentials | ChallengeSecret | ChallengeMessage | ChallengeOpenURL.

#[export] Instance ChallengeKind_eq_dec : EqDecision ChallengeKind.
Proof. solve_decision. Defined.

Record Challenge := mkChallenge {
  ch_ID : string;
  ch_Kind : ChallengeKind;
  ch_Username : string;
  ch_Message : string;
  ch_URL : string;
  ch_SecretMessage : string;
  ch_Echo : bool;
  ch_PreviousError : string;
  ch_Deadline : Time;
}.

#[export] Instance eta_Challenge : Eta Challenge := λ c,
  mkChallenge (ch_ID c) (ch_Kind c) (ch_Username c) (ch_Message c) (ch_URL c) (ch_SecretMessage c) (ch_Echo c) (ch_PreviousError c) (ch_Deadline c).

#[export] Instance Challenge_eq_dec : EqDecision Challenge.
Proof. solve_decision. Defined.

Definition noChallenge : Challenge := mkChallenge EmptyString ChallengeMessage EmptyString EmptyString EmptyString EmptyString false EmptyString 0.

Record ChallengeResponse := mkResponse { cres_Username : string; cres_Password : string; cres_Secret : string }.

(** Who published a challenge: the client, or one of its sessions. *)
Inductive challengeOwner := OwnerClient | OwnerSession (session : nat).

#[export] Instance challengeOwner_eq_dec : EqDecision challengeOwner.
Proof. solve_decision. Defined.

(** [complete] is nil for a challenge that takes no answer. *)
Record pendingChallengeState := mkPending {
  pc_challenge : Challenge;
  pc_owner : challengeOwner;
  pc_answerable : bool;
}.

#[export] Instance eta_pendingChallengeState : Eta pendingChallengeState := λ p, mkPending (pc_challenge p) (pc_owner p) (pc_answerable p).

Record stagedCredentials := mkStaged {
  sc_defined : bool;
  sc_interactive : bool;
  sc_username : string;
  sc_password : string;
}.

Definition noCredentials : stagedCredentials := mkStaged false false EmptyString EmptyString.

(** [au_updated] is the channel that watchers are given; [au_closedChannels] are the
    channels that were closed. *)
Record clientAuthenticationSession := mkAuthentication {
  au_updated : nat;
  au_closedChannels : list nat;
  au_pendingChallenge : option pendingChallengeState;
  au_staged : stagedCredentials;
  au_sentInteractiveCredentials : bool;
  au_previousAuthenticationError : string;
  au_closed : bool;
}.

#[export] Instance eta_clientAuthenticationSession : Eta clientAuthenticationSession := λ a,
  mkAuthentication (au_updated a) (au_closedChannels a) (au_pendingChallenge a) (au_staged a) (au_sentInteractiveCredentials a)
  (au_previousAuthenticationError a) (au_closed a).

Definition newAuthenticationSession : clientAuthenticationSession :=
  mkAuthentication 0 [] None noCredentials false EmptyString false.

(** What becomes of a challenge. *)
Inductive challengeCallback :=
| Completed (challenge : Challenge) (response : ChallengeResponse)
| Cancelled (challenge : Challenge).

Definition PendingChallenge (a : clientAuthenticationSession) : option Challenge := pc_challenge <$> au_pendingChallenge a.

Definition ChallengeUpdated (a : clientAuthenticationSession) : nat := au_updated a.

(** Closing a channel that is closed panics: [None]. *)
Definition closeChannel (channel : nat) (closed : list nat) : option (list nat) :=
  if decide (channel ∈ closed) then None else Some (channel :: closed).

Definition signalChallengeUpdatedLocked (a : clientAuthenticationSession) : option clientAuthenticationSession :=
  if au_closed a then
    if decide (au_updated a ∈ au_closedChannels a) then Some a
    else closed ← closeChannel (au_updated a) (au_closedChannels a); Some (a <| au_closedChannels := closed |>)
  else
    closed ← closeChannel (au_updated a) (au_closedChannels a);
    Some (a <| au_closedChannels := closed |> <| au_updated := S (au_updated a) |>).

(** An operation: [None] is a panic; otherwise the error, the callback it makes and the state. *)
Definition challengeResult : Type := option (result unit * list challengeCallback * clientAuthenticationSession).

Definition CompleteChallenge (a : clientAuthenticationSession) (challengeID : string) (response : ChallengeResponse) : challengeResult :=
  match au_pendingChallenge a with
  | None => Some (Err ErrNoPendingChallenge, [], a)
  | Some pending =>
      if decide (ch_ID (pc_challenge pending) = challengeID) then
        if negb (pc_answerable pending) then Some (Err ErrChallengeNotAnswerable, [], a) else
        a ← signalChallengeUpdatedLocked (a <| au_pendingChallenge := None |>);
        Some (Ok (), [Completed (pc_challenge pending) response], a)
      else Some (Err ErrNoPendingChallenge, [], a)
  end.

Definition CancelChallenge (a : clientAuthenticationSession) (challengeID : string) : challengeResult :=
  match au_pendingChallenge a with
  | None => Some (Err ErrNoPendingChallenge, [], a)
  | Some pending =>
      if decide (ch_ID (pc_challenge pending) = challengeID) then
        a ← signalChallengeUpdatedLocked (a <| au_pendingChallenge := None |>);
        Some (Ok (), [Cancelled (pc_challenge pending)], a)
      else Some (Err ErrNoPendingChallenge, [], a)
  end.

Definition publishChallenge (a : clientAuthenticationSession) (state : pendingChallengeState) : option clientAuthenticationSession :=
  if au_closed a then Some a else
  let state :=
    if nonEmpty (ch_PreviousError (pc_challenge state)) then state
    else state <| pc_challenge := (pc_challenge state) <| ch_PreviousError := au_previousAuthenticationError a |> |> in
  signalChallengeUpdatedLocked (a <| au_previousAuthenticationError := EmptyString |> <| au_pendingChallenge := Some state |>).

Definition clearChallengeOwnedBy (a : clientAuthenticationSession) (owner : challengeOwner) : option clientAuthenticationSession :=
  match au_pendingChallenge a with
  | Some pending =>
      if decide (pc_owner pending = owner) then signalChallengeUpdatedLocked (a <| au_pendingChallenge := None |>) else Some a
  | None => Some a
  end.

Definition updateChallengeDeadline (a : clientAuthenticationSession) (owner : challengeOwner) (deadline : Time) : option clientAuthenticationSession :=
  match au_pendingChallenge a with
  | Some pending =>
      if decide (pc_owner pending = owner ∧ ch_Deadline (pc_challenge pending) ≠ deadline) then
        signalChallengeUpdatedLocked
          (a <| au_pendingChallenge := Some (pending <| pc_challenge := (pc_challenge pending) <| ch_Deadline := deadline |> |>) |>)
      else Some a
  | None => Some a
  end.

Definition noteChallengeResponseSubmitted (a : clientAuthenticationSession) : clientAuthenticationSession :=
  a <| au_sentInteractiveCredentials := true |>.
Definition notePreviousAuthFailure (a : clientAuthenticationSession) (reason : string) : clientAuthenticationSession :=
  a <| au_previousAuthenticationError := reason |>.
Definition clearPreviousAuthFailure (a : clientAuthenticationSession) : clientAuthenticationSession :=
  a <| au_previousAuthenticationError := EmptyString |>.

(** What [Client.Close] does here; [closeOnce] runs it once. *)
Definition closeAuthentication (a : clientAuthenticationSession) : option clientAuthenticationSession :=
  signalChallengeUpdatedLocked (a <| au_pendingChallenge := None |> <| au_closed := true |>).

Definition challengeFlagsContain (flagBag flag : string) : bool :=
  existsb (λ flagEntry, bool_decide (TrimSpace flagEntry = flag)) (Split ","%char flagBag).

Definition parseServerPushedChallenge (payload : string) : option Challenge :=
  if HasPrefix payload "OPEN_URL:" then
    Some (noChallenge <| ch_Kind := ChallengeOpenURL |> <| ch_URL := TrimPrefix payload "OPEN_URL:" |>) else
  if HasPrefix payload "WEB_AUTH:" then
    match Cut ":"%char (TrimPrefix payload "WEB_AUTH:") with
    | None => None
    | Some (_, url) => Some (noChallenge <| ch_Kind := ChallengeOpenURL |> <| ch_URL := url |>)
    end else
  if HasPrefix payload "CR_TEXT:" then
    match Cut ":"%char (TrimPrefix payload "CR_TEXT:") with
    | None => None
    | Some (flagBag, text) =>
        Some (noChallenge <| ch_Kind := if challengeFlagsContain flagBag "R" then ChallengeSecret else ChallengeMessage |>
                          <| ch_Message := text |> <| ch_Echo := challengeFlagsContain flagBag "E" |>)
    end
  else None.

(** [newID] is what [newChallengeID] returns. *)
Definition handleServerPushedInfo (a : clientAuthenticationSession) (options : ClientOptions) (session : nat) (newID : string)
    (controlRecord : bytes) (deadline : Time) : option clientAuthenticationSession :=
  match Cut ","%char (normalizeControlPayload controlRecord) with
  | None => Some a
  | Some (_, infoPayload) =>
      match parseServerPushedChallenge infoPayload with
      | None => Some a
      | Some challenge =>
          let challenge := challenge <| ch_ID := newID |> <| ch_Username := cao_Username (co_Authentication options) |> <| ch_Deadline := deadline |> in
          publishChallenge a (mkPending challenge (OwnerSession session) (bool_decide (ch_Kind challenge = ChallengeSecret)))
      end
  end.

(** What the answer to a pushed challenge writes to the server. *)
Definition challengeAnswerPayload (response : ChallengeResponse) : bytes :=
  tlsControlStringPayload (bytesOf ("CR_RESPONSE," +:+ EncodeToString (bytesOf (cres_Secret response)))).

(** ** Credentials *)

Definition stageCredentials (a : clientAuthenticationSession) (username password : string) (interactive : bool) : clientAuthenticationSession :=
  a <| au_staged := mkStaged true interactive username password |>.

Definition purgeStagedCredentials (a : clientAuthenticationSession) : clientAuthenticationSession := a <| au_staged := noCredentials |>.

Definition noteSentCredentials (a : clientAuthenticationSession) (username password : string) (usedInteractive : bool)
    : string * string * clientAuthenticationSession :=
  (username, password, a <| au_sentInteractiveCredentials := usedInteractive |>).

(** What a session sends. *)
Definition sessionCredentials (a : clientAuthenticationSession) (c : Client) (useActiveAuthToken : bool)
    : string * string * clientAuthenticationSession :=
  let staged := au_staged a in
  match (if useActiveAuthToken then activeAuthTokenCredentials c (sc_username staged) else None) with
  | Some (tokenUsername, tokenPassword) => noteSentCredentials a tokenUsername tokenPassword false
  | None => noteSentCredentials a (sc_username staged) (sc_password staged) (sc_interactive staged)
  end.

Definition authFailedError (a : clientAuthenticationSession) (c : Client) (controlRecord : bytes) : clientErr * Client :=
  let info := parseAuthFailedPayload controlRecord in
  if negb (fi_failed info) || negb (fi_temporary info) then
    let '(tokenDefined, c) := clearAuthToken c (sc_username (au_staged a)) in
    if tokenDefined : bool then (AuthTokenAuthenticationFailedError (fi_reason info), c)
    else (newAuthFailedErrorFromPayload controlRecord (cao_AuthRetry (co_Authentication (cl_options c))), c)
  else (newAuthFailedErrorFromPayload controlRecord (cao_AuthRetry (co_Authentication (cl_options c))), c).

(** ** A challenge is resolved once, and its watchers learn of every change *)

Inductive challengeOp :=
| OpPublish (state : pendingChallengeState)
| OpClear (owner : challengeOwner)
| OpDeadline (owner : challengeOwner) (deadline : Time)
| OpComplete (challengeID : string) (response : ChallengeResponse)
| OpCancel (challengeID : string)
| OpSubmitted
| OpNote (reason : string)
| OpClearNote
| OpStage (username password : string) (interactive : bool)
| OpPurge
| OpClose.

Definition quiet (a : option clientAuthenticationSession) : challengeResult := a ← a; Some (Ok (), [], a).

Definition doOp (a : clientAuthenticationSession) (op : challengeOp) : challengeResult :=
  match op with
  | OpPublish state => quiet (publishChallenge a state)
  | OpClear owner => quiet (clearChallengeOwnedBy a owner)
  | OpDeadline owner deadline => quiet (updateChallengeDeadline a owner deadline)
  | OpComplete challengeID response => CompleteChallenge a challengeID response
  | OpCancel challengeID => CancelChallenge a challengeID
  | OpSubmitted => quiet (Some (noteChallengeResponseSubmitted a))
  | OpNote reason => quiet (Some (notePreviousAuthFailure a reason))
  | OpClearNote => quiet (Some (clearPreviousAuthFailure a))
  | OpStage username password interactive => quiet (Some (stageCredentials a username password interactive))
  | OpPurge => quiet (Some (purgeStagedCredentials a))
  | OpClose => quiet (if au_closed a then Some a else closeAuthentication a)
  end.

(** The callbacks that a sequence of operations makes. *)
Fixpoint doOps (a : clientAuthenticationSession) (ops : list challengeOp) : option (list challengeCallback * clientAuthenticationSession) :=
  match ops with
  | [] => Some ([], a)
  | op :: ops =>
      match doOp a op with
      | None => None
      | Some (_, callbacks, a) =>
          match doOps a ops with None => None | Some (later, a) => Some (callbacks ++ later, a) end
      end
  end.

Definition callbackChallenge (callback : challengeCallback) : Challenge :=
  match callback with Completed challenge _ => challenge | Cancelled challenge => challenge end.

Definition publishedID (op : challengeOp) : option string :=
  match op with OpPublish state => Some (ch_ID (pc_challenge state)) | _ => None end.

Definition pendingID (a : clientAuthenticationSession) : option string := ch_ID <$> PendingChallenge a.

(** The channel that watchers hold is open until the client closes; then nothing is pending. *)
Record authenticationOk (a : clientAuthenticationSession) : Prop := {
  ok_channels : ∀ channel, channel ∈ au_closedChannels a → (channel ≤ au_updated a)%nat;
  ok_open : au_closed a = false → au_updated a ∉ au_closedChannels a;
  ok_closed : au_closed a = true → au_updated a ∈ au_closedChannels a ∧ au_pendingChallenge a = None;
}.

Lemma newAuthenticationSession_ok : authenticationOk newAuthenticationSession.
Proof. split; cbn; [by intros ? []%not_elem_of_nil | by intros _ []%not_elem_of_nil | done]. Qed.

(** Signalling closes the watchers' channel and, while the client is open, gives a new one. *)
Lemma signal_ok a b :
  authenticationOk a → au_updated b = au_updated a → au_closedChannels b = au_closedChannels a →
  (au_closed b = au_closed a ∨ au_closed a = false) → (au_closed b = true → au_pendingChallenge b = None) →
  ∃ b', signalChallengeUpdatedLocked b = Some b' ∧ authenticationOk b' ∧ au_updated a ∈ au_closedChannels b' ∧
        (∀ channel, channel ∈ au_closedChannels a → channel ∈ au_closedChannels b') ∧
        au_pendingChallenge b' = au_pendingChallenge b ∧ au_closed b' = au_closed b.
Proof.
  intros Ha Hu Hch Hc Hp. unfold signalChallengeUpdatedLocked, closeChannel. rewrite Hu, Hch.
  destruct (au_closed b) eqn:Eb.
  - destruct (decide (au_updated a ∈ au_closedChannels a)) as [Hin | Hout].
    + exists b. split_and!; try done; [| by rewrite Hch | by rewrite Hch].
      split; rewrite ?Hu, ?Hch, ?Eb; [apply Ha | done | intros _; split; [done | by apply Hp]].
    + cbn [mbind option_bind]. eexists. split; [reflexivity |]. cbn. split_and!; try done; try set_solver.
      split; cbn; rewrite ?Hu, ?Eb; [| done | intros _; split; [set_solver | by apply Hp]].
      intros channel [-> | ?]%elem_of_cons; [lia | by apply (ok_channels a Ha)].
  - assert (Hopen : au_updated a ∉ au_closedChannels a) by (apply (ok_open a Ha); destruct Hc; congruence).
    rewrite decide_False by done. cbn [mbind option_bind]. eexists. split; [reflexivity |]. cbn.
    split_and!; try done; try set_solver. split; cbn; rewrite ?Hu, ?Eb.
    + intros channel [-> | Hin]%elem_of_cons; [lia |]. apply (ok_channels a Ha) in Hin. lia.
    + intros _ [Heq | Hin]%elem_of_cons; [lia |]. apply (ok_channels a Ha) in Hin. lia.
    + done.
Qed.

(** What an operation may do: a change of the pending challenge closes the watchers'
    channel, and a callback is for the challenge that was pending and no more is. *)
Record opOk (a : clientAuthenticationSession) (op : challengeOp) (callbacks : list challengeCallback) (a' : clientAuthenticationSession) : Prop := {
  op_ok : authenticationOk a';
  op_closed : ∀ channel, channel ∈ au_closedChannels a → channel ∈ au_closedChannels a';
  op_watched : au_updated a ∈ au_closedChannels a' ∨ au_updated a' = au_updated a ∧ PendingChallenge a' = PendingChallenge a;
  op_callbacks :
    callbacks = [] ∧ (pendingID a' = None ∨ pendingID a' = pendingID a ∨ publishedID op ≠ None ∧ pendingID a' = publishedID op) ∨
    ∃ callback, callbacks = [callback] ∧ pendingID a' = None ∧ PendingChallenge a = Some (callbackChallenge callback);
}.

Lemma opOk_same a op b :
  authenticationOk a → au_updated b = au_updated a → au_closedChannels b = au_closedChannels a →
  au_pendingChallenge b = au_pendingChallenge a → au_closed b = au_closed a → opOk a op [] b.
Proof.
  intros [H1 H2 H3] E1 E2 E3 E4. split; unfold pendingID, PendingChallenge; rewrite ?E1, ?E2, ?E3; [| done | by right |].
  - split; by rewrite ?E1, ?E2, ?E3, ?E4.
  - left. split; [done |]. by right; left.
Qed.

(** An operation that changes what is pending and signals. *)
Lemma opOk_signal a op b callbacks :
  authenticationOk a → au_updated b = au_updated a → au_closedChannels b = au_closedChannels a →
  (au_closed b = au_closed a ∨ au_closed a = false) → (au_closed b = true → au_pendingChallenge b = None) →
  (callbacks = [] ∧ (pendingID b = None ∨ pendingID b = pendingID a ∨ publishedID op ≠ None ∧ pendingID b = publishedID op) ∨
   ∃ callback, callbacks = [callback] ∧ pendingID b = None ∧ PendingChallenge a = Some (callbackChallenge callback)) →
  ∃ b', signalChallengeUpdatedLocked b = Some b' ∧ opOk a op callbacks b'.
Proof.
  intros Ha Hu Hch Hc Hp Hcb. destruct (signal_ok a b Ha Hu Hch Hc Hp) as (b' & Hs & Hok & Hin & Hmono & Hpend & _).
  exists b'. split; [done |]. assert (Hid : pendingID b' = pendingID b) by (unfold pendingID, PendingChallenge; by rewrite Hpend).
  split; [done | done | by left | by rewrite Hid].
Qed.

Lemma doOp_ok a op : authenticationOk a → ∃ r callbacks a', doOp a op = Some (r, callbacks, a') ∧ opOk a op callbacks a'.
Proof.
  intros Ha. pose proof (ok_closed a Ha) as Hcl.
  assert (Hsame : ∀ (r : result unit) b, au_updated b = au_updated a → au_closedChannels b = au_closedChannels a → au_pendingChallenge b = au_pendingChallenge a →
    au_closed b = au_closed a → ∃ r' callbacks a', Some (r, [], b) = Some (r', callbacks, a') ∧ opOk a op callbacks a')
    by (intros r b ????; eexists _, _, _; split; [reflexivity |]; by apply opOk_same).
  assert (Hsignal : ∀ b (r : result unit) callbacks, (∃ b', signalChallengeUpdatedLocked b = Some b' ∧ opOk a op callbacks b') →
    ∃ r' callbacks' a', (a ← signalChallengeUpdatedLocked b; Some (r, callbacks, a)) = Some (r', callbacks', a') ∧ opOk a op callbacks' a').
  { intros b r callbacks (b' & E & Hok). rewrite E. cbn. eexists _, _, _. by split. }
  assert (Hopen : ∀ p, au_pendingChallenge a = Some p → au_closed a = false).
  { intros p Hp. destruct (au_closed a) eqn:E; [| done]. destruct (Hcl eq_refl) as [_ ?]. congruence. }
  destruct op; cbn [doOp]; unfold quiet, publishChallenge, clearChallengeOwnedBy, updateChallengeDeadline, CompleteChallenge, CancelChallenge, closeAuthentication; cbn [mbind option_bind];
    try (by apply Hsame).
  - destruct (au_closed a) eqn:E; [by apply Hsame |].
    apply Hsignal, opOk_signal; [done | done | done | by left | cbn; congruence |]. left. split; [done |]. right; right.
    split; [done |]. cbn. by destruct (nonEmpty _).
  - destruct (au_pendingChallenge a) as [p |] eqn:E; [| by apply Hsame]. destruct (decide _); [| by apply Hsame].
    apply Hsignal, opOk_signal; [done | done | done | by left | done |]. left. split; [done |]. by left.
  - destruct (au_pendingChallenge a) as [p |] eqn:E; [| by apply Hsame]. destruct (decide _); [| by apply Hsame].
    apply Hsignal, opOk_signal; [done | done | done | by left | cbn; intros; rewrite (Hopen p eq_refl) in *; done |].
    left. split; [done |]. right; left. unfold pendingID, PendingChallenge. by rewrite E.
  - destruct (au_pendingChallenge a) as [p |] eqn:E; [| by apply Hsame]. destruct (decide _); [| by apply Hsame].
    destruct (negb _); [by apply Hsame |].
    apply Hsignal, opOk_signal; [done | done | done | by left | done |]. right. eexists. split; [done |]. split; [done |].
    unfold PendingChallenge. by rewrite E.
  - destruct (au_pendingChallenge a) as [p |] eqn:E; [| by apply Hsame]. destruct (decide _); [| by apply Hsame].
    apply Hsignal, opOk_signal; [done | done | done | by left | done |]. right. eexists. split; [done |]. split; [done |].
    unfold PendingChallenge. by rewrite E.
  - destruct (au_closed a) eqn:E; [by apply Hsame |].
    apply Hsignal, opOk_signal; [done | done | done | by right | done |]. left. split; [done |]. by left.
Qed.

Definition publishedIDs (ops : list challengeOp) : list string := omap publishedID ops.
Definition callbackIDs (callbacks : list challengeCallback) : list string := (λ callback, ch_ID (callbackChallenge callback)) <$> callbacks.

(** What is called back later was pending or is published later. *)
Lemma doOps_ok a ops :
  authenticationOk a → NoDup (option_list (pendingID a) ++ publishedIDs ops) →
  ∃ callbacks a', doOps a ops = Some (callbacks, a') ∧ authenticationOk a' ∧
    NoDup (callbackIDs callbacks) ∧ (∀ i, i ∈ callbackIDs callbacks → i ∈ option_list (pendingID a) ++ publishedIDs ops).
Proof.
  revert a. induction ops as [| op ops IH]; intros a Ha Hnd.
  { exists [], a. split_and!; [done | done | constructor | by intros ? []%not_elem_of_nil]. }
  destruct (doOp_ok a op Ha) as (r & callbacks & a1 & Hop & Hok). cbn [doOps]. rewrite Hop.
  assert (Hsub : NoDup (option_list (pendingID a1) ++ publishedIDs ops) ∧
    (∀ i, i ∈ callbackIDs callbacks → i ∈ option_list (pendingID a) ∧ i ∉ option_list (pendingID a1) ++ publishedIDs ops) ∧
    (∀ i, i ∈ option_list (pendingID a1) ++ publishedIDs ops → i ∈ option_list (pendingID a) ++ publishedIDs (op :: ops)) ∧ NoDup (callbackIDs callbacks)).
  { unfold publishedIDs in *. cbn [omap list_omap] in *. destruct (op_callbacks _ _ _ _ Hok) as [[-> Hp] | (callback & -> & Hp & Hwas)].
    - cbn [callbackIDs fmap list_fmap]. destruct Hp as [-> | [-> | [Hpub ->]]].
      + cbn. destruct (publishedID op); cbn in *; rewrite ?NoDup_app, ?NoDup_cons in Hnd; split_and!; try set_solver; try apply NoDup_nil_2.
      + destruct (publishedID op) as [i |]; [| split_and!; try set_solver; apply NoDup_nil_2].
        split_and!; try set_solver; try apply NoDup_nil_2. destruct (pendingID a); cbn in *; rewrite ?NoDup_cons in *; set_solver.
      + destruct (publishedID op) as [i |]; [| done]. split_and!; try set_solver; try apply NoDup_nil_2.
        cbn. destruct (pendingID a); cbn in *; rewrite ?NoDup_cons in *; set_solver.
    - rewrite Hp. cbn. unfold pendingID in Hnd |- *. rewrite Hwas in *. cbn in *. split_and!.
      + destruct (publishedID op); cbn in *; rewrite ?NoDup_cons in *; naive_solver.
      + intros i ->%list_elem_of_singleton. split; [set_solver |]. destruct (publishedID op); cbn in *; rewrite ?NoDup_cons in *; set_solver.
      + destruct (publishedID op); set_solver.
      + apply NoDup_singleton. }
  destruct Hsub as (Hnd1 & Hcb & Hincl & Hone). destruct (IH a1 (op_ok _ _ _ _ Hok) Hnd1) as (later & a' & -> & Hok' & Hndl & Hl).
  exists (callbacks ++ later), a'. unfold callbackIDs in *. rewrite fmap_app. split_and!; [done | done | |].
  - apply NoDup_app. split_and!; [done | | done]. intros i Hi Hi'. by apply (Hcb i Hi), Hl.
  - intros i [Hi | Hi]%elem_of_app; [apply Hcb in Hi as [Hi _]; set_solver | by apply Hincl, Hl].
Qed.

(** C34: Whatever the order in which sessions publish challenges and extend or
    withdraw them and the program answers and cancels, also by old ids, while the
    client is closed at any point: no channel is closed twice, and every challenge
    is completed or cancelled at most once, and only if it was published. *)
Theorem challenge_resolved_once ops :
  NoDup (publishedIDs ops) →
  ∃ callbacks a, doOps newAuthenticationSession ops = Some (callbacks, a) ∧ NoDup (callbackIDs callbacks) ∧
    ∀ callback, callback ∈ callbacks → ch_ID (callbackChallenge callback) ∈ publishedIDs ops.
Proof.
  intros Hnd. destruct (doOps_ok newAuthenticationSession ops newAuthenticationSession_ok Hnd) as (callbacks & a & Hrun & _ & Hcb & Hin).
  exists callbacks, a. split_and!; [done | done |]. intros callback Hc. apply Hin. unfold callbackIDs. by apply (list_elem_of_fmap_2 (λ c, ch_ID (callbackChallenge c))).
Qed.

(** The watchers' channel is closed when what they saw has changed. *)
Lemma doOps_watched a ops callbacks a' :
  authenticationOk a → doOps a ops = Some (callbacks, a') →
  authenticationOk a' ∧ (∀ channel, channel ∈ au_closedChannels a → channel ∈ au_closedChannels a') ∧
  (au_updated a ∈ au_closedChannels a' ∨ au_updated a' = au_updated a ∧ PendingChallenge a' = PendingChallenge a).
Proof.
  revert a callbacks. induction ops as [| op ops IH]; intros a callbacks Ha; cbn [doOps]; [intros [= <- <-]; split_and!; [done | done | by right] |].
  destruct (doOp_ok a op Ha) as (r & cbs & a1 & -> & [Hok Hmono Hw _]).
  destruct (doOps a1 ops) as [[later a2] |] eqn:Hrun; [| done]. intros [= <- <-].
  destruct (IH a1 later Hok Hrun) as (Hok2 & Hmono2 & Hw2). split_and!; [done | set_solver |].
  destruct Hw as [Hw | [Hu Hp]]; [left; by apply Hmono2 |]. rewrite <- Hu, <- Hp. exact Hw2.
Qed.

(** A watcher that reads the pending challenge and the channel, and waits for
    the channel, does not miss a change: whenever another challenge is pending, or
    none, or the deadline has moved, the channel that it holds is closed; and it is
    closed when the client is. *)
Theorem challenge_watchers_woken ops ops' callbacks callbacks' a a' :
  doOps newAuthenticationSession ops = Some (callbacks, a) → doOps a ops' = Some (callbacks', a') →
  (PendingChallenge a' ≠ PendingChallenge a ∨ au_closed a' = true) → ChallengeUpdated a ∈ au_closedChannels a'.
Proof.
  intros Hrun Hrun' Hchange. destruct (doOps_watched _ _ _ _ newAuthenticationSession_ok Hrun) as (Ha & _ & _).
  destruct (doOps_watched _ _ _ _ Ha Hrun') as (Ha' & _ & [Hw | [Hu Hp]]); [done |].
  destruct Hchange as [Hne | Hcl]; [done |]. unfold ChallengeUpdated. rewrite <- Hu. by apply (ok_closed a' Ha').
Qed.

(** ** Messages are understood *)

Lemma ToUpper_app a b : ToUpper (a +:+ b) = ToUpper a +:+ ToUpper b.
Proof. induction a as [| c a IH]; [done |]. rewrite append_cons. cbn [ToUpper]. by rewrite IH. Qed.

Lemma Cut_app sep a s : containsChar sep a = false → Cut sep (a +:+ String sep s) = Some (a, s).
Proof.
  induction a as [| c a IH]; [rewrite append_nil; cbn [Cut]; by rewrite decide_True by done |].
  cbn [containsChar]. intros [Hc%bool_decide_eq_false Ha]%orb_false_iff. rewrite append_cons. cbn [Cut].
  rewrite decide_False by congruence. by rewrite IH.
Qed.

(** Base64 consists of its alphabet. *)
Lemma base64Encode_alphabet b n src : sextetOf b = None → b ≠ padByte → (length src < n)%nat → b ∉ base64Encode src.
Proof.
  intros Hb Hpad. assert (Hs : ∀ s, 0 ≤ s < 64 → b ≠ sextetByte s) by (intros s Hs ->; by rewrite sextetOf_sextetByte in Hb).
  revert src. induction n as [| n IH]; intros src Hn; [lia |].
  destruct src as [| x [| y [| z src]]]; cbn [base64Encode]; [by intros []%not_elem_of_nil | | |]; rewrite !not_elem_of_cons.
  - destruct (sextets_of_one x) as (H1 & H2 & _). split_and!; try (by apply Hs); try done. by intros []%not_elem_of_nil.
  - destruct (sextets_of_two x y) as (H1 & H2 & H3 & _). split_and!; try (by apply Hs); try done. by intros []%not_elem_of_nil.
  - destruct (sextets_of_three x y z) as (H1 & H2 & H3 & H4 & _). split_and!; try (by apply Hs). apply IH. cbn in Hn. lia.
Qed.

Lemma containsChar_stringOf (b : byte) l : b ∉ l → containsChar (Ascii.ascii_of_byte b) (stringOf l) = false.
Proof.
  induction l as [| x l IH]; [done |]. rewrite not_elem_of_cons. intros [Hne Hl].
  change (stringOf (x :: l)) with (String (Ascii.ascii_of_byte x) (stringOf l)). cbn [containsChar]. rewrite IH by done.
  rewrite bool_decide_eq_false_2; [done |]. intros E. apply Hne. apply (f_equal Ascii.byte_of_ascii) in E.
  by rewrite !Ascii.byte_of_ascii_of_byte in E.
Qed.

Lemma containsChar_EncodeToString b src : sextetOf b = None → b ≠ padByte → containsChar (Ascii.ascii_of_byte b) (EncodeToString src) = false.
Proof. intros Hb Hp. apply containsChar_stringOf, (base64Encode_alphabet _ (S (length src))); [done | done | lia]. Qed.

Lemma TrimRightFunc_keeps p a c b : p c = false → TrimRightFunc p b = b → TrimRightFunc p (a +:+ String c b) = a +:+ String c b.
Proof.
  intros Hc Hb. assert (E : TrimRightFunc p (String c b) = String c b) by (cbn [TrimRightFunc]; rewrite Hb, Hc; by destruct b).
  rewrite TrimRightFunc_app; by rewrite E.
Qed.

Lemma substring_past p s n : (String.length s ≤ n)%nat → String.substring (String.length p) n (p +:+ s) = s.
Proof.
  intros Hn. induction p as [| c p IH]; [rewrite append_nil | rewrite append_cons; exact IH].
  revert s Hn. induction n as [| n IH]; intros [| c s] Hn; cbn in *; try done; [lia |]. by rewrite IH by lia.
Qed.

(** The text of a dynamic challenge: flags, state id, user name and text. *)
Definition crv1Text (flags state user text : string) : string :=
  "CRV1:" +:+ (flags +:+ String ":"%char (state +:+ String ":"%char (user +:+ String ":"%char text))).

Lemma parseCRV1Challenge_text flags state user text :
  containsChar ":"%char flags = false → containsChar ":"%char state = false → containsChar ":"%char user = false →
  parseCRV1Challenge (crv1Text flags state user text) =
    Some (mkCRV1 state (stringOf (DecodeString user).1) text (containsChar "E"%char flags)).
Proof.
  intros Hf Hs Hu. unfold parseCRV1Challenge, crv1Text.
  change ("CRV1:" +:+ ?x) with ("CRV1" +:+ String ":"%char x). cbn [SplitN]. rewrite !Cut_app by done. done.
Qed.

(** A dynamic challenge that a server sends in its refusal is recognised
    whatever the retry mode is, with its state id, its user name, its text and its
    echo flag, also where the text has colons. *)
Theorem crv1_challenge_understood flags state user text authRetry :
  let payload := tlsControlStringPayload (buildAuthFailedPayload (crv1Text flags state (EncodeToString (bytesOf user)) text)) in
  containsChar ":"%char flags = false → containsChar ":"%char state = false →
  containsChar NUL (flags +:+ state +:+ text) = false → TrimRightFunc isSpace text = text →
  classifyTLSControlDirective payload = tlsControlDirectiveAuthFailed ∧
  newAuthFailedErrorFromPayload payload authRetry = AuthChallengeError (mkCRV1 state user text (containsChar "E"%char flags)).
Proof.
  cbv zeta. intros Hf Hs Hz Ht. set (reason := crv1Text _ _ _ _).
  assert (Htail : TrimRightFunc isSpace ("RV1:" +:+ (flags +:+ String ":"%char (state +:+ String ":"%char (EncodeToString (bytesOf user) +:+ String ":"%char text)))) =
    "RV1:" +:+ (flags +:+ String ":"%char (state +:+ String ":"%char (EncodeToString (bytesOf user) +:+ String ":"%char text)))).
  { change ("RV1:" +:+ ?x) with ("RV1" +:+ String ":"%char x). do 4 (apply TrimRightFunc_keeps; [done |]). exact Ht. }
  assert (Hreason : TrimSpace reason = reason).
  { subst reason. unfold crv1Text. change ("CRV1:" +:+ ?x) with (String "C"%char ("RV1:" +:+ x)). rewrite TrimSpace_nonspace by done. by rewrite Htail. }
  set (message := authFailedPayload +:+ "," +:+ reason). assert (Hm : message = "AUTH_FAILED," +:+ reason) by done.
  assert (Hbuild : buildAuthFailedPayload reason = bytesOf message) by (unfold buildAuthFailedPayload; by rewrite Hreason).
  assert (Hnorm : normalizeControlPayload (tlsControlStringPayload (buildAuthFailedPayload reason)) = message).
  { rewrite Hbuild. apply normalizeControlPayload_string; [done | |].
    - subst message reason. unfold crv1Text. rewrite !containsChar_app in Hz. apply orb_false_iff in Hz as [Hzf [Hzs Hzt]%orb_false_iff].
      repeat (rewrite containsChar_app; cbn [containsChar]).
      rewrite Hzf, Hzs, Hzt. rewrite (containsChar_EncodeToString x00) by done. done.
    - subst message. change (authFailedPayload +:+ "," +:+ reason) with (String "A"%char ("UTH_FAILED," +:+ reason)).
      rewrite TrimSpace_nonspace by done. f_equal. assert (TrimRightFunc isSpace reason = reason) as Hr.
      { subst reason. unfold crv1Text. change ("CRV1:" +:+ ?x) with ("C" +:+ ("RV1:" +:+ x)). rewrite TrimRightFunc_app; rewrite Htail; done. }
      rewrite TrimRightFunc_app; rewrite Hr; done. }
  assert (Hup : HasPrefix (ToUpper message) (authFailedPayload +:+ ",") = true) by (rewrite Hm, ToUpper_app; apply (HasPrefix_app "AUTH_FAILED,")).
  split.
  - unfold classifyTLSControlDirective. rewrite Hnorm. unfold isCommand. change ("AUTH_FAILED" +:+ ",") with (authFailedPayload +:+ ",").
    rewrite Hup, orb_true_r. done.
  - unfold newAuthFailedErrorFromPayload, extractCRV1FromAuthFailed. rewrite Hnorm, Hup. cbn [negb].
    assert (String.substring (String.length authFailedPayload + 1) (String.length message) message = reason) as ->.
    { apply (substring_past "AUTH_FAILED," reason). rewrite Hm, string_length_app. lia. }
    subst reason. rewrite parseCRV1Challenge_text; [| done | done | by apply (containsChar_EncodeToString x3a)].
    rewrite DecodeString_EncodeToString. cbn [fst]. by rewrite stringOf_bytesOf.
Qed.

Lemma bytesOf_app a b : bytesOf (a +:+ b) = bytesOf a ++ bytesOf b.
Proof.
  induction a as [| c a IH]; [done |]. rewrite append_cons.
  change (bytesOf (String c ?x)) with (Ascii.byte_of_ascii c :: bytesOf x). by rewrite IH.
Qed.

(** Whole groups are decoded before a fault is met. *)
Lemma base64Loop_faulty n src b output :
  sextetOf b = None → isLineEnd b = false → b ≠ padByte → Nat.modulo (length src) 3 = 0%nat → (length src < n)%nat →
  base64Loop (base64Encode src ++ [b]) [] output = (output ++ src, false).
Proof.
  intros Hb Hl Hp. revert src output. induction n as [| n IH]; intros src output Hm Hn; [lia |].
  destruct src as [| x [| y [| z src]]]; [| done | done |]; cbn [base64Encode app].
  - cbn [base64Loop]. rewrite Hb, Hl, bool_decide_eq_false_2 by done. cbn [negb]. by rewrite app_nil_r.
  - destruct (sextets_of_three x y z) as (H1 & H2 & H3 & H4 & H5). rewrite !base64Loop_sextet by done. cbn [app length Nat.eqb].
    rewrite H5, IH; [by rewrite <- app_assoc | | cbn in Hn; lia].
    change (length (x :: y :: z :: src)) with (3 + length src)%nat in Hm. rewrite Nat.Div0.add_mod in Hm. change (Nat.modulo 3 3) with 0%nat in Hm.
    by rewrite Nat.add_0_l, Nat.Div0.mod_mod in Hm.
Qed.

(** A user name that is not base64 is not left empty, as the comment on
    [parseCRV1Challenge] says it is: what precedes the fault, in groups of four
    characters, becomes the user name. *)
Theorem undecodable_user_name_kept flags state user text :
  containsChar ":"%char flags = false → containsChar ":"%char state = false → Nat.modulo (String.length user) 3 = 0%nat →
  let challenge := crv1Text flags state (EncodeToString (bytesOf user) +:+ "!") text in
  (DecodeString (EncodeToString (bytesOf user) +:+ "!")).2 = false ∧
  crv_Username <$> parseCRV1Challenge challenge = Some user.
Proof.
  intros Hf Hs Hm challenge.
  assert (Hdec : DecodeString (EncodeToString (bytesOf user) +:+ "!") = (bytesOf user, false)).
  { unfold DecodeString, base64Decode, EncodeToString. rewrite bytesOf_app, bytesOf_stringOf.
    apply (base64Loop_faulty (S (length (bytesOf user)))); [done | done | done | by rewrite length_bytesOf | lia]. }
  split; [by rewrite Hdec |]. subst challenge. rewrite parseCRV1Challenge_text; [| done | done |].
  - rewrite Hdec. cbn [fst fmap option_fmap option_map crv_Username]. by rewrite stringOf_bytesOf.
  - rewrite containsChar_app. by rewrite (containsChar_EncodeToString x3a).
Qed.

Lemma parseDigits_nonneg s acc n : 0 ≤ acc → parseDigits s acc = Some n → 0 ≤ n.
Proof.
  revert acc. induction s as [| c s IH]; intros acc Ha; cbn [parseDigits]; [by intros [= <-] |].
  unfold digitValue. destruct (_ && _) eqn:E; [| done]. apply andb_true_iff in E as [E%Z.leb_le _]. cbn [mbind option_bind]. apply IH. lia.
Qed.

Lemma ParseUint_range s bits n : ParseUint s bits = Ok n → 0 ≤ n < 2 ^ bits.
Proof.
  unfold ParseUint. destruct (decide _); [done |]. destruct (parseDigits s 0) as [m |] eqn:E; [| done].
  destruct (Z.ltb_spec m (2 ^ bits)); [| done]. intros [= <-]. split; [by apply (parseDigits_nonneg s 0) | done].
Qed.

Lemma firstTimeout_range fields t : firstTimeout fields = Some t → 0 ≤ t < 2 ^ 32.
Proof.
  induction fields as [| field fields IH]; cbn [firstTimeout]; [done |].
  destruct (pendingTimeoutField field) as [u |] eqn:E; [| apply IH]. intros [= <-]. revert E. unfold pendingTimeoutField.
  destruct (negb _); [done |]. destruct (ParseUint _ 32) eqn:E; [| done]. intros [= <-]. by apply ParseUint_range in E.
Qed.

Lemma parseAuthPendingTimeout_range record t : parseAuthPendingTimeout record = Some t → 0 ≤ t < 2 ^ 32.
Proof.
  unfold parseAuthPendingTimeout. destruct (negb _); [done |]. destruct (negb _); [done |]. destruct (negb _); [done |]. apply firstTimeout_range.
Qed.

(** Whatever the server proposes, pending authentication ends: the proposal in
    nanoseconds fits the width of a duration, and the deadline is not later than
    the longer of the hand window and half the renegotiation interval from now,
    and not earlier than now; without a proposal it is the hand window. *)
Theorem auth_pending_bounded options controlRecord now :
  let timing := co_Timing options in
  0 ≤ cti_HandWindow timing →
  (∀ t, parseAuthPendingTimeout controlRecord = Some t → 0 ≤ t * Second < 2 ^ 63) ∧
  now ≤ authPendingDeadline options controlRecord now ≤ now + Z.max (cti_HandWindow timing) (cti_RenegotiationInterval timing `quot` 2) ∧
  (parseAuthPendingTimeout controlRecord = None → authPendingDeadline options controlRecord now = now + cti_HandWindow timing).
Proof.
  cbv zeta. intros Hw. unfold authPendingDeadline. pose proof (parseAuthPendingTimeout_range controlRecord) as Hp. unfold Second.
  destruct (parseAuthPendingTimeout controlRecord) as [t |]; [specialize (Hp t eq_refl) |]; split_and!; try done; try lia.
  intros u [= <-]. lia.
Qed.

(** ** The hypotheses can hold *)

Module AuthWitness.

Definition challenge (i : string) : Challenge := noChallenge <| ch_ID := i |> <| ch_Kind := ChallengeSecret |>.
Definition response : ChallengeResponse := mkResponse EmptyString EmptyString "1234".

Definition ops : list challengeOp :=
  [OpPublish (mkPending (challenge "a") (OwnerSession 1) true); OpDeadline (OwnerSession 1) 7; OpCancel "z"; OpComplete "a" response;
   OpComplete "a" response; OpPublish (mkPending (challenge "b") OwnerClient true); OpClear (OwnerSession 1); OpCancel "b"; OpClose; OpClose].

Definition options : ClientOptions :=
  mkClientOptions EmptyString (mkClientTransport [] false EmptyString 0)
    (mkClientDataChannel 0 0 false EmptyString 0 EmptyString [] EmptyString EmptyString EmptyString EmptyString EmptyString 0 0 0)
    (mkTLSOptions noMaterial noMaterial noMaterial noMaterial noMaterial noMaterial EmptyString EmptyString [] EmptyString [] EmptyString
       EmptyString EmptyString EmptyString EmptyString EmptyString EmptyString EmptyString)
    (mkClientAuthentication EmptyString EmptyString EmptyString EmptyString false) (mkClientPull true [] false)
    (mkClientTunnel EmptyString EmptyString false [] false 0 false false AddrInvalid [] [] [] AddrInvalid AddrInvalid)
    (mkClientTiming (3600 * Second) false 0 0 0 0 false 0 (60 * Second)) noMaterial 0.

Definition pendingRecord : bytes := tlsControlStringPayload (bytesOf "AUTH_PENDING,timeout 120").

End AuthWitness.

Lemma challenge_resolved_once_witness :
  callbackIDs <$> (fst <$> doOps newAuthenticationSession AuthWitness.ops) = Some ["a"; "b"] ∧
  ∃ callbacks a, doOps newAuthenticationSession AuthWitness.ops = Some (callbacks, a) ∧ NoDup (callbackIDs callbacks) ∧
    ∀ callback, callback ∈ callbacks → ch_ID (callbackChallenge callback) ∈ publishedIDs AuthWitness.ops.
Proof. split; [reflexivity |]. apply (challenge_resolved_once AuthWitness.ops). apply (bool_decide_unpack _). vm_compute. done. Defined.

Lemma challenge_watchers_woken_witness :
  ∃ callbacks a callbacks' a', doOps newAuthenticationSession (take 1 AuthWitness.ops) = Some (callbacks, a) ∧
    doOps a (take 1 (drop 1 AuthWitness.ops)) = Some (callbacks', a') ∧ ChallengeUpdated a ∈ au_closedChannels a'.
Proof.
  eexists _, _, _, _. split; [reflexivity |]. split; [reflexivity |].
  eapply (challenge_watchers_woken (take 1 AuthWitness.ops) (take 1 (drop 1 AuthWitness.ops))); [reflexivity | reflexivity | left]. done.
Defined.

Lemma crv1_challenge_understood_witness :
  newAuthFailedErrorFromPayload (tlsControlStringPayload (bytesOf "AUTH_FAILED,CRV1:R,E:Om01u7Fh4LrGBS7uh0SWmzwabUiGiW6l:Y3Ix:Please enter token: PIN"))
    "none" = AuthChallengeError (mkCRV1 "Om01u7Fh4LrGBS7uh0SWmzwabUiGiW6l" "cr1" "Please enter token: PIN" true).
Proof.
  apply (crv1_challenge_understood "R,E" "Om01u7Fh4LrGBS7uh0SWmzwabUiGiW6l" "cr1" "Please enter token: PIN" "none"); reflexivity.
Defined.

Lemma undecodable_user_name_kept_witness :
  (DecodeString "Y3Ix!").2 = false ∧ crv_Username <$> parseCRV1Challenge "CRV1:R:id:Y3Ix!:PIN" = Some "cr1".
Proof. apply (undecodable_user_name_kept "R" "id" "cr1" "PIN"); reflexivity. Defined.

Lemma auth_pending_bounded_witness :
  parseAuthPendingTimeout AuthWitness.pendingRecord = Some 120 ∧
  1 ≤ authPendingDeadline AuthWitness.options AuthWitness.pendingRecord 1 ≤ 1 + Z.max (60 * Second) (3600 * Second `quot` 2).
Proof. split; [reflexivity |]. apply (auth_pending_bounded AuthWitness.options AuthWitness.pendingRecord 1). done. Defined.
