(* ===== verification/Supervisor.v ===== *)
(** * The client's supervisor ([client_supervisor.go], [client_restart.go],
      [client.go], [client_timing.go])

    A client keeps one session at a time.  Its supervisor stages credentials,
    starts a session with the remote under a cursor, waits for the session to end,
    and by the error decides whether to stop, to ask the program, to move the
    cursor, and how long to wait.  What the environment decides (the context, the
    program's calls, how a session ends) is a script; a channel that is closed to
    wake its watchers is a number. *)

From Stdlib Require Import Strings.Ascii.
From S2P Require Import Prelude GoStrings Base64 Netip Crypto Codec Fragment Compression KeyMethod Options Negotiation PushOptions PushLaws TunnelConfig Auth.

(** ** Errors *)

Definition ErrClientClosed : goerr := ErrNew "client is closed".
Definition ErrClientSuspended : goerr := ErrNew "client is suspended".
Definition ErrPeerCertificateVerification : goerr := ErrNew "peer certificate verification failed".
Definition ErrPeerCertificateRevoked : goerr := ErrNew "peer certificate is revoked".
Definition ErrPeerCertificateExtUsage : goerr := ErrNew "peer certificate is missing required extended key usage".
Definition ErrPeerCertificateKeyUsage : goerr := ErrNew "peer certificate is missing required key usage".
Definition ErrPeerCertificateNSCertType : goerr := ErrNew "peer certificate fails ns-cert-type check".
Definition ErrCRLSignatureInvalid : goerr := ErrNew "CRL signature not issued by a trusted CA".
Definition ErrCRLExpired : goerr := ErrNew "CRL is outside its validity window".
Definition ErrCRLUnavailable : goerr := ErrNew "no CRL in the --crl-verify file covers a certificate in the chain".
Definition ErrCRLIssuerKeyUsage : goerr := ErrNew "CRL issuer certificate is not allowed to sign CRLs".
Definition ErrPingExitTimeout : goerr := ErrNew "ping-exit timeout".
Definition ErrPingRestartTimeout : goerr := ErrNew "ping-restart timeout".
Definition ErrInactiveTimeout : goerr := ErrNew "inactive timeout".
Definition ErrSessionTimeout : goerr := ErrNew "session timeout".
Definition ErrRemoteAddressExhausted : goerr := ErrNew "remote address list exhausted".
Definition errClientSessionConfiguration : goerr := ErrNew "client session configuration error".

(** ** What an error means *)

Definition terminalErrors : list goerr :=
  [ErrServerHalt; ErrPeerCertificateVerification; ErrPeerCertificateRevoked; ErrPeerCertificateExtUsage; ErrPeerCertificateKeyUsage;
   ErrPeerCertificateNSCertType; ErrCRLSignatureInvalid; ErrCRLExpired; ErrCRLUnavailable; ErrCRLIssuerKeyUsage; ErrMissingServer;
   ErrUnsupportedProtocol; ErrUnsupportedMode; ErrMissingStaticKey; ErrCompressionNotSupported; ErrOptionNotSupported;
   ErrMissingCAOrPeerFingerprint; ErrInvalidAllowCompression; ErrAllowCompressionConflict; ErrPullFilterRejected; ErrCompressionPushRejected;
   ErrCipherNegotiationFailed; ErrChallengeCanceled; ErrPingExitTimeout; ErrInactiveTimeout; ErrSessionTimeout].

Inductive clientSessionErrorClass := clientSessionErrorRetryable | clientSessionErrorTerminal.

#[export] Instance clientSessionErrorClass_eq_dec : EqDecision clientSessionErrorClass.
Proof. solve_decision. Defined.

Definition asUnit (b : clientErr → bool) (e : clientErr) : option unit := if b e then Some () else None.

Definition classifyClientSessionError (err : option clientErr) : clientSessionErrorClass :=
  match err with
  | None => clientSessionErrorRetryable
  | Some err =>
      if Is err errClientSessionConfiguration then clientSessionErrorRetryable else
      if isSome (Cast asTemporary err) then clientSessionErrorRetryable else
      if isSome (Cast asTokenFailure err) then clientSessionErrorRetryable else
      if isSome (asTerminal err) then clientSessionErrorTerminal else
      if IsMulti err terminalErrors then clientSessionErrorTerminal else
      if isSome (Cast (asUnit (λ e, bool_decide (e = UnknownAuthorityError))) err) then clientSessionErrorTerminal else
      if isSome (Cast (asUnit (λ e, bool_decide (e = HostnameError))) err) then clientSessionErrorTerminal else
      if isSome (Cast (asUnit (λ e, bool_decide (e = CertificateInvalidError))) err) then clientSessionErrorTerminal else
      clientSessionErrorRetryable
  end.

Definition interactiveAuthFailureReason (sessionErr : clientErr) : string :=
  match Cast asTerminal sessionErr with
  | Some reason => if nonEmpty reason then reason else "authentication failed"
  | None => "authentication failed"
  end.

(** ** Where to connect next *)

Record clientConnectionCursor := mkCursor { cc_remoteIndex : nat; cc_addressIndex : nat }.

(** [remotes] is their number, [dialWithIndex] whether the program dials by address index. *)
Definition nextConnectionCursor (remotes : nat) (dialWithIndex : bool) (current : clientConnectionCursor) (sessionErr : clientErr) (initialized : bool)
    : clientConnectionCursor :=
  let advance := clientRemoteAdvanceNextAddress in
  let advance := if initialized || Is sessionErr errClientSessionConfiguration then clientRemoteAdvanceStay else advance in
  let advance := if IsMulti sessionErr [ErrRemoteAddressExhausted] then clientRemoteAdvanceNextRemote else advance in
  let advance := match Cast asRestart sessionErr with Some restart => restart | None => advance end in
  let advance :=
    match Cast asTemporary sessionErr with
    | Some (_, AuthFailedAdvanceStay, _) => clientRemoteAdvanceStay
    | Some (_, AuthFailedAdvanceNextAddress, _) => clientRemoteAdvanceNextAddress
    | Some (_, AuthFailedAdvanceNextRemote, _) => clientRemoteAdvanceNextRemote
    | None => advance
    end in
  let advance := if decide (advance = clientRemoteAdvanceNextAddress ∧ dialWithIndex = false) then clientRemoteAdvanceNextRemote else advance in
  match advance with
  | clientRemoteAdvanceNextAddress => mkCursor (cc_remoteIndex current) (S (cc_addressIndex current))
  | clientRemoteAdvanceNextRemote => mkCursor (Nat.modulo (S (cc_remoteIndex current)) remotes) 0
  | clientRemoteAdvanceStay => current
  end.

Definition clientReconnectInitialBackoff : Z := Second.
Definition clientReconnectMaximumBackoff : Z := 60 * Second.

Definition applyClientSessionErrorBackoff (err : clientErr) (backoff : Z) : Z :=
  match Cast asTemporary err with
  | Some (BackoffSeconds, _, _) => if BackoffSeconds =? 0 then backoff else Z.max backoff (BackoffSeconds * Second)
  | None => backoff
  end.

(** ** Remotes *)

Record clientRemote := mkClientRemote {
  cr_remote : Remote;
  cr_address : string;
  cr_transportNetwork : string;
  cr_addressIndex : nat;
}.

(** [net.JoinHostPort]. *)
Definition JoinHostPort (host port : string) : string :=
  if containsChar ":"%char host then "[" +:+ host +:+ "]:" +:+ port else host +:+ ":" +:+ port.

Definition HasSuffixChar (s : string) (c : ascii) : bool := bool_decide (last (bytesOf s) = Some (Ascii.byte_of_ascii c)).

Definition whiteSpace : string := String " "%char (String "009"%char (String "013"%char (String "010"%char EmptyString))).

Definition resolveClientRemote (globalProtocol : string) (index : Z) (remote : Remote) : result clientRemote :=
  if negb (nonEmpty (rem_Host remote)) || ContainsAny (rem_Host remote) whiteSpace || HasPrefix (rem_Host remote) "[" ||
     HasSuffixChar (rem_Host remote) "]"%char
  then Err (ErrExtend ErrOptionNotSupported ("invalid remote host at index " +:+ Itoa index)) else
  if rem_Port remote =? 0 then Err (ErrExtend ErrOptionNotSupported ("empty remote port at index " +:+ Itoa index)) else
  let protocol := if nonEmpty (rem_Protocol remote) then rem_Protocol remote else globalProtocol in
  '(remoteProtocol, transportNetwork) ← resolveTransportProtocol protocol;
  Ok (mkClientRemote (mkRemote (rem_Host remote) (rem_Port remote) remoteProtocol)
        (JoinHostPort (rem_Host remote) (Itoa (rem_Port remote))) transportNetwork 0).

Fixpoint resolveRemotes (globalProtocol : string) (index : Z) (remotes : list Remote) : result (list clientRemote) :=
  match remotes with
  | [] => Ok []
  | remote :: remotes =>
      r ← resolveClientRemote globalProtocol index remote; rs ← resolveRemotes globalProtocol (index + 1) remotes; Ok (r :: rs)
  end.

Definition swapRemotes {A} (l : list A) (i j : nat) : list A :=
  match l !! i, l !! j with Some x, Some y => <[j := x]> (<[i := y]> l) | _, _ => l end.

(** The loop from [index] down; [random] answers [cryptorand.Int] below a bound. *)
Fixpoint secureShuffle {A} (random : nat → result nat) (remotes : list A) (index : nat) : result (list A) :=
  match index with
  | O => Ok remotes
  | S below => swapIndex ← random (S index); secureShuffle random (swapRemotes remotes index swapIndex) below
  end.

Definition secureShuffleClientRemotes {A} (random : nat → result nat) (remotes : list A) : result (list A) :=
  secureShuffle random remotes (length remotes - 1).

Definition resolveClientRemotes (random : nat → result nat) (options : ClientOptions) : result (list clientRemote) :=
  let transport := co_Transport options in
  if negb (hasAny (cto_Remotes transport)) then Err ErrMissingServer else
  '(globalProtocol, _) ← resolveTransportProtocol (cto_Protocol transport);
  remotes ← resolveRemotes globalProtocol 0 (cto_Remotes transport);
  if cto_RemoteRandom transport then secureShuffleClientRemotes random remotes else Ok remotes.

(** ** Timing *)

Definition tlsHandshakeRetryInitial : Z := 2 * Second.
Definition tlsHandshakeTotalDuration : Z := 60 * Second.
Definition defaultMSSFix : Z := 1492.
Definition defaultRenegotiationInterval : Z := 3600 * Second.
Definition tlsPushRequestResendInterval : Z := 5 * Second.

Inductive clientPingTimeoutAction := clientPingTimeoutNone | clientPingTimeoutRestart | clientPingTimeoutExit.

Definition effectiveClientPingTimeout (c : TunnelConfiguration) : Z * clientPingTimeoutAction :=
  if 0 <? tc_PingExit c then (tc_PingExit c, clientPingTimeoutExit) else
  if 0 <? tc_PingRestart c then (tc_PingRestart c, clientPingTimeoutRestart) else (0, clientPingTimeoutNone).

Definition prePullPingRestart (options : ClientOptions) (protocol : string) : Z :=
  let timing := co_Timing options in
  if cti_PingRestartDisabled timing then 0 else
  if 0 <? cti_PingRestart timing then cti_PingRestart timing else
  if cpo_Enabled (co_Pull options) && HasPrefix protocol "udp" then prePullInitialPingRestart else 0.

Definition shouldExitForPingTimeout (lastInbound now : Time) (threshold : Z) : bool :=
  if (threshold <=? 0) || IsZero lastInbound then false else threshold <? now - lastInbound.

Definition shouldExitForInactivityTimeout (lastInactivityReset now : Time) (inactiveTimeout : Z) : bool :=
  if inactiveTimeout <=? 0 then false else if IsZero lastInactivityReset then false else inactiveTimeout <=? now - lastInactivityReset.

(** ** Construction *)

Definition withDataChannel (o : ClientOptions) (d : ClientDataChannelOptions) : ClientOptions :=
  mkClientOptions (co_Mode o) (co_Transport o) d (co_TLS o) (co_Authentication o) (co_Pull o) (co_Tunnel o) (co_Timing o) (co_StaticKey o)
    (co_KeyDirection o).
Definition withTiming (o : ClientOptions) (t : ClientTimingOptions) : ClientOptions :=
  mkClientOptions (co_Mode o) (co_Transport o) (co_DataChannel o) (co_TLS o) (co_Authentication o) (co_Pull o) (co_Tunnel o) t (co_StaticKey o)
    (co_KeyDirection o).
Definition withMSSFix (d : ClientDataChannelOptions) (fix_ : Z) (mode : string) : ClientDataChannelOptions :=
  mkClientDataChannel (cdo_MTU d) fix_ (cdo_MSSFixDisabled d) mode (cdo_Fragment d) (cdo_Cipher d) (cdo_Ciphers d) (cdo_FallbackCipher d)
    (cdo_Auth d) (cdo_Compression d) (cdo_CompressionLZO d) (cdo_AllowCompression d) (cdo_ReplayWindow d) (cdo_ReplayWindowTime d)
    (cdo_PacketHeadroom d).

Definition checkStaticMode (options : ClientOptions) : result unit :=
  if negb (IsSet (co_StaticKey options)) then Err ErrMissingStaticKey else
  if 0 <? cti_RenegotiationInterval (co_Timing options) then Err (ErrExtend ErrOptionNotSupported "reneg_sec in static mode") else
  if cpo_Enabled (co_Pull options) then Err (ErrExtend ErrOptionNotSupported "pull in static mode") else
  if cpo_RouteNoPull (co_Pull options) then Err (ErrExtend ErrOptionNotSupported "route_nopull in static mode") else
  let authentication := co_Authentication options in
  if nonEmpty (cao_Username authentication) || nonEmpty (cao_Password authentication) || nonEmpty (cao_StaticChallenge authentication)
  then Err (ErrExtend ErrOptionNotSupported "username/password in static mode") else Ok ().

Definition defaultMSSFixOptions (d : ClientDataChannelOptions) : ClientDataChannelOptions :=
  if (cdo_MSSFix d =? 0) && negb (cdo_MSSFixDisabled d) then
    if 0 <? cdo_Fragment d then withMSSFix d (cdo_Fragment d) MSSFixModeMTU else
    if (cdo_MTU d =? 0) || (cdo_MTU d =? 1500) then withMSSFix d defaultMSSFix MSSFixModeMTU else
    withMSSFix d (cdo_MTU d) MSSFixModeFixed
  else d.

Definition defaultTimingOptions (t : ClientTimingOptions) : ClientTimingOptions :=
  mkClientTiming
    (if (cti_RenegotiationInterval t =? 0) && negb (cti_RenegotiationDisabled t) then defaultRenegotiationInterval else cti_RenegotiationInterval t)
    (cti_RenegotiationDisabled t) (cti_RenegotiationBytes t) (cti_RenegotiationPackets t) (cti_PingInterval t) (cti_PingRestart t)
    (cti_PingRestartDisabled t)
    (if cti_TLSTimeout t =? 0 then tlsHandshakeRetryInitial else cti_TLSTimeout t)
    (if cti_HandWindow t =? 0 then tlsHandshakeTotalDuration else cti_HandWindow t).

(** What [NewClient] checks and completes: the options, the mode, the remotes and
    the compression of the client. *)
Definition NewClient (random : nat → result nat) (options : ClientOptions)
    : result (ClientOptions * string * list clientRemote * compressionSettings * allowCompressionPolicy) :=
  remotes ← resolveClientRemotes random options;
  if (0 <? cdo_Fragment (co_DataChannel options)) && existsb (λ r, HasPrefix (rem_Protocol (cr_remote r)) "tcp") remotes
  then Err (ErrExtend ErrOptionNotSupported "fragment with tcp remote") else
  mode ← validateMode (co_Mode options);
  if cpo_RouteNoPull (co_Pull options) && negb (cpo_Enabled (co_Pull options))
  then Err (ErrExtend ErrOptionNotSupported "route_nopull without pull") else
  _ ← (if decide (mode = ModeStaticKey) then checkStaticMode options else Ok ());
  compression ← resolveCompressionSettings (cdo_Compression (co_DataChannel options)) (cdo_CompressionLZO (co_DataChannel options));
  allowCompression ← resolveEffectiveAllowCompressionPolicy (cdo_AllowCompression (co_DataChannel options)) compression;
  _ ← validateImplementedClientOptions options;
  let options := withDataChannel options (defaultMSSFixOptions (co_DataChannel options)) in
  let options := if decide (mode = ModeTLS) then withTiming options (defaultTimingOptions (co_Timing options)) else options in
  Ok (options, mode, remotes, compression, allowCompression).

(** ** The lifecycle *)

(** [lc_stateChanged], [lc_resumed] and [lc_dataReadDone] are channels;
    [lc_closedChannels] are those that were closed; [lc_channels] numbers the next one.
    A session is its identity. *)
Record clientLifecycle := mkLifecycle {
  lc_started : bool;
  lc_closed : bool;
  lc_suspended : bool;
  lc_resumed : nat;
  lc_stateChanged : nat;
  lc_closedChannels : list nat;
  lc_channels : nat;
  lc_terminalError : option clientErr;
  lc_currentSession : option nat;
  lc_dataReadDone : nat;
  lc_dataReadStopped : bool;
}.

#[export] Instance eta_clientLifecycle : Eta clientLifecycle := λ l,
  mkLifecycle (lc_started l) (lc_closed l) (lc_suspended l) (lc_resumed l) (lc_stateChanged l) (lc_closedChannels l) (lc_channels l)
  (lc_terminalError l) (lc_currentSession l) (lc_dataReadDone l) (lc_dataReadStopped l).

Definition newLifecycle : clientLifecycle := mkLifecycle false false false 0 1 [] 3 None None 2 false.

(** [close]: [None], a panic, when the channel is closed already. *)
Definition closeLifecycleChannel (l : clientLifecycle) (channel : nat) : option clientLifecycle :=
  closed ← closeChannel channel (lc_closedChannels l); Some (l <| lc_closedChannels := closed |>).

Definition signalStateChangedLocked (l : clientLifecycle) : option clientLifecycle :=
  l ← closeLifecycleChannel l (lc_stateChanged l);
  Some (l <| lc_stateChanged := lc_channels l |> <| lc_channels := S (lc_channels l) |>).

Definition stopDataReadsLocked (l : clientLifecycle) : option clientLifecycle :=
  if lc_dataReadStopped l then Some l else
  l ← closeLifecycleChannel l (lc_dataReadDone l); Some (l <| lc_dataReadStopped := true |>).

(** [material] is what [checkSessionMaterial] returns; whether a supervisor was started. *)
Definition Start (l : clientLifecycle) (material : result unit) : result bool * clientLifecycle :=
  if lc_started l then (Ok false, l) else
  if lc_closed l then (Err ErrClientClosed, l) else
  match material with
  | Err err => (Err err, l)
  | Ok _ => (Ok true, l <| lc_started := true |>)
  end.

Definition setCurrentSession (l : clientLifecycle) (contextDone : bool) (session : nat) : option (bool * clientLifecycle) :=
  if lc_closed l || contextDone then Some (false, l) else
  l ← signalStateChangedLocked (l <| lc_currentSession := Some session |>); Some (true, l).

Definition clearCurrentSession (l : clientLifecycle) (session : nat) : option clientLifecycle :=
  signalStateChangedLocked (if decide (lc_currentSession l = Some session) then l <| lc_currentSession := None |> else l).

Definition setTerminalError (l : clientLifecycle) (err : clientErr) : option clientLifecycle :=
  l ← stopDataReadsLocked (l <| lc_terminalError := Some err |>); signalStateChangedLocked l.

Definition closeSupervisorReadableState (l : clientLifecycle) : option clientLifecycle :=
  l ← (if negb (lc_closed l) && negb (isSome (lc_terminalError l))
       then stopDataReadsLocked (l <| lc_closed := true |> <| lc_currentSession := None |>) else Some l);
  signalStateChangedLocked l.

(** The session that is told to fail. *)
Definition Suspend (l : clientLifecycle) : option nat * clientLifecycle :=
  if lc_suspended l || lc_closed l then (None, l) else
  (lc_currentSession l, l <| lc_suspended := true |> <| lc_resumed := lc_channels l |> <| lc_channels := S (lc_channels l) |>).

Definition Resume (l : clientLifecycle) : option clientLifecycle :=
  if negb (lc_suspended l) then Some l else closeLifecycleChannel (l <| lc_suspended := false |>) (lc_resumed l).

Definition RestartSession (l : clientLifecycle) : option nat := lc_currentSession l.

(** The first part of [Close], under the lifecycle's lock; [closeOnce] runs it once.
    The session that is closed. *)
Definition closeLifecycle (l : clientLifecycle) : option (option nat * clientLifecycle) :=
  l ← stopDataReadsLocked (l <| lc_closed := true |>); Some (lc_currentSession l, l <| lc_currentSession := None |>).

Definition readySession (l : clientLifecycle) (ready : nat → bool) : option nat :=
  if lc_closed l || isSome (lc_terminalError l) then None else
  match lc_currentSession l with Some session => if ready session then Some session else None | None => None end.

Definition currentDataReadError (l : clientLifecycle) : option clientErr :=
  match lc_terminalError l with
  | Some err => Some err
  | None => if lc_closed l then Some (Plain ErrClientClosed) else None
  end.

(** One turn of [WaitReady]: what it returns, or the channel it waits for. *)
Definition WaitReady (l : clientLifecycle) (ready : nat → bool) : option clientErr + nat :=
  match lc_terminalError l with
  | Some err => inl (Some err)
  | None =>
      if lc_closed l then inl (Some (Plain ErrClientClosed)) else
      match lc_currentSession l with
      | Some session => if ready session then inl None else inr (lc_stateChanged l)
      | None => inr (lc_stateChanged l)
      end
  end.

(** ** Credentials *)

(** How a challenge of the client ends: with the program's answer, its refusal, or
    the end of the context.  [aw_others] is what happens meanwhile. *)
Inductive awaitEnd := EndComplete (response : ChallengeResponse) | EndCancel | EndContext (err : clientErr).

Record awaitScript := mkAwait { aw_newID : string; aw_others : list challengeOp; aw_end : awaitEnd }.

(** [None] when it does not return with this script. *)
Definition awaitChallengeResponse (a : clientAuthenticationSession) (script : awaitScript) (challenge : Challenge)
    : option ((ChallengeResponse + clientErr) * clientAuthenticationSession) :=
  a ← publishChallenge a (mkPending (challenge <| ch_ID := aw_newID script |>) OwnerClient true);
  '(_, a) ← doOps a (aw_others script);
  match aw_end script with
  | EndComplete response =>
      match CompleteChallenge a (aw_newID script) response with
      | Some (Ok _, _, a) => Some (inl response, a)
      | _ => None
      end
  | EndCancel =>
      match CancelChallenge a (aw_newID script) with
      | Some (Ok _, _, a) => Some (inr (Plain ErrChallengeCanceled), a)
      | _ => None
      end
  | EndContext err => a ← clearChallengeOwnedBy a OwnerClient; Some (inr err, a)
  end.

Definition scrv1Password (password secret : string) : string :=
  "SCRV1:" +:+ (EncodeToString (bytesOf password) +:+ String ":"%char (EncodeToString (bytesOf secret))).

Definition acquireSessionCredentials (mode : string) (c : Client) (a : clientAuthenticationSession) (useActiveAuthToken : bool) (script : awaitScript)
    : option (option clientErr * clientAuthenticationSession) :=
  if negb (bool_decide (mode = ModeTLS)) then Some (None, a) else
  if sc_defined (au_staged a) then Some (None, a) else
  if useActiveAuthToken && isSome (activeAuthTokenCredentials c EmptyString) then Some (None, a) else
  let authentication := co_Authentication (cl_options c) in
  if negb (nonEmpty (cao_StaticChallenge authentication))
  then Some (None, stageCredentials a (cao_Username authentication) (cao_Password authentication) false) else
  let username := cao_Username authentication in
  let password := cao_Password authentication in
  let asksAll := negb (nonEmpty username) && negb (nonEmpty password) in
  let challenge :=
    if asksAll then
      noChallenge <| ch_Kind := ChallengeCredentials |> <| ch_Username := username |>
        <| ch_SecretMessage := cao_StaticChallenge authentication |> <| ch_Echo := cao_StaticChallengeEcho authentication |>
    else
      noChallenge <| ch_Kind := ChallengeSecret |> <| ch_Username := username |>
        <| ch_Message := cao_StaticChallenge authentication |> <| ch_Echo := cao_StaticChallengeEcho authentication |> in
  '(answer, a) ← awaitChallengeResponse a script challenge;
  match answer with
  | inr err => Some (Some err, a)
  | inl response =>
      let '(username, password) := if asksAll then (cres_Username response, cres_Password response) else (username, password) in
      Some (None, stageCredentials a username (scrv1Password password (cres_Secret response)) true)
  end.

Definition crv1Password (stateID secret : string) : string := "CRV1::" +:+ stateID +:+ "::" +:+ secret.

(** Whether to retry at once, or the error that replaces the session's. *)
Definition interceptAuthChallenge (a : clientAuthenticationSession) (sessionErr : clientErr) (script : awaitScript)
    : option (bool * option clientErr * clientAuthenticationSession) :=
  match Cast asChallenge sessionErr with
  | Some challengeErr =>
      let rejected := au_staged a in
      let a := purgeStagedCredentials a in
      let a := if au_sentInteractiveCredentials a then notePreviousAuthFailure a "authentication failed" else a in
      '(answer, a) ← awaitChallengeResponse a script
        (noChallenge <| ch_Kind := ChallengeSecret |> <| ch_Username := crv_Username challengeErr |>
           <| ch_Message := crv_ChallengeText challengeErr |> <| ch_Echo := crv_Echo challengeErr |>);
      match answer with
      | inr err => Some (false, Some err, a)
      | inl response =>
          let username := if nonEmpty (crv_Username challengeErr) then crv_Username challengeErr else sc_username rejected in
          Some (true, None, stageCredentials a username (crv1Password (crv_StateID challengeErr) (cres_Secret response)) true)
      end
  | None =>
      if negb (IsMulti sessionErr [ErrAuthenticationFailed]) then Some (false, None, a) else
      if isSome (Cast asTemporary sessionErr) then Some (false, None, a) else
      if isSome (Cast asTokenFailure sessionErr) then Some (false, None, a) else
      if negb (au_sentInteractiveCredentials a) then Some (false, None, a) else
      Some (true, None, notePreviousAuthFailure (purgeStagedCredentials a) (interactiveAuthFailureReason sessionErr))
  end.

(** ** The loop *)

Record supervisor := mkSupervisor {
  sv_backoff : Z;
  sv_firstSession : bool;
  sv_cursor : clientConnectionCursor;
  sv_authentication : clientAuthenticationSession;
}.

Definition newSupervisor (a : clientAuthenticationSession) : supervisor := mkSupervisor clientReconnectInitialBackoff true (mkCursor 0 0) a.

(** How the start of a session goes: it starts and later ends with an error or
    without one, it fails, or the client is closed before it becomes current. *)
Inductive sessionOutcome := SessionEnded (sessionErr : option clientErr) | SessionFailed (err : clientErr) | SessionNotCurrent.

(** One turn of the loop, as the environment decides it.  [rs_client] is the client
    as its tunnel state was when the turn began; [rs_stopped] and [rs_resumed] are
    looked at first, [rs_stoppedAfter] and [rs_suspended] after the session. *)
Record roundScript := mkRound {
  rs_stopped : bool;
  rs_resumed : bool;
  rs_client : Client;
  rs_credentials : awaitScript;
  rs_session : sessionOutcome;
  rs_stoppedAfter : bool;
  rs_suspended : bool;
  rs_challenge : awaitScript;
  rs_waited : bool;
}.

(** How a turn ends: the loop returns, with a terminal error or without one, or
    goes on, perhaps after a wait. *)
Inductive roundEnd :=
| RoundReturns (terminal : option clientErr)
| RoundContinues (waited : option Z) (s : supervisor).

(** From the error of a session on. *)
Definition afterSessionError (remotes : nat) (dialWithIndex : bool) (s : supervisor) (err : clientErr) (initialized : bool) (script : roundScript)
    : option roundEnd :=
  if rs_stoppedAfter script then Some (RoundReturns None) else
  if Is err ErrClientSuspended || rs_suspended script
  then Some (RoundContinues None (mkSupervisor clientReconnectInitialBackoff (sv_firstSession s) (sv_cursor s) (sv_authentication s))) else
  '(retryNow, replacementErr, a) ← interceptAuthChallenge (sv_authentication s) err (rs_challenge script);
  if retryNow : bool then Some (RoundContinues None (mkSupervisor clientReconnectInitialBackoff (sv_firstSession s) (sv_cursor s) a)) else
  let err := default err replacementErr in
  if decide (classifyClientSessionError (Some err) = clientSessionErrorTerminal) then Some (RoundReturns (Some err)) else
  let cursor := nextConnectionCursor remotes dialWithIndex (sv_cursor s) err initialized in
  let backoff := applyClientSessionErrorBackoff err (sv_backoff s) in
  if negb (rs_waited script) then Some (RoundReturns None) else
  Some (RoundContinues (Some backoff) (mkSupervisor (Z.min (backoff * 2) clientReconnectMaximumBackoff) (sv_firstSession s) cursor a)).

(** The remote that a turn connects to, if it comes to that, and its end. *)
Definition supervisorRound (mode : string) (remotes : nat) (dialWithIndex : bool) (s : supervisor) (script : roundScript)
    : option (option clientConnectionCursor * roundEnd) :=
  if rs_stopped script then Some (None, RoundReturns None) else
  if negb (rs_resumed script) then Some (None, RoundReturns None) else
  '(err, a) ← acquireSessionCredentials mode (rs_client script) (sv_authentication s) (negb (sv_firstSession s)) (rs_credentials script);
  match err with
  | Some err => Some (None, RoundReturns (if rs_stoppedAfter script then None else Some err))
  | None =>
      let s := mkSupervisor (sv_backoff s) (sv_firstSession s) (sv_cursor s) a in
      match rs_session script with
      | SessionNotCurrent => Some (Some (sv_cursor s), RoundReturns None)
      | SessionFailed err =>
          e ← afterSessionError remotes dialWithIndex s err false script; Some (Some (sv_cursor s), e)
      | SessionEnded sessionErr =>
          let s' := mkSupervisor clientReconnectInitialBackoff false (sv_cursor s) (clearPreviousAuthFailure a) in
          match sessionErr with
          | None =>
              if rs_stoppedAfter script then Some (Some (sv_cursor s), RoundReturns None) else
              if rs_suspended script then Some (Some (sv_cursor s), RoundContinues None s') else Some (Some (sv_cursor s), RoundReturns None)
          | Some err => e ← afterSessionError remotes dialWithIndex s' err true script; Some (Some (sv_cursor s), e)
          end
      end
  end.

(** The remotes tried and the waits, and what the loop ends with ([inl]: it goes on
    after the script). *)
Fixpoint runSupervisor (mode : string) (remotes : nat) (dialWithIndex : bool) (s : supervisor) (scripts : list roundScript)
    : option (list clientConnectionCursor * list Z * (supervisor + option clientErr)) :=
  match scripts with
  | [] => Some ([], [], inl s)
  | script :: scripts =>
      '(tried, ends) ← supervisorRound mode remotes dialWithIndex s script;
      match ends with
      | RoundReturns terminal => Some (option_list tried, [], inr terminal)
      | RoundContinues waited s =>
          '(trieds, waits, last) ← runSupervisor mode remotes dialWithIndex s scripts;
          Some (option_list tried ++ trieds, option_list waited ++ waits, last)
      end
  end.

(** ** The schedule of an outage *)

(** An error that says nothing but that the connection failed. *)
Record outageError (err : clientErr) : Prop := {
  oe_challenge : Cast asChallenge err = None;
  oe_auth : IsMulti err [ErrAuthenticationFailed] = false;
  oe_retryable : classifyClientSessionError (Some err) = clientSessionErrorRetryable;
  oe_configuration : Is err errClientSessionConfiguration = false;
  oe_suspended : Is err ErrClientSuspended = false;
  oe_restart : Cast asRestart err = None;
  oe_temporary : Cast asTemporary err = None;
}.

Record outageRound (script : roundScript) : Prop := {
  or_stopped : rs_stopped script = false;
  or_resumed : rs_resumed script = true;
  or_session : ∃ err, rs_session script = SessionFailed err ∧ outageError err;
  or_stoppedAfter : rs_stoppedAfter script = false;
  or_suspended : rs_suspended script = false;
  or_waited : rs_waited script = true;
}.

Lemma nextConnectionCursor_outage n current err :
  outageError err → nextConnectionCursor n false current err false = mkCursor (Nat.modulo (S (cc_remoteIndex current)) n) 0.
Proof.
  intros [_ _ _ Hc _ Hr Ht]. unfold nextConnectionCursor. rewrite Hc, Hr, Ht. cbn [orb]. by destruct (IsMulti err _).
Qed.

Lemma supervisorRound_outage mode n s script :
  outageRound script → sc_defined (au_staged (sv_authentication s)) = true →
  supervisorRound mode n false s script =
    Some (Some (sv_cursor s), RoundContinues (Some (sv_backoff s))
      (mkSupervisor (Z.min (sv_backoff s * 2) clientReconnectMaximumBackoff) (sv_firstSession s)
         (mkCursor (Nat.modulo (S (cc_remoteIndex (sv_cursor s))) n) 0) (sv_authentication s))).
Proof.
  intros [H1 H2 (err & H3 & He) H4 H5 H6] Hd. unfold supervisorRound. rewrite H1, H2. cbn [negb].
  assert (acquireSessionCredentials mode (rs_client script) (sv_authentication s) (negb (sv_firstSession s)) (rs_credentials script) =
    Some (None, sv_authentication s)) as -> by (unfold acquireSessionCredentials; rewrite Hd; by destruct (negb _)).
  cbn [mbind option_bind]. rewrite H3. unfold afterSessionError. rewrite H4, H5, (oe_suspended err He). cbn [orb sv_authentication].
  assert (interceptAuthChallenge (sv_authentication s) err (rs_challenge script) = Some (false, None, sv_authentication s)) as ->
    by (unfold interceptAuthChallenge; by rewrite (oe_challenge err He), (oe_auth err He)).
  cbn [mbind option_bind default]. rewrite decide_False by (by rewrite (oe_retryable err He)). rewrite nextConnectionCursor_outage, H6 by done.
  unfold applyClientSessionErrorBackoff. rewrite (oe_temporary err He). done.
Qed.

(** The wait after the [k]-th failure: a second, doubled up to a minute. *)
Definition outageWait (k : nat) : Z := Z.min (2 ^ Z.of_nat k) 60 * Second.

Lemma outageWait_S k : Z.min (outageWait k * 2) clientReconnectMaximumBackoff = outageWait (S k).
Proof.
  unfold outageWait, clientReconnectMaximumBackoff, Second. rewrite Nat2Z.inj_succ, Z.pow_succ_r by lia.
  pose proof (Z.pow_pos_nonneg 2 (Z.of_nat k)). lia.
Qed.

Lemma outage_run mode n s scripts j i :
  (0 < n)%nat → Forall outageRound scripts → sc_defined (au_staged (sv_authentication s)) = true →
  sv_backoff s = outageWait j → sv_cursor s = mkCursor (Nat.modulo (i + j) n) 0 →
  ∃ s', runSupervisor mode n false s scripts =
    Some ((λ k, mkCursor (Nat.modulo (i + k) n) 0) <$> seq j (length scripts), outageWait <$> seq j (length scripts), inl s').
Proof.
  intros Hn Hs. revert s j. induction Hs as [| script scripts Hscript _ IH]; intros s j Hd Hb Hc; [by exists s |].
  cbn [runSupervisor]. rewrite supervisorRound_outage by done. cbn [mbind option_bind].
  destruct (IH (mkSupervisor (Z.min (sv_backoff s * 2) clientReconnectMaximumBackoff) (sv_firstSession s)
    (mkCursor (Nat.modulo (S (cc_remoteIndex (sv_cursor s))) n) 0) (sv_authentication s)) (S j)) as [s' Hrun]; [done | | |].
  - cbn [sv_backoff]. by rewrite Hb, outageWait_S.
  - cbn [sv_cursor]. rewrite Hc. cbn [cc_remoteIndex]. f_equal.
    rewrite <- (Nat.add_1_l (Nat.modulo (i + j) n)), Nat.Div0.add_mod_idemp_r. f_equal. lia.
  - exists s'. rewrite Hrun. cbn [length seq fmap list_fmap option_list app]. by rewrite Hc, Hb.
Qed.

(** While connections fail, a client without address lists tries its remotes
    in turn, from the first on and each before any is tried again, and waits one
    second, two, four and so on up to sixty between the attempts. *)
Theorem outage_schedule mode remotes a scripts :
  (0 < remotes)%nat → sc_defined (au_staged a) = true → Forall outageRound scripts →
  ∃ s, runSupervisor mode remotes false (newSupervisor a) scripts =
    Some ((λ k, mkCursor (Nat.modulo k remotes) 0) <$> seq 0 (length scripts),
          (λ k, Z.min (2 ^ Z.of_nat k) 60 * Second) <$> seq 0 (length scripts), inl s).
Proof.
  intros Hn Hd Hs. apply (outage_run mode remotes (newSupervisor a) scripts 0 0); try done. unfold newSupervisor. cbn.
  by rewrite Nat.Div0.mod_0_l.
Qed.

(** ** Bounds *)

(** What [ParseUint] bounds. *)
Definition backoffOk (err : clientErr) : Prop := ∀ b advance reason, Cast asTemporary err = Some (b, advance, reason) → 0 ≤ b < 2 ^ 32.

Definition awaitOk (script : awaitScript) : Prop := match aw_end script with EndContext err => backoffOk err | _ => True end.

Record roundOk (script : roundScript) : Prop := {
  ro_session : match rs_session script with SessionEnded (Some err) | SessionFailed err => backoffOk err | _ => True end;
  ro_challenge : awaitOk (rs_challenge script);
}.

(** Errors of the server's messages are so. *)
Lemma applyAuthFailedTemporaryFlags_range info content :
  0 ≤ fi_backoffSeconds info < 2 ^ 32 → 0 ≤ fi_backoffSeconds (applyAuthFailedTemporaryFlags info content) < 2 ^ 32.
Proof.
  unfold applyAuthFailedTemporaryFlags. generalize (Split ","%char content) as flags. intros flags. revert info.
  induction flags as [| flag flags IH]; intros info Hi; [done |]. cbn [foldl]. apply IH. unfold applyFlag.
  destruct (negb _); [done |]. destruct (Cut _ _) as [[keyword value] |]; [| done]. destruct (decide _).
  - destruct (ParseUint _ 32) eqn:E; [| done]. by apply ParseUint_range in E.
  - destruct (decide _); [| done]. destruct (decide _); [done |]. destruct (decide _); [done |]. by destruct (decide _).
Qed.

Lemma parseAuthFailedPayload_range payload : 0 ≤ fi_backoffSeconds (parseAuthFailedPayload payload) < 2 ^ 32.
Proof.
  assert (H0 : 0 ≤ 0 < 2 ^ 32) by lia. unfold parseAuthFailedPayload.
  destruct (negb _); [done |]. destruct (negb _); [done |]. destruct (negb _); [done |]. destruct (negb _); [done |].
  destruct (negb _); [done |]. destruct (HasPrefix _ "["); [| done]. destruct (Cut _ _) as [[content rest] |]; [| done].
  cbn [fi_backoffSeconds]. by apply applyAuthFailedTemporaryFlags_range.
Qed.

Lemma newAuthFailedErrorFromPayload_backoff payload authRetry : backoffOk (newAuthFailedErrorFromPayload payload authRetry).
Proof.
  intros b advance reason. unfold newAuthFailedErrorFromPayload. destruct (extractCRV1FromAuthFailed payload); [done |].
  destruct (negb _); [by destruct (bool_decide _) |]. pose proof (parseAuthFailedPayload_range payload).
  destruct (fi_temporary _); [| by destruct (bool_decide _)]. intros [= <- <- <-]. done.
Qed.

Definition supervisorOk (n : nat) (s : supervisor) : Prop :=
  Second ≤ sv_backoff s ≤ clientReconnectMaximumBackoff ∧ (cc_remoteIndex (sv_cursor s) < n)%nat.

Lemma nextConnectionCursor_range n dial current err initialized :
  (0 < n)%nat → (cc_remoteIndex current < n)%nat → (cc_remoteIndex (nextConnectionCursor n dial current err initialized) < n)%nat.
Proof.
  intros Hn Hc. unfold nextConnectionCursor. set (advance := if decide _ then _ else _). clearbody advance.
  destruct advance; cbn; [done | done |]. apply Nat.mod_upper_bound. lia.
Qed.

Lemma awaitChallengeResponse_backoff a script challenge err a' :
  awaitOk script → awaitChallengeResponse a script challenge = Some (inr err, a') → backoffOk err.
Proof.
  unfold awaitOk, awaitChallengeResponse. intros Ho. destruct (publishChallenge a _) as [b |]; [| done]. cbn [mbind option_bind].
  destruct (doOps b _) as [[cbs b'] |]; [| done]. cbn [mbind option_bind]. destruct (aw_end script).
  - destruct (CompleteChallenge b' _ _) as [[[[] ?] ?] |]; done.
  - destruct (CancelChallenge b' _) as [[[[] ?] ?] |]; [| done | done]. by intros [= <- <-].
  - destruct (clearChallengeOwnedBy b' _); [| done]. by intros [= <- <-].
Qed.

Lemma interceptAuthChallenge_backoff a err script retry replacement a' :
  awaitOk script → interceptAuthChallenge a err script = Some (retry, replacement, a') →
  match replacement with Some err' => backoffOk err' | None => True end.
Proof.
  unfold interceptAuthChallenge. intros Ho. destruct (Cast asChallenge err) as [ch |].
  - destruct (awaitChallengeResponse _ script _) as [[[response | e] b] |] eqn:E; [by intros [= <- <- <-] | | done].
    cbn [mbind option_bind]. intros [= <- <- <-]. by apply awaitChallengeResponse_backoff in E.
  - destruct (negb _); [by intros [= <- <- <-] |]. destruct (isSome _); [by intros [= <- <- <-] |]. destruct (isSome _); [by intros [= <- <- <-] |].
    destruct (negb _); by intros [= <- <- <-].
Qed.

Lemma applyClientSessionErrorBackoff_range err backoff :
  backoffOk err → Second ≤ backoff ≤ clientReconnectMaximumBackoff →
  let w := applyClientSessionErrorBackoff err backoff in
  Second ≤ w ∧ w * 2 < 2 ^ 63 ∧ (w ≤ clientReconnectMaximumBackoff ∨ ∃ b advance reason, Cast asTemporary err = Some (b, advance, reason) ∧ w = b * Second).
Proof.
  unfold applyClientSessionErrorBackoff, clientReconnectMaximumBackoff, Second. intros He Hb.
  destruct (Cast asTemporary err) as [[[b advance] reason] |] eqn:E; [| lia]. apply He in E as Hr.
  destruct (Z.eqb_spec b 0); [lia |]. split; [lia |]. split; [lia |].
  destruct (Z.le_ge_cases backoff (b * 1000000000)); [right; exists b, advance, reason; split; [done | lia] | left; lia].
Qed.

(** One turn keeps the cursor and the backoff in their ranges. *)
Lemma afterSessionError_ok n dial s err initialized script e :
  (0 < n)%nat → supervisorOk n s → backoffOk err → roundOk script → afterSessionError n dial s err initialized script = Some e →
  match e with
  | RoundReturns _ => True
  | RoundContinues waited s' => supervisorOk n s' ∧ ∀ w, waited = Some w → Second ≤ w ∧ w * 2 < 2 ^ 63
  end.
Proof.
  intros Hn [Hb Hc] He [_ Hch]. unfold afterSessionError. destruct (rs_stoppedAfter script); [by intros [= <-] |].
  assert (Hi : Second ≤ clientReconnectInitialBackoff ≤ clientReconnectMaximumBackoff)
    by (unfold clientReconnectInitialBackoff, clientReconnectMaximumBackoff, Second; lia).
  destruct (_ || _); [intros [= <-]; split; [by split | done] |].
  destruct (interceptAuthChallenge _ _ _) as [[[retry replacement] a] |] eqn:Hint; [| done]. cbn [mbind option_bind].
  destruct retry; [intros [= <-]; split; [by split | done] |]. apply interceptAuthChallenge_backoff in Hint; [| done].
  assert (He' : backoffOk (default err replacement)) by by destruct replacement.
  destruct (decide _); [by intros [= <-] |]. destruct (negb _); [by intros [= <-] |]. intros [= <-].
  destruct (applyClientSessionErrorBackoff_range _ _ He' Hb) as (Hw1 & Hw2 & _). split.
  - split; cbn [sv_backoff sv_cursor]; [unfold clientReconnectMaximumBackoff, Second in *; lia | by apply nextConnectionCursor_range].
  - by intros w [= <-].
Qed.

Lemma supervisorRound_ok mode n dial s script tried e :
  (0 < n)%nat → supervisorOk n s → roundOk script → supervisorRound mode n dial s script = Some (tried, e) →
  (∀ cursor, tried = Some cursor → (cc_remoteIndex cursor < n)%nat) ∧
  match e with
  | RoundReturns _ => True
  | RoundContinues waited s' => supervisorOk n s' ∧ ∀ w, waited = Some w → Second ≤ w ∧ w * 2 < 2 ^ 63
  end.
Proof.
  intros Hn Hs Hr. unfold supervisorRound. destruct (rs_stopped script); [by intros [= <- <-] |]. destruct (negb _); [by intros [= <- <-] |].
  destruct (acquireSessionCredentials _ _ _ _ _) as [[err a] |]; [| done]. cbn [mbind option_bind].
  destruct err as [err |]; [by intros [= <- <-] |]. pose proof (ro_session script Hr) as Hse. destruct Hs as [Hb Hc].
  assert (Hi : Second ≤ clientReconnectInitialBackoff ≤ clientReconnectMaximumBackoff)
    by (unfold clientReconnectInitialBackoff, clientReconnectMaximumBackoff, Second; lia).
  destruct (rs_session script) as [[err |] | err |].
  - destruct (afterSessionError _ _ _ _ _ _) as [e' |] eqn:He; [| done]. cbn [mbind option_bind]. intros [= <- <-].
    split; [by intros ? [= <-] |]. eapply afterSessionError_ok; [done | | done | done | exact He]. by split.
  - destruct (rs_stoppedAfter script); [intros [= <- <-]; split; [by intros ? [= <-] | done] |].
    destruct (rs_suspended script); intros [= <- <-]; split; try (by intros ? [= <-]); [| done]. split; [by split | done].
  - destruct (afterSessionError _ _ _ _ _ _) as [e' |] eqn:He; [| done]. cbn [mbind option_bind]. intros [= <- <-].
    split; [by intros ? [= <-] |]. eapply afterSessionError_ok; [done | | done | done | exact He]. by split.
  - intros [= <- <-]. split; [by intros ? [= <-] | done].
Qed.

(** However sessions fail and whatever backoff servers ask for, the cursor
    stays within the list of remotes, the supervisor never waits less than a
    second, and doubling a wait does not overflow a duration. *)
Theorem supervisor_bounded mode remotes dialWithIndex a scripts tried waits last :
  (0 < remotes)%nat → Forall roundOk scripts →
  runSupervisor mode remotes dialWithIndex (newSupervisor a) scripts = Some (tried, waits, last) →
  Forall (λ cursor, (cc_remoteIndex cursor < remotes)%nat) tried ∧ Forall (λ w, Second ≤ w ∧ w * 2 < 2 ^ 63) waits.
Proof.
  intros Hn. assert (Hs : supervisorOk remotes (newSupervisor a))
    by (split; cbn; [unfold clientReconnectInitialBackoff, clientReconnectMaximumBackoff, Second; lia | done]).
  revert Hs. generalize (newSupervisor a) as s. revert tried waits.
  induction scripts as [| script scripts IH]; intros tried waits s Hs Hok; cbn [runSupervisor]; [by intros [= <- <- <-] |].
  apply Forall_cons in Hok as [Hr Hok]. destruct (supervisorRound _ _ _ _ _) as [[t e] |] eqn:He; [| done]. cbn [mbind option_bind].
  apply supervisorRound_ok in He as [Ht He]; [| done..]. destruct e as [terminal | waited s'].
  - intros [= <- <- <-]. split; [| constructor]. destruct t; cbn; constructor; [by apply Ht | constructor].
  - destruct (runSupervisor _ _ _ s' scripts) as [[[ts ws] l] |] eqn:Hrun; [| done]. cbn [mbind option_bind]. intros [= <- <- <-].
    destruct He as [Hs' Hw]. destruct (IH _ _ _ Hs' Hok Hrun) as [H1 H2]. split; apply Forall_app; split; try done.
    + destruct t; cbn; constructor; [by apply Ht | constructor].
    + destruct waited; cbn; constructor; [by apply Hw | constructor].
Qed.

(** ** The order of the remotes *)

Lemma swapRemotes_perm {A} (l : list A) i j : swapRemotes l i j ≡ₚ l.
Proof.
  unfold swapRemotes. destruct (l !! i) as [x |] eqn:Hi; [| done]. destruct (l !! j) as [y |] eqn:Hj; [| done].
  by apply Permutation_insert_swap.
Qed.

Lemma secureShuffle_perm {A} random (l l' : list A) index : secureShuffle random l index = Ok l' → l' ≡ₚ l.
Proof.
  revert l. induction index as [| below IH]; intros l; cbn [secureShuffle]; [by intros [= <-] |].
  destruct (random (S (S below))) as [j | err]; [| done]. cbn [mbind result_bind]. intros H. rewrite (IH _ H). apply swapRemotes_perm.
Qed.

Lemma swapRemotes_lookup {A} (l : list A) i j k :
  (i < length l)%nat → (j < length l)%nat → swapRemotes l i j !! k = if decide (k = j) then l !! i else if decide (k = i) then l !! j else l !! k.
Proof.
  intros [x Hx]%lookup_lt_is_Some [y Hy]%lookup_lt_is_Some. unfold swapRemotes. rewrite Hx, Hy.
  pose proof (lookup_lt_Some _ _ _ Hx). pose proof (lookup_lt_Some _ _ _ Hy).
  destruct (decide (k = j)) as [-> | Hj]; [by rewrite list_lookup_insert_eq by (rewrite length_insert; lia) |].
  rewrite list_lookup_insert_ne by done. destruct (decide (k = i)) as [-> | Hi]; [by rewrite list_lookup_insert_eq by lia | by rewrite list_lookup_insert_ne].
Qed.

Lemma length_swapRemotes {A} (l : list A) i j : length (swapRemotes l i j) = length l.
Proof. apply Permutation_length, swapRemotes_perm. Qed.

(** Choices within the bounds that the shuffle asks for. *)
Definition choices (index : nat) (r : nat → nat) : Prop := ∀ b, (2 ≤ b ≤ S index)%nat → (r b < b)%nat.

(** The shuffle leaves what is beyond its index. *)
Lemma secureShuffle_beyond {A} r (l l' : list A) index k :
  (index < length l)%nat → choices index r → secureShuffle (λ b, Ok (r b)) l index = Ok l' → (index < k)%nat → l' !! k = l !! k.
Proof.
  revert l. induction index as [| below IH]; intros l Hl Hr; cbn [secureShuffle]; [by intros [= <-] |]. cbn [mbind result_bind].
  intros H Hk. pose proof (Hr (S (S below)) ltac:(lia)) as Hlt.
  rewrite (IH (swapRemotes l (S below) (r (S (S below))))); [| rewrite length_swapRemotes; lia | intros b ?; apply Hr; lia | exact H | lia].
  rewrite swapRemotes_lookup by lia. by rewrite !decide_False by lia.
Qed.

Lemma secureShuffle_ext {A} r r' (l : list A) index :
  (∀ b, (2 ≤ b ≤ S index)%nat → r b = r' b) → secureShuffle r l index = secureShuffle r' l index.
Proof.
  revert l. induction index as [| below IH]; intros l Hr; [done |]. cbn [secureShuffle]. rewrite (Hr (S (S below))) by lia.
  destruct (r' (S (S below))); [| done]. cbn [mbind result_bind]. apply IH. intros b Hb. apply Hr. lia.
Qed.

(** Where an order agrees with another beyond an index, they permute what is before. *)
Lemma permutation_before {A} (l p : list A) n :
  p ≡ₚ l → (∀ k, (n ≤ k)%nat → p !! k = l !! k) → take n p ≡ₚ take n l.
Proof.
  intros Hp Hk. assert (Hd : drop n p = drop n l) by (apply list_eq; intros i; rewrite !lookup_drop; apply Hk; lia).
  rewrite <- (take_drop n p), <- (take_drop n l), Hd in Hp. by apply Permutation_app_inv_r in Hp.
Qed.

(** An order that differs only up to the index comes from one choice. *)
Lemma secureShuffle_onto {A} (l p : list A) index :
  NoDup l → (index < length l)%nat → p ≡ₚ l → (∀ k, (index < k)%nat → p !! k = l !! k) →
  ∃ r, choices index r ∧ secureShuffle (λ b, Ok (r b)) l index = Ok p ∧
    ∀ r', choices index r' → secureShuffle (λ b, Ok (r' b)) l index = Ok p → ∀ b, (2 ≤ b ≤ S index)%nat → r' b = r b.
Proof.
  revert l. induction index as [| below IH]; intros l Hnd Hl Hp Hbeyond.
  { exists (λ _, 0%nat). split; [intros b ?; lia |]. split; [| intros; lia]. cbn. f_equal.
    pose proof (permutation_before l p 1 Hp ltac:(intros; apply Hbeyond; lia)) as H1. apply list_eq. intros [| k]; [| symmetry; apply Hbeyond; lia].
    destruct l as [| x l]; [cbn in Hl; lia |]. destruct p as [| y p]; [by apply Permutation_nil_l in Hp |]. cbn in H1 |- *.
    rewrite !take_0 in H1. apply Permutation_length_1 in H1. congruence. }
  destruct (lookup_lt_is_Some_2 p (S below)) as [x Hx]; [by rewrite Hp |].
  assert (∃ j, (j ≤ S below)%nat ∧ l !! j = Some x) as (j & Hj & Hlj).
  { assert (x ∈ take (S (S below)) l) as (j & Hj)%list_elem_of_lookup.
    { rewrite <- (permutation_before l p (S (S below)) Hp ltac:(intros; apply Hbeyond; lia)).
      apply list_elem_of_lookup. exists (S below). by rewrite lookup_take_lt by lia. }
    exists j. apply lookup_take_Some in Hj as [? ?]. split; [lia | done]. }
  set (l1 := swapRemotes l (S below) j).
  assert (Hl1 : l1 ≡ₚ l) by apply swapRemotes_perm.
  destruct (IH l1) as (r & Hr & Hrun & Huniq); [by rewrite Hl1 | by rewrite Hl1; lia | by rewrite Hl1 | |].
  { intros k Hk. destruct (decide (k = S below)) as [-> | Hne].
    - subst l1. rewrite swapRemotes_lookup by lia. destruct (decide (S below = j)) as [<- |]; [congruence |]. rewrite decide_True by done. congruence.
    - subst l1. rewrite Hbeyond by lia. rewrite swapRemotes_lookup by lia. by rewrite !decide_False by lia. }
  exists (λ b, if decide (b = S (S below)) then j else r b). split_and!.
  - intros b Hb. destruct (decide _) as [-> |]; [lia | apply Hr; lia].
  - cbn [secureShuffle mbind result_bind]. rewrite decide_True by done. rewrite <- Hrun. apply secureShuffle_ext. intros b Hb. by rewrite decide_False by lia.
  - intros r' Hr' Hrun' b Hb. cbn [secureShuffle mbind result_bind] in Hrun'. pose proof (Hr' (S (S below)) ltac:(lia)) as Hlt.
    assert (Ej : r' (S (S below)) = j).
    { apply (secureShuffle_beyond r' _ _ below (S below)) in Hrun' as Hk; [| rewrite length_swapRemotes; lia | intros ? ?; apply Hr'; lia | lia].
      rewrite Hx, swapRemotes_lookup in Hk by lia. eapply NoDup_lookup; [exact Hnd | | exact Hlj].
      destruct (decide (S below = r' (S (S below)))) as [E |]; [rewrite <- E; done |]. by rewrite decide_True in Hk by done. }
    destruct (decide (b = S (S below))) as [-> | Hne]; [done |]. rewrite Ej in Hrun'. apply (Huniq r'); [intros ? ?; apply Hr'; lia | done | lia].
Qed.

(** The random order of the remotes is unbiased: the shuffle only permutes
    them, and every order comes from exactly one sequence of choices below the
    bounds asked for. *)
Theorem shuffle_unbiased (remotes : list clientRemote) :
  (∀ random remotes', secureShuffleClientRemotes random remotes = Ok remotes' → remotes' ≡ₚ remotes) ∧
  (NoDup remotes → ∀ order, order ≡ₚ remotes → ∃ r, choices (length remotes - 1) r ∧
    secureShuffleClientRemotes (λ b, Ok (r b)) remotes = Ok order ∧
    ∀ r', choices (length remotes - 1) r' → secureShuffleClientRemotes (λ b, Ok (r' b)) remotes = Ok order →
      ∀ b, (2 ≤ b ≤ length remotes)%nat → r' b = r b).
Proof.
  split; [intros random remotes'; apply secureShuffle_perm |]. intros Hnd order Ho. unfold secureShuffleClientRemotes.
  destruct (decide (length remotes = 0%nat)) as [E | E].
  - apply nil_length_inv in E. subst. apply Permutation_nil_r in Ho as ->. exists (λ _, 0%nat). split_and!; [intros b ?; cbn in *; lia | done | cbn; intros; lia].
  - destruct (secureShuffle_onto remotes order (length remotes - 1) Hnd) as (r & Hr & Hrun & Hu); [lia | done | |].
    + intros k Hk. rewrite !lookup_ge_None_2; [done | lia | rewrite Ho; lia].
    + exists r. split_and!; [done | done |]. intros r' Hr' Hrun' b Hb. apply Hu; [done | done | lia].
Qed.

(** ** Waiting for the client to be ready *)

Inductive lifecycleOp :=
| LStart (material : result unit)
| LSetCurrent (contextDone : bool) (session : nat)
| LClear (session : nat)
| LReady (session : nat) (ready : bool)
| LSignal
| LTerminal (err : clientErr)
| LSupervisorExit
| LSuspend
| LResume
| LClose.

(** The lifecycle and which sessions are ready. *)
Definition lifecycleState : Type := clientLifecycle * (nat → bool).

(** [None] is a panic.  A session that becomes ready or ceases to be signals after
    it has set the mark, with [LSignal]. *)
Definition doLifecycle (s : lifecycleState) (op : lifecycleOp) : option lifecycleState :=
  let '(l, ready) := s in
  match op with
  | LStart material => Some ((Start l material).2, ready)
  | LSetCurrent contextDone session => '(_, l) ← setCurrentSession l contextDone session; Some (l, ready)
  | LClear session => l ← clearCurrentSession l session; Some (l, ready)
  | LReady session isReady => Some (l, λ other, if decide (other = session) then isReady else ready other)
  | LSignal => l ← signalStateChangedLocked l; Some (l, ready)
  | LTerminal err => l ← setTerminalError l err; Some (l, ready)
  | LSupervisorExit => l ← closeSupervisorReadableState l; Some (l, ready)
  | LSuspend => Some ((Suspend l).2, ready)
  | LResume => l ← Resume l; Some (l, ready)
  | LClose => '(_, l) ← closeLifecycle l; Some (l, ready)
  end.

Fixpoint doLifecycles (s : lifecycleState) (ops : list lifecycleOp) : option lifecycleState :=
  match ops with [] => Some s | op :: ops => s ← doLifecycle s op; doLifecycles s ops end.

Record lifecycleOk (l : clientLifecycle) : Prop := {
  lo_open : lc_stateChanged l ∉ lc_closedChannels l;
  lo_fresh : (lc_stateChanged l < lc_channels l)%nat ∧ ∀ channel, channel ∈ lc_closedChannels l → (channel < lc_channels l)%nat;
  lo_resumed : lc_suspended l = true →
    lc_resumed l ∉ lc_closedChannels l ∧ lc_resumed l ≠ lc_stateChanged l ∧ lc_resumed l ≠ lc_dataReadDone l ∧ (lc_resumed l < lc_channels l)%nat;
  lo_data : (lc_dataReadDone l ∈ lc_closedChannels l ↔ lc_dataReadStopped l = true) ∧ lc_dataReadDone l ≠ lc_stateChanged l ∧ (lc_dataReadDone l < lc_channels l)%nat;
}.

(** Whether an operation says that the state changed, whatever the state is. *)
Definition signals (op : lifecycleOp) : bool :=
  match op with LClear _ | LSignal | LTerminal _ | LSupervisorExit => true | _ => false end.

(** What changes the answer of [WaitReady] and leaves the signal to a later step. *)
Definition silent (op : lifecycleOp) : bool := match op with LClose | LReady _ _ => true | _ => false end.

Lemma signalStateChanged_ok l :
  lifecycleOk l → ∃ l', signalStateChangedLocked l = Some l' ∧ lifecycleOk l' ∧ lc_stateChanged l ∈ lc_closedChannels l' ∧
        (∀ channel, channel ∈ lc_closedChannels l → channel ∈ lc_closedChannels l').
Proof.
  intros [H1 [H2 H3] H4 (H5 & H6 & H7)]. unfold signalStateChangedLocked, closeLifecycleChannel, closeChannel. rewrite decide_False by done.
  cbn [mbind option_bind]. eexists. split; [reflexivity |]. cbn. split_and!; [| set_solver | set_solver].
  split; cbn.
  - intros [Heq | Hin]%elem_of_cons; [lia |]. apply H3 in Hin. lia.
  - split; [lia |]. intros channel [-> | Hin]%elem_of_cons; [lia |]. apply H3 in Hin. lia.
  - intros Hs. destruct (H4 Hs) as (Ha & Hb & Hc & Hd). split_and!; [| lia | done | lia]. by intros [? | ?]%elem_of_cons.
  - split_and!; [| lia | lia]. rewrite <- H5, elem_of_cons. naive_solver.
Qed.

(** Reading is stopped once; the channel is closed then. *)
Lemma stopDataReads_ok l :
  lifecycleOk l → ∃ l', stopDataReadsLocked l = Some l' ∧ lifecycleOk l' ∧ (∀ channel, channel ∈ lc_closedChannels l → channel ∈ lc_closedChannels l') ∧
    lc_stateChanged l' = lc_stateChanged l ∧ lc_dataReadDone l' ∈ lc_closedChannels l' ∧
    ∀ closed, lifecycleOk (l' <| lc_currentSession := closed |>).
Proof.
  intros Hl. pose proof Hl as [H1 [H2 H3] H4 (H5 & H6 & H7)]. unfold stopDataReadsLocked, closeLifecycleChannel, closeChannel.
  destruct (lc_dataReadStopped l) eqn:Es.
  { exists l. split_and!; [done.. | by apply H5 |]. intros closed. by destruct Hl. }
  rewrite decide_False by (intros Hin; apply H5 in Hin; congruence). cbn [mbind option_bind]. eexists. split; [reflexivity |].
  assert (Hok : ∀ closed : option nat, lifecycleOk (l <| lc_closedChannels := lc_dataReadDone l :: lc_closedChannels l |> <| lc_dataReadStopped := true |> <| lc_currentSession := closed |>)).
  { intros closed. split; cbn.
    - by intros [? | ?]%elem_of_cons.
    - split; [lia |]. intros channel [-> | Hin]%elem_of_cons; [lia |]. apply H3 in Hin. lia.
    - intros Hs. destruct (H4 Hs) as (Ha & Hb & Hc & Hd). split_and!; try done. by intros [? | ?]%elem_of_cons.
    - split_and!; try done. split; [done |]. intros _. constructor. }
  split_and!; [exact (Hok (lc_currentSession l)) | cbn; set_solver | done | cbn; constructor | exact Hok].
Qed.

(** What an operation may do to a watcher. *)
Lemma doLifecycle_ok l ready op :
  lifecycleOk l → ∃ l' ready', doLifecycle (l, ready) op = Some (l', ready') ∧ lifecycleOk l' ∧
    (∀ channel, channel ∈ lc_closedChannels l → channel ∈ lc_closedChannels l') ∧
    (lc_stateChanged l ∈ lc_closedChannels l' ∨
     lc_stateChanged l' = lc_stateChanged l ∧ signals op = false ∧ (WaitReady l' ready' = WaitReady l ready ∨ silent op = true)).
Proof.
  intros Hl. pose proof Hl as [H1 [H2 H3] H4 H5].
  assert (Hsignal : ∀ b (r : nat → bool), lifecycleOk b → lc_stateChanged b = lc_stateChanged l → (∀ channel, channel ∈ lc_closedChannels l → channel ∈ lc_closedChannels b) →
    ∃ l' ready', (l ← signalStateChangedLocked b; Some (l, r)) = Some (l', ready') ∧ lifecycleOk l' ∧
    (∀ channel, channel ∈ lc_closedChannels l → channel ∈ lc_closedChannels l') ∧
    (lc_stateChanged l ∈ lc_closedChannels l' ∨
     lc_stateChanged l' = lc_stateChanged l ∧ signals op = false ∧ (WaitReady l' ready' = WaitReady l ready ∨ silent op = true))).
  { intros b r Hb Hs Hm. destruct (signalStateChanged_ok b Hb) as (l' & E & Hok & Hin & Hmono). rewrite E. eexists _, _. split; [reflexivity |].
    split_and!; [done | set_solver | left; by rewrite <- Hs]. }
  destruct op; cbn [doLifecycle]; unfold setCurrentSession, clearCurrentSession, setTerminalError, closeSupervisorReadableState.
  - unfold Start. destruct (lc_started l); [| destruct (lc_closed l); [| destruct material]]; eexists _, _; (split; [reflexivity |]); split_and!; try done;
      try (by right; split_and!; [| | left]).
  - destruct (_ || _).
    + cbn [mbind option_bind]. eexists _, _. split; [reflexivity |]. split_and!; [done | done |]. right. by split_and!; [| | left].
    + destruct (signalStateChanged_ok (l <| lc_currentSession := Some session |>)) as (l' & E & Hok & Hin & Hmono); [by split |].
      rewrite E. cbn [mbind option_bind]. eexists _, _. split; [reflexivity |]. split_and!; [done | done | by left].
  - apply Hsignal; destruct (decide _); try done; by split.
  - eexists _, _. split; [reflexivity |]. split_and!; [done | done |]. right. by split_and!; [| | right].
  - by apply Hsignal.
  - destruct (stopDataReads_ok (l <| lc_terminalError := Some err |>)) as (b & -> & Hb & Hm & Hs & _); [by split |]. cbn [mbind option_bind]. by apply Hsignal.
  - destruct (_ && _); [| by apply Hsignal].
    destruct (stopDataReads_ok (l <| lc_closed := true |> <| lc_currentSession := None |>)) as (b & -> & Hb & Hm & Hs & _); [by split |]. cbn [mbind option_bind]. by apply Hsignal.
  - unfold Suspend. destruct (_ || _); eexists _, _; (split; [reflexivity |]); split_and!; try done; try (by right; split_and!; [| | left]).
    destruct H5 as (H5 & H6 & H7). split; cbn; [done | split; [lia | intros channel Hin; apply H3 in Hin; lia] | | split_and!; [done | done | lia]].
    intros _. split_and!; [| lia | lia | lia]. intros Hin. apply H3 in Hin. lia.
  - unfold Resume, closeLifecycleChannel, closeChannel. destruct (lc_suspended l) eqn:Es; cbn [negb].
    + destruct (H4 eq_refl) as (Hr1 & Hr2 & Hr3 & Hr4). cbn. rewrite decide_False by done. cbn [mbind option_bind].
      eexists _, _. split; [reflexivity |]. split_and!; [| set_solver | right; by split_and!; [| | left]].
      destruct H5 as (H5 & H6 & H7). split; cbn; [by intros [? | ?]%elem_of_cons | | done |].
      * split; [done |]. intros channel [-> | Hin]%elem_of_cons; [done | by apply H3].
      * split_and!; [| done | done]. rewrite <- H5, elem_of_cons. naive_solver.
    + eexists _, _. split; [reflexivity |]. split_and!; [done | done |]. right. by split_and!; [| | left].
  - unfold closeLifecycle. destruct (stopDataReads_ok (l <| lc_closed := true |>)) as (b & -> & Hb & Hm & Hs & _ & Hc); [by split |]. cbn [mbind option_bind].
    eexists _, _. split; [reflexivity |]. split_and!; [apply Hc | exact Hm | right; split_and!; [exact Hs | done | by right]].
Qed.

Lemma doLifecycles_ok l ready ops :
  lifecycleOk l → ∃ l' ready', doLifecycles (l, ready) ops = Some (l', ready') ∧ lifecycleOk l' ∧
    (∀ channel, channel ∈ lc_closedChannels l → channel ∈ lc_closedChannels l') ∧
    (lc_stateChanged l ∈ lc_closedChannels l' ∨
     lc_stateChanged l' = lc_stateChanged l ∧ Forall (λ op, signals op = false) ops ∧ (WaitReady l' ready' = WaitReady l ready ∨ ∃ op, op ∈ ops ∧ silent op = true)).
Proof.
  revert l ready. induction ops as [| op ops IH]; intros l ready Hl.
  { exists l, ready. split_and!; [done | done | done |]. right. split_and!; [done | constructor | by left]. }
  destruct (doLifecycle_ok l ready op Hl) as (l1 & ready1 & E & Hok1 & Hm1 & Hw1). cbn [doLifecycles]. rewrite E. cbn [mbind option_bind].
  destruct (IH l1 ready1 Hok1) as (l2 & ready2 & E2 & Hok2 & Hm2 & Hw2). exists l2, ready2. split_and!; [done | done | set_solver |].
  destruct Hw1 as [Hw1 | (Hs1 & Hn1 & Hv1)]; [left; by apply Hm2 |]. rewrite Hs1 in Hw2. destruct Hw2 as [Hw2 | (Hs2 & Hn2 & Hv2)]; [by left |].
  right. split_and!; [done | by constructor |]. destruct Hv2 as [-> | (o & Ho & Hso)]; [| right; exists o; split; [by right | done]].
  destruct Hv1 as [-> | Hs]; [by left | right; exists op; split; [by left | done]].
Qed.

Lemma newLifecycle_ok : lifecycleOk newLifecycle.
Proof.
  split; cbn; [by intros []%not_elem_of_nil | split; [lia | by intros ? []%not_elem_of_nil] | done |].
  split_and!; [| lia | lia]. split; [by intros []%not_elem_of_nil | done].
Qed.

(** C35: No sequence of the program's calls and the supervisor's steps closes a
    channel of the lifecycle twice, be it the one that tells of changes, the one that ends a
    suspension or the one that ends reading; reading has been stopped exactly when its channel
    is closed; and a caller of [WaitReady] is woken: once it would return, the
    channel that it waits for is closed, provided that a client which was closed
    has a supervisor that returns, and a session whose readiness changed has gone on to
    signal. *)
Theorem wait_ready_woken ops ops' ready :
  ∃ l ready1 l' ready', doLifecycles (newLifecycle, ready) ops = Some (l, ready1) ∧ doLifecycles (l, ready1) ops' = Some (l', ready') ∧
    (lc_dataReadDone l ∈ lc_closedChannels l ↔ lc_dataReadStopped l = true) ∧
    ∀ channel outcome, WaitReady l ready1 = inr channel → WaitReady l' ready' = inl outcome →
      (LClose ∈ ops' → LSupervisorExit ∈ ops') → (∀ session b, LReady session b ∈ ops' → LSignal ∈ ops') → channel ∈ lc_closedChannels l'.
Proof.
  destruct (doLifecycles_ok newLifecycle ready ops newLifecycle_ok) as (l & ready1 & E & Hok & _).
  destruct (doLifecycles_ok l ready1 ops' Hok) as (l' & ready' & E' & Hok' & _ & Hw). exists l, ready1, l', ready'. split_and!; [done | done | apply (lo_data l Hok) |].
  intros channel outcome Hwait Hout Hexit Hready. assert (channel = lc_stateChanged l) as ->.
  { unfold WaitReady in Hwait. destruct (lc_terminalError l); [done |]. destruct (lc_closed l); [done |].
    destruct (lc_currentSession l); [destruct (ready1 _); [done |] |]; by injection Hwait. }
  destruct Hw as [Hw | (_ & Hn & Hv)]; [done |]. destruct Hv as [Hv | (op & Hop & Hs)]; [congruence |].
  rewrite Forall_forall in Hn. destruct op; try done; [by specialize (Hn _ (Hready _ _ Hop)) | by specialize (Hn _ (Hexit Hop))].
Qed.

(** The calls of the program. *)
Definition programCall (op : lifecycleOp) : Prop :=
  match op with LStart _ | LSuspend | LResume | LClose => True | _ => False end.

(** A client that is closed before it is started leaves callers of
    [WaitReady] waiting: [Close] does not signal the change and there is no
    supervisor that would, so that, although [WaitReady] would return, the channel
    that they wait for stays open whatever the program calls. *)
Theorem close_before_start_strands_waiters ready ops :
  Forall programCall ops →
  WaitReady newLifecycle ready = inr 1%nat ∧
  ∃ l, doLifecycles (newLifecycle, ready) (LClose :: ops) = Some (l, ready) ∧
    WaitReady l ready = inl (Some (Plain ErrClientClosed)) ∧ 1%nat ∉ lc_closedChannels l ∧ lc_started l = false.
Proof.
  intros Hops. split; [done |]. cbn [doLifecycles doLifecycle mbind option_bind].
  assert (Hinv : ∀ l, lc_closed l = true → lc_started l = false → lc_suspended l = false → lc_terminalError l = None → lc_dataReadStopped l = true → 1%nat ∉ lc_closedChannels l →
    ∃ l', doLifecycles (l, ready) ops = Some (l', ready) ∧ WaitReady l' ready = inl (Some (Plain ErrClientClosed)) ∧
      1%nat ∉ lc_closedChannels l' ∧ lc_started l' = false).
  { induction Hops as [| op ops Hop _ IH]; intros l Hc Hs Hu Ht Hd Hn.
    - exists l. split_and!; try done. unfold WaitReady. by rewrite Ht, Hc.
    - destruct op; try done; cbn [doLifecycles doLifecycle mbind option_bind].
      + unfold Start. rewrite Hs, Hc. by apply IH.
      + unfold Suspend. rewrite Hc, orb_true_r. by apply IH.
      + unfold Resume. rewrite Hu. by apply IH.
      + unfold closeLifecycle, stopDataReadsLocked. cbn. rewrite Hd. cbn [mbind option_bind]. by apply IH. }
  unfold closeLifecycle, stopDataReadsLocked, closeLifecycleChannel, closeChannel. cbn -[doLifecycles WaitReady].
  apply Hinv; try done. cbn. by intros [? | []%not_elem_of_nil]%elem_of_cons.
Qed.

(** ** The hypotheses can hold *)

Module SupervisorWitness.

#[export] Instance Remote_eq_dec : EqDecision Remote.
Proof. solve_decision. Defined.
#[export] Instance clientRemote_eq_dec : EqDecision clientRemote.
Proof. solve_decision. Defined.

Definition client : Client :=
  mkClient AuthWitness.options false noCompression allowCompressionStubOnly None
    (mkTunnel no_TunnelConfiguration EmptyString EmptyString false false [] false EmptyString EmptyString (mkDispatcher [] false false false)).

Definition noAwait : awaitScript := mkAwait EmptyString [] EndCancel.

Definition round (err : clientErr) : roundScript := mkRound false true client noAwait (SessionFailed err) false false noAwait true.

Definition authentication : clientAuthenticationSession := stageCredentials newAuthenticationSession "user" "password" false.

Definition timeout : clientErr := Plain (ErrNew "i/o timeout").

Definition remote (host : string) : clientRemote := mkClientRemote (mkRemote host 1194 "udp") (host +:+ ":1194") "udp" 0.

End SupervisorWitness.

Lemma outage_schedule_witness :
  ∃ s, runSupervisor ModeTLS 2 false (newSupervisor SupervisorWitness.authentication) (replicate 8 (SupervisorWitness.round SupervisorWitness.timeout)) =
    Some ((λ i, mkCursor i 0) <$> [0; 1; 0; 1; 0; 1; 0; 1]%nat, (λ w, w * Second) <$> [1; 2; 4; 8; 16; 32; 60; 60], inl s).
Proof.
  apply (outage_schedule ModeTLS 2 SupervisorWitness.authentication (replicate 8 (SupervisorWitness.round SupervisorWitness.timeout)));
    [lia | done |]. apply Forall_replicate. split; try done. exists SupervisorWitness.timeout. split; [done |]. split; reflexivity.
Defined.

Lemma supervisor_bounded_witness :
  let scripts := [SupervisorWitness.round (AuthFailedTemporaryError 4294967295 AuthFailedAdvanceNextRemote EmptyString);
                  SupervisorWitness.round (serverRestartError clientRemoteAdvanceStay)] in
  ∃ tried waits last, runSupervisor ModeTLS 2 false (newSupervisor SupervisorWitness.authentication) scripts = Some (tried, waits, last) ∧
    Forall (λ cursor, (cc_remoteIndex cursor < 2)%nat) tried ∧ Forall (λ w, Second ≤ w ∧ w * 2 < 2 ^ 63) waits.
Proof.
  cbv zeta. eexists _, _, _. split; [vm_compute; reflexivity |].
  eapply (supervisor_bounded ModeTLS 2 false SupervisorWitness.authentication
    [SupervisorWitness.round (AuthFailedTemporaryError 4294967295 AuthFailedAdvanceNextRemote EmptyString);
     SupervisorWitness.round (serverRestartError clientRemoteAdvanceStay)]); [lia | | vm_compute; reflexivity].
  apply Forall_cons. split; [split; [| done] | apply Forall_singleton; split; [| done]]; intros b advance reason; [| done].
  intros [= <- <- <-]. lia.
Defined.

Import SupervisorWitness.

Lemma shuffle_unbiased_witness :
  let remotes := SupervisorWitness.remote <$> ["a"; "b"; "c"] in
  let order := SupervisorWitness.remote <$> ["c"; "a"; "b"] in
  ∃ r, choices (length remotes - 1) r ∧ secureShuffleClientRemotes (λ b, Ok (r b)) remotes = Ok order ∧
    ∀ r', choices (length remotes - 1) r' → secureShuffleClientRemotes (λ b, Ok (r' b)) remotes = Ok order →
      ∀ b, (2 ≤ b ≤ length remotes)%nat → r' b = r b.
Proof.
  cbv zeta. apply (proj2 (shuffle_unbiased (SupervisorWitness.remote <$> ["a"; "b"; "c"]))).
  - apply (bool_decide_unpack _). vm_compute. done.
  - cbn. etransitivity; [apply Permutation_swap | apply perm_skip, Permutation_swap].
Defined.

Lemma wait_ready_woken_witness :
  ∃ l ready1 l' ready', doLifecycles (newLifecycle, λ _, false) [LStart (Ok ()); LSetCurrent false 7] = Some (l, ready1) ∧
    doLifecycles (l, ready1) [LReady 7 true; LSignal] = Some (l', ready') ∧
    (lc_dataReadDone l ∈ lc_closedChannels l ↔ lc_dataReadStopped l = true) ∧
    ∀ channel outcome, WaitReady l ready1 = inr channel → WaitReady l' ready' = inl outcome →
      (LClose ∈ [LReady 7 true; LSignal] → LSupervisorExit ∈ [LReady 7 true; LSignal]) →
      (∀ session b, LReady session b ∈ [LReady 7 true; LSignal] → LSignal ∈ [LReady 7 true; LSignal]) → channel ∈ lc_closedChannels l'.
Proof. apply (wait_ready_woken [LStart (Ok ()); LSetCurrent false 7] [LReady 7 true; LSignal]). Defined.

Lemma close_before_start_strands_waiters_witness :
  WaitReady newLifecycle (λ _, false) = inr 1%nat ∧
  ∃ l, doLifecycles (newLifecycle, λ _, false) [LClose; LStart (Ok ()); LSuspend; LResume; LClose] = Some (l, λ _, false) ∧
    WaitReady l (λ _, false) = inl (Some (Plain ErrClientClosed)) ∧ 1%nat ∉ lc_closedChannels l ∧ lc_started l = false.
Proof. apply (close_before_start_strands_waiters (λ _, false) [LStart (Ok ()); LSuspend; LResume; LClose]). repeat constructor. Defined.
