(* ===== verification/KeyState.v ===== *)
(** * Keys and renegotiations of a TLS session ([renegotiation.go], the keys of
      [peer_data.go], and [control_stream.go])

    A session sends with one key and receives with the last few.  A renegotiation
    is an object that its goroutine and the session's map of key ids share: here it
    lives in a heap, under its sequence number, which is also the identity of its
    control channel and of its session manager (the initial ones are 0).  The
    methods hold their locks throughout and are transitions; the clock is an
    argument.  The type of the codecs is a parameter. *)

From S2P Require Import Prelude GoStrings Packet Session.

Inductive tlsRole := tlsRoleClient | tlsRoleServer.

#[export] Instance tlsRole_eq_dec : EqDecision tlsRole.
Proof. solve_decision. Defined.

Inductive tlsRenegotiationStatus :=
| tlsRenegotiationNegotiating
| tlsRenegotiationAwaitingData
| tlsRenegotiationActive
| tlsRenegotiationLameDuck
| tlsRenegotiationFailed.

#[export] Instance tlsRenegotiationStatus_eq_dec : EqDecision tlsRenegotiationStatus.
Proof. solve_decision. Defined.

Definition net_ErrClosed : goerr := ErrNew "use of closed network connection".
Definition ErrDataChannelNotReady : goerr := ErrNew "data channel is not ready".

(** [rn_result] is set when the channel [done] is closed. *)
Record tlsRenegotiationState := mkReneg {
  rn_keyID : Z;
  rn_initiator : bool;
  rn_mustNegotiate : Time;
  rn_status : tlsRenegotiationStatus;
  rn_expiresAt : Time;
  rn_peerDataConfirmed : bool;
  rn_result : option (option goerr);
}.

#[export] Instance eta_tlsRenegotiationState : Eta tlsRenegotiationState := λ r,
  mkReneg (rn_keyID r) (rn_initiator r) (rn_mustNegotiate r) (rn_status r) (rn_expiresAt r) (rn_peerDataConfirmed r) (rn_result r).

(** ** The primary control stream *)

(** [cs_changed] is whether somebody waits for the channel [changed]; [cs_channel] is
    the sequence of the control channel. *)
Record tlsPrimaryControlStream := mkStream {
  cs_channel : Z;
  cs_sequence : Z;
  cs_handover : Z;
  cs_installed : bool;
  cs_changed : bool;
}.

#[export] Instance eta_tlsPrimaryControlStream : Eta tlsPrimaryControlStream := λ s,
  mkStream (cs_channel s) (cs_sequence s) (cs_handover s) (cs_installed s) (cs_changed s).

Definition signalLocked (s : tlsPrimaryControlStream) : tlsPrimaryControlStream := if cs_changed s then s <| cs_changed := false |> else s.

Definition install (s : tlsPrimaryControlStream) (channel sequence : Z) : tlsPrimaryControlStream :=
  if cs_installed s && (sequence <? cs_sequence s) then s else
  let s := s <| cs_channel := channel |> <| cs_sequence := sequence |> <| cs_installed := true |> in
  signalLocked (if cs_handover s <=? sequence then s <| cs_handover := 0 |> else s).

Definition beginHandover (s : tlsPrimaryControlStream) (sequence : Z) : tlsPrimaryControlStream :=
  if (sequence <=? cs_sequence s) || (sequence <=? cs_handover s) then s else signalLocked (s <| cs_handover := sequence |>).

Definition abortHandover (s : tlsPrimaryControlStream) (sequence : Z) : tlsPrimaryControlStream :=
  if negb (cs_handover s =? sequence) then s else signalLocked (s <| cs_handover := 0 |>).

(** The channel and its sequence, unless a handover is under way; the caller may
    wait for a change. *)
Definition snapshot (s : tlsPrimaryControlStream) : option (Z * Z) * tlsPrimaryControlStream :=
  (if negb (cs_handover s =? 0) || negb (cs_installed s) then None else Some (cs_channel s, cs_sequence s), s <| cs_changed := true |>).

Definition isCurrent (s : tlsPrimaryControlStream) (sequence : Z) : bool :=
  (cs_handover s =? 0) && cs_installed s && (cs_sequence s =? sequence).

(** ** Data keys *)

Section Keys.
Context {C : Type}.

Record tlsReceiveCodec := mkReceive {
  rc_keyID : Z;
  rc_codec : C;
  rc_expiry : Time;
  rc_sequence : Z;
}.

(** The parts of [tlsPeerSession] that hold keys.  [ps_heap] has the renegotiation
    states, [ps_renegotiations] the map of key ids, and [ps_channels] the control
    channel's map of key ids. *)
Record tlsPeerSession := mkPeer {
  ps_role : tlsRole;
  ps_handshakeWindow : Z;
  ps_sendCodec : option C;
  ps_sendKeyID : Z;
  ps_sendManager : Z;
  ps_receiveCodecs : list tlsReceiveCodec;
  ps_heap : gmap Z tlsRenegotiationState;
  ps_renegotiations : gmap Z Z;
  ps_channels : gmap Z Z;
  ps_renegotiationsClosed : bool;
  ps_renegotiationSequence : Z;
  ps_promotedKeyStateSequence : Z;
  ps_controlStream : tlsPrimaryControlStream;
}.

#[export] Instance eta_tlsPeerSession : Eta tlsPeerSession := λ s,
  mkPeer (ps_role s) (ps_handshakeWindow s) (ps_sendCodec s) (ps_sendKeyID s) (ps_sendManager s) (ps_receiveCodecs s) (ps_heap s)
  (ps_renegotiations s) (ps_channels s) (ps_renegotiationsClosed s) (ps_renegotiationSequence s) (ps_promotedKeyStateSequence s)
  (ps_controlStream s).

Definition tlsTransitionWindow : Z := 3600 * Second.
Definition tlsKeyScanSize : nat := 3.

(** A session before its first key, with its first control channel. *)
Definition newPeerSession (role : tlsRole) (handshakeWindow : Z) : tlsPeerSession :=
  mkPeer role handshakeWindow None 0 0 [] ∅ ∅ ∅ false 0 0 (install (mkStream 0 0 0 false false) 0 0).

Definition installInitialDataCodec (s : tlsPeerSession) (codec : C) (keyID : Z) : tlsPeerSession :=
  s <| ps_sendCodec := Some codec |> <| ps_sendKeyID := keyID |> <| ps_sendManager := 0 |>
    <| ps_receiveCodecs := [mkReceive keyID codec 0 0] |>.

Definition expired (now expiry : Time) : bool := negb (IsZero expiry) && negb (now <? expiry).

Definition withExpiry (e : tlsReceiveCodec) (expiry : Time) : tlsReceiveCodec := mkReceive (rc_keyID e) (rc_codec e) expiry (rc_sequence e).

(** The entries that are kept beside a new one. *)
Definition retainEntries (s : tlsPeerSession) (keyID : Z) (promote : bool) (now : Time) : list tlsReceiveCodec :=
  omap (λ entry,
    if rc_keyID entry =? keyID then None else
    let entry := if promote && (rc_keyID entry =? ps_sendKeyID s) then withExpiry entry (now + tlsTransitionWindow) else entry in
    if expired now (rc_expiry entry) then None else Some entry) (ps_receiveCodecs s).

Definition installDataKeyState (s : tlsPeerSession) (codec : C) (keyID manager sequence : Z) (promote : bool) (now : Time) : tlsPeerSession :=
  let newEntry := mkReceive keyID codec (if promote then 0 else now + tlsTransitionWindow) sequence in
  let retained := sort_by rc_sequence (retainEntries s keyID promote now ++ [newEntry]) in
  let retained := drop (length retained - tlsKeyScanSize) retained in
  let s := s <| ps_receiveCodecs := retained |> in
  if promote then s <| ps_sendCodec := Some codec |> <| ps_sendKeyID := keyID |> <| ps_sendManager := manager |> else s.

Definition discardDataKeyState (s : tlsPeerSession) (keyID sequence : Z) : tlsPeerSession :=
  s <| ps_receiveCodecs := filter (λ e, ¬ (rc_keyID e = keyID ∧ rc_sequence e = sequence)) (ps_receiveCodecs s) |>.

Definition receiveDataCodec (s : tlsPeerSession) (keyID sequence : Z) : option C :=
  rc_codec <$> (snd <$> list_find (λ e, rc_keyID e = keyID ∧ rc_sequence e = sequence) (ps_receiveCodecs s)).

(** The last entry with the key id is selected. *)
Definition selectReceiveCodec (s : tlsPeerSession) (keyID : Z) (now : Time) : option C * tlsPeerSession :=
  let retained := filter (λ e, expired now (rc_expiry e) = false) (ps_receiveCodecs s) in
  (foldl (λ selected e, if rc_keyID e =? keyID then Some (rc_codec e) else selected) None retained, s <| ps_receiveCodecs := retained |>).

Definition currentSendCodec (s : tlsPeerSession) : option C * Z := (ps_sendCodec s, ps_sendKeyID s).

(** ** Renegotiations *)

Definition unregisterRenegotiationChannel (s : tlsPeerSession) (keyID channel : Z) : tlsPeerSession :=
  if decide (ps_channels s !! keyID = Some channel) then s <| ps_channels := delete keyID (ps_channels s) |> else s.

(** Whether the channel was registered. *)
Definition registerRenegotiationChannel (s : tlsPeerSession) (keyID channel : Z) : bool * tlsPeerSession :=
  if (keyID =? 0) || (KeyIDMaxValue <? keyID) then (false, s) else
  match ps_channels s !! keyID with
  | Some _ => (false, s)
  | None => (true, s <| ps_channels := <[keyID := channel]> (ps_channels s) |>)
  end.

Definition removeRenegotiationLocked (s : tlsPeerSession) (sequence : Z) (state : tlsRenegotiationState) : tlsPeerSession :=
  if decide (ps_renegotiations s !! rn_keyID state = Some sequence) then
    let s := s <| ps_renegotiations := delete (rn_keyID state) (ps_renegotiations s) |> in
    discardDataKeyState (unregisterRenegotiationChannel s (rn_keyID state) sequence) (rn_keyID state) sequence
  else s.

Definition setState (s : tlsPeerSession) (sequence : Z) (state : tlsRenegotiationState) : tlsPeerSession :=
  s <| ps_heap := <[sequence := state]> (ps_heap s) |>.

Definition setStream (s : tlsPeerSession) (stream : tlsPrimaryControlStream) : tlsPeerSession := s <| ps_controlStream := stream |>.

(** The states in the map, with their sequences. *)
Definition currentStates (s : tlsPeerSession) : list (Z * tlsRenegotiationState) :=
  omap (λ '(_, sequence), (λ state, (sequence, state)) <$> ps_heap s !! sequence) (map_to_list (ps_renegotiations s)).

Definition retiring (state : tlsRenegotiationState) : bool :=
  bool_decide (rn_status state = tlsRenegotiationLameDuck ∨ rn_status state = tlsRenegotiationAwaitingData).

Definition pending (state : tlsRenegotiationState) : bool :=
  bool_decide (rn_status state = tlsRenegotiationNegotiating ∨ rn_status state = tlsRenegotiationAwaitingData).

(** The second half of [beginSoftReset]. *)
Definition newRenegotiation (s : tlsPeerSession) (keyID : Z) (initiator : bool) (now : Time) : result (Z * bool) * tlsPeerSession :=
  let sequence := ps_renegotiationSequence s + 1 in
  let s := s <| ps_renegotiationSequence := sequence |> in
  let state := mkReneg keyID initiator (now + ps_handshakeWindow s) tlsRenegotiationNegotiating 0 false None in
  let '(registered, s) := registerRenegotiationChannel s keyID sequence in
  if negb registered then (Err (ErrNew "tls mode: duplicate soft-reset key-id"), s) else
  let s := setState s sequence state in
  let s := s <| ps_renegotiations := <[keyID := sequence]> (ps_renegotiations s) |> in
  (Ok (sequence, true), setStream s (beginHandover (ps_controlStream s) sequence)).

(** The sequence of a renegotiation, and whether it is new. *)
Definition beginSoftReset (s : tlsPeerSession) (keyID : Z) (initiator : bool) (now : Time) : result (Z * bool) * tlsPeerSession :=
  if (keyID =? 0) || (KeyIDMaxValue <? keyID) then (Err (ErrNew "tls mode: invalid soft-reset key-id"), s) else
  if ps_renegotiationsClosed s then (Err net_ErrClosed, s) else
  match (sequence ← ps_renegotiations s !! keyID; (λ state, (sequence, state)) <$> ps_heap s !! sequence) with
  | Some (sequence, state) =>
      if pending state || (ps_sendKeyID s =? keyID) then (Ok (sequence, false), s)
      else newRenegotiation (removeRenegotiationLocked s sequence state) keyID initiator now
  | None => newRenegotiation s keyID initiator now
  end.

(** The newest of the renegotiations under way. *)
Definition newestPending (states : list (Z * tlsRenegotiationState)) : option Z :=
  foldl (λ newest '(sequence, state),
    if pending state && match newest with None => true | Some n => n <? sequence end then Some sequence else newest) None states.

Definition beginLocalSoftReset (s : tlsPeerSession) (now : Time) : result (Z * bool) * tlsPeerSession :=
  match newestPending (currentStates s) with
  | Some newest => (Ok (newest, false), s)
  | None => beginSoftReset s (NextKeyID (ps_sendKeyID s)) true now
  end.

(** What a local trigger does first: [inl] is the sequence it waits for. *)
Definition triggerSoftReset (s : tlsPeerSession) (now : Time) : result (Z * bool) * tlsPeerSession :=
  match ps_sendCodec s with
  | None => (Err ErrDataChannelNotReady, s)
  | Some _ => beginLocalSoftReset s now
  end.

(** A soft reset of the peer: the sequence of the channel that takes the packet. *)
Definition handleIncomingSoftResetPacket (s : tlsPeerSession) (keyID : Z) (now : Time) : option (Z * bool) * tlsPeerSession :=
  if (keyID =? 0) || (KeyIDMaxValue <? keyID) then (None, s) else
  match beginSoftReset s keyID false now with
  | (Ok r, s) => (Some r, s)
  | (Err _, s) => (None, s)
  end.

(** Soft resets count only once there are keys. *)
Definition handleIncomingSoftReset (s : tlsPeerSession) (keyID : Z) (now : Time) : option (Z * bool) * tlsPeerSession :=
  match ps_sendCodec s with
  | None => (None, s)
  | Some _ => handleIncomingSoftResetPacket s keyID now
  end.

Definition makeLameDuckLocked (now : Time) (state : tlsRenegotiationState) : tlsRenegotiationState :=
  state <| rn_status := tlsRenegotiationLameDuck |> <| rn_expiresAt := now + tlsTransitionWindow |>.

(** The loop over the map: the other active states retire. *)
Definition retireActive (s : tlsPeerSession) (sequence : Z) (now : Time) : tlsPeerSession :=
  s <| ps_heap := map_imap (λ other state,
    Some (if decide (ps_renegotiations s !! rn_keyID state = Some other ∧ other ≠ sequence ∧ rn_status state = tlsRenegotiationActive)
          then makeLameDuckLocked now state else state)) (ps_heap s) |>.

(** Whether the key became the one that is sent with. *)
Definition promoteKeyStateLocked (s : tlsPeerSession) (sequence : Z) (state : tlsRenegotiationState) (codec : C) (now : Time) : bool * tlsPeerSession :=
  if sequence <=? ps_promotedKeyStateSequence s then
    let s := setState s sequence (makeLameDuckLocked now state) in
    let s := installDataKeyState s codec (rn_keyID state) sequence sequence false now in
    (false, setStream s (abortHandover (ps_controlStream s) sequence))
  else
    let s := retireActive s sequence now in
    let s := s <| ps_promotedKeyStateSequence := sequence |> in
    let s := setState s sequence (state <| rn_status := tlsRenegotiationActive |>) in
    let s := installDataKeyState s codec (rn_keyID state) sequence sequence true now in
    (true, setStream s (install (ps_controlStream s) sequence sequence)).

(** The channels that are closed. *)
Definition pruneRenegotiationsLocked (s : tlsPeerSession) (now : Time) : list Z * tlsPeerSession :=
  let states := currentStates s in
  let gone := filter (λ '(_, state), retiring state = true ∧ ¬ now < rn_expiresAt state) states in
  let completed := filter (λ '(_, state), (rn_status state = tlsRenegotiationActive ∨ retiring state = true) ∧
                                            ¬ (retiring state = true ∧ ¬ now < rn_expiresAt state)) states in
  let completed := sort_by fst completed in
  let surplus := take (length completed - tlsKeyScanSize) completed in
  (fst <$> (gone ++ surplus), foldl (λ s '(sequence, state), removeRenegotiationLocked s sequence state) s (gone ++ surplus)).

(** The end of a renegotiation with a codec or an error; the channels to close and
    whether the program is told of a new key. *)
Definition finishSoftReset (s : tlsPeerSession) (sequence : Z) (outcome : result C) (now : Time) : list Z * bool * tlsPeerSession :=
  match ps_heap s !! sequence with
  | None => ([], false, s)
  | Some state =>
      match rn_result state with
      | Some _ => ([], false, s)
      | None =>
          let current := bool_decide (ps_renegotiations s !! rn_keyID state = Some sequence) in
          match outcome with
          | Ok codec =>
              if current then
                let '(promoted, s) := promoteKeyStateLocked s sequence state codec now in
                let s := match ps_heap s !! sequence with Some state => setState s sequence (state <| rn_result := Some None |>) | None => s end in
                let '(channels, s) := pruneRenegotiationsLocked s now in
                (channels, promoted, s)
              else
                let s := discardDataKeyState s (rn_keyID state) sequence in
                let s := setStream s (abortHandover (ps_controlStream s) sequence) in
                ([sequence], false, setState s sequence (state <| rn_status := tlsRenegotiationFailed |> <| rn_result := Some (Some net_ErrClosed) |>))
          | Err err =>
              let s := discardDataKeyState s (rn_keyID state) sequence in
              let s := setStream s (abortHandover (ps_controlStream s) sequence) in
              let s := if current then removeRenegotiationLocked s sequence state else s in
              ([sequence], false, setState s sequence (state <| rn_status := tlsRenegotiationFailed |> <| rn_result := Some (Some err) |>))
          end
      end
  end.

(** A data packet of the peer was decrypted with a key. *)
Definition confirmDataKey (s : tlsPeerSession) (keyID : Z) (now : Time) : list Z * bool * tlsPeerSession :=
  if negb (bool_decide (ps_role s = tlsRoleServer)) then ([], false, s) else
  match ps_renegotiations s !! keyID with
  | None => ([], false, s)
  | Some sequence =>
      match ps_heap s !! sequence with
      | None => ([], false, s)
      | Some state =>
          match rn_status state with
          | tlsRenegotiationNegotiating => ([], false, setState s sequence (state <| rn_peerDataConfirmed := true |>))
          | tlsRenegotiationAwaitingData =>
              let state := state <| rn_peerDataConfirmed := true |> in
              let s := setState s sequence state in
              match receiveDataCodec s keyID sequence with
              | None => ([], false, s)
              | Some codec =>
                  let '(promoted, s) := promoteKeyStateLocked s sequence state codec now in
                  let '(channels, s) := pruneRenegotiationsLocked s now in
                  (channels, promoted, s)
              end
          | _ => ([], false, s)
          end
      end
  end.

(** The timer of a retiring state. *)
Definition expireKeyState (s : tlsPeerSession) (sequence : Z) (now : Time) : list Z * tlsPeerSession :=
  match ps_heap s !! sequence with
  | None => ([], s)
  | Some state =>
      if decide (ps_renegotiations s !! rn_keyID state = Some sequence) then
        if negb (retiring state) || (now <? rn_expiresAt state) then ([], s) else ([sequence], removeRenegotiationLocked s sequence state)
      else ([], s)
  end.

(** One state of [failAllRenegotiations]. *)
Definition failRenegotiation (err : goerr) (s : tlsPeerSession) (entry : Z * tlsRenegotiationState) : tlsPeerSession :=
  let '(sequence, state) := entry in
  let s := removeRenegotiationLocked s sequence state in
  let s := setStream s (abortHandover (ps_controlStream s) sequence) in
  match rn_result state with
  | Some _ => s
  | None => setState s sequence (state <| rn_status := tlsRenegotiationFailed |> <| rn_result := Some (Some err) |>)
  end.

Definition failAllRenegotiations (s : tlsPeerSession) (err : goerr) : list Z * tlsPeerSession :=
  let s := s <| ps_renegotiationsClosed := true |> in
  let states := currentStates s in
  (fst <$> states, foldl (failRenegotiation err) s states).

Definition stageNegotiatedReceiveKey (s : tlsPeerSession) (keyID : Z) (codec : C) (now : Time) : bool * tlsPeerSession :=
  match ps_renegotiations s !! keyID with
  | None => (false, s)
  | Some sequence =>
      match ps_heap s !! sequence with
      | None => (false, s)
      | Some state =>
          if decide (rn_status state = tlsRenegotiationNegotiating)
          then (true, installDataKeyState s codec keyID sequence sequence false now) else (false, s)
      end
  end.

(** ** Sequences of operations *)

Inductive keyOp :=
| KTrigger (now : Time)
| KSoftReset (keyID : Z) (now : Time)
| KStage (keyID : Z) (codec : C) (now : Time)
| KFinish (sequence : Z) (outcome : result C) (now : Time)
| KConfirm (keyID : Z) (now : Time)
| KExpire (sequence : Z) (now : Time)
| KSelect (keyID : Z) (now : Time)
| KFail (err : goerr).

Definition doKeyOp (s : tlsPeerSession) (op : keyOp) : tlsPeerSession :=
  match op with
  | KTrigger now => (triggerSoftReset s now).2
  | KSoftReset keyID now => (handleIncomingSoftReset s keyID now).2
  | KStage keyID codec now => (stageNegotiatedReceiveKey s keyID codec now).2
  | KFinish sequence outcome now => (finishSoftReset s sequence outcome now).2
  | KConfirm keyID now => (confirmDataKey s keyID now).2
  | KExpire sequence now => (expireKeyState s sequence now).2
  | KSelect keyID now => (selectReceiveCodec s keyID now).2
  | KFail err => (failAllRenegotiations s err).2
  end.

Definition doKeyOps (s : tlsPeerSession) (ops : list keyOp) : tlsPeerSession := foldl doKeyOp s ops.

(** A session whose first key, 0, is in place. *)
Definition startedSession (role : tlsRole) (handshakeWindow : Z) (codec : C) : tlsPeerSession :=
  installInitialDataCodec (newPeerSession role handshakeWindow) codec 0.

(** ** The invariant *)

Record receiveOk (l : list tlsReceiveCodec) : Prop := {
  ro_few : (length l ≤ tlsKeyScanSize)%nat;
  ro_distinct : NoDup (rc_keyID <$> l);
  ro_sorted : sorted_by rc_sequence l;
}.

Record keysOk (s : tlsPeerSession) : Prop := {
  k_receive : receiveOk (ps_receiveCodecs s);
  k_map : ∀ k q, ps_renegotiations s !! k = Some q → ∃ st, ps_heap s !! q = Some st ∧ rn_keyID st = k;
  k_channels : ps_channels s = ps_renegotiations s;
  k_heap : ∀ q st, ps_heap s !! q = Some st → 1 ≤ q ≤ ps_renegotiationSequence s ∧ 1 ≤ rn_keyID st ≤ 7;
  k_promoted : 0 ≤ ps_promotedKeyStateSequence s ≤ ps_renegotiationSequence s ∧ ps_sendManager s = ps_promotedKeyStateSequence s;
  k_sendKey : 0 ≤ ps_sendKeyID s ≤ 7;
  k_active : ∀ q st, ps_heap s !! q = Some st → rn_status st = tlsRenegotiationActive → ps_renegotiations s !! rn_keyID st = Some q →
    q = ps_promotedKeyStateSequence s;
  k_lame : ∀ q st, ps_heap s !! q = Some st → rn_status st = tlsRenegotiationLameDuck → q < ps_promotedKeyStateSequence s;
  k_ahead : ∀ q st, ps_heap s !! q = Some st → rn_result st = None → q ≠ ps_promotedKeyStateSequence s;
  k_pending : ∀ q st, ps_heap s !! q = Some st → rn_result st = None →
    rn_status st = tlsRenegotiationNegotiating ∧ ps_renegotiations s !! rn_keyID st = Some q;
  k_done : ∀ q st, ps_heap s !! q = Some st → pending st = true → rn_status st = tlsRenegotiationNegotiating ∧ rn_result st = None;
  k_stream : cs_installed (ps_controlStream s) = true ∧ cs_sequence (ps_controlStream s) = ps_promotedKeyStateSequence s ∧
    cs_channel (ps_controlStream s) = ps_promotedKeyStateSequence s;
  k_handover : cs_handover (ps_controlStream s) = 0 ∨
    ps_promotedKeyStateSequence s < cs_handover (ps_controlStream s) ∧
    ∃ st, ps_heap s !! cs_handover (ps_controlStream s) = Some st ∧ rn_result st = None;
}.

Lemma startedSession_ok role window codec : keysOk (startedSession role window codec).
Proof.
  split; cbn; try done; try lia.
  - split; [unfold tlsKeyScanSize; cbn; lia | apply NoDup_singleton | repeat constructor].
Qed.

(** Deleting receive codecs keeps the invariant. *)
Lemma receiveOk_filter (P : tlsReceiveCodec → Prop) `{∀ x, Decision (P x)} l : receiveOk l → receiveOk (filter P l).
Proof.
  intros [H1 H2 H3]. split.
  - etransitivity; [apply length_filter | done].
  - clear -H2. induction l as [| x l IH]; [constructor |]. cbn in H2. apply NoDup_cons in H2 as [Hx Hl]. rewrite filter_cons.
    destruct (decide (P x)); [| by apply IH]. cbn. apply NoDup_cons. split; [| by apply IH].
    intros (y & Hy & Hin)%list_elem_of_fmap. apply list_elem_of_filter in Hin as [_ Hin]. apply Hx. rewrite Hy. by apply list_elem_of_fmap_2.
  - unfold sorted_by in *. clear -H3. induction l as [| x l IH]; [constructor |]. cbn in H3. apply StronglySorted_inv in H3 as [Hl Hx]. rewrite filter_cons.
    destruct (decide (P x)); [| by apply IH]. cbn. constructor; [by apply IH |].
    rewrite Forall_fmap in Hx |- *. rewrite Forall_forall in Hx |- *. intros y [_ Hy]%list_elem_of_filter. by apply Hx.
Qed.

Lemma retainEntries_distinct s keyID promote now : NoDup (rc_keyID <$> ps_receiveCodecs s) →
  NoDup (rc_keyID <$> retainEntries s keyID promote now) ∧ keyID ∉ rc_keyID <$> retainEntries s keyID promote now.
Proof.
  unfold retainEntries. generalize (ps_receiveCodecs s) as l. induction l as [| x l IH]; intros Hl; [split; [constructor | by intros []%not_elem_of_nil] |].
  cbn in Hl. apply NoDup_cons in Hl as [Hx Hl]. destruct (IH Hl) as [H1 H2]. cbn [omap list_omap].
  destruct (Z.eqb_spec (rc_keyID x) keyID) as [| Hne]; [done |].
  set (y := if promote && _ then _ else _). assert (Hy : rc_keyID y = rc_keyID x) by (subst y; by destruct (_ && _)).
  destruct (expired now (rc_expiry y)); [done |]. cbn. rewrite Hy. split; [| by apply not_elem_of_cons].
  apply NoDup_cons. split; [| done]. intros (e & He & Hin)%list_elem_of_fmap. apply Hx. apply list_elem_of_omap in Hin as (z & Hz & Hf).
  apply list_elem_of_fmap. exists z. split; [| done]. rewrite He. revert Hf.
  destruct (Z.eqb_spec (rc_keyID z) keyID); [done |]. set (w := if promote && _ then _ else _).
  assert (Hw : rc_keyID w = rc_keyID z) by (unfold w; by destruct (promote && (rc_keyID z =? ps_sendKeyID s))). destruct (expired now (rc_expiry w)); [done |]. intros [= <-]. congruence.
Qed.

Lemma sorted_by_drop (l : list tlsReceiveCodec) n : sorted_by rc_sequence l → sorted_by rc_sequence (drop n l).
Proof.
  unfold sorted_by. revert n. induction l as [| x l IH]; intros [| n] Hl; try done. cbn in *. apply StronglySorted_inv in Hl as [Hl _]. by apply IH.
Qed.

Lemma installDataKeyState_receive s codec keyID manager sequence promote now :
  receiveOk (ps_receiveCodecs s) → receiveOk (ps_receiveCodecs (installDataKeyState s codec keyID manager sequence promote now)).
Proof.
  intros [_ Hd _]. unfold installDataKeyState. destruct (retainEntries_distinct s keyID promote now Hd) as [H1 H2].
  set (entries := sort_by rc_sequence _). assert (Hp : entries ≡ₚ retainEntries s keyID promote now ++ [mkReceive keyID codec (if promote then 0 else now + tlsTransitionWindow) sequence])
    by apply sort_by_perm.
  assert (receiveOk (drop (length entries - tlsKeyScanSize) entries)) as Hok; [| by destruct promote].
  split.
  - rewrite length_drop. unfold tlsKeyScanSize. lia.
  - assert (Hn : NoDup (rc_keyID <$> entries)).
    { rewrite Hp, fmap_app. apply NoDup_app. split_and!; [done | | apply NoDup_singleton]. by intros x Hx ->%list_elem_of_singleton. }
    rewrite fmap_drop. rewrite <- (take_drop (length entries - tlsKeyScanSize) (rc_keyID <$> entries)) in Hn. by apply NoDup_app in Hn as (_ & _ & ?).
  - apply sorted_by_drop, sort_by_sorted.
Qed.


Lemma keysOk_receive s l : keysOk s → receiveOk l → keysOk (s <| ps_receiveCodecs := l |>).
Proof. intros [] Hl. by split. Qed.

Lemma removeRenegotiationLocked_ok s q st :
  keysOk s → ps_heap s !! q = Some st → rn_result st ≠ None → keysOk (removeRenegotiationLocked s q st).
Proof.
  intros Hs Hq Hr. unfold removeRenegotiationLocked. destruct (decide _) as [Hm |]; [| done].
  unfold unregisterRenegotiationChannel. cbn. rewrite (k_channels s Hs), decide_True by done. unfold discardDataKeyState. cbn.
  destruct Hs. split; cbn; try done.
  - by apply receiveOk_filter.
  - intros k q' [Hne Hk]%lookup_delete_Some. by apply k_map0.
  - intros q' st' Hq' Ha [_ Hk]%lookup_delete_Some. by eapply k_active0.
  - intros q' st' Hq' Hn. destruct (k_pending0 q' st' Hq' Hn) as [H1 H2]. split; [done |].
    rewrite lookup_delete_ne; [done |]. intros E. rewrite E in Hm. assert (q' = q) as -> by congruence. congruence.
Qed.

Lemma removeRenegotiationLocked_frame s q st :
  let s' := removeRenegotiationLocked s q st in
  ps_heap s' = ps_heap s ∧ ps_controlStream s' = ps_controlStream s ∧ ps_promotedKeyStateSequence s' = ps_promotedKeyStateSequence s ∧
  ps_sendCodec s' = ps_sendCodec s ∧ ps_sendKeyID s' = ps_sendKeyID s ∧ ps_renegotiationsClosed s' = ps_renegotiationsClosed s ∧
  ps_renegotiationSequence s' = ps_renegotiationSequence s ∧ ps_renegotiations s' ⊆ ps_renegotiations s.
Proof.
  unfold removeRenegotiationLocked, unregisterRenegotiationChannel, discardDataKeyState. destruct (decide _); [| done].
  destruct (decide _); cbn; split_and!; try done; apply delete_subseteq.
Qed.

(** Removing several states that are done. *)
Lemma removeMany_ok s l :
  keysOk s → Forall (λ '(q, st), ps_heap s !! q = Some st ∧ rn_result st ≠ None) l →
  let s' := foldl (λ s '(q, st), removeRenegotiationLocked s q st) s l in
  keysOk s' ∧ ps_heap s' = ps_heap s ∧ ps_controlStream s' = ps_controlStream s ∧
  ps_promotedKeyStateSequence s' = ps_promotedKeyStateSequence s ∧ ps_sendCodec s' = ps_sendCodec s ∧ ps_sendKeyID s' = ps_sendKeyID s.
Proof.
  cbv zeta. revert s. induction l as [| [q st] l IH]; intros s Hs Hl; [done |]. apply Forall_cons in Hl as [[Hq Hr] Hl]. cbn [foldl].
  destruct (removeRenegotiationLocked_frame s q st) as (F1 & F2 & F3 & F4 & F5 & _).
  destruct (IH (removeRenegotiationLocked s q st)) as (I1 & I2 & I3 & I4 & I5 & I6); [by apply removeRenegotiationLocked_ok | by rewrite F1 |].
  rewrite I2, I3, I4, I5, I6, F1, F2, F3, F4, F5. done.
Qed.

Lemma currentStates_elem s q st : (q, st) ∈ currentStates s → ps_heap s !! q = Some st ∧ ∃ k, ps_renegotiations s !! k = Some q.
Proof.
  unfold currentStates. intros ([k q'] & Hin & Hf)%list_elem_of_omap. apply elem_of_map_to_list in Hin.
  destruct (ps_heap s !! q') eqn:E; [| done]. cbn in Hf. injection Hf as <- <-. split; [done | by exists k].
Qed.

Lemma done_of_status s q st : keysOk s → ps_heap s !! q = Some st → rn_status st ≠ tlsRenegotiationNegotiating → rn_result st ≠ None.
Proof. intros Hs Hq Hst Hn. by destruct (k_pending s Hs q st Hq Hn). Qed.

Lemma pruneRenegotiationsLocked_ok s now :
  keysOk s → let s' := (pruneRenegotiationsLocked s now).2 in
  keysOk s' ∧ ps_heap s' = ps_heap s ∧ ps_controlStream s' = ps_controlStream s ∧
  ps_promotedKeyStateSequence s' = ps_promotedKeyStateSequence s ∧ ps_sendCodec s' = ps_sendCodec s ∧ ps_sendKeyID s' = ps_sendKeyID s.
Proof.
  intros Hs. unfold pruneRenegotiationsLocked. cbn [snd]. apply removeMany_ok; [done |].
  assert (Hdone : ∀ q st, (q, st) ∈ currentStates s → (rn_status st = tlsRenegotiationActive ∨ retiring st = true) → ps_heap s !! q = Some st ∧ rn_result st ≠ None).
  { intros q st Hin Hst. apply currentStates_elem in Hin as [Hq _]. split; [done |]. apply (done_of_status s q st Hs Hq).
    destruct Hst as [-> | Hst]; [done |]. apply bool_decide_eq_true in Hst. destruct Hst as [-> | ->]; done. }
  apply Forall_app. split; apply Forall_forall.
  - intros [q st] [[Hr _] Hin]%list_elem_of_filter. apply Hdone; [done | by right].
  - intros [q st] Hin. apply elem_of_take in Hin as (i & Hi & _). apply list_elem_of_lookup_2 in Hi. rewrite sort_by_perm in Hi.
    apply list_elem_of_filter in Hi as [[Hst _] Hin]. by apply Hdone.
Qed.

Lemma signalLocked_frame s :
  let s' := signalLocked s in
  cs_handover s' = cs_handover s ∧ cs_sequence s' = cs_sequence s ∧ cs_channel s' = cs_channel s ∧ cs_installed s' = cs_installed s.
Proof. unfold signalLocked. by destruct (cs_changed s). Qed.

Lemma beginHandover_new s q : cs_sequence s < q → cs_handover s < q → cs_handover (beginHandover s q) = q.
Proof.
  intros H1 H2. unfold beginHandover. rewrite (proj2 (Z.leb_gt _ _)), (proj2 (Z.leb_gt _ _)) by lia. cbn [orb].
  by destruct (signalLocked_frame (s <| cs_handover := q |>)) as (-> & _).
Qed.

(** A new renegotiation. *)
Lemma fresh_ok s keyID initiator now :
  keysOk s → 1 ≤ keyID ≤ 7 → ps_renegotiations s !! keyID = None →
  let q := ps_renegotiationSequence s + 1 in
  let st := mkReneg keyID initiator (now + ps_handshakeWindow s) tlsRenegotiationNegotiating 0 false None in
  keysOk (mkPeer (ps_role s) (ps_handshakeWindow s) (ps_sendCodec s) (ps_sendKeyID s) (ps_sendManager s) (ps_receiveCodecs s)
    (<[q := st]> (ps_heap s)) (<[keyID := q]> (ps_renegotiations s)) (<[keyID := q]> (ps_renegotiations s)) (ps_renegotiationsClosed s) q
    (ps_promotedKeyStateSequence s) (beginHandover (ps_controlStream s) q)).
Proof.
  intros Hs Hk Hfree q st. pose proof Hs as [].
  assert (Hnew : ps_heap s !! q = None) by (destruct (ps_heap s !! q) as [x |] eqn:E; [apply k_heap0 in E; lia | done]).
  assert (Hhand : cs_handover (ps_controlStream s) ≤ ps_renegotiationSequence s).
  { destruct k_handover0 as [E | (_ & x & E & _)]; [lia | apply k_heap0 in E; lia]. }
  split; cbn; try done.
  - intros k q' [[<- <-] | [Hne Hq']]%lookup_insert_Some; [exists st; by rewrite lookup_insert_eq |].
    destruct (k_map0 k q' Hq') as (x & Hx & E). exists x. rewrite lookup_insert_ne; [done |]. congruence.
  - intros q' st' [[<- <-] | [Hne Hq']]%lookup_insert_Some; [cbn; lia |]. apply k_heap0 in Hq'. lia.
  - lia.
  - intros q' st' [[<- <-] | [Hne Hq']]%lookup_insert_Some; [done |]. intros Ha [[_ <-] | [_ Hm]]%lookup_insert_Some; [congruence |]. by eapply k_active0.
  - intros q' st' [[<- <-] | [Hne Hq']]%lookup_insert_Some; [done |]. by apply k_lame0.
  - intros q' st' [[<- <-] | [Hne Hq']]%lookup_insert_Some; [lia |]. by apply (k_ahead0 q' st').
  - intros q' st' [[<- <-] | [Hne Hq']]%lookup_insert_Some; [by rewrite lookup_insert_eq |]. intros Hn. destruct (k_pending0 q' st' Hq' Hn) as [H1 H2].
    split; [done |]. rewrite lookup_insert_ne; [done |]. congruence.
  - intros q' st' [[<- <-] | [Hne Hq']]%lookup_insert_Some; [done |]. by apply (k_done0 q').
  - unfold beginHandover, signalLocked. destruct (_ || _); [done |]. cbn. by destruct (cs_changed _).
  - destruct k_stream0 as (_ & Eseq & _). rewrite beginHandover_new by lia. right. split; [lia |]. exists st. by rewrite lookup_insert_eq.
Qed.


Lemma newRenegotiation_ok s keyID initiator now :
  keysOk s → 1 ≤ keyID ≤ 7 → ps_renegotiations s !! keyID = None → keysOk (newRenegotiation s keyID initiator now).2.
Proof.
  intros Hs Hr Hfree. unfold newRenegotiation, registerRenegotiationChannel. rewrite (proj2 (Z.eqb_neq _ _)), (proj2 (Z.ltb_ge _ _)) by (unfold KeyIDMaxValue; lia).
  cbn. rewrite (k_channels s Hs), Hfree. cbn. by apply (fresh_ok s keyID initiator now).
Qed.

Lemma beginSoftReset_ok s keyID initiator now : keysOk s → 0 ≤ keyID → keysOk (beginSoftReset s keyID initiator now).2.
Proof.
  intros Hs Hpos. unfold beginSoftReset. destruct (_ || _) eqn:Hk; [done |]. apply orb_false_iff in Hk as [Hk1%Z.eqb_neq Hk2%Z.ltb_ge].
  assert (Hr : 1 ≤ keyID ≤ 7) by (unfold KeyIDMaxValue in Hk2; lia). destruct (ps_renegotiationsClosed s); [done |].
  destruct (ps_renegotiations s !! keyID) as [q |] eqn:Hm; cbn [mbind option_bind]; [| by apply newRenegotiation_ok].
  destruct (k_map s Hs keyID q Hm) as (st & Hq & Ekey). rewrite Hq. cbn [fmap option_fmap option_map]. destruct (pending st) eqn:Hp; [done |]. cbn [orb].
  destruct (ps_sendKeyID s =? keyID); [done |].
  assert (Hdone : rn_result st ≠ None).
  { apply (done_of_status s q st Hs Hq). intros E. unfold pending in Hp. rewrite E in Hp. by rewrite bool_decide_eq_true_2 in Hp by by left. }
  apply newRenegotiation_ok; [by apply removeRenegotiationLocked_ok | done |].
  unfold removeRenegotiationLocked. rewrite Ekey, decide_True by done. unfold unregisterRenegotiationChannel, discardDataKeyState. cbn.
  destruct (decide _); cbn; by rewrite lookup_delete_eq.
Qed.

Lemma triggerSoftReset_ok s now : keysOk s → keysOk (triggerSoftReset s now).2.
Proof.
  intros Hs. unfold triggerSoftReset, beginLocalSoftReset. destruct (ps_sendCodec s); [| done]. destruct (newestPending _); [done |].
  apply beginSoftReset_ok; [done |]. pose proof (k_sendKey s Hs). unfold NextKeyID, KeyIDMaxValue. destruct (Z.leb_spec 7 (ps_sendKeyID s)); [lia |].
  unfold u8. rewrite Z.mod_small by lia. destruct (_ =? 0); lia.
Qed.

Lemma handleIncomingSoftReset_ok s keyID now : keysOk s → 0 ≤ keyID → keysOk (handleIncomingSoftReset s keyID now).2.
Proof.
  intros Hs Hk. unfold handleIncomingSoftReset. destruct (ps_sendCodec s); [| done]. unfold handleIncomingSoftResetPacket. destruct (_ || _); [done |].
  pose proof (beginSoftReset_ok s keyID false now Hs Hk). by destruct (beginSoftReset s keyID false now) as [[? | ?] s'].
Qed.

(** Installing a key that is not promoted touches the receive codecs only. *)
Lemma installDataKeyState_staged s codec keyID manager sequence now :
  installDataKeyState s codec keyID manager sequence false now =
  s <| ps_receiveCodecs := ps_receiveCodecs (installDataKeyState s codec keyID manager sequence false now) |>.
Proof. done. Qed.

Lemma stage_ok s codec keyID manager sequence now : keysOk s → keysOk (installDataKeyState s codec keyID manager sequence false now).
Proof. intros Hs. rewrite installDataKeyState_staged. apply keysOk_receive; [done |]. apply installDataKeyState_receive, Hs. Qed.

Lemma abortHandover_cases s q :
  let s' := abortHandover s q in
  cs_sequence s' = cs_sequence s ∧ cs_channel s' = cs_channel s ∧ cs_installed s' = cs_installed s ∧
  (cs_handover s' = 0 ∨ cs_handover s' = cs_handover s ∧ cs_handover s ≠ q).
Proof.
  unfold abortHandover. destruct (Z.eqb_spec (cs_handover s) q) as [E | E]; cbn [negb]; [| by split_and!; [| | | right]].
  destruct (signalLocked_frame (s <| cs_handover := 0 |>)) as (-> & -> & -> & ->). by split_and!; [| | | left].
Qed.

(** A state that ends without its key becoming the one that is sent with. *)
Lemma settle_ok s s' q st st' :
  keysOk s → ps_heap s !! q = Some st →
  ps_heap s' = <[q := st']> (ps_heap s) → rn_keyID st' = rn_keyID st → rn_result st' ≠ None →
  (rn_status st' = tlsRenegotiationFailed ∨ rn_status st' = tlsRenegotiationLameDuck ∧ q < ps_promotedKeyStateSequence s) →
  (ps_renegotiations s' = ps_renegotiations s ∨
   ps_renegotiations s !! rn_keyID st = Some q ∧ ps_renegotiations s' = delete (rn_keyID st) (ps_renegotiations s)) →
  ps_channels s' = ps_renegotiations s' → receiveOk (ps_receiveCodecs s') → ps_controlStream s' = abortHandover (ps_controlStream s) q →
  ps_promotedKeyStateSequence s' = ps_promotedKeyStateSequence s → ps_renegotiationSequence s' = ps_renegotiationSequence s →
  ps_sendManager s' = ps_sendManager s → ps_sendKeyID s' = ps_sendKeyID s → keysOk s'.
Proof.
  intros Hs Hq Eh Ek Hr Hst Em Ec Hrec Es Ep En Esm Esk. pose proof Hs as [].
  assert (Hsub : ∀ k x, ps_renegotiations s' !! k = Some x → ps_renegotiations s !! k = Some x).
  { intros k x. destruct Em as [-> | [_ ->]]; [done |]. by intros [_ ?]%lookup_delete_Some. }
  destruct (abortHandover_cases (ps_controlStream s) q) as (A1 & A2 & A3 & A4).
  split; rewrite ?Eh, ?Ep, ?En, ?Esm, ?Esk, ?Es, ?A1, ?A2, ?A3; try done.
  - intros k x Hx. apply Hsub in Hx. destruct (k_map0 k x Hx) as (y & Hy & E). destruct (decide (x = q)) as [-> | Hne].
    + exists st'. rewrite lookup_insert_eq. split; [done |]. congruence.
    + exists y. by rewrite lookup_insert_ne.
  - intros x y [[<- <-] | [_ Hy]]%lookup_insert_Some; [rewrite Ek; by eapply k_heap0 | by apply k_heap0].
  - intros x y [[<- <-] | [_ Hy]]%lookup_insert_Some Ha; [destruct Hst as [? | []]; congruence |]. intros Hx. eapply k_active0; [done | done | by apply Hsub].
  - intros x y [[<- <-] | [_ Hy]]%lookup_insert_Some Ha; [destruct Hst as [? | [_ ?]]; [congruence | done] |]. by eapply k_lame0.
  - intros x y [[<- <-] | [_ Hy]]%lookup_insert_Some Hn; [done |]. by apply (k_ahead0 x y).
  - intros x y [[<- <-] | [Hne Hy]]%lookup_insert_Some Hn; [done |]. destruct (k_pending0 x y Hy Hn) as [H1 H2]. split; [done |].
    destruct Em as [-> | [Hcur ->]]; [done |]. rewrite lookup_delete_ne; [done |]. congruence.
  - intros x y [[<- <-] | [Hne Hy]]%lookup_insert_Some Hp; [| by apply (k_done0 x)]. apply bool_decide_eq_true in Hp. destruct Hst as [? | []], Hp; congruence.
  - destruct A4 as [-> | [-> Hne]]; [by left |]. destruct k_handover0 as [? | (Hlt & y & Hy & Hn)]; [by left | right]. split; [done |]. exists y. by rewrite lookup_insert_ne.
Qed.

(** A state whose key becomes the one that is sent with. *)
Lemma promote_ok s s' q st st' now :
  keysOk s → ps_heap s !! q = Some st → ps_renegotiations s !! rn_keyID st = Some q → ps_promotedKeyStateSequence s < q →
  ps_heap s' = <[q := st']> (ps_heap (retireActive s q now)) → rn_keyID st' = rn_keyID st → rn_result st' ≠ None → rn_status st' = tlsRenegotiationActive →
  ps_renegotiations s' = ps_renegotiations s → ps_channels s' = ps_channels s → receiveOk (ps_receiveCodecs s') →
  ps_controlStream s' = install (ps_controlStream s) q q → ps_promotedKeyStateSequence s' = q →
  ps_renegotiationSequence s' = ps_renegotiationSequence s → ps_sendManager s' = q → ps_sendKeyID s' = rn_keyID st → keysOk s'.
Proof.
  intros Hs Hq Hcur Hlt Eh Ek Hr Hst Em Ec Hrec Es Ep En Esm Esk. pose proof Hs as []. destruct (k_heap0 q st Hq) as [Hrange Hkey].
  assert (Hother : ∀ x y', x ≠ q → ps_heap s' !! x = Some y' → ∃ y, ps_heap s !! x = Some y ∧ rn_keyID y' = rn_keyID y ∧ rn_result y' = rn_result y ∧
    (y' = y ∧ ¬ (ps_renegotiations s !! rn_keyID y = Some x ∧ x ≠ q ∧ rn_status y = tlsRenegotiationActive) ∨
     (rn_status y = tlsRenegotiationActive ∧ ps_renegotiations s !! rn_keyID y = Some x) ∧ rn_status y' = tlsRenegotiationLameDuck)).
  { intros x y' Hne. rewrite Eh, lookup_insert_ne by done. unfold retireActive. cbn. rewrite map_lookup_imap.
    destruct (ps_heap s !! x) as [y |] eqn:Hy; [| done]. cbn [mbind option_bind]. destruct (decide _) as [(H1 & H2 & H3) | Hn]; intros [= <-]; exists y.
    - by split_and!; [| | | right].
    - by split_and!; [| | | left]. }
  assert (Hback : ∀ x y, x ≠ q → ps_heap s !! x = Some y → ∃ y', ps_heap s' !! x = Some y' ∧ rn_keyID y' = rn_keyID y ∧ rn_result y' = rn_result y).
  { intros x y Hne Hy. rewrite Eh, lookup_insert_ne by done. unfold retireActive. cbn. rewrite map_lookup_imap, Hy. cbn. eexists. split; [done |]. by destruct (decide _). }
  assert (Hself : ps_heap s' !! q = Some st') by (by rewrite Eh, lookup_insert_eq).
  destruct k_stream0 as (S1 & S2 & S3).
  assert (Hinst : cs_installed (ps_controlStream s') = true ∧ cs_sequence (ps_controlStream s') = q ∧ cs_channel (ps_controlStream s') = q ∧
    (cs_handover (ps_controlStream s') = 0 ∨ cs_handover (ps_controlStream s') = cs_handover (ps_controlStream s) ∧ q < cs_handover (ps_controlStream s))).
  { rewrite Es. unfold install. rewrite S1, S2, (proj2 (Z.ltb_ge _ _)) by lia. cbn [andb].
    destruct (Z.leb_spec (cs_handover (ps_controlStream s)) q) as [Hle | Hgt]; cbn;
      (rewrite ?(proj2 (Z.leb_le _ _)), ?(proj2 (Z.leb_gt _ _)) by done);
      match goal with |- context [signalLocked ?x] => destruct (signalLocked_frame x) as (-> & -> & -> & ->) end; cbn; split_and!; try done; [by left | by right]. }
  destruct Hinst as (I1 & I2 & I3 & I4).
  split; rewrite ?Em, ?Ec, ?Ep, ?En, ?Esm, ?Esk, ?I1, ?I2, ?I3; try done.
  - intros k x Hx. destruct (k_map0 k x Hx) as (y & Hy & E). destruct (decide (x = q)) as [-> | Hne]; [exists st'; split; [done | congruence] |].
    destruct (Hback x y Hne Hy) as (y' & Hy' & E' & _). exists y'. split; [done | congruence].
  - intros x y' Hy'. destruct (decide (x = q)) as [-> | Hne]; [replace y' with st' by congruence; by rewrite Ek |].
    destruct (Hother x y' Hne Hy') as (y & Hy & -> & _). by apply k_heap0.
  - lia.
  - lia.
  - intros x y' Hy' Ha Hx. destruct (decide (x = q)) as [-> | Hne]; [done |].
    destruct (Hother x y' Hne Hy') as (y & Hy & E & _ & [[-> Hn] | [_ Hl]]); [| congruence]. exfalso. apply Hn. split_and!; [congruence | done | done].
  - intros x y' Hy' Ha. destruct (decide (x = q)) as [-> | Hne]; [congruence |].
    destruct (Hother x y' Hne Hy') as (y & Hy & E & _ & [[-> Hn] | [[Hac Hx] Hl]]); [specialize (k_lame0 x y Hy Ha); lia |].
    specialize (k_active0 x y Hy Hac Hx). lia.
  - intros x y' Hy' Hn ->. congruence.
  - intros x y' Hy' Hn. destruct (decide (x = q)) as [-> | Hne]; [congruence |].
    destruct (Hother x y' Hne Hy') as (y & Hy & E & Er & Hcase). rewrite Er in Hn. destruct (k_pending0 x y Hy Hn) as [H1 H2]. rewrite E.
    destruct Hcase as [[-> _] | [[Ha _] _]]; [done | congruence].
  - intros x y' Hy' Hp. destruct (decide (x = q)) as [-> | Hne]; [assert (y' = st') as -> by congruence; apply bool_decide_eq_true in Hp; destruct Hp; congruence |].
    destruct (Hother x y' Hne Hy') as (y & Hy & E & Er & [[-> _] | [_ Hl]]); [by apply (k_done0 x) |]. apply bool_decide_eq_true in Hp. destruct Hp; congruence.
  - destruct I4 as [-> | [-> Hgt]]; [by left |]. right. split; [done |]. destruct k_handover0 as [? | (_ & y & Hy & Hn)]; [lia |].
    destruct (Hback (cs_handover (ps_controlStream s)) y) as (y' & Hy' & _ & E); [lia | done |]. exists y'. split; [done | congruence].
Qed.


#[local] Arguments pruneRenegotiationsLocked : simpl never.

Lemma finishSoftReset_ok s q outcome now : keysOk s → keysOk (finishSoftReset s q outcome now).2.
Proof.
  intros Hs. unfold finishSoftReset. destruct (ps_heap s !! q) as [st |] eqn:Hq; [| done]. destruct (rn_result st) eqn:Hn; [done |].
  destruct (k_pending s Hs q st Hq Hn) as [Hneg Hcur]. rewrite bool_decide_eq_true_2 by done.
  assert (Hfilter : ∀ k x, receiveOk (filter (λ e, ¬ (rc_keyID e = k ∧ rc_sequence e = x)) (ps_receiveCodecs s))) by (intros; apply receiveOk_filter, Hs).
  destruct outcome as [codec | err].
  - unfold promoteKeyStateLocked. destruct (Z.leb_spec q (ps_promotedKeyStateSequence s)) as [Hle | Hgt].
    + cbn. rewrite lookup_insert_eq. match goal with |- context [pruneRenegotiationsLocked ?x now] => set (b := x) end.
      assert (keysOk b) as Hb.
      { apply (settle_ok s b q st ((makeLameDuckLocked now st) <| rn_result := Some None |>)); subst b; try done; cbn; [by rewrite insert_insert_eq | right; split; [done | pose proof (k_ahead s Hs q st Hq Hn); lia] | by left | apply Hs |].
        by apply (installDataKeyState_receive (setState s q (makeLameDuckLocked now st)) codec (rn_keyID st) q q false now), Hs. }
      pose proof (pruneRenegotiationsLocked_ok b now Hb) as [Hp _]. by destruct (pruneRenegotiationsLocked b now).
    + cbn. rewrite lookup_insert_eq. match goal with |- context [pruneRenegotiationsLocked ?x now] => set (b := x) end.
      assert (keysOk b) as Hb.
      { apply (promote_ok s b q st (st <| rn_status := tlsRenegotiationActive |> <| rn_result := Some None |>) now); subst b; try done; cbn; [by rewrite insert_insert_eq |].
        exact (installDataKeyState_receive (setState ((retireActive s q now) <| ps_promotedKeyStateSequence := q |>) q
          (st <| rn_status := tlsRenegotiationActive |>)) codec (rn_keyID st) q q true now (k_receive s Hs)). }
      pose proof (pruneRenegotiationsLocked_ok b now Hb) as [Hp _]. by destruct (pruneRenegotiationsLocked b now).
  - cbn [snd]. unfold removeRenegotiationLocked. cbn. rewrite decide_True by done. unfold unregisterRenegotiationChannel. cbn.
    rewrite (k_channels s Hs), decide_True by done. eapply (settle_ok s _ q st); try done; cbn; [by left | by right |].
    apply receiveOk_filter, Hfilter.
Qed.

Lemma confirmDataKey_ok s keyID now : keysOk s → keysOk (confirmDataKey s keyID now).2.
Proof.
  intros Hs. unfold confirmDataKey. destruct (negb _); [done |]. destruct (ps_renegotiations s !! keyID) as [q |] eqn:Hm; [| done].
  destruct (ps_heap s !! q) as [st |] eqn:Hq; [| done]. destruct (rn_status st) eqn:Est; try done.
  - pose proof Hs as []. assert (Hlook : ∀ x y, <[q := st <| rn_peerDataConfirmed := true |>]> (ps_heap s) !! x = Some y →
      ∃ z, ps_heap s !! x = Some z ∧ rn_keyID y = rn_keyID z ∧ rn_status y = rn_status z ∧ rn_result y = rn_result z).
    { intros x y [[<- <-] | [_ Hy]]%lookup_insert_Some; [by exists st | by exists y]. }
    cbn [snd]. split; cbn; try done.
    + intros k x Hx. destruct (k_map0 k x Hx) as (y & Hy & E). destruct (decide (x = q)) as [-> | Hne]; [| exists y; by rewrite lookup_insert_ne].
      eexists. rewrite lookup_insert_eq. split; [done |]. cbn. congruence.
    + intros x y (z & Hz & -> & _)%Hlook. by apply k_heap0.
    + intros x y (z & Hz & -> & -> & _)%Hlook. by apply k_active0.
    + intros x y (z & Hz & _ & -> & _)%Hlook. by apply k_lame0.
    + intros x y (z & Hz & _ & _ & ->)%Hlook. by apply (k_ahead0 x z).
    + intros x y (z & Hz & -> & -> & ->)%Hlook. by apply k_pending0.
    + intros x y (z & Hz & E1 & E2 & E3)%Hlook Hp. unfold pending in Hp. rewrite E2 in Hp |- *. rewrite E3. by apply (k_done0 x).
    + destruct k_handover0 as [? | (Hlt & y & Hy & Hn)]; [by left | right]. split; [done |].
      destruct (decide (cs_handover (ps_controlStream s) = q)) as [E | Hne]; [| exists y; by rewrite lookup_insert_ne].
      rewrite E in Hy |- *. eexists. rewrite lookup_insert_eq. split; [done |]. cbn. congruence.
  - exfalso. destruct (k_done s Hs q st Hq) as [E _]; [| congruence]. unfold pending. rewrite Est. by apply bool_decide_eq_true_2; right.
Qed.

Lemma expireKeyState_ok s q now : keysOk s → keysOk (expireKeyState s q now).2.
Proof.
  intros Hs. unfold expireKeyState. destruct (ps_heap s !! q) as [st |] eqn:Hq; [| done]. destruct (decide _); [| done].
  destruct (_ || _) eqn:Hr; [done |]. apply orb_false_iff in Hr as [Hr%negb_false_iff _]. apply bool_decide_eq_true in Hr.
  apply removeRenegotiationLocked_ok; [done | done |]. apply (done_of_status s q st Hs Hq). destruct Hr; congruence.
Qed.

(** Closing ends every renegotiation. *)
Lemma failRenegotiation_ok err s q st :
  keysOk s → ps_heap s !! q = Some st →
  let s' := failRenegotiation err s (q, st) in
  keysOk s' ∧ (∀ x, x ≠ q → ps_heap s' !! x = ps_heap s !! x) ∧ (∃ st', ps_heap s' !! q = Some st' ∧ rn_result st' ≠ None) ∧
  ps_renegotiationsClosed s' = ps_renegotiationsClosed s.
Proof.
  intros Hs Hq. unfold failRenegotiation. destruct (removeRenegotiationLocked_frame s q st) as (F1 & F2 & F3 & F4 & F5 & F6 & F7 & _).
  destruct (rn_result st) eqn:Hr.
  - cbn. rewrite F1. split_and!; try done; [| by exists st; rewrite Hr].
    pose proof (removeRenegotiationLocked_ok s q st Hs Hq ltac:(by rewrite Hr)) as Hb. set (b := removeRenegotiationLocked s q st) in *. clearbody b.
    destruct (abortHandover_cases (ps_controlStream b) q) as (A1 & A2 & A3 & A4). destruct Hb. split; cbn; rewrite ?A1, ?A2, ?A3; try done.
    destruct A4 as [-> | [-> _]]; [by left | done].
  - destruct (k_pending s Hs q st Hq Hr) as [Hneg Hcur]. cbn. rewrite F1.
    split_and!; [| intros x Hne; by rewrite lookup_insert_ne | eexists; by rewrite lookup_insert_eq | done].
    unfold removeRenegotiationLocked. rewrite decide_True by done. unfold unregisterRenegotiationChannel. cbn.
    rewrite (k_channels s Hs), decide_True by done. eapply (settle_ok s _ q st); try done; cbn; [by left | by right |].
    apply receiveOk_filter, Hs.
Qed.

Lemma failAll_loop err s l :
  keysOk s → NoDup l.*1 → Forall (λ '(q, st), ps_heap s !! q = Some st) l →
  let s' := foldl (failRenegotiation err) s l in
  keysOk s' ∧ ps_renegotiationsClosed s' = ps_renegotiationsClosed s ∧
  (∀ q, q ∉ l.*1 → ps_heap s' !! q = ps_heap s !! q) ∧ (∀ q, q ∈ l.*1 → ∃ st', ps_heap s' !! q = Some st' ∧ rn_result st' ≠ None).
Proof.
  cbv zeta. revert s. induction l as [| [q st] l IH]; intros s Hs Hnd Hl; [split_and!; [done | done | done | by intros ? []%not_elem_of_nil] |].
  cbn in Hnd. apply NoDup_cons in Hnd as [Hq Hnd]. apply Forall_cons in Hl as [Hst Hl]. cbn [foldl].
  destruct (failRenegotiation_ok err s q st Hs Hst) as (Hb & Hother & (st' & Hst' & Hr') & Hc). set (b := failRenegotiation err s (q, st)) in *.
  destruct (IH b Hb Hnd) as (I1 & I2 & I3 & I4).
  { rewrite Forall_forall in Hl |- *. intros [x y] Hin. specialize (Hl _ Hin). cbn in Hl. rewrite Hother; [done |].
    intros ->. apply Hq. by apply (list_elem_of_fmap_2 fst) in Hin. }
  split_and!; [done | congruence | |].
  - intros x [Hne Hx]%not_elem_of_cons. rewrite I3 by done. by apply Hother.
  - intros x [-> | Hx]%elem_of_cons; [| by apply I4]. exists st'. rewrite I3 by done. by split.
Qed.

Lemma keysOk_close s : keysOk s → keysOk (s <| ps_renegotiationsClosed := true |>).
Proof. intros []. by split. Qed.

Lemma currentStates_distinct s : keysOk s → NoDup (currentStates s).*1.
Proof.
  intros Hs. unfold currentStates. pose proof (NoDup_map_to_list (ps_renegotiations s)) as Hnd.
  assert (Hinj : ∀ k k' q, (k, q) ∈ map_to_list (ps_renegotiations s) → (k', q) ∈ map_to_list (ps_renegotiations s) → k = k').
  { intros k k' q H1%elem_of_map_to_list H2%elem_of_map_to_list. destruct (k_map s Hs k q H1) as (st & E1 & E2), (k_map s Hs k' q H2) as (st' & E1' & E2'). congruence. }
  induction (map_to_list (ps_renegotiations s)) as [| [k q] l IH]; [constructor |]. apply NoDup_cons in Hnd as [Hx Hnd]. cbn [omap list_omap].
  assert (IH' : NoDup (omap (λ '(_, sequence), (λ state, (sequence, state)) <$> ps_heap s !! sequence) l).*1) by (apply IH; [done | intros; eapply Hinj; by right]).
  destruct (ps_heap s !! q) as [st |] eqn:Hq; [| done]. cbn. apply NoDup_cons. split; [| done].
  intros ([x y] & E & Hin)%list_elem_of_fmap. cbn in E. subst x. apply list_elem_of_omap in Hin as ([k' q'] & Hin & Hf).
  destruct (ps_heap s !! q') as [st' |]; [| done]. cbn in Hf. injection Hf as <- <-. apply Hx. rewrite (Hinj k k' q'); [done | by left | by right].
Qed.

Lemma failAllRenegotiations_ok s err :
  keysOk s → let s' := (failAllRenegotiations s err).2 in
  keysOk s' ∧ ps_renegotiationsClosed s' = true ∧ ∀ q st, ps_heap s' !! q = Some st → rn_result st ≠ None.
Proof.
  intros Hs. unfold failAllRenegotiations. cbn [snd]. set (b := s <| ps_renegotiationsClosed := true |>).
  assert (Hb : keysOk b) by by apply keysOk_close. destruct (failAll_loop err b (currentStates b) Hb) as (I1 & I2 & I3 & I4).
  - by apply currentStates_distinct.
  - apply Forall_forall. intros [q st] [Hin _]%currentStates_elem. done.
  - split_and!; [done | by rewrite I2 |]. intros q st Hq. destruct (decide (q ∈ (currentStates b).*1)) as [Hin | Hout].
    + destruct (I4 q Hin) as (st' & E & Hr). congruence.
    + rewrite I3 in Hq by done. intros Hn. destruct (k_pending b Hb q st Hq Hn) as [_ Hcur]. apply Hout. apply list_elem_of_fmap. exists (q, st).
      split; [done |]. unfold currentStates. apply list_elem_of_omap. exists (rn_keyID st, q). split; [by apply elem_of_map_to_list | by rewrite Hq].
Qed.


(** Key ids of packets are not negative. *)
Definition keyOpOk (op : keyOp) : Prop := match op with KSoftReset keyID _ => 0 ≤ keyID | _ => True end.

Lemma doKeyOp_ok s op : keysOk s → keyOpOk op → keysOk (doKeyOp s op).
Proof.
  intros Hs Ho. destruct op; cbn [doKeyOp].
  - by apply triggerSoftReset_ok.
  - by apply handleIncomingSoftReset_ok.
  - unfold stageNegotiatedReceiveKey. destruct (ps_renegotiations s !! keyID); [| done]. destruct (ps_heap s !! _); [| done].
    destruct (decide _); [by apply stage_ok | done].
  - by apply finishSoftReset_ok.
  - by apply confirmDataKey_ok.
  - by apply expireKeyState_ok.
  - apply keysOk_receive; [done |]. apply receiveOk_filter, Hs.
  - by apply failAllRenegotiations_ok.
Qed.

Lemma doKeyOps_ok s ops : keysOk s → Forall keyOpOk ops → keysOk (doKeyOps s ops).
Proof.
  intros Hs Ho. unfold doKeyOps. revert s Hs. induction Ho as [| op ops Hop _ IH]; intros s Hs; [done |]. cbn [foldl]. by apply IH, doKeyOp_ok.
Qed.

(** C22: over any interleaving of local and remote soft resets, handshakes that end
    in any order and fail or not, expiring keys, incoming data and closing: at most
    three keys are received with and their key ids differ; the map of key ids, the
    control channels and the states agree; a state has no result exactly while it
    is negotiated, so that no waiter is left behind; at most one state is active,
    and it is the one whose session manager numbers the packets that are sent. *)
Theorem key_states_consistent role window codec ops :
  Forall keyOpOk ops → keysOk (doKeyOps (startedSession role window codec) ops).
Proof. intros Ho. apply doKeyOps_ok; [apply startedSession_ok | done]. Qed.

(** The control channel of the session is never lost: whenever no
    renegotiation is under way, the stream that messages are read from and written
    to is the one of the key that is sent with; and after the session has been
    closed none is under way and none begins. *)
Theorem control_stream_available role window codec ops :
  Forall keyOpOk ops →
  let s := doKeyOps (startedSession role window codec) ops in
  ((∀ q st, ps_heap s !! q = Some st → rn_result st ≠ None) → (snapshot (ps_controlStream s)).1 = Some (ps_sendManager s, ps_sendManager s)) ∧
  (∀ err, let closed := doKeyOp s (KFail err) in
    (∀ q st, ps_heap closed !! q = Some st → rn_result st ≠ None) ∧ ∀ now, doKeyOp closed (KTrigger now) = closed).
Proof.
  intros Ho s. assert (Hs : keysOk s) by (apply doKeyOps_ok; [apply startedSession_ok | done]). split.
  - intros Hdone. destruct (k_stream s Hs) as (H1 & H2 & H3). destruct (k_promoted s Hs) as [_ E]. unfold snapshot. cbn [fst].
    rewrite H1, H2, H3, E. destruct (k_handover s Hs) as [-> | (_ & st & Hst & Hn)]; [done |]. by apply Hdone in Hst.
  - intros err closed. destruct (failAllRenegotiations_ok s err Hs) as (Hc & Hcl & Hall). split; [done |]. intros now.
    change (ps_renegotiationsClosed closed = true) in Hcl. change (keysOk closed) in Hc. cbn [doKeyOp]. unfold triggerSoftReset, beginLocalSoftReset.
    destruct (ps_sendCodec closed); [| done]. destruct (newestPending (currentStates closed)); [done |].
    unfold beginSoftReset. destruct (_ || _); [done |]. by rewrite Hcl.
Qed.

(** ** Changing keys *)

(** What is received with a key at a time. *)
Lemma selectReceiveCodec_spec s keyID now e :
  receiveOk (ps_receiveCodecs s) → e ∈ ps_receiveCodecs s → rc_keyID e = keyID → expired now (rc_expiry e) = false →
  (selectReceiveCodec s keyID now).1 = Some (rc_codec e).
Proof.
  intros [_ Hnd _] Hin Hk He. unfold selectReceiveCodec. cbn [fst].
  assert (Hgen : ∀ l acc, NoDup (rc_keyID <$> l) → e ∈ l →
    foldl (λ selected e, if rc_keyID e =? keyID then Some (rc_codec e) else selected) acc (filter (λ e, expired now (rc_expiry e) = false) l) = Some (rc_codec e)).
  { assert (Hnone : ∀ l acc, keyID ∉ rc_keyID <$> l →
      foldl (λ selected e, if rc_keyID e =? keyID then Some (rc_codec e) else selected) acc (filter (λ e, expired now (rc_expiry e) = false) l) = acc).
    { induction l as [| x l IH]; intros acc Hn; [done |]. cbn in Hn. apply not_elem_of_cons in Hn as [Hx Hn]. rewrite filter_cons.
      destruct (decide _); [| by apply IH]. cbn [foldl]. rewrite (proj2 (Z.eqb_neq _ _)) by done. by apply IH. }
    induction l as [| x l IH]; intros acc Hn Hl; [by apply not_elem_of_nil in Hl |]. cbn in Hn. apply NoDup_cons in Hn as [Hx Hn]. rewrite filter_cons.
    apply elem_of_cons in Hl as [<- | Hl].
    - rewrite decide_True by done. cbn [foldl]. rewrite Hk, Z.eqb_refl. apply Hnone. by rewrite <- Hk.
    - destruct (decide _); [cbn [foldl] |]; by apply IH. }
  by apply Hgen.
Qed.

(** An element survives a cut to the last three, or has two others behind it. *)
Lemma sorted_cut {A} (key : A → Z) l x :
  sorted_by key l → NoDup l → x ∈ l → x ∈ drop (length l - tlsKeyScanSize) l ∨
  ∃ y z, y ∈ l ∧ z ∈ l ∧ y ≠ z ∧ y ≠ x ∧ z ≠ x ∧ key x ≤ key y ∧ key x ≤ key z.
Proof.
  unfold tlsKeyScanSize. intros Hs Hnd [i Hi]%list_elem_of_lookup. destruct (decide (length l - 3 ≤ i)%nat) as [Hge | Hlt]; [left | right].
  { apply list_elem_of_lookup. exists (i - (length l - 3))%nat. rewrite lookup_drop. replace (length l - 3 + (i - (length l - 3)))%nat with i by lia. done. }
  pose proof (take_drop_middle l i x Hi) as El. set (rest := drop (S i) l) in *.
  assert (Hrest : length rest = (length l - S i)%nat) by (subst rest; by rewrite length_drop).
  destruct rest as [| y [| z rest']] eqn:Er; [cbn in Hrest; lia | cbn in Hrest; lia |].
  rewrite <- El in Hs, Hnd |- *. unfold sorted_by in Hs. rewrite fmap_app in Hs. cbn [fmap list_fmap] in Hs.
  apply StronglySorted_app_1_r in Hs. apply StronglySorted_inv in Hs as [_ Hs]. apply NoDup_app in Hnd as (_ & _ & Hnd).
  rewrite !NoDup_cons, !not_elem_of_cons in Hnd. rewrite !Forall_cons in Hs. exists y, z.
  split_and!; try (apply elem_of_app; right; rewrite !elem_of_cons; auto); naive_solver.
Qed.

(** The last of the list that is sorted survives the cut. *)
Lemma installDataKeyState_keeps s codec keyID manager sequence (promote : bool) now e :
  let new := mkReceive keyID codec (if promote then 0 else now + tlsTransitionWindow) sequence in
  e ∈ retainEntries s keyID promote now → (∀ x, x ∈ retainEntries s keyID promote now → x = e ∨ rc_sequence x < rc_sequence e) →
  rc_sequence e < sequence → NoDup (rc_keyID <$> ps_receiveCodecs s) →
  let l := ps_receiveCodecs (installDataKeyState s codec keyID manager sequence promote now) in new ∈ l ∧ e ∈ l.
Proof.
  cbv zeta. set (new := mkReceive _ _ _ _). intros He Hmax Hlt Hnd.
  assert (El : ps_receiveCodecs (installDataKeyState s codec keyID manager sequence promote now) =
    drop (length (sort_by rc_sequence (retainEntries s keyID promote now ++ [new])) - tlsKeyScanSize) (sort_by rc_sequence (retainEntries s keyID promote now ++ [new])))
    by (unfold installDataKeyState; by destruct promote).
  rewrite El. set (entries := sort_by rc_sequence _). assert (Hp : entries ≡ₚ retainEntries s keyID promote now ++ [new]) by apply sort_by_perm.
  assert (Hs : sorted_by rc_sequence entries) by apply sort_by_sorted.
  assert (Hdistinct : NoDup entries).
  { rewrite Hp. destruct (retainEntries_distinct s keyID promote now Hnd) as [H1 H2]. apply NoDup_app. split_and!.
    - by apply NoDup_fmap_1 in H1.
    - intros x Hx ->%list_elem_of_singleton. apply H2. by apply (list_elem_of_fmap_2 rc_keyID) in Hx.
    - apply NoDup_singleton. }
  assert (Hcase : ∀ x, x ∈ entries → x = new ∨ x = e ∨ rc_sequence x < rc_sequence e).
  { intros x. rewrite Hp, elem_of_app, list_elem_of_singleton. intros [Hx | ->]; [right; by apply Hmax | by left]. }
  split.
  - destruct (sorted_cut rc_sequence entries new Hs Hdistinct) as [? | (y & z & Hy & Hz & Hyz & Hyn & Hzn & Ly & Lz)]; [rewrite Hp; set_solver | done |].
    cbn in Ly. destruct (Hcase y Hy) as [? | [-> | ?]]; [done | lia | lia].
  - destruct (sorted_cut rc_sequence entries e Hs Hdistinct) as [? | (y & z & Hy & Hz & Hyz & Hye & Hze & Ly & Lz)]; [rewrite Hp; set_solver | done |].
    destruct (Hcase y Hy) as [-> | [? | ?]]; [| done | lia]. destruct (Hcase z Hz) as [-> | [? | ?]]; [done | done | lia].
Qed.


Lemma removeMany_receive s l e :
  e ∈ ps_receiveCodecs s → Forall (λ '(q, _), rc_sequence e ≠ q) l →
  e ∈ ps_receiveCodecs (foldl (λ s '(q, st), removeRenegotiationLocked s q st) s l).
Proof.
  intros He Hl. revert s He. induction Hl as [| [q st] l Hq _ IH]; intros s He; [done |]. cbn [foldl]. apply IH.
  unfold removeRenegotiationLocked, unregisterRenegotiationChannel, discardDataKeyState. destruct (decide _); [| done].
  destruct (decide _); cbn; apply list_elem_of_filter; (split; [| done]); by intros [_ ?].
Qed.

(** What pruning removes after a key change: neither the new state nor the last. *)
Lemma prune_spares s b q st now old :
  keysOk s → keysOk b → ps_heap s !! q = Some st → ps_promotedKeyStateSequence s < q → old = ps_promotedKeyStateSequence s →
  ps_promotedKeyStateSequence b = q → ps_renegotiations b = ps_renegotiations s →
  (∃ st', ps_heap b !! q = Some st' ∧ rn_status st' = tlsRenegotiationActive) →
  (∀ x, x ≠ q → ps_heap b !! x = ps_heap (retireActive s q now) !! x) →
  ∀ e, e ∈ ps_receiveCodecs b → rc_sequence e = q ∨ rc_sequence e = old → e ∈ ps_receiveCodecs (pruneRenegotiationsLocked b now).2.
Proof.
  intros Hs Hb Hq Hlt Eold Ep Em (st' & Hq' & Ha') Hheap e He Hseq.
  assert (Hdone : ∀ x y, (x, y) ∈ currentStates b → rn_status y = tlsRenegotiationActive ∨ retiring y = true →
    x = q ∧ retiring y = false ∨ x ≤ old ∧ (x = old → now < rn_expiresAt y)).
  { intros x y Hin Hst. apply currentStates_elem in Hin as (Hy & k & Hk). destruct (decide (x = q)) as [-> | Hne].
    { left. split; [done |]. assert (y = st') as -> by congruence. unfold retiring. rewrite Ha'. by apply bool_decide_eq_false_2; intros []. }
    right. rewrite Hheap in Hy by done. unfold retireActive in Hy. cbn in Hy. rewrite map_lookup_imap in Hy.
    destruct (ps_heap s !! x) as [z |] eqn:Hz; [| done]. cbn [mbind option_bind] in Hy.
    destruct (decide _) as [(Hx & _ & Hact) | Hn]; injection Hy as <-.
    - pose proof (k_active s Hs x z Hz Hact Hx). split; [lia |]. intros _. cbn. unfold tlsTransitionWindow, Second. lia.
    - destruct Hst as [Hact | Hret].
      + exfalso. apply Hn. split_and!; [| done | done]. rewrite Em in Hk. destruct (k_map s Hs k x Hk) as (z' & Hz' & <-). congruence.
      + apply bool_decide_eq_true in Hret. destruct Hret as [Hl | Haw].
        * pose proof (k_lame s Hs x z Hz Hl). split; lia.
        * destruct (k_done s Hs x z Hz) as [E _]; [| congruence]. unfold pending. rewrite Haw. by apply bool_decide_eq_true_2; right. }
  unfold pruneRenegotiationsLocked. cbn [snd]. apply removeMany_receive; [done |]. apply Forall_app. split; apply Forall_forall; intros [x y].
  - intros [[Hr Hexp] Hin]%list_elem_of_filter. destruct (Hdone x y Hin) as [[_ ?] | [Hle Hx]]; [by right | congruence |].
    destruct Hseq as [-> | ->]; [lia |]. intros <-. by apply Hexp, Hx.
  - set (completed := filter _ _). set (l := sort_by fst completed). intros Hin.
    assert (Hp : l ≡ₚ completed) by apply sort_by_perm.
    assert (Hnd : NoDup l).
    { rewrite Hp. apply NoDup_filter. pose proof (currentStates_distinct b Hb) as H. by apply NoDup_fmap_1 in H. }
    assert (Hl : (x, y) ∈ l) by (apply elem_of_take in Hin as (i & Hi & _); by apply list_elem_of_lookup_2 in Hi).
    assert (Hkeys : ∀ u v, u ∈ l → v ∈ l → u.1 = v.1 → u = v).
    { intros [u1 u2] [v1 v2] Hu Hv [= ->]. rewrite Hp in Hu, Hv. apply list_elem_of_filter in Hu as [_ [Hu _]%currentStates_elem], Hv as [_ [Hv _]%currentStates_elem]. congruence. }
    assert (Hrange : ∀ u, u ∈ l → u.1 = q ∨ u.1 ≤ old).
    { intros [u1 u2] Hu. rewrite Hp in Hu. apply list_elem_of_filter in Hu as [[Hst _] Hu]. destruct (Hdone u1 u2 Hu Hst) as [[-> _] | [? _]]; [by left | by right]. }
    destruct (sorted_cut fst l (x, y) (sort_by_sorted fst completed) Hnd Hl) as [Hdrop | (u & v & Hu & Hv & Huv & Hux & Hvx & Lu & Lv)].
    { exfalso. rewrite <- (take_drop (length l - tlsKeyScanSize) l) in Hnd. apply NoDup_app in Hnd as (_ & Hdis & _). by apply (Hdis (x, y)). }
    cbn in Lu, Lv. intros E.
    assert (Hbeyond : ∀ w, w ∈ l → w ≠ (x, y) → x ≤ w.1 → w.1 ≠ x) by (intros w Hw Hne _ E'; apply Hne; by apply Hkeys).
    pose proof (Hbeyond u Hu Hux Lu). pose proof (Hbeyond v Hv Hvx Lv).
    destruct (Hrange u Hu), (Hrange v Hv), (Hrange (x, y) Hl); cbn in *; try lia. apply Huv, Hkeys; [done | done | congruence].
Qed.


(** C20: a renegotiation changes keys without a gap, where no other renegotiation has
    staged a key meanwhile.  Let a renegotiation later than the key that is sent with,
    and with another key id, end with a codec; let the key that is sent with still be
    received, and every other receive key be that of this renegotiation or older than
    the key that is sent with.  Then the new key is sent with at once and received from
    then on, and the former key, which the peer may still use, is received for the
    transition window of an hour.  (Without the condition on staged keys the former key
    can be pushed out of the table: [staged_keys_displace_current].) *)
Theorem key_change_without_gap role window first ops q st codec old now :
  let s := doKeyOps (startedSession role window first) ops in
  Forall keyOpOk ops → ps_heap s !! q = Some st → rn_result st = None → ps_promotedKeyStateSequence s < q → rn_keyID st ≠ ps_sendKeyID s → 0 < now →
  let e := mkReceive (ps_sendKeyID s) old 0 (ps_promotedKeyStateSequence s) in
  e ∈ ps_receiveCodecs s → (∀ z, z ∈ ps_receiveCodecs s → z = e ∨ rc_keyID z = rn_keyID st ∨ rc_sequence z < ps_promotedKeyStateSequence s) →
  let s' := doKeyOp s (KFinish q (Ok codec) now) in
  currentSendCodec s' = (Some codec, rn_keyID st) ∧ ps_sendManager s' = q ∧
  (∀ t, now ≤ t → (selectReceiveCodec s' (rn_keyID st) t).1 = Some codec) ∧
  (∀ t, now ≤ t < now + tlsTransitionWindow → (selectReceiveCodec s' (ps_sendKeyID s) t).1 = Some old).
Proof.
  intros s Ho Hq Hn Hlt Hkey Hnow e He Hstaged s'.
  assert (Hs : keysOk s) by (apply doKeyOps_ok; [apply startedSession_ok | done]).
  assert (Hs' : keysOk s') by by apply finishSoftReset_ok. destruct (k_pending s Hs q st Hq Hn) as [_ Hcur].
  set (c := setState ((retireActive s q now) <| ps_promotedKeyStateSequence := q |>) q (st <| rn_status := tlsRenegotiationActive |>)).
  set (b := setState (setStream (installDataKeyState c codec (rn_keyID st) q q true now)
    (install (ps_controlStream (installDataKeyState c codec (rn_keyID st) q q true now)) q q)) q
    (st <| rn_status := tlsRenegotiationActive |> <| rn_result := Some None |>)).
  assert (Es' : s' = (pruneRenegotiationsLocked b now).2).
  { subst s'. cbn [doKeyOp]. unfold finishSoftReset. rewrite Hq, Hn, bool_decide_eq_true_2 by done. unfold promoteKeyStateLocked.
    rewrite (proj2 (Z.leb_gt _ _)) by done. fold c. set (d := setStream (installDataKeyState c codec (rn_keyID st) q q true now) _).
    assert (Hd : ps_heap d !! q = Some (st <| rn_status := tlsRenegotiationActive |>)) by (subst d c; cbn; by rewrite lookup_insert_eq).
    rewrite Hd. change (setState d q _) with b. by destruct (pruneRenegotiationsLocked b now). }
  assert (Hb : keysOk b).
  { apply (promote_ok s b q st (st <| rn_status := tlsRenegotiationActive |> <| rn_result := Some None |>) now); try done.
    - subst b c. cbn. by rewrite insert_insert_eq.
    - exact (installDataKeyState_receive c codec (rn_keyID st) q q true now (k_receive s Hs)). }
  destruct (pruneRenegotiationsLocked_ok b now Hb) as (_ & _ & _ & _ & F4 & F5).
  assert (Hfresh : expired now (now + tlsTransitionWindow) = false).
  { unfold expired, tlsTransitionWindow, Second, IsZero. rewrite (proj2 (Z.ltb_lt _ _)) by lia. apply andb_false_r. }
  set (e' := withExpiry e (now + tlsTransitionWindow)).
  assert (Hret : e' ∈ retainEntries c (rn_keyID st) true now ∧
    ∀ x, x ∈ retainEntries c (rn_keyID st) true now → x = e' ∨ rc_sequence x < rc_sequence e').
  { unfold retainEntries. change (ps_receiveCodecs c) with (ps_receiveCodecs s). change (ps_sendKeyID c) with (ps_sendKeyID s). split.
    - apply list_elem_of_omap. exists e. split; [done |]. cbn [rc_keyID e]. rewrite (proj2 (Z.eqb_neq _ _)), Z.eqb_refl by done. cbn [andb]. fold e'. cbn [rc_expiry e' withExpiry].
      by rewrite Hfresh.
    - intros x (z & Hz & Hf)%list_elem_of_omap. revert Hf. destruct (Z.eqb_spec (rc_keyID z) (rn_keyID st)) as [| Hne]; [done |].
      destruct (Hstaged z Hz) as [-> | [? | Hlow]]; [| done |].
      + cbn [rc_keyID e]. rewrite Z.eqb_refl. cbn [andb]. fold e'. cbn [rc_expiry e' withExpiry]. rewrite Hfresh. intros [= <-]. by left.
      + cbv zeta. cbn [andb]. set (w := if rc_keyID z =? ps_sendKeyID s then _ else _).
        assert (Hw : rc_sequence w = rc_sequence z) by (unfold w; by destruct (rc_keyID z =? ps_sendKeyID s)).
        destruct (expired now (rc_expiry w)); intros Hx; [done |]. injection Hx as <-. right. rewrite Hw. exact Hlow. }
  destruct Hret as [He' Hmax].
  destruct (installDataKeyState_keeps c codec (rn_keyID st) q q true now e' He' Hmax Hlt (ro_distinct _ (k_receive s Hs))) as [Hnew Hold].
  assert (Hspare : ∀ x, x ∈ ps_receiveCodecs b → rc_sequence x = q ∨ rc_sequence x = ps_promotedKeyStateSequence s → x ∈ ps_receiveCodecs s').
  { rewrite Es'. eapply (prune_spares s b q st now); try done.
    - eexists. split; [subst b; cbn; by rewrite lookup_insert_eq | done].
    - intros x Hne. subst b c. cbn. by rewrite !lookup_insert_ne. }
  split_and!.
  - unfold currentSendCodec. by rewrite Es', F4, F5.
  - rewrite (proj2 (k_promoted s' Hs')), Es'. by destruct (pruneRenegotiationsLocked_ok b now Hb) as (_ & _ & _ & -> & _).
  - intros t Ht. apply (selectReceiveCodec_spec s' _ t (mkReceive (rn_keyID st) codec 0 q)); [apply Hs' | apply Hspare; [exact Hnew | by left] | done | done].
  - intros t Ht. apply (selectReceiveCodec_spec s' _ t e'); [apply Hs' | apply Hspare; [exact Hold | by right] | done |]. cbn.
    unfold expired. rewrite (proj2 (Z.ltb_lt _ _)) by lia. apply andb_false_r.
Qed.

(** Three renegotiations of the peer whose keys are staged at the same time
    displace the key that is in use, because the cut to three keys goes by sequence
    and does not spare it: the session goes on sending with it but no longer
    receives with it, and when the three handshakes fail after the hand window it
    receives nothing at all. *)
Theorem staged_keys_displace_current first c1 c2 c3 err :
  let staged := doKeyOps (startedSession tlsRoleServer (60 * Second) first)
    [KSoftReset 1 Second; KStage 1 c1 Second; KSoftReset 2 (2 * Second); KStage 2 c2 (2 * Second);
     KSoftReset 3 (3 * Second); KStage 3 c3 (3 * Second)] in
  let failed := doKeyOps staged [KFinish 1 (Err err) (61 * Second); KFinish 2 (Err err) (62 * Second); KFinish 3 (Err err) (63 * Second)] in
  currentSendCodec staged = (Some first, 0) ∧ (selectReceiveCodec staged 0 (3 * Second)).1 = None ∧
  currentSendCodec failed = (Some first, 0) ∧ ps_receiveCodecs failed = [].
Proof. split_and!; vm_compute; reflexivity. Qed.

(** ** The key that is sent with *)

Definition sameSend (s s' : tlsPeerSession) : Prop :=
  ps_promotedKeyStateSequence s' = ps_promotedKeyStateSequence s ∧ currentSendCodec s' = currentSendCodec s.

Lemma sameSend_trans s1 s2 s3 : sameSend s1 s2 → sameSend s2 s3 → sameSend s1 s3.
Proof. intros [H1 H2] [H3 H4]. split; congruence. Qed.

Lemma removeRenegotiationLocked_send s q st : sameSend s (removeRenegotiationLocked s q st).
Proof.
  destruct (removeRenegotiationLocked_frame s q st) as (_ & _ & F3 & F4 & F5 & _). unfold sameSend, currentSendCodec. by rewrite F3, F4, F5.
Qed.

Lemma beginSoftReset_send s keyID initiator now : sameSend s (beginSoftReset s keyID initiator now).2.
Proof.
  assert (Hnew : ∀ s, sameSend s (newRenegotiation s keyID initiator now).2).
  { intros b. unfold newRenegotiation, registerRenegotiationChannel. destruct (_ || _); [done |]. by destruct (ps_channels _ !! keyID). }
  unfold beginSoftReset. destruct (_ || _); [done |]. destruct (ps_renegotiationsClosed s); [done |].
  destruct (_ ≫= _) as [[q st] |]; [| apply Hnew]. destruct (_ || _); [done |].
  eapply sameSend_trans; [apply removeRenegotiationLocked_send | apply Hnew].
Qed.

Lemma failAll_send err l s : sameSend s (foldl (failRenegotiation err) s l).
Proof.
  revert s. induction l as [| [q st] l IH]; intros s; [done |]. cbn [foldl]. eapply sameSend_trans; [| apply IH].
  unfold failRenegotiation. eapply sameSend_trans; [apply removeRenegotiationLocked_send |]. by destruct (rn_result st).
Qed.

Lemma prune_send s now : sameSend s (pruneRenegotiationsLocked s now).2.
Proof.
  assert (Hmany : ∀ l s, sameSend s (foldl (λ s '(q, st), removeRenegotiationLocked s q st) s l)).
  { induction l as [| [x y] l IH]; intros b; [done |]. cbn [foldl]. eapply sameSend_trans; [apply removeRenegotiationLocked_send | apply IH]. }
  apply Hmany.
Qed.

(** One operation. *)
Lemma doKeyOp_send s op :
  keysOk s → keyOpOk op → let s' := doKeyOp s op in
  sameSend s s' ∨ ps_promotedKeyStateSequence s < ps_promotedKeyStateSequence s' ∧
    ∃ codec now, op = KFinish (ps_promotedKeyStateSequence s') (Ok codec) now ∧ ps_sendCodec s' = Some codec.
Proof.
  intros Hs Ho. destruct op; cbn [doKeyOp].
  - left. unfold triggerSoftReset, beginLocalSoftReset. destruct (ps_sendCodec s); [| done]. destruct (newestPending _); [done |]. apply beginSoftReset_send.
  - left. unfold handleIncomingSoftReset. destruct (ps_sendCodec s); [| done]. unfold handleIncomingSoftResetPacket. destruct (_ || _); [done |].
    pose proof (beginSoftReset_send s keyID false now). by destruct (beginSoftReset s keyID false now) as [[? | ?] s'].
  - left. unfold stageNegotiatedReceiveKey. destruct (ps_renegotiations s !! keyID); [| done]. destruct (ps_heap s !! _); [| done]. by destruct (decide _).
  - unfold finishSoftReset. destruct (ps_heap s !! sequence) as [st |] eqn:Hq; [| by left]. destruct (rn_result st) eqn:Hn; [by left |].
    destruct (k_pending s Hs sequence st Hq Hn) as [_ Hcur]. rewrite bool_decide_eq_true_2 by done. destruct outcome as [codec | err].
    + destruct (promoteKeyStateLocked s sequence st codec now) as [promoted b] eqn:Hp. cbv iota zeta.
      set (b' := match ps_heap b !! sequence with Some _ => _ | None => _ end). rewrite (surjective_pairing (pruneRenegotiationsLocked b' now)). cbn [snd].
      assert (Hb' : sameSend b b') by (subst b'; by destruct (ps_heap b !! sequence)). destruct (prune_send b' now) as [P1 P2]. destruct Hb' as [B1 B2].
      unfold promoteKeyStateLocked in Hp. destruct (Z.leb_spec sequence (ps_promotedKeyStateSequence s)) as [Hle | Hgt]; injection Hp as <- <-.
      * left. split; [by rewrite P1, B1 | by rewrite P2, B2].
      * right. apply (f_equal fst) in P2, B2. cbn [currentSendCodec fst] in P2, B2. rewrite P1, B1, P2, B2. split; [done |]. by exists codec, now.
    + left. eapply sameSend_trans; [| by instantiate (1 := removeRenegotiationLocked (setStream (discardDataKeyState s (rn_keyID st) sequence)
        (abortHandover (ps_controlStream (discardDataKeyState s (rn_keyID st) sequence)) sequence)) sequence st)].
      eapply sameSend_trans; [| apply removeRenegotiationLocked_send]. done.
  - left. unfold confirmDataKey. destruct (negb _); [done |]. destruct (ps_renegotiations s !! keyID) as [q |] eqn:Hm; [| done].
    destruct (ps_heap s !! q) as [st |] eqn:Hq; [| done]. destruct (rn_status st) eqn:Est; try done.
    exfalso. destruct (k_done s Hs q st Hq) as [E _]; [| congruence]. unfold pending. rewrite Est. by apply bool_decide_eq_true_2; right.
  - left. unfold expireKeyState. destruct (ps_heap s !! sequence); [| done]. destruct (decide _); [| done]. destruct (_ || _); [done |]. apply removeRenegotiationLocked_send.
  - by left.
  - left. unfold failAllRenegotiations. cbn [snd]. eapply sameSend_trans; [| apply failAll_send]. done.
Qed.

(** Renegotiations are numbered one after the other. *)
Lemma removeRenegotiationLocked_sequence s q st : ps_renegotiationSequence (removeRenegotiationLocked s q st) = ps_renegotiationSequence s.
Proof. unfold removeRenegotiationLocked, unregisterRenegotiationChannel. destruct (decide _); [| done]. by destruct (decide _). Qed.

Lemma removeAll_sequence l s :
  ps_renegotiationSequence (foldl (λ s '(q, st), removeRenegotiationLocked s q st) s l) = ps_renegotiationSequence s.
Proof. revert s. induction l as [| [q st] l IH]; intros s; [done |]. cbn [foldl]. by rewrite IH, removeRenegotiationLocked_sequence. Qed.

Lemma failAll_sequence err l s : ps_renegotiationSequence (foldl (failRenegotiation err) s l) = ps_renegotiationSequence s.
Proof.
  revert s. induction l as [| [q st] l IH]; intros s; [done |]. cbn [foldl]. rewrite IH. unfold failRenegotiation.
  destruct (rn_result st); apply removeRenegotiationLocked_sequence.
Qed.

Lemma promote_sequence s q st codec now : ps_renegotiationSequence (promoteKeyStateLocked s q st codec now).2 = ps_renegotiationSequence s.
Proof. unfold promoteKeyStateLocked. by destruct (_ <=? _). Qed.

Lemma beginSoftReset_sequence s keyID initiator now :
  let s' := (beginSoftReset s keyID initiator now).2 in
  ps_renegotiationSequence s' = ps_renegotiationSequence s ∨ ps_renegotiationSequence s' = ps_renegotiationSequence s + 1.
Proof.
  assert (Hnew : ∀ s, ps_renegotiationSequence (newRenegotiation s keyID initiator now).2 = ps_renegotiationSequence s + 1).
  { intros b. unfold newRenegotiation, registerRenegotiationChannel. destruct (_ || _); [done |]. by destruct (ps_channels _ !! keyID). }
  unfold beginSoftReset. destruct (_ || _); [by left |]. destruct (ps_renegotiationsClosed s); [by left |].
  destruct (_ ≫= _) as [[q st] |]; [| right; apply Hnew]. destruct (_ || _); [by left |]. right. by rewrite Hnew, removeRenegotiationLocked_sequence.
Qed.

Lemma confirmDataKey_sequence s keyID now : ps_renegotiationSequence (confirmDataKey s keyID now).2 = ps_renegotiationSequence s.
Proof.
  unfold confirmDataKey. destruct (negb _); [done |]. destruct (ps_renegotiations s !! keyID); [| done]. destruct (ps_heap s !! _) as [st |]; [| done].
  destruct (rn_status st); try done. destruct (receiveDataCodec _ _ _) as [codec |]; [| done].
  match goal with |- context [promoteKeyStateLocked ?b ?q ?st ?c ?n] => pose proof (promote_sequence b q st c n) as E; destruct (promoteKeyStateLocked b q st c n) as [promoted b'] end.
  rewrite (surjective_pairing (pruneRenegotiationsLocked _ now)). cbn [snd] in *. unfold pruneRenegotiationsLocked. cbn [snd]. by rewrite removeAll_sequence.
Qed.

Lemma doKeyOp_sequence s op :
  let s' := doKeyOp s op in ps_renegotiationSequence s' = ps_renegotiationSequence s ∨ ps_renegotiationSequence s' = ps_renegotiationSequence s + 1.
Proof.
  destruct op; cbn [doKeyOp].
  - unfold triggerSoftReset, beginLocalSoftReset. destruct (ps_sendCodec s); [| by left]. destruct (newestPending _); [by left |]. apply beginSoftReset_sequence.
  - unfold handleIncomingSoftReset. destruct (ps_sendCodec s); [| by left]. unfold handleIncomingSoftResetPacket. destruct (_ || _); [by left |].
    pose proof (beginSoftReset_sequence s keyID false now). by destruct (beginSoftReset s keyID false now) as [[? | ?] s'].
  - left. unfold stageNegotiatedReceiveKey. destruct (ps_renegotiations s !! keyID); [| done]. destruct (ps_heap s !! _); [| done]. by destruct (decide _).
  - left. unfold finishSoftReset. destruct (ps_heap s !! sequence) as [st |]; [| done]. destruct (rn_result st); [done |]. destruct outcome as [codec | err]; case_bool_decide; try done.
    + pose proof (promote_sequence s sequence st codec now) as E. destruct (promoteKeyStateLocked s sequence st codec now) as [promoted b].
      rewrite (surjective_pairing (pruneRenegotiationsLocked _ now)). cbn [snd] in *. unfold pruneRenegotiationsLocked. cbn [snd]. rewrite removeAll_sequence.
      by destruct (ps_heap b !! sequence).
    + cbn. by rewrite removeRenegotiationLocked_sequence.
  - left. apply confirmDataKey_sequence.
  - left. unfold expireKeyState. destruct (ps_heap s !! sequence); [| done]. destruct (decide _); [| done]. destruct (_ || _); [done |]. apply removeRenegotiationLocked_sequence.
  - by left.
  - left. unfold failAllRenegotiations. cbn [snd]. by rewrite failAll_sequence.
Qed.

End Keys.

(** ** The budget of a key ([renegotiation.go]) *)

Definition ErrRenegotiationRequired : goerr := ErrNew "data channel reached renegotiation threshold".
Definition packetIDWrapTrigger : Z := 4278190080.
Definition sweet32CipherRenegotiationBytesClamp : Z := 64 * 1024 * 1024.
Definition aesGCMUsageLimit : Z := (2 ^ 36 - 1) / 8 * 7.

Record dataRenegotiationDirectionUsage := mkUsage { du_highestPacketID : Z; du_plaintextBlocks : Z }.

Definition noUsage : dataRenegotiationDirectionUsage := mkUsage 0 0.

Record dataRenegotiationBudget := mkBudget {
  bu_bytesLimit : Z;
  bu_packetsLimit : Z;
  bu_aeadUsageLimit : Z;
  bu_activeKeyID : Z;
  bu_bytesTransferred : Z;
  bu_packetsTransferred : Z;
  bu_sendUsage : dataRenegotiationDirectionUsage;
  bu_receiveUsage : dataRenegotiationDirectionUsage;
}.

#[export] Instance eta_dataRenegotiationBudget : Eta dataRenegotiationBudget := λ b,
  mkBudget (bu_bytesLimit b) (bu_packetsLimit b) (bu_aeadUsageLimit b) (bu_activeKeyID b) (bu_bytesTransferred b) (bu_packetsTransferred b)
  (bu_sendUsage b) (bu_receiveUsage b).

Inductive dataRenegotiationDirection := dataRenegotiationDirectionSend | dataRenegotiationDirectionReceive.

Definition sweet32VulnerableCipherNames : list string :=
  ["BF-CBC"; "BF-CFB"; "BF-OFB"; "CAST5-CBC"; "CAST5-CFB"; "CAST5-OFB"; "DES-CBC"; "DES-CFB"; "DES-OFB"; "DES-EDE-CBC"; "DES-EDE-CFB";
   "DES-EDE-OFB"; "DES-EDE3-CBC"; "DES-EDE3-CFB"; "DES-EDE3-OFB"; "RC2-CBC"; "RC2-40-CBC"; "RC2-64-CBC"].

Definition newDataRenegotiationBudget (cipherName : string) (configuredBytes configuredPackets activeKeyID : Z) : dataRenegotiationBudget :=
  let normalizedCipherName := ToUpper (TrimSpace cipherName) in
  let bytesLimit :=
    if (configuredBytes =? 0) && bool_decide (normalizedCipherName ∈ sweet32VulnerableCipherNames)
    then sweet32CipherRenegotiationBytesClamp else configuredBytes in
  mkBudget bytesLimit configuredPackets
    (if decide (normalizedCipherName ∈ ["AES-128-GCM"; "AES-192-GCM"; "AES-256-GCM"]) then aesGCMUsageLimit else 0)
    activeKeyID 0 0 noUsage noUsage.

(** Whether a renegotiation is required, and the budget. *)
Definition consumeTransfer (b : dataRenegotiationBudget) (keyID accountedBytes : Z) : option goerr * dataRenegotiationBudget :=
  if negb (keyID =? bu_activeKeyID b) then (None, b) else
  let b := if 0 <? accountedBytes then b <| bu_bytesTransferred := u64 (bu_bytesTransferred b + accountedBytes) |> else b in
  let b := b <| bu_packetsTransferred := u64 (bu_packetsTransferred b + 1) |> in
  if (0 <? bu_bytesLimit b) && (bu_bytesLimit b <=? bu_bytesTransferred b) then (Some ErrRenegotiationRequired, b) else
  if (0 <? bu_packetsLimit b) && (bu_packetsLimit b <=? bu_packetsTransferred b) then (Some ErrRenegotiationRequired, b) else (None, b).

Definition useBlocks (usage : dataRenegotiationDirectionUsage) (packetID aeadBlockBytes : Z) : dataRenegotiationDirectionUsage :=
  mkUsage (if du_highestPacketID usage <? packetID then packetID else du_highestPacketID usage)
    (if 0 <? aeadBlockBytes then u64 (du_plaintextBlocks usage + u64 (aeadBlockBytes + 15) / 16) else du_plaintextBlocks usage).

Definition consumeUsage (b : dataRenegotiationBudget) (keyID : Z) (direction : dataRenegotiationDirection) (packetID aeadBlockBytes : Z)
    : option goerr * dataRenegotiationBudget :=
  if negb (keyID =? bu_activeKeyID b) then (None, b) else
  let usage := match direction with dataRenegotiationDirectionSend => bu_sendUsage b | dataRenegotiationDirectionReceive => bu_receiveUsage b end in
  let usage := useBlocks usage packetID aeadBlockBytes in
  let b := match direction with
    | dataRenegotiationDirectionSend => b <| bu_sendUsage := usage |>
    | dataRenegotiationDirectionReceive => b <| bu_receiveUsage := usage |>
    end in
  let sends := match direction with dataRenegotiationDirectionSend => true | dataRenegotiationDirectionReceive => false end in
  if sends && (packetIDWrapTrigger <=? packetID) then (Some ErrRenegotiationRequired, b) else
  if (0 <? bu_aeadUsageLimit b) && (bu_aeadUsageLimit b <? u64 (du_plaintextBlocks usage + du_highestPacketID usage))
  then (Some ErrRenegotiationRequired, b) else (None, b).

Definition reset (b : dataRenegotiationBudget) (activeKeyID : Z) : dataRenegotiationBudget :=
  b <| bu_activeKeyID := activeKeyID |> <| bu_bytesTransferred := 0 |> <| bu_packetsTransferred := 0 |>
    <| bu_sendUsage := noUsage |> <| bu_receiveUsage := noUsage |>.

(** Packets that are sent with a key: ids and lengths. *)
Fixpoint consumeAll (b : dataRenegotiationBudget) (keyID : Z) (packets : list (Z * Z)) : list (option goerr) * dataRenegotiationBudget :=
  match packets with
  | [] => ([], b)
  | (packetID, n) :: packets =>
      let '(r, b) := consumeUsage b keyID dataRenegotiationDirectionSend packetID n in
      let '(rs, b) := consumeAll b keyID packets in (r :: rs, b)
  end.

(** The blocks of sixteen octets that the cipher processes. *)
Definition blocksOf (packets : list (Z * Z)) : Z := foldr (λ '(_, n) sum, (n + 15) / 16 + sum) 0 packets.

Definition usageOk (b : dataRenegotiationBudget) : Prop :=
  0 < bu_aeadUsageLimit b < 2 ^ 40 ∧ 0 ≤ du_highestPacketID (bu_sendUsage b) < 2 ^ 32 ∧ 0 ≤ du_plaintextBlocks (bu_sendUsage b) ∧
  du_plaintextBlocks (bu_sendUsage b) + du_highestPacketID (bu_sendUsage b) ≤ bu_aeadUsageLimit b.

(** A packet that is let through. *)
Lemma consumeUsage_accepts b packetID n b' :
  usageOk b → 0 ≤ packetID < 2 ^ 32 → 0 ≤ n ≤ 65535 →
  consumeUsage b (bu_activeKeyID b) dataRenegotiationDirectionSend packetID n = (None, b') →
  usageOk b' ∧ bu_activeKeyID b' = bu_activeKeyID b ∧ bu_aeadUsageLimit b' = bu_aeadUsageLimit b ∧
  du_plaintextBlocks (bu_sendUsage b') = du_plaintextBlocks (bu_sendUsage b) + (n + 15) / 16 ∧
  du_highestPacketID (bu_sendUsage b') = Z.max (du_highestPacketID (bu_sendUsage b)) packetID ∧ packetID < packetIDWrapTrigger.
Proof.
  intros (Hl & Hh & Hb & Hs) Hid Hn. unfold consumeUsage. rewrite Z.eqb_refl. cbn [negb andb].
  set (usage := useBlocks (bu_sendUsage b) packetID n).
  assert (Eh : du_highestPacketID usage = Z.max (du_highestPacketID (bu_sendUsage b)) packetID).
  { unfold usage, useBlocks. cbn. destruct (Z.ltb_spec (du_highestPacketID (bu_sendUsage b)) packetID); lia. }
  assert (Eb : du_plaintextBlocks usage = du_plaintextBlocks (bu_sendUsage b) + (n + 15) / 16).
  { unfold usage, useBlocks. cbn. destruct (Z.ltb_spec 0 n).
    - assert (0 ≤ (n + 15) / 16 ≤ 4097) by (split; [apply Z.div_pos | apply Z.div_le_upper_bound]; lia).
      rewrite !u64_small by (rewrite ?u64_small by lia; lia). done.
    - replace n with 0 by lia. change ((0 + 15) / 16) with 0. lia. }
  assert (Hn16 : 0 ≤ (n + 15) / 16 ≤ 4097) by (split; [apply Z.div_pos | apply Z.div_le_upper_bound]; lia).
  destruct (Z.leb_spec packetIDWrapTrigger packetID) as [| Hw]; [done |].
  cbn -[usage]. rewrite (proj2 (Z.ltb_lt 0 _)) by lia. cbn [andb].
  assert (Eu : u64 (du_plaintextBlocks usage + du_highestPacketID usage) = du_plaintextBlocks usage + du_highestPacketID usage).
  { apply u64_small. rewrite Eh, Eb. lia. }
  rewrite Eu. destruct (Z.ltb_spec (bu_aeadUsageLimit b) (du_plaintextBlocks usage + du_highestPacketID usage)); [done |].
  intros [= <-]. unfold usageOk. cbn -[usage]. rewrite Eh, Eb in *. split_and!; try done; lia.
Qed.

Lemma consumeAll_accepts packets : ∀ b,
  usageOk b → Forall (λ '(packetID, n), 0 ≤ packetID < 2 ^ 32 ∧ 0 ≤ n ≤ 65535) packets →
  Forall (λ r, r = None) (consumeAll b (bu_activeKeyID b) packets).1 →
  let b' := (consumeAll b (bu_activeKeyID b) packets).2 in
  usageOk b' ∧ bu_aeadUsageLimit b' = bu_aeadUsageLimit b ∧
  du_plaintextBlocks (bu_sendUsage b') = du_plaintextBlocks (bu_sendUsage b) + blocksOf packets ∧
  du_highestPacketID (bu_sendUsage b) ≤ du_highestPacketID (bu_sendUsage b') ∧
  Forall (λ '(packetID, _), packetID ≤ du_highestPacketID (bu_sendUsage b') ∧ packetID < packetIDWrapTrigger) packets.
Proof.
  induction packets as [| [packetID n] packets IH]; intros b Hb Hp.
  { intros _. unfold blocksOf. cbn. split_and!; [done | done | lia | lia | constructor]. }
  apply Forall_cons in Hp as [[Hid Hn] Hp]. cbn [consumeAll].
  destruct (consumeUsage b (bu_activeKeyID b) dataRenegotiationDirectionSend packetID n) as [r c] eqn:Hc.
  rewrite (surjective_pairing (consumeAll c (bu_activeKeyID b) packets)). cbn [fst snd]. intros [-> Hr]%Forall_cons.
  destruct (consumeUsage_accepts b packetID n c Hb Hid Hn Hc) as (C1 & C2 & C3 & C4 & C5 & C6).
  rewrite <- C2 in *. destruct (IH c C1 Hp Hr) as (I1 & I2 & I3 & I4 & I5). unfold blocksOf in *. cbn [foldr].
  split_and!; [done | congruence | lia | lia | constructor; [lia | done]].
Qed.

(** C23: the limits on a key are kept: when none of the packets that were sent with
    an AES-GCM key asked for a renegotiation, then the blocks that were encrypted
    and any packet id together stay within 7/8 of 2^36 - 1, with no overflow of
    the counters, and no packet id came near the end of its 32 bits. *)
Theorem key_usage_bounded name bytes count keyID packets :
  name ∈ ["AES-128-GCM"; "AES-192-GCM"; "AES-256-GCM"] → Forall (λ '(packetID, n), 0 ≤ packetID < 2 ^ 32 ∧ 0 ≤ n ≤ 65535) packets →
  Forall (λ r, r = None) (consumeAll (newDataRenegotiationBudget name bytes count keyID) keyID packets).1 →
  Forall (λ '(packetID, _), blocksOf packets + packetID ≤ aesGCMUsageLimit ∧ packetID < packetIDWrapTrigger) packets.
Proof.
  intros Hname Hp Hr. set (b := newDataRenegotiationBudget name bytes count keyID) in *.
  assert (Hl : bu_aeadUsageLimit b = aesGCMUsageLimit).
  { repeat (apply elem_of_cons in Hname as [-> | Hname]; [vm_compute; reflexivity |]). by apply not_elem_of_nil in Hname. }
  assert (Hb : usageOk b) by (unfold usageOk; rewrite Hl; vm_compute; intuition congruence).
  change keyID with (bu_activeKeyID b) in Hr. destruct (consumeAll_accepts packets b Hb Hp Hr) as ((_ & I1 & _ & I2) & I3 & I4 & _ & I5).
  rewrite I3, Hl, I4 in I2. change (du_plaintextBlocks (bu_sendUsage b)) with 0 in I2.
  eapply Forall_impl; [exact I5 |]. intros [packetID n] [J1 J2]. split; [lia | done].
Qed.

Lemma key_usage_bounded_witness :
  Forall (λ '(packetID, _), blocksOf [(1, 1400); (2, 20)] + packetID ≤ aesGCMUsageLimit ∧ packetID < packetIDWrapTrigger) [(1, 1400); (2, 20)].
Proof. apply (key_usage_bounded "AES-256-GCM" 0 0 0); apply (bool_decide_unpack _); vm_compute; done. Defined.

(** ** Witnesses *)

Definition sampleKeyOps : list (keyOp (C := nat)) := [KSoftReset 1 Second; KStage 1 7%nat Second].

Lemma key_states_consistent_witness : keysOk (doKeyOps (startedSession tlsRoleServer (60 * Second) 5%nat) sampleKeyOps).
Proof. apply (key_states_consistent tlsRoleServer (60 * Second) 5%nat sampleKeyOps). repeat constructor; cbn; lia. Defined.

Lemma control_stream_available_witness :
  let s := doKeyOps (startedSession tlsRoleClient (60 * Second) 5%nat) [KTrigger Second; KFinish 1 (Ok 6%nat) (2 * Second)] in
  (snapshot (ps_controlStream s)).1 = Some (1, 1).
Proof.
  intros s. destruct (control_stream_available tlsRoleClient (60 * Second) 5%nat [KTrigger Second; KFinish 1 (Ok 6%nat) (2 * Second)]) as [H _];
    [repeat constructor |].
  assert (Hall : map_Forall (λ _ st, is_Some (rn_result st)) (ps_heap s)) by (apply (bool_decide_unpack _); vm_compute; done).
  apply H. intros q st Hq. destruct (Hall q st Hq) as [r Hr]. congruence.
Defined.

Lemma key_change_without_gap_witness :
  let s := doKeyOps (startedSession tlsRoleServer (60 * Second) 5%nat) sampleKeyOps in
  (selectReceiveCodec (doKeyOp s (KFinish 1 (Ok 7%nat) (2 * Second))) 0 (60 * Second)).1 = Some 5%nat.
Proof.
  intros s. refine (proj2 (proj2 (proj2 (key_change_without_gap tlsRoleServer (60 * Second) 5%nat sampleKeyOps 1
    (mkReneg 1 false (61 * Second) tlsRenegotiationNegotiating 0 false None) 7%nat 5%nat (2 * Second) _ _ _ _ _ _ _ _))) (60 * Second) _).
  - repeat constructor; cbn; lia.
  - by vm_compute.
  - done.
  - by vm_compute.
  - by vm_compute.
  - done.
  - by vm_compute; left.
  - intros z Hz. vm_compute in Hz. repeat (apply elem_of_cons in Hz as [-> | Hz]; [by vm_compute; auto |]). by apply not_elem_of_nil in Hz.
  - split; [by vm_compute | by vm_compute].
Defined.
