(* ===== verification/DataQueue.v ===== *)
(** * Packet queues and messages that wake a reader ([data_queue.go], the sender of
      [keepalive.go])

    The queue is a ring buffer of a fixed capacity whose unused slots are cleared.
    Its specification is a list.  The channel [wake] holds one token; the parts of
    the methods that hold the lock are transitions and so is each [signal], so that
    readers and writers interleave between the two. *)

From S2P Require Import Prelude.

Definition dataPacketBatchSize : nat := 64.
Definition dataPacketQueueCapacity : nat := 512.

Section Queue.
Context {T : Type} (zero : T).

Record dataPacketQueue := mkQueue {
  q_items : list T;
  q_head : nat;
  q_length : nat;
  q_wake : bool;
}.

#[export] Instance eta_dataPacketQueue : Eta dataPacketQueue := λ q, mkQueue (q_items q) (q_head q) (q_length q) (q_wake q).

Definition newDataPacketQueueWithCapacity (capacity : nat) : dataPacketQueue := mkQueue (replicate capacity zero) 0 0 false.

Definition signal (q : dataPacketQueue) : dataPacketQueue := q <| q_wake := true |>.

Definition capacity (q : dataPacketQueue) : nat := length (q_items q).

(** A slot of the ring; [None] is Go's panic for an index out of range. *)
Definition slot (items : list T) (i : nat) : option nat := let index := (i `mod` length items)%nat in if (index <? length items)%nat then Some index else None.

(** The oldest item leaves. *)
Definition dropHead (q : dataPacketQueue) : option (T * dataPacketQueue) :=
  item ← q_items q !! q_head q;
  head ← slot (q_items q) (q_head q + 1);
  Some (item, q <| q_items := <[q_head q := zero]> (q_items q) |> <| q_head := head |> <| q_length := (q_length q - 1)%nat |>).

(** An item is put behind the last. *)
Definition putTail (q : dataPacketQueue) (item : T) : option dataPacketQueue :=
  tail ← slot (q_items q) (q_head q + q_length q);
  Some (q <| q_items := <[tail := item]> (q_items q) |> <| q_length := S (q_length q) |>).

(** The loop of [PushBatch]: the items that were dropped. *)
Fixpoint pushLoop (q : dataPacketQueue) (items : list T) : option (list T * dataPacketQueue) :=
  match items with
  | [] => Some ([], q)
  | item :: items =>
      '(dropped, q) ← (if (q_length q =? capacity q)%nat then '(x, q) ← dropHead q; Some ([x], q) else Some ([], q));
      q ← putTail q item;
      '(dropped', q) ← pushLoop q items;
      Some (dropped ++ dropped', q)
  end.

(** The part that holds the lock, the items that are released, and whether the
    reader is to be signalled. *)
Definition pushBatchLocked (q : dataPacketQueue) (items : list T) : option (list T * bool * dataPacketQueue) :=
  '(dropped, q') ← pushLoop q items; Some (dropped, (q_length q =? 0)%nat, q').

Definition PushBatch (q : dataPacketQueue) (items : list T) : option (list T * dataPacketQueue) :=
  match items with
  | [] => Some ([], q)
  | _ => '(dropped, wasEmpty, q) ← pushBatchLocked q items; Some (dropped, if wasEmpty : bool then signal q else q)
  end.

Fixpoint putLoop (q : dataPacketQueue) (items : list T) : option dataPacketQueue :=
  match items with
  | [] => Some q
  | item :: items => q ← putTail q item; putLoop q items
  end.

Definition pushBatchDropNewLocked (q : dataPacketQueue) (items : list T) : option (list T * bool * dataPacketQueue) :=
  let acceptedCount := (length items `min` (capacity q - q_length q))%nat in
  q' ← putLoop q (take acceptedCount items);
  Some (drop acceptedCount items, (q_length q =? 0)%nat && (0 <? acceptedCount)%nat, q').

Definition PushBatchDropNew (q : dataPacketQueue) (items : list T) : option (list T * dataPacketQueue) :=
  match items with
  | [] => Some ([], q)
  | _ => '(dropped, wake, q) ← pushBatchDropNewLocked q items; Some (dropped, if wake : bool then signal q else q)
  end.

(** The length of the run of items that belong with the first: [i] is the loop's
    variable and [n] the rounds that are left. *)
Fixpoint runLoop (items : list T) (head : nat) (sameRun : T → T → bool) (first : T) (i n : nat) : option nat :=
  match n with
  | O => Some i
  | S n =>
      index ← slot items (head + i);
      item ← items !! index;
      if sameRun first item then runLoop items head sameRun first (S i) n else Some i
  end.

Fixpoint popLoop (items : list T) (head i n : nat) : option (list T * list T) :=
  match n with
  | O => Some ([], items)
  | S n =>
      index ← slot items (head + i);
      item ← items !! index;
      '(popped, items) ← popLoop (<[index := zero]> items) head (S i) n;
      Some (item :: popped, items)
  end.

(** How many items are taken. *)
Definition popCount (q : dataPacketQueue) (max : nat) (sameRun : option (T → T → bool)) : option nat :=
  let count := if (0 <? max)%nat then (q_length q `min` max)%nat else q_length q in
  match sameRun with
  | Some sameRun => if (1 <? count)%nat then first ← q_items q !! q_head q; runLoop (q_items q) (q_head q) sameRun first 1 (count - 1) else Some count
  | None => Some count
  end.

Definition popLocked (q : dataPacketQueue) (max : nat) (sameRun : option (T → T → bool)) : option (list T * bool * dataPacketQueue) :=
  count ← popCount q max sameRun;
  if (count =? 0)%nat then Some ([], false, q) else
  '(popped, items) ← popLoop (q_items q) (q_head q) 0 count;
  head ← slot (q_items q) (q_head q + count);
  let q := q <| q_items := items |> <| q_head := head |> <| q_length := (q_length q - count)%nat |> in
  Some (popped, (0 <? q_length q)%nat, q).

Definition Pop (q : dataPacketQueue) (max : nat) (sameRun : option (T → T → bool)) : option (list T * dataPacketQueue) :=
  '(popped, hasMore, q) ← popLocked q max sameRun; Some (popped, if hasMore : bool then signal q else q).

(** What is released. *)
Definition Drain (q : dataPacketQueue) : option (list T * dataPacketQueue) := Pop q 0 None.

(** ** The specification *)

(** The ring holds the list [l], oldest first, and its other slots are clear. *)
Record queueRep (q : dataPacketQueue) (l : list T) : Prop := {
  qr_head : (q_head q < capacity q)%nat;
  qr_length : q_length q = length l;
  qr_fits : (length l ≤ capacity q)%nat;
  qr_slots : ∀ i, (i < capacity q)%nat → q_items q !! ((q_head q + i) `mod` capacity q)%nat = Some (default zero (l !! i));
}.

Lemma newDataPacketQueueWithCapacity_rep n : (0 < n)%nat → queueRep (newDataPacketQueueWithCapacity n) [].
Proof.
  intros Hn. constructor; unfold capacity; cbn; rewrite ?length_replicate; try lia. intros i Hi.
  apply lookup_replicate_2. apply Nat.mod_upper_bound. lia.
Qed.

Lemma slot_some items i : (0 < length items)%nat → slot items i = Some (i `mod` length items)%nat.
Proof. intros H. unfold slot. cbv zeta. by rewrite (proj2 (Nat.ltb_lt _ _)) by (apply Nat.mod_upper_bound; lia). Qed.

Lemma mod_succ_swap h i n : (0 < n)%nat → (((h + 1) `mod` n + i) `mod` n = (h + S i) `mod` n)%nat.
Proof. intros H. rewrite Nat.Div0.add_mod_idemp_l. f_equal. lia. Qed.

Lemma mod_inj h i j n : (h < n → i < n → j < n → (h + i) `mod` n = (h + j) `mod` n → i = j)%nat.
Proof.
  intros Hh Hi Hj H. pose proof (Nat.div_mod_eq (h + i) n) as E1. pose proof (Nat.div_mod_eq (h + j) n) as E2.
  assert ((h + i) `div` n ≤ 1)%nat by (apply Nat.lt_succ_r, Nat.Div0.div_lt_upper_bound; lia).
  assert ((h + j) `div` n ≤ 1)%nat by (apply Nat.lt_succ_r, Nat.Div0.div_lt_upper_bound; lia).
  destruct ((h + i) `div` n)%nat as [| [| ?]], ((h + j) `div` n)%nat as [| [| ?]]; lia.
Qed.

Lemma dropHead_rep q x l :
  queueRep q (x :: l) → ∃ q', dropHead q = Some (x, q') ∧ queueRep q' l ∧ capacity q' = capacity q ∧ q_wake q' = q_wake q.
Proof.
  intros [Hh Hl Hf Hs]. unfold dropHead. unfold capacity in Hh, Hf, Hs.
  pose proof (Hs 0%nat ltac:(lia)) as H0. rewrite Nat.add_0_r, Nat.mod_small in H0 by done. rewrite H0. cbn [mbind option_bind].
  rewrite slot_some by lia. cbn [mbind option_bind]. eexists. split; [done |]. unfold capacity. cbn. rewrite length_insert.
  split; [| done]. cbn in Hl, Hf. constructor; unfold capacity; cbn; rewrite ?length_insert; [apply Nat.mod_upper_bound; lia | lia | lia |].
  intros i Hi. rewrite mod_succ_swap by lia. destruct (decide (S i < length (q_items q))%nat) as [Hlt | Hge].
  - rewrite list_lookup_insert_ne; [by apply (Hs (S i)) |]. intros E. rewrite <- (Nat.mod_small (q_head q) (length (q_items q))) in E at 1 by done.
    rewrite <- (Nat.add_0_r (q_head q)) in E at 1. apply mod_inj in E; lia.
  - assert (S i = length (q_items q)) as -> by lia. replace (q_head q + length (q_items q))%nat with (q_head q + 1 * length (q_items q))%nat by lia.
    rewrite Nat.Div0.mod_add, Nat.mod_small, list_lookup_insert_eq by done. rewrite lookup_ge_None_2 by lia. done.
Qed.

Lemma putTail_rep q l x :
  queueRep q l → (length l < capacity q)%nat →
  ∃ q', putTail q x = Some q' ∧ queueRep q' (l ++ [x]) ∧ capacity q' = capacity q ∧ q_wake q' = q_wake q.
Proof.
  intros [Hh Hl Hf Hs] Hlt. unfold putTail. unfold capacity in *. rewrite slot_some by lia. cbn [mbind option_bind]. eexists. split; [done |].
  unfold capacity. cbn. rewrite length_insert. split; [| done].
  constructor; unfold capacity; cbn; rewrite ?length_insert, ?length_app; [done | cbn; lia | cbn; lia |].
  intros i Hi. rewrite Hl. destruct (decide (i = length l)) as [-> | Hne].
  - rewrite list_lookup_insert_eq by (apply Nat.mod_upper_bound; lia). by rewrite list_lookup_middle.
  - rewrite list_lookup_insert_ne by (intros E; apply mod_inj in E; lia). rewrite (Hs i Hi). f_equal. f_equal.
    destruct (decide (i < length l)%nat); [by rewrite lookup_app_l |]. rewrite !lookup_ge_None_2; [done | rewrite length_app; cbn; lia | lia].
Qed.

Lemma putLoop_rep items : ∀ q l,
  queueRep q l → (length l + length items ≤ capacity q)%nat →
  ∃ q', putLoop q items = Some q' ∧ queueRep q' (l ++ items) ∧ capacity q' = capacity q ∧ q_wake q' = q_wake q.
Proof.
  induction items as [| x items IH]; intros q l Hq Hc; cbn [putLoop length] in *; [exists q; by rewrite app_nil_r |].
  destruct (putTail_rep q l x Hq ltac:(lia)) as (q1 & -> & H1 & C1 & W1). cbn [mbind option_bind].
  destruct (IH q1 (l ++ [x]) H1 ltac:(rewrite length_app, C1; cbn; lia)) as (q2 & -> & H2 & C2 & W2).
  exists q2. rewrite <- app_assoc in H2. split_and!; [done | done | congruence | congruence].
Qed.

(** What does not fit is taken from the front. *)
Lemma pushLoop_rep items : ∀ q l,
  queueRep q l →
  ∃ q', let excess := (length l + length items - capacity q)%nat in
    pushLoop q items = Some (take excess (l ++ items), q') ∧ queueRep q' (drop excess (l ++ items)) ∧
    capacity q' = capacity q ∧ q_wake q' = q_wake q.
Proof.
  induction items as [| x items IH]; intros q l Hq; cbn [pushLoop length].
  { exists q. pose proof (qr_fits q l Hq). cbv zeta. rewrite app_nil_r. replace (_ - _)%nat with 0%nat by lia. done. }
  pose proof (qr_fits q l Hq) as Hf. pose proof (qr_head q l Hq) as Hh. rewrite (qr_length q l Hq). destruct (Nat.eqb_spec (length l) (capacity q)) as [E | E].
  - destruct l as [| y l]; [cbn in E; lia |]. destruct (dropHead_rep q y l Hq) as (q1 & -> & H1 & C1 & W1). cbn [mbind option_bind].
    cbn [length] in E. destruct (putTail_rep q1 l x H1 ltac:(lia)) as (q2 & -> & H2 & C2 & W2). cbn [mbind option_bind].
    destruct (IH q2 (l ++ [x]) H2) as (q3 & Hp & H3 & C3 & W3). rewrite Hp. cbn [mbind option_bind]. exists q3. cbv zeta.
    rewrite C2, C1, length_app in *. cbn [length] in *. rewrite <- app_assoc in *. cbn [app] in *.
    replace (S (length l) + S (length items) - capacity q)%nat with (S (length l + 1 + length items - capacity q)) by lia. cbn [take drop app].
    split_and!; [done | done | congruence | congruence].
  - cbn [mbind option_bind]. destruct (putTail_rep q l x Hq ltac:(lia)) as (q2 & -> & H2 & C2 & W2). cbn [mbind option_bind].
    destruct (IH q2 (l ++ [x]) H2) as (q3 & Hp & H3 & C3 & W3). rewrite Hp. cbn [mbind option_bind app]. exists q3. cbv zeta.
    rewrite C2, length_app in *. cbn [length] in *. rewrite <- app_assoc in *. cbn [app] in *.
    replace (length l + S (length items) - capacity q)%nat with (length l + 1 + length items - capacity q)%nat by lia.
    split_and!; [done | done | congruence | congruence].
Qed.

(** The items that belong with the first. *)
Fixpoint takeWhile (f : T → bool) (l : list T) : list T := match l with [] => [] | x :: l => if f x then x :: takeWhile f l else [] end.

(** What [Pop] returns from a queue that holds [l]. *)
Definition batch (l : list T) (max : nat) (sameRun : option (T → T → bool)) : list T :=
  let l := if (0 <? max)%nat then take max l else l in
  match sameRun, l with
  | Some f, x :: l => x :: takeWhile (f x) l
  | _, _ => l
  end.

Lemma takeWhile_prefix f l : take (length (takeWhile f l)) l = takeWhile f l.
Proof. induction l as [| x l IH]; [done |]. cbn. destruct (f x); [cbn; by rewrite IH | done]. Qed.

Lemma batch_prefix l max sameRun : take (length (batch l max sameRun)) l = batch l max sameRun.
Proof.
  assert (Hp : take (length (if (0 <? max)%nat then take max l else l)) l = if (0 <? max)%nat then take max l else l).
  { destruct (0 <? max)%nat; [| by apply take_ge]. rewrite length_take. destruct (Nat.le_ge_cases max (length l)).
    - by rewrite Nat.min_l. - rewrite Nat.min_r by done. rewrite !take_ge by lia. done. }
  unfold batch. cbv zeta. set (m := if (0 <? max)%nat then take max l else l) in *. destruct sameRun as [f |]; [| done].
  destruct m as [| x m]; [done |]. destruct l as [| y l]; [done |]. cbn [length take] in *. injection Hp as -> Hp. f_equal.
  etransitivity; [| apply takeWhile_prefix]. pose proof (takeWhile_prefix (f x) m) as Ht. apply (f_equal length) in Ht. rewrite length_take in Ht.
  set (k := length (takeWhile (f x) m)) in *. rewrite <- (Nat.min_l k (length m)) at 1 by lia. by rewrite <- take_take, Hp.
Qed.

Lemma runLoop_spec q l f first n : ∀ i,
  queueRep q l → (i + n ≤ length l)%nat → (1 ≤ i)%nat →
  runLoop (q_items q) (q_head q) f first i n = Some (i + length (takeWhile (f first) (take n (drop i l))))%nat.
Proof.
  induction n as [| n IH]; intros i Hq Hn Hi; [cbn [runLoop take takeWhile length]; by rewrite Nat.add_0_r |].
  cbn [runLoop]. pose proof (qr_head q l Hq) as Hh. pose proof (qr_fits q l Hq) as Hf. pose proof (qr_slots q l Hq i ltac:(lia)) as Hs.
  unfold capacity in *. rewrite slot_some by lia. cbn [mbind option_bind]. rewrite Hs. cbn [mbind option_bind].
  destruct (lookup_lt_is_Some_2 l i ltac:(lia)) as [x Hx]. rewrite (drop_S l x i Hx), Hx. cbn [default take takeWhile]. change (id x) with x. destruct (f first x).
  - rewrite IH by (try done; lia). cbn [length]. f_equal. lia.
  - cbn [length]. by rewrite Nat.add_0_r.
Qed.

Lemma popCount_spec q l max sameRun : queueRep q l → popCount q max sameRun = Some (length (batch l max sameRun)).
Proof.
  intros Hq. unfold popCount, batch. rewrite (qr_length q l Hq). cbv zeta.
  assert (Hc : (if (0 <? max)%nat then (length l `min` max)%nat else length l) = length (if (0 <? max)%nat then take max l else l)).
  { destruct (0 <? max)%nat; [rewrite length_take; lia | done]. }
  rewrite Hc. destruct sameRun as [f |]; [| done]. set (m := if (0 <? max)%nat then take max l else l) in *.
  assert (Hm : m = take (length m) l).
  { subst m. destruct (0 <? max)%nat; [| by rewrite take_ge]. rewrite length_take. destruct (Nat.le_ge_cases max (length l)).
    - by rewrite Nat.min_l. - rewrite Nat.min_r by done. rewrite !take_ge by lia. done. }
  clear Hc. clearbody m. destruct m as [| x m]; [done |]. destruct l as [| y l]; [done |]. cbn [length take] in Hm. injection Hm as -> Hm.
  pose proof (qr_slots q _ Hq 0%nat ltac:(pose proof (qr_head q _ Hq); lia)) as H0. pose proof (qr_head q _ Hq) as Hh.
  rewrite Nat.add_0_r, Nat.mod_small in H0 by done. cbn [lookup list_lookup default] in H0. rewrite H0. cbn [mbind option_bind].
  assert (Hlen : (length m ≤ length l)%nat) by (rewrite Hm, length_take; lia).
  destruct m as [| z m].
  - done.
  - cbn [length]. cbn [Nat.ltb Nat.leb]. rewrite (runLoop_spec q (y :: l) f y _ 1 Hq) by (cbn [length] in *; lia). cbn [drop].
    rewrite drop_0. replace (S (S (length m)) - 1)%nat with (length (z :: m)) by (cbn; lia). by rewrite <- Hm.
Qed.

Lemma popLoop_spec q0 n : ∀ q l i,
  queueRep q l → (n ≤ length l)%nat → q_head q = ((q_head q0 + i) `mod` capacity q)%nat →
  ∃ items, popLoop (q_items q) (q_head q0) i n = Some (take n l, items) ∧
    queueRep (mkQueue items ((q_head q0 + (i + n)) `mod` capacity q) (length l - n) (q_wake q0)) (drop n l) ∧ length items = capacity q.
Proof.
  induction n as [| n IH]; intros q l i Hq Hn Hhead; cbn [popLoop].
  { exists (q_items q). split_and!; [done | | done]. rewrite Nat.add_0_r, <- Hhead, Nat.sub_0_r, drop_0. destruct Hq as [H1 H2 H3 H4]. by constructor. }
  pose proof (qr_head q l Hq) as Hh. unfold capacity in *. rewrite slot_some by lia. cbn [mbind option_bind]. rewrite <- Hhead.
  destruct l as [| x l]; [cbn in Hn; lia |]. destruct (dropHead_rep q x l Hq) as (q1 & Hd & H1 & C1 & W1). unfold dropHead in Hd.
  destruct (q_items q !! q_head q) as [y |]; [| done]. cbn [mbind option_bind] in *. rewrite slot_some in Hd by lia. cbn [mbind option_bind] in Hd.
  injection Hd as -> <-. unfold capacity in C1. cbn in C1.
  destruct (IH _ l (S i) H1 ltac:(cbn in Hn; lia)) as (items & Hp & Hr & Hlen).
  { unfold capacity. cbn. rewrite length_insert, Hhead, Nat.Div0.add_mod_idemp_l. f_equal. lia. }
  cbn in Hp. rewrite Hp. cbn [mbind option_bind]. exists items. unfold capacity in *. cbn in Hr, Hlen. rewrite length_insert in *.
  cbn [take drop length Nat.sub]. replace (i + S n)%nat with (S i + n)%nat by lia. done.
Qed.

Lemma popLocked_rep q l max sameRun :
  queueRep q l →
  ∃ q', popLocked q max sameRun = Some (batch l max sameRun, (0 <? length (batch l max sameRun))%nat && (0 <? q_length q')%nat, q') ∧
    queueRep q' (drop (length (batch l max sameRun)) l) ∧ capacity q' = capacity q ∧ q_wake q' = q_wake q.
Proof.
  intros Hq. unfold popLocked. rewrite (popCount_spec q l max sameRun Hq). cbn [mbind option_bind].
  pose proof (batch_prefix l max sameRun) as Hb. destruct (Nat.eqb_spec (length (batch l max sameRun)) 0) as [E | E].
  { exists q. rewrite E. apply nil_length_inv in E. rewrite E. done. }
  assert (Hle : (length (batch l max sameRun) ≤ length l)%nat) by (rewrite <- Hb, length_take; lia).
  pose proof (qr_head q l Hq) as Hh. destruct (popLoop_spec q (length (batch l max sameRun)) q l 0 Hq Hle) as (items & Hp & Hr & Hlen).
  { rewrite Nat.add_0_r. symmetry. by apply Nat.mod_small. }
  rewrite Hp. cbn [mbind option_bind]. rewrite slot_some by (unfold capacity in *; lia). cbn [mbind option_bind]. eexists. cbv zeta.
  rewrite Hb, (proj2 (Nat.ltb_lt 0 (length (batch l max sameRun)))) by lia. split; [done |].
  cbn. rewrite (qr_length q l Hq). split_and!; [exact Hr | exact Hlen | done].
Qed.

(** ** The queue is a bounded list *)

Inductive queueOp :=
| QPush (items : list T)
| QPushDropNew (items : list T)
| QPop (max : nat) (sameRun : option (T → T → bool))
| QDrain.

(** The items that leave the queue in one operation: those that are released and
    those that are returned. *)
Definition queueStep (q : dataPacketQueue) (op : queueOp) : option (list T * list T * dataPacketQueue) :=
  match op with
  | QPush items => '(dropped, q) ← PushBatch q items; Some (dropped, [], q)
  | QPushDropNew items => '(dropped, q) ← PushBatchDropNew q items; Some (dropped, [], q)
  | QPop max sameRun => '(popped, q) ← Pop q max sameRun; Some ([], popped, q)
  | QDrain => '(popped, q) ← Drain q; Some (popped, [], q)
  end.

Definition specStep (cap : nat) (l : list T) (op : queueOp) : list T * list T * list T :=
  match op with
  | QPush items => let excess := (length l + length items - cap)%nat in (take excess (l ++ items), [], drop excess (l ++ items))
  | QPushDropNew items => (drop (cap - length l) items, [], l ++ take (cap - length l) items)
  | QPop max sameRun => ([], batch l max sameRun, drop (length (batch l max sameRun)) l)
  | QDrain => (l, [], [])
  end.

Fixpoint runQueue (q : dataPacketQueue) (ops : list queueOp) : option (list (list T * list T) * dataPacketQueue) :=
  match ops with
  | [] => Some ([], q)
  | op :: ops => '(released, returned, q) ← queueStep q op; '(outs, q) ← runQueue q ops; Some ((released, returned) :: outs, q)
  end.

Fixpoint runSpec (cap : nat) (l : list T) (ops : list queueOp) : list (list T * list T) * list T :=
  match ops with
  | [] => ([], l)
  | op :: ops =>
      let '(released, returned, l) := specStep cap l op in
      let '(outs, l) := runSpec cap l ops in ((released, returned) :: outs, l)
  end.

Lemma signal_rep q l : queueRep q l → queueRep (signal q) l.
Proof. by intros [H1 H2 H3 H4]. Qed.

Lemma pushBatchLocked_rep q l items :
  queueRep q l →
  let excess := (length l + length items - capacity q)%nat in
  ∃ q', pushBatchLocked q items = Some (take excess (l ++ items), (length l =? 0)%nat, q') ∧ queueRep q' (drop excess (l ++ items)) ∧
    capacity q' = capacity q ∧ q_wake q' = q_wake q.
Proof.
  intros Hq. destruct (pushLoop_rep items q l Hq) as (q' & Hp & H). exists q'. unfold pushBatchLocked. rewrite Hp. cbn [mbind option_bind].
  by rewrite (qr_length q l Hq).
Qed.

Lemma pushBatchDropNewLocked_rep q l items :
  queueRep q l →
  let room := (capacity q - length l)%nat in
  ∃ q', pushBatchDropNewLocked q items = Some (drop room items, (length l =? 0)%nat && (0 <? length items `min` room)%nat, q') ∧
    queueRep q' (l ++ take room items) ∧ capacity q' = capacity q ∧ q_wake q' = q_wake q.
Proof.
  intros Hq room. unfold pushBatchDropNewLocked. cbv zeta. rewrite (qr_length q l Hq). fold room.
  assert (Et : take (length items `min` room) items = take room items).
  { destruct (Nat.le_ge_cases (length items) room); [| by rewrite Nat.min_r]. rewrite Nat.min_l by done. by rewrite !take_ge by lia. }
  assert (Ed : drop (length items `min` room) items = drop room items).
  { destruct (Nat.le_ge_cases (length items) room); [| by rewrite Nat.min_r]. rewrite Nat.min_l by done. by rewrite !drop_ge by lia. }
  pose proof (qr_fits q l Hq). destruct (putLoop_rep (take (length items `min` room) items) q l Hq) as (q' & -> & H1 & H2 & H3).
  { rewrite length_take. lia. }
  cbn [mbind option_bind]. exists q'. by rewrite Ed, Et in *.
Qed.

Lemma queueStep_rep q l op :
  queueRep q l →
  ∃ q', queueStep q op = Some ((specStep (capacity q) l op).1, q') ∧ queueRep q' (specStep (capacity q) l op).2 ∧ capacity q' = capacity q.
Proof.
  intros Hq. assert (Hif : ∀ (b : bool) q' l', queueRep q' l' → queueRep (if b then signal q' else q') l' ∧ capacity (if b then signal q' else q') = capacity q').
  { intros b q' l' H. destruct b; [by split; [apply signal_rep |] | done]. }
  assert (Hpop : ∀ max sameRun, ∃ q', Pop q max sameRun = Some (batch l max sameRun, q') ∧ queueRep q' (drop (length (batch l max sameRun)) l) ∧ capacity q' = capacity q).
  { intros max sameRun. destruct (popLocked_rep q l max sameRun Hq) as (q' & E & H & C & _). unfold Pop. rewrite E. cbn [mbind option_bind].
    eexists. split; [done |]. destruct (Hif ((0 <? length (batch l max sameRun))%nat && (0 <? q_length q')%nat) q' _ H) as [? ->]. done. }
  destruct op as [items | items | max sameRun |]; cbn [queueStep specStep].
  - destruct items as [| x items]; cbn [PushBatch].
    + cbn [mbind option_bind length]. rewrite Nat.add_0_r, app_nil_r. pose proof (qr_fits q l Hq). replace (length l - capacity q)%nat with 0%nat by lia.
      exists q. done.
    + destruct (pushBatchLocked_rep q l (x :: items) Hq) as (q' & -> & H & C & _). cbn [mbind option_bind].
      eexists. split; [done |]. destruct (Hif (length l =? 0)%nat q' _ H) as [? ->]. done.
  - destruct items as [| x items]; cbn [PushBatchDropNew].
    + cbn [mbind option_bind]. rewrite drop_nil, take_nil, app_nil_r. by exists q.
    + destruct (pushBatchDropNewLocked_rep q l (x :: items) Hq) as (q' & -> & H & C & _). cbn [mbind option_bind].
      eexists. split; [done |]. edestruct Hif as [H' C']; [exact H |]. split; [exact H' | etransitivity; [exact C' | done]].
  - destruct (Hpop max sameRun) as (q' & -> & H). cbn [mbind option_bind]. by exists q'.
  - unfold Drain. destruct (Hpop 0%nat None) as (q' & -> & H). cbn [mbind option_bind]. change (batch l 0 None) with l in *. rewrite drop_all in H. by exists q'.
Qed.

(** C25: a ring buffer behaves as a bounded list: no sequence of operations panics,
    pushing drops the oldest items (or, in the other mode, the newest) exactly when
    there is no room, popping returns the oldest run, every item leaves the queue
    once, and the slots that are not in use hold no item. *)
Theorem queue_refines_bounded_list cap ops :
  (0 < cap)%nat →
  ∃ q', runQueue (newDataPacketQueueWithCapacity cap) ops = Some ((runSpec cap [] ops).1, q') ∧ queueRep q' (runSpec cap [] ops).2.
Proof.
  intros Hcap. assert (Hgen : ∀ ops q l, queueRep q l → capacity q = cap →
    ∃ q', runQueue q ops = Some ((runSpec cap l ops).1, q') ∧ queueRep q' (runSpec cap l ops).2).
  { clear ops. induction ops as [| op ops IH]; intros q l Hq Hc; cbn [runQueue runSpec]; [by exists q |].
    destruct (queueStep_rep q l op Hq) as (q1 & -> & H1 & C1). rewrite Hc in *. destruct (specStep cap l op) as [[released returned] l1]. cbn [fst snd] in *.
    cbn [mbind option_bind]. destruct (IH q1 l1 H1 C1) as (q2 & -> & H2). destruct (runSpec cap l1 ops) as [outs l2]. by exists q2. }
  apply Hgen; [by apply newDataPacketQueueWithCapacity_rep |]. unfold capacity. cbn. apply length_replicate.
Qed.

(** ** Readers are woken *)

(** The queue with the goroutines that use it: [sy_signalling] have released the lock
    and are about to signal, [sy_awake] readers are about to pop, [sy_asleep] wait. *)
Record queueSystem := mkSystem { sy_queue : dataPacketQueue; sy_signalling : nat; sy_awake : nat; sy_asleep : nat }.

Inductive queueSystemStep : queueSystem → queueSystem → Prop :=
| QSPush q n a s items dropped wasEmpty q' :
    items ≠ [] → pushBatchLocked q items = Some (dropped, wasEmpty, q') →
    queueSystemStep (mkSystem q n a s) (mkSystem q' (if wasEmpty : bool then S n else n) a s)
| QSPushDropNew q n a s items dropped wake q' :
    items ≠ [] → pushBatchDropNewLocked q items = Some (dropped, wake, q') →
    queueSystemStep (mkSystem q n a s) (mkSystem q' (if wake : bool then S n else n) a s)
| QSSignal q n a s : queueSystemStep (mkSystem q (S n) a s) (mkSystem (signal q) n a s)
| QSEnter q n a s : queueSystemStep (mkSystem q n a s) (mkSystem q n (S a) s)
| QSPop q n a s max sameRun popped hasMore q' :
    popLocked q max sameRun = Some (popped, hasMore, q') →
    queueSystemStep (mkSystem q n (S a) s) (mkSystem q' (if hasMore : bool then S n else n) a (match popped with [] => S s | _ => s end))
| QSWake q n a s : q_wake q = true → queueSystemStep (mkSystem q n a (S s)) (mkSystem (q <| q_wake := false |>) n (S a) s)
| QSLeave q n a s : queueSystemStep (mkSystem q n a (S s)) (mkSystem q n a s).

Definition systemOk (y : queueSystem) : Prop :=
  ∃ l, queueRep (sy_queue y) l ∧ (l ≠ [] → q_wake (sy_queue y) = true ∨ (0 < sy_signalling y)%nat ∨ (0 < sy_awake y)%nat).

Lemma queueSystemStep_ok y y' : queueSystemStep y y' → systemOk y → systemOk y'.
Proof.
  intros Hstep (l & Hq & Hw). destruct Hstep as
    [q n a s items dropped wasEmpty q' Hi Hp | q n a s items dropped wake q' Hi Hp | q n a s | q n a s | q n a s max sameRun popped hasMore q' Hp | q n a s Hwake | q n a s];
    cbn [sy_queue sy_signalling sy_awake] in *.
  - destruct (pushBatchLocked_rep q l items Hq) as (q1 & E & H1 & _ & W). rewrite E in Hp. injection Hp as <- <- <-. eexists. split; [exact H1 |]. intros _.
    cbn. destruct l as [| x l]; [cbn; right; left; lia |]. cbn [length Nat.eqb]. rewrite W. by apply Hw.
  - destruct (pushBatchDropNewLocked_rep q l items Hq) as (q1 & E & H1 & _ & W). rewrite E in Hp. injection Hp as <- <- <-. eexists. split; [exact H1 |]. intros Hne.
    cbn [sy_queue sy_signalling sy_awake]. destruct l as [| x l].
    + cbn [length Nat.eqb andb]. right; left. destruct (Nat.ltb_spec 0 (length items `min` (capacity q - 0))) as [| Hle]; [lia |].
      destruct Hne. cbn [app length]. assert (H : (capacity q - 0 = 0 ∨ length items = 0)%nat) by lia. destruct H as [-> | H]; [done |].
      by apply nil_length_inv in H.
    + cbn [length Nat.eqb andb]. rewrite W. by apply Hw.
  - exists l. split; [by apply signal_rep |]. by left.
  - exists l. split; [done |]. intros _. right; right; cbn; lia.
  - destruct (popLocked_rep q l max sameRun Hq) as (q1 & E & H1 & _ & W). rewrite E in Hp. injection Hp as <- <- <-. eexists. split; [exact H1 |]. intros Hne.
    cbn [sy_queue sy_signalling sy_awake]. right; left. rewrite (qr_length _ _ H1).
    assert (Hb : (0 <? length (batch l max sameRun))%nat = true).
    { apply Nat.ltb_lt. destruct l as [| x l]; [by rewrite drop_nil in Hne |]. unfold batch. cbv zeta.
      destruct (Nat.ltb_spec 0 max); [destruct max; [lia |] |]; destruct sameRun; cbn; lia. }
    rewrite Hb. cbn [andb]. rewrite (proj2 (Nat.ltb_lt 0 _)); [lia |]. by apply Nat.neq_0_lt_0; intros ?%nil_length_inv.
  - exists l. split; [by destruct Hq |]. intros _. right; right; cbn; lia.
  - exists l. split; [done |]. exact Hw.
Qed.

(** No packet is left behind while readers sleep: however writers and readers
    interleave, when every reader sleeps, no signal is on its way and the wake
    channel is empty, then the queue is empty. *)
Theorem queue_readers_woken cap y :
  (0 < cap)%nat → rtc queueSystemStep (mkSystem (newDataPacketQueueWithCapacity cap) 0 0 0) y →
  sy_awake y = 0%nat → sy_signalling y = 0%nat → q_wake (sy_queue y) = false → q_length (sy_queue y) = 0%nat.
Proof.
  intros Hcap Hr Ha Hn Hw. assert (Hy : systemOk y); [| destruct Hy as (l & Hq & H)].
  { revert Hr. eapply (rtc_ind_r (λ y, systemOk y)).
    - exists []. split; [by apply newDataPacketQueueWithCapacity_rep | done].
    - intros x z _ Hs IH. by eapply queueSystemStep_ok. }
  rewrite (qr_length _ _ Hq). destruct l as [| x l]; [done |]. destruct H as [? | [? | ?]]; [done | congruence | lia | lia].
Qed.

End Queue.

Lemma queue_refines_bounded_list_witness :
  ∃ q', runQueue 0 (newDataPacketQueueWithCapacity 0 2) [QPush [1; 2; 3]; QPop 1 None; QPushDropNew [4; 5]; QDrain] =
    Some ([([1], []); ([], [2]); ([5], []); ([3; 4], [])], q') ∧ queueRep 0 q' [].
Proof. exact (queue_refines_bounded_list 0 2 [QPush [1; 2; 3]; QPop 1 None; QPushDropNew [4; 5]; QDrain] (ltac:(lia))). Defined.

Lemma queue_readers_woken_witness : q_length (newDataPacketQueueWithCapacity 0 2) = 0%nat.
Proof. exact (queue_readers_woken 0 2 (mkSystem (newDataPacketQueueWithCapacity 0 2) 0 0 0) (ltac:(lia)) (rtc_refl _ _) eq_refl eq_refl eq_refl). Defined.

(** ** Messages inside the data channel ([keepalive.go]) *)

Definition openVPNDataChannelPingPayload : list byte :=
  [x2a; x18; x7b; xf3; x64; x1e; xb4; xcb; x07; xed; x2d; x0a; x98; x1f; xc7; x48].

Definition openVPNOCCMagic : list byte :=
  [x28; x7f; x34; x6b; xd4; xef; x7a; x81; x2d; x56; xb8; xd3; xaf; xc5; x45; x9c].

Definition openVPNOCCRequest : byte := x00.
Definition openVPNOCCReply : byte := x01.
Definition openVPNOCCExit : byte := x06.
Definition openVPNDataChannelExitNotifyPayload : list byte := openVPNOCCMagic ++ [openVPNOCCExit].

(** The source's -1 is [None]. *)
Definition occOpcode (payload : list byte) : option byte :=
  if bool_decide (take (length openVPNOCCMagic) payload = openVPNOCCMagic) then payload !! length openVPNOCCMagic else None.

(** The options string is given as its octets. *)
Definition buildOCCReplyPayload (optionsString : list byte) : list byte :=
  openVPNOCCMagic ++ [openVPNOCCReply] ++ optionsString ++ [x00].

Definition buildOCCResponseForIncoming (incomingPayload localOptionsString : list byte) : option (list byte) :=
  match occOpcode incomingPayload with
  | Some opcode =>
      if decide (opcode = openVPNOCCRequest) then
        match localOptionsString with [] => None | _ => Some (buildOCCReplyPayload localOptionsString) end
      else None
  | None => None
  end.

(** An answer is not answered, nor is a ping. *)
Lemma occ_no_answer_to_answers optionsString localOptionsString :
  buildOCCResponseForIncoming (buildOCCReplyPayload optionsString) localOptionsString = None ∧
  buildOCCResponseForIncoming openVPNDataChannelPingPayload localOptionsString = None.
Proof.
  split; [| done]. unfold buildOCCResponseForIncoming, occOpcode, buildOCCReplyPayload.
  rewrite take_app_length, bool_decide_eq_true_2 by done. cbn [app]. by rewrite list_lookup_middle.
Qed.

(** [ms_closing] is whether the channel of that name is closed. *)
Record dataChannelMessageSender := mkSender {
  ms_closed : bool;
  ms_pingPending : bool;
  ms_occMessage : option (list byte);
  ms_wake : bool;
  ms_closing : bool;
}.

#[export] Instance eta_dataChannelMessageSender : Eta dataChannelMessageSender := λ s,
  mkSender (ms_closed s) (ms_pingPending s) (ms_occMessage s) (ms_wake s) (ms_closing s).

Definition newMessageSender : dataChannelMessageSender := mkSender false false None false false.

(** The methods up to the release of the lock, and whether they go on to signal. *)
Definition sendPing (s : dataChannelMessageSender) : bool * dataChannelMessageSender :=
  if ms_closed s then (false, s) else (true, s <| ms_pingPending := true |>).

Definition sendOCCMessage (s : dataChannelMessageSender) (payload : list byte) : bool * dataChannelMessageSender :=
  if (length payload =? 0)%nat then (false, s) else
  if ms_closed s then (false, s) else (true, s <| ms_occMessage := Some payload |>).

Definition shutdownLocked (s : dataChannelMessageSender) : bool * dataChannelMessageSender :=
  if ms_closed s then (false, s) else (true, s <| ms_closed := true |> <| ms_pingPending := false |> <| ms_occMessage := None |>).

Definition signalSender (s : dataChannelMessageSender) : dataChannelMessageSender := s <| ms_wake := true |>.

Definition takePendingMessage (s : dataChannelMessageSender) : option (list byte) * dataChannelMessageSender :=
  if ms_closed s then (None, s) else
  if ms_pingPending s then (Some openVPNDataChannelPingPayload, s <| ms_pingPending := false |>) else
  match ms_occMessage s with
  | Some occMessage => (Some occMessage, s <| ms_occMessage := None |>)
  | None => (None, s)
  end.

(** Where [runLoop] is: in the outer [select], in the inner loop, or returned. *)
Inductive senderLoop := SenderWaiting | SenderDraining | SenderReturned.

(** [my_signalling] callers are about to signal, [my_closers] about to close the channel
    [closing]; [my_written] are the payloads that were handed to [writeDataPacket]. *)
Record senderSystem := mkSenderSystem {
  my_sender : dataChannelMessageSender;
  my_signalling : nat;
  my_closers : nat;
  my_loop : senderLoop;
  my_written : list (list byte);
}.

Inductive senderStep : senderSystem → senderSystem → Prop :=
| MSPing s n c l w : senderStep (mkSenderSystem s n c l w) (mkSenderSystem (sendPing s).2 (if (sendPing s).1 then S n else n) c l w)
| MSOCC s n c l w payload :
    senderStep (mkSenderSystem s n c l w) (mkSenderSystem (sendOCCMessage s payload).2 (if (sendOCCMessage s payload).1 then S n else n) c l w)
| MSSignal s n c l w : senderStep (mkSenderSystem s (S n) c l w) (mkSenderSystem (signalSender s) n c l w)
| MSShutdown s n c l w : senderStep (mkSenderSystem s n c l w) (mkSenderSystem (shutdownLocked s).2 n (if (shutdownLocked s).1 then S c else c) l w)
| MSClose s n c l w : senderStep (mkSenderSystem s n (S c) l w) (mkSenderSystem (s <| ms_closing := true |>) n c l w)
| MSWake s n c w : ms_wake s = true → senderStep (mkSenderSystem s n c SenderWaiting w) (mkSenderSystem (s <| ms_wake := false |>) n c SenderDraining w)
| MSTake s n c w message s' :
    takePendingMessage s = (Some message, s') → senderStep (mkSenderSystem s n c SenderDraining w) (mkSenderSystem s' n c SenderDraining (w ++ [message]))
| MSNone s n c w s' : takePendingMessage s = (None, s') → senderStep (mkSenderSystem s n c SenderDraining w) (mkSenderSystem s' n c SenderWaiting w)
| MSReturn s n c w : ms_closing s = true → senderStep (mkSenderSystem s n c SenderWaiting w) (mkSenderSystem s n c SenderReturned w).

Definition hasPending (s : dataChannelMessageSender) : bool := ms_pingPending s || match ms_occMessage s with Some _ => true | None => false end.

(** [closing] is closed once, by the caller that set [closed]. *)
Record senderOk (y : senderSystem) : Prop := {
  so_work : hasPending (my_sender y) = true → ms_wake (my_sender y) = true ∨ (0 < my_signalling y)%nat ∨ my_loop y = SenderDraining;
  so_clear : ms_closed (my_sender y) = true → hasPending (my_sender y) = false;
  so_closers : (my_closers y + (if ms_closing (my_sender y) then 1 else 0) = if ms_closed (my_sender y) then 1 else 0)%nat;
  so_loop : my_loop y = SenderReturned → ms_closed (my_sender y) = true;
}.

Lemma senderStep_ok y y' : senderStep y y' → senderOk y → senderOk y'.
Proof.
  intros Hstep [Hw Hc Hn Hl]. destruct Hstep as [s n c l w | s n c l w payload | s n c l w | s n c l w | s n c l w | s n c w Hwake | s n c w message s' Ht | s n c w s' Ht | s n c w Hcl];
    cbn [my_sender my_signalling my_closers my_loop] in *.
  - unfold sendPing. destruct (ms_closed s) eqn:E; [by split; cbn; rewrite ?E |]. split; cbn; rewrite ?E; try done. intros _. right; left; lia.
  - unfold sendOCCMessage. destruct (length payload =? 0)%nat; [by split |].
    destruct (ms_closed s) eqn:E; [by split; cbn; rewrite ?E |]. split; cbn; rewrite ?E; try done. intros _. right; left; lia.
  - split; cbn; try done. by left.
  - unfold shutdownLocked. destruct (ms_closed s) eqn:E; [by split; cbn; rewrite ?E |]. split; cbn; try done. destruct (ms_closing s); lia.
  - split; cbn; try done. destruct (ms_closing s), (ms_closed s); try lia. 
  - split; cbn; try done. intros _. by right; right.
  - unfold takePendingMessage in Ht. destruct (ms_closed s) eqn:E; [done |]. destruct (ms_pingPending s) eqn:Ep.
    + injection Ht as <- <-. split; cbn; rewrite ?E; try done. by right; right.
    + destruct (ms_occMessage s) eqn:Eo; [| done]. injection Ht as <- <-. split; cbn; rewrite ?E; try done. by right; right.
  - assert (s' = s ∧ hasPending s = false) as [-> Hp].
    { unfold takePendingMessage in Ht. unfold hasPending. destruct (ms_closed s) eqn:E; [injection Ht as <-; split; [done | by apply Hc] |].
      destruct (ms_pingPending s); [done |]. destruct (ms_occMessage s); [done |]. by injection Ht as <-. }
    split; cbn; try done. by rewrite Hp.
  - assert (E : ms_closed s = true) by (destruct (ms_closed s); [done | rewrite Hcl in Hn; cbn in Hn; lia]).
    split; cbn; try done. intros Hp. by rewrite (Hc E) in Hp.
Qed.

(** A keepalive or option message that was asked for is written: when the
    sender's loop waits with an empty wake channel and no caller is about to
    signal, nothing is pending; the loop stops only after a shutdown, which closes
    its channel once. *)
Theorem messages_not_stranded y :
  rtc senderStep (mkSenderSystem newMessageSender 0 0 SenderWaiting []) y →
  (ms_wake (my_sender y) = false → my_signalling y = 0%nat → my_loop y ≠ SenderDraining → hasPending (my_sender y) = false) ∧
  (my_loop y = SenderReturned → ms_closed (my_sender y) = true) ∧
  (my_closers y + (if ms_closing (my_sender y) then 1 else 0) ≤ 1)%nat.
Proof.
  intros Hr. assert (Hy : senderOk y).
  { revert Hr. eapply (rtc_ind_r (λ y, senderOk y)); [by split | intros x z _ Hs IH; by eapply senderStep_ok]. }
  destruct Hy as [Hw Hc Hn Hl]. split_and!; [| done | rewrite Hn; destruct (ms_closed _); lia].
  intros H1 H2 H3. destruct (hasPending (my_sender y)); [| done]. destruct Hw as [? | [? | ?]]; [done | congruence | lia | done].
Qed.

Lemma messages_not_stranded_witness : hasPending newMessageSender = false.
Proof. refine (proj1 (messages_not_stranded (mkSenderSystem newMessageSender 0 0 SenderWaiting []) (rtc_refl _ _)) _ _ _); done. Defined.

(** ** The log of dropped packets *)

Definition droppedPacketLogInterval : Z := 256.

Inductive dropLogLine := DropWarning | DropSummary (count : Z).

(** The counter, and what is logged; without a logger nothing is counted. *)
Definition dropLog (logger : bool) (dropped : Z) : option dropLogLine * Z :=
  if negb logger then (None, dropped) else
  let droppedCount := u64 (dropped + 1) in
  (if droppedCount =? 1 then Some DropWarning else if droppedCount mod droppedPacketLogInterval =? 0 then Some (DropSummary droppedCount) else None, droppedCount).
