(* ===== verification/ControlChannel.v ===== *)
(** * The reliable control channel ([control_channel.go])

    A control channel joins a session manager, the protection of control packets
    and the two halves of the reliability layer, and carries the octets of one TLS
    connection in each direction.  Its goroutines hold locks around the parts that
    are transitions here: one round of the loop of [Write], one tick of the sender,
    one packet of the reader, one call of [Read].  What the goroutines take from
    outside is an argument: the clocks, the outcomes of writes to the packet
    connection, the choices of [select].  Every packet that is handed to the packet
    connection is returned, also when the connection reports an error. *)

From S2P Require Import Prelude Packet Session Reliable ReplayWindow Crypto Codec ControlWrap Mss KeyState.

Definition tlsControlPayloadSize : Z := 1024.
Definition tlsControlChannelMTU : Z := 1250.
Definition os_ErrDeadlineExceeded : goerr := ErrNew "i/o timeout".

Definition isControlOrAcknowledgmentOpcode (opcode : Opcode) : bool := IsControl opcode || (opcode =? OpcodeAcknowledgmentV1).

Definition isTLSHardResetOpcode (opcode : Opcode) : bool :=
  bool_decide (opcode ∈ [OpcodeControlHardResetClientV1; OpcodeControlHardResetServerV1; OpcodeControlHardResetClientV2;
    OpcodeControlHardResetServerV2; OpcodeControlHardResetClientV3]).

(** [ch_readChunks] is the contents of the channel of that name, followed by the
    chunk its writer waits with when it is full.  [ch_onSoftReset] is whether there
    is a handler, [ch_remoteIs4] whether the peer's address is an IPv4 address. *)
Record tlsControlChannel := mkChannel {
  ch_sessionManager : SessionManager;
  ch_protection : tlsControlProtection;
  ch_outgoing : OutgoingReliableState;
  ch_incoming : IncomingReliableState;
  ch_onSoftReset : bool;
  ch_wrappedClientKey : bytes;
  ch_readChunks : list bytes;
  ch_readRemainder : bytes;
  ch_closed : bool;
  ch_remoteIs4 : bool;
}.

#[export] Instance eta_tlsControlChannel : Eta tlsControlChannel := λ c,
  mkChannel (ch_sessionManager c) (ch_protection c) (ch_outgoing c) (ch_incoming c) (ch_onSoftReset c) (ch_wrappedClientKey c)
  (ch_readChunks c) (ch_readRemainder c) (ch_closed c) (ch_remoteIs4 c).

Definition newTLSControlChannel (sessionManager : SessionManager) (protection : tlsControlProtection) (onSoftReset remoteIs4 : bool) : tlsControlChannel :=
  mkChannel sessionManager protection NewOutgoingReliableState NewIncomingReliableState onSoftReset [] [] [] false remoteIs4.

Definition shutdown (c : tlsControlChannel) : tlsControlChannel := c <| ch_closed := true |>.

(** ** Sizes *)

Definition acknowledgmentArrayLength (acknowledgmentCount : Z) : Z :=
  let acknowledgmentCount := Z.min acknowledgmentCount MaximumAcknowledgmentsPerPacket in
  if acknowledgmentCount =? 0 then 1 else 1 + Z.of_nat PacketIDLength * acknowledgmentCount + Z.of_nat SessionIDLength.

Definition controlChannelDatagramOverhead (remoteIs4 : bool) : Z :=
  (if remoteIs4 then ipv4HeaderMinLength else ipv6HeaderLength) + udpHeaderLength.

Definition controlChannelFrameOverhead (c : tlsControlChannel) (acknowledgmentCount : Z) : Z :=
  1 + Z.of_nat SessionIDLength + acknowledgmentArrayLength acknowledgmentCount + Z.of_nat PacketIDLength +
  Z.of_nat (controlPacketOverhead (ch_protection c)) + controlChannelDatagramOverhead (ch_remoteIs4 c).

Definition nextPacketCarriesWrappedClientKey (c : tlsControlChannel) : bool :=
  (0 <? length (ch_wrappedClientKey c))%nat && (NextLocalControlPacketID (ch_sessionManager c) =? 1).

Definition shouldSendWrappedClientKey (c : tlsControlChannel) (packet : Packet) : bool :=
  if (length (ch_wrappedClientKey c) =? 0)%nat || negb (pkt_ID packet =? 1) then false
  else (pkt_Opcode packet =? OpcodeControlV1) || (pkt_Opcode packet =? OpcodeControlWKCv1).

(** ** Writing *)

(** The clock readings of an encoding and what the packet connection answers. *)
Record linkTurn := mkTurn { lt_unixNow : Z; lt_wrapNow : Z; lt_error : option goerr }.

Definition withOpcode (packet : Packet) (opcode : Opcode) : Packet :=
  mkPacket opcode (pkt_KeyID packet) (pkt_PeerID packet) (pkt_LocalSessionID packet) (pkt_AcknowledgmentIDs packet) (pkt_RemoteSessionID packet)
    (pkt_ID packet) (pkt_Payload packet).

Definition withAcknowledgments (packet : Packet) (acknowledgmentIDs : list PacketID) : Packet :=
  mkPacket (pkt_Opcode packet) (pkt_KeyID packet) (pkt_PeerID packet) (pkt_LocalSessionID packet) acknowledgmentIDs (pkt_RemoteSessionID packet)
    (pkt_ID packet) (pkt_Payload packet).

Definition returnAcknowledgmentsOf (c : tlsControlChannel) (packet : Packet) : tlsControlChannel :=
  if pkt_Opcode packet =? OpcodeAcknowledgmentV1
  then c <| ch_outgoing := ReturnAcknowledgmentIDs (ch_outgoing c) (pkt_AcknowledgmentIDs packet) |> else c.

Section Channel.
Context (cr : Crypto).

Definition writePacket (c : tlsControlChannel) (packet : Packet) (turn : linkTurn) : option goerr * list bytes * tlsControlChannel :=
  let outgoingPacket :=
    if shouldSendWrappedClientKey c packet && negb (pkt_Opcode packet =? OpcodeControlWKCv1) then withOpcode packet OpcodeControlWKCv1 else packet in
  match Packet_Bytes outgoingPacket with
  | Err e => (Some e, [], returnAcknowledgmentsOf c outgoingPacket)
  | Ok rawPacket =>
      let '(rawPacket, protection) :=
        if isControlOrAcknowledgmentOpcode (pkt_Opcode outgoingPacket)
        then encodeOutgoingControlPacket cr (ch_protection c) rawPacket (lt_unixNow turn) (lt_wrapNow turn) else (rawPacket, ch_protection c) in
      let c := c <| ch_protection := protection |> in
      let rawPacket :=
        if shouldSendWrappedClientKey c outgoingPacket
        then appendTLSCryptV2WrappedClientKey rawPacket (ch_wrappedClientKey c) (pkt_Opcode outgoingPacket) else rawPacket in
      match lt_error turn with
      | Some e => (Some e, [rawPacket], returnAcknowledgmentsOf c outgoingPacket)
      | None => (None, [rawPacket], c)
      end
  end.

(** The closures that are passed to [InsertOutgoingPacket]. *)
Definition newControl (opcode : Opcode) (payload : bytes) (acknowledgmentIDs : list PacketID) (m : SessionManager) : result Packet * SessionManager :=
  let '(r, m) := NewControlPacket m opcode payload in ((λ packet, withAcknowledgments packet acknowledgmentIDs) <$> r, m).

Definition newSoftReset (acknowledgmentIDs : list PacketID) (m : SessionManager) : result Packet * SessionManager :=
  ((λ packet, withAcknowledgments packet acknowledgmentIDs) <$> NewSoftResetPacket m, m).

Definition insertPacket (c : tlsControlChannel) (maximumAcknowledgments : Z) (newPacket : list PacketID → SessionManager → result Packet * SessionManager)
    : result (option Packet) * tlsControlChannel :=
  let '(r, outgoing, m) := InsertOutgoingPacket (ch_outgoing c) maximumAcknowledgments newPacket (ch_sessionManager c) in
  (r, c <| ch_outgoing := outgoing |> <| ch_sessionManager := m |>).

(** [pendingCount] is what [PendingAcknowledgmentCount] returned: the reader may have
    added acknowledgments since. *)
Definition newOutgoingControlPacket (c : tlsControlChannel) (pendingCount : Z) (buffer : bytes) : result (option (Packet * nat)) * tlsControlChannel :=
  let payloadSize := Z.min tlsControlPayloadSize tlsControlChannelMTU - controlChannelFrameOverhead c pendingCount in
  let payloadSize := if nextPacketCarriesWrappedClientKey c then Z.max 0 (payloadSize - lenZ (ch_wrappedClientKey c)) else payloadSize in
  let chunkSize := Z.to_nat (Z.min (lenZ buffer) payloadSize) in
  let '(r, c) := insertPacket c MaximumAcknowledgmentsPerPacket (newControl OpcodeControlV1 (take chunkSize buffer)) in
  (match r with Err e => Err e | Ok None => Ok None | Ok (Some packet) => Ok (Some (packet, chunkSize)) end, c).

(** How a round of the loop of [Write] ends: [WriteWaits] after ten milliseconds with
    a full send buffer, [WriteChunk] with a chunk of the given size written. *)
Inductive writeOutcome := WriteDone | WriteWaits | WriteChunk (chunkSize : nat) | WriteFails (e : goerr).

(** What a round of [Write] meets. *)
Record writeTurn := mkWriteTurn {
  wt_deadlinePassed : bool;
  wt_pendingCount : Z;
  wt_link : linkTurn;
}.

Definition writeRound (c : tlsControlChannel) (buffer : bytes) (turn : writeTurn) : writeOutcome * list bytes * tlsControlChannel :=
  match buffer with
  | [] => (WriteDone, [], c)
  | _ =>
      if wt_deadlinePassed turn then (WriteFails os_ErrDeadlineExceeded, [], c) else
      match newOutgoingControlPacket c (wt_pendingCount turn) buffer with
      | (Err e, c) => (WriteFails e, [], c)
      | (Ok None, c) => (if ch_closed c then WriteFails net_ErrClosed else WriteWaits, [], c)
      | (Ok (Some (packet, chunkSize)), c) =>
          let '(e, wires, c) := writePacket c packet (wt_link turn) in
          (match e with Some e => WriteFails e | None => WriteChunk chunkSize end, wires, c)
      end
  end.

(** [Write] without other goroutines in between: the octets written and the error;
    [None] when the turns end while it waits. *)
Fixpoint Write (c : tlsControlChannel) (buffer : bytes) (totalWritten : nat) (turns : list writeTurn)
    : option (nat * option goerr) * list bytes * tlsControlChannel :=
  match buffer, turns with
  | [], _ => (Some (totalWritten, None), [], c)
  | _, [] => (None, [], c)
  | _, turn :: turns =>
      let '(outcome, wires, c) := writeRound c buffer turn in
      match outcome with
      | WriteDone => (Some (totalWritten, None), wires, c)
      | WriteFails e => (Some (totalWritten, Some e), wires, c)
      | WriteWaits => let '(r, wires', c) := Write c buffer totalWritten turns in (r, wires ++ wires', c)
      | WriteChunk n => let '(r, wires', c) := Write c (drop n buffer) (totalWritten + n) turns in (r, wires ++ wires', c)
      end
  end.

Definition sendInitialSoftReset (c : tlsControlChannel) (turn : linkTurn) : option goerr * list bytes * tlsControlChannel :=
  match insertPacket c MaximumAcknowledgmentsPerPacket newSoftReset with
  | (Err e, c) => (Some e, [], c)
  | (Ok None, c) => (Some net_ErrClosed, [], c)
  | (Ok (Some packet), c) => writePacket c packet turn
  end.

Definition newAcknowledgmentPacket (c : tlsControlChannel) : result Packet * tlsControlChannel :=
  if nextPacketCarriesWrappedClientKey c then
    match insertPacket c (Z.of_nat AcknowledgmentSetCapacity) (newControl OpcodeControlWKCv1 []) with
    | (Err e, c) => (Err e, c)
    | (Ok None, c) => (Err (ErrNew "reliable send buffer is full"), c)
    | (Ok (Some packet), c) => (Ok packet, c)
    end
  else
    let '(acknowledgmentIDs, outgoing) := TakeAcknowledgmentIDs (ch_outgoing c) (Z.of_nat AcknowledgmentSetCapacity) in
    let c := c <| ch_outgoing := outgoing |> in
    match acknowledgmentIDs with
    | [] => (Err (ErrNew "no pending acknowledgment"), c)
    | _ =>
        match NewAcknowledgmentPacket (ch_sessionManager c) acknowledgmentIDs with
        | Err e => (Err e, c <| ch_outgoing := ReturnAcknowledgmentIDs (ch_outgoing c) acknowledgmentIDs |>)
        | Ok packet => (Ok packet, c)
        end
    end.

(** The packets of a tick, whose errors are not looked at. *)
Fixpoint writeAll (c : tlsControlChannel) (packets : list Packet) (turns : nat → linkTurn) : list bytes * tlsControlChannel :=
  match packets with
  | [] => ([], c)
  | packet :: packets =>
      let '(_, wires, c) := writePacket c packet (turns O) in
      let '(wires', c) := writeAll c packets (λ i, turns (S i)) in (wires ++ wires', c)
  end.

(** One tick of [runSender]. *)
Definition senderTick (c : tlsControlChannel) (now : Time) (turns : nat → linkTurn) (ackTurn : linkTurn) : list bytes * tlsControlChannel :=
  if ch_closed c then ([], c) else
  let '(packets, outgoing) := PacketsReadyToSend (ch_outgoing c) now in
  let '(wires, c) := writeAll (c <| ch_outgoing := outgoing |>) packets turns in
  if PendingAcknowledgmentCount (ch_outgoing c) =? 0 then (wires, c) else
  match newAcknowledgmentPacket c with
  | (Err _, c) => (wires, c)
  | (Ok ackPacket, c) => let '(_, wires', c) := writePacket c ackPacket ackTurn in (wires ++ wires', c)
  end.

Definition waitForReliableDelivered (c : tlsControlChannel) : bool := negb (HasInFlightPackets (ch_outgoing c)).

(** ** Reading *)

(** The payloads of packets that are in order go to the reader, unless [select]
    chooses the closed channel: [stop] is after how many chunks it does. *)
Fixpoint deliverChunks (packets : list Packet) (stop : option nat) : list bytes * bool :=
  match packets with
  | [] => ([], true)
  | packet :: packets =>
      match pkt_Payload packet with
      | [] => deliverChunks packets stop
      | payload =>
          match stop with
          | Some O => ([], false)
          | Some (S n) => let '(chunks, ok) := deliverChunks packets (Some n) in (payload :: chunks, ok)
          | None => let '(chunks, ok) := deliverChunks packets None in (payload :: chunks, ok)
          end
      end
  end.

(** Whether the reader goes on, whether it noted activity, and whether the soft
    reset handler is called. *)
Record incomingOutcome := mkOutcome { io_continue : bool; io_activity : bool; io_softReset : bool }.

Definition ignored : incomingOutcome := mkOutcome true false false.
Definition noted : incomingOutcome := mkOutcome true true false.

Definition onIncoming (c : tlsControlChannel) (packet : Packet) : tlsControlChannel := c <| ch_outgoing := OnIncomingPacket (ch_outgoing c) packet |>.

Definition processIncomingControlPacket (c : tlsControlChannel) (packet : Packet) (stop : option nat) : incomingOutcome * tlsControlChannel :=
  let m := ch_sessionManager c in
  if negb (ValidateIncomingRemoteSessionID m (Some packet)) then (ignored, c) else
  if isTLSHardResetOpcode (pkt_Opcode packet) then
    if negb (pkt_KeyID packet =? 0) || negb (CurrentKeyID m =? 0) then (ignored, c) else
    if negb (ValidateIncomingLocalSessionID m (Some packet)) then (ignored, c) else (noted, onIncoming c packet)
  else if pkt_Opcode packet =? OpcodeControlSoftResetV1 then
    if negb (ValidateIncomingLocalSessionID m (Some packet)) then (ignored, c) else
    if ch_onSoftReset c then (mkOutcome true true true, c) else (noted, onIncoming c packet)
  else
  if negb (ValidateIncomingLocalSessionID m (Some packet)) then (ignored, c) else
  if negb (pkt_KeyID packet =? CurrentKeyID m) then (ignored, c) else
  let c := onIncoming c packet in
  if pkt_Opcode packet =? OpcodeAcknowledgmentV1 then (noted, c) else
  if negb (IsControl (pkt_Opcode packet)) then (noted, c) else
  let '(inserted, incoming) := TryInsertIncomingPacket (ch_incoming c) packet in
  if negb inserted then (noted, c) else
  let '(ordered, incoming) := NextOrderedSequence incoming in
  let '(chunks, ok) := deliverChunks ordered stop in
  (mkOutcome ok true false, c <| ch_incoming := incoming |> <| ch_readChunks := ch_readChunks c ++ chunks |>).

Definition parseIncomingPacket (c : tlsControlChannel) (rawPacket : bytes) (reapNow now : Time) : result Packet * tlsControlChannel :=
  match rawPacket with
  | [] => (Err (ErrNew "empty packet"), c)
  | head :: _ =>
      let opcode := Z.shiftr (b2z head) 3 in
      let '(packetBytes, protection) :=
        if isControlOrAcknowledgmentOpcode opcode then decodeIncomingControlPacket cr (ch_protection c) rawPacket reapNow now
        else (Ok rawPacket, ch_protection c) in
      let c := c <| ch_protection := protection |> in
      (packetBytes ← packetBytes; if IsData opcode then ParsePacketView packetBytes else ParsePacket packetBytes, c)
  end.

Definition seedIncomingPacket (c : tlsControlChannel) (packet : Packet) : tlsControlChannel :=
  if negb (ValidateIncomingRemoteSessionID (ch_sessionManager c) (Some packet)) then c else onIncoming c packet.

(** What a round of [Read] meets: a chunk, the closed channel, or the deadline. *)
Inductive readTurn := ReadChunk | ReadSeesClosed | ReadDeadline.

(** The octets and the error; [None] when the turns end while it waits. *)
Fixpoint Read (c : tlsControlChannel) (size : nat) (turns : list readTurn) : option (result bytes) * tlsControlChannel :=
  match ch_readRemainder c with
  | _ :: _ => (Some (Ok (take size (ch_readRemainder c))), c <| ch_readRemainder := drop size (ch_readRemainder c) |>)
  | [] =>
      match turns with
      | [] => (None, c)
      | ReadDeadline :: _ => (Some (Err os_ErrDeadlineExceeded), c)
      | ReadSeesClosed :: turns => if ch_closed c then (Some (Err net_ErrClosed), c) else Read c size turns
      | ReadChunk :: turns =>
          match ch_readChunks c with
          | [] => Read c size turns
          | chunk :: chunks => Read (c <| ch_readChunks := chunks |> <| ch_readRemainder := chunk |>) size turns
          end
      end
  end.

End Channel.

(** ** An end of a control channel *)

(** A channel with the TLS connection that uses it: [ep_rest] is what the call of
    [Write] that is under way has not written yet, [ep_broken] whether a write
    failed (after which TLS writes no more), [ep_reading] whether [runReader] still
    runs.  [ep_written] and [ep_read] are the octets that were passed to [Write] and
    that [Read] returned, [ep_wires] the packets given to the packet connection. *)
Record endpoint := mkEndpoint {
  ep_channel : tlsControlChannel;
  ep_rest : bytes;
  ep_broken : bool;
  ep_reading : bool;
  ep_written : bytes;
  ep_read : bytes;
  ep_wires : list bytes;
}.

#[export] Instance eta_endpoint : Eta endpoint := λ e,
  mkEndpoint (ep_channel e) (ep_rest e) (ep_broken e) (ep_reading e) (ep_written e) (ep_read e) (ep_wires e).

Definition newEndpoint (c : tlsControlChannel) : endpoint := mkEndpoint c [] false true [] [] [].

Inductive endOp :=
| EWrite (data : bytes)
| EWriteRound (turn : writeTurn)
| ETick (now : Time) (turns : nat → linkTurn) (ackTurn : linkTurn)
| ESoftReset (turn : linkTurn)
| EIncoming (rawPacket : bytes) (reapNow now : Time) (stop : option nat)
| ERead (size : nat) (turns : list readTurn)
| EShutdown.

(** What is left of the buffer of [Write], and whether it failed. *)
Definition afterRound (rest : bytes) (broken : bool) (outcome : writeOutcome) : bytes * bool :=
  match outcome with
  | WriteDone => ([], broken)
  | WriteWaits => (rest, broken)
  | WriteChunk n => (drop n rest, broken)
  | WriteFails _ => ([], true)
  end.

Definition endStep (cr : Crypto) (e : endpoint) (op : endOp) : endpoint :=
  let c := ep_channel e in
  match op with
  | EWrite data =>
      if ep_broken e || negb (length (ep_rest e) =? 0)%nat then e else e <| ep_rest := data |> <| ep_written := ep_written e ++ data |>
  | EWriteRound turn =>
      let '(outcome, wires, c) := writeRound cr c (ep_rest e) turn in
      let '(rest, broken) := afterRound (ep_rest e) (ep_broken e) outcome in
      e <| ep_channel := c |> <| ep_rest := rest |> <| ep_broken := broken |> <| ep_wires := ep_wires e ++ wires |>
  | ETick now turns ackTurn =>
      let '(wires, c) := senderTick cr c now turns ackTurn in e <| ep_channel := c |> <| ep_wires := ep_wires e ++ wires |>
  | ESoftReset turn =>
      let '(_, wires, c) := sendInitialSoftReset cr c turn in e <| ep_channel := c |> <| ep_wires := ep_wires e ++ wires |>
  | EIncoming rawPacket reapNow now stop =>
      if negb (ep_reading e) then e else
      let '(packet, c) := parseIncomingPacket cr c rawPacket reapNow now in
      match packet with
      | Err _ => e <| ep_channel := c |>
      | Ok packet =>
          if IsData (pkt_Opcode packet) then e <| ep_channel := c |> else
          let '(outcome, c) := processIncomingControlPacket c packet stop in e <| ep_channel := c |> <| ep_reading := io_continue outcome |>
      end
  | ERead size turns =>
      let '(r, c) := Read c size turns in
      let e := e <| ep_channel := c |> in
      match r with Some (Ok octets) => e <| ep_read := ep_read e ++ octets |> | _ => e end
  | EShutdown => e <| ep_channel := shutdown c |>
  end.

Definition endRun (cr : Crypto) (e : endpoint) (ops : list endOp) : endpoint := foldl (endStep cr) e ops.
