(* ===== verification/ControlLaws.v ===== *)
(** * The control channel delivers a prefix

    The octets one end reads are a prefix of those the other end wrote, whatever the
    network loses, repeats and reorders, with or without tls-auth and tls-crypt; and
    control packets fit the path. *)

From S2P Require Import Prelude Packet Session Reliable ReplayWindow Crypto Codec CodecLaws DataChannel ControlWrap Mss KeyState ControlChannel.

(** ** The keys of a protection *)

(** A protection without the state that sending and receiving change. *)
Definition keysOf (p : tlsControlProtection) : tlsControlProtection :=
  mkProtection
    ((λ c, mkAuth (ca_sendKey c) (ca_receiveKeys c) (mkPacketIDState 0 0) None (ca_hash c) (ca_digestSize c)) <$> cp_auth p)
    ((λ c, mkCrypt (ck_sendEncryptBlock c) (ck_sendAuthKey c) (ck_receiveCandidates c) (mkPacketIDState 0 0) None) <$> cp_crypt p)
    (cp_cryptV2ServerKey p).

Lemma keysOf_idem p : keysOf (keysOf p) = keysOf p.
Proof. by destruct p as [[] [] ?]. Qed.

Definition unprotected (p : tlsControlProtection) : Prop := cp_auth p = None ∧ cp_crypt p = None ∧ cp_cryptV2ServerKey p = [].

(** No client key is installed later. *)
Definition settled (p : tlsControlProtection) : Prop := cp_crypt p ≠ None ∨ cp_cryptV2ServerKey p = [].

(** The sender's packets are for this receiver. *)
Definition endsOk (s r : tlsControlProtection) : Prop := unprotected s ∧ unprotected r ∨ protPair s r ∧ settled s ∧ settled r.

Lemma unprotected_eq p : unprotected p → p = mkProtection None None [].
Proof. destruct p. intros (H1 & H2 & H3). cbn in *. by subst. Qed.

Lemma endsOk_keys s r s' r' : keysOf s' = keysOf s → keysOf r' = keysOf r → endsOk s r → endsOk s' r'.
Proof.
  assert (H : ∀ s r, endsOk s r ↔ endsOk (keysOf s) (keysOf r)).
  { intros [[] [] ?] [[] [] ?]; unfold endsOk, unprotected, protPair, settled; cbn; naive_solver. }
  intros Hs Hr. by rewrite (H s r), (H s' r'), Hs, Hr.
Qed.

Lemma endsOk_settled s r : endsOk s r → settled s ∧ settled r.
Proof. intros [[(_ & _ & Hs) (_ & _ & Hr)] | (_ & Hs & Hr)]; [by split; right | done]. Qed.

Lemma encode_keys cr p raw t1 t2 : keysOf (encodeOutgoingControlPacket cr p raw t1 t2).2 = keysOf p.
Proof.
  destruct p as [auth [crypt |] sk]; unfold encodeOutgoingControlPacket; cbn.
  - unfold crypt_encodeControlPacket. case_bool_decide; [done |]. by destruct (next _ _ _).
  - destruct auth as [auth |]; [| done]. unfold auth_encodeControlPacket. case_bool_decide; [done |]. by destruct (next _ _ _).
Qed.

Lemma auth_tryKeys_keys c keys d i pb dec t1 t2 :
  ∃ w, (auth_tryKeys c keys d i pb dec t1 t2).2 = auth_setReceive c w.
Proof.
  assert (Hc : ∃ w, c = auth_setReceive c w) by (exists (ca_receiveState c); by destruct c).
  induction keys as [| key keys IH]; cbn [auth_tryKeys]; [done |]. destruct (negb _); [done |].
  destruct (replayAcceptLongForm _ _ _ _ _) as [ok w]. exists w. by destruct ok.
Qed.

Lemma crypt_tryCandidates_keys cr c cands h pb tag ct t1 t2 :
  ∃ w, (crypt_tryCandidates cr c cands h pb tag ct t1 t2).2 = crypt_setReceive c w.
Proof.
  assert (Hc : ∃ w, c = crypt_setReceive c w) by (exists (ck_receiveState c); by destruct c).
  induction cands as [| cand cands IH]; cbn [crypt_tryCandidates]; [done |]. cbv zeta. destruct (negb _); [done |].
  destruct (replayAcceptLongForm _ _ _ _ _) as [ok w]. exists w. by destruct ok.
Qed.

(** Decoding changes only the replay window. *)
Lemma decode_keys cr p raw t1 t2 :
  settled p →
  let p' := (decodeIncomingControlPacket cr p raw t1 t2).2 in keysOf p' = keysOf p ∧ protSendState p' = protSendState p.
Proof.
  intros Hp. unfold decodeIncomingControlPacket. case_bool_decide; [done |].
  set (x := if _ || _ then _ else _).
  assert (Hx : x.2 = p).
  { subst x. destruct (_ || _); [| done]. unfold extractTLSCryptV2ClientKey. destruct p as [auth [crypt |] sk]; cbn in *.
    - case_bool_decide; [done |]. case_bool_decide; [done |]. by destruct (_ || _).
    - destruct Hp as [? | Hsk]; [done |]. cbn in Hsk. by subst sk. }
  clearbody x. destruct x as [stripped p']. cbn in Hx. subst p'. destruct stripped as [packetBytes | e]; [| done].
  destruct p as [auth [crypt |] sk]; cbn.
  - assert (H0 : ∃ w, (crypt_decodeControlPacket cr crypt packetBytes t1 t2).2 = crypt_setReceive crypt w).
    { unfold crypt_decodeControlPacket. case_bool_decide; [exists (ck_receiveState crypt); by destruct crypt |]. apply crypt_tryCandidates_keys. }
    destruct (crypt_decodeControlPacket _ _ _ _ _) as [decoded c]. destruct H0 as [w Hc]. cbn in Hc. subst c. by destruct decoded.
  - destruct auth as [auth |].
    + assert (H0 : ∃ w, (auth_decodeControlPacket auth packetBytes t1 t2).2 = auth_setReceive auth w).
      { unfold auth_decodeControlPacket. case_bool_decide; [exists (ca_receiveState auth); by destruct auth |]. apply auth_tryKeys_keys. }
      destruct (auth_decodeControlPacket _ _ _ _) as [decoded c]. destruct H0 as [w Hc]. cbn in Hc. subst c. by destruct decoded.
    + by case_bool_decide.
Qed.

Lemma encode_head cr p raw t1 t2 :
  hd x00 (encodeOutgoingControlPacket cr p raw t1 t2).1 = hd x00 raw ∧ (raw ≠ [] → (encodeOutgoingControlPacket cr p raw t1 t2).1 ≠ []).
Proof.
  unfold encodeOutgoingControlPacket. destruct (cp_crypt p) as [crypt |].
  - unfold crypt_encodeControlPacket. case_bool_decide as Hl; [done |]. destruct (next _ _ _).
    destruct raw; [unfold tlsControlHeaderLength in Hl; cbn in Hl; lia | done].
  - destruct (cp_auth p) as [auth |]; [| done]. unfold auth_encodeControlPacket. case_bool_decide as Hl; [done |]. destruct (next _ _ _).
    destruct raw; [unfold tlsControlHeaderLength in Hl; cbn in Hl; lia | done].
Qed.

(** What a packet that was sent decodes to. *)
Lemma encode_decodes cr s r0 raw t1 t2 :
  Crypto_laws cr → endsOk s r0 → packetID_ok (protSendState s) → controlPacket raw →
  let '(wire, s') := encodeOutgoingControlPacket cr s raw t1 t2 in
  packetID_ok (protSendState s') ∧
  ∀ r reapNow now, endsOk s r → (decodeIncomingControlPacket cr r wire reapNow now).1 = Ok raw ∨ ∃ e, (decodeIncomingControlPacket cr r wire reapNow now).1 = Err e.
Proof.
  intros Hcr Hends Hst Hraw.
  destruct Hends as [[Hs Hr0] | (Hp & Hs & Hr0)].
  - apply unprotected_eq in Hs as ->. cbn. split; [done |]. intros r reapNow now [[_ Hr] | (Hp & _)]; [| by destruct r as [? [|] ?]].
    apply unprotected_eq in Hr as ->. left. destruct Hraw as [Hl [Ho1 Ho2]].
    unfold decodeIncomingControlPacket. rewrite bool_decide_eq_false_2 by lia. by rewrite (proj2 (Z.eqb_neq _ _) Ho1), (proj2 (Z.eqb_neq _ _) Ho2).
  - pose proof (encode_step cr s r0 raw t1 t2 Hcr Hp Hst Hraw) as He. pose proof (next_spec (protSendState s) t1 t2 Hst) as Hn.
    destruct (encodeOutgoingControlPacket cr s raw t1 t2) as [wire s']. destruct (next (protSendState s) t1 t2) as [pid st].
    destruct He as (-> & _ & Hdec), Hn as (_ & Hok & _). split; [done |]. intros r reapNow now Hsr.
    assert (Hpr : protPair s r).
    { destruct Hsr as [[Hu _] | (? & _)]; [| done]. apply unprotected_eq in Hu as ->. by destruct r0 as [? [|] ?]. }
    specialize (Hdec r reapNow now Hpr). destruct (replayAcceptLongForm _ _ _ _ _) as [ok w]. destruct Hdec as [err ->]. cbn. destruct ok; eauto.
Qed.

(** ** The reliability layer keeps what is true of packets *)

Section Outgoing.
Context (good : Packet → Prop).

Record outOk (s : OutgoingReliableState) : Prop := {
  oo_inFlight : ∀ f, f ∈ out_inFlightPackets s → good (fl_packet f);
  oo_pending : ∀ i, i ∈ out_pendingAcknowledgmentID s → 0 ≤ i < 2 ^ 32;
}.

Definition acksOk (n : Z) (ids : list PacketID) : Prop := Forall (λ i, 0 ≤ i < 2 ^ 32) ids ∧ lenZ ids ≤ n.

Lemma outOk_onIncoming s packet : outOk s → 0 ≤ pkt_ID packet < 2 ^ 32 → outOk (OnIncomingPacket s packet).
Proof.
  intros [Hf Hp] Hid. split; cbn.
  - intros f. rewrite sort_by_perm, fold_acknowledge_perm, fold_ackSpec. intros (g & -> & [_ Hg]%list_elem_of_filter)%list_elem_of_fmap. exact (Hf g Hg).
  - intros i. destruct (_ && _); [| apply Hp]. rewrite elem_of_union, elem_of_singleton. intros [-> | Hi]; [done | by apply Hp].
Qed.

Lemma outOk_take s n ids s' : 0 ≤ n → outOk s → takeAcknowledgmentIDsLocked s n = (ids, s') → outOk s' ∧ acksOk n ids.
Proof.
  intros Hn [Hf Hp] (-> & E1 & E2)%takeAcknowledgmentIDs_spec. split; [split; rewrite ?E1, ?E2; [done | set_solver] |]. split.
  - apply Forall_take, Forall_forall. intros i Hi%elem_of_sortedIDs. by apply Hp.
  - unfold lenZ. rewrite length_take. lia.
Qed.

Lemma outOk_return s ids : outOk s → Forall (λ i, 0 ≤ i < 2 ^ 32) ids → outOk (returnAcknowledgmentIDsLocked s ids).
Proof.
  intros [Hf Hp] Hids. split; cbn; [done |]. clear Hf. revert Hp. generalize (out_pendingAcknowledgmentID s).
  induction Hids as [| i ids Hi Hids IH]; intros p Hp; cbn [returnIDs]; [done |]. destruct (_ && _); [done |]. apply IH. set_solver.
Qed.

Lemma outOk_ready s now :
  outOk s → outOk (PacketsReadyToSend s now).2 ∧ Forall good (PacketsReadyToSend s now).1.
Proof.
  intros [Hf Hp]. split; [split; cbn; [| done] |].
  - intros f (g & -> & Hg)%list_elem_of_fmap. specialize (Hf g Hg). by destruct (readyToSend now g).
  - cbn. apply Forall_forall. intros p (g & -> & [_ Hg]%list_elem_of_filter)%list_elem_of_fmap. by apply Hf.
Qed.

Lemma outOk_mono (good' : Packet → Prop) s : (∀ p, good p → good' p) → outOk s → Forall (λ f, good' (fl_packet f)) (out_inFlightPackets s).
Proof. intros H [Hf _]. apply Forall_forall. auto. Qed.

End Outgoing.

(** ** Packets of one end *)

(** The payloads of the control packets of an end, in the order of their ids. *)
Abbreviation payloads := (list bytes) (only parsing).

Definition goodPacket (P : payloads) (p : Packet) : Prop :=
  Packet_wf p ∧ lenZ (pkt_AcknowledgmentIDs p) ≤ MaxUint8 ∧
  (pkt_Opcode p = OpcodeControlV1 ∧ 1 ≤ pkt_ID p ∧ P !! Z.to_nat (pkt_ID p - 1) = Some (pkt_Payload p) ∨
   pkt_Opcode p = OpcodeControlSoftResetV1 ∨ pkt_Opcode p = OpcodeAcknowledgmentV1).

Lemma goodPacket_mono P Q p : goodPacket P p → goodPacket (P ++ Q) p.
Proof.
  intros (H1 & H2 & H3). split_and!; [done | done |]. destruct H3 as [(? & ? & H) | ?]; [left | by right].
  split_and!; [done | done | by apply lookup_app_l_Some].
Qed.

Lemma goodPacket_opcode P p :
  goodPacket P p → isControlOrAcknowledgmentOpcode (pkt_Opcode p) = true ∧ pkt_Opcode p ≠ OpcodeControlHardResetClientV3 ∧ pkt_Opcode p ≠ OpcodeControlWKCv1 ∧ IsData (pkt_Opcode p) = false.
Proof. intros (_ & _ & [[-> _] | [-> | ->]]); done. Qed.

Lemma goodPacket_bytes P p :
  goodPacket P p → ∃ raw, Packet_Bytes p = Ok raw ∧ raw = headByte p :: controlBody p ∧ ParsePacket raw = Ok (wirePacket p) ∧ controlPacket raw.
Proof.
  intros Hp. destruct (goodPacket_opcode P p Hp) as (Hc & H10 & H11 & _). destruct Hp as (Hwf & Hacks & _).
  destruct (parse_serialized p Hwf Hacks) as (raw & Hb & Hparse). exists raw.
  assert (E : raw = headByte p :: controlBody p).
  { unfold isControlOrAcknowledgmentOpcode in Hc. unfold Packet_Bytes in Hb. rewrite (controlLayout_not_DataV2 _ Hc), Hc in Hb. rewrite decide_False in Hb by lia. by injection Hb as <-. }
  split_and!; [done | done | done |]. destruct (head_join p Hwf) as [Hop _]. subst raw. split.
  - cbn [length]. unfold controlBody. rewrite length_app, (wf_local p Hwf). unfold tlsControlHeaderLength, SessionIDLength. lia.
  - unfold plainOpcode. cbn [hd]. by rewrite Hop.
Qed.

(** What the network may carry of an end whose protection has the keys [k]. *)
Definition goodWire (cr : Crypto) (k : tlsControlProtection) (P : payloads) (wire : bytes) : Prop :=
  ∃ p raw, goodPacket P p ∧ Packet_Bytes p = Ok raw ∧ (∃ rest, wire = headByte p :: rest) ∧
    ∀ r reapNow now, endsOk k r →
      (decodeIncomingControlPacket cr r wire reapNow now).1 = Ok raw ∨ ∃ e, (decodeIncomingControlPacket cr r wire reapNow now).1 = Err e.

Lemma goodWire_mono cr k P Q wire : goodWire cr k P wire → goodWire cr k (P ++ Q) wire.
Proof. intros (p & raw & Hp & H). exists p, raw. split; [by apply goodPacket_mono | done]. Qed.

(** The state of an end that has sent [P]. *)
Record chanOk (k r0 : tlsControlProtection) (P : payloads) (c : tlsControlChannel) : Prop := {
  co_key : ch_wrappedClientKey c = [];
  co_local : length (sm_localSessionID (ch_sessionManager c)) = SessionIDLength;
  co_remote : length (sm_remoteSessionID (ch_sessionManager c)) = SessionIDLength;
  co_keyID : 0 ≤ sm_keyID (ch_sessionManager c) < 8;
  co_next : sm_localControlPacketID (ch_sessionManager c) = 1 + lenZ P ∧ 1 + lenZ P ≤ MaxUint32;
  co_outgoing : outOk (goodPacket P) (ch_outgoing c);
  co_keys : keysOf (ch_protection c) = k;
  co_ends : endsOk k r0;
  co_packetID : packetID_ok (protSendState (ch_protection c));
}.

(** What no operation of the sending side touches. *)
Definition sameReader (c c' : tlsControlChannel) : Prop :=
  ch_incoming c' = ch_incoming c ∧ ch_readChunks c' = ch_readChunks c ∧ ch_readRemainder c' = ch_readRemainder c.

Section Sending.
Context (cr : Crypto) (Hcr : Crypto_laws cr) (k r0 : tlsControlProtection).

Lemma chanOk_ends P c : chanOk k r0 P c → endsOk (ch_protection c) r0.
Proof. intros Hc. eapply endsOk_keys; [| done | apply Hc]. by rewrite <- (co_keys _ _ _ _ Hc), keysOf_idem. Qed.

Lemma writePacket_ok P c p turn :
  chanOk k r0 P c → goodPacket P p →
  let '(_, wires, c') := writePacket cr c p turn in
  chanOk k r0 P c' ∧ Forall (goodWire cr k P) wires ∧ sameReader c c' ∧ ch_sessionManager c' = ch_sessionManager c.
Proof.
  intros Hc Hp. unfold writePacket. assert (Hkey : ∀ q, shouldSendWrappedClientKey c q = false).
  { intros q. unfold shouldSendWrappedClientKey. by rewrite (co_key _ _ _ _ Hc). }
  rewrite Hkey. cbn [andb]. destruct (goodPacket_bytes P p Hp) as (raw & -> & Eraw & _ & Hcp). destruct (goodPacket_opcode P p Hp) as (-> & _).
  pose proof (chanOk_ends P c Hc) as Hends. pose proof (encode_keys cr (ch_protection c) raw (lt_unixNow turn) (lt_wrapNow turn)) as Hk.
  pose proof (encode_head cr (ch_protection c) raw (lt_unixNow turn) (lt_wrapNow turn)) as [Hh Hne].
  pose proof (encode_decodes cr (ch_protection c) r0 raw (lt_unixNow turn) (lt_wrapNow turn) Hcr Hends (co_packetID _ _ _ _ Hc) Hcp) as Hd.
  destruct (encodeOutgoingControlPacket cr (ch_protection c) raw (lt_unixNow turn) (lt_wrapNow turn)) as [wire s']. cbn [fst snd] in *. destruct Hd as [Hst Hdec].
  set (c' := c <| ch_protection := s' |>).
  assert (Hkey' : shouldSendWrappedClientKey c' p = false) by apply Hkey. rewrite Hkey'.
  assert (Hc' : chanOk k r0 P c').
  { destruct Hc as [G1 G2 G3 G4 G5 G6 G7 G8 G9]. constructor; try done. cbn. congruence. }
  assert (Hw : goodWire cr k P wire).
  { exists p, raw. split_and!; [done | | |].
    - by destruct (goodPacket_bytes P p Hp) as (raw' & E & -> & _); rewrite E, Eraw.
    - destruct wire as [| x wire]; [destruct Hne; [by subst raw | done] |]. rewrite Eraw in Hh. cbn in Hh. subst x. by eexists.
    - intros r reapNow now Hr. apply Hdec. eapply endsOk_keys; [| done | exact Hr]. by rewrite <- (co_keys _ _ _ _ Hc), keysOf_idem. }
  assert (Hret : chanOk k r0 P (returnAcknowledgmentsOf c' p)).
  { unfold returnAcknowledgmentsOf. destruct (_ =? _); [| done]. destruct Hc' as [G1 G2 G3 G4 G5 G6 G7 G8 G9]. constructor; try done.
    apply outOk_return; [done | apply Hp]. }
  destruct (lt_error turn); split_and!; try done; try (by constructor); unfold returnAcknowledgmentsOf; by destruct (_ =? _).
Qed.

Lemma writeAll_ok P packets : ∀ c turns,
  chanOk k r0 P c → Forall (goodPacket P) packets →
  let '(wires, c') := writeAll cr c packets turns in
  chanOk k r0 P c' ∧ Forall (goodWire cr k P) wires ∧ sameReader c c'.
Proof.
  induction packets as [| p packets IH]; intros c turns Hc Hp; cbn [writeAll]; [split_and!; try done; constructor |].
  apply Forall_cons in Hp as [Hp Hps]. pose proof (writePacket_ok P c p (turns O) Hc Hp) as H.
  destruct (writePacket cr c p (turns O)) as [[? wires] c1]. destruct H as (H1 & H2 & (S1 & S2 & S3) & _).
  pose proof (IH c1 (λ i, turns (S i)) H1 Hps) as H'. destruct (writeAll cr c1 packets _) as [wires' c2]. destruct H' as (I1 & I2 & (T1 & T2 & T3)).
  split_and!; [done | by apply Forall_app | split_and!; congruence].
Qed.

(** A packet that is inserted: [Q] is what it adds to the payloads. *)
Lemma insertPacket_ok P Q c n newPacket :
  0 ≤ n → chanOk k r0 P c →
  (∀ ids, acksOk n ids →
    match newPacket ids (ch_sessionManager c) with
    | (Ok p, m') => goodPacket (P ++ Q) p ∧ 1 + lenZ (P ++ Q) ≤ MaxUint32 ∧
        m' = mkSessionManager (sm_keyID (ch_sessionManager c)) (sm_localSessionID (ch_sessionManager c)) (sm_remoteSessionID (ch_sessionManager c))
          (sm_hasRemoteSessionID (ch_sessionManager c)) (1 + lenZ (P ++ Q)) (sm_localDataPacketID (ch_sessionManager c)) (sm_negotiationState (ch_sessionManager c))
    | (Err _, m') => m' = ch_sessionManager c
    end) →
  let '(r, c') := insertPacket c n newPacket in
  sameReader c c' ∧
  match r with
  | Ok (Some p) => chanOk k r0 (P ++ Q) c' ∧ goodPacket (P ++ Q) p
  | _ => chanOk k r0 P c'
  end.
Proof.
  intros Hn Hc Hnew. unfold insertPacket, InsertOutgoingPacket. destruct (decide _).
  { split; [done |]. by destruct Hc. }
  destruct (takeAcknowledgmentIDsLocked (ch_outgoing c) n) as [ids s'] eqn:Ht.
  destruct (outOk_take (goodPacket P) _ n ids s' Hn (co_outgoing _ _ _ _ Hc) Ht) as [Hs' Hids]. specialize (Hnew ids Hids).
  destruct (newPacket ids (ch_sessionManager c)) as [[p | e] m'].
  - destruct Hnew as (Hp & Hmax & ->). split; [done |]. split; [| done].
    destruct Hc as [G1 G2 G3 G4 G5 G6 G7 G8 G9]. constructor; try done. cbn. split; cbn.
    + intros f. rewrite sort_by_perm. rewrite elem_of_app, list_elem_of_singleton. intros [Hf | ->]; [| done].
      apply goodPacket_mono. by apply (oo_inFlight _ _ Hs').
    + apply (oo_pending _ _ Hs').
  - subst m'. split; [done |]. destruct Hc as [G1 G2 G3 G4 G5 G6 G7 G8 G9]. constructor; try done. cbn. apply outOk_return; [done | apply Hids].
Qed.

Lemma newControl_good P c payload ids :
  chanOk k r0 P c → acksOk 255 ids →
  match newControl OpcodeControlV1 payload ids (ch_sessionManager c) with
  | (Ok p, m') => goodPacket (P ++ [payload]) p ∧ 1 + lenZ (P ++ [payload]) ≤ MaxUint32 ∧
      m' = mkSessionManager (sm_keyID (ch_sessionManager c)) (sm_localSessionID (ch_sessionManager c)) (sm_remoteSessionID (ch_sessionManager c))
        (sm_hasRemoteSessionID (ch_sessionManager c)) (1 + lenZ (P ++ [payload])) (sm_localDataPacketID (ch_sessionManager c)) (sm_negotiationState (ch_sessionManager c))
  | (Err _, m') => m' = ch_sessionManager c
  end.
Proof.
  intros Hc [Hids Hlen]. destruct (co_next _ _ _ _ Hc) as [Hnext Hmax]. unfold newControl, NewControlPacket. cbn [negb IsControl].
  change (negb (IsControl OpcodeControlV1)) with false. cbv iota. destruct (Z.eqb_spec (sm_localControlPacketID (ch_sessionManager c)) MaxUint32) as [| Hne]; [done |].
  assert (El : lenZ (P ++ [payload]) = lenZ P + 1) by (unfold lenZ; rewrite length_app; cbn; lia). assert (Hm : MaxUint32 = 4294967295) by done.
  cbn. rewrite El, Hnext in *. unfold lenZ in *. split_and!; [| lia |].
  - split_and!.
    + split; cbn; try done; try lia; [apply Hc | apply Hc |]. destruct (sm_hasRemoteSessionID _); [apply Hc | done].
    + unfold lenZ, MaxUint8. cbn. lia.
    + left. cbn. split_and!; [done | lia |]. replace (Z.to_nat _) with (length P) by lia. by rewrite list_lookup_middle.
  - rewrite u32_small by lia. f_equal. lia.
Qed.

Lemma writeRound_ok P c buffer turn :
  chanOk k r0 P c →
  let '(outcome, wires, c') := writeRound cr c buffer turn in
  sameReader c c' ∧ ∃ Q, chanOk k r0 (P ++ Q) c' ∧ Forall (goodWire cr k (P ++ Q)) wires ∧
  match outcome with
  | WriteDone => Q = [] ∧ buffer = []
  | WriteWaits => Q = []
  | WriteChunk n => concat Q = take n buffer
  | WriteFails _ => ∃ n, concat Q = take n buffer
  end.
Proof.
  intros Hc. unfold writeRound. destruct buffer as [| x buffer].
  { split; [done |]. exists []. rewrite app_nil_r. split_and!; try done; constructor. }
  set (buf := x :: buffer). assert (H0 : ∃ n, concat ([] : payloads) = take n buf) by by exists 0%nat.
  destruct (wt_deadlinePassed turn). { split; [done |]. exists []. rewrite app_nil_r. split_and!; try done; constructor. }
  unfold newOutgoingControlPacket. cbv zeta. set (n := Z.to_nat _).
  assert (Hnew : ∀ ids, acksOk MaximumAcknowledgmentsPerPacket ids → acksOk 255 ids).
  { intros ids [H1 H2]. split; [done |]. unfold MaximumAcknowledgmentsPerPacket in H2. lia. }
  pose proof (insertPacket_ok P [take n buf] c MaximumAcknowledgmentsPerPacket (newControl OpcodeControlV1 (take n buf)) ltac:(done) Hc
    (λ ids H, newControl_good P c (take n buf) ids Hc (Hnew ids H))) as Hi.
  destruct (insertPacket c MaximumAcknowledgmentsPerPacket _) as [r c1]. destruct Hi as [Hs Hr]. destruct r as [[p |] | e].
  - destruct Hr as [Hc1 Hp]. pose proof (writePacket_ok _ c1 p (wt_link turn) Hc1 Hp) as Hw.
    destruct (writePacket cr c1 p (wt_link turn)) as [[err wires] c2]. destruct Hw as (W1 & W2 & (S1 & S2 & S3) & _). destruct Hs as (T1 & T2 & T3).
    split; [split_and!; congruence |]. exists [take n buf]. split_and!; [done | done |]. destruct err; [exists n |]; cbn; by rewrite app_nil_r.
  - split; [done |]. exists []. rewrite app_nil_r. split_and!; [done | by constructor | by destruct (ch_closed c1)].
  - split; [done |]. exists []. rewrite app_nil_r. split_and!; try done; constructor.
Qed.

Lemma sendInitialSoftReset_ok P c turn :
  chanOk k r0 P c →
  let '(_, wires, c') := sendInitialSoftReset cr c turn in chanOk k r0 P c' ∧ Forall (goodWire cr k P) wires ∧ sameReader c c'.
Proof.
  intros Hc. unfold sendInitialSoftReset.
  pose proof (insertPacket_ok P [] c MaximumAcknowledgmentsPerPacket newSoftReset ltac:(done) Hc) as Hi.
  destruct (insertPacket c MaximumAcknowledgmentsPerPacket newSoftReset) as [r c1]. rewrite app_nil_r in Hi. destruct Hi as [Hs Hr].
  { intros ids [H1 H2]. unfold newSoftReset, NewSoftResetPacket. destruct (negb (sm_hasRemoteSessionID _)); [done |]. cbn.
    destruct (co_next _ _ _ _ Hc) as [Hnext Hmax]. split_and!; [| done | rewrite <- Hnext; by destruct (ch_sessionManager c)].
    split_and!; [| unfold MaximumAcknowledgmentsPerPacket in H2; unfold MaxUint8; cbn; lia | by right; left].
    split; cbn; try done; apply Hc. }
  destruct r as [[p |] | e]; [| split_and!; try done; constructor | split_and!; try done; constructor].
  destruct Hr as [Hc1 Hp]. pose proof (writePacket_ok P c1 p turn Hc1 Hp) as Hw.
  destruct (writePacket cr c1 p turn) as [[err wires] c2]. destruct Hw as (W1 & W2 & (S1 & S2 & S3) & _). destruct Hs as (T1 & T2 & T3).
  split_and!; [done | done | split_and!; congruence].
Qed.

Lemma newAcknowledgmentPacket_ok P c :
  chanOk k r0 P c →
  let '(r, c') := newAcknowledgmentPacket c in
  chanOk k r0 P c' ∧ sameReader c c' ∧ match r with Ok p => goodPacket P p | Err _ => True end.
Proof.
  intros Hc. unfold newAcknowledgmentPacket, nextPacketCarriesWrappedClientKey. rewrite (co_key _ _ _ _ Hc). cbn [length Nat.ltb Nat.leb andb].
  destruct (TakeAcknowledgmentIDs (ch_outgoing c) (Z.of_nat AcknowledgmentSetCapacity)) as [ids s'] eqn:Ht.
  destruct (outOk_take (goodPacket P) _ (Z.of_nat AcknowledgmentSetCapacity) ids s' ltac:(done) (co_outgoing _ _ _ _ Hc) Ht) as [Hs' [Hids Hlen]].
  assert (Hc' : chanOk k r0 P (c <| ch_outgoing := s' |>)) by (destruct Hc as [G1 G2 G3 G4 G5 G6 G7 G8 G9]; by constructor).
  destruct ids as [| i ids]; [done |]. unfold NewAcknowledgmentPacket. cbn [ch_sessionManager].
  destruct (negb _).
  - split_and!; try done. destruct Hc' as [G1 G2 G3 G4 G5 G6 G7 G8 G9]. constructor; try done. by apply outOk_return.
  - split_and!; try done. split_and!; [| unfold MaxUint8; change (Z.of_nat AcknowledgmentSetCapacity) with 8 in Hlen; cbn [pkt_AcknowledgmentIDs]; lia | by right; right].
    split; cbn; try done; apply Hc.
Qed.

Lemma senderTick_ok P c now turns ackTurn :
  chanOk k r0 P c →
  let '(wires, c') := senderTick cr c now turns ackTurn in chanOk k r0 P c' ∧ Forall (goodWire cr k P) wires ∧ sameReader c c'.
Proof.
  intros Hc. unfold senderTick. destruct (ch_closed c); [split_and!; try done; constructor |].
  destruct (outOk_ready (goodPacket P) (ch_outgoing c) now (co_outgoing _ _ _ _ Hc)) as [Ho Hready].
  destruct (PacketsReadyToSend (ch_outgoing c) now) as [packets outgoing]. cbn [fst snd] in *.
  assert (Hc0 : chanOk k r0 P (c <| ch_outgoing := outgoing |>)) by (destruct Hc as [G1 G2 G3 G4 G5 G6 G7 G8 G9]; by constructor).
  pose proof (writeAll_ok P packets _ turns Hc0 Hready) as Hw. destruct (writeAll cr _ packets turns) as [wires c1]. destruct Hw as (Hc1 & Hw1 & (S1 & S2 & S3)).
  cbn in S1, S2, S3. destruct (_ =? 0); [split_and!; [done | done | by split_and!] |].
  pose proof (newAcknowledgmentPacket_ok P c1 Hc1) as Ha. destruct (newAcknowledgmentPacket c1) as [[p | e] c2]; destruct Ha as (Hc2 & (T1 & T2 & T3) & Hp).
  - pose proof (writePacket_ok P c2 p ackTurn Hc2 Hp) as Hw2. destruct (writePacket cr c2 p ackTurn) as [[? wires2] c3].
    destruct Hw2 as (Hc3 & Hw2 & (U1 & U2 & U3) & _). split_and!; [done | by apply Forall_app | split_and!; congruence].
  - split_and!; [done | done | split_and!; congruence].
Qed.

(** ** What arrives does not disturb the sender *)

Lemma ParsePacket_id raw p : ParsePacket raw = Ok p → 0 ≤ pkt_ID p < 2 ^ 32.
Proof.
  unfold ParsePacket. destruct raw as [| head body]; [done |]. intros ([peer body'] & _ & H)%result_bind_Ok.
  destruct (_ || _); [by apply parseControl_sound in H as [H%cr_id _] | by injection H as <-].
Qed.

Lemma parseIncomingPacket_ok P c raw reapNow now :
  chanOk k r0 P c →
  let '(r, c') := parseIncomingPacket cr c raw reapNow now in
  chanOk k r0 P c' ∧ sameReader c c' ∧ match r with Ok p => 0 ≤ pkt_ID p < 2 ^ 32 | Err _ => True end.
Proof.
  intros Hc. unfold parseIncomingPacket. destruct raw as [| head body]; [done |]. cbv zeta. set (raw := head :: body).
  destruct (endsOk_settled _ _ (chanOk_ends P c Hc)) as [Hset _].
  assert (Hdec : let x := if isControlOrAcknowledgmentOpcode (Z.shiftr (b2z head) 3) then decodeIncomingControlPacket cr (ch_protection c) raw reapNow now
    else (Ok raw, ch_protection c) in keysOf x.2 = keysOf (ch_protection c) ∧ protSendState x.2 = protSendState (ch_protection c)).
  { cbv zeta. destruct (isControlOrAcknowledgmentOpcode _); [by apply decode_keys | done]. }
  destruct (if isControlOrAcknowledgmentOpcode _ then _ else _) as [pb s']. cbn in Hdec. destruct Hdec as [Hk Hst].
  split_and!; [| done |].
  - destruct Hc as [G1 G2 G3 G4 G5 G6 G7 G8 G9]. constructor; try done; cbn; congruence.
  - destruct (pb ≫= _) as [p |] eqn:E; [| done]. apply result_bind_Ok in E as (x & _ & E). destruct (IsData _); [| by eapply ParsePacket_id].
    rewrite ParsePacketView_equiv in E. by eapply ParsePacket_id.
Qed.

Lemma processIncoming_sender P c p stop :
  chanOk k r0 P c → 0 ≤ pkt_ID p < 2 ^ 32 → chanOk k r0 P (processIncomingControlPacket c p stop).2.
Proof.
  intros Hc Hid. assert (Hon : chanOk k r0 P (onIncoming c p)).
  { destruct Hc as [G1 G2 G3 G4 G5 G6 G7 G8 G9]. constructor; try done. by apply outOk_onIncoming. }
  unfold processIncomingControlPacket. cbv zeta. destruct (negb _); [done |]. destruct (isTLSHardResetOpcode _).
  { destruct (_ || _); [done |]. by destruct (negb _). }
  destruct (pkt_Opcode p =? _). { destruct (negb _); [done |]. by destruct (ch_onSoftReset c). }
  destruct (negb _); [done |]. destruct (negb _); [done |]. destruct (pkt_Opcode p =? _); [done |]. destruct (negb _); [done |].
  destruct (TryInsertIncomingPacket _ _) as [inserted incoming]. destruct (negb inserted); [done |].
  destruct (NextOrderedSequence incoming) as [ordered incoming']. destruct (deliverChunks ordered stop) as [chunks ok]. cbn [snd].
  destruct Hon as [G1 G2 G3 G4 G5 G6 G7 G8 G9]. by constructor.
Qed.

Lemma Read_sender P c size turns : chanOk k r0 P c → chanOk k r0 P (Read c size turns).2.
Proof.
  revert c. induction turns as [| turn turns IH]; intros c Hc; cbn [Read].
  - destruct (ch_readRemainder c); [done |]. destruct Hc as [G1 G2 G3 G4 G5 G6 G7 G8 G9]. by constructor.
  - destruct (ch_readRemainder c). 2:{ destruct Hc as [G1 G2 G3 G4 G5 G6 G7 G8 G9]. by constructor. }
    destruct turn; [| destruct (ch_closed c); [done | by apply IH] | done].
    destruct (ch_readChunks c); [by apply IH |]. apply IH. destruct Hc as [G1 G2 G3 G4 G5 G6 G7 G8 G9]. by constructor.
Qed.

(** ** The sending end *)

Record sendOk (P : payloads) (e : endpoint) : Prop := {
  se_channel : chanOk k r0 P (ep_channel e);
  se_wires : Forall (goodWire cr k P) (ep_wires e);
  se_broken : ep_broken e = true → ep_rest e = [];
  se_stream : ∃ tail, ep_written e = concat P ++ tail ∧ (ep_broken e = false → tail = ep_rest e);
}.

Lemma sendOk_channel P e c wires :
  sendOk P e → chanOk k r0 P c → Forall (goodWire cr k P) wires → sendOk P (e <| ep_channel := c |> <| ep_wires := ep_wires e ++ wires |>).
Proof. intros [H1 H2 H3 H4] Hc Hw. constructor; try done. by apply Forall_app. Qed.

Lemma sendOk_channel_only P e c : sendOk P e → chanOk k r0 P c → sendOk P (e <| ep_channel := c |>).
Proof. intros [H1 H2 H3 H4] Hc. by constructor. Qed.

Lemma endStep_send P e op : sendOk P e → ∃ Q, sendOk (P ++ Q) (endStep cr e op).
Proof.
  intros He. pose proof (se_channel P e He) as Hc.
  destruct op as [data | turn | now turns ackTurn | turn | raw reapNow now stop | size turns |]; cbn [endStep].
  2:{ pose proof (writeRound_ok P (ep_channel e) (ep_rest e) turn Hc) as H.
    destruct (writeRound cr (ep_channel e) (ep_rest e) turn) as [[outcome wires] c]. destruct H as (_ & Q & Hc' & Hw & Ho). exists Q.
    destruct He as [_ Hwires Hbroken (tail & Hstream & Htail)].
    assert (Hwires' : Forall (goodWire cr k (P ++ Q)) (ep_wires e ++ wires)).
    { apply Forall_app. split; [| done]. eapply Forall_impl; [exact Hwires |]. intros. by apply goodWire_mono. }
    assert (Hgen : ∀ n rest broken, concat Q = take n (ep_rest e) → (broken = true → rest = []) → (broken = false → ep_broken e = false ∧ rest = drop n (ep_rest e)) →
      sendOk (P ++ Q) (e <| ep_channel := c |> <| ep_rest := rest |> <| ep_broken := broken |> <| ep_wires := ep_wires e ++ wires |>)).
    { intros n rest broken HQ Hb1 Hb2. constructor; try done. cbn. rewrite concat_app, HQ, Hstream. destruct (ep_broken e) eqn:Eb.
      - rewrite (Hbroken eq_refl), take_nil, app_nil_r. exists tail. split; [done |]. intros E. by destruct (Hb2 E).
      - rewrite (Htail eq_refl). exists (drop n (ep_rest e)). split; [by rewrite <- app_assoc, take_drop | intros E; by destruct (Hb2 E) as [_ ->]]. }
    destruct outcome as [| | n | err]; cbn [afterRound].
    - destruct Ho as [-> Hr]. apply (Hgen 0%nat); [done | done |]. rewrite Hr. destruct (ep_broken e); done.
    - subst Q. apply (Hgen 0%nat); [done | done |]. by destruct (ep_broken e).
    - apply (Hgen n); [done | | by destruct (ep_broken e)]. intros E. by rewrite (Hbroken E), drop_nil.
    - destruct Ho as [n Hn]. by apply (Hgen n). }
  all: exists []; rewrite app_nil_r.
  - destruct (ep_broken e || _) eqn:Eb; [done |]. apply orb_false_iff in Eb as [Eb Er]. destruct He as [_ Hwires Hbroken (tail & Hstream & Htail)].
    constructor; try done; cbn; [by rewrite Eb |]. apply negb_false_iff, Nat.eqb_eq, nil_length_inv in Er. rewrite Hstream, (Htail Eb), Er, app_nil_r.
    by exists data.
  - pose proof (senderTick_ok P (ep_channel e) now turns ackTurn Hc) as H. destruct (senderTick cr _ now turns ackTurn) as [wires c].
    destruct H as (H1 & H2 & _). by apply sendOk_channel.
  - pose proof (sendInitialSoftReset_ok P (ep_channel e) turn Hc) as H. destruct (sendInitialSoftReset cr _ turn) as [[? wires] c].
    destruct H as (H1 & H2 & _). by apply sendOk_channel.
  - destruct (negb (ep_reading e)); [done |]. pose proof (parseIncomingPacket_ok P (ep_channel e) raw reapNow now Hc) as H.
    destruct (parseIncomingPacket cr _ raw reapNow now) as [r c]. destruct H as (H1 & _ & H2). destruct r as [p | err]; [| by apply sendOk_channel_only].
    destruct (IsData _); [by apply sendOk_channel_only |]. pose proof (processIncoming_sender P c p stop H1 H2) as H3.
    destruct (processIncomingControlPacket c p stop) as [outcome c']. destruct (sendOk_channel_only P e c' He H3) as [G1 G2 G3 G4]. by constructor.
  - pose proof (Read_sender P (ep_channel e) size turns Hc) as H. destruct (Read (ep_channel e) size turns) as [r c].
    pose proof (sendOk_channel_only P e c He H) as [G1 G2 G3 G4]. destruct r as [[octets | ?] |]; by constructor.
  - apply sendOk_channel_only; [done |]. destruct Hc as [G1 G2 G3 G4 G5 G6 G7 G8 G9]. by constructor.
Qed.

Lemma endRun_send ops : ∀ P e, sendOk P e → ∃ Q, sendOk (P ++ Q) (endRun cr e ops).
Proof.
  induction ops as [| op ops IH]; intros P e He; [exists []; by rewrite app_nil_r |]. unfold endRun in *. cbn [foldl].
  destruct (endStep_send P e op He) as [Q HQ]. destruct (IH _ _ HQ) as [Q' HQ']. exists (Q ++ Q'). by rewrite app_assoc.
Qed.

End Sending.

(** ** The receiving end *)

(** What sending leaves alone. *)
Definition sameEnd (c c' : tlsControlChannel) : Prop := sameReader c c' ∧ keysOf (ch_protection c') = keysOf (ch_protection c).

Lemma sameEnd_trans c1 c2 c3 : sameEnd c1 c2 → sameEnd c2 c3 → sameEnd c1 c3.
Proof. intros [(? & ? & ?) ?] [(? & ? & ?) ?]. split; [split_and! |]; congruence. Qed.

Lemma sameEnd_outgoing c o : sameEnd c (c <| ch_outgoing := o |>).
Proof. done. Qed.

Lemma insertPacket_same c n newPacket : sameEnd c (insertPacket c n newPacket).2.
Proof. unfold insertPacket. by destruct (InsertOutgoingPacket _ _ _ _) as [[r o] m]. Qed.

Lemma writePacket_same cr c p turn : sameEnd c (writePacket cr c p turn).2.
Proof.
  assert (Hret : ∀ c q, sameEnd c (returnAcknowledgmentsOf c q)) by (intros d q; unfold returnAcknowledgmentsOf; by destruct (_ =? _)).
  unfold writePacket. set (q := if _ && _ then _ else p). destruct (Packet_Bytes q) as [raw | e]; [| apply Hret].
  set (x := if isControlOrAcknowledgmentOpcode _ then _ else _).
  assert (Hx : sameEnd c (c <| ch_protection := x.2 |>)).
  { split; [done |]. cbn. subst x. destruct (isControlOrAcknowledgmentOpcode _); [apply encode_keys | done]. }
  clearbody x. destruct x as [wire s']. cbn [snd] in Hx. cbv zeta. destruct (lt_error turn); [| exact Hx]. eapply sameEnd_trans; [exact Hx | apply Hret].
Qed.

Lemma writeAll_same cr packets : ∀ c turns, sameEnd c (writeAll cr c packets turns).2.
Proof.
  induction packets as [| p packets IH]; intros c turns; cbn [writeAll]; [done |]. pose proof (writePacket_same cr c p (turns O)) as H.
  destruct (writePacket cr c p (turns O)) as [[? ?] c1]. pose proof (IH c1 (λ i, turns (S i))) as H'. destruct (writeAll cr c1 packets _) as [? c2].
  by eapply sameEnd_trans.
Qed.

Lemma writeRound_same cr c buffer turn : sameEnd c (writeRound cr c buffer turn).2.
Proof.
  unfold writeRound. destruct buffer as [| x buffer]; [done |]. destruct (wt_deadlinePassed turn); [done |].
  unfold newOutgoingControlPacket. cbv zeta. set (newPacket := newControl _ _). pose proof (insertPacket_same c MaximumAcknowledgmentsPerPacket newPacket) as H.
  destruct (insertPacket c _ newPacket) as [[[p |] | e] c1]; [| done | done]. pose proof (writePacket_same cr c1 p (wt_link turn)) as H'.
  destruct (writePacket cr c1 p (wt_link turn)) as [[? ?] c2]. by eapply sameEnd_trans.
Qed.

Lemma sendInitialSoftReset_same cr c turn : sameEnd c (sendInitialSoftReset cr c turn).2.
Proof.
  unfold sendInitialSoftReset. pose proof (insertPacket_same c MaximumAcknowledgmentsPerPacket newSoftReset) as H.
  destruct (insertPacket c _ newSoftReset) as [[[p |] | e] c1]; [| done | done]. eapply sameEnd_trans; [exact H | apply writePacket_same].
Qed.

Lemma senderTick_same cr c now turns ackTurn : sameEnd c (senderTick cr c now turns ackTurn).2.
Proof.
  unfold senderTick. destruct (ch_closed c); [done |]. destruct (PacketsReadyToSend _ _) as [packets o].
  pose proof (writeAll_same cr packets (c <| ch_outgoing := o |>) turns) as H. destruct (writeAll cr _ packets turns) as [wires c1].
  assert (H1 : sameEnd c c1) by (eapply sameEnd_trans; [apply sameEnd_outgoing | exact H]). clear H. destruct (_ =? 0); [done |].
  assert (Ha : sameEnd c1 (newAcknowledgmentPacket c1).2).
  { unfold newAcknowledgmentPacket. destruct (nextPacketCarriesWrappedClientKey c1).
    - set (f := newControl _ _). pose proof (insertPacket_same c1 (Z.of_nat AcknowledgmentSetCapacity) f) as H. by destruct (insertPacket c1 _ f) as [[[p |] | e] c2].
    - destruct (TakeAcknowledgmentIDs _ _) as [ids o']. destruct ids; [done |]. by destruct (NewAcknowledgmentPacket _ _). }
  destruct (newAcknowledgmentPacket c1) as [[p | e] c2]; cbn [snd] in Ha; [| by eapply sameEnd_trans].
  pose proof (writePacket_same cr c2 p ackTurn) as H. destruct (writePacket cr c2 p ackTurn) as [[? ?] c3].
  eapply sameEnd_trans; [exact H1 |]. by eapply sameEnd_trans.
Qed.

Section Receiving.
Context (cr : Crypto) (k : tlsControlProtection) (P : payloads).

Definition carries (p : Packet) : Prop := 1 ≤ pkt_ID p ∧ P !! Z.to_nat (pkt_ID p - 1) = Some (pkt_Payload p).

Record readOk (c : tlsControlChannel) (read : bytes) (reading : bool) : Prop := {
  re_ends : endsOk k (ch_protection c);
  re_incoming : in_inv (ch_incoming c);
  re_pending : Forall carries (in_pendingPackets (ch_incoming c));
  re_stream : ∃ lost, read ++ ch_readRemainder c ++ concat (ch_readChunks c) ++ lost = concat (take (Z.to_nat (in_lastConsumedID (ch_incoming c))) P) ∧
    (reading = true → lost = []);
}.

Lemma readOk_same c c' read reading : sameEnd c c' → readOk c read reading → readOk c' read reading.
Proof.
  intros [(E1 & E2 & E3) Ek] [H1 H2 H3 H4]. constructor; rewrite ?E1, ?E2, ?E3; try done. eapply endsOk_keys; [done | exact Ek | done].
Qed.

(** Packets that are next in order carry the payloads that come next. *)
Lemma carries_next ready n :
  Forall carries ready → pkt_ID <$> ready = seqZ (Z.of_nat n + 1) (lenZ ready) → concat (take (n + length ready) P) = concat (take n P) ++ concat (pkt_Payload <$> ready).
Proof.
  revert n. induction ready as [| p ready IH]; intros n Hr Hids; [by rewrite Nat.add_0_r, app_nil_r |].
  apply Forall_cons in Hr as [[Hp Hl] Hr]. unfold lenZ in Hids. cbn [length fmap list_fmap] in Hids. rewrite seqZ_cons in Hids by lia. injection Hids as Hid Hids.
  rewrite Hid in Hl. replace (Z.to_nat (Z.of_nat n + 1 - 1)) with n in Hl by lia.
  replace (n + length (p :: ready))%nat with (S n + length ready)%nat by (cbn; lia). rewrite (IH (S n)).
  - rewrite (take_S_r P n (pkt_Payload p) Hl), concat_app. cbn. by rewrite app_nil_r, <- app_assoc.
  - done.
  - unfold lenZ. rewrite Hids. f_equal; lia.
Qed.

Lemma deliverChunks_prefix packets : ∀ stop,
  let '(chunks, ok) := deliverChunks packets stop in
  ∃ lost, concat chunks ++ lost = concat (pkt_Payload <$> packets) ∧ (ok = true → lost = []).
Proof.
  induction packets as [| p packets IH]; intros stop; cbn [deliverChunks]; [by exists [] |]. cbn [fmap list_fmap concat].
  destruct (pkt_Payload p) as [| x payload]; [apply IH |]. destruct stop as [[| n] |].
  - eexists. split; [done | done].
  - specialize (IH (Some n)). destruct (deliverChunks packets (Some n)) as [chunks ok]. destruct IH as (lost & E & H). exists lost.
    split; [| done]. cbn [concat]. by rewrite <- E, <- app_assoc.
  - specialize (IH None). destruct (deliverChunks packets None) as [chunks ok]. destruct IH as (lost & E & H). exists lost.
    split; [| done]. cbn [concat]. by rewrite <- E, <- app_assoc.
Qed.

Lemma processIncoming_reader c p stop read :
  readOk c read true → (IsControl (pkt_Opcode p) = true → pkt_Opcode p ≠ OpcodeControlSoftResetV1 → isTLSHardResetOpcode (pkt_Opcode p) = false → carries p) →
  0 ≤ pkt_ID p < 2 ^ 32 →
  let '(outcome, c') := processIncomingControlPacket c p stop in readOk c' read (io_continue outcome).
Proof.
  intros Hc Hp Hid. assert (Hon : readOk (onIncoming c p) read true) by (eapply readOk_same; [apply sameEnd_outgoing | done]).
  unfold processIncomingControlPacket. cbv zeta. destruct (negb _); [done |]. destruct (isTLSHardResetOpcode _).
  { destruct (_ || _); [done |]. by destruct (negb _). }
  destruct (Z.eqb_spec (pkt_Opcode p) OpcodeControlSoftResetV1) as [| Hns]. { destruct (negb _); [done |]. by destruct (ch_onSoftReset c). }
  destruct (negb _); [done |]. destruct (negb _); [done |]. destruct (pkt_Opcode p =? _); [done |].
  destruct (IsControl (pkt_Opcode p)) eqn:Hcontrol; [| done]. cbn [negb]. specialize (Hp eq_refl Hns eq_refl). clear Hc.
  destruct Hon as [H1 H2 H3 (lost & H4 & H5)]. rewrite (H5 eq_refl), app_nil_r in H4.
  pose proof (TryInsert_inv (ch_incoming (onIncoming c p)) p H2 Hid) as Hinv. pose proof (TryInsert_spec (ch_incoming (onIncoming c p)) p H2 Hid) as Hspec.
  destruct (TryInsertIncomingPacket (ch_incoming (onIncoming c p)) p) as [inserted incoming]. cbn [snd] in Hinv.
  destruct (decide _) in Hspec; injection Hspec as -> ->; cbn [negb].
  2:{ constructor; try done. exists []. by rewrite app_nil_r. }
  set (i1 := mkIncoming _ _ _) in *. destruct (NextOrderedSequence i1) as [ordered incoming'] eqn:Hn.
  destruct (NextOrdered_spec i1 ordered incoming' Hinv Hn) as (N1 & N2 & N3 & N4 & _).
  assert (Hall : Forall carries (ordered ++ in_pendingPackets incoming')).
  { rewrite <- N4. cbn. apply Forall_app. split; [exact H3 | by constructor]. }
  apply Forall_app in Hall as [Ho Hr]. pose proof (deliverChunks_prefix ordered stop) as Hd. destruct (deliverChunks ordered stop) as [chunks ok].
  destruct Hd as (lost' & D1 & D2). constructor; cbn; [done | done | done |]. exists lost'. split; [| done].
  pose proof (ii_last _ H2) as Hlast. cbn in N2, N3, H4. change (ch_incoming (onIncoming c p)) with (ch_incoming c) in *.
  rewrite N2. replace (Z.to_nat (in_lastConsumedID (ch_incoming c) + lenZ ordered)) with (Z.to_nat (in_lastConsumedID (ch_incoming c)) + length ordered)%nat by (unfold lenZ; lia).
  rewrite carries_next; [| done | rewrite Z2Nat.id by lia; exact N3]. rewrite <- H4, <- D1. cbn. rewrite concat_app, <- !app_assoc. done.
Qed.

Lemma Read_reader size turns : ∀ c read reading,
  readOk c read reading →
  let '(r, c') := Read c size turns in
  readOk c' (match r with Some (Ok octets) => read ++ octets | _ => read end) reading.
Proof.
  assert (Htake : ∀ c read reading, readOk c read reading →
    readOk (c <| ch_readRemainder := drop size (ch_readRemainder c) |>) (read ++ take size (ch_readRemainder c)) reading).
  { intros c read reading [H1 H2 H3 (lost & H4 & H5)]. constructor; try done. exists lost. split; [| done]. cbn. rewrite <- H4.
    rewrite <- (take_drop size (ch_readRemainder c)) at 3. by rewrite <- !app_assoc. }
  induction turns as [| turn turns IH]; intros c read reading Hc; cbn [Read].
  { destruct (ch_readRemainder c) as [| x rem] eqn:Er; [done |]. rewrite <- Er. by apply Htake. }
  destruct (ch_readRemainder c) as [| x rem] eqn:Er; [| rewrite <- Er; by apply Htake].
  destruct turn; [| destruct (ch_closed c); [done | by apply IH] | done].
  destruct (ch_readChunks c) as [| chunk chunks] eqn:Ec; [by apply IH |]. apply IH. destruct Hc as [H1 H2 H3 (lost & H4 & H5)].
  constructor; try done. exists lost. split; [| done]. cbn. rewrite <- H4, Er, Ec. cbn. by rewrite <- !app_assoc.
Qed.

(** A packet the other end sent. *)
Lemma parse_goodWire c raw reapNow now read reading :
  readOk c read reading → goodWire cr k P raw →
  let '(r, c') := parseIncomingPacket cr c raw reapNow now in
  sameEnd c c' ∧ match r with Ok p => ∃ p0, goodPacket P p0 ∧ p = wirePacket p0 | Err _ => True end.
Proof.
  intros Hc (p & packet & Hp & Hb & (rest & ->) & Hdec). unfold parseIncomingPacket. cbv zeta.
  destruct (head_join p (proj1 Hp)) as [Hop _]. rewrite Hop. destruct (goodPacket_opcode P p Hp) as (-> & _ & _ & ->).
  destruct (endsOk_settled _ _ (re_ends _ _ _ Hc)) as [_ Hset].
  pose proof (decode_keys cr (ch_protection c) (headByte p :: rest) reapNow now Hset) as [Hk _].
  specialize (Hdec (ch_protection c) reapNow now (re_ends _ _ _ Hc)).
  destruct (decodeIncomingControlPacket cr (ch_protection c) (headByte p :: rest) reapNow now) as [r s']. cbn [fst snd] in *. split; [done |].
  destruct Hdec as [-> | [e ->]]; [| done]. cbn [mbind result_bind].
  destruct (goodPacket_bytes P p Hp) as (packet' & E & _ & Hparse & _). rewrite Hb in E. injection E as <-. rewrite Hparse. by exists p.
Qed.

Lemma goodPacket_wire p :
  goodPacket P p → 0 ≤ pkt_ID (wirePacket p) < 2 ^ 32 ∧
  (IsControl (pkt_Opcode (wirePacket p)) = true → pkt_Opcode (wirePacket p) ≠ OpcodeControlSoftResetV1 → carries (wirePacket p)).
Proof.
  intros (Hwf & _ & [(Ho & H1 & H2) | [Ho | Ho]]); unfold wirePacket; rewrite Ho; cbn; pose proof (wf_id p Hwf).
  - split; [lia |]. by intros _ _.
  - split; [lia | done].
  - split; [lia | done].
Qed.

Lemma endStep_read e op :
  readOk (ep_channel e) (ep_read e) (ep_reading e) → (∀ raw reapNow now stop, op = EIncoming raw reapNow now stop → goodWire cr k P raw) →
  let e' := endStep cr e op in readOk (ep_channel e') (ep_read e') (ep_reading e').
Proof.
  intros He Hop. destruct op as [data | turn | now turns ackTurn | turn | raw reapNow now stop | size turns |]; cbn [endStep].
  - by destruct (_ || _).
  - pose proof (writeRound_same cr (ep_channel e) (ep_rest e) turn) as H. destruct (writeRound cr _ _ turn) as [[outcome wires] c].
    destruct (afterRound _ _ outcome) as [rest broken]. by eapply readOk_same.
  - pose proof (senderTick_same cr (ep_channel e) now turns ackTurn) as H. destruct (senderTick cr _ now turns ackTurn) as [wires c]. by eapply readOk_same.
  - pose proof (sendInitialSoftReset_same cr (ep_channel e) turn) as H. destruct (sendInitialSoftReset cr _ turn) as [[? wires] c]. by eapply readOk_same.
  - destruct (ep_reading e) eqn:Er; cbn [negb]; [| by rewrite Er]. specialize (Hop raw reapNow now stop eq_refl).
    pose proof (parse_goodWire (ep_channel e) raw reapNow now _ _ He Hop) as H. destruct (parseIncomingPacket cr _ raw reapNow now) as [r c].
    destruct H as [Hs Hr]. assert (Hc : readOk c (ep_read e) true) by by eapply readOk_same. destruct r as [p | err]; [| cbn; by rewrite Er].
    destruct (IsData _); [cbn; by rewrite Er |]. destruct Hr as (p0 & Hp0 & ->). destruct (goodPacket_wire p0 Hp0) as [Hid Hcar].
    pose proof (processIncoming_reader c (wirePacket p0) stop (ep_read e) Hc (λ H1 H2 _, Hcar H1 H2) Hid) as H.
    by destruct (processIncomingControlPacket c (wirePacket p0) stop) as [outcome c'].
  - pose proof (Read_reader size turns (ep_channel e) (ep_read e) (ep_reading e) He) as H. destruct (Read (ep_channel e) size turns) as [r c].
    by destruct r as [[octets | ?] |].
  - by apply (readOk_same (ep_channel e)).
Qed.

Lemma endRun_read ops : ∀ e,
  readOk (ep_channel e) (ep_read e) (ep_reading e) → (∀ raw reapNow now stop, EIncoming raw reapNow now stop ∈ ops → goodWire cr k P raw) →
  let e' := endRun cr e ops in readOk (ep_channel e') (ep_read e') (ep_reading e').
Proof.
  induction ops as [| op ops IH]; intros e He Hops; [done |]. unfold endRun in *. cbn [foldl]. apply IH.
  - apply endStep_read; [done |]. intros raw reapNow now stop ->. eapply Hops. by left.
  - intros raw reapNow now stop Hin. eapply Hops. by right.
Qed.

End Receiving.

(** ** The stream *)

(** A session manager for a session with the remote id known, before its first control packet. *)
Record freshManager (m : SessionManager) : Prop := {
  fm_local : length (sm_localSessionID m) = SessionIDLength;
  fm_remote : length (sm_remoteSessionID m) = SessionIDLength;
  fm_keyID : 0 ≤ sm_keyID m < 8;
  fm_next : sm_localControlPacketID m = 1;
}.

(** The protections of the two ends: none, or made from the same static key. *)
Definition protections (cr : Crypto) (pa pb : tlsControlProtection) : Prop :=
  pa = mkProtection None None [] ∧ pb = mkProtection None None [] ∨ controlEnds cr pa pb.

Lemma protections_ends cr pa pb : Crypto_laws cr → protections cr pa pb → endsOk pa pb ∧ packetID_ok (protSendState pa).
Proof.
  intros Hcr [[-> ->] | Hends]; [split; [by left | done] |]. destruct (controlEnds_pair cr pa pb Hcr Hends) as (Hp & _ & Hst). split; [| by rewrite Hst].
  right. split; [done |]. destruct Hends; unfold settled; cbn; split; by (left + right).
Qed.

Lemma newEndpoint_send cr ma pa pb ra fa :
  Crypto_laws cr → freshManager ma → protections cr pa pb → sendOk cr (keysOf pa) pb [] (newEndpoint (newTLSControlChannel ma pa ra fa)).
Proof.
  intros Hcr [F1 F2 F3 F4] Hprot. destruct (protections_ends cr pa pb Hcr Hprot) as [Hends Hst].
  assert (Hk : endsOk (keysOf pa) pb) by (eapply endsOk_keys; [by rewrite keysOf_idem | done | done]).
  constructor; cbn; try done; [constructor; cbn; try done | by exists []].
  constructor; cbn; [intros f Hf; by apply not_elem_of_nil in Hf | set_solver].
Qed.

(** C11: the control channel is a reliable stream: whatever the two ends do, in any
    interleaving of writes, ticks, reads and arrivals, and whatever the network
    loses, repeats or reorders of the packets of one end and feeds to its peers
    (to that end it may even deliver forgeries), the octets the other end has read
    are a prefix of those that were written; without protection as well as with
    tls-auth and tls-crypt. *)
Theorem control_stream_prefix cr ma mb pa pb ra rb fa fb opsA opsB :
  Crypto_laws cr → freshManager ma → protections cr pa pb →
  let a := endRun cr (newEndpoint (newTLSControlChannel ma pa ra fa)) opsA in
  let b := endRun cr (newEndpoint (newTLSControlChannel mb pb rb fb)) opsB in
  (∀ raw reapNow now stop, EIncoming raw reapNow now stop ∈ opsB → raw ∈ ep_wires a) →
  ep_read b `prefix_of` ep_written a.
Proof.
  intros Hcr Hm Hprot a b Hnet. destruct (protections_ends cr pa pb Hcr Hprot) as [Hends _].
  assert (Hk : endsOk (keysOf pa) pb) by (eapply endsOk_keys; [by rewrite keysOf_idem | done | done]).
  destruct (endRun_send cr Hcr (keysOf pa) pb opsA [] _ (newEndpoint_send cr ma pa pb ra fa Hcr Hm Hprot)) as [P HP].
  cbn [app] in HP. destruct HP as [_ Hwires _ (tail & Hstream & _)]. change (endRun cr _ opsA) with a in Hwires, Hstream.
  pose proof (endRun_read cr (keysOf pa) P opsB (newEndpoint (newTLSControlChannel mb pb rb fb))) as Hread. cbv zeta in Hread. fold b in Hread.
  destruct Hread as [_ _ _ (lost & Hl & _)].
  - constructor; cbn; [done | apply NewIncoming_inv | constructor | by exists []].
  - intros raw reapNow now stop Hin. rewrite Forall_forall in Hwires. apply Hwires. by eapply Hnet.
  - rewrite Hstream. set (n := Z.to_nat _) in Hl. rewrite <- (take_drop n P), concat_app, <- Hl.
    exists (ch_readRemainder (ep_channel b) ++ concat (ch_readChunks (ep_channel b)) ++ lost ++ concat (drop n P) ++ tail). by rewrite <- !app_assoc.
Qed.

(** ** Sizes *)

Lemma next_length s t1 t2 : length (next s t1 t2).1 = 8%nat.
Proof. unfold next. cbv zeta. cbn [fst]. by rewrite length_app, !length_PutUint32. Qed.

Lemma encode_length cr s r raw t1 t2 :
  Crypto_laws cr → endsOk s r → lenZ (encodeOutgoingControlPacket cr s raw t1 t2).1 ≤ lenZ raw + Z.of_nat (controlPacketOverhead s).
Proof.
  intros Hcr [[Hs _] | (Hp & Hset & _)]; [apply unprotected_eq in Hs as ->; cbn; lia |].
  destruct s as [auth [c |] sk], r as [rauth [d |] rk]; cbn in Hp; try done; unfold encodeOutgoingControlPacket, controlPacketOverhead; cbn [cp_crypt cp_auth cp_cryptV2ServerKey].
  - rewrite bool_decide_eq_true_2 by by left. unfold crypt_encodeControlPacket. case_bool_decide; [cbn; lia |].
    destruct (next (ck_sendState c) t1 t2) as [pid st] eqn:Hn. cbn [fst ck_sendEncryptBlock ck_sendAuthKey]. destruct Hp as [_ Hb].
    pose proof (next_length (ck_sendState c) t1 t2) as Hpid. rewrite Hn in Hpid. cbn [fst] in Hpid.
    destruct (CTR_inverse (ck_sendEncryptBlock c) (take tlsCryptBlockLength (sha256 cr (ck_sendAuthKey c) (take tlsControlHeaderLength raw ++ pid ++ drop tlsControlHeaderLength raw)))
      (drop tlsControlHeaderLength raw) Hb) as [Hlen _].
    unfold lenZ. rewrite !length_app, Hlen, sha256_length, Hpid, length_take, length_drop by done.
    unfold tlsControlPacketIDLength, tlsCryptTagLength, tlsCryptBlockLength. lia.
  - destruct auth as [a |], rauth as [b |]; try done. unfold auth_encodeControlPacket. case_bool_decide; [cbn; lia |].
    destruct (next (ca_sendState a) t1 t2) as [pid st] eqn:Hn. cbn [fst ca_hash ca_sendKey].
    pose proof (next_length (ca_sendState a) t1 t2) as Hpid. rewrite Hn in Hpid. cbn [fst] in Hpid.
    destruct Hp as (_ & _ & _ & Hd). destruct Hset as [? | Hsk]; [done |]. cbn in Hsk. subst sk. rewrite bool_decide_eq_false_2 by (cbn; intuition lia).
    unfold lenZ. rewrite !length_app, Hd, Hpid, length_take, length_drop. unfold tlsControlPacketIDLength. lia.
Qed.

Lemma controlBody_length p :
  Packet_wf p → pkt_Opcode p = OpcodeControlV1 →
  lenZ (headByte p :: controlBody p) = 14 + lenZ (pkt_Payload p) + 4 * lenZ (pkt_AcknowledgmentIDs p) + (if decide (0 < length (pkt_AcknowledgmentIDs p))%nat then 8 else 0).
Proof.
  intros Hwf Ho. unfold lenZ, controlBody. rewrite Ho. cbn [length]. rewrite !length_app, length_PutUint32s, (wf_local p Hwf).
  change (OpcodeControlV1 =? OpcodeAcknowledgmentV1) with false. cbv iota. cbn [length]. rewrite length_PutUint32. unfold SessionIDLength. destruct (decide _); [rewrite (wf_remote p Hwf); unfold SessionIDLength |]; cbn [length]; lia.
Qed.

(** The states an end reaches. *)
Lemma reachable_chanOk cr ma pa pb ra fa ops :
  Crypto_laws cr → freshManager ma → protections cr pa pb →
  ∃ P, chanOk (keysOf pa) pb P (ep_channel (endRun cr (newEndpoint (newTLSControlChannel ma pa ra fa)) ops)).
Proof.
  intros Hcr Hm Hprot. destruct (endRun_send cr Hcr (keysOf pa) pb ops [] _ (newEndpoint_send cr ma pa pb ra fa Hcr Hm Hprot)) as [P HP]. exists P. apply HP.
Qed.

Lemma controlPacket_size cr k r P c pendingCount buffer packet n c' turn e wires c'' :
  Crypto_laws cr → chanOk k r P c → 0 ≤ pendingCount ≤ PendingAcknowledgmentCount (ch_outgoing c) → (controlPacketOverhead (ch_protection c) ≤ 72)%nat →
  newOutgoingControlPacket c pendingCount buffer = (Ok (Some (packet, n)), c') → writePacket cr c' packet turn = (e, wires, c'') →
  Forall (λ wire, let size := lenZ wire + controlChannelDatagramOverhead (ch_remoteIs4 c) in
    size ≤ tlsControlPayloadSize + 24 ∧ (pendingCount = PendingAcknowledgmentCount (ch_outgoing c) → size ≤ tlsControlPayloadSize)) wires.
Proof.
  intros Hcr Hc Hpend Hover Hnew Hwrite. unfold newOutgoingControlPacket, nextPacketCarriesWrappedClientKey in Hnew. rewrite (co_key _ _ _ _ Hc) in Hnew.
  cbn [length Nat.ltb Nat.leb andb] in Hnew. cbv zeta in Hnew. set (payloadSize := Z.min tlsControlPayloadSize tlsControlChannelMTU - _) in Hnew.
  set (chunk := Z.to_nat _) in Hnew.
  assert (Hacks : ∀ ids, acksOk MaximumAcknowledgmentsPerPacket ids → acksOk 255 ids).
  { intros ids [H1 H2]. split; [done |]. unfold MaximumAcknowledgmentsPerPacket in H2. lia. }
  pose proof (insertPacket_ok k r P [take chunk buffer] c MaximumAcknowledgmentsPerPacket (newControl OpcodeControlV1 (take chunk buffer)) ltac:(done) Hc
    (λ ids H, newControl_good k r P c (take chunk buffer) ids Hc (Hacks ids H))) as Hi.
  unfold insertPacket in *. destruct (InsertOutgoingPacket (ch_outgoing c) _ _ _) as [[res o] m] eqn:Hins.
  destruct res as [[p |] | err]; [| done | done]. injection Hnew as -> <- <-. destruct Hi as (_ & Hc1 & Hgood).
  apply Insert_ok_spec in Hins as (_ & ids & Hids & Hctl & _ & _).
  assert (Hpacket : pkt_AcknowledgmentIDs packet = ids ∧ pkt_Payload packet = take chunk buffer ∧ pkt_Opcode packet = OpcodeControlV1).
  { unfold newControl, NewControlPacket in Hctl. change (negb (IsControl OpcodeControlV1)) with false in Hctl. cbv iota in Hctl.
    destruct (_ =? MaxUint32) in Hctl; [done |]. cbn in Hctl. by injection Hctl as <- _. }
  destruct Hpacket as (Ea & Ep & Eo). destruct (goodPacket_bytes _ packet Hgood) as (raw & Eb & Eraw & _).
  pose proof (controlBody_length packet (proj1 Hgood) Eo) as Hlen. rewrite <- Eraw, Ea, Ep in Hlen.
  set (c1 := c <| ch_outgoing := o |> <| ch_sessionManager := m |>) in *.
  unfold writePacket in Hwrite. assert (Hkey : ∀ d q, ch_wrappedClientKey d = [] → shouldSendWrappedClientKey d q = false).
  { intros d q E. unfold shouldSendWrappedClientKey. by rewrite E. }
  rewrite (Hkey c1) in Hwrite by apply Hc. cbn [andb] in Hwrite. rewrite Eb, Eo in Hwrite. change (isControlOrAcknowledgmentOpcode OpcodeControlV1) with true in Hwrite. cbv iota in Hwrite.
  pose proof (encode_length cr (ch_protection c1) r raw (lt_unixNow turn) (lt_wrapNow turn) Hcr (chanOk_ends k r _ c1 Hc1)) as Henc.
  destruct (encodeOutgoingControlPacket cr (ch_protection c1) raw _ _) as [wire s']. cbn [fst] in Henc. rewrite (Hkey (c1 <| ch_protection := s' |>)) in Hwrite by apply Hc.
  assert (wires = [wire]) as -> by (destruct (lt_error turn); by injection Hwrite as _ <- _). clear Hwrite. apply Forall_singleton.
  change (ch_protection c1) with (ch_protection c) in Henc.
  assert (Hn : lenZ ids = Z.min (PendingAcknowledgmentCount (ch_outgoing c)) 4).
  { assert (E : length (sortedIDs (out_pendingAcknowledgmentID (ch_outgoing c))) = size (out_pendingAcknowledgmentID (ch_outgoing c))) by (rewrite sortedIDs_perm; done).
    rewrite Hids. unfold lenZ, PendingAcknowledgmentCount, MaximumAcknowledgmentsPerPacket. rewrite length_take, E. lia. }
  assert (Hsize : lenZ (take chunk buffer) ≤ Z.max 0 payloadSize) by (unfold lenZ; rewrite length_take; lia).
  assert (Hn' : (0 < length ids)%nat ↔ 0 < lenZ ids) by (unfold lenZ; lia).
  unfold payloadSize, controlChannelFrameOverhead, acknowledgmentArrayLength, MaximumAcknowledgmentsPerPacket, tlsControlPayloadSize, tlsControlChannelMTU, SessionIDLength, PacketIDLength in *.
  assert (28 ≤ controlChannelDatagramOverhead (ch_remoteIs4 c) ≤ 48) by (destruct (ch_remoteIs4 c); by vm_compute).
  cbv zeta in *. destruct (decide (0 < length ids)%nat), (Z.eqb_spec (pendingCount `min` 4) 0); split; lia.
Qed.

Lemma staticHMACFactory_size authName hash n : staticHMACFactory authName = Ok (hash, n) → (n ≤ 64)%nat.
Proof. unfold staticHMACFactory. intros H. repeat (destruct (decide _) in H; [injection H as _ <-; lia |]). done. Qed.

Lemma controlPacketOverhead_keys p : controlPacketOverhead (keysOf p) = controlPacketOverhead p.
Proof.
  destruct p as [auth [c |] sk]; unfold controlPacketOverhead; cbn [keysOf cp_crypt cp_auth cp_cryptV2ServerKey fmap option_fmap option_map].
  - rewrite !bool_decide_eq_true_2; [done | by left | by left].
  - by destruct auth.
Qed.

(** The protections of an end leave room for a payload. *)
Lemma protections_overhead cr pa pb : protections cr pa pb → (controlPacketOverhead pa ≤ 72)%nat.
Proof.
  intros [[-> _] | [km authName ds dr a b _ Ha _ | km ds dr a b _ _ _]]; unfold controlPacketOverhead; cbn [newSessionProtection cp_crypt cp_auth cp_cryptV2ServerKey fmap option_fmap option_map].
  - by vm_compute; lia.
  - rewrite bool_decide_eq_false_2 by (cbn; intuition lia). unfold newControlAuthCodecWithAuth in Ha.
    destruct (staticHMACFactory authName) as [[hash n] |] eqn:Hf; [| done]. cbn [mbind result_bind] in Ha. apply staticHMACFactory_size in Hf.
    destruct (decide (n = 0%nat)); [done |]. destruct (resolveStaticKeyDirection ds) as [[? ?] ?]. injection Ha as <-. cbn [auth_newSessionCodec ca_digestSize].
    unfold tlsControlPacketIDLength. lia.
  - rewrite bool_decide_eq_true_2 by by left. unfold tlsControlPacketIDLength, tlsCryptTagLength, tlsCryptBlockLength. lia.
Qed.

(** C24: control packets fit the path: in every state of a channel, a packet with a
    chunk of the TLS stream, with its protection and the headers of IP and UDP, is
    at most 1024 octets long when no acknowledgment came in while it was being
    made, and in any case at most 1048, within the 1250 octets of the control
    channel. *)
Theorem control_packets_fit cr ma pa pb ra fa ops pendingCount buffer packet n c' turn e wires c'' :
  Crypto_laws cr → freshManager ma → protections cr pa pb →
  let c := ep_channel (endRun cr (newEndpoint (newTLSControlChannel ma pa ra fa)) ops) in
  0 ≤ pendingCount ≤ PendingAcknowledgmentCount (ch_outgoing c) →
  newOutgoingControlPacket c pendingCount buffer = (Ok (Some (packet, n)), c') → writePacket cr c' packet turn = (e, wires, c'') →
  tlsControlPayloadSize + 24 ≤ tlsControlChannelMTU ∧
  Forall (λ wire, let size := lenZ wire + controlChannelDatagramOverhead (ch_remoteIs4 c) in
    size ≤ tlsControlPayloadSize + 24 ∧ (pendingCount = PendingAcknowledgmentCount (ch_outgoing c) → size ≤ tlsControlPayloadSize)) wires.
Proof.
  intros Hcr Hm Hprot c Hpend Hnew Hwrite. split; [done |]. destruct (reachable_chanOk cr ma pa pb ra fa ops Hcr Hm Hprot) as [P Hc]. fold c in Hc. clearbody c.
  pose proof (protections_overhead cr pa pb Hprot) as Hover. rewrite <- (controlPacketOverhead_keys pa), <- (co_keys _ _ _ _ Hc), controlPacketOverhead_keys in Hover.
  eapply (controlPacket_size cr (keysOf pa) pb P); try done.
Qed.

(** ** Witnesses *)

Definition exampleManager (local remote : byte) : SessionManager :=
  SetRemoteSessionID (NewSessionManagerWithLocalID (replicate 8 local)) (replicate 8 remote).

Definition exampleTurn : linkTurn := mkTurn 1000 1000 None.

Definition exampleWriter : endpoint :=
  endRun exampleCrypto (newEndpoint (newTLSControlChannel (exampleManager x01 x02) (exampleAuth 1) true true))
    [EWrite [x61; x62; x63]; EWriteRound (mkWriteTurn false 0 exampleTurn); ETick Second (λ _, exampleTurn) exampleTurn].

Lemma exampleManager_fresh : freshManager (exampleManager x01 x02).
Proof. by constructor. Qed.

Lemma exampleProtections : protections exampleCrypto (exampleAuth 1) (exampleAuth 0).
Proof.
  right. apply (ends_auth _ exampleKeyMaterial "SHA256" 1 0); [done | vm_compute; reflexivity | vm_compute; reflexivity].
Qed.

Lemma control_stream_prefix_witness :
  let wire := hd [] (ep_wires exampleWriter) in
  let opsB := [EIncoming wire Second Second None; EIncoming wire Second Second None; ERead 10 [ReadChunk]] in
  ep_read (endRun exampleCrypto (newEndpoint (newTLSControlChannel (exampleManager x02 x01) (exampleAuth 0) true true)) opsB)
    `prefix_of` ep_written exampleWriter.
Proof.
  intros wire opsB. apply (control_stream_prefix exampleCrypto (exampleManager x01 x02) (exampleManager x02 x01) (exampleAuth 1) (exampleAuth 0)).
  - apply exampleCrypto_laws.
  - apply exampleManager_fresh.
  - apply exampleProtections.
  - intros raw reapNow now stop Hin.
    assert (Hraw : raw = wire) by (repeat (apply elem_of_cons in Hin as [Hin | Hin]; [by (injection Hin as -> || discriminate Hin) |]); by apply not_elem_of_nil in Hin).
    rewrite Hraw. apply (bool_decide_unpack _). vm_compute. done.
Defined.

(** The octets do arrive. *)
Lemma control_stream_delivers :
  ep_read (endRun exampleCrypto (newEndpoint (newTLSControlChannel (exampleManager x02 x01) (exampleAuth 0) true true))
    [EIncoming (hd [] (ep_wires exampleWriter)) Second Second None; ERead 10 [ReadChunk]]) = [x61; x62; x63].
Proof. vm_compute. reflexivity. Qed.

Lemma control_packets_fit_witness :
  let c := newTLSControlChannel (exampleManager x01 x02) (exampleAuth 1) true true in
  Forall (λ wire, lenZ wire + controlChannelDatagramOverhead true ≤ tlsControlPayloadSize)
    (match newOutgoingControlPacket c 0 (replicate 2000 x61) with
     | (Ok (Some (packet, _)), c') => (writePacket exampleCrypto c' packet exampleTurn).1.2
     | _ => []
     end).
Proof.
  intros c. destruct (newOutgoingControlPacket c 0 (replicate 2000 x61)) as [[[[packet n] |] |] c'] eqn:Hn; [| constructor | constructor].
  destruct (writePacket exampleCrypto c' packet exampleTurn) as [[e wires] c''] eqn:Hw.
  destruct (control_packets_fit exampleCrypto (exampleManager x01 x02) (exampleAuth 1) (exampleAuth 0) true true [] 0 (replicate 2000 x61) packet n c' exampleTurn e wires c''
    exampleCrypto_laws exampleManager_fresh exampleProtections) as [_ H]; [by vm_compute | exact Hn | exact Hw |].
  eapply Forall_impl; [exact H |]. intros wire [_ Hsize]. by apply Hsize.
Defined.
