(* ===== verification/CertSubject.v ===== *)
(** * Names of certificates ([certificate_subject.go])

    The subject of a certificate is DER.  What the code uses of [encoding/asn1] comes
    first: tags and lengths, object identifiers, raw values and bit strings.  Offsets
    into a slice are the rest of the slice here.  A Go string is the list of its
    octets. *)

From S2P Require Import Prelude GoStrings Options.

(** ** [encoding/asn1] *)

Definition SyntaxError (message : string) : goerr := ErrNew ("asn1: syntax error: " +:+ message).
Definition StructuralError (message : string) : goerr := ErrNew ("asn1: structure error: " +:+ message).

Definition MaxInt32 : Z := 2147483647.

Fixpoint base128Loop (l : bytes) (shifted : nat) (ret64 : Z) : result (Z * bytes) :=
  match l with
  | [] => Err (SyntaxError "truncated base 128 integer")
  | b :: l =>
      if (shifted =? 5)%nat then Err (StructuralError "base 128 integer too large") else
      if (shifted =? 0)%nat && bool_decide (b = x80) then Err (SyntaxError "integer is not minimally encoded") else
      let ret64 := Z.lor (Z.shiftl ret64 7) (Z.land (b2z b) 127) in
      if Z.land (b2z b) 128 =? 0
      then if MaxInt32 <? ret64 then Err (StructuralError "base 128 integer too large") else Ok (ret64, l)
      else base128Loop l (S shifted) ret64
  end.

Definition parseBase128Int (l : bytes) : result (Z * bytes) := base128Loop l 0 0.

Record tagAndLength := mkTag { tl_class : Z; tl_tag : Z; tl_length : nat; tl_isCompound : bool }.

Definition ClassUniversal : Z := 0.
Definition TagBitString : Z := 3.
Definition TagOID : Z := 6.
Definition TagUTF8String : Z := 12.
Definition TagSequence : Z := 16.
Definition TagSet : Z := 17.
Definition TagNumericString : Z := 18.
Definition TagPrintableString : Z := 19.
Definition TagT61String : Z := 20.
Definition TagIA5String : Z := 22.
Definition TagUTCTime : Z := 23.
Definition TagGeneralizedTime : Z := 24.
Definition TagBMPString : Z := 30.

(** The octets of a long length. *)
Fixpoint lengthLoop (l : bytes) (numBytes : nat) (length : Z) : result (Z * bytes) :=
  match numBytes with
  | O => if length <? 128 then Err (StructuralError "non-minimal length") else Ok (length, l)
  | S numBytes =>
      match l with
      | [] => Err (SyntaxError "truncated tag or length")
      | b :: l =>
          if Z.shiftl 1 23 <=? length then Err (StructuralError "length too large") else
          let length := Z.lor (Z.shiftl length 8) (b2z b) in
          if length =? 0 then Err (StructuralError "superfluous leading zeros in length") else lengthLoop l numBytes length
      end
  end.

Definition parseTagAndLength (l : bytes) : result (tagAndLength * bytes) :=
  match l with
  | [] => Err (ErrNew "asn1: internal error in parseTagAndLength")
  | b :: l =>
      let class := Z.shiftr (b2z b) 6 in
      let isCompound := Z.land (b2z b) 32 =? 32 in
      let tag := Z.land (b2z b) 31 in
      '(tag, l) ← (if tag =? 31 then
                     '(tag, l) ← parseBase128Int l; if tag <? 31 then Err (SyntaxError "non-minimal tag") else Ok (tag, l)
                   else Ok (tag, l));
      match l with
      | [] => Err (SyntaxError "truncated tag or length")
      | b :: l =>
          if Z.land (b2z b) 128 =? 0 then Ok (mkTag class tag (Z.to_nat (Z.land (b2z b) 127)) isCompound, l) else
          let numBytes := Z.to_nat (Z.land (b2z b) 127) in
          if (numBytes =? 0)%nat then Err (SyntaxError "indefinite length found (not DER)") else
          '(length, l) ← lengthLoop l numBytes 0; Ok (mkTag class tag (Z.to_nat length) isCompound, l)
      end
  end.

(** The contents of the next value, and what follows it. *)
Definition nextValue (l : bytes) : result (tagAndLength * bytes * bytes) :=
  match l with
  | [] => Err (SyntaxError "sequence truncated")
  | _ =>
      '(t, l) ← parseTagAndLength l;
      if (length l <? tl_length t)%nat then Err (SyntaxError "data truncated") else Ok (t, take (tl_length t) l, drop (tl_length t) l)
  end.

Record RawValue := mkRaw { rv_Class : Z; rv_Tag : Z; rv_IsCompound : bool; rv_Bytes : bytes }.

Definition unmarshalRaw (l : bytes) : result (RawValue * bytes) :=
  '(t, content, rest) ← nextValue l; Ok (mkRaw (tl_class t) (tl_tag t) (tl_isCompound t) content, rest).

(** A value of a given universal type. *)
Definition expectValue (tag : Z) (compound : bool) (l : bytes) : result (bytes * bytes) :=
  '(t, content, rest) ← nextValue l;
  if negb (tl_class t =? ClassUniversal) || negb (tl_tag t =? tag) || negb (Bool.eqb (tl_isCompound t) compound)
  then Err (StructuralError "tags don't match") else Ok (content, rest).

Fixpoint identifierLoop (fuel : nat) (l : bytes) : result (list Z) :=
  match l, fuel with
  | [], _ => Ok []
  | _, O => Err (SyntaxError "truncated base 128 integer")
  | _, S fuel => '(v, l) ← parseBase128Int l; rest ← identifierLoop fuel l; Ok (v :: rest)
  end.

Definition decodeObjectIdentifier (l : bytes) : result (list Z) :=
  match l with
  | [] => Err (SyntaxError "zero length OBJECT IDENTIFIER")
  | _ =>
      '(v, rest) ← parseBase128Int l;
      s ← identifierLoop (length rest) rest;
      Ok ((if v <? 80 then [v / 40; v mod 40] else [2; v - 80]) ++ s)
  end.

Definition unmarshalIdentifier (l : bytes) : result (list Z * bytes) :=
  '(content, rest) ← expectValue TagOID false l; identifier ← decodeObjectIdentifier content; Ok (identifier, rest).

Record BitString := mkBits { bs_Bytes : bytes; bs_BitLength : Z }.

Definition decodeBitString (l : bytes) : result BitString :=
  match l with
  | [] => Err (SyntaxError "zero length BIT STRING")
  | padding :: content =>
      let paddingBits := b2z padding in
      if (7 <? paddingBits) || ((length content =? 0)%nat && (0 <? paddingBits)) ||
         negb (Z.land (b2z (List.last l x00)) (Z.shiftl 1 paddingBits - 1) =? 0)
      then Err (SyntaxError "invalid padding bits in BIT STRING")
      else Ok (mkBits content (lenZ content * 8 - paddingBits))
  end.

Definition bitAt (b : BitString) (i : Z) : Z :=
  if (i <? 0) || (bs_BitLength b <=? i) then 0
  else Z.land (Z.shiftr (b2z (default x00 (bs_Bytes b !! Z.to_nat (i / 8)))) (7 - i mod 8)) 1.

Definition unmarshalBitString (l : bytes) : result BitString :=
  '(content, _) ← expectValue TagBitString false l; decodeBitString content.

Fixpoint identifiersLoop (fuel : nat) (l : bytes) : result (list (list Z)) :=
  match l, fuel with
  | [], _ => Ok []
  | _, O => Err (SyntaxError "sequence truncated")
  | _, S fuel => '(identifier, l) ← unmarshalIdentifier l; rest ← identifiersLoop fuel l; Ok (identifier :: rest)
  end.

(** [[]asn1.ObjectIdentifier] *)
Definition unmarshalIdentifiers (l : bytes) : result (list (list Z)) :=
  '(content, _) ← expectValue TagSequence true l; identifiersLoop (length content) content.

(** ** Distinguished names *)

Record distinguishedNameAttribute := mkAttribute { da_Type : list Z; da_Value : RawValue }.

(** Fields after the second are ignored. *)
Definition unmarshalAttribute (l : bytes) : result (distinguishedNameAttribute * bytes) :=
  '(content, rest) ← expectValue TagSequence true l;
  '(identifier, content) ← unmarshalIdentifier content;
  '(value, _) ← unmarshalRaw content;
  Ok (mkAttribute identifier value, rest).

Fixpoint attributesLoop (fuel : nat) (l : bytes) : result (list distinguishedNameAttribute) :=
  match l, fuel with
  | [], _ => Ok []
  | _, O => Err (SyntaxError "sequence truncated")
  | _, S fuel => '(attribute, l) ← unmarshalAttribute l; rest ← attributesLoop fuel l; Ok (attribute :: rest)
  end.

Fixpoint relativeNamesLoop (fuel : nat) (l : bytes) : result (list (list distinguishedNameAttribute)) :=
  match l, fuel with
  | [], _ => Ok []
  | _, O => Err (SyntaxError "sequence truncated")
  | _, S fuel =>
      '(relativeName, l) ← unmarshalRaw l;
      if negb (rv_Class relativeName =? ClassUniversal) || negb (rv_Tag relativeName =? TagSet)
      then Err (ErrNew "malformed certificate relative name") else
      attributes ← attributesLoop (length (rv_Bytes relativeName)) (rv_Bytes relativeName);
      rest ← relativeNamesLoop fuel l;
      Ok (attributes :: rest)
  end.

Definition parseDistinguishedName (rawName : bytes) : result (list (list distinguishedNameAttribute)) :=
  '(nameSequence, trailing) ← unmarshalRaw rawName;
  if (0 <? length trailing)%nat || negb (rv_Class nameSequence =? ClassUniversal) || negb (rv_Tag nameSequence =? TagSequence)
  then Err (ErrNew "malformed certificate name") else
  relativeNamesLoop (length (rv_Bytes nameSequence)) (rv_Bytes nameSequence).

(** ** Rendering *)

Definition asn1TagVisibleString : Z := 26.
Definition asn1TagUniversalString : Z := 28.

Definition openSSLCharacterWidth (value : RawValue) : Z :=
  if negb (rv_Class value =? ClassUniversal) then -1 else
  if rv_Tag value =? TagUTF8String then 0 else
  if bool_decide (rv_Tag value ∈ [TagNumericString; TagPrintableString; TagT61String; TagIA5String; TagUTCTime; TagGeneralizedTime; asn1TagVisibleString]) then 1 else
  if rv_Tag value =? TagBMPString then 2 else
  if rv_Tag value =? asn1TagUniversalString then 4 else -1.

(** [byte(character >> n) & m | k] *)
Definition utf8Octet (character n m k : Z) : byte := z2b (Z.lor (Z.land (u8 (Z.shiftr character n)) m) k).

Definition appendOpenSSLUTF8 (destination : bytes) (character : Z) : bytes :=
  let tail n := utf8Octet character n 63 128 in
  if character <? 128 then destination ++ [z2b character] else
  if character <? 2048 then destination ++ [utf8Octet character 6 31 192; tail 0] else
  if character <? 65536 then destination ++ [utf8Octet character 12 15 224; tail 6; tail 0] else
  if character <? 2097152 then destination ++ [utf8Octet character 18 7 240; tail 12; tail 6; tail 0] else
  if character <? 67108864 then destination ++ [utf8Octet character 24 3 248; tail 18; tail 12; tail 6; tail 0] else
  destination ++ [utf8Octet character 30 1 252; tail 24; tail 18; tail 12; tail 6; tail 0].

Fixpoint wideLoop (fuel : nat) (content : bytes) (characterWidth : nat) (converted : bytes) : bytes :=
  match content, fuel with
  | [], _ | _, O => converted
  | _, S fuel =>
      let character := foldl (λ character unit, Z.lor (u32 (Z.shiftl character 8)) (b2z unit)) 0 (take characterWidth content) in
      wideLoop fuel (drop characterWidth content) characterWidth (appendOpenSSLUTF8 converted character)
  end.

Definition convertOpenSSLWideString (content : bytes) (characterWidth : Z) : result bytes :=
  if negb (lenZ content mod characterWidth =? 0) then Err (ErrNew "malformed certificate name attribute value")
  else Ok (wideLoop (length content) content (Z.to_nat characterWidth) []).

Definition openSSLHexDigits : bytes := bytesOf "0123456789ABCDEF".

Definition hexDigit (n : Z) : byte := default x00 (openSSLHexDigits !! Z.to_nat n).

Definition isControl (character : byte) : bool := (b2z character <? 32) || (b2z character =? 127).

Definition backslash : byte := x5c.

Definition escapeOpenSSLControlCharacters (value : bytes) : bytes :=
  value ≫= λ character,
    if isControl character then [backslash; hexDigit (Z.shiftr (b2z character) 4); hexDigit (Z.land (b2z character) 15)]
    else if bool_decide (character = backslash) then [backslash; backslash] else [character].

Definition remapNonPrintableCharacters (value : bytes) : bytes := (λ character, if isControl character then x5f else character) <$> value.

Definition printAttributeValue (value : RawValue) : result bytes :=
  let characterWidth := openSSLCharacterWidth value in
  if characterWidth =? 0 then Ok (escapeOpenSSLControlCharacters (rv_Bytes value)) else
  let characterWidth := if characterWidth <? 0 then 1 else characterWidth in
  converted ← convertOpenSSLWideString (rv_Bytes value) characterWidth; Ok (escapeOpenSSLControlCharacters converted).

Definition commonNameAttributeOID : list Z := [2; 5; 4; 3].

Definition openSSLAttributeTypeShortNames : list (string * string) :=
  [("0.9.2342.19200300.100.1.1", "UID"); ("0.9.2342.19200300.100.1.2", "textEncodedORAddress"); ("0.9.2342.19200300.100.1.3", "mail");
   ("0.9.2342.19200300.100.1.4", "info"); ("0.9.2342.19200300.100.1.5", "favouriteDrink"); ("0.9.2342.19200300.100.1.6", "roomNumber");
   ("0.9.2342.19200300.100.1.7", "photo"); ("0.9.2342.19200300.100.1.8", "userClass"); ("0.9.2342.19200300.100.1.9", "host");
   ("0.9.2342.19200300.100.1.10", "manager"); ("0.9.2342.19200300.100.1.11", "documentIdentifier"); ("0.9.2342.19200300.100.1.12", "documentTitle");
   ("0.9.2342.19200300.100.1.13", "documentVersion"); ("0.9.2342.19200300.100.1.14", "documentAuthor"); ("0.9.2342.19200300.100.1.15", "documentLocation");
   ("0.9.2342.19200300.100.1.20", "homeTelephoneNumber"); ("0.9.2342.19200300.100.1.21", "secretary"); ("0.9.2342.19200300.100.1.22", "otherMailbox");
   ("0.9.2342.19200300.100.1.23", "lastModifiedTime"); ("0.9.2342.19200300.100.1.24", "lastModifiedBy"); ("0.9.2342.19200300.100.1.25", "DC");
   ("0.9.2342.19200300.100.1.26", "aRecord"); ("0.9.2342.19200300.100.1.27", "pilotAttributeType27"); ("0.9.2342.19200300.100.1.28", "mXRecord");
   ("0.9.2342.19200300.100.1.29", "nSRecord"); ("0.9.2342.19200300.100.1.30", "sOARecord"); ("0.9.2342.19200300.100.1.31", "cNAMERecord");
   ("0.9.2342.19200300.100.1.37", "associatedDomain"); ("0.9.2342.19200300.100.1.38", "associatedName"); ("0.9.2342.19200300.100.1.39", "homePostalAddress");
   ("0.9.2342.19200300.100.1.40", "personalTitle"); ("0.9.2342.19200300.100.1.41", "mobileTelephoneNumber"); ("0.9.2342.19200300.100.1.42", "pagerTelephoneNumber");
   ("0.9.2342.19200300.100.1.43", "friendlyCountryName"); ("0.9.2342.19200300.100.1.44", "uid"); ("0.9.2342.19200300.100.1.45", "organizationalStatus");
   ("0.9.2342.19200300.100.1.46", "janetMailbox"); ("0.9.2342.19200300.100.1.47", "mailPreferenceOption"); ("0.9.2342.19200300.100.1.48", "buildingName");
   ("0.9.2342.19200300.100.1.49", "dSAQuality"); ("0.9.2342.19200300.100.1.50", "singleLevelQuality"); ("0.9.2342.19200300.100.1.51", "subtreeMinimumQuality");
   ("0.9.2342.19200300.100.1.52", "subtreeMaximumQuality"); ("0.9.2342.19200300.100.1.53", "personalSignature"); ("0.9.2342.19200300.100.1.54", "dITRedirect");
   ("0.9.2342.19200300.100.1.55", "audio"); ("0.9.2342.19200300.100.1.56", "documentPublisher"); ("1.2.840.113549.1.9.1", "emailAddress");
   ("1.2.840.113549.1.9.2", "unstructuredName"); ("1.2.840.113549.1.9.8", "unstructuredAddress"); ("1.3.6.1.4.1.311.60.2.1.1", "jurisdictionL");
   ("1.3.6.1.4.1.311.60.2.1.2", "jurisdictionST"); ("1.3.6.1.4.1.311.60.2.1.3", "jurisdictionC"); ("2.5.4.3", "CN");
   ("2.5.4.4", "SN"); ("2.5.4.5", "serialNumber"); ("2.5.4.6", "C");
   ("2.5.4.7", "L"); ("2.5.4.8", "ST"); ("2.5.4.9", "street");
   ("2.5.4.10", "O"); ("2.5.4.11", "OU"); ("2.5.4.12", "title");
   ("2.5.4.13", "description"); ("2.5.4.14", "searchGuide"); ("2.5.4.15", "businessCategory");
   ("2.5.4.16", "postalAddress"); ("2.5.4.17", "postalCode"); ("2.5.4.18", "postOfficeBox");
   ("2.5.4.19", "physicalDeliveryOfficeName"); ("2.5.4.20", "telephoneNumber"); ("2.5.4.21", "telexNumber");
   ("2.5.4.22", "teletexTerminalIdentifier"); ("2.5.4.23", "facsimileTelephoneNumber"); ("2.5.4.24", "x121Address");
   ("2.5.4.25", "internationaliSDNNumber"); ("2.5.4.26", "registeredAddress"); ("2.5.4.27", "destinationIndicator");
   ("2.5.4.28", "preferredDeliveryMethod"); ("2.5.4.29", "presentationAddress"); ("2.5.4.30", "supportedApplicationContext");
   ("2.5.4.31", "member"); ("2.5.4.32", "owner"); ("2.5.4.33", "roleOccupant");
   ("2.5.4.34", "seeAlso"); ("2.5.4.35", "userPassword"); ("2.5.4.36", "userCertificate");
   ("2.5.4.37", "cACertificate"); ("2.5.4.38", "authorityRevocationList"); ("2.5.4.39", "certificateRevocationList");
   ("2.5.4.40", "crossCertificatePair"); ("2.5.4.41", "name"); ("2.5.4.42", "GN");
   ("2.5.4.43", "initials"); ("2.5.4.44", "generationQualifier"); ("2.5.4.45", "x500UniqueIdentifier");
   ("2.5.4.46", "dnQualifier"); ("2.5.4.47", "enhancedSearchGuide"); ("2.5.4.48", "protocolInformation");
   ("2.5.4.49", "distinguishedName"); ("2.5.4.50", "uniqueMember"); ("2.5.4.51", "houseIdentifier");
   ("2.5.4.52", "supportedAlgorithms"); ("2.5.4.53", "deltaRevocationList"); ("2.5.4.54", "dmdName");
   ("2.5.4.65", "pseudonym"); ("2.5.4.72", "role"); ("2.5.4.97", "organizationIdentifier");
   ("2.5.4.98", "c3"); ("2.5.4.99", "n3"); ("2.5.4.100", "dnsName")].

(** [asn1.ObjectIdentifier.String] *)
Definition identifierString (identifier : list Z) : string := Join "." (Itoa <$> identifier).

Definition openSSLAttributeTypeName (attributeType : list Z) : bytes :=
  let numericName := identifierString attributeType in
  match list_find (λ entry, entry.1 = numericName) openSSLAttributeTypeShortNames with
  | Some (_, (_, shortName)) => bytesOf shortName
  | None => take 79 (bytesOf numericName)
  end.

(** The attributes of one relative name, after [renderedCount] others. *)
Fixpoint renderAttributes (attributes : list distinguishedNameAttribute) (attributeIndex renderedCount : nat) : result (bytes * nat) :=
  match attributes with
  | [] => Ok ([], renderedCount)
  | attribute :: attributes =>
      let separator := if (0 <? renderedCount)%nat then bytesOf (if (0 <? attributeIndex)%nat then " + " else ", ") else [] in
      value ← printAttributeValue (da_Value attribute);
      '(rest, renderedCount) ← renderAttributes attributes (S attributeIndex) (S renderedCount);
      Ok (separator ++ openSSLAttributeTypeName (da_Type attribute) ++ bytesOf "=" ++ value ++ rest, renderedCount)
  end.

Fixpoint renderNames (relativeNames : list (list distinguishedNameAttribute)) (renderedCount : nat) : result (bytes * nat) :=
  match relativeNames with
  | [] => Ok ([], renderedCount)
  | attributes :: relativeNames =>
      '(first, renderedCount) ← renderAttributes attributes 0 renderedCount;
      '(rest, renderedCount) ← renderNames relativeNames renderedCount;
      Ok (first ++ rest, renderedCount)
  end.

Definition formatCertificateSubject (rawSubject : bytes) : result bytes :=
  relativeNames ← parseDistinguishedName rawSubject;
  '(text, renderedCount) ← renderNames relativeNames 0;
  if (renderedCount =? 0)%nat then Err (ErrNew "empty certificate subject") else Ok text.

Definition certificateUsernameLength : nat := 64.

(** The octets before the first zero. *)
Fixpoint untilZero (l : bytes) : bytes := match l with [] => [] | b :: l => if bool_decide (b = x00) then [] else b :: untilZero l end.

Definition certificateUsername (rawSubject : bytes) (attributeType : list Z) : result bytes :=
  relativeNames ← parseDistinguishedName rawSubject;
  match last (filter (λ attribute, da_Type attribute = attributeType) (concat relativeNames)) with
  | None => Err (ErrNew "certificate subject carries no such attribute")
  | Some attribute =>
      let selectedValue := da_Value attribute in
      let characterWidth := openSSLCharacterWidth selectedValue in
      if characterWidth <? 0 then Err (ErrNew "certificate subject attribute is not a string") else
      username ← (if 0 <? characterWidth then convertOpenSSLWideString (rv_Bytes selectedValue) characterWidth else Ok (rv_Bytes selectedValue));
      Ok (remapNonPrintableCharacters (take certificateUsernameLength (untilZero username)))
  end.

(** ** Rendered values *)

(** Undoes the escapes. *)
Fixpoint hexIndex (digits : bytes) (b : byte) : Z := match digits with [] => 0 | d :: digits => if bool_decide (b = d) then 0 else 1 + hexIndex digits b end.

Fixpoint unescape (l : bytes) : bytes :=
  match l with
  | [] => []
  | b :: l =>
      if bool_decide (b = backslash) then
        match l with
        | c :: l' =>
            if bool_decide (c = backslash) then backslash :: unescape l' else
            match l' with
            | d :: l'' => z2b (hexIndex openSSLHexDigits c * 16 + hexIndex openSSLHexDigits d) :: unescape l''
            | [] => []
            end
        | [] => []
        end
      else b :: unescape l
  end.

(** One octet. *)
Lemma unescape_octet b rest :
  unescape (escapeOpenSSLControlCharacters [b] ++ rest) = b :: unescape rest ∧ Forall (λ c, isControl c = false) (escapeOpenSSLControlCharacters [b]).
Proof. split; [| apply (bool_decide_unpack _)]; by destruct b. Qed.

Lemma escape_cons b value : escapeOpenSSLControlCharacters (b :: value) = escapeOpenSSLControlCharacters [b] ++ escapeOpenSSLControlCharacters value.
Proof. unfold escapeOpenSSLControlCharacters. cbn [mbind list_bind]. by rewrite app_nil_r. Qed.

(** The value of an attribute is rendered without control characters and
    without loss: the escapes can be undone, so different values are never
    rendered alike. *)
Theorem attribute_rendering_faithful value :
  unescape (escapeOpenSSLControlCharacters value) = value ∧ Forall (λ b, isControl b = false) (escapeOpenSSLControlCharacters value).
Proof.
  induction value as [| b value [IH1 IH2]]; [by split; [| constructor] |]. rewrite escape_cons. destruct (unescape_octet b (escapeOpenSSLControlCharacters value)) as [-> H].
  rewrite IH1. split; [done | by apply Forall_app].
Qed.

Lemma untilZero_no_zero l : Forall (λ b, b ≠ x00) (untilZero l).
Proof. induction l as [| b l IH]; cbn [untilZero]; [constructor |]. case_bool_decide; [constructor | by constructor]. Qed.

Lemma remap_printable l : Forall (λ b, isControl b = false) (remapNonPrintableCharacters l).
Proof. unfold remapNonPrintableCharacters. apply Forall_fmap, Forall_true. intros b. cbn. destruct (isControl b) eqn:E; [done | exact E]. Qed.

(** A user name taken from a certificate, whatever octets the certificate
    holds, is at most 64 octets long and has no control characters, and no zero
    octet in particular. *)
Theorem certificate_username_safe rawSubject attributeType username :
  certificateUsername rawSubject attributeType = Ok username →
  (length username ≤ certificateUsernameLength)%nat ∧ Forall (λ b, isControl b = false) username.
Proof.
  unfold certificateUsername. intros H. apply result_bind_Ok in H as (names & _ & H). destruct (last _) as [attribute |]; [| done].
  cbv zeta in H. destruct (_ <? 0); [done |]. apply result_bind_Ok in H as (name & _ & H). injection H as <-. split; [| apply remap_printable].
  unfold remapNonPrintableCharacters. rewrite length_fmap, length_take. lia.
Qed.

(** Attribute values are not delimited: an organisation can be named so that a
    subject reads like that of another certificate. *)
Definition tlv (tag : byte) (content : bytes) : bytes := tag :: z2b (lenZ content) :: content.
Definition attributeOf (kind : byte) (value : string) : bytes := tlv x31 (tlv x30 (tlv x06 [x55; x04; kind] ++ tlv x0c (bytesOf value))).

Lemma subject_rendering_ambiguous :
  formatCertificateSubject (tlv x30 (attributeOf x0a "Acme, CN=server")) = formatCertificateSubject (tlv x30 (attributeOf x0a "Acme" ++ attributeOf x03 "server")).
Proof. vm_compute. reflexivity. Qed.

(** ** UTF-8 *)

(** The length of a sequence and the bits of its first octet. *)
Definition utf8Lead (b : Z) : option (nat * Z) :=
  if b <? 128 then Some (0%nat, b) else
  if b <? 192 then None else
  if b <? 224 then Some (1%nat, b - 192) else
  if b <? 240 then Some (2%nat, b - 224) else
  if b <? 248 then Some (3%nat, b - 240) else
  if b <? 252 then Some (4%nat, b - 248) else
  if b <? 254 then Some (5%nat, b - 252) else None.

Definition utf8Decode (l : bytes) : option (Z * bytes) :=
  match l with
  | [] => None
  | b :: l => '(n, bits) ← utf8Lead (b2z b); Some (foldl (λ character b, character * 64 + (b2z b - 128)) bits (take n l), drop n l)
  end.

Lemma utf8Octet_value character n j k :
  0 ≤ character → 0 ≤ n → 0 ≤ j → k mod 2 ^ j = 0 → 0 ≤ k → k + 2 ^ j ≤ 256 → j ≤ 8 →
  b2z (utf8Octet character n (2 ^ j - 1) k) = k + (character / 2 ^ n) mod 2 ^ j.
Proof.
  intros Hc Hn Hj Hk Hk0 Hk1 Hj8. unfold utf8Octet. rewrite Z.shiftr_div_pow2 by done. set (x := character / 2 ^ n).
  replace (2 ^ j - 1) with (Z.ones j) by (rewrite Z.ones_equiv; lia). rewrite Z.land_ones by done.
  assert (E : u8 x mod 2 ^ j = x mod 2 ^ j).
  { unfold u8. replace (2 ^ 8) with (2 ^ j * 2 ^ (8 - j)) by (rewrite <- Z.pow_add_r by lia; f_equal; lia).
    rewrite Z.rem_mul_r by (apply Z.pow_nonzero + apply Z.pow_pos_nonneg; lia). rewrite Z.mul_comm, Z.mod_add by (apply Z.pow_nonzero; lia). apply Z.mod_mod, Z.pow_nonzero; lia. }
  rewrite E. pose proof (Z.mod_pos_bound x (2 ^ j) ltac:(apply Z.pow_pos_nonneg; lia)) as Hb.
  assert (Hlor : Z.lor (x mod 2 ^ j) k = k + x mod 2 ^ j).
  { pose proof (Z.add_lor_land (x mod 2 ^ j) k) as Hadd. enough (Z.land (x mod 2 ^ j) k = 0) by lia. apply Z.bits_inj'. intros i Hi. rewrite Z.land_spec, Z.bits_0.
    destruct (Z.lt_ge_cases i j).
    - replace (Z.testbit k i) with false; [apply andb_false_r |]. symmetry. apply Z.div_exact in Hk; [| apply Z.pow_nonzero; lia]. rewrite Hk.
      rewrite Z.mul_comm. by apply Z.mul_pow2_bits_low.
    - by rewrite Z.mod_pow2_bits_high by lia. }
  rewrite Hlor. apply b2z_z2b_small. lia.
Qed.

Lemma utf8Tail character n : 0 ≤ character → 0 ≤ n → b2z (utf8Octet character n 63 128) = 128 + (character / 2 ^ n) mod 64.
Proof. intros. by apply (utf8Octet_value character n 6 128). Qed.

(** The first octets of the five longer forms. *)
Lemma utf8Lead_long x n k : 0 ≤ x → (n, k) ∈ [(1%nat, 192); (2%nat, 224); (3%nat, 240); (4%nat, 248); (5%nat, 252)] → x < 2 ^ (6 - Z.of_nat n) → utf8Lead (k + x) = Some (n, x).
Proof.
  intros Hx Hin Hlt.
  assert (Hcase : (n = 1%nat ∧ k = 192 ∧ x < 32) ∨ (n = 2%nat ∧ k = 224 ∧ x < 16) ∨ (n = 3%nat ∧ k = 240 ∧ x < 8) ∨ (n = 4%nat ∧ k = 248 ∧ x < 4) ∨ (n = 5%nat ∧ k = 252 ∧ x < 2)).
  { repeat (apply elem_of_cons in Hin as [Hin | Hin]; [injection Hin as -> ->; vm_compute in Hlt; naive_solver |]). by apply not_elem_of_nil in Hin. }
  unfold utf8Lead. destruct Hcase as [(-> & -> & H) | [(-> & -> & H) | [(-> & -> & H) | [(-> & -> & H) | (-> & -> & H)]]]];
    repeat match goal with |- context [?a <? ?b] => destruct (Z.ltb_spec a b) end; try lia; f_equal; f_equal; lia.
Qed.

(** One of the longer forms: [n] further octets, a first octet of [k] and [j] bits. *)
Ltac utf8_case n j k :=
  eexists; split; [done |]; cbn [app utf8Decode]; rewrite (utf8Octet_value _ _ j k) by (done || lia || (vm_compute; congruence));
  rewrite (utf8Lead_long _ n k) by first [set_solver | (apply Z.mod_pos_bound; lia) | (change (2 ^ (6 - Z.of_nat n)) with (2 ^ j); apply Z.mod_pos_bound; lia)];
  cbn [mbind option_bind app]; rewrite ?firstn_cons, ?skipn_cons, take_0, drop_0; cbn [foldl]; rewrite !utf8Tail by lia; do 2 f_equal; repeat match goal with |- context [2 ^ ?e] => let v := eval vm_compute in (2 ^ e) in change (2 ^ e) with v end; Z.to_euclidean_division_equations; lia.

(** Characters of a wide string become UTF-8 that decodes to them, up to
    31 bits in six octets. *)
Theorem utf8_roundtrip destination character rest :
  0 ≤ character < 2 ^ 31 → ∃ octets, appendOpenSSLUTF8 destination character = destination ++ octets ∧ utf8Decode (octets ++ rest) = Some (character, rest).
Proof.
  intros Hc. unfold appendOpenSSLUTF8. cbv zeta.
  destruct (Z.ltb_spec character 128). { eexists. split; [done |]. cbn. unfold utf8Lead. rewrite b2z_z2b_small, (proj2 (Z.ltb_lt character 128)) by lia. done. }
  destruct (Z.ltb_spec character 2048); [utf8_case 1%nat 5 192 |].
  destruct (Z.ltb_spec character 65536); [utf8_case 2%nat 4 224 |].
  destruct (Z.ltb_spec character 2097152); [utf8_case 3%nat 3 240 |].
  destruct (Z.ltb_spec character 67108864); [utf8_case 4%nat 2 248 |].
  utf8_case 5%nat 1 252.
Qed.

Lemma certificate_username_safe_witness : (length (bytesOf "b_d") ≤ certificateUsernameLength)%nat.
Proof.
  refine (proj1 (certificate_username_safe (tlv x30 (attributeOf x03 "a" ++ tlv x31 (tlv x30 (tlv x06 [x55; x04; x03] ++ tlv x13 [x62; x01; x64])))) commonNameAttributeOID _ _)).
  vm_compute. reflexivity.
Defined.

Lemma utf8_roundtrip_witness : ∃ octets, appendOpenSSLUTF8 [] 8364 = [] ++ octets ∧ utf8Decode (octets ++ [x61]) = Some (8364, [x61]).
Proof. apply (utf8_roundtrip [] 8364 [x61]). lia. Defined.
