(* ===== verification/Certificates.v ===== *)
(** * Verification of peer certificates ([certificate_purpose.go],
      [peer_certificate_verifier.go])

    A certificate is the record that [crypto/x509] parses it into, with the fields
    the code reads.  Building and verifying chains, signatures and digests belong to
    the libraries: they are the record [X509].  The file of revocation lists is the
    bytes read at the time of the check. *)

From S2P Require Import Prelude GoStrings Options Supervisor CertSubject.

Definition ErrPeerCertificateName : goerr := ErrNew "peer certificate fails verify-x509-name check".
Definition ErrPeerCertificatePurpose : goerr := ErrNew "unsuitable certificate purpose".

Inductive PublicKey := RSAKey (bits : Z) | ECDSAKey (curveBits : Z) | OtherKey.

Inductive SignatureAlgorithm :=
| MD2WithRSA | MD5WithRSA | SHA1WithRSA | DSAWithSHA1 | ECDSAWithSHA1 | ECDSAWithSHA256 | ECDSAWithSHA384 | OtherAlgorithm.

#[export] Instance SignatureAlgorithm_eq_dec : EqDecision SignatureAlgorithm.
Proof. solve_decision. Defined.

#[export] Instance PublicKey_eq_dec : EqDecision PublicKey.
Proof. solve_decision. Defined.

(** [x509.Certificate]; times and the rest are the library's. *)
Record Certificate := mkCertificate {
  c_Raw : bytes;
  c_RawSubject : bytes;
  c_RawIssuer : bytes;
  c_SerialNumber : option Z;
  c_Extensions : list (list Z * bytes);
  c_KeyUsage : Z;
  c_PublicKey : PublicKey;
  c_SignatureAlgorithm : SignatureAlgorithm;
}.

#[export] Instance Certificate_eq_dec : EqDecision Certificate.
Proof. solve_decision. Defined.

Record RevocationList := mkCRL {
  rl_RawIssuer : bytes;
  rl_ThisUpdate : Time;
  rl_NextUpdate : Time;
  rl_Revoked : list (option Z);
}.

(** ** Purposes *)

Record certificateUsageExtensions := mkExtensions {
  ue_keyUsagePresent : bool;
  ue_keyUsage : Z;
  ue_extendedKeyUsagePresent : bool;
  ue_extendedKeyUsage : Z;
  ue_netscapeCertTypePresent : bool;
  ue_netscapeCertType : Z;
}.

#[export] Instance eta_certificateUsageExtensions : Eta certificateUsageExtensions := λ u,
  mkExtensions (ue_keyUsagePresent u) (ue_keyUsage u) (ue_extendedKeyUsagePresent u) (ue_extendedKeyUsage u) (ue_netscapeCertTypePresent u) (ue_netscapeCertType u).

Definition rejectsKeyUsage (u : certificateUsageExtensions) (accepted : Z) : bool := ue_keyUsagePresent u && (Z.land (ue_keyUsage u) accepted =? 0).
Definition rejectsExtendedKeyUsage (u : certificateUsageExtensions) (accepted : Z) : bool :=
  ue_extendedKeyUsagePresent u && (Z.land (ue_extendedKeyUsage u) accepted =? 0).
Definition rejectsNetscapeCertType (u : certificateUsageExtensions) (accepted : Z) : bool :=
  ue_netscapeCertTypePresent u && (Z.land (ue_netscapeCertType u) accepted =? 0).

Definition openSSLKeyUsageDigitalSignature : Z := 128.
Definition openSSLKeyUsageKeyEncipherment : Z := 32.
Definition openSSLKeyUsageKeyAgreement : Z := 8.
Definition openSSLExtendedKeyUsageSSLServer : Z := 1.
Definition openSSLExtendedKeyUsageSSLClient : Z := 2.
Definition openSSLExtendedKeyUsageServerGatedCrypto : Z := 16.
Definition netscapeCertTypeSSLCertificateAuthority : Z := 4.
Definition netscapeCertTypeSSLClient : Z := 128.
Definition netscapeCertTypeSSLServer : Z := 64.
Definition keyUsageExtensionOID : list Z := [2; 5; 29; 15].
Definition extendedKeyUsageExtensionOID : list Z := [2; 5; 29; 37].
Definition netscapeCertTypeExtensionOID : list Z := [2; 16; 840; 1; 113730; 1; 1].

Definition openSSLExtendedKeyUsageBits : list (list Z * Z) :=
  [(serverAuthOID, openSSLExtendedKeyUsageSSLServer); (clientAuthOID, openSSLExtendedKeyUsageSSLClient);
   ([1; 3; 6; 1; 4; 1; 311; 10; 3; 3], openSSLExtendedKeyUsageServerGatedCrypto); ([2; 16; 840; 1; 113730; 4; 1], openSSLExtendedKeyUsageServerGatedCrypto)].

Inductive certificatePurpose := certificatePurposeSSLClient | certificatePurposeSSLServer.

Definition openSSLKeyUsageBits (bitString : BitString) : Z :=
  let low := foldl (λ keyUsage bitIndex, if bitAt bitString bitIndex =? 1 then Z.lor keyUsage (Z.shiftl 1 (7 - bitIndex)) else keyUsage) 0 (seqZ 0 8) in
  foldl (λ keyUsage bitIndex, if bitAt bitString bitIndex =? 1 then Z.lor keyUsage (Z.shiftl 1 (8 + 15 - bitIndex)) else keyUsage) low (seqZ 8 8).

(** The bits of the purposes an extension names. *)
Definition purposeBits (keyPurposes : list (list Z)) (usage : Z) : Z :=
  foldl (λ usage keyPurpose, foldl (λ usage '(identifier, bit), if bool_decide (identifier = keyPurpose) then Z.lor usage bit else usage) usage openSSLExtendedKeyUsageBits)
    usage keyPurposes.

Definition readUsageExtension (usage : certificateUsageExtensions) (extension : list Z * bytes) : result certificateUsageExtensions :=
  let '(identifier, value) := extension in
  if bool_decide (identifier = keyUsageExtensionOID) then
    bitString ← unmarshalBitString value; Ok (usage <| ue_keyUsagePresent := true |> <| ue_keyUsage := openSSLKeyUsageBits bitString |>)
  else if bool_decide (identifier = extendedKeyUsageExtensionOID) then
    keyPurposes ← unmarshalIdentifiers value;
    Ok (usage <| ue_extendedKeyUsagePresent := true |> <| ue_extendedKeyUsage := purposeBits keyPurposes (ue_extendedKeyUsage usage) |>)
  else if bool_decide (identifier = netscapeCertTypeExtensionOID) then
    bitString ← unmarshalBitString value;
    Ok (usage <| ue_netscapeCertTypePresent := true |>
              <| ue_netscapeCertType := match bs_Bytes bitString with b :: _ => b2z b | [] => ue_netscapeCertType usage end |>)
  else Ok usage.

Fixpoint readUsageLoop (usage : certificateUsageExtensions) (extensions : list (list Z * bytes)) : result certificateUsageExtensions :=
  match extensions with
  | [] => Ok usage
  | extension :: extensions => usage ← readUsageExtension usage extension; readUsageLoop usage extensions
  end.

Definition readCertificateUsageExtensions (certificate : Certificate) : result certificateUsageExtensions :=
  readUsageLoop (mkExtensions false 0 false 0 false 0) (c_Extensions certificate).

Definition checkCertificatePurpose (certificate : Certificate) (purpose : certificatePurpose) (requireCertificateAuthority : bool) : result bool :=
  usage ← readCertificateUsageExtensions certificate;
  match purpose with
  | certificatePurposeSSLClient =>
      if rejectsExtendedKeyUsage usage openSSLExtendedKeyUsageSSLClient then Ok false else
      if requireCertificateAuthority then Ok (negb (rejectsNetscapeCertType usage netscapeCertTypeSSLCertificateAuthority)) else
      if rejectsKeyUsage usage (Z.lor openSSLKeyUsageDigitalSignature openSSLKeyUsageKeyAgreement) then Ok false else
      Ok (negb (rejectsNetscapeCertType usage netscapeCertTypeSSLClient))
  | certificatePurposeSSLServer =>
      if rejectsExtendedKeyUsage usage (Z.lor openSSLExtendedKeyUsageSSLServer openSSLExtendedKeyUsageServerGatedCrypto) then Ok false else
      if requireCertificateAuthority then Ok (negb (rejectsNetscapeCertType usage netscapeCertTypeSSLCertificateAuthority)) else
      if rejectsNetscapeCertType usage netscapeCertTypeSSLServer then Ok false else
      Ok (negb (rejectsKeyUsage usage (Z.lor (Z.lor openSSLKeyUsageDigitalSignature openSSLKeyUsageKeyEncipherment) openSSLKeyUsageKeyAgreement)))
  end.

(** Whether every certificate of a chain has the purpose. *)
Fixpoint chainHasPurpose (chain : list Certificate) (purpose : certificatePurpose) (certificateIndex : nat) : result bool :=
  match chain with
  | [] => Ok true
  | chainCertificate :: chain =>
      matched ← checkCertificatePurpose chainCertificate purpose (0 <? certificateIndex)%nat;
      if matched : bool then chainHasPurpose chain purpose (S certificateIndex) else Ok false
  end.

Fixpoint matchingChains (verifiedChains : list (list Certificate)) (purpose : certificatePurpose) : result (list (list Certificate)) :=
  match verifiedChains with
  | [] => Ok []
  | chain :: verifiedChains =>
      matched ← chainHasPurpose chain purpose 0; rest ← matchingChains verifiedChains purpose; Ok (if matched : bool then chain :: rest else rest)
  end.

Definition filterChainsByCertificatePurpose (verifiedChains : list (list Certificate)) (purpose : certificatePurpose) : result (list (list Certificate)) :=
  matchedChains ← matchingChains verifiedChains purpose;
  match matchedChains with [] => Err ErrPeerCertificatePurpose | _ => Ok matchedChains end.

(** ** Checks of the peer's certificate *)

Definition verifyX509NameMatch (peerCertificate : Certificate) (expectedName : bytes) (verifyType : string) : option goerr :=
  match expectedName with
  | [] => None
  | _ =>
      if decide (verifyType = ""%string ∨ verifyType = "subject"%string) then
        match formatCertificateSubject (c_RawSubject peerCertificate) with
        | Err e => Some e
        | Ok subject => if bool_decide (subject = expectedName) then None else Some ErrPeerCertificateName
        end
      else if decide (verifyType = "name"%string) then
        match certificateUsername (c_RawSubject peerCertificate) commonNameAttributeOID with
        | Err e => Some e
        | Ok username => if bool_decide (username = expectedName) then None else Some ErrPeerCertificateName
        end
      else if decide (verifyType = "name-prefix"%string) then
        match certificateUsername (c_RawSubject peerCertificate) commonNameAttributeOID with
        | Err e => Some e
        | Ok username => if bool_decide (take (length expectedName) username = expectedName) then None else Some ErrPeerCertificateName
        end
      else Some (ErrNew "unknown X.509 name type")
  end.

Definition reconstructOpenSSLKeyUsage (peerCertificate : Certificate) : result (option Z) :=
  match list_find (λ extension, extension.1 = keyUsageExtensionOID) (c_Extensions peerCertificate) with
  | None => Ok None
  | Some (_, (_, value)) =>
      bitString ← unmarshalBitString value;
      let usage := foldl (λ keyUsage i, if bitAt bitString i =? 1 then Z.lor keyUsage (Z.shiftl 1 (7 - i)) else keyUsage) 0 (seqZ 0 8) in
      Ok (Some (if Z.land usage 255 =? 0 then Z.shiftr usage 8 else usage))
  end.

Definition verifyRequiredKeyUsage (peerCertificate : Certificate) (requiredKeyUsage : list Z) : option goerr :=
  match requiredKeyUsage with
  | [] => None
  | first :: _ =>
      if first =? 0 then None else
      match reconstructOpenSSLKeyUsage peerCertificate with
      | Err e => Some e
      | Ok None => Some ErrPeerCertificateKeyUsage
      | Ok (Some usage) =>
          if existsb (λ candidate, negb (candidate =? 0) && (Z.land usage candidate =? candidate)) requiredKeyUsage then None else Some ErrPeerCertificateKeyUsage
      end
  end.

Definition certificateHasKeyUsageExtension (certificate : Certificate) : bool :=
  existsb (λ extension, bool_decide (extension.1 = keyUsageExtensionOID)) (c_Extensions certificate).

Definition verifyKeyUsageExtensionPresent (peerCertificate : Certificate) : option goerr :=
  if certificateHasKeyUsageExtension peerCertificate then None else Some ErrPeerCertificateKeyUsage.

Definition verifyNSCertType (peerCertificate : Certificate) (requirement : string) : option goerr :=
  let check purpose :=
    match checkCertificatePurpose peerCertificate purpose false with
    | Err e => Some e
    | Ok matched => if matched : bool then None else Some ErrPeerCertificateNSCertType
    end in
  if decide (requirement = ""%string) then None else
  if decide (requirement = "server"%string) then check certificatePurposeSSLServer else
  if decide (requirement = "client"%string) then check certificatePurposeSSLClient else
  Some (ErrNew "ns-cert-type must be 'server' or 'client'").

Definition readCertificateExtendedKeyUsage (peerCertificate : Certificate) : result (list (list Z)) :=
  match list_find (λ extension, extension.1 = extendedKeyUsageExtensionOID) (c_Extensions peerCertificate) with
  | None => Ok []
  | Some (_, (_, value)) => unmarshalIdentifiers value
  end.

Definition verifyRequiredExtendedKeyUsage (peerCertificate : Certificate) (requiredExtendedUsage : list (list Z)) : option goerr :=
  match requiredExtendedUsage with
  | [] => None
  | _ =>
      match readCertificateExtendedKeyUsage peerCertificate with
      | Err e => Some e
      | Ok usages => if forallb (λ expected, bool_decide (expected ∈ usages)) requiredExtendedUsage then None else Some ErrPeerCertificateExtUsage
      end
  end.

(** ** Profiles *)

Definition enforceCertificateProfilePublicKey (certificate : Certificate) (profile : string) : option goerr :=
  if decide (profile = "insecure"%string) then None else
  if decide (profile = "suiteb"%string) then
    match c_PublicKey certificate with
    | ECDSAKey curveBits => if (curveBits =? 256) || (curveBits =? 384) then None else Some (ErrNew "tls-cert-profile suiteb requires ECDSA P-256 or P-384")
    | _ => Some (ErrNew "tls-cert-profile suiteb requires ECDSA certificates")
    end
  else
    match c_PublicKey certificate with
    | RSAKey bits =>
        let minimumBits := if decide (profile = "preferred"%string) then 2048 else 1024 in
        if bits <? minimumBits then Some (ErrNew "tls-cert-profile rejects a small RSA key") else None
    | _ => None
    end.

Definition enforceCertificateProfileSignatureAlgorithm (certificate : Certificate) (profile : string) : option goerr :=
  if decide (profile = "insecure"%string) then None else
  let signatureAlgorithm := c_SignatureAlgorithm certificate in
  if decide (profile = "suiteb"%string) then
    if bool_decide (signatureAlgorithm ∈ [ECDSAWithSHA256; ECDSAWithSHA384]) then None
    else Some (ErrNew "tls-cert-profile suiteb requires ECDSA with SHA-256 or SHA-384")
  else if bool_decide (signatureAlgorithm ∈ [MD2WithRSA; MD5WithRSA]) then Some (ErrNew "tls-cert-profile rejects insecure signature algorithm")
  else if bool_decide (signatureAlgorithm ∈ [SHA1WithRSA; DSAWithSHA1; ECDSAWithSHA1]) && bool_decide (profile = "preferred"%string)
  then Some (ErrNew "tls-cert-profile preferred rejects SHA-1 signature algorithm") else None.

(** The first error of a list of checks. *)
Definition firstError (checks : list (option goerr)) : option goerr := foldr (λ check rest, match check with Some e => Some e | None => rest end) None checks.

Definition enforceCertificateProfile (verifiedChain : list Certificate) (profile : string) : option goerr :=
  let profile := if decide (profile = ""%string) then "legacy"%string else profile in
  firstError (verifiedChain ≫= λ certificate,
    [enforceCertificateProfilePublicKey certificate profile; enforceCertificateProfileSignatureAlgorithm certificate profile]).

(** ** Revocation *)

Definition revocationListValidityError (revocationList : RevocationList) (now : Time) : option goerr :=
  if now <? rl_ThisUpdate revocationList then Some ErrCRLExpired else
  if negb (IsZero (rl_NextUpdate revocationList)) && (rl_NextUpdate revocationList <? now) then Some ErrCRLExpired else None.

Definition findCRLSignerInChain (chain : list Certificate) (rawIssuer : bytes) : option Certificate :=
  snd <$> list_find (λ candidate, c_RawSubject candidate = rawIssuer) chain.

(** The list that is used, its signer, and whether it is in its validity window. *)
Definition selectList (certificate : Certificate) (above : list Certificate) (now : Time)
    (selected : option (RevocationList * Certificate * bool)) (revocationList : RevocationList) : option (RevocationList * Certificate * bool) :=
  if negb (bool_decide (rl_RawIssuer revocationList = c_RawIssuer certificate)) then selected else
  match findCRLSignerInChain above (rl_RawIssuer revocationList) with
  | None => selected
  | Some signer =>
      let withinValidity := match revocationListValidityError revocationList now with None => true | Some _ => false end in
      match selected with
      | Some (_, _, selectedWithinValidity) => if withinValidity && negb selectedWithinValidity then Some (revocationList, signer, withinValidity) else selected
      | None => Some (revocationList, signer, withinValidity)
      end
  end.

Definition keyUsageCRLSign : Z := 64.

(** What belongs to the libraries: parsing, building chains (for the insecure profile
    over copies signed with a key of the process, for the legacy one by the
    certificate-transparency library), the signature of a certificate or a list by
    another, PEM blocks, and the digest of a certificate in hex. *)
Record X509 := mkX509 {
  x_ParseCertificate : bytes → result Certificate;
  x_VerifySynthetic : list Certificate → result (list (list Certificate));
  x_InsecureSignature : Certificate → Certificate → option goerr;
  x_VerifyLegacy : list bytes → result (list (list bytes));
  x_PemDecode : bytes → option (string * bytes * bytes);
  x_ParseRevocationList : bytes → result RevocationList;
  x_Verify : list Certificate → result (list (list Certificate));
  x_CheckSignatureFrom : RevocationList → Certificate → bool;
  x_Fingerprint : bytes → string;
}.

Section Verifier.
Context (x : X509).

Definition checkChainDepthAgainstCRL (chain : list Certificate) (depth : nat) (certificate : Certificate) (revocationLists : list RevocationList) (now : Time) : option goerr :=
  let issuerDepth := if (depth <? length chain - 1)%nat then S depth else depth in
  match foldl (selectList certificate (drop issuerDepth chain) now) None revocationLists with
  | None => Some ErrCRLUnavailable
  | Some (selectedList, selectedSigner, _) =>
      if certificateHasKeyUsageExtension selectedSigner && (Z.land (c_KeyUsage selectedSigner) keyUsageCRLSign =? 0) then Some ErrCRLIssuerKeyUsage else
      match revocationListValidityError selectedList now with
      | Some e => Some e
      | None =>
          if negb (x_CheckSignatureFrom x selectedList selectedSigner) then Some ErrCRLSignatureInvalid else
          match c_SerialNumber certificate with
          | None => None
          | Some serial => if bool_decide (Some serial ∈ rl_Revoked selectedList) then Some ErrPeerCertificateRevoked else None
          end
      end
  end.

(** The loop over the PEM blocks; each block is shorter than what it is read from, so
    the length of the file is enough fuel. *)
Fixpoint loadLoop (fuel : nat) (remaining : bytes) (revocationLists : list RevocationList) : result (list RevocationList) :=
  match fuel with
  | O => Ok revocationLists
  | S fuel =>
      match remaining with
      | [] => Ok revocationLists
      | _ =>
          match x_PemDecode x remaining with
          | None => Ok revocationLists
          | Some (blockType, blockBytes, rest) =>
              if negb (bool_decide (blockType = "X509 CRL"%string)) && negb (bool_decide (blockType = "CRL"%string)) then loadLoop fuel rest revocationLists
              else revocationList ← x_ParseRevocationList x blockBytes; loadLoop fuel rest (revocationLists ++ [revocationList])
          end
      end
  end.

Definition loadRevocationLists (file : result bytes) : result (list RevocationList) :=
  crlBytes ← file;
  revocationLists ← loadLoop (length crlBytes) crlBytes [];
  match revocationLists with
  | [] => revocationList ← x_ParseRevocationList x crlBytes; Ok [revocationList]
  | _ => Ok revocationLists
  end.

(** [crl] is what reading the file gives, when a path is configured. *)
Definition verifyAgainstCRL (chain : list Certificate) (crl : option (result bytes)) (now : Time) : option goerr :=
  match loadRevocationLists <$> crl with
  | None => None
  | Some (Err e) => Some (ErrExtendCause errClientSessionConfiguration "" (ErrCause e "load CRL"))
  | Some (Ok revocationLists) =>
      match chain with
      | [] => Some ErrCRLUnavailable
      | _ => firstError (imap (λ depth certificate, checkChainDepthAgainstCRL chain depth certificate revocationLists now) chain)
      end
  end.

Definition verifyPeerFingerprint (peerCertificate : Certificate) (expectedFingerprints : list string) : option goerr :=
  match expectedFingerprints with
  | [] => None
  | _ => if bool_decide (x_Fingerprint x (c_Raw peerCertificate) ∈ expectedFingerprints) then None else Some (ErrNew "peer fingerprint mismatch")
  end.

(** [vo_Roots] is whether there is a trust store. *)
Record peerCertificateVerifierOptions := mkVerifier {
  vo_Roots : bool;
  vo_Purpose : certificatePurpose;
  vo_VerifyName : bytes;
  vo_VerifyNameType : string;
  vo_PeerFingerprints : list string;
  vo_CRL : option (result bytes);
  vo_RequiredKeyUsage : list Z;
  vo_RequireKeyUsageExtension : bool;
  vo_RequiredExtendedUsage : list (list Z);
  vo_NSCertificateType : string;
  vo_CertificateProfile : string;
}.

Definition verifyPeerCertificate (v : peerCertificateVerifierOptions) (peerCertificate : Certificate) : option goerr :=
  firstError
    [verifyX509NameMatch peerCertificate (vo_VerifyName v) (vo_VerifyNameType v);
     verifyPeerFingerprint peerCertificate (vo_PeerFingerprints v);
     verifyRequiredKeyUsage peerCertificate (vo_RequiredKeyUsage v);
     if vo_RequireKeyUsageExtension v then verifyKeyUsageExtensionPresent peerCertificate else None;
     verifyRequiredExtendedKeyUsage peerCertificate (vo_RequiredExtendedUsage v);
     verifyNSCertType peerCertificate (vo_NSCertificateType v)].

Fixpoint parseCertificates (rawCertificates : list bytes) : result (list Certificate) :=
  match rawCertificates with
  | [] => Ok []
  | raw :: rawCertificates => certificate ← x_ParseCertificate x raw; rest ← parseCertificates rawCertificates; Ok (certificate :: rest)
  end.

(** The first error of a signature along a chain. *)
Fixpoint signatureError (chain : list Certificate) : option goerr :=
  match chain with
  | certificate :: (parent :: _) as above =>
      match x_InsecureSignature x certificate parent with Some e => Some e | None => signatureError above end
  | _ => None
  end.

Definition verifyInsecureCertificateChain (rawCertificates : list bytes) : result (list (list Certificate)) :=
  peerCertificates ← parseCertificates rawCertificates;
  syntheticChains ← x_VerifySynthetic x peerCertificates;
  match filter (λ chain, signatureError chain = None) syntheticChains with
  | [] => match last (omap signatureError syntheticChains) with Some e => Err e | None => Ok [] end
  | verifiedChains => Ok verifiedChains
  end.

Fixpoint parseChains (chains : list (list bytes)) : result (list (list Certificate)) :=
  match chains with
  | [] => Ok []
  | chain :: chains => verifiedChain ← parseCertificates chain; rest ← parseChains chains; Ok (verifiedChain :: rest)
  end.

Definition verifyLegacyCertificateChain (rawCertificates : list bytes) : result (list (list Certificate)) :=
  legacyChains ← x_VerifyLegacy x rawCertificates; parseChains legacyChains.

Definition verifyCertificateChain (v : peerCertificateVerifierOptions) (rawCertificates : list bytes) (peerCertificates : list Certificate) : result (list Certificate) :=
  verifiedChains ←
    (if decide (vo_CertificateProfile v = "insecure"%string) then verifyInsecureCertificateChain rawCertificates else
     if decide (vo_CertificateProfile v = "legacy"%string) then verifyLegacyCertificateChain rawCertificates else x_Verify x peerCertificates);
  matchedChains ← filterChainsByCertificatePurpose verifiedChains (vo_Purpose v);
  match matchedChains with chain :: _ => Ok chain | [] => Err ErrPeerCertificatePurpose end.

Definition Verify (v : peerCertificateVerifierOptions) (rawCertificates : list bytes) (now : Time) : option goerr :=
  match parseCertificates rawCertificates with
  | Err e => Some e
  | Ok [] => Some (ErrNew "missing peer certificate")
  | Ok (peerCertificate :: intermediates) =>
      if negb (vo_Roots v) && (0 <? length (vo_PeerFingerprints v))%nat then verifyPeerCertificate v peerCertificate else
      match verifyCertificateChain v rawCertificates (peerCertificate :: intermediates) with
      | Err e => Some e
      | Ok verifiedChain =>
          firstError [enforceCertificateProfile verifiedChain (vo_CertificateProfile v); verifyPeerCertificate v peerCertificate; verifyAgainstCRL verifiedChain (vo_CRL v) now]
      end
  end.

End Verifier.

(** ** What acceptance means *)

Lemma firstError_None (checks : list (option goerr)) : firstError checks = None ↔ Forall (λ check, check = None) checks.
Proof.
  induction checks as [|[e|] checks IH]; cbn.
  - split; auto.
  - split; [done|]. intros H. by inv H.
  - rewrite IH. split; [by constructor | intros H; by inv H].
Qed.

(** The checks of a chain's revocation, declaratively: at every depth the first list
    of the issuer, with a signer above, that is in its window is signed by that signer,
    who may sign lists, and does not name the certificate. *)
Definition isCandidate (certificate : Certificate) (above : list Certificate) (revocationList : RevocationList) : Prop :=
  rl_RawIssuer revocationList = c_RawIssuer certificate ∧ ∃ signer, findCRLSignerInChain above (rl_RawIssuer revocationList) = Some signer.

Definition isCurrent (revocationList : RevocationList) (now : Time) : Prop :=
  rl_ThisUpdate revocationList ≤ now ∧ (IsZero (rl_NextUpdate revocationList) = true ∨ now ≤ rl_NextUpdate revocationList).

Definition issuersAbove (chain : list Certificate) (depth : nat) : list Certificate :=
  drop (if (depth <? length chain - 1)%nat then S depth else depth) chain.

Record NotRevoked (x : X509) (certificate : Certificate) (above : list Certificate) (lists : list RevocationList) (now : Time) : Prop := mkNotRevoked {
  nr_list : ∃ older revocationList newer signer,
    lists = older ++ revocationList :: newer ∧
    rl_RawIssuer revocationList = c_RawIssuer certificate ∧
    findCRLSignerInChain above (rl_RawIssuer revocationList) = Some signer ∧
    isCurrent revocationList now ∧
    (∀ earlier, earlier ∈ older → isCandidate certificate above earlier → ¬ isCurrent earlier now) ∧
    (certificateHasKeyUsageExtension signer = true → Z.land (c_KeyUsage signer) keyUsageCRLSign ≠ 0) ∧
    x_CheckSignatureFrom x revocationList signer = true ∧
    (∀ serial, c_SerialNumber certificate = Some serial → Some serial ∉ rl_Revoked revocationList);
}.

Lemma validity_current l now : revocationListValidityError l now = None ↔ isCurrent l now.
Proof.
  unfold revocationListValidityError, isCurrent.
  destruct (Z.ltb_spec now (rl_ThisUpdate l)); [split; [done | lia]|].
  destruct (IsZero (rl_NextUpdate l)); cbn; [split; [tauto | done]|].
  destruct (Z.ltb_spec (rl_NextUpdate l) now); split; try done; lia.
Qed.

(** A list the loop can end with: of the issuer, with a signer above, in its window. *)
Definition usable (certificate : Certificate) (above : list Certificate) (now : Time) (l : RevocationList) : Prop :=
  isCandidate certificate above l ∧ isCurrent l now.

#[local] Instance usable_dec certificate above now l : Decision (usable certificate above now l).
Proof.
  unfold usable, isCandidate, isCurrent. destruct (findCRLSignerInChain above (rl_RawIssuer l)) as [signer|].
  - destruct (decide (rl_RawIssuer l = c_RawIssuer certificate ∧ rl_ThisUpdate l ≤ now ∧ (IsZero (rl_NextUpdate l) = true ∨ now ≤ rl_NextUpdate l))) as [H|H].
    + left. naive_solver.
    + right. naive_solver.
  - right. naive_solver.
Defined.

(** The flag the loop keeps is the validity of the list it keeps. *)
Definition selectedWf (now : Time) (selected : option (RevocationList * Certificate * bool)) : Prop :=
  ∀ l s b, selected = Some (l, s, b) → (b = true ↔ isCurrent l now).

Lemma select_step certificate above now selected l :
  selectedWf now selected →
  selectedWf now (selectList certificate above now selected l) ∧
  (¬ usable certificate above now l → (∀ l0 s, selected ≠ Some (l0, s, true)) → ∀ l0 s, selectList certificate above now selected l ≠ Some (l0, s, true)) ∧
  (usable certificate above now l → (∀ l0 s, selected ≠ Some (l0, s, true)) →
     ∃ s, findCRLSignerInChain above (rl_RawIssuer l) = Some s ∧ selectList certificate above now selected l = Some (l, s, true)).
Proof.
  intros Hwf. unfold selectList, usable, isCandidate. pose proof (validity_current l now) as Hv.
  case_bool_decide as Hiss; cbn; [|naive_solver].
  destruct (findCRLSignerInChain above (rl_RawIssuer l)) as [signer|]; [|naive_solver].
  destruct (revocationListValidityError l now) as [e|]; destruct selected as [[[l0 s0] [|]]|]; cbn.
  all: split_and!; try naive_solver.
  all: unfold selectedWf; naive_solver.
Qed.

(** A list in its window, once selected, stays selected. *)
Lemma select_kept certificate above now l s lists : foldl (selectList certificate above now) (Some (l, s, true)) lists = Some (l, s, true).
Proof.
  induction lists as [|l' lists IH]; [done|]. cbn. unfold selectList at 2.
  destruct (negb _); [done|]. destruct (findCRLSignerInChain _ _); [|done]. by rewrite andb_false_r.
Qed.

Lemma select_none certificate above now lists selected :
  selectedWf now selected → (∀ l s, selected ≠ Some (l, s, true)) → (∀ e, e ∈ lists → ¬ usable certificate above now e) →
  selectedWf now (foldl (selectList certificate above now) selected lists) ∧ ∀ l s, foldl (selectList certificate above now) selected lists ≠ Some (l, s, true).
Proof.
  revert selected. induction lists as [|l lists IH]; intros selected Hwf Hnot Hunusable; [done|]. cbn.
  destruct (select_step certificate above now selected l Hwf) as (Hwf' & Hskip & _).
  apply IH; [done | |].
  - apply Hskip; [apply Hunusable; constructor | done].
  - intros e He. apply Hunusable. by constructor.
Qed.

(** The loop ends with the first usable list, and with none in its window when there
    is none. *)
Lemma select_first certificate above now older l newer :
  (∀ e, e ∈ older → ¬ usable certificate above now e) → usable certificate above now l →
  ∃ s, findCRLSignerInChain above (rl_RawIssuer l) = Some s ∧ foldl (selectList certificate above now) None (older ++ l :: newer) = Some (l, s, true).
Proof.
  intros Holder Husable. rewrite foldl_app. cbn.
  destruct (select_none certificate above now older None ltac:(done) ltac:(done) Holder) as [Hwf Hnot].
  destruct (select_step certificate above now _ l Hwf) as (_ & _ & Htake).
  destruct (Htake Husable Hnot) as (s & Hs & ->). exists s. split; [done|]. apply select_kept.
Qed.

Lemma first_usable certificate above now lists :
  (∀ e, e ∈ lists → ¬ usable certificate above now e) ∨
  ∃ older l newer, lists = older ++ l :: newer ∧ (∀ e, e ∈ older → ¬ usable certificate above now e) ∧ usable certificate above now l.
Proof.
  induction lists as [|l lists [IH|(older & l' & newer & -> & Hold & Hl)]].
  - left. intros e He. by apply not_elem_of_nil in He.
  - destruct (decide (usable certificate above now l)).
    + right. exists [], l, lists. split_and!; try done. intros e He. by apply not_elem_of_nil in He.
    + left. intros e He. apply elem_of_cons in He as [->|He]; auto.
  - destruct (decide (usable certificate above now l)).
    + right. exists [], l, (older ++ l' :: newer). split_and!; try done. intros e He. by apply not_elem_of_nil in He.
    + right. exists (l :: older), l', newer. split_and!; try done. intros e He. apply elem_of_cons in He as [->|He]; auto.
Qed.

Section Acceptance.
Context (x : X509).

Lemma depth_accepted chain depth certificate lists now :
  checkChainDepthAgainstCRL x chain depth certificate lists now = None ↔ NotRevoked x certificate (issuersAbove chain depth) lists now.
Proof.
  unfold checkChainDepthAgainstCRL. fold (issuersAbove chain depth). set (above := issuersAbove chain depth).
  split.
  - intros Hcheck. destruct (first_usable certificate above now lists) as [Hnone|(older & l & newer & -> & Hold & Hl)].
    + destruct (select_none certificate above now lists None ltac:(done) ltac:(done) Hnone) as [Hwf Hnot].
      destruct (foldl _ _ lists) as [[[l s] b]|]; [|done].
      destruct (_ && _); [done|]. destruct (revocationListValidityError l now) eqn:Hv; [done|].
      apply validity_current in Hv. apply (Hwf l s b eq_refl) in Hv as ->. by destruct (Hnot l s).
    + destruct (select_first certificate above now older l newer Hold Hl) as (s & Hs & Hfold). rewrite Hfold in Hcheck.
      destruct Hl as [[Hiss _] Hcur]. rewrite (proj2 (validity_current l now) Hcur) in Hcheck.
      destruct (certificateHasKeyUsageExtension s && _) eqn:Hku; [done|].
      destruct (x_CheckSignatureFrom x l s) eqn:Hsig; [|done]. cbn in Hcheck.
      constructor. exists older, l, newer, s. split_and!; try done.
      * intros e He Hc Hcu. by apply (Hold e He).
      * intros Hext. rewrite Hext in Hku. cbn in Hku. by apply Z.eqb_neq.
      * intros serial Hserial. rewrite Hserial in Hcheck. by case_bool_decide.
  - intros [(older & l & newer & s & -> & Hiss & Hs & Hcur & Hold & Hku & Hsig & Hserial)].
    destruct (select_first certificate above now older l newer) as (s' & Hs' & Hfold).
    { intros e He [Hc Hcu]. by apply (Hold e). }
    { split; [|done]. split; [done | by exists s]. }
    rewrite Hfold. simplify_eq. rewrite (proj2 (validity_current l now) Hcur), Hsig.
    destruct (certificateHasKeyUsageExtension s) eqn:Hext; cbn.
    + destruct (Z.eqb_spec (Z.land (c_KeyUsage s) keyUsageCRLSign) 0); [by destruct Hku|].
      destruct (c_SerialNumber certificate); [|done]. by rewrite bool_decide_eq_false_2 by auto.
    + destruct (c_SerialNumber certificate); [|done]. by rewrite bool_decide_eq_false_2 by auto.
Qed.

(** The configured checks of the peer's own certificate. *)
Definition NameMatches (certificate : Certificate) (name : bytes) (verifyType : string) : Prop :=
  (verifyType ∈ [""%string; "subject"%string] ∧ formatCertificateSubject (c_RawSubject certificate) = Ok name) ∨
  (verifyType = "name"%string ∧ certificateUsername (c_RawSubject certificate) commonNameAttributeOID = Ok name) ∨
  (verifyType = "name-prefix"%string ∧ ∃ rest, certificateUsername (c_RawSubject certificate) commonNameAttributeOID = Ok (name ++ rest)).

Record PeerAccepted (v : peerCertificateVerifierOptions) (certificate : Certificate) : Prop := mkPeerAccepted {
  pa_name : vo_VerifyName v ≠ [] → NameMatches certificate (vo_VerifyName v) (vo_VerifyNameType v);
  pa_fingerprint : vo_PeerFingerprints v ≠ [] → x_Fingerprint x (c_Raw certificate) ∈ vo_PeerFingerprints v;
  pa_keyUsage : ∀ first others, vo_RequiredKeyUsage v = first :: others → first ≠ 0 →
    ∃ usage mask, reconstructOpenSSLKeyUsage certificate = Ok (Some usage) ∧ mask ∈ first :: others ∧ mask ≠ 0 ∧ Z.land usage mask = mask;
  pa_keyUsageExtension : vo_RequireKeyUsageExtension v = true → certificateHasKeyUsageExtension certificate = true;
  pa_extendedUsage : vo_RequiredExtendedUsage v ≠ [] → ∃ usages, readCertificateExtendedKeyUsage certificate = Ok usages ∧ vo_RequiredExtendedUsage v ⊆ usages;
  pa_nsCertType : vo_NSCertificateType v ≠ ""%string →
    (vo_NSCertificateType v = "server"%string ∧ checkCertificatePurpose certificate certificatePurposeSSLServer false = Ok true) ∨
    (vo_NSCertificateType v = "client"%string ∧ checkCertificatePurpose certificate certificatePurposeSSLClient false = Ok true);
}.

Lemma name_accepted certificate name verifyType : verifyX509NameMatch certificate name verifyType = None → name ≠ [] → NameMatches certificate name verifyType.
Proof.
  unfold verifyX509NameMatch, NameMatches. destruct name as [|b name]; [done|]. intros H _.
  repeat (case_decide; subst).
  - destruct (formatCertificateSubject _) as [subject|]; [|done]. case_bool_decide; [|done]. subst. left. split; [set_solver | done].
  - destruct (certificateUsername _ _) as [username|]; [|done]. case_bool_decide; [|done]. subst. right. by left.
  - destruct (certificateUsername _ _) as [username|]; [|done]. case_bool_decide as Hpre; [|done]. right. right. split; [done|].
    exists (drop (length (b :: name)) username). by rewrite <- Hpre at 1; rewrite take_drop.
  - done.
Qed.

Lemma peer_accepted v certificate : verifyPeerCertificate x v certificate = None → PeerAccepted v certificate.
Proof.
  unfold verifyPeerCertificate. rewrite firstError_None, !Forall_cons. intros (Hname & Hfp & Hku & Hext & Heku & Hns & _). constructor.
  - by apply name_accepted.
  - unfold verifyPeerFingerprint in Hfp. destruct (vo_PeerFingerprints v); [done|]. by case_bool_decide.
  - intros first others Heq Hfirst. unfold verifyRequiredKeyUsage in Hku. rewrite Heq in Hku.
    destruct (Z.eqb_spec first 0); [done|]. destruct (reconstructOpenSSLKeyUsage certificate) as [[usage|]|]; [|done|done].
    destruct (existsb _ _) eqn:Hex; [|done]. apply existsb_exists in Hex as (mask & Hin & Hmask).
    exists usage, mask. apply andb_prop in Hmask as [H1 H2]. apply list_elem_of_In in Hin. split_and!; try done; [|by apply Z.eqb_eq].
    intros ->. done.
  - intros Hreq. rewrite Hreq in Hext. unfold verifyKeyUsageExtensionPresent in Hext. by destruct (certificateHasKeyUsageExtension certificate).
  - intros Hreq. unfold verifyRequiredExtendedKeyUsage in Heku. destruct (vo_RequiredExtendedUsage v) as [|u us]; [done|].
    destruct (readCertificateExtendedKeyUsage certificate) as [usages|]; [|done]. exists usages. split; [done|].
    destruct (forallb _ _) eqn:Hall; [|done]. rewrite forallb_forall in Hall. intros e He. apply list_elem_of_In in He.
    specialize (Hall e He). by apply bool_decide_eq_true in Hall.
  - intros Hreq. unfold verifyNSCertType in Hns. repeat case_decide; try done.
    + left. split; [done|]. by destruct (checkCertificatePurpose _ _ _) as [[|]|].
    + right. split; [done|]. by destruct (checkCertificatePurpose _ _ _) as [[|]|].
Qed.

(** What a profile allows of a certificate of the chain. *)
Definition ProfileAllows (profile : string) (certificate : Certificate) : Prop :=
  (profile = "suiteb"%string →
     (c_PublicKey certificate = ECDSAKey 256 ∨ c_PublicKey certificate = ECDSAKey 384) ∧ c_SignatureAlgorithm certificate ∈ [ECDSAWithSHA256; ECDSAWithSHA384]) ∧
  (profile = "preferred"%string →
     (∀ bits, c_PublicKey certificate = RSAKey bits → 2048 ≤ bits) ∧
     c_SignatureAlgorithm certificate ∉ [MD2WithRSA; MD5WithRSA; SHA1WithRSA; DSAWithSHA1; ECDSAWithSHA1]) ∧
  (profile ∈ [""%string; "legacy"%string] →
     (∀ bits, c_PublicKey certificate = RSAKey bits → 1024 ≤ bits) ∧ c_SignatureAlgorithm certificate ∉ [MD2WithRSA; MD5WithRSA]).

Lemma profile_allows profile certificate :
  enforceCertificateProfilePublicKey certificate (if decide (profile = ""%string) then "legacy"%string else profile) = None →
  enforceCertificateProfileSignatureAlgorithm certificate (if decide (profile = ""%string) then "legacy"%string else profile) = None →
  ProfileAllows profile certificate.
Proof.
  unfold enforceCertificateProfilePublicKey, enforceCertificateProfileSignatureAlgorithm, ProfileAllows. intros Hkey Hsig.
  split_and!.
  - intros ->. split.
    + repeat (case_decide; try done). destruct (c_PublicKey certificate) as [|curveBits|]; try done.
      destruct (Z.eqb_spec curveBits 256); [subst; by left|]. destruct (Z.eqb_spec curveBits 384); [subst; by right | done].
    + destruct (c_SignatureAlgorithm certificate); vm_compute in Hsig; try done; apply (bool_decide_unpack _); vm_compute; done.
  - intros ->. split.
    + intros bits Hbits. rewrite Hbits in Hkey. clear Hsig. repeat (case_decide; try done). destruct (Z.ltb_spec bits 2048); [done | lia].
    + destruct (c_SignatureAlgorithm certificate); vm_compute in Hsig; try done; apply (bool_decide_unpack _); vm_compute; done.
  - intros Hlegacy. assert (Hprofile : (if decide (profile = ""%string) then "legacy"%string else profile) = "legacy"%string).
    { destruct (decide (profile = ""%string)); [done|]. apply elem_of_cons in Hlegacy as [|Hlegacy]; [done|]. by apply list_elem_of_singleton in Hlegacy. }
    rewrite Hprofile in Hkey, Hsig. clear Hprofile. split.
    + intros bits Hbits. rewrite Hbits in Hkey. clear Hsig. repeat (case_decide; try done). destruct (Z.ltb_spec bits 1024); [done | lia].
    + destruct (c_SignatureAlgorithm certificate); vm_compute in Hsig; try done; apply (bool_decide_unpack _); vm_compute; done.
Qed.

Lemma chain_purpose chain purpose start :
  chainHasPurpose chain purpose start = Ok true → ∀ i certificate, chain !! i = Some certificate → checkCertificatePurpose certificate purpose (0 <? start + i)%nat = Ok true.
Proof.
  revert start. induction chain as [|c chain IH]; intros start H i certificate Hi; [done|]. cbn [chainHasPurpose] in H.
  destruct (checkCertificatePurpose c purpose (0 <? start)%nat) as [[|]|] eqn:Hc; try done. cbn in H.
  destruct i as [|i]; cbn in Hi.
  - simplify_eq. by rewrite Nat.add_0_r.
  - rewrite Nat.add_succ_r. by apply (IH (S start) H i).
Qed.

Lemma matching_chains chains purpose matched chain :
  matchingChains chains purpose = Ok matched → chain ∈ matched → chain ∈ chains ∧ chainHasPurpose chain purpose 0 = Ok true.
Proof.
  revert matched. induction chains as [|c chains IH]; intros matched H Hin; cbn in H.
  - simplify_eq. by apply not_elem_of_nil in Hin.
  - destruct (chainHasPurpose c purpose 0) as [b|] eqn:Hc; [|done]. cbn in H.
    destruct (matchingChains chains purpose) as [rest|] eqn:Hrest; [|done]. cbn in H. simplify_eq.
    destruct b.
    + apply elem_of_cons in Hin as [->|Hin]; [split; [constructor | done]|]. destruct (IH rest eq_refl Hin). split; [by constructor | done].
    + destruct (IH _ eq_refl Hin). split; [by constructor | done].
Qed.

(** A chain a library built for the profile; in the insecure one every signature of it
    was checked with the original keys. *)
Definition BuiltChain (v : peerCertificateVerifierOptions) (rawCertificates : list bytes) (peerCertificates chain : list Certificate) : Prop :=
  if decide (vo_CertificateProfile v = "insecure"%string) then
    (∃ chains, x_VerifySynthetic x peerCertificates = Ok chains ∧ chain ∈ chains) ∧
    ∀ i certificate parent, chain !! i = Some certificate → chain !! S i = Some parent → x_InsecureSignature x certificate parent = None
  else if decide (vo_CertificateProfile v = "legacy"%string) then
    ∃ chains rawChain, x_VerifyLegacy x rawCertificates = Ok chains ∧ rawChain ∈ chains ∧ parseCertificates x rawChain = Ok chain
  else ∃ chains, x_Verify x peerCertificates = Ok chains ∧ chain ∈ chains.

Lemma signatures_checked chain i certificate parent :
  signatureError x chain = None → chain !! i = Some certificate → chain !! S i = Some parent → x_InsecureSignature x certificate parent = None.
Proof.
  revert i. induction chain as [|c [|p chain] IH]; intros i Hsig Hi Hp; [done| by destruct i|].
  cbn in Hsig. destruct (x_InsecureSignature x c p) eqn:Hcp; [done|].
  destruct i as [|i]; cbn in Hi, Hp; [by simplify_eq|]. by apply (IH i).
Qed.

Lemma parsed_chain rawChains chains chain : parseChains x rawChains = Ok chains → chain ∈ chains → ∃ raw, raw ∈ rawChains ∧ parseCertificates x raw = Ok chain.
Proof.
  revert chains. induction rawChains as [|raw rawChains IH]; intros chains H Hin; cbn in H.
  - simplify_eq. by apply not_elem_of_nil in Hin.
  - destruct (parseCertificates x raw) as [c|] eqn:Hraw; [|done]. cbn in H.
    destruct (parseChains x rawChains) as [cs|] eqn:Hcs; [|done]. cbn in H. simplify_eq.
    apply elem_of_cons in Hin as [->|Hin]; [exists raw; split; [constructor | done]|].
    destruct (IH cs eq_refl Hin) as (r & ? & ?). exists r. split; [by constructor | done].
Qed.

Lemma verified_chain v rawCertificates peerCertificates chain :
  parseCertificates x rawCertificates = Ok peerCertificates →
  verifyCertificateChain x v rawCertificates peerCertificates = Ok chain →
  BuiltChain v rawCertificates peerCertificates chain ∧
  ∀ i certificate, chain !! i = Some certificate → checkCertificatePurpose certificate (vo_Purpose v) (0 <? i)%nat = Ok true.
Proof.
  intros Hparse. unfold verifyCertificateChain, BuiltChain, verifyInsecureCertificateChain, verifyLegacyCertificateChain, filterChainsByCertificatePurpose.
  assert (Hpick : ∀ chains, (r ← matchingChains chains (vo_Purpose v); match r with [] => Err ErrPeerCertificatePurpose | _ => Ok r end) ≫= 
    (λ m, match m with c :: _ => Ok c | [] => Err ErrPeerCertificatePurpose end) = Ok chain →
    chain ∈ chains ∧ ∀ i certificate, chain !! i = Some certificate → checkCertificatePurpose certificate (vo_Purpose v) (0 <? i)%nat = Ok true).
  { intros chains. destruct (matchingChains chains (vo_Purpose v)) as [[|c matched]|] eqn:Hm; cbn; try done. intros [= ->].
    destruct (matching_chains _ _ _ chain Hm) as [Hin Hp]; [constructor|]. split; [done|]. apply (chain_purpose chain (vo_Purpose v) 0 Hp). }
  intros H. destruct (decide (vo_CertificateProfile v = "insecure"%string)).
  - rewrite Hparse in H. cbn in H. destruct (x_VerifySynthetic x peerCertificates) as [chains|]; [|done]. cbn in H.
    destruct (filter _ chains) as [|c cs] eqn:Hf.
    { destruct (last _); [done|]. by apply Hpick in H as [H%not_elem_of_nil _]. }
    apply Hpick in H as [Hin Hp]. rewrite <- Hf in Hin. apply list_elem_of_filter in Hin as [Hsig Hin].
    split; [split; [by exists chains|] | done]. intros i certificate parent. by apply signatures_checked.
  - destruct (decide (vo_CertificateProfile v = "legacy"%string)).
    + destruct (x_VerifyLegacy x rawCertificates) as [rawChains|]; [|done]. cbn in H.
      destruct (parseChains x rawChains) as [chains|] eqn:Hc; [|done]. apply Hpick in H as [Hin Hp].
      destruct (parsed_chain _ _ _ Hc Hin) as (raw & Hraw & Hraw'). split; [by exists rawChains, raw | done].
    + destruct (x_Verify x peerCertificates) as [chains|]; [|done]. apply Hpick in H as [Hin Hp]. split; [by exists chains | done].
Qed.

End Acceptance.

(** Soundness of acceptance. *)
Definition AcceptedChain (x : X509) (v : peerCertificateVerifierOptions) (rawCertificates : list bytes) (peerCertificates chain : list Certificate) (now : Time) : Prop :=
  BuiltChain x v rawCertificates peerCertificates chain ∧
  (∀ i certificate, chain !! i = Some certificate →
     checkCertificatePurpose certificate (vo_Purpose v) (0 <? i)%nat = Ok true ∧ ProfileAllows (vo_CertificateProfile v) certificate) ∧
  ∀ file, vo_CRL v = Some file → ∃ lists, loadRevocationLists x file = Ok lists ∧ chain ≠ [] ∧
     ∀ depth certificate, chain !! depth = Some certificate → NotRevoked x certificate (issuersAbove chain depth) lists now.

Lemma crl_accepted x chain file now :
  verifyAgainstCRL x chain (Some file) now = None ↔
  ∃ lists, loadRevocationLists x file = Ok lists ∧ chain ≠ [] ∧ ∀ depth certificate, chain !! depth = Some certificate → NotRevoked x certificate (issuersAbove chain depth) lists now.
Proof.
  unfold verifyAgainstCRL. cbn. destruct (loadRevocationLists x file) as [lists|]; [|split; [done | by intros (? & ? & _)]].
  destruct chain as [|c chain]; [split; [done | by intros (? & _ & ? & _)]|].
  rewrite firstError_None, Forall_lookup. split.
  - intros H. exists lists. split_and!; [done..|]. intros depth certificate Hd. apply depth_accepted. apply (H depth).
    by rewrite list_lookup_imap, Hd.
  - intros (lists' & [= <-] & _ & H) depth check. rewrite list_lookup_imap. intros (certificate & Hd & ->)%fmap_Some. by apply depth_accepted, H.
Qed.

Lemma profile_accepted chain profile i certificate :
  enforceCertificateProfile chain profile = None → chain !! i = Some certificate → ProfileAllows profile certificate.
Proof.
  unfold enforceCertificateProfile. rewrite firstError_None, Forall_bind, Forall_lookup. intros H Hi.
  specialize (H i certificate Hi). apply Forall_cons in H as [Hkey [Hsig _]%Forall_cons]. by apply profile_allows.
Qed.

(** A peer certificate is accepted only if every configured check holds of it. The
    peer's own certificate has the configured name, one of the fingerprints, the key
    usages, the extended usages and the Netscape type; and, except when fingerprints
    replace the trust store, a chain that the library of the profile built (each
    signature checked by the original keys in the insecure profile) has the purpose of
    the role at every position, keys and signature algorithms the profile allows at
    every position, and, when lists are configured, no certificate at any depth is
    revoked by the list of its issuer that the code selects. *)
Theorem certificate_acceptance_sound x v rawCertificates now :
  Verify x v rawCertificates now = None →
  ∃ peerCertificate intermediates,
    parseCertificates x rawCertificates = Ok (peerCertificate :: intermediates) ∧
    PeerAccepted x v peerCertificate ∧
    ((vo_Roots v = false ∧ vo_PeerFingerprints v ≠ []) ∨
     ∃ chain, AcceptedChain x v rawCertificates (peerCertificate :: intermediates) chain now).
Proof.
  unfold Verify. destruct (parseCertificates x rawCertificates) as [[|peer rest]|] eqn:Hparse; [done| |done].
  destruct (negb (vo_Roots v) && _) eqn:Hpin.
  - intros Hpeer%peer_accepted. exists peer, rest. split_and!; [done..|]. left. apply andb_prop in Hpin as [Hroots Hfp].
    split; [by destruct (vo_Roots v) | by destruct (vo_PeerFingerprints v)].
  - destruct (verifyCertificateChain x v rawCertificates (peer :: rest)) as [chain|] eqn:Hchain; [|done].
    rewrite firstError_None, !Forall_cons. intros (Hprofile & Hpeer%peer_accepted & Hcrl & _).
    exists peer, rest. split_and!; [done..|]. right. exists chain.
    destruct (verified_chain x v rawCertificates _ chain Hparse Hchain) as [Hbuilt Hpurpose].
    split_and!; [done| |].
    + intros i certificate Hi. split; [by apply Hpurpose | by apply (profile_accepted chain _ i)].
    + intros file Hfile. rewrite Hfile in Hcrl. by apply crl_accepted.
Qed.

(** The check against the revocation lists, exactly. A chain passes if and only if
    the lists load, it is not empty, and at every depth (the trust anchor included)
    there is a list of the certificate's issuer, inside its validity window, whose
    signer stands above in the chain, may sign lists and signed it, which does not name
    the certificate's serial number; the list is the first such of the file. *)
Theorem revocation_check_exact x chain file now :
  verifyAgainstCRL x chain (Some file) now = None ↔
  ∃ lists, loadRevocationLists x file = Ok lists ∧ chain ≠ [] ∧
    ∀ depth certificate, chain !! depth = Some certificate → NotRevoked x certificate (issuersAbove chain depth) lists now.
Proof. apply crl_accepted. Qed.

(** Of two lists of one issuer that are both inside their validity windows, the one
    that comes first in the file decides, even if the other was issued later: a serial
    number that only the newer list names is accepted. *)
Theorem newer_revocation_ignored x chain depth certificate signer stale fresh now :
  rl_RawIssuer stale = c_RawIssuer certificate →
  findCRLSignerInChain (issuersAbove chain depth) (rl_RawIssuer stale) = Some signer →
  isCurrent stale now →
  (certificateHasKeyUsageExtension signer = true → Z.land (c_KeyUsage signer) keyUsageCRLSign ≠ 0) →
  x_CheckSignatureFrom x stale signer = true →
  c_SerialNumber certificate ∉ rl_Revoked stale →
  rl_ThisUpdate stale < rl_ThisUpdate fresh ≤ now →
  c_SerialNumber certificate ∈ rl_Revoked fresh →
  checkChainDepthAgainstCRL x chain depth certificate [stale; fresh] now = None.
Proof.
  intros Hiss Hsigner Hcur Hku Hsig Hserial _ _. apply depth_accepted. constructor. exists [], stale, [fresh], signer.
  split_and!; try done.
  - intros e He. by apply not_elem_of_nil in He.
  - intros serial Heq. by rewrite <- Heq.
Qed.

(** An authority, a peer it issued, two lists; the second, newer list names the peer. *)
Definition exampleAuthority : Certificate := mkCertificate [x01] [xaa] [xaa] (Some 1) [] 64 (RSAKey 2048) OtherAlgorithm.
Definition examplePeer : Certificate := mkCertificate [x02] [xbb] [xaa] (Some 7) [] 0 (RSAKey 2048) OtherAlgorithm.
Definition exampleOldList : RevocationList := mkCRL [xaa] 10 100 [Some 3].
Definition exampleNewList : RevocationList := mkCRL [xaa] 20 100 [Some 3; Some 7].

Definition exampleX509 : X509 := mkX509
  (λ raw, match raw with [x01] => Ok exampleAuthority | [x02] => Ok examplePeer | _ => Err (ErrNew "malformed certificate") end)
  (λ peers, Ok [peers]) (λ _ _, None) (λ raw, Ok [raw])
  (λ raw, match raw with b :: rest => Some ("X509 CRL"%string, [b], rest) | [] => None end)
  (λ raw, match raw with [x0a] => Ok exampleOldList | [x0b] => Ok exampleNewList | _ => Err (ErrNew "malformed CRL") end)
  (λ peers, Ok [peers ++ [exampleAuthority]]) (λ _ _, true) (λ _, "00"%string).

Definition exampleVerifier (lists : bytes) : peerCertificateVerifierOptions :=
  mkVerifier true certificatePurposeSSLClient [] "" ["00"%string] (Some (Ok lists)) [] false [] "" "preferred".

Lemma certificate_acceptance_sound_witness :
  Verify exampleX509 (exampleVerifier [x0a]) [[x02]] 50 = None ∧
  Verify exampleX509 (exampleVerifier [x0b]) [[x02]] 50 = Some ErrPeerCertificateRevoked ∧
  ∃ peerCertificate intermediates,
    parseCertificates exampleX509 [[x02]] = Ok (peerCertificate :: intermediates) ∧
    PeerAccepted exampleX509 (exampleVerifier [x0a]) peerCertificate ∧
    ((vo_Roots (exampleVerifier [x0a]) = false ∧ vo_PeerFingerprints (exampleVerifier [x0a]) ≠ []) ∨
     ∃ chain, AcceptedChain exampleX509 (exampleVerifier [x0a]) [[x02]] (peerCertificate :: intermediates) chain 50).
Proof.
  split_and!; [vm_compute; reflexivity..|]. apply (certificate_acceptance_sound exampleX509 (exampleVerifier [x0a]) [[x02]] 50). vm_compute. reflexivity.
Defined.

Lemma newer_revocation_ignored_witness :
  checkChainDepthAgainstCRL exampleX509 [examplePeer; exampleAuthority] 0 examplePeer [exampleOldList; exampleNewList] 50 = None ∧
  checkChainDepthAgainstCRL exampleX509 [examplePeer; exampleAuthority] 0 examplePeer [exampleNewList; exampleOldList] 50 = Some ErrPeerCertificateRevoked.
Proof.
  split; [|vm_compute; reflexivity].
  apply (newer_revocation_ignored exampleX509 [examplePeer; exampleAuthority] 0 examplePeer exampleAuthority exampleOldList exampleNewList 50).
  all: try (vm_compute; reflexivity).
  - split; [vm_compute; discriminate | right; vm_compute; discriminate].
  - vm_compute. discriminate.
  - apply (bool_decide_unpack _). vm_compute. reflexivity.
  - cbn. lia.
  - apply (bool_decide_unpack _). vm_compute. reflexivity.
Defined.

(** Each PEM block is read from what the one before it left, so the length of the file
    is enough fuel for the loop. *)
Lemma load_fuel x fuel more remaining lists :
  (∀ b t c rest, x_PemDecode x b = Some (t, c, rest) → (length rest < length b)%nat) →
  (length remaining ≤ fuel)%nat → loadLoop x (fuel + more) remaining lists = loadLoop x fuel remaining lists.
Proof.
  intros Hpem. revert remaining lists. induction fuel as [|fuel IH]; intros remaining lists Hlen.
  - destruct remaining; [|cbn in Hlen; lia]. by destruct more.
  - cbn [loadLoop Nat.add]. destruct remaining as [|b remaining]; [done|].
    destruct (x_PemDecode x (b :: remaining)) as [[[t c] rest]|] eqn:Hd; [|done].
    apply Hpem in Hd. destruct (_ && _); [apply IH; lia|].
    destruct (x_ParseRevocationList x c); [|done]. cbn. apply IH. lia.
Qed.
