(* ===== verification/DataPath.v ===== *)
(** * The path of data packets through a session ([peer_data.go], [client_data.go],
      [server_data.go])

    A session's codecs and session managers are shared objects: the key tables of
    [KeyState] name them and the session holds the stores.  What the code calls out
    to (observers, delivery, logging, the other goroutine of the messages) is the
    trace of the calls, in their order.  The hooks that prepare and reassemble
    payloads are arguments; those of the client and of the server follow. *)

From S2P Require Import Prelude Packet Session ReplayWindow Netip RouteRegistry Fragment Crypto Codec CodecLaws DataChannel Compression GoStrings Mss KeyState DataQueue.

Definition ErrFatalDecryption : goerr := ErrNew "fatal decryption error".
Definition ErrPeerExit : goerr := ErrNew "peer exited".
Definition ErrRouteNotFound : goerr := ErrNew "route not found".
Definition ErrInvalidIPPacket : goerr := ErrNew "invalid ip packet".
Definition ErrServerClosed : goerr := ErrNew "server is closed".

Definition dataTransportHeaderSize (protocol : string) : Z := if HasPrefix protocol "tcp" then 2 else 0.

Section DataPath.
Context {C : Type} {dc : DataCodec C} {F : Type}.

(** [ds_keys] names codecs by the keys of [ds_codecs] and session managers by the keys
    of [ds_managers], where 0 is the session's own. *)
Record dataSession := mkData {
  ds_keys : tlsPeerSession (C := nat);
  ds_codecs : gmap nat C;
  ds_managers : gmap Z SessionManager;
  ds_peerID : option Z;
  ds_transportHeaderSize : Z;
  ds_localOptions : bytes;
  ds_connectionOriented : bool;
  ds_framing : F;
}.

#[export] Instance eta_dataSession : Eta dataSession := λ s,
  mkData (ds_keys s) (ds_codecs s) (ds_managers s) (ds_peerID s) (ds_transportHeaderSize s) (ds_localOptions s) (ds_connectionOriented s) (ds_framing s).

Definition currentPeerID (s : dataSession) : option Z := ds_peerID s.
Definition setPeerID (s : dataSession) (peerID : option Z) : dataSession := s <| ds_peerID := peerID |>.

Definition dataPacketHeaderSize (s : dataSession) (opcode : Opcode) : Z :=
  if opcode =? OpcodeDataV2 then ds_transportHeaderSize s + 4 else ds_transportHeaderSize s + 1.

(** ** Receiving *)

Inductive dataEvent :=
| ReadCounter (keyID accountedBytes : Z)
| ReadUsage (keyID packetID aeadBlockBytes : Z)
| KeyConfirmed (stopped : list Z) (promoted : bool)
| ReadActivity
| ReadBytes (payloadBytes : Z)
| DropLogged (err : goerr)
| Deliver (payloads : list bytes) (codec : nat) (packetHeaderSize : Z)
| SendOCC (response : bytes)
| SessionTerminated (err : goerr).

(** A packet with the readings of the clock while it is handled and what the observer
    of authenticated packets answers. *)
Record incoming := mkIncoming {
  in_packet : option Packet;
  in_selected : Time;
  in_reapNow : Time;
  in_now : Time;
  in_confirmed : Time;
  in_framed : Time;
  in_admitted : bool;
}.

Definition aadPrefixOf (packet : Packet) : bytes :=
  if pkt_Opcode packet =? OpcodeDataV2 then headByte packet :: pkt_PeerID packet else [].

(** What becomes of one packet: nothing, a payload for the batch, a message that first
    flushes the batch, or the end of the session. *)
Inductive disposition :=
| Skipped
| Payload (payload : bytes) (codec : nat) (packetHeaderSize : Z)
| Message (events : list dataEvent)
| Fatal (err : goerr).

Context (decodeIncomingFraming : option (F → bytes → Time → result (option bytes) * F)).

(** The end of the loop's body, once framing has given the payload. *)
Definition dispose (s : dataSession) (payload : bytes) (codec : nat) (packetHeaderSize : Z) : list dataEvent * disposition :=
  match payload with
  | [] => ([], Skipped)
  | _ =>
      if bool_decide (payload = openVPNDataChannelPingPayload) then ([], Message []) else
      if bool_decide (occOpcode payload = Some openVPNOCCExit) then ([], Message [SessionTerminated ErrPeerExit]) else
      if bool_decide (take (length openVPNOCCMagic) payload = openVPNOCCMagic) then
        ([], Message (match buildOCCResponseForIncoming payload (ds_localOptions s) with Some response => [SendOCC response] | None => [] end))
      else ([ReadBytes (lenZ payload)], Payload payload codec packetHeaderSize)
  end.

Definition unframe (s : dataSession) (payload : bytes) (now : Time) : result (option bytes) * dataSession :=
  match decodeIncomingFraming with
  | None => (Ok (Some payload), s)
  | Some decode => let '(r, f) := decode (ds_framing s) payload now in (r, s <| ds_framing := f |>)
  end.

(** What follows the decryption of a packet. *)
Definition handleDecoded (s : dataSession) (i : incoming) (keyID packetID : Z) (payload : bytes) (codec : nat) (packetHeaderSize : Z)
    : list dataEvent * disposition * dataSession :=
  let '(stopped, promoted, keys) := confirmDataKey (ds_keys s) keyID (in_confirmed i) in
  let s := s <| ds_keys := keys |> in
  let events := [ReadUsage keyID packetID (lenZ payload); KeyConfirmed stopped promoted] in
  if negb (in_admitted i) then (events, Skipped, s) else
  let events := events ++ [ReadActivity] in
  let '(framed, s) := unframe s payload (in_framed i) in
  match framed with
  | Err e => (events ++ [DropLogged e], Skipped, s)
  | Ok None => (events, Skipped, s)
  | Ok (Some payload) => let '(more, d) := dispose s payload codec packetHeaderSize in (events ++ more, d, s)
  end.

Definition handleOne (s : dataSession) (i : incoming) : list dataEvent * disposition * dataSession :=
  match in_packet i with
  | None => ([], Skipped, s)
  | Some packet =>
      let '(receiveCodec, keys) := selectReceiveCodec (ds_keys s) (pkt_KeyID packet) (in_selected i) in
      let s := s <| ds_keys := keys |> in
      match receiveCodec with
      | None => ([], Skipped, s)
      | Some handle =>
          match ds_codecs s !! handle with
          | None => ([], Skipped, s)
          | Some codec =>
              let counted := [ReadCounter (pkt_KeyID packet) (lenZ (pkt_Payload packet))] in
              let '(decoded, codec) := Decode codec (aadPrefixOf packet) (pkt_Payload packet) (in_reapNow i) (in_now i) in
              let s := s <| ds_codecs := <[handle := codec]> (ds_codecs s) |> in
              match decoded with
              | Err e => (counted ++ [DropLogged e], if ds_connectionOriented s then Fatal (ErrExtend ErrFatalDecryption "") else Skipped, s)
              | Ok (packetID, payload) =>
                  let '(events, d, s) := handleDecoded s i (pkt_KeyID packet) packetID payload handle (dataPacketHeaderSize s (pkt_Opcode packet)) in
                  (counted ++ events, d, s)
              end
          end
      end
  end.

(** The batch of decoded payloads with the codec and header size it was begun with. *)
Record payloadBatch := mkBatch { ba_payloads : list bytes; ba_codec : nat; ba_header : Z }.

Definition flushDecodedPayloads (b : payloadBatch) : list dataEvent * payloadBatch :=
  match ba_payloads b with
  | [] => ([], b)
  | payloads => ([Deliver payloads (ba_codec b) (ba_header b)], mkBatch [] (ba_codec b) (ba_header b))
  end.

(** The flush before a packet whose codec or header size is another: it happens as soon
    as the codec of the packet is selected, before it is decoded. *)
Definition flushForPacket (s : dataSession) (b : payloadBatch) (i : incoming) : list dataEvent * payloadBatch :=
  match in_packet i with
  | None => ([], b)
  | Some packet =>
      match (selectReceiveCodec (ds_keys s) (pkt_KeyID packet) (in_selected i)).1 with
      | None => ([], b)
      | Some handle =>
          if negb (bool_decide (handle = ba_codec b)) || negb (dataPacketHeaderSize s (pkt_Opcode packet) =? ba_header b) then flushDecodedPayloads b else ([], b)
      end
  end.

Fixpoint handleLoop (s : dataSession) (b : payloadBatch) (packets : list incoming) : list dataEvent * dataSession :=
  match packets with
  | [] => ((flushDecodedPayloads b).1, s)
  | i :: packets =>
      let '(flushed, b) := flushForPacket s b i in
      let '(events, d, s) := handleOne s i in
      match d with
      | Skipped => let '(rest, s) := handleLoop s b packets in (flushed ++ events ++ rest, s)
      | Payload payload codec packetHeaderSize =>
          let b := match ba_payloads b with
                   | [] => mkBatch [payload] codec packetHeaderSize
                   | payloads => mkBatch (payloads ++ [payload]) (ba_codec b) (ba_header b)
                   end in
          let '(rest, s) := handleLoop s b packets in (flushed ++ events ++ rest, s)
      | Message messages =>
          let '(flushed', b) := flushDecodedPayloads b in
          let '(rest, s) := handleLoop s b packets in (flushed ++ events ++ flushed' ++ messages ++ rest, s)
      | Fatal err => (flushed ++ events ++ (flushDecodedPayloads b).1 ++ [SessionTerminated err], s)
      end
  end.

Definition handleIncomingDataPackets (s : dataSession) (packets : list incoming) : list dataEvent * dataSession :=
  handleLoop s (mkBatch [] 0 0) packets.

(** ** Sending *)

Inductive writeEvent :=
| WriteObserved (keyID packetID aeadBlockBytes accountedBytes : Z)
| WriteActivity
| WriteBytes (payloadBytes : Z).

Record tlsOutgoingDataPacket := mkOutgoing {
  og_rawPayload : bytes;
  og_packetID : Z;
  og_aeadBlockBytes : Z;
  og_accountedBytes : Z;
}.

(** The three octets of a peer id. *)
Definition peerIDBytes (peerID : Z) : bytes :=
  let encodedPeerID := Z.land peerID 16777215 in [z2b (Z.shiftr encodedPeerID 16); z2b (Z.shiftr encodedPeerID 8); z2b encodedPeerID].

Definition outgoingOpcode (s : dataSession) : Opcode := match ds_peerID s with Some _ => OpcodeDataV2 | None => OpcodeDataV1 end.

(** The packet a payload is sent as. *)
Definition dataPacket (s : dataSession) (keyID : Z) (encodedPayload : bytes) : Packet :=
  let packet := NewPacket (outgoingOpcode s) keyID encodedPayload in
  match ds_peerID s with
  | Some peerID => mkPacket (pkt_Opcode packet) keyID (peerIDBytes peerID) zeroSessionID [] zeroSessionID 0 encodedPayload
  | None => packet
  end.

Definition outgoingAAD (s : dataSession) (keyID : Z) : bytes := aadPrefixOf (dataPacket s keyID []).

(** [random] is the source of initialization vectors, by packet id. *)
Definition encodePacket (s : dataSession) (codec : C) (keyID packetID : Z) (random : Z → nat → result bytes) (payload : bytes) : result tlsOutgoingDataPacket :=
  encodedPayload ← Encode codec packetID (outgoingAAD s keyID) payload (random packetID);
  rawPacket ← Packet_Bytes (dataPacket s keyID encodedPayload);
  Ok (mkOutgoing rawPacket packetID (lenZ encodedPayload + lenZ (outgoingAAD s keyID)) (lenZ rawPacket)).

(** The frames of one payload: the packets before an error, and the error. *)
Fixpoint encodeFrames (s : dataSession) (codec : C) (keyID : Z) (random : Z → nat → result bytes) (dataPacketIDs : list Z) (frames : list bytes)
    : list tlsOutgoingDataPacket * option goerr * list Z :=
  match frames, dataPacketIDs with
  | frame :: frames, packetID :: dataPacketIDs =>
      match encodePacket s codec keyID packetID random frame with
      | Err e => ([], Some e, dataPacketIDs)
      | Ok packet => let '(packets, err, dataPacketIDs) := encodeFrames s codec keyID random dataPacketIDs frames in (packet :: packets, err, dataPacketIDs)
      end
  | _, _ => ([], None, dataPacketIDs)
  end.

(** The packets, the index of the last packet of each payload completed (-1 where it has
    none), and the error that stopped the loop. *)
Fixpoint encodePayloads (s : dataSession) (codec : C) (keyID : Z) (random : Z → nat → result bytes) (dataPacketIDs : list Z) (encoded : nat) (prepared : list (list bytes))
    : list tlsOutgoingDataPacket * list Z * option goerr :=
  match prepared with
  | [] => ([], [], None)
  | frames :: prepared =>
      let '(packets, err, dataPacketIDs) := encodeFrames s codec keyID random dataPacketIDs frames in
      match err with
      | Some e => (packets, [], Some e)
      | None =>
          let last := match packets with [] => -1 | _ => Z.of_nat encoded + lenZ packets - 1 end in
          let '(rest, lasts, err) := encodePayloads s codec keyID random dataPacketIDs (encoded + length packets) prepared in
          (packets ++ rest, last :: lasts, err)
      end
  end.

(** The observers of the payloads whose last packet was written. *)
Fixpoint accountWritten (payloads : list bytes) (lastEncodedPacket : list Z) (writtenPackets : Z) : list writeEvent :=
  match payloads, lastEncodedPacket with
  | payload :: payloads, last :: lasts =>
      if last <? 0 then accountWritten payloads lasts writtenPackets else
      if writtenPackets <=? last then [] else
      WriteActivity :: (if bool_decide (payload = openVPNDataChannelPingPayload) then [] else [WriteBytes (lenZ payload)])
        ++ accountWritten payloads lasts writtenPackets
  | _, _ => []
  end.

Context (outgoingDataPayloads : F → list bytes → C → Z → option (list (list bytes) * F)).

(** What a write did: the events, the packets handed to the connection, the error. *)
Record writeOutcome := mkWrite { wo_events : list writeEvent; wo_packets : list bytes; wo_error : option goerr }.

Definition nothingWritten (err : option goerr) : writeOutcome := mkWrite [] [] err.

Definition observeWrites (keyID : Z) (packets : list tlsOutgoingDataPacket) : list writeEvent :=
  (λ p, WriteObserved keyID (og_packetID p) (og_aeadBlockBytes p) (og_accountedBytes p)) <$> packets.

(** Both variants up to the allocation of the packet ids: an error, nothing to send, or
    the codec, the prepared frames and their ids. *)
Definition beginWrite (s : dataSession) (payloads : list bytes) : option (result (option (C * list (list bytes) * list Z)) * dataSession) :=
  match ps_sendCodec (ds_keys s) ≫= λ handle, ds_codecs s !! handle with
  | None => Some (Err ErrDataChannelNotReady, s)
  | Some codec =>
      '(prepared, framing) ← outgoingDataPayloads (ds_framing s) payloads codec (dataPacketHeaderSize s (outgoingOpcode s));
      let s := s <| ds_framing := framing |> in
      let preparedPacketCount := sum_list_with length prepared in
      if (preparedPacketCount =? 0)%nat then Some (Ok None, s) else
      manager ← ds_managers s !! ps_sendManager (ds_keys s);
      let '(dataPacketIDs, manager) := NewDataPacketIDs manager (outgoingOpcode s) (Z.of_nat preparedPacketCount) in
      let s := s <| ds_managers := <[ps_sendManager (ds_keys s) := manager]> (ds_managers s) |> in
      match dataPacketIDs with
      | Err e => Some (Err e, s)
      | Ok ids => Some (Ok (Some (codec, prepared, ids)), s)
      end
  end.

(** [writePackets] is the connection: how many packets it took, and its error. *)
Context (writePackets : list bytes → Z * option goerr).

Definition nonEmpty (payloads : list bytes) : list bytes := filter (λ payload, payload ≠ []) payloads.

Definition writeDataPacketsLocked (s : dataSession) (random : Z → nat → result bytes) (payloads : list bytes) : option (writeOutcome * dataSession) :=
  match nonEmpty payloads with
  | [] => Some (nothingWritten None, s)
  | payloads =>
      '(begun, s) ← beginWrite s payloads;
      match begun with
      | Err e => Some (nothingWritten (Some e), s)
      | Ok None => Some (nothingWritten None, s)
      | Ok (Some (codec, prepared, ids)) =>
          let keyID := ps_sendKeyID (ds_keys s) in
          let '(packets, lasts, encodeErr) := encodePayloads s codec keyID random ids 0 prepared in
          let rawPackets := og_rawPayload <$> packets in
          let '(writtenPackets, writeErr) := writePackets rawPackets in
          Some (mkWrite (observeWrites keyID packets ++ accountWritten payloads lasts writtenPackets) rawPackets
                  (match writeErr with Some e => Some e | None => encodeErr end), s)
      end
  end.

(** The variant on buffers: an error of the codec sends nothing. *)
Definition writeDataPacketBuffersLocked (s : dataSession) (random : Z → nat → result bytes) (payloads : list bytes) : option (writeOutcome * dataSession) :=
  match nonEmpty payloads with
  | [] => Some (nothingWritten None, s)
  | payloads =>
      '(begun, s) ← beginWrite s payloads;
      match begun with
      | Err e => Some (nothingWritten (Some e), s)
      | Ok None => Some (nothingWritten None, s)
      | Ok (Some (codec, prepared, ids)) =>
          let keyID := ps_sendKeyID (ds_keys s) in
          match encodePayloads s codec keyID random ids 0 prepared with
          | (_, _, Some encodeErr) => Some (nothingWritten (Some encodeErr), s)
          | (packets, lasts, None) =>
              let rawPackets := og_rawPayload <$> packets in
              let '(writtenPackets, writeErr) := writePackets rawPackets in
              Some (mkWrite (observeWrites keyID packets ++ accountWritten payloads lasts writtenPackets) rawPackets writeErr, s)
          end
      end
  end.

Definition WriteDataPackets (s : dataSession) (random : Z → nat → result bytes) (payloads : list bytes) : option (writeOutcome * dataSession) :=
  match payloads with [] => Some (nothingWritten None, s) | _ => writeDataPacketsLocked s random payloads end.

Definition WriteDataPacket (s : dataSession) (random : Z → nat → result bytes) (payload : bytes) : option (writeOutcome * dataSession) :=
  WriteDataPackets s random [payload].

Definition WriteDataPacketBuffers (s : dataSession) (random : Z → nat → result bytes) (payloads : list bytes) : option (writeOutcome * dataSession) :=
  match payloads with [] => Some (nothingWritten None, s) | _ => writeDataPacketBuffersLocked s random payloads end.

End DataPath.

(** ** The client's hooks *)

Record dataChannelOptions := mkDCO { dco_MSSFix : Z; dco_MSSFixMode : string; dco_Fragment : Z }.

Section ClientHooks.
Context {C : Type} {dc : DataCodec C} (o : dataChannelOptions) (outerTransportOverhead : Z).

(** The frames of each payload and what is logged; a payload that cannot be framed has
    no frames.  [None] is a panic of the compressor. *)
Fixpoint framePayloads (f : option dataChannelFraming) (clamp : mssClamp) (fragmentSize : Z) (now : Time) (payloads : list bytes)
    : option (list (list bytes) * list goerr * option dataChannelFraming) :=
  match payloads with
  | [] => Some ([], [], f)
  | payload :: payloads =>
      '(encoded, f) ← framing_Encode f (Mss.Apply clamp payload) fragmentSize now;
      '(batches, logged, f) ← framePayloads f clamp fragmentSize now payloads;
      Some (match encoded with Ok frames => (frames :: batches, logged, f) | Err e => ([] :: batches, e :: logged, f) end)
  end.

Definition outgoingDataPayloadBatches (f : option dataChannelFraming) (now : Time) (payloads : list bytes) (codec : C) (packetHeaderSize : Z)
    : option (list (list bytes) * list goerr * option dataChannelFraming) :=
  let clamp := calculateMSSClamp (dco_MSSFix o) (dco_MSSFixMode o) f codec packetHeaderSize outerTransportOverhead in
  match f with
  | None => Some ((λ payload, [Mss.Apply clamp payload]) <$> payloads, [], None)
  | Some _ =>
      let fragmentSize := if 0 <? dco_Fragment o then calculateDataPayloadBudget (dco_Fragment o) codec packetHeaderSize 4 else 0 in
      framePayloads f clamp fragmentSize now payloads
  end.

Definition decodeIncomingDataFraming (dz : Decompressors) (range : gmap Z incomingFragmentBuffer → list (Z * incomingFragmentBuffer))
    (f : option dataChannelFraming) (payload : bytes) (now : Time) : result (option bytes) * option dataChannelFraming :=
  framing_Decode dz range f payload now.

(** The queue the program reads from; [zero] is its empty slot. *)
Definition pushIncomingDataBuffers (q : dataPacketQueue (T := bytes)) (packetBuffers : list bytes) : option (Z * dataPacketQueue (T := bytes)) :=
  match packetBuffers with
  | [] => Some (0, q)
  | _ => '(dropped, q) ← PushBatch [] q packetBuffers; Some (lenZ dropped, q)
  end.

Definition handleIncomingDataBuffers (f : option dataChannelFraming) (q : dataPacketQueue (T := bytes)) (payloads : list bytes) (codec : C) (packetHeaderSize : Z)
    : option (Z * dataPacketQueue (T := bytes)) :=
  match payloads with
  | [] => Some (0, q)
  | _ =>
      let clamp := calculateMSSClamp (dco_MSSFix o) (dco_MSSFixMode o) f codec packetHeaderSize outerTransportOverhead in
      pushIncomingDataBuffers q ((λ payload, (ApplyInPlace clamp payload).2) <$> payloads)
  end.

Definition pushIncomingDataPackets (q : dataPacketQueue (T := bytes)) (packets : list bytes) : option (Z * dataPacketQueue (T := bytes)) :=
  pushIncomingDataBuffers q (filter (λ packet, packet ≠ []) packets).

Definition handleIncomingDataPayloads (f : option dataChannelFraming) (q : dataPacketQueue (T := bytes)) (payloads : list bytes) (codec : C) (packetHeaderSize : Z)
    : option (Z * dataPacketQueue (T := bytes)) :=
  match payloads with
  | [] => Some (0, q)
  | _ =>
      let clamp := calculateMSSClamp (dco_MSSFix o) (dco_MSSFixMode o) f codec packetHeaderSize outerTransportOverhead in
      pushIncomingDataPackets q (Mss.Apply clamp <$> payloads)
  end.

End ClientHooks.

(** ** The server's hooks *)

Section ServerHooks.
Context {C : Type} {dc : DataCodec C} (o : dataChannelOptions) (outerTransportOverhead : Z).

Definition serverClamp (codec : C) (packetHeaderSize : Z) : mssClamp :=
  calculateMSSClamp (dco_MSSFix o) (dco_MSSFixMode o) None codec packetHeaderSize outerTransportOverhead.

Definition serverOutgoingDataPayloads (payloads : list bytes) (codec : C) (packetHeaderSize : Z) : list (list bytes) :=
  (λ payload, [Mss.Apply (serverClamp codec packetHeaderSize) payload]) <$> payloads.

Definition serverOutgoingDataBuffers (payloads : list bytes) (codec : C) (packetHeaderSize : Z) : list (list bytes) :=
  (λ payload, [(ApplyInPlace (serverClamp codec packetHeaderSize) payload).2]) <$> payloads.

(** What is logged of a payload that is not accepted. *)
Inductive sourceDrop := BadSource (address : Addr) | MalformedPacket.

(** [pool] is whether the server hands out addresses. *)
Definition acceptIncomingSources (pool : bool) (routes : peerRouteRegistry) (s : session) (payloads : list bytes) : list bool * list sourceDrop :=
  if negb pool then (replicate (length payloads) true, []) else
  let ownerships := SourcesOwnedBy routes payloads s in
  (po_owned <$> ownerships,
   omap (λ w, if po_owned w then None else Some (if Addr_IsValid (po_sourceAddress w) then BadSource (po_sourceAddress w) else MalformedPacket)) ownerships).

Abbreviation serverQueue := (dataPacketQueue (T := string * bytes)) (only parsing).

Definition serverPushBuffers (q : serverQueue) (packets : list (string * bytes)) : option (Z * serverQueue) :=
  match packets with
  | [] => Some (0, q)
  | _ => '(dropped, q) ← PushBatch (""%string, []) q packets; Some (lenZ dropped, q)
  end.

Definition serverPushPackets (q : serverQueue) (packets : list (string * bytes)) : option (Z * serverQueue) :=
  match packets with
  | [] => Some (0, q)
  | _ =>
      '(dropped, q) ← PushBatch (""%string, []) q (filter (λ packet, packet.1 ≠ ""%string ∧ packet.2 ≠ []) packets);
      Some (lenZ dropped, q)
  end.

(** The payloads of a batch that are accepted, in order, as [clamp] leaves them. *)
Definition acceptedPackets (clamp : bytes → bytes) (peerAddress : string) (accepted : list bool) (payloads : list bytes) : list (string * bytes) :=
  omap (λ '(ok, payload), if ok : bool then Some (peerAddress, clamp payload) else None) (zip accepted payloads).

Definition deliverIncomingPayloads (pool : bool) (routes : peerRouteRegistry) (s : session) (peerAddress : string) (q : serverQueue)
    (payloads : list bytes) (codec : C) (packetHeaderSize : Z) : option (Z * serverQueue) :=
  serverPushPackets q
    (acceptedPackets (Mss.Apply (serverClamp codec packetHeaderSize)) peerAddress (acceptIncomingSources pool routes s payloads).1 payloads).

Definition deliverIncomingBuffers (pool : bool) (routes : peerRouteRegistry) (s : session) (peerAddress : string) (q : serverQueue)
    (payloads : list bytes) (codec : C) (packetHeaderSize : Z) : option (Z * serverQueue) :=
  serverPushBuffers q
    (acceptedPackets (λ payload, (ApplyInPlace (serverClamp codec packetHeaderSize) payload).2) peerAddress (acceptIncomingSources pool routes s payloads).1 payloads).

End ServerHooks.

(** ** Writing by destination *)

(** Why a packet has no route: [RouteMissError], or it is not an IP packet. *)
Record RouteMissError := mkMiss { rm_Destination : Addr; rm_Packet : bytes }.

Definition newRouteMissError (destination : Addr) (packet : bytes) : goerr + RouteMissError :=
  if negb (Addr_IsValid destination) then inl ErrInvalidIPPacket else inr (mkMiss destination packet).

Section ByDestination.
(** [write] hands a batch to the session of a route (or to the session at its address). *)
Context {W : Type} (write : W → peerRoute → list bytes → option goerr * W).

Definition flushCurrentBatch (w : W) (route : peerRoute) (packets : list bytes) : option goerr * W :=
  match packets with [] => (None, w) | _ => write w route packets end.

#[local] Instance peerRoute_eq_dec : EqDecision peerRoute.
Proof. solve_decision. Defined.

Fixpoint destinationLoop (w : W) (currentRoute : peerRoute) (currentPackets : list bytes) (packets : list (bytes * peerRouteLookup))
    : list RouteMissError * option goerr * W :=
  match packets with
  | [] => let '(err, w) := flushCurrentBatch w currentRoute currentPackets in ([], err, w)
  | (packet, lookup) :: packets =>
      if negb (pl_found lookup) then
        let '(err, w) := flushCurrentBatch w currentRoute currentPackets in
        match err with
        | Some e => ([], Some e, w)
        | None =>
            match newRouteMissError (pl_destination lookup) packet with
            | inl e => ([], Some e, w)
            | inr miss => let '(misses, err, w) := destinationLoop w currentRoute [] packets in (miss :: misses, err, w)
            end
        end
      else
        let route := pl_route lookup in
        match currentPackets with
        | [] => destinationLoop w route [packet] packets
        | _ =>
            if decide (route = currentRoute) then destinationLoop w currentRoute (currentPackets ++ [packet]) packets else
            let '(err, w) := flushCurrentBatch w currentRoute currentPackets in
            match err with Some e => ([], Some e, w) | None => destinationLoop w route [packet] packets end
        end
  end.

(** [running] is what [requireRunning] returns. *)
Definition WriteDataPacketsByDestination (running : option goerr) (routes : peerRouteRegistry) (w : W) (packets : list bytes) : list RouteMissError * option goerr * W :=
  match packets, running with
  | [], _ => ([], None, w)
  | _, Some e => ([], Some e, w)
  | _, None => destinationLoop w (mkRoute "" None) [] (zip packets (LookupPackets routes packets))
  end.

Definition WriteDataPacketByDestination (running : option goerr) (routes : peerRouteRegistry) (w : W) (packet : bytes) : option (goerr + RouteMissError) * W :=
  let '(misses, err, w) := WriteDataPacketsByDestination running routes w [packet] in
  (match err with Some e => Some (inl e) | None => inr <$> head misses end, w).

End ByDestination.

(** ** The hooks of a session

    The client gives its session the framing of both directions; the server's sessions
    frame nothing. *)

Section Hooks.
Context {C : Type} {dc : DataCodec C} (role : tlsRole).

Definition outgoingHook (o : dataChannelOptions) (outerTransportOverhead : Z) (now : Time) (f : option dataChannelFraming) (payloads : list bytes) (codec : C) (packetHeaderSize : Z)
    : option (list (list bytes) * option dataChannelFraming) :=
  match role with
  | tlsRoleClient => '(prepared, _, f) ← outgoingDataPayloadBatches o outerTransportOverhead f now payloads codec packetHeaderSize; Some (prepared, f)
  | tlsRoleServer => Some (serverOutgoingDataPayloads o outerTransportOverhead payloads codec packetHeaderSize, f)
  end.

Definition incomingHook (dz : Decompressors) (range : gmap Z incomingFragmentBuffer → list (Z * incomingFragmentBuffer))
    : option (option dataChannelFraming → bytes → Time → result (option bytes) * option dataChannelFraming) :=
  match role with tlsRoleClient => Some (decodeIncomingDataFraming dz range) | tlsRoleServer => None end.

End Hooks.
