(* ===== verification/DataPathLaws.v ===== *)
(** * Laws of the data path

    Batching does not change what is delivered; what one end writes is what the other
    end delivers; a server delivers only packets of the addresses of the session; and
    packets written by destination reach the sessions of their routes in order. *)

From S2P Require Import Prelude Packet Session ReplayWindow Netip RouteRegistry Fragment Crypto Codec CodecLaws DataChannel Compression GoStrings Mss KeyState DataQueue DataPath.

(** ** Batches *)

(** What a trace delivers, each payload with the codec and header size of its batch. *)
Definition deliveries (events : list dataEvent) : list (bytes * nat * Z) :=
  events ≫= λ e, match e with Deliver payloads codec header => (λ payload, (payload, codec, header)) <$> payloads | _ => [] end.

Lemma deliveries_app l l' : deliveries (l ++ l') = deliveries l ++ deliveries l'.
Proof. unfold deliveries. by rewrite bind_app. Qed.

Section Batches.
Context {C : Type} {dc : DataCodec C} {F : Type} (framing : option (F → bytes → Time → result (option bytes) * F)).

Abbreviation dataSession := (dataSession (C := C) (F := F)) (only parsing).

(** The reference: packets are handled one by one and delivered at once. *)
Fixpoint perPacket (s : dataSession) (packets : list incoming) : list (bytes * nat * Z) * dataSession :=
  match packets with
  | [] => ([], s)
  | i :: packets =>
      let '(_, d, s) := handleOne framing s i in
      match d with
      | Skipped | Message _ => perPacket s packets
      | Payload payload codec header => let '(rest, s) := perPacket s packets in ((payload, codec, header) :: rest, s)
      | Fatal _ => ([], s)
      end
  end.

Definition batchContents (b : payloadBatch) : list (bytes * nat * Z) := (λ payload, (payload, ba_codec b, ba_header b)) <$> ba_payloads b.

Lemma flush_delivers b : deliveries (flushDecodedPayloads b).1 = batchContents b ∧ batchContents (flushDecodedPayloads b).2 = [].
Proof. destruct b as [[|p ps] c h]; [done|]. unfold deliveries. cbn. by rewrite app_nil_r. Qed.

Lemma dispose_events (s : dataSession) payload codec header events d :
  dispose s payload codec header = (events, d) →
  deliveries events = [] ∧ (∀ messages, d = Message messages → deliveries messages = []) ∧ (∀ err, d ≠ Fatal err) ∧
  (∀ payload' codec' header', d = Payload payload' codec' header' → payload' = payload ∧ codec' = codec ∧ header' = header).
Proof.
  unfold dispose. destruct payload as [|b p]; [intros [= <- <-]; naive_solver|].
  repeat case_bool_decide; intros [= <- <-]; split_and!; try done; try naive_solver.
  intros messages [= <-]. by destruct (buildOCCResponseForIncoming _ _).
Qed.

(** The events of a single packet deliver nothing by themselves; a payload carries the
    codec that was selected for it and the header size of its opcode. *)
Lemma handleOne_events (s : dataSession) i events d s' :
  handleOne framing s i = (events, d, s') →
  deliveries events = [] ∧ (∀ messages, d = Message messages → deliveries messages = []) ∧
  (∀ payload codec header, d = Payload payload codec header →
     ∃ packet, in_packet i = Some packet ∧ (selectReceiveCodec (ds_keys s) (pkt_KeyID packet) (in_selected i)).1 = Some codec ∧
       header = dataPacketHeaderSize s (pkt_Opcode packet)).
Proof.
  unfold handleOne. destruct (in_packet i) as [packet|]; [|naive_solver].
  destruct (selectReceiveCodec (ds_keys s) (pkt_KeyID packet) (in_selected i)) as [[handle|] keys] eqn:Hsel; [|naive_solver].
  cbn. destruct (ds_codecs s !! handle) as [codec|]; [|naive_solver].
  destruct (Decode codec _ _ _ _) as [[[packetID payload]|e] codec']; [|destruct (ds_connectionOriented s); naive_solver].
  unfold handleDecoded. destruct (confirmDataKey _ _ _) as [[stopped promoted] keys']. cbn.
  destruct (in_admitted i); cbn; [|naive_solver].
  destruct (unframe framing _ payload (in_framed i)) as [[[p|]|e] s2]; [|naive_solver|naive_solver].
  destruct (dispose s2 p handle _) as [more d'] eqn:Hd. apply dispose_events in Hd as (Hmore & Hmsg & _ & Hpay).
  intros [= <- <- <-]. split_and!; [exact Hmore | done |].
  intros p' c' h' Heq. destruct (Hpay p' c' h' Heq) as (-> & -> & ->). exists packet. split_and!; [done | exact (f_equal fst Hsel) | done].
Qed.

(** After the flush for a packet, a batch that is left has the packet's codec and size. *)
Lemma flushForPacket_spec (s : dataSession) b i :
  deliveries (flushForPacket s b i).1 ++ batchContents (flushForPacket s b i).2 = batchContents b ∧
  (ba_payloads (flushForPacket s b i).2 = [] ∨
   ∀ packet codec, in_packet i = Some packet → (selectReceiveCodec (ds_keys s) (pkt_KeyID packet) (in_selected i)).1 = Some codec →
     ba_codec (flushForPacket s b i).2 = codec ∧ ba_header (flushForPacket s b i).2 = dataPacketHeaderSize s (pkt_Opcode packet)).
Proof.
  unfold flushForPacket. destruct (in_packet i) as [packet|]; [|split; [done | by right]].
  destruct (selectReceiveCodec (ds_keys s) (pkt_KeyID packet) (in_selected i)).1 as [handle|] eqn:Hsel.
  2:{ split; [done|]. right. intros ? ? [= <-]. by rewrite Hsel. }
  destruct (negb _ || negb _) eqn:Hd.
  - destruct (flush_delivers b) as [H1 H2]. rewrite H1, H2, app_nil_r. split; [done|]. left. by destruct b as [[|] ? ?].
  - split; [done|]. right. intros ? ? [= <-]. rewrite Hsel. intros [= <-]. apply orb_false_elim in Hd as [H1 H2].
    apply negb_false_iff in H1, H2. apply bool_decide_eq_true in H1. apply Z.eqb_eq in H2. done.
Qed.

Lemma handleLoop_deliveries (s : dataSession) b packets :
  deliveries (handleLoop framing s b packets).1 = batchContents b ++ (perPacket s packets).1 ∧
  (handleLoop framing s b packets).2 = (perPacket s packets).2.
Proof.
  revert s b. induction packets as [|i packets IH]; intros s b; cbn [handleLoop perPacket].
  { cbn. rewrite app_nil_r. split; [apply flush_delivers | done]. }
  destruct (flushForPacket_spec s b i) as [Hflush Hsame]. destruct (flushForPacket s b i) as [flushed b1]. cbn [fst snd] in Hflush, Hsame.
  rewrite <- Hflush. destruct (handleOne framing s i) as [[events d] s'] eqn:Hone.
  destruct (handleOne_events _ _ _ _ _ Hone) as (Hev & Hmsg & Hpay). destruct d as [|payload codec header|messages|err].
  - specialize (IH s' b1). destruct (handleLoop framing s' b1 packets) as [rest s2]. cbn [fst snd] in *.
    rewrite !deliveries_app, Hev. destruct IH as [-> ->]. by rewrite app_nil_l, app_assoc.
  - set (b2 := match ba_payloads b1 with [] => _ | _ :: _ => _ end).
    assert (Hb2 : batchContents b2 = batchContents b1 ++ [(payload, codec, header)]).
    { destruct (Hpay payload codec header eq_refl) as (packet & Hp & Hsel & ->). subst b2. destruct b1 as [[|p ps] c h]; [done|].
      cbn in Hsame. destruct Hsame as [Hsame|Hsame]; [done|]. destruct (Hsame packet codec Hp Hsel) as [-> ->].
      unfold batchContents. cbn. by rewrite fmap_app. }
    specialize (IH s' b2). destruct (handleLoop framing s' b2 packets) as [rest s2]. destruct (perPacket s' packets) as [out s3]. cbn [fst snd] in *.
    rewrite !deliveries_app, Hev. destruct IH as [-> ->]. by rewrite Hb2, app_nil_l, <- !app_assoc.
  - destruct (flush_delivers b1) as [Hf1 Hf2]. destruct (flushDecodedPayloads b1) as [flushed' b2]. cbn [fst snd] in *.
    specialize (IH s' b2). destruct (handleLoop framing s' b2 packets) as [rest s2]. cbn [fst snd] in *.
    rewrite !deliveries_app, Hev, Hf1, (Hmsg messages eq_refl). destruct IH as [-> ->]. by rewrite Hf2, !app_nil_l, <- !app_assoc.
  - cbn [fst snd]. rewrite !deliveries_app, Hev, (proj1 (flush_delivers b1)). by rewrite app_nil_l, !app_nil_r.
Qed.

(** Batching is invisible. However the packets that arrive mix keys, header sizes,
    pings, messages and packets that are dropped, the batches handed on contain, in
    order, exactly the payloads that handling the packets one by one delivers, each
    with the codec it was decoded with and the header size of its own opcode, and leave
    the session in the same state. *)
Theorem data_batches_transparent (s : dataSession) packets :
  deliveries (handleIncomingDataPackets framing s packets).1 = (perPacket s packets).1 ∧
  (handleIncomingDataPackets framing s packets).2 = (perPacket s packets).2.
Proof. apply (handleLoop_deliveries s (mkBatch [] 0 0) packets). Qed.

End Batches.

(** ** From one end to the other *)

(** A payload the program is to see: not empty, not a ping, not a message. *)
Definition isDataPayload (payload : bytes) : bool :=
  negb (bool_decide (payload = [])) && negb (bool_decide (payload = openVPNDataChannelPingPayload)) &&
  negb (bool_decide (take (length openVPNOCCMagic) payload = openVPNOCCMagic)).

Lemma dispose_data {C F} (s : dataSession (C := C) (F := F)) payload codec header :
  (dispose s payload codec header).2 =
    if isDataPayload payload then Payload payload codec header
    else match (dispose s payload codec header).2 with Payload _ _ _ => Skipped | d => d end.
Proof.
  unfold dispose, isDataPayload. destruct payload as [|b p]; [done|]. rewrite (bool_decide_eq_false_2 (b :: p = [])) by done.
  cbn [negb andb]. case_bool_decide; [done|]. cbn [negb andb]. case_bool_decide as Hexit.
  - unfold occOpcode in Hexit. by case_bool_decide.
  - by case_bool_decide.
Qed.

Lemma dispose_Fatal {C F} (s : dataSession (C := C) (F := F)) payload codec header err : (dispose s payload codec header).2 ≠ Fatal err.
Proof. unfold dispose. destruct payload; [done|]. by repeat case_bool_decide. Qed.

(** What is surfaced of a sequence of frames by a receiver in a state of framing. *)
Definition unframing {F} (framing : option (F → bytes → Time → result (option bytes) * F)) (f : F) (frame : bytes) (now : Time) : result (option bytes) * F :=
  match framing with None => (Ok (Some frame), f) | Some decode => decode f frame now end.

Fixpoint surfaced {F} (framing : option (F → bytes → Time → result (option bytes) * F)) (f : F) (frames : list bytes) (times : list Time) : list bytes :=
  match frames, times with
  | frame :: frames, now :: times =>
      let '(r, f) := unframing framing f frame now in
      match r with Ok (Some payload) => if isDataPayload payload then [payload] else [] | _ => [] end ++ surfaced framing f frames times
  | _, _ => []
  end.

(** Without framing the payloads that are data are surfaced as they were sent. *)
Lemma surfaced_plain {F} (f : F) frames times :
  length times = length frames → surfaced None f frames times = filter (λ frame, isDataPayload frame = true) frames.
Proof.
  revert times. induction frames as [|frame frames IH]; intros [|now times] Hlen; [done..|]. cbn [length] in Hlen. cbn [surfaced unframing].
  rewrite (IH times) by lia. rewrite filter_cons. by destruct (isDataPayload frame).
Qed.

Section EndToEnd.
Context {C : Type} {dc : DataCodec C} {lc : LawfulCodec C} {F : Type} (framing : option (F → bytes → Time → result (option bytes) * F)).

Abbreviation dataSession := (dataSession (C := C) (F := F)) (only parsing).

(** The key id selects a codec, and will at all the times given. *)
Definition selects (keys : tlsPeerSession (C := nat)) (keyID : Z) (handle : nat) (times : list Time) : Prop :=
  (∃ e, e ∈ ps_receiveCodecs keys ∧ rc_keyID e = keyID ∧ ∀ now, now ∈ times → expired now (rc_expiry e) = false) ∧
  ∀ e, e ∈ ps_receiveCodecs keys → rc_keyID e = keyID → rc_codec e = handle.

(** No renegotiation of the key waits for a packet of the peer. *)
Definition settled (keys : tlsPeerSession (C := nat)) (keyID : Z) : Prop :=
  ps_role keys = tlsRoleClient ∨
  ∀ sequence state, ps_renegotiations keys !! keyID = Some sequence → ps_heap keys !! sequence = Some state →
    rn_status state ≠ tlsRenegotiationNegotiating ∧ rn_status state ≠ tlsRenegotiationAwaitingData.

Lemma settled_confirm keys keyID now : settled keys keyID → confirmDataKey keys keyID now = ([], false, keys).
Proof.
  intros [Hrole|Hs]; unfold confirmDataKey; [by rewrite Hrole|].
  destruct (negb _); [done|]. destruct (ps_renegotiations keys !! keyID) as [q|] eqn:Hq; [|done].
  destruct (ps_heap keys !! q) as [state|] eqn:Hh; [|done]. destruct (Hs q state eq_refl Hh). by destruct (rn_status state).
Qed.

Lemma foldl_selects (l : list (tlsReceiveCodec (C := nat))) keyID handle start :
  (∀ e, e ∈ l → rc_keyID e = keyID → rc_codec e = handle) → (start = Some handle ∨ ∃ e, e ∈ l ∧ rc_keyID e = keyID) →
  foldl (λ selected e, if rc_keyID e =? keyID then Some (rc_codec e) else selected) start l = Some handle.
Proof.
  revert start. induction l as [|e l IH]; intros start Hall Hex; cbn.
  { destruct Hex as [?|(e & He & _)]; [done | by apply not_elem_of_nil in He]. }
  apply IH; [intros e' He'; apply Hall; by constructor|].
  destruct (Z.eqb_spec (rc_keyID e) keyID) as [Hk|Hk]; [left; f_equal; apply Hall; [constructor | done]|].
  destruct Hex as [?|(e' & He' & Hk')]; [by left|]. apply elem_of_cons in He' as [->|He']; [done|]. right. by exists e'.
Qed.

Lemma selects_selected keys keyID handle now times :
  selects keys keyID handle (now :: times) →
  ∃ keys', selectReceiveCodec keys keyID now = (Some handle, keys') ∧ selects keys' keyID handle times ∧ (settled keys keyID → settled keys' keyID).
Proof.
  intros [(e & He & Hk & Hexp) Hall]. unfold selectReceiveCodec. eexists. split; [|split].
  - f_equal. apply foldl_selects.
    + intros e' He'. apply list_elem_of_filter in He' as [_ He']. by apply Hall.
    + right. exists e. split; [|done]. apply list_elem_of_filter. split; [apply Hexp; constructor | done].
  - split.
    + exists e. split_and!; [|done|].
      * apply list_elem_of_filter. split; [apply Hexp; constructor | done].
      * intros now' Hn. apply Hexp. by constructor.
    + intros e' He'. cbn in He'. apply list_elem_of_filter in He' as [_ He']. by apply Hall.
  - done.
Qed.

(** What the receiver of a direction keeps: it selects the peer's codec, whose replay
    window is below the ids to come. *)
Record receives (s : C) (R : dataSession) (keyID next : Z) (handle : nat) (times : list Time) : Prop := mkReceives {
  rv_selects : selects (ds_keys R) keyID handle times;
  rv_settled : settled (ds_keys R) keyID;
  rv_codec : ∃ r w, ds_codecs R !! handle = Some r ∧ codecPair s r ∧ codecWindow r = Some w ∧
    rw_windowSize w ≠ 0 ∧ (rw_initialized w = true → rw_highestID w < next) ∧ windowTimestamp (codecTimestamp s) w;
}.

(** One packet: the frame is decoded, the state is kept. *)
Lemma handle_one (s : C) (R : dataSession) keyID next handle i times packet frame random encoded :
  receives s R keyID next handle (in_selected i :: times) →
  in_packet i = Some packet → pkt_KeyID packet = keyID → in_admitted i = true →
  0 < next < 2 ^ 32 → random_ok random → codecPayload s frame →
  Encode s next (aadPrefixOf packet) frame random = Ok encoded → pkt_Payload packet = encoded →
  let '(r, f) := unframing framing (ds_framing R) frame (in_framed i) in
  ∃ events d R', handleOne framing R i = (events, d, R') ∧ ds_framing R' = f ∧ receives s R' keyID (next + 1) handle times ∧
    match r with
    | Ok (Some payload) => if isDataPayload payload then ∃ header, d = Payload payload handle header else ∀ p c h, d ≠ Payload p c h
    | _ => d = Skipped
    end ∧ ∀ err, d ≠ Fatal err.
Proof.
  intros [Hsel Hset (r & w & Hr & Hpair & Hw & Hsize & Hlow & Hts)] Hpkt Hkey Hadm Hid Hrnd Hpay Henc Hbody.
  destruct (selects_selected _ _ _ _ _ Hsel) as (keys & Hselect & Hsel' & Hset'). specialize (Hset' Hset).
  pose proof (law_decode s r next (aadPrefixOf packet) frame random encoded (in_reapNow i) (in_now i) Hpair Hid Hrnd Hpay Henc) as Hdec.
  rewrite Hw in Hdec.
  destruct (codecAccept_newer (codecTimestamp s) w next (in_reapNow i) (in_now i) ltac:(lia) ltac:(done) Hts) as (w' & Hacc & Hsize' & Hinit & Hhigh & Hts').
  rewrite Hacc in Hdec. destruct Hdec as [err Hdec].
  destruct (unframing framing (ds_framing R) frame (in_framed i)) as [res f] eqn:Hun.
  unfold handleOne. rewrite Hpkt, Hkey, Hselect. cbn -[Decode]. rewrite Hr, Hbody, Hdec. unfold handleDecoded. cbn.
  rewrite (settled_confirm keys keyID _ Hset'). cbn. rewrite Hadm. cbn.
  set (R1 := R <| ds_keys := keys |> <| ds_codecs := <[handle := codecSetWindow r (Some w')]> (ds_codecs R) |> <| ds_keys := keys |>).
  assert (Hunf : unframe framing R1 frame (in_framed i) = (res, R1 <| ds_framing := f |>)).
  { unfold unframe, unframing in *. destruct framing as [decode|]; [|by simplify_eq].
    subst R1. cbn. by rewrite Hun. }
  rewrite Hunf.
  assert (Hrv : receives s (R1 <| ds_framing := f |>) keyID (next + 1) handle times).
  { constructor; [done | done |]. exists (codecSetWindow r (Some w')), w'. cbn. rewrite lookup_insert_eq, law_window.
    split_and!; [done | by apply law_pair | done | by rewrite Hsize' | intros _; rewrite Hhigh; lia | done]. }
  destruct res as [[payload|]|e]; [|do 3 eexists; split; [done|]; by split_and!|do 3 eexists; split; [done|]; by split_and!].
  pose proof (dispose_data (R1 <| ds_framing := f |>) payload handle (dataPacketHeaderSize R1 (pkt_Opcode packet))) as Hdd.
  pose proof (dispose_Fatal (R1 <| ds_framing := f |>) payload handle (dataPacketHeaderSize R1 (pkt_Opcode packet))) as Hnf.
  change (dataPacketHeaderSize _ (pkt_Opcode packet)) with (dataPacketHeaderSize R1 (pkt_Opcode packet)).
  destruct (dispose (R1 <| ds_framing := f |>) payload handle _) as [more d]. cbn [snd] in *.
  do 3 eexists. split; [done|]. split_and!; [done | done | | done].
  destruct (isDataPayload payload); [by eexists|]. intros p c h Heq. rewrite Heq in Hdd. done.
Qed.

(** An arrival carries a frame under a packet id. *)
Definition carriesFrame (s : C) (keyID : Z) (sent : Z * bytes) (i : incoming) : Prop :=
  ∃ packet random, in_packet i = Some packet ∧ pkt_KeyID packet = keyID ∧ in_admitted i = true ∧ random_ok random ∧
    Encode s sent.1 (aadPrefixOf packet) sent.2 random = Ok (pkt_Payload packet).

Lemma handle_many (s : C) (R : dataSession) keyID next handle frames arrivals :
  receives s R keyID next handle (in_selected <$> arrivals) → 0 < next → next + lenZ frames ≤ 2 ^ 32 → Forall (codecPayload s) frames →
  Forall2 (carriesFrame s keyID) (zip (seqZ next (lenZ frames)) frames) arrivals →
  (fst ∘ fst) <$> (perPacket framing R arrivals).1 = surfaced framing (ds_framing R) frames (in_framed <$> arrivals).
Proof.
  revert R next arrivals. induction frames as [|frame frames IH]; intros R next arrivals Hrv Hnext Hlast Hpay Hall.
  { unfold lenZ in Hall. cbn in Hall. by inv Hall. }
  unfold lenZ in *. cbn [length] in *. rewrite seqZ_cons in Hall by lia. cbn [zip zip_with] in Hall.
  replace (Z.succ next) with (next + 1) in Hall by lia. replace (Z.pred (Z.of_nat (S (length frames)))) with (Z.of_nat (length frames)) in Hall by lia.
  inv Hall as [|? i ? arrivals' Hi Hrest]. apply Forall_cons in Hpay as [Hp Hpay].
  destruct Hi as (packet & random & Hpkt & Hkey & Hadm & Hrnd & Henc). cbn [fst snd] in Henc. cbn [fmap list_fmap] in Hrv.
  pose proof (handle_one s R keyID next handle i _ packet frame random _ Hrv Hpkt Hkey Hadm ltac:(lia) Hrnd Hp Henc eq_refl) as Hone.
  cbn [perPacket surfaced fmap list_fmap]. destruct (unframing framing (ds_framing R) frame (in_framed i)) as [r f].
  destruct Hone as (events & d & R' & -> & <- & Hrv' & Hd & Hnf).
  specialize (IH R' (next + 1) arrivals' Hrv' ltac:(lia) ltac:(lia) Hpay Hrest). rewrite <- IH.
  destruct r as [[payload|]|e]; [|subst d; by destruct (perPacket framing R' arrivals')|subst d; by destruct (perPacket framing R' arrivals')].
  destruct (isDataPayload payload).
  - destruct Hd as [header ->]. by destruct (perPacket framing R' arrivals').
  - destruct d as [|p c h|m|e]; [done | by destruct (Hd p c h) | done | by destruct (Hnf e)].
Qed.

(** *** The sender *)

Lemma encodeFrames_spec (S : dataSession) codec keyID random ids frames packets ids' :
  encodeFrames S codec keyID random ids frames = (packets, None, ids') → (length frames ≤ length ids)%nat →
  ids' = drop (length frames) ids ∧ Forall2 (λ sent p, encodePacket S codec keyID sent.1 random sent.2 = Ok p) (zip ids frames) packets.
Proof.
  revert ids packets ids'. induction frames as [|frame frames IH]; intros [|id ids] packets ids' H Hlen; cbn in *; try lia; simplify_eq.
  1,2: by rewrite ?zip_with_nil_r.
  destruct (encodePacket S codec keyID id random frame) as [p|] eqn:Hp; [|done].
  destruct (encodeFrames S codec keyID random ids frames) as [[ps err] rest] eqn:Hrec. simplify_eq.
  destruct (IH ids ps ids' Hrec ltac:(lia)) as [-> Hall]. split; [done|]. by constructor.
Qed.

Lemma zip_take_l {A B} (l : list A) (k : list B) : (length k ≤ length l)%nat → zip l k = zip (take (length k) l) k.
Proof.
  revert k. induction l as [|x l IH]; intros [|y k] H; cbn in *; try done; try lia. f_equal. apply IH. lia.
Qed.

Lemma encodePayloads_spec (S : dataSession) codec keyID random ids encoded prepared packets lasts :
  encodePayloads S codec keyID random ids encoded prepared = (packets, lasts, None) → (length (concat prepared) ≤ length ids)%nat →
  Forall2 (λ sent p, encodePacket S codec keyID sent.1 random sent.2 = Ok p) (zip ids (concat prepared)) packets.
Proof.
  revert ids encoded packets lasts. induction prepared as [|frames prepared IH]; intros ids encoded packets lasts H Hlen; cbn in *.
  { simplify_eq. by rewrite zip_with_nil_r. }
  rewrite length_app in Hlen. destruct (encodeFrames S codec keyID random ids frames) as [[ps [e|]] rest] eqn:Hf; [done|].
  destruct (encodePayloads S codec keyID random rest (encoded + length ps) prepared) as [[rest' lasts'] err] eqn:Hrec. simplify_eq.
  destruct (encodeFrames_spec _ _ _ _ _ _ _ _ Hf ltac:(lia)) as [-> Hall].
  apply IH in Hrec; [|rewrite length_drop; lia].
  rewrite <- (take_drop (length frames) ids), zip_with_app; [|rewrite length_take; lia]. apply Forall2_app; [|done].
  by rewrite zip_take_l in Hall by lia.
Qed.

Lemma peerIDBytes_length peerID : length (peerIDBytes peerID) = 3%nat.
Proof. done. Qed.

Lemma dataPacket_wf (S : dataSession) keyID encoded : 0 ≤ keyID < 8 → Packet_wf (dataPacket S keyID encoded).
Proof. intros Hk. unfold dataPacket, outgoingOpcode. destruct (ds_peerID S); constructor; cbn; try done; try lia; constructor. Qed.

(** A packet that was sent parses to one that carries its frame. *)
Lemma sent_parses (S : dataSession) codec keyID id random frame p :
  0 ≤ keyID < 8 → encodePacket S codec keyID id random frame = Ok p →
  ∃ packet, ParsePacket (og_rawPayload p) = Ok packet ∧ pkt_KeyID packet = keyID ∧ Encode codec id (aadPrefixOf packet) frame (random id) = Ok (pkt_Payload packet).
Proof.
  intros Hk. unfold encodePacket. intros (encoded & Henc & (raw & Hraw & [= <-])%result_bind_Ok)%result_bind_Ok. cbn [og_rawPayload].
  destruct (parse_serialized (dataPacket S keyID encoded)) as (raw' & Hraw' & Hparse).
  { by apply dataPacket_wf. }
  { unfold dataPacket. by destruct (ds_peerID S). }
  rewrite Hraw in Hraw'. simplify_eq. eexists. split; [exact Hparse|].
  unfold outgoingAAD, dataPacket, wirePacket, outgoingOpcode, aadPrefixOf in *. destruct (ds_peerID S); cbn in *; split; done.
Qed.

End EndToEnd.

Lemma Forall2_compose {A B D} (P : A → B → Prop) (Q : B → D → Prop) (R : A → D → Prop) l k m :
  (∀ x y z, P x y → Q y z → R x z) → Forall2 P l k → Forall2 Q k m → Forall2 R l m.
Proof. intros H HP. revert m. induction HP; intros m HQ; inv HQ; constructor; eauto. Qed.

Lemma sum_list_with_concat {A} (l : list (list A)) : sum_list_with length l = length (concat l).
Proof. induction l as [|x l IH]; [done|]. cbn. by rewrite length_app, IH. Qed.

(** The packets of a batch that was written whole. *)
Lemma written_packets {C FS} `{DataCodec C} (prepare : FS → list bytes → C → Z → option (list (list bytes) * FS)) writePackets (S S' : dataSession (C := C) (F := FS))
    random payloads outcome prepared f hs c m :
  ps_sendCodec (ds_keys S) = Some hs → ds_codecs S !! hs = Some c → ds_managers S !! ps_sendManager (ds_keys S) = Some m → session_inv m →
  prepare (ds_framing S) (nonEmpty payloads) c (dataPacketHeaderSize S (outgoingOpcode S)) = Some (prepared, f) → lenZ (concat prepared) < 2 ^ 63 →
  WriteDataPackets prepare writePackets S random payloads = Some (outcome, S') → wo_error outcome = None →
  (wo_packets outcome = [] ∧ (nonEmpty payloads = [] ∨ concat prepared = [])) ∨
  sm_localDataPacketID m + lenZ (concat prepared) ≤ MaxUint32 ∧
  ∃ (S1 : dataSession (C := C) (F := FS)) packets, ds_peerID S1 = ds_peerID S ∧ wo_packets outcome = og_rawPayload <$> packets ∧
    Forall2 (λ sent p, encodePacket S1 c (ps_sendKeyID (ds_keys S)) sent.1 random sent.2 = Ok p)
      (zip (seqZ (sm_localDataPacketID m) (lenZ (concat prepared))) (concat prepared)) packets.
Proof.
  intros Hsend Hc Hm Hinv Hprep Hint Hwrite Herr. unfold WriteDataPackets, writeDataPacketsLocked in Hwrite.
  destruct payloads as [|payload payloads]; [simplify_eq; by left; split; [|left]|].
  destruct (nonEmpty (payload :: payloads)) as [|p ps]; [simplify_eq; by left; split; [|left]|].
  unfold beginWrite in Hwrite. rewrite Hsend in Hwrite. cbn [mbind option_bind] in Hwrite. rewrite Hc, Hprep in Hwrite. cbn [mbind option_bind] in Hwrite.
  rewrite sum_list_with_concat in Hwrite.
  destruct (Nat.eqb_spec (length (concat prepared)) 0) as [Hz%length_zero_iff_nil|Hz]; [cbn in Hwrite; simplify_eq; by left; split; [|right]|].
  cbn -[encodePayloads NewDataPacketIDs outgoingOpcode concat] in Hwrite. rewrite Hm in Hwrite. cbn [mbind option_bind] in Hwrite.
  pose proof (NewDataPacketIDs_spec m (outgoingOpcode S) (lenZ (concat prepared)) Hinv ltac:(unfold lenZ in *; lia)) as Hids.
  fold (lenZ (concat prepared)) in Hwrite.
  change (outgoingOpcode _) with (outgoingOpcode S) in Hwrite.
  destruct (NewDataPacketIDs m (outgoingOpcode S) (lenZ (concat prepared))) as [[ids|e] m']; [|cbn in Hwrite; simplify_eq].
  destruct Hids as (_ & Hcount & -> & _ & _). cbn [mbind option_bind] in Hwrite.
  match type of Hwrite with context [encodePayloads ?s1] => set (S1 := s1) in Hwrite end.
  change (ps_sendKeyID (ds_keys S1)) with (ps_sendKeyID (ds_keys S)) in Hwrite.
  destruct (encodePayloads S1 _ _ _ _ _ _) as [[packets lasts] encodeErr] eqn:Henc.
  destruct (writePackets (og_rawPayload <$> packets)) as [written writeErr]. injection Hwrite as <- <-.
  cbn in Herr. destruct writeErr; [discriminate|]. subst encodeErr.
  right. split; [unfold lenZ in *; lia|]. exists S1, packets. split_and!; [done | done |].
  apply (encodePayloads_spec _ _ _ _ _ _ _ _ _ Henc). rewrite length_seqZ. unfold lenZ. lia.
Qed.

(** A batch that was written whole, whatever the hooks make of its payloads: the receiver
    hands on what its framing makes of the frames. *)
Lemma batch_delivered {C FS F} `{LawfulCodec C} (framing : option (F → bytes → Time → result (option bytes) * F))
    (prepare : FS → list bytes → C → Z → option (list (list bytes) * FS)) writePackets (S S' : dataSession (C := C) (F := FS)) (R : dataSession (C := C) (F := F))
    random payloads outcome prepared f hs c m handle arrivals :
  ps_sendCodec (ds_keys S) = Some hs → ds_codecs S !! hs = Some c → 0 ≤ ps_sendKeyID (ds_keys S) < 8 →
  ds_managers S !! ps_sendManager (ds_keys S) = Some m → session_inv m → (∀ id, random_ok (random id)) →
  prepare (ds_framing S) (nonEmpty payloads) c (dataPacketHeaderSize S (outgoingOpcode S)) = Some (prepared, f) → Forall (codecPayload c) (concat prepared) → lenZ (concat prepared) < 2 ^ 63 →
  WriteDataPackets prepare writePackets S random payloads = Some (outcome, S') → wo_error outcome = None →
  receives c R (ps_sendKeyID (ds_keys S)) (sm_localDataPacketID m) handle (in_selected <$> arrivals) →
  Forall2 (λ raw i, in_admitted i = true ∧ ∃ packet, ParsePacket raw = Ok packet ∧ in_packet i = Some packet) (wo_packets outcome) arrivals →
  (fst ∘ fst) <$> deliveries (handleIncomingDataPackets framing R arrivals).1 = surfaced framing (ds_framing R) (concat prepared) (in_framed <$> arrivals).
Proof.
  intros Hsend Hc Hkey Hm Hinv Hrnd Hprep Hpay Hint Hwrite Herr Hrv Hall.
  unfold handleIncomingDataPackets. rewrite (proj1 (handleLoop_deliveries framing R (mkBatch [] 0 0) arrivals)), app_nil_l.
  destruct (written_packets _ _ _ _ _ _ _ _ _ _ _ _ Hsend Hc Hm Hinv Hprep Hint Hwrite Herr) as [[Hnone _]|(Hlast & S1 & packets & _ & Hraw & Hsent)].
  { rewrite Hnone in Hall. inv Hall. by destruct (concat prepared). }
  apply (handle_many framing c R _ _ handle _ _ Hrv); [destruct Hinv; lia | unfold MaxUint32 in Hlast; lia | done |].
  rewrite Hraw in Hall. apply Forall2_fmap_l in Hall. eapply Forall2_compose; [|exact Hsent|exact Hall].
  intros sent p i Hp (Hadm & packet & Hparse & Hin). cbn in Hparse.
  destruct (sent_parses S1 c _ _ _ _ _ Hkey Hp) as (packet' & Hparse' & Hk & Henc). rewrite Hparse in Hparse'. simplify_eq.
  exists packet', (random sent.1). split_and!; try done.
Qed.

(** *** With the hooks of the program *)

(** The framing a session applies. *)
Definition framingOf {C} (s : dataSession (C := C) (F := option dataChannelFraming)) : option dataChannelFraming :=
  match ps_role (ds_keys s) with tlsRoleClient => ds_framing s | tlsRoleServer => None end.

(** Two ends frame alike: neither does, or both with the same compression, and without
    fragments. *)
Definition framingsAgree (f g : option dataChannelFraming) : Prop :=
  match f, g with
  | None, None => True
  | Some f, Some g => df_compression g = df_compression f ∧ df_fragmentSize f ≤ 0 ∧ df_fragmentSize g ≤ 0
  | _, _ => False
  end.

(** One frame, and what every receiver of the framing makes of it. *)
Definition framesTo (dz : Decompressors) (range : gmap Z incomingFragmentBuffer → list (Z * incomingFragmentBuffer)) (g : option dataChannelFraming)
    (payload : bytes) (frames : list bytes) : Prop :=
  ∃ frame, frames = [frame] ∧ (payload ≠ [] → frame ≠ []) ∧ ∀ now, decodeIncomingDataFraming dz range g frame now = (Ok (Some payload), g).

Lemma decodeCompression_nil dz compression payload : decodeCompression dz compression [] = Ok payload → payload = [].
Proof.
  unfold decodeCompression. destruct (cs_algorithm compression); cbn; try congruence;
    unfold unwrapV2Compression; rewrite bool_decide_false by done; cbn; congruence.
Qed.

Lemma framing_Encode_agrees dz range f g payload fragmentSize now :
  Decompressors_laws dz → framingsAgree f g → (f ≠ None → lenZ payload ≤ openVPNLZOMaxDecompressedSize) →
  ∃ frames f', framing_Encode f payload fragmentSize now = Some (Ok frames, f') ∧ framingsAgree f' g ∧ framesTo dz range g payload frames.
Proof.
  intros Hdz Hag Hlen. destruct f as [f|], g as [g|]; [|done..|].
  2: { do 2 eexists. split; [done|]. split; [done|]. exists payload. done. }
  destruct Hag as (Hcomp & Hf & Hg). destruct (compression_frame dz f payload now Hdz (Hlen ltac:(done))) as (framed & f' & He & Hdec & _ & Hs1 & Hs2 & _).
  cbn [framing_Encode]. rewrite He. cbn [mbind option_bind]. rewrite Hs2, (proj2 (Z.leb_le _ _)) by lia.
  exists [framed], (Some f'). split; [done|]. split; [cbn; rewrite Hs1, Hs2; done|]. exists framed. split_and!; [done| |].
  - intros Hne ->. by apply decodeCompression_nil in Hdec.
  - intros now'. unfold decodeIncomingDataFraming. cbn [framing_Decode]. rewrite (proj2 (Z.ltb_ge _ _)) by lia. by rewrite Hcomp, Hdec.
Qed.

Lemma framePayloads_agrees dz range clamp fragmentSize now payloads : Decompressors_laws dz → ∀ f g,
  framingsAgree f g → (f ≠ None → Forall (λ payload, lenZ payload ≤ openVPNLZOMaxDecompressedSize) payloads) →
  ∃ prepared f', framePayloads f clamp fragmentSize now payloads = Some (prepared, [], f') ∧ framingsAgree f' g ∧
    Forall2 (framesTo dz range g) (Mss.Apply clamp <$> payloads) prepared.
Proof.
  intros Hdz. induction payloads as [|payload payloads IH]; intros f g Hag Hlen; [do 2 eexists; split_and!; [done..|constructor]|].
  assert (Hlen' : f ≠ None → lenZ payload ≤ openVPNLZOMaxDecompressedSize ∧ Forall (λ payload, lenZ payload ≤ openVPNLZOMaxDecompressedSize) payloads)
    by (intros Hf; specialize (Hlen Hf); by inv Hlen).
  destruct (framing_Encode_agrees dz range f g (Mss.Apply clamp payload) fragmentSize now Hdz Hag) as (frames & f1 & E1 & Hag1 & Hto).
  { intros Hf. unfold lenZ. rewrite Apply_length. by apply Hlen'. }
  destruct (IH f1 g Hag1) as (prepared & f2 & E2 & Hag2 & Hall).
  { intros Hf1. apply Hlen'. by destruct f, g, f1. }
  cbn [framePayloads]. rewrite E1. cbn [mbind option_bind]. rewrite E2. exists (frames :: prepared), f2. split_and!; [done..|]. by constructor.
Qed.

(** What the client's hook makes of payloads. *)
Lemma client_frames {C} `{DataCodec C} dz range o overhead f g now payloads (codec : C) header : Decompressors_laws dz → framingsAgree f g →
  (f ≠ None → Forall (λ payload, lenZ payload ≤ openVPNLZOMaxDecompressedSize) payloads) →
  let clamp := calculateMSSClamp (dco_MSSFix o) (dco_MSSFixMode o) f codec header overhead in
  ∃ prepared f', outgoingDataPayloadBatches o overhead f now payloads codec header = Some (prepared, [], f') ∧ framingsAgree f' g ∧
    Forall2 (framesTo dz range g) (Mss.Apply clamp <$> payloads) prepared.
Proof.
  intros Hdz Hag Hlen clamp. unfold outgoingDataPayloadBatches. destruct f as [f|]; [by apply framePayloads_agrees|].
  destruct g; [done|]. do 2 eexists. split; [done|]. split; [done|]. rewrite Forall2_fmap_l, Forall2_fmap_r.
  induction payloads as [|payload payloads IH]; constructor; [|by apply IH]. by eexists.
Qed.

Lemma hook_frames {C} `{DataCodec C} dz range o overhead (S : dataSession (C := C) (F := option dataChannelFraming)) g now payloads (codec : C) header :
  Decompressors_laws dz → framingsAgree (framingOf S) g → (framingOf S ≠ None → Forall (λ payload, lenZ payload ≤ openVPNLZOMaxDecompressedSize) payloads) →
  let clamp := calculateMSSClamp (dco_MSSFix o) (dco_MSSFixMode o) (framingOf S) codec header overhead in
  ∃ prepared f', outgoingHook (ps_role (ds_keys S)) o overhead now (ds_framing S) payloads codec header = Some (prepared, f') ∧
    Forall2 (framesTo dz range g) (Mss.Apply clamp <$> payloads) prepared.
Proof.
  unfold framingOf, outgoingHook. intros Hdz Hag Hlen. destruct (ps_role (ds_keys S)).
  - destruct (client_frames dz range o overhead (ds_framing S) g now payloads codec header Hdz Hag Hlen) as (prepared & f' & -> & _ & Hall). eauto.
  - destruct g; [done|]. do 2 eexists. split; [done|]. unfold serverOutgoingDataPayloads. rewrite Forall2_fmap_l, Forall2_fmap_r.
    apply Forall_Forall2_diag, Forall_forall. intros payload _. by eexists.
Qed.

Lemma framesTo_length dz range g payloads prepared : Forall2 (framesTo dz range g) payloads prepared → length (concat prepared) = length payloads.
Proof. induction 1 as [|payload frames payloads prepared (frame & -> & _) _ IH]; [done|]. cbn. by rewrite IH. Qed.

Lemma framesTo_nonempty dz range g payloads prepared :
  Forall2 (framesTo dz range g) payloads prepared → Forall (λ p, p ≠ []) payloads → Forall (λ p, p ≠ []) (concat prepared).
Proof.
  induction 1 as [|payload frames payloads prepared (frame & -> & Hne & _) _ IH]; [done|]. intros [Hp Hall]%Forall_cons. cbn. constructor; auto.
Qed.

(** What is surfaced of such frames are the payloads that are data. *)
Lemma surfaced_frames {C} dz range (R : dataSession (C := C) (F := option dataChannelFraming)) payloads prepared times :
  Forall2 (framesTo dz range (framingOf R)) payloads prepared → length times = length payloads →
  surfaced (incomingHook (ps_role (ds_keys R)) dz range) (ds_framing R) (concat prepared) times = filter (λ p, isDataPayload p = true) payloads.
Proof.
  intros Hall. revert times. induction Hall as [|payload frames payloads prepared (frame & -> & _ & Hdec) _ IH]; intros [|now times] Hlen; [done..|].
  cbn in Hlen. cbn [concat app surfaced]. rewrite filter_cons.
  assert (Hun : unframing (incomingHook (ps_role (ds_keys R)) dz range) (ds_framing R) frame now = (Ok (Some payload), ds_framing R)).
  { unfold framingOf in Hdec. unfold incomingHook. destruct (ps_role (ds_keys R)); cbn [unframing]; [apply Hdec|]. specialize (Hdec now). cbn in Hdec. by simplify_eq. }
  rewrite Hun, IH by lia. by destruct (isDataPayload payload).
Qed.

Lemma filter_nonEmpty clamp payloads :
  filter (λ p, isDataPayload p = true) (Mss.Apply clamp <$> nonEmpty payloads) = filter (λ p, isDataPayload p = true) (Mss.Apply clamp <$> payloads).
Proof.
  unfold nonEmpty. induction payloads as [|payload payloads IH]; [done|]. rewrite filter_cons, fmap_cons. destruct (decide (payload ≠ [])) as [Hne|He].
  - rewrite fmap_cons, !filter_cons. by rewrite IH.
  - apply dec_stable in He as ->. rewrite IH. assert (Mss.Apply clamp [] = []) as -> by by apply Apply_nil. done.
Qed.

(** C2: the path of data from end to end, with the hooks of the client and of the server.
    When a session has written a batch of payloads without an error, with any codec, key
    id and peer id, and all its packets arrive, in the order they were sent, are admitted and
    select a codec that the other end holds for the key, which is the pair of the sender's and
    has seen no later packet, then the other end, if both ends frame alike (not at all, or with the
    same compression and without fragments, in which case no payload is larger than 65536 octets), hands
    on exactly the payloads that are neither empty nor pings nor messages, with the
    segment sizes clamped, each once and in the order they were written. *)
Theorem data_path_end_to_end dz range o overhead now writePackets (S S' R : dataSession (C := tlsDataCodec) (F := option dataChannelFraming))
    random payloads outcome hs c m handle arrivals :
  Decompressors_laws dz → ps_sendCodec (ds_keys S) = Some hs → ds_codecs S !! hs = Some c → 0 ≤ ps_sendKeyID (ds_keys S) < 8 →
  ds_managers S !! ps_sendManager (ds_keys S) = Some m → session_inv m → (∀ id, random_ok (random id)) →
  framingsAgree (framingOf S) (framingOf R) → (framingOf S ≠ None → Forall (λ payload, lenZ payload ≤ openVPNLZOMaxDecompressedSize) payloads) →
  lenZ payloads < 2 ^ 63 →
  WriteDataPackets (outgoingHook (ps_role (ds_keys S)) o overhead now) writePackets S random payloads = Some (outcome, S') → wo_error outcome = None →
  receives c R (ps_sendKeyID (ds_keys S)) (sm_localDataPacketID m) handle (in_selected <$> arrivals) →
  Forall2 (λ raw i, in_admitted i = true ∧ ∃ packet, ParsePacket raw = Ok packet ∧ in_packet i = Some packet) (wo_packets outcome) arrivals →
  let clamp := calculateMSSClamp (dco_MSSFix o) (dco_MSSFixMode o) (framingOf S) c (dataPacketHeaderSize S (outgoingOpcode S)) overhead in
  (fst ∘ fst) <$> deliveries (handleIncomingDataPackets (incomingHook (ps_role (ds_keys R)) dz range) R arrivals).1 =
    filter (λ payload, isDataPayload payload = true) (Mss.Apply clamp <$> payloads).
Proof.
  intros Hdz Hsend Hc Hkey Hm Hinv Hrnd Hag Hlen Hint Hwrite Herr Hrv Hall clamp.
  destruct (hook_frames dz range o overhead S (framingOf R) now (nonEmpty payloads) c (dataPacketHeaderSize S (outgoingOpcode S)) Hdz Hag) as (prepared & f' & Hprep & Hframes).
  { intros Hf. specialize (Hlen Hf). rewrite Forall_forall in Hlen. apply Forall_forall. intros p [_ Hp]%list_elem_of_filter. by apply Hlen. }
  fold clamp in Hframes. pose proof (framesTo_length _ _ _ _ _ Hframes) as Hcount. rewrite length_fmap in Hcount.
  assert (Hfew : lenZ (concat prepared) < 2 ^ 63).
  { unfold lenZ in *. rewrite Hcount. pose proof (length_filter (λ payload, payload ≠ []) payloads). unfold nonEmpty. lia. }
  assert (Hpay : Forall (codecPayload c) (concat prepared)).
  { eapply Forall_impl; [apply (framesTo_nonempty _ _ _ _ _ Hframes)|]; [|by intros p Hp; destruct c].
    apply Forall_fmap, Forall_forall. intros p [Hp _]%list_elem_of_filter. cbn. by rewrite Apply_nil. }
  rewrite (batch_delivered _ _ _ _ _ _ _ _ _ _ _ _ _ _ _ _ Hsend Hc Hkey Hm Hinv Hrnd Hprep Hpay Hfew Hwrite Herr Hrv Hall).
  rewrite <- filter_nonEmpty. pose proof (Forall2_length _ _ _ Hall) as Hl.
  destruct (written_packets _ _ _ _ _ _ _ _ _ _ _ _ Hsend Hc Hm Hinv Hprep Hfew Hwrite Herr) as [[Hnone Hempty]|(_ & S1 & packets & _ & Hraw & Hsent)].
  - assert (nonEmpty payloads = []) as -> by (destruct Hempty as [?|He]; [done|]; rewrite He in Hcount; by apply length_zero_iff_nil).
    rewrite Hnone in Hall. inv Hall. by destruct (concat prepared).
  - apply surfaced_frames; [done|]. rewrite !length_fmap, <- Hl, Hraw, length_fmap, <- (Forall2_length _ _ _ Hsent).
    rewrite length_zip_with, length_seqZ, Hcount. unfold lenZ. lia.
Qed.

(** ** The server's side *)

Lemma PushBatch_rep {T} (zero : T) q l items :
  queueRep zero q l → ∃ dropped q', PushBatch zero q items = Some (dropped, q') ∧ queueRep zero q' (drop (length l + length items - capacity q) (l ++ items)).
Proof.
  intros Hq. unfold PushBatch. destruct items as [|x items].
  { exists [], q. pose proof (qr_fits zero q l Hq). rewrite app_nil_r. cbn [length]. replace (length l + 0 - capacity q)%nat with 0%nat by lia. done. }
  destruct (pushBatchLocked_rep zero q l (x :: items) Hq) as (q' & -> & Hq' & _). cbn [mbind option_bind].
  do 2 eexists. split; [done|]. destruct (length l =? 0)%nat; [|exact Hq']. destruct Hq'. by constructor.
Qed.

(** A packet from an address that was last registered for the session. *)
Definition ownedPacket (ops : list registryOp) (s : session) (payload : bytes) : Prop :=
  ∃ a peer, sourceFromIPPacket payload = Some a ∧ isLinkLocal a = false ∧ owner a ops = Some (peer, s).

Lemma accepted_owned ops s payloads i payload :
  payloads !! i = Some payload → (acceptIncomingSources true (registryRun ops) s payloads).1 !! i = Some true → ownedPacket ops s payload.
Proof.
  intros Hi. unfold acceptIncomingSources, SourcesOwnedBy. cbn [negb fst]. rewrite !list_lookup_fmap, Hi. cbn. intros [= Howned].
  unfold resolveOwnership, candidateOwnership in Howned. cbn in Howned.
  destruct (sourceFromIPPacket payload) as [a|] eqn:Ha; [|done]. cbn in Howned.
  destruct (bool_decide (s ≠ None)); [|done]. cbn in Howned.
  destruct (isLinkLocal a) eqn:Hl; [by destruct a|]. rewrite andb_false_r in Howned. cbn in Howned.
  rewrite registryRun_owner in Howned. destruct (owner a ops) as [[peer s']|] eqn:Ho; [|done]. cbn in Howned.
  apply bool_decide_eq_true in Howned. cbn in Howned. subst s'. exists a, peer. done.
Qed.

(** Everything the queue holds after a batch was there before or is an accepted packet. *)
Lemma deliver_owned {C} `{DataCodec C} o overhead ops s peerAddress q l payloads (codec : C) header :
  queueRep (""%string, []) q l →
  ∃ dropped q' l', deliverIncomingBuffers o overhead true (registryRun ops) s peerAddress q payloads codec header = Some (dropped, q') ∧
    queueRep (""%string, []) q' l' ∧
    ∀ item, item ∈ l' → item ∈ l ∨ ∃ payload, payload ∈ payloads ∧ ownedPacket ops s payload ∧
      item = (peerAddress, (ApplyInPlace (serverClamp o overhead codec header) payload).2).
Proof.
  intros Hq. unfold deliverIncomingBuffers, serverPushBuffers. set (packets := acceptedPackets _ _ _ _).
  assert (Hpackets : ∀ item, item ∈ packets → ∃ payload, payload ∈ payloads ∧ ownedPacket ops s payload ∧
    item = (peerAddress, (ApplyInPlace (serverClamp o overhead codec header) payload).2)).
  { intros item Hitem. subst packets. unfold acceptedPackets in Hitem. apply list_elem_of_omap in Hitem as ([ok payload] & Hin & Hitem).
    destruct ok; [|done]. injection Hitem as <-. apply list_elem_of_lookup in Hin as [i Hi]. apply lookup_zip_with_Some in Hi as (ok & p & [= <- <-] & Hok & Hp).
    exists payload. split_and!; [by apply list_elem_of_lookup_2 with i | by apply (accepted_owned ops s payloads i) | done]. }
  destruct packets as [|x xs].
  - exists 0, q, l. split_and!; [done..|]. by left.
  - destruct (PushBatch_rep _ q l (x :: xs) Hq) as (dropped & q' & -> & Hq'). cbn [mbind option_bind].
    do 3 eexists. split_and!; [done | exact Hq' |]. intros item Hitem.
    assert (Hin : item ∈ l ++ x :: xs) by (revert Hitem; set (excess := (_ - _)%nat); intros Hitem; rewrite <- (take_drop excess (l ++ x :: xs)); set_solver).
    apply elem_of_app in Hin as [|Hin]; [by left | right; by apply Hpackets].
Qed.

(** The deliveries of a trace, one after the other, into the server's queue. *)
Fixpoint deliverAll {C} `{DataCodec C} (o : dataChannelOptions) (overhead : Z) (routes : peerRouteRegistry) (s : session) (peerAddress : string) (codecs : gmap nat C)
    (q : dataPacketQueue (T := string * bytes)) (events : list dataEvent) : option (dataPacketQueue (T := string * bytes)) :=
  match events with
  | [] => Some q
  | Deliver payloads handle header :: events =>
      codec ← codecs !! handle;
      '(_, q) ← deliverIncomingBuffers o overhead true routes s peerAddress q payloads codec header;
      deliverAll o overhead routes s peerAddress codecs q events
  | _ :: events => deliverAll o overhead routes s peerAddress codecs q events
  end.

Lemma deliverAll_owned {C} `{DataCodec C} o overhead ops s peerAddress (codecs : gmap nat C) events q q' l :
  queueRep (""%string, []) q l → deliverAll o overhead (registryRun ops) s peerAddress codecs q events = Some q' →
  ∃ l', queueRep (""%string, []) q' l' ∧
    ∀ item, item ∈ l' → item ∈ l ∨
      ∃ payload handle header codec, (payload, handle, header) ∈ deliveries events ∧ ownedPacket ops s payload ∧ codecs !! handle = Some codec ∧
        item = (peerAddress, (ApplyInPlace (serverClamp o overhead codec header) payload).2).
Proof.
  revert q l. induction events as [|e events IH]; intros q l Hq Hrun; cbn in Hrun.
  { simplify_eq. exists l. split; [done | by left]. }
  destruct e as [| | | | | |payloads handle header| |]; try by apply (IH q l Hq Hrun).
  destruct (codecs !! handle) as [codec|] eqn:Hc; [|done]. cbn in Hrun.
  destruct (deliver_owned o overhead ops s peerAddress q l payloads codec header Hq) as (dropped & q1 & l1 & Hd & Hq1 & Hl1).
  rewrite Hd in Hrun. cbn in Hrun. destruct (IH q1 l1 Hq1 Hrun) as (l' & Hq' & Hl'). exists l'. split; [done|].
  intros item Hitem. destruct (Hl' item Hitem) as [Hin|(payload & h & hd & cd & Hin & Hrest)].
  - destruct (Hl1 item Hin) as [|(payload & Hp & Ho & ->)]; [by left|]. right. exists payload, handle, header, codec. split_and!; try done.
    unfold deliveries. cbn. apply elem_of_app. left. by apply (list_elem_of_fmap_2 (λ payload, (payload, handle, header))).
  - right. exists payload, h, hd, cd. split; [|done]. unfold deliveries in *. cbn. apply elem_of_app. by right.
Qed.

(** C37: A server with address pools hands on nothing with a foreign source: whatever
    packets arrive at a session, every packet that its deliveries add to the queue the
    program reads was decrypted with a key of that session, came (before its segment
    size was clamped) from an address last registered for that very session, and is
    marked with that session's peer address. *)
Theorem server_queue_owned {C F} `{LawfulCodec C} (R : dataSession (C := C) (F := F)) o overhead ops s peerAddress codecs arrivals q q' l :
  let events := (handleIncomingDataPackets None R arrivals).1 in
  queueRep (""%string, []) q l → deliverAll o overhead (registryRun ops) s peerAddress codecs q events = Some q' →
  ∃ l', queueRep (""%string, []) q' l' ∧
    ∀ item, item ∈ l' → item ∈ l ∨
      ∃ payload handle header codec, (payload, handle, header) ∈ (perPacket None R arrivals).1 ∧ ownedPacket ops s payload ∧ codecs !! handle = Some codec ∧
        item = (peerAddress, (ApplyInPlace (serverClamp o overhead codec header) payload).2).
Proof.
  intros events Hq Hrun. destruct (deliverAll_owned o overhead ops s peerAddress codecs events q q' l Hq Hrun) as (l' & Hq' & Hl').
  exists l'. split; [done|]. intros item Hitem. subst events. unfold handleIncomingDataPackets in Hl'.
  rewrite (proj1 (handleLoop_deliveries None R (mkBatch [] 0 0) arrivals)) in Hl'. by apply Hl'.
Qed.

(** ** Writing by destination *)

(** The route of a packet and its miss, from the registrations. *)
Definition routeOf (ops : list registryOp) (packet : bytes) : option peerRoute :=
  destinationFromIPPacket packet ≫= λ a, (λ '(peer, s), mkRoute peer s) <$> owner a ops.

Definition missOf (ops : list registryOp) (packet : bytes) : option RouteMissError :=
  destinationFromIPPacket packet ≫= λ a, match owner a ops with None => Some (mkMiss a packet) | Some _ => None end.

Definition routed (ops : list registryOp) (packets : list bytes) : list (peerRoute * bytes) := omap (λ packet, (λ r, (r, packet)) <$> routeOf ops packet) packets.

(** A connection that records the batches and may fail. *)
Definition recordWrite (fails : list (peerRoute * list bytes) → option goerr) (log : list (peerRoute * list bytes)) (route : peerRoute) (packets : list bytes)
    : option goerr * list (peerRoute * list bytes) := (fails (log ++ [(route, packets)]), log ++ [(route, packets)]).

Definition flatten (log : list (peerRoute * list bytes)) : list (peerRoute * bytes) := log ≫= λ '(route, packets), (λ packet, (route, packet)) <$> packets.

Lemma flatten_snoc log route packets : flatten (log ++ [(route, packets)]) = flatten log ++ ((λ packet, (route, packet)) <$> packets).
Proof. unfold flatten. rewrite bind_app. cbn. by rewrite app_nil_r. Qed.

Lemma flush_record fails log route packets :
  let '(err, log') := flushCurrentBatch (recordWrite fails) log route packets in flatten log' = flatten log ++ ((λ packet, (route, packet)) <$> packets).
Proof. destruct packets as [|p ps]; cbn; [by rewrite app_nil_r | apply flatten_snoc]. Qed.

Lemma lookup_route ops packet :
  (LookupPackets (registryRun ops) [packet]) =
    [match routeOf ops packet with Some r => mkLookup r (default AddrInvalid (destinationFromIPPacket packet)) true
     | None => mkLookup (mkRoute "" None) (default AddrInvalid (destinationFromIPPacket packet)) false end].
Proof.
  unfold LookupPackets, routeOf. cbn. destruct (destinationFromIPPacket packet) as [a|]; [|done]. cbn.
  rewrite registryRun_owner. by destruct (owner a ops) as [[peer s]|].
Qed.

(** The destinations that are read are valid addresses. *)
Lemma destination_valid packet a : destinationFromIPPacket packet = Some a → Addr_IsValid a = true.
Proof.
  unfold destinationFromIPPacket. destruct packet as [|b packet]; [done|].
  destruct (Z.shiftr (b2z b) 4) as [|[p|p|]|]; try done; repeat (destruct p as [p|p|]; try done); destruct (_ <? _); by intros [= <-].
Qed.

Lemma zip_lookups routes packet packets :
  zip (packet :: packets) (LookupPackets routes (packet :: packets)) = zip [packet] (LookupPackets routes [packet]) ++ zip packets (LookupPackets routes packets).
Proof. done. Qed.

Lemma destinationLoop_spec fails ops packets : ∀ log route current misses err log',
  destinationLoop (recordWrite fails) log route current (zip packets (LookupPackets (registryRun ops) packets)) = (misses, err, log') →
  flatten log' `prefix_of` flatten log ++ ((λ packet, (route, packet)) <$> current) ++ routed ops packets ∧
  (err = None →
    flatten log' = flatten log ++ ((λ packet, (route, packet)) <$> current) ++ routed ops packets ∧ misses = omap (missOf ops) packets ∧
    Forall (λ packet, is_Some (destinationFromIPPacket packet)) packets).
Proof.
  induction packets as [|packet packets IH]; intros log route current misses err log' Hrun.
  { cbn in Hrun. pose proof (flush_record fails log route current) as Hf. destruct (flushCurrentBatch _ log route current) as [e w]. simplify_eq.
    unfold routed. cbn. rewrite app_nil_r, Hf. split; [done|]. by intros. }
  rewrite zip_lookups, lookup_route in Hrun. cbn [zip zip_with app destinationLoop] in Hrun.
  pose proof (flush_record fails log route current) as Hf.
  assert (Hrouted : routed ops (packet :: packets) = match routeOf ops packet with Some r => (r, packet) :: routed ops packets | None => routed ops packets end).
  { unfold routed. cbn. by destruct (routeOf ops packet). }
  rewrite Hrouted. destruct (routeOf ops packet) as [r|] eqn:Hr; cbn [pl_found pl_route pl_destination negb] in Hrun.
  - assert (Hdest : is_Some (destinationFromIPPacket packet) ∧ missOf ops packet = None).
    { unfold routeOf, missOf in *. destruct (destinationFromIPPacket packet) as [a|]; [|done]. cbn in *. by destruct (owner a ops). }
    destruct Hdest as [Hdest Hmiss].
    assert (Hfin : ∀ log0 route0 current0, flatten log0 ++ ((λ packet, (route0, packet)) <$> current0) = flatten log ++ ((λ packet, (route, packet)) <$> current) ++ [(r, packet)] →
      destinationLoop (recordWrite fails) log0 route0 current0 (zip packets (LookupPackets (registryRun ops) packets)) = (misses, err, log') →
      flatten log' `prefix_of` flatten log ++ ((λ packet, (route, packet)) <$> current) ++ (r, packet) :: routed ops packets ∧
      (err = None → flatten log' = flatten log ++ ((λ packet, (route, packet)) <$> current) ++ (r, packet) :: routed ops packets ∧
        misses = omap (missOf ops) (packet :: packets) ∧ Forall (λ packet, is_Some (destinationFromIPPacket packet)) (packet :: packets))).
    { intros log0 route0 current0 Heq Hrun0. destruct (IH _ _ _ _ _ _ Hrun0) as [Hpre Hok].
      assert (Hall : ∀ tl, flatten log ++ ((λ packet, (route, packet)) <$> current) ++ (r, packet) :: tl = flatten log0 ++ ((λ packet, (route0, packet)) <$> current0) ++ tl).
      { intros tl. rewrite (app_assoc (flatten log0)), Heq, <- !app_assoc. done. }
      rewrite Hall. split; [done|]. intros Herr. destruct (Hok Herr) as (-> & -> & Hforall). cbn. rewrite Hmiss. split_and!; [done..|]. by constructor. }
    destruct current as [|c cs]; [by apply (Hfin log r [packet])|].
    destruct (decide (r = route)) as [->|Hne].
    + apply (Hfin log route ((c :: cs) ++ [packet])); [|done]. by rewrite fmap_app.
    + destruct (flushCurrentBatch (recordWrite fails) log route (c :: cs)) as [[e|] w].
      * simplify_eq. rewrite Hf, app_assoc. split; [by eexists | done].
      * apply (Hfin w r [packet]); [|done]. rewrite Hf. by rewrite <- app_assoc.
  - destruct (flushCurrentBatch (recordWrite fails) log route current) as [[e|] w].
    { simplify_eq. rewrite Hf, app_assoc. split; [by eexists | done]. }
    unfold newRouteMissError in Hrun. destruct (destinationFromIPPacket packet) as [a|] eqn:Ha.
    + change (default AddrInvalid (Some a)) with a in Hrun. rewrite (destination_valid packet a Ha) in Hrun. cbn [negb] in Hrun.
      destruct (destinationLoop _ w route [] _) as [[misses' err'] w'] eqn:Hrec. simplify_eq. destruct (IH _ _ _ _ _ _ Hrec) as [Hpre Hok].
      cbn [fmap list_fmap app] in Hpre, Hok. rewrite Hf, <- app_assoc in Hpre, Hok. split; [done|]. intros Herr. destruct (Hok Herr) as (-> & -> & Hforall).
      split_and!; [done | | by constructor].
      assert (Hmiss : missOf ops packet = Some (mkMiss a packet)).
      { unfold routeOf, missOf in *. rewrite Ha in *. cbn in *. by destruct (owner a ops) as [[? ?]|]. }
      cbn. by rewrite Hmiss.
    + cbn in Hrun. simplify_eq. rewrite Hf, app_assoc. split; [by eexists | done].
Qed.

(** Packets written by destination. Every packet goes to the session last
    registered for its destination address, all in the order they were given, none
    twice; those without a route are reported in order. When a write fails or a packet
    is not an IP packet, what was handed to sessions is a prefix of that. *)
Theorem destination_batches_faithful fails ops packets misses err log :
  WriteDataPacketsByDestination (recordWrite fails) None (registryRun ops) [] packets = (misses, err, log) →
  flatten log `prefix_of` routed ops packets ∧
  (err = None → flatten log = routed ops packets ∧ misses = omap (missOf ops) packets ∧ Forall (λ packet, is_Some (destinationFromIPPacket packet)) packets).
Proof.
  intros Hrun. destruct packets as [|packet packets]; [cbn in Hrun; simplify_eq; split; [done|]; intros _; split_and!; [done..|]; constructor|].
  unfold WriteDataPacketsByDestination in Hrun. by apply destinationLoop_spec in Hrun.
Qed.

(** The two variants of the writer do the same whenever the codec encodes every frame. *)
Lemma write_variants_agree {C F} `{DataCodec C} (prepare : F → list bytes → C → Z → option (list (list bytes) * F)) writePackets (s : dataSession (C := C) (F := F)) random payloads :
  (∀ codec prepared ids s', beginWrite prepare s (nonEmpty payloads) = Some (Ok (Some (codec, prepared, ids)), s') →
     (encodePayloads s' codec (ps_sendKeyID (ds_keys s')) random ids 0 prepared).2 = None) →
  WriteDataPacketBuffers prepare writePackets s random payloads = WriteDataPackets prepare writePackets s random payloads.
Proof.
  intros Hok. unfold WriteDataPacketBuffers, WriteDataPackets, writeDataPacketBuffersLocked, writeDataPacketsLocked.
  destruct payloads as [|x xs]; [done|]. destruct (nonEmpty (x :: xs)) as [|p ps]; [done|].
  destruct (beginWrite prepare s (p :: ps)) as [[[[[[codec prepared] ids]|]|e] s']|] eqn:Hb; try done. cbn [mbind option_bind].
  specialize (Hok codec prepared ids s' eq_refl). destruct (encodePayloads _ _ _ _ _ _ _) as [[packets lasts] err]. cbn in Hok. subst err.
  destruct (writePackets _) as [n [e|]]; done.
Qed.

(** ** An example: a server and a client *)

Definition examplePayload : bytes := ipv4Packet 5 x00 20 (replicate 8 x00) 167772161 167772162 [].

Definition exampleServer : dataSession (C := tlsDataCodec) (F := option dataChannelFraming) :=
  mkData (startedSession tlsRoleServer 0 7%nat) {[ 7%nat := exampleCodec true "AES-256-GCM" ]} {[ 0 := NewSessionManagerWithLocalID (replicate 8 x01) ]}
    (Some 3) 0 [] false None.

Definition exampleClient : dataSession (C := tlsDataCodec) (F := option dataChannelFraming) :=
  mkData (startedSession tlsRoleClient 0 9%nat) {[ 9%nat := exampleCodec false "AES-256-GCM" ]} {[ 0 := NewSessionManagerWithLocalID (replicate 8 x02) ]}
    None 0 [] false None.

Definition exampleOptions : dataChannelOptions := mkDCO 0 "" 0.

Definition exampleConnection (packets : list bytes) : Z * option goerr := (lenZ packets, None).

Definition exampleWritten : writeOutcome * dataSession :=
  default (nothingWritten None, exampleServer)
    (WriteDataPackets (outgoingHook tlsRoleServer exampleOptions 28 5) exampleConnection exampleServer (λ _, exampleRandom) [examplePayload; []; openVPNDataChannelPingPayload; examplePayload]).

Definition exampleIncoming (raw : bytes) : incoming := mkIncoming (match ParsePacket raw with Ok p => Some p | Err _ => None end) 5 5 5 5 5 true.

Lemma data_path_end_to_end_witness :
  length (wo_packets exampleWritten.1) = 3%nat ∧
  (fst ∘ fst) <$> deliveries (handleIncomingDataPackets (incomingHook tlsRoleClient exampleDecompressors map_to_list) exampleClient (exampleIncoming <$> wo_packets exampleWritten.1)).1 = [examplePayload; examplePayload].
Proof.
  split; [vm_compute; reflexivity|].
  rewrite (data_path_end_to_end exampleDecompressors map_to_list exampleOptions 28 5 exampleConnection exampleServer exampleWritten.2 exampleClient (λ _, exampleRandom)
    [examplePayload; []; openVPNDataChannelPingPayload; examplePayload] exampleWritten.1
    7%nat (exampleCodec true "AES-256-GCM") (NewSessionManagerWithLocalID (replicate 8 x01)) 9%nat).
  - vm_compute. reflexivity.
  - apply exampleDecompressors_laws.
  - reflexivity.
  - reflexivity.
  - cbn. lia.
  - reflexivity.
  - apply new_session_inv.
  - intros id. apply exampleRandom_ok.
  - exact I.
  - intros Hf. by destruct Hf.
  - vm_compute. reflexivity.
  - vm_compute. reflexivity.
  - vm_compute. reflexivity.
  - constructor.
    + split.
      * eexists. split_and!; [cbn; constructor | reflexivity | done].
      * intros e He _. cbn in He. apply list_elem_of_singleton in He as ->. reflexivity.
    + by left.
    + destruct (tls_codecs_pair exampleCrypto 1000 1000 exampleKeyMaterial "AES-256-GCM" "SHA256" 0 0 0 0 (exampleCodec false "AES-256-GCM") (exampleCodec true "AES-256-GCM")
        exampleCrypto_laws eq_refl eq_refl) as [_ Hpair].
      eexists _, _. split_and!; [reflexivity | exact Hpair | reflexivity | vm_compute; discriminate | vm_compute; discriminate | exact I].
  - vm_compute wo_packets. repeat first [apply Forall2_nil_2 | apply Forall2_cons_2]; (split; [reflexivity | eexists; split; [vm_compute; reflexivity | vm_compute; reflexivity]]).
Defined.

Definition exampleServerQueue : dataPacketQueue (T := string * bytes) := newDataPacketQueueWithCapacity (""%string, []) 4.
Definition exampleRegistrations : list registryOp := [OpRegister (Addr4 167772161) "client" (Some 1)].
Definition exampleArrivals : list incoming := exampleIncoming <$> wo_packets exampleWritten.1.
Definition exampleQueued : dataPacketQueue (T := string * bytes) :=
  default exampleServerQueue (deliverAll exampleOptions 28 (registryRun exampleRegistrations) (Some 1) "client" {[ 9%nat := exampleCodec false "AES-256-GCM" ]}
    exampleServerQueue (handleIncomingDataPackets None exampleClient exampleArrivals).1).

Lemma server_queue_owned_witness :
  q_length exampleQueued = 2%nat ∧
  ∃ l', queueRep (""%string, []) exampleQueued l' ∧
    ∀ item, item ∈ l' → item ∈ [] ∨
      ∃ payload handle header codec, (payload, handle, header) ∈ (perPacket None exampleClient exampleArrivals).1 ∧
        ownedPacket exampleRegistrations (Some 1) payload ∧ ({[ 9%nat := exampleCodec false "AES-256-GCM" ]} : gmap nat tlsDataCodec) !! handle = Some codec ∧
        item = ("client"%string, (ApplyInPlace (serverClamp exampleOptions 28 codec header) payload).2).
Proof.
  split; [vm_compute; reflexivity|].
  apply (server_queue_owned exampleClient exampleOptions 28 exampleRegistrations (Some 1) "client" {[ 9%nat := exampleCodec false "AES-256-GCM" ]} exampleArrivals exampleServerQueue).
  - apply newDataPacketQueueWithCapacity_rep. lia.
  - vm_compute. reflexivity.
Defined.

Lemma destination_batches_faithful_witness :
  let ops := [OpRegister (Addr4 167772162) "client" (Some 1)] in
  let log := [(mkRoute "client" (Some 1), [examplePayload; examplePayload])] in
  flatten log `prefix_of` routed ops [examplePayload; examplePayload] ∧
  (@None goerr = None → flatten log = routed ops [examplePayload; examplePayload] ∧ [] = omap (missOf ops) [examplePayload; examplePayload] ∧
    Forall (λ packet, is_Some (destinationFromIPPacket packet)) [examplePayload; examplePayload]).
Proof.
  cbv zeta. apply (destination_batches_faithful (λ _, None) [OpRegister (Addr4 167772162) "client" (Some 1)] [examplePayload; examplePayload] [] None).
  vm_compute. reflexivity.
Defined.
