(* ===== verification/KeyUse.v ===== *)
(** * The packet ids a key is used with

    A session over its life: renegotiations start, finish, fail and expire, packets
    arrive and batches are written, in any order.  Each renegotiation has a session
    manager of its own ([beginSoftReset] of [renegotiation.go]), and the packets sent
    with its key are numbered by it ([peer_data.go]).  The theorem puts the key tables
    ([KeyState]), the managers ([Session]) and the writers ([DataPath]) together: no
    packet id is used twice with a key. *)

From S2P Require Import Prelude Packet Session ReplayWindow Netip RouteRegistry Fragment Crypto Codec CodecLaws DataChannel Compression GoStrings Mss KeyState DataQueue DataPath DataPathLaws.

(** ** The steps of a session *)

Section KeyUse.
Context {C : Type} {dc : DataCodec C} (o : dataChannelOptions) (outerTransportOverhead : Z).

Abbreviation dataSession := (dataSession (C := C) (F := option dataChannelFraming)) (only parsing).

(** A codec is built by a handshake; the tables of keys change; packets arrive; a batch
    is written, by either variant of the writer. *)
Inductive dataOp :=
| DCodec (handle : nat) (codec : C)
| DKey (op : keyOp (C := nat))
| DRead (dz : Decompressors) (range : gmap Z incomingFragmentBuffer → list (Z * incomingFragmentBuffer)) (packets : list incoming)
| DWrite (buffers : bool) (now : Time) (random : Z → nat → result bytes) (writePackets : list bytes → Z * option goerr) (payloads : list bytes).

(** A packet that was handed to the connection: the manager that numbered it, the codec
    it was encoded with and what the observer of writes was told. *)
Record sentPacket := mkSent {
  se_manager : Z;
  se_handle : option nat;
  se_codec : option C;
  se_keyID : Z;
  se_packetID : Z;
  se_raw : bytes;
}.

Definition observed (events : list writeEvent) : list (Z * Z) :=
  omap (λ e, match e with WriteObserved keyID packetID _ _ => Some (keyID, packetID) | _ => None end) events.

Definition currentCodec (s : dataSession) : option C := ps_sendCodec (ds_keys s) ≫= λ handle, ds_codecs s !! handle.

Definition sentBy (s : dataSession) (outcome : writeOutcome) : list sentPacket :=
  zip_with (λ '(keyID, packetID) raw,
      mkSent (ps_sendManager (ds_keys s)) (ps_sendCodec (ds_keys s)) (currentCodec s) keyID packetID raw)
    (observed (wo_events outcome)) (wo_packets outcome).

(** A renegotiation that begins takes the next sequence and makes its session manager. *)
Definition makeManager (s : dataSession) (keys : tlsPeerSession (C := nat)) : gmap Z SessionManager :=
  let sequence := ps_renegotiationSequence keys in
  match ds_managers s !! 0 with
  | Some sessionManager =>
      if ps_renegotiationSequence (ds_keys s) <? sequence then
        <[sequence := NewRenegotiationSessionManager sessionManager (default 0 (rn_keyID <$> ps_heap keys !! sequence))]> (ds_managers s)
      else ds_managers s
  | None => ds_managers s
  end.

Definition doDataOp (s : dataSession) (op : dataOp) : option (list sentPacket * dataSession) :=
  match op with
  | DCodec handle codec => Some ([], s <| ds_codecs := ds_codecs s ∪ {[ handle := codec ]} |>)
  | DKey op => let keys := doKeyOp (ds_keys s) op in Some ([], s <| ds_managers := makeManager s keys |> <| ds_keys := keys |>)
  | DRead dz range packets => Some ([], (handleIncomingDataPackets (incomingHook (ps_role (ds_keys s)) dz range) s packets).2)
  | DWrite buffers now random writePackets payloads =>
      let hook := outgoingHook (ps_role (ds_keys s)) o outerTransportOverhead now in
      '(outcome, s') ← (if buffers : bool then WriteDataPacketBuffers else WriteDataPackets) hook writePackets s random payloads;
      Some (sentBy s outcome, s')
  end.

Fixpoint doDataOps (s : dataSession) (ops : list dataOp) : option (list sentPacket * dataSession) :=
  match ops with
  | [] => Some ([], s)
  | op :: ops => '(sent, s) ← doDataOp s op; '(more, s) ← doDataOps s ops; Some (sent ++ more, s)
  end.

(** Key ids are not negative, and the payloads of a batch are counted by an [int]. *)
Definition dataOpOk (op : dataOp) : Prop :=
  match op with DKey op => keyOpOk op | DWrite _ _ _ _ payloads => lenZ payloads < 2 ^ 31 | _ => True end.

(** The renegotiations that end with a codec. *)
Definition negotiated (ops : list dataOp) : list (Z * nat) :=
  omap (λ op, match op with DKey (KFinish sequence (Ok handle) _) => Some (sequence, handle) | _ => None end) ops.

(** ** Reading *)

(** What reading does to the tables of keys. *)
Definition readKeys (k k' : tlsPeerSession (C := nat)) : Prop :=
  keysOk k → keysOk k' ∧ sameSend k k' ∧ ps_renegotiationSequence k' = ps_renegotiationSequence k.

Lemma readKeys_trans k1 k2 k3 : readKeys k1 k2 → readKeys k2 k3 → readKeys k1 k3.
Proof.
  intros H12 H23 H1. destruct (H12 H1) as (H2 & S12 & E12). destruct (H23 H2) as (H3 & S23 & E23).
  split_and!; [done | by eapply sameSend_trans | congruence].
Qed.

Lemma select_readKeys k keyID now : readKeys k (selectReceiveCodec k keyID now).2.
Proof. intros Hk. split_and!; [by apply (doKeyOp_ok k (KSelect keyID now)) | done | done]. Qed.

Lemma confirm_readKeys k keyID now : readKeys k (confirmDataKey k keyID now).2.
Proof.
  intros Hk. split_and!; [by apply (doKeyOp_ok k (KConfirm keyID now)) | | apply confirmDataKey_sequence].
  by destruct (doKeyOp_send k (KConfirm keyID now) Hk I) as [Hsame | (_ & codec & now' & Heq & _)].
Qed.

Lemma handleOne_keys framing (s : dataSession) i :
  let s' := (handleOne framing s i).2 in readKeys (ds_keys s) (ds_keys s') ∧ ds_managers s' = ds_managers s.
Proof.
  unfold handleOne. destruct (in_packet i) as [packet |]; [| by split].
  pose proof (select_readKeys (ds_keys s) (pkt_KeyID packet) (in_selected i)) as Hsel.
  destruct (selectReceiveCodec (ds_keys s) (pkt_KeyID packet) (in_selected i)) as [[handle |] keys]; [| done]. cbn [snd] in Hsel. cbn.
  destruct (ds_codecs s !! handle) as [codec |]; [| done]. destruct (Decode codec _ _ _ _) as [[[packetID payload] | e] codec']; [| done].
  unfold handleDecoded. cbn. pose proof (confirm_readKeys keys (pkt_KeyID packet) (in_confirmed i)) as Hcon.
  destruct (confirmDataKey _ _ _) as [[stopped promoted] keys']. cbn [snd] in Hcon. cbn.
  pose proof (readKeys_trans _ _ _ Hsel Hcon) as Hboth. destruct (in_admitted i); cbn; [| done].
  unfold unframe. destruct framing as [decode |]; cbn.
  - destruct (decode _ _ _) as [[[p |] | e] f]; cbn; [| done..]. by destruct (dispose _ _ _ _).
  - by destruct (dispose _ _ _ _).
Qed.

Lemma handleLoop_keys framing packets : ∀ (s : dataSession) b,
  let s' := (handleLoop framing s b packets).2 in readKeys (ds_keys s) (ds_keys s') ∧ ds_managers s' = ds_managers s.
Proof.
  induction packets as [| i packets IH]; intros s b; cbn [handleLoop]; [by split |].
  destruct (flushForPacket s b i) as [flushed b1]. pose proof (handleOne_keys framing s i) as [Hk Hm].
  destruct (handleOne framing s i) as [[events d] s1]. cbn [snd] in Hk, Hm.
  assert (Hrest : ∀ b, let s' := (handleLoop framing s1 b packets).2 in readKeys (ds_keys s) (ds_keys s') ∧ ds_managers s' = ds_managers s).
  { intros b2. destruct (IH s1 b2) as [Hk' Hm']. split; [by eapply readKeys_trans | congruence]. }
  destruct d as [| payload codec header | messages | err].
  - specialize (Hrest b1). by destruct (handleLoop framing s1 b1 packets).
  - match goal with |- context [handleLoop framing s1 ?b packets] => specialize (Hrest b); by destruct (handleLoop framing s1 b packets) end.
  - destruct (flushDecodedPayloads b1) as [flushed' b2]. specialize (Hrest b2). by destruct (handleLoop framing s1 b2 packets).
  - done.
Qed.

(** ** Writing *)

Lemma encodePacket_id (s : dataSession) codec keyID packetID random payload p : encodePacket s codec keyID packetID random payload = Ok p → og_packetID p = packetID.
Proof. unfold encodePacket. by intros (encoded & _ & (raw & _ & [= <-])%result_bind_Ok)%result_bind_Ok. Qed.

(** The packet is the encoding of some frame under its own id. *)
Definition encodes (s : dataSession) (codec : C) (keyID : Z) (p : tlsOutgoingDataPacket) : Prop :=
  ∃ random payload, encodePacket s codec keyID (og_packetID p) random payload = Ok p.

Lemma encodeFrames_ids (s : dataSession) codec keyID random ids frames packets err ids' :
  encodeFrames s codec keyID random ids frames = (packets, err, ids') →
  Forall (encodes s codec keyID) packets ∧ (og_packetID <$> packets) `prefix_of` ids ∧ (err = None → ids = (og_packetID <$> packets) ++ ids').
Proof.
  revert ids packets err ids'. induction frames as [| frame frames IH]; intros [| id ids] packets err ids' H; cbn in H; try by (simplify_eq; split_and!; [constructor | by apply prefix_nil | done]).
  destruct (encodePacket s codec keyID id random frame) as [p | e] eqn:Hp; [| simplify_eq; split_and!; [constructor | by apply prefix_nil | done]].
  destruct (encodeFrames s codec keyID random ids frames) as [[ps err1] ids1] eqn:Hrec. simplify_eq.
  destruct (IH _ _ _ _ Hrec) as (Hall & Hpre & Hnone). pose proof (encodePacket_id _ _ _ _ _ _ _ Hp) as Hid. split_and!.
  - constructor; [| done]. exists random, frame. by rewrite Hid.
  - cbn. rewrite Hid. by apply prefix_cons.
  - intros Herr. cbn. rewrite Hid, <- (Hnone Herr). done.
Qed.

Lemma encodePayloads_ids (s : dataSession) codec keyID random ids encoded prepared packets lasts err :
  encodePayloads s codec keyID random ids encoded prepared = (packets, lasts, err) →
  Forall (encodes s codec keyID) packets ∧ (og_packetID <$> packets) `prefix_of` ids.
Proof.
  revert ids encoded packets lasts err. induction prepared as [| frames prepared IH]; intros ids encoded packets lasts err H; cbn in H.
  { simplify_eq. split; [constructor | apply prefix_nil]. }
  destruct (encodeFrames s codec keyID random ids frames) as [[ps [e |]] rest] eqn:Hf; destruct (encodeFrames_ids _ _ _ _ _ _ _ _ _ Hf) as (Hall & Hpre & Hnone); [by simplify_eq |].
  destruct (encodePayloads s codec keyID random rest (encoded + length ps) prepared) as [[more lasts'] err'] eqn:Hrec. simplify_eq.
  destruct (IH _ _ _ _ _ Hrec) as [Hall' Hpre']. split; [by apply Forall_app |]. rewrite fmap_app, (Hnone eq_refl). by apply prefix_app.
Qed.

(** A payload has no more frames than fragments are numbered. *)
Lemma encodeFragmentsLoop_few fuel sequenceID fragmentSize fragmentID rest frames :
  encodeFragmentsLoop fuel sequenceID fragmentSize fragmentID rest = Ok frames → (length frames ≤ fuel)%nat.
Proof.
  revert fragmentID rest frames. induction fuel as [| fuel IH]; intros fragmentID rest frames H; cbn in H; [by simplify_eq |].
  destruct (_ <=? 0); [simplify_eq; cbn; lia |]. destruct (_ <=? fragmentID); [done |].
  apply result_bind_Ok in H as (more & Hmore & [= <-]). apply IH in Hmore. cbn. lia.
Qed.

Lemma framing_Encode_few f payload fragmentSize now frames f' : framing_Encode f payload fragmentSize now = Some (Ok frames, f') → (length frames ≤ 33)%nat.
Proof.
  unfold framing_Encode. destruct f as [f |]; [| intros [= <- <-]; cbn; lia].
  destruct (encodeCompression f payload now) as [[framed f1] |]; [| done]. cbn [mbind option_bind].
  destruct (_ <=? 0); [intros [= <- <-]; cbn; lia |]. unfold encodeFragments. destruct (_ <=? 0); [done |]. destruct (_ <=? _); [intros [= <- <-]; cbn; lia |].
  pose proof (encodeFragmentsLoop_few 33 (fs_outgoingSequence (df_fragments f1))) as Hfew.
  remember 33%nat as fuel. destruct (encodeFragmentsLoop fuel _ _ _ _) as [l | e] eqn:H; intros Heq; simplify_eq. by apply Hfew in H.
Qed.

Lemma framePayloads_few clamp fragmentSize now payloads : ∀ f prepared logged f',
  framePayloads f clamp fragmentSize now payloads = Some (prepared, logged, f') → (length (concat prepared) ≤ 33 * length payloads)%nat.
Proof.
  induction payloads as [| payload payloads IH]; intros f prepared logged f' H; cbn in H; [by simplify_eq |].
  destruct (framing_Encode _ _ _ _) as [[encoded f1] |] eqn:He; [| done]. cbn [mbind option_bind] in H.
  destruct (framePayloads f1 clamp fragmentSize now payloads) as [[[batches logged1] f2] |] eqn:Hrec; [| done]. cbn [mbind option_bind] in H.
  apply IH in Hrec. destruct encoded as [frames | e]; simplify_eq; cbn; rewrite ?length_app; [apply framing_Encode_few in He |]; lia.
Qed.

Lemma concat_singletons {A B} (g : A → B) l : length (concat ((λ x, [g x]) <$> l)) = length l.
Proof. induction l as [| x l IH]; [done |]. cbn. by rewrite IH. Qed.

Lemma outgoingHook_few role now f payloads codec header prepared f' :
  outgoingHook role o outerTransportOverhead now f payloads codec header = Some (prepared, f') → (length (concat prepared) ≤ 33 * length payloads)%nat.
Proof.
  unfold outgoingHook. destruct role.
  - unfold outgoingDataPayloadBatches. destruct f as [f |].
    + destruct (framePayloads _ _ _ _ _) as [[[batches logged] f1] |] eqn:Hf; [| done]. intros [= <- <-]. by eapply framePayloads_few.
    + intros [= <- <-]. rewrite concat_singletons. lia.
  - unfold serverOutgoingDataPayloads. intros [= <- <-]. rewrite concat_singletons. lia.
Qed.

Lemma observed_writes keyID packets payloads lasts written :
  observed (observeWrites keyID packets ++ accountWritten payloads lasts written) = (λ p, (keyID, og_packetID p)) <$> packets.
Proof.
  assert (Hacc : ∀ payloads lasts, observed (accountWritten payloads lasts written) = []).
  { induction payloads0 as [| payload payloads0 IH]; intros [| last lasts0]; cbn; try done. destruct (last <? 0); [done |]. destruct (_ <=? _); [done |].
    case_bool_decide; cbn; apply IH. }
  unfold observed in *. rewrite omap_app, Hacc, app_nil_r. unfold observeWrites. induction packets as [| p packets IH]; [done |]. cbn. by rewrite IH.
Qed.

Lemma nonEmpty_few payloads : (length (nonEmpty payloads) ≤ length payloads)%nat.
Proof. apply length_filter. Qed.

(** What a write leaves: the manager of the key has moved on, and the packets that were
    sent have ids it passed, in order. *)
Record wrote (s s' : dataSession) (m m' : SessionManager) (outcome : writeOutcome) : Prop := mkWrote {
  wr_keys : ds_keys s' = ds_keys s;
  wr_manager : ds_managers s' = <[ps_sendManager (ds_keys s) := m']> (ds_managers s);
  wr_inv : session_inv m';
  wr_later : sm_localDataPacketID m ≤ sm_localDataPacketID m';
  wr_packets : ∃ packets,
    Forall (λ p, ∃ codec, currentCodec s = Some codec ∧ encodes s' codec (ps_sendKeyID (ds_keys s)) p) packets ∧
    (og_packetID <$> packets) `prefix_of` seqZ (sm_localDataPacketID m) (sm_localDataPacketID m' - sm_localDataPacketID m) ∧
    observed (wo_events outcome) = (λ p, (ps_sendKeyID (ds_keys s), og_packetID p)) <$> packets ∧ wo_packets outcome = og_rawPayload <$> packets;
}.

Lemma wrote_nothing (s s' : dataSession) m err :
  ds_managers s !! ps_sendManager (ds_keys s) = Some m → session_inv m → ds_keys s' = ds_keys s → ds_managers s' = ds_managers s →
  wrote s s' m m (nothingWritten err).
Proof.
  intros Hm Hinv Hk Hms. split; [done | by rewrite insert_id | done | lia |]. exists []. split_and!; [constructor | apply prefix_nil | done | done].
Qed.

(** The ids a batch takes, for both variants of the writer. *)
Lemma beginWrite_spec (s s' : dataSession) now payloads m begun :
  ds_managers s !! ps_sendManager (ds_keys s) = Some m → session_inv m → lenZ payloads < 2 ^ 31 →
  beginWrite (outgoingHook (ps_role (ds_keys s)) o outerTransportOverhead now) s payloads = Some (begun, s') →
  ds_keys s' = ds_keys s ∧
  match begun with
  | Ok (Some (codec, _, ids)) =>
      currentCodec s = Some codec ∧
      ∃ m', ds_managers s' = <[ps_sendManager (ds_keys s) := m']> (ds_managers s) ∧ session_inv m' ∧
        sm_localDataPacketID m ≤ sm_localDataPacketID m' ∧ ids = seqZ (sm_localDataPacketID m) (sm_localDataPacketID m' - sm_localDataPacketID m)
  | _ => ds_managers s' = ds_managers s
  end.
Proof.
  intros Hm Hinv Hlen. unfold beginWrite. fold (currentCodec s). destruct (currentCodec s) as [codec |] eqn:Hcodec; [| by intros [= <- <-]].
  destruct (outgoingHook _ _ _ _ _ _ _ _) as [[prepared f] |] eqn:Hhook; [| done]. cbn [mbind option_bind]. apply outgoingHook_few in Hhook.
  rewrite sum_list_with_concat. destruct (Nat.eqb_spec (length (concat prepared)) 0); [by intros [= <- <-] |].
  cbn -[NewDataPacketIDs outgoingOpcode]. rewrite Hm. cbn -[NewDataPacketIDs outgoingOpcode].
  match goal with |- context [NewDataPacketIDs m ?op ?n] =>
    pose proof (NewDataPacketIDs_spec m op n Hinv ltac:(unfold lenZ in *; lia)) as Hids; destruct (NewDataPacketIDs m op n) as [[ids | e] m'] end.
  - destruct Hids as (_ & Hcount & -> & Hd & Hc). intros [= <- <-]. cbn. split; [done |]. split; [done |]. exists m'. split_and!; [done | | lia |].
    + destruct Hinv. split; rewrite ?Hc, ?Hd; [done |]. lia.
    + rewrite Hd. f_equal. lia.
  - destruct Hids as [-> _]. intros [= <- <-]. cbn. split; [done |]. by rewrite insert_id.
Qed.

Lemma write_spec (s s' : dataSession) (buffers : bool) now random writePackets payloads m outcome :
  ds_managers s !! ps_sendManager (ds_keys s) = Some m → session_inv m → lenZ payloads < 2 ^ 31 →
  (if buffers then WriteDataPacketBuffers else WriteDataPackets) (outgoingHook (ps_role (ds_keys s)) o outerTransportOverhead now) writePackets s random payloads = Some (outcome, s') →
  ∃ m', wrote s s' m m' outcome.
Proof.
  intros Hm Hinv Hlen Hwrite. destruct (decide (nonEmpty payloads = [])) as [Hnil | Hne].
  { exists m. assert (E : s' = s ∧ outcome = nothingWritten None) by
      (unfold WriteDataPacketBuffers, WriteDataPackets, writeDataPacketBuffersLocked, writeDataPacketsLocked in Hwrite; destruct buffers, payloads; rewrite ?Hnil in Hwrite; by simplify_eq).
    destruct E as [-> ->]. by apply wrote_nothing. }
  set (hook := outgoingHook (ps_role (ds_keys s)) o outerTransportOverhead now) in Hwrite.
  assert (Hlocked : (if buffers then writeDataPacketBuffersLocked hook writePackets s random payloads else writeDataPacketsLocked hook writePackets s random payloads)
    = Some (outcome, s')) by (by destruct buffers, payloads).
  clear Hwrite. pose proof (nonEmpty_few payloads) as Hfew. unfold writeDataPacketBuffersLocked, writeDataPacketsLocked in Hlocked.
  destruct (nonEmpty payloads) as [| p ps]; [done |].
  destruct (beginWrite hook s (p :: ps)) as [[begun s1] |] eqn:Hb; [| by destruct buffers].
  destruct (beginWrite_spec s s1 now (p :: ps) m begun Hm Hinv ltac:(unfold lenZ in *; lia) Hb) as [Hk Hbegun].
  assert (Hnone : ∀ err, Some (nothingWritten err, s1) = Some (outcome, s') → ds_managers s1 = ds_managers s → ∃ m', wrote s s' m m' outcome).
  { intros err [= <- <-] Hms. exists m. by apply wrote_nothing. }
  destruct begun as [[[[codec prepared] ids] |] | e]; cbn [mbind option_bind] in Hlocked; [| by (destruct buffers; apply (Hnone None)) | by (destruct buffers; apply (Hnone (Some e)))].
  destruct Hbegun as (Hcodec & m' & Hms & Hinv' & Hlater & ->). exists m'. rewrite Hk in Hlocked.
  destruct (encodePayloads s1 codec _ _ _ _ _) as [[packets lasts] err] eqn:Henc. apply encodePayloads_ids in Henc as [Hall Hpre].
  assert (Hsent : ∀ written err, wrote s s1 m m' (mkWrite (observeWrites (ps_sendKeyID (ds_keys s)) packets ++ accountWritten (p :: ps) lasts written) (og_rawPayload <$> packets) err)).
  { intros written err'. split; [done..|]. exists packets. split_and!; [| done | apply observed_writes | done]. eapply Forall_impl; [exact Hall |]. intros q Hq. by exists codec. }
  destruct buffers.
  - destruct err as [e |].
    + injection Hlocked as <- <-. split; [done..|]. exists []. split_and!; [constructor | apply prefix_nil | done | done].
    + destruct (writePackets _) as [written werr]. injection Hlocked as <- <-. apply Hsent.
  - destruct (writePackets _) as [written werr]. injection Hlocked as <- <-. apply Hsent.
Qed.

(** ** The invariant *)

(** The session's own manager goes with its first codec, that of a renegotiation with
    the codec the renegotiation ended with. *)
Definition madeFor (first : nat) (finished : list (Z * nat)) (manager : Z) (handle : option nat) : Prop :=
  manager = 0 ∧ handle = Some first ∨ ∃ h, handle = Some h ∧ (manager, h) ∈ finished.

Record usedOk (s : dataSession) (first : nat) (finished : list (Z * nat)) (e : sentPacket) : Prop := mkUsed {
  uo_manager : 0 ≤ se_manager e ≤ ps_sendManager (ds_keys s);
  uo_current : se_manager e = ps_sendManager (ds_keys s) → (se_handle e, se_keyID e) = currentSendCodec (ds_keys s);
  uo_passed : ∃ m, ds_managers s !! se_manager e = Some m ∧ 1 ≤ se_packetID e < sm_localDataPacketID m;
  uo_made : madeFor first finished (se_manager e) (se_handle e);
  uo_encoded : ∃ codec (session : dataSession) p, se_codec e = Some codec ∧ encodes session codec (se_keyID e) p ∧ og_packetID p = se_packetID e ∧ og_rawPayload p = se_raw e;
}.

Record useOk (first : nat) (s : dataSession) (finished : list (Z * nat)) (sent : list sentPacket) : Prop := mkUse {
  use_keys : keysOk (ds_keys s);
  use_managers : ∀ q, 0 ≤ q ≤ ps_renegotiationSequence (ds_keys s) → ∃ m, ds_managers s !! q = Some m ∧ session_inv m;
  use_send : madeFor first finished (ps_sendManager (ds_keys s)) (ps_sendCodec (ds_keys s));
  use_sent : Forall (usedOk s first finished) sent;
  use_ids : NoDup ((λ e, (se_manager e, se_packetID e)) <$> sent);
  use_keyIDs : ∀ e e', e ∈ sent → e' ∈ sent → se_manager e = se_manager e' → se_keyID e = se_keyID e';
}.

Lemma sendManager_bounds k : keysOk k → 0 ≤ ps_sendManager k ≤ ps_renegotiationSequence (C := nat) k.
Proof. intros Hk. destruct (k_promoted k Hk) as [? ->]. done. Qed.

Lemma sameSend_manager k k' : keysOk k → keysOk k' → sameSend (C := nat) k k' → ps_sendManager k' = ps_sendManager k ∧ ps_sendCodec k' = ps_sendCodec k ∧ ps_sendKeyID k' = ps_sendKeyID k.
Proof. intros Hk Hk' [H1 [= H2 H3]]. by rewrite (proj2 (k_promoted k Hk)), (proj2 (k_promoted k' Hk')). Qed.

Lemma madeFor_mono first finished finished' manager handle : madeFor first finished manager handle → madeFor first (finished ++ finished') manager handle.
Proof. intros [? | (h & ? & ?)]; [by left |]. right. exists h. split; [done |]. by apply elem_of_app; left. Qed.

(** A change of the keys: either the key that is sent with stays, or it is that of a
    later renegotiation that has ended with a codec. *)
Lemma useOk_keys first (s s' : dataSession) finished finished' sent :
  useOk first s finished sent → keysOk (ds_keys s') →
  (∀ q m, ds_managers s !! q = Some m → q ≤ ps_renegotiationSequence (ds_keys s) → ds_managers s' !! q = Some m) →
  (∀ q, 0 ≤ q ≤ ps_renegotiationSequence (ds_keys s') → ∃ m, ds_managers s' !! q = Some m ∧ session_inv m) →
  sameSend (ds_keys s) (ds_keys s') ∨
    ps_sendManager (ds_keys s) < ps_sendManager (ds_keys s') ∧ madeFor first (finished ++ finished') (ps_sendManager (ds_keys s')) (ps_sendCodec (ds_keys s')) →
  useOk first s' (finished ++ finished') sent.
Proof.
  intros [U1 U2 U3 U4 U5 U6] Hk Hold Hms Hsend. pose proof (sendManager_bounds _ U1) as Hb.
  assert (Hmgr : ps_sendManager (ds_keys s) ≤ ps_sendManager (ds_keys s') ∧ (ps_sendManager (ds_keys s') = ps_sendManager (ds_keys s) →
    currentSendCodec (ds_keys s') = currentSendCodec (ds_keys s)) ∧ madeFor first (finished ++ finished') (ps_sendManager (ds_keys s')) (ps_sendCodec (ds_keys s'))).
  { destruct Hsend as [Hsame | [Hlt Hmade]]; [| split_and!; [lia | lia | done]].
    pose proof (sameSend_manager _ _ U1 Hk Hsame) as (E1 & E2 & E3). unfold currentSendCodec. rewrite E1, E2, E3. split_and!; [lia | done | by apply madeFor_mono]. }
  destruct Hmgr as (Hle & Hcur & Hmade). split; [done | done | done | | done | done].
  eapply Forall_impl; [exact U4 |]. intros e [V1 V2 (m & V3 & V3') V4 V5]. split; [lia | | | by apply madeFor_mono | done].
  - intros He. rewrite Hcur by lia. apply V2. lia.
  - exists m. split; [| done]. apply Hold; [done | lia].
Qed.

Lemma seqZ_prefix_bounds (l : list Z) a n x : l `prefix_of` seqZ a n → x ∈ l → a ≤ x < a + n.
Proof. intros [k Hk] Hx. apply elem_of_seqZ. rewrite Hk. by apply elem_of_app; left. Qed.

Lemma seqZ_prefix_NoDup (l : list Z) a n : l `prefix_of` seqZ a n → NoDup l.
Proof. intros [k Hk]. pose proof (NoDup_seqZ a n) as H. rewrite Hk in H. by apply NoDup_app in H as [? _]. Qed.

(** What a write adds to the trace. *)
Lemma sentBy_wrote (s s' : dataSession) m m' outcome :
  wrote s s' m m' outcome → session_inv m →
  (∀ e, e ∈ sentBy s outcome → se_manager e = ps_sendManager (ds_keys s) ∧ (se_handle e, se_keyID e) = currentSendCodec (ds_keys s) ∧
    sm_localDataPacketID m ≤ se_packetID e < sm_localDataPacketID m' ∧
    ∃ codec (session : dataSession) p, se_codec e = Some codec ∧ encodes session codec (se_keyID e) p ∧ og_packetID p = se_packetID e ∧ og_rawPayload p = se_raw e) ∧
  NoDup ((λ e, (se_manager e, se_packetID e)) <$> sentBy s outcome).
Proof.
  intros [_ _ _ Hlater (packets & Hall & Hpre & Hobs & Hraw)] Hinv.
  assert (E : sentBy s outcome = (λ p, mkSent (ps_sendManager (ds_keys s)) (ps_sendCodec (ds_keys s)) (currentCodec s) (ps_sendKeyID (ds_keys s)) (og_packetID p) (og_rawPayload p)) <$> packets).
  { unfold sentBy. rewrite Hobs, Hraw. clear. induction packets as [| p packets IH]; [done |]. cbn. by rewrite IH. }
  rewrite E. split.
  - intros e He. apply list_elem_of_fmap in He as (p & -> & Hp). cbn. split_and!; [done | done | | |].
    1,2: apply (seqZ_prefix_bounds _ _ _ (og_packetID p)) in Hpre; [lia | by apply list_elem_of_fmap_2].
    rewrite Forall_forall in Hall. destruct (Hall p Hp) as (codec & Hc & Hen). by exists codec, s', p.
  - rewrite <- list_fmap_compose. apply seqZ_prefix_NoDup in Hpre.
    replace ((λ e, (se_manager e, se_packetID e)) ∘ _ <$> packets) with (pair (ps_sendManager (ds_keys s)) <$> (og_packetID <$> packets)) by (by rewrite <- list_fmap_compose).
    apply NoDup_fmap_2; [| done]. by intros x y [=].
Qed.

Lemma useOk_write first (s s' : dataSession) finished sent m m' outcome :
  useOk first s finished sent → ds_managers s !! ps_sendManager (ds_keys s) = Some m → session_inv m → wrote s s' m m' outcome →
  useOk first s' finished (sent ++ sentBy s outcome).
Proof.
  intros [U1 U2 U3 U4 U5 U6] Hm Hinv Hw. destruct (sentBy_wrote s s' m m' outcome Hw Hinv) as [Hnew Hnd].
  destruct Hw as [Hk Hms Hinv' Hlater _]. rewrite Forall_forall in U4.
  split; rewrite ?Hk; [done | | done | | |].
  - intros q Hq. rewrite Hms. destruct (decide (q = ps_sendManager (ds_keys s))) as [-> | Hne]; [rewrite lookup_insert_eq | rewrite lookup_insert_ne by done]; eauto.
  - apply Forall_forall. intros e [He | He]%elem_of_app.
    + destruct (U4 e He) as [V1 V2 (m1 & V3 & V3') V4 V5]. split; rewrite ?Hk; [done | done | | done | done].
      rewrite Hms. destruct (decide (se_manager e = ps_sendManager (ds_keys s))) as [Heq | Hne].
      * exists m'. rewrite Heq, lookup_insert_eq. rewrite Heq in V3. simplify_eq. split; [done | lia].
      * exists m1. by rewrite lookup_insert_ne.
    + destruct (Hnew e He) as (N1 & N2 & N3 & N4). split; rewrite ?Hk; [pose proof (sendManager_bounds _ U1); lia | done | | | done].
      * exists m'. rewrite Hms, N1, lookup_insert_eq. split; [done |]. destruct Hinv. lia.
      * rewrite N1. injection N2 as -> _. done.
  - rewrite fmap_app. apply NoDup_app. split_and!; [done | | done]. intros x Hx Hx'.
    apply list_elem_of_fmap in Hx as (e & -> & He). apply list_elem_of_fmap in Hx' as (e' & Heq & He').
    destruct (Hnew e' He') as (N1 & _ & N3 & _). destruct (U4 e He) as [_ _ (m1 & V3 & V3') _ _]. injection Heq as E1 E2. rewrite E1, N1 in V3. simplify_eq. lia.
  - assert (Hone : ∀ e, e ∈ sent ++ sentBy s outcome → se_manager e = ps_sendManager (ds_keys s) → se_keyID e = ps_sendKeyID (ds_keys s)).
    { intros e [He | He]%elem_of_app Heq; [destruct (U4 e He) as [_ V2 _ _ _]; by injection (V2 Heq) | destruct (Hnew e He) as (_ & N2 & _); by injection N2]. }
    intros e e' He He' Heq. destruct (decide (se_manager e = ps_sendManager (ds_keys s))) as [Hs | Hs]; [rewrite !Hone by (done || congruence); done |].
    apply elem_of_app in He as [He | He]; [| by destruct (Hnew e He)]. apply elem_of_app in He' as [He' | He']; [| destruct (Hnew e' He'); congruence]. by apply U6.
Qed.

(** ** Every step keeps it *)

Lemma makeManager_spec first (s : dataSession) finished sent op :
  useOk first s finished sent → keyOpOk op → let keys := doKeyOp (ds_keys s) op in
  (∀ q m, ds_managers s !! q = Some m → q ≤ ps_renegotiationSequence (ds_keys s) → makeManager s keys !! q = Some m) ∧
  ∀ q, 0 ≤ q ≤ ps_renegotiationSequence keys → ∃ m, makeManager s keys !! q = Some m ∧ session_inv m.
Proof.
  intros [U1 U2 _ _ _ _] Hop keys. pose proof (sendManager_bounds _ U1) as Hb. pose proof (doKeyOp_sequence (ds_keys s) op) as Hseq. fold keys in Hseq. cbv zeta in Hseq.
  destruct (U2 0 ltac:(lia)) as (m0 & Hm0 & Hinv0). unfold makeManager. rewrite Hm0.
  destruct (Z.ltb_spec (ps_renegotiationSequence (ds_keys s)) (ps_renegotiationSequence keys)) as [Hlt | Hge].
  - split; [intros q m Hq Hle; by rewrite lookup_insert_ne by lia |]. intros q Hq.
    destruct (decide (q = ps_renegotiationSequence keys)) as [-> | Hne]; [| rewrite lookup_insert_ne by done; apply U2; lia].
    eexists. split; [apply lookup_insert_eq |]. split; cbn; unfold MaxUint32; lia.
  - split; [done |]. intros q Hq. apply U2. lia.
Qed.

Lemma useOk_step first (s s' : dataSession) finished sent op more :
  useOk first s finished sent → dataOpOk op → doDataOp s op = Some (more, s') → useOk first s' (finished ++ negotiated [op]) (sent ++ more).
Proof.
  intros Hu Hop. pose proof Hu as [U1 U2 U3 U4 U5 U6]. destruct op as [handle codec | op | dz range packets | buffers now random writePackets payloads]; cbn [doDataOp].
  - intros [= <- <-]. rewrite (app_nil_r sent). apply (useOk_keys first s); [done | done | done | done |]. by left.
  - intros [= <- <-]. rewrite (app_nil_r sent). cbn [dataOpOk] in Hop. destruct (makeManager_spec first s finished sent op Hu Hop) as [Hold Hall].
    pose proof (doKeyOp_ok _ _ U1 Hop) as Hk. apply (useOk_keys first s); [done | done | done | done |]. cbn.
    destruct (doKeyOp_send (ds_keys s) op U1 Hop) as [Hsame | (Hlt & codec & now & Heq & Hcodec)]; [by left |]. right.
    rewrite (proj2 (k_promoted _ U1)), (proj2 (k_promoted _ Hk)), Hcodec. split; [done |]. right. exists codec. split; [done |].
    apply elem_of_app. right. rewrite Heq at 2. cbn. apply list_elem_of_singleton. done.
  - intros [= <- <-]. rewrite (app_nil_r sent). unfold handleIncomingDataPackets.
    destruct (handleLoop_keys (incomingHook (ps_role (ds_keys s)) dz range) packets s (mkBatch [] 0 0)) as [Hk Hms]. destruct (Hk U1) as (Hk' & Hsame & Hseq).
    apply (useOk_keys first s); [done | done | by rewrite Hms | by rewrite Hms, Hseq | by left].
  - destruct (_ _ writePackets s random payloads) as [[outcome s1] |] eqn:Hw; [| done]. intros [= <- <-].
    destruct (U2 _ (sendManager_bounds _ U1)) as (m & Hm & Hinv). destruct (write_spec s s1 buffers now random writePackets payloads m outcome Hm Hinv Hop Hw) as [m' Hwrote].
    cbn. rewrite (app_nil_r finished). by eapply useOk_write.
Qed.

Lemma negotiated_cons op ops : negotiated (op :: ops) = negotiated [op] ++ negotiated ops.
Proof. unfold negotiated. by rewrite <- omap_app. Qed.

Lemma useOk_run first ops : ∀ (s s' : dataSession) finished sent more,
  useOk first s finished sent → Forall dataOpOk ops → doDataOps s ops = Some (more, s') → useOk first s' (finished ++ negotiated ops) (sent ++ more).
Proof.
  induction ops as [| op ops IH]; intros s s' finished sent more Hu Hops Hrun; cbn in Hrun.
  { simplify_eq. by rewrite !app_nil_r. }
  apply Forall_cons in Hops as [Hop Hops]. destruct (doDataOp s op) as [[l1 s1] |] eqn:H1; [| done]. cbn in Hrun.
  destruct (doDataOps s1 ops) as [[l2 s2] |] eqn:H2; [| done]. cbn in Hrun. simplify_eq.
  rewrite negotiated_cons, !app_assoc. eapply IH; [| done | done]. by eapply useOk_step.
Qed.

(** A session with its first codec and its own manager. *)
Definition startedData (role : tlsRole) (handshakeWindow : Z) (first : nat) (codec : C) (m : SessionManager) (peerID : option Z) (header : Z) (localOptions : bytes)
    (connectionOriented : bool) (f : option dataChannelFraming) : dataSession :=
  mkData (startedSession role handshakeWindow first) {[ first := codec ]} {[ 0 := m ]} peerID header localOptions connectionOriented f.

Lemma NoDup_fmap_coarser {A B D} (f : A → B) (g : A → D) l :
  NoDup (f <$> l) → (∀ x y, x ∈ l → y ∈ l → g x = g y → f x = f y) → NoDup (g <$> l).
Proof.
  induction l as [| x l IH]; intros Hf Hg; [constructor |]. cbn in *. apply NoDup_cons in Hf as [Hx Hf]. apply NoDup_cons. split.
  - intros (y & Heq & Hy)%list_elem_of_fmap. apply Hx. rewrite (Hg x y); [by apply list_elem_of_fmap_2 | by left | by right | done].
  - apply IH; [done |]. intros y z Hy Hz. apply Hg; by right.
Qed.

Lemma NoDup_snd_inj {A B} (l : list (A * B)) x y z : NoDup l.*2 → (x, z) ∈ l → (y, z) ∈ l → x = y.
Proof.
  induction l as [| [a b] l IH]; intros Hnd Hx Hy; [by apply not_elem_of_nil in Hx |]. cbn in Hnd. apply NoDup_cons in Hnd as [Hb Hnd].
  apply elem_of_cons in Hx as [Hx | Hx], Hy as [Hy | Hy]; simplify_eq; [done | | | by apply IH].
  all: exfalso; apply Hb, list_elem_of_fmap; by eexists (_, _).
Qed.

Lemma madeFor_inj first finished q q' handle : NoDup (first :: finished.*2) → madeFor first finished q handle → madeFor first finished q' handle → q = q'.
Proof.
  intros [Hf Hnd]%NoDup_cons [[-> ->] | (h & -> & Hh)] [[-> Heq] | (h' & Heq & Hh')]; simplify_eq; [done | | | by eapply NoDup_snd_inj].
  all: exfalso; apply Hf, list_elem_of_fmap; by eexists (_, _).
Qed.

(** C21: no packet id is used twice with a key. Over the whole life of a session,
    however renegotiations of either side start, end, fail, expire and overtake one
    another between the batches that are written and the packets that arrive, and
    whichever writes fail: if every handshake builds a codec of its own, no two packets
    handed to the connection were encoded with the same codec under the same packet id;
    packets of a codec bear one key id; each packet is the encoding of a frame under
    the id it was given, which is between 1 and the last id but one; and there is a
    manager to number the packets of the key that is sent with. *)
Theorem packet_ids_never_reused role window first codec m peerID header localOptions connectionOriented f ops sent s' :
  session_inv m → Forall dataOpOk ops → NoDup (first :: (negotiated ops).*2) →
  doDataOps (startedData role window first codec m peerID header localOptions connectionOriented f) ops = Some (sent, s') →
  NoDup ((λ e, (se_handle e, se_packetID e)) <$> sent) ∧
  (∀ e e', e ∈ sent → e' ∈ sent → se_handle e = se_handle e' → se_keyID e = se_keyID e') ∧
  (∀ e, e ∈ sent → 1 ≤ se_packetID e < MaxUint32 ∧
    ∃ c (session : dataSession) random frame p, se_codec e = Some c ∧ encodePacket session c (se_keyID e) (se_packetID e) random frame = Ok p ∧ og_rawPayload p = se_raw e) ∧
  is_Some (ds_managers s' !! ps_sendManager (ds_keys s')).
Proof.
  intros Hm Hops Hnd Hrun. eapply (useOk_run first _ _ _ [] []) in Hrun as [U1 U2 U3 U4 U5 U6]; [| | done].
  2: { split; cbn; [apply startedSession_ok | | by left | constructor | constructor | by intros e e' He%not_elem_of_nil].
       intros q Hq. replace q with 0 by lia. by exists m. }
  rewrite Forall_forall in U4. cbn [app] in *.
  assert (Hman : ∀ e e', e ∈ sent → e' ∈ sent → se_handle e = se_handle e' → se_manager e = se_manager e').
  { intros e e' He He' Heq. eapply madeFor_inj; [exact Hnd | apply (U4 e He) |]. rewrite Heq. apply (U4 e' He'). }
  split_and!.
  - eapply NoDup_fmap_coarser; [exact U5 |]. intros e e' He He' [= E1 E2]. cbn. by rewrite (Hman e e' He He' E1), E2.
  - intros e e' He He' Heq. apply U6; [done | done | by apply Hman].
  - intros e He. destruct (U4 e He) as [V1 _ (m1 & V2 & V3) V4 (c & session & p & V5 & (random & frame & V6) & V7 & V8)].
    rewrite V7 in V6. split; [| by exists c, session, random, frame, p].
    destruct (U2 (se_manager e)) as (m2 & Hm2 & [_ Hm2']); [pose proof (sendManager_bounds _ U1); lia |]. simplify_eq. lia.
  - destruct (U2 _ (sendManager_bounds _ U1)) as (m1 & Hm1 & _). by exists m1.
Qed.

End KeyUse.

(** ** An example: a key change between two batches *)

Definition exampleUse : list (dataOp (C := tlsDataCodec)) :=
  let write := DWrite false 5 (λ _, exampleRandom) exampleConnection [examplePayload; openVPNDataChannelPingPayload] in
  [write; DKey (KSoftReset 1 Second); DCodec 8 (exampleCodec true "AES-256-GCM"); write; DKey (KFinish 1 (Ok 8%nat) (2 * Second)); write].

Definition exampleUsed : list (sentPacket (C := tlsDataCodec)) * dataSession (C := tlsDataCodec) (F := option dataChannelFraming) :=
  default ([], exampleServer) (doDataOps exampleOptions 28
    (startedData tlsRoleServer 60000000000 7 (exampleCodec true "AES-256-GCM") (NewSessionManagerWithLocalID (replicate 8 x01)) (Some 3) 0 [] false None) exampleUse).

Lemma packet_ids_never_reused_witness :
  (λ e, (se_handle e, se_keyID e, se_packetID e)) <$> exampleUsed.1 =
    [(Some 7%nat, 0, 1); (Some 7%nat, 0, 2); (Some 7%nat, 0, 3); (Some 7%nat, 0, 4); (Some 8%nat, 1, 1); (Some 8%nat, 1, 2)] ∧
  NoDup ((λ e, (se_handle e, se_packetID e)) <$> exampleUsed.1).
Proof.
  split; [vm_compute; reflexivity |].
  refine (proj1 (packet_ids_never_reused exampleOptions 28 tlsRoleServer 60000000000 7 (exampleCodec true "AES-256-GCM") (NewSessionManagerWithLocalID (replicate 8 x01))
    (Some 3) 0 [] false None exampleUse exampleUsed.1 exampleUsed.2 _ _ _ _)).
  - apply new_session_inv.
  - repeat constructor; cbn; lia.
  - apply (bool_decide_unpack _). vm_compute. done.
  - vm_compute. reflexivity.
Defined.
