(* ===== verification/ServerSessions.v ===== *)
(** * The sessions of a TLS server ([server_tls.go], [server_identity.go],
      [udp_peer_conn.go] addresses)

    Sessions are shared objects: the registries hold their names, and [rg_sessions] is
    the store.  A table is a finite map as in the source; iterating over one to delete
    is a filter, as its order is not observable. *)

From Stdlib Require Import Strings.Ascii.
From S2P Require Import Prelude Packet Session Netip GoStrings NetipText Options Auth Supervisor Admission ControlWrap ControlChannel DataPath.

Definition ErrPeerNotFound : goerr := ErrNew "peer not found".
Definition ErrPeerRestart : goerr := ErrNew "peer started a new hard-reset session".
Definition ErrServerResourceLimit : goerr := ErrNew "server resource limit reached".

(** ** Addresses *)

(** [*net.UDPAddr], or another [net.Addr] with its network and text. *)
Inductive netAddr := UDPAddr (ip : Addr) (port : Z) (zone : string) | OtherAddr (network text : string).

#[export] Instance netAddr_eq_dec : EqDecision netAddr.
Proof. solve_decision. Defined.

(** [net.IP.String] (empty for none) and [net.JoinHostPort]. *)
Definition ipString (ip : Addr) : string :=
  match ip with AddrInvalid => "" | Addr4 v => dotted v | Addr6 v => if is4in6 v then dotted (v mod 2 ^ 32) else format6 v end.

Definition JoinHostPort (host port : string) : string :=
  if containsChar ":"%char host then "[" +:+ host +:+ "]:" +:+ port else host +:+ ":" +:+ port.

Definition addrString (a : netAddr) : string :=
  match a with
  | UDPAddr ip port zone => JoinHostPort (if decide (zone = ""%string) then ipString ip else ipString ip +:+ "%" +:+ zone) (Itoa port)
  | OtherAddr _ text => text
  end.

(** [net.IP.Equal]: an IPv4 address and its IPv6 form are equal. *)
Definition ipEqual (a b : Addr) : bool :=
  let unmap x := match x with Addr6 v => if is4in6 v then Addr4 (v mod 2 ^ 32) else x | _ => x end in
  bool_decide (unmap a = unmap b).

Definition equalPacketSource (a b : option netAddr) : bool :=
  match a, b with
  | None, None => true
  | Some (UDPAddr ip port zone), Some (UDPAddr ip' port' zone') => (port =? port') && bool_decide (zone = zone') && ipEqual ip ip'
  | Some a, Some b =>
      bool_decide ((match a with UDPAddr _ _ _ => "udp"%string | OtherAddr network _ => network end) =
                   (match b with UDPAddr _ _ _ => "udp"%string | OtherAddr network _ => network end)) &&
      bool_decide (addrString a = addrString b)
  | _, _ => false
  end.

(** ** Identities *)

(** The digests are their octets. *)
Record tlsClientCertificateIdentity := mkIdentity { ci_commonName : string; ci_hashes : list bytes }.

#[export] Instance tlsClientCertificateIdentity_eq_dec : EqDecision tlsClientCertificateIdentity.
Proof. solve_decision. Defined.

(** The chain a connection presented, as the common name of its first certificate and
    the digests of all. *)
Definition clientCertificateIdentity (certificates : list (string * bytes)) : option tlsClientCertificateIdentity :=
  match certificates with [] => None | (commonName, _) :: _ => Some (mkIdentity commonName certificates.*2) end.

Fixpoint equalHashes (a b : list bytes) : bool :=
  match a, b with
  | l :: a, r :: b => bool_decide (l = r) && equalHashes a b
  | [], [] => true
  | _, _ => false
  end.

Definition equalClientCertificateIdentity (a b : option tlsClientCertificateIdentity) : bool :=
  match a, b with
  | None, None => true
  | Some a, Some b => bool_decide (ci_commonName a = ci_commonName b) && equalHashes (ci_hashes a) (ci_hashes b)
  | _, _ => false
  end.

(** ** Sessions and their registries *)

(** How far a session's own procedure is in a change that takes several critical
    sections: it is to reserve a slot, and then to close the session it displaced; it
    has set its identity and is to register it; it is to close the session it replaced. *)
Inductive registrationStep := StepIdle | StepReserving (displaced : option Z) | StepIdentifying | StepClosing (existing : Z).

#[export] Instance registrationStep_eq_dec : EqDecision registrationStep.
Proof. solve_decision. Defined.

(** [ss_authenticated]: the credentials of the peer were accepted. *)
Record serverSession := mkServerSession {
  ss_remoteSessionID : SessionID;
  ss_peerAddress : string;
  ss_peerID : option Z;
  ss_identity : string;
  ss_certificate : option tlsClientCertificateIdentity;
  ss_certificateSet : bool;
  ss_username : option string;
  ss_remoteAddress : option netAddr;
  ss_readAddress : option netAddr;
  ss_reserved : bool;
  ss_closed : bool;
  ss_authenticated : bool;
  ss_step : registrationStep;
}.

#[export] Instance eta_serverSession : Eta serverSession := λ s,
  mkServerSession (ss_remoteSessionID s) (ss_peerAddress s) (ss_peerID s) (ss_identity s) (ss_certificate s) (ss_certificateSet s) (ss_username s)
    (ss_remoteAddress s) (ss_readAddress s) (ss_reserved s) (ss_closed s) (ss_authenticated s) (ss_step s).

Record registry := mkRegistry {
  rg_sessions : gmap Z serverSession;
  rg_byPeer : gmap string Z;
  rg_byIdentity : gmap string Z;
  rg_byPeerID : gmap Z Z;
  rg_udp : gmap string Z;
  rg_initial : gmap string Z;
  rg_sessionCounter : Z;
  rg_running : bool;
  rg_policy : serverResourcePolicy;
}.

#[export] Instance eta_registry : Eta registry := λ r,
  mkRegistry (rg_sessions r) (rg_byPeer r) (rg_byIdentity r) (rg_byPeerID r) (rg_udp r) (rg_initial r) (rg_sessionCounter r) (rg_running r) (rg_policy r).

Definition updateSession (r : registry) (s : Z) (f : serverSession → serverSession) : registry := r <| rg_sessions := alter f s (rg_sessions r) |>.

Definition lockInitialCertificateIdentity (r : registry) (s : Z) (certificates : list (string * bytes)) : registry :=
  updateSession r s (λ i, i <| ss_certificate := clientCertificateIdentity certificates |> <| ss_certificateSet := true |>).

Definition verifyLockedCertificateIdentity (i : serverSession) (certificates : list (string * bytes)) : option goerr :=
  if negb (ss_certificateSet i) || negb (equalClientCertificateIdentity (ss_certificate i) (clientCertificateIdentity certificates))
  then Some (ErrExtend ErrPeerCertificateVerification "client certificate identity changed during renegotiation") else None.

(** [hex.EncodeToString]. *)
Definition hexOf (b : bytes) : string := foldr (λ x s, String (hexDigit (b2z x / 16)) (String (hexDigit (b2z x mod 16)) s)) EmptyString b.

Definition authenticatedIdentityKey (i : serverSession) : string :=
  let username := match ss_username i with Some name => ("username:" +:+ name)%string | None => ""%string end in
  match ss_certificate i with
  | Some identity =>
      if negb (bool_decide (ci_commonName identity = ""%string)) then "x509-cn:" +:+ ci_commonName identity else
      match ci_hashes identity with h :: _ => "x509-sha256:" +:+ hexOf h | [] => username end
  | None => username
  end.

Definition lockAuthenticatedUsername (i : serverSession) (username : string) : option goerr * serverSession :=
  match ss_username i with
  | Some name => if bool_decide (username = name) then (None, i) else (Some ErrAuthenticationFailed, i)
  | None => (None, i <| ss_username := Some username |>)
  end.

(** [authenticator] is the program's function, when there is one. *)
Definition verifyUserPass (authenticator : option (string → string → option goerr)) (i : serverSession) (username password : string) : option goerr * serverSession :=
  match authenticator with
  | None => (None, i)
  | Some f => match f username password with Some e => (Some e, i) | None => lockAuthenticatedUsername i username end
  end.

Definition getSession (r : registry) (peerAddress : string) : option Z := rg_byPeer r !! peerAddress.

Definition evictSessionLocked (r : registry) (s : Z) : registry :=
  match rg_sessions r !! s with
  | None => r
  | Some i =>
      r <| rg_byPeer := if decide (rg_byPeer r !! ss_peerAddress i = Some s) then delete (ss_peerAddress i) (rg_byPeer r) else rg_byPeer r |>
        <| rg_byPeerID := match ss_peerID i with
                          | Some id => if decide (rg_byPeerID r !! id = Some s) then delete id (rg_byPeerID r) else rg_byPeerID r
                          | None => rg_byPeerID r
                          end |>
        <| rg_byIdentity := if decide (ss_identity i ≠ ""%string ∧ rg_byIdentity r !! ss_identity i = Some s) then delete (ss_identity i) (rg_byIdentity r) else rg_byIdentity r |>
        <| rg_udp := filter (λ p, p.2 ≠ s) (rg_udp r) |>
        <| rg_initial := filter (λ p, p.2 ≠ s) (rg_initial r) |>
  end.

Definition unregisterSession (r : registry) (s : Z) : registry := evictSessionLocked r s.

(** [fmt.Sprintf("%s#session=%d", ...)]. *)
Definition numberedAddress (initialPeerAddress : string) (n : Z) : string := initialPeerAddress +:+ "#session=" +:+ FormatUint n.

(** The loop over the counter; the number of sessions is enough fuel. *)
Fixpoint numberLoop (fuel : nat) (byPeer : gmap string Z) (initialPeerAddress : string) (counter : Z) : string * Z :=
  let counter := u64 (counter + 1) in
  match fuel with
  | O => (numberedAddress initialPeerAddress counter, counter)
  | S fuel =>
      match byPeer !! numberedAddress initialPeerAddress counter with
      | None => (numberedAddress initialPeerAddress counter, counter)
      | Some _ => numberLoop fuel byPeer initialPeerAddress counter
      end
  end.

Definition bindPeerAddressLocked (r : registry) (initialPeerAddress : string) (s : Z) : registry :=
  let '(stablePeerAddress, counter) :=
    match rg_byPeer r !! initialPeerAddress with
    | Some existing => if decide (existing = s) then (initialPeerAddress, rg_sessionCounter r)
                       else numberLoop (size (rg_byPeer r)) (rg_byPeer r) initialPeerAddress (rg_sessionCounter r)
    | None => (initialPeerAddress, rg_sessionCounter r)
    end in
  updateSession (r <| rg_sessionCounter := counter |> <| rg_byPeer := <[stablePeerAddress := s]> (rg_byPeer r) |>)
    s (λ i, i <| ss_peerAddress := stablePeerAddress |>).

Definition registerSession (r : registry) (initialPeerAddress : string) (s : Z) (udpAddress : option netAddr) : option goerr * registry :=
  if decide (initialPeerAddress = ""%string) then (Some ErrPeerNotFound, r) else
  if negb (rg_running r) then (Some ErrServerClosed, r) else
  if match udpAddress with
     | Some address => match rg_udp r !! addrString address with Some existing => negb (bool_decide (existing = s)) | None => false end
     | None => false
     end
  then (Some ErrServerResourceLimit, r) else
  let r := bindPeerAddressLocked r initialPeerAddress s in
  (None, match udpAddress with Some address => r <| rg_udp := <[addrString address := s]> (rg_udp r) |> | None => r end).

Definition registerInitialSession (r : registry) (initialPeerAddress : string) (s : Z) (udpAddress : netAddr) : result (option Z) * registry :=
  if decide (initialPeerAddress = ""%string) then (Err ErrPeerNotFound, r) else
  if negb (rg_running r) then (Err ErrServerClosed, r) else
  let address := addrString udpAddress in
  let displaced := match rg_initial r !! address with Some d => if decide (d = s) then None else Some d | None => None end in
  let r := match displaced with Some d => evictSessionLocked r d | None => r end in
  let r := bindPeerAddressLocked r initialPeerAddress s in
  (Ok displaced, r <| rg_initial := <[address := s]> (rg_initial r) |>).

(** [Close] of a session that was displaced. *)
Definition closeSession (r : registry) (s : Z) : registry := updateSession r s (λ i, i <| ss_closed := true |>).

Definition closeDisplaced (r : registry) (displaced : option Z) : registry := match displaced with Some d => closeSession r d | None => r end.

(** What happens under the lock: the session takes over the address and the
    reservation of the session it displaces. *)
Definition promoteLocked (r : registry) (s : Z) (address : string) : option Z * registry :=
  let displaced := match rg_udp r !! address with Some d => if decide (d = s) then None else Some d | None => None end in
  let r := r <| rg_initial := delete address (rg_initial r) |> in
  let r := match displaced with
           | Some d =>
               let reserved := match rg_sessions r !! d with Some i => ss_reserved i | None => false end in
               let r := updateSession (evictSessionLocked r d) d (λ i, i <| ss_reserved := false |>) in
               updateSession r s (λ i, i <| ss_reserved := reserved |>)
           | None => r
           end in
  (displaced, r <| rg_udp := <[address := s]> (rg_udp r) |>).

Definition setStep (r : registry) (s : Z) (step : registrationStep) : registry := updateSession r s (λ i, i <| ss_step := step |>).

(** [promoteInitialSession] up to the end of its critical section. *)
Definition promoteBegin (r : registry) (s : Z) : registry :=
  match rg_sessions r !! s ≫= ss_remoteAddress with
  | None => r
  | Some remoteAddress =>
      let address := addrString remoteAddress in
      if decide (rg_initial r !! address = Some s) then
        let '(displaced, r) := promoteLocked r s address in setStep r s (StepReserving displaced)
      else r
  end.

(** Its reservation, without the lock. *)
Definition promoteReserve (r : registry) (s : Z) (displaced : option Z) : option goerr * registry :=
  let '(granted, r) :=
    if match rg_sessions r !! s with Some i => ss_reserved i | None => false end then (true, r) else
    let '(granted, policy) := reserveInstance (rg_policy r) in
    (granted, updateSession (r <| rg_policy := policy |>) s (λ i, i <| ss_reserved := granted |>)) in
  if negb granted then (Some ErrServerResourceLimit, setStep r s StepIdle) else
  (None, setStep r s (match displaced with Some d => StepClosing d | None => StepIdle end)).

(** [Close] of the session that was displaced or replaced, which is then waited for. *)
Definition closeReplaced (r : registry) (s existing : Z) : registry := setStep (closeSession r existing) s StepIdle.

(** The first critical section of [registerAuthenticatedIdentity]. *)
Definition setIdentity (r : registry) (s : Z) (duplicateCN : bool) : registry :=
  match rg_sessions r !! s with
  | None => r
  | Some i =>
      let identity := authenticatedIdentityKey i in
      let r := updateSession r s (λ i, i <| ss_identity := identity |>) in
      if bool_decide (identity = ""%string) || duplicateCN then r else setStep r s StepIdentifying
  end.

(** The second: the session replaces another of its identity, which it is to close. *)
Definition replaceIdentity (r : registry) (s : Z) : option goerr * registry :=
  match rg_sessions r !! s with
  | None => (Some ErrPeerNotFound, r)
  | Some i =>
      if negb (rg_running r) then (Some ErrServerClosed, setStep r s StepIdle) else
      if decide (rg_byPeer r !! ss_peerAddress i = Some s) then
        let existing := rg_byIdentity r !! ss_identity i in
        let r := r <| rg_byIdentity := <[ss_identity i := s]> (rg_byIdentity r) |> in
        (None, setStep r s (match existing with Some e => if decide (e = s) then StepIdle else StepClosing e | None => StepIdle end))
      else (Some ErrPeerNotFound, setStep r s StepIdle)
  end.

(** The check after the wait. *)
Definition confirmIdentity (r : registry) (s : Z) (identity : string) : option goerr :=
  if decide (rg_byIdentity r !! identity = Some s) then None else Some ErrPeerRestart.

Definition allocatePeerIDLocked (r : registry) : option Z :=
  snd <$> list_find (λ candidate, rg_byPeerID r !! candidate = None) (seqZ 0 (rp_maxClients (rg_policy r))).

Definition enablePeerID (r : registry) (s : Z) : option goerr * registry :=
  if negb (rg_running r) then (Some ErrServerClosed, r) else
  match rg_sessions r !! s with
  | None => (Some ErrPeerNotFound, r)
  | Some i =>
      if decide (rg_byPeer r !! ss_peerAddress i = Some s) then
        match ss_peerID i with
        | Some _ => (None, r)
        | None =>
            match allocatePeerIDLocked r with
            | None => (Some ErrServerResourceLimit, r)
            | Some peerID => (None, updateSession (r <| rg_byPeerID := <[peerID := s]> (rg_byPeerID r) |>) s (λ i, i <| ss_peerID := Some peerID |>))
            end
        end
      else (Some ErrPeerNotFound, r)
  end.

(** ** Routing datagrams *)

Inductive udpPacketRoute :=
| udpPacketDeliver (session : Z)
| udpPacketUnbound
| udpPacketInitialReset
| udpPacketDrop.

Definition udpDataV2PeerID (rawPacket : bytes) : option Z :=
  match rawPacket with
  | head :: b1 :: b2 :: b3 :: _ =>
      if negb (Z.shiftr (b2z head) 3 =? OpcodeDataV2) then None else
      let peerID := Z.lor (Z.lor (Z.shiftl (b2z b1) 16) (Z.shiftl (b2z b2) 8)) (b2z b3) in
      if peerID =? peerIDMaxValue then None else Some peerID
  | _ => None
  end.

(** A session bound to an address owns a control packet that carries its id. *)
Definition ownsControl (r : registry) (bound : option Z) (clientSessionID : SessionID) : option Z :=
  s ← bound; i ← rg_sessions r !! s; if decide (ss_remoteSessionID i = clientSessionID) then Some s else None.

Definition routeUDPPacketLocked (r : registry) (rawPacket : bytes) (peerAddress : string) : udpPacketRoute :=
  match rawPacket with
  | [] => udpPacketDrop
  | head :: _ =>
      match udpDataV2PeerID rawPacket with
      | Some peerID => match rg_byPeerID r !! peerID with Some s => udpPacketDeliver s | None => udpPacketDrop end
      | None =>
          let activeSession := rg_udp r !! peerAddress in
          let initialSession := rg_initial r !! peerAddress in
          let opcode := Z.shiftr (b2z head) 3 in
          if negb (isControlOrAcknowledgmentOpcode opcode) then match activeSession with Some s => udpPacketDeliver s | None => udpPacketDrop end else
          if (length rawPacket <? tlsControlHeaderLength)%nat then udpPacketDrop else
          let clientSessionID := slice 1 tlsControlHeaderLength rawPacket in
          match ownsControl r initialSession clientSessionID, ownsControl r activeSession clientSessionID with
          | Some s, _ => udpPacketDeliver s
          | None, Some s => udpPacketDeliver s
          | None, None =>
              match activeSession, initialSession with
              | None, None => udpPacketUnbound
              | _, _ => if (opcode =? OpcodeControlHardResetClientV2) || (opcode =? OpcodeControlHardResetClientV3) then udpPacketInitialReset else udpPacketDrop
              end
          end
      end
  end.

Definition findUDPPacketRoutes (r : registry) (packets : list (bytes * string)) : list udpPacketRoute := (λ '(raw, address), routeUDPPacketLocked r raw address) <$> packets.

(** ** Changes of address *)

Definition setReadAddress (r : registry) (s : Z) (address : option netAddr) : registry := updateSession r s (λ i, i <| ss_readAddress := address |>).
Definition setRemoteAddress (r : registry) (s : Z) (address : option netAddr) : registry := updateSession r s (λ i, i <| ss_remoteAddress := address |>).

Definition floatCandidateAddress (i : serverSession) : option netAddr :=
  match ss_readAddress i with
  | None => None
  | Some address => if equalPacketSource (ss_readAddress i) (ss_remoteAddress i) then None else Some address
  end.

Definition floatUDPSessionToSource (r : registry) (s : Z) (sourceAddress : netAddr) : option Z * bool * registry :=
  match rg_sessions r !! s with
  | None => (None, false, r)
  | Some i =>
      let newAddress := addrString sourceAddress in
      if negb (bool_decide (rg_byPeer r !! ss_peerAddress i = Some s)) then (None, false, r) else
      if match ss_peerID i with Some id => negb (bool_decide (rg_byPeerID r !! id = Some s)) | None => false end then (None, false, r) else
      let existing := match rg_udp r !! newAddress with Some e => if decide (e = s) then None else Some e | None => None end in
      if match existing with
         | Some e => negb (equalClientCertificateIdentity (rg_sessions r !! e ≫= ss_certificate) (ss_certificate i))
         | None => false
         end
      then (None, false, r) else
      let r := match existing with Some e => evictSessionLocked r e | None => r end in
      let r := r <| rg_udp := <[newAddress := s]> (filter (λ p, ¬ (p.2 = s ∧ p.1 ≠ newAddress)) (rg_udp r)) |> in
      (existing, true, setRemoteAddress r s (Some sourceAddress))
  end.

Definition floatAuthenticatedUDPPeer (r : registry) (s : Z) : bool * registry :=
  match rg_sessions r !! s ≫= floatCandidateAddress with
  | None => (true, r)
  | Some sourceAddress =>
      let '(displaced, floated, r) := floatUDPSessionToSource r s sourceAddress in (floated, closeDisplaced r displaced)
  end.
