(* ===== verification/ServerSessionLaws.v ===== *)
(** * Laws of the server's registries

    The registries are consistent whatever happens, datagrams reach the sessions they
    belong to, and the session at an address is isolated from the other peers. *)

From S2P Require Import Prelude Packet Session Netip GoStrings NetipText Options Auth Supervisor Admission ControlWrap ControlChannel DataPath ServerSessions.

(** ** The life of the registries *)

(** What happens to the registries, in any order and interleaving: sessions are opened,
    lock what identifies their peer, are promoted, given peer ids, read from an address,
    move to another one, and end.  A promotion and the registration of an identity are as
    many actions as they have critical sections, so that anything can happen in between.
    The guards are what the code establishes before: a session is registered once, its
    certificate is locked once and first, it is promoted when its credentials were
    accepted, its identity is registered once, what its procedure does it does in order, and
    only a session that is no longer initial has keys with which a packet can
    authenticate. *)
Inductive registryAction :=
| ARegister (s : Z) (peerAddress : string) (address : option netAddr) (remoteSessionID : SessionID)
| AInitial (s : Z) (peerAddress : string) (address : netAddr) (remoteSessionID : SessionID)
| ACertificate (s : Z) (certificates : list (string * bytes))
| AUserPass (s : Z) (username password : string)
| APromote (s : Z)
| AReserve (s : Z)
| APeerID (s : Z)
| AIdentity (s : Z)
| AReplace (s : Z)
| AClose (s : Z)
| ARead (s : Z) (address : option netAddr)
| AFloat (s : Z)
| AFinish (s : Z)
| AStop.

Definition newServerSession (address : option netAddr) (remoteSessionID : SessionID) (reserved : bool) : serverSession :=
  mkServerSession remoteSessionID "" None "" None false None address None reserved false false StepIdle.

Section Life.
Context (duplicateCN : bool) (authenticator : option (string → string → option goerr)).

Definition addSession (r : registry) (s : Z) (i : serverSession) : registry := r <| rg_sessions := <[s := i]> (rg_sessions r) |>.

(** The credentials of a message: the session goes on when they are accepted. *)
Definition authenticate (i : serverSession) (username password : string) : serverSession :=
  let '(err, i) := verifyUserPass authenticator i username password in
  match err with Some _ => i | None => i <| ss_authenticated := true |> end.

Definition doAction (r : registry) (a : registryAction) : registry :=
  match a with
  | ARegister s peerAddress address remoteSessionID =>
      match rg_sessions r !! s with
      | Some _ => r
      | None => (registerSession (addSession r s (newServerSession address remoteSessionID true)) peerAddress s address).2
      end
  | AInitial s peerAddress address remoteSessionID =>
      match rg_sessions r !! s with
      | Some _ => r
      | None =>
          let '(res, r) := registerInitialSession (addSession r s (newServerSession (Some address) remoteSessionID false)) peerAddress s address in
          match res with Ok displaced => closeDisplaced r displaced | Err _ => r end
      end
  | ACertificate s certificates =>
      match rg_sessions r !! s with
      | Some i => if ss_certificateSet i then r else lockInitialCertificateIdentity r s certificates
      | None => r
      end
  | AUserPass s username password => updateSession r s (λ i, authenticate i username password)
  | APromote s =>
      match rg_sessions r !! s with
      | Some i => if ss_authenticated i && bool_decide (ss_step i = StepIdle) then promoteBegin r s else r
      | None => r
      end
  | AReserve s => match ss_step <$> rg_sessions r !! s with Some (StepReserving displaced) => (promoteReserve r s displaced).2 | _ => r end
  | APeerID s => (enablePeerID r s).2
  | AIdentity s =>
      match rg_sessions r !! s with
      | Some i => if bool_decide (ss_identity i = ""%string) && bool_decide (ss_step i = StepIdle) then setIdentity r s duplicateCN else r
      | None => r
      end
  | AReplace s => match ss_step <$> rg_sessions r !! s with Some StepIdentifying => (replaceIdentity r s).2 | _ => r end
  | AClose s => match ss_step <$> rg_sessions r !! s with Some (StepClosing existing) => closeReplaced r s existing | _ => r end
  | ARead s address => setReadAddress r s address
  | AFloat s =>
      match rg_sessions r !! s ≫= ss_remoteAddress with
      | Some address => if decide (rg_initial r !! addrString address = Some s) then r else (floatAuthenticatedUDPPeer r s).2
      | None => r
      end
  | AFinish s => unregisterSession (closeSession r s) s
  | AStop => r <| rg_running := false |>
  end.

Definition doActions (r : registry) (actions : list registryAction) : registry := foldl doAction r actions.

(** ** Consistency *)

Definition sessionAt (r : registry) (s : Z) (P : serverSession → Prop) : Prop := ∃ i, rg_sessions r !! s = Some i ∧ P i.

Definition boundTo (address : string) (i : serverSession) : Prop := ∃ a, ss_remoteAddress i = Some a ∧ addrString a = address.

Record registryOk (r : registry) : Prop := mkRegistryOk {
  ok_peer address s : rg_byPeer r !! address = Some s → sessionAt r s (λ i, ss_peerAddress i = address);
  ok_peerID n s : rg_byPeerID r !! n = Some s → 0 ≤ n < rp_maxClients (rg_policy r) ∧ sessionAt r s (λ i, ss_peerID i = Some n);
  ok_identity k s : rg_byIdentity r !! k = Some s → k ≠ ""%string ∧ sessionAt r s (λ i, ss_identity i = k);
  ok_udp address s : rg_udp r !! address = Some s → sessionAt r s (boundTo address);
  ok_initial address s : rg_initial r !! address = Some s → sessionAt r s (boundTo address);
}.

(** A session is about to be closed by the procedure of another. *)
Definition closing (r : registry) (s : Z) : Prop := ∃ t j, rg_sessions r !! t = Some j ∧ ss_step j = StepClosing s.

(** Sessions that are in business and have registered their identity have it for
    themselves, or are about to be closed. *)
Definition liveIdentities (r : registry) : Prop :=
  duplicateCN = false → rg_running r = true →
  ∀ s i, rg_sessions r !! s = Some i → ss_closed i = false → ss_identity i ≠ ""%string → rg_byPeer r !! ss_peerAddress i = Some s →
    ss_step i ≠ StepIdentifying → rg_byIdentity r !! ss_identity i = Some s ∨ closing r s.

Lemma updateSession_lookup r s f t : rg_sessions (updateSession r s f) !! t = if decide (s = t) then f <$> rg_sessions r !! t else rg_sessions r !! t.
Proof. unfold updateSession. cbn. destruct (decide (s = t)) as [->|Hne]; [by rewrite lookup_alter_eq | by rewrite lookup_alter_ne]. Qed.

(** An update that keeps a property of sessions keeps what the tables say. *)
Lemma sessionAt_update r s f t (P : serverSession → Prop) : (∀ i, rg_sessions r !! s = Some i → P i → P (f i)) → sessionAt r t P → sessionAt (updateSession r s f) t P.
Proof.
  intros Hf (i & Hi & HP). unfold sessionAt. rewrite updateSession_lookup. destruct (decide (s = t)) as [->|]; [|by exists i].
  rewrite Hi. exists (f i). split; [done | by apply Hf].
Qed.

(** Updates that keep everything the tables refer to. *)
Definition keepsTables (f : serverSession → serverSession) : Prop :=
  ∀ i, ss_peerAddress (f i) = ss_peerAddress i ∧ ss_peerID (f i) = ss_peerID i ∧ ss_identity (f i) = ss_identity i ∧ ss_remoteAddress (f i) = ss_remoteAddress i.

Lemma update_ok r s f : keepsTables f → registryOk r → registryOk (updateSession r s f).
Proof.
  intros Hf [H1 H2 H3 H4 H5]. constructor; cbn.
  - intros a t Ht. apply sessionAt_update; [|by apply H1]. intros i _ Hi. by destruct (Hf i) as (-> & _).
  - intros n t Ht. destruct (H2 n t Ht) as [Hn Ha]. split; [done|]. apply sessionAt_update; [|done]. intros i _ Hi. by destruct (Hf i) as (_ & -> & _).
  - intros k t Ht. destruct (H3 k t Ht) as [Hn Ha]. split; [done|]. apply sessionAt_update; [|done]. intros i _ Hi. by destruct (Hf i) as (_ & _ & -> & _).
  - intros a t Ht. apply sessionAt_update; [|by apply H4]. intros i _ Hi. unfold boundTo. by destruct (Hf i) as (_ & _ & _ & ->).
  - intros a t Ht. apply sessionAt_update; [|by apply H5]. intros i _ Hi. unfold boundTo. by destruct (Hf i) as (_ & _ & _ & ->).
Qed.

Lemma closing_update r s f t : (∀ i d, rg_sessions r !! s = Some i → ss_step i = StepClosing d → d = t → ss_step (f i) = StepClosing d) → closing r t → closing (updateSession r s f) t.
Proof.
  intros Hf (u & j & Hj & Hst). destruct (decide (s = u)) as [->|Hne].
  - exists u, (f j). rewrite updateSession_lookup, decide_True, Hj by done. split; [done|]. by apply (Hf j).
  - exists u, j. rewrite updateSession_lookup, decide_False by done. done.
Qed.

Lemma update_live r s f :
  (∀ i, ss_peerAddress (f i) = ss_peerAddress i ∧ ss_identity (f i) = ss_identity i ∧ ss_step (f i) = ss_step i) → (∀ i, ss_closed (f i) = false → ss_closed i = false) →
  liveIdentities r → liveIdentities (updateSession r s f).
Proof.
  intros Hf Hc Hl Hd Hr t i. assert (Hcl : ∀ x, closing r x → closing (updateSession r s f) x).
  { intros x. apply closing_update. intros j d _ Hj _. by destruct (Hf j) as (_ & _ & ->). }
  rewrite updateSession_lookup. destruct (decide (s = t)) as [->|].
  - intros (j & Hj & ->)%fmap_Some. destruct (Hf j) as (-> & -> & ->). intros Hclosed Hk Hp Hst.
    destruct (Hl Hd Hr t j Hj (Hc j Hclosed) Hk Hp Hst); [by left | right; by apply Hcl].
  - intros Hi Hclosed Hk Hp Hst. destruct (Hl Hd Hr t i Hi Hclosed Hk Hp Hst); [by left | right; by apply Hcl].
Qed.

(** Steps other than those of an identity that is being registered. *)
Lemma setStep_live r s i step :
  rg_sessions r !! s = Some i → ss_step i ≠ StepIdentifying → (∀ d, ss_step i ≠ StepClosing d) → liveIdentities r → liveIdentities (setStep r s step).
Proof.
  intros Hi Hni Hnc Hl Hd Hr t j. assert (Hcl : ∀ x, closing r x → closing (setStep r s step) x).
  { intros x. apply closing_update. intros k d Hk Hst. rewrite Hi in Hk. injection Hk as <-. by destruct (Hnc d). }
  unfold setStep. rewrite updateSession_lookup. destruct (decide (s = t)) as [->|].
  - rewrite Hi. intros [= <-]. cbn. intros Hclosed Hk Hp _. destruct (Hl Hd Hr t i Hi Hclosed Hk Hp Hni); [by left | right; by apply Hcl].
  - intros Hj Hclosed Hk Hp Hst. destruct (Hl Hd Hr t j Hj Hclosed Hk Hp Hst); [by left | right; by apply Hcl].
Qed.

(** *** Eviction *)

Lemma evict_tables r s i :
  rg_sessions r !! s = Some i → registryOk r →
  let r' := evictSessionLocked r s in
  rg_sessions r' = rg_sessions r ∧ rg_policy r' = rg_policy r ∧ rg_running r' = rg_running r ∧ rg_sessionCounter r' = rg_sessionCounter r ∧
  (∀ a t, rg_byPeer r' !! a = Some t ↔ rg_byPeer r !! a = Some t ∧ t ≠ s) ∧
  (∀ n t, rg_byPeerID r' !! n = Some t ↔ rg_byPeerID r !! n = Some t ∧ t ≠ s) ∧
  (∀ k t, rg_byIdentity r' !! k = Some t ↔ rg_byIdentity r !! k = Some t ∧ t ≠ s) ∧
  (∀ a t, rg_udp r' !! a = Some t ↔ rg_udp r !! a = Some t ∧ t ≠ s) ∧
  (∀ a t, rg_initial r' !! a = Some t ↔ rg_initial r !! a = Some t ∧ t ≠ s).
Proof.
  intros Hi [H1 H2 H3 H4 H5]. unfold evictSessionLocked. rewrite Hi. cbn. split_and!; try done.
  - intros a t. destruct (decide (rg_byPeer r !! ss_peerAddress i = Some s)) as [Hs|Hs].
    + rewrite lookup_delete_Some. split; [intros [Hne Ht]; split; [done|]; intros ->|intros [Ht Hne]; split; [|done]; intros <-; congruence].
      destruct (H1 a s Ht) as (j & Hj & <-). congruence.
    + split; [|by intros []]. intros Ht. split; [done|]. intros ->. destruct (H1 a s Ht) as (j & Hj & <-). simplify_eq.
  - intros n t. destruct (ss_peerID i) as [id|] eqn:Hid.
    + destruct (decide (rg_byPeerID r !! id = Some s)) as [Hs|Hs].
      * rewrite lookup_delete_Some. split; [intros [Hne Ht]; split; [done|]; intros ->|intros [Ht Hne]; split; [|done]; intros <-; congruence].
        destruct (H2 n s Ht) as (_ & j & Hj & Hjn). congruence.
      * split; [|by intros []]. intros Ht. split; [done|]. intros ->. destruct (H2 n s Ht) as (_ & j & Hj & Hjn). simplify_eq.
    + split; [|by intros []]. intros Ht. split; [done|]. intros ->. destruct (H2 n s Ht) as (_ & j & Hj & Hjn). simplify_eq.
  - intros k t. destruct (decide (ss_identity i ≠ ""%string ∧ rg_byIdentity r !! ss_identity i = Some s)) as [[Hne' Hs]|Hs].
    + rewrite lookup_delete_Some. split; [intros [Hne Ht]; split; [done|]; intros ->|intros [Ht Hne]; split; [|done]; intros <-; congruence].
      destruct (H3 k s Ht) as (_ & j & Hj & <-). congruence.
    + split; [|by intros []]. intros Ht. split; [done|]. intros ->. destruct (H3 k s Ht) as (Hk & j & Hj & Hjk). simplify_eq. by destruct Hs.
  - intros a t. by rewrite map_lookup_filter_Some.
  - intros a t. by rewrite map_lookup_filter_Some.
Qed.

Lemma evict_ok r s : registryOk r → registryOk (evictSessionLocked r s).
Proof.
  intros Hok. destruct (rg_sessions r !! s) as [i|] eqn:Hi; [|unfold evictSessionLocked; by rewrite Hi].
  destruct (evict_tables r s i Hi Hok) as (E1 & E2 & _ & _ & E5 & E6 & E7 & E8 & E9). destruct Hok as [H1 H2 H3 H4 H5].
  unfold sessionAt in *. constructor; intros x t; unfold sessionAt; rewrite ?E1, ?E2.
  - intros [Ht _]%E5. by apply H1.
  - intros [Ht _]%E6. by apply H2.
  - intros [Ht _]%E7. by apply H3.
  - intros [Ht _]%E8. by apply H4.
  - intros [Ht _]%E9. by apply H5.
Qed.

Lemma evict_live r s : registryOk r → liveIdentities r → liveIdentities (evictSessionLocked r s).
Proof.
  intros Hok Hl. destruct (rg_sessions r !! s) as [i|] eqn:Hi; [|unfold evictSessionLocked; by rewrite Hi].
  destruct (evict_tables r s i Hi Hok) as (E1 & _ & E3 & _ & E5 & _ & E7 & _). intros Hd. unfold closing. rewrite E3, E1. intros Hr t j Hj Hc Hk Ht Hst.
  apply E5 in Ht as [Ht Hne]. destruct (Hl Hd Hr t j Hj Hc Hk Ht Hst); [left; by apply E7 | by right].
Qed.

(** *** New sessions *)

Definition unreferenced (r : registry) (s : Z) : Prop :=
  (∀ a, rg_byPeer r !! a ≠ Some s) ∧ (∀ n, rg_byPeerID r !! n ≠ Some s) ∧ (∀ k, rg_byIdentity r !! k ≠ Some s) ∧
  (∀ a, rg_udp r !! a ≠ Some s) ∧ (∀ a, rg_initial r !! a ≠ Some s).

Lemma fresh_unreferenced r s : registryOk r → rg_sessions r !! s = None → unreferenced r s.
Proof.
  intros [H1 H2 H3 H4 H5] Hs. unfold unreferenced.
  split_and!; intros x Hx; [apply H1 in Hx as (i & Hi & _)|apply H2 in Hx as (_ & i & Hi & _)|apply H3 in Hx as (_ & i & Hi & _)|apply H4 in Hx as (i & Hi & _)|apply H5 in Hx as (i & Hi & _)]; congruence.
Qed.

Lemma add_ok r s i : rg_sessions r !! s = None → registryOk r → registryOk (addSession r s i).
Proof.
  intros Hs Hok. assert (Hat : ∀ t P, sessionAt r t P → sessionAt (addSession r s i) t P).
  { intros t P (j & Hj & HP). exists j. cbn. rewrite lookup_insert_ne by congruence. done. }
  destruct Hok as [H1 H2 H3 H4 H5]. constructor; cbn; intros x t Hx.
  - by apply Hat, H1.
  - destruct (H2 x t Hx). split; [done | by apply Hat].
  - destruct (H3 x t Hx). split; [done | by apply Hat].
  - by apply Hat, H4.
  - by apply Hat, H5.
Qed.

Lemma add_live r s i : rg_sessions r !! s = None → ss_identity i = ""%string → liveIdentities r → liveIdentities (addSession r s i).
Proof.
  intros Hs Hid Hl Hd Hr t j. cbn. intros Hj Hc Hk Ht Hst. apply lookup_insert_Some in Hj as [[<- <-]|[Hne Hj]]; [done|].
  destruct (Hl Hd Hr t j Hj Hc Hk Ht Hst) as [|(u & k & Hu & Hcl)]; [by left|]. right. exists u, k. cbn. rewrite lookup_insert_ne by congruence. done.
Qed.

(** Binding a session's peer address changes nothing else. *)
Lemma bind_spec r a s i :
  rg_sessions r !! s = Some i →
  ∃ address counter, bindPeerAddressLocked r a s =
    updateSession (r <| rg_sessionCounter := counter |> <| rg_byPeer := <[address := s]> (rg_byPeer r) |>) s (λ i, i <| ss_peerAddress := address |>) ∧
    (rg_byPeer r !! a = None → address = a).
Proof.
  intros Hi. unfold bindPeerAddressLocked. destruct (rg_byPeer r !! a) as [e|]; [|by eexists _, _].
  destruct (decide (e = s)); [by eexists _, _|]. destruct (numberLoop _ _ _ _) as [address counter]. by eexists _, _.
Qed.

Lemma bind_ok r a s i :
  rg_sessions r !! s = Some i → unreferenced r s → registryOk r → registryOk (bindPeerAddressLocked r a s).
Proof.
  intros Hi (U1 & U2 & U3 & U4 & U5) [H1 H2 H3 H4 H5]. destruct (bind_spec r a s i Hi) as (address & counter & -> & _).
  assert (Hat : ∀ t (P : serverSession → Prop), t ≠ s → sessionAt r t P → sessionAt (updateSession (r <| rg_sessionCounter := counter |> <| rg_byPeer := <[address := s]> (rg_byPeer r) |>) s (λ i, i <| ss_peerAddress := address |>)) t P).
  { intros t P Hne (j & Hj & HP). exists j. rewrite updateSession_lookup, decide_False by done. done. }
  constructor; cbn; intros x t Hx.
  - apply lookup_insert_Some in Hx as [[<- <-]|[Hne Hx]].
    + eexists. rewrite updateSession_lookup, decide_True by done. cbn. rewrite Hi. done.
    + apply Hat; [intros ->; by apply (U1 x)|]. by apply H1.
  - destruct (H2 x t Hx). split; [done|]. apply Hat; [intros ->; by apply (U2 x) | done].
  - destruct (H3 x t Hx). split; [done|]. apply Hat; [intros ->; by apply (U3 x) | done].
  - apply Hat; [intros ->; by apply (U4 x) | by apply H4].
  - apply Hat; [intros ->; by apply (U5 x) | by apply H5].
Qed.

Lemma bind_live r a s i :
  rg_sessions r !! s = Some i → ss_identity i = ""%string → liveIdentities r → liveIdentities (bindPeerAddressLocked r a s).
Proof.
  intros Hi Hid Hl. destruct (bind_spec r a s i Hi) as (address & counter & -> & _). intros Hd Hr t j. rewrite updateSession_lookup. cbn.
  destruct (decide (s = t)) as [<-|Hne].
  - rewrite Hi. intros [= <-]. done.
  - intros Hj Hc Hk Ht Hst. apply lookup_insert_Some in Ht as [[_ ?]|[_ Ht]]; [congruence|].
    destruct (Hl Hd Hr t j Hj Hc Hk Ht Hst) as [|Hcl]; [by left|]. right. by apply (closing_update (r <| rg_sessionCounter := counter |> <| rg_byPeer := <[address := s]> (rg_byPeer r) |>)).
Qed.

(** Adding an entry for an address to one of the tables of addresses. *)
Lemma udp_ok r address s :
  registryOk r → sessionAt r s (boundTo address) → registryOk (r <| rg_udp := <[address := s]> (rg_udp r) |>).
Proof.
  intros [H1 H2 H3 H4 H5] Hs. constructor; cbn; try done. intros x t Hx. apply lookup_insert_Some in Hx as [[<- <-]|[_ Hx]]; [done | by apply H4].
Qed.

Lemma initial_ok r address s :
  registryOk r → sessionAt r s (boundTo address) → registryOk (r <| rg_initial := <[address := s]> (rg_initial r) |>).
Proof.
  intros [H1 H2 H3 H4 H5] Hs. constructor; cbn; try done. intros x t Hx. apply lookup_insert_Some in Hx as [[<- <-]|[_ Hx]]; [done | by apply H5].
Qed.

(** Changes of the tables of addresses do not concern identities. *)
Lemma udp_live r udp : liveIdentities r → liveIdentities (r <| rg_udp := udp |>).
Proof. done. Qed.

Lemma bind_bound r a s i address :
  rg_sessions r !! s = Some i → boundTo address i → sessionAt (bindPeerAddressLocked r a s) s (boundTo address).
Proof.
  intros Hi Hb. destruct (bind_spec r a s i Hi) as (x & counter & -> & _). eexists. rewrite updateSession_lookup, decide_True by done. cbn. rewrite Hi. done.
Qed.

Lemma register_inv r s peerAddress address remote :
  rg_sessions r !! s = None → registryOk r → liveIdentities r →
  let r' := (registerSession (addSession r s (newServerSession address remote true)) peerAddress s address).2 in registryOk r' ∧ liveIdentities r'.
Proof.
  intros Hs Hok Hl. set (i := newServerSession address remote true). cbv zeta.
  pose proof (add_ok r s i Hs Hok) as Hok'. pose proof (add_live r s i Hs eq_refl Hl) as Hl'.
  assert (Hi : rg_sessions (addSession r s i) !! s = Some i) by apply lookup_insert_eq.
  assert (Hu : unreferenced (addSession r s i) s) by exact (fresh_unreferenced r s Hok Hs).
  unfold registerSession. destruct (decide (peerAddress = ""%string)); [done|]. destruct (negb _); [done|].
  destruct (match address with Some _ => _ | None => _ end); [done|]. cbn [snd].
  pose proof (bind_ok _ peerAddress s i Hi Hu Hok') as Hb. pose proof (bind_live _ peerAddress s i Hi eq_refl Hl') as Hbl.
  destruct address as [address|]; [|done]. split; [|done]. apply udp_ok; [done|].
  apply (bind_bound _ _ _ i); [done|]. by exists address.
Qed.

Lemma register_initial_inv r s peerAddress address remote :
  rg_sessions r !! s = None → registryOk r → liveIdentities r →
  let '(res, r') := registerInitialSession (addSession r s (newServerSession (Some address) remote false)) peerAddress s address in registryOk r' ∧ liveIdentities r'.
Proof.
  intros Hs Hok Hl. set (i := newServerSession (Some address) remote false).
  pose proof (add_ok r s i Hs Hok) as Hok'. pose proof (add_live r s i Hs eq_refl Hl) as Hl'.
  assert (Hi : rg_sessions (addSession r s i) !! s = Some i) by apply lookup_insert_eq.
  assert (Hu : unreferenced (addSession r s i) s) by exact (fresh_unreferenced r s Hok Hs).
  unfold registerInitialSession. destruct (decide (peerAddress = ""%string)); [done|]. destruct (negb _); [done|].
  set (displaced := match rg_initial (addSession r s i) !! addrString address with Some d => _ | None => None end).
  set (r1 := match displaced with Some d => _ | None => _ end).
  assert (H1 : registryOk r1 ∧ liveIdentities r1 ∧ rg_sessions r1 !! s = Some i ∧ unreferenced r1 s).
  { subst r1. destruct displaced as [d|]; [|done]. split_and!; [by apply evict_ok | by apply evict_live | |].
    - unfold evictSessionLocked. destruct (rg_sessions _ !! d); done.
    - destruct (rg_sessions (addSession r s i) !! d) as [j|] eqn:Hj; [|unfold evictSessionLocked; by rewrite Hj].
      destruct (evict_tables _ d j Hj Hok') as (_ & _ & _ & _ & E5 & E6 & E7 & E8 & E9). destruct Hu as (U1 & U2 & U3 & U4 & U5).
      split_and!; intros x Hx; [apply E5 in Hx|apply E6 in Hx|apply E7 in Hx|apply E8 in Hx|apply E9 in Hx]; naive_solver. }
  destruct H1 as (Hok1 & Hl1 & Hi1 & Hu1).
  pose proof (bind_ok r1 peerAddress s i Hi1 Hu1 Hok1) as Hb. pose proof (bind_live r1 peerAddress s i Hi1 eq_refl Hl1) as Hbl.
  split; [|done]. apply initial_ok; [done|]. apply (bind_bound _ _ _ i); [done|]. by exists address.
Qed.



(** *** Promotion *)

Lemma close_keeps : keepsTables (λ i, i <| ss_closed := true |>).
Proof. done. Qed.

Lemma close_inv r s : registryOk r → liveIdentities r → registryOk (closeSession r s) ∧ liveIdentities (closeSession r s).
Proof. intros Hok Hl. split; [by apply update_ok | by apply update_live]. Qed.

Lemma closeDisplaced_inv r d : registryOk r → liveIdentities r → registryOk (closeDisplaced r d) ∧ liveIdentities (closeDisplaced r d).
Proof. destruct d; [apply close_inv | done]. Qed.

Lemma deleteInitial_inv r a : registryOk r → liveIdentities r → registryOk (r <| rg_initial := delete a (rg_initial r) |>) ∧ liveIdentities (r <| rg_initial := delete a (rg_initial r) |>).
Proof.
  intros [H1 H2 H3 H4 H5] Hl. split; [|done]. constructor; cbn; try done. intros x t [_ Hx]%lookup_delete_Some. by apply H5.
Qed.

Lemma policy_ok r p : rp_maxClients p = rp_maxClients (rg_policy r) → registryOk r → registryOk (r <| rg_policy := p |>).
Proof. intros Hp [H1 H2 H3 H4 H5]. constructor; cbn; try done. intros n s Hn. rewrite Hp. by apply H2. Qed.

Lemma reserve_max p : rp_maxClients (reserveInstance p).2 = rp_maxClients p.
Proof. unfold reserveInstance. by destruct (_ <=? _). Qed.

Lemma evict_sessions r s : rg_sessions (evictSessionLocked r s) = rg_sessions r.
Proof. unfold evictSessionLocked. by destruct (rg_sessions r !! s). Qed.

Lemma promoteLocked_inv r s a :
  registryOk r → liveIdentities r → sessionAt r s (boundTo a) → registryOk (promoteLocked r s a).2 ∧ liveIdentities (promoteLocked r s a).2.
Proof.
  intros Hok Hl Hs. destruct (deleteInitial_inv r a Hok Hl) as [Hok1 Hl1]. unfold promoteLocked. cbv zeta.
  set (r1 := r <| rg_initial := delete a (rg_initial r) |>) in *. cbn [snd].
  destruct (match rg_udp r !! a with Some d => _ | None => None end) as [d|].
  - split.
    + apply udp_ok.
      * apply update_ok; [done|]. apply update_ok; [done|]. by apply evict_ok.
      * apply sessionAt_update; [done|]. apply sessionAt_update; [done|]. unfold sessionAt. rewrite evict_sessions. exact Hs.
    + apply udp_live. apply update_live; [done..|]. apply update_live; [done..|]. by apply evict_live.
  - split; [by apply udp_ok | done].
Qed.

Lemma promoteLocked_session r s a i : rg_sessions r !! s = Some i → ∃ reserved, rg_sessions (promoteLocked r s a).2 !! s = Some (i <| ss_reserved := reserved |>).
Proof.
  intros Hi. unfold promoteLocked. cbv zeta. cbn [snd]. destruct (rg_udp r !! a) as [d|]; [|exists (ss_reserved i); cbn; rewrite Hi; by destruct i].
  destruct (decide (d = s)) as [|Hne]; [exists (ss_reserved i); cbn; rewrite Hi; by destruct i|].
  eexists. cbn -[evictSessionLocked]. rewrite lookup_alter_eq, lookup_alter_ne by done. rewrite evict_sessions. cbn. by rewrite Hi.
Qed.

Lemma promoteBegin_inv r s i : rg_sessions r !! s = Some i → ss_step i = StepIdle → registryOk r → liveIdentities r → registryOk (promoteBegin r s) ∧ liveIdentities (promoteBegin r s).
Proof.
  intros Hi Hst Hok Hl. unfold promoteBegin. rewrite Hi. cbn [mbind option_bind].
  destruct (ss_remoteAddress i) as [address|] eqn:Ha; [|done]. destruct (decide _) as [Hin|]; [|done].
  assert (Hs : sessionAt r s (boundTo (addrString address))) by by apply (ok_initial r Hok).
  destruct (promoteLocked_inv r s (addrString address) Hok Hl Hs) as [Hok1 Hl1]. destruct (promoteLocked_session r s (addrString address) i Hi) as [b Hb].
  destruct (promoteLocked r s (addrString address)) as [displaced r1]. cbn [snd] in *.
  split; [by apply update_ok|]. apply (setStep_live r1 s _ _ Hb); [| |done]; cbn; by rewrite Hst.
Qed.

Lemma promoteReserve_inv r s i d displaced :
  rg_sessions r !! s = Some i → ss_step i = StepReserving d → registryOk r → liveIdentities r →
  registryOk (promoteReserve r s displaced).2 ∧ liveIdentities (promoteReserve r s displaced).2.
Proof.
  intros Hi Hst Hok Hl. unfold promoteReserve. rewrite Hi.
  assert (Hstep : ∀ r1 j step, registryOk r1 → liveIdentities r1 → rg_sessions r1 !! s = Some j → ss_step j = ss_step i → registryOk (setStep r1 s step) ∧ liveIdentities (setStep r1 s step)).
  { intros r1 j step Hok1 Hl1 Hj Hsj. split; [by apply update_ok|]. apply (setStep_live r1 s j); [done| | |done]; by rewrite Hsj, Hst. }
  destruct (ss_reserved i); [cbn [negb snd]; by apply (Hstep r i)|].
  pose proof (reserve_max (rg_policy r)) as Hmax. destruct (reserveInstance (rg_policy r)) as [granted policy]. cbn [snd] in Hmax.
  set (r1 := updateSession (r <| rg_policy := policy |>) s (λ i, i <| ss_reserved := granted |>)).
  assert (H1 : registryOk r1 ∧ liveIdentities r1) by (split; [apply update_ok; [done|]; apply policy_ok; [exact Hmax | exact Hok] | apply update_live; [done..|]; exact Hl]).
  assert (Hi1 : rg_sessions r1 !! s = Some (i <| ss_reserved := granted |>)) by (subst r1; rewrite updateSession_lookup, decide_True by done; cbn; by rewrite Hi).
  destruct H1. destruct granted; cbn [negb snd]; by eapply Hstep.
Qed.

(** *** Peer ids *)

Lemma allocate_spec r n : allocatePeerIDLocked r = Some n → 0 ≤ n < rp_maxClients (rg_policy r) ∧ rg_byPeerID r !! n = None.
Proof.
  unfold allocatePeerIDLocked. intros ([k m] & Hf & ->)%fmap_Some. apply list_find_Some in Hf as (Hm & Hn & _). cbn.
  apply list_elem_of_lookup_2, elem_of_seqZ in Hm. split; [lia | done].
Qed.

Lemma peerID_inv r s : registryOk r → liveIdentities r → registryOk (enablePeerID r s).2 ∧ liveIdentities (enablePeerID r s).2.
Proof.
  intros Hok Hl. unfold enablePeerID. destruct (negb _); [done|]. destruct (rg_sessions r !! s) as [i|] eqn:Hi; [|done].
  destruct (decide _); [|done]. destruct (ss_peerID i) as [|] eqn:Hid; [done|]. destruct (allocatePeerIDLocked r) as [n|] eqn:Hn; [|done]. cbn [snd].
  apply allocate_spec in Hn as [Hrange Hfree]. destruct Hok as [H1 H2 H3 H4 H5]. split.
  - constructor; cbn; intros x t Hx.
    + apply sessionAt_update; [done | by apply H1].
    + apply lookup_insert_Some in Hx as [[<- <-]|[Hne Hx]].
      * split; [done|]. eexists. rewrite updateSession_lookup, decide_True by done. cbn. rewrite Hi. done.
      * destruct (H2 x t Hx) as [Hx' Ht]. split; [done|]. apply sessionAt_update; [|done]. intros j Hj Hjx. cbn in Hj. congruence.
    + destruct (H3 x t Hx). split; [done|]. by apply sessionAt_update.
    + apply sessionAt_update; [done | by apply H4].
    + apply sessionAt_update; [done | by apply H5].
  - apply update_live; [done..|]. exact Hl.
Qed.

(** *** Identities *)

Lemma setIdentity_inv r s i :
  rg_sessions r !! s = Some i → ss_identity i = ""%string → ss_step i = StepIdle → registryOk r → liveIdentities r →
  registryOk (setIdentity r s duplicateCN) ∧ liveIdentities (setIdentity r s duplicateCN).
Proof.
  intros Hi Hid Hst Hok Hl. unfold setIdentity. rewrite Hi. set (k := authenticatedIdentityKey i). set (r1 := updateSession r s (λ i, i <| ss_identity := k |>)).
  assert (Hok1 : registryOk r1).
  { destruct Hok as [H1 H2 H3 H4 H5]. constructor; cbn; intros x t Hx.
    - apply sessionAt_update; [done | by apply H1].
    - destruct (H2 x t Hx). split; [done|]. by apply sessionAt_update.
    - destruct (H3 x t Hx) as [Hne Ht]. split; [done|]. apply sessionAt_update; [|done]. intros j Hj Hjx. congruence.
    - apply sessionAt_update; [done | by apply H4].
    - apply sessionAt_update; [done | by apply H5]. }
  assert (Hcl : ∀ r' f, r' = updateSession r s f → (∀ j, ss_step (f j) = ss_step j ∨ ss_step j = StepIdle) → ∀ x, closing r x → closing r' x).
  { intros r' f -> Hf x. apply closing_update. intros j d Hj Hjd _. destruct (Hf j) as [->|?]; congruence. }
  case_bool_decide as Hk.
  - cbn [orb]. split; [done|]. intros Hd Hr t j. subst r1. rewrite updateSession_lookup. destruct (decide (s = t)) as [<-|].
    + rewrite Hi. intros [= <-]. done.
    + intros Hj Hc Hjk Hjp Hjs. destruct (Hl Hd Hr t j Hj Hc Hjk Hjp Hjs); [by left|right]. eapply Hcl; [done|by left|done].
  - cbn [orb]. destruct duplicateCN eqn:Hdup; [split; [done | intros Hd; congruence]|]. split; [by apply update_ok|]. intros _ Hr t j.
    unfold setStep, r1. rewrite !updateSession_lookup. destruct (decide (s = t)) as [<-|].
    + rewrite Hi. intros [= <-]. done.
    + intros Hj Hc Hjk Hjp Hjs. destruct (Hl Hdup Hr t j Hj Hc Hjk Hjp Hjs) as [|Hx]; [by left|right].
      apply closing_update; [|by eapply Hcl; [done|by left|]]. intros j' d. rewrite updateSession_lookup, decide_True, Hi by done. intros [= <-]. cbn. congruence.
Qed.

Lemma replaceIdentity_inv r s i :
  rg_sessions r !! s = Some i → ss_identity i ≠ ""%string → ss_step i = StepIdentifying → registryOk r → liveIdentities r →
  registryOk (replaceIdentity r s).2 ∧ liveIdentities (replaceIdentity r s).2.
Proof.
  intros Hi Hid Hst Hok Hl. unfold replaceIdentity. rewrite Hi.
  assert (Hcl : ∀ step x, closing r x → closing (setStep r s step) x).
  { intros step x. apply closing_update. intros j d Hj Hjd _. congruence. }
  assert (Hno : ∀ step, (duplicateCN = false → rg_running r = true → rg_byPeer r !! ss_peerAddress i = Some s → False) → registryOk (setStep r s step) ∧ liveIdentities (setStep r s step)).
  { intros step Hno. split; [by apply update_ok|]. intros Hd Hr t j. unfold setStep. rewrite updateSession_lookup. destruct (decide (s = t)) as [<-|].
    - rewrite Hi. intros [= <-]. cbn. intros _ _ Hp. by destruct Hno.
    - intros Hj Hc Hjk Hjp Hjs. destruct (Hl Hd Hr t j Hj Hc Hjk Hjp Hjs); [by left|right; by apply Hcl]. }
  destruct (rg_running r) eqn:Hrun; cbn [negb]; [|by apply Hno]. destruct (decide _) as [Hp|Hp]; [|by apply Hno]. cbn [snd]. clear Hno.
  set (k := ss_identity i) in *. set (r1 := r <| rg_byIdentity := <[k := s]> (rg_byIdentity r) |>). set (step := match rg_byIdentity r !! k with Some e => _ | None => _ end).
  split.
  - apply update_ok; [done|]. destruct Hok as [H1 H2 H3 H4 H5]. constructor; cbn; try done. intros x t Hx. apply lookup_insert_Some in Hx as [[<- <-]|[_ Hx]]; [|by apply H3].
    split; [done|]. by exists i.
  - intros Hd Hr t j. unfold setStep. rewrite updateSession_lookup. change (rg_sessions r1) with (rg_sessions r). destruct (decide (s = t)) as [<-|Hne].
    + rewrite Hi. intros [= <-] _ _ _ _. left. cbn. apply lookup_insert_eq.
    + intros Hj Hc Hjk Hjp Hjs. destruct (Hl Hd Hrun t j Hj Hc Hjk Hjp Hjs) as [Hby|Hx]; [|right; apply (Hcl step t Hx)].
      destruct (decide (ss_identity j = k)) as [Heq|Hneq]; [|left; cbn; by rewrite lookup_insert_ne by done].
      right. exists s, (i <| ss_step := step |>). rewrite updateSession_lookup, decide_True by done. change (rg_sessions r1) with (rg_sessions r). rewrite Hi. split; [done|].
      cbn. subst step. rewrite <- Heq, Hby. by rewrite decide_False by done.
Qed.

Lemma closeReplaced_inv r s i e :
  rg_sessions r !! s = Some i → ss_step i = StepClosing e → registryOk r → liveIdentities r → registryOk (closeReplaced r s e) ∧ liveIdentities (closeReplaced r s e).
Proof.
  intros Hi Hst Hok Hl. split; [by apply update_ok, update_ok|]. intros Hd Hr t j. unfold closeReplaced, setStep, closeSession. rewrite !updateSession_lookup.
  destruct (decide (e = t)) as [<-|Het].
  { destruct (decide (s = e)); intros Hj; [apply fmap_Some in Hj as (j1 & Hj & ->)|]; apply fmap_Some in Hj as (j2 & _ & ->); done. }
  intros Hj Hc Hk Hp Hjs.
  assert (Hold : ∃ j0, rg_sessions r !! t = Some j0 ∧ ss_closed j0 = ss_closed j ∧ ss_identity j0 = ss_identity j ∧ ss_peerAddress j0 = ss_peerAddress j ∧ ss_step j0 ≠ StepIdentifying).
  { destruct (decide (s = t)) as [<-|]; [|by exists j]. apply fmap_Some in Hj as (j0 & Hj0 & ->). exists j0. split_and!; try done. rewrite Hi in Hj0. injection Hj0 as <-. by rewrite Hst. }
  destruct Hold as (j0 & Hj0 & E1 & E2 & E3 & E4). rewrite <- E1 in Hc. rewrite <- E2 in Hk |- *. rewrite <- E3 in Hp.
  destruct (Hl Hd Hr t j0 Hj0 Hc Hk Hp E4) as [|Hx]; [by left|right].
  apply closing_update; [|by apply closing_update]. intros j' d. rewrite updateSession_lookup. intros Hj' Hd' ->.
  destruct (decide (e = s)) as [->|]; [apply fmap_Some in Hj' as (j'' & Hj'' & ->); cbn in Hd'|]; congruence.
Qed.

(** *** Changes of address *)

Lemma float_spec r s source displaced r' :
  floatUDPSessionToSource r s source = (displaced, true, r') →
  ∃ i, rg_sessions r !! s = Some i ∧ (∀ d, displaced = Some d → rg_udp r !! addrString source = Some d ∧ d ≠ s ∧
      equalClientCertificateIdentity (rg_sessions r !! d ≫= ss_certificate) (ss_certificate i) = true) ∧
    (displaced = None → rg_udp r !! addrString source = None ∨ rg_udp r !! addrString source = Some s) ∧
    let r1 := match displaced with Some d => evictSessionLocked r d | None => r end in
    r' = setRemoteAddress (r1 <| rg_udp := <[addrString source := s]> (filter (λ p, ¬ (p.2 = s ∧ p.1 ≠ addrString source)) (rg_udp r1)) |>) s (Some source).
Proof.
  unfold floatUDPSessionToSource. destruct (rg_sessions r !! s) as [i|]; [|done].
  destruct (negb _); [done|]. destruct (match ss_peerID i with Some _ => _ | None => _ end); [done|].
  destruct (rg_udp r !! addrString source) as [e|] eqn:He.
  - destruct (decide (e = s)) as [->|Hne].
    + intros [= <- <-]. exists i. split_and!; try done. by right.
    + destruct (equalClientCertificateIdentity _ _) eqn:Hc; [|done]. cbn [negb]. intros [= <- <-]. exists i. split_and!; try done. by intros d [= <-].
  - intros [= <- <-]. exists i. split_and!; try done. by left.
Qed.

Lemma float_failed r s source displaced r' : floatUDPSessionToSource r s source = (displaced, false, r') → displaced = None ∧ r' = r.
Proof.
  unfold floatUDPSessionToSource. destruct (rg_sessions r !! s) as [i|]; [|by intros [= <- <-]].
  destruct (negb _); [by intros [= <- <-]|]. destruct (match ss_peerID i with Some _ => _ | None => _ end); [by intros [= <- <-]|].
  destruct (match match rg_udp r !! addrString source with Some e => _ | None => None end with Some _ => _ | None => _ end); [by intros [= <- <-] | done].
Qed.

Lemma float_inv r s i address :
  rg_sessions r !! s = Some i → ss_remoteAddress i = Some address → rg_initial r !! addrString address ≠ Some s →
  registryOk r → liveIdentities r → registryOk (floatAuthenticatedUDPPeer r s).2 ∧ liveIdentities (floatAuthenticatedUDPPeer r s).2.
Proof.
  intros Hi Ha Hno Hok Hl. unfold floatAuthenticatedUDPPeer. rewrite Hi. cbn [mbind option_bind]. destruct (floatCandidateAddress i) as [source|]; [|done].
  destruct (floatUDPSessionToSource r s source) as [[displaced [|]] r'] eqn:Hf.
  2:{ apply float_failed in Hf as [-> ->]. done. }
  apply float_spec in Hf as (j & Hj & Hd & _ & Hr'). rewrite Hi in Hj. injection Hj as <-. cbn [snd]. cbv zeta in Hr'.
  set (r1 := match displaced with Some d => evictSessionLocked r d | None => r end) in *.
  assert (H1 : registryOk r1 ∧ liveIdentities r1 ∧ rg_sessions r1 = rg_sessions r ∧ ∀ a, rg_initial r1 !! a ≠ Some s).
  { assert (Hinit : ∀ a, rg_initial r !! a ≠ Some s).
    { intros a Hin. destruct (ok_initial r Hok a s Hin) as (k & Hk & b & Hb & Hba). rewrite Hi in Hk. by simplify_eq. }
    subst r1. destruct displaced as [d|]; [|done]. split_and!; [by apply evict_ok | by apply evict_live | apply evict_sessions |].
    intros a. destruct (Hd d eq_refl) as (Hud & Hds & _). destruct (ok_udp r Hok _ _ Hud) as (k & Hk & _).
    destruct (evict_tables r d k Hk Hok) as (_ & _ & _ & _ & _ & _ & _ & _ & E9). intros [Hin _]%E9. by apply (Hinit a). }
  destruct H1 as (Hok1 & Hl1 & Hs1 & Hinit). clearbody r1. apply closeDisplaced_inv.
  - subst r'. destruct Hok1 as [K1 K2 K3 K4 K5]. constructor; cbn; intros x t Hx.
    + apply sessionAt_update; [done | by apply K1].
    + destruct (K2 x t Hx). split; [done|]. by apply sessionAt_update.
    + destruct (K3 x t Hx). split; [done|]. by apply sessionAt_update.
    + apply lookup_insert_Some in Hx as [[<- <-]|[Hne Hx]].
      * eexists. unfold setRemoteAddress. rewrite updateSession_lookup, decide_True by done. cbn. rewrite Hs1, Hi. split; [done|]. by exists source.
      * apply map_lookup_filter_Some in Hx as [Hx Hkeep]. destruct (K4 x t Hx) as (j & Hj & Hb). exists j.
        unfold setRemoteAddress. rewrite updateSession_lookup, decide_False; [done|]. intros <-. by destruct Hkeep.
    + destruct (K5 x t Hx) as (j & Hj & Hb). exists j. unfold setRemoteAddress. rewrite updateSession_lookup, decide_False; [done|]. intros <-. by apply (Hinit x).
  - subst r'. apply update_live; [done..|]. by apply udp_live.
Qed.

(** *** What sessions know *)

(** The peer's credentials were accepted: some password of the username the session has
    locked. *)
Definition accepted (i : serverSession) : Prop :=
  match authenticator with None => True | Some f => ∃ username password, ss_username i = Some username ∧ f username password = None end.

Definition sessionOk (i : serverSession) : Prop :=
  (ss_step i = StepIdentifying → ss_identity i ≠ ""%string) ∧ (ss_authenticated i = true → accepted i).

Definition sessionsOk (r : registry) : Prop := ∀ s i, rg_sessions r !! s = Some i → sessionOk i.

Lemma sessionsOk_update r s f : (∀ i, rg_sessions r !! s = Some i → sessionOk i → sessionOk (f i)) → sessionsOk r → sessionsOk (updateSession r s f).
Proof.
  intros Hf H t i. rewrite updateSession_lookup. destruct (decide (s = t)) as [<-|]; [|apply H].
  intros (j & Hj & ->)%fmap_Some. apply Hf; [done | by apply (H s)].
Qed.

Lemma sessionsOk_same r r' : rg_sessions r' = rg_sessions r → sessionsOk r → sessionsOk r'.
Proof. intros E H s i. rewrite E. apply H. Qed.

Lemma authenticate_spec i u w : ∃ username b, authenticate i u w = i <| ss_username := username |> <| ss_authenticated := b |>.
Proof.
  unfold authenticate, verifyUserPass, lockAuthenticatedUsername. assert (Hsame : ∃ username b, i = i <| ss_username := username |> <| ss_authenticated := b |>)
    by (exists (ss_username i), (ss_authenticated i); by destruct i).
  assert (Htrue : ∃ username b, i <| ss_authenticated := true |> = i <| ss_username := username |> <| ss_authenticated := b |>)
    by (exists (ss_username i), true; by destruct i).
  destruct authenticator as [f|]; [|done]. destruct (f u w); [done|]. destruct (ss_username i); [case_bool_decide; done|]. exists (Some u), true. by destruct i.
Qed.

Lemma authenticate_ok i u w : sessionOk i → sessionOk (authenticate i u w).
Proof.
  unfold sessionOk, accepted, authenticate, verifyUserPass, lockAuthenticatedUsername. intros [H1 H2]. destruct authenticator as [f|]; [|done].
  destruct (f u w) eqn:E; [done|]. destruct (ss_username i) as [name|] eqn:Hn; [case_bool_decide as Hu|]; cbn.
  - split; [done|]. intros _. exists u, w. subst name. done.
  - split; [done|]. intros Ha. destruct (H2 Ha) as (x & y & Hx & Hf). exists x, y. split; [congruence | done].
  - split; [done|]. intros _. by exists u, w.
Qed.

Lemma bind_sessions r a s : sessionsOk r → sessionsOk (bindPeerAddressLocked r a s).
Proof.
  intros H. unfold bindPeerAddressLocked. destruct (match rg_byPeer r !! a with Some _ => _ | None => _ end). by apply sessionsOk_update.
Qed.

Lemma add_sessions r s i : sessionOk i → sessionsOk r → sessionsOk (addSession r s i).
Proof. intros Hi H t j Hj. cbn in Hj. apply lookup_insert_Some in Hj as [[_ <-]|[_ Hj]]; [done | by apply (H t)]. Qed.

Lemma evict_sessionsOk r s : sessionsOk r → sessionsOk (evictSessionLocked r s).
Proof. apply sessionsOk_same, evict_sessions. Qed.

Lemma closeDisplaced_sessions r d : sessionsOk r → sessionsOk (closeDisplaced r d).
Proof. intros H. destruct d; [|done]. by apply sessionsOk_update. Qed.

Lemma setStep_sessions r s step : step ≠ StepIdentifying → sessionsOk r → sessionsOk (setStep r s step).
Proof. intros Hs. apply sessionsOk_update. intros i _ [_ H]. by split. Qed.

Lemma promote_sessions r s a : sessionsOk r → sessionsOk (promoteLocked r s a).2.
Proof.
  intros H. unfold promoteLocked. cbv zeta. cbn [snd]. destruct (match rg_udp r !! a with Some d => _ | None => None end) as [d|]; [|done].
  apply (sessionsOk_same (updateSession (updateSession (evictSessionLocked (r <| rg_initial := delete a (rg_initial r) |>) d) d (λ i, i <| ss_reserved := false |>)) s
    (λ i, i <| ss_reserved := match rg_sessions r !! d with Some i => ss_reserved i | None => false end |>))); [done|].
  apply sessionsOk_update; [done|]. apply sessionsOk_update; [done|]. by apply evict_sessionsOk.
Qed.

Lemma doAction_sessions r a : sessionsOk r → sessionsOk (doAction r a).
Proof.
  intros H. destruct a as [s p address remote|s p address remote|s cs|s u w|s|s|s|s|s|s|s address|s|s|]; cbn [doAction].
  - destruct (rg_sessions r !! s) eqn:Hs; [done|]. assert (H0 : sessionsOk (addSession r s (newServerSession address remote true))) by by apply add_sessions.
    unfold registerSession. destruct (decide _); [done|]. destruct (negb _); [done|]. destruct (match address with Some _ => _ | None => _ end); [done|]. cbn [snd].
    destruct address; by apply bind_sessions.
  - destruct (rg_sessions r !! s) eqn:Hs; [done|]. set (i := newServerSession (Some address) remote false).
    assert (H0 : sessionsOk (addSession r s i)) by by apply add_sessions. unfold registerInitialSession.
    destruct (decide _); [done|]. destruct (negb _); [done|]. apply closeDisplaced_sessions.
    set (displaced := match _ !! addrString address with Some d => _ | None => None end). apply (bind_sessions (match displaced with Some d => evictSessionLocked (addSession r s i) d | None => addSession r s i end) p s).
    destruct displaced; [by apply evict_sessionsOk | done].
  - destruct (rg_sessions r !! s) as [i|]; [|done]. destruct (ss_certificateSet i); [done|]. by apply sessionsOk_update.
  - apply sessionsOk_update; [|done]. intros i _. apply authenticate_ok.
  - destruct (rg_sessions r !! s) as [i|] eqn:Hi; [|done]. destruct (_ && _); [|done]. unfold promoteBegin.
    destruct (rg_sessions r !! s ≫= ss_remoteAddress) as [remote|]; [|done]. destruct (decide _); [|done].
    pose proof (promote_sessions r s (addrString remote) H) as H1. destruct (promoteLocked r s (addrString remote)) as [d r1]. by apply setStep_sessions.
  - destruct (ss_step <$> rg_sessions r !! s) as [[]|]; try done. unfold promoteReserve.
    destruct (match rg_sessions r !! s with Some i => ss_reserved i | None => false end); [cbn [negb snd]; apply setStep_sessions; [by destruct displaced | done]|].
    destruct (reserveInstance (rg_policy r)) as [[|] policy]; cbn [negb snd]; (apply setStep_sessions; [by destruct displaced | by apply sessionsOk_update]).
  - unfold enablePeerID. destruct (negb _); [done|]. destruct (rg_sessions r !! s) as [i|]; [|done]. destruct (decide _); [|done].
    destruct (ss_peerID i); [done|]. destruct (allocatePeerIDLocked r); [|done]. by apply sessionsOk_update.
  - destruct (rg_sessions r !! s) as [i|] eqn:Hi; [|done]. do 2 (case_bool_decide; [|done]). cbn [andb]. unfold setIdentity. rewrite Hi.
    set (k := authenticatedIdentityKey i). set (r1 := updateSession r s (λ i, i <| ss_identity := k |>)).
    case_bool_decide as Hk; cbn [orb]; [apply sessionsOk_update; [|done]; intros j Hj [_ H2]; rewrite Hi in Hj; injection Hj as <-; split; [cbn; congruence|done]|].
    destruct duplicateCN; [apply sessionsOk_update; [|done]; intros j Hj [_ H2]; rewrite Hi in Hj; injection Hj as <-; split; [cbn; congruence|done]|].
    intros t j. subst r1. unfold setStep. rewrite !updateSession_lookup. destruct (decide (s = t)) as [<-|]; [|apply H].
    rewrite Hi. intros [= <-]. split; [done|]. apply (H s i Hi).
  - destruct (ss_step <$> rg_sessions r !! s) as [[]|]; try done. unfold replaceIdentity. destruct (rg_sessions r !! s) as [i|]; [|done].
    destruct (negb _); [by apply setStep_sessions|]. destruct (decide _); [|by apply setStep_sessions]. cbn [snd]. apply setStep_sessions; [|done].
    destruct (rg_byIdentity r !! _) as [x|]; [|done]. by destruct (decide (x = s)).
  - destruct (ss_step <$> rg_sessions r !! s) as [[]|]; try done. apply setStep_sessions; [done|]. by apply sessionsOk_update.
  - by apply sessionsOk_update.
  - destruct (rg_sessions r !! s ≫= ss_remoteAddress) as [remote|]; [|done]. destruct (decide _); [done|]. unfold floatAuthenticatedUDPPeer.
    destruct (rg_sessions r !! s ≫= floatCandidateAddress) as [source|]; [|done].
    destruct (floatUDPSessionToSource r s source) as [[displaced [|]] r'] eqn:Hf; cbn [snd]; apply closeDisplaced_sessions.
    + apply float_spec in Hf as (j & _ & _ & _ & ->). cbv zeta. apply sessionsOk_update; [done|]. destruct displaced; [by apply (evict_sessionsOk r) | done].
    + by apply float_failed in Hf as [_ ->].
  - apply evict_sessionsOk. by apply sessionsOk_update.
  - done.
Qed.

(** *** Every action *)

Lemma doAction_inv r a : sessionsOk r → registryOk r → liveIdentities r → registryOk (doAction r a) ∧ liveIdentities (doAction r a).
Proof.
  intros Hid Hok Hl. destruct a as [s p address remote|s p address remote|s cs|s u w|s|s|s|s|s|s|s address|s|s|]; cbn [doAction].
  - destruct (rg_sessions r !! s) eqn:Hs; [done|]. by apply register_inv.
  - destruct (rg_sessions r !! s) eqn:Hs; [done|]. pose proof (register_initial_inv r s p address remote Hs Hok Hl) as Hi.
    destruct (registerInitialSession _ p s address) as [[d|e] r']; [|done]. destruct Hi. by apply closeDisplaced_inv.
  - destruct (rg_sessions r !! s) as [i|]; [|done]. destruct (ss_certificateSet i); [done|]. split; [by apply update_ok | by apply update_live].
  - split; [apply update_ok; [|done] | apply update_live; [| |done]]; intros i; destruct (authenticate_spec i u w) as (username & b & ->); done.
  - destruct (rg_sessions r !! s) as [i|] eqn:Hi; [|done]. destruct (ss_authenticated i); [|done]. cbn [andb]. case_bool_decide; [|done]. by apply (promoteBegin_inv r s i).
  - destruct (rg_sessions r !! s) as [i|] eqn:Hi; [|done]. cbn. destruct (ss_step i) eqn:Hst; try done. by eapply promoteReserve_inv.
  - by apply peerID_inv.
  - destruct (rg_sessions r !! s) as [i|] eqn:Hi; [|done]. do 2 (case_bool_decide; [|done]). cbn [andb]. by apply (setIdentity_inv r s i).
  - destruct (rg_sessions r !! s) as [i|] eqn:Hi; [|done]. cbn. destruct (ss_step i) eqn:Hst; try done. apply (replaceIdentity_inv r s i); try done. by apply (proj1 (Hid s i Hi)).
  - destruct (rg_sessions r !! s) as [i|] eqn:Hi; [|done]. cbn. destruct (ss_step i) eqn:Hst; try done. by apply (closeReplaced_inv r s i).
  - split; [by apply update_ok | by apply update_live].
  - destruct (rg_sessions r !! s) as [i|] eqn:Hi; [|done]. cbn [mbind option_bind]. destruct (ss_remoteAddress i) as [address|] eqn:Ha; [|done].
    destruct (decide _) as [|Hno]; [done|]. by apply (float_inv r s i address).
  - destruct (close_inv r s Hok Hl) as [Hok1 Hl1]. split; [by apply evict_ok | by apply evict_live].
  - split; [by destruct Hok | by intros ? ?].
Qed.

Definition emptyRegistry (policy : serverResourcePolicy) : registry := mkRegistry ∅ ∅ ∅ ∅ ∅ ∅ 0 true policy.

Definition registryInv (r : registry) : Prop := sessionsOk r ∧ registryOk r ∧ liveIdentities r.

Lemma empty_inv policy : registryInv (emptyRegistry policy).
Proof. split_and!; [by intros s i | by constructor | by intros ? ? s i Hi]. Qed.

Lemma actions_inv r actions : registryInv r → registryInv (doActions r actions).
Proof.
  unfold doActions. revert r. induction actions as [|a actions IH]; intros r (Hs & Hok & Hl); [done|]. cbn. apply IH.
  split; [by apply doAction_sessions | by apply doAction_inv].
Qed.

(** A session is in at most one of the tables of addresses. *)
Definition disjointTables (r : registry) : Prop := ∀ a b s, rg_initial r !! a = Some s → rg_udp r !! b ≠ Some s.

Lemma bind_addresses r a s : rg_udp (bindPeerAddressLocked r a s) = rg_udp r ∧ rg_initial (bindPeerAddressLocked r a s) = rg_initial r ∧ rg_byPeerID (bindPeerAddressLocked r a s) = rg_byPeerID r.
Proof. unfold bindPeerAddressLocked. by destruct (match rg_byPeer r !! a with Some _ => _ | None => _ end). Qed.

Lemma evict_shrinks r s :
  registryOk r → (∀ a t, rg_udp (evictSessionLocked r s) !! a = Some t → rg_udp r !! a = Some t) ∧
  (∀ a t, rg_initial (evictSessionLocked r s) !! a = Some t → rg_initial r !! a = Some t).
Proof.
  intros Hok. destruct (rg_sessions r !! s) as [i|] eqn:Hi; [|unfold evictSessionLocked; by rewrite Hi].
  destruct (evict_tables r s i Hi Hok) as (_ & _ & _ & _ & _ & _ & _ & E8 & E9). split; intros a t Ht; [by apply E8 in Ht as [] | by apply E9 in Ht as []].
Qed.

Lemma promoteLocked_tables r s a :
  let r' := (promoteLocked r s a).2 in
  ∃ r1, (r1 = r <| rg_initial := delete a (rg_initial r) |> ∨ ∃ d, rg_udp r !! a = Some d ∧ d ≠ s ∧ r1 = evictSessionLocked (r <| rg_initial := delete a (rg_initial r) |>) d) ∧
    rg_udp r' = <[a := s]> (rg_udp r1) ∧ rg_initial r' = rg_initial r1 ∧ rg_byPeerID r' = rg_byPeerID r1.
Proof.
  unfold promoteLocked. cbv zeta. cbn [snd]. destruct (rg_udp r !! a) as [d|]; [|eexists; split; [by left | done]].
  destruct (decide (d = s)); [eexists; split; [by left | done]|]. eexists. split; [right; by exists d | done].
Qed.

Lemma promote_tables r s :
  let r' := promoteBegin r s in
  r' = r ∨ ∃ i address, rg_sessions r !! s = Some i ∧ ss_remoteAddress i = Some address ∧ rg_initial r !! addrString address = Some s ∧
    rg_udp r' = rg_udp (promoteLocked r s (addrString address)).2 ∧ rg_initial r' = rg_initial (promoteLocked r s (addrString address)).2 ∧
    rg_byPeerID r' = rg_byPeerID (promoteLocked r s (addrString address)).2.
Proof.
  unfold promoteBegin. destruct (rg_sessions r !! s) as [i|] eqn:Hi; [|by left]. cbn [mbind option_bind].
  destruct (ss_remoteAddress i) as [address|] eqn:Ha; [|by left]. destruct (decide _) as [Hin|]; [|by left]. right. exists i, address.
  destruct (promoteLocked r s (addrString address)) as [displaced r1]. done.
Qed.

(** The actions that leave the tables of addresses and of peer ids as they are. *)
Definition sameRoutes (r r' : registry) : Prop := rg_udp r' = rg_udp r ∧ rg_initial r' = rg_initial r ∧ rg_byPeerID r' = rg_byPeerID r.

Lemma reserve_routes r s displaced : sameRoutes r (promoteReserve r s displaced).2.
Proof.
  unfold promoteReserve. destruct (match rg_sessions r !! s with Some i => ss_reserved i | None => false end); [done|].
  by destruct (reserveInstance (rg_policy r)) as [[|] policy].
Qed.

Lemma setIdentity_routes r s : sameRoutes r (setIdentity r s duplicateCN).
Proof. unfold setIdentity. destruct (rg_sessions r !! s); [|done]. by destruct (_ || duplicateCN). Qed.

Lemma replaceIdentity_routes r s : sameRoutes r (replaceIdentity r s).2.
Proof. unfold replaceIdentity. destruct (rg_sessions r !! s); [|done]. destruct (negb _); [done|]. by destruct (decide _). Qed.

Lemma sameRoutes_disjoint r r' : sameRoutes r r' → disjointTables r → disjointTables r'.
Proof. intros (E1 & E2 & _) Hd x y t. rewrite E1, E2. apply Hd. Qed.

Lemma float_outcome r s i :
  rg_sessions r !! s = Some i →
  let r' := (floatAuthenticatedUDPPeer r s).2 in
  (rg_udp r' = rg_udp r ∧ rg_initial r' = rg_initial r ∧ rg_byPeerID r' = rg_byPeerID r) ∨
  ∃ source r1, ss_readAddress i = Some source ∧
    ((r1 = r ∧ (rg_udp r !! addrString source = None ∨ rg_udp r !! addrString source = Some s)) ∨
     ∃ d, rg_udp r !! addrString source = Some d ∧ d ≠ s ∧ equalClientCertificateIdentity (rg_sessions r !! d ≫= ss_certificate) (ss_certificate i) = true ∧ r1 = evictSessionLocked r d) ∧
    rg_udp r' = <[addrString source := s]> (filter (λ p, ¬ (p.2 = s ∧ p.1 ≠ addrString source)) (rg_udp r1)) ∧ rg_initial r' = rg_initial r1 ∧ rg_byPeerID r' = rg_byPeerID r1.
Proof.
  intros Hi. unfold floatAuthenticatedUDPPeer. rewrite Hi. cbn [mbind option_bind]. destruct (floatCandidateAddress i) as [source|] eqn:Hc; [|by left].
  assert (Hread : ss_readAddress i = Some source).
  { unfold floatCandidateAddress in Hc. destruct (ss_readAddress i); [|done]. by destruct (equalPacketSource _ _). }
  destruct (floatUDPSessionToSource r s source) as [[displaced [|]] r'] eqn:Hf.
  2:{ apply float_failed in Hf as [-> ->]. by left. }
  apply float_spec in Hf as (j & Hj & Hd & Hn & Hr'). rewrite Hi in Hj. injection Hj as <-. cbv zeta in Hr'. right.
  exists source, (match displaced with Some d => evictSessionLocked r d | None => r end). split; [done|]. split.
  - destruct displaced as [d|]; [right | left; split; [done | by apply Hn]]. destruct (Hd d eq_refl) as (H1 & H2 & H3). by exists d.
  - subst r'. by destruct displaced.
Qed.

(** The initial sessions of a state that is consistent are those bound to the address. *)
Lemma initial_bound r i s address x :
  registryOk r → rg_sessions r !! s = Some i → ss_remoteAddress i = Some address → rg_initial r !! x = Some s → x = addrString address.
Proof. intros Hok Hi Ha Hx. destruct (ok_initial r Hok x s Hx) as (j & Hj & b & Hb & <-). by simplify_eq. Qed.

Lemma doAction_disjoint r a : registryOk r → disjointTables r → disjointTables (doAction r a).
Proof.
  intros Hok Hd. destruct a as [s p address remote|s p address remote|s cs|s u w|s|s|s|s|s|s|s address|s|s|]; cbn [doAction]; try done.
  - destruct (rg_sessions r !! s) eqn:Hs; [done|]. destruct (fresh_unreferenced r s Hok Hs) as (_ & _ & _ & _ & U5). unfold registerSession.
    destruct (decide (p = ""%string)); [done|]. destruct (negb _); [done|]. destruct (match address with Some _ => _ | None => _ end); [done|]. cbn [snd].
    intros x y t. destruct address as [address|]; cbn; rewrite ?(proj1 (bind_addresses _ p s)), ?(proj1 (proj2 (bind_addresses _ p s))); cbn; [|apply Hd].
    intros Hx. rewrite lookup_insert_Some. intros [[_ <-]|[_ Hy]]; [by apply (U5 x) | by apply (Hd x y t)].
  - destruct (rg_sessions r !! s) eqn:Hs; [done|]. destruct (fresh_unreferenced r s Hok Hs) as (_ & _ & _ & U4 & _). unfold registerInitialSession.
    destruct (decide (p = ""%string)); [done|]. destruct (negb _); [done|].
    set (displaced := match rg_initial _ !! _ with Some d => _ | None => None end). set (r0 := addSession r s _) in *.
    assert (Hd0 : registryOk r0) by by apply add_ok.
    set (r1 := match displaced with Some d => evictSessionLocked r0 d | None => r0 end).
    assert (Hshrink : (∀ a t, rg_udp r1 !! a = Some t → rg_udp r !! a = Some t) ∧ (∀ a t, rg_initial r1 !! a = Some t → rg_initial r !! a = Some t)).
    { subst r1. destruct displaced as [d|]; [|done]. by apply (evict_shrinks r0 d). }
    assert (Hdis : disjointTables ((bindPeerAddressLocked r1 p s) <| rg_initial := <[addrString address := s]> (rg_initial (bindPeerAddressLocked r1 p s)) |>)).
    { intros x y t. cbn. rewrite (proj1 (bind_addresses r1 p s)), (proj1 (proj2 (bind_addresses r1 p s))). rewrite lookup_insert_Some.
      intros [[_ <-]|[_ Hx]] Hy; apply Hshrink in Hy; [by apply (U4 y)|]. apply Hshrink in Hx. by apply (Hd x y t). }
    by destruct displaced.
  - destruct (rg_sessions r !! s) as [i|]; [|done]. by destruct (ss_certificateSet i).
  - destruct (rg_sessions r !! s) as [i0|]; [|done]. destruct (_ && _); [|done].
    destruct (promote_tables r s) as [-> | (i & address & Hi & Ha & Hin & E1 & E2 & _)]; [done|].
    destruct (promoteLocked_tables r s (addrString address)) as (r1 & Hr1 & F1 & F2 & _). intros x y t. rewrite E1, E2, F1, F2.
    assert (Hsh : (∀ a t, rg_udp r1 !! a = Some t → rg_udp r !! a = Some t) ∧ (∀ a t, rg_initial r1 !! a = Some t → a ≠ addrString address ∧ rg_initial r !! a = Some t)).
    { assert (Hok' : registryOk (r <| rg_initial := delete (addrString address) (rg_initial r) |>)).
      { destruct Hok as [H1 H2 H3 H4 H5]. constructor; cbn; try done. intros z u [_ Hz]%lookup_delete_Some. by apply H5. }
      destruct Hr1 as [-> | (d & _ & _ & ->)].
      - split; [done|]. cbn. intros z u [Hne Hz]%lookup_delete_Some. done.
      - destruct (evict_shrinks _ d Hok') as [S1 S2]. split; [done|]. intros z u Hz%S2. cbn in Hz. apply lookup_delete_Some in Hz as [Hne Hz]. done. }
    intros [Hne Hx]%Hsh. rewrite lookup_insert_Some. intros [[_ <-]|[_ Hy]].
    + apply Hne. by apply (initial_bound r i s address x).
    + apply Hsh in Hy. by apply (Hd x y t).
  - destruct (ss_step <$> rg_sessions r !! s) as [[]|]; try done. by eapply sameRoutes_disjoint; [apply reserve_routes|].
  - unfold enablePeerID. destruct (negb _); [done|]. destruct (rg_sessions r !! s) as [i|]; [|done]. destruct (decide _); [|done].
    destruct (ss_peerID i); [done|]. by destruct (allocatePeerIDLocked r).
  - destruct (rg_sessions r !! s) as [i|]; [|done]. destruct (_ && _); [|done]. by eapply sameRoutes_disjoint; [apply setIdentity_routes|].
  - destruct (ss_step <$> rg_sessions r !! s) as [[]|]; try done. by eapply sameRoutes_disjoint; [apply replaceIdentity_routes|].
  - by destruct (ss_step <$> rg_sessions r !! s) as [[]|].
  - destruct (rg_sessions r !! s) as [i|] eqn:Hi; [|done]. cbn [mbind option_bind]. destruct (ss_remoteAddress i) as [address|] eqn:Ha; [|done].
    destruct (decide _) as [|Hno]; [done|]. destruct (float_outcome r s i Hi) as [(E1 & E2 & _)|(source & r1 & _ & Hr1 & E1 & E2 & _)].
    { intros x y t. rewrite E1, E2. apply Hd. }
    assert (Hsh : (∀ a t, rg_udp r1 !! a = Some t → rg_udp r !! a = Some t) ∧ (∀ a t, rg_initial r1 !! a = Some t → rg_initial r !! a = Some t)).
    { destruct Hr1 as [[-> _]|(d & _ & _ & _ & ->)]; [done | by apply evict_shrinks]. }
    intros x y t. rewrite E1, E2. intros Hx%Hsh. rewrite lookup_insert_Some. intros [[_ <-]|[_ Hy]].
    + pose proof (initial_bound r i s address x Hok Hi Ha Hx) as ->. done.
    + apply map_lookup_filter_Some in Hy as [Hy%Hsh _]. by apply (Hd x y t).
  - unfold unregisterSession. assert (Hc : registryOk (closeSession r s)) by by apply update_ok.
    intros x y t Hx Hy. apply (evict_shrinks _ s Hc) in Hx, Hy. by apply (Hd x y t).
Qed.

(** ** Isolation *)

(** What takes the place of the session bound to an address: its end, its own move, a
    session that negotiated at the same address and whose peer's credentials were accepted,
    or one that moves to the address and has an equal certificate identity: the same
    certificate, or none as the session has none. *)
Definition supersedes (r : registry) (s : Z) (address : string) (a : registryAction) : Prop :=
  a = AFinish s ∨ a = AFloat s ∨
  (∃ t i, a = APromote t ∧ rg_initial r !! address = Some t ∧ rg_sessions r !! t = Some i ∧ ss_authenticated i = true ∧ accepted i) ∨
  (∃ t i, a = AFloat t ∧ rg_sessions r !! t = Some i ∧ (addrString <$> ss_readAddress i) = Some address ∧
     equalClientCertificateIdentity (rg_sessions r !! s ≫= ss_certificate) (ss_certificate i) = true).

Definition keepsRoutes (r r' : registry) (s : Z) (address : string) : Prop :=
  rg_udp r' !! address = Some s ∧ ∀ n, rg_byPeerID r !! n = Some s → rg_byPeerID r' !! n = Some s.

Lemma evict_keeps r d s address :
  registryOk r → d ≠ s → rg_udp r !! address = Some s → keepsRoutes r (evictSessionLocked r d) s address.
Proof.
  intros Hok Hne Hs. destruct (rg_sessions r !! d) as [i|] eqn:Hi; [|unfold evictSessionLocked; by rewrite Hi].
  destruct (evict_tables r d i Hi Hok) as (_ & _ & _ & _ & _ & E6 & _ & E8 & _). split; [by apply E8|]. intros n Hn. by apply E6.
Qed.

Lemma sameRoutes_keeps r r' s address : sameRoutes r r' → rg_udp r !! address = Some s → keepsRoutes r r' s address.
Proof. intros (E1 & _ & E3) Hs. unfold keepsRoutes. by rewrite E1, E3. Qed.

Lemma session_keeps_routes r s address a :
  sessionsOk r → registryOk r → disjointTables r → rg_udp r !! address = Some s → keepsRoutes r (doAction r a) s address ∨ supersedes r s address a.
Proof.
  intros Hsess Hok Hd Hs. destruct a as [t p b remote|t p b remote|t cs|t u w|t|t|t|t|t|t|t b|t|t|]; cbn [doAction]; try by left.
  - left. destruct (rg_sessions r !! t) eqn:Ht; [done|]. destruct (fresh_unreferenced r t Hok Ht) as (_ & _ & _ & U4 & _). unfold registerSession.
    destruct (decide (p = ""%string)); [done|]. destruct (negb _); [done|].
    destruct (match b with Some _ => _ | None => _ end) eqn:Hlimit; [done|]. cbn [snd].
    destruct b as [b|]; unfold keepsRoutes; cbn; rewrite ?(proj1 (bind_addresses _ p t)), ?(proj2 (proj2 (bind_addresses _ p t))); cbn; [|done].
    split; [|done]. rewrite lookup_insert_ne; [done|]. intros Heq. cbn in Hlimit. rewrite Heq, Hs in Hlimit. case_bool_decide as Hst; [|done]. rewrite Hst in Hs. by apply (U4 address).
  - left. destruct (rg_sessions r !! t) eqn:Ht; [done|]. unfold registerInitialSession.
    destruct (decide (p = ""%string)); [done|]. destruct (negb _); [done|].
    set (displaced := match rg_initial _ !! _ with Some d => _ | None => None end). set (r0 := addSession r t _) in *.
    assert (Hok0 : registryOk r0) by by apply add_ok.
    set (r1 := match displaced with Some d => evictSessionLocked r0 d | None => r0 end).
    assert (Hk : keepsRoutes r r1 s address).
    { subst r1. destruct displaced as [d|] eqn:Hdis; [|done]. apply (evict_keeps r0 d s address Hok0); [|done]. intros ->. subst displaced.
      destruct (rg_initial r0 !! addrString b) as [d'|] eqn:Hin; [|done]. destruct (decide (d' = t)); [done|]. simplify_eq. by apply (Hd _ address s Hin). }
    assert (Hk' : keepsRoutes r ((bindPeerAddressLocked r1 p t) <| rg_initial := <[addrString b := t]> (rg_initial (bindPeerAddressLocked r1 p t)) |>) s address).
    { unfold keepsRoutes. cbn. by rewrite (proj1 (bind_addresses r1 p t)), (proj2 (proj2 (bind_addresses r1 p t))). }
    by destruct displaced.
  - left. destruct (rg_sessions r !! t) as [i|]; [|done]. by destruct (ss_certificateSet i).
  - destruct (rg_sessions r !! t) as [i0|] eqn:Hi0; [|by left]. destruct (ss_authenticated i0) eqn:Hauth; [|by left]. cbn [andb]. case_bool_decide; [|by left].
    destruct (promote_tables r t) as [-> | (i & b & Hi & Hb & Hin & E1 & _ & E3)]; [by left|]. rewrite Hi0 in Hi. injection Hi as ->.
    destruct (promoteLocked_tables r t (addrString b)) as (r1 & Hr1 & F1 & _ & F3).
    destruct (decide (addrString b = address)) as [<-|Hne]; [right; right; right; left; exists t, i; split_and!; try done; by apply (proj2 (Hsess t i Hi0))|].
    left. unfold keepsRoutes. rewrite E1, E3, F1, F3, lookup_insert_ne by done.
    destruct Hr1 as [-> | (d & Hud & Hdt & ->)]; [done|]. destruct (decide (d = s)) as [->|Hds].
    + destruct (ok_udp r Hok _ _ Hud) as (j & Hj & x & Hx & Hxb). destruct (ok_udp r Hok _ _ Hs) as (j' & Hj' & x' & Hx' & Hxb'). congruence.
    + assert (Hok' : registryOk (r <| rg_initial := delete (addrString b) (rg_initial r) |>)).
      { destruct Hok as [H1 H2 H3 H4 H5]. constructor; cbn; try done. intros z u' [_ Hz]%lookup_delete_Some. by apply H5. }
      destruct (evict_keeps _ d s address Hok' Hds Hs) as [K1 K2]. split; [exact K1 | exact K2].
  - left. destruct (ss_step <$> rg_sessions r !! t) as [[]|]; try done. by apply sameRoutes_keeps; [apply reserve_routes|].
  - left. unfold enablePeerID. destruct (negb _); [done|]. destruct (rg_sessions r !! t) as [i|]; [|done]. destruct (decide _); [|done].
    destruct (ss_peerID i); [done|]. destruct (allocatePeerIDLocked r) as [n|] eqn:Hn; [|done]. apply allocate_spec in Hn as [_ Hn].
    split; [done|]. cbn. intros m Hm. by rewrite lookup_insert_ne by congruence.
  - left. destruct (rg_sessions r !! t) as [i|]; [|done]. destruct (_ && _); [|done]. by apply sameRoutes_keeps; [apply setIdentity_routes|].
  - left. destruct (ss_step <$> rg_sessions r !! t) as [[]|]; try done. by apply sameRoutes_keeps; [apply replaceIdentity_routes|].
  - left. by destruct (ss_step <$> rg_sessions r !! t) as [[]|].
  - destruct (rg_sessions r !! t) as [i|] eqn:Hi; [|by left]. cbn [mbind option_bind]. destruct (ss_remoteAddress i) as [b|] eqn:Hb; [|by left].
    destruct (decide _); [by left|]. destruct (decide (t = s)) as [->|Hts]; [right; right; by left|].
    destruct (float_outcome r t i Hi) as [(E1 & _ & E3)|(source & r1 & Hread & Hr1 & E1 & _ & E3)]; [left; unfold keepsRoutes; by rewrite E1, E3|].
    destruct (decide (addrString source = address)) as [Heq|Hne].
    + right. right. right. right. exists t, i. split_and!; [done | done | by rewrite Hread; cbn; rewrite Heq |].
      destruct Hr1 as [[_ [Hnone|Hsame]]|(d & Hud & _ & Hcert & _)]; rewrite Heq in *; congruence.
    + left. unfold keepsRoutes. rewrite E1, E3, lookup_insert_ne by done.
      assert (Hk : keepsRoutes r r1 s address).
      { destruct Hr1 as [[-> _]|(d & Hud & _ & _ & ->)]; [done|]. apply evict_keeps; [done| |done]. intros ->.
        destruct (ok_udp r Hok _ _ Hud) as (j & Hj & x & Hx & Hxb). destruct (ok_udp r Hok _ _ Hs) as (j' & Hj' & x' & Hx' & Hxb'). congruence. }
      destruct Hk as [Hu Hp]. split; [|done]. apply map_lookup_filter_Some. split; [done|]. intros [Heq _]. cbn in Heq. congruence.
  - destruct (decide (t = s)) as [->|Hts]; [right; by left|]. left. unfold unregisterSession. 
    apply (evict_keeps (closeSession r t) t s address); [by apply update_ok | done | done].
Qed.

End Life.

(** ** What the registries guarantee *)

(** C38: The registries of a server stay consistent through every order of openings,
    promotions, moves and endings of sessions, with the steps of different sessions
    interleaved at every place where the code releases its lock: a session found by its peer
    address, peer id, identity or UDP address is one that has it, peer ids are below the
    configured maximum, the replies to a session bound to an address go to that address,
    and no session is in both tables of addresses.  Unless duplicates are allowed, two
    unclosed sessions that can be found by their peer addresses share an authenticated identity only
    while one of them has yet to register it or a session is about to close one of them: when
    no such step is outstanding, every identity has at most one session in business. *)
Theorem registries_consistent duplicateCN authenticator policy actions :
  let r := doActions duplicateCN authenticator (emptyRegistry policy) actions in
  registryOk r ∧ disjointTables r ∧
  (duplicateCN = false → rg_running r = true → ∀ s t i j,
     rg_sessions r !! s = Some i → rg_sessions r !! t = Some j → ss_closed i = false → ss_closed j = false →
     rg_byPeer r !! ss_peerAddress i = Some s → rg_byPeer r !! ss_peerAddress j = Some t →
     ss_identity i ≠ ""%string → ss_identity i = ss_identity j →
     s = t ∨ ss_step i = StepIdentifying ∨ ss_step j = StepIdentifying ∨ closing r s ∨ closing r t) ∧
  (duplicateCN = false → rg_running r = true → (∀ s i, rg_sessions r !! s = Some i → ss_step i = StepIdle) →
   ∀ s i, rg_sessions r !! s = Some i → ss_closed i = false → rg_byPeer r !! ss_peerAddress i = Some s →
     ss_identity i ≠ ""%string → rg_byIdentity r !! ss_identity i = Some s).
Proof.
  intros r. destruct (actions_inv duplicateCN authenticator (emptyRegistry policy) actions (empty_inv _ _ policy)) as (_ & Hok & Hl). fold r in Hok, Hl.
  split_and!; [done| | |].
  - subst r. unfold doActions. induction actions as [|a actions IH] using rev_ind; [by intros a b s|]. rewrite foldl_app. cbn.
    destruct (actions_inv duplicateCN authenticator (emptyRegistry policy) actions (empty_inv _ _ policy)) as (_ & Hok' & Hl').
    apply doAction_disjoint; [done|]. by apply IH.
  - intros Hd Hr s t i j Hi Hj Hci Hcj Hpi Hpj Hk Heq.
    destruct (decide (ss_step i = StepIdentifying)) as [|Hsi]; [by right; left|]. destruct (decide (ss_step j = StepIdentifying)) as [|Hsj]; [by right; right; left|].
    destruct (Hl Hd Hr s i Hi Hci Hk Hpi Hsi) as [H1|]; [|by right; right; right; left]. rewrite Heq in H1, Hk.
    destruct (Hl Hd Hr t j Hj Hcj Hk Hpj Hsj) as [H2|]; [left; congruence | by right; right; right; right].
  - intros Hd Hr Hidle s i Hi Hc Hp Hk. destruct (Hl Hd Hr s i Hi Hc Hk Hp) as [|(t & j & Hj & Hst)]; [by rewrite (Hidle s i Hi) | done |].
    rewrite (Hidle t j Hj) in Hst. done.
Qed.

(** C39: The session bound to an address keeps its route and its peer id whatever other
    peers do: datagrams with forged resets at its address, sessions opened there that
    never authenticate, and moves of clients with another certificate do not displace it.
    It loses the address only when it ends or moves itself, when a session negotiated at
    the same address whose credentials the authenticator has accepted takes its place, or
    when a session whose certificate identity is equal moves there, which is one with the
    same certificate chain, or, if it has no certificate, any other session without one. *)
Theorem bound_session_isolated duplicateCN authenticator policy actions a s address :
  let r := doActions duplicateCN authenticator (emptyRegistry policy) actions in
  rg_udp r !! address = Some s →
  keepsRoutes r (doAction duplicateCN authenticator r a) s address ∨ supersedes authenticator r s address a.
Proof.
  intros r Hs. assert (Hinv : sessionsOk authenticator r ∧ registryOk r ∧ disjointTables r).
  { subst r. clear Hs. unfold doActions. induction actions as [|b actions IH] using rev_ind; [split_and!; [by intros t i | apply (empty_inv duplicateCN authenticator) | by intros x y t]|].
    rewrite foldl_app. cbn. destruct IH as (Hsess & Hok & Hd).
    destruct (actions_inv duplicateCN authenticator (emptyRegistry policy) actions (empty_inv _ _ policy)) as (_ & _ & Hl').
    split_and!; [by apply doAction_sessions | by apply doAction_inv | by apply doAction_disjoint]. }
  destruct Hinv as (? & ? & ?). by apply session_keeps_routes.
Qed.

(** Datagrams reach only the session they belong to: a P_DATA_V2 packet the session
    that has its peer id, any other packet a session that is bound to the source
    address, and a control packet only one whose peer's session id it carries. *)
Theorem datagrams_routed_to_owner duplicateCN authenticator policy actions rawPacket address s :
  let r := doActions duplicateCN authenticator (emptyRegistry policy) actions in
  routeUDPPacketLocked r rawPacket address = udpPacketDeliver s →
  ∃ i, rg_sessions r !! s = Some i ∧
    match udpDataV2PeerID rawPacket with
    | Some peerID => ss_peerID i = Some peerID
    | None => boundTo address i ∧
        (isControlOrAcknowledgmentOpcode (Z.shiftr (b2z (hd x00 rawPacket)) 3) = true → ss_remoteSessionID i = slice 1 tlsControlHeaderLength rawPacket)
    end.
Proof.
  intros r. destruct (actions_inv duplicateCN authenticator (emptyRegistry policy) actions (empty_inv _ _ policy)) as (_ & Hok & _). fold r in Hok.
  unfold routeUDPPacketLocked. destruct rawPacket as [|b raw]; [done|]. destruct (udpDataV2PeerID (b :: raw)) as [peerID|].
  { destruct (rg_byPeerID r !! peerID) as [t|] eqn:Ht; [|done]. intros [= <-]. by destruct (ok_peerID r Hok peerID t Ht). }
  cbn [hd]. destruct (isControlOrAcknowledgmentOpcode (Z.shiftr (b2z b) 3)); cbn [negb].
  2:{ destruct (rg_udp r !! address) as [t|] eqn:Ht; [|done]. intros [= <-]. destruct (ok_udp r Hok address t Ht) as (i & Hi & Hb). by exists i. }
  destruct (_ <? _)%nat; [done|].
  assert (Howns : ∀ table bound t, ownsControl r bound (slice 1 tlsControlHeaderLength (b :: raw)) = Some t → bound = (table : gmap string Z) !! address →
    (table !! address = Some t → sessionAt r t (boundTo address)) →
    ∃ i, rg_sessions r !! t = Some i ∧ boundTo address i ∧ (true = true → ss_remoteSessionID i = slice 1 tlsControlHeaderLength (b :: raw))).
  { intros table bound t. unfold ownsControl. destruct bound as [u|]; [|done]. cbn. destruct (rg_sessions r !! u) as [i|] eqn:Hi; [|done]. cbn.
    destruct (decide _) as [Hid|]; [|done]. intros [= <-] Hu Hat. destruct (Hat (eq_sym Hu)) as (j & Hj & Hb). exists j. simplify_eq. done. }
  destruct (ownsControl r (rg_initial r !! address) _) as [t|] eqn:Hin.
  { intros [= <-]. apply (Howns (rg_initial r) _ t Hin eq_refl). apply (ok_initial r Hok). }
  destruct (ownsControl r (rg_udp r !! address) _) as [t|] eqn:Hac.
  { intros [= <-]. apply (Howns (rg_udp r) _ t Hac eq_refl). apply (ok_udp r Hok). }
  by repeat case_match.
Qed.

(** Peer ids are handed out until as many sessions hold one as are allowed. *)
Lemma peer_ids_exhausted r : allocatePeerIDLocked r = None → ∀ n, 0 ≤ n < rp_maxClients (rg_policy r) → is_Some (rg_byPeerID r !! n).
Proof.
  unfold allocatePeerIDLocked. rewrite fmap_None, list_find_None, Forall_forall. intros Hall n Hn.
  apply not_eq_None_Some, Hall, elem_of_seqZ. lia.
Qed.

(** ** Numbered peer addresses *)

Lemma numberedAddress_inj a n m : 0 ≤ n < 2 ^ 64 → 0 ≤ m < 2 ^ 64 → numberedAddress a n = numberedAddress a m → n = m.
Proof.
  intros Hn Hm H. unfold numberedAddress in H. apply (inj (String.append a)), (inj (String.append "#session=")) in H.
  assert (Hp : ParseUint (FormatUint n) 64 = ParseUint (FormatUint m) 64) by by rewrite H.
  rewrite !ParseUint_FormatUint in Hp by lia. by injection Hp.
Qed.

Lemma numberLoop_taken fuel byPeer a c i :
  byPeer !! (numberLoop fuel byPeer a c).1 ≠ None → 0 ≤ i ≤ Z.of_nat fuel → byPeer !! numberedAddress a (u64 (c + 1 + i)) ≠ None.
Proof.
  revert c i. induction fuel as [|fuel IH]; intros c i; cbn [numberLoop].
  - intros H Hi. replace i with 0 by lia. by rewrite Z.add_0_r.
  - destruct (byPeer !! numberedAddress a (u64 (c + 1))) as [t|] eqn:Ht; [|cbn; by rewrite Ht]. intros H Hi.
    destruct (decide (i = 0)) as [->|Hne]; [by rewrite Z.add_0_r, Ht|]. specialize (IH (u64 (c + 1)) (i - 1) H ltac:(lia)).
    replace (u64 (u64 (c + 1) + 1 + (i - 1))) with (u64 (c + 1 + i)) in IH; [done|]. unfold u64. replace (c + 1 + i) with ((c + 1) + (1 + (i - 1))) by lia. by rewrite <- Zplus_mod_idemp_l, Z.add_assoc.
Qed.

(** The loop that looks for a free peer address ends within as many steps as there are
    sessions, with an address that none of them has. *)
Theorem peer_addresses_found byPeer a c :
  Z.of_nat (size byPeer) < 2 ^ 64 → (byPeer : gmap string Z) !! (numberLoop (size byPeer) byPeer a c).1 = None.
Proof.
  intros Hsize. destruct (byPeer !! (numberLoop (size byPeer) byPeer a c).1) as [t|] eqn:Ht; [|done]. exfalso.
  set (n := size byPeer) in *. set (l := (λ i, numberedAddress a (u64 (c + 1 + i))) <$> seqZ 0 (Z.of_nat n + 1)).
  assert (Hnd : NoDup l).
  { apply NoDup_fmap_2_strong; [|apply NoDup_seqZ]. intros x y Hx%elem_of_seqZ Hy%elem_of_seqZ Heq.
    apply numberedAddress_inj in Heq; [|apply Z.mod_pos_bound; lia..]. unfold u64 in Heq. Z.to_euclidean_division_equations. lia. }
  assert (Hsub : (list_to_set l : gset string) ⊆ dom byPeer).
  { intros k Hk. apply elem_of_list_to_set, list_elem_of_fmap in Hk as (i & -> & Hi%elem_of_seqZ). apply elem_of_dom, not_eq_None_Some.
    apply (numberLoop_taken n); [by rewrite Ht | lia]. }
  apply subseteq_size in Hsub. rewrite size_list_to_set, size_dom in Hsub by done. subst l n. rewrite length_fmap, length_seqZ in Hsub. lia.
Qed.

(** ** An example *)

Definition exampleClientAddress : netAddr := UDPAddr (Addr4 3232235778) 40000 "".
Definition exampleNewAddress : netAddr := UDPAddr (Addr4 3232235779) 40001 "".
Definition exampleSessionID (n : Z) : SessionID := replicate 7 x00 ++ [z2b n].

(** A client connects, is given a peer id, and moves; another negotiates at the address
    it left and at the one it has now. *)
Definition exampleActions : list registryAction :=
  [ARegister 1 "192.168.1.2:40000" (Some exampleClientAddress) (exampleSessionID 1); ACertificate 1 [("alice"%string, [x01])]; APeerID 1; AIdentity 1; AReplace 1;
   ARead 1 (Some exampleNewAddress); AFloat 1; AInitial 2 "192.168.1.3:40001" exampleNewAddress (exampleSessionID 2)].

Definition exampleRegistry : registry := doActions false None (emptyRegistry (mkPolicy 2 0 0 0 0 100 0 0 0 0)) exampleActions.

Example exampleRegistry_routes :
  routeUDPPacketLocked exampleRegistry [x48; x00; x00; x00; xff] "anywhere" = udpPacketDeliver 1 ∧
  routeUDPPacketLocked exampleRegistry (x38 :: exampleSessionID 2) "192.168.1.3:40001" = udpPacketDeliver 2 ∧
  routeUDPPacketLocked exampleRegistry (x38 :: exampleSessionID 3) "192.168.1.3:40001" = udpPacketInitialReset ∧
  routeUDPPacketLocked exampleRegistry (x38 :: exampleSessionID 3) "192.168.1.2:40000" = udpPacketUnbound.
Proof. vm_compute. done. Qed.

Lemma bound_session_isolated_witness :
  rg_udp exampleRegistry !! "192.168.1.3:40001"%string = Some 1 ∧
  (keepsRoutes exampleRegistry (doAction false None exampleRegistry (AInitial 3 "x" exampleNewAddress (exampleSessionID 3))) 1 "192.168.1.3:40001" ∨
   supersedes None exampleRegistry 1 "192.168.1.3:40001" (AInitial 3 "x" exampleNewAddress (exampleSessionID 3))).
Proof.
  split; [vm_compute; reflexivity|].
  apply (bound_session_isolated false None (mkPolicy 2 0 0 0 0 100 0 0 0 0) exampleActions (AInitial 3 "x" exampleNewAddress (exampleSessionID 3)) 1 "192.168.1.3:40001").
  vm_compute. reflexivity.
Defined.

Lemma datagrams_routed_to_owner_witness :
  ∃ i, rg_sessions exampleRegistry !! 2 = Some i ∧ boundTo "192.168.1.3:40001" i ∧
    (isControlOrAcknowledgmentOpcode 7 = true → ss_remoteSessionID i = exampleSessionID 2).
Proof.
  apply (datagrams_routed_to_owner false None (mkPolicy 2 0 0 0 0 100 0 0 0 0) exampleActions (x38 :: exampleSessionID 2) "192.168.1.3:40001" 2).
  vm_compute. reflexivity.
Defined.

Lemma peer_addresses_found_witness :
  let byPeer : gmap string Z := {[ "a"%string := 1; "a#session=1"%string := 2 ]} in numberLoop (size byPeer) byPeer "a" 0 = ("a#session=2"%string, 2) ∧
  byPeer !! (numberLoop (size byPeer) byPeer "a" 0).1 = None.
Proof.
  cbv zeta. split; [vm_compute; reflexivity|].
  apply (peer_addresses_found {[ "a"%string := 1; "a#session=1"%string := 2 ]} "a" 0). vm_compute. reflexivity.
Defined.
