(* ===== verification/Keepalive.v ===== *)
(** * Keepalive, timeouts and the schedule of renegotiations
      ([client_keepalive.go], [server_ping.go], [server_renegotiation.go])

    The data path and the control channel report traffic; a loop that wakes once a
    second ends the session when the peer is silent for too long, asks for pings when
    the session itself is silent, and asks for a renegotiation when its time has come.
    The methods hold the object's lock and are transitions; the clock is an argument.
    The client's loop is a function of the steps that reach the object, a [Tick] being
    one round of the loop. *)

From S2P Require Import Prelude GoStrings Options TunnelConfig Supervisor KeyState DataPath.

(** ** The client *)

Record tlsClientKeepalive := mkKeepalive {
  ka_lastInboundTime : Time;
  ka_lastOutboundTime : Time;
  ka_inactivityBytesAccumulator : Z;
  ka_lastInactivityResetTime : Time;
  ka_pingInterval : Z;
  ka_pingRestart : Z;
  ka_sessionStartTime : Time;
  ka_renegotiationBudget : dataRenegotiationBudget;
  ka_renegotiationInterval : Z;
  ka_renegotiationDeadline : Time;
  ka_renegotiationInProgress : bool;
}.

#[export] Instance eta_tlsClientKeepalive : Eta tlsClientKeepalive := λ k,
  mkKeepalive (ka_lastInboundTime k) (ka_lastOutboundTime k) (ka_inactivityBytesAccumulator k) (ka_lastInactivityResetTime k) (ka_pingInterval k)
  (ka_pingRestart k) (ka_sessionStartTime k) (ka_renegotiationBudget k) (ka_renegotiationInterval k) (ka_renegotiationDeadline k)
  (ka_renegotiationInProgress k).

Definition clientConfigureRenegotiation (timing : ClientTimingOptions) (k : tlsClientKeepalive) (selectedCipher : string) (activeKeyID : Z) (now : Time)
    : tlsClientKeepalive :=
  let k := k <| ka_renegotiationBudget :=
    newDataRenegotiationBudget selectedCipher (cti_RenegotiationBytes timing) (cti_RenegotiationPackets timing) activeKeyID |> in
  let k := k <| ka_renegotiationInterval := cti_RenegotiationInterval timing |> in
  if 0 <? ka_renegotiationInterval k then k <| ka_renegotiationDeadline := now + ka_renegotiationInterval k |> else k.

Definition clientNoteRenegotiated (k : tlsClientKeepalive) (activeKeyID : Z) (now : Time) : tlsClientKeepalive :=
  let k := k <| ka_renegotiationBudget := reset (ka_renegotiationBudget k) activeKeyID |> in
  if 0 <? ka_renegotiationInterval k then k <| ka_renegotiationDeadline := now + ka_renegotiationInterval k |> else k.

(** Whether the goroutine that runs [triggerSoftReset] starts. *)
Definition requestSoftReset (k : tlsClientKeepalive) : bool * tlsClientKeepalive :=
  if ka_renegotiationInProgress k then (false, k) else (true, k <| ka_renegotiationInProgress := true |>).

(** The end of that goroutine. *)
Definition softResetFinished (k : tlsClientKeepalive) : tlsClientKeepalive := k <| ka_renegotiationInProgress := false |>.

Definition clientConsumeOutbound (k : tlsClientKeepalive) (keyID packetID aeadBlockBytes accountedBytes : Z) : bool * tlsClientKeepalive :=
  let '(transferErr, b) := consumeTransfer (ka_renegotiationBudget k) keyID accountedBytes in
  let '(usageErr, b) := consumeUsage b keyID dataRenegotiationDirectionSend packetID aeadBlockBytes in
  let k := k <| ka_renegotiationBudget := b |> in
  if bool_decide (is_Some transferErr) || bool_decide (is_Some usageErr) then requestSoftReset k else (false, k).

Definition clientConsumeInboundCounter (k : tlsClientKeepalive) (keyID accountedBytes : Z) : bool * tlsClientKeepalive :=
  let '(budgetErr, b) := consumeTransfer (ka_renegotiationBudget k) keyID accountedBytes in
  let k := k <| ka_renegotiationBudget := b |> in
  if bool_decide (is_Some budgetErr) then requestSoftReset k else (false, k).

Definition clientConsumeInboundUsage (k : tlsClientKeepalive) (keyID packetID aeadBlockBytes : Z) : bool * tlsClientKeepalive :=
  let '(budgetErr, b) := consumeUsage (ka_renegotiationBudget k) keyID dataRenegotiationDirectionReceive packetID aeadBlockBytes in
  let k := k <| ka_renegotiationBudget := b |> in
  if bool_decide (is_Some budgetErr) then requestSoftReset k else (false, k).

Definition noteSessionStart (k : tlsClientKeepalive) (now : Time) : tlsClientKeepalive := k <| ka_sessionStartTime := now |>.

Definition clientMarkActivity (k : tlsClientKeepalive) (inbound outbound : bool) (now : Time) : tlsClientKeepalive :=
  let k := if inbound then k <| ka_lastInboundTime := now |> else k in
  if outbound then k <| ka_lastOutboundTime := now |> else k.

Definition resetInactivityTimer (k : tlsClientKeepalive) (now : Time) : tlsClientKeepalive :=
  k <| ka_inactivityBytesAccumulator := 0 |> <| ka_lastInactivityResetTime := now |>.

Definition shouldResetInactivityTimer (accumulator byteCount threshold : Z) : Z * bool :=
  let newAccumulator := u64 (accumulator + byteCount) in
  if threshold <=? newAccumulator then (0, true) else (newAccumulator, false).

Definition registerInactivityBytes (configuration : TunnelConfiguration) (k : tlsClientKeepalive) (byteCount : Z) (now : Time) : tlsClientKeepalive :=
  if byteCount <=? 0 then k else
  let '(newAccumulator, shouldReset) :=
    shouldResetInactivityTimer (ka_inactivityBytesAccumulator k) byteCount (tc_InactiveMinimumBytes configuration) in
  let k := k <| ka_inactivityBytesAccumulator := newAccumulator |> in
  if shouldReset then k <| ka_lastInactivityResetTime := now |> else k.

Definition setDurations (k : tlsClientKeepalive) (pingInterval pingRestart : Z) : tlsClientKeepalive :=
  k <| ka_pingInterval := pingInterval |> <| ka_pingRestart := pingRestart |>.

Definition refreshFromTunnelConfiguration (configuration : TunnelConfiguration) (k : tlsClientKeepalive) : tlsClientKeepalive :=
  setDurations k (tc_PingInterval configuration) (tc_PingRestart configuration).

(** What the object asks for; a ping with the time of the round that asks for it. *)
Inductive keepaliveOutput := SoftResetStarted | PingQueued (now : Time).

(** [ready] is whether the session has its sender of messages.  The last component is
    the error the session finishes with, after which the loop has returned. *)
Definition clientTick (configuration : TunnelConfiguration) (ready : bool) (k : tlsClientKeepalive) (now : Time)
    : list keepaliveOutput * tlsClientKeepalive * option goerr :=
  let k := refreshFromTunnelConfiguration configuration k in
  let pingInterval := ka_pingInterval k in
  let sessionTimeout := tc_SessionTimeout configuration in
  let inactiveTimeout := tc_InactiveTimeout configuration in
  let lastInbound := ka_lastInboundTime k in
  let lastOutbound := ka_lastOutboundTime k in
  let lastInactivityReset := ka_lastInactivityResetTime k in
  let renegotiationDeadline := ka_renegotiationDeadline k in
  if (0 <? sessionTimeout) && negb (IsZero (ka_sessionStartTime k)) && (sessionTimeout <=? now - ka_sessionStartTime k)
  then ([], k, Some ErrSessionTimeout) else
  let '(started, k) :=
    if negb (IsZero renegotiationDeadline) && negb (now <? renegotiationDeadline) then requestSoftReset k else (false, k) in
  let outputs := if started then [SoftResetStarted] else [] in
  if shouldExitForInactivityTimeout lastInactivityReset now inactiveTimeout then (outputs, k, Some ErrInactiveTimeout) else
  let '(pingReceiveTimeout, pingTimeoutAction) := effectiveClientPingTimeout configuration in
  if shouldExitForPingTimeout lastInbound now pingReceiveTimeout then
    (outputs, k, Some (match pingTimeoutAction with clientPingTimeoutExit => ErrPingExitTimeout | _ => ErrPingRestartTimeout end))
  else if (0 <? pingInterval) && (IsZero lastOutbound || (pingInterval <=? now - lastOutbound)) && ready
       then (outputs ++ [PingQueued now], k, None) else (outputs, k, None).

(** What reaches the object while its loop runs. *)
Inductive keepaliveStep :=
| Activity (inbound outbound : bool) (now : Time)
| Bytes (byteCount : Z) (now : Time)
| Outbound (keyID packetID aeadBlockBytes accountedBytes : Z)
| InboundCounter (keyID accountedBytes : Z)
| InboundUsage (keyID packetID aeadBlockBytes : Z)
| Renegotiated (activeKeyID : Z) (now : Time)
| SoftResetDone
| Tick (ready : bool) (now : Time).

Definition resets (r : bool * tlsClientKeepalive) : list keepaliveOutput * tlsClientKeepalive * option goerr :=
  (if r.1 then [SoftResetStarted] else [], r.2, None).

Definition clientStep (configuration : TunnelConfiguration) (k : tlsClientKeepalive) (step : keepaliveStep)
    : list keepaliveOutput * tlsClientKeepalive * option goerr :=
  match step with
  | Activity inbound outbound now => ([], clientMarkActivity k inbound outbound now, None)
  | Bytes byteCount now => ([], registerInactivityBytes configuration k byteCount now, None)
  | Outbound keyID packetID aeadBlockBytes accountedBytes => resets (clientConsumeOutbound k keyID packetID aeadBlockBytes accountedBytes)
  | InboundCounter keyID accountedBytes => resets (clientConsumeInboundCounter k keyID accountedBytes)
  | InboundUsage keyID packetID aeadBlockBytes => resets (clientConsumeInboundUsage k keyID packetID aeadBlockBytes)
  | Renegotiated activeKeyID now => ([], clientNoteRenegotiated k activeKeyID now, None)
  | SoftResetDone => ([], softResetFinished k, None)
  | Tick ready now => clientTick configuration ready k now
  end.


(** What the data path reports: the observers that [start] installs. *)
Definition observedRead (now : Time) (e : dataEvent) : list keepaliveStep :=
  match e with
  | ReadCounter keyID accountedBytes => [InboundCounter keyID accountedBytes]
  | ReadUsage keyID packetID aeadBlockBytes => [InboundUsage keyID packetID aeadBlockBytes]
  | ReadActivity => [Activity true false now]
  | ReadBytes payloadBytes => [Bytes payloadBytes now]
  | _ => []
  end.

Definition observedWrite (now : Time) (e : writeEvent) : list keepaliveStep :=
  match e with
  | WriteObserved keyID packetID aeadBlockBytes accountedBytes => [Outbound keyID packetID aeadBlockBytes accountedBytes]
  | WriteActivity => [Activity false true now]
  | WriteBytes payloadBytes => [Bytes payloadBytes now]
  end.

(** ** The server *)

Record tlsServerPinger := mkPinger {
  pg_lastInboundTime : Time;
  pg_lastOutboundTime : Time;
  pg_pingInterval : Z;
  pg_pingRestart : Z;
}.

#[export] Instance eta_tlsServerPinger : Eta tlsServerPinger := λ p,
  mkPinger (pg_lastInboundTime p) (pg_lastOutboundTime p) (pg_pingInterval p) (pg_pingRestart p).





Record serverRenegotiation := mkServerReneg {
  sr_budget : dataRenegotiationBudget;
  sr_interval : Z;
  sr_deadline : Time;
  sr_inProgress : bool;
}.

#[export] Instance eta_serverRenegotiation : Eta serverRenegotiation := λ r,
  mkServerReneg (sr_budget r) (sr_interval r) (sr_deadline r) (sr_inProgress r).

(** [random] is the number read from the system's generator, [None] when the read fails.
    The conversion to 32 bits and the remainder are those of the code; a zero divisor
    panics. *)
Definition applyServerRenegotiationJitter (renegotiationDuration : Z) (random : option Z) : option Z :=
  if renegotiationDuration =? 0 then Some 0 else
  let jitterRange := Z.quot renegotiationDuration 10 in
  if jitterRange <? Second then Some renegotiationDuration else
  match random with
  | None => Some renegotiationDuration
  | Some random =>
      let divisor := u32 (Z.quot jitterRange Second) in
      if divisor =? 0 then None else Some (renegotiationDuration - Z.rem random divisor * Second)
  end.

Definition scheduleServerRenegotiation (r : serverRenegotiation) (random : option Z) (now : Time) : option serverRenegotiation :=
  jitteredDuration ← applyServerRenegotiationJitter (sr_interval r) random;
  Some (if 0 <? jitteredDuration then r <| sr_deadline := now + jitteredDuration |> else r).

Definition serverConfigureRenegotiation (timing : ServerTimingOptions) (r : serverRenegotiation) (selectedCipher : string) (activeKeyID : Z)
    (random : option Z) (now : Time) : option serverRenegotiation :=
  let r := r <| sr_budget := newDataRenegotiationBudget selectedCipher (sti_RenegotiationBytes timing) (sti_RenegotiationPackets timing) activeKeyID |> in
  let r := r <| sr_interval := sti_RenegotiationInterval timing |> in
  scheduleServerRenegotiation r random now.

Definition serverNoteRenegotiated (r : serverRenegotiation) (activeKeyID : Z) (random : option Z) (now : Time) : option serverRenegotiation :=
  let r := r <| sr_budget := reset (sr_budget r) activeKeyID |> in
  scheduleServerRenegotiation r random now.

Definition serverRequestSoftReset (r : serverRenegotiation) : bool * serverRenegotiation :=
  if sr_inProgress r then (false, r) else (true, r <| sr_inProgress := true |>).

Definition serverSoftResetFinished (r : serverRenegotiation) : serverRenegotiation := r <| sr_inProgress := false |>.

Definition serverConsumeOutbound (r : serverRenegotiation) (keyID packetID aeadBlockBytes accountedBytes : Z) : bool * serverRenegotiation :=
  let '(transferErr, b) := consumeTransfer (sr_budget r) keyID accountedBytes in
  let '(usageErr, b) := consumeUsage b keyID dataRenegotiationDirectionSend packetID aeadBlockBytes in
  let r := r <| sr_budget := b |> in
  if bool_decide (is_Some transferErr) || bool_decide (is_Some usageErr) then serverRequestSoftReset r else (false, r).

Definition serverConsumeInboundCounter (r : serverRenegotiation) (keyID accountedBytes : Z) : bool * serverRenegotiation :=
  let '(budgetErr, b) := consumeTransfer (sr_budget r) keyID accountedBytes in
  let r := r <| sr_budget := b |> in
  if bool_decide (is_Some budgetErr) then serverRequestSoftReset r else (false, r).

Definition serverConsumeInboundUsage (r : serverRenegotiation) (keyID packetID aeadBlockBytes : Z) : bool * serverRenegotiation :=
  let '(budgetErr, b) := consumeUsage (sr_budget r) keyID dataRenegotiationDirectionReceive packetID aeadBlockBytes in
  let r := r <| sr_budget := b |> in
  if bool_decide (is_Some budgetErr) then serverRequestSoftReset r else (false, r).

(** One round of [runRenegotiationLoop]. *)
Definition renegotiationTick (r : serverRenegotiation) (now : Time) : bool * serverRenegotiation :=
  if negb (IsZero (sr_deadline r)) && negb (now <? sr_deadline r) then serverRequestSoftReset r else (false, r).

Inductive renegotiationStep :=
| RenegOutbound (keyID packetID aeadBlockBytes accountedBytes : Z)
| RenegInboundCounter (keyID accountedBytes : Z)
| RenegInboundUsage (keyID packetID aeadBlockBytes : Z)
| RenegDone
| RenegTick (now : Time).

Definition renegotiationRunStep (r : serverRenegotiation) (step : renegotiationStep) : bool * serverRenegotiation :=
  match step with
  | RenegOutbound keyID packetID aeadBlockBytes accountedBytes => serverConsumeOutbound r keyID packetID aeadBlockBytes accountedBytes
  | RenegInboundCounter keyID accountedBytes => serverConsumeInboundCounter r keyID accountedBytes
  | RenegInboundUsage keyID packetID aeadBlockBytes => serverConsumeInboundUsage r keyID packetID aeadBlockBytes
  | RenegDone => (false, serverSoftResetFinished r)
  | RenegTick now => renegotiationTick r now
  end.

(** * Properties *)

(** ** Renegotiations *)

(** The jitter makes the server renegotiate at most a tenth of the interval early and
    never late; the divisor is never zero, so the code does not panic. *)
Lemma jitter_bounds d random :
  0 ≤ d < 2 ^ 63 → 0 ≤ default 0 random < 2 ^ 32 →
  ∃ r, applyServerRenegotiationJitter d random = Some r ∧ r ≤ d ∧ 9 * d ≤ 10 * r ∧ (0 < d → 0 < r).
Proof.
  intros Hd Hr. unfold applyServerRenegotiationJitter, Second in *.
  destruct (Z.eqb_spec d 0) as [-> |]; [by exists 0; repeat split; lia |].
  destruct (Z.ltb_spec (Z.quot d 10) 1000000000) as [Hs | Hs]; [exists d; repeat split; lia |].
  destruct random as [random |]; [| exists d; repeat split; lia]. cbn [default] in Hr. unfold id in Hr.
  rewrite (Z.quot_div_nonneg d 10) in Hs |- * by lia.
  set (j := d / 10) in *. assert (Hj : 10 * j ≤ d) by (apply Z.mul_div_le; lia).
  rewrite Z.quot_div_nonneg by lia. set (m := j / 1000000000).
  assert (Hm : 1000000000 * m ≤ j) by (apply Z.mul_div_le; lia).
  assert (Hm1 : 1 ≤ m) by (apply Z.div_le_lower_bound; lia).
  assert (Hu : u32 m = m). { unfold u32. apply Z.mod_small. split; [lia |]. change (2 ^ 63) with 9223372036854775808 in Hd. lia. }
  rewrite Hu. destruct (Z.eqb_spec m 0); [lia |].
  assert (H0 : 0 ≤ Z.rem random m < m) by (apply Z.rem_bound_pos; lia).
  eexists. split; [done |]. nia.
Qed.

Definition isStart (o : keepaliveOutput) : bool := match o with SoftResetStarted => true | PingQueued _ => false end.
Definition starts (outputs : list keepaliveOutput) : nat := length (List.filter isStart outputs).

(** The object with the number of the goroutines that run [triggerSoftReset]. *)
Inductive flightStep (configuration : TunnelConfiguration) : tlsClientKeepalive * nat → tlsClientKeepalive * nat → Prop :=
| FlightStep k n step outputs k' ended :
    step ≠ SoftResetDone → clientStep configuration k step = (outputs, k', ended) → flightStep configuration (k, n) (k', (n + starts outputs)%nat)
| FlightDone k n : flightStep configuration (k, S n) (softResetFinished k, n).

Definition inFlight (k : tlsClientKeepalive) : nat := if ka_renegotiationInProgress k then 1 else 0.

Lemma requestSoftReset_flight k b k' :
  requestSoftReset k = (b, k') → inFlight k' = (inFlight k + if b then 1 else 0)%nat.
Proof. unfold requestSoftReset, inFlight. destruct (ka_renegotiationInProgress k) eqn:E; intros [= <- <-]; cbn; rewrite ?E; done. Qed.

Lemma consume_flight (e : bool) k b k' :
  (if e then requestSoftReset k else (false, k)) = (b, k') → inFlight k' = (inFlight k + if b then 1 else 0)%nat.
Proof. destruct e; [apply requestSoftReset_flight |]. intros [= <- <-]. lia. Qed.

Lemma clientTick_flight configuration ready k now outputs k' ended :
  clientTick configuration ready k now = (outputs, k', ended) → inFlight k' = (inFlight k + starts outputs)%nat.
Proof.
  unfold clientTick. destruct (_ && _ && _); [intros [= <- <- _]; cbn; unfold inFlight; cbn; lia |].
  set (k1 := refreshFromTunnelConfiguration configuration k).
  assert (H1 : inFlight k1 = inFlight k) by done.
  destruct (if negb _ && negb _ then requestSoftReset k1 else (false, k1)) as [b k2] eqn:E. apply consume_flight in E. rewrite H1 in E.
  destruct (effectiveClientPingTimeout configuration) as [d a].
  destruct b; repeat case_match; intros [= <- <- _]; rewrite E; cbn; lia.
Qed.

Lemma resets_flight (e : bool) k outputs k' ended :
  resets (if e then requestSoftReset k else (false, k)) = (outputs, k', ended) → inFlight k' = (inFlight k + starts outputs)%nat.
Proof.
  unfold resets. destruct (if e then _ else _) as [b k1] eqn:E. apply consume_flight in E. intros [= <- <- _]. cbn.
  rewrite E. by destruct b.
Qed.

Lemma registerInactivityBytes_frame configuration k n now :
  let k' := registerInactivityBytes configuration k n now in
  ka_renegotiationInProgress k' = ka_renegotiationInProgress k ∧
  ka_lastInboundTime k' = ka_lastInboundTime k ∧ ka_lastOutboundTime k' = ka_lastOutboundTime k.
Proof. cbn zeta. unfold registerInactivityBytes, shouldResetInactivityTimer. by repeat case_match. Qed.

Lemma clientStep_flight configuration k step outputs k' ended :
  step ≠ SoftResetDone → clientStep configuration k step = (outputs, k', ended) → inFlight k' = (inFlight k + starts outputs)%nat.
Proof.
  intros Hs. destruct step; cbn [clientStep]; try done.
  - intros [= <- <- _]. unfold clientMarkActivity, inFlight. destruct inbound, outbound; cbn; lia.
  - intros [= <- <- _]. unfold inFlight. rewrite (proj1 (registerInactivityBytes_frame _ _ _ _)). cbn. lia.
  - unfold clientConsumeOutbound. destruct (consumeTransfer _ _ _) as [? ?]. destruct (consumeUsage _ _ _ _ _) as [? ?]. intros Hr%resets_flight. done.
  - unfold clientConsumeInboundCounter. destruct (consumeTransfer _ _ _) as [? ?]. intros Hr%resets_flight. done.
  - unfold clientConsumeInboundUsage. destruct (consumeUsage _ _ _ _ _) as [? ?]. intros Hr%resets_flight. done.
  - intros [= <- <- _]. unfold clientNoteRenegotiated, inFlight. destruct (0 <? _); cbn; lia.
  - apply clientTick_flight.
Qed.

(** At most one renegotiation of the client runs at a time, and the flag says whether
    one does. *)
Lemma soft_resets_single_flight configuration k k' n :
  ka_renegotiationInProgress k = false → rtc (flightStep configuration) (k, 0%nat) (k', n) → n = inFlight k'.
Proof.
  intros Hk H. apply (rtc_ind_r (λ y, y.2 = inFlight y.1) (k, 0%nat)) with (z := (k', n)) in H; [done | ..].
  - unfold inFlight. cbn. by rewrite Hk.
  - intros [k1 n1] [k2 n2] _ Hstep Hn. cbn in Hn |- *. inversion Hstep as [? ? ? ? ? ? Hs Ht | ? ?]; subst.
    + rewrite (clientStep_flight _ _ _ _ _ _ Hs Ht). done.
    + unfold inFlight in *. cbn. destruct (ka_renegotiationInProgress k1); lia.
Qed.

(** ** Liveness of the peers *)































