(* ===== verification/ServerTunnel.v ===== *)
(** * The tunnel addresses of a server's sessions ([server_tunnel.go])

    A session that is pushed its configuration takes addresses from the pool and
    enters them into the table of routes; when it ends it takes them out again.  The
    pool and the table have locks of their own and the sessions run at the same time:
    besides the two methods as a whole, each is here as the sequence of its calls, so
    that the calls of different sessions interleave. *)

From S2P Require Import Prelude GoStrings Netip IPPool RouteRegistry Options PushOptions.

(** The fields of a session the methods use. *)
Record tunnelSession := mkTunnelSession {
  ta_peerAddress : string;
  ta_identity : string;
  ta_inet4 : Addr;
  ta_peer4 : Addr;
  ta_inet6 : Addr;
}.

#[export] Instance eta_tunnelSession : Eta tunnelSession := λ t,
  mkTunnelSession (ta_peerAddress t) (ta_identity t) (ta_inet4 t) (ta_peer4 t) (ta_inet6 t).

Section Methods.
Context (duplicateCN : bool).

Definition stickyIdentity (t : tunnelSession) : string := if duplicateCN then EmptyString else ta_identity t.

(** [s] is the session's identity in the table. *)
Definition allocateAndRegisterTunnelAddress (s : Z) (pool : option ipPool) (routes : peerRouteRegistry) (t : tunnelSession)
    : result unit * option ipPool * peerRouteRegistry * tunnelSession :=
  match pool with
  | None => (Ok (), None, routes, t)
  | Some pool =>
      let '(r, pool, routes, t) :=
        if HasIPv4 pool && negb (Addr_IsValid (ta_inet4 t)) then
          let '(lease, pool) := AllocateIPv4ForIdentity pool (stickyIdentity t) in
          match lease with
          | Err e => (Err e, pool, routes, t)
          | Ok lease => (Ok (), pool, Register routes (lease_Client lease) (ta_peerAddress t) (Some s),
                         t <| ta_inet4 := lease_Client lease |> <| ta_peer4 := lease_Peer lease |>)
          end
        else (Ok (), pool, routes, t) in
      match r with
      | Err e => (Err e, Some pool, routes, t)
      | Ok _ =>
          if HasIPv6 pool && negb (Addr_IsValid (ta_inet6 t)) then
            let '(address, pool) := AllocateIPv6ForIdentity pool (stickyIdentity t) in
            match address with
            | Err e => (Err e, Some pool, routes, t)
            | Ok address => (Ok (), Some pool, Register routes address (ta_peerAddress t) (Some s), t <| ta_inet6 := address |>)
            end
          else (Ok (), Some pool, routes, t)
      end
  end.

Definition releaseTunnelAddress (now : Time) (pool : ipPool) (routes : peerRouteRegistry) (t : tunnelSession)
    : ipPool * peerRouteRegistry * tunnelSession :=
  let '(pool, routes, t) :=
    if Addr_IsValid (ta_inet4 t)
    then (Release pool (ta_inet4 t) now, Unregister routes (ta_inet4 t), t <| ta_inet4 := AddrInvalid |> <| ta_peer4 := AddrInvalid |>)
    else (pool, routes, t) in
  if Addr_IsValid (ta_inet6 t)
  then (Release pool (ta_inet6 t) now, Unregister routes (ta_inet6 t), t <| ta_inet6 := AddrInvalid |>)
  else (pool, routes, t).

Definition pushAssignment (pool : option ipPool) (peerID : option Z) (t : tunnelSession) : serverPushAssignment :=
  let none := mkLocalAddress (mkPrefix AddrInvalid (-1)) AddrInvalid EmptyString in
  let bits (p : option prefix) := match p with Some p => prefix_Bits p | None => -1 end in
  match pool with
  | None => mkAssignment EmptyString AddrInvalid none none peerID
  | Some pool =>
      let has4 := HasIPv4 pool && Addr_IsValid (ta_inet4 t) in
      let topology := ip_ipv4Topology pool in
      let local4 :=
        if negb has4 then none else
        if decide (topology = ipv4TopologySubnet) then mkLocalAddress (mkPrefix (ta_inet4 t) (bits (ip_ipv4Prefix pool))) AddrInvalid EmptyString else
        if decide (topology = ipv4TopologyP2P) then mkLocalAddress (mkPrefix (ta_inet4 t) 32) (ta_peer4 t) EmptyString else
        if decide (topology = ipv4TopologyNet30) then mkLocalAddress (mkPrefix (ta_inet4 t) 30) (ta_peer4 t) EmptyString else none in
      let local6 :=
        if HasIPv6 pool && Addr_IsValid (ta_inet6 t)
        then mkLocalAddress (mkPrefix (ta_inet6 t) (bits (ip_ipv6Prefix pool))) (ip_ipv6Server pool) EmptyString else none in
      mkAssignment (if has4 then topology else EmptyString) (if has4 then ip_ipv4Server pool else AddrInvalid) local4 local6 peerID
  end.

(** ** The calls one by one *)

(** Where a session is in one of the methods. *)
Inductive tunnelPhase :=
| Idle
| Allocating4 | Registering4 | Allocating6 | Registering6
| Unregistering4 | Releasing4 | Unregistering6 | Releasing6.

#[export] Instance tunnelPhase_eq_dec : EqDecision tunnelPhase.
Proof. solve_decision. Defined.

Record tunnelPlane := mkPlane {
  tp_pool : ipPool;
  tp_routes : peerRouteRegistry;
  tp_sessions : gmap Z (tunnelSession * tunnelPhase);
}.

#[export] Instance eta_tunnelPlane : Eta tunnelPlane := λ p, mkPlane (tp_pool p) (tp_routes p) (tp_sessions p).

Definition setSession (p : tunnelPlane) (s : Z) (t : tunnelSession) (phase : tunnelPhase) : tunnelPlane :=
  p <| tp_sessions := <[s := (t, phase)]> (tp_sessions p) |>.

(** The next call of a session. *)
Definition tunnelCall (now : Time) (p : tunnelPlane) (s : Z) (t : tunnelSession) (phase : tunnelPhase) : tunnelPlane :=
  match phase with
  | Idle => p
  | Allocating4 =>
      if HasIPv4 (tp_pool p) && negb (Addr_IsValid (ta_inet4 t)) then
        match AllocateIPv4ForIdentity (tp_pool p) (stickyIdentity t) with
        | (Err _, pool) => setSession (p <| tp_pool := pool |>) s t Idle
        | (Ok lease, pool) => setSession (p <| tp_pool := pool |>) s (t <| ta_inet4 := lease_Client lease |> <| ta_peer4 := lease_Peer lease |>) Registering4
        end
      else setSession p s t Allocating6
  | Registering4 => setSession (p <| tp_routes := Register (tp_routes p) (ta_inet4 t) (ta_peerAddress t) (Some s) |>) s t Allocating6
  | Allocating6 =>
      if HasIPv6 (tp_pool p) && negb (Addr_IsValid (ta_inet6 t)) then
        match AllocateIPv6ForIdentity (tp_pool p) (stickyIdentity t) with
        | (Err _, pool) => setSession (p <| tp_pool := pool |>) s t Idle
        | (Ok address, pool) => setSession (p <| tp_pool := pool |>) s (t <| ta_inet6 := address |>) Registering6
        end
      else setSession p s t Idle
  | Registering6 => setSession (p <| tp_routes := Register (tp_routes p) (ta_inet6 t) (ta_peerAddress t) (Some s) |>) s t Idle
  | Unregistering4 =>
      if Addr_IsValid (ta_inet4 t)
      then setSession (p <| tp_routes := Unregister (tp_routes p) (ta_inet4 t) |>) s t Releasing4
      else setSession p s t Unregistering6
  | Releasing4 =>
      setSession (p <| tp_pool := Release (tp_pool p) (ta_inet4 t) now |>) s (t <| ta_inet4 := AddrInvalid |> <| ta_peer4 := AddrInvalid |>) Unregistering6
  | Unregistering6 =>
      if Addr_IsValid (ta_inet6 t)
      then setSession (p <| tp_routes := Unregister (tp_routes p) (ta_inet6 t) |>) s t Releasing6
      else setSession p s t Idle
  | Releasing6 => setSession (p <| tp_pool := Release (tp_pool p) (ta_inet6 t) now |>) s (t <| ta_inet6 := AddrInvalid |>) Idle
  end.

(** A session appears, is authenticated or moves to another address, begins a method
    when it is in none, or makes its next call. *)
Inductive tunnelStep : tunnelPlane → tunnelPlane → Prop :=
| TunnelOpen p s peerAddress identity :
    tp_sessions p !! s = None → peerAddress ≠ EmptyString →
    tunnelStep p (setSession p s (mkTunnelSession peerAddress identity AddrInvalid AddrInvalid AddrInvalid) Idle)
| TunnelMove p s t phase peerAddress identity :
    tp_sessions p !! s = Some (t, phase) → peerAddress ≠ EmptyString →
    tunnelStep p (setSession p s (t <| ta_peerAddress := peerAddress |> <| ta_identity := identity |>) phase)
| TunnelAllocate p s t : tp_sessions p !! s = Some (t, Idle) → tunnelStep p (setSession p s t Allocating4)
| TunnelRelease p s t : tp_sessions p !! s = Some (t, Idle) → tunnelStep p (setSession p s t Unregistering4)
| TunnelCall p s t phase now : 0 ≤ now → tp_sessions p !! s = Some (t, phase) → tunnelStep p (tunnelCall now p s t phase).

End Methods.

(** ** The calls are those of the methods *)

(** The session alone: it makes its calls until it is in no method. *)
Fixpoint finishMethod (duplicateCN : bool) (now : Time) (fuel : nat) (s : Z) (p : tunnelPlane) : tunnelPlane :=
  match fuel with
  | O => p
  | S fuel =>
      match tp_sessions p !! s with
      | Some (t, phase) => if decide (phase = Idle) then p else finishMethod duplicateCN now fuel s (tunnelCall duplicateCN now p s t phase)
      | None => p
      end
  end.

Lemma finishMethod_plane duplicateCN now fuel s pool routes sessions t phase :
  finishMethod duplicateCN now (S fuel) s (mkPlane pool routes (<[s := (t, phase)]> sessions)) =
    if decide (phase = Idle) then mkPlane pool routes (<[s := (t, phase)]> sessions)
    else finishMethod duplicateCN now fuel s (tunnelCall duplicateCN now (mkPlane pool routes (<[s := (t, phase)]> sessions)) s t phase).
Proof. cbn [finishMethod tp_sessions]. by rewrite lookup_insert_eq. Qed.

(** One call, with the plane written out. *)
Ltac runCall :=
  rewrite finishMethod_plane; destruct (decide (_ = Idle)) as [? | _]; [done |];
  unfold tunnelCall, setSession, setField;
  cbn [tp_pool tp_routes tp_sessions ta_inet4 ta_inet6 ta_peer4 ta_peerAddress ta_identity]; rewrite ?insert_insert_eq.

Ltac runIdle := rewrite finishMethod_plane, decide_True by done.

(** Without interruption the calls do what the methods do. *)
Lemma allocate6_calls duplicateCN now fuel s pool routes sessions t :
  finishMethod duplicateCN now (S (S (S fuel))) s (mkPlane pool routes (<[s := (t, Allocating6)]> sessions)) =
    if HasIPv6 pool && negb (Addr_IsValid (ta_inet6 t)) then
      match AllocateIPv6ForIdentity pool (stickyIdentity duplicateCN t) with
      | (Err _, pool) => mkPlane pool routes (<[s := (t, Idle)]> sessions)
      | (Ok address, pool) => mkPlane pool (Register routes address (ta_peerAddress t) (Some s)) (<[s := (t <| ta_inet6 := address |>, Idle)]> sessions)
      end
    else mkPlane pool routes (<[s := (t, Idle)]> sessions).
Proof.
  runCall. destruct (_ && _); [| by runIdle]. destruct (AllocateIPv6ForIdentity _ _) as [[a | e] pool']; rewrite ?insert_insert_eq; [| by runIdle].
  runCall. by runIdle.
Qed.

Lemma allocate_calls duplicateCN now s pool routes sessions t :
  finishMethod duplicateCN now 5 s (mkPlane pool routes (<[s := (t, Allocating4)]> sessions)) =
    let '(_, pool', routes, t) := allocateAndRegisterTunnelAddress duplicateCN s (Some pool) routes t in
    mkPlane (default pool pool') routes (<[s := (t, Idle)]> sessions).
Proof.
  unfold allocateAndRegisterTunnelAddress. runCall. destruct (HasIPv4 _ && _).
  - destruct (AllocateIPv4ForIdentity _ _) as [[lease | e] pool']; rewrite ?insert_insert_eq; [| by runIdle].
    runCall. rewrite allocate6_calls. cbn. destruct (_ && _); [| done]. by destruct (AllocateIPv6ForIdentity _ _) as [[a | e] pool''].
  - rewrite allocate6_calls. destruct (_ && _); [| done]. by destruct (AllocateIPv6ForIdentity _ _) as [[a | e] pool''].
Qed.

Lemma release6_calls duplicateCN now fuel s pool routes sessions t :
  finishMethod duplicateCN now (S (S (S fuel))) s (mkPlane pool routes (<[s := (t, Unregistering6)]> sessions)) =
    if Addr_IsValid (ta_inet6 t)
    then mkPlane (Release pool (ta_inet6 t) now) (Unregister routes (ta_inet6 t)) (<[s := (t <| ta_inet6 := AddrInvalid |>, Idle)]> sessions)
    else mkPlane pool routes (<[s := (t, Idle)]> sessions).
Proof. runCall. destruct (Addr_IsValid _); [| by runIdle]. rewrite ?insert_insert_eq. runCall. by runIdle. Qed.

Lemma release_calls duplicateCN now s pool routes sessions t :
  finishMethod duplicateCN now 5 s (mkPlane pool routes (<[s := (t, Unregistering4)]> sessions)) =
    let '(pool, routes, t) := releaseTunnelAddress now pool routes t in mkPlane pool routes (<[s := (t, Idle)]> sessions).
Proof.
  unfold releaseTunnelAddress. runCall. destruct (Addr_IsValid (ta_inet4 t)).
  - rewrite ?insert_insert_eq. runCall. rewrite release6_calls. cbn. by destruct (Addr_IsValid _).
  - rewrite release6_calls. by destruct (Addr_IsValid _).
Qed.

(** ** Addresses, routes and sessions agree *)

Definition holds (t : tunnelSession) (a : Addr) : Prop := Addr_IsValid a = true ∧ (ta_inet4 t = a ∨ ta_inet6 t = a).

Definition routedTo (routes : peerRouteRegistry) (a : Addr) (s : Z) : Prop := ∃ r, routes !! a = Some r ∧ pr_session r = Some s.

(** One of a session's addresses, with the phases in which it is held without a route. *)
Record slotOk (routes : peerRouteRegistry) (s : Z) (a : Addr) (entering leaving phase : tunnelPhase) : Prop := {
  so_routed : Addr_IsValid a = true → phase ≠ entering → phase ≠ leaving → routedTo routes a s;
  so_entering : phase = entering → Addr_IsValid a = true;
  so_leaving : phase = leaving → Addr_IsValid a = true ∧ routes !! a = None;
}.

Record sessionOk (routes : peerRouteRegistry) (s : Z) (t : tunnelSession) (phase : tunnelPhase) : Prop := {
  se_address : ta_peerAddress t ≠ EmptyString;
  se_family4 : Addr_IsValid (ta_inet4 t) = true → Is4 (ta_inet4 t) = true;
  se_family6 : Addr_IsValid (ta_inet6 t) = true → Is4 (ta_inet6 t) = false;
  se_slot4 : slotOk routes s (ta_inet4 t) Registering4 Releasing4 phase;
  se_slot6 : slotOk routes s (ta_inet6 t) Registering6 Releasing6 phase;
}.

(** Some session other than [s] holds the address. *)
Definition heldElsewhere (sessions : gmap Z (tunnelSession * tunnelPhase)) (s : Z) (a : Addr) : Prop :=
  ∃ s' t phase, s' ≠ s ∧ sessions !! s' = Some (t, phase) ∧ holds t a.

Record planeOk (p : tunnelPlane) : Prop := {
  pk_pool : ∃ live, run_ok (tp_pool p, live) ∧ ∀ a, a ∈ live ↔ ∃ s t phase, tp_sessions p !! s = Some (t, phase) ∧ holds t a;
  pk_distinct : ∀ s t phase a, tp_sessions p !! s = Some (t, phase) → holds t a → ¬ heldElsewhere (tp_sessions p) s a;
  pk_routes : ∀ a r, tp_routes p !! a = Some r → ∃ s t phase, pr_session r = Some s ∧ tp_sessions p !! s = Some (t, phase) ∧ holds t a;
  pk_sessions : ∀ s t phase, tp_sessions p !! s = Some (t, phase) → sessionOk (tp_routes p) s t phase;
}.

(** What has to be shown when one session changes: its own part, that the pool knows
    what is held, that its addresses are nobody else's, and that the routes of the
    others stay. *)
Lemma planeOk_set p s pool routes t phase :
  planeOk p →
  (∃ live, run_ok (pool, live) ∧ ∀ a, a ∈ live ↔ heldElsewhere (tp_sessions p) s a ∨ holds t a) →
  (∀ a, holds t a → ¬ heldElsewhere (tp_sessions p) s a) →
  (∀ a r, routes !! a = Some r → (pr_session r = Some s ∧ holds t a) ∨ (tp_routes p !! a = Some r ∧ heldElsewhere (tp_sessions p) s a)) →
  (∀ a, heldElsewhere (tp_sessions p) s a → routes !! a = tp_routes p !! a) →
  sessionOk routes s t phase →
  planeOk (mkPlane pool routes (<[s := (t, phase)]> (tp_sessions p))).
Proof.
  intros [_ Hd Hr Hs] (live & Hrun & Hlive) Hown Hroutes Hframe Hsok. split; cbn [tp_pool tp_routes tp_sessions].
  - exists live. split; [done |]. intros a. rewrite Hlive. split.
    + intros [(s' & t' & ph' & Hne & Hl & Hh) | Hh]; [exists s', t', ph'; by rewrite lookup_insert_ne |].
      exists s, t, phase. by rewrite lookup_insert_eq.
    + intros (s' & t' & ph' & [[-> [= -> ->]] | [Hne Hl]]%lookup_insert_Some & Hh); [by right |]. left. by exists s', t', ph'.
  - intros s1 t1 ph1 a [[-> [= -> ->]] | [Hne Hl]]%lookup_insert_Some Hh (s2 & t2 & ph2 & Hne2 & Hl2 & Hh2).
    + rewrite lookup_insert_ne in Hl2 by done. apply (Hown a Hh). by exists s2, t2, ph2.
    + apply lookup_insert_Some in Hl2 as [[-> [= -> ->]] | [Hne3 Hl2]].
      * apply (Hown a Hh2). by exists s1, t1, ph1.
      * apply (Hd s1 t1 ph1 a Hl Hh). by exists s2, t2, ph2.
  - intros a r [[Hsr Hh] | [Ho (s' & t' & ph' & Hne & Hl & Hh)]]%Hroutes.
    + exists s, t, phase. by rewrite lookup_insert_eq.
    + destruct (Hr a r Ho) as (s2 & t2 & ph2 & Hsr & Hl2 & Hh2). exists s2, t2, ph2.
      destruct (decide (s2 = s)) as [-> |]; [| by rewrite lookup_insert_ne].
      destruct (Hd s t2 ph2 a Hl2 Hh2). by exists s', t', ph'.
  - intros s1 t1 ph1 [[-> [= -> ->]] | [Hne Hl]]%lookup_insert_Some; [done |].
    destruct (Hs s1 t1 ph1 Hl) as [Ha H4 H6 S4 S6].
    assert (Hfr : ∀ a, holds t1 a → routes !! a = tp_routes p !! a) by (intros a Hh; apply Hframe; by exists s1, t1, ph1).
    assert (Hslot : ∀ a e l, holds t1 a ∨ Addr_IsValid a = false → slotOk (tp_routes p) s1 a e l ph1 → slotOk routes s1 a e l ph1).
    { intros a e l [Hh | Hv] [R1 R2 R3]; split; try done.
      - unfold routedTo. rewrite (Hfr a Hh). done.
      - rewrite (Hfr a Hh). done.
      - intros Hv'. congruence.
      - intros He. destruct (R3 He). congruence. }
    split; try done; apply Hslot; try done; unfold holds.
    + destruct (Addr_IsValid (ta_inet4 t1)) eqn:E; [left; auto | by right].
    + destruct (Addr_IsValid (ta_inet6 t1)) eqn:E; [left; auto | by right].
Qed.

Section Step.
Context (p : tunnelPlane) (Hp : planeOk p) (s : Z) (t : tunnelSession) (phase : tunnelPhase).
Context (Hs : tp_sessions p !! s = Some (t, phase)).

Lemma pool_split : ∃ live, run_ok (tp_pool p, live) ∧ ∀ a, a ∈ live ↔ heldElsewhere (tp_sessions p) s a ∨ holds t a.
Proof.
  destruct (pk_pool _ Hp) as (live & Hrun & Hlive). exists live. split; [done |]. intros a. rewrite Hlive. split.
  - intros (s' & t' & ph' & Hl & Hh). destruct (decide (s' = s)) as [-> |]; [right; by simplify_eq | left; by exists s', t', ph'].
  - intros [(s' & t' & ph' & _ & Hl & Hh) | Hh]; [by exists s', t', ph' | by exists s, t, phase].
Qed.

Lemma routes_split a r :
  tp_routes p !! a = Some r → (pr_session r = Some s ∧ holds t a) ∨ (tp_routes p !! a = Some r ∧ heldElsewhere (tp_sessions p) s a).
Proof.
  intros Hr. destruct (pk_routes _ Hp a r Hr) as (s' & t' & ph' & Hsr & Hl & Hh).
  destruct (decide (s' = s)) as [-> |]; [left; by simplify_eq | right; split; [done | by exists s', t', ph']].
Qed.

Lemma own_addresses a : holds t a → ¬ heldElsewhere (tp_sessions p) s a.
Proof. by apply (pk_distinct _ Hp s t phase). Qed.

(** The session keeps its addresses, with another phase or another peer address. *)
Lemma planeOk_keep t' phase' :
  ta_inet4 t' = ta_inet4 t → ta_inet6 t' = ta_inet6 t → sessionOk (tp_routes p) s t' phase' → planeOk (setSession p s t' phase').
Proof.
  intros H4 H6 Hok. assert (Hh : ∀ a, holds t' a ↔ holds t a) by (intros a; unfold holds; by rewrite H4, H6).
  apply (planeOk_set p s _ (tp_routes p) t' phase' Hp); try done.
  - destruct pool_split as (live & Hrun & Hlive). exists live. split; [done |]. intros a. by rewrite Hh.
  - intros a. rewrite Hh. apply own_addresses.
  - intros a r. rewrite Hh. apply routes_split.
Qed.

(** It gains an address that the pool gives it. *)
Lemma planeOk_gain pool t' phase' a live :
  run_ok (pool, a :: live) → (∀ x, x ∈ live ↔ heldElsewhere (tp_sessions p) s x ∨ holds t x) → (∀ x, holds t' x ↔ x = a ∨ holds t x) →
  sessionOk (tp_routes p) s t' phase' → planeOk (setSession (p <| tp_pool := pool |>) s t' phase').
Proof.
  intros Hrun Hlive Hh Hok. pose proof (ro_distinct _ Hrun) as Hnd. apply NoDup_cons in Hnd as [Ha _].
  apply (planeOk_set p s _ (tp_routes p) t' phase' Hp); try done.
  - exists (a :: live). split; [done |]. intros x. rewrite elem_of_cons, Hlive, Hh. tauto.
  - intros x Hx Hel. apply Hh in Hx as [-> | Hx]; [apply Ha, Hlive; by left | by apply (own_addresses x)].
  - intros x r Hr. rewrite Hh. destruct (routes_split x r Hr) as [[? ?] |]; [left; auto | by right].
Qed.

(** It gives one back that has no route. *)
Lemma planeOk_lose now t' phase' a :
  0 ≤ now → (∀ x, holds t' x ↔ x ≠ a ∧ holds t x) → holds t a → tp_routes p !! a = None →
  sessionOk (tp_routes p) s t' phase' → planeOk (setSession (p <| tp_pool := Release (tp_pool p) a now |>) s t' phase').
Proof.
  intros Hn Hh Ha Hnone Hok. apply (planeOk_set p s _ (tp_routes p) t' phase' Hp); try done.
  - destruct pool_split as (live & Hrun & Hlive). exists (filter (λ x, x ≠ a) live).
    split; [by apply (poolStep_Release (tp_pool p) live a now) |].
    intros x. rewrite list_elem_of_filter, Hlive, Hh. split; [tauto |].
    intros [Hel | [? ?]]; [| tauto]. split; [| by left]. intros ->. by apply (own_addresses a Ha).
  - intros x [_ Hx]%Hh. by apply own_addresses.
  - intros x r Hr. rewrite Hh. destruct (routes_split x r Hr) as [[Hsr Hx] |]; [| by right].
    left. split; [done |]. split; [intros ->; congruence | done].
Qed.

(** It enters one of its addresses into the table. *)
Lemma planeOk_enter t' phase' a :
  ta_inet4 t' = ta_inet4 t → ta_inet6 t' = ta_inet6 t → holds t a →
  sessionOk (<[a := mkRoute (ta_peerAddress t) (Some s)]> (tp_routes p)) s t' phase' →
  planeOk (setSession (p <| tp_routes := <[a := mkRoute (ta_peerAddress t) (Some s)]> (tp_routes p) |>) s t' phase').
Proof.
  intros H4 H6 Ha Hok. assert (Hh : ∀ x, holds t' x ↔ holds t x) by (intros x; unfold holds; by rewrite H4, H6).
  apply (planeOk_set p s (tp_pool p) (<[a := mkRoute (ta_peerAddress t) (Some s)]> (tp_routes p)) t' phase' Hp); try done.
  - destruct pool_split as (live & Hrun & Hlive). exists live. split; [done |]. intros x. by rewrite Hh.
  - intros x. rewrite Hh. apply own_addresses.
  - intros x r [[<- <-] | [Hne Hr]]%lookup_insert_Some; rewrite Hh; [by left | by apply routes_split].
  - intros x Hel. apply lookup_insert_ne. intros ->. by apply (own_addresses x Ha).
Qed.

(** It takes one out of the table. *)
Lemma planeOk_leave t' phase' a :
  ta_inet4 t' = ta_inet4 t → ta_inet6 t' = ta_inet6 t → holds t a → sessionOk (delete a (tp_routes p)) s t' phase' →
  planeOk (setSession (p <| tp_routes := delete a (tp_routes p) |>) s t' phase').
Proof.
  intros H4 H6 Ha Hok. assert (Hh : ∀ x, holds t' x ↔ holds t x) by (intros x; unfold holds; by rewrite H4, H6).
  apply (planeOk_set p s (tp_pool p) (delete a (tp_routes p)) t' phase' Hp); try done.
  - destruct pool_split as (live & Hrun & Hlive). exists live. split; [done |]. intros x. by rewrite Hh.
  - intros x. rewrite Hh. apply own_addresses.
  - intros x r [Hne Hr]%lookup_delete_Some. rewrite Hh. by apply routes_split.
  - intros x Hel. apply lookup_delete_ne. intros ->. by apply (own_addresses x Ha).
Qed.

End Step.

(** ** Every step keeps it *)

Lemma slotOk_phase routes s a entering leaving phase phase' :
  slotOk routes s a entering leaving phase → phase ≠ entering → phase ≠ leaving → phase' ≠ entering → phase' ≠ leaving →
  slotOk routes s a entering leaving phase'.
Proof. intros [H1 H2 H3]. split; [auto | done..]. Qed.

Lemma slotOk_frame routes routes' s a entering leaving phase :
  slotOk routes s a entering leaving phase → routes' !! a = routes !! a → slotOk routes' s a entering leaving phase.
Proof. intros [H1 H2 H3] Heq. split; unfold routedTo; rewrite ?Heq; done. Qed.

Lemma slotOk_invalid routes s entering leaving phase :
  phase ≠ entering → phase ≠ leaving → slotOk routes s AddrInvalid entering leaving phase.
Proof. by split. Qed.

Lemma families_differ a b : Addr_IsValid a = true → Is4 a = true → (Addr_IsValid b = true → Is4 b = false) → a ≠ b.
Proof. intros Hv H4 H6 ->. rewrite H6 in H4 by done. done. Qed.

Lemma allocated4 p live id lease pool :
  run_ok (p, live) → AllocateIPv4ForIdentity p id = (Ok lease, pool) →
  run_ok (pool, lease_Client lease :: live) ∧ ∃ v, lease_Client lease = Addr4 v.
Proof.
  intros Hrun Hal. pose proof (poolStep_AllocateIPv4 p live id Hrun) as H. cbn in H. rewrite Hal in H. split; [done |].
  pose proof (AllocateIPv4_configured _ _ _ _ Hal) as H4.
  apply AllocateIPv4_ok in Hal as (Hl & _); [| apply Hrun | apply Hrun].
  by apply (candidates_is4 p _ (ro_pool _ Hrun) H4), list_elem_of_fmap_2.
Qed.

Lemma allocated6 p live id address pool :
  run_ok (p, live) → AllocateIPv6ForIdentity p id = (Ok address, pool) →
  run_ok (pool, address :: live) ∧ ∃ v, address = Addr6 v.
Proof.
  intros Hrun Hal. pose proof (poolStep_AllocateIPv6 p live id Hrun) as H. cbn in H. rewrite Hal in H. split; [done |].
  apply AllocateIPv6_ok in Hal as (Hc & _). by apply (candidate6_is6 p _ (ro_pool _ Hrun)).
Qed.

(** The parts of a session that a step does not touch. *)
Ltac sessionStays := split; cbn; try done; try (by intros; auto); try (intros; congruence); try (by eapply slotOk_phase); try (by apply slotOk_invalid).

Definition acquiring (phase : tunnelPhase) : bool :=
  match phase with Allocating4 | Registering4 | Allocating6 | Registering6 => true | _ => false end.

Lemma planeOk_acquire duplicateCN now p s t phase :
  acquiring phase = true → planeOk p → tp_sessions p !! s = Some (t, phase) → planeOk (tunnelCall duplicateCN now p s t phase).
Proof.
  intros Hph Hp Hs. pose proof (pk_sessions _ Hp s t phase Hs) as [Hpeer H4 H6 S4 S6]. destruct phase; try discriminate Hph; cbn [tunnelCall].
  - destruct (HasIPv4 (tp_pool p)) eqn:Hhas; cbn [andb].
    2: { apply (planeOk_keep p Hp s t _ Hs); try done. sessionStays. }
    destruct (Addr_IsValid (ta_inet4 t)) eqn:Hv; cbn [negb].
    { apply (planeOk_keep p Hp s t _ Hs); try done. sessionStays. }
    destruct (pool_split p Hp s t _ Hs) as (live & Hrun & Hlive).
    destruct (AllocateIPv4ForIdentity (tp_pool p) (stickyIdentity duplicateCN t)) as [[lease | e] pool] eqn:Hal.
    + destruct (allocated4 _ _ _ _ _ Hrun Hal) as [Hrun' [v Hlease]].
      eapply (planeOk_gain p Hp s t _ Hs pool _ _ (lease_Client lease) live Hrun' Hlive).
      * intros x. unfold holds. cbn. rewrite Hlease. split; [intros [Hx [<- | <-]]; auto |].
        intros [-> | [Hx [Heq | Heq]]]; [by auto | congruence | auto].
      * rewrite Hlease. sessionStays; by split.
    + destruct (AllocateIPv4_err _ _ _ _ (ro_pool _ Hrun) (ro_times _ Hrun) Hal) as [-> _].
      replace (p <| tp_pool := tp_pool p |>) with p by (by destruct p).
      apply (planeOk_keep p Hp s t _ Hs); try done. sessionStays.
  - pose proof (so_entering _ _ _ _ _ _ S4 eq_refl) as Hv. unfold Register. rewrite Hv, bool_decide_eq_false_2 by done. cbn [negb orb].
    apply (planeOk_enter p Hp s t _ Hs); [done | done | split; auto |].
    split; try done; [split; [intros _ _ _; eexists; by rewrite lookup_insert_eq | done..] |].
    eapply slotOk_frame; [by eapply slotOk_phase |]. apply lookup_insert_ne. apply families_differ; auto.
  - destruct (HasIPv6 (tp_pool p)) eqn:Hhas; cbn [andb].
    2: { apply (planeOk_keep p Hp s t _ Hs); try done. sessionStays. }
    destruct (Addr_IsValid (ta_inet6 t)) eqn:Hv; cbn [negb].
    { apply (planeOk_keep p Hp s t _ Hs); try done. sessionStays. }
    destruct (pool_split p Hp s t _ Hs) as (live & Hrun & Hlive).
    destruct (AllocateIPv6ForIdentity (tp_pool p) (stickyIdentity duplicateCN t)) as [[address | e] pool] eqn:Hal.
    + destruct (allocated6 _ _ _ _ _ Hrun Hal) as [Hrun' [v ->]].
      eapply (planeOk_gain p Hp s t _ Hs pool _ _ (Addr6 v) live Hrun' Hlive).
      * intros x. unfold holds. cbn. split; [intros [Hx [<- | <-]]; auto |].
        intros [-> | [Hx [Heq | Heq]]]; [by auto | auto | congruence].
      * sessionStays; by split.
    + rewrite (AllocateIPv6_err _ _ _ _ Hal).
      replace (p <| tp_pool := tp_pool p |>) with p by (by destruct p).
      apply (planeOk_keep p Hp s t _ Hs); try done. sessionStays.
  - pose proof (so_entering _ _ _ _ _ _ S6 eq_refl) as Hv. unfold Register. rewrite Hv, bool_decide_eq_false_2 by done. cbn [negb orb].
    apply (planeOk_enter p Hp s t _ Hs); [done | done | split; auto |].
    split; try done; [| split; [intros _ _ _; eexists; by rewrite lookup_insert_eq | done..]].
    eapply slotOk_frame; [by eapply slotOk_phase |]. destruct (Addr_IsValid (ta_inet4 t)) eqn:E4.
    + apply lookup_insert_ne. intros Heq. by apply (families_differ (ta_inet4 t) (ta_inet6 t)); auto.
    + apply lookup_insert_ne. congruence.
Qed.

Lemma planeOk_giveUp duplicateCN now p s t phase :
  acquiring phase = false → 0 ≤ now → planeOk p → tp_sessions p !! s = Some (t, phase) → planeOk (tunnelCall duplicateCN now p s t phase).
Proof.
  intros Hph Hn Hp Hs. pose proof (pk_sessions _ Hp s t phase Hs) as [Hpeer H4 H6 S4 S6]. destruct phase; try discriminate Hph; cbn [tunnelCall].
  - done.
  - destruct (Addr_IsValid (ta_inet4 t)) eqn:Hv.
    + unfold Unregister. rewrite Hv. cbn [negb]. apply (planeOk_leave p Hp s t _ Hs); [done | done | split; auto |].
      sessionStays; [split; [done.. |]; intros _; split; [done | apply lookup_delete_eq] |].
      eapply slotOk_frame; [by eapply slotOk_phase |]. apply lookup_delete_ne. apply families_differ; auto.
    + apply (planeOk_keep p Hp s t _ Hs); try done. sessionStays; (split; [congruence | done..]).
  - destruct (so_leaving _ _ _ _ _ _ S4 eq_refl) as [Hv Hnone].
    apply (planeOk_lose p Hp s t _ Hs now _ _ (ta_inet4 t)); [done | | split; auto | done |].
    + intros x. unfold holds. cbn. pose proof (families_differ (ta_inet4 t) (ta_inet6 t) Hv (H4 Hv) H6) as Hne. split.
      * intros [Hx [<- | <-]]; [done | auto].
      * intros (Hne' & Hx & [<- | <-]); [done | auto].
    + sessionStays.
  - destruct (Addr_IsValid (ta_inet6 t)) eqn:Hv.
    + unfold Unregister. rewrite Hv. cbn [negb]. apply (planeOk_leave p Hp s t _ Hs); [done | done | split; auto |].
      sessionStays; [| split; [done.. |]; intros _; split; [done | apply lookup_delete_eq]].
      eapply slotOk_frame; [by eapply slotOk_phase |]. apply lookup_delete_ne. intros Heq. rewrite <- Heq in *.
      specialize (H4 Hv). rewrite H6 in H4 by done. done.
    + apply (planeOk_keep p Hp s t _ Hs); try done. sessionStays; (split; [congruence | done..]).
  - destruct (so_leaving _ _ _ _ _ _ S6 eq_refl) as [Hv Hnone].
    apply (planeOk_lose p Hp s t _ Hs now _ _ (ta_inet6 t)); [done | | split; auto | done |].
    + intros x. unfold holds. cbn. split.
      * intros [Hx [<- | <-]]; [split; [| auto] | done]. intros Heq. rewrite Heq in *. specialize (H4 Hx). rewrite H6 in H4 by done. done.
      * intros (Hne' & Hx & [<- | <-]); [auto | done].
    + sessionStays.
Qed.

Lemma planeOk_open p s peerAddress identity :
  planeOk p → tp_sessions p !! s = None → peerAddress ≠ EmptyString →
  planeOk (setSession p s (mkTunnelSession peerAddress identity AddrInvalid AddrInvalid AddrInvalid) Idle).
Proof.
  intros Hp Hs Hne. assert (Hh : ∀ a, ¬ holds (mkTunnelSession peerAddress identity AddrInvalid AddrInvalid AddrInvalid) a)
    by (intros a [Hv [<- | <-]]; done).
  assert (Hel : ∀ a s' t' ph', tp_sessions p !! s' = Some (t', ph') → holds t' a → heldElsewhere (tp_sessions p) s a).
  { intros a s' t' ph' Hl Ha. exists s', t', ph'. split; [congruence | done]. }
  apply (planeOk_set p s (tp_pool p) (tp_routes p) _ _ Hp); try done.
  - destruct (pk_pool _ Hp) as (live & Hrun & Hlive). exists live. split; [done |]. intros a. rewrite Hlive. split.
    + intros (s' & t' & ph' & Hl & Ha). left. by eapply Hel.
    + intros [(s' & t' & ph' & _ & Hl & Ha) | Ha%Hh]; [by exists s', t', ph' | done].
  - intros a Ha%Hh. done.
  - intros a r Hr. right. split; [done |]. destruct (pk_routes _ Hp a r Hr) as (s' & t' & ph' & _ & Hl & Ha). by eapply Hel.
Qed.

Lemma planeOk_step duplicateCN p p' : tunnelStep duplicateCN p p' → planeOk p → planeOk p'.
Proof.
  intros Hstep Hp. destruct Hstep as [p s pa id Hs Hne | p s t phase pa id Hs Hne | p s t Hs | p s t Hs | p s t phase now Hn Hs].
  - by apply planeOk_open.
  - pose proof (pk_sessions _ Hp _ _ _ Hs) as [Hpeer H4 H6 S4 S6]. by apply (planeOk_keep p Hp s t _ Hs).
  - pose proof (pk_sessions _ Hp _ _ _ Hs) as [Hpeer H4 H6 S4 S6]. apply (planeOk_keep p Hp s t _ Hs); try done. sessionStays.
  - pose proof (pk_sessions _ Hp _ _ _ Hs) as [Hpeer H4 H6 S4 S6]. apply (planeOk_keep p Hp s t _ Hs); try done. sessionStays.
  - destruct (acquiring phase) eqn:E; [by apply planeOk_acquire | by apply planeOk_giveUp].
Qed.

Lemma planeOk_reachable pools topo local pool duplicateCN p :
  prefixes_wf pools → prepareServerDataPlane pools topo local = Ok (Some pool) →
  rtc (tunnelStep duplicateCN) (mkPlane pool ∅ ∅) p → planeOk p.
Proof.
  intros Hwf Hpool H. remember (mkPlane pool ∅ ∅) as p0 eqn:H0. assert (Hok : planeOk p0).
  { subst p0. split; cbn; try done. exists []. split; [apply (prepare_run_ok pools topo local pool [] Hwf Hpool); constructor |].
    intros a. split; [by intros ?%elem_of_nil | by intros (? & ? & ? & ? & _)]. }
  clear H0. induction H as [| p1 p2 p3 Hstep _ IH]; [done |]. by eapply IH, planeOk_step.
Qed.

(** C6: a tunnel address belongs to one session and its packets go to that session,
    however the calls of the sessions that come, are pushed their configuration, move
    and end interleave: no two sessions hold the same address, every route leads to
    the session that holds its address, a session that is in neither method has a
    route for each of its addresses, and an address the pool counts as used is held by
    a session. *)
Theorem tunnel_addresses_owned pools topo local pool duplicateCN p :
  prefixes_wf pools → prepareServerDataPlane pools topo local = Ok (Some pool) →
  rtc (tunnelStep duplicateCN) (mkPlane pool ∅ ∅) p →
  (∀ a s1 t1 ph1 s2 t2 ph2, tp_sessions p !! s1 = Some (t1, ph1) → tp_sessions p !! s2 = Some (t2, ph2) → holds t1 a → holds t2 a → s1 = s2) ∧
  (∀ a r, tp_routes p !! a = Some r → ∃ s t phase, pr_session r = Some s ∧ tp_sessions p !! s = Some (t, phase) ∧ holds t a) ∧
  (∀ s t a, tp_sessions p !! s = Some (t, Idle) → holds t a → routedTo (tp_routes p) a s) ∧
  (∀ a, a ∈ pt_UsedSet (ip_ipv4 (tp_pool p)) → ∃ s t phase, tp_sessions p !! s = Some (t, phase) ∧ holds t a).
Proof.
  intros Hwf Hpool Hrun. destruct (planeOk_reachable _ _ _ _ _ _ Hwf Hpool Hrun) as [(live & Hro & Hlive) Hd Hr Hs]. split_and!.
  - intros a s1 t1 ph1 s2 t2 ph2 H1 H2 Ha1 Ha2. destruct (decide (s1 = s2)) as [| Hne]; [done |].
    destruct (Hd s1 t1 ph1 a H1 Ha1). by exists s2, t2, ph2.
  - done.
  - intros s t a Hl [Hv [<- | <-]]; destruct (Hs s t Idle Hl) as [_ _ _ S4 S6]; [by apply S4 | by apply S6].
  - intros a [Ha _]%(ro_used _ Hro). by apply Hlive.
Qed.

(** Two sessions; the first ends while the second is between its calls. *)
Definition examplePools : list (option prefix) := [Some (mkPrefix (Addr4 (10 * 2 ^ 24)) 29)].
Definition examplePool : ipPool :=
  match prepareServerDataPlane examplePools "subnet" [] with Ok (Some p) => p | _ => mkPool None EmptyString AddrInvalid AddrInvalid AddrInvalid emptyTable None AddrInvalid emptyTable end.
Definition callOf (s : Z) (p : tunnelPlane) : tunnelPlane :=
  match tp_sessions p !! s with Some (t, phase) => tunnelCall false 7 p s t phase | None => p end.
Definition beginOf (s : Z) (phase : tunnelPhase) (p : tunnelPlane) : tunnelPlane :=
  match tp_sessions p !! s with Some (t, Idle) => setSession p s t phase | _ => p end.
Definition openOf (s : Z) (peerAddress identity : string) (p : tunnelPlane) : tunnelPlane :=
  match tp_sessions p !! s with None => setSession p s (mkTunnelSession peerAddress identity AddrInvalid AddrInvalid AddrInvalid) Idle | _ => p end.

Lemma callOf_rtc s p0 p : rtc (tunnelStep false) p0 p → rtc (tunnelStep false) p0 (callOf s p).
Proof.
  intros H. unfold callOf. destruct (tp_sessions p !! s) as [[t phase] |] eqn:E; [| done]. eapply rtc_r; [done |]. by apply TunnelCall.
Qed.

Lemma beginOf_rtc s phase p0 p :
  phase = Allocating4 ∨ phase = Unregistering4 → rtc (tunnelStep false) p0 p → rtc (tunnelStep false) p0 (beginOf s phase p).
Proof.
  intros Hph H. unfold beginOf. destruct (tp_sessions p !! s) as [[t []] |] eqn:E; try done. eapply rtc_r; [done |].
  destruct Hph as [-> | ->]; [by apply TunnelAllocate | by apply TunnelRelease].
Qed.

Lemma openOf_rtc s peerAddress identity p0 p :
  peerAddress ≠ EmptyString → rtc (tunnelStep false) p0 p → rtc (tunnelStep false) p0 (openOf s peerAddress identity p).
Proof. intros Hne H. unfold openOf. destruct (tp_sessions p !! s) eqn:E; [done |]. eapply rtc_r; [done |]. by apply TunnelOpen. Qed.

Definition examplePlane : tunnelPlane :=
  callOf 2 (callOf 2 (callOf 1 (callOf 1 (callOf 1 (callOf 2 (beginOf 1 Unregistering4 (beginOf 2 Allocating4 (openOf 2 "192.0.2.2:1194" "bob"
    (callOf 1 (callOf 1 (callOf 1 (beginOf 1 Allocating4 (openOf 1 "192.0.2.1:1194" "alice" (mkPlane examplePool ∅ ∅)))))))))))))).

Lemma tunnel_addresses_owned_witness :
  tp_sessions examplePlane !! 2 = Some (mkTunnelSession "192.0.2.2:1194" "bob" (Addr4 (10 * 2 ^ 24 + 3)) AddrInvalid AddrInvalid, Idle) ∧
  routedTo (tp_routes examplePlane) (Addr4 (10 * 2 ^ 24 + 3)) 2.
Proof.
  assert (Hl : tp_sessions examplePlane !! 2 = Some (mkTunnelSession "192.0.2.2:1194" "bob" (Addr4 (10 * 2 ^ 24 + 3)) AddrInvalid AddrInvalid, Idle))
    by (vm_compute; reflexivity).
  split; [done |].
  refine (proj1 (proj2 (proj2 (tunnel_addresses_owned examplePools "subnet" [] examplePool false examplePlane _ _ _))) 2 _ _ Hl _).
  - intros pre Hpre. apply list_elem_of_singleton in Hpre as [= ->]. split; cbn; lia.
  - vm_compute. reflexivity.
  - unfold examplePlane. repeat match goal with
      | |- rtc _ _ (callOf _ _) => apply callOf_rtc
      | |- rtc _ _ (beginOf _ _ _) => apply beginOf_rtc; [by auto |]
      | |- rtc _ _ (openOf _ _ _ _) => apply openOf_rtc; [done |]
      | |- rtc _ _ (mkPlane _ _ _) => apply rtc_refl
      end.
  - split; [done | by left].
Defined.
