(* ===== verification/ClientSession.v ===== *)
(** * A client's TLS session ([client_session_tls.go], [client_control.go],
      [control_directives.go])

    How a session is established: the exchange of resets, the key method messages,
    the pulled configuration, and what the control messages of the server do
    afterwards.  TLS, the socket and the clock are not modelled: a loop is a function
    of a script with what each of its calls returned, and TLS's exported key material
    is an argument.  What a procedure writes is part of its result. *)

From Stdlib Require Import Strings.Ascii.
From S2P Require Import Prelude GoStrings Packet Session Netip Crypto Codec ControlWrap Compression KeyMethod Options Negotiation PushOptions TunnelConfig Auth Supervisor ControlChannel.

Definition ErrHandshakeTimeout : goerr := ErrNew "control handshake timeout".
Definition ErrNoPushReply : goerr := ErrNew "server did not reply to push requests".
Definition ErrAuthPendingTimeout : goerr := ErrNew "pending authentication timed out".

Definition tlsHandshakeRetryMaximum : Z := 60 * Second.

(** What a read of a control record or of a packet returns. *)
Inductive readOutcome := ReadData (data : bytes) | ReadTimedOut | ReadFailed (err : goerr).

(** ** Resets *)

Section Resets.
Context (cr : Crypto).

Record handshakeState := mkHandshake {
  hs_manager : SessionManager;
  hs_protection : tlsControlProtection;
  hs_resendWrappedClientKey : bool;
}.

#[export] Instance eta_handshakeState : Eta handshakeState := λ s,
  mkHandshake (hs_manager s) (hs_protection s) (hs_resendWrappedClientKey s).

(** One round of the loop: the clock in the loop's condition, what the read returned,
    the clock of the replay protection, and, after a timeout, the clock, what the
    retransmission returned and the clock after it. *)
Record resetRound := mkResetRound {
  rr_now : Time;
  rr_read : readOutcome;
  rr_reapNow : Time;
  rr_decodeNow : Time;
  rr_late : Time;
  rr_rewrite : option goerr;
  rr_rewritten : Time;
}.

Definition clientResetPacket (m : SessionManager) (wrappedClientKey : bytes) : Packet :=
  mkPacket (match wrappedClientKey with [] => OpcodeControlHardResetClientV2 | _ => OpcodeControlHardResetClientV3 end)
    (CurrentKeyID m) zeroPeerID (LocalSessionID m) [] zeroSessionID 0 [].

Definition parseIncomingHandshakePacket (p : tlsControlProtection) (rawPacket : bytes) (reapNow now : Time) : result Packet * tlsControlProtection :=
  match rawPacket with
  | [] => (Err (ErrNew "invalid empty tls control packet"), p)
  | b :: _ =>
      if isControlOrAcknowledgmentOpcode (Z.shiftr (b2z b) 3) then
        let '(decoded, p) := decodeIncomingControlPacket cr p rawPacket reapNow now in
        (packetBytes ← decoded; ParsePacket packetBytes, p)
      else (ParsePacket rawPacket, p)
  end.

Definition handleServerResetEarlyNegotiation (wrappedClientKey : bytes) (packet : Packet) (s : handshakeState) : result handshakeState :=
  if bool_decide (wrappedClientKey = []) || bool_decide (pkt_Payload packet = []) then Ok s else
  resendWrappedClientKey ← tlsCryptV2ServerRequestsWrappedClientKeyResend (pkt_Payload packet);
  Ok (s <| hs_resendWrappedClientKey := resendWrappedClientKey |>).

(** The end of a round that has read a packet: [None] goes on. *)
Definition acceptServerReset (wrappedClientKey rawPacket : bytes) (s : handshakeState) (reapNow now : Time)
    : option (result Packet) * handshakeState :=
  let '(parsed, p) := parseIncomingHandshakePacket (hs_protection s) rawPacket reapNow now in
  let s := s <| hs_protection := p |> in
  match parsed with
  | Err _ => (None, s)
  | Ok packet =>
      if negb (pkt_Opcode packet =? OpcodeControlHardResetServerV2) && negb (pkt_Opcode packet =? OpcodeControlHardResetServerV1) then (None, s) else
      if negb (ValidateIncomingRemoteSessionID (hs_manager s) (Some packet)) then (None, s) else
      let s := s <| hs_manager := SetRemoteSessionID (hs_manager s) (pkt_LocalSessionID packet) |> in
      match handleServerResetEarlyNegotiation wrappedClientKey packet s with
      | Err e => (Some (Err e), s)
      | Ok s => (Some (Ok packet), s)
      end
  end.

(** What the loop did to the socket: the deadlines it set, and the retransmissions. *)
Inductive resetEvent := ReadUntil (deadline : Time) | Retransmitted (at_ : Time).

Definition resetTimeoutError : goerr := ErrExtend ErrHandshakeTimeout "tls control handshake timeout".

(** [None]: the script has ended and the loop waits. *)
Fixpoint resetLoop (wrappedClientKey : bytes) (handshakeDeadline : Time) (rounds : list resetRound) (currentRetryTimeout : Z) (nextRetryTime : Time)
    (s : handshakeState) : list resetEvent * option (result Packet) * handshakeState :=
  match rounds with
  | [] => ([], None, s)
  | r :: rounds =>
      if negb (rr_now r <? handshakeDeadline) then ([], Some (Err resetTimeoutError), s) else
      let readDeadline := if handshakeDeadline <? nextRetryTime then handshakeDeadline else nextRetryTime in
      match rr_read r with
      | ReadFailed e => ([ReadUntil readDeadline], Some (Err e), s)
      | ReadTimedOut =>
          if negb (rr_late r <? handshakeDeadline) then ([ReadUntil readDeadline], Some (Err resetTimeoutError), s) else
          match rr_rewrite r with
          | Some e => ([ReadUntil readDeadline], Some (Err e), s)
          | None =>
              let currentRetryTimeout := Z.min (currentRetryTimeout * 2) tlsHandshakeRetryMaximum in
              let '(events, outcome, s) := resetLoop wrappedClientKey handshakeDeadline rounds currentRetryTimeout (rr_rewritten r + currentRetryTimeout) s in
              (ReadUntil readDeadline :: Retransmitted (rr_late r) :: events, outcome, s)
          end
      | ReadData rawPacket =>
          let '(accepted, s) := acceptServerReset wrappedClientKey rawPacket s (rr_reapNow r) (rr_decodeNow r) in
          match accepted with
          | Some outcome => ([ReadUntil readDeadline], Some outcome, s)
          | None =>
              let '(events, outcome, s) := resetLoop wrappedClientKey handshakeDeadline rounds currentRetryTimeout nextRetryTime s in
              (ReadUntil readDeadline :: events, outcome, s)
          end
      end
  end.

(** [written] is what the first write returned, [now] the clock after it. *)
Definition handshakeReset (tlsTimeout : Z) (wrappedClientKey : bytes) (handshakeDeadline : Time) (written : option goerr) (now : Time)
    (rounds : list resetRound) (s : handshakeState) : list resetEvent * option (result Packet) * handshakeState :=
  match written with
  | Some e => ([], Some (Err e), s)
  | None => resetLoop wrappedClientKey handshakeDeadline rounds tlsTimeout (now + tlsTimeout) s
  end.

(** The octets a reset is sent as. *)
Definition writeHandshakePacket (p : tlsControlProtection) (wrappedClientKey : option bytes) (packet : Packet) (unixNow wrapNow : Z)
    : result bytes * tlsControlProtection :=
  match Packet_Bytes packet with
  | Err e => (Err e, p)
  | Ok rawPacket =>
      let '(rawPacket, p) := encodeOutgoingControlPacket cr p rawPacket unixNow wrapNow in
      (Ok (match wrappedClientKey with Some key => appendTLSCryptV2WrappedClientKey rawPacket key (pkt_Opcode packet) | None => rawPacket end), p)
  end.

End Resets.

(** ** The session's state *)

Record tlsClient := mkTLSClient {
  tk_parent : Client;
  tk_authentication : clientAuthenticationSession;
  tk_session : nat;
  tk_protocol : string;
  tk_useActiveAuthToken : bool;
  tk_clientKeySource : tlsKeyMethodKeySource;
  tk_serverKeySource : tlsKeyMethodKeySource;
  tk_peerInfo : string;
  tk_localOptionsString : string;
  tk_remoteCipherName : string;
  tk_peerID : option Z;
}.

#[export] Instance eta_tlsClient : Eta tlsClient := λ c,
  mkTLSClient (tk_parent c) (tk_authentication c) (tk_session c) (tk_protocol c) (tk_useActiveAuthToken c) (tk_clientKeySource c)
  (tk_serverKeySource c) (tk_peerInfo c) (tk_localOptionsString c) (tk_remoteCipherName c) (tk_peerID c).

Definition tk_options (c : tlsClient) : ClientOptions := cl_options (tk_parent c).
Definition tk_configuration (c : tlsClient) : TunnelConfiguration := ts_configuration (cl_tunnel (tk_parent c)).

Inductive outcome (A : Type) := Success (a : A) | Failure (e : clientErr).
Arguments Success {A} a.
Arguments Failure {A} e.

Definition clientAuthFailed (c : tlsClient) (controlRecord : bytes) : clientErr * tlsClient :=
  let '(e, parent) := authFailedError (tk_authentication c) (tk_parent c) controlRecord in (e, c <| tk_parent := parent |>).

(** ** The key method messages *)

Definition tlsPreferredCipher (options : ClientOptions) : string :=
  default "AES-256-GCM" (List.find nonEmpty (tlsAdvertisedDataCiphers (cdo_Ciphers (co_DataChannel options)))).

(** [auth], or SHA1. *)
Definition authOrDefault (auth : string) : string := if nonEmpty auth then auth else "SHA1".

Section KeyMethod.
Context (GOOS : string).

Definition clientOptionsString (c : tlsClient) : string :=
  buildTLSOptionsStringWithMTU (tk_protocol c) true (IsSet (tls_Auth (co_TLS (tk_options c)))) (cl_compression (tk_parent c))
    (tlsPreferredCipher (tk_options c)) (authOrDefault (cdo_Auth (co_DataChannel (tk_options c)))) (cdo_MTU (co_DataChannel (tk_options c))).

(** The message the exchange sends, and the session that has noted what it sends. *)
Definition clientKeyMethod (random : nat → nat → result bytes) (c : tlsClient) : result (tlsKeyMethodMessage * bytes) * tlsClient :=
  match generateTLSKeyMethodKeySource random true with
  | Err e => (Err e, c)
  | Ok clientKeySource =>
      let '(username, password, a) := sessionCredentials (tk_authentication c) (tk_parent c) (tk_useActiveAuthToken c) in
      let c := c <| tk_authentication := a |> in
      let localOptionsString := clientOptionsString c in
      let message := mkMessage localOptionsString username password
        (buildTLSPeerInfo GOOS (tk_options c) (cpo_Enabled (co_Pull (tk_options c)))) clientKeySource in
      match buildTLSKeyMethod2Payload false message with
      | Err e => (Err e, c)
      | Ok payload => (Ok (message, payload), c <| tk_clientKeySource := clientKeySource |> <| tk_localOptionsString := localOptionsString |>)
      end
  end.

(** What the session does with the server's answer. *)
Definition serverKeyMethod (read : readOutcome) (c : tlsClient) : outcome unit * tlsClient :=
  match read with
  | ReadTimedOut => (Failure (Plain (ErrExtend ErrHandshakeTimeout "key method exchange")), c)
  | ReadFailed e => (Failure (Plain e), c)
  | ReadData controlRecord =>
      if isAuthFailedPayload controlRecord then let '(e, c) := clientAuthFailed c controlRecord in (Failure e, c) else
      match parseTLSKeyMethod2Payload controlRecord true with
      | Err e => (Failure (Plain e), c)
      | Ok serverMessage =>
          (Success tt, c <| tk_serverKeySource := km_KeySource serverMessage |> <| tk_peerInfo := km_PeerInfo serverMessage |>
                         <| tk_remoteCipherName := extractRemoteCipherName (km_OptionsString serverMessage) |>)
      end
  end.

(** [written] is what the write of the payload returned. *)
Definition exchangeKeyMethod (random : nat → nat → result bytes) (written : option goerr) (read : readOutcome) (c : tlsClient)
    : list bytes * outcome unit * tlsClient :=
  let '(message, c) := clientKeyMethod random c in
  match message with
  | Err e => ([], Failure (Plain e), c)
  | Ok (_, payload) =>
      match written with
      | Some e => ([payload], Failure (Plain e), c)
      | None => let '(o, c) := serverKeyMethod read c in ([payload], o, c)
      end
  end.

End KeyMethod.

Definition p2pUsesKeyMaterialExport (c : tlsClient) : bool :=
  negb (cpo_Enabled (co_Pull (tk_options c))) && peerSupportsIVProtoFlag (tk_peerInfo c) tlsIVProtoNCPP2P &&
  peerSupportsIVProtoFlag (tk_peerInfo c) tlsIVProtoTLSKeyExport.

(** [exportedPeerID] are the three octets that TLS exports for the peer id. *)
Definition configureP2PDataChannel (exportedPeerID : result bytes) (c : tlsClient) : outcome (string * string) * tlsClient :=
  match selectP2PCipher (tk_options c) (tk_peerInfo c) with
  | Err e => (Failure (Plain e), c)
  | Ok selectedCipher =>
      let selectedAuth := authOrDefault (cdo_Auth (co_DataChannel (tk_options c))) in
      if negb (peerSupportsIVProtoFlag (tk_peerInfo c) tlsIVProtoNCPP2P) || negb (peerSupportsIVProtoFlag (tk_peerInfo c) tlsIVProtoDataV2)
      then (Success (selectedCipher, selectedAuth), c) else
      if peerSupportsIVProtoFlag (tk_peerInfo c) tlsIVProtoTLSKeyExport then
        match exportedPeerID with
        | Err e => (Failure (Plain (ErrCause e "derive p2p peer id")), c)
        | Ok peerIDMaterial => (Success (selectedCipher, selectedAuth), c <| tk_peerID := Some (be_decode peerIDMaterial) |>)
        end
      else (Success (selectedCipher, selectedAuth), c <| tk_peerID := Some 7762030 |>)
  end.

Section Derive.
Context (cr : Crypto).

(** The client's [deriveKeyMaterial]; [exported] is what TLS exports. *)
Definition clientDeriveKeyMaterial (exported : result bytes) (m : SessionManager) (c : tlsClient) : result bytes :=
  if tunnelUsesKeyMaterialExport (tk_configuration c) || p2pUsesKeyMaterialExport c then exported else
  if negb (keySourcesComplete (tk_clientKeySource c) (tk_serverKeySource c)) then Err (ErrNew "incomplete key source material for PRF derivation") else
  let '(remoteSessionID, hasRemoteSessionID) := RemoteSessionID m in
  if negb hasRemoteSessionID then Err (ErrNew "missing remote session id for PRF derivation") else
  Ok (deriveTLSKeyMaterialPRF cr (ks_PreMaster (tk_clientKeySource c)) (ks_Random1 (tk_clientKeySource c)) (ks_Random1 (tk_serverKeySource c))
        (ks_Random2 (tk_clientKeySource c)) (ks_Random2 (tk_serverKeySource c)) (LocalSessionID m) remoteSessionID).

(** A renegotiation: the deadline, the handshake and the write are what those calls
    returned; [cipher] and [auth] are those of the session. *)
Record renegotiationIO := mkRenegIO {
  ri_deadline : option goerr;
  ri_handshake : option goerr;
  ri_random : nat → nat → result bytes;
  ri_write : option goerr;
  ri_read : readOutcome;
  ri_exported : result bytes;
  ri_unixNow : Z;
}.

Definition clientRenegotiationMaterial (io : renegotiationIO) (m : SessionManager) (clientKeySource : tlsKeyMethodKeySource) (c : tlsClient)
    (serverMessage : tlsKeyMethodMessage) : result bytes :=
  let '(remoteSessionID, hasRemoteSessionID) := RemoteSessionID m in
  if negb hasRemoteSessionID then Err (ErrNew "missing remote session id for renegotiation") else
  deriveRenegotiatedKeyMaterial cr (ri_exported io)
    (tunnelUsesKeyMaterialExport (tk_configuration c) ||
     (negb (cpo_Enabled (co_Pull (tk_options c))) && peerSupportsIVProtoFlag (km_PeerInfo serverMessage) tlsIVProtoNCPP2P &&
      peerSupportsIVProtoFlag (km_PeerInfo serverMessage) tlsIVProtoTLSKeyExport))
    clientKeySource (km_KeySource serverMessage) (LocalSessionID m) remoteSessionID false.

Definition clientRunRenegotiation (GOOS : string) (io : renegotiationIO) (m : SessionManager) (cipher auth : string) (c : tlsClient)
    : list bytes * outcome tlsDataCodec * tlsClient :=
  match ri_deadline io, ri_handshake io, generateTLSKeyMethodKeySource (ri_random io) true with
  | Some e, _, _ | None, Some e, _ | None, None, Err e => ([], Failure (Plain e), c)
  | None, None, Ok clientKeySource =>
      let '(username, password, a) := sessionCredentials (tk_authentication c) (tk_parent c) true in
      let c := c <| tk_authentication := a |> in
      match buildTLSKeyMethod2Payload false
              (mkMessage (tk_localOptionsString c) username password (buildTLSPeerInfo GOOS (tk_options c) false) clientKeySource) with
      | Err e => ([], Failure (Plain e), c)
      | Ok payload =>
          match ri_write io, ri_read io with
          | Some e, _ => ([payload], Failure (Plain e), c)
          | None, ReadTimedOut => ([payload], Failure (Plain (ErrExtend ErrHandshakeTimeout "renegotiated key method exchange")), c)
          | None, ReadFailed e => ([payload], Failure (Plain e), c)
          | None, ReadData controlRecord =>
              if isAuthFailedPayload controlRecord then let '(e, c) := clientAuthFailed c controlRecord in ([payload], Failure e, c) else
              match (serverMessage ← parseTLSKeyMethod2Payload controlRecord true;
                     keyMaterial ← clientRenegotiationMaterial io m clientKeySource c serverMessage;
                     newTLSDataCodec cr (ri_unixNow io) keyMaterial false cipher auth
                       (cdo_ReplayWindow (co_DataChannel (tk_options c))) (cdo_ReplayWindowTime (co_DataChannel (tk_options c)))) with
              | Err e => ([payload], Failure (Plain e), c)
              | Ok codec => ([payload], Success codec, c)
              end
          end
      end
  end.

End Derive.

(** ** The pulled configuration *)

(** [random] seeds the framing that a pushed compression may install. *)
Definition applyDecodedPushedOptions (c : tlsClient) (o : pushedOptions) (random : Z) : option goerr * tlsClient :=
  let '(applyResult, _, _, parent) := applyPushedOptions (tk_parent c) o random in
  let c := c <| tk_parent := parent |> in
  if nonEmpty (ar_pullFilterRejection applyResult) then (Some ErrPullFilterRejected, c) else
  if nonEmpty (ar_compressionPushRejection applyResult) then (Some ErrCompressionPushRejected, c) else
  (None, match po_PeerID o with Some _ => c <| tk_peerID := po_PeerID o |> | None => c end).

Record pullState := mkPull {
  pl_client : tlsClient;
  pl_selectedCipher : string;
  pl_selectedAuth : string;
  pl_lines : list string;
  pl_continuationPending : bool;
  pl_authenticationPending : bool;
  pl_deadline : Time;
  pl_nextPushRequest : Time;
}.

#[export] Instance eta_pullState : Eta pullState := λ s,
  mkPull (pl_client s) (pl_selectedCipher s) (pl_selectedAuth s) (pl_lines s) (pl_continuationPending s) (pl_authenticationPending s)
  (pl_deadline s) (pl_nextPushRequest s).

(** A round of the loop: the clock in its condition, the last inbound time, what the
    read returned; after a failed read, the error of a cancelled challenge, the clock,
    the last inbound time and what a repeated request's write returned; the clock, the
    challenge id and the random number the handling of a record may use. *)
Record pullRound := mkPullRound {
  pu_now : Time;
  pu_lastInbound : Time;
  pu_read : readOutcome;
  pu_cancelled : option goerr;
  pu_late : Time;
  pu_lateInbound : Time;
  pu_write : option goerr;
  pu_pendingNow : Time;
  pu_newID : string;
  pu_random : Z;
}.

(** What becomes of a round: the loop goes on, returns, or panics. *)
Inductive pullNext :=
| PullContinue (s : pullState)
| PullReturn (o : outcome (string * string)) (s : pullState)
| PullPanic.

Section Pull.
Context (remoteHost : Addr) (pingRestart : Z).

(** The deadline of the read. *)
Definition pullReadDeadline (s : pullState) (lastInbound : Time) : Time :=
  let readDeadline := if pl_nextPushRequest s <? pl_deadline s then pl_nextPushRequest s else pl_deadline s in
  if 0 <? pingRestart then
    let pingDeadline := lastInbound + pingRestart in if pingDeadline <? readDeadline then pingDeadline else readDeadline
  else readDeadline.

(** A read that failed: whether a request is written again, and what follows. *)
Definition pullFailedRead (s : pullState) (r : pullRound) (failed : option goerr) : bool * pullNext :=
  match pu_cancelled r with
  | Some e => (false, PullReturn (Failure (Plain e)) s)
  | None =>
      match failed with
      | Some e => (false, PullReturn (Failure (Plain e)) s)
      | None =>
          if (0 <? pingRestart) && shouldExitForPingTimeout (pu_lateInbound r) (pu_late r) pingRestart
          then (false, PullReturn (Failure (Plain ErrPingRestartTimeout)) s) else
          if pu_late r <? pl_nextPushRequest s then (false, PullContinue s) else
          match pu_write r with
          | Some e => (true, PullReturn (Failure (Plain e)) s)
          | None => (true, PullContinue (s <| pl_nextPushRequest := pu_late r + tlsPushRequestResendInterval |>))
          end
      end
  end.

(** The options of a complete reply. *)
Definition pullApply (s : pullState) (o : pushedOptions) (random : Z) : pullNext :=
  let '(applyErr, c) := applyDecodedPushedOptions (pl_client s) o random in
  let s := s <| pl_client := c |> in
  match applyErr with
  | Some e => PullReturn (Failure (Plain e)) s
  | None =>
      let s := if nonEmpty (po_SelectedCipher o) then s <| pl_selectedCipher := po_SelectedCipher o |> else s in
      let s := if nonEmpty (po_SelectedAuth o) then s <| pl_selectedAuth := po_SelectedAuth o |> else s in
      if nonEmpty (pl_selectedCipher s) then PullReturn (Success (pl_selectedCipher s, pl_selectedAuth s)) s else
      match selectPulledCipher (tk_options c) (tk_remoteCipherName c) with
      | Err e => PullReturn (Failure (Plain e)) s
      | Ok resolvedCipher => PullReturn (Success (resolvedCipher, pl_selectedAuth s)) (s <| pl_selectedCipher := resolvedCipher |>)
      end
  end.

Definition pullPushReply (s : pullState) (controlRecord : bytes) (random : Z) : pullNext :=
  let filters := cpo_Filters (co_Pull (tk_options (pl_client s))) in
  match appendPushReplyPayloadSegment (pl_lines s) controlRecord with
  | Some (accumulatedLines, continuation) =>
      let s := s <| pl_lines := accumulatedLines |> <| pl_continuationPending := continuation =? 2 |> in
      if continuation =? 2 then PullContinue s else
      match accumulatedLines with
      | [] => PullPanic
      | commandName :: optionLines => pullApply (s <| pl_lines := [] |>) (decodePushReplyOptionLines commandName optionLines remoteHost filters).1 random
      end
  | None =>
      match decodePushReplyPayloadWithFilters controlRecord remoteHost filters with
      | None => PullContinue (s <| pl_continuationPending := false |>)
      | Some (o, continuation) =>
          let s := s <| pl_continuationPending := continuation =? 2 |> in
          if continuation =? 2 then PullContinue s else pullApply s o random
      end
  end.

Definition withAuthentication (s : pullState) (a : option clientAuthenticationSession) : pullNext :=
  match a with
  | None => PullPanic
  | Some a => PullContinue (s <| pl_client := (pl_client s) <| tk_authentication := a |> |>)
  end.

Definition pullRecord (s : pullState) (r : pullRound) (controlRecord : bytes) : pullNext :=
  let c := pl_client s in
  match classifyTLSControlDirective controlRecord with
  | tlsControlDirectiveAuthFailed => let '(e, c) := clientAuthFailed c controlRecord in PullReturn (Failure e) (s <| pl_client := c |>)
  | tlsControlDirectiveAuthPending =>
      let deadline := authPendingDeadline (tk_options c) controlRecord (pu_pendingNow r) in
      let s := s <| pl_deadline := deadline |> <| pl_authenticationPending := true |> in
      withAuthentication s (updateChallengeDeadline (tk_authentication c) (OwnerSession (tk_session c)) deadline)
  | tlsControlDirectiveRestart => PullReturn (Failure (newServerRestartError controlRecord)) s
  | tlsControlDirectiveHalt => PullReturn (Failure (Plain ErrServerHalt)) s
  | tlsControlDirectiveExit => PullReturn (Failure (Plain ErrServerExit)) s
  | tlsControlDirectiveInfoPre =>
      withAuthentication s (handleServerPushedInfo (tk_authentication c) (tk_options c) (tk_session c) (pu_newID r) controlRecord (pl_deadline s))
  | tlsControlDirectivePushReply => pullPushReply s controlRecord (pu_random r)
  | tlsControlDirectiveInfo | tlsControlDirectiveCRResponse | tlsControlDirectiveUnknown => PullContinue s
  end.

Definition pullTimeoutError (s : pullState) : goerr :=
  if pl_authenticationPending s then ErrAuthPendingTimeout else
  if pl_continuationPending s then ErrExtend ErrNoPushReply "incomplete push continuation" else ErrNoPushReply.

(** One round; the number is that of the requests it writes. *)
Definition pullStep (s : pullState) (r : pullRound) : nat * pullNext :=
  if negb (pu_now r <? pl_deadline s) then (0%nat, PullReturn (Failure (Plain (pullTimeoutError s))) s) else
  match pu_read r with
  | ReadData controlRecord => (0%nat, pullRecord s r controlRecord)
  | ReadTimedOut => let '(wrote, next) := pullFailedRead s r None in (if wrote : bool then 1%nat else 0%nat, next)
  | ReadFailed e => let '(wrote, next) := pullFailedRead s r (Some e) in (if wrote : bool then 1%nat else 0%nat, next)
  end.

(** The script has ended and the loop waits, or what the loop returns. *)
Fixpoint pullLoop (s : pullState) (rounds : list pullRound) : pullNext :=
  match rounds with
  | [] => PullContinue s
  | r :: rounds => match (pullStep s r).2 with PullContinue s => pullLoop s rounds | next => next end
  end.

End Pull.

(** [written] is what the first request's write returned. *)
Definition pullConfigurationAndCipher (remoteHost : Addr) (c : tlsClient) (now : Time) (written : option goerr) (rounds : list pullRound) : pullNext :=
  let deadline := now + cti_HandWindow (co_Timing (tk_options c)) in
  let s := mkPull c EmptyString (authOrDefault (cdo_Auth (co_DataChannel (tk_options c)))) [] false false deadline
             (now + tlsPushRequestResendInterval) in
  match written with
  | Some e => PullReturn (Failure (Plain e)) s
  | None => pullLoop remoteHost (prePullPingRestart (tk_options c) (tk_protocol c)) s rounds
  end.

(** ** Control messages *)

(** What a message of an established session does: the error it ends the session with. *)
Definition dispatchControlDirective (remoteHost : Addr) (newID : string) (random : Z) (c : tlsClient) (controlRecord : bytes)
    : option (option clientErr * tlsClient) :=
  match classifyTLSControlDirective controlRecord with
  | tlsControlDirectiveAuthFailed => let '(e, c) := clientAuthFailed c controlRecord in Some (Some e, c)
  | tlsControlDirectiveRestart => Some (Some (newServerRestartError controlRecord), c)
  | tlsControlDirectiveHalt => Some (Some (Plain ErrServerHalt), c)
  | tlsControlDirectiveExit => Some (Some (Plain ErrServerExit), c)
  | tlsControlDirectiveInfoPre =>
      a ← handleServerPushedInfo (tk_authentication c) (tk_options c) (tk_session c) newID controlRecord 0;
      Some (None, c <| tk_authentication := a |>)
  | tlsControlDirectivePushReply =>
      match decodePushReplyPayloadWithFilters controlRecord remoteHost (cpo_Filters (co_Pull (tk_options c))) with
      | None => Some (None, c)
      | Some (o, _) => let '(e, c) := applyDecodedPushedOptions c o random in Some (Plain <$> e, c)
      end
  | _ => Some (None, c)
  end.

(** A round of [controlMessageLoop]: whether the context is done, what the read
    returned, and what a challenge and a framing would use. *)
Record controlRound := mkControlRound { cr_done : bool; cr_read : readOutcome; cr_newID : string; cr_random : Z }.

(** The error the session finishes with, [None] while the loop runs; the outer [None]
    is a panic. *)
Fixpoint controlMessageLoop (remoteHost : Addr) (c : tlsClient) (rounds : list controlRound) : option (option (option clientErr) * tlsClient) :=
  match rounds with
  | [] => Some (None, c)
  | r :: rounds =>
      if cr_done r then Some (Some None, c) else
      match cr_read r with
      | ReadTimedOut => controlMessageLoop remoteHost c rounds
      | ReadFailed e => Some (Some (Some (Plain e)), c)
      | ReadData controlRecord =>
          '(dispatchErr, c) ← dispatchControlDirective remoteHost (cr_newID r) (cr_random r) c controlRecord;
          match dispatchErr with Some e => Some (Some (Some e), c) | None => controlMessageLoop remoteHost c rounds end
      end
  end.

(** How the server learns that the client leaves. *)
Inductive exitNotice := ExitOverControlChannel | ExitOverDataChannel.

Definition sendExplicitExitNotifyIfRequested (c : tlsClient) (hasControlChannel hasPrimary hasCodec : bool) : list exitNotice :=
  if negb (HasPrefix (tk_protocol c) "udp") then [] else
  let notifyCount := tc_ExplicitExitNotify (tk_configuration c) in
  if notifyCount <=? 0 then [] else
  if negb hasControlChannel then [] else
  if shouldSendCCExitOverControlChannel (tk_configuration c) then (if hasPrimary then [ExitOverControlChannel] else []) else
  if negb hasCodec then [] else replicate (Z.to_nat notifyCount) ExitOverDataChannel.

(** ** The end of a session *)

(** [ce_done] is what the channel [done] delivers: the first error. *)
Record clientSessionEnd := mkEnd {
  ce_ready : bool;
  ce_done : option (option clientErr);
  ce_cancelled : bool;
  ce_challengeCancelErr : option goerr;
  ce_authentication : clientAuthenticationSession;
}.

#[export] Instance eta_clientSessionEnd : Eta clientSessionEnd := λ e,
  mkEnd (ce_ready e) (ce_done e) (ce_cancelled e) (ce_challengeCancelErr e) (ce_authentication e).

Definition setReady (ready : bool) (s : clientSessionEnd) : clientSessionEnd := s <| ce_ready := ready |>.

(** [None] is a panic of the authentication's signal. *)
Definition finish (session : nat) (err : option clientErr) (s : clientSessionEnd) : option clientSessionEnd :=
  let s := setReady false s in
  a ← clearChallengeOwnedBy (ce_authentication s) (OwnerSession session);
  let s := s <| ce_authentication := a |> in
  let s := match ce_done s with Some _ => s | None => s <| ce_done := Some err |> end in
  Some (s <| ce_cancelled := true |>).

(** The [cancel] of a challenge the server pushed: the session's [finish], then that of
    its [Close]. *)
Definition cancelPushedChallenge (session : nat) (s : clientSessionEnd) : option clientSessionEnd :=
  s ← finish session (Some (Plain ErrChallengeCanceled)) (s <| ce_challengeCancelErr := Some ErrChallengeCanceled |>);
  finish session None s.
