(* ===== verification/ServerHandshake.v ===== *)
(** * A server's TLS session ([server_session.go], [server_renegotiation.go])

    The handshake of a session as one procedure whose effects are a trace, in their
    order.  What TLS, the registries of [ServerSessions], the socket and the clock
    answer are arguments; whatever the procedure decides itself is computed.  The
    control loop answers the client's requests with the addresses of [ServerTunnel]. *)

From Stdlib Require Import Strings.Ascii.
From S2P Require Import Prelude GoStrings Packet Session Netip IPPool RouteRegistry Crypto Codec ControlWrap Compression KeyMethod Options Negotiation PushOptions TunnelConfig Auth Supervisor KeyState Admission ControlChannel DataPath ServerSessions ServerTunnel ClientSession.

(** ** The first packet *)

Section Server.
Context (cr : Crypto).

(** The packet and the protection of the session, which has its keys. *)
Definition parseInitialResetPacket (staticProtection : tlsControlProtection) (rawPacket : bytes) (reapNow now : Time)
    : result (Packet * tlsControlProtection) :=
  match rawPacket with
  | [] => Err (ErrNew "invalid empty tls control packet")
  | _ =>
      let '(decoded, protection) := decodeIncomingControlPacket cr (newSessionProtection staticProtection) rawPacket reapNow now in
      packetBytes ← decoded;
      packet ← ParsePacket packetBytes;
      _ ← validateInitialClientReset packet;
      Ok (packet, protection)
  end.

(** [read] is what the socket gives when there is no first packet yet. *)
Definition readClientReset (staticProtection : tlsControlProtection) (initialPacket : bytes) (deadline : option goerr) (read : result bytes)
    (reapNow now : Time) : result (Packet * tlsControlProtection) :=
  rawPacket ← match initialPacket with
              | [] => match deadline with Some e => Err e | None => read end
              | _ => Ok initialPacket
              end;
  parseInitialResetPacket staticProtection rawPacket reapNow now.

(** ** The handshake *)

Record tlsServerSession := mkServerSession {
  sv_session : serverSession;
  sv_manager : SessionManager;
  sv_tunnel : tunnelSession;
  sv_clientKeySource : tlsKeyMethodKeySource;
  sv_serverKeySource : tlsKeyMethodKeySource;
  sv_peerInfo : string;
  sv_localOptionsString : string;
  sv_selectedCipher : string;
  sv_selectedAuth : string;
  sv_authFailed : bool;
  sv_authFailedReason : string;
  sv_connected : bool;
}.

#[export] Instance eta_tlsServerSession : Eta tlsServerSession := λ s,
  mkServerSession (sv_session s) (sv_manager s) (sv_tunnel s) (sv_clientKeySource s) (sv_serverKeySource s) (sv_peerInfo s)
  (sv_localOptionsString s) (sv_selectedCipher s) (sv_selectedAuth s) (sv_authFailed s) (sv_authFailedReason s) (sv_connected s).

(** What a session does to the server and to its peer.  [LoopsStarted] installs the
    observers of [Keepalive] and starts its loops, the pinger's when it is enabled. *)
Inductive serverEffect :=
| IdentityLocked
| Promoted
| PeerIDEnabled
| RecordWritten (record : bytes)
| RenegotiationConfigured (activeKeyID : Z)
| CodecInstalled (codec : tlsDataCodec) (keyID : Z)
| ReceiveKeyStaged (codec : tlsDataCodec)
| IdentityRegistered
| LoopsStarted (pingEnabled : bool).

(** What the calls of the handshake return. *)
Record handshakeIO := mkHandshakeIO {
  io_processed : bool;
  io_installed : bool;
  io_now : Time;
  io_handshakeDeadline : Time;
  io_setDeadline : option goerr;
  io_handshake : option goerr;
  io_read : readOutcome;
  io_authenticator : option (string → string → option goerr);
  io_promote : option goerr;
  io_enablePeerID : option goerr;
  io_random : nat → nat → result bytes;
  io_write : option goerr;
  io_exported : result bytes;
  io_unixNow : Z;
  io_registerIdentity : option goerr;
}.

Definition failed (e : option goerr) : result unit := match e with Some e => Err e | None => Ok () end.

Definition serverDeriveKeyMaterial (exported : result bytes) (s : tlsServerSession) : result bytes :=
  if peerSupportsIVProtoFlag (sv_peerInfo s) tlsIVProtoTLSKeyExport then exported else
  if negb (keySourcesComplete (sv_clientKeySource s) (sv_serverKeySource s)) then Err (ErrNew "incomplete key source material for PRF derivation") else
  let '(remoteSessionID, hasRemoteSessionID) := RemoteSessionID (sv_manager s) in
  if negb hasRemoteSessionID then Err (ErrNew "missing remote session id for PRF derivation") else
  Ok (deriveTLSKeyMaterialPRF cr (ks_PreMaster (sv_clientKeySource s)) (ks_Random1 (sv_clientKeySource s)) (ks_Random1 (sv_serverKeySource s))
        (ks_Random2 (sv_clientKeySource s)) (ks_Random2 (sv_serverKeySource s)) remoteSessionID (LocalSessionID (sv_manager s))).

(** Up to the end of the TLS handshake. *)
Definition serverTLSHandshake (io : handshakeIO) : result unit :=
  if negb (io_processed io) || negb (io_installed io) then Err net_ErrClosed else
  if negb (io_now io <? io_handshakeDeadline io) then Err ErrHandshakeTimeout else
  _ ← failed (io_setDeadline io);
  failed (io_handshake io).

Definition serverReadKeyMethod (read : readOutcome) : result tlsKeyMethodMessage :=
  match read with
  | ReadTimedOut => Err ErrHandshakeTimeout
  | ReadFailed e => Err e
  | ReadData clientKeyMethodRecord => parseTLSKeyMethod2Payload clientKeyMethodRecord false
  end.

(** The credentials, the promotion and the peer id. *)
Definition serverAuthenticate (io : handshakeIO) (clientMessage : tlsKeyMethodMessage) (s : tlsServerSession)
    : list serverEffect * result tlsServerSession :=
  let s := s <| sv_clientKeySource := km_KeySource clientMessage |> <| sv_peerInfo := km_PeerInfo clientMessage |> in
  let '(verifyUserPassErr, session) := verifyUserPass (io_authenticator io) (sv_session s) (km_Username clientMessage) (km_Password clientMessage) in
  let s := s <| sv_session := session |> in
  let s := if isSome verifyUserPassErr then s <| sv_authFailed := true |> <| sv_authFailedReason := "invalid credentials" |> else s in
  let '(effects, promoted) := if sv_authFailed s then ([], Ok ()) else ([Promoted], failed (io_promote io)) in
  match promoted with
  | Err e => (effects, Err e)
  | Ok _ =>
      if peerSupportsIVProtoFlag (km_PeerInfo clientMessage) tlsIVProtoDataV2
      then (effects ++ [PeerIDEnabled], _ ← failed (io_enablePeerID io); Ok s) else (effects, Ok s)
  end.

(** The cipher; without a shared one the session fails, but the exchange goes on. *)
Definition serverChooseCipher (options : ServerOptions) (clientMessage : tlsKeyMethodMessage) (s : tlsServerSession) : tlsServerSession :=
  let s :=
    match tlsServerCipher (km_PeerInfo clientMessage) (km_OptionsString clientMessage) options with
    | Ok selectedCipher => s <| sv_selectedCipher := selectedCipher |>
    | Err _ =>
        let s := if sv_authFailed s then s else
          s <| sv_authFailed := true |> <| sv_authFailedReason := "Data channel cipher negotiation failed (no shared cipher)" |> in
        s <| sv_selectedCipher := default "AES-256-GCM" (head (tlsAdvertisedDataCiphers (sdo_Ciphers (so_DataChannel options)))) |>
    end in
  s <| sv_selectedAuth := authOrDefault (sdo_Auth (so_DataChannel options)) |>.

Definition serverOptionsString (options : ServerOptions) (s : tlsServerSession) : string :=
  buildTLSOptionsStringWithMTU (sto_Protocol (so_Transport options)) false (IsSet (tls_Auth (so_TLS options))) noCompression
    (sv_selectedCipher s) (sv_selectedAuth s) (sdo_MTU (so_DataChannel options)).

(** The server's key method message. *)
Definition serverKeyMethodPayload (options : ServerOptions) (random : nat → nat → result bytes) (s : tlsServerSession) : result (bytes * tlsServerSession) :=
  serverKeySource ← generateTLSKeyMethodKeySource random false;
  let localOptionsString := serverOptionsString options s in
  let s := s <| sv_serverKeySource := serverKeySource |> <| sv_localOptionsString := localOptionsString |> in
  payload ← buildTLSKeyMethod2Payload true (mkMessage localOptionsString EmptyString EmptyString (buildTLSServerPeerInfo options) serverKeySource);
  Ok (payload, s).

(** The data channel of an authenticated session. *)
Definition serverDataChannel (options : ServerOptions) (io : handshakeIO) (s : tlsServerSession) : list serverEffect * result unit :=
  match (keyMaterial ← serverDeriveKeyMaterial (io_exported io) s;
         newTLSDataCodec cr (io_unixNow io) keyMaterial true (sv_selectedCipher s) (sv_selectedAuth s)
           (sdo_ReplayWindow (so_DataChannel options)) (sdo_ReplayWindowTime (so_DataChannel options))) with
  | Err e => ([], Err e)
  | Ok codec =>
      let keyID := CurrentKeyID (sv_manager s) in
      let effects := [RenegotiationConfigured keyID; CodecInstalled codec keyID; IdentityRegistered] in
      match io_registerIdentity io with
      | Some e => (effects, Err e)
      | None => (effects ++ [LoopsStarted ((0 <? sti_PingInterval (so_Timing options)) || (0 <? sti_PingRestart (so_Timing options)))], Ok ())
      end
  end.

(** The handshake up to its control loop; the session is the one the loop runs with. *)
Definition runTLSHandshake (options : ServerOptions) (io : handshakeIO) (s : tlsServerSession) : list serverEffect * result tlsServerSession :=
  match serverTLSHandshake io with
  | Err e => ([], Err e)
  | Ok _ =>
      match serverReadKeyMethod (io_read io) with
      | Err e => ([IdentityLocked], Err e)
      | Ok clientMessage =>
          let '(effects, authenticated) := serverAuthenticate io clientMessage s in
          let effects := IdentityLocked :: effects in
          match authenticated with
          | Err e => (effects, Err e)
          | Ok s =>
              match serverKeyMethodPayload options (io_random io) (serverChooseCipher options clientMessage s) with
              | Err e => (effects, Err e)
              | Ok (payload, s) =>
                  let effects := effects ++ [RecordWritten payload] in
                  match io_write io with
                  | Some e => (effects, Err e)
                  | None =>
                      if sv_authFailed s then (effects, Ok s) else
                      let '(more, established) := serverDataChannel options io s in
                      (effects ++ more, _ ← established; Ok s)
                  end
              end
          end
      end
  end.

(** ** The control loop *)

(** A round: what the read returned, whether the server's context is done after a
    timeout, what the writes of an answer return, one by one. *)
Record serverRound := mkServerRound { sr_read : readOutcome; sr_contextDone : bool; sr_writes : list (option goerr) }.

Definition legacyPullRequestPayload : string := "PULL_REQUEST".

Definition isPushRequest (controlRecord : bytes) : bool :=
  let controlMessage := normalizeTLSControlMessage controlRecord in
  EqualFold controlMessage pushRequestPayload || EqualFold controlMessage legacyPullRequestPayload.

(** The writes of a list of payloads, up to the first that fails. *)
Fixpoint writePayloads (payloads : list bytes) (writes : list (option goerr)) : list serverEffect * result unit :=
  match payloads with
  | [] => ([], Ok ())
  | payload :: payloads =>
      match head writes with
      | Some (Some e) => ([RecordWritten (tlsControlStringPayload payload)], Err e)
      | _ => let '(effects, r) := writePayloads payloads (tail writes) in (RecordWritten (tlsControlStringPayload payload) :: effects, r)
      end
  end.

(** The pool, the table of routes and the session. *)
Definition serverState : Type := option ipPool * peerRouteRegistry * tlsServerSession.

(** The answer to a request: an error ends the loop. *)
Definition answerPushRequest (options : ServerOptions) (id : Z) (peerID : option Z) (writes : list (option goerr)) (state : serverState)
    : list serverEffect * result unit * serverState :=
  let '(pool, routes, s) := state in
  if sv_authFailed s then
    let '(effects, r) := writePayloads [buildAuthFailedPayload (sv_authFailedReason s)] writes in
    (effects, match r with Err e => Err e | Ok _ => Err ErrAuthenticationFailed end, (pool, routes, s))
  else
    let '(r, pool, routes, tunnel) :=
      allocateAndRegisterTunnelAddress (so_DuplicateCN options) id pool routes (sv_tunnel s) in
    let s := s <| sv_tunnel := tunnel |> in
    match r with
    | Err e => ([], Err e, (pool, routes, s))
    | Ok _ =>
        match buildServerPushReplyPayloads options (sv_peerInfo s) (sv_selectedCipher s) (pushAssignment pool peerID tunnel) with
        | Err e => ([], Err e, (pool, routes, s))
        | Ok pushPayloads =>
            let '(effects, r) := writePayloads pushPayloads writes in
            (effects, r, (pool, routes, match r with Ok _ => s <| sv_connected := true |> | Err _ => s end))
        end
    end.

(** [None]: the script has ended and the loop waits. *)
Fixpoint runControlLoop (options : ServerOptions) (id : Z) (peerID : option Z) (rounds : list serverRound) (state : serverState)
    : list serverEffect * option (result unit) * serverState :=
  match rounds with
  | [] => ([], None, state)
  | r :: rounds =>
      match sr_read r with
      | ReadTimedOut => if sr_contextDone r then ([], Some (Ok ()), state) else runControlLoop options id peerID rounds state
      | ReadFailed e => ([], Some (Err e), state)
      | ReadData controlRecord =>
          if decide (classifyTLSControlDirective controlRecord = tlsControlDirectiveExit) then ([], Some (Err ErrPeerExit), state) else
          if isPushRequest controlRecord then
            let '(effects, answered, state) := answerPushRequest options id peerID (sr_writes r) state in
            match answered with
            | Err e => (effects, Some (Err e), state)
            | Ok _ => let '(more, ended, state) := runControlLoop options id peerID rounds state in (effects ++ more, ended, state)
            end
          else runControlLoop options id peerID rounds state
      end
  end.

(** ** Renegotiation *)

(** [sq_certificates] are the peer's in the new handshake; [sq_delivered] is whether the
    answer was acknowledged in time. *)
Record serverRenegotiationIO := mkServerRenegIO {
  sq_deadline : option goerr;
  sq_handshake : option goerr;
  sq_certificates : list (string * bytes);
  sq_read : readOutcome;
  sq_authenticator : option (string → string → option goerr);
  sq_random : nat → nat → result bytes;
  sq_exported : result bytes;
  sq_unixNow : Z;
  sq_write : option goerr;
  sq_delivered : bool;
}.

Definition serverRenegotiationMaterial (io : serverRenegotiationIO) (clientMessage : tlsKeyMethodMessage) (serverKeySource : tlsKeyMethodKeySource)
    (s : tlsServerSession) : result bytes :=
  let '(remoteSessionID, hasRemoteSessionID) := RemoteSessionID (sv_manager s) in
  if negb hasRemoteSessionID then Err (ErrNew "missing remote session id for renegotiation") else
  deriveRenegotiatedKeyMaterial cr (sq_exported io) (peerSupportsIVProtoFlag (km_PeerInfo clientMessage) tlsIVProtoTLSKeyExport)
    (km_KeySource clientMessage) serverKeySource (LocalSessionID (sv_manager s)) remoteSessionID true.

(** The message and the codec of a renegotiation whose client is authenticated. *)
Definition serverRenegotiate (options : ServerOptions) (io : serverRenegotiationIO) (clientMessage : tlsKeyMethodMessage) (s : tlsServerSession)
    : result (bytes * tlsDataCodec) :=
  serverKeySource ← generateTLSKeyMethodKeySource (sq_random io) false;
  payload ← buildTLSKeyMethod2Payload true
    (mkMessage (sv_localOptionsString s) EmptyString EmptyString (buildTLSServerPeerInfo options) serverKeySource);
  keyMaterial ← serverRenegotiationMaterial io clientMessage serverKeySource s;
  codec ← newTLSDataCodec cr (sq_unixNow io) keyMaterial true (sv_selectedCipher s) (sv_selectedAuth s)
    (sdo_ReplayWindow (so_DataChannel options)) (sdo_ReplayWindowTime (so_DataChannel options));
  Ok (payload, codec).

(** The codec is returned beside an error once it is staged for receiving. *)
Definition serverRunRenegotiation (options : ServerOptions) (io : serverRenegotiationIO) (s : tlsServerSession)
    : list serverEffect * option tlsDataCodec * result unit * tlsServerSession :=
  match (_ ← failed (sq_deadline io); _ ← failed (sq_handshake io);
         _ ← failed (verifyLockedCertificateIdentity (sv_session s) (sq_certificates io));
         serverReadKeyMethod (sq_read io)) with
  | Err e => ([], None, Err e, s)
  | Ok clientMessage =>
      let '(verifyUserPassErr, session) := verifyUserPass (sq_authenticator io) (sv_session s) (km_Username clientMessage) (km_Password clientMessage) in
      let s := s <| sv_session := session |> in
      match verifyUserPassErr with
      | Some e =>
          ([RecordWritten (tlsControlStringPayload (buildAuthFailedPayload "invalid credentials"))], None,
           match sq_write io with Some e' => Err e' | None => Err e end, s)
      | None =>
          match serverRenegotiate options io clientMessage s with
          | Err e => ([], None, Err e, s)
          | Ok (payload, codec) =>
              let effects := [ReceiveKeyStaged codec; RecordWritten payload] in
              match sq_write io with
              | Some e => (effects, Some codec, Err e, s)
              | None => (effects, Some codec, if sq_delivered io then Ok () else Err ErrHandshakeTimeout, s)
              end
          end
      end
  end.

End Server.
