(* ===== verification/Establish.v ===== *)
(** * The two ends of a session agree

    What [ClientSession] and [ServerHandshake] establish together: the messages of
    one are the input of the other. *)

From Stdlib Require Import Strings.Ascii.
From S2P Require Import Prelude GoStrings Packet Session Netip NetipText IPPool RouteRegistry Crypto Codec CodecLaws DataChannel ControlWrap Compression KeyMethod Options Negotiation PushOptions PushLaws TunnelConfig TunnelLaws Auth Supervisor ControlChannel DataPath ServerSessions ServerTunnel ClientSession ServerHandshake.

(** ** A client that is not authenticated *)

Lemma serverAuthenticate_refused io message s f e effects r :
  io_authenticator io = Some f → f (km_Username message) (km_Password message) = Some e → serverAuthenticate io message s = (effects, r) →
  (∀ x, x ∈ effects → x = PeerIDEnabled) ∧
  (∀ s', r = Ok s' → sv_authFailed s' = true ∧ sv_authFailedReason s' = "invalid credentials" ∧ sv_tunnel s' = sv_tunnel s).
Proof.
  intros Hf He. unfold serverAuthenticate, verifyUserPass. rewrite Hf, He. cbn.
  destruct (peerSupportsIVProtoFlag _ _).
  - intros [= <- <-]. split; [by intros x ->%list_elem_of_singleton |]. intros s'. destruct (failed _); [| done]. by intros [= <-].
  - intros [= <- <-]. split; [by intros x ?%elem_of_nil |]. by intros s' [= <-].
Qed.

Lemma serverChooseCipher_refused options message s :
  sv_authFailed s = true →
  sv_authFailed (serverChooseCipher options message s) = true ∧
  sv_authFailedReason (serverChooseCipher options message s) = sv_authFailedReason s ∧ sv_tunnel (serverChooseCipher options message s) = sv_tunnel s.
Proof. intros Hs. unfold serverChooseCipher. destruct (tlsServerCipher _ _ _); cbn; [done |]. rewrite Hs. done. Qed.

Lemma serverKeyMethodPayload_frame options random s payload s' :
  serverKeyMethodPayload options random s = Ok (payload, s') →
  sv_authFailed s' = sv_authFailed s ∧ sv_authFailedReason s' = sv_authFailedReason s ∧ sv_tunnel s' = sv_tunnel s ∧
  sv_peerInfo s' = sv_peerInfo s ∧ sv_selectedCipher s' = sv_selectedCipher s ∧ sv_selectedAuth s' = sv_selectedAuth s.
Proof.
  unfold serverKeyMethodPayload. intros H. apply result_bind_Ok in H as (ks & _ & H). cbv zeta in H.
  apply result_bind_Ok in H as (p & _ & [= -> <-]). done.
Qed.

(** The control loop of a session that has failed answers one request and ends. *)
Lemma runControlLoop_refused options id peerID rounds pool routes s :
  sv_authFailed s = true →
  let '(effects, _, (pool', routes', s')) := runControlLoop options id peerID rounds (pool, routes, s) in
  pool' = pool ∧ routes' = routes ∧ sv_tunnel s' = sv_tunnel s ∧
  ∀ x, x ∈ effects → x = RecordWritten (tlsControlStringPayload (buildAuthFailedPayload (sv_authFailedReason s))).
Proof.
  intros Hs. induction rounds as [| r rounds IH]; [cbn; split_and!; try done; by intros x ?%elem_of_nil |].
  cbn [runControlLoop]. destruct (sr_read r) as [record | | e].
  - destruct (decide _); [split_and!; try done; by intros x ?%elem_of_nil |].
    destruct (isPushRequest record); [| done]. unfold answerPushRequest. rewrite Hs. cbn [writePayloads].
    destruct (head (sr_writes r)) as [[e |] |]; (split_and!; try done; by intros x ->%list_elem_of_singleton).
  - destruct (sr_contextDone r); [| done]. split_and!; try done. by intros x ?%elem_of_nil.
  - split_and!; try done. by intros x ?%elem_of_nil.
Qed.

(** C4: a client whose credentials the program refuses gets nothing: the handshake
    neither promotes its session nor registers its identity nor makes a data channel
    for it, and whatever it asks for afterwards no address is taken for it, no route
    is entered and no configuration is pushed; the only answer is AUTH_FAILED. *)
Theorem refused_client_gets_nothing cr options io record message f e s effects r :
  io_read io = ReadData record → parseTLSKeyMethod2Payload record false = Ok message →
  io_authenticator io = Some f → f (km_Username message) (km_Password message) = Some e →
  runTLSHandshake cr options io s = (effects, r) →
  (∀ x, x ∈ effects → x = IdentityLocked ∨ x = PeerIDEnabled ∨ ∃ payload, x = RecordWritten payload) ∧
  ∀ s', r = Ok s' → ∀ id peerID rounds pool routes,
    let '(answers, _, (pool', routes', s'')) := runControlLoop options id peerID rounds (pool, routes, s') in
    pool' = pool ∧ routes' = routes ∧ sv_tunnel s'' = sv_tunnel s ∧
    ∀ x, x ∈ answers → x = RecordWritten (tlsControlStringPayload (buildAuthFailedPayload "invalid credentials")).
Proof.
  intros Hread Hparse Hf He. unfold runTLSHandshake. destruct (serverTLSHandshake io); [| intros [= <- <-]; split; [by intros x ?%elem_of_nil | done]].
  rewrite Hread. cbn [serverReadKeyMethod]. rewrite Hparse.
  destruct (serverAuthenticate io message s) as [eff [s1 | e1]] eqn:Ha;
    destruct (serverAuthenticate_refused _ _ _ _ _ _ _ Hf He Ha) as [Heff Hs1].
  2: { intros [= <- <-]. split; [| done]. intros x [-> | Hx%Heff]%elem_of_cons; auto. }
  destruct (Hs1 s1 eq_refl) as (Hfail & Hreason & Htun).
  destruct (serverChooseCipher_refused options message s1 Hfail) as (Hfail2 & Hreason2 & Htun2).
  destruct (serverKeyMethodPayload options (io_random io) (serverChooseCipher options message s1)) as [[payload s2] | e2] eqn:Hk.
  2: { intros [= <- <-]. split; [| done]. intros x [-> | Hx%Heff]%elem_of_cons; auto. }
  destruct (serverKeyMethodPayload_frame _ _ _ _ _ Hk) as (Hfail3 & Hreason3 & Htun3 & _).
  assert (Hall : ∀ x, x ∈ (IdentityLocked :: eff) ++ [RecordWritten payload] → x = IdentityLocked ∨ x = PeerIDEnabled ∨ ∃ payload, x = RecordWritten payload).
  { intros x [[-> | Hx%Heff]%elem_of_cons | ->%list_elem_of_singleton]%elem_of_app; eauto. }
  destruct (io_write io); [intros [= <- <-]; by split |]. rewrite Hfail3, Hfail2. intros [= <- <-]. split; [done |].
  intros s' [= <-] id peerID rounds pool routes.
  pose proof (runControlLoop_refused options id peerID rounds pool routes s2 ltac:(congruence)) as H.
  destruct (runControlLoop _ _ _ _ _) as [[answers ended] [[pool' routes'] s'']]. destruct H as (-> & -> & Ht & Hx).
  split_and!; [done | done | congruence |]. rewrite Hreason3, Hreason2, Hreason in Hx. done.
Qed.

(** ** What a push reply carries *)

(** The parameters that were read stay in front. *)
Lemma lineLoop_extends line parameters parameter state backslash l :
  lineLoop line parameters parameter state backslash = Some l → ∃ more, l = parameters ++ more.
Proof.
  assert (Hfin : ∀ st ps l, finishLine st ps = Some l → l = ps).
  { intros st ps l'. unfold finishLine. destruct (decide _); [| done]. destruct ps; [done |]. by intros [= <-]. }
  assert (Hpre : ∀ (ps q l : list string), (∃ more, l = (ps ++ q) ++ more) → ∃ more, l = ps ++ more).
  { intros ps q l' [more ->]. exists (q ++ more). by rewrite app_assoc. }
  assert (Hdone : ∀ st ps l, finishLine st ps = Some l → ∃ more, l = ps ++ more).
  { intros st ps l' ->%Hfin. exists []. by rewrite app_nil_r. }
  revert parameters parameter state backslash. induction line as [| c line IH]; intros ps p st b; cbn [lineLoop].
  - destruct (_ && _ && _); [apply Hdone |]. destruct (_ && _ && _ && _); [done |].
    destruct (stepLine _ _ _); [apply Hdone | | apply Hdone]. destruct (decide _); intros H; by eapply Hpre, Hdone.
  - destruct (_ && _ && _); [apply IH |]. destruct (_ && _ && _ && _); [done |].
    destruct (stepLine _ _ _); [apply Hdone | | apply IH]. destruct (decide _); intros H; [by eapply Hpre, Hdone | by eapply Hpre, IH].
Qed.

(** A line that begins with the name of an option. *)
Definition named (name line : string) : Prop := line = name ∨ ∃ rest, line = name +:+ String " " rest.

Lemma named_parse name line n parameters :
  plainWord name = true → named name line → parsePushedOptionLine line = Some (n :: parameters) → n = name.
Proof.
  intros Hp Hn. apply plainWord_inv in Hp as [Hne Hall]. unfold parsePushedOptionLine. destruct Hn as [-> | [rest ->]].
  - rewrite <- (string_app_nil name) at 1. rewrite lineLoop_plains by (try done; by left). rewrite append_nil, lineLoop_end. by intros [= <- _].
  - rewrite lineLoop_plains by (try done; by left). rewrite append_nil, lineLoop_space. cbn [app]. rewrite decide_False by (cbn; lia).
    intros [more H]%lineLoop_extends. by injection H.
Qed.

(** What matters for the data channel in the options of a message. *)
Definition wireChannel (w : wirePushedOptions) : string * string * list string * list compressionDirective :=
  (w_SelectedCipher w, w_SelectedAuth w, w_ProtocolFlags w, w_CompressionDirectives w).

Definition channelNames : list string := ["cipher"; "auth"; "protocol-flags"; "compress"; "comp-lzo"].

Lemma decodeOption_channel w name value : name ∉ channelNames → wireChannel (decodeOption w name value) = wireChannel w.
Proof.
  intros Hn. unfold channelNames in Hn. rewrite !not_elem_of_cons in Hn. destruct Hn as (H1 & H2 & H3 & H4 & H5 & _).
  unfold decodeOption. repeat (destruct (decide _) as [Heq | _]; [try (exfalso; tauto); repeat case_match; reflexivity |]). reflexivity.
Qed.

(** A line that leaves the data channel alone. *)
Definition harmless (line : string) : Prop := ∃ name, plainWord name = true ∧ ToLower name ∉ channelNames ∧ named name line.

Lemma decodeLines_harmless lines w c :
  Forall harmless lines → wireChannel (decodeLines [] lines w c).1.1 = wireChannel w ∧ (decodeLines [] lines w c).2 = EmptyString.
Proof.
  intros H. revert w c. induction H as [| line lines (name & Hp & Hn & Hl) _ IH]; intros w c; [done |].
  cbn [decodeLines applyPullFilters negb]. destruct (parsePushedOptionLine line) as [[| n ps] |] eqn:E; try done.
  rewrite (named_parse name line n ps Hp Hl E). cbv zeta.
  destruct (IH (decodeOption w (ToLower name) (Join " " ps))
    (if decide (ToLower name = "push-continuation") then parseContinuation (Join " " ps) c else c)) as [Hw Hr].
  by rewrite Hw, decodeOption_channel.
Qed.

Lemma decodeLines_app a b w c :
  (decodeLines [] a w c).2 = EmptyString →
  decodeLines [] (a ++ b) w c = decodeLines [] b (decodeLines [] a w c).1.1 (decodeLines [] a w c).1.2.
Proof.
  revert w c. induction a as [| line a IH]; intros w c H; [done |].
  cbn [decodeLines app applyPullFilters negb] in *. destruct (parsePushedOptionLine line) as [[| n ps] |]; by apply IH.
Qed.

(** The lines of the options themselves. *)
Lemma harmless_line name line :
  plainWord name && negb (bool_decide (ToLower name ∈ channelNames)) = true → named name line → harmless line.
Proof. intros [Hp Hn%negb_true_iff%bool_decide_eq_false]%andb_prop Hl. by exists name. Qed.

Lemma harmless_value name rest :
  plainWord name && negb (bool_decide (ToLower name ∈ channelNames)) = true → harmless (name +:+ String " " rest).
Proof. intros H. apply (harmless_line name _ H). right. by exists rest. Qed.

Lemma trimmedField_harmless name value :
  plainWord name && negb (bool_decide (ToLower name ∈ channelNames)) = true → Forall harmless (trimmedField name value).
Proof.
  intros H. unfold trimmedField. case_match; [| done]. constructor; [| done].
  change (name +:+ " " +:+ TrimSpace value) with (name +:+ String " " (TrimSpace value)). by apply harmless_value.
Qed.

Definition channelOf (o : pushedOptions) : string * string * list string * list compressionDirective :=
  (po_SelectedCipher o, po_SelectedAuth o, po_ProtocolFlags o, po_CompressionDirectives o).

Definition noChannel : string * string * list string * list compressionDirective := (EmptyString, EmptyString, [], []).

Lemma Forall_flat_map_harmless {A} (f : A → list string) l : (∀ x, Forall harmless (f x)) → Forall harmless (flat_map f l).
Proof. intros H. induction l as [| x l IH]; cbn [flat_map]; [constructor |]. by apply Forall_app. Qed.

Lemma harmless_prefix name more rest :
  plainWord name && negb (bool_decide (ToLower name ∈ channelNames)) = true → harmless ((name +:+ String " " more) +:+ rest).
Proof. intros H. rewrite string_app_assoc, append_cons. by apply harmless_value. Qed.

(** The lines of the server, by their first word. *)
Ltac harmless_tac :=
  repeat first
    [ apply Forall_nil_2
    | apply Forall_cons_2
    | apply trimmedField_harmless; vm_compute; reflexivity
    | match goal with
      | |- Forall _ (if ?b then _ else _) => destruct b
      | |- Forall _ (match ?b with _ => _ end) => destruct b
      | |- harmless (if ?b then _ else _) => destruct b
      | |- Forall _ (_ ++ _) => apply Forall_app; split
      | |- harmless ((?a +:+ ?b) +:+ ?c) => rewrite (string_app_assoc a b c)
      | |- harmless (?p +:+ _) =>
          let w := eval vm_compute in (Cut " "%char p) in
          match w with
          | Some (?name, ?more) => change p with (name +:+ String " " more); apply (harmless_prefix name more); vm_compute; reflexivity
          end
      | |- harmless ?p => apply (harmless_line p); [vm_compute; reflexivity | left; reflexivity]
      end ].

Lemma dnsServerFields_harmless server : Forall harmless (dnsServerFields server).
Proof.
  unfold dnsServerFields. cbv zeta. harmless_tac.
Qed.

Lemma fields_harmless o : channelOf o = noChannel → Forall harmless (tail (buildPushReplyOptionFields o)).
Proof.
  intros [= Hc Ha Hf Hd]. unfold buildPushReplyOptionFields. cbn [app tail]. rewrite Hc, Ha, Hf, Hd. rewrite !Forall_app.
  change (trimmedField "cipher" "") with (@nil string). change (trimmedField "auth" "") with (@nil string). cbn [hasAny fmap list_fmap].
  change (hasAny (@nil string)) with false. cbv zeta.
  split_and!; try (by harmless_tac); apply Forall_flat_map_harmless; intros x.
  - unfold localAddressFields. harmless_tac.
  - unfold routeFields. harmless_tac.
  - unfold dnsAddressFields. harmless_tac.
  - apply dnsServerFields_harmless.
  - harmless_tac.
Qed.

(** The options a server builds leave the data channel to the negotiation. *)
Lemma assignPushedOptions_channel options peerInfo assignment : channelOf (assignPushedOptions options peerInfo assignment) = noChannel.
Proof. unfold assignPushedOptions. cbv zeta. repeat case_match; reflexivity. Qed.

(** Reading addresses, routes and name servers leaves the data channel alone. *)
Lemma foldl_channel {B} (f : pushedOptions → B → pushedOptions) o l :
  (∀ o x, channelOf (f o x) = channelOf o) → channelOf (foldl f o l) = channelOf o.
Proof. intros H. revert o. induction l as [| x l IH]; intros o; [done |]. cbn [foldl]. by rewrite IH. Qed.

Lemma addDomains_channel name raw complaint add o domains :
  (∀ o d, channelOf (add o d) = channelOf o) → channelOf (addDomains name raw complaint add o domains) = channelOf o.
Proof. intros H. apply foldl_channel. intros o' x. by case_match. Qed.

Lemma addRoute_channel name parse o value host : channelOf (addRoute name parse o value host) = channelOf o.
Proof. unfold addRoute. cbv zeta. by repeat case_match. Qed.

Lemma addDNSAddresses_channel o raw priority values : channelOf (addDNSAddresses o raw priority values) = channelOf o.
Proof.
  revert o. induction values as [| v values IH]; intros o; [done |]. cbn [addDNSAddresses]. destruct (_ <=? _); [done |].
  destruct (parseTunnelDNSAddress v); by rewrite IH.
Qed.

Lemma setDNSServerField_channel o raw priority option values : channelOf (setDNSServerField o raw priority option values) = channelOf o.
Proof.
  unfold setDNSServerField. cbv zeta. repeat case_match; try done; try apply addDNSAddresses_channel; by apply addDomains_channel.
Qed.

Lemma addWireDNSOptionV2_channel o value : channelOf (addWireDNSOptionV2 o value) = channelOf o.
Proof.
  unfold addWireDNSOptionV2. cbv zeta. repeat case_match; try done; try (by rewrite setDNSServerField_channel); by apply addDomains_channel.
Qed.

Lemma addWireDHCPOptionDNS_channel o value : channelOf (addWireDHCPOptionDNS o value) = channelOf o.
Proof.
  unfold addWireDHCPOptionDNS. cbv zeta. repeat case_match; try done; try (by apply addDomains_channel). apply foldl_channel. intros o' x. by repeat case_match.
Qed.

Lemma dropServersWithoutAddress_channel o servers : channelOf (dropServersWithoutAddress o servers).1 = channelOf o.
Proof.
  revert o. induction servers as [| server servers IH]; intros o; [done |]. cbn [dropServersWithoutAddress].
  destruct (hasAny _); [| by rewrite IH]. specialize (IH o). by destruct (dropServersWithoutAddress o servers).
Qed.

Lemma addWireIfconfig_channel o value topology : channelOf (addWireIfconfig o value topology) = channelOf o.
Proof. unfold addWireIfconfig. cbv zeta. by repeat case_match. Qed.

Lemma addWireIfconfigIPv6_channel o value : channelOf (addWireIfconfigIPv6 o value) = channelOf o.
Proof. unfold addWireIfconfigIPv6. cbv zeta. by repeat case_match. Qed.

Lemma setWireRouteGateway_channel o value : channelOf (setWireRouteGateway o value) = channelOf o.
Proof. unfold setWireRouteGateway. cbv zeta. by repeat case_match. Qed.

Lemma pushedOptionsFromWire_channel w host : channelOf (pushedOptionsFromWire w host) = wireChannel w.
Proof.
  unfold pushedOptionsFromWire. cbv zeta. destruct (dropServersWithoutAddress _ _) as [o servers] eqn:E.
  apply (f_equal (λ x, channelOf x.1)) in E. cbn [fst] in E. rewrite dropServersWithoutAddress_channel in E.
  rewrite foldl_channel in E by apply addWireDNSOptionV2_channel. rewrite !foldl_channel in E by (intros; apply addRoute_channel).
  set (o1 := o <| po_DNSServers := servers |> <| po_modernDNS := hasAny servers |>).
  assert (H1 : channelOf o1 = wireChannel w).
  { change (channelOf o1) with (channelOf o). rewrite <- E. rewrite setWireRouteGateway_channel.
    destruct (Options.nonEmpty (w_IfconfigIPv6 w)), (Options.nonEmpty (w_Ifconfig w));
      rewrite ?addWireIfconfigIPv6_channel, ?addWireIfconfig_channel; by destruct (w_PingTimeoutAction w). }
  assert (H2 : ∀ l, channelOf (foldl (λ o value, if po_modernDNS o then o else addWireDHCPOptionDNS o value) o1 l) = wireChannel w).
  { intros l. rewrite <- H1. apply foldl_channel. intros o' x. destruct (po_modernDNS o'); [done | apply addWireDHCPOptionDNS_channel]. }
  destruct (po_modernDNS _); [| apply H2]. rewrite <- (H2 (w_DHCPOptions w)). reflexivity.
Qed.

(** *** The negotiated lines *)

Lemma canonical_word c : c ∈ canonicalCiphers → plainWord c = true.
Proof. intros H. by apply (elem_of_transfer _ plainWord) in H; [| by vm_compute]. Qed.

(** A peer that announces the flags and its ciphers as this client does. *)
Definition announces (peerInfo : string) : Prop :=
  isSome (parsePeerInfoCipherList peerInfo) = true ∧ peerSupportsIVProtoFlag peerInfo tlsIVProtoTLSKeyExport = true ∧
  peerSupportsIVProtoFlag peerInfo tlsIVProtoCCExitNotify = true.

Lemma wire_update_cipher w cipher :
  plainWord cipher = true →
  wireChannel (decodeOption w "cipher" (Join " " (take 15 [cipher]))) =
    (cipher, w_SelectedAuth w, w_ProtocolFlags w, w_CompressionDirectives w).
Proof.
  intros [Hne _]%plainWord_inv. change (Join " " (take 15 [cipher])) with cipher.
  change (decodeOption w "cipher" cipher) with (if Options.nonEmpty cipher then w <| w_SelectedCipher := cipher |> else w).
  by rewrite nonEmpty_true.
Qed.

Lemma wire_update_flags w n :
  wireChannel (decodeOption w (ToLower "protocol-flags") (Join " " (take 15 ["cc-exit"; "tls-ekm"])), n : Z, EmptyString).1.1 =
    (w_SelectedCipher w, w_SelectedAuth w, ["cc-exit"; "tls-ekm"], w_CompressionDirectives w).
Proof. reflexivity. Qed.

Lemma negotiated_channel peerInfo cipher assignment w c :
  announces peerInfo → plainWord cipher = true →
  wireChannel (decodeLines [] (negotiatedFields peerInfo cipher assignment) w c).1.1 =
    (cipher, w_SelectedAuth w, ["cc-exit"; "tls-ekm"], w_CompressionDirectives w) ∧
  (decodeLines [] (negotiatedFields peerInfo cipher assignment) w c).2 = EmptyString.
Proof.
  intros (Hlist & Hekm & Hexit) Hcipher. unfold negotiatedFields. rewrite Hlist, Hekm, Hexit.
  rewrite (nonEmpty_true cipher) by (by apply plainWord_inv). cbn [andb orb app]. cbv zeta.
  change ("cipher " +:+ cipher) with (Join " " ["cipher"; cipher]).
  rewrite decodeLines_words by (try done; by repeat constructor). change (ToLower "cipher") with "cipher".
  pose proof (wire_update_cipher w cipher Hcipher) as Hw. set (w1 := decodeOption w "cipher" _) in *. clearbody w1.
  assert (Hflags : ∀ w2 c, wireChannel w2 = wireChannel w1 →
    wireChannel (decodeLines [] ["protocol-flags " +:+ Join " " (["cc-exit"] ++ ["tls-ekm"])] w2 c).1.1 =
      (cipher, w_SelectedAuth w, ["cc-exit"; "tls-ekm"], w_CompressionDirectives w) ∧
    (decodeLines [] ["protocol-flags " +:+ Join " " (["cc-exit"] ++ ["tls-ekm"])] w2 c).2 = EmptyString).
  { intros w2 c2 H2. change ("protocol-flags " +:+ Join " " (["cc-exit"] ++ ["tls-ekm"])) with (Join " " ["protocol-flags"; "cc-exit"; "tls-ekm"]).
    rewrite decodeLines_words by (try done; by repeat constructor). cbn [decodeLines]. split; [| done].
    rewrite H2 in Hw || (rewrite <- H2 in Hw). unfold wireChannel in Hw. injection Hw as E1 E2 _ E4.
    rewrite wire_update_flags. by rewrite E1, E2, E4. }
  destruct (sa_PeerID assignment) as [peerID |]; [destruct (peerSupportsIVProtoFlag peerInfo tlsIVProtoDataV2) |]; cbn [app];
    [| by apply Hflags..].
  assert (Hid : Forall harmless ["peer-id " +:+ FormatUint peerID]) by harmless_tac.
  destruct (decodeLines_harmless _ w1 c Hid) as [Hid1 Hid2].
  match goal with |- context [decodeLines [] [?a; ?b] w1 c] => change [a; b] with ([a] ++ [b]) end.
  rewrite decodeLines_app by done. by apply Hflags.
Qed.

(** What the client reads of a push reply of the server. *)
Lemma reply_lines_channel peerInfo cipher assignment command lines host :
  announces peerInfo → plainWord cipher = true → Forall harmless lines →
  let o := (decodePushReplyOptionLines command (lines ++ negotiatedFields peerInfo cipher assignment) host []).1 in
  channelOf o = (cipher, EmptyString, ["cc-exit"; "tls-ekm"], []) ∧ po_pullFilterRejection o = EmptyString.
Proof.
  intros Ha Hc Hf. unfold decodePushReplyOptionLines. cbv zeta.
  destruct (decodeLines [] (lines ++ _) no_wirePushedOptions 0) as [[w n] r] eqn:E. cbn [fst].
  destruct (decodeLines_harmless _ no_wirePushedOptions 0 Hf) as [Hw Hr]. rewrite decodeLines_app in E by done.
  match type of E with decodeLines [] _ ?w1 ?c1 = _ => destruct (negotiated_channel peerInfo cipher assignment w1 c1 Ha Hc) as [N1 N2] end.
  rewrite E in N1, N2. cbn [fst snd] in N1, N2. unfold wireChannel in Hw. injection Hw as _ W2 _ W4. rewrite W2, W4 in N1.
  split; [| by rewrite N2]. change (channelOf (pushedOptionsFromWire w host) = (cipher, EmptyString, ["cc-exit"; "tls-ekm"], [])).
  by rewrite pushedOptionsFromWire_channel.
Qed.

Lemma reply_channel options peerInfo cipher assignment command host :
  announces peerInfo → plainWord cipher = true →
  let fields := tail (buildPushReplyOptionFields (assignPushedOptions options peerInfo assignment)) ++ negotiatedFields peerInfo cipher assignment in
  let o := (decodePushReplyOptionLines command fields host []).1 in
  channelOf o = (cipher, EmptyString, ["cc-exit"; "tls-ekm"], []) ∧ po_pullFilterRejection o = EmptyString.
Proof. intros Ha Hc. apply reply_lines_channel; [done.. |]. apply fields_harmless, assignPushedOptions_channel. Qed.

(** ** The client pulls what the server pushes *)

(** Whether a payload of a push reply is taken for one. *)
Lemma push_message_directive lines :
  Forall messageLine lines → classifyTLSControlDirective (tlsControlStringPayload (bytesOf (pushMessage lines))) = tlsControlDirectivePushReply.
Proof.
  intros Hl. assert (Hp : ∃ rest, pushMessage lines = "PUSH_REPLY" +:+ rest).
  { unfold pushMessage. destruct lines; [exists EmptyString; reflexivity | by eexists]. }
  unfold classifyTLSControlDirective. rewrite normalizeControlPayload_string; [| | | by apply pushMessage_trimmed].
  - destruct Hp as [rest ->]. reflexivity.
  - by destruct Hp as [rest ->].
  - apply pushMessage_plain; [done | done |]. eapply Forall_impl; [exact Hl |]. by intros x [].
Qed.

Lemma push_payloads_directive fields payloads :
  Forall pushLine fields → splitServerPushReplyFields (pushReplyPayloadPrefix :: fields) = Ok payloads →
  Forall (λ payload, classifyTLSControlDirective (tlsControlStringPayload payload) = tlsControlDirectivePushReply) payloads.
Proof.
  intros Hf. unfold splitServerPushReplyFields. rewrite decide_True by done. change pushReplyPayloadPrefix with (pushMessage []).
  intros (chunks & rest & -> & Hall & _)%splitFieldsLoop_spec; [| by vm_compute]. cbn [app orb] in *. subst fields.
  apply Forall_app in Hf as [Hchunks Hrest]. rewrite Forall_concat in Hchunks.
  assert (Hm : ∀ n lines, (n = 1 ∨ n = 2) → Forall pushLine lines → Forall messageLine (lines ++ [marker n])).
  { intros n lines Hn Hl. apply Forall_app. split; [by apply pushLine_split |]. constructor; [by apply marker_line | done]. }
  apply Forall_app. split.
  - apply Forall_fmap. eapply Forall_impl; [exact Hchunks |]. intros chunk Hc. apply push_message_directive, Hm; auto.
  - constructor; [| done]. apply push_message_directive. destruct (hasAny chunks); [apply Hm; auto |]. rewrite app_nil_r. by apply pushLine_split.
Qed.

(** What a round gives the loop to read. *)
Definition roundData (r : pullRound) : option bytes := match pu_read r with ReadData d => Some d | _ => None end.

(** A round in which nothing arrives and nothing goes wrong. *)
Definition quietRound (pingRestart : Z) (r : pullRound) : bool :=
  match pu_read r, pu_cancelled r, pu_write r with
  | ReadTimedOut, None, None => negb ((0 <? pingRestart) && shouldExitForPingTimeout (pu_lateInbound r) (pu_late r) pingRestart)
  | _, _, _ => false
  end.

(** The records arrive in their order before the deadline, with quiet rounds between. *)
Definition delivers (deadline pingRestart : Z) (rounds : list pullRound) (records : list bytes) : Prop :=
  Forall (λ r, (pu_now r <? deadline) && (isSome (roundData r) || quietRound pingRestart r) = true) rounds ∧ omap roundData rounds = records.

(** What the lines that are read so far do not change. *)
Definition pullFrame (s s' : pullState) : Prop :=
  pl_client s' = pl_client s ∧ pl_selectedCipher s' = pl_selectedCipher s ∧ pl_selectedAuth s' = pl_selectedAuth s.

Lemma pull_quiet host ping s r :
  pu_now r < pl_deadline s → quietRound ping r = true →
  ∃ s', (pullStep host ping s r).2 = PullContinue s' ∧ pullFrame s s' ∧ pl_lines s' = pl_lines s ∧ pl_deadline s' = pl_deadline s.
Proof.
  intros Hd. unfold quietRound, pullStep. rewrite (proj2 (Z.ltb_lt _ _) Hd). cbn [negb].
  destruct (pu_read r); [done | | done]. unfold pullFailedRead. destruct (pu_cancelled r); [done |]. destruct (pu_write r); [done |].
  intros ->%negb_true_iff. destruct (pu_late r <? _); eexists; split; [done.. |].
  split_and!; done.
Qed.

Lemma pullApply_returns s o random : ∃ out s', pullApply s o random = PullReturn out s'.
Proof. unfold pullApply. destruct (applyDecodedPushedOptions _ _ _) as [[e |] c]; [by eexists _, _ |]. cbv zeta. repeat case_match; by eexists _, _. Qed.

Lemma pull_delivered host ping rounds : ∀ records s o,
  delivers (pl_deadline s) ping rounds records →
  Forall (λ record, classifyTLSControlDirective record = tlsControlDirectivePushReply) records →
  receivePushReply (pl_lines s) host (cpo_Filters (co_Pull (tk_options (pl_client s)))) records = Some o →
  ∃ s' random, pullLoop host ping s rounds = pullApply s' o random ∧ pullFrame s s'.
Proof.
  induction rounds as [| r rounds IH]; intros records s o [Hall Hrec] Hdir Hrcv; [by subst records |].
  apply Forall_cons in Hall as [[Hnow%Z.ltb_lt Hr]%andb_prop Hall]. cbn [omap list_omap] in Hrec. cbn [pullLoop].
  destruct (roundData r) as [record |] eqn:Hd.
  - subst records. apply Forall_cons in Hdir as [Hdir1 Hdir]. cbn [receivePushReply] in Hrcv.
    assert (Hread : pu_read r = ReadData record) by (unfold roundData in Hd; destruct (pu_read r); by simplify_eq).
    unfold pullStep. rewrite (proj2 (Z.ltb_lt _ _) Hnow), Hread. cbn [negb snd]. unfold pullRecord, pullPushReply. rewrite Hdir1.
    destruct (appendPushReplyPayloadSegment (pl_lines s) record) as [[lines continuation] |] eqn:Happ.
    + destruct (continuation =? 2) eqn:Hc.
      * destruct (IH (omap roundData rounds) (s <| pl_lines := lines |> <| pl_continuationPending := true |>) o) as (s' & random & H & F); [by split | done | exact Hrcv |].
        exists s', random. split; [exact H | exact F].
      * destruct lines as [| command lines]; [done |]. injection Hrcv as <-. eexists _, _. split; [| shelve].
        match goal with |- context [pullApply ?s ?o ?r] => destruct (pullApply_returns s o r) as (out & s' & E); rewrite E; exact (eq_sym E) end.
        Unshelve. by split_and!.
    + assert (decodePushReplyPayloadWithFilters record host (cpo_Filters (co_Pull (tk_options (pl_client s)))) = None) as ->.
      { unfold appendPushReplyPayloadSegment, decodePushReplyPayloadWithFilters in *. destruct (splitPushReplyPayloadLines record) as [[? ?] |]; done. }
      destruct (IH (omap roundData rounds) (s <| pl_continuationPending := false |>) o) as (s' & random & H & F); [by split | done | exact Hrcv |].
      exists s', random. split; [exact H | exact F].
  - subst records. cbn [isSome orb] in Hr. destruct (pull_quiet host ping s r Hnow Hr) as (s' & -> & (F1 & F2 & F3) & Hl & Hdl).
    rewrite <- Hdl in Hall. rewrite <- Hl, <- F1 in Hrcv. destruct (IH _ s' o ltac:(by split) Hdir Hrcv) as (s'' & random & H & (G1 & G2 & G3)).
    exists s'', random. split; [done |]. split_and!; congruence.
Qed.

(** *** The options are applied *)

Lemma applySession_flags o c : hasAny (po_ProtocolFlags o) = true → tc_ProtocolFlags (applySession o c) = po_ProtocolFlags o.
Proof.
  intros H. unfold applySession. cbv zeta.
  repeat (rewrite (when_frame tc_ProtocolFlags); [| intros; reflexivity]). rewrite H. reflexivity.
Qed.

Lemma applyRoutes_flags o c : tc_ProtocolFlags (applyRoutes o c) = tc_ProtocolFlags c.
Proof.
  unfold applyRoutes. cbv zeta. repeat (rewrite (when_frame tc_ProtocolFlags); [| intros; reflexivity]).
  match goal with |- tc_ProtocolFlags (foldl ?f ?c0 _) = _ => generalize (po_excludedRoutes o) as l; assert (Hf : tc_ProtocolFlags c0 = tc_ProtocolFlags c) by reflexivity;
    revert Hf; generalize c0; intros c1 Hc1 l; revert c1 Hc1 end.
  induction l as [| x l IH]; intros c1 Hc1; [done |]. cbn [foldl]. apply IH. by case_match.
Qed.

Lemma applyRouteGateway_flags o c : tc_ProtocolFlags (applyRouteGateway o c).2 = tc_ProtocolFlags c.
Proof. unfold applyRouteGateway. destruct (negb _); [done |]. by destruct (Addr_IsValid _). Qed.

Lemma applyOptions_flags routeNoPull o domains configured c :
  hasAny (po_ProtocolFlags o) = true → tc_ProtocolFlags (applyOptions routeNoPull o domains configured c).2 = po_ProtocolFlags o.
Proof.
  intros H. unfold applyOptions. cbv zeta. destruct (applyTunMTU _ _) as [e1 c1]. destruct (if routeNoPull then _ else _) as [k c2].
  pose proof (applyRouteGateway_flags o (applySession o c2)) as Hg. destruct (applyRouteGateway _ _) as [e3 c3]. cbn [snd] in *.
  rewrite applySession_flags in Hg by done. change (tc_ProtocolFlags (fillGateways ?x)) with (tc_ProtocolFlags x).
  destruct routeNoPull; [done |]. by rewrite applyRoutes_flags.
Qed.

(** Options without a compression directive and that no filter rejects are applied. *)
Lemma applyPushedOptions_accepted c o random :
  po_CompressionDirectives o = [] → po_pullFilterRejection o = EmptyString →
  (applyPushedOptions c o random).1.1.1 = mkApplyResult EmptyString EmptyString.
Proof.
  intros Hd Hf. unfold applyPushedOptions. cbv zeta. destruct (applyOptions _ _ _ _ _) as [[errors configured] updated].
  assert (Hm : ∀ c, maybeReconfigureDataFramingFromPushedOptions c o random = c).
  { intros c0. unfold maybeReconfigureDataFramingFromPushedOptions. by rewrite Hd. }
  rewrite Hm. match goal with |- context [if negb _ then ?x else _] => set (c1 := x) end.
  assert (Hc1 : (if negb (ts_pulledOptionsReceived (cl_tunnel c)) then c1 else c1) = c1) by (by destruct (negb _)). rewrite Hc1.
  assert (H1 : ts_pullFilterRejection (cl_tunnel c1) = EmptyString ∧ ts_compressionPushRejection (cl_tunnel c1) = EmptyString).
  { subst c1. cbn -[when]. rewrite !(when_frame ts_pullFilterRejection), !(when_frame ts_compressionPushRejection) by (intros; reflexivity). by rewrite <- Hf. }
  clearbody c1. destruct H1 as [H1 H2]. unfold enqueueTunnelConfigurationEventLocked. cbv zeta.
  destruct (negb _ && _); [by rewrite H1, H2 |].
  match goal with |- context [negb ?a || ?b] => destruct (negb a || b) end; [by rewrite H1, H2 |].
  rewrite <- H1 at 1. by rewrite <- H2.
Qed.

Lemma pullApply_channel s o random cipher flags :
  channelOf o = (cipher, EmptyString, flags, []) → po_pullFilterRejection o = EmptyString → Options.nonEmpty cipher = true → hasAny flags = true →
  ∃ s', pullApply s o random = PullReturn (Success (cipher, pl_selectedAuth s)) s' ∧
        tk_options (pl_client s') = tk_options (pl_client s) ∧ tc_ProtocolFlags (tk_configuration (pl_client s')) = flags.
Proof.
  intros [= Hc Ha Hf Hd] Hr Hne Hfl. unfold pullApply, applyDecodedPushedOptions.
  pose proof (applyPushedOptions_accepted (tk_parent (pl_client s)) o random Hd Hr) as Hacc.
  pose proof (applyPushedOptions_spec (tk_parent (pl_client s)) o random) as Hspec.
  destruct (applyPushedOptions (tk_parent (pl_client s)) o random) as [[[r e] d] c']. cbn [fst] in Hacc. subst r.
  destruct Hspec as (Hopt & Hconf & _). rewrite <- Hf in Hfl. cbn [ar_pullFilterRejection ar_compressionPushRejection].
  change (Options.nonEmpty EmptyString) with false. cbv iota zeta. rewrite Hc, Ha, Hne. change (Options.nonEmpty EmptyString) with false. cbv iota.
  set (c1 := match po_PeerID o with Some _ => _ | None => _ end).
  assert (H1 : tk_parent c1 = c') by (subst c1; by destruct (po_PeerID o)). clearbody c1.
  eexists. split.
  { match goal with |- (if ?b then _ else _) = _ => change b with (Options.nonEmpty cipher) end. rewrite Hne. reflexivity. }
  unfold tk_options, tk_configuration. change (pl_client (?s0 <| pl_client := c1 |> <| pl_selectedCipher := cipher |>)) with c1. rewrite H1.
  split; [done |]. change (ts_configuration (cl_tunnel c')) with (configuration c'). rewrite Hconf, <- Hf. by apply applyOptions_flags.
Qed.

(** ** The two ends *)

Lemma serverAuthenticate_frame io message s effects s' :
  serverAuthenticate io message s = (effects, Ok s') →
  sv_peerInfo s' = km_PeerInfo message ∧ sv_clientKeySource s' = km_KeySource message ∧ sv_manager s' = sv_manager s ∧
  ∀ record, RecordWritten record ∉ effects.
Proof.
  unfold serverAuthenticate. cbv zeta. destruct (verifyUserPass _ _ _ _) as [e session].
  set (s1 := if isSome e then _ else _). assert (Hs1 : sv_peerInfo s1 = km_PeerInfo message ∧ sv_clientKeySource s1 = km_KeySource message ∧ sv_manager s1 = sv_manager s).
  { subst s1. by destruct (isSome e). }
  clearbody s1. destruct Hs1 as (H1 & H2 & H3).
  assert (Hn : ∀ l : list serverEffect, (∀ x, x ∈ l → x = Promoted ∨ x = PeerIDEnabled) → ∀ record, RecordWritten record ∉ l).
  { intros l Hl record Hx%Hl. by destruct Hx. }
  destruct (sv_authFailed s1); [| destruct (failed (io_promote io)); [| done]];
    (destruct (peerSupportsIVProtoFlag _ _); [destruct (failed (io_enablePeerID io)); [| done] |]);
    intros [= <- <-]; (split_and!; try done; apply Hn; intros x; rewrite ?elem_of_app, ?elem_of_cons, ?elem_of_nil; tauto).
Qed.

Lemma serverChooseCipher_frame options message s :
  let s' := serverChooseCipher options message s in
  sv_peerInfo s' = sv_peerInfo s ∧ sv_clientKeySource s' = sv_clientKeySource s ∧ sv_manager s' = sv_manager s ∧
  sv_selectedAuth s' = authOrDefault (sdo_Auth (so_DataChannel options)) ∧
  (sv_authFailed s' = false → tlsServerCipher (km_PeerInfo message) (km_OptionsString message) options = Ok (sv_selectedCipher s')).
Proof.
  unfold serverChooseCipher. destruct (tlsServerCipher _ _ _); [done |]. destruct (sv_authFailed s) eqn:Hf; [| done]. cbn. by rewrite Hf.
Qed.

(** What a session that was established has agreed to. *)
Lemma established_server cr options io record message s effects s' :
  io_read io = ReadData record → parseTLSKeyMethod2Payload record false = Ok message →
  runTLSHandshake cr options io s = (effects, Ok s') → sv_authFailed s' = false →
  sv_peerInfo s' = km_PeerInfo message ∧ sv_selectedAuth s' = authOrDefault (sdo_Auth (so_DataChannel options)) ∧
  tlsServerCipher (km_PeerInfo message) (km_OptionsString message) options = Ok (sv_selectedCipher s') ∧
  (∃ answer, (∀ r, RecordWritten r ∈ effects ↔ r = answer) ∧
     buildTLSKeyMethod2Payload true
       (mkMessage (sv_localOptionsString s') EmptyString EmptyString (buildTLSServerPeerInfo options) (sv_serverKeySource s')) = Ok answer) ∧
  ∃ keyMaterial codec, serverDeriveKeyMaterial cr (io_exported io) s' = Ok keyMaterial ∧ CodecInstalled codec (CurrentKeyID (sv_manager s')) ∈ effects ∧
    newTLSDataCodec cr (io_unixNow io) keyMaterial true (sv_selectedCipher s') (sv_selectedAuth s')
      (sdo_ReplayWindow (so_DataChannel options)) (sdo_ReplayWindowTime (so_DataChannel options)) = Ok codec.
Proof.
  intros Hread Hparse. unfold runTLSHandshake. destruct (serverTLSHandshake io); [| done]. rewrite Hread. cbn [serverReadKeyMethod]. rewrite Hparse.
  destruct (serverAuthenticate io message s) as [eff [s1 | e1]] eqn:Ha; [| done].
  destruct (serverAuthenticate_frame _ _ _ _ _ Ha) as (P1 & _ & _ & Hno).
  destruct (serverChooseCipher_frame options message s1) as (P2 & _ & _ & A2 & C2).
  destruct (serverKeyMethodPayload options (io_random io) (serverChooseCipher options message s1)) as [[answer s2] | e2] eqn:Hk; [| done].
  destruct (serverKeyMethodPayload_frame _ _ _ _ _ Hk) as (F3 & _ & _ & P3 & C3 & A3).
  destruct (io_write io); [done |]. destruct (sv_authFailed s2) eqn:Hf; [by intros [= _ <-]; rewrite Hf |].
  destruct (serverDataChannel cr options io s2) as [more established] eqn:Hdc. destruct established; [| done]. intros [= <- <-] _.
  unfold serverDataChannel in Hdc. destruct (_ ≫= _) as [codec |] eqn:Hcodec in Hdc; [| done].
  apply result_bind_Ok in Hcodec as (keyMaterial & Hkm & Hcodec).
  assert (Hmore : CodecInstalled codec (CurrentKeyID (sv_manager s2)) ∈ more ∧ ∀ r, RecordWritten r ∉ more).
  { cbv zeta in Hdc. destruct (io_registerIdentity io); [done |]. injection Hdc as <- _. split; [apply elem_of_cons; right; apply elem_of_cons; by left |].
    intros r. cbn [app]. rewrite !elem_of_cons. intros [H | [H | [H | [H | H%elem_of_nil]]]]; done. }
  unfold serverKeyMethodPayload in Hk. apply result_bind_Ok in Hk as (ks & _ & Hk). cbv zeta in Hk.
  apply result_bind_Ok in Hk as (p & Hbuild & [= -> <-]).
  destruct Hmore as [Hinst Hno2]. split_and!.
  - congruence.
  - congruence.
  - rewrite C3. apply C2. congruence.
  - exists answer. split; [| exact Hbuild]. intros r. rewrite elem_of_cons, !elem_of_app, list_elem_of_singleton.
    split; [| intros ->; by right; left; right]. intros [H | [[H | H] | H]]; [done | by apply Hno in H | by injection H | by apply Hno2 in H].
  - exists keyMaterial, codec. split_and!; [exact Hkm | apply elem_of_cons; right; apply elem_of_app; by right | exact Hcodec].
Qed.

(** A key method message is not taken for a refusal. *)
Lemma key_method_not_refusal server m answer : buildTLSKeyMethod2Payload server m = Ok answer → isAuthFailedPayload answer = false.
Proof.
  intros (pm & o & u & w & i & _ & _ & _ & _ & _ & _ & _ & _ & ->)%build_Ok. set (rest := pm ++ _).
  unfold isAuthFailedPayload, normalizeControlPayload. change (PutUint32 0) with [x00; x00; x00; x00]. change [z2b tlsKeyMethod2] with [x02].
  change (stringOf ([x00; x00; x00; x00] ++ [x02] ++ rest)) with (String NUL (String NUL (String NUL (String NUL (String (Ascii.ascii_of_nat 2) (stringOf rest)))))).
  generalize (stringOf rest) as r. clear. intros r.
  assert (H : TrimChar (String NUL (String NUL (String NUL (String NUL (String (Ascii.ascii_of_nat 2) r))))) NUL =
              String (Ascii.ascii_of_nat 2) (TrimRightFunc (λ d, bool_decide (NUL = d)) r)).
  { unfold TrimChar. cbn [TrimRightFunc]. by destruct (TrimRightFunc _ r). }
  rewrite H, TrimSpace_nonspace by reflexivity. reflexivity.
Qed.

(** What the client sends, and what it makes of the server's message. *)
Lemma exchange_record GOOS random read c record o c' :
  exchangeKeyMethod GOOS random None read c = ([record], o, c') →
  ∃ optionsString username password keySource, buildTLSKeyMethod2Payload false
    (mkMessage optionsString username password (buildTLSPeerInfo GOOS (tk_options c) (cpo_Enabled (co_Pull (tk_options c)))) keySource) = Ok record.
Proof.
  unfold exchangeKeyMethod, clientKeyMethod. destruct (generateTLSKeyMethodKeySource random true) as [ks |]; [| done].
  destruct (sessionCredentials _ _ _) as [[username password] a]. cbv zeta.
  destruct (buildTLSKeyMethod2Payload false _) as [payload |] eqn:Hp; [| done].
  destruct (serverKeyMethod _ _). intros [= <- _ _]. eauto.
Qed.

Lemma exchange_frame GOOS random answer m c record o c' :
  buildTLSKeyMethod2Payload true m = Ok answer → exchangeKeyMethod GOOS random None (ReadData answer) c = ([record], o, c') →
  o = Success () ∧ tk_options c' = tk_options c ∧ tk_protocol c' = tk_protocol c.
Proof.
  intros Hb. unfold exchangeKeyMethod, clientKeyMethod. destruct (generateTLSKeyMethodKeySource random true) as [ks |]; [| done].
  destruct (sessionCredentials _ _ _) as [[username password] a]. cbv zeta.
  destruct (buildTLSKeyMethod2Payload false _) as [payload |] eqn:Hp; [| done]. unfold serverKeyMethod.
  rewrite (key_method_not_refusal _ _ _ Hb), (parse_build _ _ _ Hb). by intros [= <- <- <-].
Qed.

(** A client announces what the server asks for. *)
Lemma client_announces_all GOOS co requestPush :
  validateImplementedClientOptions co = Ok () → 0 ≤ cdo_MTU (co_DataChannel co) < 2 ^ 32 → announces (buildTLSPeerInfo GOOS co requestPush).
Proof.
  intros Hco Hm. destruct (client_announcement_understood GOOS co requestPush Hco Hm) as (Hiv & _). destruct (validated_client co Hco) as (Hcc & _).
  split_and!.
  - unfold parsePeerInfoCipherList. by rewrite client_cipher_list.
  - unfold peerSupportsIVProtoFlag. rewrite Hiv. by destruct requestPush.
  - unfold peerSupportsIVProtoFlag. rewrite Hiv. by destruct requestPush.
Qed.

(** The lines of the server's push reply. *)
Definition pushedLines (so : ServerOptions) (peerInfo cipher : string) (assignment : serverPushAssignment) : list string :=
  tail (buildPushReplyOptionFields (assignPushedOptions so peerInfo assignment)) ++ negotiatedFields peerInfo cipher assignment.

(** The pull of a client that the server's push reply reaches. *)
Lemma pull_established so peerInfo cipher assignment payloads host c now rounds :
  announces peerInfo → plainWord cipher = true → cpo_Filters (co_Pull (tk_options c)) = [] →
  buildServerPushReplyPayloads so peerInfo cipher assignment = Ok payloads → Forall pushLine (pushedLines so peerInfo cipher assignment) →
  delivers (now + cti_HandWindow (co_Timing (tk_options c))) (prePullPingRestart (tk_options c) (tk_protocol c)) rounds (tlsControlStringPayload <$> payloads) →
  ∃ final, pullConfigurationAndCipher host c now None rounds =
      PullReturn (Success (cipher, authOrDefault (cdo_Auth (co_DataChannel (tk_options c))))) final ∧
    tunnelUsesKeyMaterialExport (tk_configuration (pl_client final)) = true.
Proof.
  intros Hann Hword Hfilters Hbuild Hlines Hdel.
  destruct (reply_channel so peerInfo cipher assignment pushReplyPayloadPrefix host Hann Hword) as [Hchan Hrej]. fold (pushedLines so peerInfo cipher assignment) in Hchan, Hrej.
  assert (Hsplit : splitServerPushReplyFields (pushReplyPayloadPrefix :: pushedLines so peerInfo cipher assignment) = Ok payloads) by exact Hbuild.
  pose proof (push_reply_received _ host [] Hlines (conj eq_refl eq_refl)) as Hrcv. rewrite Hsplit in Hrcv. destruct Hrcv as [_ Hrcv].
  pose proof (push_payloads_directive _ _ Hlines Hsplit) as Hdir.
  set (s0 := mkPull c EmptyString (authOrDefault (cdo_Auth (co_DataChannel (tk_options c)))) [] false false
    (now + cti_HandWindow (co_Timing (tk_options c))) (now + tlsPushRequestResendInterval)).
  destruct (pull_delivered host (prePullPingRestart (tk_options c) (tk_protocol c)) rounds (tlsControlStringPayload <$> payloads) s0 _
    Hdel ltac:(by apply Forall_fmap) ltac:(subst s0; cbn [pl_lines pl_client]; rewrite Hfilters; exact Hrcv)) as (s1 & rnd & Hloop & _ & _ & Hf3).
  assert (Hne : Options.nonEmpty cipher = true) by (apply nonEmpty_true; by apply plainWord_inv).
  destruct (pullApply_channel s1 _ rnd cipher ["cc-exit"; "tls-ekm"] Hchan Hrej Hne eq_refl) as (final & Happ & _ & Hflags).
  exists final. split.
  - unfold pullConfigurationAndCipher. cbv zeta. fold s0. rewrite Hloop, Happ. by rewrite Hf3.
  - unfold tunnelUsesKeyMaterialExport. rewrite Hflags. match goal with |- context [existsb ?f ?x] => change (existsb f x) with true end. apply orb_true_r.
Qed.

(** C3: a client and a server that complete their handshake agree on the data channel.
    Let the options of both be validated, and the client's have no pull filters; let the
    server read the client's key method message, complete its handshake without refusing
    the credentials, and the client read the server's message; and let the server's push
    reply, whose lines are well formed, reach the client in time, cut into however many
    messages.  Then the client accepts the answer and its pull returns the cipher the
    server uses, the first of the server's that the client offers, with the digest of
    its own options; both derive their keys from the TLS exporter; and, when the two
    are configured with the same digest (the server pushes none) and the client's codec
    can be built, the codec the client makes and the one the server installed read each
    other's packets. *)
Theorem established_sessions_agree cr GOOS random c record o c' so io s effects s' answer assignment payloads host now rounds :
  let co := tk_options c in
  Crypto_laws cr →
  validateImplementedClientOptions co = Ok () → 0 ≤ cdo_MTU (co_DataChannel co) < 2 ^ 32 → cpo_Filters (co_Pull co) = [] →
  validateImplementedServerOptions so = Ok () → 0 ≤ sdo_MTU (so_DataChannel so) < 2 ^ 32 →
  exchangeKeyMethod GOOS random None (ReadData answer) c = ([record], o, c') →
  io_read io = ReadData record → runTLSHandshake cr so io s = (effects, Ok s') → RecordWritten answer ∈ effects → sv_authFailed s' = false →
  buildServerPushReplyPayloads so (sv_peerInfo s') (sv_selectedCipher s') assignment = Ok payloads →
  Forall pushLine (pushedLines so (sv_peerInfo s') (sv_selectedCipher s') assignment) →
  delivers (now + cti_HandWindow (co_Timing co)) (prePullPingRestart co (tk_protocol c)) rounds (tlsControlStringPayload <$> payloads) →
  let cipher := sv_selectedCipher s' in
  let auth := authOrDefault (cdo_Auth (co_DataChannel co)) in
  o = Success () ∧
  firstShared (tlsAdvertisedDataCiphers (sdo_Ciphers (so_DataChannel so))) (tlsAdvertisedDataCiphers (cdo_Ciphers (co_DataChannel co))) = Some cipher ∧
  ∃ final, pullConfigurationAndCipher host c' now None rounds = PullReturn (Success (cipher, auth)) final ∧
    ∀ m, clientDeriveKeyMaterial cr (io_exported io) m (pl_client final) = io_exported io ∧ serverDeriveKeyMaterial cr (io_exported io) s' = io_exported io ∧
    ∀ keyMaterial unixNow clientCodec, io_exported io = Ok keyMaterial → auth = authOrDefault (sdo_Auth (so_DataChannel so)) →
      newTLSDataCodec cr unixNow keyMaterial false cipher auth
        (cdo_ReplayWindow (co_DataChannel co)) (cdo_ReplayWindowTime (co_DataChannel co)) = Ok clientCodec →
      ∃ serverCodec, CodecInstalled serverCodec (CurrentKeyID (sv_manager s')) ∈ effects ∧ codecPair clientCodec serverCodec ∧ codecPair serverCodec clientCodec.
Proof.
  intros co Hcr Hco Hcm Hfilters Hso Hsm Hex Hread Hrun Hans Hauth Hbuild Hlines Hdel cipher auth.
  destruct (exchange_record _ _ _ _ _ _ _ Hex) as (l & u & p & ks & Hrecord). fold co in Hrecord. pose proof (parse_build _ _ _ Hrecord) as Hparse.
  destruct (established_server _ _ _ _ _ _ _ _ Hread Hparse Hrun Hauth) as (Hpeer & Hsauth & Hcipher & (answer' & Honly & Hbuilt) & keyMaterial & codec & Hkm & Hinst & Hcodec).
  apply Honly in Hans as ->. cbn [km_PeerInfo km_OptionsString sentMessage] in Hpeer, Hcipher.
  destruct (exchange_frame _ _ _ _ _ _ _ _ Hbuilt Hex) as (Ho & Hopt & Hproto). split; [exact Ho |].
  pose proof (cipher_negotiation exampleCrypto GOOS co so (cpo_Enabled (co_Pull co)) l exampleCrypto_total Hco Hcm Hso Hsm) as Hneg.
  cbv zeta in Hneg. rewrite Hcipher in Hneg. destruct Hneg as (Hin & Hfirst & _). split; [exact Hfirst |].
  pose proof (tlsAdvertisedDataCiphers_canonical _ (proj1 (validated_client co Hco))) as Hcan. eapply Forall_forall in Hin; [| exact Hcan].
  pose proof (client_announces_all GOOS co (cpo_Enabled (co_Pull co)) Hco Hcm) as Hann. rewrite <- Hpeer in Hann.
  fold co in Hopt. rewrite <- Hopt in Hfilters, Hdel. rewrite <- Hproto in Hdel.
  destruct (pull_established so _ _ assignment payloads host c' now rounds Hann (canonical_word _ Hin) Hfilters Hbuild Hlines Hdel) as (final & Hpull & Hexport).
  exists final. split; [rewrite Hpull, Hopt; reflexivity |]. intros m.
  assert (Hserver : serverDeriveKeyMaterial cr (io_exported io) s' = io_exported io) by (unfold serverDeriveKeyMaterial; by rewrite (proj1 (proj2 Hann))).
  split_and!; [unfold clientDeriveKeyMaterial; by rewrite Hexport | exact Hserver |].
  intros km t2 clientCodec Hexp Hsame Hclient. rewrite Hserver, Hexp in Hkm. injection Hkm as <-. rewrite Hsauth, <- Hsame in Hcodec.
  exists codec. split; [exact Hinst |]. by eapply tls_codecs_pair.
Qed.

(** ** Witnesses *)

Definition agreeingOptions : ClientOptions :=
  mkClientOptions ModeTLS (co_Transport exampleClientOptions)
    (mkClientDataChannel 0 0 false "" 0 "" ["AES-128-GCM"; "AES-256-CBC"] "" "SHA256" "" "" "" 0 0 0)
    exampleTLS (mkClientAuthentication "user" "password" "" "" false) (mkClientPull true [] false) (co_Tunnel exampleClientOptions)
    (mkClientTiming 0 false 0 0 0 0 false 0 (60 * Second)) noMaterial 0.

Definition exampleTLSClient : tlsClient :=
  mkTLSClient (sy_client (exampleTunnel agreeingOptions)) newAuthenticationSession 0 "udp" false (mkKeySource [] [] []) (mkKeySource [] [] [])
    EmptyString EmptyString EmptyString None.

Definition constantRandom (index size : nat) : result bytes := Ok (replicate size x05).

Definition exampleRecord : bytes := match (clientKeyMethod "linux" constantRandom exampleTLSClient).1 with Ok (_, payload) => payload | Err _ => [] end.

Definition exampleSession : tlsServerSession :=
  mkServerSession (ServerSessions.mkServerSession zeroSessionID "192.0.2.1:1" None EmptyString None false None None None true false false StepIdle)
    (NewSessionManagerWithLocalID zeroSessionID) (mkTunnelSession "192.0.2.1:1" EmptyString AddrInvalid AddrInvalid AddrInvalid)
    (mkKeySource [] [] []) (mkKeySource [] [] []) EmptyString EmptyString EmptyString EmptyString false EmptyString false.

Definition exampleIO (authenticator : string → string → option goerr) : handshakeIO :=
  mkHandshakeIO true true 5 10 None None (ReadData exampleRecord) (Some authenticator) None None constantRandom None (Ok exampleKeyMaterial) 1000 None.

(** The answer of the server, the session and the messages of its push reply. *)
Definition exampleRun : list serverEffect * result tlsServerSession := runTLSHandshake exampleCrypto exampleServerOptions (exampleIO (λ _ _, None)) exampleSession.

Definition exampleAnswer : bytes :=
  default [] (head (omap (λ x, match x with RecordWritten record => Some record | _ => None end) exampleRun.1)).

Definition establishedSession : tlsServerSession := match exampleRun.2 with Ok s => s | Err _ => exampleSession end.

Definition exampleAssignment : serverPushAssignment := pushAssignment None (Some 3) (sv_tunnel establishedSession).

Definition examplePushPayloads : list bytes :=
  match buildServerPushReplyPayloads exampleServerOptions (sv_peerInfo establishedSession) (sv_selectedCipher establishedSession) exampleAssignment with
  | Ok payloads => payloads
  | Err _ => []
  end.

Definition exampleRound (read : readOutcome) : pullRound := mkPullRound 2 1 read None 3 1 None 2 "id" 0.

Lemma messageLine_decide line :
  negb (bool_decide (line = EmptyString)) && negb (containsChar ","%char line) && negb (containsChar NUL line) &&
  bool_decide (TrimRightFunc isSpace line = line) && negb (isContinuation line) = true → pushLine line.
Proof.
  intros [[[[H1%negb_true_iff%bool_decide_eq_false H2%negb_true_iff]%andb_prop H3%negb_true_iff]%andb_prop H4%bool_decide_eq_true]%andb_prop H5%negb_true_iff]%andb_prop.
  by repeat split.
Qed.

Lemma refused_client_gets_nothing_witness :
  Forall (λ x, x = IdentityLocked ∨ x = PeerIDEnabled ∨ ∃ payload, x = RecordWritten payload)
    (runTLSHandshake exampleCrypto exampleServerOptions (exampleIO (λ _ _, Some ErrPeerExit)) exampleSession).1.
Proof.
  apply Forall_forall. intros x.
  destruct (runTLSHandshake exampleCrypto exampleServerOptions (exampleIO (λ _ _, Some ErrPeerExit)) exampleSession) as [effects r] eqn:E.
  destruct (parseTLSKeyMethod2Payload exampleRecord false) as [message |] eqn:Hm; [| exfalso; vm_compute in Hm; discriminate Hm].
  exact (proj1 (refused_client_gets_nothing exampleCrypto exampleServerOptions (exampleIO (λ _ _, Some ErrPeerExit)) exampleRecord message
    (λ _ _, Some ErrPeerExit) ErrPeerExit exampleSession effects r eq_refl Hm eq_refl eq_refl E) x).
Defined.

Lemma established_sessions_agree_witness :
  ∃ final, pullConfigurationAndCipher AddrInvalid (exchangeKeyMethod "linux" constantRandom None (ReadData exampleAnswer) exampleTLSClient).2 1 None
             (exampleRound ReadTimedOut :: (exampleRound <$> (ReadData <$> (tlsControlStringPayload <$> examplePushPayloads)))) =
           PullReturn (Success ("AES-256-CBC", "SHA256")) final ∧ (1 ≤ length examplePushPayloads)%nat.
Proof.
  assert (Hs : runTLSHandshake exampleCrypto exampleServerOptions (exampleIO (λ _ _, None)) exampleSession = (exampleRun.1, Ok establishedSession))
    by (vm_compute; reflexivity).
  assert (Hx : exchangeKeyMethod "linux" constantRandom None (ReadData exampleAnswer) exampleTLSClient =
    ([exampleRecord], Success (), (exchangeKeyMethod "linux" constantRandom None (ReadData exampleAnswer) exampleTLSClient).2)) by (vm_compute; reflexivity).
  pose proof (established_sessions_agree exampleCrypto "linux" constantRandom exampleTLSClient exampleRecord (Success ())
    (exchangeKeyMethod "linux" constantRandom None (ReadData exampleAnswer) exampleTLSClient).2 exampleServerOptions (exampleIO (λ _ _, None)) exampleSession
    exampleRun.1 establishedSession exampleAnswer exampleAssignment examplePushPayloads AddrInvalid 1
    (exampleRound ReadTimedOut :: (exampleRound <$> (ReadData <$> (tlsControlStringPayload <$> examplePushPayloads))))
    exampleCrypto_laws ltac:(vm_compute; reflexivity) ltac:(cbn; lia) eq_refl ltac:(vm_compute; reflexivity) ltac:(cbn; lia) Hx eq_refl Hs) as H.
  destruct H as (_ & _ & final & Hfinal & _).
  - apply list_elem_of_In. vm_compute. tauto.
  - vm_compute. reflexivity.
  - vm_compute. reflexivity.
  - eapply Forall_impl; [| intros line Hline; exact (messageLine_decide line Hline)].
    apply (bool_decide_unpack _). vm_compute. exact I.
  - split; [apply (bool_decide_unpack _); vm_compute; exact I | vm_compute; reflexivity].
  - exists final. split; [| vm_compute; lia]. rewrite Hfinal. reflexivity.
Defined.
