(* ===== verification/Listener.v ===== *)
(** * The listeners of a TLS server ([server_listener.go], [udp_peer_conn.go],
      [server_tls.go] and [server.go] lifecycle)

    A datagram that reaches the listener is routed by the registries of
    [ServerSessions], admitted by the policy of [Admission], or pushed into the queue of
    its session.  Sockets, contexts and the clock are arguments; a session's name is the
    number it gets when it is made. *)

From Stdlib Require Import Strings.Ascii.
From S2P Require Import Prelude GoStrings Packet Session Netip NetipText Codec ControlWrap Options Auth Supervisor KeyState Admission DataQueue ControlChannel DataPath ServerSessions ServerSessionLaws ServerTunnel ClientSession ServerHandshake.

(** ** Errors of a listener *)

Definition listenerErrorRetryInitialDelay : Z := 5 * (Second / 1000).
Definition listenerErrorRetryMaximumDelay : Z := Second.

(** The delay of a [wait]; a [reset] sets it to zero. *)
Definition nextRetryDelay (delay : Z) : Z :=
  if delay =? 0 then listenerErrorRetryInitialDelay else Z.min (2 * delay) listenerErrorRetryMaximumDelay.

(** ** The connection of a UDP peer

    Its addresses are those of its session in the registry. *)

Definition udpPeerPacket : Type := bytes * netAddr.

Record udpPeerPacketConnection := mkPeerConnection {
  uc_incomingPackets : dataPacketQueue (T := udpPeerPacket);
  uc_closed : bool;
  uc_readDeadline : Time;
}.

#[export] Instance eta_udpPeerPacketConnection : Eta udpPeerPacketConnection := λ c,
  mkPeerConnection (uc_incomingPackets c) (uc_closed c) (uc_readDeadline c).

Definition zeroPeerPacket : udpPeerPacket := ([], OtherAddr EmptyString EmptyString).

Definition newPeerConnection : udpPeerPacketConnection := mkPeerConnection (newDataPacketQueueWithCapacity zeroPeerPacket 256) false 0.

(** The number of packets that are dropped; [None] is a panic. *)
Definition pushPackets (c : udpPeerPacketConnection) (packets : list udpPeerPacket) : option (Z * udpPeerPacketConnection) :=
  match packets with
  | [] => Some (0, c)
  | _ =>
      if uc_closed c then Some (lenZ packets, c) else
      '(dropped, q) ← PushBatchDropNew (uc_incomingPackets c) packets;
      Some (lenZ dropped, c <| uc_incomingPackets := q |>)
  end.

(** Closing drains the queue, once. *)
Definition closePeerConnection (c : udpPeerPacketConnection) : option udpPeerPacketConnection :=
  if uc_closed c then Some c else
  '(_, q) ← Drain zeroPeerPacket (uc_incomingPackets c); Some (c <| uc_closed := true |> <| uc_incomingPackets := q |>).

Definition setPeerReadDeadline (c : udpPeerPacketConnection) (deadline : Time) : udpPeerPacketConnection := c <| uc_readDeadline := deadline |>.

(** One round of [waitIncomingPackets]: it returns, or it waits for a token of the
    queue, the close, or the timeout. *)
Inductive waitRound := WaitReturn (r : result (list udpPeerPacket)) | WaitFor (timeout : option Z).

Definition waitIncomingPackets (maxPackets : nat) (now : Time) (c : udpPeerPacketConnection) : option (waitRound * udpPeerPacketConnection) :=
  let hasDeadline := negb (IsZero (uc_readDeadline c)) in
  let timeout := uc_readDeadline c - now in
  if hasDeadline && (timeout <=? 0) then Some (WaitReturn (Err os_ErrDeadlineExceeded), c) else
  if uc_closed c then Some (WaitReturn (Err net_ErrClosed), c) else
  '(packets, q) ← Pop zeroPeerPacket (uc_incomingPackets c) maxPackets (Some (λ first packet, equalPacketSource (Some first.2) (Some packet.2)));
  let c := c <| uc_incomingPackets := q |> in
  if hasAny packets then Some (WaitReturn (Ok packets), c) else Some (WaitFor (if hasDeadline then Some timeout else None), c).

(** [ReadPackets], or with one packet [ReadPacket]: the packets of one source, whose
    address the session notes. *)
Definition ReadPackets (maxPackets : nat) (now : Time) (s : Z) (r : registry) (c : udpPeerPacketConnection)
    : option (option (result (list bytes)) * registry * udpPeerPacketConnection) :=
  '(round, c) ← waitIncomingPackets maxPackets now c;
  match round with
  | WaitFor _ => Some (None, r, c)
  | WaitReturn (Err e) => Some (Some (Err e), r, c)
  | WaitReturn (Ok packets) => Some (Some (Ok (fst <$> packets)), setReadAddress r s (snd <$> head packets), c)
  end.

(** Writing: one call of the batch writer, or one call for each packet.  [outcomes]
    are what the calls return; the datagrams are those the calls were given. *)
Fixpoint writeEach (packets : list bytes) (remoteAddress : netAddr) (outcomes : list (option goerr)) (i : Z)
    : list (bytes * netAddr) * (Z * option goerr) :=
  match packets with
  | [] => ([], (i, None))
  | packet :: packets =>
      match head outcomes with
      | Some (Some e) => ([(packet, remoteAddress)], (i, Some e))
      | _ => let '(sent, r) := writeEach packets remoteAddress (tail outcomes) (i + 1) in ((packet, remoteAddress) :: sent, r)
      end
  end.

Definition writePackets (batchWriter : bool) (remoteAddress : option netAddr) (packets : list bytes) (outcomes : list (option goerr))
    : list (bytes * netAddr) * (Z * option goerr) :=
  match remoteAddress with
  | None => ([], (0, Some net_ErrClosed))
  | Some address =>
      if batchWriter && hasAny packets then
        ((λ packet, (packet, address)) <$> packets,
         match head outcomes with Some (Some e) => (0, Some e) | _ => (lenZ packets, None) end)
      else writeEach packets address outcomes 0
  end.

(** ** The server *)

Inductive serverLifecycleState := serverLifecycleInitial | serverLifecycleStarting | serverLifecycleRunning | serverLifecycleClosing | serverLifecycleClosed.

#[export] Instance serverLifecycleState_eq_dec : EqDecision serverLifecycleState.
Proof. solve_decision. Defined.

(** [lv_workers] is the wait group's counter; the registry knows whether the state is
    running. *)
Record tlsServer := mkTLSServer {
  lv_lifecycle : serverLifecycleState;
  lv_listenerStopped : bool;
  lv_registry : registry;
  lv_connections : gmap Z udpPeerPacketConnection;
  lv_nextSession : Z;
  lv_workers : Z;
  lv_droppedUDPPackets : Z;
}.

#[export] Instance eta_tlsServer : Eta tlsServer := λ v,
  mkTLSServer (lv_lifecycle v) (lv_listenerStopped v) (lv_registry v) (lv_connections v) (lv_nextSession v) (lv_workers v) (lv_droppedUDPPackets v).

Definition setLifecycle (v : tlsServer) (state : serverLifecycleState) : tlsServer :=
  v <| lv_lifecycle := state |> <| lv_registry := (lv_registry v) <| rg_running := bool_decide (state = serverLifecycleRunning) |> |>.

Definition isRunning (v : tlsServer) : bool := bool_decide (lv_lifecycle v = serverLifecycleRunning) && negb (lv_listenerStopped v).

Definition reserveLoopWorker (v : tlsServer) : bool * tlsServer :=
  if decide (lv_lifecycle v = serverLifecycleRunning) then (true, v <| lv_workers := lv_workers v + 1 |>) else (false, v).

Definition loopWorkerDone (v : tlsServer) : tlsServer := v <| lv_workers := lv_workers v - 1 |>.

(** [tlsServer.Start]: the error of the context and of listening.  Without a listener of
    the program's own one is made. *)
Definition tlsServerStart (contextErr listenErr : option goerr) (v : tlsServer) : option goerr * tlsServer :=
  match lv_lifecycle v with
  | serverLifecycleRunning | serverLifecycleStarting => (None, v)
  | serverLifecycleClosing | serverLifecycleClosed => (Some ErrServerClosed, v)
  | serverLifecycleInitial =>
      match contextErr, listenErr with
      | Some e, _ | None, Some e => (Some e, setLifecycle v serverLifecycleInitial)
      | None, None => (None, (setLifecycle v serverLifecycleRunning) <| lv_workers := lv_workers v + 1 |>)
      end
  end.

Definition markListenerStopped (v : tlsServer) : tlsServer := v <| lv_listenerStopped := true |>.

(** ** Sessions *)

(** [newUDPSession], with the reservation it will hold. *)
Definition newUDPSession (v : tlsServer) (remoteAddress : netAddr) (remoteSessionID : SessionID) (reserved : bool) : Z * tlsServer :=
  let s := lv_nextSession v in
  (s, v <| lv_nextSession := s + 1 |> <| lv_connections := <[s := newPeerConnection]> (lv_connections v) |>
        <| lv_registry := addSession (lv_registry v) s (newServerSession (Some remoteAddress) remoteSessionID reserved) |>).

(** [releaseResourceReservation] of a session. *)
Definition releaseResourceReservation (r : registry) (s : Z) : registry :=
  match rg_sessions r !! s with
  | Some i => if ss_reserved i then updateSession (r <| rg_policy := release (rg_policy r) |>) s (λ i, i <| ss_reserved := false |>) else r
  | None => r
  end.

(** [Close] of a session's connection. *)
Definition closeConnectionOf (v : tlsServer) (s : Z) : option tlsServer :=
  match lv_connections v !! s with
  | None => Some v
  | Some c => c ← closePeerConnection c; Some (v <| lv_connections := <[s := c]> (lv_connections v) |>)
  end.

(** [Close] and [finish]: the session's context is cancelled and its connection closed. *)
Definition closeServerSession (v : tlsServer) (s : Z) : option tlsServer :=
  closeConnectionOf (v <| lv_registry := closeSession (lv_registry v) s |>) s.

Definition onRegistry (v : tlsServer) (f : registry → registry) : tlsServer := v <| lv_registry := f (lv_registry v) |>.

(** What a session's goroutine does when its run has returned, over UDP and over TCP. *)
Definition udpSessionEnd (v : tlsServer) (s : Z) : option tlsServer :=
  v ← closeServerSession v s;
  Some (loopWorkerDone (onRegistry (onRegistry v (λ r, unregisterSession r s)) (λ r, releaseResourceReservation r s))).

Definition streamSessionEnd (v : tlsServer) (s : Z) : option tlsServer :=
  v ← closeServerSession (onRegistry v (λ r, unregisterSession r s)) s;
  Some (loopWorkerDone (onRegistry v (λ r, releaseResourceReservation r s))).

(** How a session begins: with a reset, or with the answer to a challenge. *)
Inductive sessionStart := WithClientReset (packet : Packet) (protection : tlsControlProtection)
| WithCookieResponse (packet : Packet) (protection : tlsControlProtection) (serverSessionID : SessionID).

(** The session manager and, for a reset, the answer; [localID] is the random id. *)
Definition beginSession (start : sessionStart) (localID : result SessionID) : result (SessionManager * option Packet * tlsControlProtection) :=
  match start with
  | WithClientReset packet protection =>
      m ← NewSessionManager localID;
      let m := SetRemoteSessionID m (pkt_LocalSessionID packet) in
      serverResetPacket ← NewHardResetServerV2Packet m [pkt_ID packet];
      Ok (m, Some serverResetPacket, protection)
  | WithCookieResponse packet protection serverSessionID =>
      Ok (SetRemoteSessionID (NewSessionManagerWithLocalID serverSessionID) (pkt_LocalSessionID packet), None, protection)
  end.

Inductive listenerEffect := ChallengeSent (challenge : bytes) (address : netAddr) | SessionStarted (s : Z) (start : sessionStart).

(** ** Admission *)

(** The octets of an address, as the cookies use them. *)
Definition cookieAddress (a : netAddr) : Admission.netAddr :=
  match a with
  | UDPAddr ip port zone =>
      Admission.UDPAddr (match ip with AddrInvalid => [] | Addr4 v => be_encode 4 v | Addr6 v => be_encode 16 v end) port (bytesOf zone)
  | OtherAddr network text => Admission.OtherAddr (bytesOf network) (bytesOf text)
  end.

(** When a datagram is handled, and what the write of a challenge returns. *)
Record datagramIO := mkDatagramIO { dg_now : Time; dg_unixNow : Z; dg_reapNow : Time; dg_clock : Time; dg_write : option goerr }.

Section Accept.
Context (cr : Crypto) (forceCookie : bool) (staticProtection : tlsControlProtection) (signer : sessionIDHMACSigner).

(** The second half of both ways to accept: a worker for a session that is registered,
    or its end. *)
Definition spawnSession (s : Z) (start : sessionStart) (release : bool) (v : tlsServer) : option (bool * list listenerEffect * tlsServer) :=
  let '(reserved, v) := reserveLoopWorker v in
  if reserved : bool then Some (true, [SessionStarted s start], v) else
  let v := onRegistry v (λ r, unregisterSession r s) in
  let v := if release then onRegistry v (λ r, releaseResourceReservation r s) else v in
  v ← closeServerSession v s; Some (false, [], v).

Definition acceptUnboundUDPPacket (rawPacket : bytes) (remoteAddress : netAddr) (io : datagramIO) (v : tlsServer)
    : option (bool * list listenerEffect * tlsServer) :=
  if negb (isPossibleUDPPreDecryptPacket rawPacket) then Some (false, [], v) else
  let setPolicy v policy := onRegistry v (λ r, r <| rg_policy := policy |>) in
  let '(preDecryptResult, policy) := preDecryptUDPPacket cr forceCookie staticProtection signer (rg_policy (lv_registry v)) rawPacket
    (Some (cookieAddress remoteAddress)) (dg_now io) (dg_unixNow io) (dg_reapNow io) (dg_clock io) in
  match preDecryptResult with
  | udpPreDecryptDrop _ => Some (false, [], setPolicy v policy)
  | udpPreDecryptChallenge challenge _ _ =>
      let v := setPolicy v policy in
      Some (false, [ChallengeSent challenge remoteAddress],
            if isSome (dg_write io) then v <| lv_droppedUDPPackets := u64 (lv_droppedUDPPackets v + 1) |> else v)
  | udpPreDecryptAccept packet protection serverSessionID _ directReset =>
      let '(allowed, policy) := allowNewConnection policy (dg_now io) in
      if negb allowed then Some (false, [], setPolicy v policy) else
      let '(granted, policy) := reserveInstance (refundInitialPacket policy) in
      let v := setPolicy v policy in
      if negb granted then Some (false, [], v) else
      let '(s, v) := newUDPSession v remoteAddress (pkt_LocalSessionID packet) true in
      let '(registerErr, r) := registerSession (lv_registry v) (addrString remoteAddress) s (Some remoteAddress) in
      let v := v <| lv_registry := r |> in
      match registerErr with
      | Some _ => v ← closeConnectionOf (onRegistry v (λ r, releaseResourceReservation r s)) s; Some (false, [], v)
      | None => spawnSession s (if directReset then WithClientReset packet protection else WithCookieResponse packet protection serverSessionID) true v
      end
  end.

Definition acceptInitialUDPReset (rawPacket : bytes) (remoteAddress : netAddr) (io : datagramIO) (v : tlsServer)
    : option (bool * list listenerEffect * tlsServer) :=
  match ('(packet, protection, _) ← decodeUDPPreDecryptPacket cr staticProtection rawPacket (dg_reapNow io) (dg_clock io);
         _ ← validateInitialClientReset packet; Ok (packet, protection)) with
  | Err _ => Some (false, [], v)
  | Ok (packet, protection) =>
      let '(s, v) := newUDPSession v remoteAddress (pkt_LocalSessionID packet) false in
      let '(registered, r) := registerInitialSession (lv_registry v) (addrString remoteAddress) s remoteAddress in
      let v := v <| lv_registry := r |> in
      match registered with
      | Err _ => v ← closeConnectionOf v s; Some (false, [], v)
      | Ok displaced =>
          v ← match displaced with Some d => closeServerSession v d | None => Some v end;
          spawnSession s (WithClientReset packet protection) false v
      end
  end.

(** ** A batch of datagrams *)

Record dispatchState := mkDispatch {
  ds_server : tlsServer;
  ds_sessionsChanged : bool;
  ds_queued : gmap Z (list udpPeerPacket);
  ds_order : list Z;
  ds_effects : list listenerEffect;
}.

#[export] Instance eta_dispatchState : Eta dispatchState := λ d,
  mkDispatch (ds_server d) (ds_sessionsChanged d) (ds_queued d) (ds_order d) (ds_effects d).

Definition enqueueFor (s : Z) (packet : udpPeerPacket) (d : dispatchState) : dispatchState :=
  d <| ds_order := match ds_queued d !! s with Some _ => ds_order d | None => ds_order d ++ [s] end |>
    <| ds_queued := <[s := default [] (ds_queued d !! s) ++ [packet]]> (ds_queued d) |>.

Definition dispatchAccepted (d : dispatchState) (accepted : option (bool * list listenerEffect * tlsServer)) : option dispatchState :=
  '(changed, effects, v) ← accepted;
  Some (d <| ds_server := v |> <| ds_sessionsChanged := ds_sessionsChanged d || changed |> <| ds_effects := ds_effects d ++ effects |>).

(** The route a datagram takes: the one found for the batch, or, once sessions have
    been opened, another look. *)
Definition currentRoute (route : udpPacketRoute) (rawPacket : bytes) (remoteAddress : netAddr) (d : dispatchState) : udpPacketRoute :=
  match route with
  | udpPacketDeliver _ => route
  | _ => if ds_sessionsChanged d then routeUDPPacketLocked (lv_registry (ds_server d)) rawPacket (addrString remoteAddress) else route
  end.

Definition dispatchOne (d : dispatchState) (datagram : udpPeerPacket * datagramIO * udpPacketRoute) : option dispatchState :=
  let '(rawPacket, remoteAddress, io, route) := datagram in
  match currentRoute route rawPacket remoteAddress d with
  | udpPacketDrop => Some d
  | udpPacketUnbound => dispatchAccepted d (acceptUnboundUDPPacket rawPacket remoteAddress io (ds_server d))
  | udpPacketInitialReset => dispatchAccepted d (acceptInitialUDPReset rawPacket remoteAddress io (ds_server d))
  | udpPacketDeliver s =>
      match lv_connections (ds_server d) !! s with
      | None => Some d
      | Some _ => Some (enqueueFor s (rawPacket, remoteAddress) d)
      end
  end.

Fixpoint dispatchAll (d : dispatchState) (datagrams : list (udpPeerPacket * datagramIO * udpPacketRoute)) : option dispatchState :=
  match datagrams with
  | [] => Some d
  | datagram :: datagrams => d ← dispatchOne d datagram; dispatchAll d datagrams
  end.

(** The packets of each session go into its queue at once. *)
Definition pushQueued (v : tlsServer) (s : Z) (packets : list udpPeerPacket) : option tlsServer :=
  match lv_connections v !! s with
  | None => Some v
  | Some c =>
      '(dropped, c) ← pushPackets c packets;
      Some (v <| lv_connections := <[s := c]> (lv_connections v) |> <| lv_droppedUDPPackets := u64 (lv_droppedUDPPackets v + dropped) |>)
  end.

Fixpoint pushAll (v : tlsServer) (queued : gmap Z (list udpPeerPacket)) (order : list Z) : option tlsServer :=
  match order with
  | [] => Some v
  | s :: order => v ← pushQueued v s (default [] (queued !! s)); pushAll v queued order
  end.

Definition dispatchListenerPackets (datagrams : list (udpPeerPacket * datagramIO)) (v : tlsServer) : option (list listenerEffect * tlsServer) :=
  let routes := findUDPPacketRoutes (lv_registry v) ((λ d, (d.1.1, addrString d.1.2)) <$> datagrams) in
  d ← dispatchAll (mkDispatch v false ∅ [] []) (zip datagrams routes);
  v ← pushAll (ds_server d) (ds_queued d) (ds_order d);
  Some (ds_effects d, v).

(** ** The loops *)

(** What a call on the listener fails with: a timeout, an error because it is closed,
    or another. *)
Inductive listenerError := ListenerTimeout (e : goerr) | ListenerClosed (e : goerr) | ListenerFailed (e : goerr).

(** A round of [runPacketLoop]: whether the context is done, at the head of the loop,
    when an error is examined and while it waits; arming the deadline; the read. *)
Record packetRound := mkPacketRound {
  pr_done : bool;
  pr_doneAfter : bool;
  pr_deadline : option listenerError;
  pr_datagrams : list (udpPeerPacket * datagramIO);
  pr_read : option listenerError;
  pr_waited : bool;
}.

(** [listenerShutdown]. *)
Definition listenerShutdown (contextDone : bool) (e : listenerError) : bool :=
  contextDone || match e with ListenerClosed _ => true | _ => false end.

(** An error of a listener: the loop stops, or goes on with the delay. *)
Definition handleListenerError (r : packetRound) (e : listenerError) (retry : Z) (v : tlsServer) : tlsServer * option Z :=
  if listenerShutdown (pr_doneAfter r) e then (markListenerStopped v, None) else
  if pr_waited r then (v, Some (nextRetryDelay retry)) else (markListenerStopped v, None).

Definition packetRoundStep (r : packetRound) (retry : Z) (v : tlsServer) : option (list listenerEffect * tlsServer * option Z) :=
  if pr_done r then Some ([], markListenerStopped v, None) else
  match pr_deadline r with
  | Some e => let '(v, next) := handleListenerError r e retry v in Some ([], v, next)
  | None =>
      '(effects, v) ← (if hasAny (pr_datagrams r) then dispatchListenerPackets (pr_datagrams r) v else Some ([], v));
      match pr_read r with
      | None | Some (ListenerTimeout _) => Some (effects, v, Some 0)
      | Some e => let '(v, next) := handleListenerError r e retry v in Some (effects, v, next)
      end
  end.

(** [None] is a panic; the inner [None]: the loop has returned, its worker is done. *)
Fixpoint runPacketLoop (rounds : list packetRound) (retry : Z) (v : tlsServer) : option (list listenerEffect * tlsServer * option Z) :=
  match rounds with
  | [] => Some ([], v, Some retry)
  | r :: rounds =>
      '(effects, v, next) ← packetRoundStep r retry v;
      match next with
      | None => Some (effects, loopWorkerDone v, None)
      | Some retry => '(more, v, next) ← runPacketLoop rounds retry v; Some (effects ++ more, v, next)
      end
  end.

End Accept.

(** *** Stream connections *)

(** What a call of [Accept] gives: a connection, or an error.  The number of a
    connection names it in the effects. *)
Record acceptRound := mkAcceptRound { ac_error : option listenerError; ac_done : bool; ac_waited : bool }.

Inductive acceptStep := AcceptClosed | AcceptServed | AcceptNothing.

(** A round of [runStreamAcceptLoop]: what becomes of the connection, and the delay,
    [None] when the loop has returned. *)
Definition acceptRoundStep (r : acceptRound) (retry : Z) (v : tlsServer) : acceptStep * tlsServer * option Z :=
  match ac_error r with
  | Some e =>
      if listenerShutdown (ac_done r) e then (AcceptNothing, markListenerStopped v, None) else
      match e with
      | ListenerTimeout _ => (AcceptNothing, v, Some 0)
      | _ => if ac_waited r then (AcceptNothing, v, Some (nextRetryDelay retry)) else (AcceptNothing, markListenerStopped v, None)
      end
  | None =>
      let '(granted, policy) := reserveInstance (rg_policy (lv_registry v)) in
      let v := onRegistry v (λ r, r <| rg_policy := policy |>) in
      if negb granted then (AcceptClosed, v, Some 0) else
      let '(reserved, v) := reserveLoopWorker v in
      if negb reserved
      then (AcceptClosed, markListenerStopped (onRegistry v (λ r, r <| rg_policy := release (rg_policy r) |>)), None)
      else (AcceptServed, v, Some 0)
  end.

Fixpoint runStreamAcceptLoop (rounds : list acceptRound) (retry : Z) (v : tlsServer) : list acceptStep * tlsServer * option Z :=
  match rounds with
  | [] => ([], v, Some retry)
  | r :: rounds =>
      let '(accepted, v, next) := acceptRoundStep r retry v in
      match next with
      | None => ([accepted], loopWorkerDone v, None)
      | Some retry => let '(more, v, next) := runStreamAcceptLoop rounds retry v in (accepted :: more, v, next)
      end
  end.

(** [runStreamSession] up to the first read: the session, or none when the protocol is
    not one of streams or the registration is refused, in which case the worker ends. *)
Definition openStreamSession (peerAddress : string) (connectionErr : option goerr) (v : tlsServer) : option (option Z * tlsServer) :=
  match connectionErr with
  | Some _ => Some (None, loopWorkerDone (onRegistry v (λ r, r <| rg_policy := release (rg_policy r) |>)))
  | None =>
      let s := lv_nextSession v in
      let v := v <| lv_nextSession := s + 1 |> in
      let '(registerErr, r) := registerSession (addSession (lv_registry v) s (newServerSession None zeroSessionID true)) peerAddress s None in
      let v := v <| lv_registry := r |> in
      match registerErr with
      | None => Some (Some s, v)
      | Some _ => v ← closeServerSession v s; Some (None, loopWorkerDone (onRegistry v (λ r, releaseResourceReservation r s)))
      end
  end.

(** *** Closing the server *)

(** What [Close] does first: the caller that finds the server open closes it. *)
Definition tlsServerCloseBegin (v : tlsServer) : bool * tlsServer :=
  match lv_lifecycle v with
  | serverLifecycleClosing | serverLifecycleClosed => (false, v)
  | _ => (true, setLifecycle v serverLifecycleClosing)
  end.

(** The sessions it closes, in the order of an iteration over the table. *)
Definition closeSnapshot (v : tlsServer) : list Z := (map_to_list (rg_byPeer (lv_registry v))).*2.

Fixpoint closeSessions (v : tlsServer) (sessions : list Z) : option tlsServer :=
  match sessions with
  | [] => Some v
  | s :: sessions => v ← closeServerSession v s; closeSessions v sessions
  end.

(** After the wait. *)
Definition tlsServerCloseEnd (v : tlsServer) : tlsServer := setLifecycle v serverLifecycleClosed.

(** ** The server of a program ([server.go]) *)

Definition withServerMSSFix (d : ServerDataChannelOptions) (mssFix : Z) (mode : string) : ServerDataChannelOptions :=
  mkServerDataChannel (sdo_MTU d) mssFix (sdo_MSSFixDisabled d) mode (sdo_Cipher d) (sdo_Ciphers d) (sdo_FallbackCipher d) (sdo_Auth d)
    (sdo_ReplayWindow d) (sdo_ReplayWindowTime d) (sdo_PacketHeadroom d).

Definition defaultServerMSSFix (d : ServerDataChannelOptions) : ServerDataChannelOptions :=
  if (sdo_MSSFix d =? 0) && negb (sdo_MSSFixDisabled d) then
    if (sdo_MTU d =? 0) || (sdo_MTU d =? 1500) then withServerMSSFix d defaultMSSFix MSSFixModeMTU
    else withServerMSSFix d (sdo_MTU d) MSSFixModeFixed
  else d.

Definition defaultServerTiming (t : ServerTimingOptions) : ServerTimingOptions :=
  mkServerTiming
    (if (sti_RenegotiationInterval t =? 0) && negb (sti_RenegotiationDisabled t) then defaultRenegotiationInterval else sti_RenegotiationInterval t)
    (sti_RenegotiationDisabled t) (sti_RenegotiationBytes t) (sti_RenegotiationPackets t)
    (if sti_HandWindow t =? 0 then tlsHandshakeTotalDuration else sti_HandWindow t) (sti_PingInterval t) (sti_PingRestart t).

(** The address of a listener of the program's own stands for the listen address. *)
Definition resolveListenAddress (t : ServerTransportOptions) : result string :=
  if Options.nonEmpty (sto_ListenAddress t) then Ok (sto_ListenAddress t) else
  match sto_Listener t, sto_PacketConn t with
  | Some address, _ | None, Some address => Ok address
  | None, None => Err ErrMissingListenAddress
  end.

(** [NewServer] up to the mode's own server: the protocol, the network and the options
    with their defaults. *)
Definition NewServer (options : ServerOptions) : result (string * string * ServerOptions) :=
  '(protocol, listenNetwork) ← resolveTransportProtocol (sto_Protocol (so_Transport options));
  listenAddress ← resolveListenAddress (so_Transport options);
  let t := so_Transport options in
  let options :=
    mkServerOptions (so_Mode options) (mkServerTransport listenAddress (sto_RemoteAddress t) (sto_Listener t) (sto_PacketConn t) (sto_Protocol t))
      (so_Resources options) (so_DataChannel options) (so_TLS options) (so_CryptV2ForceCookie options) (so_VerifyClientCertificate options)
      (so_Authenticator options) (so_DuplicateCN options) (so_Timing options) (so_Tunnel options) (so_Push options) (so_StaticKey options)
      (so_KeyDirection options) in
  mode ← validateMode (so_Mode options);
  _ ← validateImplementedServerOptions options;
  Ok (protocol, listenNetwork,
      mkServerOptions (so_Mode options) (so_Transport options) (so_Resources options) (defaultServerMSSFix (so_DataChannel options)) (so_TLS options)
        (so_CryptV2ForceCookie options) (so_VerifyClientCertificate options) (so_Authenticator options) (so_DuplicateCN options)
        (if decide (mode = ModeTLS) then defaultServerTiming (so_Timing options) else so_Timing options) (so_Tunnel options) (so_Push options)
        (so_StaticKey options) (so_KeyDirection options)).

(** [Start]: [prepare] is what the preparation of the data plane returns, [start] what
    the mode's own server does. *)
Definition serverStart (prepare start : option goerr) (state : serverLifecycleState) : option goerr * serverLifecycleState :=
  match state with
  | serverLifecycleRunning | serverLifecycleStarting => (None, state)
  | serverLifecycleClosing | serverLifecycleClosed => (Some ErrServerClosed, state)
  | serverLifecycleInitial =>
      match prepare, start with
      | Some e, _ | None, Some e => (Some e, serverLifecycleInitial)
      | None, None => (None, serverLifecycleRunning)
      end
  end.

(** [Close]: whether the caller closes the server, or waits for the one who does. *)
Definition serverClose (state : serverLifecycleState) : bool * serverLifecycleState :=
  match state with serverLifecycleClosing | serverLifecycleClosed => (false, state) | _ => (true, serverLifecycleClosing) end.

(** [requireRunning] and [activeLoopContext]; [tls] is whether the TLS server's listener
    runs, [None] in static mode. *)
Definition requireRunning (tls : option bool) (state : serverLifecycleState) : option goerr :=
  match state with
  | serverLifecycleRunning => match tls with Some false => Some ErrServerClosed | _ => None end
  | serverLifecycleClosing | serverLifecycleClosed => Some ErrServerClosed
  | _ => Some ErrDataChannelNotReady
  end.

(** [tlsServer.WriteDataPackets]: the session the payloads are written to. *)
Definition tlsServerWriteTo (peerAddress : string) (payloads : list bytes) (v : tlsServer) : result (option Z) :=
  if negb (hasAny payloads) then Ok None else
  if negb (isRunning v) then Err ErrServerClosed else
  match getSession (lv_registry v) peerAddress with None => Err ErrPeerNotFound | Some s => Ok (Some s) end.

(** A round of [readDataPackets]: it returns, or it waits for a token of the queue, the
    caller's context or the loop's. *)
Inductive readRound {T : Type} := ReadReturn (r : result (list T)) | ReadWait.
Arguments readRound : clear implicits.

Definition serverReadDataPackets (running : option goerr) (loopDone : bool) (maxPackets : nat) (q : dataPacketQueue (T := string * bytes))
    : option (readRound (string * bytes) * dataPacketQueue) :=
  match running with
  | Some e => Some (ReadReturn (Err e), q)
  | None =>
      if loopDone then Some (ReadReturn (Err ErrServerClosed), q) else
      '(packets, q) ← Pop (EmptyString, []) q maxPackets None;
      Some (if hasAny packets then ReadReturn (Ok packets) else ReadWait, q)
  end.
