(* ===== verification/ListenerLaws.v ===== *)
(** * Laws of the listeners

    The slots a server has for clients are accounted for, whatever its threads do and in
    whatever order. *)

From S2P Require Import Prelude GoStrings Packet Session Netip NetipText Codec CodecLaws ControlWrap Options Auth Supervisor KeyState Admission DataQueue ControlChannel DataPath ServerSessions ServerSessionLaws ServerTunnel ClientSession ServerHandshake Listener.


(** ** Slots *)

(** The sessions that hold one of the slots of the policy. *)
Definition holdsSlot (p : Z * serverSession) : Prop := ss_reserved p.2 = true.
#[export] Instance holdsSlot_dec p : Decision (holdsSlot p).
Proof. unfold holdsSlot. apply _. Defined.

Definition slots (r : registry) : Z := Z.of_nat (size (filter holdsSlot (rg_sessions r))).

Definition slotOf (i : serverSession) : Z := if ss_reserved i then 1 else 0.

Lemma size_filter_insert (m : gmap Z serverSession) s j :
  Z.of_nat (size (filter holdsSlot (<[s := j]> m))) =
    Z.of_nat (size (filter holdsSlot m)) - match m !! s with Some i => slotOf i | None => 0 end + slotOf j.
Proof.
  assert (Hd : Z.of_nat (size (filter holdsSlot (delete s m))) = Z.of_nat (size (filter holdsSlot m)) - match m !! s with Some i => slotOf i | None => 0 end).
  { rewrite map_filter_delete, map_size_delete. destruct (m !! s) as [i |] eqn:Hi.
    - unfold slotOf. destruct (ss_reserved i) eqn:Hr.
      + assert (Hf : filter holdsSlot m !! s = Some i) by (by apply map_lookup_filter_Some). rewrite Hf. cbn.
        assert (size (filter holdsSlot m) ≠ 0%nat); [| lia]. intros H0%map_size_empty_inv. by rewrite H0, lookup_empty in Hf.
      + assert (Hf : filter holdsSlot m !! s = None) by (apply map_lookup_filter_None; right; intros x Hx; unfold holdsSlot; cbn; congruence).
        rewrite Hf. cbn. lia.
    - assert (Hf : filter holdsSlot m !! s = None) by (apply map_lookup_filter_None; by left). rewrite Hf. cbn. lia. }
  rewrite <- insert_delete_eq, map_filter_insert. destruct (decide (holdsSlot (s, j))) as [Hj | Hj].
  - rewrite map_size_insert. assert (Hf : filter holdsSlot (delete s m) !! s = None) by (apply map_lookup_filter_None; left; apply lookup_delete_eq).
    rewrite Hf. cbn. change (slotOf j) with (if ss_reserved j then 1 else 0). unfold holdsSlot in Hj. cbn in Hj. rewrite Hj. lia.
  - rewrite delete_delete_eq, Hd. change (slotOf j) with (if ss_reserved j then 1 else 0). unfold holdsSlot in Hj. cbn in Hj. apply not_true_is_false in Hj. rewrite Hj. lia.
Qed.

Lemma slots_add r s i : rg_sessions r !! s = None → slots (addSession r s i) = slots r + slotOf i.
Proof. intros Hs. unfold slots, addSession. cbn. rewrite size_filter_insert, Hs. lia. Qed.

Lemma updateSession_insert r s f i : rg_sessions r !! s = Some i → rg_sessions (updateSession r s f) = <[s := f i]> (rg_sessions r).
Proof.
  intros Hi. apply map_eq. intros t. rewrite updateSession_lookup. destruct (decide (s = t)) as [<- | Hne].
  - by rewrite lookup_insert_eq, Hi.
  - by rewrite lookup_insert_ne.
Qed.

Lemma slots_update r s f i : rg_sessions r !! s = Some i → slots (updateSession r s f) = slots r - slotOf i + slotOf (f i).
Proof. intros Hi. unfold slots. rewrite (updateSession_insert r s f i Hi), size_filter_insert, Hi. done. Qed.

(** Updates that leave the slots alone. *)
Lemma slots_keep r s f : (∀ i, ss_reserved (f i) = ss_reserved i) → slots (updateSession r s f) = slots r.
Proof.
  intros Hf. destruct (rg_sessions r !! s) as [i |] eqn:Hi.
  - rewrite (slots_update r s f i Hi). unfold slotOf. rewrite Hf. lia.
  - unfold slots, updateSession. cbn. by rewrite alter_id; [| intros x Hx; congruence].
Qed.

Lemma slots_sessions r r' : rg_sessions r' = rg_sessions r → slots r' = slots r.
Proof. unfold slots. by intros ->. Qed.

Lemma slots_evict r s : slots (evictSessionLocked r s) = slots r.
Proof. apply slots_sessions, evict_sessions. Qed.

Lemma slots_bind r a s : slots (bindPeerAddressLocked r a s) = slots r.
Proof.
  unfold bindPeerAddressLocked. destruct (match rg_byPeer r !! a with Some e => _ | None => _ end) as [address counter].
  rewrite slots_keep by done. by apply slots_sessions.
Qed.

Lemma slots_close r s : slots (closeSession r s) = slots r.
Proof. by apply slots_keep. Qed.

Lemma slots_release r s : slots (releaseResourceReservation r s) - rp_instances (rg_policy (releaseResourceReservation r s)) = slots r - rp_instances (rg_policy r).
Proof.
  unfold releaseResourceReservation. destruct (rg_sessions r !! s) as [i |] eqn:Hi; [| done]. destruct (ss_reserved i) eqn:Hr; [| done].
  rewrite (slots_update _ s _ i) by done. rewrite (slots_sessions r) by done. unfold slotOf. rewrite Hr. cbn -[slots]. lia.
Qed.

(** A session that has yet to be promoted. *)
Definition waiting (i : serverSession) : Prop := ss_reserved i = false ∧ ∀ d, ss_step i ≠ StepReserving d.

(** [n] counts the slots that are reserved for a session that is not made yet. *)
Record regOk (maximum n next : Z) (r : registry) : Prop := mkRegOk {
  ro_count : rp_instances (rg_policy r) = slots r + n;
  ro_maximum : rp_maxClients (rg_policy r) = maximum;
  ro_bound : rp_instances (rg_policy r) ≤ maximum;
  ro_pending : 0 ≤ n;
  ro_initial address s : rg_initial r !! address = Some s → sessionAt r s (λ i, waiting i ∧ boundTo address i);
  ro_fresh s i : rg_sessions r !! s = Some i → s < next;
}.

(** Changes of the other tables. *)
Lemma regOk_tables maximum n next r r' :
  rg_sessions r' = rg_sessions r → rg_policy r' = rg_policy r → (∀ a s, rg_initial r' !! a = Some s → rg_initial r !! a = Some s) →
  regOk maximum n next r → regOk maximum n next r'.
Proof.
  intros Hs Hp Hi [H1 H2 H3 H4 H5 H6]. constructor; rewrite ?Hp, ?(slots_sessions _ _ Hs), ?Hs; try done.
  intros a s Ha%Hi%H5. unfold sessionAt. by rewrite Hs.
Qed.

(** Changes of a session. *)
Lemma regOk_keep maximum n next r s f :
  (∀ i, ss_reserved (f i) = ss_reserved i) → (∀ i, ss_remoteAddress (f i) = ss_remoteAddress i ∧ ∀ d, ss_step (f i) = StepReserving d → ss_step i = StepReserving d) →
  regOk maximum n next r → regOk maximum n next (updateSession r s f).
Proof.
  intros Hf Ha [H1 H2 H3 H4 H5 H6]. constructor; cbn -[slots]; rewrite ?(slots_keep r s f Hf); try done.
  - intros a t Ht%H5. apply sessionAt_update; [| done]. intros i _ [[Hr Hw] Hb]. destruct (Ha i) as [Ha1 Ha2]. split; [split; [by rewrite Hf | intros d Hd; by apply (Hw d), Ha2]|]. unfold boundTo. by rewrite Ha1.
  - intros t i Hi. rewrite lookup_alter_Some in Hi. destruct Hi as [(<- & j & Hj & _) | [_ Hj]]; by eapply H6.
Qed.

Lemma regOk_policy maximum n next r p :
  rp_instances p = rp_instances (rg_policy r) → rp_maxClients p = rp_maxClients (rg_policy r) → regOk maximum n next r → regOk maximum n next (r <| rg_policy := p |>).
Proof. intros Hp Hm [H1 H2 H3 H4 H5 H6]. constructor; cbn -[slots]; rewrite ?Hp, ?Hm, ?(slots_sessions r) by done; done. Qed.

Lemma regOk_reserve maximum n next r p :
  reserveInstance (rg_policy r) = (true, p) → regOk maximum n next r → regOk maximum (n + 1) next (r <| rg_policy := p |>).
Proof.
  unfold reserveInstance. destruct (_ <=? _) eqn:Hle; [done |]. intros [= <-] [H1 H2 H3 H4 H5 H6]. apply Z.leb_gt in Hle.
  constructor; cbn -[slots]; rewrite ?(slots_sessions r) by done; try done; lia.
Qed.

Lemma regOk_unreserve maximum n next r : 0 < n → regOk maximum n next r → regOk maximum (n - 1) next (r <| rg_policy := release (rg_policy r) |>).
Proof. intros Hn [H1 H2 H3 H4 H5 H6]. constructor; cbn -[slots]; rewrite ?(slots_sessions r) by done; try done; lia. Qed.

Lemma regOk_add maximum n next r i :
  slotOf i ≤ n → regOk maximum n next r → regOk maximum (n - slotOf i) (next + 1) (addSession r next i).
Proof.
  intros Hi [H1 H2 H3 H4 H5 H6]. assert (Hnone : rg_sessions r !! next = None) by (destruct (rg_sessions r !! next) eqn:E; [apply H6 in E; lia | done]).
  constructor; rewrite ?(slots_add r next i Hnone); cbn -[slots]; try done; try lia.
  - intros a t (j & Hj & Hp)%H5. exists j. split; [| done]. cbn. by rewrite lookup_insert_ne by (intros <-; congruence).
  - intros t j Hj. apply lookup_insert_Some in Hj as [[<- _] | [_ Hj%H6]]; lia.
Qed.

Lemma regOk_evict maximum n next r s : regOk maximum n next r → regOk maximum n next (evictSessionLocked r s).
Proof.
  apply regOk_tables; [apply evict_sessions | |].
  - unfold evictSessionLocked. by destruct (rg_sessions r !! s).
  - unfold evictSessionLocked. destruct (rg_sessions r !! s); [| done]. cbn. intros a t. rewrite map_lookup_filter_Some. tauto.
Qed.

Lemma regOk_bind maximum n next r a s : regOk maximum n next r → regOk maximum n next (bindPeerAddressLocked r a s).
Proof.
  intros H. unfold bindPeerAddressLocked. destruct (match rg_byPeer r !! a with Some e => _ | None => _ end) as [address counter].
  apply regOk_keep; [done | done |]. by apply (regOk_tables _ _ _ r).
Qed.

Lemma regOk_release maximum n next r s : regOk maximum n next r → regOk maximum n next (releaseResourceReservation r s).
Proof.
  intros H. pose proof (slots_release r s) as Hs. revert Hs. destruct H as [H1 H2 H3 H4 H5 H6]. unfold releaseResourceReservation.
  destruct (rg_sessions r !! s) as [i |] eqn:Hi; [| by constructor]. destruct (ss_reserved i) eqn:Hr; [| by constructor].
  intros Hs. constructor; cbn -[slots] in *; try done; try lia.
  - intros a t Ht%H5. apply sessionAt_update; [| done]. intros j _ [[_ Hw] Hb]. done.
  - intros t j Hj. rewrite lookup_alter_Some in Hj. destruct Hj as [(<- & k & Hk & _) | [_ Hk]]; by eapply H6.
Qed.

Lemma regOk_register maximum n next r a s udp : regOk maximum n next r → regOk maximum n next (registerSession r a s udp).2.
Proof.
  intros H. unfold registerSession. destruct (decide _); [done |]. destruct (negb _); [done |].
  destruct (match udp with Some _ => _ | None => false end); [done |]. destruct udp as [address |]; cbn [snd]; [| by apply regOk_bind].
  apply (regOk_tables _ _ _ (bindPeerAddressLocked r a s)); [done.. | by apply regOk_bind].
Qed.

Lemma bind_sessionAt r a s t (P : serverSession → Prop) :
  (∀ i address, P i → P (i <| ss_peerAddress := address |>)) → sessionAt r t P → sessionAt (bindPeerAddressLocked r a s) t P.
Proof.
  intros HP H. unfold bindPeerAddressLocked. destruct (match rg_byPeer r !! a with Some e => _ | None => _ end) as [address counter].
  apply sessionAt_update; [| done]. intros i _ Hi. by apply HP.
Qed.

Lemma regOk_registerInitial maximum n next r a s udp :
  sessionAt r s (λ i, waiting i ∧ boundTo (addrString udp) i) → regOk maximum n next r → regOk maximum n next (registerInitialSession r a s udp).2.
Proof.
  intros Hs H. unfold registerInitialSession. destruct (decide _); [done |]. destruct (negb _); [done |]. cbn [snd].
  set (r1 := match _ with Some d => evictSessionLocked r d | None => r end).
  assert (H1 : regOk maximum n next r1 ∧ rg_sessions r1 = rg_sessions r).
  { subst r1. destruct (match rg_initial r !! addrString udp with Some d => _ | None => None end); [| done]. split; [by apply regOk_evict | apply evict_sessions]. }
  clearbody r1. destruct H1 as [H1 Hs1]. assert (Hat : sessionAt r1 s (λ i, waiting i ∧ boundTo (addrString udp) i)) by (unfold sessionAt; by rewrite Hs1).
  apply (bind_sessionAt r1 a s) in Hat; [| done]. apply (regOk_bind _ _ _ _ a s) in H1. revert H1 Hat. generalize (bindPeerAddressLocked r1 a s) as r2.
  intros r2 [G1 G2 G3 G4 G5 G6] Hat. constructor; cbn -[slots]; rewrite ?(slots_sessions r2) by done; try done.
  intros x t Hx. apply lookup_insert_Some in Hx as [[<- <-] | [_ Hx]]; [done | by apply G5].
Qed.

(** A session that is not initial takes or gives up a slot. *)
Lemma regOk_slot maximum n next r s i b :
  rg_sessions r !! s = Some i → (∀ a, rg_initial r !! a = Some s → b = false) →
  0 ≤ n + slotOf i - (if b : bool then 1 else 0) →
  regOk maximum n next r → regOk maximum (n + slotOf i - (if b then 1 else 0)) next (updateSession r s (λ i, i <| ss_reserved := b |>)).
Proof.
  intros Hi Hn Hz [H1 H2 H3 H4 H5 H6]. constructor; rewrite ?(slots_update r s _ i Hi); cbn -[slots]; try done.
  - change (slotOf (i <| ss_reserved := b |>)) with (if b then 1 else 0). lia.
  - intros a t Ht. destruct (H5 a t Ht) as (j & Hj & Hr & Hb). unfold sessionAt. rewrite updateSession_lookup.
    destruct (decide (s = t)) as [<- | Hne]; [| by exists j]. rewrite Hj. eexists. split; [done |]. destruct Hr as [_ Hw]. split; [split; [cbn; by eapply Hn | exact Hw] | done].
  - intros t j Hj. rewrite lookup_alter_Some in Hj. destruct Hj as [(<- & k & Hk & _) | [_ Hk]]; by eapply H6.
Qed.

Lemma initial_unique r s address a :
  (∀ x t, rg_initial r !! x = Some t → sessionAt r t (λ i, waiting i ∧ boundTo x i)) →
  rg_initial r !! address = Some s → rg_initial r !! a = Some s → a = address.
Proof. intros H (i & Hi & _ & b & Hb & <-)%H (j & Hj & _ & c & Hc & <-)%H. congruence. Qed.

(** The exchange under the lock: the slot of the displaced session changes hands. *)
Lemma regOk_promoteLocked maximum n next r s address displaced r' :
  rg_initial r !! address = Some s → promoteLocked r s address = (displaced, r') → regOk maximum n next r →
  regOk maximum n next r' ∧ (∀ a, rg_initial r' !! a ≠ Some s) ∧ is_Some (rg_sessions r' !! s).
Proof.
  intros Ha Hp H. pose proof (ro_initial _ _ _ _ H) as Hin. destruct (Hin address s Ha) as (i & Hi & [Hr Hw] & Hb). revert Hp. unfold promoteLocked.
  set (r1 := r <| rg_initial := delete address (rg_initial r) |>).
  assert (Hinit : ∀ a t, rg_initial r1 !! a = Some t ↔ address ≠ a ∧ rg_initial r !! a = Some t) by (intros a t; apply lookup_delete_Some).
  assert (H1 : regOk maximum n next r1) by (apply (regOk_tables _ _ _ r); [done | done | intros a t Ht; apply Hinit in Ht as [_ Ht]; exact Ht | done]).
  assert (Hgone : ∀ a, rg_initial r1 !! a ≠ Some s).
  { intros a [Hne Hx]%Hinit. apply Hne. symmetry. by eapply initial_unique. }
  assert (Hi1 : rg_sessions r1 !! s = Some i) by done. clear Hinit. clearbody r1.
  set (d := match rg_udp r !! address with Some d => _ | None => None end).
  assert (Hd : ∀ x, d = Some x → x ≠ s).
  { intros x. subst d. destruct (rg_udp r !! address) as [x' |]; [| done]. destruct (decide (x' = s)); [done |]. by intros [= <-]. }
  clearbody d. destruct d as [x |]; intros [= <- <-].
  2: { split_and!; [by apply (regOk_tables _ _ _ r1) | done | by exists i]. }
  specialize (Hd x eq_refl). pose proof (regOk_evict _ _ _ _ x H1) as H2. pose proof (evict_sessions r1 x) as He.
  assert (Hgone2 : ∀ a, rg_initial (evictSessionLocked r1 x) !! a ≠ Some s).
  { intros a. unfold evictSessionLocked. destruct (rg_sessions r1 !! x); [| apply Hgone]. cbn. rewrite map_lookup_filter_Some. intros [Hx _]. by apply (Hgone a). }
  revert H2 He Hgone2. generalize (evictSessionLocked r1 x) as r2. intros r2 H2 He Hgone2.
  set (reserved := match rg_sessions r1 !! x with Some j => ss_reserved j | None => false end).
  assert (H3 : regOk maximum (n + (if reserved then 1 else 0)) next (updateSession r2 x (λ i, i <| ss_reserved := false |>))).
  { subst reserved. rewrite <- He. destruct (rg_sessions r2 !! x) as [j |] eqn:Hj.
    - pose proof (regOk_slot maximum n next r2 x j false Hj ltac:(done)) as H3. unfold slotOf in H3. rewrite Z.sub_0_r in H3.
      apply H3; [pose proof (ro_pending _ _ _ _ H2); destruct (ss_reserved j); lia | done].
    - rewrite Z.add_0_r. apply (regOk_tables _ _ _ r2); [| done | done | done]. unfold updateSession. cbn. apply alter_id. intros y Hy. congruence. }
  assert (Hi3 : rg_sessions (updateSession r2 x (λ i, i <| ss_reserved := false |>)) !! s = Some i) by (by rewrite updateSession_lookup, decide_False, He).
  revert H3 Hi3. generalize Hgone2. change (rg_initial r2) with (rg_initial (updateSession r2 x (λ i, i <| ss_reserved := false |>))).
  generalize (updateSession r2 x (λ i, i <| ss_reserved := false |>)) as r3. intros r3 Hgone3 H3 Hi3.
  pose proof (regOk_slot maximum (n + (if reserved then 1 else 0)) next r3 s i reserved Hi3 ltac:(intros a Hx; by apply Hgone3 in Hx)) as H4. unfold slotOf in H4. rewrite Hr in H4.
  replace (n + (if reserved then 1 else 0) + 0 - (if reserved then 1 else 0)) with n in H4 by lia.
  split_and!.
  - apply (regOk_tables _ _ _ (updateSession r3 s (λ i, i <| ss_reserved := reserved |>))); [done | done | done |].
    apply H4; [exact (ro_pending _ _ _ _ H) | done].
  - exact Hgone3.
  - change (rg_sessions (?a <| rg_udp := _ |>)) with (rg_sessions a). rewrite updateSession_lookup, decide_True by done. rewrite Hi3. by eexists.
Qed.

(** A change of step by a session that is not initial any more. *)
Lemma regOk_step maximum n next r s step :
  (∀ d, step = StepReserving d → ∀ a, rg_initial r !! a ≠ Some s) → regOk maximum n next r → regOk maximum n next (setStep r s step).
Proof.
  intros Hs [H1 H2 H3 H4 H5 H6]. unfold setStep. constructor; cbn -[slots]; rewrite ?slots_keep by done; try done.
  - intros a t Ht. destruct (H5 a t Ht) as (j & Hj & [Hr Hw] & Hb). unfold sessionAt. rewrite updateSession_lookup.
    destruct (decide (s = t)) as [<- | Hne]; [| by exists j]. rewrite Hj. eexists. split; [done |]. split; [split; [done |] | done].
    intros d Hd. by apply (Hs d Hd a).
  - intros t j Hj. rewrite lookup_alter_Some in Hj. destruct Hj as [(<- & k & Hk & _) | [_ Hk]]; by eapply H6.
Qed.

Lemma regOk_promoteBegin maximum n next r s : regOk maximum n next r → regOk maximum n next (promoteBegin r s).
Proof.
  intros H. unfold promoteBegin. destruct (rg_sessions r !! s ≫= ss_remoteAddress) as [remote |]; [| done]. cbv zeta.
  destruct (decide _) as [Ha |]; [| done]. destruct (promoteLocked r s (addrString remote)) as [displaced r1] eqn:Hp.
  destruct (regOk_promoteLocked _ _ _ _ _ _ _ _ Ha Hp H) as (H1 & Hgone & _). by apply regOk_step.
Qed.

Lemma regOk_promoteReserve maximum n next r s i d displaced :
  rg_sessions r !! s = Some i → ss_step i = StepReserving d → regOk maximum n next r → regOk maximum n next (promoteReserve r s displaced).2.
Proof.
  intros Hi Hst H. assert (Hgone : ∀ a, rg_initial r !! a ≠ Some s).
  { intros a Ha. destruct (ro_initial _ _ _ _ H a s Ha) as (j & Hj & [_ Hw] & _). rewrite Hi in Hj. injection Hj as <-. by apply (Hw d). }
  assert (Hlast : ∀ r1 step, rg_initial r1 = rg_initial r → regOk maximum n next r1 → regOk maximum n next (setStep r1 s step)).
  { intros r1 step E H1. apply regOk_step; [| done]. intros _ _ a. by rewrite E. }
  unfold promoteReserve. rewrite Hi. destruct (ss_reserved i) eqn:Hr; [by apply Hlast |].
  destruct (reserveInstance (rg_policy r)) as [[] policy] eqn:Hres; cbn [negb snd]; apply Hlast; try done.
  - pose proof (regOk_reserve _ _ _ _ _ Hres H) as H2. set (r2 := r <| rg_policy := policy |>) in *.
    pose proof (regOk_slot maximum (n + 1) next r2 s i true Hi ltac:(intros a Hx; by apply Hgone in Hx)) as H3. unfold slotOf in H3. rewrite Hr in H3.
    replace (n + 1 + 0 - 1) with n in H3 by lia. apply H3; [exact (ro_pending _ _ _ _ H) | exact H2].
  - unfold reserveInstance in Hres. destruct (_ <=? _); [| done]. injection Hres as <-.
    set (r2 := r <| rg_policy := rg_policy r |>).
    pose proof (regOk_slot maximum n next r2 s i false Hi ltac:(intros a Hx; by apply Hgone in Hx)) as H3.
    unfold slotOf in H3. rewrite Hr, Z.sub_0_r, Z.add_0_r in H3. apply H3; [exact (ro_pending _ _ _ _ H) |]. by apply (regOk_tables _ _ _ r).
Qed.

(** The actions of a session that is registered. *)
Definition slotless (a : registryAction) : bool :=
  match a with ACertificate _ _ | AUserPass _ _ _ | APromote _ | AReserve _ | APeerID _ | AIdentity _ | AReplace _ | AClose _ | ARead _ _ | AFloat _ => true | _ => false end.

Lemma regOk_float maximum n next r s : 
  (∀ address, rg_sessions r !! s ≫= ss_remoteAddress = Some address → rg_initial r !! addrString address ≠ Some s) →
  regOk maximum n next r → regOk maximum n next (floatAuthenticatedUDPPeer r s).2.
Proof.
  intros Hno H. unfold floatAuthenticatedUDPPeer, floatUDPSessionToSource. destruct (rg_sessions r !! s) as [i |] eqn:Hi; [| done]. cbn [mbind option_bind].
  assert (Hgone : ∀ a, rg_initial r !! a ≠ Some s).
  { intros a Ha. destruct (ro_initial _ _ _ _ H a s Ha) as (j & Hj & _ & b & Hb & <-). rewrite Hi in Hj. injection Hj as <-. by apply (Hno b Hb). }
  destruct (floatCandidateAddress i) as [source |]; [| done]. destruct (negb _); [done |].
  match goal with |- context [if match ss_peerID i with Some _ => _ | None => false end then _ else _] => destruct (match ss_peerID i with Some _ => _ | None => false end) end; [done |].
  set (e := match rg_udp r !! addrString source with Some e => _ | None => None end). clearbody e.
  match goal with |- context [if match e with Some _ => _ | None => false end then _ else _] => destruct (match e with Some _ => _ | None => false end) end; [done |].
  cbn [snd]. set (r1 := match e with Some e => evictSessionLocked r e | None => r end).
  assert (H1 : regOk maximum n next r1 ∧ ∀ a, rg_initial r1 !! a ≠ Some s).
  { subst r1. destruct e as [e |]; [| done]. split; [by apply regOk_evict |]. intros a. unfold evictSessionLocked. destruct (rg_sessions r !! e); [| apply Hgone].
    cbn. rewrite map_lookup_filter_Some. intros [Hx _]. by apply (Hgone a). }
  clearbody r1. destruct H1 as [H1 Hgone1].
  assert (Hmove : ∀ r2, regOk maximum n next r2 → (∀ a, rg_initial r2 !! a ≠ Some s) → regOk maximum n next (setRemoteAddress r2 s (Some source))).
  { intros r2 [G1 G2 G3 G4 G5 G6] Hg. unfold setRemoteAddress. constructor; cbn -[slots]; rewrite ?slots_keep by done; try done.
    - intros a t Ht. destruct (G5 a t Ht) as (j & Hj & Hp). unfold sessionAt. rewrite updateSession_lookup, decide_False by (intros ->; by apply Hg in Ht). by exists j.
    - intros t j Hj. rewrite lookup_alter_Some in Hj. destruct Hj as [(<- & k & Hk & _) | [_ Hk]]; by eapply G6. }
  assert (H2 : regOk maximum n next (setRemoteAddress (r1 <| rg_udp := <[addrString source := s]> (filter (λ p, ¬ (p.2 = s ∧ p.1 ≠ addrString source)) (rg_udp r1)) |>) s (Some source))).
  { apply Hmove; [by apply (regOk_tables _ _ _ r1) | exact Hgone1]. }
  unfold closeDisplaced. destruct e; [by apply regOk_keep | done].
Qed.

Lemma regOk_action maximum n next duplicateCN authenticator r a :
  slotless a = true → regOk maximum n next r → regOk maximum n next (doAction duplicateCN authenticator r a).
Proof.
  intros Ha H. destruct a; try done; cbn [doAction].
  - destruct (rg_sessions r !! s) as [i |]; [| done]. destruct (ss_certificateSet i); [done |]. by apply regOk_keep.
  - apply regOk_keep; [| | done]; intros i; destruct (authenticate_spec authenticator i username password) as (? & ? & ->); done.
  - destruct (rg_sessions r !! s) as [i |]; [| done]. destruct (_ && _); [| done]. by apply regOk_promoteBegin.
  - destruct (rg_sessions r !! s) as [i |] eqn:Hi; [| done]. cbn. destruct (ss_step i) eqn:Hst; try done. by eapply regOk_promoteReserve.
  - unfold enablePeerID. repeat case_match; try done. cbn [snd]. apply regOk_keep; [done | done |]. by apply (regOk_tables _ _ _ r).
  - destruct (rg_sessions r !! s) as [i |] eqn:Hi; [| done]. destruct (_ && _); [| done]. unfold setIdentity. rewrite Hi. cbv zeta.
    set (r1 := updateSession r s _). assert (H1 : regOk maximum n next r1) by (by apply regOk_keep). destruct (_ || _); [done |]. by apply regOk_step.
  - destruct (ss_step <$> rg_sessions r !! s) as [[] |]; try done. unfold replaceIdentity. destruct (rg_sessions r !! s) as [i |]; [| done].
    destruct (negb _); [by apply regOk_step |]. destruct (decide _); [| by apply regOk_step]. cbn [snd]. apply regOk_step; [| by apply (regOk_tables _ _ _ r)].
    intros d. destruct (rg_byIdentity r !! _) as [x |]; [| done]. by destruct (decide (x = s)).
  - destruct (ss_step <$> rg_sessions r !! s) as [[] |]; try done. apply regOk_step; [done |]. by apply regOk_keep.
  - by apply regOk_keep.
  - destruct (rg_sessions r !! s ≫= ss_remoteAddress) as [address |] eqn:Hr; [| done]. destruct (decide _); [done |]. apply regOk_float; [| done].
    intros b Hb. congruence.
Qed.

(** ** The server's steps *)

Definition connectionOk (c : udpPeerPacketConnection) : Prop := ∃ l, queueRep zeroPeerPacket (uc_incomingPackets c) l.

Record serverOk (maximum n : Z) (v : tlsServer) : Prop := mkServerOk {
  sk_registry : regOk maximum n (lv_nextSession v) (lv_registry v);
  sk_connections s c : lv_connections v !! s = Some c → connectionOk c;
}.

Lemma closePeerConnection_ok c : connectionOk c → ∃ c', closePeerConnection c = Some c' ∧ connectionOk c'.
Proof.
  intros [l Hl]. unfold closePeerConnection. destruct (uc_closed c); [by exists c; split; [| exists l] |].
  destruct (queueStep_rep zeroPeerPacket _ _ QDrain Hl) as (q & Hq & Hrep & _). cbn [queueStep specStep fst snd] in Hq, Hrep.
  destruct (Drain _ _) as [[popped q'] |]; [| done]. cbn [mbind option_bind] in *. injection Hq as -> ->. eexists. split; [reflexivity |]. by eexists.
Qed.

Lemma serverOk_onRegistry maximum n v f :
  (∀ r, regOk maximum n (lv_nextSession v) r → regOk maximum n (lv_nextSession v) (f r)) → serverOk maximum n v → serverOk maximum n (onRegistry v f).
Proof. intros Hf [H1 H2]. constructor; [by apply Hf | exact H2]. Qed.

Lemma closeConnectionOf_ok maximum n v s : serverOk maximum n v → ∃ v', closeConnectionOf v s = Some v' ∧ serverOk maximum n v'.
Proof.
  intros [H1 H2]. unfold closeConnectionOf. destruct (lv_connections v !! s) as [c |] eqn:Hc; [| by exists v].
  destruct (closePeerConnection_ok c (H2 s c Hc)) as (c' & -> & Hok). eexists. split; [reflexivity |]. constructor; [exact H1 |]. cbn.
  intros t d Hd. apply lookup_insert_Some in Hd as [[_ <-] | [_ Hd]]; [done | by apply (H2 t)].
Qed.

Lemma closeServerSession_ok maximum n v s : serverOk maximum n v → ∃ v', closeServerSession v s = Some v' ∧ serverOk maximum n v'.
Proof.
  intros [H1 H2]. apply closeConnectionOf_ok. constructor; [by apply regOk_keep | exact H2].
Qed.

Lemma udpSessionEnd_ok maximum n v s : serverOk maximum n v → ∃ v', udpSessionEnd v s = Some v' ∧ serverOk maximum n v'.
Proof.
  intros H. unfold udpSessionEnd. destruct (closeServerSession_ok _ _ v s H) as (v1 & -> & [H1 H2]). eexists. split; [reflexivity |].
  constructor; [| exact H2]. apply regOk_release, regOk_evict, H1.
Qed.

Lemma streamSessionEnd_ok maximum n v s : serverOk maximum n v → ∃ v', streamSessionEnd v s = Some v' ∧ serverOk maximum n v'.
Proof.
  intros H. unfold streamSessionEnd. destruct (closeServerSession_ok maximum n (onRegistry v (λ r, unregisterSession r s)) s) as (v1 & -> & [H1 H2]).
  { apply serverOk_onRegistry; [| done]. intros r. apply regOk_evict. }
  eexists. split; [reflexivity |]. constructor; [by apply regOk_release | exact H2].
Qed.

Lemma spawnSession_ok maximum n v s start b : serverOk maximum n v → ∃ x v', spawnSession s start b v = Some (x, v') ∧ serverOk maximum n v'.
Proof.
  intros H. unfold spawnSession, reserveLoopWorker. destruct (decide _).
  - eexists _, _. split; [reflexivity |]. by destruct H as [H1 H2].
  - set (v1 := if b then _ else _). assert (H1 : serverOk maximum n v1).
    { subst v1. assert (He : serverOk maximum n (onRegistry v (λ r, unregisterSession r s))) by (apply serverOk_onRegistry; [intros r; apply regOk_evict | done]).
      destruct b; [| done]. apply serverOk_onRegistry; [intros r; apply regOk_release | done]. }
    clearbody v1. destruct (closeServerSession_ok _ _ v1 s H1) as (v2 & -> & H2). by eexists _, _.
Qed.

(** Making a session. *)
Lemma newUDPSession_ok maximum n v address remote b s v' :
  newUDPSession v address remote b = (s, v') → (if b then 1 else 0) ≤ n → serverOk maximum n v →
  serverOk maximum (n - (if b then 1 else 0)) v' ∧ s = lv_nextSession v ∧
  rg_sessions (lv_registry v') !! s = Some (newServerSession (Some address) remote b).
Proof.
  unfold newUDPSession. intros [= <- <-] Hn [H1 H2]. split_and!; [| done | cbn; by rewrite lookup_insert_eq]. constructor.
  - pose proof (regOk_add _ _ _ _ (newServerSession (Some address) remote b) Hn H1) as H. exact H.
  - cbn. intros t c Hc. apply lookup_insert_Some in Hc as [[_ <-] | [_ Hc]]; [| by apply (H2 t)]. exists []. apply newDataPacketQueueWithCapacity_rep. lia.
Qed.

(** The policies the admission leaves. *)
Lemma allowInitialPacket_slots p now : rp_instances (allowInitialPacket p now).2 = rp_instances p ∧ rp_maxClients (allowInitialPacket p now).2 = rp_maxClients p.
Proof. unfold allowInitialPacket. by destruct (_ || _). Qed.

Lemma allowNewConnection_slots p now : rp_instances (allowNewConnection p now).2 = rp_instances p ∧ rp_maxClients (allowNewConnection p now).2 = rp_maxClients p.
Proof. unfold allowNewConnection. destruct (_ =? _); [done |]. by destruct (_ || _). Qed.

Lemma refundInitialPacket_slots p : rp_instances (refundInitialPacket p) = rp_instances p ∧ rp_maxClients (refundInitialPacket p) = rp_maxClients p.
Proof. unfold refundInitialPacket. by destruct (_ <? _). Qed.

Lemma preDecrypt_slots cr forceCookie staticProtection signer p raw address now unixNow reapNow clock :
  rp_instances (preDecryptUDPPacket cr forceCookie staticProtection signer p raw address now unixNow reapNow clock).2 = rp_instances p ∧
  rp_maxClients (preDecryptUDPPacket cr forceCookie staticProtection signer p raw address now unixNow reapNow clock).2 = rp_maxClients p.
Proof.
  unfold preDecryptUDPPacket. destruct (decodeUDPPreDecryptPacket _ _ _ _ _) as [[[packet protection] early] |]; [| done].
  destruct (_ || _); [done |]. destruct (_ || _).
  - destruct (validateInitialClientReset packet); [| done]. pose proof (allowInitialPacket_slots p now) as Hp. destruct (allowInitialPacket p now) as [allowed p1].
    cbn [snd] in Hp. destruct (negb allowed); [exact Hp |]. destruct (_ && _); [by destruct forceCookie |]. cbv zeta. by destruct (encodeUDPPreDecryptPacket _ _ _ _ _).
  - repeat case_match; done.
Qed.

Lemma acceptUnbound_ok cr forceCookie staticProtection signer maximum n v raw address io :
  serverOk maximum n v →
  ∃ x v', acceptUnboundUDPPacket cr forceCookie staticProtection signer raw address io v = Some (x, v') ∧ serverOk maximum n v'.
Proof.
  intros H. unfold acceptUnboundUDPPacket. destruct (negb _); [by eexists _, _ |]. cbv zeta.
  match goal with |- context [preDecryptUDPPacket ?a ?b ?c ?d ?p ?e ?f ?g ?h ?i ?j] =>
    pose proof (preDecrypt_slots a b c d p e f g h i j) as [P1 P2]; destruct (preDecryptUDPPacket a b c d p e f g h i j) as [verdict policy] end.
  cbn [snd] in P1, P2. assert (Hset : ∀ p, rp_instances p = rp_instances policy → rp_maxClients p = rp_maxClients policy →
    serverOk maximum n (onRegistry v (λ r, r <| rg_policy := p |>))).
  { intros p E1 E2. destruct H as [H1 H2]. constructor; [| exact H2]. by apply regOk_policy; [congruence | congruence |]. }
  destruct verdict as [err | challenge a b | packet protection serverID clientID direct].
  - eexists _, _. split; [reflexivity | by apply Hset].
  - eexists _, _. split; [reflexivity |]. pose proof (Hset policy eq_refl eq_refl) as [G1 G2]. by destruct (isSome (dg_write io)).
  - pose proof (allowNewConnection_slots policy (dg_now io)) as [A1 A2]. destruct (allowNewConnection policy (dg_now io)) as [allowed policy1]. cbn [snd] in A1, A2.
    destruct (negb allowed); [eexists _, _; split; [reflexivity | by apply Hset] |].
    pose proof (refundInitialPacket_slots policy1) as [R1 R2]. pose proof (Hset (refundInitialPacket policy1) ltac:(congruence) ltac:(congruence)) as Hr.
    destruct (reserveInstance (refundInitialPacket policy1)) as [granted policy2] eqn:Hres. destruct granted; cbn [negb].
    2: { unfold reserveInstance in Hres. destruct (_ <=? _); [| done]. injection Hres as <-. eexists _, _. by split; [reflexivity |]. }
    destruct (newUDPSession _ _ _ _) as [s v2] eqn:Hnew.
    destruct (newUDPSession_ok maximum (n + 1) _ _ _ _ _ _ Hnew) as (H2 & -> & _).
    { destruct Hr as [[_ _ _ Hn _ _] _]. cbn. lia. }
    { destruct Hr as [G1 G2]. constructor; [| exact G2].
      exact (regOk_reserve maximum n _ ((lv_registry v) <| rg_policy := refundInitialPacket policy1 |>) policy2 Hres G1). }
    replace (n + 1 - 1) with n in H2 by lia. destruct (registerSession _ _ _ _) as [registerErr r] eqn:Hreg.
    assert (H3 : serverOk maximum n (v2 <| lv_registry := r |>)).
    { destruct H2 as [G1 G2]. constructor; [| exact G2]. apply (f_equal snd) in Hreg. cbn in Hreg. cbn. rewrite <- Hreg. by apply regOk_register. }
    destruct registerErr; [| by apply spawnSession_ok].
    match goal with |- context [closeConnectionOf ?w ?t] => destruct (closeConnectionOf_ok maximum n w t) as (v3 & -> & H4) end; [| by eexists _, _].
    apply serverOk_onRegistry; [intros r'; apply regOk_release | done].
Qed.

Lemma acceptInitial_ok cr staticProtection maximum n v raw address io :
  serverOk maximum n v → ∃ x v', acceptInitialUDPReset cr staticProtection raw address io v = Some (x, v') ∧ serverOk maximum n v'.
Proof.
  intros H. unfold acceptInitialUDPReset. destruct (_ ≫= _) as [[packet protection] |]; [| by eexists _, _].
  destruct (newUDPSession _ _ _ _) as [s v2] eqn:Hnew. destruct (newUDPSession_ok maximum n _ _ _ _ _ _ Hnew) as (H2 & _ & Hs); [by destruct H as [[] _] | done |].
  rewrite Z.sub_0_r in H2. destruct (registerInitialSession _ _ _ _) as [registered r] eqn:Hreg.
  assert (H3 : serverOk maximum n (v2 <| lv_registry := r |>)).
  { destruct H2 as [G1 G2]. constructor; [| exact G2]. apply (f_equal snd) in Hreg. cbn in Hreg. cbn. rewrite <- Hreg. apply regOk_registerInitial; [| done].
    eexists. split; [exact Hs |]. split; [done |]. by exists address. }
  destruct registered as [displaced |].
  - destruct displaced as [d |]; [| by apply spawnSession_ok]. destruct (closeServerSession_ok _ _ _ d H3) as (v3 & -> & H4). by apply spawnSession_ok.
  - destruct (closeConnectionOf_ok _ _ _ s H3) as (v3 & -> & H4). by eexists _, _.
Qed.

Lemma pushPackets_ok c packets : connectionOk c → ∃ dropped c', pushPackets c packets = Some (dropped, c') ∧ connectionOk c'.
Proof.
  intros [l Hl]. unfold pushPackets. destruct packets as [| p packets]; [eexists _, _; split; [reflexivity | by exists l] |].
  destruct (uc_closed c); [eexists _, _; split; [reflexivity | by exists l] |].
  destruct (queueStep_rep zeroPeerPacket _ _ (QPushDropNew (p :: packets)) Hl) as (q & Hq & Hrep & _). cbn [queueStep] in Hq.
  destruct (PushBatchDropNew _ _) as [[dropped q'] |]; [| done]. cbn [mbind option_bind] in *. injection Hq as _ ->. eexists _, _. split; [reflexivity |]. by eexists.
Qed.

Lemma waitIncomingPackets_ok maxPackets now c : connectionOk c → ∃ round c', waitIncomingPackets maxPackets now c = Some (round, c') ∧ connectionOk c'.
Proof.
  intros [l Hl]. unfold waitIncomingPackets. cbv zeta. destruct (_ && _); [eexists _, _; split; [reflexivity | by exists l] |].
  destruct (uc_closed c); [eexists _, _; split; [reflexivity | by exists l] |].
  match goal with |- context [Pop _ _ _ ?f] => destruct (queueStep_rep zeroPeerPacket _ _ (QPop maxPackets f) Hl) as (q & Hq & Hrep & _) end. cbn [queueStep] in Hq.
  destruct (Pop _ _ _ _) as [[popped q'] |]; [| done]. cbn [mbind option_bind] in *. injection Hq as _ ->.
  destruct (hasAny popped); eexists _, _; (split; [reflexivity | by eexists]).
Qed.

Lemma setConnection_ok maximum n v s c dropped :
  connectionOk c → serverOk maximum n v →
  serverOk maximum n (v <| lv_connections := <[s := c]> (lv_connections v) |> <| lv_droppedUDPPackets := dropped |>).
Proof.
  intros Hc [H1 H2]. constructor; [exact H1 |]. cbn. intros t d Hd. apply lookup_insert_Some in Hd as [[_ <-] | [_ Hd]]; [done | by apply (H2 t)].
Qed.

Section Steps.
Context (cr : Crypto) (forceCookie : bool) (staticProtection : tlsControlProtection) (signer : sessionIDHMACSigner).
Context (duplicateCN : bool) (authenticator : option (string → string → option goerr)).

Lemma dispatchOne_ok maximum n d datagram :
  serverOk maximum n (ds_server d) →
  ∃ d', dispatchOne cr forceCookie staticProtection signer d datagram = Some d' ∧ serverOk maximum n (ds_server d').
Proof.
  intros H. destruct datagram as [[[raw address] io] route]. unfold dispatchOne. destruct (currentRoute _ _ _ _) as [s | | |].
  - destruct (lv_connections (ds_server d) !! s); by eexists.
  - destruct (acceptUnbound_ok cr forceCookie staticProtection signer maximum n _ raw address io H) as ([changed effects] & v & -> & Hv). by eexists.
  - destruct (acceptInitial_ok cr staticProtection maximum n _ raw address io H) as ([changed effects] & v & -> & Hv). by eexists.
  - by eexists.
Qed.

Lemma dispatch_ok maximum n datagrams v :
  serverOk maximum n v → ∃ effects v', dispatchListenerPackets cr forceCookie staticProtection signer datagrams v = Some (effects, v') ∧ serverOk maximum n v'.
Proof.
  intros H. unfold dispatchListenerPackets. cbv zeta.
  assert (Hall : ∀ l d, serverOk maximum n (ds_server d) → ∃ d', dispatchAll cr forceCookie staticProtection signer d l = Some d' ∧ serverOk maximum n (ds_server d')).
  { induction l as [| x l IH]; intros d Hd; [by exists d |]. cbn [dispatchAll]. destruct (dispatchOne_ok maximum n d x Hd) as (d' & -> & Hd'). by apply IH. }
  match goal with |- context [dispatchAll _ _ _ _ ?d ?l] => destruct (Hall l d H) as (d' & -> & Hd') end. cbn [mbind option_bind].
  assert (Hpush : ∀ order v, serverOk maximum n v → ∃ v', pushAll v (ds_queued d') order = Some v' ∧ serverOk maximum n v').
  { induction order as [| s order IH]; intros w Hw; [by exists w |]. cbn [pushAll]. unfold pushQueued.
    destruct (lv_connections w !! s) as [c |] eqn:Hc; [| by apply IH].
    destruct (pushPackets_ok c (default [] (ds_queued d' !! s)) (sk_connections _ _ _ Hw s c Hc)) as (dropped & c' & -> & Hok). cbn [mbind option_bind].
    apply IH. by apply setConnection_ok. }
  destruct (Hpush (ds_order d') _ Hd') as (v' & -> & Hv'). by eexists _, _.
Qed.

(** What the threads of a server do, in any order: the loop of its listener, the
    goroutines of its sessions, and those who start and close it.  The number is that of
    stream connections that are accepted and whose session is not made yet. *)
Inductive serverStep : tlsServer * Z → tlsServer * Z → Prop :=
| StepDatagrams datagrams v n effects v' :
    dispatchListenerPackets cr forceCookie staticProtection signer datagrams v = Some (effects, v') → serverStep (v, n) (v', n)
| StepAccept r retry v n outcome v' next :
    acceptRoundStep r retry v = (outcome, v', next) → serverStep (v, n) (v', match outcome with AcceptServed => n + 1 | _ => n end)
| StepOpenStream peerAddress connectionErr v n opened v' :
    0 < n → openStreamSession peerAddress connectionErr v = Some (opened, v') → serverStep (v, n) (v', n - 1)
| StepAction a v n : slotless a = true → serverStep (v, n) (onRegistry v (λ r, doAction duplicateCN authenticator r a), n)
| StepRead maxPackets now s v n c read r c' :
    lv_connections v !! s = Some c → ReadPackets maxPackets now s (lv_registry v) c = Some (read, r, c') →
    serverStep (v, n) (v <| lv_registry := r |> <| lv_connections := <[s := c']> (lv_connections v) |>, n)
| StepUDPEnd s v n v' : udpSessionEnd v s = Some v' → serverStep (v, n) (v', n)
| StepStreamEnd s v n v' : streamSessionEnd v s = Some v' → serverStep (v, n) (v', n)
| StepStart contextErr listenErr v n : serverStep (v, n) ((tlsServerStart contextErr listenErr v).2, n)
| StepStopped v n : serverStep (v, n) (loopWorkerDone (markListenerStopped v), n)
| StepCloseBegin v n : serverStep (v, n) ((tlsServerCloseBegin v).2, n)
| StepCloseSession s v n v' : s ∈ closeSnapshot v → closeServerSession v s = Some v' → serverStep (v, n) (v', n)
| StepCloseEnd v n : lv_workers v = 0 → serverStep (v, n) (tlsServerCloseEnd v, n).

Lemma setLifecycle_ok maximum n v state : serverOk maximum n v → serverOk maximum n (setLifecycle v state).
Proof. intros [H1 H2]. constructor; [| exact H2]. by apply (regOk_tables _ _ _ (lv_registry v)). Qed.

Lemma acceptRound_ok maximum n r retry v outcome v' next :
  acceptRoundStep r retry v = (outcome, v', next) → serverOk maximum n v → serverOk maximum (match outcome with AcceptServed => n + 1 | _ => n end) v'.
Proof.
  intros Hs H. unfold acceptRoundStep in Hs. destruct (ac_error r) as [e |].
  - destruct (listenerShutdown _ e); [by injection Hs as <- <- _; destruct H |]. destruct e; try (destruct (ac_waited r)); injection Hs as <- <- _; by destruct H.
  - destruct (reserveInstance _) as [[] policy] eqn:Hres; cbn [negb] in Hs.
    + assert (H1 : serverOk maximum (n + 1) (onRegistry v (λ r, r <| rg_policy := policy |>))).
      { destruct H as [H1 H2]. constructor; [by apply regOk_reserve | exact H2]. }
      unfold reserveLoopWorker in Hs. destruct (decide _); cbn [negb] in Hs; injection Hs as <- <- _; destruct H1 as [G1 G2]; [by constructor |].
      constructor; [| exact G2]. pose proof (ro_pending _ _ _ _ (sk_registry _ _ _ H)) as Hn. apply (regOk_unreserve maximum (n + 1)) in G1; [| lia]. replace (n + 1 - 1) with n in G1 by lia. exact G1.
    + unfold reserveInstance in Hres. destruct (_ <=? _); [| done]. injection Hres as <-. injection Hs as <- <- _. destruct H as [H1 H2].
      constructor; [| exact H2]. by apply regOk_policy.
Qed.

Lemma openStream_ok maximum n peerAddress connectionErr v opened v' :
  0 < n → openStreamSession peerAddress connectionErr v = Some (opened, v') → serverOk maximum n v → serverOk maximum (n - 1) v'.
Proof.
  intros Hn Hs [H1 H2]. unfold openStreamSession in Hs. destruct connectionErr as [e |].
  { injection Hs as _ <-. constructor; [| exact H2]. by apply regOk_unreserve. }
  pose proof (regOk_add maximum n _ _ (newServerSession None zeroSessionID true) ltac:(cbn; lia) H1) as Hadd.
  destruct (registerSession _ _ _ _) as [registerErr r] eqn:Hreg. apply (f_equal snd) in Hreg. cbn [snd] in Hreg.
  pose proof (regOk_register _ _ _ _ peerAddress (lv_nextSession v) None Hadd) as H3. change (lv_registry (v <| lv_nextSession := _ |>)) with (lv_registry v) in Hreg.
  rewrite Hreg in H3. change (slotOf _) with 1 in H3.
  assert (H4 : serverOk maximum (n - 1) (v <| lv_nextSession := lv_nextSession v + 1 |> <| lv_registry := r |>)) by (by constructor).
  destruct registerErr; [| by injection Hs as _ <-]. destruct (closeServerSession_ok _ _ _ (lv_nextSession v) H4) as (v1 & E & [G1 G2]).
  rewrite E in Hs. injection Hs as _ <-. constructor; [by apply regOk_release | exact G2].
Qed.

Lemma serverStep_ok maximum x y : serverStep x y → serverOk maximum x.2 x.1 → serverOk maximum y.2 y.1.
Proof.
  destruct 1 as [datagrams v n effects v' Hd | | | | maxPackets now s v n c read r c' Hc Hr | s v n v' He | s v n v' He | contextErr listenErr v n | v n | v n | s v n v' _ Hc | v n];
    cbn [fst snd]; intros Hok.
  - destruct (dispatch_ok maximum n datagrams v Hok) as (e & w & E & Hw). congruence.
  - by eapply acceptRound_ok.
  - by eapply openStream_ok.
  - apply serverOk_onRegistry; [| done]. intros r. by apply regOk_action.
  - unfold ReadPackets in Hr. destruct (waitIncomingPackets_ok maxPackets now c (sk_connections _ _ _ Hok s c Hc)) as (round & c1 & E & Hc1). rewrite E in Hr.
    cbn [mbind option_bind] in Hr. destruct Hok as [H1 H2].
    assert (Hr' : regOk maximum n (lv_nextSession v) r ∧ c' = c1) by (destruct round as [[packets |] |]; injection Hr as _ <- <-; (split; [| done]); [by apply regOk_keep | done..]).
    destruct Hr' as [Hr' ->]. constructor; [exact Hr' |]. cbn. intros t d Hd. apply lookup_insert_Some in Hd as [[_ <-] | [_ Hd]]; [done | by apply (H2 t)].
  - destruct (udpSessionEnd_ok _ _ v s Hok) as (w & E & Hw). congruence.
  - destruct (streamSessionEnd_ok _ _ v s Hok) as (w & E & Hw). congruence.
  - unfold tlsServerStart. assert (Hs : ∀ state, serverOk maximum n (setLifecycle v state)) by (intros; by apply setLifecycle_ok).
    destruct (lv_lifecycle v); try done. destruct contextErr, listenErr; cbn [snd]; try apply Hs. destruct (Hs serverLifecycleRunning) as [G1 G2]. by constructor.
  - by destruct Hok.
  - unfold tlsServerCloseBegin. destruct (lv_lifecycle v); cbn [snd]; try done; by apply setLifecycle_ok.
  - destruct (closeServerSession_ok _ _ v s Hok) as (w & E & Hw). congruence.
  - by apply setLifecycle_ok.
Qed.

End Steps.

(** A server before it starts. *)
Definition newServerState (policy : serverResourcePolicy) : tlsServer :=
  mkTLSServer serverLifecycleInitial false ((emptyRegistry policy) <| rg_running := false |>) ∅ 0 0 0.

Lemma closeConnectionOf_registry v s v' : closeConnectionOf v s = Some v' → lv_registry v' = lv_registry v.
Proof. unfold closeConnectionOf. destruct (lv_connections v !! s); [| by intros [= <-]]. destruct (closePeerConnection _); [| done]. by intros [= <-]. Qed.

Lemma release_unreserved r s i : rg_sessions (releaseResourceReservation r s) !! s = Some i → ss_reserved i = false.
Proof.
  unfold releaseResourceReservation. destruct (rg_sessions r !! s) as [j |] eqn:Hj; [| congruence]. destruct (ss_reserved j) eqn:Hr; [| congruence].
  rewrite updateSession_lookup, decide_True by done. cbn. rewrite Hj. by intros [= <-].
Qed.

(** C5: the slots of a server for clients are accounted for.  In any interleaving of
    datagrams, connections, handshakes, moves and ends of sessions, and of starting and
    closing the server, the number of slots in use is the number of sessions that hold
    one and of connections a session is being made for, and it never exceeds the
    configured maximum: no slot is lost when a session is refused, displaced or takes
    over the slot of another, none is given back twice, and a session that has ended
    holds none. *)
Theorem client_slots_accounted cr forceCookie staticProtection signer duplicateCN authenticator policy v n :
  rp_instances policy = 0 → 0 ≤ rp_maxClients policy →
  rtc (serverStep cr forceCookie staticProtection signer duplicateCN authenticator) (newServerState policy, 0) (v, n) →
  rp_instances (rg_policy (lv_registry v)) = slots (lv_registry v) + n ∧ 0 ≤ n ∧
  rp_instances (rg_policy (lv_registry v)) ≤ rp_maxClients policy ∧
  (∀ s v', udpSessionEnd v s = Some v' ∨ streamSessionEnd v s = Some v' →
     ∀ i, rg_sessions (lv_registry v') !! s = Some i → ss_reserved i = false).
Proof.
  intros Hz Hm Hrun. assert (Hok : serverOk (rp_maxClients policy) n v).
  { apply (rtc_ind_r (λ y, serverOk (rp_maxClients policy) y.2 y.1)) in Hrun; [exact Hrun | |].
    - constructor; [| done]. by constructor; cbn; rewrite ?Hz.
    - intros y z _ Hstep IH. by eapply serverStep_ok. }
  pose proof Hok as [[H1 _ H3 H4 _ _] _]. split_and!; [done | done | done |].
  intros s v' [He | He] i Hi.
  - unfold udpSessionEnd in He. destruct (closeServerSession v s) as [w |]; [| done]. injection He as <-. eapply release_unreserved. exact Hi.
  - unfold streamSessionEnd in He. destruct (closeServerSession _ s) as [w |]; [| done]. injection He as <-. eapply release_unreserved. exact Hi.
Qed.

(** ** Witness *)

Definition examplePolicy : serverResourcePolicy := mkPolicy 2 0 0 0 0 100 (10 * Second) 0 0 0.

(** Three connections reach a server with two slots. *)
Definition runningServer : tlsServer := (tlsServerStart None None (newServerState examplePolicy)).2.

Definition acceptOnce (v : tlsServer) : acceptStep * tlsServer := (acceptRoundStep (mkAcceptRound None false true) 0 v).1.

Lemma acceptOnce_step v n :
  serverStep exampleCrypto false (mkProtection None None []) (mkSigner [] 60) false None (v, n)
    ((acceptOnce v).2, match (acceptOnce v).1 with AcceptServed => n + 1 | _ => n end).
Proof.
  unfold acceptOnce. destruct (acceptRoundStep (mkAcceptRound None false true) 0 v) as [[outcome v'] next] eqn:E. by eapply StepAccept.
Qed.

Definition fullServer : acceptStep * tlsServer := acceptOnce (acceptOnce (acceptOnce runningServer).2).2.

Lemma client_slots_accounted_witness :
  rp_instances (rg_policy (lv_registry fullServer.2)) ≤ 2 ∧ rp_instances (rg_policy (lv_registry fullServer.2)) = 2 ∧ fullServer.1 = AcceptClosed.
Proof.
  split; [| split; vm_compute; reflexivity].
  eapply (client_slots_accounted exampleCrypto false (mkProtection None None []) (mkSigner [] 60) false None examplePolicy fullServer.2); [reflexivity | done |].
  eapply rtc_l; [exact (StepStart _ _ _ _ _ _ None None _ _) |]. do 2 (eapply rtc_l; [apply acceptOnce_step |]). apply rtc_once, acceptOnce_step.
Defined.
