(* ===== verification/Keys.v ===== *)
(** * Keys from files ([data_codec_static.go], [control_wrap.go],
      [client_session_tls.go] and [server_tls.go] protections)

    Reading a file is an argument; [encoding/pem] is a parameter. *)

From Stdlib Require Import Strings.Ascii.
From S2P Require Import Prelude GoStrings Packet Netip ReplayWindow Crypto Codec CodecLaws ControlWrap Options.

(** ** Static keys *)

(** [strings.Index] with the two slices around what is found. *)
Fixpoint cutAt (separator s : string) : option (string * string) :=
  if HasPrefix s separator then Some (EmptyString, String.substring (String.length separator) (String.length s - String.length separator) s) else
  match s with
  | EmptyString => None
  | String c rest => match cutAt separator rest with Some (before, after) => Some (String c before, after) | None => None end
  end.

(** [hex.DecodeString] of an even number of digits. *)
Fixpoint hexDecode (s : string) : result bytes :=
  match s with
  | EmptyString => Ok []
  | String c (String d s) =>
      match hexValue c, hexValue d with
      | Some high, Some low => rest ← hexDecode s; Ok (z2b (16 * high + low) :: rest)
      | _, _ => Err (ErrNew "encoding/hex: invalid byte")
      end
  | String _ EmptyString => Err (ErrNew "encoding/hex: odd length hex string")
  end.

Definition beginMarker : string := "-----BEGIN OpenVPN Static key V1-----".
Definition endMarker : string := "-----END OpenVPN Static key V1-----".

(** The text between the markers, or the whole text without a first marker. *)
Definition staticKeyText (text : string) : result string :=
  match cutAt beginMarker text with
  | None => Ok text
  | Some (_, text) => match cutAt endMarker text with None => Err (ErrNew "invalid static key end marker") | Some (text, _) => Ok text end
  end.

Section Loading.
Context (readFile : string → result bytes) (pemDecode : bytes → option (string * bytes)).

Definition loadStaticKeyMaterialFromSource (staticKey : Material) : result bytes :=
  staticKeyContent ← loadMaterial readFile staticKey;
  if negb (hasAny staticKeyContent) then Err ErrMissingStaticKey else
  if decide (length staticKeyContent = 256%nat) then Ok staticKeyContent else
  text ← staticKeyText (stringOf staticKeyContent);
  let hexContent := Join EmptyString (Fields text) in
  if negb (bool_decide (String.length hexContent = 512%nat)) then Err (ErrNew "static key must contain exactly 256 bytes") else
  hexDecode hexContent.

(** ** Keys of tls-crypt-v2 *)

Definition tlsCryptV2ClientPEMType : string := "OpenVPN tls-crypt-v2 client key".
Definition tlsCryptV2ServerPEMType : string := "OpenVPN tls-crypt-v2 server key".

Definition loadNamedPEMBytes (input : Material) (expectedType : string) : result bytes :=
  if negb (IsSet input) then Err ErrMissingStaticKey else
  pemBytes ← loadMaterial readFile input;
  match pemDecode pemBytes with
  | Some (blockType, blockBytes) => if bool_decide (blockType = expectedType) then Ok blockBytes else Err (ErrNew "invalid pem content")
  | None => Err (ErrNew "invalid pem content")
  end.

Definition loadTLSCryptV2ClientKey (staticKey : Material) : result (bytes * bytes) :=
  keyBytes ← loadNamedPEMBytes staticKey tlsCryptV2ClientPEMType;
  if (length keyBytes <? tlsCryptV2ClientKeyDataLength)%nat then Err (ErrNew "invalid tls-crypt-v2 client key") else
  let wrappedClientKey := drop tlsCryptV2ClientKeyDataLength keyBytes in
  if negb (hasAny wrappedClientKey) then Err (ErrNew "missing wrapped tls-crypt-v2 client key") else
  Ok (take tlsCryptV2ClientKeyDataLength keyBytes, wrappedClientKey).

Definition loadTLSCryptV2ServerKey (staticKey : Material) : result bytes :=
  keyBytes ← loadNamedPEMBytes staticKey tlsCryptV2ServerPEMType;
  if (length keyBytes <? tlsCryptV2ServerKeyLength)%nat then Err (ErrNew "invalid tls-crypt-v2 server key") else
  Ok (take tlsCryptV2ServerKeyLength keyBytes).

(** ** Protections *)

Context (cr : Crypto).

Definition newControlCryptCodec (staticKey : Material) (keyDirection : Z) : result controlCryptCodec :=
  staticKeyMaterial ← loadStaticKeyMaterialFromSource staticKey; newControlCryptCodecFromMaterial cr staticKeyMaterial keyDirection.

Definition newControlAuthCodec (staticKey : Material) (keyDirection : Z) (authName : string) : result controlAuthCodec :=
  staticKeyMaterial ← loadStaticKeyMaterialFromSource staticKey; newControlAuthCodecWithAuth cr staticKeyMaterial keyDirection authName.

(** The digest of tls-auth. *)
Definition controlAuthName (auth : string) : string :=
  if bool_decide (auth = ""%string) || bool_decide (auth = "NONE"%string) then "SHA1" else auth.

(** [unixNow] is when the packet ids of a tls-crypt-v2 client are seeded. *)
Definition newTLSClientProtection (options : ClientOptions) (unixNow : Z) : result (tlsControlProtection * bytes) :=
  let tls := co_TLS options in
  if IsSet (tls_CryptV2 tls) then
    '(keyMaterial, wrappedClientKey) ← loadTLSCryptV2ClientKey (tls_CryptV2 tls);
    cryptCodec ← newControlCryptCodecFromMaterial cr keyMaterial tlsCryptKeyDirectionInverse;
    let cryptCodec := mkCrypt (ck_sendEncryptBlock cryptCodec) (ck_sendAuthKey cryptCodec) (ck_receiveCandidates cryptCodec)
      (seedNextID (ck_sendState cryptCodec) tlsCryptV2EarlyNegotiationStart unixNow) (ck_receiveState cryptCodec) in
    Ok (mkProtection None (Some cryptCodec) [], wrappedClientKey)
  else if IsSet (tls_Crypt tls) then
    cryptCodec ← newControlCryptCodec (tls_Crypt tls) tlsCryptKeyDirectionInverse; Ok (mkProtection None (Some cryptCodec) [], [])
  else if IsSet (tls_Auth tls) then
    authCodec ← newControlAuthCodec (tls_Auth tls) (co_KeyDirection options) (controlAuthName (cdo_Auth (co_DataChannel options)));
    Ok (mkProtection (Some authCodec) None [], [])
  else Ok (mkProtection None None [], []).

Definition newTLSServerProtection (options : ServerOptions) : result tlsControlProtection :=
  let tls := so_TLS options in
  if IsSet (tls_CryptV2 tls) then serverKey ← loadTLSCryptV2ServerKey (tls_CryptV2 tls); Ok (mkProtection None None serverKey)
  else if IsSet (tls_Crypt tls) then
    cryptCodec ← newControlCryptCodec (tls_Crypt tls) tlsCryptKeyDirectionNormal; Ok (mkProtection None (Some cryptCodec) [])
  else if IsSet (tls_Auth tls) then
    authCodec ← newControlAuthCodec (tls_Auth tls) (so_KeyDirection options) (controlAuthName (sdo_Auth (so_DataChannel options)));
    Ok (mkProtection (Some authCodec) None [])
  else Ok (mkProtection None None []).

(** ** The codec of a tunnel with a static key *)

(** [newStaticKeyDataCodec] of a configured key, with the replay window [newStaticKeyClientSession] asks for. *)
Definition loadStaticKeyDataCodec (unixNow : Z) (staticKey : Material) (keyDirection : Z) (cipherName authName : string) (replayWindow replayWindowTime : Z)
    : result staticKeyDataCodec :=
  let '(replayWindowSize, replayWindowTime) := dataReplayWindowParameters replayWindow replayWindowTime in
  staticKeyMaterial ← loadStaticKeyMaterialFromSource staticKey;
  newStaticKeyDataCodec cr unixNow staticKeyMaterial keyDirection cipherName authName replayWindowSize replayWindowTime.

End Loading.

(** ** The two ends *)

(** A hard reset of a client: its opcode depends on whether it has a wrapped key. *)
Definition isClientReset (wrappedClientKey raw : bytes) : Prop :=
  (tlsControlHeaderLength ≤ length raw)%nat ∧
  Z.shiftr (b2z (hd x00 raw)) 3 = (if hasAny wrappedClientKey then OpcodeControlHardResetClientV3 else OpcodeControlHardResetClientV2).

(** The two ends are configured with the same key: tls-crypt, tls-auth with one digest and
    opposite directions, or a client key that was wrapped for the server. *)
Inductive configuredAlike (cr : Crypto) (readClient readServer : string → result bytes) (pemDecode : bytes → option (string * bytes)) (c : ClientOptions) (s : ServerOptions) : Prop :=
| alike_crypt :
    IsSet (tls_CryptV2 (co_TLS c)) = false → IsSet (tls_CryptV2 (so_TLS s)) = false → IsSet (tls_Crypt (co_TLS c)) = true → IsSet (tls_Crypt (so_TLS s)) = true →
    loadStaticKeyMaterialFromSource readClient (tls_Crypt (co_TLS c)) = loadStaticKeyMaterialFromSource readServer (tls_Crypt (so_TLS s)) →
    configuredAlike cr readClient readServer pemDecode c s
| alike_auth :
    IsSet (tls_CryptV2 (co_TLS c)) = false → IsSet (tls_CryptV2 (so_TLS s)) = false → IsSet (tls_Crypt (co_TLS c)) = false → IsSet (tls_Crypt (so_TLS s)) = false →
    IsSet (tls_Auth (co_TLS c)) = true → IsSet (tls_Auth (so_TLS s)) = true →
    loadStaticKeyMaterialFromSource readClient (tls_Auth (co_TLS c)) = loadStaticKeyMaterialFromSource readServer (tls_Auth (so_TLS s)) →
    controlAuthName (cdo_Auth (co_DataChannel c)) = controlAuthName (sdo_Auth (so_DataChannel s)) →
    directionsMatch (co_KeyDirection c) (so_KeyDirection s) → directionsMatch (so_KeyDirection s) (co_KeyDirection c) →
    configuredAlike cr readClient readServer pemDecode c s
| alike_crypt_v2 clientKey serverKey wrapped metadata :
    IsSet (tls_CryptV2 (co_TLS c)) = true → IsSet (tls_CryptV2 (so_TLS s)) = true →
    loadNamedPEMBytes readClient pemDecode (tls_CryptV2 (co_TLS c)) tlsCryptV2ClientPEMType = Ok (clientKey ++ wrapped) →
    length clientKey = tlsCryptV2ClientKeyDataLength →
    loadNamedPEMBytes readServer pemDecode (tls_CryptV2 (so_TLS s)) tlsCryptV2ServerPEMType = Ok serverKey →
    wrappedClientKeyOf cr (take tlsCryptV2ServerKeyLength serverKey) clientKey metadata wrapped →
    configuredAlike cr readClient readServer pemDecode c s.

Lemma reset_exchanged cr s r raw t1 t2 reapNow now :
  Crypto_laws cr → protPair s r → protPair r s → protWindow r = Some controlReplayWindow → packetID_ok (protSendState s) → ps_nextID (protSendState s) < MaxUint32 →
  controlPacket raw →
  let '(wire, s') := encodeOutgoingControlPacket cr s raw t1 t2 in
  let '(decoded, r') := decodeIncomingControlPacket cr r wire reapNow now in
  decoded = Ok raw ∧ protPair s' r' ∧ protPair r' s'.
Proof.
  intros Hcr Hsr Hrs Hw Hst Hlt Hraw. pose proof (encode_step cr s r raw t1 t2 Hcr Hsr Hst Hraw) as He.
  pose proof (next_spec (protSendState s) t1 t2 Hst) as Hn.
  assert (Hback : protPair r (encodeOutgoingControlPacket cr s raw t1 t2).2).
  { unfold encodeOutgoingControlPacket. destruct s as [[a|] [b|] k], r as [[a'|] [b'|] k']; cbn in *; try done.
    all: unfold crypt_encodeControlPacket, auth_encodeControlPacket; destruct (bool_decide _); exact Hrs. }
  destruct (encodeOutgoingControlPacket cr s raw t1 t2) as [wire s']. cbn [snd] in Hback.
  destruct (next (protSendState s) t1 t2) as [pid st]. destruct He as (_ & Hsame & Hdec). destruct Hn as (_ & [Hi _] & _ & Hid). specialize (Hid Hlt).
  specialize (Hdec r reapNow now Hsr). rewrite Hw in Hdec. cbn [replayAcceptLongForm] in Hdec.
  destruct (AcceptLongForm_newer controlReplayWindow (ps_nextID st) (ps_timestamp st) reapNow now) as (w' & Hacc & _);
    [rewrite Hid; destruct Hst; lia | done | done |].
  rewrite Hacc in Hdec. destruct Hdec as [err ->]. split; [done|]. split.
  - apply protPair_setWindow. by apply Hsame.
  - destruct s' as [[|] [|] ?], r as [[|] [|] ?]; done.
Qed.

(** A key that makes a codec for one direction makes one for the other. *)
Lemma other_direction cr km a :
  newControlCryptCodecFromMaterial cr km tlsCryptKeyDirectionInverse = Ok a → ∃ b, newControlCryptCodecFromMaterial cr km tlsCryptKeyDirectionNormal = Ok b.
Proof.
  unfold newControlCryptCodecFromMaterial.
  change (resolveStaticKeyDirection tlsCryptKeyDirectionInverse) with (true, false, true).
  change (resolveStaticKeyDirection tlsCryptKeyDirectionNormal) with (false, true, false). cbn [Bool.eqb negb].
  destruct (newControlCryptKeys cr (slotAt (splitStaticKeyMaterial km) true)) as [[b1 k1]|]; [|done]. destruct (newControlCryptKeys cr (slotAt (splitStaticKeyMaterial km) false)) as [[b0 k0]|]; [|done].
  intros _. cbn. by eexists.
Qed.

(** C8: ends that are configured alike understand each other.  When the client and the
    server have loaded the same static key for tls-crypt, or for tls-auth with one digest
    and opposite directions, or the client a key that was wrapped for the server's
    tls-crypt-v2 key, from files of their own, the server decodes the client's first
    packet to what was sent, with the wrapped key in it or not, and from then on each end
    has the other's keys. *)
Theorem configured_ends_interoperate cr readClient readServer pemDecode c s unixNow client wrapped server raw t1 t2 reapNow now :
  Crypto_laws cr → configuredAlike cr readClient readServer pemDecode c s →
  newTLSClientProtection readClient pemDecode cr c unixNow = Ok (client, wrapped) → newTLSServerProtection readServer pemDecode cr s = Ok server →
  isClientReset wrapped raw →
  let '(encoded, client') := encodeOutgoingControlPacket cr client raw t1 t2 in
  let wire := appendTLSCryptV2WrappedClientKey encoded wrapped (Z.shiftr (b2z (hd x00 raw)) 3) in
  let '(decoded, server') := decodeIncomingControlPacket cr server wire reapNow now in
  decoded = Ok raw ∧ protPair client' server' ∧ protPair server' client'.
Proof.
  intros Hcr [H1 H2 H3 H4 Hk | H1 H2 H3 H4 H5 H6 Hk Hauth Hcs Hsc | clientKey serverKey wrapped' metadata H1 H2 Hck Hlen Hsk Hwrap];
    unfold newTLSClientProtection, newTLSServerProtection; rewrite ?H1, ?H2, ?H3, ?H4, ?H5, ?H6.
  - unfold newControlCryptCodec. rewrite Hk. clear Hk. destruct (loadStaticKeyMaterialFromSource _ _) as [km|]; cbn [mbind result_bind]; [|done].
    intros (a & Ha & [= <- <-])%result_bind_Ok (b & Hb & [= <-])%result_bind_Ok [Hraw Hop]. change (hasAny []) with false in Hop. cbn iota in Hop.
    destruct (newControlCryptCodec_window _ _ _ _ Ha) as [_ Hst], (newControlCryptCodec_window _ _ _ _ Hb) as [Hw _].
    pose proof (reset_exchanged cr (mkProtection None (Some a) []) (mkProtection None (Some b) []) raw t1 t2 reapNow now Hcr) as H.
    destruct (encodeOutgoingControlPacket cr _ raw t1 t2) as [wire c']. rewrite Hop. change (appendTLSCryptV2WrappedClientKey wire [] _) with wire. apply H.
    + exact (newControlCryptCodec_pair cr km 1 0 a b Hcr eq_refl Ha Hb).
    + exact (newControlCryptCodec_pair cr km 0 1 b a Hcr eq_refl Hb Ha).
    + exact Hw.
    + cbn. rewrite Hst. split; cbn; lia.
    + cbn. rewrite Hst. done.
    + split; [done|]. unfold plainOpcode. rewrite Hop. done.
  - unfold newControlAuthCodec. rewrite Hk, Hauth. clear Hk. destruct (loadStaticKeyMaterialFromSource _ _) as [km|]; cbn [mbind result_bind]; [|done].
    intros (a & Ha & [= <- <-])%result_bind_Ok (b & Hb & [= <-])%result_bind_Ok [Hraw Hop]. change (hasAny []) with false in Hop. cbn iota in Hop.
    assert (Hfresh : ∀ d x, newControlAuthCodecWithAuth cr km d (controlAuthName (sdo_Auth (so_DataChannel s))) = Ok x → ca_receiveState x = Some controlReplayWindow ∧ ca_sendState x = mkPacketIDState 0 0).
    { intros d x. unfold newControlAuthCodecWithAuth. intros ([hash n] & _ & Hx)%result_bind_Ok. destruct (decide _); [done|].
      destruct (resolveStaticKeyDirection d) as [[? ?] ?]. by injection Hx as <-. }
    destruct (Hfresh _ _ Ha) as [_ Hst], (Hfresh _ _ Hb) as [Hw _].
    pose proof (reset_exchanged cr (mkProtection (Some a) None []) (mkProtection (Some b) None []) raw t1 t2 reapNow now Hcr) as H.
    destruct (encodeOutgoingControlPacket cr _ raw t1 t2) as [wire c']. rewrite Hop. change (appendTLSCryptV2WrappedClientKey wire [] _) with wire. apply H.
    + exact (newControlAuthCodec_pair cr km _ _ _ a b Hcr Hcs Ha Hb).
    + exact (newControlAuthCodec_pair cr km _ _ _ b a Hcr Hsc Hb Ha).
    + exact Hw.
    + cbn. rewrite Hst. split; cbn; lia.
    + cbn. rewrite Hst. done.
    + split; [done|]. unfold plainOpcode. rewrite Hop. done.
  - unfold loadTLSCryptV2ClientKey, loadTLSCryptV2ServerKey. rewrite Hck, Hsk. cbn [mbind result_bind].
    rewrite (proj2 (Nat.ltb_ge _ _)) by (rewrite length_app; lia). rewrite drop_app_exact, take_app_exact by done.
    destruct (Nat.ltb_spec (length serverKey) tlsCryptV2ServerKeyLength) as [|Hskl]; [done|].
    assert (Hsk' : (tlsCryptV2ServerKeyLength ≤ length (take tlsCryptV2ServerKeyLength serverKey))%nat) by (rewrite length_take; lia).
    destruct (unwrap_wrapped cr _ clientKey metadata wrapped' Hcr Hsk' Hlen Hwrap) as (_ & Hw1 & _).
    destruct wrapped' as [|x wrapped']; [cbn in Hw1; lia|]. change (hasAny (x :: wrapped')) with true. cbn [negb mbind result_bind].
    intros (a & Ha & Hc)%result_bind_Ok Hs [Hraw Hop]. injection Hc as <- <-. injection Hs as <-. change (hasAny (x :: wrapped')) with true in Hop. cbn iota in Hop. rewrite Hop.
    destruct (other_direction _ _ _ Ha) as [b Hb]. destruct (newControlCryptCodec_window _ _ _ _ Ha) as [_ Hst]. rewrite Hst.
    eapply first_packet_unwrapped; try done.
    + unfold seedNextID, tlsCryptV2EarlyNegotiationStart. cbn. pose proof (u32_range unixNow). split; cbn; lia.
Qed.

(** ** Witness *)

Definition noMaterials (auth crypt cryptV2 : Material) : TLSOptions :=
  mkTLSOptions noMaterial noMaterial noMaterial auth crypt cryptV2 "" "" [] "" [] "" "" "" "" "" "" "" "".

(** A key file as it is written: sixteen octets on a line between the markers. *)
Definition hexLines (key : bytes) : string :=
  let digit d := Ascii.ascii_of_nat (Z.to_nat (if d <? 10 then 48 + d else 87 + d)) in
  let line i := foldr (λ x s, String (digit (b2z x / 16)) (String (digit (b2z x mod 16)) s)) EmptyString (slice (16 * i) (16 * i + 16) key) in
  Join LF (line <$> seq 0 16).

Definition exampleKeyFile : bytes := bytesOf ("# 2048 bit OpenVPN static key" +:+ LF +:+ beginMarker +:+ LF +:+ hexLines exampleKeyMaterial +:+ LF +:+ endMarker +:+ LF).

Lemma example_key_file_loads : loadStaticKeyMaterialFromSource (λ _, Ok []) (mkMaterial "" exampleKeyFile) = Ok exampleKeyMaterial.
Proof. vm_compute. reflexivity. Qed.

Definition exampleKey : Material := mkMaterial "" exampleKeyFile.

Definition keyedClient : ClientOptions :=
  mkClientOptions ModeTLS (mkClientTransport [] false "udp" 0) (mkClientDataChannel 0 0 false "" 0 "" [] "" "" "" "" "" 0 0 0) (noMaterials noMaterial exampleKey noMaterial)
    (mkClientAuthentication "" "" "" "" false) (mkClientPull true [] false)
    (mkClientTunnel "tun" "" false [] false 0 false false AddrInvalid [] [] [] AddrInvalid AddrInvalid) (mkClientTiming 0 false 0 0 0 0 false 0 0) noMaterial (-1).

Definition keyedServer : ServerOptions :=
  mkServerOptions ModeTLS (mkServerTransport "" "" None None "udp") (mkServerResource 0 0 0 0 0) (mkServerDataChannel 0 0 false "" "" [] "" "" 0 0 0)
    (noMaterials noMaterial exampleKey noMaterial) false "" false false (mkServerTiming 0 false 0 0 0 0 0) (mkServerTunnel [] "" [] AddrInvalid AddrInvalid)
    (mkServerPush [] [] [] [] [] false 0 false 0 false false []) noMaterial (-1).

Definition keyedClientEnd : tlsControlProtection :=
  match newTLSClientProtection (λ _, Ok []) (λ _, None) exampleCrypto keyedClient 1000 with Ok (p, _) => p | Err _ => mkProtection None None [] end.

Definition keyedServerEnd : tlsControlProtection :=
  match newTLSServerProtection (λ _, Ok []) (λ _, None) exampleCrypto keyedServer with Ok p => p | Err _ => mkProtection None None [] end.

Lemma configured_ends_interoperate_witness :
  (decodeIncomingControlPacket exampleCrypto keyedServerEnd
     (encodeOutgoingControlPacket exampleCrypto keyedClientEnd (exampleControlPacket OpcodeControlHardResetClientV2) 1000 1000).1 5 5).1
  = Ok (exampleControlPacket OpcodeControlHardResetClientV2).
Proof.
  pose proof (configured_ends_interoperate exampleCrypto (λ _, Ok []) (λ _, Ok []) (λ _, None) keyedClient keyedServer 1000 keyedClientEnd [] keyedServerEnd
    (exampleControlPacket OpcodeControlHardResetClientV2) 1000 1000 5 5 exampleCrypto_laws) as H.
  destruct (encodeOutgoingControlPacket exampleCrypto keyedClientEnd _ 1000 1000) as [encoded client'].
  change (appendTLSCryptV2WrappedClientKey encoded [] _) with encoded in H. cbv zeta in H. cbn [fst].
  destruct (decodeIncomingControlPacket exampleCrypto keyedServerEnd encoded 5 5) as [decoded server']. cbn [fst]. apply H.
  - apply alike_crypt; vm_compute; reflexivity.
  - vm_compute. reflexivity.
  - vm_compute. reflexivity.
  - split; [apply (bool_decide_unpack _); vm_compute; done | vm_compute; reflexivity].
Defined.
