(* ===== verification/Static.v ===== *)
(** * Tunnels with a static key ([client_session_static.go], [server_static.go])

    A session with a static key has no control channel: it starts as soon as it is
    connected, and a peer's packets are recognised by the key alone.  A server in this
    mode is a client that listens.  The connection, the clock and the randomness are
    arguments. *)

From Stdlib Require Import Strings.Ascii.
From S2P Require Import Prelude GoStrings Packet Session Netip NetipText RouteRegistry Fragment Crypto Codec Compression Options Auth Supervisor Mss KeyState DataQueue ControlChannel DataPath ServerSessions ClientSession Keys Listener.

(** ** The data path of a session *)

Section StaticPath.
Context {C : Type} {dc : DataCodec C} (o : dataChannelOptions) (protocol : string) (outerTransportOverhead : Z).

(** The part of a session that data passes through.  The framing and the queue are those
    of the client it belongs to. *)
Record staticPath := mkStaticPath {
  sp_sessionManager : SessionManager;
  sp_dataCodec : C;
  sp_framing : option dataChannelFraming;
  sp_incomingDataPackets : dataPacketQueue (T := bytes);
  sp_lastInboundTime : Time;
  sp_lastOutboundTime : Time;
}.

#[export] Instance eta_staticPath : Eta staticPath := λ s,
  mkStaticPath (sp_sessionManager s) (sp_dataCodec s) (sp_framing s) (sp_incomingDataPackets s) (sp_lastInboundTime s) (sp_lastOutboundTime s).

(** *** Writing *)

(** The packets encoded before an error, and the error. *)
Fixpoint encodeStaticPackets (codec : C) (random : Z → nat → result bytes) (dataPacketIDs : list Z) (outgoingPayloads : list bytes)
    : list bytes * option goerr :=
  match outgoingPayloads, dataPacketIDs with
  | outgoingPayload :: outgoingPayloads, dataPacketID :: dataPacketIDs =>
      match Encode codec dataPacketID [] outgoingPayload (random dataPacketID) with
      | Err e => ([], Some e)
      | Ok encodedPayload =>
          let '(rawPackets, encodeErr) := encodeStaticPackets codec random dataPacketIDs outgoingPayloads in (encodedPayload :: rawPackets, encodeErr)
      end
  | _, _ => ([], None)
  end.

(** [framedAt] is when the packets are framed, [writtenAt] when they have been written;
    [writePackets] is the connection.  The packets handed to the connection, and the
    error; [None] is a panic. *)
Definition staticWriteDataPackets (ready : bool) (random : Z → nat → result bytes) (framedAt writtenAt : Time) (writePackets : list bytes → Z * option goerr)
    (packets : list bytes) (s : staticPath) : option (list bytes * option goerr * staticPath) :=
  if negb (hasAny packets) then Some ([], None, s) else
  if negb ready then Some ([], Some ErrDataChannelNotReady, s) else
  let packets := nonEmpty packets in
  if negb (hasAny packets) then Some ([], None, s) else
  '(preparedPayloads, _, framing) ← outgoingDataPayloadBatches o outerTransportOverhead (sp_framing s) framedAt packets (sp_dataCodec s) (dataTransportHeaderSize protocol);
  let s := s <| sp_framing := framing |> in
  let preparedPacketCount := sum_list_with length preparedPayloads in
  if (preparedPacketCount =? 0)%nat then Some ([], None, s) else
  let '(dataPacketIDs, manager) := NewDataPacketIDs (sp_sessionManager s) OpcodeDataV1 (Z.of_nat preparedPacketCount) in
  let s := s <| sp_sessionManager := manager |> in
  match dataPacketIDs with
  | Err e => Some ([], Some e, s)
  | Ok dataPacketIDs =>
      let '(rawPackets, encodeErr) := encodeStaticPackets (sp_dataCodec s) random dataPacketIDs (concat preparedPayloads) in
      let '(writtenPackets, writeErr) := writePackets rawPackets in
      match writeErr with
      | Some e => Some (rawPackets, Some e, s)
      | None => Some (rawPackets, encodeErr, if 0 <? writtenPackets then s <| sp_lastOutboundTime := writtenAt |> else s)
      end
  end.

(** *** Reading *)

Context (dz : Decompressors) (range : gmap Z incomingFragmentBuffer → list (Z * incomingFragmentBuffer)) (connectionOriented : bool).

(** A packet with the readings of the clock while it is handled. *)
Record staticArrival := mkStaticArrival { sa_raw : bytes; sa_reapNow : Time; sa_now : Time; sa_framed : Time }.

(** What a batch of packets comes to: the payloads, whether a packet was authenticated,
    what is logged, and the error that ends the session. *)
Record staticBatch := mkStaticBatch { sb_payloads : list bytes; sb_authenticated : bool; sb_logged : list goerr; sb_fatal : option goerr }.

Definition noBatch : staticBatch := mkStaticBatch [] false [] None.

(** What is left of an authenticated packet. *)
Definition staticPayload (framed : result (option bytes)) : list bytes * list goerr :=
  match framed with
  | Err e => ([], [e])
  | Ok None => ([], [])
  | Ok (Some payload) => if bool_decide (payload = []) || bool_decide (payload = openVPNDataChannelPingPayload) then ([], []) else ([payload], [])
  end.

Fixpoint decodeStaticPackets (arrivals : list staticArrival) (s : staticPath) : staticBatch * staticPath :=
  match arrivals with
  | [] => (noBatch, s)
  | a :: arrivals =>
      let '(decoded, codec) := Decode (sp_dataCodec s) [] (sa_raw a) (sa_reapNow a) (sa_now a) in
      let s := s <| sp_dataCodec := codec |> in
      match decoded with
      | Err e =>
          if connectionOriented then (mkStaticBatch [] false [e] (Some (ErrExtend ErrFatalDecryption "")), s) else
          let '(b, s) := decodeStaticPackets arrivals s in (mkStaticBatch (sb_payloads b) (sb_authenticated b) (e :: sb_logged b) (sb_fatal b), s)
      | Ok (_, decodedPayload) =>
          let '(framed, framing) := decodeIncomingDataFraming dz range (sp_framing s) decodedPayload (sa_framed a) in
          let '(payloads, logged) := staticPayload framed in
          let '(b, s) := decodeStaticPackets arrivals (s <| sp_framing := framing |>) in
          (mkStaticBatch (payloads ++ sb_payloads b) true (logged ++ sb_logged b) (sb_fatal b), s)
      end
  end.

(** [checkKeepalive]: an error, or whether a ping is due.  The ping goes out through the
    sender of messages, which writes it as any packet. *)
Definition checkStaticKeepalive (pingRestart pingInterval : Z) (now : Time) (s : staticPath) : result bool :=
  if (0 <? pingRestart) && negb (now <? sp_lastInboundTime s + pingRestart) then Err ErrPingRestartTimeout else
  Ok ((0 <? pingInterval) && negb (now <? sp_lastOutboundTime s + pingInterval)).

(** A round of the loop: whether the context is done, the error of arming the deadline,
    what is read, when, and how. *)
Record staticRound := mkStaticRound {
  sr_done : bool;
  sr_deadlineErr : option goerr;
  sr_arrivals : list staticArrival;
  sr_readErr : option listenerError;
  sr_receivedAt : Time;
  sr_checkedAt : Time;
}.

(** The loop goes on, with or without a ping, or the session finishes. *)
Inductive staticNext := StaticContinue (ping : bool) | StaticFinish (err : option goerr).

Definition staticReadRound (pingRestart pingInterval : Z) (r : staticRound) (s : staticPath) : option (staticNext * staticPath) :=
  if sr_done r then Some (StaticFinish None, s) else
  match sr_deadlineErr r with
  | Some e => Some (StaticFinish (Some e), s)
  | None =>
      let '(b, s) := decodeStaticPackets (sr_arrivals r) s in
      let s := if sb_authenticated b then s <| sp_lastInboundTime := sr_receivedAt r |> else s in
      '(_, queue) ← handleIncomingDataPayloads o outerTransportOverhead (sp_framing s) (sp_incomingDataPackets s) (sb_payloads b) (sp_dataCodec s) (dataTransportHeaderSize protocol);
      let s := s <| sp_incomingDataPackets := queue |> in
      match sb_fatal b with
      | Some e => Some (StaticFinish (Some e), s)
      | None =>
          match checkStaticKeepalive pingRestart pingInterval (sr_checkedAt r) s with
          | Err e => Some (StaticFinish (Some e), s)
          | Ok ping =>
              match sr_readErr r with
              | None | Some (ListenerTimeout _) => Some (StaticContinue ping, s)
              | Some (ListenerClosed _) => Some (StaticFinish None, s)
              | Some (ListenerFailed e) => Some (StaticFinish (Some e), s)
              end
          end
      end
  end.

(** The loop: the number of pings asked for, and how it finished, if it did. *)
Fixpoint staticReadLoop (pingRestart pingInterval : Z) (rounds : list staticRound) (s : staticPath) : option (nat * option (option goerr) * staticPath) :=
  match rounds with
  | [] => Some (0%nat, None, s)
  | r :: rounds =>
      '(next, s) ← staticReadRound pingRestart pingInterval r s;
      match next with
      | StaticFinish err => Some (0%nat, Some err, s)
      | StaticContinue ping =>
          '(pings, finished, s) ← staticReadLoop pingRestart pingInterval rounds s;
          Some (((if ping : bool then 1 else 0) + pings)%nat, finished, s)
      end
  end.

End StaticPath.

(** ** Making a session *)

(** An error of the configuration is marked as one, once. *)
Definition configurationError (e : goerr) : clientErr :=
  if Is (Plain e) errClientSessionConfiguration then Plain e else Joined (Plain errClientSessionConfiguration) (Plain e).

Definition newStaticKeyClientSession (cr : Crypto) (readFile : string → result bytes) (unixNow : Z) (localID : result SessionID) (options : ClientOptions)
    : outcome (SessionManager * staticKeyDataCodec) :=
  match NewSessionManager localID with
  | Err e => Failure (Plain e)
  | Ok sessionManager =>
      let d := co_DataChannel options in
      match loadStaticKeyDataCodec readFile cr unixNow (co_StaticKey options) (co_KeyDirection options) (cdo_Cipher d) (cdo_Auth d) (cdo_ReplayWindow d) (cdo_ReplayWindowTime d) with
      | Err e => Failure (configurationError e)
      | Ok codec => Success (sessionManager, codec)
      end
  end.

(** ** The server *)

Section StaticServer.
Context (tunnel : ServerTunnelOptions).

(** The server's own state, with the routes and the queue of the [Server] it belongs to. *)
Record staticKeyServer := mkStaticServer {
  sk_peerAddress : string;
  sk_routes : gmap Addr peerRoute;
  sk_incomingDataPackets : dataPacketQueue (T := string * bytes);
}.

#[export] Instance eta_staticKeyServer : Eta staticKeyServer := λ s, mkStaticServer (sk_peerAddress s) (sk_routes s) (sk_incomingDataPackets s).

Definition setPeerAddress (s : staticKeyServer) (peerAddress : string) : staticKeyServer :=
  let register address r := if Addr_IsValid address then Register r address peerAddress None else r in
  s <| sk_peerAddress := peerAddress |> <| sk_routes := register (stn_VPNGatewayIPv6 tunnel) (register (stn_VPNGateway tunnel) (sk_routes s)) |>.

Definition validSource (packet : bytes) : bool :=
  match sourceFromIPPacket packet with
  | None => false
  | Some source =>
      if Is4 source then Addr_IsValid (stn_VPNGateway tunnel) && bool_decide (source = stn_VPNGateway tunnel) else
      if Is6 source then Addr_IsValid (stn_VPNGatewayIPv6 tunnel) && bool_decide (source = stn_VPNGatewayIPv6 tunnel) else false
  end.

(** A round of the loop that hands the client's packets to the program. *)
Definition staticServerRead (s : staticKeyServer) (packet : bytes) : option staticKeyServer :=
  if bool_decide (sk_peerAddress s = ""%string) || negb (validSource packet) then Some s else
  '(_, queue) ← serverPushPackets (sk_incomingDataPackets s) [(sk_peerAddress s, packet)]; Some (s <| sk_incomingDataPackets := queue |>).

Fixpoint staticServerReadLoop (s : staticKeyServer) (packets : list bytes) : option staticKeyServer :=
  match packets with [] => Some s | packet :: packets => s ← staticServerRead s packet; staticServerReadLoop s packets end.

(** The packets of a peer's address are the client's to write. *)
Definition staticServerWrite (s : staticKeyServer) (peerAddress : string) : option goerr :=
  if bool_decide (peerAddress = ""%string) || negb (bool_decide (peerAddress = sk_peerAddress s)) then Some ErrPeerNotFound else None.

End StaticServer.

(** *** Starting *)

(** [net.SplitHostPort]. *)
Definition SplitHostPort (hostport : string) : result (string * string) :=
  match cutLast ":"%char hostport with
  | None => Err (ErrNew "missing port in address")
  | Some (before, port) =>
      let checkPort host := if containsChar "["%char port || containsChar "]"%char port then Err (ErrNew "unexpected bracket in address") else Ok (host, port) in
      match hostport with
      | String "["%char rest =>
          match Cut "]"%char rest with
          | None => Err (ErrNew "missing ']' in address")
          | Some (host, after) =>
              if decide (after = String ":"%char port) then
                if containsChar "["%char host then Err (ErrNew "unexpected bracket in address") else checkPort host
              else if HasPrefix after ":" then Err (ErrNew "too many colons in address") else Err (ErrNew "missing port in address")
          end
      | _ =>
          if containsChar ":"%char before then Err (ErrNew "too many colons in address") else
          if containsChar "["%char before || containsChar "]"%char before then Err (ErrNew "unexpected bracket in address") else checkPort before
      end
  end.

Definition splitStaticServerAddress (address : string) : result (string * Z) :=
  '(host, portString) ← SplitHostPort address;
  match ParseUint portString 16 with
  | Err _ | Ok 0 => Err (ErrNew "invalid static_key peer port")
  | Ok portValue =>
      Ok (match ParseAddr host with Ok _ => host | Err _ => if containsChar "["%char address then "::1"%string else "127.0.0.1"%string end, portValue)
  end.

(** [prepareTransport]: [listen] is the address of the listener of a stream, or what
    listening returns; [resolved] is the peer's address for datagrams and [listenPacket]
    what opening the socket returns.  Also whether a listener or a socket is left open. *)
Definition remoteAt (protocol address : string) : result Remote :=
  '(host, port) ← splitStaticServerAddress address; Ok (mkRemote host port protocol).

Definition prepareTransport (protocol remoteAddress : string) (listen resolved : result string) (listenPacket : option goerr) : result Remote * bool :=
  if HasPrefix protocol "tcp" then
    match listen with Err e => (Err e, false) | Ok listener => (remoteAt protocol listener, true) end
  else
    if bool_decide (remoteAddress = ""%string) then (Err (ErrNew "static_key UDP server requires Transport.RemoteAddress"), false) else
    match resolved, listenPacket with
    | Err e, _ | Ok _, Some e => (Err e, false)
    | Ok remoteNetworkAddress, None => (remoteAt protocol remoteNetworkAddress, true)
    end.

Definition noTLS : TLSOptions :=
  mkTLSOptions noMaterial noMaterial noMaterial noMaterial noMaterial noMaterial "" "" [] "" [] "" "" "" "" "" "" "" "".

(** The options of the client a server with a static key is. *)
Definition staticClientOptions (options : ServerOptions) (protocol : string) (remote : Remote) : ClientOptions :=
  let d := so_DataChannel options in
  let t := so_Tunnel options in
  mkClientOptions ModeStaticKey (mkClientTransport [remote] false protocol 0)
    (mkClientDataChannel (sdo_MTU d) (sdo_MSSFix d) (sdo_MSSFixDisabled d) (sdo_MSSFixMode d) 0 (sdo_Cipher d) [] "" (sdo_Auth d) "" "" "" (sdo_ReplayWindow d) (sdo_ReplayWindowTime d) 0)
    noTLS (mkClientAuthentication "" "" "" "" false) (mkClientPull false [] false)
    (mkClientTunnel "tun" (stn_Topology t) false [] false 0 false false AddrInvalid [] [] (stn_LocalAddress t) (stn_VPNGateway t) (stn_VPNGatewayIPv6 t))
    (mkClientTiming 0 false 0 0 (sti_PingInterval (so_Timing options)) (sti_PingRestart (so_Timing options)) false 0 0) (so_StaticKey options) (so_KeyDirection options).

(** [Start]: the error, whether the transport is open afterwards, and whether the client
    was closed again.  A transport that was opened is closed only by the later steps. *)
Definition staticServerStart (prepared : result Remote * bool) (options : ServerOptions) (protocol : string) (random : nat → result nat) (started : option goerr)
    : option goerr * bool * bool :=
  match prepared with
  | (Err e, opened) => (Some e, opened, false)
  | (Ok remote, opened) =>
      match NewClient random (staticClientOptions options protocol remote) with
      | Err e => (Some e, false, false)
      | Ok _ => match started with Some e => (Some e, false, true) | None => (None, opened, false) end
      end
  end.

(** [dialContext] of that client: the next connection of the listener, whose address
    becomes the peer's, or a session on the packet link. *)
Definition staticDial (tunnel : ServerTunnelOptions) (protocol : string) (transportOpen : bool) (accepted : result string) (s : staticKeyServer) : option goerr * staticKeyServer :=
  if negb transportOpen then (Some net_ErrClosed, s) else
  if HasPrefix protocol "tcp" then
    match accepted with Err e => (Some e, s) | Ok peerAddress => (None, setPeerAddress tunnel s peerAddress) end
  else (None, s).

(** ** The packet link

    Sessions that follow one another read from one socket.  [pk_read] is the session that
    holds the lock of reads and how far it is; [pk_deadline] is the socket's deadline;
    [pk_interrupts] are the sessions between the two halves of [Close]. *)

Inductive readPhase := ReadLocked | ReadChecked | ReadArmed.

Record staticServerPacketConnection := mkPacketConnection { pc_readDeadline : Time; pc_writeDeadline : Time; pc_closed : bool }.

#[export] Instance eta_staticServerPacketConnection : Eta staticServerPacketConnection := λ c, mkPacketConnection (pc_readDeadline c) (pc_writeDeadline c) (pc_closed c).

Record staticServerPacketLink := mkPacketLink {
  pk_sessions : gmap nat staticServerPacketConnection;
  pk_activeReader : option nat;
  pk_read : option (nat * readPhase);
  pk_deadline : Time;
  pk_interrupts : list nat;
}.

#[export] Instance eta_staticServerPacketLink : Eta staticServerPacketLink := λ l,
  mkPacketLink (pk_sessions l) (pk_activeReader l) (pk_read l) (pk_deadline l) (pk_interrupts l).

Definition newPacketLink : staticServerPacketLink := mkPacketLink ∅ None None 0 [].

Definition newLinkSession (l : staticServerPacketLink) (session : nat) : staticServerPacketLink :=
  l <| pk_sessions := <[session := mkPacketConnection 0 0 false]> (pk_sessions l) |>.

Definition sessionOf (l : staticServerPacketLink) (session : nat) : staticServerPacketConnection := default (mkPacketConnection 0 0 false) (pk_sessions l !! session).

(** [readFrom] in its atomic parts: the check, arming the socket with the session's
    deadline, and [finishRead] with the release of the lock. *)
Definition checkRead (l : staticServerPacketLink) (session : nat) : staticServerPacketLink :=
  l <| pk_read := if pc_closed (sessionOf l session) then None else Some (session, ReadChecked) |>.

Definition armRead (l : staticServerPacketLink) (session : nat) : staticServerPacketLink :=
  l <| pk_activeReader := Some session |> <| pk_deadline := pc_readDeadline (sessionOf l session) |> <| pk_read := Some (session, ReadArmed) |>.

Definition finishRead (l : staticServerPacketLink) (session : nat) : staticServerPacketLink :=
  l <| pk_activeReader := if decide (pk_activeReader l = Some session) then None else pk_activeReader l |> <| pk_read := None |>.

Definition setReadDeadline (l : staticServerPacketLink) (session : nat) (deadline : Time) : staticServerPacketLink :=
  let l := l <| pk_sessions := alter (λ c, c <| pc_readDeadline := deadline |>) session (pk_sessions l) |> in
  if decide (pk_activeReader l = Some session) then l <| pk_deadline := deadline |> else l.

(** [Close] closes the channel once, and then interrupts a read of the session. *)
Definition closeLinkSession (l : staticServerPacketLink) (session : nat) : staticServerPacketLink :=
  if pc_closed (sessionOf l session) then l else
  l <| pk_sessions := alter (λ c, c <| pc_closed := true |>) session (pk_sessions l) |> <| pk_interrupts := session :: pk_interrupts l |>.

Definition interruptRead (l : staticServerPacketLink) (session : nat) (now : Time) : staticServerPacketLink :=
  if decide (pk_activeReader l = Some session) then l <| pk_deadline := now |> else l.

(** What a session does on the link. *)
Inductive linkStep : nat → staticServerPacketLink → staticServerPacketLink → Prop :=
| LinkNew l session : pk_sessions l !! session = None → linkStep session l (newLinkSession l session)
| LinkLock l session : is_Some (pk_sessions l !! session) → pk_read l = None → linkStep session l (l <| pk_read := Some (session, ReadLocked) |>)
| LinkCheck l session : pk_read l = Some (session, ReadLocked) → linkStep session l (checkRead l session)
| LinkArm l session : pk_read l = Some (session, ReadChecked) → linkStep session l (armRead l session)
| LinkFinish l session : pk_read l = Some (session, ReadArmed) → linkStep session l (finishRead l session)
| LinkDeadline l session deadline : linkStep session l (setReadDeadline l session deadline)
| LinkClose l session : is_Some (pk_sessions l !! session) → linkStep session l (closeLinkSession l session)
| LinkInterrupt l session interrupts now : session :: interrupts ≡ₚ pk_interrupts l →
    linkStep session l ((interruptRead l session now) <| pk_interrupts := interrupts |>).

(** *** A session's reads and writes *)

(** A turn of the loop of [Read]: what the session finds, the time, and what the socket
    returns, if it gets there. *)
Record linkTurn := mkLinkTurn { lt_closed : bool; lt_deadline : Time; lt_now : Time; lt_read : bytes * netAddr + listenerError }.

Definition linkReadTurn (remoteAddress : netAddr) (turn : linkTurn) : option (result bytes) :=
  if lt_closed turn then Some (Err net_ErrClosed) else
  if negb (IsZero (lt_deadline turn)) && negb (lt_now turn <? lt_deadline turn) then Some (Err os_ErrDeadlineExceeded) else
  match lt_read turn with
  | inr (ListenerTimeout _) => None
  | inr (ListenerClosed e) | inr (ListenerFailed e) => Some (Err e)
  | inl (data, source) => if bool_decide (addrString source = addrString remoteAddress) then Some (Ok data) else None
  end.

Fixpoint linkRead (remoteAddress : netAddr) (turns : list linkTurn) : option (result bytes) :=
  match turns with
  | [] => None
  | turn :: turns => match linkReadTurn remoteAddress turn with Some r => Some r | None => linkRead remoteAddress turns end
  end.

Definition linkWrite (c : staticServerPacketConnection) (now : Time) (written : result Z) : result Z :=
  if pc_closed c then Err net_ErrClosed else
  if negb (IsZero (pc_writeDeadline c)) && negb (now <? pc_writeDeadline c) then Err os_ErrDeadlineExceeded else written.
