(* ===== verification/StaticLaws.v ===== *)
(** * Tunnels with a static key: what they guarantee

    Packets one end writes are read at the other; a server hands on only packets of the
    configured peer; sessions that share a socket do not disturb each other's reads. *)

From S2P Require Import Prelude GoStrings Packet Session ReplayWindow Netip RouteRegistry Fragment Crypto Codec CodecLaws DataChannel ControlWrap Compression Options Auth Supervisor Mss KeyState DataQueue DataPath DataPathLaws ServerSessions ClientSession Keys Listener Static.

Section StaticTunnel.
Context {C : Type} {dc : DataCodec C} {lc : LawfulCodec C}.
Context (dz : Decompressors) (range : gmap Z incomingFragmentBuffer → list (Z * incomingFragmentBuffer)).

(** What a receiver in a state of framing makes of frames, and the state after them. *)
Fixpoint unframed (f : option dataChannelFraming) (frames : list bytes) (times : list Time) : list bytes * option dataChannelFraming :=
  match frames, times with
  | frame :: frames, now :: times =>
      let '(r, f) := decodeIncomingDataFraming dz range f frame now in
      let '(rest, f) := unframed f frames times in ((staticPayload r).1 ++ rest, f)
  | _, _ => ([], f)
  end.

(** What the receiver keeps: its codec is the sender's pair, with a replay window below
    the ids to come. *)
Definition staticReceives (c r : C) (next : Z) : Prop :=
  codecPair c r ∧ ∃ w, codecWindow r = Some w ∧ rw_windowSize w ≠ 0 ∧ (rw_initialized w = true → rw_highestID w < next) ∧ windowTimestamp (codecTimestamp c) w.

Lemma decode_many (c : C) connectionOriented (R : staticPath (C := C)) next frames arrivals random :
  staticReceives c (sp_dataCodec R) next → 0 < next → next + lenZ frames ≤ 2 ^ 32 → Forall (codecPayload c) frames → (∀ id, random_ok (random id)) →
  Forall2 (λ sent a, Encode c sent.1 [] sent.2 (random sent.1) = Ok (sa_raw a)) (zip (seqZ next (lenZ frames)) frames) arrivals →
  let '(b, R') := decodeStaticPackets dz range connectionOriented arrivals R in
  sb_payloads b = (unframed (sp_framing R) frames (sa_framed <$> arrivals)).1 ∧ sb_fatal b = None ∧
  (frames ≠ [] → sb_authenticated b = true) ∧
  sp_framing R' = (unframed (sp_framing R) frames (sa_framed <$> arrivals)).2 ∧
  staticReceives c (sp_dataCodec R') (next + lenZ frames) ∧ sp_incomingDataPackets R' = sp_incomingDataPackets R.
Proof.
  intros HR Hnext Hlast Hpay Hrnd. revert R next arrivals HR Hnext Hlast. induction frames as [|frame frames IH]; intros R next arrivals HR Hnext Hlast Hall.
  { unfold lenZ in *. cbn in Hall. inv Hall. cbn. rewrite Z.add_0_r. done. }
  unfold lenZ in *. cbn [length] in *. rewrite seqZ_cons in Hall by lia. cbn [zip zip_with] in Hall.
  replace (Z.succ next) with (next + 1) in Hall by lia. replace (Z.pred (Z.of_nat (S (length frames)))) with (Z.of_nat (length frames)) in Hall by lia.
  inv Hall as [|? a ? arrivals' Ha Hrest]. cbn [fst snd] in Ha. apply Forall_cons in Hpay as [Hp Hpay].
  destruct HR as (Hpair & w & Hw & Hsize & Hlow & Hts).
  pose proof (law_decode c (sp_dataCodec R) next [] frame (random next) _ (sa_reapNow a) (sa_now a) Hpair ltac:(lia) (Hrnd next) Hp Ha) as Hdec.
  rewrite Hw in Hdec.
  destruct (codecAccept_newer (codecTimestamp c) w next (sa_reapNow a) (sa_now a) ltac:(lia) ltac:(done) Hts) as (w' & Hacc & Hsize' & _ & Hhigh & Hts').
  rewrite Hacc in Hdec. destruct Hdec as [err Hdec].
  cbn [decodeStaticPackets unframed fmap list_fmap]. rewrite Hdec. cbn -[decodeIncomingDataFraming unframed].
  destruct (decodeIncomingDataFraming dz range (sp_framing R) frame (sa_framed a)) as [framed f].
  destruct (staticPayload framed) as [payloads logged].
  set (R1 := _ <| sp_framing := f |>).
  assert (HR1 : staticReceives c (sp_dataCodec R1) (next + 1)).
  { split; [by apply law_pair|]. exists w'. split_and!; [apply law_window | by rewrite Hsize' | intros _; lia | done]. }
  specialize (IH Hpay R1 (next + 1) arrivals' HR1 ltac:(lia) ltac:(lia) Hrest).
  destruct (decodeStaticPackets dz range connectionOriented arrivals' R1) as [b R'].
  change (sp_framing R1) with f in IH. destruct (unframed f frames (sa_framed <$> arrivals')) as [rest f']. cbn [fst snd] in *.
  destruct IH as (-> & -> & _ & -> & Hrec & ->). split_and!; try done.
  by replace (next + Z.of_nat (S (length frames))) with (next + 1 + Z.of_nat (length frames)) by lia.
Qed.

(** *** The sender *)

Lemma encodeStatic_spec (c : C) random ids frames packets :
  encodeStaticPackets c random ids frames = (packets, None) → (length frames ≤ length ids)%nat →
  Forall2 (λ sent raw, Encode c sent.1 [] sent.2 (random sent.1) = Ok raw) (zip ids frames) packets.
Proof.
  revert ids packets. induction frames as [|frame frames IH]; intros [|id ids] packets H Hlen; cbn in *; try lia; simplify_eq; [constructor.. |].
  destruct (Encode c id [] frame (random id)) as [raw|] eqn:Hraw; [|done].
  destruct (encodeStaticPackets c random ids frames) as [rest err] eqn:Hrec. simplify_eq. constructor; [done|]. apply IH; [done | lia].
Qed.

Lemma static_written o protocol overhead random t1 t2 writePackets payloads (S S' : staticPath (C := C)) prepared logged f packets :
  session_inv (sp_sessionManager S) → lenZ (concat prepared) < 2 ^ 63 →
  outgoingDataPayloadBatches o overhead (sp_framing S) t1 (nonEmpty payloads) (sp_dataCodec S) (dataTransportHeaderSize protocol) = Some (prepared, logged, f) →
  staticWriteDataPackets o protocol overhead true random t1 t2 writePackets payloads S = Some (packets, None, S') →
  sp_dataCodec S' = sp_dataCodec S ∧ session_inv (sp_sessionManager S') ∧
  sm_localDataPacketID (sp_sessionManager S') = sm_localDataPacketID (sp_sessionManager S) + lenZ (concat prepared) ∧
  Forall2 (λ sent raw, Encode (sp_dataCodec S) sent.1 [] sent.2 (random sent.1) = Ok raw)
    (zip (seqZ (sm_localDataPacketID (sp_sessionManager S)) (lenZ (concat prepared))) (concat prepared)) packets.
Proof.
  intros Hinv Hint Hprep. unfold staticWriteDataPackets.
  assert (Hnone : concat prepared = [] → packets = [] → S = S' ∨ S <| sp_framing := f |> = S' →
    sp_dataCodec S' = sp_dataCodec S ∧ session_inv (sp_sessionManager S') ∧
    sm_localDataPacketID (sp_sessionManager S') = sm_localDataPacketID (sp_sessionManager S) + lenZ (concat prepared) ∧
    Forall2 (λ sent raw, Encode (sp_dataCodec S) sent.1 [] sent.2 (random sent.1) = Ok raw)
      (zip (seqZ (sm_localDataPacketID (sp_sessionManager S)) (lenZ (concat prepared))) (concat prepared)) packets).
  { intros -> -> [<-|<-]; cbn; rewrite zip_with_nil_r; split_and!; try done; unfold lenZ; cbn; lia. }
  destruct payloads as [|payload payloads].
  { intros [= <- <-]. cbn in Hprep. apply Hnone; [|done|by left]. unfold outgoingDataPayloadBatches in Hprep. by destruct (sp_framing S); cbn in Hprep; simplify_eq. }
  cbn [hasAny negb]. destruct (nonEmpty (payload :: payloads)) as [|p ps].
  { intros [= <- <-]. apply Hnone; [|done|by left]. unfold outgoingDataPayloadBatches in Hprep. by destruct (sp_framing S); cbn in Hprep; simplify_eq. }
  cbn [hasAny negb]. rewrite Hprep. cbn [mbind option_bind]. rewrite sum_list_with_concat.
  destruct (Nat.eqb_spec (length (concat prepared)) 0) as [Hz|Hz].
  { intros [= <- <-]. apply Hnone; [by apply length_zero_iff_nil | done | by right]. }
  cbn -[encodeStaticPackets NewDataPacketIDs concat]. fold (lenZ (concat prepared)).
  pose proof (NewDataPacketIDs_spec (sp_sessionManager S) OpcodeDataV1 (lenZ (concat prepared)) Hinv ltac:(unfold lenZ in *; lia)) as Hids.
  destruct (NewDataPacketIDs _ _ _) as [[ids|e] m']; [|intros [=]]. destruct Hids as (_ & Hcount & -> & Hid & Hctl).
  destruct (encodeStaticPackets _ _ _ _) as [rawPackets encodeErr] eqn:Henc. destruct (writePackets rawPackets) as [written [e|]]; [intros [=]|].
  intros [= <- -> HS']. assert (HS : sp_dataCodec S' = sp_dataCodec S ∧ sp_sessionManager S' = m') by (destruct (0 <? written); by subst S').
  destruct HS as [-> ->]. split_and!; [done | | done |].
  - destruct Hinv as [H1 H2]. split; [by rewrite Hctl | rewrite Hid; unfold lenZ in *; lia].
  - apply (encodeStatic_spec _ _ _ _ _ Henc). rewrite length_seqZ. unfold lenZ. lia.
Qed.

(** *** From one end to the other *)

Lemma push_payloads clamp q l payloads : queueRep [] q l → Forall (λ p, p ≠ []) payloads →
  ∃ dropped q', pushIncomingDataPackets q (Mss.Apply clamp <$> payloads) = Some (dropped, q') ∧
    queueRep [] q' (drop (length l + length payloads - capacity q) (l ++ (Mss.Apply clamp <$> payloads))).
Proof.
  intros Hq Hne. unfold pushIncomingDataPackets.
  assert (Hf : filter (λ packet, packet ≠ []) (Mss.Apply clamp <$> payloads) = Mss.Apply clamp <$> payloads).
  { apply filter_Forall_id. apply Forall_fmap. eapply Forall_impl; [exact Hne|]. intros p Hp. cbn. by rewrite Apply_nil. }
  rewrite Hf. unfold pushIncomingDataBuffers. destruct (PushBatch_rep [] q l (Mss.Apply clamp <$> payloads) Hq) as (dropped & q' & Hpush & Hrep).
  rewrite length_fmap in Hrep. destruct (Mss.Apply clamp <$> payloads) as [|x xs] eqn:E; [|rewrite Hpush; cbn; by do 2 eexists].
  exists 0, q. split; [done|]. destruct payloads; [|done]. pose proof (qr_fits [] q l Hq). cbn [length]. replace (length l + 0 - capacity q)%nat with 0%nat by lia. by rewrite app_nil_r.
Qed.

(** The payloads a program is to see. *)
Definition isStaticPayload (payload : bytes) : Prop := payload ≠ [] ∧ payload ≠ openVPNDataChannelPingPayload.

#[export] Instance isStaticPayload_dec payload : Decision (isStaticPayload payload).
Proof. unfold isStaticPayload. apply _. Defined.

Lemma unframed_frames g payloads prepared times :
  Forall2 (framesTo dz range g) payloads prepared → length times = length payloads → unframed g (concat prepared) times = (filter isStaticPayload payloads, g).
Proof.
  intros Hall. revert times. induction Hall as [|payload frames payloads prepared (frame & -> & _ & Hdec) _ IH]; intros [|now times] Hlen; [done..|].
  cbn in Hlen. cbn [concat app unframed]. rewrite Hdec, IH by lia. rewrite filter_cons. f_equal. unfold staticPayload.
  destruct (decide (isStaticPayload payload)) as [[H1 H2]|Hno]; [by rewrite !bool_decide_false|].
  destruct (bool_decide_reflect (payload = [])) as [|H1]; [done|]. destruct (bool_decide_reflect (payload = openVPNDataChannelPingPayload)) as [|H2]; [done|].
  by destruct Hno.
Qed.

Lemma filter_static_nonEmpty clamp payloads : filter isStaticPayload (Mss.Apply clamp <$> nonEmpty payloads) = filter isStaticPayload (Mss.Apply clamp <$> payloads).
Proof.
  unfold nonEmpty. induction payloads as [|payload payloads IH]; [done|]. rewrite filter_cons, fmap_cons. destruct (decide (payload ≠ [])) as [Hne|He].
  - rewrite fmap_cons, !filter_cons. by rewrite IH.
  - apply dec_stable in He as ->. rewrite IH. assert (Mss.Apply clamp [] = []) as -> by by apply Apply_nil.
    rewrite filter_cons_False; [done|]. by intros [? _].
Qed.

Lemma unframed_nonempty f frames times : Forall (λ p, p ≠ []) (unframed f frames times).1.
Proof.
  revert f times. induction frames as [|frame frames IH]; intros f [|now times]; cbn; [constructor..|].
  destruct (decodeIncomingDataFraming dz range f frame now) as [r f']. specialize (IH f' times). destruct (unframed f' frames times) as [rest f'']. cbn [fst] in *.
  apply Forall_app. split; [|done]. unfold staticPayload. destruct r as [[p|]|]; cbn; [|constructor..].
  case_bool_decide; cbn; [constructor|]. case_bool_decide; cbn; by repeat constructor.
Qed.

(** What is delivered between ends that frame alike. *)
Lemma static_delivered o overhead f g now payloads (codec : C) header prepared logged f' times :
  outgoingDataPayloadBatches o overhead f now (nonEmpty payloads) codec header = Some (prepared, logged, f') → length times = length (concat prepared) →
  let '(delivered, g') := unframed g (concat prepared) times in
  Decompressors_laws dz → framingsAgree f g → (f ≠ None → Forall (λ payload, lenZ payload ≤ openVPNLZOMaxDecompressedSize) payloads) →
  let sent := calculateMSSClamp (dco_MSSFix o) (dco_MSSFixMode o) f codec header overhead in
  delivered = filter isStaticPayload (Mss.Apply sent <$> payloads) ∧ g' = g.
Proof.
  intros Hprep Hlen. destruct (unframed g (concat prepared) times) as [delivered g'] eqn:E. intros Hdz Hag Hsize sent.
  destruct (client_frames dz range o overhead f g now (nonEmpty payloads) codec header Hdz Hag) as (prepared' & f1 & Hprep' & _ & Hall).
  { intros Hf. specialize (Hsize Hf). rewrite Forall_forall in Hsize. apply Forall_forall. intros p [_ Hp]%list_elem_of_filter. by apply Hsize. }
  rewrite Hprep in Hprep'. injection Hprep' as <- _ _. rewrite (unframed_frames g _ _ times Hall) in E by (rewrite Hlen; by apply framesTo_length in Hall).
  injection E as <- <-. split; [apply filter_static_nonEmpty|done].
Qed.

(** C7: the path of data through a tunnel with a static key.  When one end has written a
    batch without an error and the packets arrive at the other end, all, in order and in
    one round of its loop, the round does not fail, and appends exactly the payloads that its
    framing makes of them, but for empty ones and pings, to the queue of the program,
    clamped and in order; the oldest entries of the queue give way exactly as far as it
    cannot hold all.  When both ends frame alike (not at all, or with the same compression
    and without fragments, and then no payload is larger than 65536 octets), these are the
    payloads that were written, clamped, without empty ones and pings.  The round goes on unless the
    peer was silent for too long or the connection failed, and both ends are ready for the
    next batch. *)
Theorem static_tunnel_end_to_end o protocol overhead o' overhead' connectionOriented pingRestart pingInterval
    random t1 t2 writePackets payloads (S S' R : staticPath (C := C)) packets prepared logged f round l :
  session_inv (sp_sessionManager S) → (∀ id, random_ok (random id)) →
  outgoingDataPayloadBatches o overhead (sp_framing S) t1 (nonEmpty payloads) (sp_dataCodec S) (dataTransportHeaderSize protocol) = Some (prepared, logged, f) →
  Forall (codecPayload (sp_dataCodec S)) (concat prepared) → lenZ (concat prepared) < 2 ^ 63 →
  staticWriteDataPackets o protocol overhead true random t1 t2 writePackets payloads S = Some (packets, None, S') →
  staticReceives (sp_dataCodec S) (sp_dataCodec R) (sm_localDataPacketID (sp_sessionManager S)) → queueRep [] (sp_incomingDataPackets R) l →
  sr_done round = false → sr_deadlineErr round = None → sa_raw <$> sr_arrivals round = packets →
  ∃ next R',
    staticReadRound o' protocol overhead' dz range connectionOriented pingRestart pingInterval round R = Some (next, R') ∧
    (let '(delivered, f') := unframed (sp_framing R) (concat prepared) (sa_framed <$> sr_arrivals round) in
     let clamp := calculateMSSClamp (dco_MSSFix o') (dco_MSSFixMode o') f' (sp_dataCodec R') (dataTransportHeaderSize protocol) overhead' in
     queueRep [] (sp_incomingDataPackets R') (drop (length l + length delivered - capacity (sp_incomingDataPackets R)) (l ++ (Mss.Apply clamp <$> delivered))) ∧
     (Decompressors_laws dz → framingsAgree (sp_framing S) (sp_framing R) →
      (sp_framing S ≠ None → Forall (λ payload, lenZ payload ≤ openVPNLZOMaxDecompressedSize) payloads) →
      let sent := calculateMSSClamp (dco_MSSFix o) (dco_MSSFixMode o) (sp_framing S) (sp_dataCodec S) (dataTransportHeaderSize protocol) overhead in
      delivered = filter isStaticPayload (Mss.Apply sent <$> payloads) ∧ f' = sp_framing R)) ∧
    (concat prepared ≠ [] → pingRestart ≤ 0 ∨ sr_checkedAt round < sr_receivedAt round + pingRestart →
     sr_readErr round = None ∨ (∃ e, sr_readErr round = Some (ListenerTimeout e)) → ∃ ping, next = StaticContinue ping) ∧
    session_inv (sp_sessionManager S') ∧
    staticReceives (sp_dataCodec S') (sp_dataCodec R') (sm_localDataPacketID (sp_sessionManager S')).
Proof.
  intros Hinv Hrnd Hprep Hpay Hint Hwrite Hrv Hq Hdone Hdl Harr.
  destruct (static_written _ _ _ _ _ _ _ _ _ _ _ _ _ _ Hinv Hint Hprep Hwrite) as (Hcodec & Hinv' & Hid & Hsent).
  rewrite <- Harr in Hsent. apply Forall2_fmap_r in Hsent.
  assert (Hbound : sm_localDataPacketID (sp_sessionManager S) + lenZ (concat prepared) ≤ 2 ^ 32) by (rewrite <- Hid; destruct Hinv' as [_ H]; unfold MaxUint32 in H; lia).
  pose proof (decode_many (sp_dataCodec S) connectionOriented R _ (concat prepared) (sr_arrivals round) random Hrv ltac:(destruct Hinv; lia) Hbound Hpay Hrnd Hsent) as Hdec.
  unfold staticReadRound. rewrite Hdone, Hdl. destruct (decodeStaticPackets dz range connectionOriented (sr_arrivals round) R) as [b R1].
  destruct Hdec as (Hb & Hfatal & Hauth & Hf & Hrec & Hqueue). rewrite Hb, Hfatal.
  set (R2 := if sb_authenticated b then R1 <| sp_lastInboundTime := sr_receivedAt round |> else R1).
  assert (HR2 : sp_dataCodec R2 = sp_dataCodec R1 ∧ sp_framing R2 = sp_framing R1 ∧ sp_incomingDataPackets R2 = sp_incomingDataPackets R1) by (subst R2; by destruct (sb_authenticated b)).
  destruct HR2 as (HR2c & HR2f & HR2q). rewrite HR2c, HR2f, HR2q, Hqueue, Hf.
  pose proof (unframed_nonempty (sp_framing R) (concat prepared) (sa_framed <$> sr_arrivals round)) as Hne.
  pose proof (static_delivered o overhead (sp_framing S) (sp_framing R) t1 payloads (sp_dataCodec S) (dataTransportHeaderSize protocol) prepared logged f (sa_framed <$> sr_arrivals round) Hprep) as Hdel.
  rewrite length_fmap in Hdel. apply Forall2_length in Hsent. rewrite length_zip_with, length_seqZ in Hsent. specialize (Hdel ltac:(unfold lenZ in *; lia)).
  destruct (unframed (sp_framing R) (concat prepared) _) as [delivered f']. cbn [fst snd] in *.
  set (clamp := calculateMSSClamp (dco_MSSFix o') (dco_MSSFixMode o') f' (sp_dataCodec R1) (dataTransportHeaderSize protocol) overhead').
  destruct (push_payloads clamp _ l delivered Hq Hne) as (dropped & q' & Hpush & Hrep).
  assert (Hhandle : ∃ d q'', handleIncomingDataPayloads o' overhead' f' (sp_incomingDataPackets R) delivered (sp_dataCodec R1) (dataTransportHeaderSize protocol) = Some (d, q'') ∧
    queueRep [] q'' (drop (length l + length delivered - capacity (sp_incomingDataPackets R)) (l ++ (Mss.Apply clamp <$> delivered)))).
  { unfold handleIncomingDataPayloads. destruct delivered as [|x xs]; [|by exists dropped, q'].
    cbn in Hpush. injection Hpush as <- <-. by exists 0, (sp_incomingDataPackets R). }
  destruct Hhandle as (d & q'' & -> & Hrep'). cbn [mbind option_bind].
  set (R3 := R2 <| sp_incomingDataPackets := q'' |>). assert (HR3 : sp_dataCodec R3 = sp_dataCodec R1) by exact HR2c.
  rewrite Hcodec, Hid.
  destruct (checkStaticKeepalive pingRestart pingInterval (sr_checkedAt round) R3) as [ping|err] eqn:Hk.
  - destruct (sr_readErr round) as [[]|] eqn:Hre; do 2 eexists; (split; [done|]); rewrite HR3; (split; [split; [exact Hrep'|exact Hdel]|]); (split; [|done]); intros _ _ [?|[? ?]]; simplify_eq; by eexists.
  - do 2 eexists. split; [done|]. rewrite HR3. split; [split; [exact Hrep'|exact Hdel]|]. split; [|done]. intros Hframes Hping _. exfalso.
    unfold checkStaticKeepalive in Hk. assert (HL : sp_lastInboundTime R3 = sr_receivedAt round) by (subst R3 R2; by rewrite (Hauth Hframes)).
    rewrite HL in Hk. destruct (Z.ltb_spec 0 pingRestart); cbn in Hk; [|done].
    destruct Hping as [?|Hlt]; [lia|]. apply Z.ltb_lt in Hlt. rewrite Hlt in Hk. done.
Qed.
End StaticTunnel.

(** ** Sessions that are configured alike *)

Lemma static_codecs_pair cr t1 t2 km ds dr cipherName authName w1 r1 w2 r2 a b :
  Crypto_laws cr → directionsMatch ds dr →
  newStaticKeyDataCodec cr t1 km ds cipherName authName w1 r1 = Ok a → newStaticKeyDataCodec cr t2 km dr cipherName authName w2 r2 = Ok b →
  codecPair a b ∧ codecWindow b = Some (newReplayWindow w2 r2).
Proof.
  intros Hcr Hdir. unfold newStaticKeyDataCodec, directionsMatch in *.
  destruct (resolveStaticKeyDirection ds) as [[si ri] fi], (resolveStaticKeyDirection dr) as [[sj rj] fj]. cbn in Hdir. subst rj. intros Ha Hb.
  apply result_bind_Ok in Ha as (n & Hn & Ha). rewrite Hn in Hb. cbn [mbind result_bind] in Hb.
  apply result_bind_Ok in Ha as ([hash size] & Hf & Ha). rewrite Hf in Hb. cbn [mbind result_bind] in Hb.
  apply result_bind_Ok in Ha as (sb & Hsend & Ha). inv_bind Ha. injection Ha as <-.
  apply result_bind_Ok in Hb as (tb & _ & Hb). rewrite Hsend in Hb. cbn [mbind result_bind] in Hb.
  apply result_bind_Ok in Hb as (cands & Hcands & Hb). injection Hb as <-. split; [|done].
  pose proof (u32_range t1). split_and!; cbn; try done; try lia.
  - destruct (negb (Bool.eqb fj si)); [inv_bind Hcands|]; by injection Hcands as <-.
  - by eapply newStaticCipherBlock_ok.
  - intros key m Hs. by eapply cl_hmac.
Qed.

(** The sessions of two ends with the same key, cipher and digest and opposite directions
    can exchange data from the start. *)
Lemma static_sessions_ready cr readFile readFile' t1 t2 id1 id2 c d km m1 codec1 m2 codec2 :
  Crypto_laws cr → directionsMatch (co_KeyDirection c) (co_KeyDirection d) →
  loadStaticKeyMaterialFromSource readFile (co_StaticKey c) = Ok km → loadStaticKeyMaterialFromSource readFile' (co_StaticKey d) = Ok km →
  cdo_Cipher (co_DataChannel c) = cdo_Cipher (co_DataChannel d) → cdo_Auth (co_DataChannel c) = cdo_Auth (co_DataChannel d) →
  newStaticKeyClientSession cr readFile t1 id1 c = Success (m1, codec1) → newStaticKeyClientSession cr readFile' t2 id2 d = Success (m2, codec2) →
  session_inv m1 ∧ sm_localDataPacketID m1 = 1 ∧ staticReceives codec1 codec2 1.
Proof.
  intros Hcr Hdir Hk1 Hk2 Hci Hau. unfold newStaticKeyClientSession, loadStaticKeyDataCodec. rewrite Hk1, Hk2, Hci, Hau. cbn [mbind result_bind].
  destruct id1 as [id1|]; [|done]. destruct id2 as [id2|]; [|done]. cbn [NewSessionManager mbind result_bind].
  destruct (dataReplayWindowParameters (cdo_ReplayWindow (co_DataChannel c)) _) as [w1 r1].
  assert (Hw : (dataReplayWindowParameters (cdo_ReplayWindow (co_DataChannel d)) (cdo_ReplayWindowTime (co_DataChannel d))).1 ≠ 0).
  { unfold dataReplayWindowParameters. destruct (Z.eqb_spec (cdo_ReplayWindow (co_DataChannel d)) 0); cbn; [done|done]. }
  destruct (dataReplayWindowParameters (cdo_ReplayWindow (co_DataChannel d)) _) as [w2 r2]. cbn [fst] in Hw.
  destruct (newStaticKeyDataCodec cr t1 _ _ _ _ _ _) as [a|] eqn:Ha; [|done]. destruct (newStaticKeyDataCodec cr t2 _ _ _ _ _ _) as [b|] eqn:Hb; [|done].
  intros [= <- <-] [= <- <-]. destruct (static_codecs_pair _ _ _ _ _ _ _ _ _ _ _ _ _ _ Hcr Hdir Ha Hb) as [Hp Hwin].
  split; [apply new_session_inv|]. split; [done|]. split; [done|]. exists (newReplayWindow w2 r2). by split_and!.
Qed.

(** ** The packet link *)

Record linkOk (l : staticServerPacketLink) : Prop := {
  lk_active s : pk_activeReader l = Some s ↔ pk_read l = Some (s, ReadArmed);
  lk_present s phase : pk_read l = Some (s, phase) → is_Some (pk_sessions l !! s);
  lk_closing s : s ∈ pk_interrupts l → is_Some (pk_sessions l !! s) ∧ pc_closed (sessionOf l s) = true;
  lk_deadline s : pk_read l = Some (s, ReadArmed) → pk_deadline l = pc_readDeadline (sessionOf l s) ∨ pc_closed (sessionOf l s) = true;
}.

Lemma sessionOf_alter l f s t : is_Some (pk_sessions l !! t) →
  default (mkPacketConnection 0 0 false) (alter f s (pk_sessions l) !! t) = if decide (s = t) then f (sessionOf l t) else sessionOf l t.
Proof.
  intros [c Hc]. unfold sessionOf. destruct (decide (s = t)) as [->|]; [rewrite lookup_alter_eq | rewrite lookup_alter_ne by done]; by rewrite Hc.
Qed.

Lemma alter_present (l : staticServerPacketLink) f s t : is_Some (alter f s (pk_sessions l) !! t) ↔ is_Some (pk_sessions l !! t).
Proof. destruct (decide (s = t)) as [->|]; [rewrite lookup_alter_eq | by rewrite lookup_alter_ne]. by rewrite fmap_is_Some. Qed.

Lemma linkOk_new l s : pk_sessions l !! s = None → linkOk l → linkOk (newLinkSession l s).
Proof.
  intros Hs [Ha Hp Hc Hd].
  assert (Hkeep : ∀ t, is_Some (pk_sessions l !! t) → sessionOf (newLinkSession l s) t = sessionOf l t ∧ is_Some (pk_sessions (newLinkSession l s) !! t)).
  { intros t [c Ht]. assert (s ≠ t) by congruence. unfold sessionOf, newLinkSession. cbn. rewrite lookup_insert_ne by done. split; [done | by eexists]. }
  constructor; cbn [newLinkSession pk_activeReader pk_read pk_interrupts].
  - exact Ha.
  - intros t phase Ht. by apply Hkeep, Hp with phase.
  - intros t Ht. destruct (Hc t Ht) as [H1 H2]. destruct (Hkeep t H1) as [-> ?]. done.
  - intros t Ht. destruct (Hkeep t (Hp t _ Ht)) as [-> _]. by apply Hd.
Qed.

Lemma linkOk_deadline l s deadline : linkOk l → linkOk (setReadDeadline l s deadline).
Proof.
  intros [Ha Hp Hc Hd]. unfold setReadDeadline.
  set (l1 := l <| pk_sessions := alter (λ c, c <| pc_readDeadline := deadline |>) s (pk_sessions l) |>).
  assert (Hso : ∀ t, is_Some (pk_sessions l !! t) → pc_closed (sessionOf l1 t) = pc_closed (sessionOf l t) ∧
    pc_readDeadline (sessionOf l1 t) = if decide (s = t) then deadline else pc_readDeadline (sessionOf l t)).
  { intros t Ht. unfold l1. unfold sessionOf at 1 3. cbn. rewrite (sessionOf_alter l _ s t Ht). by destruct (decide (s = t)). }
  change (pk_activeReader l1) with (pk_activeReader l).
  destruct (decide (pk_activeReader l = Some s)) as [Hact|Hact]; constructor; cbn [pk_activeReader pk_read pk_interrupts pk_deadline]; try exact Ha.
  1,4: intros t phase Ht; apply alter_present; by apply Hp with phase.
  1,3: intros t Ht; destruct (Hc t Ht) as [H1 H2]; (split; [by apply alter_present|]); destruct (Hso t H1) as [Hcl _]; unfold sessionOf in *; cbn in *; by rewrite Hcl.
  - intros t Ht. left. destruct (Hso t (Hp t _ Ht)) as [_ Hr]. unfold sessionOf in *. cbn in *. rewrite Hr.
    apply Ha in Ht. rewrite Hact in Ht. injection Ht as <-. by rewrite decide_True.
  - intros t Ht. destruct (Hso t (Hp t _ Ht)) as [Hcl Hr]. rewrite Hr, Hcl. rewrite decide_False by (intros ->; by apply Ha in Ht). by apply Hd.
Qed.

Lemma linkOk_close l s : is_Some (pk_sessions l !! s) → linkOk l → linkOk (closeLinkSession l s).
Proof.
  intros Hs [Ha Hp Hc Hd]. unfold closeLinkSession. destruct (pc_closed (sessionOf l s)) eqn:Hcl; [done|].
  set (l1 := l <| pk_sessions := _ |> <| pk_interrupts := _ |>).
  assert (Hso : ∀ t, is_Some (pk_sessions l !! t) → pc_readDeadline (sessionOf l1 t) = pc_readDeadline (sessionOf l t) ∧
    pc_closed (sessionOf l1 t) = if decide (s = t) then true else pc_closed (sessionOf l t)).
  { intros t Ht. unfold l1. unfold sessionOf at 1 3. cbn. rewrite (sessionOf_alter l _ s t Ht). by destruct (decide (s = t)). }
  constructor.
  - exact Ha.
  - intros t phase Ht. apply alter_present. by apply Hp with phase.
  - intros t [->|Ht]%elem_of_cons.
    + split; [by apply alter_present|]. destruct (Hso s Hs) as [_ ->]. by rewrite decide_True.
    + destruct (Hc t Ht) as [H1 H2]. split; [by apply alter_present|]. destruct (Hso t H1) as [_ ->]. by destruct (decide (s = t)).
  - intros t Ht. destruct (Hso t (Hp t _ Ht)) as [-> ->]. change (pk_deadline l1) with (pk_deadline l).
    destruct (decide (s = t)); [by right | by apply Hd].
Qed.

Lemma linkStep_ok s l l' : linkStep s l l' → linkOk l → linkOk l'.
Proof.
  intros Hstep Hok. destruct Hstep as [l s Hs|l s Hs Hr|l s Hr|l s Hr|l s Hr|l s deadline|l s Hs|l s rest now Hi].
  - by apply linkOk_new.
  - destruct Hok as [Ha Hp Hc Hd]. constructor; cbn.
    + intros t. split; [intros Ht; apply Ha in Ht; congruence | congruence].
    + intros t phase Ht. by simplify_eq.
    + exact Hc.
    + congruence.
  - destruct Hok as [Ha Hp Hc Hd]. unfold checkRead. constructor; cbn.
    + intros t. split; [intros Ht; apply Ha in Ht; congruence | destruct (pc_closed _); congruence].
    + intros t phase Ht. destruct (pc_closed _); simplify_eq. by apply Hp with ReadLocked.
    + exact Hc.
    + intros t. destruct (pc_closed (sessionOf l s)); congruence.
  - destruct Hok as [Ha Hp Hc Hd]. unfold armRead. constructor; cbn.
    + intros t. split; congruence.
    + intros t phase Ht. simplify_eq. by apply Hp with ReadChecked.
    + exact Hc.
    + intros t Ht. simplify_eq. by left.
  - destruct Hok as [Ha Hp Hc Hd]. unfold finishRead. rewrite decide_True by (by apply Ha). constructor; cbn; [by split | done | exact Hc | done].
  - by apply linkOk_deadline.
  - by apply linkOk_close.
  - destruct Hok as [Ha Hp Hc Hd].
    assert (Hin : ∀ t, t ∈ rest → t ∈ pk_interrupts l) by (intros t Ht; rewrite <- Hi; by constructor).
    assert (Hs : s ∈ pk_interrupts l) by (rewrite <- Hi; constructor).
    unfold interruptRead. destruct (decide (pk_activeReader l = Some s)) as [Hact|Hact]; constructor; cbn; try done.
    1,3: intros t Ht; by apply Hc, Hin.
    intros t Ht. right. apply Ha in Ht. rewrite Hact in Ht. injection Ht as <-. by apply Hc.
Qed.

(** C9: sessions with a static key that follow one another on one socket do not disturb
    each other.  At most one session reads, the socket's deadline is then the one that
    session last set unless it has been closed, and while it reads nothing another session
    does (being made, waiting for its turn, setting a deadline, closing, and the
    interrupt that follows) moves the deadline or ends the read.  The interrupt of the
    session's own close ends it at once. *)
Theorem link_reads_isolated l :
  rtc (λ l l', ∃ s, linkStep s l l') newPacketLink l →
  ∀ s, pk_read l = Some (s, ReadArmed) →
    (pk_deadline l = pc_readDeadline (sessionOf l s) ∨ pc_closed (sessionOf l s) = true) ∧
    (∀ t l', linkStep t l l' → t ≠ s → pk_read l' = Some (s, ReadArmed) ∧ pk_deadline l' = pk_deadline l ∧ sessionOf l' s = sessionOf l s) ∧
    ∀ now, pk_deadline (interruptRead l s now) = now.
Proof.
  intros Hrun. assert (Hok : linkOk l).
  { apply (rtc_ind_r (λ l, linkOk l)) in Hrun; [exact Hrun | constructor; cbn; [by split | done | by intros s ?%not_elem_of_nil | done] |]. intros y z _ [s Hstep]. by apply linkStep_ok with s. }
  intros s Hs. pose proof Hok as [Ha Hp Hc Hd]. split_and!; [by apply Hd | |].
  - assert (Hact : pk_activeReader l = Some s) by by apply Ha. pose proof (Hp s _ Hs) as Hpres. clear Hrun Hok Ha Hp Hc Hd.
    assert (Hkeep : ∀ f t, t ≠ s → default (mkPacketConnection 0 0 false) (alter f t (pk_sessions l) !! s) = sessionOf l s)
      by (intros f t Ht; rewrite sessionOf_alter by done; by rewrite decide_False).
    intros t l' Hstep Ht. destruct Hstep as [l t Hn|l t _ Hr|l t Hr|l t Hr|l t Hr|l t deadline|l t _|l t rest now Hi]; try congruence.
    + cbn. split_and!; [done | done |]. unfold sessionOf. cbn. by rewrite lookup_insert_ne.
    + unfold setReadDeadline. cbn. rewrite decide_False by congruence. cbn. split_and!; [done | done |]. unfold sessionOf at 1. cbn. by apply Hkeep.
    + unfold closeLinkSession. destruct (pc_closed _); [done|]. cbn. split_and!; [done | done |]. unfold sessionOf at 1. cbn. by apply Hkeep.
    + unfold interruptRead. rewrite decide_False by congruence. done.
  - intros now. unfold interruptRead. rewrite decide_True by (by apply Ha). done.
Qed.

(** ** Witnesses *)

Definition staticEnd (direction : Z) : staticKeyDataCodec :=
  match newStaticKeyDataCodec exampleCrypto 1000 exampleKeyMaterial direction "AES-128-CBC" "SHA256" 64 0 with Ok c => c | Err _ => exampleStatic end.

Definition staticPathOf (direction : Z) : staticPath :=
  mkStaticPath (NewSessionManagerWithLocalID zeroSessionID) (staticEnd direction) None (newDataPacketQueueWithCapacity [] 4) 0 0.

Definition noClamp : dataChannelOptions := mkDCO 0 "" 0.

Definition staticSent : list bytes :=
  match staticWriteDataPackets noClamp "udp" 28 true (λ _, exampleRandom) 1 2 (λ packets, (lenZ packets, None)) [[x61; x62]; []; [x63]] (staticPathOf 0) with
  | Some (packets, _, _) => packets
  | None => []
  end.

Definition staticSentRound : staticRound := mkStaticRound false None ((λ raw, mkStaticArrival raw 5 5 5) <$> staticSent) None 6 7.

Lemma static_tunnel_end_to_end_witness :
  ∃ next R', staticReadRound noClamp "udp" 28 exampleDecompressors map_to_list false 10 0 staticSentRound (staticPathOf 1) = Some (next, R') ∧ ∃ ping, next = StaticContinue ping.
Proof.
  destruct (static_tunnel_end_to_end exampleDecompressors map_to_list noClamp "udp" 28 noClamp 28 false 10 0 (λ _, exampleRandom) 1 2 (λ packets, (lenZ packets, None))
    [[x61; x62]; []; [x63]] (staticPathOf 0)
    ((staticPathOf 0) <| sp_sessionManager := (NewDataPacketIDs (NewSessionManagerWithLocalID zeroSessionID) OpcodeDataV1 2).2 |> <| sp_lastOutboundTime := 2 |>)
    (staticPathOf 1) staticSent [[[x61; x62]]; [[x63]]] [] None staticSentRound []) as (next & R' & Hround & _ & Hgo & _).
  - apply new_session_inv.
  - intros _. apply exampleRandom_ok.
  - vm_compute. reflexivity.
  - repeat constructor.
  - done.
  - vm_compute. reflexivity.
  - destruct (static_codecs_pair exampleCrypto 1000 1000 exampleKeyMaterial 0 1 "AES-128-CBC" "SHA256" 64 0 64 0 (staticEnd 0) (staticEnd 1)) as [Hp Hw];
      [apply exampleCrypto_laws | done | vm_compute; reflexivity | vm_compute; reflexivity |].
    split; [exact Hp|]. exists (newReplayWindow 64 0). by split_and!.
  - apply newDataPacketQueueWithCapacity_rep. lia.
  - done.
  - done.
  - vm_compute. reflexivity.
  - exists next, R'. split; [exact Hround|]. apply Hgo; [done | right; cbn; lia | by left].
Defined.

(** Two sessions, of which the second reads. *)
Definition readingLink : staticServerPacketLink :=
  armRead (checkRead ((setReadDeadline (newLinkSession (newLinkSession newPacketLink 0) 1) 1 70) <| pk_read := Some (1%nat, ReadLocked) |>) 1) 1.

Lemma link_reads_isolated_witness :
  pk_deadline (closeLinkSession readingLink 0) = 70 ∧ pk_deadline (interruptRead readingLink 1 9) = 9.
Proof.
  assert (Hrun : rtc (λ l l', ∃ s, linkStep s l l') newPacketLink readingLink).
  { eapply rtc_l; [exists 0%nat; apply LinkNew; reflexivity|]. eapply rtc_l; [exists 1%nat; apply LinkNew; reflexivity|].
    eapply rtc_l; [exists 1%nat; apply (LinkDeadline _ 1 70)|]. eapply rtc_l; [exists 1%nat; apply LinkLock; [by eexists | reflexivity]|].
    eapply rtc_l; [exists 1%nat; apply LinkCheck; reflexivity|]. apply rtc_once. exists 1%nat. apply LinkArm. reflexivity. }
  destruct (link_reads_isolated readingLink Hrun 1 eq_refl) as (_ & Hother & Hend). split; [|apply Hend].
  apply (Hother 0%nat (closeLinkSession readingLink 0)); [apply LinkClose; by eexists | done].
Defined.
