(* ===== verification/Lifecycle.v ===== *)
(** * The life of a client's session ([client_session_tls.go], [peer_session.go],
      [client_session_static.go])

    How a session is brought up, and what it holds while it is brought up and closed by
    goroutines of their own: [tlsClientStart] is the order in which [Start] does its work,
    and the step relations below are the atomic parts of [Initialize], [Start], [Fail] and
    [Close], in every interleaving. *)

From S2P Require Import Prelude GoStrings Packet Session Netip Crypto Codec CodecLaws ControlWrap KeyMethod Options Negotiation TunnelConfig Auth Supervisor KeyState DataQueue ControlChannel DataPath Keepalive ClientSession Static.

(** ** Bringing up a session with TLS *)

(** What [Start] does to the world, in order. *)
Inductive startEffect :=
| ClientChannelInstalled (wrappedClientKey : option bytes) (seed : Packet)
| ClientRecordWritten (payload : bytes)
| ClientCodecInstalled (codec : tlsDataCodec) (keyID : Z) (keepalive : tlsClientKeepalive)
| ClientReady
| ClientLoopsStarted
| ClientSessionClosed.

(** How a TLS handshake fails: on a deadline, with the text of its error, or otherwise. *)
Inductive handshakeFailure := HandshakeTimedOut (text : string) | HandshakeFailed (e : goerr).

(** What the handshake meets: whether there are a connection and a context, the outcome of
    the resets with the session manager after them, the installation of the channel, the
    deadline, the TLS handshake, the exchange of key methods, the pull or the export of the
    peer id, the exported key material and the readings of the clock. *)
Record startIO := mkStartIO {
  si_initialized : bool;
  si_reset : result Packet;
  si_manager : SessionManager;
  si_resendWrappedClientKey : bool;
  si_wrappedClientKey : bytes;
  si_installed : bool;
  si_exhausted : bool;
  si_setDeadline : option goerr;
  si_handshake : option handshakeFailure;
  si_random : nat → nat → result bytes;
  si_written : option goerr;
  si_read : readOutcome;
  si_remoteHost : Addr;
  si_pullNow : Time;
  si_pullWritten : option goerr;
  si_pullRounds : list pullRound;
  si_exportedPeerID : result bytes;
  si_exported : result bytes;
  si_unixNow : Z;
  si_now : Time;
}.

Section Start.
Context (cr : Crypto) (GOOS : string).

(** The cipher and digest of the data channel: from the server, or agreed on.  [None] is
    a pull that still waits or panics. *)
Definition negotiateDataChannel (io : startIO) (c : tlsClient) : option (outcome (string * string) * tlsClient) :=
  if cpo_Enabled (co_Pull (tk_options c)) then
    let c := c <| tk_parent := setInitialTunnelEventDeferred (tk_parent c) true |> in
    match pullConfigurationAndCipher (si_remoteHost io) c (si_pullNow io) (si_pullWritten io) (si_pullRounds io) with
    | PullReturn o final => Some (o, (pl_client final) <| tk_parent := setInitialTunnelEventDeferred (tk_parent (pl_client final)) false |>)
    | _ => None
    end
  else Some (configureP2PDataChannel (si_exportedPeerID io) c).

(** The keepalive of a session that starts to carry data. *)
Definition startKeepalive (io : startIO) (c : tlsClient) (selectedCipher : string) (k : tlsClientKeepalive) : tlsClientKeepalive :=
  let now := si_now io in
  let k := clientConfigureRenegotiation (co_Timing (tk_options c)) k selectedCipher (CurrentKeyID (si_manager io)) now in
  refreshFromTunnelConfiguration (tk_configuration c) (resetInactivityTimer (clientMarkActivity (noteSessionStart k now) true true now) now).

(** The end of [Start], once the data channel is agreed on. *)
Definition startDataChannel (io : startIO) (k : tlsClientKeepalive) (selectedCipher selectedAuth : string) (c : tlsClient)
    : option (list startEffect * outcome unit * tlsClient) :=
  a ← clearChallengeOwnedBy (tk_authentication c) (OwnerSession (tk_session c));
  let c := c <| tk_authentication := a |> in
  let d := co_DataChannel (tk_options c) in
  match (selectedCipher ← tlsValidateServerPushedCipher (tk_options c) selectedCipher;
         keyMaterial ← clientDeriveKeyMaterial cr (si_exported io) (si_manager io) c;
         codec ← newTLSDataCodec cr (si_unixNow io) keyMaterial false selectedCipher selectedAuth (cdo_ReplayWindow d) (cdo_ReplayWindowTime d);
         Ok (selectedCipher, codec)) with
  | Err e => Some ([ClientSessionClosed], Failure (Plain e), c)
  | Ok (selectedCipher, codec) =>
      let effects := [ClientCodecInstalled codec (CurrentKeyID (si_manager io)) (startKeepalive io c selectedCipher k); ClientReady] in
      let c := c <| tk_parent := (emitTunnelConfigurationEvent (tk_parent c) TunnelConfigurationEventInitial).2 |> in
      Some (effects ++ [ClientLoopsStarted], Success (), c)
  end.

Definition tlsHandshakeError (failed : option handshakeFailure) : option goerr :=
  match failed with
  | None => None
  | Some (HandshakeTimedOut text) => Some (ErrExtend ErrHandshakeTimeout text)
  | Some (HandshakeFailed e) => Some e
  end.

(** [Start].  [None]: it waits for the server, or a signal of the authentication panics. *)
Definition tlsClientStart (io : startIO) (k : tlsClientKeepalive) (c : tlsClient) : option (list startEffect * outcome unit * tlsClient) :=
  let failed effects e c := Some (effects ++ [ClientSessionClosed], Failure e, c) in
  if negb (si_initialized io) then Some ([], Failure (Plain ErrDataChannelNotReady), c) else
  match si_reset io with
  | Err e => failed [] (Plain e) c
  | Ok serverResetPacket =>
      let k := clientMarkActivity k true true (si_now io) in
      if negb (si_installed io) then failed [] (Plain net_ErrClosed) c else
      let effects := [ClientChannelInstalled (if si_resendWrappedClientKey io then Some (si_wrappedClientKey io) else None) serverResetPacket] in
      if si_exhausted io then failed effects (Plain (ErrExtend ErrHandshakeTimeout "tls control handshake budget exhausted")) c else
      match si_setDeadline io, tlsHandshakeError (si_handshake io) with
      | Some e, _ | None, Some e => failed effects (Plain e) c
      | None, None =>
          let '(payloads, exchanged, c) := exchangeKeyMethod GOOS (si_random io) (si_written io) (si_read io) c in
          let effects := effects ++ (ClientRecordWritten <$> payloads) in
          match exchanged with
          | Failure e => failed effects e c
          | Success _ =>
              '(negotiated, c) ← negotiateDataChannel io c;
              match negotiated with
              | Failure e => failed effects e c
              | Success (selectedCipher, selectedAuth) =>
                  '(more, o, c) ← startDataChannel io k selectedCipher selectedAuth c; Some (effects ++ more, o, c)
              end
          end
      end
  end.

End Start.

(** ** What a session holds *)

(** A context, a connection, the loops of a control channel, a sender of messages. *)
Inductive resource := Absent | Live | Released.

#[export] Instance resource_eq_dec : EqDecision resource.
Proof. solve_decision. Defined.

Definition free (r : resource) : resource := match r with Live => Released | r => r end.

(** How far [Initialize] and [Start] are; they are called one after the other. *)
Inductive bringUp :=
| NotInitialized | Configuring | Dialling | Dialled | Installed | InitializeFailed | Initialized
| Starting | StartFailed | Started.

(** How far the body of [Close] is, with what it found of the connection, the sender and
    the channel, and the renegotiations whose channels it is to close. *)
Inductive closing := Open | MarkedClosed | Refusing | Collected (connection sender channel : bool) | SenderStopped (connection channel : bool)
| Terminated (connection channel : bool) | ConnectionClosed (channel : bool) | Failing (channel : bool) (states : list nat) | Closed.

#[export] Instance bringUp_eq_dec : EqDecision bringUp.
Proof. solve_decision. Defined.

#[export] Instance closing_eq_dec : EqDecision closing.
Proof. solve_decision. Defined.

(** The control channels of the renegotiations, by their sequence numbers: those the
    session has registered, those a goroutine has taken out and is about to close, and those
    whose sender runs.  [rl_refused] is [renegotiationsClosed]. *)
Record renegotiationChannels := mkChannels {
  rl_refused : bool;
  rl_registered : gset nat;
  rl_leaving : gset nat;
  rl_running : gset nat;
}.

#[export] Instance eta_renegotiationChannels : Eta renegotiationChannels := λ c,
  mkChannels (rl_refused c) (rl_registered c) (rl_leaving c) (rl_running c).

(** The critical section of [beginSoftReset] that makes a state; [replaced] is the one that
    had its key id. *)
Definition startRenegotiation (q : nat) (replaced : option nat) (c : renegotiationChannels) : renegotiationChannels :=
  let out : gset nat := match replaced with Some r => {[ r ]} | None => ∅ end in
  c <| rl_registered := {[ q ]} ∪ rl_registered c ∖ out |> <| rl_leaving := rl_leaving c ∪ out |> <| rl_running := {[ q ]} ∪ rl_running c |>.

(** [removeRenegotiationLocked] by a goroutine that then closes the channel. *)
Definition takeRenegotiation (q : nat) (c : renegotiationChannels) : renegotiationChannels :=
  c <| rl_registered := rl_registered c ∖ {[ q ]} |> <| rl_leaving := {[ q ]} ∪ rl_leaving c |>.

Definition closeRenegotiation (q : nat) (c : renegotiationChannels) : renegotiationChannels :=
  c <| rl_leaving := rl_leaving c ∖ {[ q ]} |> <| rl_running := rl_running c ∖ {[ q ]} |>.

(** The critical section of [failAllRenegotiations]; the channels are closed after it. *)
Definition takeAllRenegotiations (c : renegotiationChannels) : list nat * renegotiationChannels :=
  (elements (rl_registered c), c <| rl_refused := true |> <| rl_registered := ∅ |>).

Record sessionLife := mkLife {
  lf_phase : bringUp;
  lf_closing : closing;
  lf_context : resource;
  lf_connection : resource;
  lf_installed : bool;
  lf_channel : resource;
  lf_sender : resource;
  lf_closed : bool;
  lf_ready : bool;
  lf_done : list (option goerr);
  lf_renegotiations : renegotiationChannels;
}.

#[export] Instance eta_sessionLife : Eta sessionLife := λ l,
  mkLife (lf_phase l) (lf_closing l) (lf_context l) (lf_connection l) (lf_installed l) (lf_channel l) (lf_sender l) (lf_closed l) (lf_ready l) (lf_done l)
    (lf_renegotiations l).

Definition newSessionLife : sessionLife := mkLife NotInitialized Open Absent Absent false Absent Absent false false [] (mkChannels false ∅ ∅ ∅).

Definition initializing (phase : bringUp) : bool :=
  match phase with Configuring | Dialling | Dialled | Installed => true | _ => false end.

(** [Initialize] gives up: what it has made is released. *)
Definition abandonInitialize (l : sessionLife) : sessionLife :=
  l <| lf_context := free (lf_context l) |> <| lf_connection := free (lf_connection l) |> <| lf_phase := InitializeFailed |>.

(** [installPacketConnection], or the last lock of a static session's [Initialize]. *)
Definition installConnection (l : sessionLife) : sessionLife :=
  if lf_closed l then abandonInitialize l else l <| lf_installed := true |> <| lf_phase := Installed |>.

(** The check of the context at the end of [Initialize]; [expired] is whether a context
    above the session's is done. *)
Definition checkSessionContext (expired : bool) (l : sessionLife) : sessionLife :=
  if expired || bool_decide (lf_context l = Released) then abandonInitialize l else l <| lf_phase := Initialized |>.

(** [dataChannelMessages]. *)
Definition obtainSender (l : sessionLife) : sessionLife :=
  if lf_closed l then l else l <| lf_sender := match lf_sender l with Absent => Live | r => r end |>.

(** The value of [done] is sent once. *)
Definition sendDone (err : option goerr) (l : sessionLife) : sessionLife :=
  match lf_done l with [] => l <| lf_done := [err] |> | _ => l end.

Definition collect (l : sessionLife) : closing :=
  Collected (lf_installed l) (bool_decide (lf_sender l ≠ Absent)) (bool_decide (lf_channel l ≠ Absent)).

Definition stopSender (sender : bool) (l : sessionLife) : sessionLife := if sender then l <| lf_sender := free (lf_sender l) |> else l.
Definition closeInstalled (connection : bool) (l : sessionLife) : sessionLife := if connection then l <| lf_connection := free (lf_connection l) |> else l.
Definition closeChannel (channel : bool) (l : sessionLife) : sessionLife := if channel then l <| lf_channel := free (lf_channel l) |> else l.

(** *** A session with TLS *)

Definition tlsFinish (err : option goerr) (l : sessionLife) : sessionLife :=
  (sendDone err (l <| lf_ready := false |>)) <| lf_context := free (lf_context l) |>.

(** [installInitialControlChannel], which starts the loops of the channel. *)
Definition installChannel (l : sessionLife) : sessionLife := if lf_closed l then l else l <| lf_channel := Live |>.

Abbreviation onRenegotiations f l := (l <| lf_renegotiations := f (lf_renegotiations l) |>) (only parsing).

(** A renegotiation is begun by the client or its peer, and is taken out when it fails,
    expires, is pruned or is replaced.  One that fails after it was taken out closes its
    channel again. *)
Inductive tlsLifeStep : sessionLife → sessionLife → Prop :=
| TLSBegin l : lf_phase l = NotInitialized → lf_installed l = false → tlsLifeStep l (l <| lf_context := Live |> <| lf_phase := Configuring |>)
| TLSConfigure l : lf_phase l = Configuring → tlsLifeStep l (l <| lf_phase := Dialling |>)
| TLSDial l : lf_phase l = Dialling → tlsLifeStep l (l <| lf_connection := Live |> <| lf_phase := Dialled |>)
| TLSAbandon l : lf_phase l ∈ [Configuring; Dialling; Dialled] → tlsLifeStep l (abandonInitialize l)
| TLSInstall l : lf_phase l = Dialled → tlsLifeStep l (installConnection l)
| TLSCheck l expired : lf_phase l = Installed → tlsLifeStep l (checkSessionContext expired l)
| TLSStart l : lf_phase l = Initialized → tlsLifeStep l (l <| lf_phase := Starting |>)
| TLSChannel l : lf_phase l = Starting → lf_channel l = Absent → tlsLifeStep l (installChannel l)
| TLSReady l : lf_phase l = Starting → lf_channel l ≠ Absent → tlsLifeStep l (l <| lf_ready := true |> <| lf_phase := Started |>)
| TLSStartFailed l : lf_phase l = Starting → lf_closing l = Closed → tlsLifeStep l (l <| lf_phase := StartFailed |>)
| TLSSender l : tlsLifeStep l (obtainSender l)
| TLSFinish l err : tlsLifeStep l (tlsFinish err l)
| TLSMark l : lf_closing l = Open → lf_done l ≠ [] → tlsLifeStep l (l <| lf_closed := true |> <| lf_closing := MarkedClosed |>)
| TLSRefuse l : lf_closing l = MarkedClosed → tlsLifeStep l ((onRenegotiations (λ c, c <| rl_refused := true |>) l) <| lf_closing := Refusing |>)
| TLSCollect l : lf_closing l = Refusing → tlsLifeStep l (l <| lf_closing := collect l |>)
| TLSStop l connection sender channel : lf_closing l = Collected connection sender channel →
    tlsLifeStep l ((stopSender sender l) <| lf_closing := SenderStopped connection channel |>)
| TLSTerminate l connection channel : lf_closing l = SenderStopped connection channel →
    tlsLifeStep l (l <| lf_context := free (lf_context l) |> <| lf_closing := Terminated connection channel |>)
| TLSDisconnect l connection channel : lf_closing l = Terminated connection channel →
    tlsLifeStep l ((closeInstalled connection l) <| lf_closing := ConnectionClosed channel |>)
| TLSFail l channel : lf_closing l = ConnectionClosed channel →
    tlsLifeStep l (l <| lf_renegotiations := (takeAllRenegotiations (lf_renegotiations l)).2 |>
                     <| lf_closing := Failing channel (takeAllRenegotiations (lf_renegotiations l)).1 |>)
| TLSFailOne l channel q states : lf_closing l = Failing channel (q :: states) →
    tlsLifeStep l ((onRenegotiations (closeRenegotiation q) l) <| lf_closing := Failing channel states |>)
| TLSClose l channel : lf_closing l = Failing channel [] → tlsLifeStep l ((closeChannel channel l) <| lf_closing := Closed |>)
| TLSRenegotiate l q replaced : lf_channel l ≠ Absent → rl_refused (lf_renegotiations l) = false →
    q ∉ rl_registered (lf_renegotiations l) ∪ rl_leaving (lf_renegotiations l) ∪ rl_running (lf_renegotiations l) →
    (∀ r, replaced = Some r → r ∈ rl_registered (lf_renegotiations l)) → tlsLifeStep l (onRenegotiations (startRenegotiation q replaced) l)
| TLSTake l q : q ∈ rl_registered (lf_renegotiations l) → tlsLifeStep l (onRenegotiations (takeRenegotiation q) l)
| TLSLeave l q : q ∉ rl_registered (lf_renegotiations l) → tlsLifeStep l (onRenegotiations (closeRenegotiation q) l).

(** *** A session with a static key *)

Definition staticFinish (err : option goerr) (l : sessionLife) : sessionLife := sendDone err (l <| lf_ready := false |>).

(** The lock of [Start]. *)
Definition staticStart (expired : bool) (l : sessionLife) : sessionLife :=
  if lf_closed l || expired || bool_decide (lf_context l = Released) then l <| lf_phase := StartFailed |> else l <| lf_ready := true |> <| lf_phase := Started |>.

Inductive staticLifeStep : sessionLife → sessionLife → Prop :=
| StaticBegin l : lf_phase l = NotInitialized →
    staticLifeStep l (if lf_closed l then abandonInitialize (l <| lf_context := Live |>) else l <| lf_context := Live |> <| lf_phase := Dialling |>)
| StaticDial l : lf_phase l = Dialling → staticLifeStep l (l <| lf_connection := Live |> <| lf_phase := Dialled |>)
| StaticAbandon l : lf_phase l ∈ [Dialling; Dialled] → staticLifeStep l (abandonInitialize l)
| StaticInstall l : lf_phase l = Dialled → staticLifeStep l (installConnection l)
| StaticCheck l expired : lf_phase l = Installed → staticLifeStep l (checkSessionContext expired l)
| StaticStart l expired : lf_phase l = Initialized → staticLifeStep l (staticStart expired l)
| StaticSender l : staticLifeStep l (obtainSender l)
| StaticFinish' l err : staticLifeStep l (staticFinish err l)
| StaticMark l : lf_closing l = Open →
    staticLifeStep l (l <| lf_closed := true |> <| lf_ready := false |> <| lf_closing := collect l |>)
| StaticStop l connection sender channel : lf_closing l = Collected connection sender channel →
    staticLifeStep l ((stopSender sender l) <| lf_closing := SenderStopped connection channel |>)
| StaticTerminate l connection channel : lf_closing l = SenderStopped connection channel →
    staticLifeStep l (l <| lf_context := free (lf_context l) |> <| lf_closing := Terminated connection channel |>)
| StaticDisconnect l connection channel : lf_closing l = Terminated connection channel →
    staticLifeStep l ((closeInstalled connection l) <| lf_closing := Closed |>).

(** ** Nothing is left behind *)

(** What the body of [Close] knows of the connection, the sender and the channel at each
    stage: it will release them, or has. *)
Definition connectionHandled (l : sessionLife) : Prop :=
  match lf_closing l with
  | Collected b _ _ | SenderStopped b _ | Terminated b _ => lf_installed l = true → b = true
  | ConnectionClosed _ | Failing _ _ | Closed => lf_installed l = true → lf_connection l ≠ Live
  | _ => True
  end.

Definition senderHandled (l : sessionLife) : Prop :=
  match lf_closing l with Open | MarkedClosed | Refusing => True | Collected _ b _ => lf_sender l ≠ Absent → b = true | _ => lf_sender l ≠ Live end.

Definition channelHandled (l : sessionLife) : Prop :=
  match lf_closing l with
  | Collected _ _ b | SenderStopped _ b | Terminated _ b | ConnectionClosed b | Failing b _ => lf_channel l ≠ Absent → b = true
  | Closed => lf_channel l ≠ Live
  | _ => True
  end.

(** Once the context has been cancelled, only an [Initialize] that began later has one. *)
Definition contextHandled (l : sessionLife) : Prop :=
  match lf_closing l with
  | Terminated _ _ | ConnectionClosed _ | Failing _ _ | Closed => lf_context l = Live → lf_phase l ∈ [Configuring; Dialling; Dialled]
  | _ => True
  end.

Record lifeOk (l : sessionLife) : Prop := {
  lo_done : (length (lf_done l) ≤ 1)%nat;
  lo_closed : lf_closed l = bool_decide (lf_closing l ≠ Open);
  lo_connection : lf_connection l = Live → lf_installed l = true ∨ lf_phase l = Dialled;
  lo_installed : lf_installed l = true → lf_phase l ∉ [NotInitialized; Configuring; Dialling; Dialled];
  lo_abandoned : lf_phase l = InitializeFailed → lf_connection l ≠ Live ∧ lf_context l ≠ Live;
  lo_fresh : lf_phase l = NotInitialized → lf_context l ≠ Live;
  lo_connectionHandled : connectionHandled l;
  lo_senderHandled : senderHandled l;
  lo_channelHandled : channelHandled l;
  lo_contextHandled : contextHandled l;
}.

Lemma free_not_live r : free r ≠ Live.
Proof. by destruct r. Qed.

Lemma free_Live r : free r = Live → False.
Proof. by destruct r. Qed.

Ltac lifeCases l :=
  destruct l as [phase0 closing0 context0 connection0 installed0 channel0 sender0 closed0 ready0 done0 channels0];
  cbn [lf_phase lf_closing lf_context lf_connection lf_installed lf_channel lf_sender lf_closed lf_ready lf_done lf_renegotiations] in *; simplify_eq.

Lemma abandon_ok l : lifeOk l → initializing (lf_phase l) = true → lifeOk (abandonInitialize l).
Proof.
  intros [H1 H2 H3 H4 H5 H6 H7 H8 H9 H10] Hphase. lifeCases l. constructor; cbn; try done.
  - by intros ?%free_Live.
  - set_solver.
  - intros _. split; apply free_not_live.
  - unfold connectionHandled in *. cbn in *. destruct closing0; try done; intros; apply free_not_live.
  - unfold contextHandled. cbn. destruct closing0; try done; by intros ?%free_Live.
Qed.

Lemma install_ok l : lifeOk l → lf_phase l = Dialled → lifeOk (installConnection l).
Proof.
  intros Hok Hphase. unfold installConnection. destruct (lf_closed l) eqn:Hc; [by apply abandon_ok; [|rewrite Hphase]|].
  destruct Hok as [H1 H2 H3 H4 H5 H6 H7 H8 H9 H10]. lifeCases l. destruct closing0; try done.
  constructor; cbn; try done; [by left | set_solver].
Qed.

Lemma check_ok expired l : lifeOk l → lf_phase l = Installed → lifeOk (checkSessionContext expired l).
Proof.
  intros Hok Hphase. unfold checkSessionContext. destruct (expired || _); [by apply abandon_ok; [|rewrite Hphase]|].
  destruct Hok as [H1 H2 H3 H4 H5 H6 H7 H8 H9 H10]. lifeCases l. constructor; cbn; try done.
  - intros Hl. destruct (H3 Hl); [by left | done].
  - set_solver.
  - unfold contextHandled in *. cbn in *. destruct closing0; set_solver.
Qed.

(** A step that only moves from one later phase of the bring-up to another. *)
Lemma phase_ok l phase : lifeOk l → lf_phase l ∈ [Initialized; Starting] → phase ∈ [Starting; StartFailed; Started] → lifeOk (l <| lf_phase := phase |>).
Proof.
  intros [H1 H2 H3 H4 H5 H6 H7 H8 H9 H10] Hphase Hnew. lifeCases l. constructor; cbn; try done.
  - intros Hl. destruct (H3 Hl) as [|Hd]; [by left | set_solver].
  - set_solver.
  - set_solver.
  - set_solver.
  - unfold contextHandled in *. cbn in *. destruct closing0; try done; intros Hl; specialize (H10 Hl); set_solver.
Qed.

Lemma ready_ok l ready : lifeOk l → lifeOk (l <| lf_ready := ready |>).
Proof. intros [H1 H2 H3 H4 H5 H6 H7 H8 H9 H10]. by constructor. Qed.

Lemma sender_ok l : lifeOk l → lifeOk (obtainSender l).
Proof.
  intros Hok. unfold obtainSender. destruct (lf_closed l) eqn:Hc; [done|].
  destruct Hok as [H1 H2 H3 H4 H5 H6 H7 H8 H9 H10]. lifeCases l. by destruct closing0; try done; constructor.
Qed.

Lemma done_ok l err : lifeOk l → lifeOk (sendDone err l).
Proof. intros [H1 H2 H3 H4 H5 H6 H7 H8 H9 H10]. unfold sendDone. destruct (lf_done l) eqn:Hd; constructor; cbn; try done; try lia; by rewrite Hd. Qed.

Lemma cancel_ok l : lifeOk l → lifeOk (l <| lf_context := free (lf_context l) |>).
Proof.
  intros [H1 H2 H3 H4 H5 H6 H7 H8 H9 H10]. lifeCases l. constructor; cbn; try done.
  - intros Hp. split; [by apply H5 | apply free_not_live].
  - intros _. apply free_not_live.
  - unfold contextHandled. cbn. destruct closing0; try done; by intros ?%free_Live.
Qed.

Lemma channel_ok l : lifeOk l → lifeOk (installChannel l).
Proof.
  intros Hok. unfold installChannel. destruct (lf_closed l) eqn:Hc; [done|].
  destruct Hok as [H1 H2 H3 H4 H5 H6 H7 H8 H9 H10]. lifeCases l. by destruct closing0; try done; constructor.
Qed.

(** The stages of [Close]. *)
Lemma mark_ok l : lifeOk l → lf_closing l = Open → lifeOk (l <| lf_closed := true |> <| lf_closing := MarkedClosed |>).
Proof. intros [H1 H2 H3 H4 H5 H6 H7 H8 H9 H10] Hc. lifeCases l. by constructor. Qed.

Lemma collect_ok l : lifeOk l → lf_closing l ∈ [Open; Refusing] → lifeOk (l <| lf_closed := true |> <| lf_closing := collect l |>).
Proof.
  intros [H1 H2 H3 H4 H5 H6 H7 H8 H9 H10] Hc. lifeCases l.
  constructor; cbn; try done; unfold senderHandled, channelHandled, connectionHandled, collect; cbn; intros; try done; by rewrite bool_decide_eq_true_2.
Qed.

Lemma stop_ok l connection sender channel : lifeOk l → lf_closing l = Collected connection sender channel →
  lifeOk ((stopSender sender l) <| lf_closing := SenderStopped connection channel |>).
Proof.
  intros [H1 H2 H3 H4 H5 H6 H7 H8 H9 H10] Hc. lifeCases l. unfold senderHandled, stopSender in *. cbn in *.
  destruct sender; constructor; cbn; try done; unfold senderHandled; cbn; [apply free_not_live|].
  intros ->. by specialize (H8 ltac:(done)).
Qed.

Lemma terminate_ok l connection channel : lifeOk l → lf_closing l = SenderStopped connection channel →
  lifeOk (l <| lf_context := free (lf_context l) |> <| lf_closing := Terminated connection channel |>).
Proof.
  intros [H1 H2 H3 H4 H5 H6 H7 H8 H9 H10] Hc. lifeCases l. constructor; cbn; try done.
  - intros Hp. split; [by apply H5 | apply free_not_live].
  - intros _. apply free_not_live.
  - by intros ?%free_Live.
Qed.

Lemma closeInstalled_fields connection l :
  lf_phase (closeInstalled connection l) = lf_phase l ∧ lf_context (closeInstalled connection l) = lf_context l ∧ lf_installed (closeInstalled connection l) = lf_installed l ∧
  lf_channel (closeInstalled connection l) = lf_channel l ∧ lf_sender (closeInstalled connection l) = lf_sender l ∧ lf_done (closeInstalled connection l) = lf_done l ∧
  lf_closed (closeInstalled connection l) = lf_closed l.
Proof. by destruct connection. Qed.

Lemma disconnect_ok l connection channel next : lifeOk l → lf_closing l = Terminated connection channel →
  next = ConnectionClosed channel ∨ (next = Closed ∧ lf_channel l = Absent) → lifeOk ((closeInstalled connection l) <| lf_closing := next |>).
Proof.
  intros [H1 H2 H3 H4 H5 H6 H7 H8 H9 H10] Hc Hnext. destruct (closeInstalled_fields connection l) as (E1 & E2 & E3 & E4 & E5 & E6 & E7).
  unfold connectionHandled, senderHandled, channelHandled, contextHandled in *. rewrite Hc in *.
  assert (Hlive : lf_connection (closeInstalled connection l) = Live → lf_connection l = Live) by (destruct connection; [by intros ?%free_Live | done]).
  assert (Hgone : lf_installed l = true → lf_connection (closeInstalled connection l) ≠ Live) by (intros Hi; rewrite (H7 Hi); apply free_not_live).
  constructor; cbn; rewrite ?E1, ?E2, ?E3, ?E6, ?E7; try done.
  - rewrite H2. by destruct Hnext as [->|[-> _]].
  - intros Hl. by apply H3, Hlive.
  - intros Hp. destruct (H5 Hp) as [Ha Hb]. split; [by intros ?%Hlive | done].
  - unfold connectionHandled. cbn. rewrite E3. by destruct Hnext as [->|[-> _]].
  - unfold senderHandled. cbn. rewrite E5. by destruct Hnext as [->|[-> _]].
  - unfold channelHandled. cbn. rewrite E4. by destruct Hnext as [->|[-> ->]].
  - unfold contextHandled. cbn. rewrite E1, E2. by destruct Hnext as [->|[-> _]].
Qed.

Lemma closeChannel_ok l channel : lifeOk l → lf_closing l = Failing channel [] → lifeOk ((closeChannel channel l) <| lf_closing := Closed |>).
Proof.
  intros [H1 H2 H3 H4 H5 H6 H7 H8 H9 H10] Hc. lifeCases l. unfold channelHandled, closeChannel in *. cbn in *.
  destruct channel; constructor; cbn; try done; unfold channelHandled; cbn.
  - apply free_not_live.
  - intros ->. by specialize (H9 ltac:(done)).
Qed.

(** A phase in the first lines of [Initialize]. *)
Ltac earlyPhase := repeat first [apply list_elem_of_here | apply list_elem_of_further].

(** A new context while [Initialize] begins. *)
Lemma begin_ok l phase : lifeOk l → lf_phase l = NotInitialized → phase ∈ [Configuring; Dialling] → lifeOk (l <| lf_context := Live |> <| lf_phase := phase |>).
Proof.
  intros [H1 H2 H3 H4 H5 H6 H7 H8 H9 H10] Hp Hnew. lifeCases l.
  assert (Hi : installed0 = false) by (destruct installed0; [set_solver | done]). subst.
  rewrite elem_of_cons, list_elem_of_singleton in Hnew.
  constructor; cbn; try done.
  - intros Hl. by destruct (H3 Hl).
  - by destruct Hnew; subst.
  - by destruct Hnew; subst.
  - unfold contextHandled. cbn. destruct closing0; try done; intros _; destruct Hnew; subst; earlyPhase.
Qed.

Lemma configure_ok l : lifeOk l → lf_phase l = Configuring → lifeOk (l <| lf_phase := Dialling |>).
Proof.
  intros [H1 H2 H3 H4 H5 H6 H7 H8 H9 H10] Hp. lifeCases l.
  assert (Hi : installed0 = false) by (destruct installed0; [set_solver | done]). subst.
  constructor; cbn; try done.
  - intros Hl. by destruct (H3 Hl).
  - unfold contextHandled. cbn. destruct closing0; try done; intros _; earlyPhase.
Qed.

Lemma dial_ok l : lifeOk l → lf_phase l = Dialling → lifeOk (l <| lf_connection := Live |> <| lf_phase := Dialled |>).
Proof.
  intros [H1 H2 H3 H4 H5 H6 H7 H8 H9 H10] Hp. lifeCases l.
  assert (Hi : installed0 = false) by (destruct installed0; [set_solver | done]). subst.
  constructor; cbn; try done; try (by right).
  - by destruct closing0.
  - destruct closing0; try done; intros _; earlyPhase.
Qed.

Lemma new_ok : lifeOk newSessionLife.
Proof. constructor; cbn; try done. lia. Qed.

(** The renegotiations do not concern the rest. *)
Lemma renegotiations_ok l c : lifeOk l → lifeOk (l <| lf_renegotiations := c |>).
Proof. intros [H1 H2 H3 H4 H5 H6 H7 H8 H9 H10]. by constructor. Qed.

Lemma refuse_ok l : lifeOk l → lf_closing l = MarkedClosed → lifeOk (l <| lf_closing := Refusing |>).
Proof. intros [H1 H2 H3 H4 H5 H6 H7 H8 H9 H10] Hc. lifeCases l. by constructor. Qed.

Lemma failing_ok l channel states :
  lifeOk l → (lf_closing l = ConnectionClosed channel ∨ ∃ before, lf_closing l = Failing channel before) → lifeOk (l <| lf_closing := Failing channel states |>).
Proof. intros [H1 H2 H3 H4 H5 H6 H7 H8 H9 H10] [Hc|[before Hc]]; lifeCases l; by constructor. Qed.

Lemma tlsLifeStep_ok l l' : tlsLifeStep l l' → lifeOk l → lifeOk l'.
Proof.
  intros Hstep Hok. destruct Hstep as [l Hp _|l Hp|l Hp|l Hp|l Hp|l e Hp|l Hp|l Hp _|l Hp _|l Hp _|l|l err|l Hc _|l Hc|l Hc|l a b c Hc|l a b Hc|l a b Hc|l a Hc|l a q states Hc|l a Hc|l q replaced _ _ _ _|l q _|l q _].
  - apply begin_ok; [done.. | set_solver].
  - by apply configure_ok.
  - by apply dial_ok.
  - apply abandon_ok; [done|]. destruct (lf_phase l); set_solver.
  - by apply install_ok.
  - by apply check_ok.
  - apply phase_ok; [done | rewrite Hp; set_solver | set_solver].
  - by apply channel_ok.
  - apply (phase_ok (l <| lf_ready := true |>)); [by apply ready_ok | cbn; rewrite Hp; set_solver | set_solver].
  - apply phase_ok; [done | rewrite Hp; set_solver | set_solver].
  - by apply sender_ok.
  - assert (Hf : lf_context l = lf_context (sendDone err (l <| lf_ready := false |>))) by (unfold sendDone; cbn; by destruct (lf_done l)).
    unfold tlsFinish. rewrite Hf. by apply cancel_ok, done_ok, ready_ok.
  - by apply mark_ok.
  - by apply (refuse_ok (l <| lf_renegotiations := _ |>)), Hc; apply renegotiations_ok.
  - assert (Hcl : l <| lf_closing := collect l |> = l <| lf_closed := true |> <| lf_closing := collect l |>) by (destruct Hok as [_ Hcl]; destruct l; cbn in *; by subst).
    rewrite Hcl. apply collect_ok; [done | rewrite Hc; set_solver].
  - by apply stop_ok.
  - by apply terminate_ok.
  - by eapply disconnect_ok; [| | left].
  - apply (failing_ok (l <| lf_renegotiations := _ |>)); [by apply renegotiations_ok | by left].
  - apply (failing_ok (l <| lf_renegotiations := _ |>)); [by apply renegotiations_ok | right; by eexists].
  - by apply closeChannel_ok.
  - by apply renegotiations_ok.
  - by apply renegotiations_ok.
  - by apply renegotiations_ok.
Qed.

(** *** The renegotiations *)

(** The renegotiations [Close] is to fail. *)
Definition failing (c : closing) : gset nat := match c with Failing _ states => list_to_set states | _ => ∅ end.

Record channelsOk (l : sessionLife) : Prop := {
  ch_running : rl_running (lf_renegotiations l) ⊆ rl_registered (lf_renegotiations l) ∪ rl_leaving (lf_renegotiations l) ∪ failing (lf_closing l);
  ch_refused : lf_closing l ≠ Open → lf_closing l ≠ MarkedClosed → rl_refused (lf_renegotiations l) = true;
  ch_gone : match lf_closing l with Failing _ _ | Closed => rl_registered (lf_renegotiations l) = ∅ | _ => True end;
}.

(** Steps that leave the renegotiations as they are, in a stage of [Close] that does not
    deal with them. *)
Lemma channels_same l l' :
  lf_renegotiations l' = lf_renegotiations l → failing (lf_closing l') = failing (lf_closing l) →
  (lf_closing l' ≠ Open → lf_closing l' ≠ MarkedClosed → lf_closing l ≠ Open ∧ lf_closing l ≠ MarkedClosed) →
  match lf_closing l' with Failing _ _ | Closed => match lf_closing l with Failing _ _ | Closed => True | _ => False end | _ => True end →
  channelsOk l → channelsOk l'.
Proof.
  intros Er Ef Hr Hg [H1 H2 H3]. constructor; rewrite Er; [by rewrite Ef | intros Ho Hm; destruct (Hr Ho Hm); by apply H2 |].
  destruct (lf_closing l'); try done; by destruct (lf_closing l).
Qed.

Lemma closing_same l l' : lf_renegotiations l' = lf_renegotiations l → lf_closing l' = lf_closing l → channelsOk l → channelsOk l'.
Proof. intros Er Ec [H1 H2 H3]. by constructor; rewrite Er, Ec. Qed.

Lemma channels_ok l l' : tlsLifeStep l l' → channelsOk l → channelsOk l'.
Proof.
  intros Hstep Hok. destruct Hstep as [l Hp _|l Hp|l Hp|l Hp|l Hp|l e Hp|l Hp|l Hp _|l Hp _|l Hp _|l|l err|l Hc _|l Hc|l Hc|l a b c Hc|l a b Hc|l a b Hc|l a Hc|l a q states Hc|l a Hc|l q replaced _ Hnr Hq Hrep|l q Hq|l q Hq];
    try (by apply (closing_same l)).
  - apply (closing_same l); [| | done]; unfold installConnection; by destruct (lf_closed l).
  - apply (closing_same l); [| | done]; unfold checkSessionContext; by destruct (_ || _).
  - apply (closing_same l); [| | done]; unfold installChannel; by destruct (lf_closed l).
  - apply (closing_same l); [| | done]; unfold obtainSender; by destruct (lf_closed l).
  - apply (closing_same l); [| | done]; unfold tlsFinish, sendDone; cbn; by destruct (lf_done l).
  - apply (channels_same l); cbn; rewrite ?Hc; try done.
  - destruct Hok as [H1 _ _]. rewrite Hc in H1. by constructor.
  - apply (channels_same l); cbn; rewrite ?Hc; try done.
  - apply (channels_same l); unfold stopSender; destruct b; cbn; rewrite ?Hc; try done.
  - apply (channels_same l); cbn; rewrite ?Hc; try done.
  - apply (channels_same l); unfold closeInstalled; destruct a; cbn; rewrite ?Hc; try done.
  - destruct Hok as [H1 _ _]. rewrite Hc in H1. constructor; cbn; [|done|done]. cbn in H1. rewrite list_to_set_elements_L. set_solver.
  - destruct Hok as [H1 H2 H3]. rewrite Hc in *. constructor; cbn in *; [set_solver|intros; by apply H2|done].
  - apply (channels_same l); unfold closeChannel; destruct a; cbn; rewrite ?Hc; try done.
  - destruct Hok as [H1 H2 H3]. constructor; cbn.
    + intros x Hx. assert (Hx' : x = q ∨ x ∈ rl_running (lf_renegotiations l)) by set_solver. destruct replaced as [r|]; [destruct (decide (x = r))|]; set_solver.
    + intros Ho Hm. by rewrite H2 in Hnr.
    + destruct (lf_closing l) eqn:E; try done; by rewrite (H2 ltac:(done) ltac:(done)) in Hnr.
  - destruct Hok as [H1 H2 H3]. constructor; cbn; [|done|].
    + intros x Hx. destruct (decide (x = q)); set_solver.
    + destruct (lf_closing l); try done; set_solver.
  - destruct Hok as [H1 H2 H3]. constructor; cbn; [|done|done]. set_solver.
Qed.

(** A static session has no channel, and is not ready once it is closed. *)
Record staticLifeOk (l : sessionLife) : Prop := {
  so_life : lifeOk l;
  so_channel : lf_channel l = Absent;
  so_ready : lf_closed l = true → lf_ready l = false;
}.

Lemma static_start_ok expired l : lifeOk l → lf_phase l = Initialized →
  lifeOk (staticStart expired l) ∧ lf_channel (staticStart expired l) = lf_channel l ∧
  ((lf_closed l = true → lf_ready l = false) → lf_closed (staticStart expired l) = true → lf_ready (staticStart expired l) = false).
Proof.
  intros Hok Hp. unfold staticStart. destruct (lf_closed l) eqn:Hcl; cbn [orb]; [|destruct (expired || _)].
  - split_and!; [apply phase_ok; [done | rewrite Hp; earlyPhase | earlyPhase] | done | cbn; auto].
  - split_and!; [apply phase_ok; [done | rewrite Hp; earlyPhase | earlyPhase] | done | cbn; congruence].
  - split_and!; [apply (phase_ok (l <| lf_ready := true |>)); [by apply ready_ok | cbn; rewrite Hp; earlyPhase | earlyPhase] | done | cbn; congruence].
Qed.

Lemma staticLifeStep_ok l l' : staticLifeStep l l' → staticLifeOk l → staticLifeOk l'.
Proof.
  intros Hstep [Hok Hch Hr]. destruct Hstep as [l Hp|l Hp|l Hp|l Hp|l e Hp|l e Hp|l|l err|l Hc|l a b c Hc|l a b Hc|l a b Hc].
  - assert (Hb : lifeOk (l <| lf_context := Live |> <| lf_phase := Dialling |>)) by (apply begin_ok; [done.. | earlyPhase]).
    destruct (lf_closed l) eqn:Hcl; constructor; try done; cbn; rewrite ?Hcl; auto.
    exact (abandon_ok (l <| lf_context := Live |> <| lf_phase := Dialling |>) Hb eq_refl).
  - constructor; try done. by apply dial_ok.
  - constructor; try done. apply abandon_ok; [done|]. destruct (lf_phase l); set_solver.
  - constructor; [by apply install_ok | |]; unfold installConnection; destruct (lf_closed l) eqn:Hcl; cbn; rewrite ?Hcl; auto.
  - constructor; [by apply check_ok | |]; unfold checkSessionContext; by destruct (_ || _).
  - destruct (static_start_ok e l Hok Hp) as (H1 & H2 & H3). constructor; [done | congruence | auto].
  - constructor; [by apply sender_ok | |]; unfold obtainSender; destruct (lf_closed l) eqn:Hcl; cbn; rewrite ?Hcl; auto.
  - constructor; [by apply done_ok, ready_ok | |]; unfold staticFinish, sendDone; cbn; by destruct (lf_done l).
  - assert (Hc' : lf_closing (l <| lf_ready := false |>) ∈ [Open; Refusing]) by (cbn; rewrite Hc; earlyPhase).
    constructor; try done. exact (collect_ok (l <| lf_ready := false |>) (ready_ok _ _ Hok) Hc').
  - constructor; [by apply stop_ok | |]; unfold stopSender; by destruct b.
  - constructor; try done. by apply terminate_ok.
  - constructor; [eapply disconnect_ok; [done | exact Hc | by right] | |]; unfold closeInstalled; by destruct a.
Qed.

(** What is left of a closed session that is not being initialized. *)
Lemma closed_holds_nothing l : lifeOk l → lf_closing l = Closed → initializing (lf_phase l) = false →
  lf_connection l ≠ Live ∧ lf_context l ≠ Live ∧ lf_channel l ≠ Live ∧ lf_sender l ≠ Live.
Proof.
  intros [H1 H2 H3 H4 H5 H6 H7 H8 H9 H10] Hc Hp. unfold connectionHandled, senderHandled, channelHandled, contextHandled in *. rewrite Hc in *.
  split_and!; try done.
  - intros Hl. destruct (H3 Hl) as [Hi|Hd]; [by apply H7 | by rewrite Hd in Hp].
  - intros Hl. specialize (H10 Hl). destruct (lf_phase l); set_solver.
Qed.

(** C10: a client's session leaves nothing behind.  In every interleaving of one goroutine
    that initializes and starts a session, of any number that fail, close or use it, and
    of the body of [Close], a session that has been closed and is not being initialized
    has no open connection, no live context, no running control channel and no running
    sender of messages: whatever was made was released by [Close], or by [Initialize] when
    the close came first.  No renegotiation is registered any more, none can begin, and a
    control channel of one that still runs is about to be closed by the goroutine that took
    the renegotiation out.  The end of the session is reported at most once, and a session
    with TLS has reported it.  A session with a static key is never ready once it is
    closed. *)
Theorem closed_session_leaves_nothing l :
  (rtc tlsLifeStep newSessionLife l →
   (length (lf_done l) ≤ 1)%nat ∧
   (lf_closing l = Closed → initializing (lf_phase l) = false →
    lf_connection l ≠ Live ∧ lf_context l ≠ Live ∧ lf_channel l ≠ Live ∧ lf_sender l ≠ Live ∧ lf_done l ≠ [] ∧
    rl_registered (lf_renegotiations l) = ∅ ∧ rl_refused (lf_renegotiations l) = true ∧ rl_running (lf_renegotiations l) ⊆ rl_leaving (lf_renegotiations l))) ∧
  (rtc staticLifeStep newSessionLife l →
   (length (lf_done l) ≤ 1)%nat ∧ (lf_closed l = true → lf_ready l = false) ∧
   (lf_closing l = Closed → initializing (lf_phase l) = false →
    lf_connection l ≠ Live ∧ lf_context l ≠ Live ∧ lf_sender l ≠ Live)).
Proof.
  split; intros Hrun.
  - assert (Hok : lifeOk l ∧ (lf_closing l ≠ Open → lf_done l ≠ [])).
    { apply (rtc_ind_r (λ l, lifeOk l ∧ (lf_closing l ≠ Open → lf_done l ≠ []))) in Hrun; [exact Hrun | split; [exact new_ok | done] |].
      intros y z _ Hstep [IH Hd]. split; [by eapply tlsLifeStep_ok|].
      destruct Hstep; cbn; try done; try (intros _; apply Hd; congruence).
      - unfold installConnection. by destruct (lf_closed l0).
      - unfold checkSessionContext. by destruct (_ || _).
      - unfold installChannel. by destruct (lf_closed l0).
      - unfold obtainSender. by destruct (lf_closed l0).
      - unfold sendDone. cbn. destruct (lf_done l0) eqn:E; cbn; [done|]. rewrite E. done.
      - unfold stopSender. destruct sender; intros _; apply Hd; congruence.
      - unfold closeInstalled. destruct connection; intros _; apply Hd; congruence.
      - unfold closeChannel. destruct channel; intros _; apply Hd; congruence. }
    destruct Hok as [Hok Hd]. split; [by apply lo_done|]. intros Hc Hp. destruct (closed_holds_nothing l Hok Hc Hp) as (? & ? & ? & ?).
    assert (Hch : channelsOk l).
    { apply (rtc_ind_r channelsOk) in Hrun; [exact Hrun | by constructor |]. intros y z _ Hstep IH. by eapply channels_ok. }
    destruct Hch as [G1 G2 G3]. rewrite Hc in *. cbn [failing] in *. split_and!; try done; [apply Hd; congruence | by apply G2 | set_solver].
  - assert (Hok : staticLifeOk l).
    { apply (rtc_ind_r staticLifeOk) in Hrun; [exact Hrun | by constructor; [exact new_ok | |] |]. intros y z _ Hstep IH. by eapply staticLifeStep_ok. }
    destruct Hok as [Hok _ Hr]. split_and!; [by apply lo_done | done |]. intros Hc Hp. by destruct (closed_holds_nothing l Hok Hc Hp) as (? & ? & ? & ?).
Qed.

(** A session with TLS that is closed while [Start] is about to return is ready for the
    client that looks, until its supervisor has noticed the end: [Start] sets the flag
    without looking at whether the session was closed. *)
Definition overtakenStart : sessionLife := mkLife Started Closed Released Released true Released Absent true true [None] (mkChannels true ∅ ∅ ∅).

Lemma overtaken_start_ready : rtc tlsLifeStep newSessionLife overtakenStart.
Proof.
  eapply rtc_l; [by apply TLSBegin|]. eapply rtc_l; [by apply TLSConfigure|]. eapply rtc_l; [by apply TLSDial|]. eapply rtc_l; [by apply TLSInstall|].
  eapply rtc_l; [by apply (TLSCheck _ false)|]. eapply rtc_l; [by apply TLSStart|]. eapply rtc_l; [by apply TLSChannel|]. eapply rtc_l; [by apply (TLSFinish _ None)|].
  eapply rtc_l; [by apply TLSMark|]. eapply rtc_l; [by apply TLSRefuse|]. eapply rtc_l; [by apply TLSCollect|]. eapply rtc_l; [by apply TLSStop|]. eapply rtc_l; [by apply TLSTerminate|].
  eapply rtc_l; [by apply TLSDisconnect|]. eapply rtc_l; [by apply TLSFail|]. eapply rtc_l; [by apply TLSClose|]. apply rtc_once. by apply TLSReady.
Qed.

(** ** Witness *)

Lemma closed_session_leaves_nothing_witness :
  lf_connection overtakenStart ≠ Live ∧ lf_context overtakenStart ≠ Live ∧ lf_channel overtakenStart ≠ Live ∧ lf_ready overtakenStart = true.
Proof.
  destruct (proj2 (proj1 (closed_session_leaves_nothing overtakenStart) overtaken_start_ready) eq_refl eq_refl) as (H1 & H2 & H3 & _).
  split_and!; [exact H1 | exact H2 | exact H3 | reflexivity].
Defined.
