(* ===== verification/TLSConfig.v ===== *)
(** * The configuration of TLS ([tls_config.go])

    From the options of an end to the configuration it gives to [crypto/tls]: the trust
    store, the certificate of the end itself, the versions and suites, and the callback
    that verifies the certificates of the peer.  Reading files, parsing and the trust
    stores are those of the system and of the libraries, the record [TLSLibrary]. *)

From S2P Require Import Prelude GoStrings Netip Packet Session Crypto Codec ControlWrap Options Negotiation Admission Auth Supervisor CertSubject Certificates Keys.

Open Scope string_scope.
Open Scope Z_scope.

(** [certificatePool]: the two stores are what was appended to them. *)
Record certificatePool := mkPool { cp_standard : bytes; cp_legacy : bytes; cp_certificates : list Certificate }.

(** What belongs to the system and the libraries: files, PEM blocks and certificates,
    whether a store takes a bundle, the chain of a certificate with its key, and the
    verification with a trust store. *)
Record TLSLibrary := mkTLSLibrary {
  tl_Stat : string → option goerr;
  tl_ReadFile : string → result bytes;
  tl_PemDecode : bytes → option (string * bytes * bytes);
  tl_ParseCertificates : bytes → result (list Certificate);
  tl_ParseCertificate : bytes → result Certificate;
  tl_AppendStandard : bytes → bool;
  tl_AppendLegacy : bytes → bool;
  tl_X509KeyPair : bytes → bytes → result (list bytes);
  tl_Trust : option certificatePool → X509;
}.

(** [tls.ClientAuthType]. *)
Inductive ClientAuthType := NoClientCert | RequestClientCert | RequireAnyClientCert.

#[export] Instance ClientAuthType_eq_dec : EqDecision ClientAuthType.
Proof. solve_decision. Defined.

Definition resolveVerifyClientCertMode (value : string) : result ClientAuthType :=
  if decide (value ∈ [""; "require"]) then Ok RequireAnyClientCert else
  if decide (value = "optional") then Ok RequestClientCert else
  if decide (value = "none") then Ok NoClientCert else
  Err (ErrNew ("verify-client-cert must be 'none', 'optional' or 'require', got: " +:+ value)).

(** [tls.Config].  The callback reads the revocation lists when it is called, from the
    files there are then. *)
Record tlsConfig := mkTLSConfig {
  cfg_Certificates : list (list bytes);
  cfg_Roots : option bytes;
  cfg_ClientAuth : ClientAuthType;
  cfg_MinVersion : Z;
  cfg_MaxVersion : Z;
  cfg_CipherSuites : list Z;
  cfg_CurvePreferences : list Z;
  cfg_InsecureSkipVerify : bool;
  cfg_VerifyPeerCertificate : option ((string → result bytes) → list bytes → Time → option clientErr);
}.

Section Configuration.
Context (lib : TLSLibrary).

(** ** The trust store and the certificate *)

(** The loop over the blocks of a bundle. *)
Fixpoint poolLoop (fuel : nat) (remaining : bytes) (certificates : list Certificate) : result (list Certificate) :=
  match fuel, remaining with
  | O, _ | _, [] => Ok certificates
  | S fuel, _ =>
      match tl_PemDecode lib remaining with
      | None => Ok certificates
      | Some (blockType, blockBytes, rest) =>
          if negb (bool_decide (blockType = "CERTIFICATE")) then poolLoop fuel rest certificates else
          parsedCertificates ← tl_ParseCertificates lib blockBytes;
          poolLoop fuel rest (certificates ++ parsedCertificates)
      end
  end.

Definition invalidBundle : goerr := ErrNew "invalid certificate authority bundle".

Definition loadCertPool (certificateAuthority : Material) : result (option certificatePool) :=
  if negb (IsSet certificateAuthority) then Ok None else
  certificateAuthorityData ← loadMaterial (tl_ReadFile lib) certificateAuthority;
  if negb (tl_AppendStandard lib certificateAuthorityData) then Err invalidBundle else
  if negb (tl_AppendLegacy lib certificateAuthorityData) then Err invalidBundle else
  certificates ← poolLoop (length certificateAuthorityData) certificateAuthorityData [];
  if negb (hasAny certificates) then Err invalidBundle else
  Ok (Some (mkPool certificateAuthorityData certificateAuthorityData certificates)).

Definition requireCAOrPeerFingerprint (roots : option certificatePool) (peerFingerprints : list string) : result unit :=
  match roots with
  | Some _ => Ok ()
  | None => if hasAny peerFingerprints then Ok () else Err ErrMissingCAOrPeerFingerprint
  end.

Fixpoint parseLocalChain (rawCertificates : list bytes) : result (list Certificate) :=
  match rawCertificates with
  | [] => Ok []
  | raw :: rawCertificates => certificate ← tl_ParseCertificate lib raw; rest ← parseLocalChain rawCertificates; Ok (certificate :: rest)
  end.

Definition loadOptionalClientCertificate (certificateMaterial key : Material) (certificateProfile : string) : result (list (list bytes)) :=
  if negb (IsSet certificateMaterial) && negb (IsSet key) then Ok [] else
  certificatePEM ← loadMaterial (tl_ReadFile lib) certificateMaterial;
  keyPEM ← loadMaterial (tl_ReadFile lib) key;
  parsedCertificate ← tl_X509KeyPair lib certificatePEM keyPEM;
  localChain ← parseLocalChain parsedCertificate;
  match enforceCertificateProfile localChain certificateProfile with
  | Some e => Err e
  | None => Ok [parsedCertificate]
  end.

(** ** The callback *)

Definition statCRL (o : TLSOptions) : result unit :=
  if negb (nonEmpty (tls_CRLVerify o)) then Ok () else match tl_Stat lib (tls_CRLVerify o) with Some e => Err e | None => Ok () end.

(** What both ends read from their options after the certificates: key usages, whether
    the extension is required, extended usages, versions, suites and curves. *)
Record tlsSettings := mkSettings {
  ts_keyUsage : list Z;
  ts_requireExtension : bool;
  ts_extendedUsage : list (list Z);
  ts_versionMin : Z;
  ts_versionMax : Z;
  ts_cipherSuites : list Z;
  ts_curves : list Z;
}.

Definition parseTLSSettings (o : TLSOptions) (certProfile : string) : result tlsSettings :=
  requiredKeyUsage ← parseRemoteCertKeyUsages (tls_RemoteCertificateKU o);
  requiredExtUsage ← parseRemoteCertExtKeyUsage (tls_RemoteCertificateEKU o);
  '(requireKeyUsageExtension, shorthandExtUsage) ← expandRemoteCertTLS (tls_RemoteCertificateTLS o);
  '(tlsVersionMin, tlsVersionMax) ← resolveTLSVersionBounds (tls_VersionMin o) (tls_VersionMax o);
  tlsCipherSuites ← parseTLSCipherSuites (tls_Cipher o);
  tlsCurvePreferences ← parseTLSGroups (tls_Groups o);
  Ok (mkSettings requiredKeyUsage requireKeyUsageExtension (mergeExtendedKeyUsage requiredExtUsage shorthandExtUsage)
        tlsVersionMin tlsVersionMax (applyCertificateProfileTLSCipherDefault certProfile tlsCipherSuites) tlsCurvePreferences).

Definition peerVerifier (o : TLSOptions) (roots : option certificatePool) (purpose : certificatePurpose) (certProfile : string) (settings : tlsSettings)
    (readFile : string → result bytes) : peerCertificateVerifierOptions :=
  mkVerifier (isSome roots) purpose (bytesOf (tls_VerifyX509Name o)) (tls_VerifyX509Type o) (tls_PeerFingerprint o)
    (if nonEmpty (tls_CRLVerify o) then Some (readFile (tls_CRLVerify o)) else None)
    (ts_keyUsage settings) (ts_requireExtension settings) (ts_extendedUsage settings) (tls_NSCertificateType o) certProfile.

(** An error of the verification is marked as one, once. *)
Definition verificationError (e : goerr) : clientErr :=
  if Is (Plain e) ErrPeerCertificateVerification then Plain e else Joined (Plain ErrPeerCertificateVerification) (Plain e).

Definition verifyPeer (o : TLSOptions) (roots : option certificatePool) (purpose : certificatePurpose) (certProfile : string) (settings : tlsSettings)
    (readFile : string → result bytes) (rawCertificates : list bytes) (now : Time) : option clientErr :=
  verificationError <$> Verify (tl_Trust lib roots) (peerVerifier o roots purpose certProfile settings readFile) rawCertificates now.

(** ** The configurations *)

Definition buildTLSClientConfiguration (options : ClientOptions) : result tlsConfig :=
  let o := co_TLS options in
  _ ← statCRL o;
  rootCAs ← loadCertPool (tls_CertificateAuthority o);
  _ ← requireCAOrPeerFingerprint rootCAs (tls_PeerFingerprint o);
  certProfile ← parseTLSCertProfile (tls_CertificateProfile o);
  clientCertificates ← loadOptionalClientCertificate (tls_Certificate o) (tls_Key o) certProfile;
  settings ← parseTLSSettings o certProfile;
  Ok (mkTLSConfig clientCertificates (cp_standard <$> rootCAs) NoClientCert (ts_versionMin settings) (ts_versionMax settings)
        (ts_cipherSuites settings) (ts_curves settings) true
        (Some (verifyPeer o rootCAs certificatePurposeSSLServer certProfile settings))).

(** What the server does before it takes the first of its certificates. *)
Definition loadServerCredentials (options : ServerOptions) : result (option certificatePool * ClientAuthType * string * list (list bytes)) :=
  let o := so_TLS options in
  _ ← statCRL o;
  rootCAs ← loadCertPool (tls_CertificateAuthority o);
  verifyClientCertMode ← resolveVerifyClientCertMode (so_VerifyClientCertificate options);
  _ ← (if decide (verifyClientCertMode = NoClientCert) then Ok () else requireCAOrPeerFingerprint rootCAs (tls_PeerFingerprint o));
  certProfile ← parseTLSCertProfile (tls_CertificateProfile o);
  certificates ← loadOptionalClientCertificate (tls_Certificate o) (tls_Key o) certProfile;
  Ok (rootCAs, verifyClientCertMode, certProfile, certificates).

Definition serverVerifyCallback (o : TLSOptions) (roots : option certificatePool) (mode : ClientAuthType) (certProfile : string) (settings : tlsSettings)
    : option ((string → result bytes) → list bytes → Time → option clientErr) :=
  if decide (mode = NoClientCert) then None else
  Some (λ readFile rawCertificates now,
    if bool_decide (mode = RequestClientCert) && negb (hasAny rawCertificates) then None
    else verifyPeer o roots certificatePurposeSSLClient certProfile settings readFile rawCertificates now).

(** [None] is the panic of [certificates[0]]. *)
Definition buildTLSServerConfiguration (options : ServerOptions) : option (result tlsConfig) :=
  let o := so_TLS options in
  match loadServerCredentials options with
  | Err e => Some (Err e)
  | Ok (_, _, _, []) => None
  | Ok (rootCAs, verifyClientCertMode, certProfile, certificate :: _) => Some (
      settings ← parseTLSSettings o certProfile;
      Ok (mkTLSConfig [certificate] (cp_standard <$> rootCAs) verifyClientCertMode (ts_versionMin settings) (ts_versionMax settings)
            (ts_cipherSuites settings) (ts_curves settings) false
            (serverVerifyCallback o rootCAs verifyClientCertMode certProfile settings)))
  end.

(** The parts a server is made of. *)
Definition newTLSServer (cr : Crypto) (pemDecode : bytes → option (string * bytes)) (random : nat → result bytes) (options : ServerOptions)
    : option (result (tlsConfig * tlsControlProtection * sessionIDHMACSigner * serverResourcePolicy)) :=
  built ← buildTLSServerConfiguration options;
  Some (tlsConfiguration ← built;
        staticProtection ← newTLSServerProtection (tl_ReadFile lib) pemDecode cr options;
        signer ← newSessionIDHMACSigner random;
        Ok (tlsConfiguration, staticProtection, signer, newServerResourcePolicy options)).

End Configuration.

(** ** What [crypto/tls] does with them *)

(** Whether a full handshake goes on with the certificates the peer sent.  The server
    asks for them according to [ClientAuth]; the library's own verification is off at
    both ends. *)
Definition callbackAccepts (cfg : tlsConfig) (readFile : string → result bytes) (rawCertificates : list bytes) (now : Time) : bool :=
  match cfg_VerifyPeerCertificate cfg with
  | None => true
  | Some verify => negb (isSome (verify readFile rawCertificates now))
  end.

Definition serverAccepts (cfg : tlsConfig) (readFile : string → result bytes) (rawCertificates : list bytes) (now : Time) : bool :=
  match cfg_ClientAuth cfg with
  | NoClientCert => negb (hasAny rawCertificates)
  | RequestClientCert => callbackAccepts cfg readFile rawCertificates now
  | RequireAnyClientCert => hasAny rawCertificates && callbackAccepts cfg readFile rawCertificates now
  end.

Definition clientAccepts (cfg : tlsConfig) (readFile : string → result bytes) (rawCertificates : list bytes) (now : Time) : bool :=
  hasAny rawCertificates && cfg_InsecureSkipVerify cfg && callbackAccepts cfg readFile rawCertificates now.

(** ** Fuel *)

(** What [pem.Decode] leaves is shorter than what it is given, and then more fuel than
    there are octets changes nothing. *)
Lemma poolLoop_fuel lib (Hpem : ∀ data blockType block rest, tl_PemDecode lib data = Some (blockType, block, rest) → (length rest < length data)%nat) :
  ∀ fuel remaining certificates, (length remaining ≤ fuel)%nat → poolLoop lib fuel remaining certificates = poolLoop lib (length remaining) remaining certificates.
Proof.
  assert (Hstep : ∀ n fuel remaining certificates, (length remaining ≤ n)%nat → (n ≤ fuel)%nat → poolLoop lib fuel remaining certificates = poolLoop lib n remaining certificates).
  { induction n as [|n IH]; intros fuel remaining certificates Hlen Hfuel.
    - destruct remaining; [by destruct fuel | cbn in Hlen; lia].
    - destruct fuel as [|fuel]; [lia|]. destruct remaining as [|b remaining]; [done|]. cbn [poolLoop].
      destruct (tl_PemDecode lib (b :: remaining)) as [[[t block] rest]|] eqn:Hd; [|done]. pose proof (Hpem _ _ _ _ Hd). cbn in *.
      case_match; [apply IH; lia|]. destruct (tl_ParseCertificates lib block) as [parsed|]; [|done]. cbn. apply IH; lia. }
  intros fuel remaining certificates Hlen. by apply Hstep.
Qed.

(** ** What the parsed options guarantee *)

Lemma version_bounds o lower upper : resolveTLSVersionBounds (tls_VersionMin o) (tls_VersionMax o) = Ok (lower, upper) →
  (771 ≤ lower ∨ tls_VersionMin o ∈ ["1.0"; "1.1"]) ∧ (upper = 0 ∨ lower ≤ upper).
Proof.
  unfold resolveTLSVersionBounds. intros (least & Hmin & H)%result_bind_Ok. apply result_bind_Ok in H as (most & Hmax & H).
  destruct (negb (most =? 0) && _) eqn:Hb; [done|]. simplify_eq. split.
  - unfold parseTLSVersionToken in Hmin. repeat (let Ht := fresh in case_decide as Ht; [rewrite ?Ht; simplify_eq; first [left; cbn; lia | right; rewrite elem_of_cons, list_elem_of_singleton; auto]|]). done.
  - destruct (Z.eqb_spec upper 0); [by left | right]. cbn in Hb. lia.
Qed.

Lemma collected_tokens emptyToken (lookup : string → result Z) tokens : ∀ seen collected l,
  collectTokens emptyToken lookup tokens seen collected = Ok l → NoDup collected → (∀ z, z ∈ collected ↔ z ∈ seen) →
  NoDup l ∧ ∀ z, z ∈ l → z ∈ collected ∨ ∃ token, lookup token = Ok z.
Proof.
  induction tokens as [|token tokens IH]; intros seen collected l H Hnd Hseen; cbn in H.
  - simplify_eq. split; [done | by left].
  - case_decide; [done|]. apply result_bind_Ok in H as (found & Hfound & H). case_decide as Hin; [by eapply IH|].
    apply IH in H as [Hl Hz].
    + split; [done|]. intros z Hz'. destruct (Hz z Hz') as [Hc|]; [|by right]. apply elem_of_app in Hc as [|Hc%list_elem_of_singleton]; [by left | right; subst; by exists token].
    + apply NoDup_app. split_and!; [done | | apply NoDup_singleton]. intros z Hz Hz'%list_elem_of_singleton. subst. by apply Hin, Hseen.
    + set_solver.
Qed.

Lemma cipher_suites_known profile input suites : parseTLSCipherSuites input = Ok suites →
  NoDup (applyCertificateProfileTLSCipherDefault profile suites) ∧
  ∀ suite, suite ∈ applyCertificateProfileTLSCipherDefault profile suites → suite ∈ (snd ∘ fst <$> tlsCipherTranslationTable).
Proof.
  intros H. assert (Hs : NoDup suites ∧ ∀ suite, suite ∈ suites → suite ∈ (snd ∘ fst <$> tlsCipherTranslationTable)).
  { unfold parseTLSCipherSuites in H. case_decide; simplify_eq; [split; [constructor | by intros ? ?%not_elem_of_nil]|].
    apply result_bind_Ok in H as (l & Hl & H). destruct (negb (hasAny l)); [done|]. simplify_eq.
    destruct (collected_tokens _ _ _ _ _ _ Hl) as [Hnd Hz]; [constructor | set_solver|]. split; [done|].
    intros suite Hin. destruct (Hz suite Hin) as [?%not_elem_of_nil|(token & Ht)]; [done|].
    unfold lookupTLSCipherSuite in Ht. destruct (find _ _) as [[[name id] iana]|] eqn:Hf; [|done]. simplify_eq.
    apply find_some in Hf as [Hf _]. apply list_elem_of_In in Hf. apply list_elem_of_fmap. by exists (name, suite, iana). }
  unfold applyCertificateProfileTLSCipherDefault. destruct (_ || _); [done|]. split; [|intros suite Hin]; apply (bool_decide_unpack _); [vm_compute; done|].
  rewrite elem_of_cons, list_elem_of_singleton in Hin. destruct Hin as [->| ->]; vm_compute; done.
Qed.

(** The configured checks of the peer's certificate, as the options say them. *)
Record PeerMeets (x : X509) (o : TLSOptions) (peer : Certificate) : Prop := mkMeets {
  pm_name : tls_VerifyX509Name o ≠ "" → NameMatches peer (bytesOf (tls_VerifyX509Name o)) (tls_VerifyX509Type o);
  pm_fingerprint : tls_PeerFingerprint o ≠ [] → x_Fingerprint x (c_Raw peer) ∈ tls_PeerFingerprint o;
  pm_keyUsage : ∀ first others, parseRemoteCertKeyUsages (tls_RemoteCertificateKU o) = Ok (first :: others) → first ≠ 0 →
    ∃ usage mask, reconstructOpenSSLKeyUsage peer = Ok (Some usage) ∧ mask ∈ first :: others ∧ mask ≠ 0 ∧ Z.land usage mask = mask;
  pm_extendedUsage : ∀ usage, parseRemoteCertExtKeyUsage (tls_RemoteCertificateEKU o) = Ok [usage] →
    ∃ usages, readCertificateExtendedKeyUsage peer = Ok usages ∧ usage ∈ usages;
  pm_remoteCertTLS : tls_RemoteCertificateTLS o ≠ "" →
    certificateHasKeyUsageExtension peer = true ∧
    ∃ usages, readCertificateExtendedKeyUsage peer = Ok usages ∧ (if decide (tls_RemoteCertificateTLS o = "server") then serverAuthOID else clientAuthOID) ∈ usages;
  pm_nsCertType : tls_NSCertificateType o ≠ "" →
    (tls_NSCertificateType o = "server" ∧ checkCertificatePurpose peer certificatePurposeSSLServer false = Ok true) ∨
    (tls_NSCertificateType o = "client" ∧ checkCertificatePurpose peer certificatePurposeSSLClient false = Ok true);
}.

(** The peer of a handshake was verified: its own certificate meets the options, and
    either it is one whose fingerprint is configured in place of an authority, or a chain
    to the configured authorities has the purpose of the peer's role and passes the
    profile and the revocation lists. *)
Definition PeerVerified (lib : TLSLibrary) (o : TLSOptions) (purpose : certificatePurpose) (readFile : string → result bytes) (rawCertificates : list bytes) (now : Time) : Prop :=
  ∃ roots peer rest, loadCertPool lib (tls_CertificateAuthority o) = Ok roots ∧
    parseCertificates (tl_Trust lib roots) rawCertificates = Ok (peer :: rest) ∧ PeerMeets (tl_Trust lib roots) o peer ∧
    ((IsSet (tls_CertificateAuthority o) = false ∧ tls_PeerFingerprint o ≠ []) ∨
     (IsSet (tls_CertificateAuthority o) = true ∧
      ∃ v chain, vo_Purpose v = purpose ∧ parseTLSCertProfile (tls_CertificateProfile o) = Ok (vo_CertificateProfile v) ∧
        vo_CRL v = (if nonEmpty (tls_CRLVerify o) then Some (readFile (tls_CRLVerify o)) else None) ∧
        AcceptedChain (tl_Trust lib roots) v rawCertificates (peer :: rest) chain now)).

Lemma pool_iff_set lib m roots : loadCertPool lib m = Ok roots → isSome roots = IsSet m.
Proof.
  unfold loadCertPool. destruct (IsSet m); cbn [negb]; [|by intros [= <-]].
  intros (data & _ & H)%result_bind_Ok. do 2 (case_match; [done|]). apply result_bind_Ok in H as (certificates & _ & H). case_match; [done|]. by simplify_eq.
Qed.

Lemma merged_usages (existing additional : list (list Z)) : existing ⊆ mergeExtendedKeyUsage existing additional ∧ additional ⊆ mergeExtendedKeyUsage existing additional.
Proof.
  unfold mergeExtendedKeyUsage. destruct additional as [|a additional]; [cbn; set_solver|]. destruct existing as [|e existing]; [cbn; set_solver|].
  change (hasAny (a :: additional)) with true. change (hasAny (e :: existing)) with true. cbn [negb].
  generalize (e :: existing) as merged. generalize (a :: additional) as additions. clear.
  induction additions as [|a additions IH]; intros merged; cbn; [set_solver|]. case_decide as Hin.
  - destruct (IH merged). set_solver.
  - destruct (IH (merged ++ [a])%list). set_solver.
Qed.

Lemma usage_covered certificate (usage : list Z) (wanted merged : list (list Z)) :
  (merged ≠ [] → ∃ usages, readCertificateExtendedKeyUsage certificate = Ok usages ∧ merged ⊆ usages) → wanted ⊆ merged → usage ∈ wanted →
  ∃ usages, readCertificateExtendedKeyUsage certificate = Ok usages ∧ usage ∈ usages.
Proof.
  intros H Hsub Hin%Hsub. destruct H as (usages & ? & Hu); [intros ->; by apply not_elem_of_nil in Hin|]. exists usages. split; [done | by apply Hu].
Qed.

(** The verifier that is built from the options checks what the options say. *)
Lemma meets_options x o roots purpose profile settings readFile peer :
  parseTLSSettings o profile = Ok settings →
  PeerAccepted x (peerVerifier o roots purpose profile settings readFile) peer → PeerMeets x o peer.
Proof.
  unfold parseTLSSettings. intros (ku & Hku & H)%result_bind_Ok. apply result_bind_Ok in H as (eku & Heku & H). apply result_bind_Ok in H as ([ext short] & Htls & H).
  apply result_bind_Ok in H as ([lower upper] & _ & H). apply result_bind_Ok in H as (suites & _ & H). apply result_bind_Ok in H as (curves & _ & H). simplify_eq.
  intros [Hname Hfp Hu Hx He Hn]. cbn in *. destruct (merged_usages eku short) as [Hm1 Hm2]. constructor; try done.
  - intros Hne. apply Hname. by destruct (tls_VerifyX509Name o).
  - intros first others Hk. apply Hu. congruence.
  - intros usage Hk. rewrite Hk in Heku. simplify_eq. exact (usage_covered peer usage [usage] _ He Hm1 (list_elem_of_here _ _)).
  - intros Hne. unfold expandRemoteCertTLS in Htls. rewrite decide_False in Htls by done. destruct (decide (tls_RemoteCertificateTLS o = "server")) as [Hs|Hs].
    + simplify_eq. split; [by apply Hx | exact (usage_covered peer serverAuthOID [serverAuthOID] _ He Hm2 (list_elem_of_here _ _))].
    + case_decide; simplify_eq. split; [by apply Hx | exact (usage_covered peer clientAuthOID [clientAuthOID] _ He Hm2 (list_elem_of_here _ _))].
Qed.

Lemma verified_peer lib o roots purpose profile settings readFile rawCertificates now :
  loadCertPool lib (tls_CertificateAuthority o) = Ok roots → parseTLSCertProfile (tls_CertificateProfile o) = Ok profile → parseTLSSettings o profile = Ok settings →
  requireCAOrPeerFingerprint roots (tls_PeerFingerprint o) = Ok () →
  verifyPeer lib o roots purpose profile settings readFile rawCertificates now = None → PeerVerified lib o purpose readFile rawCertificates now.
Proof.
  intros Hpool Hprofile Hsettings Hrequire Hverify. apply fmap_None in Hverify.
  destruct (certificate_acceptance_sound _ _ _ _ Hverify) as (peer & rest & Hparse & Hpeer & Htrust). exists roots, peer, rest.
  split_and!; [done | done | by eapply meets_options |]. rewrite <- (pool_iff_set _ _ _ Hpool). destruct roots as [pool|]; cbn in *.
  - right. split; [done|]. destruct Htrust as [[? _]|[chain Hchain]]; [done|]. by exists (peerVerifier o (Some pool) purpose profile settings readFile), chain.
  - left. split; [done|]. by destruct (tls_PeerFingerprint o).
Qed.

(** Versions no older than TLS 1.2 unless older ones are asked for, known suites without
    repetition, and certificates of the end itself that the profile allows. *)
Definition configurationSafe (lib : TLSLibrary) (o : TLSOptions) (cfg : tlsConfig) : Prop :=
  (771 ≤ cfg_MinVersion cfg ∨ tls_VersionMin o ∈ ["1.0"; "1.1"]) ∧ (cfg_MaxVersion cfg = 0 ∨ cfg_MinVersion cfg ≤ cfg_MaxVersion cfg) ∧
  NoDup (cfg_CipherSuites cfg) ∧ (∀ suite, suite ∈ cfg_CipherSuites cfg → suite ∈ (snd ∘ fst <$> tlsCipherTranslationTable)) ∧
  ∀ rawChain, rawChain ∈ cfg_Certificates cfg → ∃ profile chain,
    parseTLSCertProfile (tls_CertificateProfile o) = Ok profile ∧ parseLocalChain lib rawChain = Ok chain ∧ Forall (ProfileAllows profile) chain.

Lemma settings_safe o profile settings : parseTLSSettings o profile = Ok settings →
  (771 ≤ ts_versionMin settings ∨ tls_VersionMin o ∈ ["1.0"; "1.1"]) ∧ (ts_versionMax settings = 0 ∨ ts_versionMin settings ≤ ts_versionMax settings) ∧
  NoDup (ts_cipherSuites settings) ∧ ∀ suite, suite ∈ ts_cipherSuites settings → suite ∈ (snd ∘ fst <$> tlsCipherTranslationTable).
Proof.
  unfold parseTLSSettings. intros (ku & _ & H)%result_bind_Ok. apply result_bind_Ok in H as (eku & _ & H). apply result_bind_Ok in H as ([ext short] & _ & H).
  apply result_bind_Ok in H as ([lower upper] & Hv & H). apply result_bind_Ok in H as (suites & Hs & H). apply result_bind_Ok in H as (curves & _ & H). simplify_eq. cbn.
  destruct (version_bounds _ _ _ Hv). by destruct (cipher_suites_known profile _ _ Hs).
Qed.

Lemma own_certificate_allowed lib o profile certificates : parseTLSCertProfile (tls_CertificateProfile o) = Ok profile →
  loadOptionalClientCertificate lib (tls_Certificate o) (tls_Key o) profile = Ok certificates →
  ∀ rawChain, rawChain ∈ certificates → ∃ profile chain,
    parseTLSCertProfile (tls_CertificateProfile o) = Ok profile ∧ parseLocalChain lib rawChain = Ok chain ∧ Forall (ProfileAllows profile) chain.
Proof.
  intros Hprofile. unfold loadOptionalClientCertificate. destruct (negb _ && negb _); [intros [= <-] ? []%not_elem_of_nil|].
  intros (cert & _ & H)%result_bind_Ok. apply result_bind_Ok in H as (key & _ & H). apply result_bind_Ok in H as (raw & _ & H). apply result_bind_Ok in H as (chain & Hchain & H).
  destruct (enforceCertificateProfile chain profile) eqn:He; [done|]. simplify_eq. intros rawChain ->%list_elem_of_singleton.
  exists profile, chain. split_and!; [done..|]. apply Forall_lookup. intros i certificate Hi. by apply (profile_accepted chain profile i).
Qed.

(** ** What validation guarantees *)

Lemma names_validated optionsName o profile : validateTLSOptionNames optionsName o = Ok () →
  (∃ certProfile, parseTLSCertProfile (tls_CertificateProfile o) = Ok certProfile) ∧ ∃ settings, parseTLSSettings o profile = Ok settings.
Proof.
  unfold validateTLSOptionNames, parseTLSSettings. intros (? & _ & H)%result_bind_Ok. apply result_bind_Ok in H as (? & _ & H).
  apply result_bind_Ok in H as (ku & -> & H). apply result_bind_Ok in H as (eku & -> & H). apply result_bind_Ok in H as ([ext short] & -> & H).
  apply result_bind_Ok in H as (? & _ & H). apply result_bind_Ok in H as ([lower upper] & -> & H). apply result_bind_Ok in H as (certProfile & -> & H).
  apply result_bind_Ok in H as (suites & -> & H). apply result_bind_Ok in H as (curves & -> & H). cbn. split; by eexists.
Qed.

Lemma client_names_validated co : validateImplementedClientOptions co = Ok () → validateTLSOptionNames "ClientOptions.TLS" (co_TLS co) = Ok ().
Proof. intros H. unfold validateImplementedClientOptions in H. cbv zeta in H. inv_checks H. assumption. Qed.

Lemma server_validated so : validateImplementedServerOptions so = Ok () → so_Mode so = ModeTLS →
  validateTLSOptionNames "ServerOptions.TLS" (so_TLS so) = Ok () ∧ IsSet (tls_Certificate (so_TLS so)) = true.
Proof.
  intros H Hmode. unfold validateImplementedServerOptions in H. cbv zeta in H. inv_checks H. split; [assumption|].
  match goal with H : validateTLSCredentialSet _ _ _ _ _ _ = _ |- _ => revert H end. rewrite Hmode. unfold validateTLSCredentialSet.
  generalize (IsSet (tls_CertificateAuthority (so_TLS so))) (IsSet (tls_Key (so_TLS so))) (hasAny (tls_PeerFingerprint (so_TLS so))).
  intros ca key fingerprints. by destruct (IsSet (tls_Certificate (so_TLS so))), ca, key, fingerprints.
Qed.

Lemma certificate_loaded lib o profile : IsSet (tls_Certificate o) = true → loadOptionalClientCertificate lib (tls_Certificate o) (tls_Key o) profile ≠ Ok [].
Proof.
  unfold loadOptionalClientCertificate. intros -> H. cbn in H. apply result_bind_Ok in H as (cert & _ & H). apply result_bind_Ok in H as (key & _ & H).
  apply result_bind_Ok in H as (raw & _ & H). apply result_bind_Ok in H as (chain & _ & H). by case_match.
Qed.

(** Why a configuration of validated options is not built: files, certificates, or the
    absence of anything to trust; never the options that validation parsed. *)
Definition credentialFailure (lib : TLSLibrary) (o : TLSOptions) (e : goerr) : Prop :=
  statCRL lib o = Err e ∨ loadCertPool lib (tls_CertificateAuthority o) = Err e ∨
  (loadCertPool lib (tls_CertificateAuthority o) = Ok None ∧ tls_PeerFingerprint o = [] ∧ e = ErrMissingCAOrPeerFingerprint) ∨
  ∃ profile, parseTLSCertProfile (tls_CertificateProfile o) = Ok profile ∧ loadOptionalClientCertificate lib (tls_Certificate o) (tls_Key o) profile = Err e.

Lemma required_or_missing roots fingerprints e : requireCAOrPeerFingerprint roots fingerprints = Err e → roots = None ∧ fingerprints = [] ∧ e = ErrMissingCAOrPeerFingerprint.
Proof. unfold requireCAOrPeerFingerprint. destruct roots; [done|]. destruct fingerprints; cbn; [by intros [= <-] | done]. Qed.

(** What the server's handshake accepts, by the mode. *)
Lemma server_accepts lib o roots mode profile settings value certificates lower upper suites curves readFile rawCertificates now :
  loadCertPool lib (tls_CertificateAuthority o) = Ok roots → parseTLSCertProfile (tls_CertificateProfile o) = Ok profile → parseTLSSettings o profile = Ok settings →
  resolveVerifyClientCertMode value = Ok mode → (if decide (mode = NoClientCert) then Ok () else requireCAOrPeerFingerprint roots (tls_PeerFingerprint o)) = Ok () →
  serverAccepts (mkTLSConfig certificates (cp_standard <$> roots) mode lower upper suites curves false (serverVerifyCallback lib o roots mode profile settings)) readFile rawCertificates now = true →
  (rawCertificates = [] ∧ value ∈ ["none"; "optional"]) ∨ PeerVerified lib o certificatePurposeSSLClient readFile rawCertificates now.
Proof.
  intros Hpool Hprofile Hsettings Hmode Hreq Haccept. unfold serverAccepts, callbackAccepts, serverVerifyCallback in Haccept. cbn in Haccept.
  assert (Hvalue : mode ≠ RequireAnyClientCert → value ∈ ["none"; "optional"]).
  { clear -Hmode. intros Hm. unfold resolveVerifyClientCertMode in Hmode. case_decide; [congruence|]. case_decide; [subst; set_solver|]. case_decide; [subst; set_solver | done]. }
  destruct mode.
  - left. split; [by destruct rawCertificates | by apply Hvalue].
  - destruct rawCertificates as [|raw rawCertificates]; [left; split; [done | by apply Hvalue]|]. right. eapply verified_peer; try done.
    change (negb (isSome (verifyPeer lib o roots certificatePurposeSSLClient profile settings readFile (raw :: rawCertificates) now)) = true) in Haccept. by destruct (verifyPeer lib o roots _ _ _ _ _ _).
  - right. apply andb_prop in Haccept as [_ Haccept]. eapply verified_peer; try done.
    change (negb (isSome (verifyPeer lib o roots certificatePurposeSSLClient profile settings readFile rawCertificates now)) = true) in Haccept.
    by destruct (verifyPeer lib o roots _ _ _ _ _ _).
Qed.

Lemma client_configuration lib co : validateTLSOptionNames "ClientOptions.TLS" (co_TLS co) = Ok () →
  match buildTLSClientConfiguration lib co with
  | Err e => credentialFailure lib (co_TLS co) e
  | Ok cfg => configurationSafe lib (co_TLS co) cfg ∧
      ∀ readFile rawCertificates now, clientAccepts cfg readFile rawCertificates now = true → PeerVerified lib (co_TLS co) certificatePurposeSSLServer readFile rawCertificates now
  end.
Proof.
  intros Hnames. unfold buildTLSClientConfiguration. cbv zeta. generalize dependent (co_TLS co). intros o Hnames.
  destruct (statCRL lib o) as [[]|] eqn:Hstat; cbn; [|by left]. destruct (loadCertPool lib _) as [roots|] eqn:Hpool; cbn; [|by right; left].
  destruct (requireCAOrPeerFingerprint roots _) as [[]|] eqn:Hreq; cbn; [|apply required_or_missing in Hreq as (-> & ? & ->); by right; right; left].
  destruct (names_validated _ o "" Hnames) as [[profile Hprofile] _]. rewrite Hprofile. cbn.
  destruct (loadOptionalClientCertificate lib _ _ profile) as [certificates|] eqn:Hcert; cbn; [|right; right; right; by exists profile].
  destruct (names_validated _ o profile Hnames) as [_ [settings Hsettings]]. rewrite Hsettings. cbn. destruct (settings_safe _ _ _ Hsettings) as (? & ? & ? & ?).
  split; [split_and!; try done; by eapply own_certificate_allowed|]. intros readFile rawCertificates now Haccept.
  unfold clientAccepts, callbackAccepts in Haccept. cbn in Haccept. apply andb_prop in Haccept as [_ Haccept].
  eapply verified_peer; try done. by destruct (verifyPeer lib o roots _ _ _ _ _ _).
Qed.

Lemma server_configuration lib so : validateTLSOptionNames "ServerOptions.TLS" (so_TLS so) = Ok () → IsSet (tls_Certificate (so_TLS so)) = true →
  match buildTLSServerConfiguration lib so with
  | None => False
  | Some (Err e) => credentialFailure lib (so_TLS so) e ∨ resolveVerifyClientCertMode (so_VerifyClientCertificate so) = Err e
  | Some (Ok cfg) => configurationSafe lib (so_TLS so) cfg ∧ (∃ certificate, cfg_Certificates cfg = [certificate]) ∧
      ∀ readFile rawCertificates now, serverAccepts cfg readFile rawCertificates now = true →
        (rawCertificates = [] ∧ so_VerifyClientCertificate so ∈ ["none"; "optional"]) ∨
        PeerVerified lib (so_TLS so) certificatePurposeSSLClient readFile rawCertificates now
  end.
Proof.
  intros Hnames Hset. unfold buildTLSServerConfiguration, loadServerCredentials. cbv zeta. generalize dependent (so_TLS so). intros o Hnames Hset.
  destruct (statCRL lib o) as [[]|] eqn:Hstat; cbn; [|by left; left]. destruct (loadCertPool lib _) as [roots|] eqn:Hpool; cbn; [|by left; right; left].
  destruct (resolveVerifyClientCertMode _) as [mode|] eqn:Hmode; cbn; [|by right].
  destruct (if decide (mode = NoClientCert) then Ok () else requireCAOrPeerFingerprint roots (tls_PeerFingerprint o)) as [[]|] eqn:Hreq; cbn;
    [|case_decide; [done|]; apply required_or_missing in Hreq as (-> & ? & ->); by left; right; right; left].
  destruct (names_validated _ o "" Hnames) as [[profile Hprofile] _]. rewrite Hprofile. cbn.
  destruct (loadOptionalClientCertificate lib _ _ profile) as [[|certificate certificates]|] eqn:Hcert; cbn; [by eapply certificate_loaded| |left; right; right; right; by exists profile].
  destruct (names_validated _ o profile Hnames) as [_ [settings Hsettings]]. rewrite Hsettings. cbn. destruct (settings_safe _ _ _ Hsettings) as (? & ? & ? & ?).
  split_and!; [split_and!; try done; intros chain ->%list_elem_of_singleton; eapply own_certificate_allowed; [done | exact Hcert | constructor] | by exists certificate |].
  intros readFile rawCertificates now. by eapply server_accepts.
Qed.

(** C36: No peer gets through a full TLS handshake unverified, from the options to the
    callback; a connection that is resumed runs no callback and is not covered.  For
    validated options, building the configuration fails only because of files,
    certificates, a bad mode, or the absence of anything to trust, and the server's
    never panics on its own certificate.  A configuration that is built accepts no
    version before TLS 1.2 unless told to, only known suites, and its own certificates
    satisfy the profile.  In a full handshake the client then accepts only servers, and
    the server only clients (or no certificate at all, when its mode is none or
    optional), whose certificate meets every configured option and either has a
    configured fingerprint, when there is no authority, or a chain to the authority with
    the purpose of its role at every position, which the profile allows and of which no
    certificate is revoked by the list the code selects for its issuer from the
    configured file, as it is read at that time: the first of those that are current.
    Trust never falls back to the roots of the system. *)
Theorem tls_peers_verified lib co so :
  validateImplementedClientOptions co = Ok () → validateImplementedServerOptions so = Ok () → so_Mode so = ModeTLS →
  match buildTLSClientConfiguration lib co with
  | Err e => credentialFailure lib (co_TLS co) e
  | Ok cfg => configurationSafe lib (co_TLS co) cfg ∧
      ∀ readFile rawCertificates now, clientAccepts cfg readFile rawCertificates now = true → PeerVerified lib (co_TLS co) certificatePurposeSSLServer readFile rawCertificates now
  end ∧
  match buildTLSServerConfiguration lib so with
  | None => False
  | Some (Err e) => credentialFailure lib (so_TLS so) e ∨ resolveVerifyClientCertMode (so_VerifyClientCertificate so) = Err e
  | Some (Ok cfg) => configurationSafe lib (so_TLS so) cfg ∧ (∃ certificate, cfg_Certificates cfg = [certificate]) ∧
      ∀ readFile rawCertificates now, serverAccepts cfg readFile rawCertificates now = true →
        (rawCertificates = [] ∧ so_VerifyClientCertificate so ∈ ["none"; "optional"]) ∨
        PeerVerified lib (so_TLS so) certificatePurposeSSLClient readFile rawCertificates now
  end.
Proof.
  intros Hco Hso Hmode. destruct (server_validated so Hso Hmode) as [Hnames Hset].
  split; [by apply client_configuration, client_names_validated | by apply server_configuration].
Qed.

(** ** Witness *)

(** The authority and the peer of [Certificates], as they are loaded. *)
Definition exampleLibrary : TLSLibrary := mkTLSLibrary (λ _, None) (λ _, Ok [])
  (λ data, match data with b :: rest => Some ("CERTIFICATE", [b], rest) | [] => None end)
  (λ block, match block with [x01] => Ok [exampleAuthority] | _ => Err (ErrNew "malformed certificate") end)
  (x_ParseCertificate exampleX509) (λ _, true) (λ _, true)
  (λ certificate _, Ok [certificate]) (λ _, exampleX509).

Definition exampleTLS : TLSOptions :=
  mkTLSOptions (mkMaterial "" [x01]) (mkMaterial "" [x02]) (mkMaterial "" [x03]) noMaterial noMaterial noMaterial "" "" [] "crl.pem" [] "" "" "" "" "" "preferred" "" "".

Definition verifyingClient : ClientOptions :=
  mkClientOptions ModeTLS (co_Transport keyedClient) (co_DataChannel keyedClient) exampleTLS (co_Authentication keyedClient) (co_Pull keyedClient) (co_Tunnel keyedClient)
    (co_Timing keyedClient) noMaterial (-1).

Definition verifyingServer : ServerOptions :=
  mkServerOptions ModeTLS (so_Transport keyedServer) (so_Resources keyedServer) (so_DataChannel keyedServer) exampleTLS false "require" false false (so_Timing keyedServer)
    (so_Tunnel keyedServer) (so_Push keyedServer) noMaterial (-1).

(** The server accepts the peer with one file of revocation lists and not with the other,
    and no client without a certificate. *)
Lemma tls_peers_verified_witness :
  match buildTLSServerConfiguration exampleLibrary verifyingServer with
  | Some (Ok cfg) =>
      serverAccepts cfg (λ _, Ok [x0a]) [[x02]] 50 = true ∧ serverAccepts cfg (λ _, Ok [x0b]) [[x02]] 50 = false ∧ serverAccepts cfg (λ _, Ok [x0a]) [] 50 = false
  | _ => False
  end ∧
  ([[x02]] = [] ∧ "require" ∈ ["none"; "optional"] ∨ PeerVerified exampleLibrary exampleTLS certificatePurposeSSLClient (λ _, Ok [x0a]) [[x02]] 50).
Proof.
  assert (Hcfg : match buildTLSServerConfiguration exampleLibrary verifyingServer with
                 | Some (Ok cfg) => serverAccepts cfg (λ _, Ok [x0a]) [[x02]] 50 = true ∧ serverAccepts cfg (λ _, Ok [x0b]) [[x02]] 50 = false ∧ serverAccepts cfg (λ _, Ok [x0a]) [] 50 = false
                 | _ => False
                 end) by (vm_compute; done).
  assert (Hco : validateImplementedClientOptions verifyingClient = Ok ()) by (vm_compute; reflexivity).
  assert (Hso : validateImplementedServerOptions verifyingServer = Ok ()) by (vm_compute; reflexivity).
  pose proof (proj2 (tls_peers_verified exampleLibrary verifyingClient verifyingServer Hco Hso eq_refl)) as H.
  split; [exact Hcfg|]. refine (proj2 (proj2 H) (λ _, Ok [x0a]) [[x02]] 50 _). vm_compute. reflexivity.
Defined.
