(* ===== verification/ControlLoop.v ===== *)
(** * The loops around the control channel ([control_channel.go], [control_stream.go])

    [runReader] takes batches of packets off the link, gathers the data packets and hands
    the control packets to their channels; [readControlChannelRecord] and
    [writeControlChannelPayload] use the control channel that is the session's primary one
    while renegotiations replace it.  A buffer is known by its position in the batch. *)

From S2P Require Import Prelude GoStrings Packet Session Reliable Netip Crypto Codec CodecLaws ControlWrap KeyMethod Options Auth KeyState ControlChannel.

(** ** A round of the reader *)

(** What the reader does with a batch, in order.  A data packet is a view of its buffer. *)
Inductive readerEvent :=
| DataHandedOn (packets : list (nat * Packet))
| BufferReleased (i : nat)
| ControlRouted (keyID : Z) (packet : Packet)
| ControlHandled (packet : Packet) (outcome : incomingOutcome).

(** What the turn of a packet meets: the clock, the channels of renegotiations that are
    registered, and after how many chunks the closed channel is chosen. *)
Record packetTurn := mkPacketTurn { pt_reapNow : Time; pt_now : Time; pt_registered : gset Z; pt_stop : option nat }.

(** [routeToRenegotiationChannel]: the channel that handles the packet. *)
Definition routeToRenegotiationChannel (registered : gset Z) (packet : Packet) : option Z :=
  if pkt_KeyID packet =? 0 then None else if decide (pkt_KeyID packet ∈ registered) then Some (pkt_KeyID packet) else None.

Definition flushDataPackets (onDataPackets : bool) (pending : list (nat * Packet)) : list readerEvent :=
  (match pending with [] => [] | _ => if onDataPackets then [DataHandedOn pending] else [] end) ++ (BufferReleased ∘ fst <$> pending).

Definition startsData (rawPacket : bytes) : bool :=
  match rawPacket with [] => false | head :: _ => IsData (Z.shiftr (b2z head) 3) end.

Section Reader.
Context (cr : Crypto) (onDataPackets : bool) (turns : nat → packetTurn).

(** The loop over a batch; [pending] are the data packets that wait. *)
Fixpoint readerLoop (i : nat) (rawPackets : list bytes) (pending : list (nat * Packet)) (c : tlsControlChannel)
    : list readerEvent * bool * tlsControlChannel :=
  match rawPackets with
  | [] => (flushDataPackets onDataPackets pending, true, c)
  | rawPacket :: rawPackets =>
      let t := turns i in
      let '(before, pending) := if startsData rawPacket then ([], pending) else (flushDataPackets onDataPackets pending, []) in
      let '(parsed, c) := parseIncomingPacket cr c rawPacket (pt_reapNow t) (pt_now t) in
      match parsed with
      | Err _ =>
          let '(events, continue, c) := readerLoop (S i) rawPackets [] c in
          (before ++ BufferReleased i :: flushDataPackets onDataPackets pending ++ events, continue, c)
      | Ok packet =>
          if IsData (pkt_Opcode packet) then
            let '(events, continue, c) := readerLoop (S i) rawPackets (pending ++ [(i, packet)]) c in (before ++ events, continue, c)
          else
            let released := before ++ BufferReleased i :: flushDataPackets onDataPackets pending in
            match routeToRenegotiationChannel (pt_registered t) packet with
            | Some keyID =>
                let '(events, continue, c) := readerLoop (S i) rawPackets [] c in (released ++ ControlRouted keyID packet :: events, continue, c)
            | None =>
                let '(outcome, c) := processIncomingControlPacket c packet (pt_stop t) in
                if io_continue outcome then
                  let '(events, continue, c) := readerLoop (S i) rawPackets [] c in (released ++ ControlHandled packet outcome :: events, continue, c)
                else (released ++ ControlHandled packet outcome :: (BufferReleased <$> seq (S i) (length rawPackets)), false, c)
            end
      end
  end.

(** A round of [runReader]: [None] when the loop ends.  [readErr] is the error of the
    read, a timeout or another. *)
Inductive readError := ReadTimeout | ReadFailed.

Definition readerRound (setDeadline : option goerr) (rawPackets : list bytes) (readErr : option readError) (c : tlsControlChannel)
    : list readerEvent * bool * tlsControlChannel :=
  if ch_closed c then ([], false, c) else
  match setDeadline with
  | Some _ => ([], false, shutdown c)
  | None =>
      let '(events, continue, c) := readerLoop 0 rawPackets [] c in
      if negb continue then (events, false, c) else
      match readErr with
      | Some ReadFailed => (events, false, shutdown c)
      | _ => (events, true, c)
      end
  end.

(** [setNextPacketReadDeadline]: the deadline of the link's read; zero is none. *)
Definition nextPacketReadDeadline (now readDeadline : Time) : Time := Z.max (now + Second) readDeadline.

(** ** Waiting for delivery *)

(** What a round of [waitForReliableDelivery] meets: the closed channel, its timer, or a
    tick, after which the channel is as given. *)
Inductive deliveryTurn := DeliveryClosed | DeliveryTimedOut | DeliveryTick (c : tlsControlChannel).

(** [None] when the turns end while it waits. *)
Fixpoint deliveryLoop (c : tlsControlChannel) (deliveryTurns : list deliveryTurn) : option bool :=
  if waitForReliableDelivered c then Some true else
  match deliveryTurns with
  | [] => None
  | DeliveryClosed :: _ | DeliveryTimedOut :: _ => Some false
  | DeliveryTick c :: deliveryTurns => deliveryLoop c deliveryTurns
  end.

Definition waitForReliableDelivery (c : tlsControlChannel) (timeout : Z) (deliveryTurns : list deliveryTurn) : option bool :=
  if timeout <=? 0 then Some (waitForReliableDelivered c) else deliveryLoop c deliveryTurns.

(** ** One packet at a time *)

(** What is done to packets, in order. *)
Inductive handling := HandleData (packet : Packet) | HandleRouted (keyID : Z) (packet : Packet) | HandleControl (packet : Packet).

Definition handlingsOf (event : readerEvent) : list handling :=
  match event with
  | DataHandedOn packets => HandleData ∘ snd <$> packets
  | BufferReleased _ => []
  | ControlRouted keyID packet => [HandleRouted keyID packet]
  | ControlHandled packet _ => [HandleControl packet]
  end.

Definition handlings (events : list readerEvent) : list handling := events ≫= handlingsOf.

(** The reference: every packet is dealt with before the next one is looked at. *)
Fixpoint oneByOne (i : nat) (rawPackets : list bytes) (c : tlsControlChannel) : list handling * bool * tlsControlChannel :=
  match rawPackets with
  | [] => ([], true, c)
  | rawPacket :: rawPackets =>
      let t := turns i in
      let '(parsed, c) := parseIncomingPacket cr c rawPacket (pt_reapNow t) (pt_now t) in
      match parsed with
      | Err _ => oneByOne (S i) rawPackets c
      | Ok packet =>
          if IsData (pkt_Opcode packet) then
            let '(rest, continue, c) := oneByOne (S i) rawPackets c in ((if onDataPackets then [HandleData packet] else []) ++ rest, continue, c)
          else
            match routeToRenegotiationChannel (pt_registered t) packet with
            | Some keyID => let '(rest, continue, c) := oneByOne (S i) rawPackets c in (HandleRouted keyID packet :: rest, continue, c)
            | None =>
                let '(outcome, c) := processIncomingControlPacket c packet (pt_stop t) in
                if io_continue outcome then let '(rest, continue, c) := oneByOne (S i) rawPackets c in (HandleControl packet :: rest, continue, c)
                else ([HandleControl packet], false, c)
            end
      end
  end.

Lemma handlings_app l k : handlings (l ++ k) = handlings l ++ handlings k.
Proof. apply bind_app. Qed.

Lemma handlings_released (l : list nat) : handlings (BufferReleased <$> l) = [].
Proof. by induction l. Qed.

Lemma handlings_flush pending : handlings (flushDataPackets onDataPackets pending) = if onDataPackets then HandleData ∘ snd <$> pending else [].
Proof.
  unfold flushDataPackets. rewrite handlings_app. rewrite list_fmap_compose, handlings_released, app_nil_r.
  destruct pending, onDataPackets; cbn; by rewrite ?app_nil_r.
Qed.

Definition pendingHandlings (pending : list (nat * Packet)) : list handling := if onDataPackets then HandleData ∘ snd <$> pending else [].

Lemma handlings_cons event events : handlings (event :: events) = handlingsOf event ++ handlings events.
Proof. done. Qed.

(** Flushing before or after a packet that is not data comes to the same. *)
Lemma reader_one_by_one rawPackets : ∀ i pending c,
  ∃ events rest continue c', readerLoop i rawPackets pending c = (events, continue, c') ∧ oneByOne i rawPackets c = (rest, continue, c') ∧
    handlings events = pendingHandlings pending ++ rest.
Proof.
  induction rawPackets as [|rawPacket rawPackets IH]; intros i pending c; cbn [readerLoop oneByOne].
  { do 4 eexists. split_and!; [done..|]. by rewrite handlings_flush, app_nil_r. }
  assert (Hbefore : ∃ before kept, (if startsData rawPacket then ([], pending) else (flushDataPackets onDataPackets pending, [])) = (before, kept) ∧
    handlings before ++ pendingHandlings kept = pendingHandlings pending).
  { destruct (startsData rawPacket); do 2 eexists; (split; [done|]); [done|]. rewrite handlings_flush. unfold pendingHandlings. destruct onDataPackets; apply app_nil_r. }
  destruct Hbefore as (before & kept & -> & Hbefore). destruct (parseIncomingPacket cr c rawPacket _ _) as [[packet|e] c1].
  - destruct (IsData (pkt_Opcode packet)).
    + destruct (IH (S i) (kept ++ [(i, packet)]) c1) as (events & rest & continue & c' & -> & -> & Hh).
      do 4 eexists. split_and!; [done..|]. rewrite handlings_app, Hh, <- Hbefore, <- !app_assoc. f_equal.
      unfold pendingHandlings. destruct onDataPackets; [|done]. by rewrite fmap_app, <- app_assoc.
    + destruct (routeToRenegotiationChannel _ packet) as [keyID|].
      * destruct (IH (S i) [] c1) as (events & rest & continue & c' & -> & -> & Hh).
        do 4 eexists. split_and!; [done..|]. rewrite handlings_app, handlings_app, !handlings_cons, Hh, handlings_flush, <- Hbefore. unfold pendingHandlings.
        destruct onDataPackets; cbn; by rewrite <- ?app_assoc.
      * destruct (processIncomingControlPacket c1 packet _) as [outcome c2]. destruct (io_continue outcome).
        -- destruct (IH (S i) [] c2) as (events & rest & continue & c' & -> & -> & Hh).
           do 4 eexists. split_and!; [done..|]. rewrite handlings_app, handlings_app, !handlings_cons, Hh, handlings_flush, <- Hbefore. unfold pendingHandlings.
           destruct onDataPackets; cbn; by rewrite <- ?app_assoc.
        -- do 4 eexists. split_and!; [done..|]. rewrite handlings_app, handlings_app, !handlings_cons, handlings_released, handlings_flush, <- Hbefore. unfold pendingHandlings.
           destruct onDataPackets; cbn; by rewrite <- ?app_assoc.
  - destruct (IH (S i) [] c1) as (events & rest & continue & c' & -> & -> & Hh).
    do 4 eexists. split_and!; [done..|]. rewrite handlings_app, handlings_cons, handlings_app, Hh, handlings_flush, <- Hbefore. unfold pendingHandlings.
    destruct onDataPackets; cbn; by rewrite <- ?app_assoc.
Qed.

(** ** Buffers *)

Definition releasedBy (event : readerEvent) : list nat := match event with BufferReleased i => [i] | _ => [] end.

(** Nothing is released twice, and no packet is handed on whose buffer is gone. *)
Fixpoint viewsLive (freed : gset nat) (events : list readerEvent) : Prop :=
  match events with
  | [] => True
  | DataHandedOn packets :: events => Forall (λ '(i, _), i ∉ freed) packets ∧ viewsLive freed events
  | BufferReleased i :: events => (i ∉ freed) ∧ viewsLive ({[i]} ∪ freed) events
  | _ :: events => viewsLive freed events
  end.

Definition freedBy (events : list readerEvent) : gset nat := list_to_set (events ≫= releasedBy).

Lemma viewsLive_app events more : ∀ freed, viewsLive freed (events ++ more) ↔ viewsLive freed events ∧ viewsLive (freedBy events ∪ freed) more.
Proof.
  unfold freedBy. induction events as [|event events IH]; intros freed; cbn [viewsLive app mbind list_bind list_to_set]; [rewrite union_empty_l_L; tauto|].
  destruct event; cbn [releasedBy app]; rewrite IH; try tauto.
  change (list_to_set (i :: (events ≫= releasedBy))) with ({[i]} ∪ list_to_set (events ≫= releasedBy) : gset nat).
  replace ({[i]} ∪ list_to_set (events ≫= releasedBy) ∪ freed) with (list_to_set (events ≫= releasedBy) ∪ ({[i]} ∪ freed) : gset nat) by set_solver. tauto.
Qed.

Lemma released_cons event events : ((event :: events) ≫= releasedBy) = releasedBy event ++ (events ≫= releasedBy).
Proof. done. Qed.

Lemma released_list (l : list nat) : ((BufferReleased <$> l) ≫= releasedBy) = l.
Proof. induction l as [|i l IH]; cbn; [done | by f_equal]. Qed.

Lemma released_flush pending : (flushDataPackets onDataPackets pending ≫= releasedBy) = pending.*1.
Proof.
  unfold flushDataPackets. rewrite bind_app, list_fmap_compose, released_list. destruct pending; [done|]. by destruct onDataPackets.
Qed.

Lemma live_released (l : list nat) : ∀ freed : gset nat, NoDup l → (∀ i, i ∈ l → i ∉ freed) → viewsLive freed (BufferReleased <$> l).
Proof.
  induction l as [|i l IH]; intros freed Hnd Hfree; cbn; [done|]. apply NoDup_cons in Hnd as [Hi Hnd]. split; [apply Hfree; constructor|].
  apply IH; [done|]. intros j Hj. apply not_elem_of_union. split; [intros ->%elem_of_singleton; done | apply Hfree; by constructor].
Qed.

Lemma live_flush pending freed : NoDup pending.*1 → (∀ i, i ∈ pending.*1 → i ∉ freed) → viewsLive freed (flushDataPackets onDataPackets pending).
Proof.
  intros Hnd Hfree. unfold flushDataPackets. rewrite list_fmap_compose. apply viewsLive_app. split.
  - destruct pending as [|p pending]; [done|]. destruct onDataPackets; [|done]. split; [|done]. apply Forall_forall. intros [i packet] Hin. apply Hfree. apply list_elem_of_fmap. by exists (i, packet).
  - apply live_released; [done|]. intros i Hi. rewrite not_elem_of_union. split; [|by apply Hfree]. unfold freedBy. destruct pending; [done|]. by destruct onDataPackets.
Qed.

(** The buffers that wait, and those still to come, are there. *)
Record buffersReady (i : nat) (pending : list (nat * Packet)) (freed : gset nat) : Prop := {
  br_once : NoDup pending.*1;
  br_before : ∀ j, j ∈ pending.*1 → (j < i)%nat;
  br_pending : ∀ j, j ∈ pending.*1 → j ∉ freed;
  br_coming : ∀ j, (i ≤ j)%nat → j ∉ freed;
}.

(** What is done around a packet that does not wait: the data before it is handed on and
    its own buffer is released. *)
Lemma released_around rawPacket i pending freed : buffersReady i pending freed →
  ∃ before kept, (if startsData rawPacket then ([], pending) else (flushDataPackets onDataPackets pending, [])) = (before, kept) ∧
    let events := before ++ BufferReleased i :: flushDataPackets onDataPackets kept in
    (events ≫= releasedBy) ≡ₚ pending.*1 ++ [i] ∧ viewsLive freed events ∧ buffersReady (S i) [] (freedBy events ∪ freed).
Proof.
  intros [Hnd Hlt Hpending Hcoming]. exists (if startsData rawPacket then [] else flushDataPackets onDataPackets pending), (if startsData rawPacket then pending else []).
  split; [by destruct (startsData rawPacket)|]. cbv zeta.
  assert (Hperm : (((if startsData rawPacket then [] else flushDataPackets onDataPackets pending) ++ BufferReleased i :: flushDataPackets onDataPackets (if startsData rawPacket then pending else [])) ≫= releasedBy) ≡ₚ pending.*1 ++ [i]).
  { rewrite bind_app, released_cons. destruct (startsData rawPacket).
    - rewrite released_flush. cbn. by rewrite Permutation_app_comm.
    - by rewrite released_flush. }
  split_and!; [done| |].
  - assert (Hi : i ∉ freed) by (apply Hcoming; lia). destruct (startsData rawPacket).
    + split; [done|]. apply live_flush; [done|]. intros j Hj. apply not_elem_of_union. split; [intros ->%elem_of_singleton; by apply Hlt in Hj; lia | by apply Hpending].
    + apply viewsLive_app. split; [by apply live_flush|]. cbn. split; [|done]. apply not_elem_of_union. split; [|done]. unfold freedBy. rewrite released_flush.
      intros Hin%elem_of_list_to_set. apply Hlt in Hin. lia.
  - constructor; [constructor | by intros j ?%not_elem_of_nil | by intros j ?%not_elem_of_nil|]. intros j Hj. apply not_elem_of_union. split; [|apply Hcoming; lia].
    unfold freedBy. rewrite elem_of_list_to_set, Hperm, elem_of_app, list_elem_of_singleton. intros [Hin| ->]; [apply Hlt in Hin|]; lia.
Qed.

(** What is done before a data packet that waits. *)
Lemma released_waiting rawPacket i packet pending freed : buffersReady i pending freed →
  ∃ before kept, (if startsData rawPacket then ([], pending) else (flushDataPackets onDataPackets pending, [])) = (before, kept) ∧
    (before ≫= releasedBy) ++ kept.*1 = pending.*1 ∧ viewsLive freed before ∧ buffersReady (S i) (kept ++ [(i, packet)]) (freedBy before ∪ freed).
Proof.
  intros [Hnd Hlt Hpending Hcoming]. destruct (startsData rawPacket); do 2 eexists; (split; [done|]).
  - split_and!; [done..|]. unfold freedBy. cbn. rewrite union_empty_l_L. constructor; rewrite ?fmap_app; cbn.
    + apply NoDup_app. split_and!; [done | | apply NoDup_singleton]. intros j Hj ->%list_elem_of_singleton. apply Hlt in Hj. lia.
    + intros j [Hj| ->%list_elem_of_singleton]%elem_of_app; [apply Hlt in Hj|]; lia.
    + intros j [Hj| ->%list_elem_of_singleton]%elem_of_app; [by apply Hpending | apply Hcoming; lia].
    + intros j Hj. apply Hcoming. lia.
  - rewrite released_flush, app_nil_r. split_and!; [done | by apply live_flush |]. unfold freedBy. rewrite released_flush.
    assert (Hout : ∀ j, (i ≤ j)%nat → j ∉ (list_to_set pending.*1 ∪ freed : gset nat)).
    { intros j Hj. apply not_elem_of_union. split; [|by apply Hcoming]. intros Hin%elem_of_list_to_set. apply Hlt in Hin. lia. }
    constructor; cbn; [apply NoDup_singleton | intros j ->%list_elem_of_singleton; lia | intros j ->%list_elem_of_singleton; by apply Hout | intros j Hj; apply Hout; lia].
Qed.

(** What follows the events around a packet. *)
Lemma released_then i n (pending : list (nat * Packet)) freed events (control : list readerEvent) more :
  (events ≫= releasedBy) ≡ₚ pending.*1 ++ [i] → viewsLive freed events → (control ≫= releasedBy) = [] → (∀ freed, viewsLive freed control) →
  (more ≫= releasedBy) ≡ₚ seq (S i) n → viewsLive (freedBy events ∪ freed) more →
  ((events ++ control ++ more) ≫= releasedBy) ≡ₚ pending.*1 ++ seq i (S n) ∧ viewsLive freed (events ++ control ++ more).
Proof.
  intros Hr Hl Hc Hcl Hm Hml. split.
  - rewrite !bind_app, Hc, Hm, Hr. cbn. by rewrite <- app_assoc.
  - apply viewsLive_app. split; [done|]. apply viewsLive_app. split; [done|]. unfold freedBy at 1. rewrite Hc. cbn. by rewrite union_empty_l_L.
Qed.

Lemma reader_buffers rawPackets : ∀ i pending c freed, buffersReady i pending freed →
  ∃ events continue c', readerLoop i rawPackets pending c = (events, continue, c') ∧
    (events ≫= releasedBy) ≡ₚ pending.*1 ++ seq i (length rawPackets) ∧ viewsLive freed events.
Proof.
  induction rawPackets as [|rawPacket rawPackets IH]; intros i pending c freed Hready; cbn [readerLoop].
  { do 3 eexists. split_and!; [done | by rewrite released_flush, app_nil_r |]. destruct Hready. by apply live_flush. }
  destruct (released_around rawPacket i pending freed Hready) as (before & kept & Hbefore & Hreleased & Hlive & Hnext). rewrite Hbefore. cbv zeta in *.
  destruct (parseIncomingPacket cr c rawPacket _ _) as [[packet|e] c1].
  - destruct (IsData (pkt_Opcode packet)); [|destruct (routeToRenegotiationChannel _ packet) as [keyID|]].
    + destruct (released_waiting rawPacket i packet pending freed Hready) as (before' & kept' & Hb & Hsplit & Hl & Hr). rewrite Hbefore in Hb. simplify_eq.
      destruct (IH (S i) (kept' ++ [(i, packet)]) c1 _ Hr) as (events & continue & c' & -> & Hperm & Hl'). do 3 eexists. split_and!; [done| |by apply viewsLive_app].
      rewrite bind_app, Hperm, fmap_app, <- Hsplit, <- !app_assoc. done.
    + destruct (IH (S i) [] c1 _ Hnext) as (events & continue & c' & -> & Hperm & Hl). do 3 eexists. split; [done|].
      by apply (released_then i (length rawPackets) pending freed _ [ControlRouted keyID packet] events).
    + destruct (processIncomingControlPacket c1 packet _) as [outcome c2]. destruct (io_continue outcome).
      * destruct (IH (S i) [] c2 _ Hnext) as (events & continue & c' & -> & Hperm & Hl). do 3 eexists. split; [done|].
        by apply (released_then i (length rawPackets) pending freed _ [ControlHandled packet outcome] events).
      * do 3 eexists. split; [done|]. apply (released_then i (length rawPackets) pending freed _ [ControlHandled packet outcome] (BufferReleased <$> seq (S i) (length rawPackets))); try done.
        -- by rewrite released_list.
        -- apply live_released; [apply NoDup_seq|]. intros j Hj%elem_of_seq. apply (br_coming _ _ _ Hnext). lia.
  - destruct (IH (S i) [] c1 _ Hnext) as (events & continue & c' & -> & Hperm & Hl). do 3 eexists. split; [done|].
    destruct (released_then i (length rawPackets) pending freed _ [] events Hreleased Hlive) as [H1 H2]; [done..|]. cbn [app] in *.
    replace (before ++ BufferReleased i :: flushDataPackets onDataPackets kept ++ events) with ((before ++ BufferReleased i :: flushDataPackets onDataPackets kept) ++ events) by (by rewrite <- app_assoc). done.
Qed.

End Reader.

(** [runSoftResetState]: the outcome of the reset that opens the renegotiation, when this
    end asked for it, and of the renegotiation itself; whether the session is told to end. *)
Definition runSoftResetState {C : Type} (s : tlsPeerSession (C := C)) (sequence : Z) (initiated : option (option goerr)) (renegotiated : result C) (now : Time)
    : list Z * bool * bool * tlsPeerSession :=
  match initiated with
  | Some (Some softResetErr) => let '(channels, promoted, s) := finishSoftReset s sequence (Err softResetErr) now in (channels, promoted, false, s)
  | _ =>
      let '(channels, promoted, s) := finishSoftReset s sequence renegotiated now in
      (channels, promoted, match renegotiated with Err e => goerrIs e ErrAuthenticationFailed | Ok _ => false end, s)
  end.

(** C12: The reader of a session deals with a batch as if it took the packets one by one:
    in the order of arrival, no data packet is moved across a control packet, packets that
    do not parse are skipped, and it stops at the same packet with the control channel in
    the same state.  Every buffer of the batch is released exactly once, also those after
    the packet at which it stops, and never before the data packet that is a view of it has
    been handed on. *)
Theorem reader_round_faithful cr onDataPackets turns rawPackets c :
  ∃ events continue c', readerLoop cr onDataPackets turns 0 rawPackets [] c = (events, continue, c') ∧
    oneByOne cr onDataPackets turns 0 rawPackets c = (handlings events, continue, c') ∧
    (events ≫= releasedBy) ≡ₚ seq 0 (length rawPackets) ∧ viewsLive ∅ events.
Proof.
  destruct (reader_one_by_one cr onDataPackets turns rawPackets 0 [] c) as (events & rest & continue & c' & Hloop & Hone & Hh).
  destruct (reader_buffers cr onDataPackets turns rawPackets 0 [] c ∅) as (events' & continue' & c'' & Hloop' & Hperm & Hlive); [constructor; cbn; [constructor | by intros ? ?%not_elem_of_nil | by intros ? ?%not_elem_of_nil | intros; apply not_elem_of_empty]|].
  rewrite Hloop in Hloop'. simplify_eq. exists events', continue', c''. split_and!; [done | | done | done]. rewrite Hone, Hh. unfold pendingHandlings. by destruct onDataPackets.
Qed.

(** ** The primary control stream *)

(** How far a goroutine is that reads records or writes a payload: it waits for a change
    of the stream ([woken] when the channel it waits on has been closed), uses the
    connection of a channel, has a record of one, or has returned with the channel it
    used, or with an error. *)
Inductive streamUser :=
| UserIdle | UserWaits (woken : bool) | UserUses (channel sequence : Z) | UserHasRecord (channel sequence : Z) | UserReturned (channel : option Z).

(** A channel is known by the sequence of its key state.  The stream, the loop that reads records, and the writer that holds [writeAccess]. *)
Record streamWorld := mkWorld { sw_stream : tlsPrimaryControlStream; sw_reader : streamUser; sw_writer : streamUser }.

(** [close] of the channel wakes those who wait on it. *)
Definition wake (closed : bool) (u : streamUser) : streamUser := match u with UserWaits woken => UserWaits (woken || closed) | u => u end.

Definition afterChange (w : streamWorld) (s : tlsPrimaryControlStream) : streamWorld :=
  let closed := cs_changed (sw_stream w) && negb (cs_changed s) in mkWorld s (wake closed (sw_reader w)) (wake closed (sw_writer w)).

(** The top of both loops: a snapshot, then a wait or the use of the connection. *)
Definition afterSnapshot (s : tlsPrimaryControlStream) : streamUser :=
  match (snapshot s).1 with None => UserWaits false | Some (channel, sequence) => UserUses channel sequence end.

(** The end of a round of [readControlChannelRecord] that has a record. *)
Definition afterRecord (s : tlsPrimaryControlStream) (channel sequence : Z) : streamUser :=
  if isCurrent s sequence then UserReturned (Some channel) else UserIdle.

Inductive streamStep : streamWorld → streamWorld → Prop :=
| StreamInstall w sequence : 0 ≤ sequence → streamStep w (afterChange w (install (sw_stream w) sequence sequence))
| StreamBegin w sequence : 0 ≤ sequence → streamStep w (afterChange w (beginHandover (sw_stream w) sequence))
| StreamAbort w sequence : streamStep w (afterChange w (abortHandover (sw_stream w) sequence))
| ReaderCalls w : sw_reader w ∈ [UserIdle; UserReturned None] ∨ (∃ channel, sw_reader w = UserReturned (Some channel)) →
    streamStep w (mkWorld (snapshot (sw_stream w)).2 (afterSnapshot (sw_stream w)) (sw_writer w))
| ReaderWakes w : sw_reader w = UserWaits true → streamStep w (mkWorld (sw_stream w) UserIdle (sw_writer w))
| ReaderExpires w woken : sw_reader w = UserWaits woken → streamStep w (mkWorld (sw_stream w) (UserReturned None) (sw_writer w))
| ReaderReads w channel sequence : sw_reader w = UserUses channel sequence → streamStep w (mkWorld (sw_stream w) (UserHasRecord channel sequence) (sw_writer w))
| ReaderPolls w channel sequence : sw_reader w = UserUses channel sequence → streamStep w (mkWorld (sw_stream w) UserIdle (sw_writer w))
| ReaderFails w channel sequence : sw_reader w = UserUses channel sequence → streamStep w (mkWorld (sw_stream w) (UserReturned None) (sw_writer w))
| ReaderChecks w channel sequence : sw_reader w = UserHasRecord channel sequence →
    streamStep w (mkWorld (sw_stream w) (afterRecord (sw_stream w) channel sequence) (sw_writer w))
| WriterCalls w : sw_writer w ∈ [UserIdle; UserReturned None] ∨ (∃ channel, sw_writer w = UserReturned (Some channel)) →
    streamStep w (mkWorld (snapshot (sw_stream w)).2 (sw_reader w) (afterSnapshot (sw_stream w)))
| WriterWakes w : sw_writer w = UserWaits true → streamStep w (mkWorld (sw_stream w) (sw_reader w) UserIdle)
| WriterExpires w woken : sw_writer w = UserWaits woken → streamStep w (mkWorld (sw_stream w) (sw_reader w) (UserReturned None))
| WriterWrites w channel sequence : sw_writer w = UserUses channel sequence → streamStep w (mkWorld (sw_stream w) (sw_reader w) (UserReturned (Some channel))).

Definition newStreamWorld : streamWorld := mkWorld (mkStream 0 0 0 false false) UserIdle UserIdle.

(** Whether the stream can be used now. *)
Definition usable (s : tlsPrimaryControlStream) : bool := (cs_handover s =? 0) && cs_installed s.

(** Who waits has reason to, and holds the channel that the next change closes; who uses a
    connection knows its sequence. *)
Definition userOk (s : tlsPrimaryControlStream) (u : streamUser) : Prop :=
  match u with
  | UserWaits false => usable s = false ∧ cs_changed s = true
  | UserUses channel sequence | UserHasRecord channel sequence => channel = sequence
  | _ => True
  end.

Record streamOk (s : tlsPrimaryControlStream) : Prop := {
  sk_channel : cs_installed s = true → cs_channel s = cs_sequence s;
  sk_fresh : cs_installed s = false → cs_sequence s = 0;
  sk_handover : cs_handover s = 0 ∨ cs_sequence s < cs_handover s;
  sk_positive : 0 ≤ cs_sequence s;
}.

Definition worldOk (w : streamWorld) : Prop := streamOk (sw_stream w) ∧ userOk (sw_stream w) (sw_reader w) ∧ userOk (sw_stream w) (sw_writer w).

(** A change of the stream: nothing, or a signal to everybody. *)
Definition signalled (s s' : tlsPrimaryControlStream) : Prop := s' = s ∨ cs_changed s' = false.

Lemma signalLocked_changed s : cs_changed (signalLocked s) = false.
Proof. unfold signalLocked. by destruct (cs_changed s) eqn:H. Qed.

Lemma signalLocked_fields s : cs_channel (signalLocked s) = cs_channel s ∧ cs_sequence (signalLocked s) = cs_sequence s ∧
  cs_handover (signalLocked s) = cs_handover s ∧ cs_installed (signalLocked s) = cs_installed s.
Proof. unfold signalLocked. by destruct (cs_changed s). Qed.

Lemma after_change_user s s' u : signalled s s' → userOk s u → userOk s' (wake (cs_changed s && negb (cs_changed s')) u).
Proof.
  intros [->|Hs] Hu.
  - destruct u as [|woken| | |]; try done. cbn. by rewrite andb_negb_r, orb_false_r.
  - destruct u as [|[]| | |]; try done. destruct Hu as [_ Hc]. cbn. by rewrite Hc, Hs.
Qed.

Lemma stream_install_ok s sequence : 0 ≤ sequence → streamOk s → streamOk (install s sequence sequence) ∧ signalled s (install s sequence sequence) ∧ cs_sequence s ≤ cs_sequence (install s sequence sequence).
Proof.
  intros Hseq [H1 H2 H3 H4]. unfold install. destruct (cs_installed s && (sequence <? cs_sequence s)) eqn:Hold; [split_and!; [by constructor | by left | done]|].
  assert (Hle : cs_sequence s ≤ sequence). { destruct (cs_installed s); [cbn in Hold; lia | rewrite H2; [lia | done]]. }
  cbn. match goal with |- context [signalLocked ?x] => destruct (signalLocked_fields x) as (E1 & E2 & E3 & E4); pose proof (signalLocked_changed x) end.
  destruct (Z.leb_spec (cs_handover s) sequence); cbn in *; (split_and!; [constructor; rewrite ?E1, ?E2, ?E3, ?E4; cbn; try done; try (by left); by right | by right | by rewrite E2]).
Qed.

Lemma stream_begin_ok s sequence : streamOk s → streamOk (beginHandover s sequence) ∧ signalled s (beginHandover s sequence) ∧ cs_sequence s ≤ cs_sequence (beginHandover s sequence).
Proof.
  intros [H1 H2 H3 H4]. unfold beginHandover. destruct (_ || _) eqn:Hb; [split_and!; [by constructor | by left | done]|].
  apply orb_false_elim in Hb as [Hb1 Hb2]. cbn. match goal with |- context [signalLocked ?x] => destruct (signalLocked_fields x) as (E1 & E2 & E3 & E4); pose proof (signalLocked_changed x) end.
  cbn in *. split_and!; [constructor; rewrite ?E1, ?E2, ?E3, ?E4; try done; right; lia | by right | by rewrite E2].
Qed.

Lemma stream_abort_ok s sequence : streamOk s → streamOk (abortHandover s sequence) ∧ signalled s (abortHandover s sequence) ∧ cs_sequence s ≤ cs_sequence (abortHandover s sequence).
Proof.
  intros [H1 H2 H3 H4]. unfold abortHandover. destruct (negb _) eqn:Hb; [split_and!; [by constructor | by left | done]|].
  cbn. match goal with |- context [signalLocked ?x] => destruct (signalLocked_fields x) as (E1 & E2 & E3 & E4); pose proof (signalLocked_changed x) end.
  cbn in *. split_and!; [constructor; rewrite ?E1, ?E2, ?E3, ?E4; try done; by left | by right | by rewrite E2].
Qed.

(** A snapshot makes the channel to wait on, and changes nothing else. *)
Lemma snapshot_ok s : streamOk s → streamOk (snapshot s).2 ∧ userOk (snapshot s).2 (afterSnapshot s) ∧ (∀ u, userOk s u → userOk (snapshot s).2 u) ∧ usable (snapshot s).2 = usable s.
Proof.
  intros [H1 H2 H3 H4]. split_and!; [by constructor | | |done].
  - unfold afterSnapshot, snapshot. cbn. destruct (cs_handover s =? 0) eqn:Hh, (cs_installed s) eqn:Hi; cbn; try (by rewrite H1); (split; [|done]); unfold usable; cbn; by rewrite ?Hh, ?Hi.
  - intros [|[]| | |] Hu; try done. by destruct Hu.
Qed.

Lemma streamStep_ok w w' : streamStep w w' → worldOk w → worldOk w'.
Proof.
  assert (Hchange : ∀ s', streamOk s' ∧ signalled (sw_stream w) s' ∧ cs_sequence (sw_stream w) ≤ cs_sequence s' → worldOk w → worldOk (afterChange w s')).
  { intros s' (Hs & Hsig & _) (_ & Hr & Hw). split_and!; [done | by apply after_change_user..]. }
  intros Hstep Hok. destruct Hok as (Hs & Hr & Hw). destruct Hstep; try (by apply Hchange; [first [by apply stream_install_ok | by apply stream_begin_ok | by apply stream_abort_ok] | split_and!]).
  all: try (destruct (snapshot_ok _ Hs) as (H1 & H2 & H3 & _); split_and!; cbn; auto; fail).
  all: try (match goal with H : _ = UserUses _ _ |- _ => rewrite H in * end; by split_and!).
  all: try (by split_and!).
  match goal with H : _ = UserHasRecord _ _ |- _ => rewrite H in * end. split_and!; cbn; try done. unfold afterRecord. by destruct (isCurrent _ _).
Qed.

(** The stream only moves on to later key states. *)
Lemma stream_moves_on w w' : worldOk w → streamStep w w' → cs_sequence (sw_stream w) ≤ cs_sequence (sw_stream w').
Proof.
  intros (Hs & _) Hstep. destruct Hstep; cbn; try done; [by apply stream_install_ok | by apply stream_begin_ok | by apply stream_abort_ok].
Qed.

(** A record is handed over by the check of [isCurrent] alone. *)
Lemma record_of_primary w w' channel : worldOk w → streamStep w w' → sw_reader w' = UserReturned (Some channel) → sw_reader w ≠ sw_reader w' →
  usable (sw_stream w') = true ∧ cs_channel (sw_stream w') = channel.
Proof.
  intros (Hs & Hr & _) Hstep Hret Hne. destruct Hstep; cbn in *; try congruence;
    try (destruct (sw_reader w); cbn in *; congruence).
  - unfold afterSnapshot in Hret. by destruct (snapshot (sw_stream w)).1 as [[]|].
  - match goal with H : sw_reader w = UserHasRecord _ _ |- _ => rewrite H in Hr end. cbn in Hr. subst. unfold afterRecord in Hret.
    destruct (isCurrent (sw_stream w) sequence) eqn:Hcur; [|done]. simplify_eq. unfold isCurrent in Hcur. apply andb_prop in Hcur as [Husable Hseq].
    split; [done|]. apply andb_prop in Husable as [_ Hi]. rewrite (sk_channel _ Hs Hi). lia.
Qed.

Lemma write_of_primary w w' channel sequence : streamStep w w' → sw_writer w' = UserUses channel sequence → sw_writer w ≠ sw_writer w' →
  usable (sw_stream w') = true ∧ cs_channel (sw_stream w') = channel.
Proof.
  intros Hstep Hret Hne. destruct Hstep; cbn in *; try congruence; try (destruct (sw_writer w); cbn in *; congruence).
  unfold afterSnapshot, snapshot, usable in *. cbn in *. destruct (cs_handover (sw_stream w) =? 0), (cs_installed (sw_stream w)); cbn in *; by simplify_eq.
Qed.

(** C13: The primary control stream serves its users across renegotiations.  In every
    interleaving of installed channels, handovers that begin and are aborted, the loop
    that reads records and a writer: who waits without having been woken has reason to
    (a handover is under way, or there is no channel yet), so no wake-up is lost; a
    handover is always to a later key state than the one in use, and the stream never
    goes back to an earlier one; a record is handed to the session only if it was read
    from the channel that is primary at that time and no handover is under way; and a
    writer uses the channel that was primary when it looked. *)
Theorem primary_stream_served w :
  rtc streamStep newStreamWorld w →
  (sw_reader w = UserWaits false ∨ sw_writer w = UserWaits false → usable (sw_stream w) = false) ∧
  (cs_handover (sw_stream w) = 0 ∨ cs_sequence (sw_stream w) < cs_handover (sw_stream w)) ∧
  ∀ w', streamStep w w' →
    cs_sequence (sw_stream w) ≤ cs_sequence (sw_stream w') ∧
    (∀ channel, sw_reader w' = UserReturned (Some channel) → sw_reader w ≠ sw_reader w' → usable (sw_stream w') = true ∧ cs_channel (sw_stream w') = channel) ∧
    ∀ channel sequence, sw_writer w' = UserUses channel sequence → sw_writer w ≠ sw_writer w' → usable (sw_stream w') = true ∧ cs_channel (sw_stream w') = channel.
Proof.
  intros Hrun. assert (Hok : worldOk w).
  { apply (rtc_ind_r worldOk) in Hrun; [exact Hrun | | intros y z _ Hstep IH; by eapply streamStep_ok]. split_and!; [constructor; cbn; try done; by left | done | done]. }
  split_and!.
  - destruct Hok as (_ & Hr & Hw). intros [H|H]; rewrite H in *; [apply Hr | apply Hw].
  - by destruct Hok as ([] & _).
  - intros w' Hstep. split_and!; [by apply stream_moves_on | intros; by eapply record_of_primary | intros; by eapply write_of_primary].
Qed.

(** ** Witness *)

(** The reader waits through a handover and then reads from the new channel. *)
Definition servedWorld : streamWorld := mkWorld (mkStream 1 1 0 true true) (UserHasRecord 1 1) UserIdle.

Lemma served_world_reached : rtc streamStep newStreamWorld servedWorld.
Proof.
  eapply rtc_l; [by apply (StreamInstall _ 0)|]. eapply rtc_l; [by apply (StreamBegin _ 1)|]. eapply rtc_l; [apply ReaderCalls; left; constructor|].
  eapply rtc_l; [by apply (StreamInstall _ 1)|]. eapply rtc_l; [by apply ReaderWakes|]. eapply rtc_l; [apply ReaderCalls; left; constructor|].
  apply rtc_once. exact (ReaderReads (mkWorld (mkStream 1 1 0 true true) (UserUses 1 1) UserIdle) 1 1 eq_refl).
Qed.

Lemma primary_stream_served_witness :
  cs_channel (sw_stream servedWorld) = 1 ∧ usable (sw_stream servedWorld) = true.
Proof.
  destruct (primary_stream_served servedWorld served_world_reached) as (_ & _ & H).
  assert (Hstep : streamStep servedWorld (mkWorld (mkStream 1 1 0 true true) (UserReturned (Some 1)) UserIdle)) by (exact (ReaderChecks servedWorld 1 1 eq_refl)).
  destruct (H _ Hstep) as (_ & Hread & _). destruct (Hread 1 eq_refl ltac:(discriminate)) as [Hu Hc]. split; [exact Hc | exact Hu].
Defined.
