(* ===== verification/Buffers.v ===== *)
(** * Packet buffers ([peer_data.go], [client_data.go], [server_data.go], [server_tls.go],
      [udp_peer_conn.go], [proto/connection.go], the codecs' [EncodeBuffer])

    The functions that write packets in buffers own them: each buffer must be released
    once, by whoever has it last, and not be used afterwards.  Here a buffer is an object
    with an identity, room in front of and behind its octets; what a function does to
    buffers is the log of its actions.  A batch writer of the [sing] library takes the
    buffers it is given over, whatever it returns. *)

From S2P Require Import Prelude GoStrings Packet Session Netip RouteRegistry Fragment Crypto Codec CodecLaws Compression Mss KeyState DataQueue DataPath Stream Auth Supervisor.

(** ** Buffers and their log *)

Record buffer := mkBuffer { b_id : nat; b_start : nat; b_free : nat; b_data : bytes }.

Inductive bufferAction := Made (id : nat) | Used (id : nat) | Freed (id : nat).

(** A computation on buffers: [None] is a panic, the counter is the next identity. *)
Definition M (A : Type) : Type := nat → option (A * list bufferAction * nat).

#[export] Instance M_ret : MRet M := λ A a next, Some (a, [], next).
#[export] Instance M_bind : MBind M := λ A B f m next,
  match m next with
  | None => None
  | Some (a, log, next) => match f a next with None => None | Some (b, log', next) => Some (b, log ++ log', next) end
  end.

Definition act (action : bufferAction) : M unit := λ next, Some ((), [action], next).
Definition Release (b : buffer) : M unit := act (Freed (b_id b)).
Definition Bytes (b : buffer) : M bytes := _ ← act (Used (b_id b)); mret (b_data b).

Fixpoint ReleaseMulti (buffers : list buffer) : M unit :=
  match buffers with [] => mret () | b :: buffers => _ ← Release b; ReleaseMulti buffers end.

(** [NewSize] of a start, the octets and some more, [Resize] and [Write]. *)
Definition makeBuffer (start free : nat) (data : bytes) : M buffer := λ next, Some (mkBuffer next start free data, [Made next], S next).

(** [ExtendHeader] with the octets that are put there; it panics without the room. *)
Definition ExtendHeader (b : buffer) (header : bytes) : M buffer := λ next,
  if (b_start b <? length header)%nat then None
  else Some (mkBuffer (b_id b) (b_start b - length header) (b_free b) (header ++ b_data b), [Used (b_id b)], next).

(** A copy with the room asked for, in place of the buffer. *)
Definition moveTo (start free : nat) (b : buffer) : M buffer :=
  data ← Bytes b; fresh ← makeBuffer start free data; _ ← Release b; mret fresh.

(** The log is safe if what is used and released is there; the result is what is left. *)
Fixpoint replay (live : gset nat) (log : list bufferAction) : option (gset nat) :=
  match log with
  | [] => Some live
  | Made id :: log => if decide (id ∈ live) then None else replay ({[id]} ∪ live) log
  | Used id :: log => if decide (id ∈ live) then replay live log else None
  | Freed id :: log => if decide (id ∈ live) then replay (live ∖ {[id]}) log else None
  end.

(** ** Codecs *)

(** [EncodeBuffer] of the codecs that make a new packet: [tlsCBCDataCodec],
    [tlsStreamDataCodec] and [staticKeyDataCodec]. *)
Definition copyEncodeBuffer (encode : bytes → result bytes) (payload : buffer) : M (result buffer) :=
  data ← Bytes payload;
  match encode data with
  | Err e => _ ← Release payload; mret (Err e)
  | Ok encodedPayload => encodedBuffer ← makeBuffer (b_start payload) 0 encodedPayload; _ ← Release payload; mret (Ok encodedBuffer)
  end.

(** [EncodeBuffer] of [tlsGCMDataCodec], in place: [encode] gives the header of 20 octets
    and the ciphertext. *)
Definition encodedHeaderSize : nat := 4 + tlsDataAEADTagSize.

Definition aeadEncodeBuffer (encode : bytes → result bytes) (validID : bool) (payload : buffer) : M (result buffer) :=
  if negb validID then _ ← Release payload; mret (Err (ErrNew "invalid data packet id")) else
  payload ← (if (b_start payload <? encodedHeaderSize)%nat || (b_free payload <? tlsDataAEADTagSize)%nat
             then moveTo (Nat.max (b_start payload) encodedHeaderSize) tlsDataAEADTagSize payload else mret payload);
  data ← Bytes payload;
  match encode data with
  | Err e => _ ← Release payload; mret (Err e)
  | Ok encodedPayload =>
      let ciphertext := mkBuffer (b_id payload) (b_start payload) (b_free payload) (drop encodedHeaderSize encodedPayload) in
      encoded ← ExtendHeader ciphertext (take encodedHeaderSize encodedPayload); mret (Ok encoded)
  end.

(** ** Receiving *)

(** [newDataPacketBuffer]. *)
Definition newDataPacketBuffer (headroom : Z) (packet : bytes) : M buffer := makeBuffer (Z.to_nat headroom) 0 packet.

(** [DecodeBuffer] of the same codecs: the payload goes into a buffer with room in front. *)
Definition copyDecodeBuffer (decode : bytes → result (Z * bytes)) (headroom : Z) (payload : bytes) : M (result (Z * buffer)) :=
  match decode payload with
  | Err e => mret (Err e)
  | Ok (packetID, decodedPayload) => b ← newDataPacketBuffer headroom decodedPayload; mret (Ok (packetID, b))
  end.

(** [decodeIncomingDataFramingBuffer]: [None] without framing; a payload that is not
    complete gives nothing yet. *)
Definition decodeIncomingDataFramingBuffer (decode : option (bytes → result (option bytes))) (headroom : Z) (payload : buffer) : M (result (option buffer)) :=
  match decode with
  | None => mret (Ok (Some payload))
  | Some decode =>
      data ← Bytes payload;
      _ ← Release payload;
      match decode data with
      | Err e => mret (Err e)
      | Ok None => mret (Ok None)
      | Ok (Some decodedBytes) => b ← newDataPacketBuffer headroom decodedBytes; mret (Ok (Some b))
      end
  end.

(** A call of the client's [readDataPackets], and a round of its loop: it returns packets
    and an error, or waits for the queue, the end of reading or the caller's context. *)
Inductive dataReadRound := DataRead (packets : list bytes) (err : option clientErr) | DataReadWaits.

Definition readDataRound (l : clientLifecycle) (maxPackets : nat) (q : dataPacketQueue (T := bytes)) : option (dataReadRound * dataPacketQueue) :=
  if bool_decide (lc_dataReadDone l ∈ lc_closedChannels l) then Some (DataRead [] (currentDataReadError l), q) else
  '(packets, q) ← Pop [] q maxPackets None; Some (match packets with [] => DataReadWaits | _ => DataRead packets None end, q).

Definition clientReadDataPackets (l : clientLifecycle) (maxPackets : nat) (q : dataPacketQueue (T := bytes)) : option (dataReadRound * dataPacketQueue) :=
  match currentDataReadError l with Some e => Some (DataRead [] (Some e), q) | None => readDataRound l maxPackets q end.

(** [ReadDataPacket]: the octets are copied out of the buffer. *)
Definition readDataPacket (packetBuffer : buffer) : M bytes := payload ← Bytes packetBuffer; _ ← Release packetBuffer; mret payload.

(** ** Connections *)

(** The datagram writer and the writer of the server's socket, without a batch writer:
    one send per packet. *)
Fixpoint sendBuffers (i : nat) (packetBuffers : list buffer) (sendErrs : list (option goerr)) : M (option (nat * goerr)) :=
  match packetBuffers with
  | [] => mret None
  | b :: packetBuffers =>
      _ ← Bytes b; _ ← Release b;
      match head sendErrs with
      | Some (Some err) => _ ← ReleaseMulti packetBuffers; mret (Some (i, err))
      | _ => sendBuffers (S i) packetBuffers (tail sendErrs)
      end
  end.

(** A batch writer takes the buffers over. *)
Definition batchWrite (packetBuffers : list buffer) (err : option goerr) : M (option goerr) :=
  _ ← ReleaseMulti packetBuffers; mret err.

(** How many of the buffers come before the first that is too large. *)
Definition validCount (packetBuffers : list buffer) : nat * option goerr :=
  let '(valid, err) := validPrefix (b_data <$> packetBuffers) in (length valid, err).

Definition datagramWritePacketBuffers (batchWriter : option (option goerr)) (sendErrs : list (option goerr)) (packetBuffers : list buffer) : M (nat * option goerr) :=
  let '(packetCount, validationErr) := validCount packetBuffers in
  if decide (packetCount = 0)%nat then _ ← ReleaseMulti packetBuffers; mret (0%nat, validationErr) else
  _ ← ReleaseMulti (drop packetCount packetBuffers);
  match batchWriter with
  | Some outcome =>
      err ← batchWrite (take packetCount packetBuffers) outcome;
      mret (match err with Some err => (0%nat, Some err) | None => (packetCount, validationErr) end)
  | None =>
      failed ← sendBuffers 0 (take packetCount packetBuffers) sendErrs;
      mret (match failed with Some (i, err) => (i, Some err) | None => (packetCount, validationErr) end)
  end.

Definition udpWritePacketBuffers (batchWriter : option (option goerr)) (sendErrs : list (option goerr)) (remote : bool) (packetBuffers : list buffer) : M (nat * option goerr) :=
  if negb remote then _ ← ReleaseMulti packetBuffers; mret (0%nat, Some net_ErrClosed) else
  match batchWriter, packetBuffers with
  | Some outcome, _ :: _ => err ← batchWrite packetBuffers outcome; mret (match err with Some err => (0%nat, Some err) | None => (length packetBuffers, None) end)
  | _, _ =>
      failed ← sendBuffers 0 packetBuffers sendErrs;
      mret (match failed with Some (i, err) => (i, Some err) | None => (length packetBuffers, None) end)
  end.

(** The stream: the length is put in front of every packet that is not empty. *)
Fixpoint frameBuffers (i : nat) (packetBuffers : list buffer) : M (list (nat * buffer)) :=
  match packetBuffers with
  | [] => mret []
  | b :: packetBuffers =>
      match b_data b with
      | [] => _ ← Release b; frameBuffers (S i) packetBuffers
      | _ =>
          b ← (if (b_start b <? streamPacketLengthSize)%nat then moveTo streamPacketLengthSize 0 b else mret b);
          framed ← ExtendHeader b (PutUint16 (lenZ (b_data b)));
          rest ← frameBuffers (S i) packetBuffers; mret ((i, framed) :: rest)
      end
  end.

Fixpoint useAll (buffers : list buffer) : M (list bytes) :=
  match buffers with [] => mret [] | b :: buffers => data ← Bytes b; rest ← useAll buffers; mret (data :: rest) end.

Definition streamWritePacketBuffers (outcome : Stream.writeOutcome) (packetBuffers : list buffer) : M writeResult :=
  let '(packetCount, validationErr) := validCount packetBuffers in
  if decide (packetCount = 0)%nat then _ ← ReleaseMulti packetBuffers; mret (mkWriteResult 0 validationErr false) else
  framed ← frameBuffers 0 (take packetCount packetBuffers);
  _ ← ReleaseMulti (drop packetCount packetBuffers);
  match framed with
  | [] => mret (mkWriteResult packetCount validationErr false)
  | _ =>
      frames ← useAll framed.*2;
      let r := writeFramesLocked outcome (length <$> frames) framed.*1 packetCount in
      _ ← ReleaseMulti framed.*2;
      mret (match wr_err r with Some _ => r | None => mkWriteResult (wr_count r) validationErr (wr_closed r) end)
  end.

(** ** A session's write *)

(** The empty payloads are released, the others kept. *)
Fixpoint retainPayloads (payloads : list buffer) : M (list buffer) :=
  match payloads with
  | [] => mret []
  | payload :: payloads =>
      match b_data payload with
      | [] => _ ← Release payload; retainPayloads payloads
      | _ => rest ← retainPayloads payloads; mret (payload :: rest)
      end
  end.

(** The hook of a server, and of a client without framing: the segment size is clamped in
    place. *)
Fixpoint clampBuffers (clamp : bytes → bytes) (payloads : list buffer) : M (list (list buffer)) :=
  match payloads with
  | [] => mret []
  | payload :: payloads =>
      data ← Bytes payload;
      rest ← clampBuffers clamp payloads;
      mret ([mkBuffer (b_id payload) (b_start payload) (b_free payload) (clamp data)] :: rest)
  end.

(** The hook of a client with framing; [encode] is [Encode] of the framing on what the
    clamp leaves, one outcome per payload. *)
Fixpoint makeAll (start free : nat) (datas : list bytes) : M (list buffer) :=
  match datas with [] => mret [] | data :: datas => b ← makeBuffer start free data; rest ← makeAll start free datas; mret (b :: rest) end.

Fixpoint frameOutgoing (encode : nat → bytes → result (list bytes)) (i : nat) (payloads : list buffer) : M (list (list buffer)) :=
  match payloads with
  | [] => mret []
  | payload :: payloads =>
      data ← Bytes payload;
      _ ← Release payload;
      match encode i data with
      | Err _ => rest ← frameOutgoing encode (S i) payloads; mret ([] :: rest)
      | Ok outgoingPayloads =>
          outgoingPayloadBuffers ← makeAll (b_start payload) tlsDataAEADTagSize outgoingPayloads;
          rest ← frameOutgoing encode (S i) payloads; mret (outgoingPayloadBuffers :: rest)
      end
  end.

Section Write.
(** The sizes of the header of the transport and of the packet with it, the header of a
    packet (with the peer id or without), the codec, and the connection. *)
Context (transportHeaderSize : nat) (header : bytes).
Context (encodeBuffer : nat → buffer → M (result buffer)) (writePacketBuffers : list buffer → M (nat * option goerr)).

Definition requiredHeadroom : nat := transportHeaderSize + length header + 4 + tlsDataAEADTagSize.

(** The room for what is put in front, and a packet from a payload. *)
Definition encodePacketBuffer (dataPacketIndex : nat) (outgoingPayload : buffer) : M (result buffer) :=
  outgoingPayload ← (if (b_start outgoingPayload <? requiredHeadroom)%nat || (b_free outgoingPayload <? tlsDataAEADTagSize)%nat
                     then moveTo requiredHeadroom tlsDataAEADTagSize outgoingPayload else mret outgoingPayload);
  encodedPayload ← encodeBuffer dataPacketIndex outgoingPayload;
  match encodedPayload with
  | Err e => mret (Err e)
  | Ok encodedPayload => packet ← ExtendHeader encodedPayload header; mret (Ok packet)
  end.

(** The loops over the payloads and their frames, which are one loop over all frames; an
    error releases the frames to come and the packets made. *)
Fixpoint encodeBuffers (dataPacketIndex : nat) (outgoingPayloads encodedPackets : list buffer) : M (result (list buffer)) :=
  match outgoingPayloads with
  | [] => mret (Ok encodedPackets)
  | outgoingPayload :: outgoingPayloads =>
      encoded ← encodePacketBuffer dataPacketIndex outgoingPayload;
      match encoded with
      | Err e => _ ← ReleaseMulti outgoingPayloads; _ ← ReleaseMulti encodedPackets; mret (Err e)
      | Ok packet => encodeBuffers (S dataPacketIndex) outgoingPayloads (encodedPackets ++ [packet])
      end
  end.

(** [writeDataPacketBuffersLocked]; [ready] is whether there is a codec to send with,
    [outgoingDataBuffers] the hook, [packetIDs] the outcome of [NewDataPacketIDs]. *)
Definition writeBuffersLocked (ready : bool) (outgoingDataBuffers : list buffer → M (list (list buffer))) (packetIDs : nat → option goerr) (payloads : list buffer)
    : M (option goerr) :=
  retained ← retainPayloads payloads;
  match retained with
  | [] => mret None
  | _ =>
      if negb ready then _ ← ReleaseMulti retained; mret (Some ErrDataChannelNotReady) else
      preparedPayloads ← outgoingDataBuffers retained;
      if (sum_list_with length preparedPayloads =? 0)%nat then mret None else
      match packetIDs (sum_list_with length preparedPayloads) with
      | Some e => _ ← ReleaseMulti (concat preparedPayloads); mret (Some e)
      | None =>
          encoded ← encodeBuffers 0 (concat preparedPayloads) [];
          match encoded with
          | Err e => mret (Some e)
          | Ok packetBuffers => '(_, writeErr) ← writePacketBuffers packetBuffers; mret writeErr
          end
      end
  end.

Definition WriteBuffers (ready : bool) (outgoingDataBuffers : list buffer → M (list (list buffer))) (packetIDs : nat → option goerr) (payloads : list buffer)
    : M (option goerr) :=
  match payloads with [] => mret None | _ => writeBuffersLocked ready outgoingDataBuffers packetIDs payloads end.

End Write.

(** The session of a static key copies the octets. *)
Definition staticWriteBuffers (write : list bytes → option goerr) (packetBuffers : list buffer) : M (option goerr) :=
  packets ← useAll packetBuffers; _ ← ReleaseMulti packetBuffers; mret (write packets).

(** The client, and the servers, which look for a session first. *)
Definition writeToSession (refused : option goerr) (write : list buffer → M (option goerr)) (packetBuffers : list buffer) : M (option goerr) :=
  match packetBuffers, refused with
  | [], _ => mret None
  | _, Some e => _ ← ReleaseMulti packetBuffers; mret (Some e)
  | _, None => write packetBuffers
  end.

(** ** Writing by destination *)

Section ByDestination.
Context (write : peerRoute → list buffer → M (option goerr)).

Definition flushBuffers (route : peerRoute) (packetBuffers : list buffer) : M (option goerr) :=
  match packetBuffers with [] => mret None | _ => write route packetBuffers end.

#[local] Instance peerRoute_dec : EqDecision peerRoute.
Proof. solve_decision. Defined.

Fixpoint bufferDestinationLoop (currentRoute : peerRoute) (current : list buffer) (packetBuffers : list (buffer * peerRouteLookup))
    : M (list RouteMissError * option goerr) :=
  match packetBuffers with
  | [] => err ← flushBuffers currentRoute current; mret ([], err)
  | (b, lookup) :: packetBuffers =>
      let failed (e : goerr) := (_ ← Release b; _ ← ReleaseMulti packetBuffers.*1; mret ([], Some e) : M (list RouteMissError * option goerr)) in
      if negb (pl_found lookup) then
        err ← flushBuffers currentRoute current;
        match err with
        | Some e => failed e
        | None =>
            packet ← Bytes b;
            _ ← Release b;
            match newRouteMissError (pl_destination lookup) packet with
            | inl e => _ ← ReleaseMulti packetBuffers.*1; mret ([], Some e)
            | inr miss => '(misses, err) ← bufferDestinationLoop currentRoute [] packetBuffers; mret (miss :: misses, err)
            end
        end
      else
        let route := pl_route lookup in
        match current with
        | [] => bufferDestinationLoop route [b] packetBuffers
        | _ =>
            if decide (route = currentRoute) then bufferDestinationLoop currentRoute (current ++ [b]) packetBuffers else
            err ← flushBuffers currentRoute current;
            match err with Some e => failed e | None => bufferDestinationLoop route [b] packetBuffers end
        end
  end.

Definition WriteDataPacketBuffersByDestination (running : option goerr) (routes : peerRouteRegistry) (packetBuffers : list buffer)
    : M (list RouteMissError * option goerr) :=
  match packetBuffers, running with
  | [], _ => mret ([], None)
  | _, Some e => _ ← ReleaseMulti packetBuffers; mret ([], Some e)
  | _, None => packets ← useAll packetBuffers; bufferDestinationLoop (mkRoute "" None) [] (zip packetBuffers (LookupPackets routes packets))
  end.

End ByDestination.

(** ** Sessions *)

Inductive codecKind := CopyCodec (encode : nat → bytes → result bytes) | AEADCodec (encode : nat → bytes → result bytes) (validID : nat → bool).
Inductive hookKind := ClampHook (clamp : bytes → bytes) | FramingHook (encode : nat → bytes → result (list bytes)).
Inductive connectionKind :=
| DatagramConnection (batchWriter : option (option goerr)) (sendErrs : list (option goerr))
| UDPPeerConnection (batchWriter : option (option goerr)) (sendErrs : list (option goerr)) (remote : bool)
| StreamConnection (outcome : Stream.writeOutcome).

Definition encodeBufferOf (codec : codecKind) (i : nat) : buffer → M (result buffer) :=
  match codec with CopyCodec encode => copyEncodeBuffer (encode i) | AEADCodec encode validID => aeadEncodeBuffer (encode i) (validID i) end.

Definition outgoingDataBuffersOf (hook : hookKind) (payloads : list buffer) : M (list (list buffer)) :=
  match hook with ClampHook clamp => clampBuffers clamp payloads | FramingHook encode => frameOutgoing encode 0 payloads end.

Definition writePacketBuffersOf (connection : connectionKind) (packetBuffers : list buffer) : M (nat * option goerr) :=
  match connection with
  | DatagramConnection batchWriter sendErrs => datagramWritePacketBuffers batchWriter sendErrs packetBuffers
  | UDPPeerConnection batchWriter sendErrs remote => udpWritePacketBuffers batchWriter sendErrs remote packetBuffers
  | StreamConnection outcome => r ← streamWritePacketBuffers outcome packetBuffers; mret (wr_count r, wr_err r)
  end.

(** Where the packets of a route go: nowhere, to a session with TLS, or to the session of
    a static key. *)
Inductive target :=
| NoSession (e : goerr)
| TLSSession (transportHeaderSize : nat) (header : bytes) (codec : codecKind) (hook : hookKind) (connection : connectionKind) (ready : bool) (packetIDs : nat → option goerr)
| StaticSession (write : list bytes → option goerr).

Definition writeTarget (t : target) (packetBuffers : list buffer) : M (option goerr) :=
  match t with
  | NoSession e => writeToSession (Some e) (λ _, mret None) packetBuffers
  | TLSSession transportHeaderSize header codec hook connection ready packetIDs =>
      writeToSession None (WriteBuffers transportHeaderSize header (encodeBufferOf codec) (writePacketBuffersOf connection) ready (outgoingDataBuffersOf hook) packetIDs) packetBuffers
  | StaticSession write => writeToSession None (staticWriteBuffers write) packetBuffers
  end.

(** ** Ownership *)

Definition ids (buffers : list buffer) : gset nat := list_to_set (b_id <$> buffers).
Definition distinct (buffers : list buffer) : Prop := NoDup (b_id <$> buffers).

(** [m] does not panic and its log is safe on a heap of live buffers. *)
Definition spec {A} (pre : gset nat) (m : M A) (post : A → gset nat → Prop) : Prop :=
  ∀ next, (∀ id, id ∈ pre → (id < next)%nat) → ∃ a log next' left, m next = Some (a, log, next') ∧ replay pre log = Some left ∧
    (∀ id, id ∈ left → (id < next')%nat) ∧ post a left.

Lemma replay_app log log' : ∀ live, replay live (log ++ log') = (replay live log ≫= λ live, replay live log').
Proof. induction log as [|[] log IH]; intros live; cbn; [done|..]; case_decide; auto. Qed.

Lemma spec_ret {A} pre (a : A) (post : A → gset nat → Prop) : post a pre → spec pre (mret a) post.
Proof. intros Hp next Hn. by exists a, [], next, pre. Qed.

Lemma spec_bind {A B} pre (m : M A) (f : A → M B) mid post :
  spec pre m mid → (∀ a left, mid a left → spec left (f a) post) → spec pre (m ≫= f) post.
Proof.
  intros Hm Hf next Hn. destruct (Hm next Hn) as (a & log & next' & left & E & Hr & Hb & Hmid).
  destruct (Hf a left Hmid next' Hb) as (b & log' & next'' & left' & E' & Hr' & Hb' & Hpost).
  exists b, (log ++ log'), next'', left'. unfold mbind, M_bind. rewrite E, E', replay_app, Hr. done.
Qed.

Lemma spec_mono {A} pre (m : M A) (mid post : A → gset nat → Prop) : spec pre m mid → (∀ a left, mid a left → post a left) → spec pre m post.
Proof. intros Hm H next Hn. destruct (Hm next Hn) as (a & log & next' & left & ? & ? & ? & ?). exists a, log, next', left. auto. Qed.

Lemma spec_release pre b : b_id b ∈ pre → spec pre (Release b) (λ _ left, left = pre ∖ {[b_id b]}).
Proof.
  intros Hin next Hn. exists (), [Freed (b_id b)], next, (pre ∖ {[b_id b]}). cbn. rewrite decide_True by done. split_and!; [done | done | | done].
  intros id [Hid _]%elem_of_difference. by apply Hn.
Qed.

Lemma spec_bytes pre b : b_id b ∈ pre → spec pre (Bytes b) (λ data left, left = pre ∧ data = b_data b).
Proof. intros Hin next Hn. exists (b_data b), [Used (b_id b)], next, pre. cbn. by rewrite decide_True. Qed.

Lemma spec_make pre start free data :
  spec pre (makeBuffer start free data) (λ b left, (b_id b ∉ pre) ∧ left = {[b_id b]} ∪ pre ∧ b_start b = start ∧ b_free b = free ∧ b_data b = data).
Proof.
  intros next Hn. assert (Hfresh : next ∉ pre) by (intros Hin%Hn; lia).
  exists (mkBuffer next start free data), [Made next], (S next), ({[next]} ∪ pre). cbn. rewrite decide_False by done. split_and!; try done.
  intros id [->%elem_of_singleton|Hid%Hn]%elem_of_union; lia.
Qed.

Lemma spec_extend pre b header : b_id b ∈ pre → (length header ≤ b_start b)%nat →
  spec pre (ExtendHeader b header) (λ b' left, left = pre ∧ b' = mkBuffer (b_id b) (b_start b - length header) (b_free b) (header ++ b_data b)).
Proof.
  intros Hin Hlen next Hn. unfold ExtendHeader. destruct (Nat.ltb_spec (b_start b) (length header)); [lia|].
  eexists _, [Used (b_id b)], next, pre. cbn. by rewrite decide_True.
Qed.

(** Sets of identities, with the identity of each buffer as a variable. *)
Ltac solve_ids :=
  repeat match goal with
    | |- context [b_id ?b] => let x := fresh "x" in set (x := b_id b) in *; clearbody x
    | H : context [b_id ?b] |- _ => let x := fresh "x" in set (x := b_id b) in *; clearbody x
    end;
  repeat match goal with
    | |- context [ids ?l] => let X := fresh "X" in set (X := ids l) in *; clearbody X
    | H : context [ids ?l] |- _ => let X := fresh "X" in set (X := ids l) in *; clearbody X
    end; set_solver.

Lemma ids_cons b l : ids (b :: l) = {[b_id b]} ∪ ids l.
Proof. done. Qed.

Lemma ids_app l k : ids (l ++ k) = ids l ∪ ids k.
Proof. unfold ids. by rewrite fmap_app, list_to_set_app_L. Qed.

Lemma distinct_cons b l : distinct (b :: l) ↔ (b_id b ∉ ids l) ∧ distinct l.
Proof. unfold distinct, ids. cbn. rewrite NoDup_cons, elem_of_list_to_set. done. Qed.

Lemma distinct_app l k : distinct (l ++ k) ↔ distinct l ∧ ids l ## ids k ∧ distinct k.
Proof. unfold distinct, ids. rewrite fmap_app, NoDup_app. split; intros (? & ? & ?); (split_and!; [done | set_solver | done]). Qed.

(** [l] is used up and [out] made of it; or all of it is used up. *)
Definition produced (pre : gset nat) (l out : list buffer) (left : gset nat) : Prop :=
  distinct out ∧ left = (pre ∖ ids l) ∪ ids out ∧ ids out ## pre ∖ ids l.

Definition consumes {A} (m : list buffer → M A) : Prop :=
  ∀ l pre, distinct l → ids l ⊆ pre → spec pre (m l) (λ _ left, left = pre ∖ ids l).

Lemma release_consumes : consumes ReleaseMulti.
Proof.
  intros l. induction l as [|b l IH]; intros pre Hd Hin; cbn [ReleaseMulti].
  - apply spec_ret. unfold ids. set_solver.
  - apply distinct_cons in Hd as [Hb Hd]. rewrite ids_cons in *. eapply spec_bind; [apply spec_release; set_solver|]. intros [] left ->.
    eapply spec_mono; [apply IH; [done | set_solver]|]. intros [] left ->. set_solver.
Qed.

(** What was made of a list is used up. *)
Lemma consume_produced {A} (m : list buffer → M A) pre l out left : consumes m → produced pre l out left → spec left (m out) (λ _ left, left = pre ∖ ids l).
Proof.
  intros Hm (Hd & -> & Hdisj). eapply spec_mono; [apply Hm; [done | set_solver]|]. intros a left ->. set_solver.
Qed.

Lemma release_produced pre l out left : produced pre l out left → spec left (ReleaseMulti out) (λ _ left, left = pre ∖ ids l).
Proof. apply consume_produced, release_consumes. Qed.

(** A buffer in place of another. *)
Definition replaced (pre : gset nat) (b b' : buffer) (left : gset nat) : Prop := left = {[b_id b']} ∪ (pre ∖ {[b_id b]}) ∧ b_id b' ∉ pre ∖ {[b_id b]}.

Lemma spec_move pre start free b : b_id b ∈ pre →
  spec pre (moveTo start free b) (λ b' left, replaced pre b b' left ∧ b_start b' = start ∧ b_free b' = free ∧ b_data b' = b_data b).
Proof.
  intros Hin. unfold moveTo. eapply spec_bind; [by apply spec_bytes|]. intros data left [-> ->]. eapply spec_bind; [apply spec_make|].
  intros b' left (Hfresh & -> & ? & ? & ?). eapply spec_bind; [apply spec_release; set_solver|]. intros [] left ->. apply spec_ret.
  split; [|done]. assert (b_id b ≠ b_id b') by (intros Heq; by rewrite Heq in Hin). split; set_solver.
Qed.

(** Room is made if there is not enough. *)
Lemma spec_room pre (move : bool) start free b : b_id b ∈ pre →
  spec pre (if move then moveTo start free b else mret b) (λ b' left, replaced pre b b' left ∧ (if move then b_start b' = start ∧ b_free b' = free else b' = b) ∧ b_data b' = b_data b).
Proof.
  intros Hin. destruct move.
  - eapply spec_mono; [by apply spec_move|]. naive_solver.
  - apply spec_ret. split; [|done]. split; [rewrite <- union_difference_L; [done | set_solver] | set_solver].
Qed.

Definition encoded (pre : gset nat) (b : buffer) (room : nat) (r : result buffer) (left : gset nat) : Prop :=
  match r with Ok b' => replaced pre b b' left ∧ (b_start b ≤ b_start b' + room)%nat | Err _ => left = pre ∖ {[b_id b]} end.

Lemma replaced_gone pre b b1 mid : replaced pre b b1 mid → mid ∖ {[b_id b1]} = pre ∖ {[b_id b]}.
Proof. intros [-> H1]. rewrite difference_union_distr_l_L, difference_diag_L, union_empty_l_L. apply difference_disjoint_L. set_solver. Qed.

Lemma replaced_twice pre b b1 b2 mid left : replaced pre b b1 mid → replaced mid b1 b2 left → replaced pre b b2 left.
Proof. intros H1 [-> H2]. unfold replaced. rewrite (replaced_gone _ _ _ _ H1) in *. done. Qed.

Lemma replaced_in pre b b1 mid : replaced pre b b1 mid → b_id b1 ∈ mid.
Proof. intros [-> _]. set_solver. Qed.

Lemma spec_copyEncode pre encode b : b_id b ∈ pre → spec pre (copyEncodeBuffer encode b) (encoded pre b encodedHeaderSize).
Proof.
  intros Hin. unfold copyEncodeBuffer. eapply spec_bind; [by apply spec_bytes|]. intros data left [-> ->]. destruct (encode (b_data b)) as [data|e].
  - eapply spec_bind; [apply spec_make|]. intros b' left (Hfresh & -> & Hs & _). eapply spec_bind; [apply spec_release; set_solver|]. intros [] left ->. apply spec_ret.
    split; [|lia]. unfold replaced. assert (b_id b ≠ b_id b') by (intros Heq; by rewrite Heq in Hin). split; set_solver.
  - eapply spec_bind; [by apply spec_release|]. intros [] left ->. by apply spec_ret.
Qed.

Lemma spec_aeadEncode pre encode validID b : b_id b ∈ pre → spec pre (aeadEncodeBuffer encode validID b) (encoded pre b encodedHeaderSize).
Proof.
  intros Hin. unfold aeadEncodeBuffer. destruct (negb validID).
  { eapply spec_bind; [by apply spec_release|]. intros [] left ->. by apply spec_ret. }
  eapply spec_bind; [by apply spec_room|]. intros b1 mid (Hrep & Hroom & _). pose proof (replaced_in _ _ _ _ Hrep) as Hb1.
  assert (Hstart : (encodedHeaderSize ≤ b_start b1 ∧ b_start b ≤ b_start b1)%nat).
  { destruct ((b_start b <? encodedHeaderSize)%nat || (b_free b <? tlsDataAEADTagSize)%nat) eqn:Hor; [destruct Hroom as [-> _]; lia|]. apply orb_false_elim in Hor as [Hs _].
    apply Nat.ltb_ge in Hs. by subst. }
  eapply spec_bind; [by apply spec_bytes|]. intros data left [-> ->]. destruct (encode (b_data b1)) as [out|e].
  - eapply spec_bind; [apply spec_extend; [done | cbn [b_start]; rewrite length_take; lia]|]. intros b2 left [-> ->]. apply spec_ret. split; [done|]. cbn [b_start]. rewrite length_take. lia.
  - eapply spec_bind; [by apply spec_release|]. intros [] left ->. apply spec_ret. by apply replaced_gone.
Qed.

Lemma spec_encodeBufferOf pre codec i b : b_id b ∈ pre → spec pre (encodeBufferOf codec i b) (encoded pre b encodedHeaderSize).
Proof. destruct codec; [apply spec_copyEncode | apply spec_aeadEncode]. Qed.

Lemma spec_encodePacket pre transportHeaderSize header codec i b : b_id b ∈ pre →
  spec pre (encodePacketBuffer transportHeaderSize header (encodeBufferOf codec) i b)
    (λ r left, match r with Ok b' => replaced pre b b' left | Err _ => left = pre ∖ {[b_id b]} end).
Proof.
  intros Hin. unfold encodePacketBuffer. eapply spec_bind; [by apply spec_room|]. intros b1 mid (Hrep & Hroom & _). pose proof (replaced_in _ _ _ _ Hrep) as Hb1.
  assert (Hstart : (requiredHeadroom transportHeaderSize header ≤ b_start b1)%nat).
  { destruct ((b_start b <? _)%nat || _) eqn:Hor; [destruct Hroom as [-> _]; lia|]. apply orb_false_elim in Hor as [Hs _]. apply Nat.ltb_ge in Hs. by subst. }
  eapply spec_bind; [by apply spec_encodeBufferOf|]. intros [b2|e] left Henc; cbn in Henc.
  - destruct Henc as [Hrep2 Hroom2]. eapply spec_bind; [apply spec_extend; [by eapply replaced_in | unfold requiredHeadroom, encodedHeaderSize in *; lia]|].
    intros b3 left' [-> ->]. apply spec_ret. destruct (replaced_twice _ _ _ _ _ _ Hrep Hrep2) as [-> Hn]. by split.
  - apply spec_ret. subst. by apply replaced_gone.
Qed.

(** The frames still to do and the packets made are what is held. *)
Lemma spec_encodeBuffers transportHeaderSize header codec payloads : ∀ i packets pre, distinct (payloads ++ packets) → ids (payloads ++ packets) ⊆ pre →
  spec pre (encodeBuffers transportHeaderSize header (encodeBufferOf codec) i payloads packets)
    (λ r left, match r with Ok out => produced pre (payloads ++ packets) out left | Err _ => left = pre ∖ ids (payloads ++ packets) end).
Proof.
  induction payloads as [|b payloads IH]; intros i packets pre Hd Hin; cbn [encodeBuffers app].
  - apply spec_ret. split_and!; [done | | solve_ids]. cbn in Hin. apply union_difference_L in Hin. by rewrite (union_comm_L (pre ∖ _)).
  - cbn [app] in Hd, Hin. apply distinct_cons in Hd as [Hb Hd]. rewrite ids_cons in *.
    eapply spec_bind; [apply spec_encodePacket; solve_ids|]. intros [b'|e] left Henc.
    + destruct Henc as [-> Hnew]. assert (Hb' : b_id b' ∉ ids (payloads ++ packets)) by solve_ids.
      apply distinct_app in Hd as (Hd1 & Hd2 & Hd3). rewrite ids_app in Hb', Hin, Hb.
      eapply spec_mono; [apply (IH (S i) (packets ++ [b']))|].
      * rewrite !distinct_app, ids_app, ids_cons. change (ids []) with (∅ : gset nat). split_and!; [done | solve_ids | done | solve_ids | by apply NoDup_singleton].
      * rewrite !ids_app, ids_cons. change (ids []) with (∅ : gset nat). solve_ids.
      * assert (Hset : ({[b_id b']} ∪ pre ∖ {[b_id b]}) ∖ ids (payloads ++ packets ++ [b']) = pre ∖ ({[b_id b]} ∪ ids (payloads ++ packets))).
        { rewrite !ids_app, ids_cons. change (ids []) with (∅ : gset nat). solve_ids. }
        intros [out|e] left'; unfold produced; by rewrite Hset.
    + subst left. apply distinct_app in Hd as (Hd1 & Hd2 & Hd3). rewrite ids_app in *. eapply spec_bind; [apply release_consumes; [done | solve_ids]|].
      intros [] left ->. eapply spec_bind; [apply release_consumes; [done | solve_ids]|]. intros [] left ->. apply spec_ret. solve_ids.
Qed.

(** ** Hooks *)

Lemma produced_self pre l : distinct l → ids l ⊆ pre → produced pre l l pre.
Proof. intros Hd Hin. split_and!; [done | | solve_ids]. rewrite union_comm_L. by apply union_difference_L. Qed.

Lemma spec_retain payloads : ∀ pre, distinct payloads → ids payloads ⊆ pre →
  spec pre (retainPayloads payloads) (λ out left, produced pre payloads out left ∧ ids out ⊆ ids payloads).
Proof.
  induction payloads as [|b payloads IH]; intros pre Hd Hin; cbn [retainPayloads].
  - apply spec_ret. split; [by apply produced_self | done].
  - apply distinct_cons in Hd as [Hb Hd]. rewrite ids_cons in *. destruct (b_data b).
    + eapply spec_bind; [apply spec_release; solve_ids|]. intros [] left ->. eapply spec_mono; [apply IH; [done | solve_ids]|].
      intros out left [(Ho & -> & Hdisj) Hsub]. split; [|solve_ids]. split_and!; [done | rewrite ids_cons; solve_ids | rewrite ids_cons; solve_ids].
    + eapply spec_bind; [apply IH; [done | solve_ids]|]. intros out left [(Ho & -> & Hdisj) Hsub]. apply spec_ret. rewrite ids_cons. split; [|solve_ids].
      split_and!; [apply distinct_cons; split; [solve_ids | done] | rewrite !ids_cons | rewrite !ids_cons; solve_ids].
      apply set_eq. intros id. destruct (decide (id = b_id b)); solve_ids.
Qed.

Lemma spec_clamp clamp payloads : ∀ pre, distinct payloads → ids payloads ⊆ pre →
  spec pre (clampBuffers clamp payloads) (λ out left, left = pre ∧ (b_id <$> concat out) = b_id <$> payloads).
Proof.
  induction payloads as [|b payloads IH]; intros pre Hd Hin; cbn [clampBuffers].
  - by apply spec_ret.
  - apply distinct_cons in Hd as [Hb Hd]. rewrite ids_cons in *. eapply spec_bind; [apply spec_bytes; solve_ids|]. intros data left [-> ->].
    eapply spec_bind; [apply IH; [done | solve_ids]|]. intros out left [-> Hout]. apply spec_ret. split; [done|]. cbn. by rewrite Hout.
Qed.

Lemma spec_makeAll start free datas : ∀ pre, spec pre (makeAll start free datas) (λ out left, distinct out ∧ left = ids out ∪ pre ∧ ids out ## pre).
Proof.
  induction datas as [|data datas IH]; intros pre; cbn [makeAll].
  - apply spec_ret. unfold distinct, ids. cbn. split_and!; [constructor | by rewrite union_empty_l_L | solve_ids].
  - eapply spec_bind; [apply spec_make|]. intros b left (Hb & -> & _). eapply spec_bind; [apply IH|]. intros out left (Hd & -> & Hdisj). apply spec_ret.
    rewrite distinct_cons, ids_cons. split_and!; [solve_ids | done | solve_ids | solve_ids].
Qed.

Lemma spec_frameOutgoing encode payloads : ∀ i pre, distinct payloads → ids payloads ⊆ pre →
  spec pre (frameOutgoing encode i payloads) (λ out left, produced pre payloads (concat out) left).
Proof.
  induction payloads as [|b payloads IH]; intros i pre Hd Hin; cbn [frameOutgoing].
  - apply spec_ret. by apply produced_self.
  - apply distinct_cons in Hd as [Hb Hd]. rewrite ids_cons in *. eapply spec_bind; [apply spec_bytes; solve_ids|]. intros data left [-> ->].
    eapply spec_bind; [apply spec_release; solve_ids|]. intros [] left ->. destruct (encode i (b_data b)) as [frames|e].
    + eapply spec_bind; [apply spec_makeAll|]. intros made left (Hm & -> & Hmd). eapply spec_bind; [apply IH; [done | solve_ids]|].
      intros out left (Ho & -> & Hdisj). apply spec_ret. unfold produced. cbn [concat]. rewrite distinct_app, ids_app, ids_cons. split_and!; [done | solve_ids | done | | solve_ids].
      apply set_eq. intros id. destruct (decide (id ∈ ids made)), (decide (id ∈ ids (concat out))); solve_ids.
    + eapply spec_bind; [apply IH; [done | solve_ids]|]. intros out left (Ho & -> & Hdisj). apply spec_ret. unfold produced. cbn [concat app]. rewrite ids_cons. split_and!; [done | solve_ids | solve_ids].
Qed.

Lemma spec_hook hook payloads pre : distinct payloads → ids payloads ⊆ pre → spec pre (outgoingDataBuffersOf hook payloads) (λ out left, produced pre payloads (concat out) left).
Proof.
  intros Hd Hin. destruct hook as [clamp|encode]; cbn; [|by apply spec_frameOutgoing]. eapply spec_mono; [by apply spec_clamp|]. intros out left [-> Hids].
  unfold produced, distinct, ids in *. rewrite Hids. by apply produced_self.
Qed.

(** ** Connections *)

Lemma spec_send l : ∀ sendErrs i pre, distinct l → ids l ⊆ pre →
  spec pre (sendBuffers i l sendErrs) (λ r left, left = pre ∖ ids l ∧ r = sendAll i (b_data <$> l) sendErrs).
Proof.
  induction l as [|b l IH]; intros sendErrs i pre Hd Hin; cbn [sendBuffers].
  - apply spec_ret. change (ids []) with (∅ : gset nat). split; [solve_ids | done].
  - apply distinct_cons in Hd as [Hb Hd]. rewrite ids_cons in *. eapply spec_bind; [apply spec_bytes; solve_ids|]. intros data left [-> ->].
    eapply spec_bind; [apply spec_release; solve_ids|]. intros [] left ->.
    assert (Hend : ∀ left', left' = pre ∖ {[b_id b]} ∖ ids l → left' = pre ∖ ({[b_id b]} ∪ ids l)) by (intros left' ->; solve_ids).
    rewrite fmap_cons. destruct sendErrs as [|[err|] sendErrs]; cbn [head tail sendAll].
    + eapply spec_mono; [apply IH; [done | solve_ids]|]. intros r left [Hl ->]. split; [by apply Hend | by destruct (b_data <$> l)].
    + eapply spec_bind; [apply release_consumes; [done | solve_ids]|]. intros [] left Hl. apply spec_ret. split; [by apply Hend | done].
    + eapply spec_mono; [apply IH; [done | solve_ids]|]. intros r left [Hl ->]. split; [by apply Hend | done].
Qed.

Lemma send_consumes sendErrs i : consumes (λ l, sendBuffers i l sendErrs).
Proof. intros l pre Hd Hin. eapply spec_mono; [by apply spec_send|]. by intros r left [-> _]. Qed.

Lemma take_drop_split n (l : list buffer) : distinct l →
  distinct (take n l) ∧ distinct (drop n l) ∧ ids (take n l) ## ids (drop n l) ∧ ids l = ids (take n l) ∪ ids (drop n l).
Proof. intros Hd. rewrite <- (take_drop n l) in Hd. apply distinct_app in Hd as (? & ? & ?). split_and!; try done. by rewrite <- ids_app, take_drop. Qed.

Lemma spec_batch outcome l pre : distinct l → ids l ⊆ pre → spec pre (batchWrite l outcome) (λ r left, left = pre ∖ ids l ∧ r = outcome).
Proof. intros Hd Hin. unfold batchWrite. eapply spec_bind; [by apply release_consumes|]. intros [] left ->. by apply spec_ret. Qed.

Lemma batch_consumes outcome : consumes (λ l, batchWrite l outcome).
Proof. intros l pre Hd Hin. eapply spec_mono; [by apply spec_batch|]. by intros r left [-> _]. Qed.

(** What comes after a list was used up only makes a result. *)
Lemma consumes_then {A B} (m : list buffer → M A) (f : A → B) : consumes m → consumes (λ l, a ← m l; mret (f a)).
Proof. intros Hm l pre Hd Hin. eapply spec_bind; [by apply Hm|]. intros a left ->. by apply spec_ret. Qed.

Lemma spec_datagram batchWriter sendErrs l pre : distinct l → ids l ⊆ pre →
  spec pre (datagramWritePacketBuffers batchWriter sendErrs l) (λ r left, left = pre ∖ ids l ∧ r = datagram_WritePackets batchWriter sendErrs (b_data <$> l)).
Proof.
  intros Hd Hin. unfold datagramWritePacketBuffers, datagram_WritePackets, validCount.
  pose proof (validPrefix_prefix (b_data <$> l)) as Htake. destruct (validPrefix (b_data <$> l)) as [valid validationErr]. cbn in Htake.
  generalize dependent (length valid). intros n Htake. destruct (decide (n = 0)%nat).
  { eapply spec_bind; [by apply release_consumes|]. intros [] left ->. by apply spec_ret. }
  destruct (take_drop_split n l Hd) as (Ht & Hdr & Hdisj & Hids). rewrite Hids in *. eapply spec_bind; [apply release_consumes; [done | solve_ids]|]. intros [] left ->.
  destruct batchWriter as [outcome|].
  - eapply spec_bind; [apply spec_batch; [done | solve_ids]|]. intros a left [-> ->]. apply spec_ret. split; [solve_ids | by destruct outcome].
  - eapply spec_bind; [apply spec_send; [done | solve_ids]|]. intros r left [-> ->]. apply spec_ret. split; [solve_ids|]. by rewrite fmap_take, <- Htake.
Qed.

Lemma datagram_consumes batchWriter sendErrs : consumes (datagramWritePacketBuffers batchWriter sendErrs).
Proof. intros l pre Hd Hin. eapply spec_mono; [by apply spec_datagram|]. by intros r left [-> _]. Qed.

Lemma udp_consumes batchWriter sendErrs remote : consumes (udpWritePacketBuffers batchWriter sendErrs remote).
Proof.
  intros l pre Hd Hin. unfold udpWritePacketBuffers. destruct (negb remote).
  - exact (consumes_then _ (λ _, (0%nat, Some net_ErrClosed)) release_consumes l pre Hd Hin).
  - assert (Hsend := consumes_then _ (λ failed, match failed with Some (i, err) => (i, Some err) | None => (length l, None) end) (send_consumes sendErrs 0) l pre Hd Hin).
    destruct batchWriter as [outcome|]; [|exact Hsend]. destruct l as [|b l]; [exact Hsend|].
    exact (consumes_then _ (λ err, match err with Some err => (0%nat, Some err) | None => (length (b :: l), None) end) (batch_consumes outcome) (b :: l) pre Hd Hin).
Qed.

Lemma spec_frameBuffers packetBuffers : ∀ i pre, distinct packetBuffers → ids packetBuffers ⊆ pre →
  spec pre (frameBuffers i packetBuffers) (λ out left, produced pre packetBuffers out.*2 left ∧
    ((λ f, (f.1, b_data f.2)) <$> out) = ((λ f, (f.1, frame f.2)) <$> indexedFrames i (b_data <$> packetBuffers))).
Proof.
  induction packetBuffers as [|b packetBuffers IH]; intros i pre Hd Hin; cbn [frameBuffers].
  - apply spec_ret. split; [by apply produced_self | done].
  - apply distinct_cons in Hd as [Hb Hd]. rewrite ids_cons in *. rewrite fmap_cons. destruct (b_data b) as [|x data] eqn:Hdata.
    + eapply spec_bind; [apply spec_release; solve_ids|]. intros [] left ->. eapply spec_mono; [apply IH; [done | solve_ids]|].
      intros out left [(Ho & -> & Hdisj) Hframes]. unfold produced. rewrite ids_cons. split; [split_and!; [done | solve_ids | solve_ids] | done].
    + eapply spec_bind; [apply spec_room; solve_ids|]. intros b1 mid ([-> Hnew] & Hroom & Hdata1).
      assert (Hstart : (streamPacketLengthSize ≤ b_start b1)%nat).
      { destruct (b_start b <? streamPacketLengthSize)%nat eqn:Hs; [destruct Hroom as [-> _]; done|]. apply Nat.ltb_ge in Hs. by subst. }
      eapply spec_bind; [apply spec_extend; [solve_ids | by rewrite length_PutUint16]|]. intros b2 left [-> ->].
      assert (Hnotin : b_id b1 ∉ ids packetBuffers) by solve_ids.
      eapply spec_bind; [apply IH; [done | solve_ids]|]. intros out left [(Ho & -> & Hdisj) Hframes]. apply spec_ret.
      split; [|cbn [indexedFrames]; rewrite decide_False by done; rewrite !fmap_cons, Hframes; unfold frame; cbn [fst snd b_data]; by rewrite Hdata1, Hdata].
      unfold produced. rewrite fmap_cons, distinct_cons, !ids_cons. cbn [snd b_id]. split_and!; [solve_ids | done | | solve_ids].
      apply set_eq. intros id. destruct (decide (id = b_id b1)); solve_ids.
Qed.

Lemma spec_useAll l : ∀ pre, ids l ⊆ pre → spec pre (useAll l) (λ datas left, left = pre ∧ datas = b_data <$> l).
Proof.
  induction l as [|b l IH]; intros pre Hin; cbn [useAll]; [by apply spec_ret|]. rewrite ids_cons in Hin.
  eapply spec_bind; [apply spec_bytes; solve_ids|]. intros data left [-> ->]. eapply spec_bind; [apply IH; solve_ids|]. intros datas left [-> ->]. by apply spec_ret.
Qed.

Lemma framed_as_frames (framed : list (nat * buffer)) (indexed : list (nat * bytes)) :
  ((λ f, (f.1, b_data f.2)) <$> framed) = ((λ f, (f.1, frame f.2)) <$> indexed) →
  framed.*1 = indexed.*1 ∧ (length <$> (b_data <$> framed.*2)) = ((λ f, (streamPacketLengthSize + length f.2)%nat) <$> indexed).
Proof.
  revert indexed. induction framed as [|f framed IH]; intros [|g indexed] H; try done. rewrite !fmap_cons in H. injection H as H1 H2 H3.
  destruct (IH indexed H3) as [E1 E2]. rewrite !fmap_cons, E1, E2, H1, H2, frame_length. done.
Qed.

Lemma spec_stream outcome l pre : distinct l → ids l ⊆ pre →
  spec pre (streamWritePacketBuffers outcome l) (λ r left, left = pre ∖ ids l ∧ r = WritePackets outcome (b_data <$> l)).
Proof.
  intros Hd Hin. unfold streamWritePacketBuffers, WritePackets, validCount.
  pose proof (validPrefix_prefix (b_data <$> l)) as Htake. destruct (validPrefix (b_data <$> l)) as [valid validationErr]. cbn in Htake.
  generalize dependent (length valid). intros n Htake. destruct (decide (n = 0)%nat).
  { eapply spec_bind; [by apply release_consumes|]. intros [] left ->. by apply spec_ret. }
  destruct (take_drop_split n l Hd) as (Ht & Hdr & Hdisj & Hids). rewrite Hids in *.
  eapply spec_bind; [apply spec_frameBuffers; [done | solve_ids]|]. intros framed left [(Hf & -> & Hfdisj) Hframes].
  eapply spec_bind; [apply release_consumes; [done | solve_ids]|]. intros [] left ->. rewrite fmap_take, <- Htake in Hframes.
  assert (Hleft : ((pre ∖ ids (take n l)) ∪ ids framed.*2) ∖ ids (drop n l) = (pre ∖ (ids (take n l) ∪ ids (drop n l))) ∪ ids framed.*2) by solve_ids.
  assert (Hapart : ids framed.*2 ## pre ∖ (ids (take n l) ∪ ids (drop n l))) by solve_ids. rewrite Hleft.
  assert (Hlen : length framed = length (indexedFrames 0 valid)) by (apply (f_equal length) in Hframes; by rewrite !length_fmap in Hframes).
  destruct framed as [|f framed].
  { apply spec_ret. rewrite <- Hlen. change (ids (fmap snd [])) with (∅ : gset nat). by rewrite union_empty_r_L. }
  rewrite <- Hlen. rewrite decide_False by done. destruct (framed_as_frames _ _ Hframes) as [<- Hlens].
  eapply spec_bind; [apply spec_useAll; solve_ids|]. intros frames left [-> ->]. eapply spec_bind; [apply release_consumes; [done | solve_ids]|]. intros [] left ->.
  apply spec_ret. split; [solve_ids|]. by rewrite Hlens.
Qed.

Lemma stream_consumes outcome : consumes (streamWritePacketBuffers outcome).
Proof. intros l pre Hd Hin. eapply spec_mono; [by apply spec_stream|]. by intros r left [-> _]. Qed.

Lemma connection_consumes connection : consumes (writePacketBuffersOf connection).
Proof. destruct connection; [apply datagram_consumes | apply udp_consumes | exact (consumes_then _ (λ r, (wr_count r, wr_err r)) (stream_consumes outcome))]. Qed.

Lemma length_concat' {A} (l : list (list A)) : length (concat l) = sum_list_with length l.
Proof. induction l as [|x l IH]; cbn; [done|]. rewrite length_app. by f_equal. Qed.

Lemma write_consumes transportHeaderSize header codec connection ready hook packetIDs :
  consumes (WriteBuffers transportHeaderSize header (encodeBufferOf codec) (writePacketBuffersOf connection) ready (outgoingDataBuffersOf hook) packetIDs).
Proof.
  intros l pre Hd Hin. unfold WriteBuffers. destruct l as [|b l]; [apply spec_ret; change (ids []) with (∅ : gset nat); solve_ids|].
  generalize dependent (b :: l). clear b l. intros l Hd Hin. unfold writeBuffersLocked.
  eapply spec_bind; [by apply spec_retain|]. intros retained left [Hret Hsub]. destruct retained as [|r retained].
  { apply spec_ret. destruct Hret as (_ & -> & _). change (ids []) with (∅ : gset nat). by rewrite union_empty_r_L. }
  generalize dependent (r :: retained). clear r retained. intros retained Hret Hsub. destruct (negb ready).
  { eapply spec_bind; [by apply release_produced|]. intros [] left' ->. by apply spec_ret. }
  destruct Hret as (Hrd & -> & Hrdisj). eapply spec_bind; [apply spec_hook; [done | solve_ids]|]. intros prepared left Hprep.
  assert (Hback : ((pre ∖ ids l) ∪ ids retained) ∖ ids retained = pre ∖ ids l) by solve_ids.
  assert (Hprep' : produced pre l (concat prepared) left) by (unfold produced in *; by rewrite Hback in Hprep). clear Hprep. rename Hprep' into Hprep.
  destruct (sum_list_with length prepared =? 0)%nat eqn:Hsum.
  { apply spec_ret. destruct Hprep as (_ & -> & _). apply Nat.eqb_eq in Hsum. rewrite <- length_concat' in Hsum. apply length_zero_iff_nil in Hsum. rewrite Hsum.
    change (ids []) with (∅ : gset nat). by rewrite union_empty_r_L. }
  destruct (packetIDs _) as [e|].
  { eapply spec_bind; [by apply release_produced|]. intros [] left' ->. by apply spec_ret. }
  destruct Hprep as (Hpd & -> & Hpdisj). eapply spec_bind; [apply spec_encodeBuffers; rewrite app_nil_r; [done | solve_ids]|]. rewrite app_nil_r.
  assert (Hback' : ((pre ∖ ids l) ∪ ids (concat prepared)) ∖ ids (concat prepared) = pre ∖ ids l) by solve_ids.
  intros [packets|e] left Henc.
  - assert (Henc' : produced pre l packets left) by (unfold produced in *; by rewrite Hback' in Henc).
    eapply spec_bind; [apply (consume_produced _ _ _ _ _ (connection_consumes connection) Henc')|]. intros [n err] left' ->. by apply spec_ret.
  - subst. by apply spec_ret.
Qed.

Lemma toSession_consumes refused write : consumes write → consumes (writeToSession refused write).
Proof.
  intros Hw l pre Hd Hin. unfold writeToSession. destruct l as [|b l]; [apply spec_ret; change (ids []) with (∅ : gset nat); solve_ids|].
  destruct refused as [e|]; [exact (consumes_then _ (λ _, Some e) release_consumes (b :: l) pre Hd Hin) | by apply Hw].
Qed.

Lemma static_consumes write : consumes (staticWriteBuffers write).
Proof.
  intros l pre Hd Hin. unfold staticWriteBuffers. eapply spec_bind; [by apply spec_useAll|]. intros datas left [-> ->].
  eapply spec_bind; [by apply release_consumes|]. intros [] left ->. by apply spec_ret.
Qed.

Lemma target_consumes t : consumes (writeTarget t).
Proof.
  destruct t; cbn [writeTarget]; [|apply toSession_consumes, write_consumes | apply toSession_consumes, static_consumes].
  intros l pre Hd Hin. unfold writeToSession. destruct l as [|b l]; [apply spec_ret; change (ids []) with (∅ : gset nat); solve_ids|].
  exact (consumes_then _ (λ _, Some e) release_consumes (b :: l) pre Hd Hin).
Qed.

(** ** Destinations *)

Section Destinations.
Context (write : peerRoute → list buffer → M (option goerr)) (Hwrite : ∀ route, consumes (write route)).

Lemma flush_consumes route : consumes (flushBuffers write route).
Proof.
  intros l pre Hd Hin. unfold flushBuffers. destruct l as [|b l]; [apply spec_ret; change (ids []) with (∅ : gset nat); solve_ids | by apply Hwrite].
Qed.

(** The packet that could not be dealt with and those to come are released. *)
Lemma failed_consumes b (rest : list buffer) (e : goerr) pre : distinct (b :: rest) → ids (b :: rest) ⊆ pre →
  spec pre ((_ ← Release b; _ ← ReleaseMulti rest; mret ([], Some e)) : M (list RouteMissError * option goerr)) (λ _ left, left = pre ∖ ids (b :: rest)).
Proof.
  intros Hd Hin. apply distinct_cons in Hd as [Hb Hd]. rewrite ids_cons in *. eapply spec_bind; [apply spec_release; solve_ids|]. intros [] left ->.
  eapply spec_bind; [apply release_consumes; [done | solve_ids]|]. intros [] left ->. apply spec_ret. solve_ids.
Qed.

Lemma loop_consumes packetBuffers : ∀ route current pre, distinct (current ++ packetBuffers.*1) → ids (current ++ packetBuffers.*1) ⊆ pre →
  spec pre (bufferDestinationLoop write route current packetBuffers) (λ _ left, left = pre ∖ ids (current ++ packetBuffers.*1)).
Proof.
  induction packetBuffers as [|[b lookup] packetBuffers IH]; intros route current pre Hd Hin; cbn [bufferDestinationLoop].
  { rewrite fmap_nil, app_nil_r in *. eapply spec_bind; [by apply flush_consumes|]. intros err left ->. by apply spec_ret. }
  rewrite fmap_cons in *. cbn [fst] in *. apply distinct_app in Hd as (Hc & Hdisj & Hd). rewrite ids_app in *.
  assert (Hsplit := Hd). apply distinct_cons in Hsplit as [Hb Hrest]. cbv zeta. destruct (pl_found lookup); cbn [negb].
  - assert (Hmore : ∀ route, spec pre (bufferDestinationLoop write route (current ++ [b]) packetBuffers) (λ _ left, left = pre ∖ (ids current ∪ ids (b :: packetBuffers.*1)))).
    { intros route'. rewrite <- ids_app. change (b :: packetBuffers.*1) with ([b] ++ packetBuffers.*1). rewrite app_assoc. apply IH; rewrite <- app_assoc.
      - by apply distinct_app.
      - by rewrite ids_app. }
    destruct current as [|c current]; [apply Hmore|]. case_decide; [apply Hmore|].
    eapply spec_bind; [apply flush_consumes; [done | solve_ids]|]. intros [e|] left ->.
    + eapply spec_mono; [apply failed_consumes; [done | solve_ids]|]. intros r left ->. solve_ids.
    + eapply spec_mono; [apply (IH _ [b]); [done | cbn [app]; solve_ids]|]. intros r left ->. cbn [app]. solve_ids.
  - eapply spec_bind; [apply flush_consumes; [done | solve_ids]|]. intros [e|] left ->.
    + eapply spec_mono; [apply failed_consumes; [done | solve_ids]|]. intros r left ->. solve_ids.
    + rewrite ids_cons in *. eapply spec_bind; [apply spec_bytes; solve_ids|]. intros packet left [-> ->]. eapply spec_bind; [apply spec_release; solve_ids|]. intros [] left ->.
      destruct (newRouteMissError _ _) as [e|miss].
      * eapply spec_bind; [apply release_consumes; [done | solve_ids]|]. intros [] left ->. apply spec_ret. solve_ids.
      * eapply spec_bind; [apply (IH _ []); [done | cbn [app]; solve_ids]|]. intros [misses err] left ->. apply spec_ret. cbn [app]. solve_ids.
Qed.

Lemma destinations_consume running routes : consumes (WriteDataPacketBuffersByDestination write running routes).
Proof.
  intros l pre Hd Hin. unfold WriteDataPacketBuffersByDestination. destruct l as [|b l]; [apply spec_ret; change (ids []) with (∅ : gset nat); solve_ids|].
  destruct running as [e|]; [exact (consumes_then _ (λ _, ([], Some e)) release_consumes (b :: l) pre Hd Hin)|].
  generalize dependent (b :: l). clear b l. intros l Hd Hin. eapply spec_bind; [by apply spec_useAll|]. intros datas left [-> ->].
  assert (Hzip : (zip l (LookupPackets routes (b_data <$> l))).*1 = l) by (apply fst_zip; unfold LookupPackets; by rewrite !length_fmap).
  eapply spec_mono; [apply (loop_consumes _ _ []); cbn [app]; by rewrite Hzip|]. intros r left ->. cbn [app]. by rewrite Hzip.
Qed.

End Destinations.

(** From a specification to a run on the buffers of a caller. *)
Lemma spec_run {A} (m : M A) packetBuffers next (result : A → Prop) :
  spec (ids packetBuffers) m (λ a left, left = ids packetBuffers ∖ ids packetBuffers ∧ result a) → Forall (λ b, (b_id b < next)%nat) packetBuffers →
  ∃ a log next', m next = Some (a, log, next') ∧ replay (ids packetBuffers) log = Some ∅ ∧ result a.
Proof.
  intros Hm Hbound. destruct (Hm next) as (a & log & next' & left & Hrun & Hreplay & _ & -> & Ha).
  - intros id Hid. unfold ids in Hid. apply elem_of_list_to_set, list_elem_of_fmap in Hid as (b & -> & Hb). by apply (proj1 (Forall_forall _ _) Hbound).
  - exists a, log, next'. split_and!; [done | | done]. rewrite Hreplay. f_equal. apply difference_diag_L.
Qed.

(** C14: Packet buffers are released once.  Whatever the packets a program hands to a
    server in buffers of its own, wherever they are routed (to no session, to sessions
    with TLS over datagrams, the server's socket or a stream, with any codec and framing,
    or to one with a static key) and whatever fails on the way (no session, no key, no
    packet ids, an error of a codec after some packets were made, a packet that is too
    large, an error of the link in the middle of a batch), nothing panics for want of room
    in front of a packet, every buffer handed over and every buffer made on the way is
    released exactly once, and none is used after its release.  The connections' writers
    of buffers return what their writers of plain packets return. *)
Theorem buffers_released_once (targets : peerRoute → target) running routes packetBuffers next :
  distinct packetBuffers → Forall (λ b, (b_id b < next)%nat) packetBuffers →
  (∃ r log next', WriteDataPacketBuffersByDestination (λ route, writeTarget (targets route)) running routes packetBuffers next = Some (r, log, next') ∧
     replay (ids packetBuffers) log = Some ∅) ∧
  (∀ outcome, ∃ log next', streamWritePacketBuffers outcome packetBuffers next = Some (WritePackets outcome (b_data <$> packetBuffers), log, next') ∧
     replay (ids packetBuffers) log = Some ∅) ∧
  (∀ batchWriter sendErrs, ∃ log next', datagramWritePacketBuffers batchWriter sendErrs packetBuffers next =
       Some (datagram_WritePackets batchWriter sendErrs (b_data <$> packetBuffers), log, next') ∧
     replay (ids packetBuffers) log = Some ∅).
Proof.
  intros Hd Hbound. split_and!.
  - destruct (spec_run (WriteDataPacketBuffersByDestination (λ route, writeTarget (targets route)) running routes packetBuffers) packetBuffers next (λ _, True))
      as (r & log & next' & ? & ? & _); [|done | by exists r, log, next'].
    eapply spec_mono; [apply destinations_consume; [intros route; apply target_consumes | done | done]|]. auto.
  - intros outcome. destruct (spec_run _ packetBuffers next _ (spec_stream outcome packetBuffers _ Hd ltac:(done)) Hbound) as (r & log & next' & ? & ? & ->). by exists log, next'.
  - intros batchWriter sendErrs. destruct (spec_run _ packetBuffers next _ (spec_datagram batchWriter sendErrs packetBuffers _ Hd ltac:(done)) Hbound) as (r & log & next' & ? & ? & ->). by exists log, next'.
Qed.

(** ** Witness *)

(** Three buffers for a session over a stream, the second without room and the third
    empty, and a codec that fails on the second packet it gets. *)
Definition exampleBuffers : list buffer := [mkBuffer 0 64 32 [x45]; mkBuffer 1 0 0 [x46]; mkBuffer 2 4 32 []].

Definition exampleTarget (encode : nat → bytes → result bytes) : target :=
  TLSSession 2 [x30] (CopyCodec encode) (ClampHook id) (StreamConnection (Stream.mkWrite 3 (Some (ErrNew "broken pipe")))) true (λ _, None).

Definition failingSecond (i : nat) (data : bytes) : result bytes := if (i =? 0)%nat then Ok (x00 :: data) else Err (ErrNew "out of randomness").

Lemma buffers_released_once_witness :
  match writeTarget (exampleTarget (λ _, Ok)) exampleBuffers 3%nat with Some (r, log, next') => replay (ids exampleBuffers) log = Some ∅ | None => False end ∧
  match writeTarget (exampleTarget failingSecond) exampleBuffers 3%nat with Some (r, log, next') => r = Some (ErrNew "out of randomness") ∧ replay (ids exampleBuffers) log = Some ∅ | None => False end ∧
  ∃ r log next', WriteDataPacketBuffersByDestination (λ _, writeTarget (exampleTarget failingSecond)) None newPeerRouteRegistry exampleBuffers 3%nat = Some (r, log, next') ∧
    replay (ids exampleBuffers) log = Some ∅.
Proof.
  split_and!; [vm_compute; done | vm_compute; done |].
  apply (buffers_released_once (λ _, exampleTarget failingSecond) None newPeerRouteRegistry exampleBuffers 3%nat).
  - apply (bool_decide_unpack _). vm_compute. done.
  - repeat constructor; cbn; lia.
Defined.
