(* ===== verification/Wiring.v ===== *)
(** * How the parts are put together

    What connects the components: the material a client checks before it starts and
    loads again for every session ([client_supervisor.go], [client_session_tls.go]); the
    deadlines and the activity observers of a control channel and of the channels of its
    renegotiations ([control_channel.go]); the choice of a packet connection and its
    reads ([proto/connection.go]), the reads of the listener ([server_listener.go]); and
    the closing of the transport of a server with a static key ([server_static.go]). *)

From S2P Require Import Prelude GoStrings Packet Session Netip NetipText Crypto Codec CodecLaws ControlWrap Options TunnelConfig Auth Supervisor ControlChannel DataPath ServerSessions ClientSession Keys Listener Static TLSConfig.

Open Scope string_scope.
Open Scope Z_scope.

(** ** The material of a session *)

Module Material.
Section Material.
Context (lib : TLSLibrary) (pemDecode : bytes → option (string * bytes)) (cr : Crypto).

(** [checkSessionMaterial]; [mode] is the client's mode. *)
Definition checkSessionMaterial (mode : string) (options : ClientOptions) (unixNow : Z) : result unit :=
  if decide (mode = ModeStaticKey) then
    match loadStaticKeyMaterialFromSource (tl_ReadFile lib) (co_StaticKey options) with
    | Err err => Err (ErrCause err "load static key")
    | Ok _ => Ok ()
    end
  else
    match newTLSClientProtection (tl_ReadFile lib) pemDecode cr options unixNow with
    | Err err => Err (ErrCause err "load control channel key")
    | Ok _ =>
        match buildTLSClientConfiguration lib options with
        | Err err => Err (ErrCause err "load TLS configuration")
        | Ok _ => Ok ()
        end
    end.

(** What [newTLSClient] puts into the session it makes. *)
Record newSessionParts := mkSessionParts {
  np_sessionManager : SessionManager;
  np_protection : tlsControlProtection;
  np_wrappedClientKey : bytes;
  np_dataTransportHeaderSize : Z;
  np_handshakeWindow : Z;
  np_remote : clientRemote;
  np_useActiveAuthToken : bool;
}.

Definition newTLSClient (unixNow : Z) (localID : result SessionID) (options : ClientOptions) (useActiveAuthToken : bool) (remote : clientRemote)
    : outcome newSessionParts :=
  match NewSessionManager localID with
  | Err e => Failure (Plain e)
  | Ok sessionManager =>
      match newTLSClientProtection (tl_ReadFile lib) pemDecode cr options unixNow with
      | Err e => Failure (configurationError e)
      | Ok (protection, wrappedClientKey) =>
          Success (mkSessionParts sessionManager protection wrappedClientKey (dataTransportHeaderSize (rem_Protocol (cr_remote remote)))
                     (cti_HandWindow (co_Timing options)) remote useActiveAuthToken)
      end
  end.

Inductive clientSession := TLSSession (parts : newSessionParts) | StaticSession (sessionManager : SessionManager) (codec : staticKeyDataCodec).

(** The client's configuration is reset whatever becomes of the session. *)
Definition newClientSession (mode : string) (unixNow random : Z) (localID : result SessionID) (useActiveAuthToken : bool) (remote : clientRemote) (c : Client)
    : outcome clientSession * Client :=
  let c := resetSessionConfiguration c (rem_Protocol (cr_remote remote)) random in
  let session :=
    if decide (mode = ModeStaticKey) then
      match newStaticKeyClientSession cr (tl_ReadFile lib) unixNow localID (cl_options c) with
      | Failure e => Failure e
      | Success (sessionManager, codec) => Success (StaticSession sessionManager codec)
      end
    else if decide (co_Mode (cl_options c) = ModeTLS) then
      match newTLSClient unixNow localID (cl_options c) useActiveAuthToken remote with
      | Failure e => Failure e
      | Success parts => Success (TLSSession parts)
      end
    else Failure (Plain ErrUnsupportedMode) in
  (session, c).

(** The second on the clock seeds packet ids and decides nothing else. *)
Lemma protection_loads_alike options now now' p :
  newTLSClientProtection (tl_ReadFile lib) pemDecode cr options now = Ok p → ∃ p', newTLSClientProtection (tl_ReadFile lib) pemDecode cr options now' = Ok p'.
Proof.
  unfold newTLSClientProtection. intros H. destruct (IsSet (tls_CryptV2 _)); [|by eexists].
  destruct (loadTLSCryptV2ClientKey _ _ _) as [[keyMaterial wrappedClientKey]|]; [|done].
  cbn -[newControlCryptCodecFromMaterial] in *. destruct (newControlCryptCodecFromMaterial cr keyMaterial _); [|done]. by eexists.
Qed.

(** With the files it was started with, a client in TLS mode can make a session whenever
    the system gives it a random id. *)
Theorem started_client_makes_sessions options now l l' :
  Start l (checkSessionMaterial ModeTLS options now) = (Ok true, l') →
  ∀ unixNow id useActiveAuthToken remote, ∃ parts,
    newTLSClient unixNow (Ok id) options useActiveAuthToken remote = Success parts ∧ np_remote parts = remote.
Proof.
  unfold Start, checkSessionMaterial. intros H unixNow id use remote.
  destruct (lc_started l), (lc_closed l); try discriminate H.
  rewrite decide_False in H by done.
  destruct (newTLSClientProtection _ _ _ _ _) as [p|] eqn:E; [|discriminate].
  destruct (protection_loads_alike _ _ unixNow _ E) as [[protection key] E'].
  unfold newTLSClient. cbn. rewrite E'. by eexists.
Qed.

Lemma configurationError_marked e : Is (configurationError e) errClientSessionConfiguration = true.
Proof. unfold configurationError. destruct (Is (Plain e) _) eqn:E; [done|]. done. Qed.

Lemma configurationError_retried e : classifyClientSessionError (Some (configurationError e)) = clientSessionErrorRetryable.
Proof. unfold classifyClientSessionError. by rewrite configurationError_marked. Qed.

(** A client of a known mode that cannot load its material any more goes on trying: the
    error of a session is marked as one of the configuration, unless the random id is
    what failed; in an unknown mode the client stops. *)
Theorem lost_material_is_retried mode unixNow random localID use remote c e :
  (newClientSession mode unixNow random localID use remote c).1 = Failure e →
  (∃ e', localID = Err e' ∧ e = Plain e')
  ∨ classifyClientSessionError (Some e) = clientSessionErrorRetryable
  ∨ (co_Mode (cl_options c) ≠ ModeTLS ∧ e = Plain ErrUnsupportedMode ∧ classifyClientSessionError (Some e) = clientSessionErrorTerminal).
Proof.
  unfold newClientSession, newTLSClient, newStaticKeyClientSession. cbn [fst]. intros Hf.
  destruct localID as [id|e']; cbn [NewSessionManager mbind result_bind] in Hf;
    repeat case_match; simplify_eq; eauto using configurationError_retried; right; right; repeat split; done.
Qed.

End Material.
End Material.

(** ** The observers of a channel's activity *)

Module Observers.

(** A control channel with the channels of its renegotiations by key id; an observer is
    its number. *)
Inductive channel := Channel (readActivity writeActivity : option nat) (renegotiationChannels : list (Z * channel)).

Fixpoint setActivityObservers (readActivity writeActivity : option nat) (c : channel) : channel :=
  match c with Channel _ _ children => Channel readActivity writeActivity (map (λ kc, (kc.1, setActivityObservers readActivity writeActivity kc.2)) children) end.

Definition activityObservers (c : channel) : option nat * option nat :=
  match c with Channel readActivity writeActivity _ => (readActivity, writeActivity) end.

(** The observer that is called. *)
Definition markReadActivity (c : channel) : option nat := (activityObservers c).1.
Definition markWriteActivity (c : channel) : option nat := (activityObservers c).2.

Definition children (c : channel) : list (Z * channel) := match c with Channel _ _ children => children end.

Definition observedBy (readActivity writeActivity : option nat) (c : channel) : Prop := activityObservers c = (readActivity, writeActivity).

(** The two calls that change observers take the locks one after the other:
    [ob_registering] is the channel [registerRenegotiationChannel] has given the
    observers it found and not yet entered, [ob_setting] the observers
    [setActivityObservers] has set and not yet passed on to the channels of the
    renegotiations.  [softResetAccess] keeps registrations apart, and one goroutine sets. *)
Record observerWorld := mkObservers {
  ob_root : channel;
  ob_registering : option (Z * channel);
  ob_setting : option (option nat * option nat);
}.

Definition setRoot (readActivity writeActivity : option nat) (c : channel) : channel := Channel readActivity writeActivity (children c).

Definition setChildren (readActivity writeActivity : option nat) (c : channel) : channel :=
  Channel (activityObservers c).1 (activityObservers c).2 (map (λ kc, (kc.1, setActivityObservers readActivity writeActivity kc.2)) (children c)).

(** What [registerRenegotiationChannel] does under [renegotiationAccess]. *)
Definition enter (keyID : Z) (child c : channel) : channel :=
  if decide (keyID ∈ (children c).*1) then c else Channel (activityObservers c).1 (activityObservers c).2 ((keyID, child) :: children c).

Inductive observerStep : observerWorld → observerWorld → Prop :=
| RegisterBegins w keyID child : 1 ≤ keyID ≤ KeyIDMaxValue → ob_registering w = None →
    observerStep w (mkObservers (ob_root w) (Some (keyID, setActivityObservers (markReadActivity (ob_root w)) (markWriteActivity (ob_root w)) child)) (ob_setting w))
| RegisterEnds w keyID child : ob_registering w = Some (keyID, child) →
    observerStep w (mkObservers (enter keyID child (ob_root w)) None (ob_setting w))
| SetBegins w readActivity writeActivity : ob_setting w = None →
    observerStep w (mkObservers (setRoot readActivity writeActivity (ob_root w)) (ob_registering w) (Some (readActivity, writeActivity)))
| SetEnds w readActivity writeActivity : ob_setting w = Some (readActivity, writeActivity) →
    observerStep w (mkObservers (setChildren readActivity writeActivity (ob_root w)) (ob_registering w) None)
| Unregistered w keyID :
    observerStep w (mkObservers (Channel (markReadActivity (ob_root w)) (markWriteActivity (ob_root w)) (filter (λ kc, kc.1 ≠ keyID) (children (ob_root w))))
              (ob_registering w) (ob_setting w)).

(** A step while nothing is registered that was begun before the observers were set. *)
Definition orderly (w w' : observerWorld) : Prop := observerStep w w' ∧ (ob_setting w' = None ∨ ob_registering w' = None).

Definition newWorld : observerWorld := mkObservers (Channel None None []) None None.

(** The two halves of [setActivityObservers], one after the other, are the whole. *)
Lemma setActivityObservers_halves r w c : setChildren r w (setRoot r w c) = setActivityObservers r w c.
Proof. by destruct c. Qed.

Lemma setActivityObservers_observed r w c : observedBy r w (setActivityObservers r w c).
Proof. by destruct c. Qed.

Definition agree (w : observerWorld) : Prop :=
  let '(r, wr) := activityObservers (ob_root w) in
  match ob_setting w with
  | None => Forall (λ kc, observedBy r wr kc.2) (children (ob_root w)) ∧ (∀ kc, ob_registering w = Some kc → observedBy r wr kc.2)
  | Some set => set = (r, wr) ∧ ob_registering w = None
  end.

Lemma agree_step w w' : orderly w w' → agree w → agree w'.
Proof.
  intros [Hstep Hside]. destruct Hstep as [[[r wr cs] reg st] k c Hk H|[[r wr cs] reg st] k c H|[[r wr cs] reg st] r' wr' H|[[r wr cs] reg st] r' wr' H|[[r wr cs] reg st] k];
    unfold agree; cbn in *; simplify_eq; intros Hagree.
  - destruct st as [set|]; [by destruct Hside|]. destruct Hagree as [Hcs _]. split; [done|]. intros kc [= <-]. apply setActivityObservers_observed.
  - destruct st as [set|]; [by destruct Hagree|]. destruct Hagree as [Hcs Hc]. unfold enter. cbn. case_decide; cbn; [done|].
    split; [|done]. constructor; [by apply (Hc (k, c))|done].
  - by destruct Hside.
  - destruct Hagree as [[= -> ->] ->]. split; [|done]. apply Forall_map, Forall_true. intros kc. apply setActivityObservers_observed.
  - destruct st as [set|]; [done|]. destruct Hagree as [Hcs Hc]. split; [|done]. rewrite Forall_forall in Hcs |- *.
    intros kc [_ Hkc]%list_elem_of_filter. by apply Hcs.
Qed.

(** As long as no registration is under way while the observers are set, as with a
    client, which sets them before its channel is installed, every registered channel
    reports to the observers of the session whenever nobody is setting them. *)
Theorem registered_channels_observed w :
  rtc orderly newWorld w → ob_setting w = None →
  Forall (λ kc, activityObservers kc.2 = activityObservers (ob_root w)) (children (ob_root w)).
Proof.
  intros Hreach Hset. assert (Hagree : agree w).
  { apply (rtc_ind_r agree) in Hreach; [done|by cbn|]. intros v v' _. apply agree_step. }
  unfold agree in Hagree. destruct (activityObservers (ob_root w)) as [r wr]. rewrite Hset in Hagree. apply Hagree.
Qed.

(** A server sets them after the handshake, when its reader already runs: a soft reset
    that arrives meanwhile can leave a channel that reports to nobody. *)
Theorem observers_missed :
  ∃ w, rtc observerStep newWorld w ∧ ob_setting w = None ∧ ob_registering w = None ∧
    activityObservers (ob_root w) = (Some 1%nat, Some 2%nat) ∧ (λ kc, activityObservers kc.2) <$> children (ob_root w) = [(None, None)].
Proof.
  eexists. split.
  - eapply rtc_l; [by apply (RegisterBegins newWorld 1 (Channel None None []))|].
    eapply rtc_l; [by apply (SetBegins _ (Some 1%nat) (Some 2%nat))|].
    eapply rtc_l; [by eapply SetEnds|]. eapply rtc_l; [by eapply RegisterEnds|]. apply rtc_refl.
  - by vm_compute.
Qed.

End Observers.

(** ** The deadlines of a channel *)

Module Deadlines.

(** [readDeadline] and [writeDeadline]. *)
Record channelDeadlines := mkDeadlines { cd_read : Time; cd_write : Time }.

#[export] Instance eta_channelDeadlines : Eta channelDeadlines := λ d, mkDeadlines (cd_read d) (cd_write d).

Definition SetDeadline (deadline : Time) (d : channelDeadlines) : channelDeadlines := d <| cd_read := deadline |> <| cd_write := deadline |>.
Definition SetReadDeadline (deadline : Time) (d : channelDeadlines) : channelDeadlines := d <| cd_read := deadline |>.
Definition SetWriteDeadline (deadline : Time) (d : channelDeadlines) : channelDeadlines := d <| cd_write := deadline |>.

Definition currentReadDeadline (d : channelDeadlines) : Time * bool := (cd_read d, negb (IsZero (cd_read d))).
Definition currentWriteDeadline (d : channelDeadlines) : Time * bool := (cd_write d, negb (IsZero (cd_write d))).

(** The tests of [Write] and [Read] at the head of a round. *)
Definition writeDeadlinePassed (d : channelDeadlines) (now : Time) : bool :=
  let '(writeDeadline, hasDeadline) := currentWriteDeadline d in hasDeadline && negb (now <? writeDeadline).

Definition readDeadlinePassed (d : channelDeadlines) (now : Time) : bool :=
  let '(readDeadline, hasDeadline) := currentReadDeadline d in hasDeadline && (readDeadline - now <=? 0).

(** A deadline that has passed when it is set ends the next write before a packet is
    made and leaves the channel as it was, and does not concern reads; the zero time
    takes it back. *)
Theorem write_deadline_expires cr d deadline now c buffer pendingCount link :
  0 < deadline ≤ now → buffer ≠ [] →
  let d' := SetWriteDeadline deadline d in
  writeRound cr c buffer (mkWriteTurn (writeDeadlinePassed d' now) pendingCount link) = (WriteFails os_ErrDeadlineExceeded, [], c)
  ∧ readDeadlinePassed d' now = readDeadlinePassed d now
  ∧ writeDeadlinePassed (SetWriteDeadline 0 d') now = false.
Proof.
  intros Hdeadline Hbuffer d'. assert (Hpassed : writeDeadlinePassed d' now = true).
  { unfold writeDeadlinePassed, d', IsZero. cbn. apply andb_true_intro. split; [apply negb_true_iff, Z.eqb_neq|apply negb_true_iff, Z.ltb_ge]; lia. }
  split; [|done]. rewrite Hpassed. by destruct buffer.
Qed.

End Deadlines.

(** ** Connections and sockets *)

Module Transport.

(** What [NewPacketConnection] makes of a connection: [isSyscallConn] is whether the
    connection writes vectors, the readers and writers of batches are there when the
    library can make them. *)
Inductive packetConnection := StreamPacketConnection (vectorisedWrites : bool) | DatagramPacketConnection (batchReader batchWriter : bool).

Definition NewPacketConnection (protocol : string) (isSyscallConn canBatchRead canBatchWrite : bool) : result packetConnection :=
  if HasPrefix protocol "tcp" then Ok (StreamPacketConnection isSyscallConn) else
  if HasPrefix protocol "udp" then Ok (DatagramPacketConnection canBatchRead canBatchWrite) else
  Err (ErrNew "unsupported protocol").

(** [readPacket] of a datagram connection: a read into a buffer of 65535 octets. *)
Definition datagramReadPacket (read : nat → result bytes) : result bytes := packet ← read (Z.to_nat MaxUint16); Ok packet.

(** [ReadPackets] of a datagram connection; a batch may come with an error. *)
Definition datagramReadPackets (batchReader : option (list bytes * option goerr)) (read : nat → result bytes) : list bytes * option goerr :=
  match batchReader with
  | Some (packetBuffers, err) => (packetBuffers, err)
  | None => match datagramReadPacket read with Err err => ([], Some err) | Ok packet => ([packet], None) end
  end.

Record listenerRead := mkListenerRead { lr_datagrams : list (bytes * netAddr); lr_error : list goerr; lr_released : list bytes }.

Definition batchMismatch (buffers sources : nat) : goerr :=
  ErrNew ("OpenVPN link batch read reported " +:+ Itoa (Z.of_nat buffers) +:+ " datagrams for " +:+ Itoa (Z.of_nat sources) +:+ " sources").

(** [readListenerPackets]: a batch and its sources, or one read, which gives the octets
    and the source it read with its error.  Buffers that are not returned are released. *)
Definition readListenerPackets (batchReader : option (list bytes * list netAddr * option goerr)) (readFrom : bytes * netAddr * option goerr) : listenerRead :=
  match batchReader with
  | Some (rawPacketBuffers, destinations, readErr) =>
      if negb (bool_decide (length rawPacketBuffers = length destinations))
      then mkListenerRead [] (app (option_list readErr) [batchMismatch (length rawPacketBuffers) (length destinations)]) rawPacketBuffers
      else mkListenerRead (zip rawPacketBuffers destinations) (option_list readErr) []
  | None =>
      let '(rawPacket, remoteAddress, readErr) := readFrom in
      if negb (hasAny rawPacket) then mkListenerRead [] (option_list readErr) [] else mkListenerRead [(rawPacket, remoteAddress)] (option_list readErr) []
  end.

(** Every datagram of a batch is either handed on with its source or released, and a
    batch is refused only with an error. *)
Theorem listener_read_complete buffers destinations readErr readFrom :
  let r := readListenerPackets (Some (buffers, destinations, readErr)) readFrom in
  ((lr_datagrams r).*1 ++ lr_released r)%list = buffers
  ∧ (lr_released r ≠ [] → lr_error r ≠ [])
  ∧ (∀ e, readErr = Some e → e ∈ lr_error r)
  ∧ (∀ i packet source, lr_datagrams r !! i = Some (packet, source) → buffers !! i = Some packet ∧ destinations !! i = Some source).
Proof.
  cbn zeta. unfold readListenerPackets. case_bool_decide as Hlength; cbn.
  - split_and!.
    + rewrite app_nil_r. apply fst_zip. lia.
    + done.
    + intros e ->. by apply list_elem_of_here.
    + intros i packet source Hi. apply lookup_zip_with_Some in Hi as (x & y & [= -> ->] & ? & ?). done.
  - split_and!; [done| |intros e ->; by apply list_elem_of_here|done].
    intros _ Hnil. by apply app_eq_nil in Hnil as [_ ?].
Qed.

(** The transport of a server with a static key: its listener for streams and its link
    are numbers, and a link remembers that it was closed ([closeOnce]). *)
Record staticTransport := mkTransport { tr_streamListener : option nat; tr_packetLink : option nat; tr_closedLinks : gset nat }.

#[export] Instance eta_staticTransport : Eta staticTransport := λ t, mkTransport (tr_streamListener t) (tr_packetLink t) (tr_closedLinks t).

(** [Close] of a link: whether its socket is closed by this call. *)
Definition closeLink (link : nat) (t : staticTransport) : bool * staticTransport :=
  (negb (bool_decide (link ∈ tr_closedLinks t)), t <| tr_closedLinks := {[link]} ∪ tr_closedLinks t |>).

(** [closeTransport]: the sockets that are closed. *)
Definition closeTransport (t : staticTransport) : list nat * staticTransport :=
  let streamListener := tr_streamListener t in
  let packetLink := tr_packetLink t in
  let t := t <| tr_streamListener := None |> <| tr_packetLink := None |> in
  let closed := option_list streamListener in
  match packetLink with
  | None => (closed, t)
  | Some link => let '(first, t) := closeLink link t in ((closed ++ (if first : bool then [link] else []))%list, t)
  end.

(** The steps of [Close]: the loop's context, the transport, the client and the reading
    loop, each where there is one. *)
Inductive closeEffect := LoopCancelled | SocketClosed (socket : nat) | ClientClosed | ReadLoopAwaited.

Definition staticServerClose (cancelLoop client readLoop : bool) (t : staticTransport) : list closeEffect * staticTransport :=
  let '(closed, t) := closeTransport t in
  (((if cancelLoop then [LoopCancelled] else []) ++ (SocketClosed <$> closed) ++ (if client then [ClientClosed] else []) ++
    (if readLoop then [ReadLoopAwaited] else []))%list, t).

(** A server that is closed has closed its sockets, and closing it again closes nothing
    twice. *)
Theorem static_transport_closed_once t :
  (∀ link, tr_packetLink t = Some link → link ∉ tr_closedLinks t) →
  (closeTransport t).1 = (option_list (tr_streamListener t) ++ option_list (tr_packetLink t))%list
  ∧ (closeTransport (closeTransport t).2).1 = [].
Proof.
  destruct t as [listener [link|] closed]; unfold closeTransport; cbn; intros Hopen; [|by rewrite app_nil_r].
  by rewrite bool_decide_false by (by apply Hopen).
Qed.

End Transport.
